(* ===== verification/_CoqProject ===== *)
-Q . S2P
Prelude.v
NgxString.v
NgxHttpArg.v
NgxPalloc.v
NginxProps.v
Geo.v
SharedMem.v
StrMap.v
StrMapProps.v
QuadTree.v
QuadTreeSpec.v
QuadTreeAdd.v
QuadTreeUpd.v
GeoProps.v
TreeProps.v
CoreData.v
Service.v
Handler.v
LaModule.v
HandlerSpec.v
Demo.v
HandlerProps.v
FaultProps.v
Workers.v
WorkersJoin.v
WorkersProps.v
WorkersLive.v
NgxCodec.v
NgxCodecProps.v
NgxTime.v
NgxTimeProps.v
NgxStrUtil.v
NgxStrUtilProps.v
NgxHttpParse.v
NgxRequestLine.v
NgxHeaderLine.v
NgxUri.v
NgxChunked.v
NgxRequestLineProps.v
NgxRequestLineInv.v
NgxUriProps.v
NgxUriNormal.v
NgxRequestProps.v
NgxChunkedProps.v
NgxRadix.v
NgxRadixProps.v
NgxHeaderValue.v
NgxHeaderValueProps.v
NgxHash.v
NgxHashProps.v
NgxArray.v
NgxHeaders.v
NgxHeadersProps.v
NgxFramingProps.v
NgxUpstreamRR.v
NgxUpstreamRRProps.v
NgxUpstreamPolicy.v
NgxUpstreamPolicyProps.v
NgxLocations.v
NgxLocationsProps.v
NgxLocationsBuild.v
NgxPrintf.v
NgxPrintfProps.v
NgxBuf.v
NgxRange.v
NgxRangeProps.v
NgxRangeBody.v
NgxInet.v
NgxInetProps.v
NgxUrl.v
NgxUrlProps.v
NgxScript.v
NgxScriptProps.v
NgxScriptCompile.v
NgxRewrite.v
NgxRewriteProps.v
NgxDigest.v
NgxDigestProps.v
NgxAuth.v
NgxAuthProps.v
