(* ===== verification/Prelude.v ===== *)
(** * Lookaround: a verification library

    Lookaround is an nginx module that keeps, in memory shared by the worker
    processes, a catalogue of items with an identifier, a status, a type and a
    location, and answers over HTTP which items lie around a location.  This
    library models the module (src/src/ngx_http_lookaround_*.c and .h), the parts
    of nginx through which its requests pass (src/nginx/src/core/ngx_string.c,
    ngx_palloc.c, ngx_spinlock.c, src/nginx/src/http/ngx_http_parse.c) and some
    routines of nginx around them, as executable functions, and proves what they
    do.

    ** The program

    A request for [/setitem?...], [/getitem?...] or [/lookaround?...] enters
    [ngx_http_lookaround_handler], which picks the action from the first segment
    of the path.  The action reads its arguments with [ngx_http_arg] and the
    number parsers, works on the shared data, and sends a text it allocates from
    the pool of the request.  The shared data are
    - a quad tree of the map: inner nodes divide their rectangle in four, each
      leaf of the deepest level carries a doubly linked list of data nodes;
    - a string map from identifiers to data nodes;
    - a spin lock.
    All three live in a pool of the OSSP mm library that the master process
    creates when it initialises the module.

    ** The files

    - [Prelude]: outcomes of C code, machine integers, bytes, decimal printing,
      the tactics.  A pointer that is dereferenced while NULL, an access behind
      an array and the like are values of [out], not assumptions.
    - [NgxString] (ngx_string.c, ngx_string.h: number parsers, bounded searches),
      [NgxHttpArg] ([ngx_http_arg]), [NgxPalloc] (ngx_palloc.c: memory pools),
      [NginxProps] (their properties).
    - [Geo] (ngx_http_lookaround_map.c and .h: rectangles, fixed-point degrees,
      the search rectangle in binary64 arithmetic), [GeoProps].
    - [SharedMem]: the mm library as the class [MM] of operations and [MMLaws] of
      documented promises, with a concrete pool.
    - [StrMap] (ngx_http_lookaround_strmap.c), [StrMapProps]: the string map
      refines a finite map.
    - [QuadTree] (the tree operations of ngx_http_lookaround_handler.c on a store
      of nodes linked by pointers); [QuadTreeSpec]: the tree [qt] that a store
      represents, [rep]; [QuadTreeAdd], [QuadTreeUpd]: insertion,
      update in place and search on it; [TreeProps].
    - [CoreData] (nla_core_data, its initialisation, the lock, getdatanode and
      setdataloc); [Service]: [svc], the catalogue that tree, string map and data
      nodes represent together, and the refinement of the operations.
    - [Handler] (all handlers of ngx_http_lookaround_handler.c, parts of _util.c),
      [LaModule] (ngx_http_lookaround_module.c and the rest of _util.c),
      [HandlerSpec], [HandlerProps], [FaultProps]; [Demo] is the concrete instance
      on which witnesses run.
    - [Workers]: the calls of setdataloc of several worker processes as a step
      relation, with [ngx_spinlock] test by test, the lookup without the lock (get_pair
      of _strmap.c) access by access, and the change of a bucket (sm_put_ptrvalue)
      write by write; [WorkersJoin], [WorkersProps], [WorkersLive]: its invariant, its
      properties, and that every call ends.
    - [NgxCodec], [NgxCodecProps] (base64, percent and HTML escapes, UTF-8 of
      ngx_string.c); [NgxTime], [NgxTimeProps] (ngx_http_parse_time.c and the
      printers of ngx_times.c); [NgxStrUtil], [NgxStrUtilProps] (copies,
      comparisons, searches, number printing and [ngx_sort] of ngx_string.c).
    - [NgxHttpParse] (the fields of a request and the loop the parsers share),
      [NgxRequestLine], [NgxHeaderLine], [NgxUri], [NgxHeaderValue] (the state
      machines and searches of ngx_http_parse.c, with
      [ngx_http_process_request_uri] and [ngx_http_validate_host] of
      ngx_http_request.c), [NgxChunked] (chunked bodies and the filters of
      ngx_http_request_body.c); [NgxRequestLineProps],
      [NgxRequestLineInv], [NgxUriProps], [NgxUriNormal], [NgxRequestProps],
      [NgxChunkedProps], [NgxHeaderValueProps]: their properties.
    - [NgxArray] (ngx_array.c, ngx_list.c), [NgxHash], [NgxHashProps] (ngx_hash.c),
      [NgxRadix], [NgxRadixProps] (ngx_radix_tree.c).
    - [NgxHeaders] (the table of known headers, the handlers, the loop over the
      header and the final checks of ngx_http_request.c), [NgxHeadersProps],
      [NgxFramingProps].
    - [NgxUpstreamRR] (ngx_http_upstream_round_robin.c), [NgxUpstreamPolicy] (the
      ip_hash and least_conn modules, which fall back on the round robin),
      [NgxUpstreamRRProps], [NgxUpstreamPolicyProps].
    - [NgxLocations] (the locations of ngx_http.c and their search in
      ngx_http_core_module.c), [NgxLocationsProps] (the nested queue, the tree and
      the search), [NgxLocationsBuild] (from the declared locations to the search).
    - [NgxPrintf] ([ngx_vslprintf] of ngx_string.c), [NgxPrintfProps]; [NgxBuf]
      (ngx_buf.c: buffers and chains); [NgxRange]
      (ngx_http_range_filter_module.c), [NgxRangeProps], [NgxRangeBody]: the ranges
      that are accepted, the announced lengths, and the bytes that are passed on.
    - [NgxInet] (numeric addresses and networks of ngx_inet.c), [NgxInetProps];
      [NgxUrl] (the addresses of a configuration in ngx_inet.c,
      and ngx_parse.c), [NgxUrlProps].
    - [NgxScript] (the compiler of texts with variables and the engine that runs
      their codes, of ngx_http_script.c and ngx_http_variables.c),
      [NgxScriptProps] (what a sequence of codes computes), [NgxScriptCompile]
      (the compiler is correct); [NgxRewrite] (the other codes of
      ngx_http_script.c and ngx_http_rewrite_module.c), [NgxRewriteProps].
    - [NgxDigest] (ngx_crc32.c and .h, ngx_murmurhash.c, ngx_md5.c),
      [NgxDigestProps] (the checksums and RFC 1321); [NgxAuth] (ngx_crypt.c,
      [ngx_libc_crypt] of ngx_user.c, [ngx_http_auth_basic_user] of
      ngx_http_core_module.c and the handler of ngx_http_auth_basic_module.c),
      [NgxAuthProps].

    ** What the theorems show

    - Service: initialisation establishes [svc] with the empty catalogue; setitem
      of a new identifier adds its item, setitem of a known one moves it inside
      its cell and keeps its status and type; getitem answers the JSON text of the
      catalogued item; lookaround answers exactly the first items, up to the count
      asked for, of the requested status and type in the search rectangle.
    - Workers: in every interleaving the critical sections exclude each other;
      workers that set new identifiers of different buckets of the string map never
      crash, finish, and end in the catalogue with all their items.  Two workers that
      set the same new identifier collide, and two that set different identifiers of
      one bucket may do so too: the lookup of one reads the array of pairs that the
      other has moved.
    - Components: insertion keeps the tree invariant, the pruning search equals a
      scan of all items, the quadrants partition a rectangle, the string map
      answers every history of operations as a finite map, a pool allocation
      returns free aligned bytes, [ngx_http_arg] equals a left-to-right scan, the
      number parsers are exact, printing into the output buffer is bounded.
    - Faults: what the code does where it does not do what it means to.  Moving an
      item to another cell cuts its old neighbours off, and moving it back makes
      searches run forever; items off the map crash a later request; an
      identifier of 32 bytes overruns its buffer; negative degrees are misprinted
      and overrun their buffer; cos gets degrees.
    - nginx: round trips of base64, percent escapes, dates and printed numbers,
      the absence of reads behind a date, the stable sort, the characters of
      UTF-8 texts and a read behind truncated ones.
    - nginx requests: the parsers read no byte they were not given and store
      positions inside the buffer; parsing may stop and resume at any byte; a
      printed request line, header or chunked body is read back; the URI that
      handlers see has no dot segments and no doubled slashes before its last
      segment; the framing of a body behind well formed header lines is decided in
      one way.
    - nginx containers: a hash table answers as its list of names, a radix tree as
      the finite map of its prefixes with longest matches; what a search costs is
      bounded by the fuel below.
    - nginx balancing: the round robin gives every peer the share of its weight, a
      request tries no peer twice and ends, least_conn takes a least loaded peer,
      ip_hash keeps a client on its peer.
    - nginx locations: the queue of the declared locations is sorted, split by
      kind, joined, nested and made into trees so that a search finds the exact
      location, a redirection or the inclusive location with the longest name.
    - nginx byte ranges: accepted ranges lie inside the content; the body of a
      response is exactly the bytes of the ranges, with boundaries and headers when
      there are several, and as long as its header says.
    - nginx addresses: IPv6 addresses and networks are read as they are printed,
      a URL with an IPv4 address is read as its address, port and URI.
    - nginx scripts: a text with variables is compiled exactly when the grammar of
      such texts accepts it, and evaluates to the text with its variables and
      captures replaced; a rewrite sets the URI and the arguments to its
      replacement, in a buffer that is large enough; after a rewrite with arguments
      a set of a capture may overrun its buffer.
    - nginx digests and passwords: the two CRC tables agree with the division bit by
      bit, MD5 in pieces is MD5 of the whole; a request is let in when its
      password encrypts to the text of the first line for its name in the file of users,
      whatever the sizes of the reads of the file, and refused when it does not; MD5
      crypt writes 7 bytes more than it asked memory for.

    ** Bounds and fuel

    Loops over an array are structural.  The recursion over the tree takes as
    fuel its number of levels plus one; the walk along a list of a leaf the number
    of data nodes plus one; the recursion of [ngx_palloc] through
    [ngx_palloc_large] two levels; the searches in strings the bytes left plus
    one.  A state machine over a buffer is structural in the bytes left.  The
    loop over the lines of a header, over the parameters of a value and over the
    buffers of a body take the bytes left plus one, since each round takes a byte;
    [ngx_hash_find] the elements of the table plus one; the search for a size of a
    table the sizes left; walks in a radix tree the bits of a key and two more.
    The balancer calls itself once, for the backup peers; ip_hash tries 21 times;
    the tree of locations takes the number of its locations.  The printer takes the
    bytes of its format plus one, the parser of ranges those of the header, the
    walk along a chain its links, the parser of an IPv6 address its bytes, the
    compiler of a text with variables its bytes plus one.  The engine of scripts
    takes the bytes of its codes plus one: the codes that the directives emit never
    go back.  MD5 takes the bytes of its text plus one, MD5 crypt those of the password
    plus one, and the search of the file of users more reads than the file has bytes.
    Workers: a round is a turn of every worker; the number of rounds that is enough is
    given by the numbers of workers and of items, as a lookup walks along its bucket.  The theorems say that this is enough: they conclude [Ok], never "unless
    the fuel runs out".  The theorems about one request start with the lock free;
    [lock_alone_spin] says that a process that is alone takes a free lock at its
    first test, for any number of processors.

    ** What is not modelled

    The mm library, libm, libc's allocator and the kernel are parameters with
    their documented behaviour as laws.  Workers are interleaved inside
    the string map and the lock, but a call on the tree and an allocation, which the mm
    library locks, are one step each, memory is sequentially consistent, and searches
    are not interleaved with the calls of setdataloc.  The PCRE library enters as the function [pcre_exec], whose named
    captures the search for a location does not store; TLS, with the sessions that
    upstream peers keep, and upstream peers made from addresses resolved at run time
    are left out.  The resolver of the C library, the next filters, the handlers of
    variables, the test of a file and the sending of a response are parameters of
    the parts that use them, and so are crypt_r, SHA-1 and reading the file of users;
    [ngx_crypt] is never busy, as on systems with crypt_r.  The texts of header fields are
    values, not ranges of the buffer.  Of nginx, the event loop, the rest of the
    request and upstream machinery, the configuration parser, the other modules,
    mail, and the operating system layer are left out; the functions of the
    request machinery that handlers call enter through the status they return. *)
From stdpp Require Export base list gmap strings.
From Stdlib Require Export ZArith Lia.
From Stdlib Require Ascii String.

#[global] Open Scope Z_scope.

(** ** Outcomes of C code *)

(** Reasons for which a C execution has no defined result. *)
Inductive ub : Type :=
| NullDeref      (** a NULL pointer is dereferenced *)
| BadPointer     (** a pointer to no live object is dereferenced *)
| OutOfBounds    (** an array or buffer is accessed past its end *)
| BadFree        (** free() of memory that malloc() did not return *)
| DivByZero      (** integer division by zero *)
| BadConversion. (** a double outside the range of the target integer type *)

(** [Ok a]: the code returns [a]; [Undef u]: its behaviour is undefined;
    [NoFuel]: it is still running when the fuel of the model is used up. *)
Inductive out (A : Type) : Type :=
| Ok (a : A)
| Undef (u : ub)
| NoFuel.
Arguments Ok {_} _.
Arguments Undef {_} _.
Arguments NoFuel {_}.

#[export] Instance ub_eq_dec : EqDecision ub.
Proof. solve_decision. Defined.
#[export] Instance out_eq_dec {A} `{EqDecision A} : EqDecision (out A).
Proof. solve_decision. Defined.

Definition obind {A B} (m : out A) (f : A -> out B) : out B :=
  match m with
  | Ok a => f a
  | Undef u => Undef u
  | NoFuel => NoFuel
  end.

Declare Scope c_scope.
Delimit Scope c_scope with c.
Notation "'let!' x := m 'in' k" := (obind m (fun x => k))
  (at level 10, x pattern, m at level 200, k at level 200,
   format "'[v' 'let!'  x  :=  m  'in' '/' k ']'") : c_scope.
#[global] Open Scope c_scope.

(** A pointer that is dereferenced. *)
Definition deref {A} (p : option A) : out A :=
  match p with Some a => Ok a | None => Undef NullDeref end.

Lemma obind_Ok {A B} (f : A -> out B) (a : A) : obind (Ok a) f = f a.
Proof. reflexivity. Qed.

Lemma obind_Ok_inv {A B} (m : out A) (f : A -> out B) (b : B) :
  obind m f = Ok b -> exists a, m = Ok a /\ f a = Ok b.
Proof. destruct m; simpl; intros H; try discriminate. eauto. Qed.

Lemma obind_assoc {A B C} (m : out A) (f : A -> out B) (g : B -> out C) :
  obind (obind m f) g = obind m (fun a => obind (f a) g).
Proof. by destruct m. Qed.

(** ** Machine integers

    A [w]-bit integer is a [Z] in its range; [uwrap w] and [swrap w] write out
    the conversion to the unsigned and to the two's complement signed type. *)
Definition uwrap (w z : Z) : Z := z mod 2 ^ w.
Definition swrap (w z : Z) : Z := (z + 2 ^ (w - 1)) mod 2 ^ w - 2 ^ (w - 1).

Definition u32 : Z -> Z := uwrap 32.
Definition u64 : Z -> Z := uwrap 64.
Definition i32 : Z -> Z := swrap 32.
Definition i64 : Z -> Z := swrap 64.

Definition INT_MAX : Z := 2147483647.
Definition INT_MIN : Z := -2147483648.
Definition INT64_MAX : Z := 9223372036854775807.

Lemma uwrap_small w z : 0 <= z < 2 ^ w -> uwrap w z = z.
Proof. apply Z.mod_small. Qed.

Lemma swrap_small w z : 0 < w -> - 2 ^ (w - 1) <= z < 2 ^ (w - 1) -> swrap w z = z.
Proof.
  intros Hw Hz. unfold swrap.
  assert (2 ^ w = 2 * 2 ^ (w - 1)) as E.
  { rewrite <- Z.pow_succ_r by lia. f_equal. lia. }
  rewrite Z.mod_small by lia. lia.
Qed.

Lemma swrap_range w z : 0 < w -> - 2 ^ (w - 1) <= swrap w z < 2 ^ (w - 1).
Proof.
  intros Hw. unfold swrap.
  assert (2 ^ w = 2 * 2 ^ (w - 1)) as E.
  { rewrite <- Z.pow_succ_r by lia. f_equal. lia. }
  assert (0 < 2 ^ (w - 1)) by (apply Z.pow_pos_nonneg; lia).
  pose proof (Z.mod_pos_bound (z + 2 ^ (w - 1)) (2 ^ w) ltac:(lia)). lia.
Qed.

Lemma i32_small z : INT_MIN <= z <= INT_MAX -> i32 z = z.
Proof. unfold INT_MIN, INT_MAX. intros H. apply swrap_small; simpl; lia. Qed.

Lemma i32_range z : INT_MIN <= i32 z <= INT_MAX.
Proof.
  pose proof (swrap_range 32 z ltac:(lia)) as H. unfold i32, INT_MIN, INT_MAX. simpl in *. lia.
Qed.

Lemma i64_small z : - INT64_MAX - 1 <= z <= INT64_MAX -> i64 z = z.
Proof. unfold INT64_MAX. intros H. apply swrap_small; simpl; lia. Qed.

Lemma i64_range z : - INT64_MAX - 1 <= i64 z <= INT64_MAX.
Proof.
  pose proof (swrap_range 64 z ltac:(lia)) as H. unfold i64, INT64_MAX. simpl in *. lia.
Qed.

Lemma u32_small z : 0 <= z < 2 ^ 32 -> u32 z = z.
Proof. apply uwrap_small. Qed.

(** ** Byte strings *)
Abbreviation bytes := (list Z).

(** The bytes of a C string literal. *)
Definition bs (s : String.string) : bytes :=
  List.map (fun c => Z.of_N (Ascii.N_of_ascii c)) (String.list_ascii_of_string s).

(** The C string that starts a buffer: the bytes before the first NUL. *)
Fixpoint cstr (b : bytes) : bytes :=
  match b with
  | [] => []
  | c :: b' => if c =? 0 then [] else c :: cstr b'
  end.

Definition is_byte (c : Z) : Prop := 0 <= c <= 255.

Definition blen (b : bytes) : Z := Z.of_nat (length b).

(** ** Decimal printing: the [%d], [%0wd] and [%lld] directives of sprintf *)
Fixpoint digits_fuel (fuel : nat) (z : Z) : bytes :=
  match fuel with
  | O => []
  | S f => if z <? 10 then [48 + z] else digits_fuel f (z / 10) ++ [48 + z mod 10]
  end.

(** The decimal digits of [z >= 0]; a digit consumes more than one bit, so
    [log2 z + 1] rounds are enough (see [digits_value]). *)
Definition digits (z : Z) : bytes := digits_fuel (S (Z.to_nat (Z.log2 z))) z.

Definition fmt_d (z : Z) : bytes := if z <? 0 then 45 :: digits (- z) else digits z.

(** [%0wd]: zero padding up to [w] characters, the sign included. *)
Definition zpad (w : nat) (ds : bytes) : bytes := replicate (w - length ds)%nat 48 ++ ds.
Definition fmt_0d (w : nat) (z : Z) : bytes :=
  if z <? 0 then 45 :: zpad (w - 1)%nat (digits (- z)) else zpad w (digits z).

Definition is_digit (c : Z) : Prop := 48 <= c <= 57.

(** The value of a digit string, most significant digit first. *)
Definition dec_value (ds : bytes) : Z := fold_left (fun v c => v * 10 + (c - 48)) ds 0.

Lemma dec_value_app ds c : dec_value (ds ++ [c]) = dec_value ds * 10 + (c - 48).
Proof. unfold dec_value. by rewrite fold_left_app. Qed.

Lemma digits_fuel_spec f z :
  0 <= z < 2 ^ Z.of_nat f -> (0 < f)%nat ->
  dec_value (digits_fuel f z) = z /\ Forall is_digit (digits_fuel f z).
Proof.
  revert z. induction f as [|f IH]; intros z Hz Hf; [lia|]. cbn [digits_fuel].
  destruct (Z.ltb_spec z 10).
  - split; [unfold dec_value; simpl; lia|]. repeat constructor; unfold is_digit; lia.
  - pose proof (Z.mod_pos_bound z 10 ltac:(lia)).
    rewrite Nat2Z.inj_succ, Z.pow_succ_r in Hz by lia.
    assert (f <> 0%nat) by (intros ->; simpl in Hz; lia).
    destruct (IH (z / 10)) as [Hv Hd]; [split; [apply Z.div_pos|apply Z.div_lt_upper_bound]; lia|lia|].
    split.
    + rewrite dec_value_app, Hv. pose proof (Z.div_mod z 10 ltac:(lia)). lia.
    + apply Forall_app. split; [done|]. repeat constructor; unfold is_digit; lia.
Qed.

Lemma digits_spec z : 0 <= z -> dec_value (digits z) = z /\ Forall is_digit (digits z).
Proof.
  intros Hz. apply digits_fuel_spec; [|lia].
  rewrite Nat2Z.inj_succ, Z2Nat.id by apply Z.log2_nonneg.
  destruct (Z.eq_dec z 0) as [->|]; [simpl; lia|].
  pose proof (Z.log2_spec z ltac:(lia)). lia.
Qed.

Lemma digits_fuel_length f z k :
  0 <= z < 10 ^ Z.of_nat (S k) -> (length (digits_fuel f z) <= S k)%nat.
Proof.
  revert z k. induction f as [|f IH]; intros z k Hz; cbn [digits_fuel]; [simpl; lia|].
  destruct (Z.ltb_spec z 10); [simpl; lia|].
  destruct k as [|k]; [simpl in Hz; lia|].
  rewrite length_app. simpl.
  rewrite Nat2Z.inj_succ, Z.pow_succ_r in Hz by lia.
  assert (0 <= z / 10 < 10 ^ Z.of_nat (S k))
    by (split; [apply Z.div_pos|apply Z.div_lt_upper_bound]; lia).
  specialize (IH (z / 10) k ltac:(done)). lia.
Qed.

(** A number below [10^k] prints in at most [k] digits. *)
Lemma digits_length z k :
  0 <= z < 10 ^ Z.of_nat (S k) -> (length (digits z) <= S k)%nat.
Proof. apply digits_fuel_length. Qed.

Lemma digits_nonempty z : digits z <> [].
Proof.
  unfold digits. cbn [digits_fuel]. destruct (z <? 10); [done|].
  intros E. by apply app_eq_nil in E as [_ E].
Qed.

Lemma dec_value_range ds : Forall is_digit ds -> 0 <= dec_value ds < 10 ^ Z.of_nat (length ds).
Proof.
  induction ds as [|c ds IH] using rev_ind; [unfold dec_value; simpl; lia|].
  intros [Hd [Hc _]%Forall_cons]%Forall_app. specialize (IH Hd). unfold is_digit in Hc.
  rewrite dec_value_app, length_app, Nat2Z.inj_add, Z.pow_add_r by lia. simpl (10 ^ Z.of_nat (length [c])). lia.
Qed.

(** A number of at least [10^n] prints in more than [n] digits. *)
Lemma digits_length_ge z n : 0 < z -> 10 ^ Z.of_nat n <= z -> (S n <= length (digits z))%nat.
Proof.
  intros Hz Hn. destruct (Nat.le_gt_cases (S n) (length (digits z))) as [|Hlt]; [done|].
  destruct (digits_spec z ltac:(lia)) as [Hv Hds]. pose proof (dec_value_range _ Hds) as Hb. rewrite Hv in Hb.
  assert (10 ^ Z.of_nat (length (digits z)) <= 10 ^ Z.of_nat n) by (apply Z.pow_le_mono_r; lia). lia.
Qed.

Lemma zpad_length w ds : (length ds <= w)%nat -> length (zpad w ds) = w.
Proof. intros H. unfold zpad. rewrite length_app, length_replicate. lia. Qed.

Lemma dec_value_replicate0 n ds : dec_value (replicate n 48 ++ ds) = dec_value ds.
Proof. induction n as [|n IH]; [done|]. unfold dec_value in *. simpl. apply IH. Qed.

(** ** Reading arrays: a read past the end is undefined behaviour *)
Definition rd (a : bytes) (i : nat) : out Z :=
  match a !! i with Some c => Ok c | None => Undef OutOfBounds end.

Lemma rd_lookup a i c : a !! i = Some c -> rd a i = Ok c.
Proof. unfold rd. by intros ->. Qed.

Lemma rd_in_range a i : (i < length a)%nat -> exists c, a !! i = Some c /\ rd a i = Ok c.
Proof. intros H. destruct (lookup_lt_is_Some_2 a i H) as [c Hc]. eauto using rd_lookup. Qed.

(** *** Digits from the left *)

Lemma digits_small z : 0 <= z < 10 -> digits z = [48 + z].
Proof. intros H. unfold digits. cbn [digits_fuel]. destruct (Z.ltb_spec z 10); [done|lia]. Qed.

(** One more digit: the fuel does not matter once it is enough. *)
Lemma digits_fuel_enough f g z : 0 <= z < 2 ^ Z.of_nat f -> (0 < f <= g)%nat -> digits_fuel g z = digits_fuel f z.
Proof.
  revert g z. induction f as [|f IH]; intros g z Hz Hfg; [lia|]. destruct g as [|g]; [lia|]. cbn [digits_fuel].
  destruct (Z.ltb_spec z 10) as [|Hge]; [done|]. f_equal. rewrite Nat2Z.inj_succ, Z.pow_succ_r in Hz by lia.
  destruct f as [|f]; [simpl in Hz; lia|]. apply IH; [|lia]. split; [by apply Z.div_pos; lia|].
  apply Z.div_lt_upper_bound; lia.
Qed.

Lemma digits_snoc z : 10 <= z -> digits z = digits (z / 10) ++ [48 + z mod 10].
Proof.
  intros Hz. unfold digits at 1. cbn [digits_fuel]. destruct (Z.ltb_spec z 10); [lia|]. f_equal.
  assert (0 < z / 10) by (apply Z.div_str_pos; lia). pose proof (Z.log2_spec z ltac:(lia)) as Hl.
  pose proof (Z.log2_spec (z / 10) ltac:(lia)) as Hl'.
  unfold digits. apply digits_fuel_enough.
  - rewrite Nat2Z.inj_succ, Z2Nat.id by apply Z.log2_nonneg. lia.
  - split; [lia|]. assert (Z.log2 (z / 10) < Z.log2 z); [|pose proof (Z.log2_nonneg (z / 10)); lia].
    apply Z.log2_lt_pow2; [done|]. rewrite Z.pow_succ_r in Hl by apply Z.log2_nonneg.
    apply Z.div_lt_upper_bound; lia.
Qed.

(** ** Characters and records

    [chr "x"] is the code of a character, a numeral once parsed.  [r <| f := v |>]
    is the C assignment [r->f = v] on a record that is [Settable]: the instance
    lists the fields, and the setter of one of them is found by matching. *)
Notation "'chr' s" := (ltac:(let v := eval vm_compute in (hd 0 (bs s%string)) in exact v))
  (at level 10, s constr at level 9, only parsing).
Abbreviation CR := 13.
Abbreviation LF := 10.

Class Settable (T : Type) : Type := eta : T -> T.
Class Setter {T E : Type} (get : T -> E) : Type := put : (E -> E) -> T -> T.

Ltac find_setter T get :=
  let e := constr:(_ : Settable T) in
  let e := eval red in e in
  exact (fun f (x : T) => ltac:(
    let b := eval cbv beta in (e x) in
    match b with context C [get x] => let b' := context C [f (get x)] in exact b' end)).
#[export] Hint Extern 1 (@Setter ?T ?E ?get) => find_setter T get : typeclass_instances.

Definition update {T E} (get : T -> E) {s : Setter get} (v : E) (x : T) : T := s (fun _ => v) x.
Notation "x <| f := v |>" := (update f v x) (at level 1, left associativity, format "x  <| f  :=  v |>").

(** ** Automation *)
Create HintDb la.
#[export] Hint Resolve digits_nonempty i32_range i64_range : la.

(** Case analysis on the boolean comparisons of a goal. *)
Ltac zcase :=
  repeat match goal with
  | |- context [?a <? ?b] => destruct (Z.ltb_spec a b)
  | |- context [?a <=? ?b] => destruct (Z.leb_spec a b)
  | |- context [?a =? ?b] => destruct (Z.eqb_spec a b)
  end.

(** The same in a hypothesis. *)
Ltac zcase_in H :=
  repeat match type of H with
  | context [?a <? ?b] => destruct (Z.ltb_spec a b)
  | context [?a <=? ?b] => destruct (Z.leb_spec a b)
  | context [?a =? ?b] => destruct (Z.eqb_spec a b)
  end.
