(* ===== verification/NgxString.v ===== *)
(** * String routines of nginx used by the module

    The parts of nginx/src/core/ngx_string.c and ngx_string.h through which the
    lookaround handlers read their parameters: number parsing ([ngx_atoi],
    [ngx_atofp] and their siblings) and the bounded, case-insensitive searches
    behind [ngx_http_arg].  A C pointer into a string is an index into a list of
    bytes; the length argument [n] of the number parsers is the length of the
    list they get.  Signed overflow of the accumulators is two's complement
    wrap-around, which is what the [value < 0] tests of the source look for. *)
From S2P Require Import Prelude.

Definition NGX_OK : Z := 0.
Definition NGX_ERROR : Z := -1.
Definition NGX_AGAIN : Z := -2.
Definition NGX_DONE : Z := -4.
Definition NGX_DECLINED : Z := -5.

Module Number.

(** The loop all decimal parsers share: [None] on a byte that is no digit. *)
Fixpoint dec_loop (value : Z) (line : bytes) : option Z :=
  match line with
  | [] => Some value
  | c :: line' =>
      if (c <? 48) || (57 <? c) then None
      else dec_loop (i64 (value * 10 + (c - 48))) line'
  end.

Definition finish (r : option Z) : Z :=
  match r with
  | None => NGX_ERROR
  | Some value => if value <? 0 then NGX_ERROR else value
  end.

Definition ngx_atoi (line : bytes) : Z :=
  if (length line =? 0)%nat then NGX_ERROR else finish (dec_loop 0 line).

Definition ngx_atosz (line : bytes) : Z :=
  if (length line =? 0)%nat then NGX_ERROR else finish (dec_loop 0 line).

Definition ngx_atoof (line : bytes) : Z :=
  if (length line =? 0)%nat then NGX_ERROR else finish (dec_loop 0 line).

Definition ngx_atotm (line : bytes) : Z :=
  if (length line =? 0)%nat then NGX_ERROR else finish (dec_loop 0 line).

(** The first loop of [ngx_atofp]: the accumulator and the decimals left. *)
Fixpoint fp_loop (value : Z) (dot : bool) (point : nat) (line : bytes) : option (Z * nat) :=
  match line with
  | [] => Some (value, point)
  | c :: line' =>
      if (point =? 0)%nat then None
      else if c =? 46 then
        if dot then None else fp_loop value true point line'
      else if (c <? 48) || (57 <? c) then None
      else fp_loop (i64 (value * 10 + (c - 48))) dot (if dot then (point - 1)%nat else point) line'
  end.

(** [while (point--) value = value * 10;] *)
Fixpoint fp_scale (point : nat) (value : Z) : Z :=
  match point with
  | O => value
  | S p => fp_scale p (i64 (value * 10))
  end.

Definition ngx_atofp (line : bytes) (point : nat) : Z :=
  if (length line =? 0)%nat then NGX_ERROR
  else match fp_loop 0 false point line with
       | None => NGX_ERROR
       | Some (value, p) => finish (Some (fp_scale p value))
       end.

Fixpoint hex_loop (value : Z) (line : bytes) : option Z :=
  match line with
  | [] => Some value
  | ch :: line' =>
      if (48 <=? ch) && (ch <=? 57) then hex_loop (i64 (value * 16 + (ch - 48))) line'
      else
        let c := Z.lor ch 32 in
        if (97 <=? c) && (c <=? 102) then hex_loop (i64 (value * 16 + (c - 97 + 10))) line'
        else None
  end.

Definition ngx_hextoi (line : bytes) : Z :=
  if (length line =? 0)%nat then NGX_ERROR else finish (hex_loop 0 line).

(** *** Exactness *)

Definition dec_from (v : Z) (ds : bytes) : Z := fold_left (fun v c => v * 10 + (c - 48)) ds v.

Lemma dec_from_app v l1 l2 : dec_from v (l1 ++ l2) = dec_from (dec_from v l1) l2.
Proof. apply fold_left_app. Qed.

Lemma dec_from_cons v c ds : dec_from v (c :: ds) = dec_from (v * 10 + (c - 48)) ds.
Proof. done. Qed.

Lemma dec_from_ge v ds : 0 <= v -> Forall is_digit ds -> v <= dec_from v ds.
Proof.
  intros Hv Hds. revert v Hv. induction Hds as [|c ds Hc Hds IH]; intros v Hv; [done|].
  rewrite dec_from_cons. unfold is_digit in Hc. specialize (IH (v * 10 + (c - 48)) ltac:(lia)). lia.
Qed.

Lemma dec_from_shift v ds : dec_from v ds = v * 10 ^ Z.of_nat (length ds) + dec_from 0 ds.
Proof.
  revert v. induction ds as [|c ds IH]; intros v; [unfold dec_from; simpl; lia|].
  rewrite !dec_from_cons, IH, (IH (0 * 10 + (c - 48))). cbn [length].
  rewrite Nat2Z.inj_succ, Z.pow_succ_r by lia. lia.
Qed.

Lemma not_digit_test c : is_digit c -> (c <? 48) || (57 <? c) = false.
Proof. unfold is_digit. intros. apply orb_false_iff. split; [apply Z.ltb_ge|apply Z.ltb_ge]; lia. Qed.

Lemma digit_test_false c : ~ is_digit c -> (c <? 48) || (57 <? c) = true.
Proof. unfold is_digit. intros H. zcase; simpl; auto; lia. Qed.

Lemma dec_loop_exact ds v :
  0 <= v -> Forall is_digit ds -> dec_from v ds <= INT64_MAX -> dec_loop v ds = Some (dec_from v ds).
Proof.
  intros Hv Hds. revert v Hv. induction Hds as [|c ds Hc Hds IH]; intros v Hv Hmax; [done|].
  rewrite dec_from_cons in *. cbn [dec_loop]. rewrite not_digit_test by done.
  unfold is_digit in Hc. pose proof (dec_from_ge (v * 10 + (c - 48)) ds ltac:(lia) Hds) as Hge.
  rewrite i64_small by (unfold INT64_MAX in *; lia). apply IH; lia.
Qed.

Lemma dec_loop_error v line : ~ Forall is_digit line -> dec_loop v line = None.
Proof.
  revert v. induction line as [|c line IH]; intros v H; [by destruct H|]. simpl.
  destruct ((c <? 48) || (57 <? c)) eqn:E; [done|].
  apply IH. contradict H. constructor; [|done].
  apply orb_false_iff in E as [?%Z.ltb_ge ?%Z.ltb_ge]. unfold is_digit. lia.
Qed.

Lemma finish_nonneg v : 0 <= v -> finish (Some v) = v.
Proof. simpl. intros. destruct (Z.ltb_spec v 0); lia. Qed.

Lemma finish_range r :
  (forall v, r = Some v -> v <= INT64_MAX) -> NGX_ERROR <= finish r <= INT64_MAX.
Proof.
  intros Hr. unfold finish, NGX_ERROR, INT64_MAX in *. destruct r as [v|]; [|lia].
  specialize (Hr v eq_refl). destruct (Z.ltb_spec v 0); lia.
Qed.

Lemma fp_loop_int ds v p rest :
  0 <= v -> Forall is_digit ds -> dec_from v ds <= INT64_MAX ->
  fp_loop v false (S p) (ds ++ rest) = fp_loop (dec_from v ds) false (S p) rest.
Proof.
  intros Hv Hds. revert v Hv. induction Hds as [|c ds Hc Hds IH]; intros v Hv Hmax; [done|].
  rewrite dec_from_cons in *. simpl. rewrite not_digit_test by done.
  unfold is_digit in Hc. pose proof (dec_from_ge (v * 10 + (c - 48)) ds ltac:(lia) Hds) as Hge.
  destruct (Z.eqb_spec c 46); [lia|].
  rewrite i64_small by (unfold INT64_MAX in *; lia). apply IH; lia.
Qed.

Lemma fp_loop_frac fs v p :
  0 <= v -> Forall is_digit fs -> dec_from v fs <= INT64_MAX -> (length fs <= p)%nat ->
  fp_loop v true p fs = Some (dec_from v fs, (p - length fs)%nat).
Proof.
  intros Hv Hfs. revert v p Hv. induction Hfs as [|c fs Hc Hfs IH]; intros v p Hv Hmax Hp.
  { simpl. by rewrite Nat.sub_0_r. }
  rewrite dec_from_cons in *. simpl in *. destruct p as [|p]; [lia|]. simpl.
  rewrite not_digit_test by done. unfold is_digit in Hc.
  pose proof (dec_from_ge (v * 10 + (c - 48)) fs ltac:(lia) Hfs) as Hge.
  destruct (Z.eqb_spec c 46); [lia|].
  rewrite Nat.sub_0_r, i64_small by (unfold INT64_MAX in *; lia). apply IH; lia.
Qed.

Lemma fp_loop_frac_long fs v p :
  Forall is_digit fs -> (p < length fs)%nat -> fp_loop v true p fs = None.
Proof.
  intros Hfs. revert v p. induction Hfs as [|c fs Hc Hfs IH]; intros v p Hp; simpl in *; [lia|].
  destruct p as [|p]; [done|]. simpl. rewrite not_digit_test by done.
  unfold is_digit in Hc. destruct (Z.eqb_spec c 46); [lia|]. apply IH. lia.
Qed.

Lemma fp_loop_error v dot p line :
  ~ Forall (fun c => c = 46 \/ is_digit c) line -> fp_loop v dot p line = None.
Proof.
  revert v dot p. induction line as [|c line IH]; intros v dot p H; [by destruct H|]. simpl.
  destruct (p =? 0)%nat; [done|]. destruct (Z.eqb_spec c 46) as [->|Hc].
  - destruct dot; [done|]. apply IH. contradict H. constructor; auto.
  - destruct ((c <? 48) || (57 <? c)) eqn:E; [done|].
    apply IH. contradict H. constructor; [right|done].
    apply orb_false_iff in E as [?%Z.ltb_ge ?%Z.ltb_ge]. unfold is_digit. lia.
Qed.

Lemma fp_scale_exact p v : 0 <= v -> v * 10 ^ Z.of_nat p <= INT64_MAX -> fp_scale p v = v * 10 ^ Z.of_nat p.
Proof.
  revert v. induction p as [|p IH]; intros v Hv Hmax; [simpl; lia|].
  rewrite Nat2Z.inj_succ, Z.pow_succ_r in * by lia. cbn [fp_scale].
  assert (0 < 10 ^ Z.of_nat p) by (apply Z.pow_pos_nonneg; lia).
  rewrite i64_small by (unfold INT64_MAX in *; nia). rewrite IH by lia. lia.
Qed.

Lemma ngx_atoi_exact ds :
  ds <> [] -> Forall is_digit ds -> dec_value ds <= INT64_MAX -> ngx_atoi ds = dec_value ds.
Proof.
  intros Hne Hds Hmax. unfold ngx_atoi. destruct ds as [|c ds]; [done|]. cbn [length Nat.eqb].
  rewrite dec_loop_exact by done. apply finish_nonneg.
  pose proof (dec_from_ge 0 _ ltac:(lia) Hds). done.
Qed.

Lemma ngx_atofp_frac ds fs p :
  Forall is_digit ds -> Forall is_digit fs -> (length fs <= p)%nat -> (0 < p)%nat ->
  dec_value (ds ++ fs) * 10 ^ Z.of_nat (p - length fs) <= INT64_MAX ->
  ngx_atofp (ds ++ 46 :: fs) p = dec_value (ds ++ fs) * 10 ^ Z.of_nat (p - length fs).
Proof.
  intros Hds Hfs Hlen Hp Hmax. unfold ngx_atofp. rewrite length_app. simpl.
  rewrite Nat.add_succ_r. simpl. destruct p as [|p]; [lia|].
  assert (0 < 10 ^ Z.of_nat (S p - length fs)) by (apply Z.pow_pos_nonneg; lia).
  pose proof (dec_from_ge 0 ds ltac:(lia) Hds) as H0.
  pose proof (dec_from_ge (dec_from 0 ds) fs H0 Hfs) as H1.
  change (dec_value (ds ++ fs)) with (dec_from 0 (ds ++ fs)) in *.
  rewrite dec_from_app in *.
  rewrite fp_loop_int by (try done; nia). cbn [fp_loop]. simpl.
  rewrite fp_loop_frac by (try done; nia).
  rewrite fp_scale_exact by (try lia; nia). apply finish_nonneg. nia.
Qed.

Lemma ngx_atofp_int ds p :
  ds <> [] -> Forall is_digit ds -> (0 < p)%nat ->
  dec_value ds * 10 ^ Z.of_nat p <= INT64_MAX ->
  ngx_atofp ds p = dec_value ds * 10 ^ Z.of_nat p.
Proof.
  intros Hne Hds Hp Hmax. unfold ngx_atofp. destruct (length ds =? 0)%nat eqn:E.
  { apply Nat.eqb_eq, nil_length_inv in E. done. }
  destruct p as [|p]; [lia|].
  assert (0 < 10 ^ Z.of_nat (S p)) by (apply Z.pow_pos_nonneg; lia).
  pose proof (dec_from_ge 0 ds ltac:(lia) Hds) as H0.
  change (dec_value ds) with (dec_from 0 ds) in *.
  replace (fp_loop 0 false (S p) ds) with (Some (dec_from 0 ds, S p)).
  2: { rewrite <- (app_nil_r ds) at 2. rewrite fp_loop_int by (try done; nia). done. }
  rewrite fp_scale_exact by lia. apply finish_nonneg. nia.
Qed.

End Number.

Module Search.

Definition lower (c : Z) : Z := if (65 <=? c) && (c <=? 90) then Z.lor c 32 else c.

(** [ngx_strlchr(p, last, c)]: [n] is [last - p]. *)
Fixpoint strlchr_loop (a : bytes) (p n : nat) (c : Z) : out (option nat) :=
  match n with
  | O => Ok None
  | S n' => let! x := rd a p in if x =? c then Ok (Some p) else strlchr_loop a (S p) n' c
  end.

Definition ngx_strlchr (a : bytes) (p last : nat) (c : Z) : out (option nat) :=
  strlchr_loop a p (last - p) c.

(** [ngx_strncasecmp(a + i, b + j, n)]. *)
Fixpoint ngx_strncasecmp (a : bytes) (i : nat) (b : bytes) (j : nat) (n : nat) : out Z :=
  match n with
  | O => Ok 0
  | S n' =>
      let! c1 := rd a i in
      let! c2 := rd b j in
      let c1 := lower c1 in
      let c2 := lower c2 in
      if c1 =? c2 then
        if c1 =? 0 then Ok 0 else ngx_strncasecmp a (S i) b (S j) n'
      else Ok (i64 (u64 (c1 - c2)))
  end.

(** The two nested [do ... while] loops of [ngx_strlcasestrn]; both continue
    the scan at the next byte. [last] is already [last - n]. *)
Fixpoint casestrn_loop (fuel : nat) (a : bytes) (s1 : nat) (last : Z) (b : bytes) (n : nat) (c2 : Z)
  : out (option nat) :=
  match fuel with
  | O => NoFuel
  | S f =>
      if last <=? Z.of_nat s1 then Ok None
      else
        let! c1 := rd a s1 in
        if negb (lower c1 =? c2) then casestrn_loop f a (S s1) last b n c2
        else
          let! r := ngx_strncasecmp a (S s1) b 1 n in
          if negb (r =? 0) then casestrn_loop f a (S s1) last b n c2 else Ok (Some s1)
  end.

(** [ngx_strlcasestrn(a + s1, a + last, b, n)]; the fuel is the number of bytes
    between [s1] and [last], plus one for the final test. *)
Definition ngx_strlcasestrn (a : bytes) (s1 last : nat) (b : bytes) (n : nat) : out (option nat) :=
  let! c2 := rd b 0 in
  casestrn_loop (S (last - s1)) a s1 (Z.of_nat last - Z.of_nat n) b n (lower c2).

(** *** Lemmas *)

Definition lowers (b : bytes) : bytes := lower <$> b.

(** [b] occurs in [a] at [i], letters compared without case. *)
Definition ci_at (a : bytes) (i : nat) (b : bytes) : Prop :=
  lowers (take (length b) (drop i a)) = lowers b.

#[export] Instance ci_at_dec a i b : Decision (ci_at a i b).
Proof. unfold ci_at. apply _. Defined.

Lemma lower_byte c : is_byte c -> is_byte (lower c).
Proof.
  unfold lower, is_byte. intros H.
  destruct ((65 <=? c) && (c <=? 90)) eqn:E; [|done].
  apply andb_prop in E as [?%Z.leb_le ?%Z.leb_le].
  split; [apply Z.lor_nonneg; lia|].
  assert (Z.lor c 32 < 2 ^ 8); [|simpl in *; lia].
  apply Z.log2_lt_pow2; [|rewrite Z.log2_lor by lia; apply Z.max_lub_lt; [apply Z.log2_lt_pow2|]; simpl; lia].
  assert (0 <= Z.lor c 32) by (apply Z.lor_nonneg; lia).
  assert (Z.lor c 32 <> 0) by (rewrite Z.lor_eq_0_iff; lia). lia.
Qed.

Lemma lower_zero c : is_byte c -> lower c = 0 -> c = 0.
Proof.
  unfold lower. intros _. destruct (_ && _); [|done]. rewrite Z.lor_eq_0_iff. lia.
Qed.

Lemma byte_diff_zero c d : is_byte c -> is_byte d -> i64 (u64 (c - d)) = 0 -> c = d.
Proof.
  unfold is_byte, i64, u64, swrap, uwrap. intros Hc Hd.
  destruct (Z.le_gt_cases d c).
  - rewrite (Z.mod_small (c - d)) by (simpl; lia). rewrite Z.mod_small by (simpl; lia). lia.
  - replace (c - d) with ((c - d + 2 ^ 64) + (-1) * 2 ^ 64) by lia.
    rewrite Z.mod_add by lia. rewrite (Z.mod_small (c - d + 2 ^ 64)) by (simpl; lia).
    replace (c - d + 2 ^ 64 + 2 ^ (64 - 1)) with ((c - d + 2 ^ 63) + 1 * 2 ^ 64) by (simpl; lia).
    rewrite Z.mod_add by lia. rewrite Z.mod_small by (simpl; lia). simpl. lia.
Qed.

Lemma ngx_strncasecmp_spec a i b j n :
  Forall is_byte a -> Forall is_byte b -> Forall (fun c => c <> 0) b ->
  (i + n <= length a)%nat -> (j + n <= length b)%nat ->
  exists r, ngx_strncasecmp a i b j n = Ok r /\
    (r = 0 <-> lowers (take n (drop i a)) = lowers (take n (drop j b))).
Proof.
  intros Ha Hb Hnz. revert i j. induction n as [|n IH]; intros i j Hi Hj.
  { exists 0. done. }
  destruct (rd_in_range a i ltac:(lia)) as (c1 & Hc1 & Hr1).
  destruct (rd_in_range b j ltac:(lia)) as (c2 & Hc2 & Hr2).
  pose proof (Forall_lookup_1 _ _ _ _ Ha Hc1) as B1. pose proof (Forall_lookup_1 _ _ _ _ Hb Hc2) as B2.
  pose proof (Forall_lookup_1 _ _ _ _ Hnz Hc2) as N2.
  cbn [ngx_strncasecmp]. rewrite Hr1, Hr2, !obind_Ok.
  rewrite (drop_S _ _ _ Hc1), (drop_S _ _ _ Hc2). unfold lowers in *. cbn [take fmap list_fmap].
  destruct (Z.eqb_spec (lower c1) (lower c2)) as [E|E].
  - destruct (Z.eqb_spec (lower c1) 0) as [E0|E0].
    { rewrite E in E0. apply lower_zero in E0; done. }
    destruct (IH (S i) (S j) ltac:(lia) ltac:(lia)) as (r & -> & Hr). exists r. split; [done|].
    rewrite Hr, E. split; [by intros ->|by intros [=]].
  - eexists. split; [done|]. split; [|by intros [=]].
    intros Hz. apply byte_diff_zero in Hz; auto using lower_byte. done.
Qed.

Lemma ci_at_cons a i c x b :
  a !! i = Some c ->
  ci_at a i (x :: b) <-> lower c = lower x /\ lowers (take (length b) (drop (S i) a)) = lowers b.
Proof.
  intros Hc. unfold ci_at, lowers. rewrite (drop_S _ _ _ Hc). simpl.
  split; [by intros [=]|]. intros [H1 H2]. by f_equal.
Qed.

Lemma casestrn_loop_spec fuel a s1 last x b :
  Forall is_byte a -> Forall is_byte (x :: b) -> Forall (fun c => c <> 0) (x :: b) ->
  (last <= length a)%nat -> (last - s1 < fuel)%nat ->
  exists r,
    casestrn_loop fuel a s1 (Z.of_nat last - Z.of_nat (length b)) (x :: b) (length b) (lower x) = Ok r /\
    match r with
    | Some j => (s1 <= j /\ j + S (length b) <= last)%nat /\ ci_at a j (x :: b) /\
                forall k, (s1 <= k < j)%nat -> ~ ci_at a k (x :: b)
    | None => forall k, (s1 <= k)%nat -> (k + S (length b) <= last)%nat -> ~ ci_at a k (x :: b)
    end.
Proof.
  intros Ha Hb Hnz Hlast. revert s1. induction fuel as [|fuel IH]; intros s1 Hf; [lia|].
  cbn [casestrn_loop]. destruct (Z.leb_spec (Z.of_nat last - Z.of_nat (length b)) (Z.of_nat s1)).
  { exists None. split; [done|]. intros k Hk1 Hk2. lia. }
  destruct (rd_in_range a s1 ltac:(lia)) as (c1 & Hc1 & ->). rewrite obind_Ok.
  pose proof (ci_at_cons a s1 c1 x b Hc1) as Hci.
  assert (Hnext : ~ ci_at a s1 (x :: b) ->
    exists r, casestrn_loop fuel a (S s1) (Z.of_nat last - Z.of_nat (length b)) (x :: b) (length b) (lower x) = Ok r /\
    match r with
    | Some j => (s1 <= j /\ j + S (length b) <= last)%nat /\ ci_at a j (x :: b) /\
                forall k, (s1 <= k < j)%nat -> ~ ci_at a k (x :: b)
    | None => forall k, (s1 <= k)%nat -> (k + S (length b) <= last)%nat -> ~ ci_at a k (x :: b)
    end).
  { intros Hno. destruct (IH (S s1) ltac:(lia)) as (r & Hr & Hspec). exists r. split; [done|].
    destruct r as [j|].
    - destruct Hspec as (Hj & Hat & Hmin). split; [lia|]. split; [done|].
      intros k Hk. destruct (decide (k = s1)) as [->|]; [done|]. apply Hmin. lia.
    - intros k Hk1 Hk2. destruct (decide (k = s1)) as [->|]; [done|]. apply Hspec; lia. }
  destruct (Z.eqb_spec (lower c1) (lower x)) as [E|E]; simpl negb.
  2: { cbn iota. apply Hnext. rewrite Hci. tauto. }
  destruct (ngx_strncasecmp_spec a (S s1) (x :: b) 1 (length b)) as (r & -> & Hr);
    [done|done|done|lia|simpl; lia|].
  rewrite obind_Ok. change (drop 1 (x :: b)) with b in Hr. rewrite firstn_all in Hr.
  destruct (Z.eqb_spec r 0) as [Hz|Hz]; simpl negb.
  - exists (Some s1). split; [done|]. split; [lia|]. split; [|intros; lia].
    apply Hci. tauto.
  - cbn iota. apply Hnext. rewrite Hci. tauto.
Qed.

Lemma ngx_strlcasestrn_spec a s1 last b :
  Forall is_byte a -> Forall is_byte b -> Forall (fun c => c <> 0) b -> b <> [] ->
  (last <= length a)%nat ->
  exists r,
    ngx_strlcasestrn a s1 last b (length b - 1) = Ok r /\
    match r with
    | Some j => (s1 <= j /\ j + length b <= last)%nat /\ ci_at a j b /\
                forall k, (s1 <= k < j)%nat -> ~ ci_at a k b
    | None => forall k, (s1 <= k)%nat -> (k + length b <= last)%nat -> ~ ci_at a k b
    end.
Proof.
  intros Ha Hb Hnz Hne Hlast. destruct b as [|x b]; [done|]. unfold ngx_strlcasestrn.
  change (rd (x :: b) 0) with (Ok x : out Z). rewrite obind_Ok.
  replace (length (x :: b) - 1)%nat with (length b) by (simpl; lia).
  apply casestrn_loop_spec; auto; lia.
Qed.

(** The bytes of [a] from [p] up to the first [c], or up to the end. *)
Fixpoint until (c : Z) (a : bytes) : bytes :=
  match a with
  | [] => []
  | x :: a' => if x =? c then [] else x :: until c a'
  end.

Lemma strlchr_loop_spec a p n c :
  (p + n = length a)%nat ->
  exists r, strlchr_loop a p n c = Ok r /\
    (default (length a) r = p + length (until c (drop p a)))%nat.
Proof.
  revert p. induction n as [|n IH]; intros p Hp.
  { exists None. split; [done|]. rewrite drop_ge by lia. simpl. lia. }
  destruct (rd_in_range a p ltac:(lia)) as (x & Hx & Hr).
  cbn [strlchr_loop]. rewrite Hr, obind_Ok. rewrite (drop_S _ _ _ Hx). cbn [until].
  destruct (x =? c).
  - exists (Some p). split; [done|]. simpl. lia.
  - destruct (IH (S p) ltac:(lia)) as (r & -> & Hlen). exists r. split; [done|].
    rewrite Hlen. simpl. lia.
Qed.

Lemma until_app c a b : Forall (fun x => x <> c) a -> until c (a ++ b) = a ++ until c b.
Proof.
  induction 1 as [|x a Hx Ha IH]; [done|]. simpl. destruct (Z.eqb_spec x c); [done|]. by rewrite IH.
Qed.

Lemma take_until c a : take (length (until c a)) a = until c a.
Proof.
  induction a as [|x a IH]; [done|]. simpl. destruct (x =? c); [done|]. simpl. by rewrite IH.
Qed.

End Search.
