(* ===== verification/NgxHttpArg.v ===== *)
(** * Query arguments: [ngx_http_arg] of nginx/src/http/ngx_http_parse.c

    The search for a [name=value] pair in the query string of a request, and the
    proof that it computes the reference scan [arg_scan], without reading outside
    the query string and for every query string. *)
From S2P Require Import Prelude.
From S2P Require Import NgxString.
Import Search.

(** The [for] loop of [ngx_http_arg] from position [p] on.  [Ok None] stands for
    NGX_DECLINED, [Ok (Some v)] for NGX_OK with [v] the bytes of [*value]. *)
Fixpoint arg_loop (fuel : nat) (args : bytes) (name : bytes) (p : nat) : out (option bytes) :=
  match fuel with
  | O => NoFuel
  | S f =>
      let last := length args in
      let len := length name in
      if (last <=? p)%nat then Ok None
      else
        let! r := ngx_strlcasestrn args p (last - 1) name (len - 1) in
        match r with
        | None => Ok None
        | Some p =>
            let! start := (if (p =? 0)%nat then Ok true
                           else let! c := rd args (p - 1) in Ok (c =? 38)) in
            let! found := (if start : bool then let! c := rd args (p + len) in Ok (c =? 61)
                           else Ok false) in
            if found : bool then
              let data := (p + len + 1)%nat in
              let! q := ngx_strlchr args p last 38 in
              let q := default last q in
              Ok (Some (take (q - data) (drop data args)))
            else arg_loop f args name (S p)
        end
  end.

(** At most one round per byte of the query string. *)
Definition ngx_http_arg (args : bytes) (name : bytes) : out (option bytes) :=
  if (length args =? 0)%nat then Ok None else arg_loop (S (length args)) args name 0.

(** ** Reference: scan for a parameter that starts with [name=] *)

(** [start] holds at the beginning of a parameter: at the start of the query
    string or after an ['&']. *)
Fixpoint arg_scan (start : bool) (args : bytes) (name : bytes) : option bytes :=
  match args with
  | [] => None
  | c :: args' =>
      if start && bool_decide (ci_at args 0 name) && bool_decide (args !! length name = Some 61)
      then Some (until 38 (drop (S (length name)) args))
      else arg_scan (c =? 38) args' name
  end.

(** Names the callers use: non-empty, bytes, no NUL, no ['&'], no ['=']. *)
Definition arg_name (name : bytes) : Prop :=
  name <> [] /\ Forall is_byte name /\ Forall (fun c => c <> 0) name /\ Forall (fun c => lower c <> 38) name.

#[export] Instance arg_name_dec name : Decision (arg_name name).
Proof. unfold arg_name, is_byte. apply _. Defined.

Section Correct.
Context (args name : bytes).
Context (Hargs : Forall is_byte args) (Hname : arg_name name).

Definition starts (p : nat) : bool :=
  (p =? 0)%nat || bool_decide (args !! (p - 1)%nat = Some 38).

(** The reference at position [p] of the query string. *)
Definition scan_at (p : nat) : option bytes := arg_scan (starts p) (drop p args) name.

Definition hit (p : nat) : Prop :=
  starts p = true /\ ci_at args p name /\ args !! (p + length name)%nat = Some 61.

Lemma scan_at_end p : (length args <= p)%nat -> scan_at p = None.
Proof. intros H. unfold scan_at. by rewrite drop_ge by lia. Qed.

Lemma ci_at_drop p : ci_at (drop p args) 0 name <-> ci_at args p name.
Proof. unfold ci_at. by rewrite drop_0. Qed.

Lemma scan_at_hit p :
  hit p -> scan_at p = Some (until 38 (drop (p + length name + 1) args)).
Proof.
  intros (Hs & Hci & Heq). unfold scan_at. rewrite Hs.
  assert (p < length args)%nat by (apply lookup_lt_Some in Heq; lia).
  destruct (rd_in_range args p ltac:(done)) as (c & Hc & _). rewrite (drop_S _ _ _ Hc).
  cbn [arg_scan]. rewrite <- (drop_S _ _ _ Hc).
  rewrite !bool_decide_eq_true_2; [|by rewrite lookup_drop|by apply ci_at_drop].
  simpl andb. cbn iota. rewrite drop_drop.
  by replace (p + S (length name))%nat with (p + length name + 1)%nat by lia.
Qed.

Lemma scan_at_miss p : (p < length args)%nat -> ~ hit p -> scan_at p = scan_at (S p).
Proof.
  intros Hp Hno. unfold scan_at at 1. destruct (rd_in_range args p Hp) as (c & Hc & _).
  rewrite (drop_S _ _ _ Hc). cbn [arg_scan]. rewrite <- (drop_S _ _ _ Hc).
  replace (starts p && _ && _) with false.
  2: { symmetry. apply not_true_iff_false. rewrite !andb_true_iff, !bool_decide_eq_true.
       rewrite ci_at_drop, lookup_drop. unfold hit in Hno. tauto. }
  unfold scan_at, starts. simpl. rewrite Nat.sub_0_r, Hc. f_equal.
  destruct (Z.eqb_spec c 38) as [->|Hne]; [by rewrite bool_decide_eq_true_2|].
  rewrite bool_decide_eq_false_2; [done|congruence].
Qed.

Lemma scan_at_skip p q :
  (p <= q <= length args)%nat -> (forall k, (p <= k < q)%nat -> ~ hit k) -> scan_at p = scan_at q.
Proof.
  intros [Hpq Hq] Hno. induction Hpq as [|q Hpq IH]; [done|].
  rewrite IH by (try lia; intros; apply Hno; lia). apply scan_at_miss; [lia|]. apply Hno. lia.
Qed.

Lemma hit_room k : hit k -> (k + length name <= length args - 1)%nat.
Proof. intros (_ & _ & H%lookup_lt_Some). lia. Qed.

(** The value of a hit stops at the first ['&'] after the name. *)
Lemma until_after_hit p :
  hit p ->
  (length (until 38 (drop p args)) =
   length name + 1 + length (until 38 (drop (p + length name + 1) args)))%nat.
Proof.
  intros (_ & Hci & Heq). destruct Hname as (_ & _ & _ & Hamp).
  rewrite <- (take_drop (length name) (drop p args)) at 1. rewrite drop_drop.
  rewrite (drop_S _ _ _ Heq).
  rewrite until_app.
  - simpl. rewrite length_app. simpl. unfold ci_at, lowers in Hci.
    apply (f_equal length) in Hci. rewrite !length_fmap in Hci. rewrite Hci.
    replace (p + length name + 1)%nat with (S (p + length name)) by lia. lia.
  - unfold ci_at, lowers in Hci. apply Forall_forall. intros x Hx ->.
    apply (list_elem_of_fmap_2 lower) in Hx. rewrite Hci in Hx.
    apply list_elem_of_fmap in Hx as (y & Hy & Hin).
    rewrite Forall_forall in Hamp. apply (Hamp y Hin). by rewrite <- Hy.
Qed.

Lemma arg_loop_scan fuel p :
  (length args - p < fuel)%nat -> arg_loop fuel args name p = Ok (scan_at p).
Proof.
  destruct Hname as (Hne & Hnb & Hnz & Hamp).
  revert p. induction fuel as [|fuel IH]; intros p Hf; cbn [arg_loop].
  { lia. }
  destruct (Nat.leb_spec (length args) p) as [Hp|Hp]; [by rewrite scan_at_end|].
  destruct (ngx_strlcasestrn_spec args p (length args - 1) name) as (r & -> & Hspec);
    [done|done|done|done|lia|]. rewrite obind_Ok.
  destruct r as [j|].
  2: { rewrite (scan_at_skip p (length args)); [by rewrite scan_at_end by lia|lia|].
       intros k Hk Hh. apply (Hspec k); [lia| |apply Hh]. by apply hit_room. }
  destruct Hspec as (Hj & Hci & Hmin).
  rewrite (scan_at_skip p j) by (try lia; intros k Hk Hh; by apply (Hmin k Hk), Hh).
  assert ((if (j =? 0)%nat then Ok true else let! c := rd args (j - 1) in Ok (c =? 38))
          = Ok (starts j)) as ->.
  { unfold starts. destruct (Nat.eqb_spec j 0) as [->|Hj0]; [done|].
    destruct (rd_in_range args (j - 1) ltac:(lia)) as (c & Hc & ->). simpl. rewrite Hc.
    destruct (Z.eqb_spec c 38) as [->|Hne']; [by rewrite bool_decide_eq_true_2|].
    rewrite bool_decide_eq_false_2; congruence. }
  rewrite obind_Ok.
  destruct (rd_in_range args (j + length name) ltac:(lia)) as (c & Hc & Hrd).
  assert ((if starts j then let! c := rd args (j + length name) in Ok (c =? 61) else Ok false)
          = Ok (starts j && (c =? 61))) as ->.
  { destruct (starts j); [|done]. by rewrite Hrd. }
  rewrite obind_Ok. destruct (starts j && (c =? 61)) eqn:Hfound.
  - apply andb_prop in Hfound as [Hst ->%Z.eqb_eq].
    assert (hit j) as Hh by done.
    unfold ngx_strlchr.
    destruct (strlchr_loop_spec args j (length args - j) 38 ltac:(lia)) as (q & -> & Hq).
    rewrite obind_Ok, Hq, (until_after_hit j Hh), (scan_at_hit j Hh). do 2 f_equal.
    rewrite <- (take_until 38) at 2. f_equal. lia.
  - rewrite IH by lia. rewrite (scan_at_miss j); [done|lia|].
    intros (Hst & _ & Hq). rewrite Hc in Hq. injection Hq as ->. by rewrite Hst in Hfound.
Qed.
End Correct.

(** For every query string, and for a name without NUL, ['&'] and ['='], the
    search returns (it neither loops nor reads outside the query string) what
    the reference scan returns: the value of the first parameter called [name]
    up to case. *)
Lemma ngx_http_arg_scan args name :
  Forall is_byte args -> arg_name name ->
  ngx_http_arg args name = Ok (arg_scan true args name).
Proof.
  intros Ha Hn. unfold ngx_http_arg. destruct (Nat.eqb_spec (length args) 0) as [E|E].
  { apply nil_length_inv in E. by rewrite E. }
  rewrite arg_loop_scan by (try done; lia). unfold scan_at. by rewrite drop_0.
Qed.
