(* ===== verification/NgxPalloc.v ===== *)
(** * Memory pools: nginx/src/core/ngx_palloc.c

    The request pool from which the handlers allocate their response.  Addresses
    are integers; the blocks of a pool, linked through [d.next] in the source, are
    a list in which [p_current] is the position of [pool->current], and the large
    allocations a list of [alloc] members ([None] once freed).  The contents of
    the memory are not modelled, so [ngx_pcalloc] differs from [ngx_palloc] only
    by the zeroing its callers rely on.  [posix_memalign], [malloc] and [free] of
    libc are the parameters of the class [OSMem]. *)
From S2P Require Import Prelude.
From S2P Require Import NgxString.

Class OSMem := {
  os : Type;
  (** [os_alloc o align size]: an aligned block or NULL *)
  os_alloc : os -> Z -> Z -> option Z * os;
  os_free : os -> Z -> os;
}.

(** What the C standard promises of an allocation: it is aligned, it does not
    wrap around the address space and it meets no live block. *)
Class OSMemLaws (Osm : OSMem) := {
  os_live : os -> list (Z * Z);
  os_alloc_Some o al n p o' :
    os_alloc o al n = (Some p, o') -> 0 < al -> 0 < n ->
    0 < p /\ p mod al = 0 /\ p + n < 2 ^ 64 /\ os_live o' = (p, n) :: os_live o /\
    Forall (fun '(q, k) => p + n <= q \/ q + k <= p) (os_live o);
}.

Definition NGX_ALIGNMENT : Z := 8.
Definition NGX_POOL_ALIGNMENT : Z := 16.
Definition ngx_pagesize : Z := 4096.
Definition NGX_MAX_ALLOC_FROM_POOL : Z := ngx_pagesize - 1.
Definition sizeof_pool_t : Z := 80.
Definition sizeof_pool_data_t : Z := 32.
Definition sizeof_pool_large_t : Z := 16.

(** [ngx_align_ptr(p, a)] *)
Definition ngx_align_ptr (p a : Z) : Z := Z.land (p + (a - 1)) (Z.lnot (a - 1)).

Record block := mk_block { b_base : Z; b_last : Z; b_end : Z; b_failed : Z }.
Record pool := mk_pool {
  blocks : list block;
  p_current : nat;
  p_max : Z;
  p_large : list (option Z)
}.

#[export] Instance block_eq_dec : EqDecision block.
Proof. solve_decision. Defined.
#[export] Instance pool_eq_dec : EqDecision pool.
Proof. solve_decision. Defined.

Section Pool.
Context {Osm : OSMem}.
Implicit Types (o : os) (pl : pool).

Definition ngx_create_pool (size : Z) o : option pool * os :=
  match os_alloc o NGX_POOL_ALIGNMENT size with
  | (None, o) => (None, o)
  | (Some p, o) =>
      let last := p + sizeof_pool_t in
      let size' := u64 (size - sizeof_pool_t) in
      let max := if size' <? NGX_MAX_ALLOC_FROM_POOL then size' else NGX_MAX_ALLOC_FROM_POOL in
      (Some (mk_pool [mk_block p last (p + size) 0] 0 max []), o)
  end.

(** The [do ... while (p)] loops of [ngx_palloc] ([aligned]) and [ngx_pnalloc]. *)
Fixpoint try_blocks (aligned : bool) (size : Z) (bl : list block) : option (Z * list block) :=
  match bl with
  | [] => None
  | b :: bl' =>
      let m := if aligned then ngx_align_ptr (b_last b) NGX_ALIGNMENT else b_last b in
      if size <=? u64 (b_end b - m)
      then Some (m, mk_block (b_base b) (m + size) (b_end b) (b_failed b) :: bl')
      else match try_blocks aligned size bl' with
           | None => None
           | Some (m, bl') => Some (m, b :: bl')
           end
  end.

(** The loop of [ngx_palloc_block]: every block but the last counts a failure
    and one that has failed more than four times is left behind. *)
Fixpoint count_failed (pos current : nat) (bl : list block) : list block * nat :=
  match bl with
  | [] => ([], current)
  | [b] => ([b], current)
  | b :: bl' =>
      let current := if 4 <? b_failed b then S pos else current in
      let '(bl', current) := count_failed (S pos) current bl' in
      (mk_block (b_base b) (b_last b) (b_end b) (u64 (b_failed b + 1)) :: bl', current)
  end.

Definition ngx_palloc_block pl (size : Z) o : option Z * pool * os :=
  match blocks pl with
  | [] => (None, pl, o)
  | b0 :: _ =>
      let psize := u64 (b_end b0 - b_base b0) in
      match os_alloc o NGX_POOL_ALIGNMENT psize with
      | (None, o) => (None, pl, o)
      | (Some new, o) =>
          let m := ngx_align_ptr (new + sizeof_pool_data_t) NGX_ALIGNMENT in
          let nb := mk_block new (m + size) (new + psize) 0 in
          let '(tail, current) := count_failed (p_current pl) (p_current pl) (drop (p_current pl) (blocks pl)) in
          (Some m, mk_pool (take (p_current pl) (blocks pl) ++ tail ++ [nb]) current (p_max pl) (p_large pl), o)
      end
  end.

Definition palloc_small (aligned : bool) pl (size : Z) o : option Z * pool * os :=
  match try_blocks aligned size (drop (p_current pl) (blocks pl)) with
  | Some (m, bl) => (Some m, mk_pool (take (p_current pl) (blocks pl) ++ bl) (p_current pl) (p_max pl) (p_large pl), o)
  | None => ngx_palloc_block pl size o
  end.

(** The search for a freed slot among the first large allocations. *)
Fixpoint reuse_large (n : Z) (ls : list (option Z)) (p : Z) : option (list (option Z)) :=
  match ls with
  | [] => None
  | None :: ls' => Some (Some p :: ls')
  | Some q :: ls' =>
      if 3 <? n then None
      else match reuse_large (n + 1) ls' p with None => None | Some ls' => Some (Some q :: ls') end
  end.

Definition set_large pl (ls : list (option Z)) : pool := mk_pool (blocks pl) (p_current pl) (p_max pl) ls.

(** [ngx_palloc_large], with the allocation of its list node ([ngx_palloc] of 16
    bytes) as an argument. *)
Definition ngx_palloc_large (palloc : pool -> Z -> os -> out (option Z * pool * os))
    pl (size : Z) o : out (option Z * pool * os) :=
  match os_alloc o 1 size with
  | (None, o) => Ok (None, pl, o)
  | (Some p, o) =>
      match reuse_large 0 (p_large pl) p with
      | Some ls => Ok (Some p, set_large pl ls, o)
      | None =>
          let! (large, pl, o) := palloc pl sizeof_pool_large_t o in
          match large with
          | None => Ok (None, pl, os_free o p)
          | Some _ => Ok (Some p, set_large pl (Some p :: p_large pl), o)
          end
      end
  end.

(** [ngx_palloc] and [ngx_palloc_large] call each other; two levels are enough
    as soon as a list node is a small allocation ([palloc_total]). *)
Fixpoint palloc_fuel (fuel : nat) (aligned : bool) pl (size : Z) o : out (option Z * pool * os) :=
  match fuel with
  | O => NoFuel
  | S f =>
      if size <=? p_max pl then Ok (palloc_small aligned pl size o)
      else ngx_palloc_large (palloc_fuel f true) pl size o
  end.

Definition ngx_palloc pl (size : Z) o : out (option Z * pool * os) := palloc_fuel 2 true pl size o.

Definition ngx_pnalloc pl (size : Z) o : out (option Z * pool * os) := palloc_fuel 2 false pl size o.

Definition ngx_pcalloc pl (size : Z) o : out (option Z * pool * os) := ngx_palloc pl size o.

Definition ngx_pmemalign pl (size alignment : Z) o : out (option Z * pool * os) :=
  match os_alloc o alignment size with
  | (None, o) => Ok (None, pl, o)
  | (Some p, o) =>
      let! (large, pl, o) := ngx_palloc pl sizeof_pool_large_t o in
      match large with
      | None => Ok (None, pl, os_free o p)
      | Some _ => Ok (Some p, set_large pl (Some p :: p_large pl), o)
      end
  end.

(** [ngx_pfree]: only large allocations are returned. *)
Fixpoint pfree_loop (ls : list (option Z)) (p : Z) : option (list (option Z)) :=
  match ls with
  | [] => None
  | l :: ls' =>
      if bool_decide (l = Some p) then Some (None :: ls')
      else match pfree_loop ls' p with None => None | Some ls' => Some (l :: ls') end
  end.

Definition ngx_pfree pl (p : Z) o : Z * pool * os :=
  match pfree_loop (p_large pl) p with
  | Some ls => (NGX_OK, set_large pl ls, os_free o p)
  | None => (NGX_DECLINED, pl, o)
  end.

Definition free_large (ls : list (option Z)) o : os :=
  fold_left (fun o l => match l with Some p => os_free o p | None => o end) ls o.

Definition ngx_reset_pool pl o : pool * os :=
  (mk_pool ((fun b => mk_block (b_base b) (b_base b + sizeof_pool_t) (b_end b) (b_failed b)) <$> blocks pl)
           (p_current pl) (p_max pl) [],
   free_large (p_large pl) o).

(** [ngx_destroy_pool], without the cleanup handlers. *)
Definition ngx_destroy_pool pl o : os :=
  fold_left (fun o b => os_free o (b_base b)) (blocks pl) (free_large (p_large pl) o).
End Pool.

(** ** Lemmas *)

Lemma align8 p : ngx_align_ptr p NGX_ALIGNMENT = 8 * ((p + 7) / 8).
Proof.
  unfold ngx_align_ptr, NGX_ALIGNMENT. change (8 - 1) with (Z.ones 3).
  rewrite <- Z.ldiff_land, Z.ldiff_ones_r, Z.shiftl_mul_pow2, Z.shiftr_div_pow2 by lia.
  change (2 ^ 3) with 8. change (Z.ones 3) with 7. lia.
Qed.

Lemma align8_spec p :
  p <= ngx_align_ptr p NGX_ALIGNMENT < p + 8 /\ ngx_align_ptr p NGX_ALIGNMENT mod 8 = 0.
Proof.
  rewrite align8. split; [pose proof (Z.div_mod (p + 7) 8 ltac:(lia)); pose proof (Z.mod_pos_bound (p + 7) 8 ltac:(lia)); lia|].
  rewrite Z.mul_comm. apply Z.mod_mul. lia.
Qed.

(** Rounding up does not pass an aligned limit. *)
Lemma align8_le p e : p <= e -> e mod 8 = 0 -> ngx_align_ptr p NGX_ALIGNMENT <= e.
Proof.
  intros Hp He. rewrite align8. Z.to_euclidean_division_equations. lia.
Qed.

Section PoolFacts.
Context {Osm : OSMem} {OL : OSMemLaws Osm}.
Implicit Types (o : os) (pl : pool) (b : block).

(** A block of [psize] bytes: its header, then the space handed out. *)
Definition block_ok (psize : Z) b : Prop :=
  0 < b_base b /\ b_base b mod 16 = 0 /\ b_end b = b_base b + psize /\
  b_base b + sizeof_pool_data_t <= b_last b <= b_end b /\ b_end b < 2 ^ 64.

Definition pool_ok (psize : Z) pl : Prop :=
  Forall (block_ok psize) (blocks pl) /\ (p_current pl < length (blocks pl))%nat /\
  psize mod 8 = 0 /\ psize < 2 ^ 63 /\
  sizeof_pool_large_t <= p_max pl <= psize - sizeof_pool_t.

(** The new range [m, m + size): handed out of block [b], which became [b']. *)
Definition carved b b' (m size : Z) : Prop :=
  b_base b' = b_base b /\ b_end b' = b_end b /\ b_last b <= m /\ m + size = b_last b' /\
  b_last b' <= b_end b.

Lemma try_blocks_spec psize size bl m bl' :
  Forall (block_ok psize) bl -> psize mod 8 = 0 -> 0 <= size ->
  try_blocks true size bl = Some (m, bl') ->
  exists l1 b b' l2, bl = l1 ++ b :: l2 /\ bl' = l1 ++ b' :: l2 /\
    carved b b' m size /\ block_ok psize b' /\ m mod 8 = 0.
Proof.
  intros Hbl Hps Hsize. revert m bl'. induction Hbl as [|b bl Hb Hbl IH]; intros m bl'; [done|].
  cbn [try_blocks]. destruct Hb as (H1 & H2 & H3 & H4 & H5). unfold sizeof_pool_data_t in *.
  assert (Hend : b_end b mod 8 = 0).
  { rewrite H3. rewrite <- Z.add_mod_idemp_r, Hps, Z.add_0_r by lia.
    rewrite (Z.div_mod (b_base b) 16) by lia. rewrite H2, Z.add_0_r.
    replace (16 * (b_base b / 16)) with (b_base b / 16 * 2 * 8) by lia. apply Z.mod_mul. lia. }
  destruct (align8_spec (b_last b)) as [Hal Hm8]. pose proof (align8_le (b_last b) (b_end b) ltac:(lia) Hend) as Hle.
  set (a := ngx_align_ptr (b_last b) NGX_ALIGNMENT) in *.
  unfold u64. rewrite uwrap_small by lia.
  destruct (Z.leb_spec size (b_end b - a)).
  - intros [= <- <-]. exists [], b. eexists. exists bl. split; [done|]. split; [done|].
    unfold carved, block_ok. simpl. unfold sizeof_pool_data_t. repeat split; try done; lia.
  - destruct (try_blocks true size bl) as [[m' bl'']|] eqn:E; [|done]. intros [= <- <-].
    destruct (IH _ _ eq_refl) as (l1 & c & c' & l2 & -> & -> & Hrest).
    by exists (b :: l1), c, c', l2.
Qed.

(** Blocks that differ in their failure counter only. *)
Definition same_space b b' : Prop := b_base b' = b_base b /\ b_last b' = b_last b /\ b_end b' = b_end b.

Lemma same_space_ok psize b b' : same_space b b' -> block_ok psize b -> block_ok psize b'.
Proof. unfold same_space, block_ok. intros (-> & -> & ->). done. Qed.

Lemma same_space_refl (bl : list block) : Forall2 same_space bl bl.
Proof. induction bl; constructor; done. Qed.

Lemma count_failed_spec pos cur bl bl' cur' :
  count_failed pos cur bl = (bl', cur') -> (cur < pos + length bl)%nat ->
  Forall2 same_space bl bl' /\ (cur' < pos + length bl)%nat.
Proof.
  revert pos cur bl' cur'. induction bl as [|b bl IH]; intros pos cur bl' cur' H Hc; simpl in H.
  { injection H as <- <-. done. }
  destruct bl as [|b1 bl].
  { injection H as <- <-. split; [|done]. by repeat constructor. }
  destruct (count_failed (S pos) (if 4 <? b_failed b then S pos else cur) (b1 :: bl)) as [bl1 c1] eqn:E.
  injection H as <- <-. destruct (IH _ _ _ _ E) as [IH1 IH2]; [destruct (4 <? b_failed b); simpl in *; lia|].
  simpl in *. split; [|lia]. constructor; [done|done].
Qed.

(** What a small allocation of [size] bytes does to the pool. *)
Definition small_ok (psize : Z) pl pl' (m size : Z) o : Prop :=
  pool_ok psize pl' /\ m mod 8 = 0 /\ p_large pl' = p_large pl /\
  ((exists l1 b b' l2, blocks pl = l1 ++ b :: l2 /\ blocks pl' = l1 ++ b' :: l2 /\ carved b b' m size) \/
   (exists bl nb, blocks pl' = bl ++ [nb] /\ Forall2 same_space (blocks pl) bl /\
      b_base nb + sizeof_pool_data_t <= m /\ m + size = b_last nb /\ b_last nb <= b_end nb /\
      Forall (fun '(q, k) => b_end nb <= q \/ q + k <= b_base nb) (os_live o))).

Lemma ngx_palloc_block_spec psize pl size o :
  pool_ok psize pl -> 0 <= size <= p_max pl ->
  match ngx_palloc_block pl size o with
  | (Some m, pl', o') => small_ok psize pl pl' m size o
  | (None, pl', o') => pl' = pl /\ fst (os_alloc o NGX_POOL_ALIGNMENT psize) = None
  end.
Proof.
  intros (Hbl & Hcur & Hps & Hps2 & Hmax) Hsize. unfold ngx_palloc_block.
  unfold sizeof_pool_t, sizeof_pool_large_t, sizeof_pool_data_t in *.
  destruct (blocks pl) as [|b0 bl0] eqn:Eb; [simpl in Hcur; lia|]. rewrite <- Eb in *.
  assert (H0 : block_ok psize b0) by (rewrite Eb in Hbl; by inversion Hbl).
  destruct H0 as (_ & _ & He0 & _).
  replace (u64 (b_end b0 - b_base b0)) with psize by (unfold u64; rewrite uwrap_small; lia).
  destruct (os_alloc o NGX_POOL_ALIGNMENT psize) as [[new|] o'] eqn:Eo; [|done].
  destruct (os_alloc_Some _ _ _ _ _ Eo ltac:(done) ltac:(lia)) as (Hn0 & Hn16 & Hn64 & _ & Hdisj).
  destruct (align8_spec (new + 32)) as [_ Hm8].
  assert (Hm : ngx_align_ptr (new + 32) NGX_ALIGNMENT = new + 32).
  { unfold NGX_POOL_ALIGNMENT in Hn16. rewrite align8. Z.to_euclidean_division_equations. lia. }
  set (m := ngx_align_ptr (new + 32) NGX_ALIGNMENT) in *.
  destruct (count_failed (p_current pl) (p_current pl) (drop (p_current pl) (blocks pl))) as [tl cur] eqn:Ec.
  apply count_failed_spec in Ec as [Hsame Hcur']; [|rewrite length_drop; lia]. rewrite length_drop in Hcur'.
  assert (Hall : Forall2 same_space (blocks pl) (take (p_current pl) (blocks pl) ++ tl)).
  { rewrite <- (take_drop (p_current pl) (blocks pl)) at 1. apply Forall2_app; [|done]. apply same_space_refl. }
  set (nb := mk_block new (m + size) (new + psize) 0).
  assert (Hnb : block_ok psize nb).
  { unfold block_ok, nb, sizeof_pool_data_t. simpl. unfold NGX_POOL_ALIGNMENT in Hn16. lia. }
  split; [split; [|split]|split; [|split]]; simpl.
  - rewrite app_assoc. apply Forall_app. split; [|by constructor].
    revert Hbl Hall. generalize (take (p_current pl) (blocks pl) ++ tl). generalize (blocks pl).
    intros l1 l2 Hl1 HF. induction HF; [constructor|]. inversion Hl1; subst.
    constructor; [by eapply same_space_ok|auto].
  - apply Forall2_length in Hall. rewrite !length_app in *. simpl. lia.
  - unfold sizeof_pool_t, sizeof_pool_large_t. lia.
  - done.
  - done.
  - right. exists (take (p_current pl) (blocks pl) ++ tl), nb. rewrite <- app_assoc. split; [done|].
    split; [done|]. unfold sizeof_pool_data_t. simpl. repeat split; try lia.
    eapply Forall_impl; [exact Hdisj|]. by intros [q k] ?.
Qed.

Lemma palloc_small_spec psize pl size o :
  pool_ok psize pl -> 0 <= size <= p_max pl ->
  match palloc_small true pl size o with
  | (Some m, pl', o') => small_ok psize pl pl' m size o
  | (None, pl', o') => pl' = pl /\ fst (os_alloc o NGX_POOL_ALIGNMENT psize) = None
  end.
Proof.
  intros Hok Hsize. unfold palloc_small.
  destruct (try_blocks true size (drop (p_current pl) (blocks pl))) as [[m bl]|] eqn:E;
    [|by apply ngx_palloc_block_spec].
  destruct Hok as (Hbl & Hcur & Hps & Hps2 & Hmax).
  pose proof Hbl as Hbl'. rewrite <- (take_drop (p_current pl) (blocks pl)) in Hbl'.
  apply Forall_app in Hbl' as [Hbl1 Hbl2].
  apply (try_blocks_spec psize) in E as (l1 & b & b' & l2 & E1 & -> & Hcarve & Hb' & Hm8); [|done|done|lia].
  rewrite E1 in Hbl2. apply Forall_app in Hbl2 as [Hl1 Hl2]. inversion Hl2; subst.
  assert (Heq : blocks pl = (take (p_current pl) (blocks pl) ++ l1) ++ b :: l2)
    by (rewrite <- app_assoc, <- E1; by rewrite take_drop).
  split; [split; [|split]|split; [|split]]; simpl; try done.
  - rewrite !Forall_app. repeat split; try done. by constructor.
  - rewrite Heq in Hcur. rewrite !length_app in *. simpl in *. lia.
  - left. exists (take (p_current pl) (blocks pl) ++ l1), b, b', l2. split; [done|].
    split; [by rewrite <- app_assoc|done].
Qed.

Lemma palloc_small_max aligned pl size o : p_max (palloc_small aligned pl size o).1.2 = p_max pl.
Proof.
  unfold palloc_small. destruct (try_blocks _ _ _) as [[m bl]|]; [done|]. unfold ngx_palloc_block.
  destruct (blocks pl); [done|]. destruct (os_alloc _ _ _) as [[new|] o1]; [|done]. by destruct (count_failed _ _ _).
Qed.

(** Two levels of recursion are enough. *)
Lemma palloc_fuel_total aligned pl size o : sizeof_pool_large_t <= p_max pl ->
  exists r pl' o', palloc_fuel 2 aligned pl size o = Ok (r, pl', o') /\ p_max pl' = p_max pl.
Proof.
  intros Hmax. cbn [palloc_fuel]. destruct (size <=? p_max pl).
  { pose proof (palloc_small_max aligned pl size o) as H. destruct (palloc_small aligned pl size o) as [[r pl'] o']. eauto. }
  unfold ngx_palloc_large. destruct (os_alloc o 1 size) as [[p|] o']; [|by eauto].
  destruct (reuse_large 0 (p_large pl) p); [by eauto 6|].
  destruct (Z.leb_spec sizeof_pool_large_t (p_max pl)); [|lia]. rewrite obind_Ok.
  pose proof (palloc_small_max true pl sizeof_pool_large_t o') as H0.
  destruct (palloc_small true pl sizeof_pool_large_t o') as [[[q|] pl'] o'']; eauto 6.
Qed.

(** A pool that answers addresses stays well formed. *)
Lemma palloc_positive psize pl size o : pool_ok psize pl -> 0 < size ->
  exists r pl' o', ngx_palloc pl size o = Ok (r, pl', o') /\ pool_ok psize pl' /\
    match r with Some m => 0 < m | None => True end.
Proof.
  intros Hok Hsize. pose proof Hok as (Hbl & _ & _ & _ & Hmax).
  assert (Hsmall : forall n o, 0 < n <= p_max pl -> exists r pl' o', palloc_small true pl n o = (r, pl', o') /\ pool_ok psize pl' /\
    match r with Some m => 0 < m | None => True end).
  { intros n o1 Hn. pose proof (palloc_small_spec psize pl n o1 Hok ltac:(lia)) as H.
    destruct (palloc_small true pl n o1) as [[[m|] pl'] o']; [|destruct H as [-> _]; by eauto 6].
    destruct H as (Hok' & _ & _ & Hc). exists (Some m), pl', o'. split; [done|]. split; [done|].
    assert (Hb : forall b, block_ok psize b -> b_base b + sizeof_pool_data_t <= m -> 0 < m)
      by (intros b (H & _) ?; unfold sizeof_pool_data_t in *; lia).
    destruct Hc as [(l1 & b & b' & l2 & E & _ & (_ & _ & H & _))|(bl & nb & E & _ & H & _)].
    - rewrite E in Hbl. apply Forall_app in Hbl as [_ [Hb0 _]%Forall_cons]. apply (Hb b Hb0).
      destruct Hb0 as (_ & _ & _ & ? & _). lia.
    - destruct Hok' as (Hbl' & _). rewrite E in Hbl'. apply Forall_app in Hbl' as [_ [Hb0 _]%Forall_cons]. by apply (Hb nb). }
  unfold ngx_palloc. cbn [palloc_fuel]. destruct (Z.leb_spec size (p_max pl)) as [Hle|Hgt].
  { destruct (Hsmall size o ltac:(lia)) as (r & pl' & o' & -> & H). by exists r, pl', o'. }
  unfold ngx_palloc_large. destruct (os_alloc o 1 size) as [[p|] o1] eqn:Eo; [|by exists None, pl, o1].
  destruct (os_alloc_Some _ _ _ _ _ Eo ltac:(lia) Hsize) as (Hp & _).
  destruct (reuse_large 0 (p_large pl) p); [by exists (Some p), (set_large pl l), o1|].
  destruct (Z.leb_spec sizeof_pool_large_t (p_max pl)); [|lia]. rewrite obind_Ok.
  destruct (Hsmall sizeof_pool_large_t o1 ltac:(unfold sizeof_pool_large_t in *; lia)) as (r & pl' & o' & -> & Hok' & _).
  destruct r as [q|]; [|by exists None, pl', (os_free o' p)]. by exists (Some p), (set_large pl' (Some p :: p_large pl')), o'.
Qed.

Lemma palloc_total pl size o : sizeof_pool_large_t <= p_max pl -> exists r, ngx_palloc pl size o = Ok r.
Proof. intros (r & pl' & o' & E & _)%(palloc_fuel_total true _ size o). by eexists. Qed.

Lemma pnalloc_total pl size o : sizeof_pool_large_t <= p_max pl ->
  exists r pl' o', ngx_pnalloc pl size o = Ok (r, pl', o') /\ p_max pl' = p_max pl.
Proof. apply (palloc_fuel_total false). Qed.
End PoolFacts.

(** ** Pools that serve their allocations *)

(** The next [n] allocations of the pool succeed, whatever their sizes up to
    [limit]. *)
Fixpoint serves {Osm : OSMem} (n : nat) (limit : Z) (pl : pool) (o : os) : Prop :=
  match n with
  | O => True
  | S n' =>
      forall size, 0 < size <= limit ->
        exists b pl' o', ngx_palloc pl size o = Ok (Some b, pl', o') /\ serves n' limit pl' o'
  end.

Lemma serves_mono {Osm : OSMem} n limit limit' pl o :
  limit' <= limit -> serves n limit pl o -> serves n limit' pl o.
Proof.
  intros Hl. revert pl o. induction n as [|n IH]; intros pl o Hs; [done|].
  intros size Hsize. destruct (Hs size ltac:(lia)) as (b & pl' & o' & E & H).
  exists b, pl', o'. split; [done|]. by apply IH.
Qed.

(** A memory that never runs out: [os] is the first address not handed out. *)
Definition bump_os_alloc (o al n : Z) : option Z * Z :=
  let p := al * (o / al + 1) in (Some p, p + n).

Definition endless_mem : OSMem := {| os := Z; os_alloc := bump_os_alloc; os_free o _ := o |}.

Lemma count_failed_nonempty pos cur bl : bl <> [] -> fst (count_failed pos cur bl) <> [].
Proof.
  destruct bl as [|b [|b' bl]]; simpl; [done|done|].
  intros _. by destruct (match bl with [] => _ | _ => _ end).
Qed.

Lemma endless_small pl size o :
  blocks pl <> [] ->
  exists m pl' o', palloc_small (Osm := endless_mem) true pl size o = (Some m, pl', o') /\
    blocks pl' <> [] /\ p_max pl' = p_max pl.
Proof.
  intros Hne. unfold palloc_small.
  destruct (try_blocks true size (drop (p_current pl) (blocks pl))) as [[m bl]|] eqn:E.
  - eexists m, _, o. split; [done|]. split; [|done]. simpl.
    destruct bl; [|by destruct (take (p_current pl) (blocks pl))].
    exfalso. revert E. destruct (drop _ _) as [|b bl]; [done|]. simpl.
    destruct (_ <=? _); [done|]. by destruct (try_blocks true size bl) as [[? ?]|].
  - unfold ngx_palloc_block. destruct (blocks pl) as [|b0 bl0] eqn:Eb; [done|]. rewrite <- Eb in *.
    simpl os_alloc. unfold bump_os_alloc. cbn iota.
    destruct (count_failed (p_current pl) (p_current pl) (drop (p_current pl) (blocks pl))) as [tl cur].
    eexists _, _, _. split; [done|]. split; [|done]. simpl.
    intros E2. apply app_eq_nil in E2 as [_ E2]. by apply app_eq_nil in E2 as [_ E2].
Qed.

Lemma endless_serves n limit pl o :
  blocks pl <> [] -> sizeof_pool_large_t <= p_max pl -> serves (Osm := endless_mem) n limit pl o.
Proof.
  revert pl o. induction n as [|n IH]; intros pl o Hne Hmax; [done|]. intros size _.
  unfold ngx_palloc. cbn [palloc_fuel]. destruct (size <=? p_max pl).
  - destruct (endless_small pl size o Hne) as (m & pl' & o' & -> & Hne' & Hm). eexists m, pl', o'. split; [done|].
    apply IH; [done|lia].
  - unfold ngx_palloc_large. simpl os_alloc. unfold bump_os_alloc. cbn iota.
    destruct (reuse_large 0 (p_large pl) _) as [ls|].
    + eexists _, _, _. split; [done|]. by apply IH.
    + destruct (Z.leb_spec sizeof_pool_large_t (p_max pl)); [|lia]. rewrite obind_Ok.
      match goal with |- context [palloc_small true pl ?s ?o1] =>
        destruct (endless_small pl s o1 Hne) as (m & pl' & o' & -> & Hne' & Hm) end.
      eexists _, _, _. split; [done|]. apply IH; simpl; [done|lia].
Qed.
