(* ===== verification/NginxProps.v ===== *)
(** * What the parts of nginx the module calls promise *)
From S2P Require Import Prelude.
From S2P Require Import NgxString.
From S2P Require Import NgxHttpArg.
From S2P Require Import NgxPalloc.

(** C22: [ngx_http_arg] is a left-to-right scan: for every query string and every
    parameter name without NUL and ['&'], it returns the value, up to the next
    ['&'], of the first parameter with that name, letters compared without case,
    a parameter starting at the start of the string or behind ['&']; it never
    reads outside the string and always ends. *)
Theorem http_arg_is_scan args name :
  Forall is_byte args -> arg_name name -> ngx_http_arg args name = Ok (arg_scan true args name).
Proof. apply ngx_http_arg_scan. Qed.

(** [ngx_atoi] is exact on every decimal text whose value fits 64 bits, and
    answers NGX_ERROR for the empty text and for any other byte. *)
Theorem atoi_exact line :
  (line <> [] -> Forall is_digit line -> dec_value line <= INT64_MAX ->
   Number.ngx_atoi line = dec_value line) /\
  (line = [] \/ ~ Forall is_digit line -> Number.ngx_atoi line = NGX_ERROR).
Proof.
  split; [apply Number.ngx_atoi_exact|].
  intros [->|H]; [done|]. unfold Number.ngx_atoi. rewrite Number.dec_loop_error by done.
  by destruct (_ =? _)%nat.
Qed.

(** [ngx_atofp] scales a decimal text exactly: an integer part and at most
    [point] decimals give the value times [10 ^ point]; more decimals, and any
    byte that is neither a digit nor a point, are an error. *)
Theorem atofp_exact ds fs point :
  Forall is_digit ds -> Forall is_digit fs -> (0 < point)%nat ->
  ((length fs <= point)%nat ->
   dec_value (ds ++ fs) * 10 ^ Z.of_nat (point - length fs) <= INT64_MAX ->
   Number.ngx_atofp (ds ++ 46 :: fs) point = dec_value (ds ++ fs) * 10 ^ Z.of_nat (point - length fs)) /\
  ((point < length fs)%nat -> dec_value ds <= INT64_MAX ->
   Number.ngx_atofp (ds ++ 46 :: fs) point = NGX_ERROR) /\
  (ds <> [] -> dec_value ds * 10 ^ Z.of_nat point <= INT64_MAX ->
   Number.ngx_atofp ds point = dec_value ds * 10 ^ Z.of_nat point).
Proof.
  intros Hds Hfs Hp. split; [|split].
  - intros Hl Hmax. by apply Number.ngx_atofp_frac.
  - intros Hl Hmax. unfold Number.ngx_atofp.
    replace (length (ds ++ 46%Z :: fs) =? 0)%nat with false
      by (symmetry; apply Nat.eqb_neq; rewrite length_app; simpl; lia).
    destruct point as [|p]; [lia|].
    rewrite (Number.fp_loop_int ds 0 p (46 :: fs)) by done. cbn [Number.fp_loop Nat.eqb negb Z.eqb Pos.eqb].
    by rewrite Number.fp_loop_frac_long.
  - intros Hne Hmax. by apply Number.ngx_atofp_int.
Qed.

Section Pools.
Context {Osm : OSMem} {OL : OSMemLaws Osm}.

(** A small allocation from a well-formed pool keeps the pool well formed and
    returns an address aligned to 8 whose bytes were free: either behind the last
    byte handed out of one block and inside it, or in a new block behind its
    header that meets no live memory.  It fails only when the system has no
    memory, and then changes nothing. *)
Theorem palloc_small_correct psize pl size o :
  pool_ok psize pl -> 0 <= size <= p_max pl ->
  match ngx_palloc pl size o with
  | Ok (Some m, pl', _) => small_ok psize pl pl' m size o
  | Ok (None, pl', _) => pl' = pl /\ fst (os_alloc o NGX_POOL_ALIGNMENT psize) = None
  | _ => False
  end.
Proof.
  intros Hok Hsize. pose proof (palloc_small_spec psize pl size o Hok Hsize) as H.
  unfold ngx_palloc. cbn [palloc_fuel]. destruct (Z.leb_spec size (p_max pl)); [|lia].
  by destruct (palloc_small true pl size o) as [[[m|] pl'] o'].
Qed.

Lemma reuse_large_spec n ls p ls' :
  reuse_large n ls p = Some ls' -> exists l1 l2, ls = l1 ++ None :: l2 /\ ls' = l1 ++ Some p :: l2.
Proof.
  revert n ls'. induction ls as [|[q|] ls IH]; intros n ls'; simpl; [done| |].
  - destruct (3 <? n); [done|]. destruct (reuse_large (n + 1) ls p) as [ls1|] eqn:E; [|done].
    intros [= <-]. destruct (IH _ _ E) as (l1 & l2 & -> & ->). by exists (Some q :: l1), l2.
  - intros [= <-]. by exists [], ls.
Qed.

(** An allocation beyond the pool's limit ends in two levels of recursion; on
    success its block is recorded as a large allocation, in a freed slot or a new
    one, with every other record kept, so that [ngx_destroy_pool] frees it. *)
Theorem palloc_large_recorded psize pl size o :
  pool_ok psize pl -> p_max pl < size ->
  match ngx_palloc pl size o with
  | Ok (Some p, pl', _) =>
      exists l1 l2, p_large pl' = l1 ++ Some p :: l2 /\
        (p_large pl = l1 ++ l2 \/ p_large pl = l1 ++ None :: l2)
  | Ok (None, pl', _) => p_large pl' = p_large pl
  | _ => False
  end.
Proof.
  intros Hok Hsize. assert (Hmax : sizeof_pool_large_t <= p_max pl) by (destruct Hok as (_ & _ & _ & _ & ?); lia).
  unfold ngx_palloc. cbn [palloc_fuel]. destruct (Z.leb_spec size (p_max pl)); [lia|].
  unfold ngx_palloc_large. destruct (os_alloc o 1 size) as [[p|] o1]; [|done].
  destruct (reuse_large 0 (p_large pl) p) as [ls|] eqn:E.
  - apply reuse_large_spec in E as (l1 & l2 & El & ->). exists l1, l2. simpl. auto.
  - destruct (Z.leb_spec sizeof_pool_large_t (p_max pl)); [|lia]. rewrite obind_Ok.
    pose proof (palloc_small_spec psize pl sizeof_pool_large_t o1 Hok ltac:(unfold sizeof_pool_large_t in *; lia)) as Hs.
    destruct (palloc_small true pl sizeof_pool_large_t o1) as [[[q|] pl'] o2].
    + destruct Hs as (_ & _ & Hl & _). exists [], (p_large pl). simpl. rewrite Hl. auto.
    + by destruct Hs as [-> _].
Qed.
End Pools.

(** ** Witnesses *)

Lemma http_arg_is_scan_witness :
  ngx_http_arg (bs "a=1&LAT=39.9&lat=2") (bs "lat") = Ok (Some (bs "39.9")).
Proof.
  apply (http_arg_is_scan (bs "a=1&LAT=39.9&lat=2") (bs "lat"));
    repeat first [discriminate | constructor].
Defined.

Lemma atoi_exact_witness : Number.ngx_atoi (bs "19997") = 19997 /\ Number.ngx_atoi (bs "4x") = NGX_ERROR.
Proof.
  split.
  - apply (proj1 (atoi_exact (bs "19997"))); [discriminate| |vm_compute; discriminate].
    repeat constructor; discriminate.
  - apply (proj2 (atoi_exact (bs "4x"))). right. intros [_ [[_ H] _]%Forall_cons]%Forall_cons.
    vm_compute in H. by apply H.
Defined.

Lemma atofp_exact_witness : Number.ngx_atofp (bs "39.904989") 6 = 39904989.
Proof.
  apply (proj1 (atofp_exact (bs "39") (bs "904989") 6 ltac:(repeat constructor; discriminate)
    ltac:(repeat constructor; discriminate) ltac:(lia))); [simpl; lia|vm_compute; discriminate].
Defined.

(** A memory that knows its blocks: it answers the first multiple of the
    alignment behind all of them, when that is a good address. *)
Definition top_of (l : list (Z * Z)) : Z := fold_right (fun x t => Z.max (x.1 + x.2) t) 0 l.
Definition apart (p n : Z) (x : Z * Z) : Prop := let '(q, k) := x in p + n <= q \/ q + k <= p.
#[local] Instance apart_dec p n x : Decision (apart p n x).
Proof. destruct x. apply _. Defined.
Definition good_addr (l : list (Z * Z)) (al n p : Z) : Prop :=
  0 < p /\ p mod al = 0 /\ p + n < 2 ^ 64 /\ Forall (apart p n) l.
Definition known_alloc (l : list (Z * Z)) (al n : Z) : option Z * list (Z * Z) :=
  let p := al * (top_of l / al + 1) in
  if decide (good_addr l al n p) then (Some p, (p, n) :: l) else (None, l).

#[local] Instance known_mem : OSMem := {| os := list (Z * Z); os_alloc := known_alloc; os_free l _ := l |}.

#[local] Instance known_laws : OSMemLaws known_mem.
Proof.
  refine {| os_live := (id : @os known_mem -> list (Z * Z)) |}.
  intros o al n p o' H _ _. simpl in H. unfold known_alloc in H.
  destruct (decide _) as [(H1 & H2 & H3 & H4)|]; [|done]. injection H as <- <-. done.
Defined.

Definition demo_blocks : list (Z * Z) := [(1024, 4096)].
Definition demo_pool4k : pool := mk_pool [mk_block 1024 1104 5120 0] 0 4015 [].

Lemma demo_pool4k_ok : pool_ok 4096 demo_pool4k.
Proof.
  split; [|vm_compute; repeat split; try discriminate; lia].
  constructor; [|constructor]. vm_compute. repeat split; discriminate.
Qed.

Lemma palloc_small_correct_witness :
  match ngx_palloc demo_pool4k 100 (demo_blocks : @os known_mem) with
  | Ok (Some m, pl', _) => small_ok 4096 demo_pool4k pl' m 100 (demo_blocks : @os known_mem)
  | Ok (None, pl', _) => pl' = demo_pool4k /\ fst (os_alloc (demo_blocks : @os known_mem) NGX_POOL_ALIGNMENT 4096) = None
  | _ => False
  end.
Proof. apply (palloc_small_correct 4096); [apply demo_pool4k_ok|simpl; lia]. Defined.

Lemma palloc_large_recorded_witness :
  match ngx_palloc demo_pool4k 10000 (demo_blocks : @os known_mem) with
  | Ok (Some p, pl', _) =>
      exists l1 l2, p_large pl' = l1 ++ Some p :: l2 /\
        (p_large demo_pool4k = l1 ++ l2 \/ p_large demo_pool4k = l1 ++ None :: l2)
  | Ok (None, pl', _) => p_large pl' = p_large demo_pool4k
  | _ => False
  end.
Proof. apply (palloc_large_recorded 4096); [apply demo_pool4k_ok|simpl; lia]. Defined.
