(* ===== verification/Geo.v ===== *)
(** * Geometry of the map: src/ngx_http_lookaround_map.c and .h

    Locations are fixed point degrees (32-bit integers, one millionth of a
    degree), rectangles are half open: [lt] belongs to the rectangle, [rb] does
    not.  Integer expressions are computed on [Z] and converted to the C type at
    each assignment; signed overflow wraps.  Doubles are binary64 values of the
    Standard Library's [SpecFloat], with round to nearest even; [cos] and [hypot]
    of libm are parameters. *)
From Stdlib Require Import SpecFloat.
From S2P Require Import Prelude.
From S2P Require Import NgxString.

(** ** Data *)

Record nla_2dloc := mk_loc { lat : Z; lon : Z }.
Record nla_rect := mk_rect { lt : nla_2dloc; rb : nla_2dloc }.

#[export] Instance nla_2dloc_eq_dec : EqDecision nla_2dloc.
Proof. solve_decision. Defined.
#[export] Instance nla_rect_eq_dec : EqDecision nla_rect.
Proof. solve_decision. Defined.

Definition NLA_MAX_LON : Z := 180000000.
Definition NLA_MIN_LON : Z := -180000000.
Definition NLA_MAX_LAT : Z := 90000000.
Definition NLA_MIN_LAT : Z := -90000000.
Definition NLA_LAT_DIST_FACTOR : Z := 8993.
Definition NLA_DEG_FIXPOINT : nat := 6.
Definition NLA_DEG_FIXPOINT_BASE : Z := 1000000.
Definition NLA_DEG_MAX_BUF_LEN : Z := 12.
Definition NLA_DATA_ID_MAX_LEN : Z := 32.
Definition NLA_DATA_JSON_LEN : Z := 200.

Definition NLA_MAP_CHILD_LT : Z := 0.
Definition NLA_MAP_CHILD_RT : Z := 1.
Definition NLA_MAP_CHILD_LB : Z := 2.
Definition NLA_MAP_CHILD_RB : Z := 3.
Definition NLA_MAP_CHILD_COUNT : Z := 4.

(** [ach_id] is the C string held in the 32-byte array of the item. *)
Record nla_data_item := mk_item {
  ach_id : bytes;
  i_status : Z;
  i_type : Z;
  loc : nla_2dloc;
  last_update_time : Z
}.

#[export] Instance nla_data_item_eq_dec : EqDecision nla_data_item.
Proof. solve_decision. Defined.

(** ** Rectangles *)

Definition fn_loc_GetRCCenter (pRC : nla_rect) : nla_2dloc :=
  {| lat := Z.quot (i32 (lat (lt pRC) + lat (rb pRC))) 2;
     lon := Z.quot (i32 (lon (lt pRC) + lon (rb pRC))) 2 |}.

Definition fn_b_IsLocInRC (pRC : nla_rect) (pLoc : nla_2dloc) : bool :=
  (lat (lt pRC) <=? lat pLoc) && (lat pLoc <? lat (rb pRC)) &&
  (lon (lt pRC) <=? lon pLoc) && (lon pLoc <? lon (rb pRC)).

(** [None]: FALSE, and [*pNewRC] is left alone. *)
Definition fn_b_IntersectRc (pRC1 pRC2 : nla_rect) : option nla_rect :=
  if (lat (rb pRC2) <=? lat (lt pRC1)) || (lat (rb pRC1) <=? lat (lt pRC2)) ||
     (lon (rb pRC1) <=? lon (lt pRC2)) || (lon (rb pRC2) <=? lon (lt pRC1))
  then None
  else Some {| lt := {| lat := Z.max (lat (lt pRC1)) (lat (lt pRC2));
                        lon := Z.max (lon (lt pRC1)) (lon (lt pRC2)) |};
               rb := {| lat := Z.min (lat (rb pRC1)) (lat (rb pRC2));
                        lon := Z.min (lon (rb pRC1)) (lon (rb pRC2)) |} |}.

Definition fn_v_InitRootRect : nla_rect :=
  {| lt := {| lat := NLA_MIN_LAT; lon := NLA_MIN_LON |};
     rb := {| lat := NLA_MAX_LAT; lon := NLA_MAX_LON |} |}.

Definition fn_i_GetChildRcIdx (pRC : nla_rect) (pLoc : nla_2dloc) : Z :=
  if negb (fn_b_IsLocInRC pRC pLoc) then -1
  else
    let center_loc := fn_loc_GetRCCenter pRC in
    if lat center_loc <=? lat pLoc then
      if lon center_loc <=? lon pLoc then NLA_MAP_CHILD_RB else NLA_MAP_CHILD_LB
    else
      if lon center_loc <=? lon pLoc then NLA_MAP_CHILD_RT else NLA_MAP_CHILD_LT.

Definition fn_x_LimitAdd (deg dadd dmax dmin : Z) : Z :=
  let dNew := i32 (deg + dadd) in
  if dmax <? dNew then dmax else if dNew <? dmin then dmin else dNew.

(** ** Printing *)

(** sprintf into a buffer with [cap] bytes left: the text and its NUL must fit. *)
Definition sprintf_into (cap : Z) (s : bytes) : out bytes :=
  if blen s + 1 <=? cap then Ok s else Undef OutOfBounds.

(** The text of [sprintf(buf, "%d.%06d", ...)]. *)
Definition deg_text (deg : Z) : bytes :=
  fmt_d (Z.quot deg NLA_DEG_FIXPOINT_BASE) ++ bs "." ++
  fmt_0d 6 (Z.rem deg NLA_DEG_FIXPOINT_BASE).

Definition fn_v_FormatDeg (deg : Z) (cap : Z) : out bytes := sprintf_into cap (deg_text deg).

(** A text of the source with its double quotes written as single ones. *)
Definition js (s : String.string) : bytes := (fun c => if c =? 39 then 34 else c) <$> bs s.

(** The text of the sprintf of [fn_v_FormatDataItem]. *)
Definition item_text (pData : nla_data_item) (achBufLat achBufLon : bytes) : bytes :=
  js "{'id':'" ++ ach_id pData ++
  js "','status':'" ++ fmt_d (i_status pData) ++
  js "','type':'" ++ fmt_d (i_type pData) ++
  js "','lat':'" ++ achBufLat ++
  js "','lon':'" ++ achBufLon ++
  js "','uptime':'" ++ fmt_d (last_update_time pData) ++
  js "'}".

(** [cap] is the room behind [pszBuf]. *)
Definition fn_v_FormatDataItem (pData : nla_data_item) (cap : Z) : out bytes :=
  let! achBufLat := fn_v_FormatDeg (lat (loc pData)) NLA_DEG_MAX_BUF_LEN in
  let! achBufLon := fn_v_FormatDeg (lon (loc pData)) NLA_DEG_MAX_BUF_LEN in
  sprintf_into cap (item_text pData achBufLat achBufLon).

(** ** Doubles *)
Module Dbl.
Abbreviation double := spec_float.
Definition mul : double -> double -> double := SFmul 53 1024.
Definition div : double -> double -> double := SFdiv 53 1024.
Definition of_int (z : Z) : double := binary_normalize 53 1024 z 0 false.

(** Conversion to a 32-bit integer: truncation, undefined out of range. *)
Definition trunc (m : positive) (e : Z) : Z :=
  if 0 <=? e then Z.pos m * 2 ^ e else Z.pos m / 2 ^ (- e).
Definition to_int (d : double) : out Z :=
  match d with
  | S754_zero _ => Ok 0
  | S754_finite s m e =>
      let z := if s then - trunc m e else trunc m e in
      if (INT_MIN <=? z) && (z <=? INT_MAX) then Ok z else Undef BadConversion
  | _ => Undef BadConversion
  end.

(** The constants of the source, rounded to binary64. *)
Definition NLA_PI : double := S754_finite false 7074237752028440 (-51).
Definition NLA_EARTH_RADIUS : double := S754_finite false 7005240368723657 (-40).
Definition NLA_DEG_FIXPOINT_BASE_FLOAT : double := S754_finite false 8589934592000000 (-33).
Definition d180 : double := S754_finite false 6333186975989760 (-45).

(** The sign bit is clear. *)
Definition positive_sign (d : double) : Prop :=
  match d with
  | S754_zero s | S754_infinity s | S754_finite s _ _ => s = false
  | S754_nan => True
  end.
End Dbl.

Section Libm.
(** libm: not part of the repository. *)
Variable cos : Dbl.double -> Dbl.double.
Variable hypot : Dbl.double -> Dbl.double -> Dbl.double.
Import Dbl.

Definition fn_d_GetDistance (pLoc1 pLoc2 : nla_2dloc) : double :=
  let x :=
    div (mul (mul (mul (div (of_int (i32 (lon pLoc2 - lon pLoc1))) NLA_DEG_FIXPOINT_BASE_FLOAT)
                       NLA_PI) NLA_EARTH_RADIUS)
             (cos (div (mul (div (div (of_int (i32 (lat pLoc1 + lat pLoc2)))
                                      NLA_DEG_FIXPOINT_BASE_FLOAT) (of_int 2)) NLA_PI) (of_int 180))))
        (of_int 180) in
  let y :=
    div (mul (mul (div (of_int (i32 (lat pLoc2 - lat pLoc1))) NLA_DEG_FIXPOINT_BASE_FLOAT)
                  NLA_PI) NLA_EARTH_RADIUS)
        (of_int 180) in
  hypot x y.

Definition fn_v_GetRectFromLocRadius (pLoc : nla_2dloc) (dRadius : double) : out nla_rect :=
  let! lat_off := to_int (mul (of_int NLA_LAT_DIST_FACTOR) dRadius) in
  let lt_lat := fn_x_LimitAdd (lat pLoc) (i32 (- lat_off)) NLA_MAX_LAT NLA_MIN_LAT in
  let rb_lat := fn_x_LimitAdd (lat pLoc) lat_off NLA_MAX_LAT NLA_MIN_LAT in
  let dr := mul NLA_EARTH_RADIUS (cos (div (of_int (lat pLoc)) NLA_DEG_FIXPOINT_BASE_FLOAT)) in
  let drmax := mul dr NLA_PI in
  let dRadius := if SFleb drmax dRadius then drmax else dRadius in
  let! lon_off :=
    to_int (div (mul (mul (div dRadius dr) NLA_DEG_FIXPOINT_BASE_FLOAT) d180) NLA_PI) in
  let lt_lon := fn_x_LimitAdd (lon pLoc) (i32 (- lon_off)) NLA_MAX_LON NLA_MIN_LON in
  let rb_lon := fn_x_LimitAdd (lon pLoc) lon_off NLA_MAX_LON NLA_MIN_LON in
  Ok {| lt := {| lat := lt_lat; lon := lt_lon |}; rb := {| lat := rb_lat; lon := rb_lon |} |}.
End Libm.

(** ** Lemmas on rectangles *)

(** Rectangles of the map: inside the root rectangle, with ordered corners. *)
Definition valid_rc (rc : nla_rect) : Prop :=
  NLA_MIN_LAT <= lat (lt rc) <= lat (rb rc) /\ lat (rb rc) <= NLA_MAX_LAT /\
  NLA_MIN_LON <= lon (lt rc) <= lon (rb rc) /\ lon (rb rc) <= NLA_MAX_LON.

Lemma valid_root : valid_rc fn_v_InitRootRect.
Proof. done. Qed.

Lemma in_rc_iff rc l :
  fn_b_IsLocInRC rc l = true <->
  lat (lt rc) <= lat l < lat (rb rc) /\ lon (lt rc) <= lon l < lon (rb rc).
Proof.
  unfold fn_b_IsLocInRC. rewrite !andb_true_iff, !Z.leb_le, !Z.ltb_lt. tauto.
Qed.

Lemma center_between rc :
  valid_rc rc ->
  lat (lt rc) <= lat (fn_loc_GetRCCenter rc) <= lat (rb rc) /\
  lon (lt rc) <= lon (fn_loc_GetRCCenter rc) <= lon (rb rc).
Proof.
  unfold valid_rc, fn_loc_GetRCCenter, NLA_MIN_LAT, NLA_MAX_LAT, NLA_MIN_LON, NLA_MAX_LON. simpl.
  intros H. rewrite !i32_small by (unfold INT_MIN, INT_MAX; lia). Z.to_euclidean_division_equations. lia.
Qed.

Lemma intersect_Some rc1 rc2 rc l :
  fn_b_IntersectRc rc1 rc2 = Some rc ->
  fn_b_IsLocInRC rc l = fn_b_IsLocInRC rc1 l && fn_b_IsLocInRC rc2 l.
Proof.
  unfold fn_b_IntersectRc. destruct (_ || _); [done|]. intros [= <-].
  apply eq_true_iff_eq. rewrite andb_true_iff, !in_rc_iff. simpl. lia.
Qed.

Lemma intersect_None rc1 rc2 l :
  fn_b_IntersectRc rc1 rc2 = None -> fn_b_IsLocInRC rc1 l && fn_b_IsLocInRC rc2 l = false.
Proof.
  unfold fn_b_IntersectRc. destruct (_ || _) eqn:E; [|done]. intros _.
  apply not_true_iff_false. rewrite andb_true_iff, !in_rc_iff.
  rewrite !orb_true_iff, !Z.leb_le in E. lia.
Qed.

(** The clamped addition stays between its limits whatever the addition does. *)
Lemma limit_add_range deg dadd dmax dmin :
  dmin <= dmax -> dmin <= fn_x_LimitAdd deg dadd dmax dmin <= dmax.
Proof. intros H. unfold fn_x_LimitAdd. zcase; lia. Qed.

Lemma limit_add_exact deg dadd dmax dmin :
  dmin <= dmax -> INT_MIN <= deg + dadd <= INT_MAX ->
  fn_x_LimitAdd deg dadd dmax dmin = Z.max dmin (Z.min dmax (deg + dadd)).
Proof. intros H Hr. unfold fn_x_LimitAdd. rewrite i32_small by done. zcase; lia. Qed.

(** ** Lemmas on printing *)

Lemma fmt_d_length_pos z k :
  0 <= z < 10 ^ Z.of_nat (S k) -> (length (fmt_d z) <= S k)%nat.
Proof.
  intros H. unfold fmt_d. destruct (Z.ltb_spec z 0); [lia|]. by apply digits_length.
Qed.

Lemma fmt_d_length z k :
  - 10 ^ Z.of_nat (S k) < z < 10 ^ Z.of_nat (S k) -> (length (fmt_d z) <= S (S k))%nat.
Proof.
  intros H. unfold fmt_d. destruct (Z.ltb_spec z 0); simpl.
  - apply le_n_S, digits_length. lia.
  - apply Nat.le_trans with (S k); [apply digits_length; lia|lia].
Qed.

Lemma blen_fmt_d_int z : INT_MIN <= z <= INT_MAX -> blen (fmt_d z) <= 11.
Proof.
  intros H. unfold blen, INT_MIN, INT_MAX in *.
  pose proof (fmt_d_length z 9 ltac:(simpl Z.of_nat; lia)). lia.
Qed.

Lemma fmt_06d_length z : 0 <= z < NLA_DEG_FIXPOINT_BASE -> length (fmt_0d 6 z) = 6%nat.
Proof.
  unfold NLA_DEG_FIXPOINT_BASE. intros H. unfold fmt_0d. destruct (Z.ltb_spec z 0); [lia|].
  apply zpad_length. apply (digits_length z 5). simpl. lia.
Qed.

Lemma deg_text_nonneg deg :
  0 <= deg ->
  deg_text deg = digits (deg / NLA_DEG_FIXPOINT_BASE) ++ [46] ++
                 zpad 6 (digits (deg mod NLA_DEG_FIXPOINT_BASE)).
Proof.
  intros H. unfold deg_text, fmt_d, fmt_0d. unfold NLA_DEG_FIXPOINT_BASE in *.
  rewrite Z.quot_div_nonneg, Z.rem_mod_nonneg by lia.
  pose proof (Z.div_pos deg 1000000 ltac:(lia) ltac:(lia)).
  pose proof (Z.mod_pos_bound deg 1000000 ltac:(lia)).
  destruct (Z.ltb_spec (deg / 1000000) 0); [lia|].
  by destruct (Z.ltb_spec (deg mod 1000000) 0); [lia|].
Qed.

Lemma deg_text_length deg : 0 <= deg <= INT_MAX -> blen (deg_text deg) <= 11.
Proof.
  intros [H0 H1]. rewrite deg_text_nonneg by done. unfold blen. rewrite !length_app.
  unfold NLA_DEG_FIXPOINT_BASE, INT_MAX in *.
  pose proof (Z.mod_pos_bound deg 1000000 ltac:(lia)).
  assert (0 <= deg / 1000000 < 10 ^ Z.of_nat 4).
  { split; [apply Z.div_pos; lia|]. apply Z.div_lt_upper_bound; simpl; lia. }
  pose proof (digits_length (deg / 1000000) 3 ltac:(done)).
  rewrite zpad_length by (apply (digits_length _ 5); simpl; lia). simpl. lia.
Qed.

(** Parsing what was printed gives the degree back. *)
Lemma atofp_deg_text deg :
  0 <= deg <= INT_MAX -> Number.ngx_atofp (deg_text deg) NLA_DEG_FIXPOINT = deg.
Proof.
  intros [H0 H1]. rewrite deg_text_nonneg by done. unfold NLA_DEG_FIXPOINT_BASE, INT_MAX in *.
  pose proof (Z.mod_pos_bound deg 1000000 ltac:(lia)) as Hm.
  pose proof (Z.div_pos deg 1000000 ltac:(lia) ltac:(lia)) as Hd.
  destruct (digits_spec (deg / 1000000) Hd) as [V1 D1].
  destruct (digits_spec (deg mod 1000000) ltac:(lia)) as [V2 D2].
  set (fs := zpad 6 (digits (deg mod 1000000))).
  assert (Hfs : length fs = 6%nat) by (apply zpad_length, (digits_length _ 5); simpl; lia).
  assert (Hval : dec_value (digits (deg / 1000000) ++ fs) = deg).
  { change (Number.dec_from 0 (digits (deg / 1000000) ++ fs) = deg).
    change (Number.dec_from 0 (digits (deg / 1000000)) = deg / 1000000) in V1.
    rewrite Number.dec_from_app, V1, Number.dec_from_shift, Hfs.
    assert (Number.dec_from 0 fs = deg mod 1000000) as ->.
    { transitivity (dec_value (digits (deg mod 1000000))); [apply dec_value_replicate0|done]. }
    pose proof (Z.div_mod deg 1000000 ltac:(lia)). simpl Z.of_nat. lia. }
  change ([46] ++ fs) with (46 :: fs).
  assert (Hdig : Forall is_digit fs)
    by (apply Forall_app; split; [apply Forall_replicate; unfold is_digit; lia|done]).
  rewrite Number.ngx_atofp_frac; rewrite ?Hfs, ?Hval; unfold NLA_DEG_FIXPOINT, INT64_MAX; try done.
  - simpl. lia.
  - lia.
  - simpl. lia.
Qed.

(** Items whose text fits: an identifier below the size of its array, degrees
    that print in their 12-byte buffers, numbers of their C types. *)
Definition printable (d : nla_data_item) : Prop :=
  blen (ach_id d) < NLA_DATA_ID_MAX_LEN /\
  INT_MIN <= i_status d <= INT_MAX /\ INT_MIN <= i_type d <= INT_MAX /\
  0 <= lat (loc d) <= INT_MAX /\ 0 <= lon (loc d) <= INT_MAX /\
  - INT64_MAX - 1 <= last_update_time d <= INT64_MAX.

Definition item_json (d : nla_data_item) : bytes :=
  item_text d (deg_text (lat (loc d))) (deg_text (lon (loc d))).

Lemma blen_app a b : blen (a ++ b) = blen a + blen b.
Proof. unfold blen. rewrite length_app. lia. Qed.

Lemma sprintf_into_Ok cap s : blen s < cap -> sprintf_into cap s = Ok s.
Proof. intros H. unfold sprintf_into. destruct (Z.leb_spec (blen s + 1) cap); [done|lia]. Qed.

(** The text of a printable item is shorter than 157 bytes. *)
Lemma item_json_length d : printable d -> blen (item_json d) <= 156.
Proof.
  unfold printable, NLA_DATA_ID_MAX_LEN. intros (Hid & Hs & Ht & Hla & Hlo & Hup).
  unfold item_json, item_text. rewrite !blen_app.
  pose proof (blen_fmt_d_int _ Hs). pose proof (blen_fmt_d_int _ Ht).
  pose proof (deg_text_length _ Hla). pose proof (deg_text_length _ Hlo).
  assert (blen (fmt_d (last_update_time d)) <= 20).
  { unfold INT64_MAX in Hup. pose proof (fmt_d_length (last_update_time d) 18). unfold blen. simpl in *. lia. }
  change (blen (js "{'id':'")) with 7. change (blen (js "','status':'")) with 12.
  change (blen (js "','type':'")) with 10. change (blen (js "','lat':'")) with 9.
  change (blen (js "','lon':'")) with 9. change (blen (js "','uptime':'")) with 12.
  change (blen (js "'}")) with 2. lia.
Qed.

Lemma format_item_Ok d cap :
  printable d -> 157 <= cap -> fn_v_FormatDataItem d cap = Ok (item_json d).
Proof.
  intros Hd Hcap. pose proof (item_json_length d Hd).
  destruct Hd as (_ & _ & _ & Hla & Hlo & _).
  pose proof (deg_text_length _ Hla). pose proof (deg_text_length _ Hlo).
  unfold fn_v_FormatDataItem, fn_v_FormatDeg.
  rewrite !sprintf_into_Ok by (unfold NLA_DEG_MAX_BUF_LEN; lia). rewrite !obind_Ok.
  apply sprintf_into_Ok. unfold item_json in *. lia.
Qed.

(** ** Lemmas on the search rectangle *)
Section LibmFacts.
Variable cos : Dbl.double -> Dbl.double.
Import Dbl.

Lemma to_int_range d z : to_int d = Ok z -> INT_MIN <= z <= INT_MAX.
Proof.
  unfold to_int. destruct d as [s|s| |s m e]; try done; [intros [= <-]; done|].
  destruct (_ && _) eqn:E; [|done]. intros [= <-].
  apply andb_prop in E as [?%Z.leb_le ?%Z.leb_le]. lia.
Qed.

Lemma trunc_nonneg m e : 0 <= trunc m e.
Proof.
  unfold trunc. destruct (Z.leb_spec 0 e).
  - apply Z.mul_nonneg_nonneg; [lia|]. apply Z.pow_nonneg. lia.
  - apply Z.div_pos; [lia|]. apply Z.pow_pos_nonneg; lia.
Qed.

Lemma to_int_nonneg d z : positive_sign d -> to_int d = Ok z -> 0 <= z.
Proof.
  unfold to_int. destruct d as [s|s| |s m e]; try done; simpl; [intros _ [= <-]; done|].
  intros ->. destruct (_ && _); [|done]. intros [= <-]. apply trunc_nonneg.
Qed.

Lemma round_aux_sign m e l : positive_sign (binary_round_aux 53 1024 false m e l).
Proof.
  unfold binary_round_aux. destruct (shr_fexp 53 1024 m e l) as [mrs e'].
  destruct (shr_fexp 53 1024 _ e' loc_Exact) as [mrs' e''].
  destruct (shr_m mrs'); [done| |done]. by destruct (Z.leb e'' _).
Qed.

Lemma mul_sign x y : positive_sign x -> positive_sign y -> positive_sign (mul x y).
Proof.
  unfold mul, SFmul.
  destruct x as [sx|sx| |sx mx ex], y as [sy|sy| |sy my ey]; simpl positive_sign; try done;
    intros -> ->; try done. apply round_aux_sign.
Qed.

Lemma search_rect_inside pLoc r rc :
  fn_v_GetRectFromLocRadius cos pLoc r = Ok rc ->
  NLA_MIN_LAT <= lat (lt rc) <= NLA_MAX_LAT /\ NLA_MIN_LAT <= lat (rb rc) <= NLA_MAX_LAT /\
  NLA_MIN_LON <= lon (lt rc) <= NLA_MAX_LON /\ NLA_MIN_LON <= lon (rb rc) <= NLA_MAX_LON.
Proof.
  unfold fn_v_GetRectFromLocRadius.
  intros (lat_off & _ & (lon_off & _ & [= <-])%obind_Ok_inv)%obind_Ok_inv. simpl.
  repeat split; apply limit_add_range; done.
Qed.

(** The latitudes of the rectangle surround the latitude of the centre. *)
Lemma search_rect_lat pLoc r rc :
  NLA_MIN_LAT <= lat pLoc <= NLA_MAX_LAT -> positive_sign r ->
  (forall z, to_int (mul (of_int NLA_LAT_DIST_FACTOR) r) = Ok z -> z <= 2000000000) ->
  fn_v_GetRectFromLocRadius cos pLoc r = Ok rc ->
  exists off, 0 <= off /\ lat (lt rc) = Z.max NLA_MIN_LAT (lat pLoc - off) /\
              lat (rb rc) = Z.min NLA_MAX_LAT (lat pLoc + off).
Proof.
  intros Hl Hr Hmax. unfold fn_v_GetRectFromLocRadius.
  intros (lat_off & Hoff & (lon_off & _ & [= <-])%obind_Ok_inv)%obind_Ok_inv. simpl.
  pose proof (to_int_nonneg _ _ (mul_sign (of_int NLA_LAT_DIST_FACTOR) r eq_refl Hr) Hoff) as H0.
  specialize (Hmax _ Hoff). exists lat_off. split; [done|].
  unfold NLA_MIN_LAT, NLA_MAX_LAT in *.
  rewrite !limit_add_exact; rewrite ?(i32_small (- lat_off)); unfold INT_MIN, INT_MAX; lia.
Qed.
End LibmFacts.
