(* ===== verification/SharedMem.v ===== *)
(** * The shared memory pool

    The module allocates everything it shares between the worker processes from
    a pool of the OSSP mm library ([mm_create], [mm_calloc], [mm_realloc],
    [mm_free]), which is not part of the repository.  The library is a parameter
    of the model: the class [MM] holds its operations and [MMLaws] what its
    documentation promises of them.  [bump_mm] is a concrete pool with a fixed
    number of blocks, used to run the model. *)
From S2P Require Import Prelude.

(** Addresses of blocks; [None] is NULL. *)
Abbreviation addr := positive.
Abbreviation ptr := (option addr).

(** sizeof of the structures on the LP64 targets. *)
Definition sizeof_map_node : Z := 80.
Definition sizeof_data_node : Z := 80.
Definition sizeof_core_data : Z := 32.
Definition sizeof_server_status : Z := 24.
Definition sizeof_StrMap : Z := 24.
Definition sizeof_Bucket : Z := 16.
Definition sizeof_Pair : Z := 16.

Class MM := {
  mm : Type;
  (** [NLA_MM_CALLOC(mm, size)], a zeroed block or NULL *)
  mm_calloc : mm -> Z -> ptr * mm;
  mm_realloc : mm -> addr -> Z -> ptr * mm;
  mm_free : mm -> ptr -> mm;
}.

Class MMLaws (M : MM) := {
  mm_live : mm -> gset addr;
  calloc_Some m n p m' : mm_calloc m n = (Some p, m') -> (p ∉ mm_live m) /\ mm_live m' = {[p]} ∪ mm_live m;
  calloc_None m n m' : mm_calloc m n = (None, m') -> mm_live m' = mm_live m;
  realloc_Some m p n q m' :
    p ∈ mm_live m -> mm_realloc m p n = (Some q, m') ->
    (q ∉ mm_live m ∖ {[p]}) /\ mm_live m' = {[q]} ∪ (mm_live m ∖ {[p]});
  realloc_None m p n m' : mm_realloc m p n = (None, m') -> mm_live m' = mm_live m;
  free_Some m p : mm_live (mm_free m (Some p)) = mm_live m ∖ {[p]};
  free_None m : mm_live (mm_free m None) = mm_live m;
}.

(** The next [n] allocations of [size] bytes succeed. *)
Fixpoint mm_room {M : MM} (n : nat) (size : Z) (m : mm) : bool :=
  match n with
  | O => true
  | S n' => match mm_calloc m size with
            | (Some _, m') => mm_room n' size m'
            | (None, _) => false
            end
  end.

Lemma mm_room_S {M : MM} n size m :
  mm_room (S n) size m = true ->
  exists p m', mm_calloc m size = (Some p, m') /\ mm_room n size m' = true.
Proof. simpl. destruct (mm_calloc m size) as [[p|] m'] eqn:E; [eauto|done]. Qed.

Lemma mm_room_le {M : MM} n n' size m :
  (n <= n')%nat -> mm_room n' size m = true -> mm_room n size m = true.
Proof.
  revert n' m. induction n as [|n IH]; intros [|n'] m Hle; simpl; try done; [lia|].
  destruct (mm_calloc m size) as [[p|] m']; [|done]. apply IH. lia.
Qed.

(** The allocations among the next [n] calls to the pool succeed, whatever their
    sizes up to [limit]. *)
Fixpoint plenty {M : MM} (n : nat) (limit : Z) (m : mm) : Prop :=
  match n with
  | O => True
  | S n' =>
      (forall size, 0 < size <= limit ->
         exists p m', mm_calloc m size = (Some p, m') /\ plenty n' limit m') /\
      (forall q size, 0 < size <= limit ->
         exists p m', mm_realloc m q size = (Some p, m') /\ plenty n' limit m') /\
      (forall q, plenty n' limit (mm_free m q))
  end.

Lemma plenty_S {M : MM} n limit m : plenty (S n) limit m -> plenty n limit m.
Proof.
  revert m. induction n as [|n IH]; intros m; [done|]. intros (Hc & Hr & Hf). split; [|split].
  - intros size Hs. destruct (Hc size Hs) as (p & m' & E & H). exists p, m'. split; [done|]. by apply IH.
  - intros q size Hs. destruct (Hr q size Hs) as (p & m' & E & H). exists p, m'. split; [done|]. by apply IH.
  - intros q. by apply IH, Hf.
Qed.

Lemma plenty_le {M : MM} n n' limit m : (n <= n')%nat -> plenty n' limit m -> plenty n limit m.
Proof. induction 1; [done|]. intros ?%plenty_S. auto. Qed.

Lemma plenty_room {M : MM} n limit size m :
  0 < size <= limit -> plenty n limit m -> mm_room n size m = true.
Proof.
  intros Hs. revert m. induction n as [|n IH]; intros m; [done|]. intros [Hc _]. simpl.
  destruct (Hc size Hs) as (p & m' & -> & H). by apply IH.
Qed.

(** ** A concrete pool: blocks are numbered, [bump_left] remain. *)
Record bump := { bump_next : addr; bump_left : nat; bump_set : gset addr }.

Definition bump_calloc (b : bump) (n : Z) : ptr * bump :=
  match bump_left b with
  | O => (None, b)
  | S k => (Some (bump_next b),
            {| bump_next := Pos.succ (bump_next b); bump_left := k;
               bump_set := {[bump_next b]} ∪ bump_set b |})
  end.

Definition bump_free (b : bump) (p : ptr) : bump :=
  match p with
  | None => b
  | Some p => {| bump_next := bump_next b; bump_left := bump_left b; bump_set := bump_set b ∖ {[p]} |}
  end.

Definition bump_start (n : nat) : bump := {| bump_next := 1; bump_left := n; bump_set := ∅ |}.

#[export] Instance bump_mm : MM := {
  mm := bump;
  mm_calloc := bump_calloc;
  mm_realloc b p n :=
    match bump_calloc b n with
    | (Some q, b') => (Some q, bump_free b' (Some p))
    | (None, b') => (None, b')
    end;
  mm_free := bump_free;
}.

(** The bump pool never hands out an address again, so a live set capped by
    [bump_next] obeys the laws. *)
Definition bump_live (b : bump) : gset addr :=
  filter (fun p => (p < bump_next b)%positive) (bump_set b).

#[export] Instance bump_laws : MMLaws bump_mm.
Proof.
  refine {| mm_live := (bump_live : @mm bump_mm -> gset addr) |}.
  - intros m n p m' H. simpl in H. unfold bump_calloc in H. destruct (bump_left m); [done|].
    injection H as <- <-. unfold bump_live. split.
    + intros [? _]%elem_of_filter. lia.
    + apply set_eq. intros q. simpl. rewrite elem_of_filter, !elem_of_union, elem_of_singleton, elem_of_filter.
      split; [intros [? [?|?]]; auto|intros [->|[? ?]]; split; auto; lia].
      destruct (decide (q = bump_next m)); [by left|]. right. split; [lia|done].
  - intros m n m' H. simpl in H. unfold bump_calloc in H. by destruct (bump_left m); [injection H as <-|].
  - intros m p n q m' Hp H. simpl in H. unfold bump_calloc in H. destruct (bump_left m); [done|].
    injection H as <- <-. unfold bump_live in *. simpl.
    apply elem_of_filter in Hp as [Hp _]. split.
    + intros [[? _]%elem_of_filter _]%elem_of_difference. lia.
    + apply set_eq. intros r. rewrite elem_of_filter, !elem_of_difference, elem_of_union, !elem_of_singleton.
      rewrite elem_of_union, elem_of_difference, elem_of_filter, !elem_of_singleton.
      split; [intros [? [[?|?] ?]]; auto|].
      * destruct (decide (r = bump_next m)); [by left|]. right. repeat split; auto; lia.
      * intros [->|[[? ?] ?]]; repeat split; auto; lia.
  - intros m p n m' H. simpl in H. unfold bump_calloc in H. by destruct (bump_left m); [injection H as <-|].
  - intros m p. simpl. unfold bump_live. simpl. apply set_eq. intros r.
    rewrite elem_of_filter, !elem_of_difference, elem_of_filter. tauto.
  - done.
Defined.

Lemma bump_plenty n limit b : (n <= bump_left b)%nat -> @plenty bump_mm n limit b.
Proof.
  revert b. induction n as [|n IH]; intros b Hn; [done|].
  split; [|split].
  1-2: intros; simpl; unfold bump_calloc; destruct (bump_left b) as [|k] eqn:E; [lia|];
    eexists _, _; (split; [done|]); apply IH; simpl; lia.
  intros [q|]; apply IH; simpl; lia.
Qed.
