(* ===== verification/StrMap.v ===== *)
(** * The string map: src/ngx_http_lookaround_strmap.c

    A hash table of buckets, each a growing array of key-value pairs, allocated
    from the shared pool.  The [count] of a table and of a bucket is the length
    of the corresponding list; [None] is a NULL pointer.  A key is the C string
    it points to (bytes other than NUL), together with the address of the copy
    the map owns.  The type [V] is what a value points to: arbitrary data for the
    [_ptrvalue] operations, an owned buffer for [sm_put] and [sm_get]. *)
From S2P Require Import Prelude.
From S2P Require Import SharedMem.

(** ** Data *)

Record Pair (V : Type) := mk_pair { key : option (addr * bytes); value : option V }.
Arguments mk_pair {V} _ _.
Arguments key {V} _.
Arguments value {V} _.

Record Bucket (V : Type) := mk_bucket { pairs_ptr : ptr; pairs : list (Pair V) }.
Arguments mk_bucket {V} _ _.
Arguments pairs_ptr {V} _.
Arguments pairs {V} _.

Record StrMap (V : Type) := mk_map { map_ptr : addr; buckets_ptr : addr; buckets : list (Bucket V) }.
Arguments mk_map {V} _ _ _.
Arguments map_ptr {V} _.
Arguments buckets_ptr {V} _.
Arguments buckets {V} _.

Definition empty_bucket {V} : Bucket V := mk_bucket None [].

(** ** Hashing and searching *)

(** [int c = *str++]: [char] is signed on the x86 targets. *)
Definition sext8 (c : Z) : Z := if c <? 128 then c else c - 256.

Fixpoint hash_loop (h : Z) (str : bytes) : Z :=
  match str with
  | [] => h
  | c :: str' => hash_loop (u64 (u64 (u64 (Z.shiftl h 5) + h) + u64 (sext8 c))) str'
  end.

Definition hash (str : bytes) : Z := hash_loop 5381 str.

(** [hash(key) % map->count] *)
Definition index {V} (map : StrMap V) (k : bytes) : out nat :=
  match length (buckets map) with
  | O => Undef DivByZero
  | n => Ok (Z.to_nat (u32 (hash k mod Z.of_nat n)))
  end.

Definition bucket_at {V} (map : StrMap V) (i : nat) : out (Bucket V) :=
  match buckets map !! i with Some b => Ok b | None => Undef OutOfBounds end.

(** The test of the loop of [get_pair]. *)
Definition pair_matches {V} (k : bytes) (p : Pair V) : bool :=
  match key p, value p with
  | Some (_, s), Some _ => bool_decide (s = k)
  | _, _ => false
  end.

(** [get_pair]: the index of the first matching pair. *)
Fixpoint get_pair_loop {V} (i : nat) (ps : list (Pair V)) (k : bytes) : option nat :=
  match ps with
  | [] => None
  | p :: ps' => if pair_matches k p then Some i else get_pair_loop (S i) ps' k
  end.

Definition get_pair {V} (bucket : Bucket V) (k : bytes) : option nat :=
  get_pair_loop 0 (pairs bucket) k.

(** The prologue shared by the operations on a key: bucket and matching pair. *)
Definition find_pair {V} (map : StrMap V) (k : bytes) : out (nat * Bucket V * option nat) :=
  let! i := index map k in
  let! b := bucket_at map i in
  Ok (i, b, get_pair b k).

Section Ops.
Context {M : MM} {V : Type}.
Implicit Types (map : StrMap V) (m : mm).

(** ** Operations *)

(** [sm_new]; [free(map)] is called on memory of the pool when the second
    allocation fails. *)
Definition sm_new (pMMPool : mm) (capacity : Z) : out (option (StrMap V) * mm) :=
  let '(p, m) := mm_calloc pMMPool sizeof_StrMap in
  match p with
  | None => Ok (None, m)
  | Some p =>
      let count := u32 capacity in
      let '(b, m) := mm_calloc m (u64 (count * sizeof_Bucket)) in
      match b with
      | None => Undef BadFree
      | Some b => Ok (Some (mk_map p b (replicate (Z.to_nat count) empty_bucket)), m)
      end
  end.

Definition sm_get_ptrvalue (map : option (StrMap V)) (key : option bytes) : out (option V) :=
  match map, key with
  | None, _ => Ok None
  | _, None => Ok None
  | Some map, Some k =>
      let! (_, b, j) := find_pair map k in
      match j with
      | None => Ok None
      | Some j => Ok (pairs b !! j ≫= value)
      end
  end.

Definition sm_exists (map : option (StrMap V)) (key : option bytes) : out Z :=
  match map, key with
  | None, _ => Ok 0
  | _, None => Ok 0
  | Some map, Some k =>
      let! (_, _, j) := find_pair map k in
      match j with None => Ok 0 | Some _ => Ok 1 end
  end.

Definition set_bucket map (i : nat) (b : Bucket V) : StrMap V :=
  mk_map (map_ptr map) (buckets_ptr map) (<[i := b]> (buckets map)).

Definition set_pair (b : Bucket V) (j : nat) (p : Pair V) : Bucket V :=
  mk_bucket (pairs_ptr b) (<[j := p]> (pairs b)).

Definition sm_remove_ptrvalue (m : mm) (map : option (StrMap V)) (key : option bytes)
  : out (mm * option (StrMap V)) :=
  match map, key with
  | None, _ => Ok (m, None)
  | Some map, None => Ok (m, Some map)
  | Some map, Some k =>
      let! (i, b, j) := find_pair map k in
      match j with
      | None => Ok (m, Some map)
      | Some j =>
          let old := pairs b !! j ≫= StrMap.key in
          Ok (mm_free m (fst <$> old), Some (set_bucket map i (set_pair b j (mk_pair None None))))
      end
  end.

(** The allocation of the slot for a new pair; a bucket that holds pairs has an
    array ([wf_bucket] below). *)
Definition grow_bucket (m : mm) (b : Bucket V) : ptr * mm :=
  match pairs_ptr b, length (pairs b) with
  | Some p, S _ => mm_realloc m p (u64 (u32 (Z.of_nat (length (pairs b)) + 1) * sizeof_Pair))
  | _, _ => mm_calloc m sizeof_Pair
  end.

Definition sm_put_ptrvalue (m : mm) (map : option (StrMap V)) (key : option bytes) (v : option V)
  : out (Z * mm * option (StrMap V)) :=
  match map, key with
  | None, _ => Ok (0, m, None)
  | Some map, None => Ok (0, m, Some map)
  | Some map, Some k =>
      let key_len := u32 (blen k) in
      let! (i, b, j) := find_pair map k in
      match j with
      | Some j =>
          let old := pairs b !! j ≫= StrMap.key in
          Ok (1, m, Some (set_bucket map i (set_pair b j (mk_pair old v))))
      | None =>
          let '(new_key, m) := mm_calloc m (u32 (key_len + 1)) in
          match new_key with
          | None => Ok (0, m, Some map)
          | Some new_key =>
              let '(new_pairs, m) := grow_bucket m b in
              match new_pairs with
              | None => Undef BadFree
              | Some q =>
                  let b' := mk_bucket (Some q) (pairs b ++ [mk_pair (Some (new_key, k)) v]) in
                  Ok (1, m, Some (set_bucket map i b'))
              end
          end
      end
  end.

(** The loops of [sm_get_count]: [count++] for each pair of each bucket. *)
Fixpoint count_pairs (count : Z) (ps : list (Pair V)) : Z :=
  match ps with
  | [] => count
  | _ :: ps' => count_pairs (u32 (count + 1)) ps'
  end.
Fixpoint count_buckets (count : Z) (bs : list (Bucket V)) : Z :=
  match bs with
  | [] => count
  | b :: bs' => count_buckets (count_pairs count (pairs b)) bs'
  end.
Definition sm_get_count (map : option (StrMap V)) : Z :=
  match map with
  | None => 0
  | Some map => i32 (count_buckets 0 (buckets map))
  end.

(** [sm_enum]: the callback as a function on the state it updates through [obj]. *)
Definition sm_enum {S : Type} (map : option (StrMap V))
    (enum_func : option (option bytes -> option V -> S -> S)) (obj : S) : Z * S :=
  match map, enum_func with
  | None, _ => (0, obj)
  | _, None => (0, obj)
  | Some map, Some f =>
      (1, fold_left (fun st b =>
            fold_left (fun st p => f (snd <$> key p) (value p) st) (pairs b) st)
          (buckets map) obj)
  end.

(** [sm_ptrvalue_delete]: the keys, the arrays of pairs, the table, the map. *)
Definition free_bucket (m : mm) (b : Bucket V) : mm :=
  mm_free (fold_left (fun m p => mm_free m (fst <$> key p)) (pairs b) m) (pairs_ptr b).
Definition sm_ptrvalue_delete (m : mm) (map : option (StrMap V)) : mm :=
  match map with
  | None => m
  | Some map =>
      mm_free (mm_free (fold_left free_bucket (buckets map) m) (Some (buckets_ptr map)))
              (Some (map_ptr map))
  end.
End Ops.

(** ** String values *)

(** An owned value: the block, its size and the C string in it. *)
Record vbuf := mk_vbuf { vb_ptr : addr; vb_size : Z; vb_str : bytes }.

Section StringOps.
Context {M : MM}.
Implicit Types (map : StrMap vbuf) (m : mm).

(** [strcpy] into a block. *)
Definition vb_strcpy (b : vbuf) (s : bytes) : out vbuf :=
  if blen s + 1 <=? vb_size b then Ok (mk_vbuf (vb_ptr b) (vb_size b) s) else Undef OutOfBounds.

(** [sm_get]: the result and what is copied to [out_buf], which is NULL when
    [out_null] holds. *)
Definition sm_get (map : option (StrMap vbuf)) (key : option bytes) (out_null : bool) (n_out_buf : Z)
  : out (Z * option bytes) :=
  match map, key with
  | None, _ => Ok (0, None)
  | _, None => Ok (0, None)
  | Some map, Some k =>
      let! (_, b, j) := find_pair map k in
      match j ≫= (fun j => pairs b !! j ≫= value) with
      | None => Ok (0, None)
      | Some v =>
          if out_null && (n_out_buf =? 0) then Ok (i32 (blen (vb_str v) + 1), None)
          else if out_null then Ok (0, None)
          else if n_out_buf <=? blen (vb_str v) then Ok (0, None)
          else Ok (1, Some (vb_str v))
      end
  end.

(** The replacement of the value of an existing pair. *)
Definition replace_value (m : mm) (old : vbuf) (v : bytes) : out (Z * mm * vbuf) :=
  let value_len := u32 (blen v) in
  if blen (vb_str old) <? value_len then
    let size := u32 (value_len + 1) in
    let '(tmp, m) := mm_realloc m (vb_ptr old) size in
    match tmp with
    | None => Ok (0, m, old)
    | Some q => let! nv := vb_strcpy (mk_vbuf q size (vb_str old)) v in Ok (1, m, nv)
    end
  else let! nv := vb_strcpy old v in Ok (1, m, nv).

Definition sm_put (m : mm) (map : option (StrMap vbuf)) (key : option bytes) (v : option bytes)
  : out (Z * mm * option (StrMap vbuf)) :=
  match map, key, v with
  | None, _, _ => Ok (0, m, None)
  | Some map, None, _ | Some map, _, None => Ok (0, m, Some map)
  | Some map, Some k, Some v =>
      let key_len := u32 (blen k) in
      let value_len := u32 (blen v) in
      let! (i, b, j) := find_pair map k in
      match j, j ≫= (fun j => pairs b !! j) with
      | Some j, Some (mk_pair old_key (Some old)) =>
          let! (r, m, nv) := replace_value m old v in
          Ok (r, m, Some (set_bucket map i (set_pair b j (mk_pair old_key (Some nv)))))
      | _, _ =>
          let '(new_key, m) := mm_calloc m (u32 (key_len + 1)) in
          match new_key with
          | None => Ok (0, m, Some map)
          | Some new_key =>
              let '(new_value, m) := mm_calloc m (u32 (value_len + 1)) in
              match new_value with
              | None => Undef BadFree
              | Some new_value =>
                  let '(new_pairs, m) := grow_bucket m b in
                  match new_pairs with
                  | None => Undef BadFree
                  | Some q =>
                      let! nv := vb_strcpy (mk_vbuf new_value (u32 (value_len + 1)) []) v in
                      let b' := mk_bucket (Some q) (pairs b ++ [mk_pair (Some (new_key, k)) (Some nv)]) in
                      Ok (1, m, Some (set_bucket map i b'))
                  end
              end
          end
      end
  end.

(** [sm_delete]: as [sm_ptrvalue_delete], and the values too. *)
Definition free_pair (m : mm) (p : Pair vbuf) : mm :=
  mm_free (mm_free m (fst <$> key p)) (vb_ptr <$> value p).
Definition sm_delete (m : mm) (map : option (StrMap vbuf)) : mm :=
  match map with
  | None => m
  | Some map =>
      let m := fold_left (fun m b => mm_free (fold_left free_pair (pairs b) m) (pairs_ptr b))
                 (buckets map) m in
      mm_free (mm_free m (Some (buckets_ptr map))) (Some (map_ptr map))
  end.
End StringOps.

(** ** Invariant and abstraction *)
Section Facts.
Context {V : Type}.
Implicit Types (p q : Pair V) (ps : list (Pair V)) (b : Bucket V) (map : StrMap V).

(** The key of a pair that [get_pair] can return. *)
Definition live_key p : option bytes :=
  match key p, value p with Some (_, s), Some _ => Some s | _, _ => None end.

Definition live_keys ps : list bytes := omap live_key ps.

Definition wf_bucket b : Prop :=
  NoDup (live_keys (pairs b)) /\ (pairs b <> [] -> is_Some (pairs_ptr b)).

Definition wf_map map : Prop :=
  (0 < length (buckets map))%nat /\ Z.of_nat (length (buckets map)) < 2 ^ 32 /\
  Forall wf_bucket (buckets map).

(** What a bucket and a map associate with a key. *)
Fixpoint bget ps (k : bytes) : option V :=
  match ps with
  | [] => None
  | p :: ps' => if pair_matches k p then value p else bget ps' k
  end.

Definition idx map (k : bytes) : nat := Z.to_nat (hash k mod Z.of_nat (length (buckets map))).

Definition abs_get map (k : bytes) : option V :=
  buckets map !! idx map k ≫= (fun b => bget (pairs b) k).

(** A map represents the finite map [g]. *)
Definition sm_rel map (g : gmap bytes V) : Prop := forall k, abs_get map k = g !! k.

Lemma pair_matches_live k p : pair_matches k p = bool_decide (live_key p = Some k).
Proof.
  unfold pair_matches, live_key. destruct (key p) as [[a s]|], (value p); try done.
  apply bool_decide_ext. split; [by intros ->|by intros [=]].
Qed.

Lemma live_key_value p k : live_key p = Some k -> is_Some (value p).
Proof. unfold live_key. destruct (key p) as [[? ?]|], (value p); done. Qed.

Lemma get_pair_loop_spec i ps k :
  match get_pair_loop i ps k with
  | None => bget ps k = None /\ k ∉ live_keys ps
  | Some j => exists j' p, j = (i + j')%nat /\ ps !! j' = Some p /\ live_key p = Some k /\
                           bget ps k = value p
  end.
Proof.
  revert i. induction ps as [|p ps IH]; intros i; simpl; [by split; [|apply not_elem_of_nil]|].
  rewrite pair_matches_live. case_bool_decide as E.
  - exists 0%nat, p. split; [lia|]. done.
  - specialize (IH (S i)). destruct (get_pair_loop (S i) ps k) as [j|].
    + destruct IH as (j' & q & -> & Hq & Hk & Hv). exists (S j'), q. split; [lia|]. done.
    + destruct IH as [Hb Hn]. split; [done|]. unfold live_keys in *. simpl.
      destruct (live_key p) as [s|]; simpl; [|done].
      rewrite not_elem_of_cons. split; [congruence|done].
Qed.

Lemma bget_app ps p k :
  bget (ps ++ [p]) k = if decide (bget ps k = None) then (if pair_matches k p then value p else None) else bget ps k.
Proof.
  induction ps as [|q ps IH]; simpl; [done|].
  destruct (pair_matches k q) eqn:E; [|apply IH].
  rewrite pair_matches_live, bool_decide_eq_true in E. apply live_key_value in E as [v ->]. done.
Qed.

Lemma bget_None_notin ps k : k ∉ live_keys ps -> bget ps k = None.
Proof.
  intros H. pose proof (get_pair_loop_spec 0 ps k) as Hs.
  destruct (get_pair_loop 0 ps k) as [j|]; [|apply Hs].
  destruct Hs as (j' & p & _ & Hp & Hk & _). destruct H.
  apply list_elem_of_omap. exists p. split; [|done]. by eapply list_elem_of_lookup_2.
Qed.

(** Replacing the pair that matches [k] by a pair for [k] or by a dead one. *)
Lemma bget_set ps k j p q k' :
  ps !! j = Some p -> live_key p = Some k -> NoDup (live_keys ps) ->
  (live_key q = Some k \/ live_key q = None) ->
  bget (<[j := q]> ps) k' =
    if decide (k = k') then (if decide (live_key q = None) then None else value q) else bget ps k'.
Proof.
  intros Hj Hp Hnd Hq. revert j Hj Hnd.
  induction ps as [|r ps IH]; intros j Hj Hnd; [done|]. destruct j as [|j]; simpl in *.
  - injection Hj as ->. unfold live_keys in Hnd. simpl in Hnd. rewrite Hp in Hnd.
    apply NoDup_cons in Hnd as [Hnin Hnd]. rewrite !pair_matches_live, Hp.
    destruct (decide (k = k')) as [<-|Hne].
    + destruct Hq as [Hq|Hq]; rewrite Hq; [by rewrite bool_decide_eq_true_2|].
      simpl. apply bget_None_notin. done.
    + rewrite !bool_decide_eq_false_2; [done|congruence|naive_solver].
  - rewrite pair_matches_live. unfold live_keys in Hnd. simpl in Hnd.
    case_bool_decide as E.
    + rewrite E in Hnd. simpl in Hnd. apply NoDup_cons in Hnd as [Hnin _].
      rewrite decide_False; [done|]. intros <-. apply Hnin.
      apply list_elem_of_omap. exists p. split; [|done]. eapply list_elem_of_lookup_2; eauto.
    + apply IH; [done|]. destruct (live_key r); [|done]. by apply NoDup_cons in Hnd as [_ ?].
Qed.

Lemma live_keys_app ps p : live_keys (ps ++ [p]) = live_keys ps ++ match live_key p with Some k => [k] | None => [] end.
Proof. unfold live_keys. rewrite omap_app. simpl. by destruct (live_key p). Qed.

Lemma live_keys_set ps k j p q :
  ps !! j = Some p -> live_key p = Some k -> NoDup (live_keys ps) ->
  (live_key q = Some k \/ live_key q = None) ->
  NoDup (live_keys (<[j := q]> ps)) /\ live_keys (<[j := q]> ps) ⊆ live_keys ps.
Proof.
  intros Hj Hp Hnd Hq. revert j Hj Hnd.
  induction ps as [|r ps IH]; intros j Hj Hnd; [done|]. destruct j as [|j]; simpl in *.
  - injection Hj as ->. unfold live_keys in *. simpl in *. rewrite Hp in *.
    destruct Hq as [-> | ->]; [done|]. apply NoDup_cons in Hnd as [_ Hnd]. split; [done|set_solver].
  - unfold live_keys in *. simpl in *. destruct (live_key r) as [s|]; simpl in *.
    + apply NoDup_cons in Hnd as [Hs Hnd]. destruct (IH j Hj Hnd) as [Hn Hsub].
      split; [|set_solver]. apply NoDup_cons. split; [|done]. intros Hin. apply Hs. by apply Hsub.
    + by apply IH.
Qed.
End Facts.

Section MapFacts.
Context {M : MM} {V : Type}.
Implicit Types (map : StrMap V) (g : gmap bytes V) (b : Bucket V) (p q : Pair V).

Lemma idx_lt map k : wf_map map -> (idx map k < length (buckets map))%nat.
Proof.
  intros (H0 & H1 & _). unfold idx.
  pose proof (Z.mod_pos_bound (hash k) (Z.of_nat (length (buckets map))) ltac:(lia)). lia.
Qed.

Lemma index_idx map k : wf_map map -> index map k = Ok (idx map k).
Proof.
  intros (H0 & H1 & _). unfold index, idx. destruct (length (buckets map)) as [|n]; [lia|].
  pose proof (Z.mod_pos_bound (hash k) (Z.of_nat (S n)) ltac:(lia)).
  by rewrite u32_small by lia.
Qed.

Lemma find_pair_wf map k :
  wf_map map ->
  exists b, buckets map !! idx map k = Some b /\ wf_bucket b /\
            find_pair map k = Ok (idx map k, b, get_pair b k) /\
            abs_get map k = bget (pairs b) k.
Proof.
  intros Hwf. destruct (lookup_lt_is_Some_2 _ _ (idx_lt map k Hwf)) as [b Hb].
  exists b. split; [done|]. split.
  { destruct Hwf as (_ & _ & Hall). by eapply Forall_lookup_1. }
  unfold find_pair. rewrite index_idx by done. simpl. unfold bucket_at, abs_get. by rewrite Hb.
Qed.

(** Lookup is total on well-formed maps and reads the abstract map. *)
Lemma sm_get_ptrvalue_abs map k :
  wf_map map -> sm_get_ptrvalue (Some map) (Some k) = Ok (abs_get map k).
Proof.
  intros Hwf. destruct (find_pair_wf map k Hwf) as (b & Hb & _ & Hf & Habs).
  simpl. rewrite Hf, Habs. simpl. unfold get_pair.
  pose proof (get_pair_loop_spec 0 (pairs b) k) as Hs.
  destruct (get_pair_loop 0 (pairs b) k) as [j|]; simpl.
  - destruct Hs as (j' & p & -> & Hp & _ & ->). simpl. by rewrite Hp.
  - destruct Hs as [-> _]. done.
Qed.

Lemma set_bucket_idx map i b k : idx (set_bucket map i b) k = idx map k.
Proof. unfold idx, set_bucket. simpl. by rewrite length_insert. Qed.

Lemma set_bucket_wf map i b : wf_map map -> wf_bucket b -> wf_map (set_bucket map i b).
Proof.
  intros (H0 & H1 & Hall) Hb. unfold wf_map, set_bucket. simpl. rewrite length_insert.
  split; [done|]. split; [done|]. by apply Forall_insert.
Qed.

(** Replacing the bucket of [k] by one that differs for [k] only. *)
Lemma set_bucket_rel map g k b b' v :
  wf_map map -> sm_rel map g -> buckets map !! idx map k = Some b ->
  (forall k', bget (pairs b') k' = if decide (k = k') then v else bget (pairs b) k') ->
  sm_rel (set_bucket map (idx map k) b') (match v with Some v => <[k := v]> g | None => delete k g end).
Proof.
  intros Hwf Hrel Hb Hb' k'. unfold abs_get. rewrite set_bucket_idx. unfold set_bucket. simpl.
  assert (Hg : (match v with Some v => <[k := v]> g | None => delete k g end) !! k' =
               if decide (k = k') then v else g !! k').
  { destruct v; [rewrite lookup_insert|rewrite lookup_delete]; by destruct (decide (k = k')). }
  rewrite Hg. specialize (Hrel k'). unfold abs_get in Hrel.
  destruct (decide (idx map k = idx map k')) as [Hi|Hi].
  - rewrite <- Hi in *. rewrite list_lookup_insert_eq by (by apply idx_lt). simpl. rewrite Hb'.
    destruct (decide (k = k')) as [|]; [done|]. rewrite <- Hrel, Hb. done.
  - rewrite list_lookup_insert_ne by done. rewrite Hrel. rewrite decide_False; [done|congruence].
Qed.

(** A pair found by [get_pair], with what its replacement does to the bucket. *)
Lemma get_pair_set b k j q :
  wf_bucket b -> get_pair b k = Some j -> (live_key q = Some k \/ live_key q = None) ->
  exists p, pairs b !! j = Some p /\ live_key p = Some k /\ wf_bucket (set_pair b j q) /\
    forall k', bget (pairs (set_pair b j q)) k' =
      if decide (k = k') then (if decide (live_key q = None) then None else value q)
      else bget (pairs b) k'.
Proof.
  intros [Hnd Harr] Hj Hq. unfold get_pair in Hj.
  pose proof (get_pair_loop_spec 0 (pairs b) k) as Hs. rewrite Hj in Hs.
  destruct Hs as (j' & p & -> & Hp & Hk & _). simpl in *. exists p. split; [done|]. split; [done|].
  split.
  - split; simpl.
    + by eapply live_keys_set.
    + intros Hne. apply Harr. intros E. by rewrite E in Hp.
  - intros k'. simpl. by eapply bget_set.
Qed.

Lemma get_pair_None_app b k p (a : addr) :
  wf_bucket b -> get_pair b k = None -> live_key p = Some k \/ live_key p = None ->
  wf_bucket (mk_bucket (Some a) (pairs b ++ [p])) /\
  forall k', bget (pairs b ++ [p]) k' =
    if decide (k = k') then (if decide (live_key p = None) then None else value p) else bget (pairs b) k'.
Proof.
  intros [Hnd Harr] Hj Hp. unfold get_pair in Hj.
  pose proof (get_pair_loop_spec 0 (pairs b) k) as Hs. rewrite Hj in Hs. destruct Hs as [Hb Hnin].
  split.
  - split; simpl; [|eauto]. rewrite live_keys_app. destruct Hp as [->| ->]; [|by rewrite app_nil_r].
    apply NoDup_app. split; [done|]. split; [|by apply NoDup_singleton].
    intros x Hx ->%list_elem_of_singleton. done.
  - intros k'. rewrite bget_app, pair_matches_live.
    destruct (decide (k = k')) as [<-|Hne].
    + rewrite Hb. rewrite decide_True by done.
      destruct Hp as [Hp|Hp]; rewrite Hp; [by rewrite bool_decide_eq_true_2|done].
    + rewrite bool_decide_eq_false_2 by naive_solver.
      by destruct (bget (pairs b) k').
Qed.

(** *** The operations on the abstract map *)

Lemma sm_put_ptrvalue_spec m map g k v :
  wf_map map -> sm_rel map g ->
  match sm_put_ptrvalue m (Some map) (Some k) v with
  | Ok (r, m', map') =>
      (r = 1 /\ exists map'', map' = Some map'' /\ wf_map map'' /\
         sm_rel map'' (match v with Some v => <[k := v]> g | None => delete k g end)) \/
      (r = 0 /\ map' = Some map /\ fst (mm_calloc m (u32 (u32 (blen k) + 1))) = None)
  | Undef u => u = BadFree
  | NoFuel => False
  end.
Proof.
  intros Hwf Hrel. destruct (find_pair_wf map k Hwf) as (b & Hb & Hwb & Hf & Habs).
  simpl. rewrite Hf. simpl. destruct (get_pair b k) as [j|] eqn:Hj.
  - left. split; [done|]. eexists. split; [done|].
    set (q := mk_pair (pairs b !! j ≫= key) v).
    assert (Hq : live_key q = Some k \/ live_key q = None).
    { destruct (get_pair_set b k j (mk_pair None None) Hwb Hj (or_intror eq_refl))
        as (p & Hp & Hk & _). unfold q, live_key in *. rewrite Hp. simpl.
      destruct (key p) as [[a s]|]; [|done]. destruct (value p), v; simplify_eq; auto. }
    destruct (get_pair_set b k j q Hwb Hj Hq) as (p & Hp & Hk & Hwf' & Hget).
    split; [by apply set_bucket_wf|]. eapply set_bucket_rel; try done.
    intros k'. rewrite Hget. destruct (decide (k = k')); [|done].
    unfold q, live_key. rewrite Hp. unfold live_key in Hk. simpl.
    destruct (key p) as [[a s]|]; [|done]. by destruct v.
  - destruct (mm_calloc m (u32 (u32 (blen k) + 1))) as [[nk|] m1]; [|by right].
    destruct (grow_bucket m1 b) as [[q|] m2]; [|done].
    left. split; [done|]. eexists. split; [done|].
    set (p := mk_pair (Some (nk, k)) v).
    assert (Hp : live_key p = Some k \/ live_key p = None) by (unfold p, live_key; destruct v; auto).
    destruct (get_pair_None_app b k p q Hwb Hj Hp) as [Hwf' Hget].
    split; [by apply set_bucket_wf|]. eapply set_bucket_rel; try done.
    intros k'. simpl. rewrite Hget. destruct (decide (k = k')); [|done].
    unfold p, live_key. simpl. by destruct v.
Qed.

Lemma sm_remove_ptrvalue_spec m map g k :
  wf_map map -> sm_rel map g ->
  exists m' map', sm_remove_ptrvalue m (Some map) (Some k) = Ok (m', Some map') /\
    wf_map map' /\ sm_rel map' (delete k g).
Proof.
  intros Hwf Hrel. destruct (find_pair_wf map k Hwf) as (b & Hb & Hwb & Hf & Habs).
  simpl. rewrite Hf. simpl. destruct (get_pair b k) as [j|] eqn:Hj.
  - destruct (get_pair_set b k j (mk_pair None None) Hwb Hj (or_intror eq_refl))
      as (p & Hp & Hk & Hwf' & Hget).
    eexists _, _. split; [done|]. split; [by apply set_bucket_wf|].
    by apply (set_bucket_rel map g k b _ None).
  - eexists _, _. split; [done|]. split; [done|].
    unfold get_pair in Hj. pose proof (get_pair_loop_spec 0 (pairs b) k) as Hs. rewrite Hj in Hs.
    destruct Hs as [Hs _]. intros k'. rewrite lookup_delete. specialize (Hrel k').
    destruct (decide (k = k')) as [<-|]; [congruence|done].
Qed.

Lemma sm_new_spec m cap map m' :
  0 < u32 cap -> sm_new (V:=V) m cap = Ok (Some map, m') -> wf_map map /\ sm_rel map ∅.
Proof.
  intros Hcap. unfold sm_new. destruct (mm_calloc m sizeof_StrMap) as [[p|] m1]; [|done].
  destruct (mm_calloc m1 _) as [[b|] m2]; [|done]. intros [= <- <-].
  assert (u32 cap < 2 ^ 32) by (apply Z.mod_pos_bound; lia).
  split.
  - unfold wf_map. simpl. rewrite length_replicate. split; [lia|]. split; [lia|].
    apply Forall_replicate. split; [constructor|done].
  - intros k. unfold abs_get. simpl. rewrite lookup_empty.
    destruct (replicate _ _ !! _) as [b'|] eqn:E; [|done].
    apply lookup_replicate in E as [E _]. subst. done.
Qed.
End MapFacts.
