(* ===== verification/StrMapProps.v ===== *)
(** * What the string map promises

    The operations of the string map refine the operations of a finite map; the
    hash is the polynomial hash of base 33; owned value buffers are never
    overrun; counting and enumerating see removed pairs too. *)
From S2P Require Import Prelude.
From S2P Require Import SharedMem.
From S2P Require Import StrMap.

(** ** The hash *)

(** The polynomial the loop evaluates, before reduction modulo [2 ^ 64]. *)
Fixpoint hash_poly (h : Z) (str : bytes) : Z :=
  match str with
  | [] => h
  | c :: str' => hash_poly (33 * h + sext8 c) str'
  end.

Lemma u64_mod_step h c : u64 (u64 (u64 (Z.shiftl h 5) + h) + u64 c) = u64 (33 * h + c).
Proof.
  unfold u64, uwrap. rewrite Z.shiftl_mul_pow2 by lia.
  rewrite <- (Zplus_mod (_ + h) c), <- Z.add_assoc, Zplus_mod_idemp_l. f_equal. lia.
Qed.

Lemma hash_poly_mod h h' str :
  u64 h = u64 h' -> u64 (hash_poly h str) = u64 (hash_poly h' str).
Proof.
  revert h h'. induction str as [|c str IH]; intros h h' H; [done|]. simpl. apply IH.
  unfold u64, uwrap in *. rewrite <- (Zplus_mod_idemp_l (33 * h)), <- (Zplus_mod_idemp_l (33 * h')).
  by rewrite <- (Zmult_mod_idemp_r h), H, Zmult_mod_idemp_r.
Qed.

Lemma hash_loop_poly h str : u64 (hash_loop h str) = u64 (hash_poly h str).
Proof.
  revert h. induction str as [|c str IH]; intros h; [done|].
  cbn [hash_loop hash_poly]. rewrite IH. apply hash_poly_mod.
  rewrite u64_mod_step. unfold u64, uwrap. apply Z.mod_mod. lia.
Qed.

Lemma hash_loop_range h str : 0 <= h < 2 ^ 64 -> 0 <= hash_loop h str < 2 ^ 64.
Proof.
  revert h. induction str as [|c str IH]; intros h Hh; [done|]. cbn [hash_loop]. apply IH.
  apply Z.mod_pos_bound. lia.
Qed.

(** ** String values *)
Section Strings.
Context {M : MM}.
Implicit Types (map : StrMap vbuf) (g : gmap bytes vbuf).

(** The C string of a value fits in its block. *)
Definition vb_ok (b : vbuf) : Prop := blen (vb_str b) + 1 <= vb_size b.

Lemma vb_strcpy_Ok b s :
  blen s + 1 <= vb_size b -> vb_strcpy b s = Ok (mk_vbuf (vb_ptr b) (vb_size b) s).
Proof. intros H. unfold vb_strcpy. destruct (Z.leb_spec (blen s + 1) (vb_size b)); [done|lia]. Qed.

Lemma blen_nonneg s : 0 <= blen s.
Proof. unfold blen. lia. Qed.

(** A replaced value fits: the block grows when the new string is longer. *)
Lemma replace_value_spec m old v :
  vb_ok old -> blen v + 1 < 2 ^ 32 ->
  match replace_value m old v with
  | Ok (r, _, nv) => vb_ok nv /\ ((r = 1 /\ vb_str nv = v) \/ (r = 0 /\ nv = old))
  | _ => False
  end.
Proof.
  unfold vb_ok. intros Hold Hv. pose proof (blen_nonneg v). unfold replace_value.
  rewrite (u32_small (blen v)), (u32_small (blen v + 1)) by lia.
  destruct (Z.ltb_spec (blen (vb_str old)) (blen v)).
  - destruct (mm_realloc m (vb_ptr old) (blen v + 1)) as [[q|] m']; [|by auto].
    rewrite vb_strcpy_Ok by (simpl; lia). rewrite obind_Ok. simpl. split; [lia|by left].
  - rewrite vb_strcpy_Ok by lia. rewrite obind_Ok. simpl. split; [lia|by left].
Qed.

Definition vals_ok g : Prop := map_Forall (fun _ v => vb_ok v) g.

Lemma sm_put_spec m map g k v :
  wf_map map -> sm_rel map g -> vals_ok g -> blen v + 1 < 2 ^ 32 ->
  match sm_put m (Some map) (Some k) (Some v) with
  | Ok (r, _, map') =>
      (r = 1 /\ exists map'' nv, map' = Some map'' /\ wf_map map'' /\ vb_str nv = v /\
         sm_rel map'' (<[k := nv]> g) /\ vals_ok (<[k := nv]> g)) \/
      (r = 0 /\ exists map'', map' = Some map'' /\ wf_map map'' /\ sm_rel map'' g)
  | Undef u => u = BadFree
  | NoFuel => False
  end.
Proof.
  intros Hwf Hrel Hg Hv. destruct (find_pair_wf map k Hwf) as (b & Hb & Hwb & Hf & Habs).
  pose proof (blen_nonneg v). unfold sm_put. rewrite Hf, obind_Ok.
  destruct (get_pair b k) as [j|] eqn:Hj.
  - destruct (get_pair_set b k j (mk_pair None None) Hwb Hj (or_intror eq_refl)) as (p & Hp & Hk & _).
    simpl mbind. cbn [option_bind]. rewrite Hp. destruct p as [pk pv].
    destruct (live_key_value _ _ Hk) as [old Hold]. simpl in Hold. subst pv.
    assert (Hgk : g !! k = Some old).
    { rewrite <- Hrel, Habs. pose proof (get_pair_loop_spec 0 (pairs b) k) as Hs.
      unfold get_pair in Hj. rewrite Hj in Hs. destruct Hs as (j' & p & -> & Hp' & _ & ->).
      simpl in Hp. rewrite Hp in Hp'. by injection Hp' as <-. }
    pose proof (replace_value_spec m old v (Hg _ _ Hgk) Hv) as Hr.
    destruct (replace_value m old v) as [[[r m'] nv]|u|]; try done. rewrite obind_Ok.
    destruct Hr as [Hnv Hr].
    assert (Hq : live_key (mk_pair pk (Some nv)) = Some k \/ live_key (mk_pair pk (Some nv)) = None)
      by (unfold live_key in *; simpl in *; destruct pk as [[a s]|]; auto).
    destruct (get_pair_set b k j (mk_pair pk (Some nv)) Hwb Hj Hq) as (p & Hp2 & _ & Hwf' & Hget).
    assert (Hrel' : sm_rel (set_bucket map (idx map k) (set_pair b j (mk_pair pk (Some nv)))) (<[k := nv]> g)).
    { apply (set_bucket_rel map g k b _ (Some nv)); try done. intros k'. rewrite Hget.
      destruct (decide (k = k')); [|done]. unfold live_key in *. simpl in *. by destruct pk as [[a s]|]. }
    destruct Hr as [[-> Hs]|[-> ->]]; [left|right]; (split; [done|]).
    + eexists _, nv. split; [done|]. split; [by apply set_bucket_wf|]. split; [done|]. split; [done|].
      by apply map_Forall_insert_2.
    + eexists. split; [done|]. split; [by apply set_bucket_wf|]. by rewrite insert_id in Hrel'.
  - simpl mbind. cbn [option_bind].
    destruct (mm_calloc m _) as [[nk|] m1]; [|right; eauto].
    destruct (mm_calloc m1 _) as [[nv|] m2]; [|done].
    destruct (grow_bucket m2 b) as [[q|] m3]; [|done].
    rewrite (u32_small (blen v)), (u32_small (blen v + 1)) by lia.
    rewrite vb_strcpy_Ok by (simpl; lia). rewrite obind_Ok. left. split; [done|].
    set (val := mk_vbuf nv (blen v + 1) v). eexists _, val. split; [done|].
    destruct (get_pair_None_app b k (mk_pair (Some (nk, k)) (Some val)) q Hwb Hj (or_introl eq_refl)) as [Hwf' Hget].
    split; [by apply set_bucket_wf|]. split; [done|].
    split; [|apply map_Forall_insert_2; [unfold vb_ok; simpl; lia|done]].
    apply (set_bucket_rel map g k b _ (Some val)); try done.
Qed.
End Strings.

(** ** Histories

    A table and the finite map it represents, driven by the same operations. *)
Inductive sm_op (V : Type) : Type :=
| OpPut (k : bytes) (v : V)
| OpRemove (k : bytes)
| OpGet (k : bytes).
Arguments OpPut {V} _ _.
Arguments OpRemove {V} _.
Arguments OpGet {V} _.

Section History.
Context {M : MM} {V : Type}.
Implicit Types (map : StrMap V) (g : gmap bytes V) (op : sm_op V).

(** The answer of an operation: a status for a put, a value for a lookup. *)
Abbreviation answer := (Z + option V)%type.

Definition sm_step (op : sm_op V) (m : mm) (map : option (StrMap V))
  : out (list answer * mm * option (StrMap V)) :=
  match op with
  | OpPut k v => let! (r, m, map) := sm_put_ptrvalue m map (Some k) (Some v) in Ok ([inl r], m, map)
  | OpRemove k => let! (m, map) := sm_remove_ptrvalue m map (Some k) in Ok ([], m, map)
  | OpGet k => let! v := sm_get_ptrvalue map (Some k) in Ok ([inr v], m, map)
  end.

Fixpoint sm_run (ops : list (sm_op V)) (m : mm) (map : option (StrMap V)) : out (list answer) :=
  match ops with
  | [] => Ok []
  | op :: ops' =>
      let! (a, m, map) := sm_step op m map in
      let! r := sm_run ops' m map in
      Ok (a ++ r)
  end.

Definition g_step (op : sm_op V) g : list answer * gmap bytes V :=
  match op with
  | OpPut k v => ([inl 1], <[k := v]> g)
  | OpRemove k => ([], delete k g)
  | OpGet k => ([inr (g !! k)], g)
  end.

Fixpoint g_run (ops : list (sm_op V)) g : list answer :=
  match ops with
  | [] => []
  | op :: ops' => fst (g_step op g) ++ g_run ops' (snd (g_step op g))
  end.

(** No bucket has more than [n] pairs. *)
Definition buckets_le map (n : nat) : Prop :=
  Forall (fun b => (length (pairs b) <= n)%nat) (buckets map).

Lemma sm_put_fresh m map k v b n limit :
  wf_map map -> buckets map !! idx map k = Some b -> get_pair b k = None ->
  plenty (S (S n)) limit m -> blen k + 1 <= limit ->
  sizeof_Pair * (Z.of_nat (length (pairs b)) + 1) <= limit -> limit < 2 ^ 32 ->
  exists nk m1 q m2,
    mm_calloc m (blen k + 1) = (Some nk, m1) /\ grow_bucket m1 b = (Some q, m2) /\ plenty n limit m2 /\
    sm_put_ptrvalue m (Some map) (Some k) v =
      Ok (1, m2, Some (set_bucket map (idx map k) (mk_bucket (Some q) (pairs b ++ [mk_pair (Some (nk, k)) v])))).
Proof.
  intros Hwf Hb Hj (Hc & _) Hk Hp Hlim. unfold sizeof_Pair in *. assert (0 <= blen k) by (unfold blen; lia).
  destruct (find_pair_wf map k Hwf) as (b' & Hb' & _ & Hf & _). rewrite Hb in Hb'. injection Hb' as <-.
  destruct (Hc (blen k + 1) ltac:(lia)) as (nk & m1 & E1 & (Hc1 & Hr1 & _)).
  assert (Hg : exists q m2, grow_bucket m1 b = (Some q, m2) /\ plenty n limit m2).
  { unfold grow_bucket, sizeof_Pair. destruct (pairs_ptr b) as [p|], (length (pairs b)) as [|len] eqn:El;
      try (apply Hc1; lia).
    rewrite u32_small by lia. unfold u64. rewrite uwrap_small by lia. apply Hr1. lia. }
  destruct Hg as (q & m2 & E2 & Hm2). exists nk, m1, q, m2. do 3 (split; [done|]).
  unfold sm_put_ptrvalue. rewrite Hf, obind_Ok, Hj.
  rewrite (u32_small (blen k)), (u32_small (blen k + 1)), E1 by lia. by rewrite E2.
Qed.

(** One operation: same answer, related results. *)
Lemma sm_step_spec op m map g len n limit :
  wf_map map -> sm_rel map g -> buckets_le map len -> plenty (S (S n)) limit m ->
  (forall k v, op = OpPut k v -> blen k + 1 <= limit) ->
  sizeof_Pair * (Z.of_nat len + 1) <= limit -> limit < 2 ^ 32 ->
  exists m' map', sm_step op m (Some map) = Ok (fst (g_step op g), m', Some map') /\
    wf_map map' /\ sm_rel map' (snd (g_step op g)) /\ buckets_le map' (S len) /\ plenty n limit m'.
Proof.
  intros Hwf Hrel Hle Hm Hkey Hlen Hlim.
  assert (Hle' : buckets_le map (S len)) by (eapply Forall_impl; [exact Hle|]; simpl; lia).
  assert (Hm' : plenty n limit m) by (eapply plenty_le; [|exact Hm]; lia).
  assert (Hset : forall i j b q, buckets map !! i = Some b -> buckets_le (set_bucket map i (set_pair b j q)) (S len)).
  { intros i j b q Hi. apply Forall_insert; [done|]. simpl. rewrite length_insert.
    unfold buckets_le in Hle'. rewrite Forall_lookup in Hle'. by eapply Hle'. }
  destruct op as [k v|k|k].
  - destruct (find_pair_wf map k Hwf) as (b & Hb & Hwb & Hf & _).
    pose proof (sm_put_ptrvalue_spec m map g k (Some v) Hwf Hrel) as Hspec. unfold sm_step.
    destruct (get_pair b k) as [j|] eqn:Hj.
    + assert (E : exists q, sm_put_ptrvalue m (Some map) (Some k) (Some v) =
                Ok (1, m, Some (set_bucket map (idx map k) (set_pair b j q))))
        by (eexists; unfold sm_put_ptrvalue; rewrite Hf, obind_Ok; done).
      destruct E as [q E]. rewrite E in Hspec |- *.
      destruct Hspec as [(_ & map' & [= <-] & Hwf' & Hrel')|[? _]]; [|done].
      eexists _, _. split; [done|]. auto.
    + pose proof Hle as Hlen'. unfold buckets_le in Hlen'. rewrite Forall_lookup in Hlen'.
      specialize (Hlen' _ _ Hb). simpl in Hlen'. unfold sizeof_Pair in *.
      destruct (sm_put_fresh m map k (Some v) b n limit Hwf Hb Hj Hm ltac:(by eapply Hkey)
        ltac:(unfold sizeof_Pair; lia) Hlim) as (nk & m1 & q & m2 & _ & _ & Hm2 & E).
      rewrite E in Hspec |- *. destruct Hspec as [(_ & map' & [= <-] & Hwf' & Hrel')|[? _]]; [|done].
      eexists _, _. split; [done|]. split; [done|]. split; [done|]. split; [|done].
      apply Forall_insert; [done|]. simpl. rewrite length_app. simpl. lia.
  - destruct (sm_remove_ptrvalue_spec m map g k Hwf Hrel) as (m' & map' & E & Hwf' & Hrel').
    unfold sm_step. rewrite E. eexists _, _. split; [done|]. split; [done|]. split; [done|].
    destruct (find_pair_wf map k Hwf) as (b & Hb & _ & Hf & _). revert E.
    unfold sm_remove_ptrvalue. rewrite Hf, obind_Ok. destruct (get_pair b k); intros [= <- <-]; [|done].
    split; [by apply Hset|]. destruct Hm as (_ & _ & Hfree). eapply plenty_le; [|apply Hfree]. lia.
  - unfold sm_step. rewrite sm_get_ptrvalue_abs by done. rewrite Hrel. eexists _, _. split; [done|]. auto.
Qed.

Definition keys_le (limit : Z) (ops : list (sm_op V)) : Prop :=
  Forall (fun op => match op with OpPut k _ => blen k + 1 <= limit | _ => True end) ops.

Lemma sm_run_spec ops m map g len limit :
  wf_map map -> sm_rel map g -> buckets_le map len -> plenty (2 * length ops) limit m ->
  keys_le limit ops -> sizeof_Pair * (Z.of_nat (len + length ops)) <= limit -> limit < 2 ^ 32 ->
  sm_run ops m (Some map) = Ok (g_run ops g).
Proof.
  intros Hwf Hrel Hle Hm Hk Hlen Hlim. unfold sizeof_Pair in *.
  revert m map g len Hwf Hrel Hle Hm Hlen. induction Hk as [|op ops Hop Hk IH]; intros m map g len Hwf Hrel Hle Hm Hlen; [done|].
  simpl length in *.
  destruct (sm_step_spec op m map g len (2 * length ops) limit) as (m' & map' & E & Hwf' & Hrel' & Hle' & Hm');
    try done; [|by intros k v ->|unfold sizeof_Pair; lia|].
  { eapply plenty_le; [|exact Hm]. lia. }
  cbn [sm_run]. rewrite E, obind_Ok, (IH m' map' (snd (g_step op g)) (S len)) by (try done; lia). done.
Qed.
End History.

(** ** Lookups of string values, and counting *)
Section Lookups.
Context {M : MM}.

Lemma sm_get_spec (map : StrMap vbuf) g k out_null n :
  wf_map map -> sm_rel map g ->
  sm_get (Some map) (Some k) out_null n =
    Ok (match g !! k with
        | None => (0, None)
        | Some v =>
            if out_null then (if n =? 0 then i32 (blen (vb_str v) + 1) else 0, None)
            else if n <=? blen (vb_str v) then (0, None) else (1, Some (vb_str v))
        end).
Proof.
  intros Hwf Hrel. destruct (find_pair_wf map k Hwf) as (b & _ & _ & Hf & Habs).
  unfold sm_get. rewrite Hf, obind_Ok, <- Hrel, Habs. unfold get_pair.
  pose proof (get_pair_loop_spec 0 (pairs b) k) as Hs.
  destruct (get_pair_loop 0 (pairs b) k) as [j|]; [|destruct Hs as [-> _]; done].
  destruct Hs as (j' & p & -> & Hp & Hk & ->). simpl. rewrite Hp. simpl.
  destruct (live_key_value _ _ Hk) as [v ->]. destruct out_null; simpl; [by destruct (n =? 0)|].
  by destruct (n <=? blen (vb_str v)).
Qed.

Lemma count_pairs_add {V} c (ps : list (Pair V)) : count_pairs c ps = u32 (c + Z.of_nat (length ps)) \/ ps = [].
Proof.
  revert c. induction ps as [|p ps IH]; intros c; [by right|]. left. cbn [count_pairs length].
  destruct (IH (u32 (c + 1))) as [->| ->]; [|simpl; f_equal; lia].
  unfold u32, uwrap. rewrite Zplus_mod_idemp_l. f_equal. lia.
Qed.

Lemma count_pairs_length {V} c (ps qs : list (Pair V)) :
  length ps = length qs -> count_pairs c ps = count_pairs c qs.
Proof.
  revert c qs. induction ps as [|p ps IH]; intros c [|q qs]; try done. simpl. intros [= H]. by apply IH.
Qed.

Lemma count_buckets_set {V} c (bl : list (Bucket V)) i b b' :
  bl !! i = Some b -> length (pairs b') = length (pairs b) ->
  count_buckets c (<[i := b']> bl) = count_buckets c bl.
Proof.
  revert c i. induction bl as [|b0 bl IH]; intros c [|i] Hi Hl; simpl in *; simplify_eq.
  - by rewrite (count_pairs_length c (pairs b') (pairs b)).
  - by apply IH.
Qed.
End Lookups.

(** ** The promises *)
Section Promises.
Context {M : MM}.

(** C11: A new string map answers every history of insertions, removals and
    lookups exactly as a finite map does, as long as the pool serves its
    allocations: no lookup misses a stored key, finds a removed one, reads a
    bucket out of range or returns the value of another key. *)
Theorem string_map_history {V} (ops : list (sm_op V)) m capacity limit :
  0 < capacity < 2 ^ 32 -> sizeof_StrMap <= limit -> sizeof_Bucket * capacity <= limit ->
  keys_le limit ops -> sizeof_Pair * Z.of_nat (length ops) <= limit -> limit < 2 ^ 32 ->
  plenty (S (S (2 * length ops))) limit m ->
  exists map m', sm_new m capacity = Ok (Some map, m') /\
    sm_run ops m' (Some map) = Ok (g_run ops ∅).
Proof.
  unfold sizeof_StrMap, sizeof_Bucket. intros Hcap Hl1 Hl2 Hk Hp Hlim (Hc & _).
  assert (Hnew : exists map m', sm_new (V := V) m capacity = Ok (Some map, m') /\ plenty (2 * length ops) limit m').
  { unfold sm_new, sizeof_StrMap, sizeof_Bucket.
    destruct (Hc 24 ltac:(lia)) as (p & m1 & -> & (Hc1 & _)).
    rewrite u32_small by lia. unfold u64. rewrite uwrap_small by lia.
    destruct (Hc1 (capacity * 16) ltac:(lia)) as (q & m2 & -> & Hm2). eauto. }
  destruct Hnew as (map & m' & E & Hm'). exists map, m'. split; [done|].
  assert (Hu : 0 < u32 capacity) by (rewrite u32_small; lia).
  destruct (sm_new_spec _ _ _ _ Hu E) as [Hwf Hrel].
  apply (sm_run_spec ops m' map ∅ 0 limit); try done.
  revert E. unfold sm_new. destruct (mm_calloc m _) as [[p|] m1]; [|done].
  destruct (mm_calloc m1 _) as [[q|] m2]; [|done]. intros [= <- _].
  apply Forall_replicate. simpl. lia.
Qed.

(** The hash of a key is the base-33 polynomial of its signed characters
    started from 5381, reduced modulo [2 ^ 64]: the shifts and the wrapping of
    the intermediate additions compute nothing else. *)
Theorem hash_closed_form str : hash str = u64 (hash_poly 5381 str).
Proof.
  unfold hash. rewrite <- hash_loop_poly. symmetry. apply uwrap_small, hash_loop_range. lia.
Qed.

(** Storing a string value never overruns the block of a value: a put either
    stores the string, which a lookup then copies out whole when the caller's
    buffer has room for it and its NUL and measures when given no buffer, or
    fails and leaves every association as it was; the only other outcome is the
    free() of pool memory after a failed allocation. *)
Theorem string_put_get m (map : StrMap vbuf) g k v :
  wf_map map -> sm_rel map g -> vals_ok g -> blen v + 1 <= INT_MAX ->
  match sm_put m (Some map) (Some k) (Some v) with
  | Ok (r, _, map') =>
      (r = 1 /\ (forall n, sm_get map' (Some k) false n =
                   Ok (if n <=? blen v then (0, None) else (1, Some v))) /\
                sm_get map' (Some k) true 0 = Ok (blen v + 1, None) /\
                (forall k' o n, k' <> k -> sm_get map' (Some k') o n = sm_get (Some map) (Some k') o n)) \/
      (r = 0 /\ forall k' o n, sm_get map' (Some k') o n = sm_get (Some map) (Some k') o n)
  | Undef u => u = BadFree
  | NoFuel => False
  end.
Proof.
  intros Hwf Hrel Hg Hv. unfold INT_MAX in Hv.
  pose proof (sm_put_spec m map g k v Hwf Hrel Hg ltac:(lia)) as H.
  destruct (sm_put m (Some map) (Some k) (Some v)) as [[[r m'] map']|u|]; try done.
  destruct H as [(-> & map'' & nv & -> & Hwf' & Hs & Hrel' & _)|(-> & map'' & -> & Hwf' & Hrel')].
  - left. split; [done|]. split; [|split].
    + intros n. rewrite (sm_get_spec _ _ _ _ _ Hwf' Hrel'), lookup_insert_eq, Hs. done.
    + rewrite (sm_get_spec _ _ _ _ _ Hwf' Hrel'), lookup_insert_eq, Hs. simpl.
      rewrite i32_small; [done|]. unfold INT_MIN, INT_MAX. pose proof (blen_nonneg v). lia.
    + intros k' o n Hne. by rewrite (sm_get_spec _ _ _ _ _ Hwf' Hrel'), (sm_get_spec _ _ _ _ _ Hwf Hrel), lookup_insert_ne.
  - right. split; [done|]. intros k' o n.
    by rewrite (sm_get_spec _ _ _ _ _ Hwf' Hrel'), (sm_get_spec _ _ _ _ _ Hwf Hrel).
Qed.

(** Removing a key, present or not, leaves the count of the map as it was:
    [sm_get_count] counts the slots of removed pairs as associations. *)
Theorem remove_keeps_count {V} m (map : option (StrMap V)) key m' map' :
  sm_remove_ptrvalue m map key = Ok (m', map') -> sm_get_count map' = sm_get_count map.
Proof.
  destruct map as [map|], key as [k|]; simpl; [|by intros [= _ <-]..].
  intros ([[i b] j] & Hf & H)%obind_Ok_inv. destruct j as [j|]; [|by injection H as _ <-].
  injection H as _ <-. simpl. f_equal. revert Hf. unfold find_pair.
  intros (i' & _ & (b' & Hb & [= -> -> _])%obind_Ok_inv)%obind_Ok_inv. revert Hb. unfold bucket_at.
  destruct (buckets map !! i) as [b'|] eqn:E; [|done]. intros [= ->].
  apply (count_buckets_set _ _ _ b); [done|]. simpl. by rewrite length_insert.
Qed.
End Promises.

(** ** Witnesses *)
Definition demo_ops : list (sm_op addr) :=
  [OpPut (bs "a") 1%positive; OpPut (bs "b") 2%positive; OpRemove (bs "a"); OpGet (bs "a"); OpGet (bs "b")].

Lemma string_map_history_witness :
  exists map m', sm_new (M := bump_mm) (bump_start 20) 3 = Ok (Some map, m') /\
    sm_run demo_ops m' (Some map) = Ok [inl 1; inl 1; inr None; inr (Some 2%positive)].
Proof.
  apply (string_map_history (M := bump_mm) demo_ops (bump_start 20) 3 100);
    first [apply bump_plenty; vm_compute; lia | done | repeat constructor; done].
Defined.

(** A table with one bucket, two live pairs and the key ["k"] stored in a block of 3 bytes. *)
Definition demo_val : vbuf := mk_vbuf 9 3 (bs "xy").
Definition demo_strings : StrMap vbuf :=
  mk_map 1 2 [mk_bucket (Some 3%positive) [mk_pair (Some (4%positive, bs "k")) (Some demo_val)]].

Lemma demo_strings_wf : wf_map demo_strings /\ sm_rel demo_strings {[bs "k" := demo_val]}.
Proof.
  split.
  - split; [simpl; lia|]. split; [done|]. repeat constructor; [|done]. simpl. set_solver.
  - intros k. unfold abs_get, idx. simpl length. rewrite Z.mod_1_r. simpl. unfold pair_matches. simpl.
    case_bool_decide as E; [subst; by rewrite lookup_singleton_eq|by rewrite lookup_singleton_ne].
Qed.

Lemma string_put_get_witness :
  match sm_put (M := bump_mm) (bump_start 20) (Some demo_strings) (Some (bs "k")) (Some (bs "longer")) with
  | Ok (r, _, map') =>
      (r = 1 /\ (forall n, sm_get map' (Some (bs "k")) false n =
                   Ok (if n <=? 6 then (0, None) else (1, Some (bs "longer")))) /\
                sm_get map' (Some (bs "k")) true 0 = Ok (7, None) /\
                (forall k' o n, k' <> bs "k" ->
                   sm_get map' (Some k') o n = sm_get (Some demo_strings) (Some k') o n)) \/
      (r = 0 /\ forall k' o n, sm_get map' (Some k') o n = sm_get (Some demo_strings) (Some k') o n)
  | Undef u => u = BadFree
  | NoFuel => False
  end.
Proof.
  apply (string_put_get (M := bump_mm) (bump_start 20) demo_strings {[bs "k" := demo_val]} (bs "k") (bs "longer"));
    [apply demo_strings_wf|apply demo_strings_wf| |done].
  apply map_Forall_singleton. done.
Defined.

Lemma remove_keeps_count_witness :
  match sm_remove_ptrvalue (M := bump_mm) (bump_start 0) (Some demo_strings) (Some (bs "k")) with
  | Ok (_, map') => sm_exists map' (Some (bs "k")) = Ok 0 /\ sm_get_count map' = 1
  | _ => False
  end.
Proof.
  destruct (sm_remove_ptrvalue (M := bump_mm) (bump_start 0) (Some demo_strings) (Some (bs "k")))
    as [[m' map']|u|] eqn:E; [|vm_compute in E; discriminate..].
  split; [vm_compute in E; injection E as _ <-; reflexivity|].
  exact (remove_keeps_count (M := bump_mm) _ _ _ _ _ E).
Defined.
