(* ===== verification/QuadTree.v ===== *)
(** * The map tree: the node operations of src/ngx_http_lookaround_handler.c

    The tree of map nodes and the lists of data nodes hanging from its leaves
    live in shared memory, are linked by pointers and updated in place; the
    model keeps that store: [maps] and [datas] hold the nodes by address.  Every
    access goes through [ld_*]/[upd_*], which fail on NULL and on addresses that
    hold no node.  The recursions of the source and its walk along the list of a
    leaf take fuel; [NoFuel] means the C code is still running. *)
From S2P Require Import Prelude.
From S2P Require Import SharedMem.
From S2P Require Import Geo.

(** ** Data (ngx_http_lookaround_map.h) *)

Record nla_data_node := mk_dnode {
  data : nla_data_item;
  prev : ptr;
  next : ptr;
  p_map_node : ptr
}.

Record nla_map_node := mk_mnode {
  rc : nla_rect;
  ap_childs : list ptr;
  p_parent : ptr;
  i_level : Z;
  p_data_node : ptr;
  i_item_count : Z
}.

#[export] Instance nla_data_node_eq_dec : EqDecision nla_data_node.
Proof. solve_decision. Defined.
#[export] Instance nla_map_node_eq_dec : EqDecision nla_map_node.
Proof. solve_decision. Defined.

(** Blocks as [mm_calloc] returns them. *)
Definition zero_loc : nla_2dloc := mk_loc 0 0.
Definition zero_mnode : nla_map_node :=
  mk_mnode (mk_rect zero_loc zero_loc) [None; None; None; None] None 0 None 0.
Definition zero_dnode : nla_data_node := mk_dnode (mk_item [] 0 0 zero_loc 0) None None None.

(** Assignments to one member. *)
Definition set_rc (r : nla_rect) (n : nla_map_node) : nla_map_node :=
  mk_mnode r (ap_childs n) (p_parent n) (i_level n) (p_data_node n) (i_item_count n).
Definition set_child (i : nat) (p : ptr) (n : nla_map_node) : nla_map_node :=
  mk_mnode (rc n) (<[i := p]> (ap_childs n)) (p_parent n) (i_level n) (p_data_node n) (i_item_count n).
Definition set_parent (p : ptr) (n : nla_map_node) : nla_map_node :=
  mk_mnode (rc n) (ap_childs n) p (i_level n) (p_data_node n) (i_item_count n).
Definition set_level (l : Z) (n : nla_map_node) : nla_map_node :=
  mk_mnode (rc n) (ap_childs n) (p_parent n) l (p_data_node n) (i_item_count n).
Definition set_head (p : ptr) (n : nla_map_node) : nla_map_node :=
  mk_mnode (rc n) (ap_childs n) (p_parent n) (i_level n) p (i_item_count n).
Definition set_count (c : Z) (n : nla_map_node) : nla_map_node :=
  mk_mnode (rc n) (ap_childs n) (p_parent n) (i_level n) (p_data_node n) c.

Definition set_data (i : nla_data_item) (d : nla_data_node) : nla_data_node :=
  mk_dnode i (prev d) (next d) (p_map_node d).
Definition set_prev (p : ptr) (d : nla_data_node) : nla_data_node :=
  mk_dnode (data d) p (next d) (p_map_node d).
Definition set_next (p : ptr) (d : nla_data_node) : nla_data_node :=
  mk_dnode (data d) (prev d) p (p_map_node d).
Definition set_map_node (p : ptr) (d : nla_data_node) : nla_data_node :=
  mk_dnode (data d) (prev d) (next d) p.

Section Tree.
Context {M : MM}.

Record heap := mk_heap {
  h_mm : mm;
  maps : gmap addr nla_map_node;
  datas : gmap addr nla_data_node
}.

Definition ld_map (h : heap) (p : ptr) : out nla_map_node :=
  match p with
  | None => Undef NullDeref
  | Some a => match maps h !! a with Some n => Ok n | None => Undef BadPointer end
  end.

Definition ld_data (h : heap) (p : ptr) : out nla_data_node :=
  match p with
  | None => Undef NullDeref
  | Some a => match datas h !! a with Some n => Ok n | None => Undef BadPointer end
  end.

(** [p->member = ...] *)
Definition upd_map (p : ptr) (f : nla_map_node -> nla_map_node) (h : heap) : out heap :=
  let! n := ld_map h p in
  match p with
  | None => Undef NullDeref
  | Some a => Ok (mk_heap (h_mm h) (<[a := f n]> (maps h)) (datas h))
  end.

Definition upd_data (p : ptr) (f : nla_data_node -> nla_data_node) (h : heap) : out heap :=
  let! n := ld_data h p in
  match p with
  | None => Undef NullDeref
  | Some a => Ok (mk_heap (h_mm h) (maps h) (<[a := f n]> (datas h)))
  end.

Definition alloc_map (h : heap) : ptr * heap :=
  match mm_calloc (h_mm h) sizeof_map_node with
  | (Some a, m) => (Some a, mk_heap m (<[a := zero_mnode]> (maps h)) (datas h))
  | (None, m) => (None, mk_heap m (maps h) (datas h))
  end.

Definition alloc_data (h : heap) : ptr * heap :=
  match mm_calloc (h_mm h) sizeof_data_node with
  | (Some a, m) => (Some a, mk_heap m (maps h) (<[a := zero_dnode]> (datas h)))
  | (None, m) => (None, mk_heap m (maps h) (datas h))
  end.

(** ** Creating the children of a node *)

(** The [switch] of [create_child_mapnode]: the rectangle of child [i]. *)
Definition child_rc (r : nla_rect) (i : nat) : nla_rect :=
  let center_loc := fn_loc_GetRCCenter r in
  match i with
  | 0%nat => mk_rect (lt r) center_loc
  | 1%nat => mk_rect (mk_loc (lat (lt r)) (lon center_loc)) (mk_loc (lat center_loc) (lon (rb r)))
  | 2%nat => mk_rect (mk_loc (lat center_loc) (lon (lt r))) (mk_loc (lat (rb r)) (lon center_loc))
  | _ => mk_rect center_loc (rb r)
  end.

(** One round of the loop: allocate the child, then fill it in through
    [pMapNode->ap_childs[i]]. *)
Definition create_child (pMapNode : ptr) (i : nat) (h : heap) : out heap :=
  let '(c, h) := alloc_map h in
  let! h := upd_map pMapNode (set_child i c) h in
  let! n := ld_map h pMapNode in
  let! h := upd_map c (set_level (i32 (i_level n + 1))) h in
  let! h := upd_map c (set_parent pMapNode) h in
  upd_map c (set_rc (child_rc (rc n) i)) h.

Definition create_child_mapnode (pMapNode : ptr) (h : heap) : out heap :=
  let! n := ld_map h pMapNode in
  match ap_childs n !! 0%nat with
  | Some (Some _) => Ok h
  | _ =>
      let! h := create_child pMapNode 0 h in
      let! h := create_child pMapNode 1 h in
      let! h := create_child pMapNode 2 h in
      create_child pMapNode 3 h
  end.

(** [pMapNode->ap_childs[i]] *)
Definition child (n : nla_map_node) (i : Z) : out ptr :=
  match ap_childs n !! Z.to_nat i with Some p => Ok p | None => Undef OutOfBounds end.

(** ** Adding a data node *)
Section WithConf.
Variable nMapMaxLevel : Z.

(** The leaf case: push in front of the list of the node. *)
Definition push_data (pMapNode pDataNode : ptr) (h : heap) : out heap :=
  let! n := ld_map h pMapNode in
  let! h := upd_data pDataNode (set_next (p_data_node n)) h in
  let! h := upd_data pDataNode (set_prev None) h in
  let! h := upd_data pDataNode (set_map_node pMapNode) h in
  let! h := (match p_data_node n with
             | None => Ok h
             | Some _ => upd_data (p_data_node n) (set_prev pDataNode) h
             end) in
  upd_map pMapNode (set_head pDataNode) h.

Fixpoint adddatanode (fuel : nat) (pMapNode pDataNode : ptr) (h : heap) : out heap :=
  match fuel with
  | O => NoFuel
  | S f =>
      let! n := ld_map h pMapNode in
      let! h := upd_map pMapNode (set_count (u32 (i_item_count n + 1))) h in
      if nMapMaxLevel <=? i_level n then push_data pMapNode pDataNode h
      else
        let! h := (match ap_childs n !! 0%nat with
                   | Some (Some _) => Ok h
                   | _ => create_child_mapnode pMapNode h
                   end) in
        let! n := ld_map h pMapNode in
        let! d := ld_data h pDataNode in
        let iChildIdx := fn_i_GetChildRcIdx (rc n) (loc (data d)) in
        if (iChildIdx <? 0) || (NLA_MAP_CHILD_COUNT <=? iChildIdx) then Ok h
        else
          let! pChildNode := child n iChildIdx in
          adddatanode f pChildNode pDataNode h
  end.

(** ** Removing a data node

    The first test of the source reads [pMapNode == NULL || pDataNode]: the
    function returns whenever [pDataNode] is not NULL. *)
Definition unlink_data (pMapNode pDataNode : ptr) (h : heap) : out heap :=
  let! d := ld_data h pDataNode in
  let! h := (match prev d with None => Ok h | Some _ => upd_data (prev d) (set_next (next d)) h end) in
  let! d := ld_data h pDataNode in
  let! h := (match next d with None => Ok h | Some _ => upd_data (next d) (set_prev (prev d)) h end) in
  let! n := ld_map h pMapNode in
  let! d := ld_data h pDataNode in
  let! h := (if decide (pDataNode = p_data_node n) then
               let! h := upd_map pMapNode (set_head (next d)) h in
               match next d with None => Ok h | Some _ => upd_data (next d) (set_prev None) h end
             else Ok h) in
  let! h := upd_data pDataNode (set_prev None) h in
  upd_data pDataNode (set_next None) h.

Fixpoint remove_datanode_from_map (fuel : nat) (pMapNode pDataNode : ptr) (h : heap) : out heap :=
  match fuel with
  | O => NoFuel
  | S f =>
      if bool_decide (pMapNode = None) || bool_decide (is_Some pDataNode) then Ok h
      else
        let! n := ld_map h pMapNode in
        if i_item_count n <=? 0 then Ok h
        else
          let! h := upd_map pMapNode (set_count (u32 (i_item_count n - 1))) h in
          if nMapMaxLevel <=? i_level n then unlink_data pMapNode pDataNode h
          else
            let! d := ld_data h pDataNode in
            let iChildIdx := fn_i_GetChildRcIdx (rc n) (loc (data d)) in
            if (iChildIdx <? 0) || (NLA_MAP_CHILD_COUNT <=? iChildIdx) then Ok h
            else
              let! pChildNode := child n iChildIdx in
              remove_datanode_from_map f pChildNode pDataNode h
  end.

(** ** Searching

    [nla_ex_param]: the counter and the output buffer; [ex_json] is what was
    written before [p_sz_json], [ex_size] the size of the block. *)
Record nla_ex_param := mk_ex { ex_count : Z; ex_json : bytes; ex_size : Z }.

(** [*p_sz_json = c] with [p_sz_json] behind [json]. *)
Definition poke (size : Z) (json : bytes) : out unit :=
  if blen json <? size then Ok tt else Undef OutOfBounds.

(** The last statements of the loop body: print the item, then a comma. *)
Definition emit (d : nla_data_item) (ex : nla_ex_param) : out nla_ex_param :=
  let! t := fn_v_FormatDataItem d (ex_size ex - blen (ex_json ex)) in
  let json := ex_json ex ++ t in
  let! _ := poke (ex_size ex) json in
  let json := json ++ bs "," in
  let! _ := poke (ex_size ex) json in
  Ok (mk_ex (ex_count ex + 1) json (ex_size ex)).

Definition NLA_INVALID_TYPE : Z := -1.
Definition NLA_INVALID_STATUS : Z := -1.

(** The three [continue] tests, negated. *)
Definition selected (pRC : nla_rect) (iStatus iType : Z) (d : nla_data_item) : bool :=
  ((iType =? NLA_INVALID_TYPE) || (iType =? i_type d)) &&
  ((iStatus =? NLA_INVALID_STATUS) || (iStatus =? i_status d)) &&
  fn_b_IsLocInRC pRC (loc d).

Section Query.
Variables (iStatus iType iMaxCount : Z).

(** The [for] loop over the list of a leaf. *)
Fixpoint walk (fuel : nat) (h : heap) (pRC : nla_rect) (p : ptr) (ex : nla_ex_param) : out nla_ex_param :=
  match fuel with
  | O => NoFuel
  | S f =>
      if (ex_count ex <? iMaxCount) && bool_decide (is_Some p) then
        let! d := ld_data h p in
        let! ex := (if selected pRC iStatus iType (data d) then emit (data d) ex else Ok ex) in
        walk f h pRC (next d) ex
      else Ok ex
  end.

(** [wf] is the fuel of each walk. *)
Fixpoint get_around_data (fuel wf : nat) (h : heap) (pRC : nla_rect) (p : ptr) (ex : nla_ex_param)
  : out nla_ex_param :=
  match fuel with
  | O => NoFuel
  | S f =>
      match p with
      | None => Ok ex
      | Some _ =>
          let! n := ld_map h p in
          if i_item_count n <=? 0 then Ok ex
          else if nMapMaxLevel <=? i_level n then walk wf h pRC (p_data_node n) ex
          else
            match ap_childs n !! 0%nat with
            | Some (Some _) =>
                let visit (i : nat) (ex : nla_ex_param) : out nla_ex_param :=
                  let! c := child n (Z.of_nat i) in
                  let! cn := ld_map h c in
                  match fn_b_IntersectRc (rc cn) pRC with
                  | Some new_rc => get_around_data f wf h new_rc c ex
                  | None => Ok ex
                  end in
                let! ex := visit 0%nat ex in
                let! ex := visit 1%nat ex in
                let! ex := visit 2%nat ex in
                visit 3%nat ex
            | _ => Ok ex
            end
      end
  end.
End Query.
End WithConf.
End Tree.
