(* ===== verification/QuadTreeSpec.v ===== *)
(** * Correctness of the map tree

    [qt] is the shape of a tree in the store: a leaf with the addresses of its
    data nodes, or an inner node with no children yet or with four.  [rep] says
    that the store holds the tree: every node has the rectangle, level, parent
    and item count that its place in the tree calls for, and every leaf carries
    a doubly linked list of data nodes whose locations lie in its rectangle. *)
From S2P Require Import Prelude.
From S2P Require Import SharedMem.
From S2P Require Import Geo.
From S2P Require Import QuadTree.

(** ** The four quadrants partition a rectangle *)

Lemma child_rc_valid r i : valid_rc r -> valid_rc (child_rc r i).
Proof.
  intros H. pose proof (center_between r H). unfold valid_rc, child_rc in *.
  set (c := fn_loc_GetRCCenter r) in *. clearbody c.
  destruct i as [|[|[|i]]]; simpl; lia.
Qed.

Lemma child_idx_in r l :
  fn_b_IsLocInRC r l = true ->
  exists i, (i < 4)%nat /\ fn_i_GetChildRcIdx r l = Z.of_nat i /\
            fn_b_IsLocInRC (child_rc r i) l = true.
Proof.
  intros H. unfold fn_i_GetChildRcIdx, child_rc. rewrite H. simpl negb. cbn iota zeta.
  apply in_rc_iff in H. set (c := fn_loc_GetRCCenter r) in *. clearbody c.
  destruct (Z.leb_spec (lat c) (lat l)), (Z.leb_spec (lon c) (lon l));
    [exists 3%nat|exists 2%nat|exists 1%nat|exists 0%nat]; rewrite in_rc_iff; simpl;
    (split; [lia|split; [done|lia]]).
Qed.

Lemma child_idx_out r l : fn_b_IsLocInRC r l = false -> fn_i_GetChildRcIdx r l = -1.
Proof. intros H. unfold fn_i_GetChildRcIdx. by rewrite H. Qed.

Lemma child_rc_in r i l :
  valid_rc r -> fn_b_IsLocInRC (child_rc r i) l = true -> fn_b_IsLocInRC r l = true.
Proof.
  intros Hv. pose proof (center_between r Hv). rewrite !in_rc_iff. unfold child_rc.
  set (c := fn_loc_GetRCCenter r) in *. clearbody c.
  destruct i as [|[|[|i]]]; simpl; lia.
Qed.

Lemma child_rc_disjoint r i j l :
  (i < 4)%nat -> (j < 4)%nat -> i <> j ->
  fn_b_IsLocInRC (child_rc r i) l = true -> fn_b_IsLocInRC (child_rc r j) l = false.
Proof.
  intros Hi Hj Hne. rewrite in_rc_iff. intros H. apply not_true_iff_false. rewrite in_rc_iff.
  unfold child_rc in *. set (c := fn_loc_GetRCCenter r) in *. clearbody c.
  destruct i as [|[|[|[|i]]]]; try lia; destruct j as [|[|[|[|j]]]]; try lia; simpl in *; lia.
Qed.

(** ** Trees in the store *)

Inductive qt : Type :=
| QLeaf (a : addr) (ds : list addr)
| QNode (a : addr) (cs : list qt).

Definition root (t : qt) : addr := match t with QLeaf a _ | QNode a _ => a end.

Fixpoint map_addrs (t : qt) : list addr :=
  match t with
  | QLeaf a _ => [a]
  | QNode a cs => a :: concat (map_addrs <$> cs)
  end.

Fixpoint data_addrs (t : qt) : list addr :=
  match t with
  | QLeaf _ ds => ds
  | QNode _ cs => concat (data_addrs <$> cs)
  end.

Definition size (t : qt) : Z := Z.of_nat (length (data_addrs t)).

Definition no_kids : list ptr := [None; None; None; None].
Definition kids (cs : list qt) : list ptr :=
  match cs with [] => no_kids | _ => (fun c => Some (root c)) <$> cs end.

Lemma kids_lookup cs i c : cs !! i = Some c -> kids cs !! i = Some (Some (root c)).
Proof. destruct cs; [done|]. intros H. unfold kids. by rewrite list_lookup_fmap, H. Qed.

Section Rep.
Context {M : MM}.
Variable nMapMaxLevel : Z.

(** A doubly linked list of data nodes, all owned by map node [a] and located
    in [r]. *)
Fixpoint dll (h : heap) (a : addr) (r : nla_rect) (prv : ptr) (ds : list addr) : Prop :=
  match ds with
  | [] => True
  | d :: ds' =>
      (exists i, datas h !! d = Some (mk_dnode i prv (head ds') (Some a)) /\
                 fn_b_IsLocInRC r (loc i) = true) /\
      dll h a r (Some d) ds'
  end.

(** [rep h lvl r par x t]: the tree [t] hangs below [par] at level [lvl] and
    covers [r]; the count of its root exceeds the items below it by [x]. *)
Inductive rep (h : heap) : Z -> nla_rect -> ptr -> Z -> qt -> Prop :=
| rep_leaf lvl r par x a ds :
    nMapMaxLevel <= lvl ->
    maps h !! a = Some (mk_mnode r no_kids par lvl (head ds) (Z.of_nat (length ds) + x)) ->
    dll h a r None ds ->
    rep h lvl r par x (QLeaf a ds)
| rep_node lvl r par x a cs :
    lvl < nMapMaxLevel ->
    maps h !! a = Some (mk_mnode r (kids cs) par lvl None (size (QNode a cs) + x)) ->
    cs = [] \/ length cs = 4%nat ->
    (forall i c, cs !! i = Some c -> rep h (lvl + 1) (child_rc r i) (Some a) 0 c) ->
    rep h lvl r par x (QNode a cs).

(** ** Framing *)

Lemma dll_frame h h' a r prv ds :
  (forall d, d ∈ ds -> datas h' !! d = datas h !! d) -> dll h a r prv ds -> dll h' a r prv ds.
Proof.
  revert prv. induction ds as [|d ds IH]; intros prv Hf; [done|]. simpl. intros [(i & Hd & Hi) Hl].
  split; [exists i; rewrite Hf by apply list_elem_of_here; done|].
  apply IH; [|done]. intros e He. apply Hf. by apply list_elem_of_further.
Qed.

Lemma elem_of_concat_fmap {B} (f : qt -> list B) cs i c x :
  cs !! i = Some c -> x ∈ f c -> x ∈ concat (f <$> cs).
Proof.
  intros Hc Hx. apply list_elem_of_lookup_2 in Hc.
  apply list_elem_of_split in Hc as (l1 & l2 & ->).
  rewrite fmap_app, concat_app. simpl. set_solver.
Qed.

Lemma elem_of_concat_fmap_inv {B} (f : qt -> list B) cs x :
  x ∈ concat (f <$> cs) -> exists i c, cs !! i = Some c /\ x ∈ f c.
Proof.
  induction cs as [|c cs IH]; simpl; [by intros ?%not_elem_of_nil|].
  intros [H|H]%elem_of_app; [by exists 0%nat, c|].
  destruct (IH H) as (i & c' & Hi & Hx). by exists (S i), c'.
Qed.

Lemma rep_frame h h' lvl r par x t :
  (forall a, a ∈ map_addrs t -> maps h' !! a = maps h !! a) ->
  (forall d, d ∈ data_addrs t -> datas h' !! d = datas h !! d) ->
  rep h lvl r par x t -> rep h' lvl r par x t.
Proof.
  intros Hm Hd H. induction H as [lvl r par x a ds Hl Ha Hdl|lvl r par x a cs Hl Ha Hcs Hc IH].
  - apply rep_leaf; [done|rewrite Hm by apply list_elem_of_here; done|].
    eapply dll_frame; [|done]. intros d ?. by apply Hd.
  - apply rep_node; [done|rewrite Hm by apply list_elem_of_here; done|done|].
    intros i c Hi. apply (IH i c Hi).
    + intros b Hb. apply Hm. simpl. apply list_elem_of_further. by eapply elem_of_concat_fmap.
    + intros d ?. apply Hd. simpl. by eapply elem_of_concat_fmap.
Qed.

Lemma rep_root h lvl r par x t :
  rep h lvl r par x t ->
  exists n, maps h !! root t = Some n /\ rc n = r /\ i_level n = lvl /\ p_parent n = par /\
            i_item_count n = size t + x.
Proof. intros []; eexists; (split; [eassumption|]); done. Qed.

Lemma rep_node_inv h lvl r par x a cs :
  rep h lvl r par x (QNode a cs) ->
  maps h !! a = Some (mk_mnode r (kids cs) par lvl None (size (QNode a cs) + x)) /\
  lvl < nMapMaxLevel /\ (cs = [] \/ length cs = 4%nat) /\
  (forall i c, cs !! i = Some c -> rep h (lvl + 1) (child_rc r i) (Some a) 0 c).
Proof. by inversion 1. Qed.

Lemma rep_leaf_inv h lvl r par x a ds :
  rep h lvl r par x (QLeaf a ds) ->
  maps h !! a = Some (mk_mnode r no_kids par lvl (head ds) (Z.of_nat (length ds) + x)) /\
  nMapMaxLevel <= lvl /\ dll h a r None ds.
Proof. by inversion 1. Qed.

(** Changing the count of the root changes the excess. *)
Lemma rep_set_count h lvl r par x y t n :
  rep h lvl r par x t -> NoDup (map_addrs t) -> maps h !! root t = Some n ->
  rep (mk_heap (h_mm h) (<[root t := set_count (size t + y) n]> (maps h)) (datas h)) lvl r par y t.
Proof.
  intros H Hnd Hn. destruct H as [lvl r par x a ds Hl Ha Hdl|lvl r par x a cs Hl Ha Hcs Hc];
    simpl root in *; rewrite Ha in Hn; injection Hn as <-.
  - apply rep_leaf; [done|simpl; by rewrite lookup_insert_eq|]. by eapply dll_frame; [|done].
  - apply rep_node; [done|simpl; by rewrite lookup_insert_eq|done|].
    intros i c Hi. eapply rep_frame; [| |by apply Hc]; [|done].
    intros b Hb. simpl. rewrite lookup_insert_ne; [done|]. intros <-.
    simpl in Hnd. apply NoDup_cons in Hnd as [Hnin _]. apply Hnin. by eapply elem_of_concat_fmap.
Qed.

(** ** Stores and the pool

    Every node of the store is a live block of the pool, so a new block is a new
    address. *)
Context {L : MMLaws M}.

Definition heap_ok (h : heap) : Prop :=
  dom (maps h) ⊆ mm_live (h_mm h) /\ dom (datas h) ⊆ mm_live (h_mm h).

Lemma calloc_fresh h n b m' :
  heap_ok h -> mm_calloc (h_mm h) n = (Some b, m') -> maps h !! b = None /\ datas h !! b = None.
Proof.
  intros [Hm Hd] [Hb _]%calloc_Some.
  split; apply not_elem_of_dom; intros ?; apply Hb; [by apply Hm|by apply Hd].
Qed.

Lemma ld_map_Some h a n : maps h !! a = Some n -> ld_map h (Some a) = Ok n.
Proof. unfold ld_map. by intros ->. Qed.

Lemma ld_data_Some h a n : datas h !! a = Some n -> ld_data h (Some a) = Ok n.
Proof. unfold ld_data. by intros ->. Qed.

Lemma upd_map_Some h a n f :
  maps h !! a = Some n ->
  upd_map (Some a) f h = Ok (mk_heap (h_mm h) (<[a := f n]> (maps h)) (datas h)).
Proof. intros H. unfold upd_map. by rewrite (ld_map_Some _ _ _ H). Qed.

Lemma upd_data_Some h a n f :
  datas h !! a = Some n ->
  upd_data (Some a) f h = Ok (mk_heap (h_mm h) (maps h) (<[a := f n]> (datas h))).
Proof. intros H. unfold upd_data. by rewrite (ld_data_Some _ _ _ H). Qed.

(** What one round of [create_child_mapnode] does. *)
Definition new_child (r : nla_rect) (lvl : Z) (a : addr) (i : nat) : nla_map_node :=
  mk_mnode (child_rc r i) no_kids (Some a) (lvl + 1) None 0.

Lemma create_child_spec h a n i b m' :
  heap_ok h -> maps h !! a = Some n -> INT_MIN <= i_level n + 1 <= INT_MAX ->
  mm_calloc (h_mm h) sizeof_map_node = (Some b, m') ->
  let h' := mk_heap m' (<[b := new_child (rc n) (i_level n) a i]>
                        (<[a := set_child i (Some b) n]> (maps h))) (datas h) in
  create_child (Some a) i h = Ok h' /\ heap_ok h' /\ a <> b.
Proof.
  intros Hok Ha Hlvl Hc h'. destruct (calloc_fresh h _ _ _ Hok Hc) as [Hbm _].
  assert (a <> b) as Hab by congruence.
  assert (Hok' : heap_ok h').
  { destruct (calloc_Some _ _ _ _ Hc) as [_ Hlive]. destruct Hok as [Hm Hd].
    apply elem_of_dom_2 in Ha as Hda.
    unfold heap_ok, h'. simpl. rewrite Hlive, !dom_insert_L. set_solver. }
  split; [|done]. unfold create_child, alloc_map. rewrite Hc.
  rewrite (upd_map_Some _ a n) by (simpl; by rewrite lookup_insert_ne).
  rewrite obind_Ok. erewrite ld_map_Some by (simpl; by rewrite lookup_insert_eq).
  rewrite obind_Ok. cbn [set_child i_level rc]. rewrite i32_small by done.
  rewrite (upd_map_Some _ b zero_mnode)
    by (simpl; rewrite lookup_insert_ne, lookup_insert_eq by done; done).
  rewrite obind_Ok. erewrite upd_map_Some by (simpl; by rewrite lookup_insert_eq).
  rewrite obind_Ok. erewrite upd_map_Some by (simpl; by rewrite lookup_insert_eq).
  unfold h'. do 2 f_equal. simpl. rewrite !insert_insert_eq.
  rewrite (insert_insert_ne (maps h) a b) by done. by rewrite insert_insert_eq.
Qed.

(** A child as created: a leaf or an inner node without children. *)
Definition empty_kid (lvl : Z) (b : addr) : qt :=
  if decide (nMapMaxLevel <= lvl) then QLeaf b [] else QNode b [].

Lemma empty_kid_addrs lvl b : map_addrs (empty_kid lvl b) = [b] /\ data_addrs (empty_kid lvl b) = [].
Proof. unfold empty_kid. by destruct (decide _). Qed.

Lemma empty_kid_root lvl b : root (empty_kid lvl b) = b.
Proof. unfold empty_kid. by destruct (decide _). Qed.

Lemma empty_kid_rep h lvl r par b :
  maps h !! b = Some (mk_mnode r no_kids par lvl None 0) -> rep h lvl r par 0 (empty_kid lvl b).
Proof.
  intros H. unfold empty_kid. destruct (decide _).
  - by apply rep_leaf.
  - apply rep_node; [lia|done|by left|done].
Qed.

(** One more child: the round for index [i], with the frame it leaves. *)
Lemma create_child_step h a n i k :
  heap_ok h -> maps h !! a = Some n -> INT_MIN <= i_level n + 1 <= INT_MAX ->
  mm_room (S k) sizeof_map_node (h_mm h) = true ->
  exists h' b, create_child (Some a) i h = Ok h' /\ heap_ok h' /\ a <> b /\
    maps h !! b = None /\ datas h' = datas h /\
    maps h' = <[b := new_child (rc n) (i_level n) a i]> (<[a := set_child i (Some b) n]> (maps h)) /\
    mm_room k sizeof_map_node (h_mm h') = true.
Proof.
  intros Hok Ha Hl (b & m' & Hc & Hroom)%mm_room_S.
  destruct (create_child_spec h a n i b m' Hok Ha Hl Hc) as (Hr & Hok' & Hne).
  eexists _, b. split; [exact Hr|]. split; [done|]. split; [done|]. split; [|done].
  by eapply calloc_fresh.
Qed.

Lemma create_child_mapnode_spec h lvl r par x a k :
  heap_ok h -> rep h lvl r par x (QNode a []) -> INT_MIN <= lvl + 1 <= INT_MAX ->
  mm_room (4 + k) sizeof_map_node (h_mm h) = true ->
  exists h' b0 b1 b2 b3,
    let cs := empty_kid (lvl + 1) <$> [b0; b1; b2; b3] in
    create_child_mapnode (Some a) h = Ok h' /\ heap_ok h' /\ rep h' lvl r par x (QNode a cs) /\
    NoDup [a; b0; b1; b2; b3] /\ (forall b, b ∈ [b0; b1; b2; b3] -> maps h !! b = None) /\
    (forall b, b ∉ [a; b0; b1; b2; b3] -> maps h' !! b = maps h !! b) /\
    datas h' = datas h /\ mm_room k sizeof_map_node (h_mm h') = true.
Proof.
  intros Hok Hrep Hl Hroom. inversion Hrep as [|? ? ? ? ? ? Hlt Ha _ _]; subst.
  unfold create_child_mapnode. erewrite ld_map_Some by done. rewrite obind_Ok. simpl kids. cbn iota.
  set (n0 := mk_mnode r no_kids par lvl None (size (QNode a []) + x)) in *.
  change (ap_childs n0 !! 0%nat) with (Some (None : ptr)). cbn iota.
  destruct (create_child_step h a n0 0 (3 + k) Hok Ha Hl Hroom)
    as (h1 & b0 & -> & Hok1 & Hn0 & Hf0 & Hd1 & Hm1 & Hr1). rewrite obind_Ok.
  assert (Ha1 : maps h1 !! a = Some (set_child 0 (Some b0) n0))
    by (rewrite Hm1, lookup_insert_ne, lookup_insert_eq by done; done).
  destruct (create_child_step h1 a _ 1 (2 + k) Hok1 Ha1 Hl Hr1)
    as (h2 & b1 & -> & Hok2 & Hn1 & Hf1 & Hd2 & Hm2 & Hr2). rewrite obind_Ok.
  assert (Ha2 : maps h2 !! a = Some (set_child 1 (Some b1) (set_child 0 (Some b0) n0)))
    by (rewrite Hm2, lookup_insert_ne, lookup_insert_eq by done; done).
  destruct (create_child_step h2 a _ 2 (1 + k) Hok2 Ha2 Hl Hr2)
    as (h3 & b2 & -> & Hok3 & Hn2 & Hf2 & Hd3 & Hm3 & Hr3). rewrite obind_Ok.
  assert (Ha3 : maps h3 !! a = Some (set_child 2 (Some b2) (set_child 1 (Some b1) (set_child 0 (Some b0) n0))))
    by (rewrite Hm3, lookup_insert_ne, lookup_insert_eq by done; done).
  destruct (create_child_step h3 a _ 3 k Hok3 Ha3 Hl Hr3)
    as (h4 & b3 & -> & Hok4 & Hn3 & Hf3 & Hd4 & Hm4 & Hr4).
  exists h4, b0, b1, b2, b3. set (cs := empty_kid (lvl + 1) <$> [b0; b1; b2; b3]).
  rewrite Hm1, !lookup_insert_None in Hf1. rewrite Hm2, Hm1, !lookup_insert_None in Hf2.
  rewrite Hm3, Hm2, Hm1, !lookup_insert_None in Hf3. destruct_and?.
  assert (Hnd : NoDup [a; b0; b1; b2; b3]).
  { repeat (apply NoDup_cons; split; [set_solver|]). by apply NoDup_nil. }
  assert (Hlk : forall i b, [b0; b1; b2; b3] !! i = Some b -> maps h4 !! b = Some (new_child r lvl a i)).
  { intros i b Hi. rewrite Hm4, Hm3, Hm2, Hm1.
    destruct i as [|[|[|[|i]]]]; simpl in Hi; simplify_eq;
      repeat first [rewrite lookup_insert_eq; reflexivity | rewrite lookup_insert_ne by done]. }
  split; [done|]. split; [done|]. split.
  - apply rep_node; [done| |by right|].
    + rewrite Hm4, lookup_insert_ne, lookup_insert_eq by done. f_equal. simpl.
      unfold size. simpl. rewrite !(proj2 (empty_kid_addrs _ _)), !empty_kid_root. done.
    + intros i c Hi. unfold cs in Hi. rewrite list_lookup_fmap in Hi.
      destruct ([b0; b1; b2; b3] !! i) as [b|] eqn:E; [|done]. injection Hi as <-.
      apply empty_kid_rep. by rewrite (Hlk i b E).
  - split; [done|]. split; [set_solver|]. split; [|by rewrite Hd4, Hd3, Hd2, Hd1].
    intros b Hb. rewrite Hm4, Hm3, Hm2, Hm1. repeat (rewrite lookup_insert_ne by set_solver). done.
Qed.
End Rep.
