(* ===== verification/QuadTreeAdd.v ===== *)
(** * Adding a data node keeps the tree *)
From S2P Require Import Prelude.
From S2P Require Import SharedMem.
From S2P Require Import Geo.
From S2P Require Import QuadTree.
From S2P Require Import QuadTreeSpec.

Section Add.
Context {M : MM} {L : MMLaws M}.
Variable nMapMaxLevel : Z.
Abbreviation rep := (rep nMapMaxLevel).
Implicit Types (h : heap) (a d e : addr) (ds : list addr) (t : qt).

(** Two stores hold the same items, whatever the links. *)
Definition same_items h h' : Prop :=
  forall e, data <$> (datas h' !! e) = data <$> (datas h !! e).

Lemma same_items_refl h : same_items h h.
Proof. done. Qed.

Lemma same_items_trans h1 h2 h3 : same_items h1 h2 -> same_items h2 h3 -> same_items h1 h3.
Proof. intros H1 H2 e. by rewrite H2, H1. Qed.

Lemma same_items_dom h h' : same_items h h' -> dom (datas h') = dom (datas h).
Proof.
  intros H. apply set_eq. intros e. rewrite !elem_of_dom. specialize (H e).
  destruct (datas h' !! e), (datas h !! e); simpl in H; try done; split; intros [? ?]; done.
Qed.

(** Pushing a node in front of the list of a leaf. *)
Lemma push_data_spec h a n d dn r ds :
  maps h !! a = Some n -> p_data_node n = head ds -> dll h a r None ds ->
  NoDup ds -> d ∉ ds -> datas h !! d = Some dn -> fn_b_IsLocInRC r (loc (data dn)) = true ->
  exists h', push_data (Some a) (Some d) h = Ok h' /\
    h_mm h' = h_mm h /\ maps h' = <[a := set_head (Some d) n]> (maps h) /\
    dll h' a r None (d :: ds) /\ same_items h h' /\
    (forall e, e ∉ d :: ds -> datas h' !! e = datas h !! e).
Proof.
  intros Ha Hp Hl Hnd Hd Hdn Hin. unfold push_data.
  rewrite (ld_map_Some _ _ _ Ha), obind_Ok.
  rewrite (upd_data_Some _ _ _ _ Hdn), obind_Ok.
  erewrite upd_data_Some by (simpl; by rewrite lookup_insert_eq). rewrite obind_Ok.
  erewrite upd_data_Some by (simpl; by rewrite lookup_insert_eq). rewrite obind_Ok. simpl.
  rewrite !insert_insert_eq. rewrite Hp.
  set (dn' := set_map_node (Some a) (set_prev None (set_next (head ds) dn))).
  destruct ds as [|e ds]; cbn [hd_error obind].
  - rewrite ?obind_Ok, (upd_map_Some _ _ n) by done. eexists. split; [done|].
    split; [done|]. split; [done|]. split; [|split].
    + simpl. split; [|done]. exists (data dn). by rewrite lookup_insert_eq.
    + intros e. simpl. rewrite lookup_insert. destruct (decide (d = e)) as [<-|]; [by rewrite Hdn|done].
    + intros e He. simpl. rewrite lookup_insert_ne by set_solver. done.
  - destruct Hl as [(i & He & Hi) Hl]. assert (d <> e) as Hne by set_solver.
    erewrite upd_data_Some by (simpl; rewrite lookup_insert_ne by done; exact He).
    rewrite ?obind_Ok, (upd_map_Some _ _ n) by done. eexists. split; [done|].
    split; [done|]. split; [done|]. apply NoDup_cons in Hnd as [Hnin _]. split; [|split].
    + simpl. split; [exists (data dn); by rewrite lookup_insert_ne, lookup_insert_eq by done|].
      split; [exists i; by rewrite lookup_insert_eq|].
      eapply dll_frame; [|done]. intros e' He'. simpl.
      rewrite !lookup_insert_ne; [done|set_solver|intros <-; done].
    + intros e'. simpl. rewrite !lookup_insert. destruct (decide (e = e')) as [<-|]; [by rewrite He|].
      destruct (decide (d = e')) as [<-|]; [by rewrite Hdn|done].
    + intros e' He'. simpl. rewrite !lookup_insert_ne by set_solver. done.
Qed.

(** Replacing child [i] of a node. *)
Lemma concat_fmap_insert {B} (f : qt -> list B) cs i c c' :
  cs !! i = Some c ->
  exists l1 l2, concat (f <$> cs) = l1 ++ f c ++ l2 /\ concat (f <$> <[i := c']> cs) = l1 ++ f c' ++ l2.
Proof.
  intros Hc. destruct (list_elem_of_split_length _ _ _ Hc) as (l1 & l2 & -> & ->).
  exists (concat (f <$> l1)), (concat (f <$> l2)).
  rewrite insert_app_r_alt by lia. rewrite Nat.sub_diag. simpl.
  by rewrite !fmap_app, !concat_app.
Qed.

Lemma kids_insert cs i c c' :
  cs !! i = Some c -> root c' = root c -> kids (<[i := c']> cs) = kids cs.
Proof.
  intros Hc Hr. destruct cs as [|c0 cs]; [done|].
  assert (kids (<[i:=c']> (c0 :: cs)) = (fun c => Some (root c)) <$> <[i:=c']> (c0 :: cs)) as ->
    by (by destruct i).
  change (kids (c0 :: cs)) with ((fun c => Some (root c)) <$> (c0 :: cs)).
  rewrite list_fmap_insert, Hr. apply list_insert_id.
  by rewrite list_lookup_fmap, Hc.
Qed.


(** ** The invariant of a whole tree *)

Definition tree_ok h (lvl : Z) (r : nla_rect) (par : ptr) (x : Z) t : Prop :=
  rep h lvl r par x t /\ NoDup (map_addrs t) /\ NoDup (data_addrs t).

(** What adding [d] below [t] changes: only nodes of [t], nodes that were not in
    the store, and the links of data nodes of [t] and of [d]. *)
Record added h h' (d : addr) (t t' : qt) : Prop := {
  add_root : root t' = root t;
  add_datas : data_addrs t' ≡ₚ d :: data_addrs t;
  add_maps_sub : forall b, b ∈ map_addrs t -> b ∈ map_addrs t';
  add_maps : forall b, b ∈ map_addrs t' -> b ∈ map_addrs t \/ maps h !! b = None;
  add_maps_nodup : NoDup (map_addrs t');
  add_frame_maps : forall b, b ∉ map_addrs t' -> maps h' !! b = maps h !! b;
  add_frame_datas : forall e, e ∉ d :: data_addrs t -> datas h' !! e = datas h !! e;
  add_items : same_items h h';
  add_heap : heap_ok h'
}.

Lemma tree_ok_child h lvl r par x a cs i c :
  tree_ok h lvl r par x (QNode a cs) -> cs !! i = Some c ->
  tree_ok h (lvl + 1) (child_rc r i) (Some a) 0 c /\ a ∉ map_addrs c.
Proof.
  intros (Hr & Hm & Hd) Hi. inversion Hr as [|? ? ? ? ? ? _ _ _ Hc]; subst.
  destruct (list_elem_of_split_length _ _ _ Hi) as (l1 & l2 & -> & ->).
  simpl in Hm, Hd. rewrite fmap_app, concat_app in Hm, Hd. simpl in Hm, Hd.
  apply NoDup_cons in Hm as [Hnin Hm].
  split; [|set_solver]. split; [by apply Hc|].
  apply NoDup_app in Hm as (_ & _ & (Hm & _ & _)%NoDup_app).
  by apply NoDup_app in Hd as (_ & _ & (Hd & _ & _)%NoDup_app).
Qed.

(** Lists of different children have no element in common. *)
Lemma concat_fmap_sep {B} (f : qt -> list B) cs i j c c' b :
  NoDup (concat (f <$> cs)) -> cs !! i = Some c -> cs !! j = Some c' -> i <> j -> b ∈ f c -> b ∉ f c'.
Proof.
  revert i j. induction cs as [|c0 cs IH]; intros i j Hnd Hi Hj Hne; [done|]. simpl in Hnd.
  apply NoDup_app in Hnd as (_ & Hdisj & Hnd).
  destruct i as [|i], j as [|j]; simpl in *; simplify_eq.
  - intros Hb Hb'. apply (Hdisj b Hb). by eapply elem_of_concat_fmap.
  - intros Hb Hb'. apply (Hdisj b Hb'). by eapply elem_of_concat_fmap.
  - apply (IH i j); auto.
Qed.

(** Two different children share no node. *)
Lemma tree_ok_siblings h lvl r par x a cs i j c c' :
  tree_ok h lvl r par x (QNode a cs) -> cs !! i = Some c -> cs !! j = Some c' -> i <> j ->
  (forall b, b ∈ map_addrs c -> b ∉ map_addrs c') /\ (forall e, e ∈ data_addrs c -> e ∉ data_addrs c').
Proof.
  intros (_ & Hm & Hd) Hi Hj Hne. simpl in Hm, Hd. apply NoDup_cons in Hm as [_ Hm].
  split; intros b; by apply (concat_fmap_sep _ cs i j).
Qed.

Lemma rep_maps_Some h lvl r par x t b :
  rep h lvl r par x t -> b ∈ map_addrs t -> is_Some (maps h !! b).
Proof.
  induction 1 as [lvl r par x a ds Hl Ha Hdl|lvl r par x a cs Hl Ha Hcs Hc IH]; simpl.
  - intros ->%list_elem_of_singleton. eauto.
  - intros [->|Hb]%elem_of_cons; [eauto|].
    apply elem_of_concat_fmap_inv in Hb as (i & c & Hi & Hb). by apply (IH i c).
Qed.

Lemma NoDup_replace_mid {A} (l1 l l' l2 : list A) :
  NoDup (l1 ++ l ++ l2) -> NoDup l' -> (forall b, b ∈ l' -> b ∈ l \/ b ∉ l1 ++ l2) ->
  NoDup (l1 ++ l' ++ l2).
Proof.
  intros (H1 & Hd1 & (H2 & Hd2 & H3)%NoDup_app)%NoDup_app Hl' Hsub.
  apply NoDup_app. split; [done|]. split.
  - intros b Hb1 [Hb|Hb]%elem_of_app; [|apply (Hd1 b Hb1); set_solver].
    destruct (Hsub b Hb) as [?|Hn]; [apply (Hd1 b Hb1); set_solver|]. apply Hn. set_solver.
  - apply NoDup_app. split; [done|]. split; [|done].
    intros b Hb Hb2. destruct (Hsub b Hb) as [?|Hn]; [by apply (Hd2 b)|]. apply Hn. set_solver.
Qed.

(** *** The leaf case *)
Lemma add_leaf h lvl r par x a ds d dn :
  tree_ok h lvl r par (x + 1) (QLeaf a ds) -> heap_ok h -> datas h !! d = Some dn -> d ∉ ds ->
  fn_b_IsLocInRC r (loc (data dn)) = true ->
  exists h', push_data (Some a) (Some d) h = Ok h' /\
    tree_ok h' lvl r par x (QLeaf a (d :: ds)) /\ added h h' d (QLeaf a ds) (QLeaf a (d :: ds)).
Proof.
  intros (Hr & Hm & Hd) [Hok1 Hok2] Hdn Hnin Hin.
  inversion Hr as [? ? ? ? ? ? Hl Ha Hdl|]; subst.
  destruct (push_data_spec h a _ d dn r ds Ha eq_refl Hdl Hd Hnin Hdn Hin)
    as (h' & Hp & Hmm & Hmaps & Hdl' & Hitems & Hframe).
  exists h'. split; [done|]. split.
  - split; [|split; [done|by apply NoDup_cons]]. apply rep_leaf; [done| |done].
    rewrite Hmaps, lookup_insert_eq. unfold set_head. simpl. do 2 f_equal. lia.
  - split; try done; simpl.
    + set_solver.
    + intros b Hb. rewrite Hmaps, lookup_insert_ne by set_solver. done.
    + split; rewrite Hmm; [|by rewrite (same_items_dom h h')].
      rewrite Hmaps, dom_insert_L. apply elem_of_dom_2 in Ha. set_solver.
Qed.

(** *** The children of an inner node exist after the first step *)
Lemma ensure_children h lvl r par x a cs k n :
  tree_ok h lvl r par x (QNode a cs) -> heap_ok h -> INT_MIN <= lvl + 1 <= INT_MAX ->
  mm_room (4 + k) sizeof_map_node (h_mm h) = true -> maps h !! a = Some n ->
  exists h' cs',
    match ap_childs n !! 0%nat with
    | Some (Some _) => Ok h
    | _ => create_child_mapnode (Some a) h
    end = Ok h' /\ length cs' = 4%nat /\
    tree_ok h' lvl r par x (QNode a cs') /\ heap_ok h' /\ datas h' = datas h /\
    data_addrs (QNode a cs') = data_addrs (QNode a cs) /\
    (forall b, b ∈ map_addrs (QNode a cs) -> b ∈ map_addrs (QNode a cs')) /\
    (forall b, b ∈ map_addrs (QNode a cs') -> b ∈ map_addrs (QNode a cs) \/ maps h !! b = None) /\
    (forall b, b ∉ map_addrs (QNode a cs') -> maps h' !! b = maps h !! b) /\
    (cs = [] -> mm_room k sizeof_map_node (h_mm h') = true) /\ (cs <> [] -> h' = h).
Proof.
  intros Htree Hok Hl Hroom Hn. pose proof Htree as (Hr & Hm & Hd).
  inversion Hr as [|? ? ? ? ? ? Hlt Ha Hcs Hc]; subst. rewrite Ha in Hn. injection Hn as <-.
  destruct Hcs as [->|Hlen].
  - destruct (create_child_mapnode_spec nMapMaxLevel h lvl r par x a k Hok Hr Hl Hroom)
      as (h' & b0 & b1 & b2 & b3 & Hcr & Hok' & Hr' & Hnd & Hfresh & Hframe & Hdatas & Hk).
    assert (Hma : map_addrs (QNode a (empty_kid nMapMaxLevel (lvl + 1) <$> [b0; b1; b2; b3])) = [a; b0; b1; b2; b3]).
    { simpl. by rewrite !(proj1 (empty_kid_addrs _ _ _)). }
    assert (Hda : data_addrs (QNode a (empty_kid nMapMaxLevel (lvl + 1) <$> [b0; b1; b2; b3])) = []).
    { simpl. by rewrite !(proj2 (empty_kid_addrs _ _ _)). }
    eexists h', _. split; [exact Hcr|]. split; [|split; [split; [exact Hr'|]|]]; [done| |].
    + rewrite Hma, Hda. split; [done|constructor].
    + rewrite Hma, Hda. do 3 (split; [done|]). split; [simpl; set_solver|]. split; [|done].
      intros b [->|Hb]%elem_of_cons; [left; simpl; set_solver|right; by apply Hfresh].
  - destruct cs as [|c cs]; [done|]. exists h, (c :: cs). simpl ap_childs. simpl lookup.
    split; [done|]. split; [done|]. split; [done|]. split; [done|]. split; [done|].
    split; [done|]. split; [done|]. split; [auto|]. done.
Qed.

(** *** The inner case: one child gets the node *)
Lemma add_below h lvl r par x a cs i c d h' c' :
  tree_ok h lvl r par (x + 1) (QNode a cs) -> length cs = 4%nat -> cs !! i = Some c ->
  d ∉ data_addrs (QNode a cs) ->
  tree_ok h' (lvl + 1) (child_rc r i) (Some a) 0 c' -> added h h' d c c' ->
  let t' := QNode a (<[i := c']> cs) in
  tree_ok h' lvl r par x t' /\ added h h' d (QNode a cs) t'.
Proof.
  intros Htree Hlen Hi Hd (Hr' & Hm' & Hd') Hadd t'.
  destruct (tree_ok_child _ _ _ _ _ _ _ _ _ Htree Hi) as [Hchild Hac].
  pose proof Htree as (Hr & Hm & Hdn).
  inversion Hr as [|? ? ? ? ? ? Hlt Ha Hcs Hc]; subst.
  destruct Hadd as [Hroot Hperm Hmsub Hmaps Hmnd Hfm Hfd Hitems Hok].
  assert (Hac' : a ∉ map_addrs c') by (intros [?|?]%Hmaps; [done|congruence]).
  destruct (concat_fmap_insert map_addrs cs i c c' Hi) as (m1 & m2 & Em & Em').
  destruct (concat_fmap_insert data_addrs cs i c c' Hi) as (d1 & d2 & Ed & Ed').
  assert (Hperm' : data_addrs t' ≡ₚ d :: data_addrs (QNode a cs)).
  { simpl. rewrite Ed, Ed', Hperm. simpl. by rewrite <- Permutation_middle. }
  assert (Hmnd' : NoDup (map_addrs t')).
  { simpl in *. rewrite Em in Hm. rewrite Em'. apply NoDup_cons in Hm as [Hnin Hm].
    apply NoDup_cons. split.
    - rewrite !elem_of_app in *. tauto.
    - eapply NoDup_replace_mid; [done|done|]. intros b Hb. destruct (Hmaps b Hb) as [|Hnone]; [by left|].
      right. intros Hin. destruct (rep_maps_Some h lvl r par (x + 1) (QNode a cs) b Hr) as [? ?]; [|congruence].
      simpl. rewrite Em. set_solver. }
  split; [split; [|split; [done|]]|].
  - apply rep_node; [done| |right; by rewrite length_insert|].
    + rewrite Hfm by done. rewrite Ha, (kids_insert _ _ _ _ Hi Hroot). do 2 f_equal.
      unfold size. change (QNode a (<[i := c']> cs)) with t'. rewrite Hperm'. simpl length. lia.
    + intros j cj Hj. destruct (decide (i = j)) as [<-|Hij].
      { rewrite list_lookup_insert_eq in Hj by (by eapply lookup_lt_Some). by injection Hj as <-. }
      rewrite list_lookup_insert_ne in Hj by done.
      destruct (tree_ok_siblings _ _ _ _ _ _ _ _ _ _ _ Htree Hi Hj Hij) as [Hsm Hsd].
      eapply rep_frame; [| |by apply (Hc j)].
      * intros b Hb. apply Hfm. intros [Hbc|Hnone]%Hmaps; [by apply (Hsm b)|].
        destruct (rep_maps_Some _ _ _ _ _ _ b (Hc j cj Hj) Hb). congruence.
      * intros e He. apply Hfd. rewrite not_elem_of_cons. split.
        -- intros ->. apply Hd. simpl. by eapply elem_of_concat_fmap.
        -- intros He'. by apply (Hsd e).
  - rewrite Hperm'. by apply NoDup_cons.
  - split; try done.
    + simpl. rewrite Em, Em'. intros b. rewrite !elem_of_cons, !elem_of_app. pose proof (Hmsub b). tauto.
    + simpl. rewrite Em, Em'. intros b. rewrite !elem_of_cons, !elem_of_app. pose proof (Hmaps b). tauto.
    + intros b Hb. apply Hfm. intros Hb'. apply Hb. simpl. rewrite Em'. set_solver.
    + intros e He. apply Hfd. simpl in He. rewrite Ed in He. set_solver.
Qed.

(** Composition of the first steps with the rest. *)
Lemma added_trans h h1 h2 d t t1 t2 :
  root t1 = root t -> data_addrs t1 = data_addrs t ->
  (forall b, b ∈ map_addrs t1 -> b ∈ map_addrs t \/ maps h !! b = None) ->
  (forall b, b ∉ map_addrs t1 -> maps h1 !! b = maps h !! b) ->
  (forall b, b ∈ map_addrs t -> b ∈ map_addrs t1) ->
  datas h1 = datas h -> added h1 h2 d t1 t2 -> added h h2 d t t2.
Proof.
  intros Hroot Hdat Hmaps Hframe Hsub Hds [].
  split; try congruence; try done.
  - auto.
  - intros b Hb. destruct (add_maps0 b Hb) as [?|Hn]; [by apply Hmaps|].
    destruct (decide (b ∈ map_addrs t1)) as [|Hb1]; [by apply Hmaps|]. rewrite Hframe in Hn by done. by right.
  - intros b Hb. rewrite add_frame_maps0 by done. apply Hframe. intros ?. apply Hb. auto.
  - intros e He. rewrite add_frame_datas0 by (by rewrite Hdat). by rewrite Hds.
Qed.

(** *** The recursion *)

Lemma count_step h lvl r par x t n :
  tree_ok h lvl r par x t -> heap_ok h -> maps h !! root t = Some n ->
  0 <= x -> size t + x + 1 < 2 ^ 32 ->
  exists h0, upd_map (Some (root t)) (set_count (u32 (i_item_count n + 1))) h = Ok h0 /\
    tree_ok h0 lvl r par (x + 1) t /\ heap_ok h0 /\ h_mm h0 = h_mm h /\ datas h0 = datas h /\
    (forall b, b <> root t -> maps h0 !! b = maps h !! b) /\
    maps h0 !! root t = Some (set_count (size t + (x + 1)) n).
Proof.
  intros (Hr & Hm & Hd) [Hok1 Hok2] Hn Hx Hmax.
  destruct (rep_root _ _ _ _ _ _ _ Hr) as (n' & Hn' & _ & _ & _ & Hc). rewrite Hn in Hn'. injection Hn' as <-.
  rewrite (upd_map_Some _ _ _ _ Hn). eexists. split; [done|].
  assert (0 <= size t) by (unfold size; lia).
  rewrite Hc, u32_small by lia. replace (size t + x + 1) with (size t + (x + 1)) by lia.
  split; [split; [by eapply rep_set_count|done]|].
  split; [split; simpl; [|done]; rewrite dom_insert_L; apply elem_of_dom_2 in Hn; set_solver|].
  split; [done|]. split; [done|]. simpl. split; [|by rewrite lookup_insert_eq].
  intros b Hb. by rewrite lookup_insert_ne.
Qed.

Lemma adddatanode_spec fuel lvl r par x t h d dn :
  tree_ok h lvl r par x t -> heap_ok h -> valid_rc r ->
  datas h !! d = Some dn -> d ∉ data_addrs t -> fn_b_IsLocInRC r (loc (data dn)) = true ->
  (Z.to_nat (nMapMaxLevel - lvl) < fuel)%nat ->
  mm_room (4 * Z.to_nat (nMapMaxLevel - lvl)) sizeof_map_node (h_mm h) = true ->
  0 <= x -> size t + x + 1 < 2 ^ 32 -> 0 <= lvl -> nMapMaxLevel <= INT_MAX ->
  exists h' t', adddatanode nMapMaxLevel fuel (Some (root t)) (Some d) h = Ok h' /\
    tree_ok h' lvl r par x t' /\ added h h' d t t'.
Proof.
  revert lvl r par x t h dn. induction fuel as [|fuel IH];
    intros lvl r par x t h dn Htree Hok Hv Hdn Hd Hin Hfuel Hroom Hx Hmax Hlvl HM; [lia|].
  destruct (rep_root _ _ _ _ _ _ _ (proj1 Htree)) as (n & Hn & Hrc & Hlv & _ & _).
  destruct (count_step _ _ _ _ _ _ _ Htree Hok Hn Hx Hmax)
    as (h0 & Hupd & Htree0 & Hok0 & Hmm0 & Hds0 & Hfr0 & Hn0).
  cbn [adddatanode]. rewrite (ld_map_Some _ _ _ Hn), obind_Ok, Hupd, obind_Ok, Hlv.
  pose proof (proj1 Htree0) as Hr0.
  destruct (Z.leb_spec nMapMaxLevel lvl) as [Hle|Hlt].
  - destruct t as [a ds|a cs]; [|inversion Hr0; lia]. simpl in *. rewrite <- Hds0 in Hdn.
    destruct (add_leaf h0 lvl r par x a ds d dn Htree0 Hok0 Hdn Hd Hin) as (h' & Hp & Ht' & Hadd).
    exists h', (QLeaf a (d :: ds)). split; [done|]. split; [done|].
    eapply (added_trans h h0); try done; simpl; [auto|]. intros b Hb. apply Hfr0. set_solver.
  - destruct t as [a ds|a cs]; [inversion Hr0; lia|]. cbn [root] in *.
    assert (Hlev : Z.to_nat (nMapMaxLevel - lvl) = S (Z.to_nat (nMapMaxLevel - (lvl + 1)))) by lia.
    set (k := (4 * Z.to_nat (nMapMaxLevel - (lvl + 1)))%nat).
    assert (Hroom0 : mm_room (4 + k) sizeof_map_node (h_mm h0) = true).
    { rewrite Hmm0. eapply mm_room_le; [|exact Hroom]. unfold k. lia. }
    destruct (ensure_children h0 lvl r par (x + 1) a cs k _ Htree0 Hok0
                ltac:(unfold INT_MIN, INT_MAX in *; lia) Hroom0 Hn0)
      as (h1 & cs1 & Hens & Hlen & Htree1 & Hok1 & Hds1 & Hda & Hsub & Hma & Hfr1 & Hk1 & Hk2).
    assert (Hroom1 : mm_room k sizeof_map_node (h_mm h1) = true).
    { destruct (decide (cs = [])) as [E|E]; [by apply Hk1|]. rewrite (Hk2 E).
      eapply mm_room_le; [|exact Hroom0]. lia. }
    simpl ap_childs in Hens. rewrite Hens, obind_Ok.
    destruct (rep_node_inv _ _ _ _ _ _ _ _ (proj1 Htree1)) as [Ha1 _].
    rewrite (ld_map_Some _ _ _ Ha1), obind_Ok.
    assert (Hdn1 : datas h1 !! d = Some dn) by (by rewrite Hds1, Hds0).
    rewrite (ld_data_Some _ _ _ Hdn1), obind_Ok. cbn [QuadTree.rc].
    destruct (child_idx_in r (loc (data dn)) Hin) as (i & Hi & Hidx & Hini). rewrite Hidx.
    replace ((Z.of_nat i <? 0) || (NLA_MAP_CHILD_COUNT <=? Z.of_nat i)) with false
      by (unfold NLA_MAP_CHILD_COUNT; zcase; simpl; (done || lia)).
    destruct (lookup_lt_is_Some_2 cs1 i ltac:(lia)) as [c Hc].
    unfold child. cbn [ap_childs]. rewrite Nat2Z.id, (kids_lookup _ _ _ Hc), obind_Ok.
    destruct (tree_ok_child _ _ _ _ _ _ _ _ _ Htree1 Hc) as [Hchild _].
    assert (Hdc : d ∉ data_addrs (QNode a cs1)) by (by rewrite Hda).
    assert (Hsz : size c <= size (QNode a cs)).
    { unfold size. rewrite <- Hda. destruct (concat_fmap_insert data_addrs cs1 i c c Hc) as (l1 & l2 & E & _).
      simpl data_addrs at 2. rewrite E, !length_app. lia. }
    destruct (IH (lvl + 1) (child_rc r i) (Some a) 0 c h1 dn) as (h' & c' & Hadd & Ht' & Hadded);
      try done; try lia; [by apply child_rc_valid| |].
    { intros H. apply Hdc. simpl. by eapply elem_of_concat_fmap. }
    rewrite Hadd. exists h', (QNode a (<[i := c']> cs1)). split; [done|].
    destruct (add_below h1 lvl r par x a cs1 i c d h' c' Htree1 Hlen Hc Hdc Ht' Hadded) as [HT HA].
    split; [done|]. apply (added_trans h h1 h' d (QNode a cs) (QNode a cs1)); try done.
    + intros b Hb. destruct (Hma b Hb) as [|Hnone]; [by left|].
      destruct (decide (b = a)) as [->|]; [left; simpl; set_solver|]. right. by rewrite <- Hfr0.
    + intros b Hb. rewrite Hfr1 by done. apply Hfr0. simpl in Hb. set_solver.
    + by rewrite Hds1.
Qed.
End Add.
