(* ===== verification/QuadTreeUpd.v ===== *)
(** * Updating an item in place, growth of the store, and searching

    The leaf that holds a data node covers the cell of its location; an item may
    be overwritten in place as long as its location stays in that cell.  Adding a
    node only ever brings blocks into the store that the pool did not own. *)
From S2P Require Import Prelude.
From S2P Require Import SharedMem.
From S2P Require Import Geo.
From S2P Require Import QuadTree.
From S2P Require Import QuadTreeSpec.
From S2P Require Import QuadTreeAdd.

(** The rectangle reached from [r] by [k] descents towards [l]. *)
Fixpoint cell (k : nat) (r : nla_rect) (l : nla_2dloc) : nla_rect :=
  match k with
  | O => r
  | S k' => cell k' (child_rc r (Z.to_nat (fn_i_GetChildRcIdx r l))) l
  end.

Lemma cell_in k r l : fn_b_IsLocInRC r l = true -> fn_b_IsLocInRC (cell k r l) l = true.
Proof.
  revert r. induction k as [|k IH]; intros r H; [done|]. cbn [cell].
  destruct (child_idx_in r l H) as (i & _ & -> & Hi). rewrite Nat2Z.id. by apply IH.
Qed.

Lemma child_rc_index r i l :
  valid_rc r -> (i < 4)%nat -> fn_b_IsLocInRC (child_rc r i) l = true -> Z.to_nat (fn_i_GetChildRcIdx r l) = i.
Proof.
  intros Hv Hi Hin. destruct (child_idx_in r l (child_rc_in _ _ _ Hv Hin)) as (j & Hj & -> & Hinj).
  rewrite Nat2Z.id. destruct (decide (i = j)) as [|Hne]; [done|].
  by rewrite (child_rc_disjoint r i j l Hi Hj Hne Hin) in Hinj.
Qed.

Section Update.
Context {M : MM}.
Variable nMapMaxLevel : Z.
Abbreviation rep := (rep nMapMaxLevel).
Implicit Types (h : heap) (a d e : addr) (ds : list addr) (t : qt).

(** Overwriting the item of [d]. *)
Definition put_item h d (dn : nla_data_node) (i : nla_data_item) : heap :=
  mk_heap (h_mm h) (maps h) (<[d := set_data i dn]> (datas h)).

Lemma dll_update h a r prv ds d dn i :
  dll h a r prv ds -> NoDup ds -> d ∈ ds -> datas h !! d = Some dn ->
  p_map_node dn = Some a /\ fn_b_IsLocInRC r (loc (data dn)) = true /\
  (fn_b_IsLocInRC r (loc i) = true -> dll (put_item h d dn i) a r prv ds).
Proof.
  revert prv. induction ds as [|e ds IH]; intros prv Hl Hnd Hin Hd; [by apply not_elem_of_nil in Hin|].
  destruct Hl as [(j & He & Hj) Hl]. apply NoDup_cons in Hnd as [Hnin Hnd].
  destruct (decide (d = e)) as [->|Hne].
  - rewrite He in Hd. injection Hd as <-. split; [done|]. split; [done|]. intros Hi. split.
    + exists i. simpl. by rewrite lookup_insert_eq.
    + eapply dll_frame; [|done]. intros e' He'. simpl. rewrite lookup_insert_ne; [done|]. by intros ->.
  - apply elem_of_cons in Hin as [?|Hin]; [done|].
    destruct (IH (Some e) Hl Hnd Hin Hd) as (H1 & H2 & H3). split; [done|]. split; [done|].
    intros Hi. split; [|by apply H3]. exists j. simpl. by rewrite lookup_insert_ne.
Qed.

(** The node of the store that holds [d] covers the cell of its location. *)
Lemma rep_update h lvl r par x t d dn :
  rep h lvl r par x t -> valid_rc r -> NoDup (data_addrs t) -> d ∈ data_addrs t -> datas h !! d = Some dn ->
  fn_b_IsLocInRC r (loc (data dn)) = true /\
  exists a n, p_map_node dn = Some a /\ maps h !! a = Some n /\
    rc n = cell (Z.to_nat (nMapMaxLevel - lvl)) r (loc (data dn)) /\
    forall i, fn_b_IsLocInRC (rc n) (loc i) = true -> rep (put_item h d dn i) lvl r par x t.
Proof.
  intros H Hv Hnd Hin Hd. revert Hv Hnd Hin.
  induction H as [lvl r par x a ds Hl Ha Hdl|lvl r par x a cs Hl Ha Hcs Hc IH]; intros Hv Hnd Hin; simpl in Hnd, Hin.
  - pose proof (fun i => dll_update h a r None ds d dn i Hdl Hnd Hin Hd) as Hu.
    destruct (Hu (data dn)) as (Hp & Hr & _). split; [done|].
    exists a, (mk_mnode r no_kids par lvl (head ds) (Z.of_nat (length ds) + x)).
    split; [done|]. split; [done|]. replace (Z.to_nat (nMapMaxLevel - lvl)) with 0%nat by lia. split; [done|].
    intros i Hi. apply rep_leaf; [done|done|]. by apply Hu.
  - destruct Hcs as [->|Hlen]; [by apply not_elem_of_nil in Hin|].
    apply elem_of_concat_fmap_inv in Hin as (i & c & Hi & Hinc).
    assert (Hndc : NoDup (data_addrs c)).
    { destruct (concat_fmap_insert data_addrs cs i c c Hi) as (l1 & l2 & E & _).
      rewrite E in Hnd. by apply NoDup_app in Hnd as (_ & _ & (? & _)%NoDup_app). }
    destruct (IH i c Hi (child_rc_valid r i Hv) Hndc Hinc) as (Hr & b & n & Hp & Hb & Hcell & Hu).
    split; [by eapply child_rc_in|]. exists b, n. split; [done|]. split; [done|].
    assert (Hi4 : (i < 4)%nat) by (apply lookup_lt_Some in Hi; lia).
    replace (Z.to_nat (nMapMaxLevel - lvl)) with (S (Z.to_nat (nMapMaxLevel - (lvl + 1)))) by lia.
    cbn [cell]. rewrite (child_rc_index r i _ Hv Hi4 Hr). split; [done|].
    intros it Hit. apply rep_node; [done|done|by right|].
    intros j cj Hj. destruct (decide (i = j)) as [<-|Hij].
    { rewrite Hi in Hj. injection Hj as <-. by apply Hu. }
    eapply rep_frame; [|intros e He|by apply Hc]; [done|]. simpl. rewrite lookup_insert_ne; [done|]. intros <-.
    by apply (concat_fmap_sep data_addrs cs i j c cj d Hnd Hi Hj Hij Hinc).
Qed.
End Update.

(** ** Growth of the store *)
Section Grow.
Context {M : MM} {L : MMLaws M}.
Variable nMapMaxLevel : Z.
Implicit Types (h : heap) (p : ptr).

(** No live block becomes free, and no live block that was not a map node
    becomes one. *)
Record grows h h' : Prop := {
  grows_live : mm_live (h_mm h) ⊆ mm_live (h_mm h');
  grows_maps : forall b, b ∈ mm_live (h_mm h) -> maps h !! b = None -> maps h' !! b = None;
  grows_datas : dom (datas h') = dom (datas h)
}.

#[local] Instance grows_preorder : PreOrder grows.
Proof.
  split; [done|]. intros h1 h2 h3 [H1 H2 H3] [H4 H5 H6]. split; [set_solver| |congruence].
  intros b Hb Hn. apply H5; [by apply H1|by apply H2].
Qed.

Lemma upd_map_grows p f h h' : upd_map p f h = Ok h' -> grows h h'.
Proof.
  unfold upd_map. intros (n & Hn & H)%obind_Ok_inv. destruct p as [a|]; [|done]. injection H as <-.
  unfold ld_map in Hn. destruct (maps h !! a) eqn:E; [|done].
  split; [done| |done]. intros b _ Hb. simpl. rewrite lookup_insert_ne; congruence.
Qed.

Lemma upd_data_grows p f h h' : upd_data p f h = Ok h' -> grows h h'.
Proof.
  unfold upd_data. intros (n & Hn & H)%obind_Ok_inv. destruct p as [a|]; [|done]. injection H as <-.
  unfold ld_data in Hn. destruct (datas h !! a) eqn:E; [|done].
  split; [done|done|]. simpl. rewrite dom_insert_L. apply elem_of_dom_2 in E. set_solver.
Qed.

Lemma alloc_map_grows h p h' : alloc_map h = (p, h') -> grows h h'.
Proof.
  unfold alloc_map. destruct (mm_calloc (h_mm h) sizeof_map_node) as [[a|] m] eqn:E; intros [= <- <-].
  - apply calloc_Some in E as [Hn Hl]. split; simpl; [set_solver| |done].
    intros b Hb Hm. rewrite lookup_insert_ne; [done|]. by intros <-.
  - apply calloc_None in E. split; simpl; [set_solver|done|done].
Qed.

(** Takes a successful run apart into its store updates and chains them. *)
Ltac grow :=
  repeat match goal with
  | H : obind _ _ = Ok _ |- _ => apply obind_Ok_inv in H as (? & ? & H)
  | H : upd_map _ _ _ = Ok _ |- _ => apply upd_map_grows in H
  | H : upd_data _ _ _ = Ok _ |- _ => apply upd_data_grows in H
  | H : Ok _ = Ok _ |- _ => injection H as H; subst
  | H : (match ?x with Some _ => _ | None => _ end) = Ok _ |- _ => destruct x
  | H : (if ?x then _ else _) = Ok _ |- _ => destruct x
  end;
  repeat match goal with
  | H : grows ?a _ |- grows ?a _ => first [exact H | transitivity (ltac:(match type of H with grows _ ?b => exact b end)); [exact H|]; clear H]
  | |- grows ?a ?a => reflexivity
  end.

Lemma push_data_grows pM pD h h' : push_data pM pD h = Ok h' -> grows h h'.
Proof. unfold push_data. intros H. grow. Qed.

Lemma create_child_grows pM i h h' : create_child pM i h = Ok h' -> grows h h'.
Proof.
  unfold create_child. destruct (alloc_map h) as [c h1] eqn:E. apply alloc_map_grows in E.
  intros H. grow.
Qed.

Lemma create_child_mapnode_grows pM h h' : create_child_mapnode pM h = Ok h' -> grows h h'.
Proof.
  unfold create_child_mapnode. intros (n & _ & H)%obind_Ok_inv.
  assert (Hc : obind (create_child pM 0 h) (fun h => obind (create_child pM 1 h) (fun h =>
            obind (create_child pM 2 h) (create_child pM 3))) = Ok h' -> grows h h').
  { intros (h1 & H1%create_child_grows & (h2 & H2%create_child_grows & (h3 & H3%create_child_grows &
      H4%create_child_grows)%obind_Ok_inv)%obind_Ok_inv)%obind_Ok_inv.
    by rewrite H1, H2, H3. }
  destruct (ap_childs n !! 0%nat) as [[c|]|]; [by injection H as <-|by apply Hc..].
Qed.

Lemma adddatanode_grows fuel pM pD h h' : adddatanode nMapMaxLevel fuel pM pD h = Ok h' -> grows h h'.
Proof.
  revert pM h. induction fuel as [|fuel IH]; intros pM h; [done|]. cbn [adddatanode].
  intros (n & _ & (h1 & H1%upd_map_grows & H)%obind_Ok_inv)%obind_Ok_inv. rewrite H1. clear H1.
  destruct (nMapMaxLevel <=? i_level n); [by eapply push_data_grows|].
  apply obind_Ok_inv in H as (h2 & H2 & H).
  assert (grows h1 h2) as ->.
  { destruct (ap_childs n !! 0%nat) as [[c|]|]; [by injection H2 as <-|by eapply create_child_mapnode_grows..]. }
  apply obind_Ok_inv in H as (n2 & _ & (d & _ & H)%obind_Ok_inv).
  destruct (_ || _); [by injection H as <-|]. apply obind_Ok_inv in H as (c & _ & H). by eapply IH.
Qed.

(** Every level takes at most the four map nodes it creates. *)
Definition has_room (limit : Z) (n : nat) h : Prop := plenty n limit (h_mm h).

Lemma upd_map_left p f h h' limit n : upd_map p f h = Ok h' -> has_room limit n h -> has_room limit n h'.
Proof. unfold upd_map. intros (x & _ & H)%obind_Ok_inv. destruct p; [|done]. by injection H as <-. Qed.

Lemma upd_data_left p f h h' limit n : upd_data p f h = Ok h' -> has_room limit n h -> has_room limit n h'.
Proof. unfold upd_data. intros (x & _ & H)%obind_Ok_inv. destruct p; [|done]. by injection H as <-. Qed.

Ltac chain :=
  repeat match goal with
  | H : obind _ _ = Ok _ |- _ => apply obind_Ok_inv in H as (? & ? & H)
  | H : Ok _ = Ok _ |- _ => injection H as H; subst
  | H : (match ?x with Some _ => _ | None => _ end) = Ok _ |- _ => destruct x
  | H : upd_map _ _ _ = Ok ?h |- has_room _ _ ?h => apply (upd_map_left _ _ _ _ _ _ H); clear H
  | H : upd_data _ _ _ = Ok ?h |- has_room _ _ ?h => apply (upd_data_left _ _ _ _ _ _ H); clear H
  end.

Lemma push_data_left pM pD h h' limit n : push_data pM pD h = Ok h' -> has_room limit n h -> has_room limit n h'.
Proof. unfold push_data. intros H Hl. chain; done. Qed.

Lemma create_child_left pM i h h' limit n :
  sizeof_map_node <= limit -> create_child pM i h = Ok h' -> has_room limit (S n) h -> has_room limit n h'.
Proof.
  unfold create_child, has_room at 1. intros Hs H (Hc & _). destruct (Hc sizeof_map_node) as (p & m & E & Hm).
  { unfold sizeof_map_node in *. lia. }
  unfold alloc_map in H. rewrite E in H. chain. done.
Qed.

Lemma create_child_mapnode_left pM h h' limit n :
  sizeof_map_node <= limit -> create_child_mapnode pM h = Ok h' -> has_room limit (4 + n) h -> has_room limit n h'.
Proof.
  unfold create_child_mapnode. intros Hs (x & _ & H)%obind_Ok_inv Hl.
  assert (Hc : obind (create_child pM 0 h) (fun h => obind (create_child pM 1 h) (fun h =>
            obind (create_child pM 2 h) (create_child pM 3))) = Ok h' -> has_room limit n h').
  { intros (h1 & H1 & (h2 & H2 & (h3 & H3 & H4)%obind_Ok_inv)%obind_Ok_inv)%obind_Ok_inv.
    eapply create_child_left in H1; [|done|exact Hl]. eapply create_child_left in H2; [|done|exact H1].
    eapply create_child_left in H3; [|done|exact H2]. by eapply create_child_left in H4. }
  destruct (ap_childs x !! 0%nat) as [[c|]|]; [|by apply Hc..].
  injection H as <-. eapply plenty_le; [|exact Hl]. lia.
Qed.

Lemma adddatanode_left fuel pM pD h h' limit n :
  sizeof_map_node <= limit -> adddatanode nMapMaxLevel fuel pM pD h = Ok h' ->
  has_room limit (4 * fuel + n) h -> has_room limit n h'.
Proof.
  intros Hs. revert pM h. induction fuel as [|fuel IH]; intros pM h; [done|]. cbn [adddatanode].
  intros (x & _ & (h1 & H1 & H)%obind_Ok_inv)%obind_Ok_inv Hl. eapply upd_map_left in H1; [|exact Hl]. clear Hl.
  replace (4 * S fuel + n)%nat with (4 + (4 * fuel + n))%nat in H1 by lia.
  destruct (nMapMaxLevel <=? i_level x).
  { eapply push_data_left in H; [|exact H1]. eapply plenty_le; [|exact H]. lia. }
  apply obind_Ok_inv in H as (h2 & H2 & H).
  assert (Hl2 : has_room limit (4 * fuel + n) h2).
  { destruct (ap_childs x !! 0%nat) as [[c|]|]; [|by eapply create_child_mapnode_left..].
    injection H2 as <-. eapply plenty_le; [|exact H1]. lia. }
  apply obind_Ok_inv in H as (n2 & _ & (d & _ & H)%obind_Ok_inv).
  destruct (_ || _); [injection H as <-; eapply plenty_le; [|exact Hl2]; lia|].
  apply obind_Ok_inv in H as (c & _ & H). by eapply IH.
Qed.
End Grow.

(** * Searching the tree returns the items of the rectangle

    The search visits the leaves whose rectangle meets the query and prints the
    selected items of each until the limit is reached.  It is shown equal to
    printing, in order and up to the limit, the selected items among all items of
    the tree. *)
From S2P Require Import Prelude.
From S2P Require Import SharedMem.
From S2P Require Import Geo.
From S2P Require Import QuadTree.
From S2P Require Import QuadTreeSpec.

Section Query.
Context {M : MM}.
Variable nMapMaxLevel : Z.
Abbreviation rep := (rep nMapMaxLevel).
Variables (iStatus iType iMaxCount : Z).
Implicit Types (h : heap) (ex : nla_ex_param) (l : list nla_data_item).

(** The items at a list of addresses. *)
Definition items_at h (ds : list addr) : list nla_data_item :=
  omap (fun d => data <$> (datas h !! d)) ds.

Definition select (pRC : nla_rect) l : list nla_data_item :=
  filter (fun d => selected pRC iStatus iType d = true) l.

(** Printing a list of items until the limit. *)
Fixpoint emits l ex : out nla_ex_param :=
  match l with
  | [] => Ok ex
  | d :: l' =>
      if ex_count ex <? iMaxCount then let! ex := emit d ex in emits l' ex else Ok ex
  end.

Lemma emits_full l ex : iMaxCount <= ex_count ex -> emits l ex = Ok ex.
Proof. intros H. destruct l; [done|]. simpl. destruct (Z.ltb_spec (ex_count ex) iMaxCount); [lia|done]. Qed.

Lemma emits_app l1 l2 ex : emits (l1 ++ l2) ex = obind (emits l1 ex) (emits l2).
Proof.
  revert ex. induction l1 as [|d l1 IH]; intros ex; [done|]. simpl.
  destruct (Z.ltb_spec (ex_count ex) iMaxCount).
  - rewrite obind_assoc. destruct (emit d ex); simpl; auto.
  - simpl. by rewrite emits_full.
Qed.

Lemma walk_spec fuel h a r prv pRC ds ex :
  dll h a r prv ds -> (length ds < fuel)%nat ->
  walk iStatus iType iMaxCount fuel h pRC (head ds) ex = emits (select pRC (items_at h ds)) ex.
Proof.
  revert prv ds ex. induction fuel as [|fuel IH]; intros prv ds ex Hl Hf; [lia|].
  cbn [walk]. destruct ds as [|d ds].
  { simpl. by rewrite andb_false_r. }
  destruct Hl as [(i & Hd & Hi) Hl]. change (head (d :: ds)) with (Some d). rewrite (bool_decide_eq_true_2 (is_Some _)) by done.
  rewrite andb_true_r. destruct (Z.ltb_spec (ex_count ex) iMaxCount) as [Hlt|Hge].
  2: { by rewrite emits_full. }
  rewrite (ld_data_Some _ _ _ Hd), obind_Ok. cbn [data next]. simpl in Hf.
  unfold items_at, select. simpl. rewrite Hd. simpl. rewrite filter_cons.
  destruct (selected pRC iStatus iType i) eqn:Hs.
  - rewrite decide_True by done. cbn [emits]. destruct (Z.ltb_spec (ex_count ex) iMaxCount); [|lia].
    destruct (emit i ex) as [ex'| |]; [|done|done]. rewrite !obind_Ok. apply (IH (Some d)); [done|lia].
  - rewrite decide_False by done. rewrite obind_Ok. apply (IH (Some d)); [done|lia].
Qed.

(** All items of a tree lie in its rectangle. *)
Lemma dll_in h a r prv ds i : dll h a r prv ds -> i ∈ items_at h ds -> fn_b_IsLocInRC r (loc i) = true.
Proof.
  revert prv. induction ds as [|d ds IH]; intros prv; [by intros _ ?%not_elem_of_nil|].
  intros [(j & Hd & Hj) Hl]. unfold items_at. simpl. rewrite Hd. simpl.
  intros [->|?]%elem_of_cons; [done|by apply (IH (Some d))].
Qed.

Lemma items_at_concat h (cs : list qt) :
  items_at h (concat (data_addrs <$> cs)) = concat ((fun c => items_at h (data_addrs c)) <$> cs).
Proof.
  induction cs as [|c cs IH]; [done|].
  change (concat (data_addrs <$> c :: cs)) with (data_addrs c ++ concat (data_addrs <$> cs)).
  unfold items_at in *. rewrite omap_app, IH. done.
Qed.

Lemma rep_in h lvl r par x t i :
  valid_rc r -> rep h lvl r par x t -> i ∈ items_at h (data_addrs t) -> fn_b_IsLocInRC r (loc i) = true.
Proof.
  intros Hv H. revert Hv. induction H as [lvl r par x a ds Hl Ha Hdl|lvl r par x a cs Hl Ha Hcs Hc IH];
    intros Hv; simpl.
  - by eapply dll_in.
  - rewrite items_at_concat. intros Hi.
    apply elem_of_concat_fmap_inv in Hi as (j & c & Hj & Hi).
    eapply child_rc_in; [done|]. apply (IH j c Hj); [by apply child_rc_valid|done].
Qed.

(** Narrowing the query to the rectangle of a child changes nothing for the
    items of that child. *)
Lemma select_narrow r pRC new_rc l :
  (forall i, i ∈ l -> fn_b_IsLocInRC r (loc i) = true) ->
  fn_b_IntersectRc r pRC = Some new_rc -> select new_rc l = select pRC l.
Proof.
  intros Hin Hint. induction l as [|i l IH]; [done|].
  unfold select in *. rewrite !filter_cons.
  assert (selected new_rc iStatus iType i = selected pRC iStatus iType i) as ->.
  { unfold selected. rewrite (intersect_Some _ _ _ (loc i) Hint).
    rewrite (Hin i) by apply list_elem_of_here. done. }
  assert (IH' : forall j, j ∈ l -> fn_b_IsLocInRC r (loc j) = true)
    by (intros j Hj; apply Hin; by apply list_elem_of_further).
  destruct (decide _); by rewrite IH.
Qed.

Lemma select_disjoint r pRC l :
  (forall i, i ∈ l -> fn_b_IsLocInRC r (loc i) = true) ->
  fn_b_IntersectRc r pRC = None -> select pRC l = [].
Proof.
  intros Hin Hint. induction l as [|i l IH]; [done|].
  unfold select in *. rewrite filter_cons.
  assert (selected pRC iStatus iType i = false) as ->.
  { unfold selected. pose proof (intersect_None _ _ (loc i) Hint) as H.
    rewrite (Hin i) in H by apply list_elem_of_here. simpl in H. rewrite H. apply andb_false_r. }
  rewrite decide_False by done. apply IH. intros j Hj. apply Hin. by apply list_elem_of_further.
Qed.

(** *** The search *)

Lemma get_around_data_spec fuel wf h lvl r par x t pRC ex :
  rep h lvl r par x t -> valid_rc r -> 0 <= x ->
  (Z.to_nat (nMapMaxLevel - lvl) < fuel)%nat -> (length (data_addrs t) < wf)%nat ->
  get_around_data nMapMaxLevel iStatus iType iMaxCount fuel wf h pRC (Some (root t)) ex =
  emits (select pRC (items_at h (data_addrs t))) ex.
Proof.
  revert lvl r par x t pRC ex. induction fuel as [|fuel IH];
    intros lvl r par x t pRC ex Hrep Hv Hx Hfuel Hwf; [lia|].
  destruct (rep_root _ _ _ _ _ _ _ Hrep) as (n & Hn & Hrc & Hlv & _ & Hcnt).
  cbn [get_around_data]. rewrite (ld_map_Some _ _ _ Hn), obind_Ok, Hlv, Hcnt.
  destruct (Z.leb_spec (size t + x) 0) as [Hz|Hz].
  { assert (data_addrs t = []) as ->; [|done].
    apply nil_length_inv. unfold size in Hz. lia. }
  destruct t as [a ds|a cs].
  - apply rep_leaf_inv in Hrep as (Ha & Hle & Hdl). cbn [root] in Hn. rewrite Ha in Hn. injection Hn as <-.
    destruct (Z.leb_spec nMapMaxLevel lvl); [|lia]. by eapply walk_spec.
  - apply rep_node_inv in Hrep as (Ha & Hlt & Hcs & Hc). cbn [root] in Hn. rewrite Ha in Hn. injection Hn as <-.
    destruct (Z.leb_spec nMapMaxLevel lvl); [lia|]. cbn [ap_childs].
    destruct Hcs as [->|Hlen]; [done|].
    destruct cs as [|c0 [|c1 [|c2 [|c3 [|]]]]]; try discriminate Hlen. clear Hlen.
    set (cs := [c0; c1; c2; c3]) in *.
    set (n := mk_mnode _ _ _ _ _ _).
    assert (Hvisit : forall i c ex', cs !! i = Some c ->
      obind (child n (Z.of_nat i)) (fun p => obind (ld_map h p) (fun cn =>
        match fn_b_IntersectRc (QuadTree.rc cn) pRC with
        | Some new_rc => get_around_data nMapMaxLevel iStatus iType iMaxCount fuel wf h new_rc p ex'
        | None => Ok ex'
        end)) = emits (select pRC (items_at h (data_addrs c))) ex').
    { intros i c ex' Hi. unfold child, n. cbn [ap_childs]. rewrite Nat2Z.id, (kids_lookup _ _ _ Hi), obind_Ok.
      specialize (Hc i c Hi). destruct (rep_root _ _ _ _ _ _ _ Hc) as (cn & Hcn & Hcrc & _).
      rewrite (ld_map_Some _ _ _ Hcn), obind_Ok, Hcrc.
      pose proof (child_rc_valid r i Hv) as Hvi.
      assert (Hin : forall j, j ∈ items_at h (data_addrs c) -> fn_b_IsLocInRC (child_rc r i) (loc j) = true)
        by (intros j; by eapply rep_in).
      assert (Hlen : (length (data_addrs c) <= length (data_addrs (QNode a cs)))%nat).
      { apply list_elem_of_split_length in Hi as (l1 & l2 & -> & _). simpl.
        rewrite fmap_app, concat_app, length_app. simpl. rewrite length_app. lia. }
      destruct (fn_b_IntersectRc (child_rc r i) pRC) as [new_rc|] eqn:Hint.
      - rewrite (IH (lvl + 1) (child_rc r i) (Some a) 0 c); try done; try lia.
        by rewrite (select_narrow _ _ _ _ Hin Hint).
      - by rewrite (select_disjoint _ _ _ Hin Hint). }
    change (kids cs !! 0%nat) with (Some (Some (root c0))). cbn iota.
    rewrite (Hvisit 0%nat c0) by done.
    change (data_addrs (QNode a cs)) with (concat (data_addrs <$> cs)). rewrite items_at_concat.
    unfold select, cs. cbn [fmap list_fmap concat]. rewrite !filter_app, app_nil_r, emits_app.
    destruct (emits (filter _ (items_at h (data_addrs c0))) ex) as [ex0| |]; [|done|done]. rewrite !obind_Ok.
    rewrite (Hvisit 1%nat c1), emits_app by done. unfold select.
    destruct (emits (filter _ (items_at h (data_addrs c1))) ex0) as [ex1| |]; [|done|done]. rewrite !obind_Ok.
    rewrite (Hvisit 2%nat c2), emits_app by done. unfold select.
    destruct (emits (filter _ (items_at h (data_addrs c2))) ex1) as [ex2| |]; [|done|done]. rewrite !obind_Ok.
    by rewrite (Hvisit 3%nat c3).
Qed.

(** *** The output buffer *)

Definition room_for ex (k : nat) : Prop :=
  blen (ex_json ex) + 157 * Z.of_nat k + 1 <= ex_size ex.

(** What printing [l] appends to the output. *)
Definition rows l : bytes := concat ((fun d => item_json d ++ bs ",") <$> l).

Lemma emit_Ok d ex k :
  printable d -> room_for ex (S k) ->
  emit d ex = Ok (mk_ex (ex_count ex + 1) (ex_json ex ++ item_json d ++ bs ",") (ex_size ex)).
Proof.
  unfold room_for. intros Hd Hroom. pose proof (item_json_length d Hd). unfold emit.
  rewrite format_item_Ok by (try done; lia). rewrite obind_Ok.
  unfold poke. rewrite !blen_app. change (blen (bs ",")) with 1.
  destruct (Z.ltb_spec (blen (ex_json ex) + blen (item_json d)) (ex_size ex)); [|lia].
  destruct (Z.ltb_spec (blen (ex_json ex) + blen (item_json d) + 1) (ex_size ex)); [|lia].
  rewrite !obind_Ok. by rewrite app_assoc.
Qed.

(** Printing never leaves a buffer with 157 bytes per item that may still be
    printed, and prints exactly the first items up to the limit. *)
Lemma emits_Ok l ex :
  Forall printable l -> ex_count ex <= iMaxCount -> room_for ex (Z.to_nat (iMaxCount - ex_count ex)) ->
  let l' := take (Z.to_nat (iMaxCount - ex_count ex)) l in
  emits l ex = Ok (mk_ex (ex_count ex + Z.of_nat (length l')) (ex_json ex ++ rows l') (ex_size ex)).
Proof.
  intros Hl. revert ex. induction Hl as [|d l Hd Hl IH]; intros ex Hc Hroom l'.
  { unfold l'. rewrite take_nil. simpl. destruct ex. simpl. by rewrite Z.add_0_r, app_nil_r. }
  cbn [emits]. destruct (Z.ltb_spec (ex_count ex) iMaxCount) as [Hlt|Hge].
  2: { unfold l'. replace (Z.to_nat (iMaxCount - ex_count ex)) with 0%nat by lia. simpl.
       destruct ex. simpl. by rewrite Z.add_0_r, app_nil_r. }
  set (k := Z.to_nat (iMaxCount - (ex_count ex + 1))).
  assert (Hk : Z.to_nat (iMaxCount - ex_count ex) = S k) by lia.
  unfold l'. rewrite Hk in *. rewrite (emit_Ok d ex k) by done. rewrite obind_Ok.
  rewrite IH; cbn [ex_count ex_json ex_size].
  - fold k. cbn [take length]. unfold rows. cbn [fmap list_fmap concat].
    rewrite Nat2Z.inj_succ, <- !app_assoc. do 2 f_equal. lia.
  - lia.
  - fold k. unfold room_for in *. cbn [ex_json ex_size]. rewrite !blen_app. change (blen (bs ",")) with 1.
    pose proof (item_json_length d Hd). lia.
Qed.
End Query.
