(* ===== verification/GeoProps.v ===== *)
(** * What the geometry promises

    The quadrants of a rectangle partition it, intersection is intersection of
    point sets, degrees print and parse back, items fit their row of the output
    buffer, and the search rectangle stays on the map. *)
From Stdlib Require Import SpecFloat.
From S2P Require Import Prelude.
From S2P Require Import NgxString.
From S2P Require Import Geo.
From S2P Require Import SharedMem.
From S2P Require Import QuadTree.
From S2P Require Import QuadTreeSpec.

(** ** Lemmas *)

Lemma child_idx_iff r l i :
  valid_rc r -> (i < 4)%nat ->
  fn_b_IsLocInRC (child_rc r i) l = true <-> fn_i_GetChildRcIdx r l = Z.of_nat i.
Proof.
  intros Hv Hi. destruct (fn_b_IsLocInRC r l) eqn:Hin.
  - destruct (child_idx_in r l Hin) as (j & Hj & Hidx & Hinj). rewrite Hidx. split.
    + intros Hini. destruct (decide (i = j)) as [->|Hne]; [done|].
      by rewrite (child_rc_disjoint r i j l Hi Hj Hne Hini) in Hinj.
    + intros E. by assert (i = j) as -> by lia.
  - rewrite (child_idx_out _ _ Hin). split; [|lia]. intros Hini.
    by rewrite (child_rc_in _ _ _ Hv Hini) in Hin.
Qed.

Lemma intersect_nonempty rc1 rc2 rc :
  (exists l, fn_b_IsLocInRC rc1 l = true) -> (exists l, fn_b_IsLocInRC rc2 l = true) ->
  fn_b_IntersectRc rc1 rc2 = Some rc -> fn_b_IsLocInRC rc (lt rc) = true.
Proof.
  intros [l1 H1%in_rc_iff] [l2 H2%in_rc_iff]. unfold fn_b_IntersectRc. destruct (_ || _) eqn:E; [done|].
  rewrite !orb_false_iff, !Z.leb_gt in E. intros [= <-]. apply in_rc_iff. simpl. lia.
Qed.

Lemma deg_text_minus deg : INT_MIN <= deg < 0 -> 45 ∈ deg_text deg.
Proof.
  intros H. unfold deg_text, NLA_DEG_FIXPOINT_BASE. rewrite !elem_of_app.
  destruct (Z.ltb_spec (Z.quot deg 1000000) 0) as [Hq|Hq].
  - left. unfold fmt_d. destruct (Z.ltb_spec (Z.quot deg 1000000) 0); [|lia]. apply list_elem_of_here.
  - right. right. unfold fmt_0d.
    assert (Z.rem deg 1000000 < 0) by (Z.to_euclidean_division_equations; lia).
    destruct (Z.ltb_spec (Z.rem deg 1000000) 0); [|lia]. apply list_elem_of_here.
Qed.

(** ** The promises *)

(** The four quadrants of a map rectangle partition it: a location lies in
    quadrant [i] exactly when [fn_i_GetChildRcIdx] answers [i], and it answers -1
    exactly outside the rectangle, so every location of the rectangle belongs to
    one and only one child. *)
Theorem quadrants_partition r l :
  valid_rc r ->
  (forall i, (i < 4)%nat ->
     fn_b_IsLocInRC (child_rc r i) l = true <-> fn_i_GetChildRcIdx r l = Z.of_nat i) /\
  (fn_i_GetChildRcIdx r l = -1 <-> fn_b_IsLocInRC r l = false).
Proof.
  intros Hv. split; [intros i; by apply child_idx_iff|]. split; [|apply child_idx_out].
  intros H. destruct (fn_b_IsLocInRC r l) eqn:Hin; [|done].
  destruct (child_idx_in r l Hin) as (j & _ & Hidx & _). lia.
Qed.

(** [fn_b_IntersectRc] computes the intersection of two rectangles as sets of
    locations: the new rectangle holds exactly the locations of both and is not
    empty when they are not, and FALSE means that no location is in both. *)
Theorem intersection_exact rc1 rc2 :
  match fn_b_IntersectRc rc1 rc2 with
  | Some rc =>
      (forall l, fn_b_IsLocInRC rc l = fn_b_IsLocInRC rc1 l && fn_b_IsLocInRC rc2 l) /\
      ((exists l, fn_b_IsLocInRC rc1 l = true) -> (exists l, fn_b_IsLocInRC rc2 l = true) ->
       fn_b_IsLocInRC rc (lt rc) = true)
  | None => forall l, fn_b_IsLocInRC rc1 l && fn_b_IsLocInRC rc2 l = false
  end.
Proof.
  destruct (fn_b_IntersectRc rc1 rc2) as [rc|] eqn:E.
  - split; [intros l; by apply intersect_Some|]. intros H1 H2. exact (intersect_nonempty _ _ _ H1 H2 E).
  - intros l. by apply intersect_None.
Qed.

(** Every non-negative fixed-point degree prints into its 12-byte buffer as a
    text that [ngx_atofp] with six decimals parses back to the same degree. *)
Theorem degree_roundtrip deg :
  0 <= deg <= INT_MAX ->
  exists text, fn_v_FormatDeg deg NLA_DEG_MAX_BUF_LEN = Ok text /\
               Number.ngx_atofp text NLA_DEG_FIXPOINT = deg.
Proof.
  intros H. exists (deg_text deg). pose proof (deg_text_length deg H). split.
  - apply sprintf_into_Ok. unfold NLA_DEG_MAX_BUF_LEN. lia.
  - by apply atofp_deg_text.
Qed.

(** No negative degree survives the trip: whatever its text, [ngx_atofp]
    answers NGX_ERROR, which the handlers store as the location -0.000001. *)
Theorem negative_degree_lost deg :
  INT_MIN <= deg < 0 -> Number.ngx_atofp (deg_text deg) NLA_DEG_FIXPOINT = NGX_ERROR.
Proof.
  intros H. unfold Number.ngx_atofp. rewrite Number.fp_loop_error; [by destruct (_ =? _)%nat|].
  intros Hall. rewrite Forall_forall in Hall. specialize (Hall 45 (deg_text_minus deg H)).
  unfold is_digit in Hall. lia.
Qed.

(** A western longitude or southern latitude of at least 100 degrees with six
    decimals overruns the 12-byte buffer of [fn_v_FormatDataItem] although it is
    a valid longitude: the sign is printed twice. *)
Theorem negative_degree_overflow d k :
  100 <= d <= 179 -> 100000 <= k < 1000000 ->
  NLA_MIN_LON <= - (d * 1000000 + k) /\
  fn_v_FormatDeg (- (d * 1000000 + k)) NLA_DEG_MAX_BUF_LEN = Undef OutOfBounds.
Proof.
  intros Hd Hk. unfold NLA_MIN_LON. split; [lia|].
  unfold fn_v_FormatDeg, sprintf_into, deg_text, NLA_DEG_FIXPOINT_BASE.
  replace (Z.quot (- (d * 1000000 + k)) 1000000) with (- d) by (Z.to_euclidean_division_equations; lia).
  replace (Z.rem (- (d * 1000000 + k)) 1000000) with (- k) by (Z.to_euclidean_division_equations; lia).
  unfold fmt_d, fmt_0d. destruct (Z.ltb_spec (- d) 0); [|lia]. destruct (Z.ltb_spec (- k) 0); [|lia].
  rewrite !Z.opp_involutive.
  pose proof (digits_length_ge d 2 ltac:(lia) ltac:(simpl; lia)). pose proof (digits_length_ge k 5 ltac:(lia) ltac:(simpl; lia)).
  destruct (Z.leb_spec (blen ((45 :: digits d) ++ bs "." ++ 45 :: zpad (6 - 1) (digits k)) + 1)
              NLA_DEG_MAX_BUF_LEN) as [Hl|]; [|done].
  exfalso. unfold blen, NLA_DEG_MAX_BUF_LEN, zpad in Hl. rewrite !length_app in Hl. cbn [length] in Hl.
  rewrite !length_app in Hl. change (length (bs ".")) with 1%nat in Hl. lia.
Qed.

(** The JSON text of a storable item with non-negative coordinates is printed
    whole and takes less than 157 of the 200 bytes reserved for it, and its two
    coordinate buffers are never overrun. *)
Theorem data_item_fits d :
  printable d ->
  fn_v_FormatDataItem d NLA_DATA_JSON_LEN = Ok (item_json d) /\ blen (item_json d) + 1 <= 157.
Proof.
  intros H. split; [by apply format_item_Ok|]. pose proof (item_json_length d H). lia.
Qed.

(** The search rectangle of a point of the map and a radius of non-negative
    sign never leaves the map, whatever [cos] computes, and its latitudes are
    those of the point plus and minus one common offset, cut at the poles. *)
Theorem search_rect_on_map cos pLoc dRadius rc :
  NLA_MIN_LAT <= lat pLoc <= NLA_MAX_LAT -> Dbl.positive_sign dRadius ->
  (forall z, Dbl.to_int (Dbl.mul (Dbl.of_int NLA_LAT_DIST_FACTOR) dRadius) = Ok z -> z <= 2000000000) ->
  fn_v_GetRectFromLocRadius cos pLoc dRadius = Ok rc ->
  (exists off, 0 <= off /\ lat (lt rc) = Z.max NLA_MIN_LAT (lat pLoc - off) /\
               lat (rb rc) = Z.min NLA_MAX_LAT (lat pLoc + off)) /\
  NLA_MIN_LON <= lon (lt rc) <= NLA_MAX_LON /\ NLA_MIN_LON <= lon (rb rc) <= NLA_MAX_LON.
Proof.
  intros Hl Hr Hmax H. split; [by eapply search_rect_lat|].
  apply (search_rect_inside cos pLoc dRadius rc) in H. tauto.
Qed.

(** [cos(3)] and 1 as doubles. *)
Definition cos_3 : Dbl.double := S754_finite true 8917059677578706 (-53).
Definition one_km : Dbl.double := S754_finite false 4503599627370496 (-52).

(** [cos] is given the latitude in degrees.  For a point at latitude 3 the
    library therefore answers [cos(3 rad)], which is negative, and the search
    rectangle of one kilometre around longitude 90 spans 270 degrees of longitude,
    from 90 West to the eastern edge of the map. *)
Theorem search_rect_cos_degrees (cos : Dbl.double -> Dbl.double) :
  cos (Dbl.div (Dbl.of_int 3000000) Dbl.NLA_DEG_FIXPOINT_BASE_FLOAT) = cos_3 ->
  exists rc, fn_v_GetRectFromLocRadius cos (mk_loc 3000000 90000000) one_km = Ok rc /\
    lat (lt rc) = 3000000 - 8993 /\ lat (rb rc) = 3000000 + 8993 /\
    lon (lt rc) <= - 89999999 /\ lon (rb rc) = NLA_MAX_LON.
Proof.
  intros Hc. unfold fn_v_GetRectFromLocRadius. cbn [lat lon]. rewrite Hc.
  eexists. split; [vm_compute; reflexivity|]. vm_compute. repeat split; discriminate.
Qed.

(** ** Witnesses *)

Lemma quadrants_partition_witness :
  (forall i, (i < 4)%nat ->
     fn_b_IsLocInRC (child_rc fn_v_InitRootRect i) (mk_loc 39904989 116405285) = true <->
     fn_i_GetChildRcIdx fn_v_InitRootRect (mk_loc 39904989 116405285) = Z.of_nat i) /\
  (fn_i_GetChildRcIdx fn_v_InitRootRect (mk_loc 39904989 116405285) = -1 <->
   fn_b_IsLocInRC fn_v_InitRootRect (mk_loc 39904989 116405285) = false).
Proof. apply quadrants_partition. apply valid_root. Defined.

Lemma degree_roundtrip_witness :
  exists text, fn_v_FormatDeg 116405285 NLA_DEG_MAX_BUF_LEN = Ok text /\
               Number.ngx_atofp text NLA_DEG_FIXPOINT = 116405285.
Proof. apply degree_roundtrip. unfold INT_MAX. lia. Defined.

Lemma negative_degree_lost_witness : Number.ngx_atofp (bs "-33.-868820") NLA_DEG_FIXPOINT = -1.
Proof. apply (negative_degree_lost (-33868820)). unfold INT_MIN. lia. Defined.

Lemma negative_degree_overflow_witness :
  NLA_MIN_LON <= - (122 * 1000000 + 419416) /\
  fn_v_FormatDeg (- (122 * 1000000 + 419416)) NLA_DEG_MAX_BUF_LEN = Undef OutOfBounds.
Proof. apply negative_degree_overflow; lia. Defined.

Definition demo_item : nla_data_item := mk_item (bs "bus-7") 1 2 (mk_loc 39904989 116405285) 1370000000.

Lemma data_item_fits_witness :
  fn_v_FormatDataItem demo_item NLA_DATA_JSON_LEN = Ok (item_json demo_item) /\
  blen (item_json demo_item) + 1 <= 157.
Proof. apply data_item_fits. vm_compute. repeat split; discriminate. Defined.

(** A [cos] that answers 1 everywhere. *)
Lemma search_rect_on_map_witness :
  exists rc,
    (exists off, 0 <= off /\ lat (lt rc) = Z.max NLA_MIN_LAT (0 - off) /\
                 lat (rb rc) = Z.min NLA_MAX_LAT (0 + off)) /\
    NLA_MIN_LON <= lon (lt rc) <= NLA_MAX_LON /\ NLA_MIN_LON <= lon (rb rc) <= NLA_MAX_LON.
Proof.
  eexists. apply (search_rect_on_map (fun _ => one_km) (mk_loc 0 90000000) one_km);
    [unfold NLA_MIN_LAT, NLA_MAX_LAT; simpl; lia|done| |vm_compute; reflexivity].
  intros z H. vm_compute in H. injection H as <-. lia.
Defined.

Lemma search_rect_cos_degrees_witness :
  exists rc, fn_v_GetRectFromLocRadius (fun _ => cos_3) (mk_loc 3000000 90000000) one_km = Ok rc /\
    lat (lt rc) = 3000000 - 8993 /\ lat (rb rc) = 3000000 + 8993 /\
    lon (lt rc) <= - 89999999 /\ lon (rb rc) = NLA_MAX_LON.
Proof. apply (search_rect_cos_degrees (fun _ => cos_3)). reflexivity. Defined.
