(* ===== verification/TreeProps.v ===== *)
(** * What the map tree promises *)
From S2P Require Import Prelude.
From S2P Require Import SharedMem.
From S2P Require Import Geo.
From S2P Require Import QuadTree.
From S2P Require Import QuadTreeSpec.
From S2P Require Import QuadTreeAdd.
From S2P Require Import QuadTreeUpd.

Section Tree.
Context {M : MM} {L : MMLaws M}.
Variable nMapMaxLevel : Z.
Implicit Types (h : heap) (t : qt).

(** C3: Adding a data node to a well-formed tree whose rectangle holds its
    location returns, within one call per level, a well-formed tree with the same
    root whose data nodes are the old ones and the new one: rectangles, levels,
    parents, item counts and both directions of every list are again consistent,
    children are created where they are missing, every item is unchanged, and no
    other node of the store is touched. *)
Theorem adddatanode_correct r t h d dn :
  tree_ok nMapMaxLevel h 0 r None 0 t -> heap_ok h -> valid_rc r ->
  datas h !! d = Some dn -> (d ∉ data_addrs t) -> fn_b_IsLocInRC r (loc (data dn)) = true ->
  0 <= nMapMaxLevel <= INT_MAX -> size t + 1 < 2 ^ 32 ->
  mm_room (4 * Z.to_nat nMapMaxLevel) sizeof_map_node (h_mm h) = true ->
  exists h' t',
    adddatanode nMapMaxLevel (S (Z.to_nat nMapMaxLevel)) (Some (root t)) (Some d) h = Ok h' /\
    tree_ok nMapMaxLevel h' 0 r None 0 t' /\ heap_ok h' /\ root t' = root t /\
    data_addrs t' ≡ₚ d :: data_addrs t /\ same_items h h' /\
    (forall b, b ∉ map_addrs t' -> maps h' !! b = maps h !! b) /\
    (forall e, e ∉ d :: data_addrs t -> datas h' !! e = datas h !! e).
Proof.
  intros Ht Hok Hv Hd Hnin Hin Hlev Hsize Hroom.
  destruct (adddatanode_spec nMapMaxLevel (S (Z.to_nat nMapMaxLevel)) 0 r None 0 t h d dn)
    as (h' & t' & Hadd & Ht' & []); try done; try lia.
  - by rewrite Z.sub_0_r.
  - exists h', t'. auto 10.
Qed.

(** C4: Searching a well-formed tree is a linear scan: the search returns, within
    one call per level and one step per item, and prints exactly what printing
    the selected items of the whole tree one after the other prints, stopping at
    the limit; skipping the children that do not meet the query and narrowing
    the query to each child lose and add nothing. *)
Theorem search_is_scan iStatus iType iMaxCount h r t pRC ex :
  tree_ok nMapMaxLevel h 0 r None 0 t -> valid_rc r -> 0 <= nMapMaxLevel ->
  get_around_data nMapMaxLevel iStatus iType iMaxCount (S (Z.to_nat nMapMaxLevel)) (S (length (data_addrs t)))
    h pRC (Some (root t)) ex =
  emits iMaxCount (select iStatus iType pRC (items_at h (data_addrs t))) ex.
Proof.
  intros (Ht & _) Hv Hlev.
  apply (get_around_data_spec nMapMaxLevel iStatus iType iMaxCount _ _ h 0 r None 0); try done; lia.
Qed.

(** Printing a list of storable items into a buffer with 157 free bytes for
    every item that may still be printed never overruns it, prints the first
    items up to the limit in order, each followed by a comma, and counts them. *)
Theorem printing_bounded iMaxCount l ex :
  Forall printable l -> ex_count ex <= iMaxCount ->
  room_for ex (Z.to_nat (iMaxCount - ex_count ex)) ->
  let l' := take (Z.to_nat (iMaxCount - ex_count ex)) l in
  emits iMaxCount l ex =
    Ok (mk_ex (ex_count ex + Z.of_nat (length l')) (ex_json ex ++ rows l') (ex_size ex)).
Proof. apply emits_Ok. Qed.

(** An item of a well-formed tree is held by the leaf that covers the cell of
    its location, and overwriting it by an item located in that cell leaves the
    tree well formed. *)
Theorem overwrite_in_cell h r t d dn :
  tree_ok nMapMaxLevel h 0 r None 0 t -> valid_rc r -> (d ∈ data_addrs t) -> datas h !! d = Some dn ->
  exists a n, p_map_node dn = Some a /\ maps h !! a = Some n /\
    QuadTree.rc n = cell (Z.to_nat nMapMaxLevel) r (loc (data dn)) /\
    forall i, fn_b_IsLocInRC (QuadTree.rc n) (loc i) = true ->
      tree_ok nMapMaxLevel (put_item h d dn i) 0 r None 0 t.
Proof.
  intros (Ht & Hm & Hnd) Hv Hd Hdn.
  destruct (rep_update nMapMaxLevel h 0 r None 0 t d dn Ht Hv Hnd Hd Hdn) as (_ & a & n & Hp & Ha & Hc & Hu).
  exists a, n. rewrite Z.sub_0_r in Hc. split; [done|]. split; [done|]. split; [done|].
  intros i Hi. split; [by apply Hu|done].
Qed.

(** Removing a data node never removes it: for every tree and every node that
    is not NULL the function returns with the store unchanged, because its first
    test also returns when the data node is there. *)
Theorem remove_datanode_does_nothing fuel pMapNode d h :
  (0 < fuel)%nat -> remove_datanode_from_map nMapMaxLevel fuel pMapNode (Some d) h = Ok h.
Proof.
  intros Hf. destruct fuel as [|fuel]; [lia|]. cbn [remove_datanode_from_map].
  rewrite (bool_decide_eq_true_2 (is_Some (Some d))) by done. by rewrite orb_true_r.
Qed.
End Tree.

(** ** Witnesses *)
#[local] Existing Instance bump_mm.
#[local] Existing Instance bump_laws.

(** A root without children and one data node that is not linked yet. *)
Definition tp_item : nla_data_item := mk_item (bs "a") 0 0 (mk_loc 39904989 116405285) 5.
Definition tp_root : nla_map_node := mk_mnode fn_v_InitRootRect no_kids None 0 None 0.
Definition tp_heap : @heap bump_mm :=
  mk_heap ({| bump_next := 3; bump_left := 20; bump_set := {[1%positive; 2%positive]} |} : @mm bump_mm)
    {[1%positive := tp_root]} {[2%positive := set_data tp_item zero_dnode]}.
Definition tp_tree : qt := QNode 1 [].

Lemma tp_ok : tree_ok 2 tp_heap 0 fn_v_InitRootRect None 0 tp_tree /\ heap_ok tp_heap.
Proof.
  split.
  - split; [|split; [apply NoDup_singleton|constructor]].
    apply rep_node; [done|reflexivity|by left|done].
  - split; unfold tp_heap; simpl maps; simpl datas; rewrite dom_singleton_L;
      intros x ->%elem_of_singleton; apply elem_of_filter; simpl; set_solver by lia.
Qed.

Lemma adddatanode_correct_witness :
  exists h' t',
    adddatanode 2 3 (Some 1%positive) (Some 2%positive) tp_heap = Ok h' /\
    tree_ok 2 h' 0 fn_v_InitRootRect None 0 t' /\ heap_ok h' /\ root t' = 1%positive /\
    data_addrs t' ≡ₚ [2%positive] /\ same_items tp_heap h' /\
    (forall b, b ∉ map_addrs t' -> maps h' !! b = maps tp_heap !! b) /\
    (forall e, e ∉ [2%positive] -> datas h' !! e = datas tp_heap !! e).
Proof.
  apply (adddatanode_correct 2 fn_v_InitRootRect tp_tree tp_heap 2%positive (set_data tp_item zero_dnode));
    [apply tp_ok|apply tp_ok|apply valid_root|reflexivity|apply not_elem_of_nil|reflexivity| | |reflexivity];
    unfold INT_MAX, size; simpl; lia.
Defined.

(** A leaf that is the whole map, with one item. *)
Definition tp_leaf : qt := QLeaf 1 [2%positive].
Definition tp_heap1 : @heap bump_mm :=
  mk_heap (bump_start 0 : @mm bump_mm)
    {[1%positive := mk_mnode fn_v_InitRootRect no_kids None 0 (Some 2%positive) 1]}
    {[2%positive := mk_dnode tp_item None None (Some 1%positive)]}.

Lemma tp_leaf_ok : tree_ok 0 tp_heap1 0 fn_v_InitRootRect None 0 tp_leaf.
Proof.
  split; [|split; apply NoDup_singleton].
  apply rep_leaf; [done|reflexivity|]. split; [|done]. exists tp_item. split; reflexivity.
Qed.

Lemma search_is_scan_witness :
  get_around_data 0 (-1) (-1) 5 1 2 tp_heap1 fn_v_InitRootRect (Some 1%positive) (mk_ex 0 (bs "[") 1000) =
  emits 5 [tp_item] (mk_ex 0 (bs "[") 1000).
Proof.
  exact (search_is_scan 0 (-1) (-1) 5 tp_heap1 fn_v_InitRootRect tp_leaf fn_v_InitRootRect (mk_ex 0 (bs "[") 1000)
           tp_leaf_ok valid_root (Z.le_refl 0)).
Defined.

Lemma printing_bounded_witness :
  emits 1 [tp_item; tp_item] (mk_ex 0 (bs "[") 200) =
  Ok (mk_ex 1 (bs "[" ++ item_json tp_item ++ bs ",") 200).
Proof.
  apply (printing_bounded 1 [tp_item; tp_item] (mk_ex 0 (bs "[") 200)).
  - repeat constructor; vm_compute; discriminate.
  - simpl. lia.
  - vm_compute. discriminate.
Defined.

Lemma overwrite_in_cell_witness :
  exists a n, Some 1%positive = Some a /\ maps tp_heap1 !! a = Some n /\
    QuadTree.rc n = cell 0 fn_v_InitRootRect (loc tp_item) /\
    forall i, fn_b_IsLocInRC (QuadTree.rc n) (loc i) = true ->
      tree_ok 0 (put_item tp_heap1 2%positive (mk_dnode tp_item None None (Some 1%positive)) i) 0
        fn_v_InitRootRect None 0 tp_leaf.
Proof.
  apply (overwrite_in_cell 0 tp_heap1 fn_v_InitRootRect tp_leaf 2%positive (mk_dnode tp_item None None (Some 1%positive)));
    [apply tp_leaf_ok|apply valid_root|apply list_elem_of_singleton; reflexivity|reflexivity].
Defined.

Lemma remove_datanode_does_nothing_witness :
  remove_datanode_from_map 0 1 (Some 1%positive) (Some 2%positive) tp_heap1 = Ok tp_heap1.
Proof. apply (remove_datanode_does_nothing 0 1). lia. Defined.
