(* ===== verification/CoreData.v ===== *)
(** * The shared data of the service

    [nla_core_data] of src/ngx_http_lookaround_map.h with its initialisation, the
    spin lock of nginx/src/core/ngx_spinlock.c as one process sees it, and the
    two operations of src/ngx_http_lookaround_handler.c on an identifier:
    [ngx_http_lookaround_getdatanode] and [ngx_http_lookaround_setdataloc]. *)
From S2P Require Import Prelude.
From S2P Require Import Geo.
From S2P Require Import SharedMem.
From S2P Require Import StrMap.
From S2P Require Import QuadTree.

(** [ngx_http_lookaround_loc_conf] *)
Record loc_conf := mk_conf { nMapMaxLevel : Z; nMaxMemBufSize : Z; nHashSize : Z }.

Record nla_core_data := mk_core {
  p_map_root : ptr;
  p_data_head : ptr;
  p_id2data_map : option (StrMap addr);
  lock : Z
}.

(** ** The spin lock

    A process tests the lock word in the outer loop or, with several processors,
    in the inner loop after [n] pauses. *)
Inductive spin_at : Type := Outer | Inner (n : Z).

#[export] Instance spin_at_eq_dec : EqDecision spin_at.
Proof. solve_decision. Defined.

(** Where the next test is made when one has failed. *)
Definition spin_next (ngx_ncpu spin : Z) (s : spin_at) : spin_at :=
  match s with
  | Outer => if (1 <? ngx_ncpu) && (1 <? spin) then Inner 1 else Outer
  | Inner n => if Z.shiftl n 1 <? spin then Inner (Z.shiftl n 1) else Outer
  end.

(** [ngx_spinlock] as one process sees it: [words] are the values of the lock
    word at its successive tests; after them it is still spinning. *)
Fixpoint spin_tests (ngx_ncpu spin : Z) (s : spin_at) (words : list Z) (value : Z) : out Z :=
  match words with
  | [] => NoFuel
  | word :: words' => if word =? 0 then Ok value else spin_tests ngx_ncpu spin (spin_next ngx_ncpu spin s) words' value
  end.

Definition ngx_spinlock (ngx_ncpu : Z) (words : list Z) (value spin : Z) : out Z :=
  spin_tests ngx_ncpu spin Outer words value.

Definition NLA_DEF_LOCK_SPIN : Z := 100.

(** A process that is alone sees the same word at each test. *)
Definition lock_alone (word value : Z) : out Z := if word =? 0 then Ok value else NoFuel.

Lemma lock_alone_spin ngx_ncpu n word value spin :
  ngx_spinlock ngx_ncpu (replicate (S n) word) value spin = lock_alone word value.
Proof.
  unfold ngx_spinlock, lock_alone. generalize Outer. revert n.
  enough (H : forall n s, word <> 0 -> spin_tests ngx_ncpu spin s (replicate n word) value = NoFuel).
  { intros n s. cbn [replicate spin_tests]. destruct (Z.eqb_spec word 0); [done|by apply H]. }
  intros n. induction n as [|n IH]; intros s Hw; [done|]. cbn [replicate spin_tests].
  destruct (Z.eqb_spec word 0); [done|by apply IH].
Qed.

Section Core.
Context {M : MM}.

(** The store and the global [g_pNLACoreData], [None] while it is NULL. *)
Record world := mk_world { w_heap : heap; w_core : option nla_core_data }.

(** The fuel of the recursions on the tree: one round per level. *)
Definition depth (conf : loc_conf) : nat := S (Z.to_nat (nMapMaxLevel conf)).

Definition fn_v_InitRootMapNode (pMapNode : ptr) (h : heap) : out heap :=
  upd_map pMapNode (set_rc fn_v_InitRootRect) h.

(** [fn_v_InitCoreData] on the zeroed block [core]. *)
Definition fn_v_InitCoreData (core : nla_core_data) (iHashSize : Z) (h : heap)
  : out (nla_core_data * heap) :=
  let '(root, h) := alloc_map h in
  let! h := fn_v_InitRootMapNode root h in
  let! (map, m) := sm_new (h_mm h) iHashSize in
  Ok (mk_core root None map (lock core), mk_heap m (maps h) (datas h)).

Definition ngx_http_lookaround_getdatanode (pcszID : bytes) (w : world) : out ptr :=
  match w_core w with
  | None => Ok None
  | Some core =>
      match p_id2data_map core with
      | None => Ok None
      | Some _ => sm_get_ptrvalue (p_id2data_map core) (Some pcszID)
      end
  end.

Definition set_lock (v : Z) (core : nla_core_data) : nla_core_data :=
  mk_core (p_map_root core) (p_data_head core) (p_id2data_map core) v.
Definition set_id_map (m : option (StrMap addr)) (core : nla_core_data) : nla_core_data :=
  mk_core (p_map_root core) (p_data_head core) m (lock core).

(** The members of [pDataNode->data] set before the node is published; [strcpy]
    needs room for the terminating NUL. *)
Definition fill_data (pcszID : bytes) (iStatus iType : Z) (pLoc : nla_2dloc) (p : ptr) (h : heap)
  : out heap :=
  let! d := ld_data h p in
  if blen pcszID + 1 <=? NLA_DATA_ID_MAX_LEN then
    upd_data p (set_data (mk_item pcszID iStatus iType pLoc (last_update_time (data d)))) h
  else Undef OutOfBounds.

Definition set_loc (l : nla_2dloc) (d : nla_data_node) : nla_data_node :=
  let i := data d in set_data (mk_item (ach_id i) (i_status i) (i_type i) l (last_update_time i)) d.
Definition set_time (t : Z) (d : nla_data_node) : nla_data_node :=
  let i := data d in set_data (mk_item (ach_id i) (i_status i) (i_type i) (loc i) t) d.

(** The branch for an identifier that is not in the map. *)
Definition set_new (pcszID : bytes) (pLoc : nla_2dloc) (iStatus iType : Z) (conf : option loc_conf)
    (w : world) : out (ptr * world) :=
  let '(p, h) := alloc_data (w_heap w) in
  let! h := fill_data pcszID iStatus iType pLoc p h in
  let! core := deref (w_core w) in
  let! word := lock_alone (lock core) 1 in
  let core := set_lock word core in
  let! (_, m, map) := sm_put_ptrvalue (h_mm h) (p_id2data_map core) (Some pcszID) p in
  let core := set_id_map map core in
  let! conf := deref conf in
  let! h := adddatanode (nMapMaxLevel conf) (depth conf) (p_map_root core) p
              (mk_heap m (maps h) (datas h)) in
  Ok (p, mk_world h (Some (set_lock 0 core))).

(** The branch for an identifier whose data node is [p]. *)
Definition set_known (p : ptr) (pLoc : nla_2dloc) (conf : option loc_conf) (w : world) : out world :=
  let h := w_heap w in
  let! d := ld_data h p in
  let pMapNode := p_map_node d in
  let! n := ld_map h pMapNode in
  if fn_b_IsLocInRC (rc n) pLoc then
    let! h := upd_data p (set_loc pLoc) h in Ok (mk_world h (w_core w))
  else
    let! core := deref (w_core w) in
    let! word := lock_alone (lock core) 1 in
    let core := set_lock word core in
    let! conf := deref conf in
    let! h := remove_datanode_from_map (nMapMaxLevel conf) (depth conf) (p_map_root core) p h in
    let! h := upd_data p (set_loc pLoc) h in
    let! h := adddatanode (nMapMaxLevel conf) (depth conf) (p_map_root core) p h in
    Ok (mk_world h (Some (set_lock 0 core))).

(** [ngx_http_lookaround_setdataloc]; [now] is what [time(NULL)] returns.  The
    source returns NULL on every path and the callers ignore it. *)
Definition ngx_http_lookaround_setdataloc (pcszID : bytes) (pLoc : nla_2dloc) (iStatus iType : Z)
    (conf : option loc_conf) (now : Z) (w : world) : out world :=
  let! p := ngx_http_lookaround_getdatanode pcszID w in
  let! (p, w) :=
    (match p with
     | None => set_new pcszID pLoc iStatus iType conf w
     | Some _ => let! w := set_known p pLoc conf w in Ok (p, w)
     end) in
  let! h := upd_data p (set_time now) (w_heap w) in
  Ok (mk_world h (w_core w)).
End Core.
