(* ===== verification/Service.v ===== *)
(** * The catalogue: what the shared data stands for

    The tree, the string map and the data nodes together represent a catalogue,
    a finite map from identifiers to items.  [svc] is that correspondence:
    every catalogued identifier is indexed by the string map, its data node hangs
    from the leaf of the tree that covers its location, and nothing else does.
    Setting a new item, refreshing an item inside its cell and looking an item up
    are shown to be the corresponding operations on the catalogue. *)
From S2P Require Import Prelude.
From S2P Require Import SharedMem.
From S2P Require Import StrMap.
From S2P Require Import StrMapProps.
From S2P Require Import Geo.
From S2P Require Import QuadTree.
From S2P Require Import QuadTreeSpec.
From S2P Require Import QuadTreeAdd.
From S2P Require Import QuadTreeUpd.
From S2P Require Import CoreData.

Abbreviation catalogue := (gmap bytes nla_data_item).

Section Service.
Context {M : MM} {L : MMLaws M}.
Implicit Types (h : heap) (w : world) (cat : catalogue) (map : StrMap addr) (ids : gmap bytes addr).

(** The arrays of the buckets are live blocks, each owned by one bucket and
    distinct from every node of the store. *)
Record owns_table (map : StrMap addr) h : Prop := {
  own_inj : forall i j b b' p, buckets map !! i = Some b -> buckets map !! j = Some b' ->
    pairs_ptr b = Some p -> pairs_ptr b' = Some p -> i = j;
  own_live : forall i b p, buckets map !! i = Some b -> pairs_ptr b = Some p ->
    p ∈ mm_live (h_mm h) /\ maps h !! p = None /\ datas h !! p = None
}.

(** Every data node of the tree is indexed under its identifier, and every
    index entry leads to a data node of the tree. *)
Definition indexed h ids (t : qt) : Prop :=
  forall k d, ids !! k = Some d <->
    d ∈ data_addrs t /\ exists dn, datas h !! d = Some dn /\ ach_id (data dn) = k.

(** The catalogue read through the index. *)
Definition holds h ids cat : Prop :=
  forall k, cat !! k = ids !! k ≫= fun d => data <$> datas h !! d.

Record svc_at (nMax : Z) (core : nla_core_data) h (map : StrMap addr) ids (t : qt) cat : Prop := {
  s_lock : lock core = 0;
  s_root : p_map_root core = Some (root t);
  s_map : p_id2data_map core = Some map;
  s_wf : wf_map map;
  s_rel : sm_rel map ids;
  s_len : buckets_le map (base.size cat);
  s_own : owns_table map h;
  s_tree : tree_ok nMax h 0 fn_v_InitRootRect None 0 t;
  s_heap : heap_ok h;
  s_index : indexed h ids t;
  s_holds : holds h ids cat;
  s_size : length (data_addrs t) = base.size cat
}.

Definition svc (nMax : Z) w cat : Prop :=
  exists core map ids t, w_core w = Some core /\ svc_at nMax core (w_heap w) map ids t cat.

(** ** Reading *)

Lemma rep_datas_Some nMax h lvl r par x t d :
  rep nMax h lvl r par x t -> d ∈ data_addrs t -> is_Some (datas h !! d).
Proof.
  induction 1 as [lvl r par x a ds Hl Ha Hdl|lvl r par x a cs Hl Ha Hcs Hc IH]; simpl.
  - clear Hl Ha. revert Hdl. generalize (None : ptr). induction ds as [|e ds IH]; intros prv Hdl;
      [by intros ?%not_elem_of_nil|].
    destruct Hdl as [(i & He & _) Hdl]. intros [->|Hd]%elem_of_cons; [eauto|by eapply IH].
  - intros Hd. apply elem_of_concat_fmap_inv in Hd as (i & c & Hi & Hd). by apply (IH i c).
Qed.

Lemma getdatanode_spec nMax w core map ids t cat k :
  w_core w = Some core -> svc_at nMax core (w_heap w) map ids t cat ->
  ngx_http_lookaround_getdatanode k w = Ok (ids !! k).
Proof.
  intros Hc Sv. unfold ngx_http_lookaround_getdatanode. rewrite Hc, (s_map _ _ _ _ _ _ _ Sv).
  rewrite sm_get_ptrvalue_abs by apply (s_wf _ _ _ _ _ _ _ Sv). by rewrite (s_rel _ _ _ _ _ _ _ Sv).
Qed.

(** The node of an indexed identifier. *)
Lemma indexed_node nMax core h map ids t cat k d :
  svc_at nMax core h map ids t cat -> ids !! k = Some d ->
  d ∈ data_addrs t /\ exists dn, datas h !! d = Some dn /\ ach_id (data dn) = k /\ cat !! k = Some (data dn).
Proof.
  intros Sv Hk. destruct (proj1 (s_index _ _ _ _ _ _ _ Sv k d) Hk) as (Hd & dn & Hdn & Hid).
  split; [done|]. exists dn. split; [done|]. split; [done|].
  by rewrite (s_holds _ _ _ _ _ _ _ Sv), Hk; simpl; rewrite Hdn.
Qed.

Lemma cat_node nMax core h map ids t cat k i :
  svc_at nMax core h map ids t cat -> cat !! k = Some i ->
  exists d dn, ids !! k = Some d /\ d ∈ data_addrs t /\ datas h !! d = Some dn /\ data dn = i /\ ach_id i = k.
Proof.
  intros Sv Hk. pose proof (s_holds _ _ _ _ _ _ _ Sv k) as H. rewrite Hk in H.
  destruct (ids !! k) as [d|] eqn:E; [|done]. destruct (indexed_node _ _ _ _ _ _ _ _ _ Sv E) as (Hd & dn & Hdn & Hid & _).
  simpl in H. rewrite Hdn in H. injection H as ->. exists d, dn. done.
Qed.

Lemma cat_none nMax core h map ids t cat k :
  svc_at nMax core h map ids t cat -> cat !! k = None -> ids !! k = None.
Proof.
  intros Sv Hk. destruct (ids !! k) as [d|] eqn:E; [|done].
  destruct (indexed_node _ _ _ _ _ _ _ _ _ Sv E) as (_ & dn & _ & _ & H). congruence.
Qed.

(** The items hanging from the tree are the values of the catalogue. *)
Lemma items_catalogue nMax core h map ids t cat :
  svc_at nMax core h map ids t cat ->
  items_at h (data_addrs t) ≡ₚ (map_to_list cat).*2.
Proof.
  intros Sv. destruct (s_tree _ _ _ _ _ _ _ Sv) as (Hrep & _ & Hnd).
  assert (Hid : forall k i, cat !! k = Some i -> ach_id i = k).
  { intros k i Hk. by destruct (cat_node _ _ _ _ _ _ _ _ _ Sv Hk) as (? & ? & _ & _ & _ & _ & ?). }
  apply NoDup_Permutation.
  - assert (Hinj : forall d e dn en, d ∈ data_addrs t -> e ∈ data_addrs t -> datas h !! d = Some dn ->
              datas h !! e = Some en -> data dn = data en -> d = e).
    { intros d e dn en Hd He Hdn Hen E. pose proof (s_index _ _ _ _ _ _ _ Sv (ach_id (data dn))) as Hi.
      pose proof (proj2 (Hi d) ltac:(eauto)) as H1. pose proof (proj2 (Hi e) ltac:(rewrite E; eauto)) as H2.
      congruence. }
    assert (Hall : forall d, d ∈ data_addrs t -> is_Some (datas h !! d)) by (intros d; by eapply rep_datas_Some).
    revert Hnd Hinj Hall. clear. intros Hnd. induction Hnd as [|d ds Hd Hnd IH]; intros Hinj Hall; [constructor|].
    unfold items_at in *. simpl. destruct (Hall d ltac:(set_solver)) as [dn Hdn]. rewrite Hdn. simpl.
    apply NoDup_cons. split.
    + intros (e & He & Hx)%list_elem_of_omap. destruct (datas h !! e) as [en|] eqn:Hen; [|done].
      injection Hx as Hx. apply Hd. rewrite (Hinj d e dn en); set_solver.
    + apply IH; [intros; eapply Hinj; eauto; set_solver|set_solver].
  - apply NoDup_fmap_2_strong; [|apply NoDup_map_to_list].
    intros [k i] [k' i'] Hk%elem_of_map_to_list Hk'%elem_of_map_to_list Heq. simpl in Heq. subst i'.
    f_equal. by rewrite <- (Hid _ _ Hk), <- (Hid _ _ Hk').
  - intros i. rewrite list_elem_of_fmap. split.
    + intros (d & Hd & Hi)%list_elem_of_omap. destruct (datas h !! d) as [dn|] eqn:Hdn; [|done]. injection Hi as <-.
      exists (ach_id (data dn), data dn). split; [done|]. apply elem_of_map_to_list.
      pose proof (proj2 (s_index _ _ _ _ _ _ _ Sv (ach_id (data dn)) d) ltac:(eauto)) as Hk.
      destruct (indexed_node _ _ _ _ _ _ _ _ _ Sv Hk) as (_ & dn' & Hdn' & _ & Hc). congruence.
    + intros ([k i'] & -> & Hk%elem_of_map_to_list).
      destruct (cat_node _ _ _ _ _ _ _ _ _ Sv Hk) as (d & dn & _ & Hd & Hdn & <- & _).
      apply list_elem_of_omap. exists d. split; [done|]. by rewrite Hdn.
Qed.

(** ** The table's arrays among the blocks of the pool *)

Lemma grow_bucket_live m (b : Bucket addr) q m' :
  (forall p, pairs_ptr b = Some p -> p ∈ mm_live m) -> grow_bucket m b = (Some q, m') ->
  q ∈ mm_live m' /\ ((q ∉ mm_live m) \/ pairs_ptr b = Some q) /\
  forall x, x ∈ mm_live m -> pairs_ptr b <> Some x -> x ∈ mm_live m'.
Proof.
  intros Hp. unfold grow_bucket.
  assert (Hc : forall n, mm_calloc m n = (Some q, m') ->
    q ∈ mm_live m' /\ ((q ∉ mm_live m) \/ pairs_ptr b = Some q) /\
    forall x, x ∈ mm_live m -> pairs_ptr b <> Some x -> x ∈ mm_live m').
  { intros n [Hq Hl]%calloc_Some. rewrite Hl. set_solver. }
  destruct (pairs_ptr b) as [p|], (length (pairs b)); eauto.
  intros H. apply realloc_Some in H as [Hq Hl]; [|by apply Hp]. rewrite Hl.
  split; [set_solver|]. split.
  - destruct (decide (q = p)) as [->|]; [by right|left; set_solver].
  - intros x Hx Hne. assert (x <> p) by congruence. set_solver.
Qed.

(** Storing a new key keeps the arrays separate and every node live. *)
(** A block that no list or table knows. *)
Lemma calloc_owned map h n p m :
  owns_table map h -> heap_ok h -> mm_calloc (h_mm h) n = (Some p, m) ->
  let h' := mk_heap m (maps h) (datas h) in owns_table map h' /\ heap_ok h'.
Proof.
  intros [H1 H2] [Hm Hd] Hc h'. destruct (calloc_Some _ _ _ _ Hc) as [_ Hl]. split; [split; [done|]|].
  - intros i b x Hb Hx. destruct (H2 i b x Hb Hx) as (Hlx & ? & ?). split; [|done]. unfold h'. simpl. set_solver.
  - split; unfold h'; simpl; set_solver.
Qed.

(** The array of a bucket grows. *)
Lemma grow_owned map h k b q m2 ps :
  owns_table map h -> heap_ok h -> buckets map !! idx map k = Some b -> grow_bucket (h_mm h) b = (Some q, m2) ->
  let h' := mk_heap m2 (maps h) (datas h) in
  owns_table (set_bucket map (idx map k) (mk_bucket (Some q) ps)) h' /\ heap_ok h'.
Proof.
  intros [Hinj Hlive] [Hm Hd] Hb Hq h'. set (m1 := h_mm h) in *.
  assert (Hp1 : forall p, pairs_ptr b = Some p -> p ∈ mm_live m1).
  { intros p Hp. destruct (Hlive _ _ _ Hb Hp) as [? _]. set_solver. }
  destruct (grow_bucket_live _ _ _ _ Hp1 Hq) as (Hq2 & Hqn & Hkeep).
  assert (Hnode : forall x, is_Some (maps h !! x) \/ is_Some (datas h !! x) -> x ∈ mm_live m2).
  { intros x Hx. apply Hkeep.
    - destruct Hx as [Hx|Hx]; apply elem_of_dom in Hx; set_solver.
    - intros Hp. destruct (Hlive _ _ _ Hb Hp) as (_ & H1 & H2). rewrite H1, H2 in Hx.
      by destruct Hx as [[? ?]|[? ?]]. }
  assert (Hqfree : maps h !! q = None /\ datas h !! q = None).
  { destruct Hqn as [Hqn|Hqn]; [|by destruct (Hlive _ _ _ Hb Hqn)].
    split; apply not_elem_of_dom; set_solver. }
  assert (Hother : forall i b0 p, i <> idx map k -> buckets map !! i = Some b0 -> pairs_ptr b0 = Some p ->
            p <> q /\ p ∈ mm_live m2).
  { intros i b0 p Hi Hb0 Hp. assert (pairs_ptr b <> Some p) by (intros E; apply Hi; by eapply Hinj).
    destruct (Hlive _ _ _ Hb0 Hp) as (Hlp & _). split; [|apply Hkeep; [set_solver|done]].
    intros ->. destruct Hqn as [Hqn|]; [apply Hqn; set_solver|done]. }
  split; [split|].
  - intros i j b1 b2 p. unfold set_bucket. simpl. rewrite !list_lookup_insert.
    destruct (decide (idx map k = i /\ _)) as [[<- _]|Hi], (decide (idx map k = j /\ _)) as [[<- _]|Hj];
      intros H1 H2 E1 E2; simplify_eq/=; try done.
    + destruct (decide (j = idx map k)) as [->|Hne]; [done|]. by destruct (Hother _ _ _ Hne H2 E2).
    + destruct (decide (i = idx map k)) as [->|Hne]; [done|]. by destruct (Hother _ _ _ Hne H1 E1).
    + by eapply Hinj.
  - intros i b1 p. unfold set_bucket, h'. simpl. rewrite list_lookup_insert.
    destruct (decide (idx map k = i /\ _)) as [[<- _]|Hi]; intros H1 E1; simplify_eq/=; [done|].
    destruct (decide (i = idx map k)) as [->|Hne].
    + exfalso. apply Hi. split; [done|]. by eapply lookup_lt_Some.
    + destruct (Hlive _ _ _ H1 E1) as (_ & ? & ?). destruct (Hother _ _ _ Hne H1 E1). done.
  - split; unfold h'; simpl; intros x Hx; apply elem_of_dom in Hx; apply Hnode; auto.
Qed.

Lemma put_owned map h k b nk m1 q m2 ps :
  owns_table map h -> heap_ok h -> buckets map !! idx map k = Some b ->
  mm_calloc (h_mm h) (blen k + 1) = (Some nk, m1) -> grow_bucket m1 b = (Some q, m2) ->
  let h' := mk_heap m2 (maps h) (datas h) in
  owns_table (set_bucket map (idx map k) (mk_bucket (Some q) ps)) h' /\ heap_ok h'.
Proof.
  intros Ho Hok Hb Hnk Hq. destruct (calloc_owned map h _ _ _ Ho Hok Hnk) as [Ho1 Hok1].
  by apply (grow_owned map (mk_heap m1 (maps h) (datas h)) k b q m2 ps Ho1 Hok1 Hb).
Qed.

Lemma grows_owned map h h' : owns_table map h -> grows h h' -> owns_table map h'.
Proof.
  intros [H1 H2] [G1 G2 G3]. split; [done|]. intros i b p Hb Hp. destruct (H2 i b p Hb Hp) as (Hl & Hm & Hd).
  split; [by apply G1|]. split; [by apply G2|]. apply not_elem_of_dom. rewrite G3. by apply not_elem_of_dom.
Qed.

(** Storing a block that the pool just handed out. *)
Lemma calloc_data_owned map h d m1 n dn :
  owns_table map h -> heap_ok h -> mm_calloc (h_mm h) n = (Some d, m1) ->
  let h' := mk_heap m1 (maps h) (<[d := dn]> (datas h)) in
  owns_table map h' /\ heap_ok h' /\ maps h !! d = None /\ datas h !! d = None.
Proof.
  intros [H1 H2] Hok Hc h'. pose proof (calloc_fresh _ _ _ _ Hok Hc) as [Hfm Hfd].
  destruct (calloc_Some _ _ _ _ Hc) as [Hn Hl]. destruct Hok as [Hm Hd].
  split; [split; [done|]|split; [split|done]].
  - intros i b p Hb Hp. destruct (H2 i b p Hb Hp) as (Hlp & Hmp & Hdp). unfold h'. simpl.
    rewrite lookup_insert_ne; [|intros <-; done]. set_solver.
  - unfold h'. simpl. set_solver.
  - unfold h'. simpl. rewrite dom_insert_L. set_solver.
Qed.

(** ** Setting an item *)
Variable conf : loc_conf.
Abbreviation nMax := (nMapMaxLevel conf).
Hypothesis Hlevels : 0 <= nMax <= INT_MAX.

(** The pool serves one new item: its node, its key, the array of its bucket
    and the map nodes of one path, none larger than [limit]. *)
Definition set_room (cat : catalogue) (limit : Z) (m : mm) : Prop :=
  sizeof_data_node <= limit < 2 ^ 32 /\ sizeof_Pair * (Z.of_nat (base.size cat) + 1) <= limit /\
  plenty (3 + 4 * Z.to_nat nMax) limit m.

Lemma rep_new_data h d dn lvl r par x t m :
  rep nMax h lvl r par x t -> d ∉ data_addrs t ->
  rep nMax (mk_heap m (maps h) (<[d := dn]> (datas h))) lvl r par x t.
Proof.
  intros H Hd. eapply rep_frame; [|intros e He|exact H]; [done|].
  simpl. rewrite lookup_insert_ne; [done|]. by intros <-.
Qed.

(** The parts of [svc_at] that hold with the lock taken too: [pub] is what the
    string map answers, [ids] the index of the nodes in the tree, and [n] bounds
    the pairs of a bucket.  Between the publication of an identifier and the
    insertion in the tree, [pub] is ahead of [ids]. *)
Record shared core h map pub ids (t : qt) cat (n : nat) : Prop := {
  sh_root : p_map_root core = Some (root t);
  sh_map : p_id2data_map core = Some map;
  sh_wf : wf_map map;
  sh_rel : sm_rel map pub;
  sh_len : buckets_le map n;
  sh_own : owns_table map h;
  sh_tree : tree_ok nMax h 0 fn_v_InitRootRect None 0 t;
  sh_heap : heap_ok h;
  sh_index : indexed h ids t;
  sh_holds : holds h ids cat;
  sh_size : length (data_addrs t) = base.size cat
}.

Lemma svc_shared core h map ids t cat :
  svc_at nMax core h map ids t cat <-> lock core = 0 /\ shared core h map ids ids t cat (base.size cat).
Proof. split; [intros []; done|intros [? []]; done]. Qed.

Lemma shared_core core core' h map pub ids t cat n :
  p_map_root core' = p_map_root core -> p_id2data_map core' = p_id2data_map core ->
  shared core h map pub ids t cat n -> shared core' h map pub ids t cat n.
Proof. intros H1 H2 []. split; congruence || done. Qed.

Lemma shared_None core h map pub ids t cat n k :
  shared core h map pub ids t cat n -> cat !! k = None -> ids !! k = None.
Proof.
  intros Sh Hk. destruct (ids !! k) as [d|] eqn:E; [|done].
  destruct (proj1 (sh_index _ _ _ _ _ _ _ _ Sh k d) E) as (_ & dn & Hdn & _).
  pose proof (sh_holds _ _ _ _ _ _ _ _ Sh k) as H. rewrite Hk, E in H. simpl in H. by rewrite Hdn in H.
Qed.

(** A new data node that no tree and no index knows. *)
Lemma shared_private core h map pub ids t cat n sz d dn m :
  shared core h map pub ids t cat n -> mm_calloc (h_mm h) sz = (Some d, m) ->
  shared core (mk_heap m (maps h) (<[d := dn]> (datas h))) map pub ids t cat n /\
  (d ∉ data_addrs t) /\ datas h !! d = None.
Proof.
  intros Sh Hc. destruct (calloc_data_owned map h d m sz dn (sh_own _ _ _ _ _ _ _ _ Sh) (sh_heap _ _ _ _ _ _ _ _ Sh) Hc)
    as (Hown & Hok & _ & Hfd).
  destruct (sh_tree _ _ _ _ _ _ _ _ Sh) as (Hrep & Hm & Hnd).
  assert (Hd : d ∉ data_addrs t) by (intros Hd; destruct (rep_datas_Some _ _ _ _ _ _ _ _ Hrep Hd); congruence).
  split; [|done]. destruct Sh. split; try done.
  - split; [by apply rep_new_data|done].
  - intros k e. rewrite (sh_index0 k e). simpl. split; intros (He & Hen); (split; [done|]);
      rewrite lookup_insert_ne in *; try done; intros <-; done.
  - intros k. rewrite (sh_holds0 k). destruct (ids !! k) as [e|] eqn:E; [|done]. simpl.
    rewrite lookup_insert_ne; [done|]. intros <-. by apply sh_index0 in E as [? _].
Qed.

(** A block for a key. *)
Lemma shared_calloc core h map pub ids t cat n sz p m :
  shared core h map pub ids t cat n -> mm_calloc (h_mm h) sz = (Some p, m) ->
  shared core (mk_heap m (maps h) (datas h)) map pub ids t cat n.
Proof.
  intros Sh Hc. destruct (calloc_owned map h _ _ _ (sh_own _ _ _ _ _ _ _ _ Sh) (sh_heap _ _ _ _ _ _ _ _ Sh) Hc) as [Ho Hok].
  destruct Sh. split; try done. destruct sh_tree0 as [Hrep Hnd]. split; [|done]. by eapply rep_frame; [| |exact Hrep].
Qed.

(** A new identifier is in its bucket not yet. *)
Lemma shared_bucket core h map pub ids t cat n k :
  shared core h map pub ids t cat n -> pub !! k = None ->
  exists b, buckets map !! idx map k = Some b /\ wf_bucket b /\ (length (pairs b) <= n)%nat /\ find_pair map k = Ok (idx map k, b, None) /\
    index map k = Ok (idx map k) /\ forall j p, pairs b !! j = Some p -> pair_matches k p = false.
Proof.
  intros Sh Hids. destruct (find_pair_wf map k (sh_wf _ _ _ _ _ _ _ _ Sh)) as (b & Hb & Hwb & Hf & Habs).
  pose proof (sh_rel _ _ _ _ _ _ _ _ Sh k) as Hr. rewrite Hids, Habs in Hr.
  assert (Hn : forall ps : list (Pair addr), bget ps k = None -> forall j p, ps !! j = Some p -> pair_matches k p = false).
  { clear. induction ps as [|q ps IH]; intros Hg j p Hj; [done|]. simpl in Hg. destruct (pair_matches k q) eqn:E.
    - rewrite pair_matches_live, bool_decide_eq_true in E. apply live_key_value in E as [v Hv]. congruence.
    - destruct j as [|j]; [by injection Hj as <-|]. by apply (IH Hg j). }
  assert (Hj : get_pair b k = None).
  { pose proof (get_pair_loop_spec 0 (pairs b) k) as Hs. unfold get_pair.
    destruct (get_pair_loop 0 (pairs b) k) as [i|]; [|done]. destruct Hs as (i' & p & _ & Hp & Hlive & _).
    specialize (Hn _ Hr _ _ Hp). by rewrite pair_matches_live, Hlive, bool_decide_eq_true_2 in Hn. }
  pose proof (sh_len _ _ _ _ _ _ _ _ Sh) as Hlen. unfold buckets_le in Hlen. rewrite Forall_lookup in Hlen.
  exists b. split; [done|]. split; [done|]. split; [by apply (Hlen _ _ Hb)|]. rewrite Hj in Hf. split; [done|]. split; [|by apply Hn].
  unfold find_pair in Hf. apply obind_Ok_inv in Hf as (i & Hi & (b' & _ & [= <- _])%obind_Ok_inv). exact Hi.
Qed.

(** The array of its bucket grows for a new identifier. *)
Lemma shared_grow core h map ids t cat n k d limit j nk b :
  shared core h map ids ids t cat n -> cat !! k = None -> buckets map !! idx map k = Some b ->
  plenty (S j) limit (h_mm h) -> sizeof_Pair * (Z.of_nat n + 1) <= limit -> limit < 2 ^ 32 ->
  exists m q, grow_bucket (h_mm h) b = (Some q, m) /\ plenty j limit m /\
    let map' := set_bucket map (idx map k) (mk_bucket (Some q) (pairs b ++ [mk_pair (Some (nk, k)) (Some d)])) in
    shared (set_id_map (Some map') core) (mk_heap m (maps h) (datas h)) map' (<[k := d]> ids) ids t cat (S n).
Proof.
  intros Sh Hk Hb (Hc & Hre & _) Hln Hlim. pose proof (shared_None _ _ _ _ _ _ _ _ _ Sh Hk) as Hids.
  destruct (shared_bucket _ _ _ _ _ _ _ _ k Sh Hids) as (b' & Hb' & Hwb & Hlen & Hf & _). rewrite Hb in Hb'. injection Hb' as <-.
  assert (Hj : get_pair b k = None) by (unfold find_pair in Hf; apply obind_Ok_inv in Hf as (i & _ & (b' & Hbi & [= -> -> ?])%obind_Ok_inv); done).
  assert (Hg : exists q m, grow_bucket (h_mm h) b = (Some q, m) /\ plenty j limit m).
  { unfold grow_bucket, sizeof_Pair in *. destruct (pairs_ptr b) as [p|], (length (pairs b)) as [|len] eqn:El; try (apply Hc; lia).
    rewrite u32_small by lia. unfold u64. rewrite uwrap_small by lia. apply Hre. lia. }
  destruct Hg as (q & m & Eg & Hm). exists m, q. split; [done|]. split; [done|]. intros map'. subst map'.
  set (p := mk_pair (Some (nk, k)) (Some d)).
  destruct (get_pair_None_app b k p q Hwb Hj (or_introl eq_refl)) as [Hwf' Hget].
  destruct (grow_owned map h k b q m (pairs b ++ [p]) (sh_own _ _ _ _ _ _ _ _ Sh) (sh_heap _ _ _ _ _ _ _ _ Sh) Hb Eg) as [Hown3 Hok3].
  destruct Sh. split; try done.
  - by apply set_bucket_wf.
  - by apply (set_bucket_rel map ids k b _ (Some d)).
  - apply Forall_insert; [eapply Forall_impl; [exact sh_len0|]; simpl; lia|]. simpl. rewrite length_app. simpl. lia.
  - destruct sh_tree0 as [Hrep Hnd]. split; [|done]. by eapply rep_frame; [| |exact Hrep].
Qed.

(** Publishing a new identifier. *)
Lemma shared_put core h map ids t cat n k d limit j :
  shared core h map ids ids t cat n -> cat !! k = None ->
  plenty (S (S j)) limit (h_mm h) -> blen k + 1 <= limit -> sizeof_Pair * (Z.of_nat n + 1) <= limit -> limit < 2 ^ 32 ->
  exists m map', sm_put_ptrvalue (h_mm h) (Some map) (Some k) (Some d) = Ok (1, m, Some map') /\
    plenty j limit m /\
    shared (set_id_map (Some map') core) (mk_heap m (maps h) (datas h)) map' (<[k := d]> ids) ids t cat (S n).
Proof.
  intros Sh Hk Hm Hlk Hln Hlim. pose proof (shared_None _ _ _ _ _ _ _ _ _ Sh Hk) as Hids.
  destruct (find_pair_wf map k (sh_wf _ _ _ _ _ _ _ _ Sh)) as (b & Hb & Hwb & _ & Habs).
  assert (Hj : get_pair b k = None).
  { pose proof (get_pair_loop_spec 0 (pairs b) k) as Hs. unfold get_pair.
    destruct (get_pair_loop 0 (pairs b) k) as [i|]; [|done]. destruct Hs as (i' & p & _ & _ & Hlive & Hv).
    pose proof (sh_rel _ _ _ _ _ _ _ _ Sh k) as Hr. rewrite Hids, Habs, Hv in Hr.
    apply live_key_value in Hlive as [v Hlv]. congruence. }
  pose proof (sh_len _ _ _ _ _ _ _ _ Sh) as Hlen. unfold buckets_le in Hlen. rewrite Forall_lookup in Hlen.
  specialize (Hlen _ _ Hb). simpl in Hlen. unfold sizeof_Pair in *.
  destruct (sm_put_fresh (h_mm h) map k (Some d) b j limit (sh_wf _ _ _ _ _ _ _ _ Sh) Hb Hj Hm
              Hlk ltac:(unfold sizeof_Pair; lia) Hlim) as (nk & m2 & q & m3 & E1 & E2 & Hm3 & Eput).
  set (p := mk_pair (Some (nk, k)) (Some d)) in *.
  destruct (get_pair_None_app b k p q Hwb Hj (or_introl eq_refl)) as [Hwf' Hget].
  destruct (put_owned map h k b nk m2 q m3 (pairs b ++ [p]) (sh_own _ _ _ _ _ _ _ _ Sh) (sh_heap _ _ _ _ _ _ _ _ Sh) Hb E1 E2)
    as [Hown3 Hok3].
  exists m3, (set_bucket map (idx map k) (mk_bucket (Some q) (pairs b ++ [p]))). split; [done|]. split; [done|].
  destruct Sh. split; try done.
  - by apply set_bucket_wf.
  - by apply (set_bucket_rel map ids k b _ (Some d)).
  - apply Forall_insert; [eapply Forall_impl; [exact sh_len0|]; simpl; lia|].
    simpl. rewrite length_app. simpl. lia.
  - destruct sh_tree0 as [Hrep Hnd]. split; [|done]. by eapply rep_frame; [| |exact Hrep].
Qed.

(** Inserting the node of a published identifier in the tree. *)
Lemma shared_add core h map ids t cat n k d i :
  shared core h map (<[k := d]> ids) ids t cat n -> cat !! k = None ->
  datas h !! d = Some (set_data i zero_dnode) -> (d ∉ data_addrs t) -> ach_id i = k ->
  fn_b_IsLocInRC fn_v_InitRootRect (loc i) = true -> Z.of_nat (base.size cat) + 1 < 2 ^ 32 ->
  mm_room (4 * Z.to_nat nMax) sizeof_map_node (h_mm h) = true ->
  exists h' t', adddatanode nMax (depth conf) (p_map_root core) (Some d) h = Ok h' /\
    shared core h' map (<[k := d]> ids) (<[k := d]> ids) t' (<[k := i]> cat) n /\
    (data_addrs t' ≡ₚ d :: data_addrs t) /\
    (forall e, e ∉ d :: data_addrs t -> datas h' !! e = datas h !! e).
Proof.
  intros Sh Hk Hdn Hd Hid Hin Hmax Hroom. pose proof (shared_None _ _ _ _ _ _ _ _ _ Sh Hk) as Hidk.
  pose proof (sh_size _ _ _ _ _ _ _ _ Sh) as Hsize.
  destruct (adddatanode_spec nMax (depth conf) 0 fn_v_InitRootRect None 0 t h d _ (sh_tree _ _ _ _ _ _ _ _ Sh)
              (sh_heap _ _ _ _ _ _ _ _ Sh) valid_root Hdn Hd Hin) as (h2 & t' & Hadd & Htree' & Hadded).
  { unfold depth. lia. }
  { by rewrite Z.sub_0_r. }
  { lia. }
  { unfold size. lia. }
  { lia. }
  { lia. }
  exists h2, t'. rewrite (sh_root _ _ _ _ _ _ _ _ Sh). split; [done|].
  destruct Hadded as [Hroot Hperm _ _ _ _ Hfd Hitems Hok2]. split; [|done].
  assert (Hdata : forall e, data <$> (datas h2 !! e) = data <$> (datas h !! e)) by apply Hitems.
  assert (Hids : forall k', ids !! k' <> Some d) by (intros k' E; by apply (sh_index _ _ _ _ _ _ _ _ Sh) in E as [? _]).
  destruct Sh. split; try done.
  - by rewrite Hroot.
  - by apply (grows_owned _ h), (adddatanode_grows nMax (depth conf) (Some (root t)) (Some d)).
  - intros k' e. rewrite Hperm, elem_of_cons. specialize (Hdata e).
    assert (Hold : (exists dn, datas h2 !! e = Some dn /\ ach_id (data dn) = k') <->
                   (exists dn, datas h !! e = Some dn /\ ach_id (data dn) = k')).
    { destruct (datas h2 !! e) as [e2|], (datas h !! e) as [e1|]; simpl in Hdata; try done.
      injection Hdata as Hdata. split; intros (x & [= <-] & Hx); eexists; (split; [done|]); congruence. }
    rewrite Hold. pose proof (sh_index0 k' e) as Hix. destruct (decide (e = d)) as [->|Hne].
    + rewrite Hdn. destruct (decide (k = k')) as [<-|Hkk].
      * rewrite lookup_insert_eq. split; [intros _|done]. split; [by left|]. by eexists.
      * rewrite lookup_insert_ne by done. split; [by intros ?%Hids|]. intros (_ & en' & [= <-] & Hk'). simpl in Hk'. congruence.
    + destruct (decide (k = k')) as [<-|Hkk].
      * rewrite lookup_insert_eq. split; [intros [= ->]; done|]. intros ([?|Hin'] & Hex); [done|].
        pose proof (proj2 Hix ltac:(done)) as E. congruence.
      * rewrite lookup_insert_ne by done. rewrite Hix. naive_solver.
  - intros k'. destruct (decide (k = k')) as [<-|Hkk].
    + rewrite !lookup_insert_eq. simpl. by rewrite Hdata, Hdn.
    + rewrite !lookup_insert_ne by done. rewrite (sh_holds0 k').
      destruct (ids !! k') as [e|] eqn:E; [|done]. simpl. by rewrite Hdata.
  - rewrite Hperm. simpl. by rewrite map_size_insert_None, Hsize.
Qed.

(** The steps of the branch for a new identifier up to the insertion. *)
Lemma set_new_steps core w map ids t cat k pLoc iStatus iType limit :
  w_core w = Some core -> svc_at nMax core (w_heap w) map ids t cat -> cat !! k = None ->
  set_room cat limit (h_mm (w_heap w)) -> blen k < NLA_DATA_ID_MAX_LEN ->
  let i := mk_item k iStatus iType pLoc 0 in
  exists d m map',
    let h' := mk_heap m (maps (w_heap w)) (<[d := set_data i zero_dnode]> (datas (w_heap w))) in
    let core' := set_id_map (Some map') (set_lock 1 core) in
    (d ∉ data_addrs t) /\ shared core' h' map' (<[k := d]> ids) ids t cat (S (base.size cat)) /\
    plenty (4 * Z.to_nat nMax) limit m /\
    set_new k pLoc iStatus iType (Some conf) w =
      obind (adddatanode nMax (depth conf) (p_map_root core') (Some d) h')
        (fun h => Ok (Some d, mk_world h (Some (set_lock 0 core')))).
Proof.
  intros Hcore [Hlock Sh]%svc_shared Hk (Hlim & Hpairs & Hm) Hid i. set (h := w_heap w) in *.
  unfold sizeof_data_node, NLA_DATA_ID_MAX_LEN in *.
  change (3 + 4 * Z.to_nat nMax)%nat with (S (S (S (4 * Z.to_nat nMax)))) in Hm. destruct Hm as (Hc & _).
  destruct (Hc 80 ltac:(lia)) as (d & m1 & Ed & Hm1).
  destruct (shared_private _ _ _ _ _ _ _ _ _ d (set_data i zero_dnode) m1 Sh Ed) as (Sh1 & Hd & Hfd).
  apply (shared_core _ (set_lock 1 core)) in Sh1; [|done|done].
  destruct (shared_put _ _ _ _ _ _ _ k d limit _ Sh1 Hk Hm1 ltac:(lia) Hpairs ltac:(lia)) as (m & map' & Eput & Hm2 & Sh2).
  exists d, m, map'. split; [done|]. split; [exact Sh2|]. split; [done|].
  unfold set_new, alloc_data. fold h. change sizeof_data_node with 80. rewrite Ed. unfold fill_data.
  rewrite (ld_data_Some _ d zero_dnode) by (simpl; by rewrite lookup_insert_eq). rewrite obind_Ok.
  unfold NLA_DATA_ID_MAX_LEN. destruct (Z.leb_spec (blen k + 1) 32); [|lia].
  rewrite (upd_data_Some _ d zero_dnode) by (simpl; by rewrite lookup_insert_eq). rewrite obind_Ok.
  cbn [data zero_dnode last_update_time]. fold i. simpl maps. simpl h_mm.
  rewrite Hcore. simpl deref. rewrite obind_Ok.
  unfold lock_alone. rewrite Hlock. simpl Z.eqb. cbn iota. rewrite obind_Ok.
  cbn [set_lock p_id2data_map]. rewrite (sh_map _ _ _ _ _ _ _ _ Sh). cbn [h_mm] in Eput. rewrite Eput, obind_Ok. cbn [deref]. rewrite obind_Ok.
  simpl datas. by rewrite insert_insert_eq.
Qed.

(** Overwriting a catalogued item by one with the same identifier in the same
    cell. *)
Lemma shared_put_item core h map pub ids t cat n k d dn i :
  shared core h map pub ids t cat n -> ids !! k = Some d -> datas h !! d = Some dn -> ach_id i = k ->
  fn_b_IsLocInRC (cell (Z.to_nat nMax) fn_v_InitRootRect (loc (data dn))) (loc i) = true ->
  shared core (put_item h d dn i) map pub ids t (<[k := i]> cat) n.
Proof.
  intros Sh Hk Hdn Hid Hcell. destruct (proj1 (sh_index _ _ _ _ _ _ _ _ Sh k d) Hk) as (Hd & dn' & Hdn' & Hidd).
  rewrite Hdn in Hdn'. injection Hdn' as <-.
  assert (Hcat : cat !! k = Some (data dn)) by (by rewrite (sh_holds _ _ _ _ _ _ _ _ Sh), Hk; simpl; rewrite Hdn).
  assert (Hsz : base.size (<[k := i]> cat) = base.size cat) by (by apply map_size_insert_Some).
  assert (Hdom : dom (<[d := set_data i dn]> (datas h)) = dom (datas h)).
  { rewrite dom_insert_L. apply elem_of_dom_2 in Hdn. set_solver. }
  destruct (sh_tree _ _ _ _ _ _ _ _ Sh) as (Hrep & Hm & Hnd).
  destruct Sh. split; try done.
  - destruct sh_own0 as [Hinj Hlive]. split; [done|]. intros j b p Hb Hp.
    destruct (Hlive j b p Hb Hp) as (? & ? & ?). split; [done|]. split; [done|].
    simpl. apply not_elem_of_dom. rewrite Hdom. by apply not_elem_of_dom.
  - split; [|done]. destruct (rep_update nMax h 0 fn_v_InitRootRect None 0 t d dn Hrep valid_root Hnd Hd Hdn)
      as (_ & a & x & _ & _ & Hrc & Hu). apply Hu. rewrite Hrc. by rewrite Z.sub_0_r.
  - destruct sh_heap0 as [? ?]. split; [done|]. simpl. by rewrite Hdom.
  - intros k' e. rewrite (sh_index0 k' e). simpl. split; intros (He & en & Hen & Hid'); (split; [done|]).
    + destruct (decide (d = e)) as [<-|Hne].
      * exists (set_data i dn). split; [by rewrite lookup_insert_eq|]. simpl. congruence.
      * exists en. by rewrite lookup_insert_ne.
    + destruct (decide (d = e)) as [<-|Hne].
      * rewrite lookup_insert_eq in Hen. injection Hen as <-. simpl in Hid'. exists dn. split; [done|]. congruence.
      * rewrite lookup_insert_ne in Hen by done. by exists en.
  - intros k'. simpl. destruct (decide (k = k')) as [<-|Hne].
    + rewrite lookup_insert_eq, Hk. simpl. by rewrite lookup_insert_eq.
    + rewrite lookup_insert_ne by done. rewrite sh_holds0. destruct (ids !! k') as [e|] eqn:E; [|done]. simpl.
      rewrite lookup_insert_ne; [done|]. intros <-.
      destruct (proj1 (sh_index0 k' d) E) as (_ & dn2 & H2 & E2). congruence.
  - by rewrite Hsz.
Qed.

Lemma svc_put_item core h map ids t cat k d dn i :
  svc_at nMax core h map ids t cat -> ids !! k = Some d -> datas h !! d = Some dn -> ach_id i = k ->
  fn_b_IsLocInRC (cell (Z.to_nat nMax) fn_v_InitRootRect (loc (data dn))) (loc i) = true ->
  svc_at nMax core (put_item h d dn i) map ids t (<[k := i]> cat).
Proof.
  intros Sv Hk Hdn Hid Hcell. destruct (indexed_node _ _ _ _ _ _ _ _ _ Sv Hk) as (_ & dn1 & _ & _ & Hcat).
  apply svc_shared in Sv as [Hl Sh]. apply svc_shared. split; [done|].
  rewrite map_size_insert_Some by done. by apply shared_put_item.
Qed.

Lemma upd_data_put h d dn f i :
  datas h !! d = Some dn -> f dn = set_data i dn -> upd_data (Some d) f h = Ok (put_item h d dn i).
Proof. intros H E. by rewrite (upd_data_Some _ _ _ _ H), E. Qed.

(** A new identifier. *)
Lemma set_new_spec core w map ids t cat k pLoc iStatus iType limit :
  w_core w = Some core -> svc_at nMax core (w_heap w) map ids t cat -> cat !! k = None ->
  set_room cat limit (h_mm (w_heap w)) -> blen k < NLA_DATA_ID_MAX_LEN ->
  fn_b_IsLocInRC fn_v_InitRootRect pLoc = true ->
  exists d core' h' map' t',
    set_new k pLoc iStatus iType (Some conf) w = Ok (Some d, mk_world h' (Some core')) /\
    svc_at nMax core' h' map' (<[k := d]> ids) t' (<[k := mk_item k iStatus iType pLoc 0]> cat).
Proof.
  intros Hcore Sv Hk Hroom Hid Hin.
  destruct (set_new_steps core w map ids t cat k pLoc iStatus iType limit Hcore Sv Hk Hroom Hid)
    as (d & m & map' & Hd & Sh & Hm & ->).
  destruct Hroom as (Hlim & Hpairs & _). unfold sizeof_Pair, sizeof_data_node in *.
  edestruct (shared_add _ _ _ _ _ _ _ k d (mk_item k iStatus iType pLoc 0) Sh Hk) as (h2 & t' & Hadd & Sh2 & _).
  { simpl. by rewrite lookup_insert_eq. }
  { done. }
  { done. }
  { done. }
  { lia. }
  { apply (plenty_room _ limit); [unfold sizeof_map_node; lia|done]. }
  rewrite Hadd, obind_Ok. eexists d, _, h2, map', t'. split; [done|].
  apply svc_shared. split; [done|]. rewrite map_size_insert_None by done. by eapply shared_core; [| |exact Sh2].
Qed.

(** [setdataloc] for an identifier that is not catalogued. *)
Lemma setdataloc_new w cat k pLoc iStatus iType limit now :
  svc nMax w cat -> cat !! k = None -> set_room cat limit (h_mm (w_heap w)) ->
  blen k < NLA_DATA_ID_MAX_LEN -> fn_b_IsLocInRC fn_v_InitRootRect pLoc = true ->
  exists w', ngx_http_lookaround_setdataloc k pLoc iStatus iType (Some conf) now w = Ok w' /\
    svc nMax w' (<[k := mk_item k iStatus iType pLoc now]> cat).
Proof.
  intros (core & map & ids & t & Hcore & Sv) Hk Hroom Hid Hin.
  destruct (set_new_spec core w map ids t cat k pLoc iStatus iType limit Hcore Sv Hk Hroom Hid Hin)
    as (d & core' & h' & map' & t' & Hset & Sv').
  unfold ngx_http_lookaround_setdataloc.
  rewrite (getdatanode_spec _ _ _ _ _ _ _ k Hcore Sv), obind_Ok, (cat_none _ _ _ _ _ _ _ _ Sv Hk), Hset, obind_Ok.
  assert (Hd : <[k := d]> ids !! k = Some d) by apply lookup_insert_eq.
  destruct (indexed_node _ _ _ _ _ _ _ _ _ Sv' Hd) as (Hdt & dn & Hdn & _ & Hcat).
  rewrite lookup_insert_eq in Hcat. injection Hcat as Hi.
  cbn [w_heap]. rewrite (upd_data_put _ _ _ _ (mk_item k iStatus iType pLoc now) Hdn)
    by (unfold set_time; rewrite <- Hi; done).
  rewrite obind_Ok. eexists. split; [done|].
  exists core', map', (<[k := d]> ids), t'. split; [done|].
  rewrite <- (insert_insert_eq cat k _ (mk_item k iStatus iType pLoc 0)).
  apply svc_put_item; try done. rewrite <- Hi. by apply cell_in.
Qed.

(** A catalogued identifier, with a location of its cell. *)
Lemma setdataloc_same_cell w cat k i pLoc iStatus iType now :
  svc nMax w cat -> cat !! k = Some i ->
  fn_b_IsLocInRC (cell (Z.to_nat nMax) fn_v_InitRootRect (loc i)) pLoc = true ->
  exists w', ngx_http_lookaround_setdataloc k pLoc iStatus iType (Some conf) now w = Ok w' /\
    h_mm (w_heap w') = h_mm (w_heap w) /\
    svc nMax w' (<[k := mk_item k (i_status i) (i_type i) pLoc now]> cat).
Proof.
  intros (core & map & ids & t & Hcore & Sv) Hk Hcell.
  destruct (cat_node _ _ _ _ _ _ _ _ _ Sv Hk) as (d & dn & Hids & Hd & Hdn & Hi & Hid).
  destruct (s_tree _ _ _ _ _ _ _ Sv) as (Hrep & _ & Hnd).
  destruct (rep_update nMax (w_heap w) 0 fn_v_InitRootRect None 0 t d dn Hrep valid_root Hnd Hd Hdn)
    as (_ & a & n & Hpm & Hn & Hrc & _). rewrite Z.sub_0_r, Hi in Hrc.
  unfold ngx_http_lookaround_setdataloc, set_known.
  rewrite (getdatanode_spec _ _ _ _ _ _ _ k Hcore Sv), obind_Ok, Hids.
  rewrite (ld_data_Some _ _ _ Hdn), obind_Ok, Hpm, (ld_map_Some _ _ _ Hn), obind_Ok, Hrc, Hcell.
  set (i1 := mk_item k (i_status i) (i_type i) pLoc (last_update_time i)).
  rewrite (upd_data_put _ d dn _ i1 Hdn) by (unfold set_loc; rewrite Hi, Hid; done). rewrite !obind_Ok.
  cbn [w_heap w_core].
  pose proof (svc_put_item core (w_heap w) map ids t cat k d dn i1 Sv Hids Hdn eq_refl
                ltac:(rewrite Hi; exact Hcell)) as Sv1.
  assert (Hdn1 : datas (put_item (w_heap w) d dn i1) !! d = Some (set_data i1 dn))
    by (simpl; by rewrite lookup_insert_eq).
  set (i2 := mk_item k (i_status i) (i_type i) pLoc now).
  rewrite (upd_data_put _ d _ _ i2 Hdn1) by done. rewrite obind_Ok.
  eexists. split; [done|]. split; [done|]. exists core, map, ids, t. split; [done|].
  rewrite <- (insert_insert_eq cat k i2 i1). apply svc_put_item; try done.
  apply cell_in. simpl.
  destruct (rep_update nMax _ 0 fn_v_InitRootRect None 0 t d _ (proj1 (s_tree _ _ _ _ _ _ _ Sv1)) valid_root Hnd Hd Hdn1)
    as (H & _). exact H.
Qed.

(** A new identifier with a location outside the map: it is indexed, but its
    node hangs from no leaf. *)
Lemma setdataloc_off_map w cat k pLoc iStatus iType limit now :
  svc nMax w cat -> cat !! k = None -> set_room cat limit (h_mm (w_heap w)) ->
  blen k < NLA_DATA_ID_MAX_LEN -> fn_b_IsLocInRC fn_v_InitRootRect pLoc = false -> 0 < nMax ->
  exists w' d dn, ngx_http_lookaround_setdataloc k pLoc iStatus iType (Some conf) now w = Ok w' /\
    ngx_http_lookaround_getdatanode k w' = Ok (Some d) /\ datas (w_heap w') !! d = Some dn /\
    p_map_node dn = None.
Proof.
  intros (core & map & ids & t & Hcore & Sv) Hk Hroom Hid Hout Hpos.
  destruct (set_new_steps core w map ids t cat k pLoc iStatus iType limit Hcore Sv Hk Hroom Hid)
    as (d & m & map' & Hd & Sh & Hm & Hset).
  pose proof (sh_heap _ _ _ _ _ _ _ _ Sh) as Hok'. pose proof (sh_wf _ _ _ _ _ _ _ _ Sh) as Hwf'.
  pose proof (sh_rel _ _ _ _ _ _ _ _ Sh) as Hrel'. pose proof (sh_tree _ _ _ _ _ _ _ _ Sh) as Htree1.
  pose proof (sh_root _ _ _ _ _ _ _ _ Sh) as Hroot1.
  set (i := mk_item k iStatus iType pLoc 0) in *. set (h := w_heap w) in *.
  set (h1 := mk_heap m (maps h) (<[d:=set_data i zero_dnode]> (datas h))) in *.
  destruct Hroom as (Hlim & Hpairs & _). unfold sizeof_Pair, sizeof_data_node in *.
  pose proof (s_size _ _ _ _ _ _ _ Sv) as Hsize.
  destruct (s_tree _ _ _ _ _ _ _ Sv) as (Hrep & Hnm & Hnd). fold h1 in Htree1, Hok'.
  destruct t as [a ds|a cs]; [inversion Hrep; lia|].
  destruct (rep_root _ _ _ _ _ _ _ (proj1 Htree1)) as (n & Hn & Hrc & Hlv & _ & _).
  destruct (count_step nMax h1 0 fn_v_InitRootRect None 0 (QNode a cs) n) as (h2 & Hupd & Htree2 & Hok2 & Hmm2 & Hds2 & _ & Hn2);
    try done; [unfold size; lia|]. cbn [root] in *.
  destruct (ensure_children nMax h2 0 fn_v_InitRootRect None (0 + 1) a cs 0 _ Htree2 Hok2
              ltac:(unfold INT_MIN, INT_MAX; lia)
              ltac:(rewrite Hmm2; eapply mm_room_le; [|eapply (plenty_room (4 * Z.to_nat nMax) limit); [|exact Hm]];
                    [lia|unfold sizeof_map_node; lia]) Hn2)
    as (h3 & cs3 & Hens & _ & Htree3 & _ & Hds3 & _).
  destruct (rep_node_inv _ _ _ _ _ _ _ _ (proj1 Htree3)) as [Ha3 _].
  assert (Hd3 : datas h3 !! d = Some (set_data i zero_dnode))
    by (rewrite Hds3, Hds2; simpl; by rewrite lookup_insert_eq).
  assert (Hadd : adddatanode nMax (depth conf) (Some a) (Some d) h1 = Ok h3).
  { unfold depth. cbn [adddatanode]. rewrite (ld_map_Some _ _ _ Hn), obind_Ok, Hupd, obind_Ok, Hlv.
    destruct (Z.leb_spec nMax 0); [lia|]. cbn [set_count ap_childs] in Hens. rewrite Hens, obind_Ok.
    rewrite (ld_map_Some _ _ _ Ha3), obind_Ok, (ld_data_Some _ _ _ Hd3), obind_Ok.
    cbn [QuadTree.rc set_data data loc]. subst i. cbn [loc]. by rewrite (child_idx_out _ _ Hout). }
  rewrite Hroot1 in Hset. cbn [root] in Hset. rewrite Hadd, obind_Ok in Hset. unfold ngx_http_lookaround_setdataloc.
  rewrite (getdatanode_spec _ _ _ _ _ _ _ k Hcore Sv), obind_Ok, (cat_none _ _ _ _ _ _ _ _ Sv Hk), Hset, obind_Ok.
  cbn [w_heap]. rewrite (upd_data_put h3 d _ _ (mk_item k iStatus iType pLoc now) Hd3) by done. rewrite obind_Ok.
  eexists _, d, _. split; [done|]. split; [|split; [simpl; by rewrite lookup_insert_eq|done]].
  unfold ngx_http_lookaround_getdatanode. cbn [w_core set_lock set_id_map p_id2data_map].
  rewrite sm_get_ptrvalue_abs by done. by rewrite Hrel', lookup_insert_eq.
Qed.

(** Setting an identifier whose node hangs from no leaf dereferences NULL. *)
Lemma setdataloc_unlinked w k d dn pLoc iStatus iType c now :
  ngx_http_lookaround_getdatanode k w = Ok (Some d) -> datas (w_heap w) !! d = Some dn -> p_map_node dn = None ->
  ngx_http_lookaround_setdataloc k pLoc iStatus iType c now w = Undef NullDeref.
Proof.
  intros Hk Hdn Hp. unfold ngx_http_lookaround_setdataloc, set_known. rewrite Hk, obind_Ok.
  by rewrite (ld_data_Some _ _ _ Hdn), obind_Ok, Hp.
Qed.

(** ** Searching *)
Lemma search_spec w core map ids t cat iStatus iType iMaxCount pRC ex :
  w_core w = Some core -> svc_at nMax core (w_heap w) map ids t cat ->
  get_around_data nMax iStatus iType iMaxCount (depth conf) (S (base.size (datas (w_heap w)))) (w_heap w) pRC
    (p_map_root core) ex =
  emits iMaxCount (select iStatus iType pRC (items_at (w_heap w) (data_addrs t))) ex.
Proof.
  intros Hcore Sv. rewrite (s_root _ _ _ _ _ _ _ Sv). destruct (s_tree _ _ _ _ _ _ _ Sv) as (Hrep & _ & Hnd).
  apply (get_around_data_spec nMax iStatus iType iMaxCount (depth conf) _ (w_heap w) 0 fn_v_InitRootRect None 0); try done.
  - unfold depth. lia.
  - apply Nat.lt_succ_r. rewrite <- size_dom, <- (size_list_to_set (C := gset addr) (data_addrs t)) by done.
    apply subseteq_size. intros d Hd%elem_of_list_to_set. apply elem_of_dom. by eapply rep_datas_Some.
Qed.
End Service.
