(* ===== verification/Handler.v ===== *)
(** * The request handlers: src/ngx_http_lookaround_handler.c and _util.c

    Every handler of the module as a function from the request and the shared
    state to the status it returns, the response it sends and the new state.
    The functions of nginx that only move the response along (discarding the
    request body, sending the header, the output filters) enter through the
    status they return, in [ngx_env]. *)
From Stdlib Require Import SpecFloat.
From S2P Require Import Prelude.
From S2P Require Import NgxString.
From S2P Require Import NgxHttpArg.
From S2P Require Import NgxPalloc.
From S2P Require Import Geo.
From S2P Require Import SharedMem.
From S2P Require Import StrMap.
From S2P Require Import QuadTree.
From S2P Require Import CoreData.

Definition NGX_HTTP_GET : Z := 2.
Definition NGX_HTTP_OK : Z := 200.
Definition NGX_HTTP_BAD_REQUEST : Z := 400.
Definition NGX_HTTP_NOT_ALLOWED : Z := 405.
Definition NGX_HTTP_INTERNAL_SERVER_ERROR : Z := 500.

Definition NLA_ACTION_MAXLEN : nat := 32.
Definition NLA_DEF_COUNT : Z := 50.
Definition NLA_MAX_COUNT : Z := 10000.
Definition NLA_OK : bytes := bs "OK".

Definition CT_TXT : bytes := bs "text/plain; charset=utf-8".
Definition CT_JSON : bytes := bs "application/json; charset=utf-8".

Definition g_pcszIMOK : bytes := bs "I'm OK".
Definition g_pcszVersion : bytes := bs "0.1".
Definition g_pcszHelp : bytes := bs "Help".

(** The members of [ngx_http_request_t] the module reads. *)
Record request := mk_request {
  method : Z;
  uri : bytes;
  args : bytes;
  r_pool : pool;
  r_conf : option loc_conf
}.

(** What the rest of nginx answers. *)
Record ngx_env := mk_env {
  discard_request_body : Z;
  set_content_type : Z;
  send_header : Z;
  output_filter : Z
}.

(** A response given to [ngx_http_send_header], with the body given to
    [ngx_http_output_filter] when it gets that far. *)
Record response := mk_response {
  status : Z;
  content_type : bytes;
  content_length_n : Z;
  body : option bytes
}.

#[export] Instance response_eq_dec : EqDecision response.
Proof. solve_decision. Defined.

Definition sizeof_buf : Z := 80.
Definition sizeof_str : Z := 16.

(** [fn_i_get_action]: the loop that copies the first segment of the path. *)
Fixpoint action_loop (room : nat) (uri : bytes) (i : nat) : out bytes :=
  match room with
  | O => Ok []
  | S room =>
      if (i <? length uri - 1)%nat then
        let! c := rd uri (S i) in
        if (c =? 0) || (c =? 63) || (c =? 35) || (c =? 47) then Ok []
        else let! r := action_loop room uri (S i) in Ok (c :: r)
      else Ok []
  end.

Definition fn_i_get_action (uri : bytes) : out bytes :=
  if (length uri <? 2)%nat then Ok []
  else
    let! c := rd uri 0 in
    if negb (c =? 47) then Ok [] else action_loop NLA_ACTION_MAXLEN uri 0.

Section Handlers.
Context {M : MM} {Osm : OSMem}.
Variable cos : Dbl.double -> Dbl.double.
Variable env : ngx_env.

(** The state a request works on. *)
Record state := mk_state { st_world : world; st_os : os }.

(** Result of a handler: the status, the response if one was sent, the state. *)
Abbreviation result := (Z * option response * state)%type.

Definition finish (rc : Z) (st : state) : out result := Ok (rc, None, st).

(** [fn_pns_get_ngxStr]: a copy of a C string in the pool. *)
Definition fn_pns_get_ngxStr (p : pool) (pcuszStr : bytes) (o : os) : out (bytes * pool * os) :=
  let! (b, p, o) := ngx_palloc p (blen pcuszStr + 1) o in
  match b with
  | None => Undef NullDeref
  | Some _ =>
      let! (s, p, o) := ngx_palloc p sizeof_str o in
      match s with None => Undef NullDeref | Some _ => Ok (pcuszStr, p, o) end
  end.

Definition ngx_http_lookaround_render_output (r : request) (p : pool) (pcszTxt pcszContentType : bytes)
    (st : state) : out result :=
  if Z.land (method r) NGX_HTTP_GET =? 0 then finish NGX_HTTP_NOT_ALLOWED st
  else
    let! (b, p, o) := ngx_pcalloc p sizeof_buf (st_os st) in
    match b with
    | None => finish NGX_HTTP_INTERNAL_SERVER_ERROR (mk_state (st_world st) o)
    | Some _ =>
        let! (pstr, p, o) := fn_pns_get_ngxStr p pcszTxt o in
        let st := mk_state (st_world st) o in
        let reply := mk_response NGX_HTTP_OK pcszContentType (blen pcszTxt) in
        if negb (send_header env =? NGX_OK) then Ok (send_header env, Some (reply None), st)
        else Ok (output_filter env, Some (reply (Some pstr)), st)
    end.

(** [ngx_http_arg] with one of the parameter names. *)
Definition arg (r : request) (name : bytes) : out (option bytes) := ngx_http_arg (args r) name.

Definition ngx_http_lookaround_imok (r : request) (st : state) : out result :=
  ngx_http_lookaround_render_output r (r_pool r) g_pcszIMOK CT_TXT st.

(** The integer parameters: [ngx_atoi], then the conversion to [int]. *)
Definition int_arg (default : Z) (v : option bytes) : Z :=
  match v with None => default | Some s => i32 (Number.ngx_atoi s) end.

Definition deg_arg (s : bytes) : Z := i32 (Number.ngx_atofp s NLA_DEG_FIXPOINT).

(** [achIDBuf]: 32 bytes on the stack that get the [sID.len] bytes of the
    parameter and a NUL; read back as a C string. *)
Definition id_buffer (sID : bytes) : out bytes :=
  if blen sID <=? NLA_DATA_ID_MAX_LEN - 1 then Ok (cstr sID) else Undef OutOfBounds.

Definition id_len_ok (sID : bytes) : bool :=
  negb ((blen sID <=? 0) || (NLA_DATA_ID_MAX_LEN <? blen sID)).

Definition ngx_http_lookaround_setitem (r : request) (now : Z) (st : state) : out result :=
  let! sID := arg r (bs "id") in
  match sID with None => finish NGX_HTTP_BAD_REQUEST st | Some sID =>
  if negb (id_len_ok sID) then finish NGX_HTTP_BAD_REQUEST st else
  let! sLat := arg r (bs "lat") in
  match sLat with None => finish NGX_HTTP_BAD_REQUEST st | Some sLat =>
  let! sLon := arg r (bs "lon") in
  match sLon with None => finish NGX_HTTP_BAD_REQUEST st | Some sLon =>
  let! sStatus := arg r (bs "status") in
  let iStatus := int_arg 0 sStatus in
  let! sType := arg r (bs "type") in
  let iType := int_arg 0 sType in
  let! achIDBuf := id_buffer sID in
  let! w := ngx_http_lookaround_setdataloc achIDBuf (mk_loc (deg_arg sLat) (deg_arg sLon))
              iStatus iType (r_conf r) now (st_world st) in
  ngx_http_lookaround_render_output r (r_pool r) NLA_OK CT_TXT (mk_state w (st_os st))
  end end end.

Definition ngx_http_lookaround_getitem (r : request) (st : state) : out result :=
  let! sID := arg r (bs "id") in
  match sID with None => finish NGX_HTTP_BAD_REQUEST st | Some sID =>
  if negb (id_len_ok sID) then finish NGX_HTTP_BAD_REQUEST st else
  let! achIDBuf := id_buffer sID in
  let! p := ngx_http_lookaround_getdatanode achIDBuf (st_world st) in
  match p with
  | None => ngx_http_lookaround_render_output r (r_pool r) (bs "{}") CT_JSON st
  | Some _ =>
      let! d := ld_data (w_heap (st_world st)) p in
      let! achJsonBuf := fn_v_FormatDataItem (data d) NLA_DATA_JSON_LEN in
      ngx_http_lookaround_render_output r (r_pool r) achJsonBuf CT_JSON st
  end
  end.

(** The last writes to the JSON buffer: the final comma becomes the closing
    bracket, or the bracket is written behind an empty list. *)
Definition close_json (ex : nla_ex_param) : out bytes :=
  match last (ex_json ex) with
  | None => Undef OutOfBounds
  | Some c =>
      if c =? 44 then Ok (take (length (ex_json ex) - 1) (ex_json ex) ++ bs "]")
      else let! _ := poke (ex_size ex) (ex_json ex) in Ok (ex_json ex ++ bs "]")
  end.

(** Fuel for the walk along one list: a list without repetition is shorter. *)
Definition walk_fuel (h : heap) : nat := S (base.size (datas h)).

Definition ngx_http_lookaround_lookaround (r : request) (st : state) : out result :=
  let! sLat := arg r (bs "lat") in
  match sLat with None => finish NGX_HTTP_BAD_REQUEST st | Some sLat =>
  let! sLon := arg r (bs "lon") in
  match sLon with None => finish NGX_HTTP_BAD_REQUEST st | Some sLon =>
  let! sRadius := arg r (bs "radius") in
  match sRadius with None => finish NGX_HTTP_BAD_REQUEST st | Some sRadius =>
  let radius := Number.ngx_atofp sRadius NLA_DEG_FIXPOINT in
  let! sStatus := arg r (bs "status") in
  let iStatus := int_arg NLA_INVALID_STATUS sStatus in
  let! sType := arg r (bs "type") in
  let iType := int_arg NLA_INVALID_TYPE sType in
  let! sCount := arg r (bs "count") in
  let iCount := int_arg NLA_DEF_COUNT sCount in
  if (iCount <=? 0) || (NLA_MAX_COUNT <=? iCount) then finish NGX_HTTP_BAD_REQUEST st else
  let! rc := fn_v_GetRectFromLocRadius cos (mk_loc (deg_arg sLat) (deg_arg sLon))
               (Dbl.div (Dbl.of_int radius) Dbl.NLA_DEG_FIXPOINT_BASE_FLOAT) in
  let! (pszJsonBuf, p, o) := ngx_pcalloc (r_pool r) (i32 (iCount * NLA_DATA_JSON_LEN)) (st_os st) in
  let st := mk_state (st_world st) o in
  match pszJsonBuf with None => finish NGX_HTTP_BAD_REQUEST st | Some _ =>
  let ex := mk_ex 0 (bs "[") (i32 (iCount * NLA_DATA_JSON_LEN)) in
  let h := w_heap (st_world st) in
  let! core := deref (w_core (st_world st)) in
  let! conf := deref (r_conf r) in
  let! ex := get_around_data (nMapMaxLevel conf) iStatus iType iCount (depth conf) (walk_fuel h) h rc
               (p_map_root core) ex in
  let! json := close_json ex in
  ngx_http_lookaround_render_output r p json CT_JSON st
  end end end end.

Definition ngx_http_lookaround_getitems (r : request) (st : state) : out result := finish NGX_DONE st.
Definition ngx_http_lookaround_reset (r : request) (st : state) : out result := finish NGX_DONE st.
Definition ngx_http_lookaround_stat (r : request) (st : state) : out result := finish NGX_DONE st.

(** [sprintf(achBuf, g_pcszAbout, g_pcszVersion)] into 1000 bytes. *)
Definition ngx_http_lookaround_about (r : request) (st : state) : out result :=
  let! achBuf := sprintf_into 1000
    (bs "Version " ++ g_pcszVersion ++ [10] ++ bs "Developed by Cui Yingjie (nihuo)") in
  ngx_http_lookaround_render_output r (r_pool r) achBuf CT_TXT st.

Definition ngx_http_lookaround_help (r : request) (st : state) : out result :=
  ngx_http_lookaround_render_output r (r_pool r) g_pcszHelp CT_TXT st.

Definition ngx_http_lookaround_handler (r : request) (now : Z) (st : state) : out result :=
  if Z.land (method r) NGX_HTTP_GET =? 0 then finish NGX_HTTP_NOT_ALLOWED st
  else
    let rc := discard_request_body env in
    if negb (rc =? NGX_OK) && negb (rc =? NGX_AGAIN) then finish rc st
    else if negb (set_content_type env =? NGX_OK) then finish NGX_HTTP_INTERNAL_SERVER_ERROR st
    else
      let! uachbuf := fn_i_get_action (uri r) in
      if decide (uachbuf = bs "lookaround") then ngx_http_lookaround_lookaround r st
      else if decide (uachbuf = bs "setitem") then ngx_http_lookaround_setitem r now st
      else if decide (uachbuf = bs "getitem") then ngx_http_lookaround_getitem r st
      else if decide (uachbuf = bs "getitems") then ngx_http_lookaround_getitems r st
      else if decide (uachbuf = bs "reset") then ngx_http_lookaround_reset r st
      else if decide (uachbuf = bs "stat") then ngx_http_lookaround_stat r st
      else if decide (uachbuf = bs "about") then ngx_http_lookaround_about r st
      else if decide (uachbuf = bs "imok") then ngx_http_lookaround_imok r st
      else if decide (uachbuf = bs "help") then ngx_http_lookaround_help r st
      else finish NGX_HTTP_BAD_REQUEST st.
End Handlers.
