(* ===== verification/LaModule.v ===== *)
(** * The module's life cycle: src/ngx_http_lookaround_module.c and _util.c

    Creating and filling the location configuration, creating the shared pool and
    the core data when the master process initialises the module, and destroying
    the pool.  [mm_create], [mm_permission] and [mm_destroy] of the OSSP mm
    library, [getpid], [getuid], [gettimeofday] and [unlink] are parameters or
    arguments. *)
From S2P Require Import Prelude.
From S2P Require Import NgxString.
From S2P Require Import NgxPalloc.
From S2P Require Import Geo.
From S2P Require Import SharedMem.
From S2P Require Import StrMap.
From S2P Require Import StrMapProps.
From S2P Require Import QuadTree.
From S2P Require Import QuadTreeSpec.
From S2P Require Import QuadTreeAdd.
From S2P Require Import CoreData.
From S2P Require Import Handler.
From S2P Require Import Service.

Definition NLA_MM_FILEPATH : bytes := bs "/tmp/nla".
Definition NLA_MAX_PATH : Z := 256.
Definition MM_BUF_SIZE : Z := 16 * 1024 * 1024.
Definition MM_BUF_ID : Z := 1.
Definition sizeof_loc_conf : Z := 12.

(** [la_server_status]; the time in seconds and microseconds. *)
Record la_server_status := mk_status { tServerStartTime : Z * Z; ullcTotalReq : Z }.

(** ** Configuration *)

(** The argument [value[1]] of a directive: [args] is [cf->args]. *)
Definition conf_arg (args : list bytes) : out bytes :=
  match args !! 1%nat with Some v => Ok v | None => Undef OutOfBounds end.

(** The directive also installs the content handler of the location, [true]. *)
Definition ngx_http_lookaround_setmaxmaplevel (args : list bytes) (conf : loc_conf) : out (bool * loc_conf) :=
  let! v := conf_arg args in
  Ok (true, mk_conf (i32 (Number.ngx_atoi v)) (nMaxMemBufSize conf) (nHashSize conf)).

Definition ngx_http_lookaround_setmembufsize (args : list bytes) (conf : loc_conf) : out loc_conf :=
  let! v := conf_arg args in
  Ok (mk_conf (nMapMaxLevel conf) (i32 (Number.ngx_atoi v)) (nHashSize conf)).

Definition ngx_http_lookaround_sethashsize (args : list bytes) (conf : loc_conf) : out loc_conf :=
  let! v := conf_arg args in
  Ok (mk_conf (nMapMaxLevel conf) (nMaxMemBufSize conf) (i32 (Number.ngx_atoi v))).

(** NGX_CONF_OK without touching either configuration. *)
Definition ngx_http_lookaround_merge_loc_conf (parent child : loc_conf) : loc_conf := child.

Definition ngx_http_lookaround_create_loc_conf {Osm : OSMem} (cf_pool : pool) (o : os)
  : out (option loc_conf * pool * os) :=
  let! (b, p, o) := ngx_pcalloc cf_pool sizeof_loc_conf o in
  match b with
  | None => Ok (None, p, o)
  | Some _ => Ok (Some (mk_conf 0 0 0), p, o)
  end.

(** ** The pool's file *)

(** The text of [sprintf(achbuf, "%s-%d-%d", NLA_MM_FILEPATH, iPID, iID)]. *)
Definition mm_path (iID iPID : Z) : bytes :=
  NLA_MM_FILEPATH ++ bs "-" ++ fmt_d iPID ++ bs "-" ++ fmt_d iID.

Section Life.
Context {M : MM} {Osm : OSMem}.

(** [mm_create size path] and [mm_permission pool mode owner group]. *)
Variable mm_create : Z -> bytes -> option mm.
Variable mm_permission : mm -> Z -> Z -> Z -> mm.
Variable uid : Z.

(** [None]: the process has called [exit(1)]. *)
Definition fn_p_create_mm (nsize iID iPID : Z) : out (option mm) :=
  let! achbuf := sprintf_into NLA_MAX_PATH (mm_path iID iPID) in
  match mm_create nsize achbuf with
  | None => Ok None
  | Some pMM => Ok (Some (mm_permission pMM 384 uid iPID))
  end.

(** The path given to [unlink]. *)
Definition fn_v_del_mm_file (iID iPID : Z) : out bytes := sprintf_into NLA_MAX_PATH (mm_path iID iPID).

(** [NLA_MM_CALLOC] of a structure of the process-wide data. *)
Definition calloc_struct {A} (size : Z) (zero : A) (m : mm) : option A * mm :=
  match mm_calloc m size with
  | (None, m) => (None, m)
  | (Some _, m) => (Some zero, m)
  end.

Record process := mk_process {
  pr_world : world;
  pr_status : la_server_status;
  g_psNLAEmptyStr : bytes;
  g_psNLAZeroStr : bytes;
  g_psNLAOneStr : bytes
}.

(** [pConf] is what [ngx_get_conf] finds, [now] what [gettimeofday] answers;
    [None]: the process exits. *)
Definition ngx_http_lookaround_init_module (pl : pool) (o : os) (ipid : Z) (now : Z * Z)
    (pConf : option loc_conf) : out (option process * pool * os) :=
  let! (e, pl, o) := fn_pns_get_ngxStr pl (bs "") o in
  let! (z, pl, o) := fn_pns_get_ngxStr pl (bs "0") o in
  let! (s1, pl, o) := fn_pns_get_ngxStr pl (bs "1") o in
  let! g_pNLAMM := fn_p_create_mm MM_BUF_SIZE MM_BUF_ID ipid in
  match g_pNLAMM with
  | None => Ok (None, pl, o)
  | Some m =>
      let '(st, m) := calloc_struct sizeof_server_status (mk_status (0, 0) 0) m in
      let '(core, m) := calloc_struct sizeof_core_data (mk_core None None None 0) m in
      let! core := deref core in
      let! (core, h) := (match pConf with
                         | None => fn_v_InitCoreData core 19997 (mk_heap m ∅ ∅)
                         | Some pConf => fn_v_InitCoreData core (nHashSize pConf) (mk_heap m ∅ ∅)
                         end) in
      let! st := deref st in
      Ok (Some (mk_process (mk_world h (Some core)) (mk_status now 0) e z s1), pl, o)
  end.

Definition ngx_http_lookaround_init_master : Z := NGX_OK.

(** The file that is removed; then [mm_destroy]. *)
Definition ngx_http_lookaround_destroy (ipid : Z) : out bytes := fn_v_del_mm_file MM_BUF_ID ipid.
End Life.

(** ** Lemmas *)

Lemma digits_no_dash z : 0 <= z -> (45 ∉ digits z).
Proof.
  intros Hz Hin. destruct (digits_spec z Hz) as [_ Hd]. rewrite Forall_forall in Hd.
  specialize (Hd 45 Hin). unfold is_digit in Hd. lia.
Qed.

Lemma fmt_d_nonneg z : 0 <= z -> fmt_d z = digits z.
Proof. intros H. unfold fmt_d. destruct (Z.ltb_spec z 0); [lia|done]. Qed.

Lemma digits_inj z z' : 0 <= z -> 0 <= z' -> digits z = digits z' -> z = z'.
Proof.
  intros Hz Hz' E. destruct (digits_spec z Hz) as [<- _], (digits_spec z' Hz') as [<- _]. by rewrite E.
Qed.

(** Two texts before the first dash. *)
Lemma app_dash_inj (a a' b b' : bytes) :
  (45 ∉ a) -> (45 ∉ a') -> a ++ 45 :: b = a' ++ 45 :: b' -> a = a' /\ b = b'.
Proof.
  revert a'. induction a as [|x a IH]; intros [|y a'] Ha Ha' E; simpl in E; simplify_eq.
  - done.
  - destruct Ha'. apply list_elem_of_here.
  - destruct Ha. apply list_elem_of_here.
  - destruct (IH a') as [-> ->]; try done; set_solver.
Qed.

Lemma mm_path_inj id pid id' pid' :
  0 <= id -> 0 <= pid -> 0 <= id' -> 0 <= pid' -> mm_path id pid = mm_path id' pid' -> id = id' /\ pid = pid'.
Proof.
  intros H1 H2 H3 H4. unfold mm_path. intros E%app_inv_head.
  change (bs "-") with [45] in E. simpl in E. injection E as E.
  rewrite !fmt_d_nonneg in E by done.
  apply app_dash_inj in E as [E1 E2]; [|by apply digits_no_dash..].
  split; by apply digits_inj.
Qed.

Lemma mm_path_fits id pid :
  INT_MIN <= id <= INT_MAX -> INT_MIN <= pid <= INT_MAX -> blen (mm_path id pid) <= 32.
Proof.
  intros H1 H2. unfold mm_path. rewrite !blen_app.
  pose proof (blen_fmt_d_int id H1). pose proof (blen_fmt_d_int pid H2).
  change (blen NLA_MM_FILEPATH) with 8. change (blen (bs "-")) with 1. lia.
Qed.

(** The core data as initialised represents the empty catalogue. *)
Lemma init_core_spec {M : MM} {L : MMLaws M} core cap m conf limit :
  lock core = 0 -> 0 < cap < 2 ^ 32 ->
  sizeof_map_node <= limit -> sizeof_Bucket * cap <= limit -> limit < 2 ^ 32 -> plenty 3 limit m ->
  exists core' h', fn_v_InitCoreData core cap (mk_heap m ∅ ∅) = Ok (core', h') /\
    svc (nMapMaxLevel conf) (mk_world h' (Some core')) ∅.
Proof.
  unfold sizeof_map_node, sizeof_Bucket. intros Hlock Hcap Hl1 Hl2 Hl3 (Hc & _).
  destruct (Hc 80 ltac:(lia)) as (a & m1 & E1 & (Hc1 & _)).
  destruct (Hc1 24 ltac:(lia)) as (p & m2 & E2 & (Hc2 & _)).
  destruct (Hc2 (cap * 16) ltac:(lia)) as (q & m3 & E3 & _).
  assert (Hu : u32 cap = cap) by (apply u32_small; lia).
  assert (Hnew : sm_new (V := addr) m1 cap =
            Ok (Some (mk_map p q (replicate (Z.to_nat cap) empty_bucket)), m3)).
  { unfold sm_new, sizeof_StrMap, sizeof_Bucket. rewrite E2, Hu. unfold u64.
    rewrite uwrap_small by lia. by rewrite E3. }
  assert (Hpos : 0 < u32 cap) by lia. destruct (sm_new_spec _ _ _ _ Hpos Hnew) as [Hwf Hrel].
  unfold fn_v_InitCoreData, alloc_map. cbn [h_mm]. change sizeof_map_node with 80. rewrite E1.
  unfold fn_v_InitRootMapNode. erewrite upd_map_Some by (simpl; by rewrite lookup_insert_eq). rewrite obind_Ok.
  cbn [h_mm maps datas]. rewrite Hnew, obind_Ok. eexists _, _. split; [done|].
  rewrite insert_insert_eq. set (n := set_rc fn_v_InitRootRect zero_mnode).
  destruct (empty_kid_addrs (nMapMaxLevel conf) 0 a) as [Hma Hda].
  eexists _, _, ∅, (empty_kid (nMapMaxLevel conf) 0 a). split; [done|].
  assert (Hnp : forall i b, replicate (Z.to_nat cap) (empty_bucket (V := addr)) !! i = Some b -> b = empty_bucket).
  { intros i b Hb. by apply lookup_replicate in Hb as [-> _]. }
  split; try done; simpl.
  - by rewrite empty_kid_root.
  - apply Forall_replicate. simpl. lia.
  - split; simpl; [intros i j b b' x Hb _ Hx|intros i b x Hb Hx]; apply Hnp in Hb as ->; done.
  - split; [|rewrite Hma, Hda; split; [apply NoDup_singleton|constructor]].
    apply empty_kid_rep. simpl. by rewrite lookup_insert_eq.
  - apply calloc_Some in E1 as [_ E1], E2 as [_ E2], E3 as [_ E3].
    split; simpl; [rewrite dom_insert_L, E3, E2, E1; set_solver|set_solver].
  - intros k d. rewrite Hda, lookup_empty. split; [done|]. by intros [?%not_elem_of_nil _].
  - by rewrite Hda.
Qed.
