(* ===== verification/HandlerSpec.v ===== *)
(** * Lemmas on the request handlers *)
From Stdlib Require Import SpecFloat.
From S2P Require Import Prelude.
From S2P Require Import NgxString.
From S2P Require Import NgxHttpArg.
From S2P Require Import NgxPalloc.
From S2P Require Import Geo.
From S2P Require Import SharedMem.
From S2P Require Import StrMap.
From S2P Require Import QuadTree.
From S2P Require Import QuadTreeSpec.
From S2P Require Import QuadTreeUpd.
From S2P Require Import CoreData.
From S2P Require Import Handler.
From S2P Require Import Service.

(** ** The action of a request *)

(** The bytes before the first of NUL, ['?'], ['#'] and ['/']. *)
Fixpoint segment (s : bytes) : bytes :=
  match s with
  | [] => []
  | c :: s' => if (c =? 0) || (c =? 63) || (c =? 35) || (c =? 47) then [] else c :: segment s'
  end.

Lemma action_loop_spec room uri i :
  (1 <= length uri)%nat -> action_loop room uri i = Ok (take room (segment (drop (S i) uri))).
Proof.
  intros Hlen. revert i. induction room as [|room IH]; intros i; [done|]. cbn [action_loop].
  destruct (Nat.ltb_spec i (length uri - 1)) as [Hi|Hi].
  - destruct (rd_in_range uri (S i) ltac:(lia)) as (c & Hc & ->). rewrite obind_Ok, (drop_S _ _ _ Hc).
    cbn [segment]. destruct (_ || (c =? 47)); [done|]. by rewrite IH.
  - rewrite drop_ge by lia. done.
Qed.

(** The first segment of a path, cut at 32 bytes. *)
Definition action_of (uri : bytes) : bytes :=
  match uri with
  | [] => []
  | c :: rest => if c =? 47 then take NLA_ACTION_MAXLEN (segment rest) else []
  end.

Lemma get_action_spec uri : fn_i_get_action uri = Ok (action_of uri).
Proof.
  unfold fn_i_get_action, action_of. destruct uri as [|c rest]; [done|].
  destruct (Nat.ltb_spec (length (c :: rest)) 2) as [Hl|Hl]; simpl in Hl.
  - destruct rest; [by destruct (c =? 47)|simpl in Hl; lia].
  - change (rd (c :: rest) 0) with (Ok c). rewrite obind_Ok. destruct (c =? 47); [|done].
    cbn [negb]. by rewrite action_loop_spec by (simpl; lia).
Qed.

(** ** Parameters *)

(** The value of a parameter of the query string. *)
Definition param (r : request) (name : bytes) : option bytes := arg_scan true (args r) name.

Definition args_ok (r : request) : Prop := Forall is_byte (args r).

Lemma arg_param r name : args_ok r -> arg_name name -> arg r name = Ok (param r name).
Proof. intros. by apply ngx_http_arg_scan. Qed.

Definition arg_names : list bytes :=
  [bs "id"; bs "lat"; bs "lon"; bs "status"; bs "type"; bs "radius"; bs "count"].

Lemma arg_names_ok : Forall arg_name arg_names.
Proof. repeat constructor; vm_compute; try discriminate; repeat constructor; try discriminate. Qed.

Lemma arg_known r name : args_ok r -> name ∈ arg_names -> arg r name = Ok (param r name).
Proof.
  intros Hr Hn. apply arg_param; [done|]. pose proof arg_names_ok as H. rewrite Forall_forall in H. by apply H.
Qed.

(** Replaces the search for a parameter by its value. *)
Ltac params Hr :=
  repeat match goal with
  | |- context [obind (arg ?r ?n) _] =>
      rewrite (arg_known r n Hr) by (vm_compute; set_solver); rewrite obind_Ok
  end.

Section Handlers.
Context {M : MM} {Osm : OSMem}.
Variable env : ngx_env.

(** Pools that have room for the answer to a request. *)
Definition reply_room (r : request) (p : pool) (len : Z) (o : os) : Prop :=
  serves 3 (Z.max 80 (len + 1)) p o.

Definition answers (r : request) : Prop :=
  Z.land (method r) NGX_HTTP_GET <> 0 /\ send_header env = NGX_OK.

Lemma get_ngxStr_spec p txt o n limit :
  serves (S (S n)) limit p o -> blen txt + 1 <= limit -> 16 <= limit ->
  exists p' o', fn_pns_get_ngxStr p txt o = Ok (txt, p', o') /\ serves n limit p' o'.
Proof.
  intros Hs Hl H16. assert (0 <= blen txt) by (unfold blen; lia).
  destruct (Hs (blen txt + 1) ltac:(lia)) as (b & p1 & o1 & E1 & H1).
  destruct (H1 sizeof_str ltac:(unfold sizeof_str; lia)) as (b2 & p2 & o2 & E2 & H2).
  unfold fn_pns_get_ngxStr. rewrite E1, obind_Ok, E2, obind_Ok. eauto.
Qed.

Lemma render_spec r p txt ct (st : state) :
  answers r -> reply_room r p (blen txt) (st_os st) ->
  exists o', ngx_http_lookaround_render_output env r p txt ct st =
    Ok (output_filter env, Some (mk_response NGX_HTTP_OK ct (blen txt) (Some txt)), mk_state (st_world st) o').
Proof.
  intros [Hget Hsend] Hroom. unfold reply_room in Hroom. unfold ngx_http_lookaround_render_output.
  destruct (Z.eqb_spec (Z.land (method r) NGX_HTTP_GET) 0); [done|].
  destruct (Hroom sizeof_buf ltac:(unfold sizeof_buf; lia)) as (b & p1 & o1 & E & H1).
  unfold ngx_pcalloc. rewrite E, obind_Ok.
  destruct (get_ngxStr_spec p1 txt o1 0 (Z.max 80 (blen txt + 1)) H1 ltac:(lia) ltac:(lia)) as (p2 & o2 & -> & _).
  rewrite obind_Ok, Hsend. eauto.
Qed.

(** ** The list of items *)

Fixpoint join (sep : bytes) (l : list bytes) : bytes :=
  match l with
  | [] => []
  | [x] => x
  | x :: l' => x ++ sep ++ join sep l'
  end.

(** The JSON array of a list of items. *)
Definition json_array (l : list nla_data_item) : bytes :=
  bs "[" ++ join (bs ",") (item_json <$> l) ++ bs "]".

Lemma rows_join l : l <> [] -> rows l = join (bs ",") (item_json <$> l) ++ bs ",".
Proof.
  induction l as [|d l IH]; [done|]. intros _. unfold rows in *.
  destruct l as [|d' l]; [simpl; by rewrite app_nil_r|].
  change (concat ((fun d => item_json d ++ bs ",") <$> d :: d' :: l)) with
    ((item_json d ++ bs ",") ++ concat ((fun d => item_json d ++ bs ",") <$> d' :: l)).
  rewrite IH by done. change (join (bs ",") (item_json <$> d :: d' :: l)) with
    (item_json d ++ bs "," ++ join (bs ",") (item_json <$> d' :: l)).
  by rewrite <- !app_assoc.
Qed.

Lemma json_array_length l : blen (json_array l) <= Z.max 2 (blen (bs "[" ++ rows l)).
Proof.
  unfold json_array. destruct (decide (l = [])) as [->|Hne]; [unfold blen; simpl; lia|].
  rewrite rows_join by done. rewrite !blen_app. change (blen (bs ",")) with 1. change (blen (bs "]")) with 1. lia.
Qed.

Lemma rows_length k l : Forall printable l -> (length l <= k)%nat -> blen (rows l) <= 157 * Z.of_nat k.
Proof.
  intros Hl. revert k. induction Hl as [|x l Hx Hl IH]; intros k Hk; [unfold rows, blen; simpl; lia|].
  destruct k as [|k]; [simpl in Hk; lia|]. unfold rows in *. cbn [fmap list_fmap concat].
  rewrite !blen_app. change (blen (bs ",")) with 1. pose proof (item_json_length x Hx).
  specialize (IH k ltac:(simpl in Hk; lia)). lia.
Qed.

Lemma close_json_spec c l size :
  blen (bs "[" ++ rows l) < size -> close_json (mk_ex c (bs "[" ++ rows l) size) = Ok (json_array l).
Proof.
  intros Hsize. unfold close_json, json_array. cbn [ex_json ex_size].
  destruct (decide (l = [])) as [->|Hne].
  - simpl rows. rewrite app_nil_r in *. change (last (bs "[")) with (Some 91). cbn [Z.eqb Pos.eqb]. cbn iota.
    unfold poke. change (blen (bs "[")) with 1 in *. destruct (Z.ltb_spec 1 size); [done|lia].
  - rewrite rows_join by done. rewrite (app_assoc (bs "[")). change (bs ",") with [44] at 2 3 4.
    rewrite last_snoc. cbn [Z.eqb Pos.eqb]. cbn iota.
    rewrite length_app. cbn [length]. rewrite Nat.add_sub, take_app_length.
    by rewrite <- app_assoc.
Qed.
End Handlers.
