(* ===== verification/Demo.v ===== *)
(** * A concrete instance of the service

    A pool of 60 blocks, a memory that never runs out, a map of two levels, the
    state right after initialisation and the state with two items in the same
    cell.  The witnesses of the properties run on it. *)
From Stdlib Require Import SpecFloat.
From S2P Require Import Prelude.
From S2P Require Import NgxString.
From S2P Require Import NgxHttpArg.
From S2P Require Import NgxPalloc.
From S2P Require Import Geo.
From S2P Require Import SharedMem.
From S2P Require Import StrMap.
From S2P Require Import QuadTree.
From S2P Require Import QuadTreeSpec.
From S2P Require Import QuadTreeUpd.
From S2P Require Import CoreData.
From S2P Require Import Handler.
From S2P Require Import Service.
From S2P Require Import LaModule.
From S2P Require Import HandlerSpec.

#[local] Existing Instance bump_mm.
#[local] Existing Instance bump_laws.
#[local] Existing Instance endless_mem.

Definition demo_conf : loc_conf := mk_conf 2 0 0.
Definition demo_env : ngx_env := mk_env NGX_OK NGX_OK NGX_OK NGX_OK.
Definition demo_pool : pool := mk_pool [mk_block 1024 1104 5120 0] 0 4015 [].
Definition demo_os : Z := 8192.

Definition demo_request (uri args : bytes) : request := mk_request NGX_HTTP_GET uri args demo_pool (Some demo_conf).

(** The world after [fn_v_InitCoreData] with 3 buckets. *)
Definition demo_core0 : nla_core_data := mk_core None None None 0.
Definition demo_init : out (@world bump_mm) :=
  let! (core, h) := fn_v_InitCoreData demo_core0 3 (mk_heap (bump_start 60 : @mm bump_mm) ∅ ∅) in
  Ok (mk_world h (Some core)).

Definition world_of (o : out (@world bump_mm)) : @world bump_mm :=
  match o with Ok w => w | _ => mk_world (mk_heap (bump_start 0 : @mm bump_mm) ∅ ∅) None end.

Definition demo_world : @world bump_mm := world_of demo_init.

Lemma demo_svc : svc 2 demo_world ∅.
Proof.
  destruct (init_core_spec (M := bump_mm) demo_core0 3 (bump_start 60) demo_conf 100) as (core & h & E & H);
    [done|done|done|done|done|apply bump_plenty; simpl; lia|].
  unfold demo_world, demo_init. rewrite E. exact H.
Qed.

(** Two places of one cell, and one of another. *)
Definition place_a : nla_2dloc := mk_loc 39904989 116405285.
Definition place_b : nla_2dloc := mk_loc 31230416 121473701.
Definition place_c : nla_2dloc := mk_loc 59329323 18068581.

Definition demo_set (k : bytes) (l : nla_2dloc) (w : @world bump_mm) : out (@world bump_mm) :=
  ngx_http_lookaround_setdataloc k l 0 0 (Some demo_conf) 5 w.

Definition demo_world1 : @world bump_mm := world_of (demo_set (bs "a") place_a demo_world).
Definition demo_cat1 : catalogue := {[ bs "a" := mk_item (bs "a") 0 0 place_a 5 ]}.

Lemma demo_levels : 0 <= nMapMaxLevel demo_conf <= INT_MAX.
Proof. done. Qed.

Lemma demo_room (cat : catalogue) (w : @world bump_mm) :
  (base.size cat <= 5)%nat -> (11 <= bump_left (h_mm (w_heap w)))%nat ->
  set_room demo_conf cat 100 (h_mm (w_heap w)).
Proof.
  intros Hc Hw. unfold set_room, sizeof_data_node, sizeof_Pair. split; [lia|]. split; [lia|].
  apply bump_plenty. simpl. lia.
Qed.

Lemma demo_svc1 : svc 2 demo_world1 demo_cat1.
Proof.
  destruct (setdataloc_new demo_conf demo_levels demo_world ∅ (bs "a") place_a 0 0 100 5 demo_svc)
    as (w' & E & H); [done| |done|vm_compute; reflexivity|].
  - apply demo_room; [rewrite map_size_empty; lia|vm_compute; lia].
  - unfold demo_world1, demo_set. rewrite E. exact H.
Qed.

Lemma demo_serves n limit : serves n limit demo_pool (demo_os : @os endless_mem).
Proof. apply endless_serves; [done|]. unfold sizeof_pool_large_t. simpl. lia. Qed.

Lemma demo_answers uri args : answers demo_env (demo_request uri args).
Proof. done. Qed.

Definition demo_state (w : @world bump_mm) : @state bump_mm endless_mem := mk_state w (demo_os : @os endless_mem).

(** Query strings of the examples. *)
Definition args_set_a : bytes := bs "id=a&lat=39.904989&lon=116.405285&status=1&type=2".
Definition args_move_a : bytes := bs "id=a&lat=31.230416&lon=121.473701&status=1&type=2".
Definition args_get_a : bytes := bs "id=a".
Definition args_look : bytes := bs "lat=39.904989&lon=116.405285&radius=1&count=3".
Definition args_id32 : bytes := bs "id=d0e3f836c81011e28497f23c91aec05e&lat=37.123456&lon=110.123456".
Definition args_off_map : bytes := bs "id=a&lat=95&lon=0".

Lemma demo_args_ok :
  Forall (Forall is_byte) [args_set_a; args_move_a; args_get_a; args_look; args_id32; args_off_map].
Proof.
  assert (H : forall s, forallb (fun c => (0 <=? c) && (c <=? 255)) s = true -> Forall is_byte s).
  { intros s Hs. rewrite List.forallb_forall in Hs.
    apply Forall_forall. intros c Hc. apply list_elem_of_In in Hc. specialize (Hs c Hc).
    apply andb_prop in Hs as [?%Z.leb_le ?%Z.leb_le]. done. }
  repeat (apply Forall_cons; split; [apply H; vm_compute; reflexivity|]). constructor.
Qed.

Lemma demo_args uri args : args ∈ [args_set_a; args_move_a; args_get_a; args_look; args_id32; args_off_map] ->
  args_ok (demo_request uri args).
Proof. intros H. pose proof demo_args_ok as Hf. rewrite Forall_forall in Hf. by apply Hf. Qed.
