(* ===== verification/HandlerProps.v ===== *)
(** * What the service promises to its clients

    The requests as operations on the catalogue, from the query string to the
    text of the answer, and the requests that go wrong. *)
From Stdlib Require Import SpecFloat.
From S2P Require Import Prelude.
From S2P Require Import NgxString.
From S2P Require Import NgxHttpArg.
From S2P Require Import NgxPalloc.
From S2P Require Import Geo.
From S2P Require Import SharedMem.
From S2P Require Import StrMap.
From S2P Require Import StrMapProps.
From S2P Require Import QuadTree.
From S2P Require Import QuadTreeSpec.
From S2P Require Import QuadTreeUpd.
From S2P Require Import CoreData.
From S2P Require Import Handler.
From S2P Require Import Service.
From S2P Require Import LaModule.
From S2P Require Import HandlerSpec.
From S2P Require Import Demo.
From S2P Require Import GeoProps.

Section Requests.
Context {M : MM} {L : MMLaws M} {Osm : OSMem}.
Variable cos : Dbl.double -> Dbl.double.
Variable env : ngx_env.
Implicit Types (cat : catalogue) (st : state).

(** The identifier of a request: short enough for every buffer. *)
Definition id_param (r : request) (sID : bytes) : Prop :=
  param r (bs "id") = Some sID /\ 1 <= blen sID < NLA_DATA_ID_MAX_LEN.

Definition loc_param (r : request) (l : nla_2dloc) : Prop :=
  exists sLat sLon, param r (bs "lat") = Some sLat /\ param r (bs "lon") = Some sLon /\
    l = mk_loc (deg_arg sLat) (deg_arg sLon).

Lemma id_buffer_ok sID : 1 <= blen sID < NLA_DATA_ID_MAX_LEN -> id_len_ok sID = true /\ id_buffer sID = Ok (cstr sID).
Proof.
  unfold id_len_ok, id_buffer, NLA_DATA_ID_MAX_LEN. intros H. split.
  - destruct (Z.leb_spec (blen sID) 0); [lia|]. destruct (Z.ltb_spec 32 (blen sID)); [lia|done].
  - destruct (Z.leb_spec (blen sID) (32 - 1)); [done|lia].
Qed.

Lemma cstr_length b : blen (cstr b) <= blen b.
Proof.
  unfold blen. induction b as [|c b IH]; simpl; [lia|]. destruct (c =? 0); simpl; lia.
Qed.

Lemma setitem_body r now st sID l :
  args_ok r -> id_param r sID -> loc_param r l ->
  ngx_http_lookaround_setitem env r now st =
    let! w := ngx_http_lookaround_setdataloc (cstr sID) l (int_arg 0 (param r (bs "status")))
                (int_arg 0 (param r (bs "type"))) (r_conf r) now (st_world st) in
    ngx_http_lookaround_render_output env r (r_pool r) NLA_OK CT_TXT (mk_state w (st_os st)).
Proof.
  intros Hr (Hid & Hlen) (sLat & sLon & Hlat & Hlon & ->). destruct (id_buffer_ok sID Hlen) as [Hok Hbuf].
  unfold ngx_http_lookaround_setitem. params Hr. rewrite Hid, Hok. cbn [negb]. params Hr. rewrite Hlat.
  params Hr. rewrite Hlon. params Hr. by rewrite Hbuf, obind_Ok.
Qed.

(** C2: A [setitem] request with a new identifier of at most 31 bytes and a
    location of the map answers OK, and the shared state, which represented a
    catalogue, represents that catalogue with the new item added: indexed under
    its identifier, hanging from the leaf that covers its location, with the
    status, type and time of the request, and nothing else changed. *)
Theorem setitem_adds r now st cat sID l conf limit :
  args_ok r -> id_param r sID -> loc_param r l -> r_conf r = Some conf -> 0 <= nMapMaxLevel conf <= INT_MAX ->
  answers env r -> reply_room r (r_pool r) (blen NLA_OK) (st_os st) ->
  svc (nMapMaxLevel conf) (st_world st) cat -> cat !! cstr sID = None ->
  set_room conf cat limit (h_mm (w_heap (st_world st))) -> fn_b_IsLocInRC fn_v_InitRootRect l = true ->
  exists st', ngx_http_lookaround_setitem env r now st =
      Ok (output_filter env, Some (mk_response NGX_HTTP_OK CT_TXT 2 (Some NLA_OK)), st') /\
    svc (nMapMaxLevel conf) (st_world st')
      (<[cstr sID := mk_item (cstr sID) (int_arg 0 (param r (bs "status"))) (int_arg 0 (param r (bs "type"))) l now]> cat).
Proof.
  intros Hr Hid Hl Hc Hlev Hans Hroom Hsvc Hnew Hset Hin. rewrite (setitem_body r now st sID l) by done.
  pose proof (cstr_length sID) as Hcl. pose proof Hid as (_ & Hlen). rewrite Hc.
  destruct (setdataloc_new conf Hlev (st_world st) cat (cstr sID) l (int_arg 0 (param r (bs "status")))
              (int_arg 0 (param r (bs "type"))) limit now Hsvc Hnew Hset ltac:(lia) Hin) as (w' & -> & Hsvc').
  rewrite obind_Ok.
  destruct (render_spec env r (r_pool r) NLA_OK CT_TXT (mk_state w' (st_os st)) Hans Hroom) as (o' & ->).
  eexists. split; [done|]. done.
Qed.

(** C12: A [setitem] request for a catalogued identifier whose new location lies in
    the same cell of the map as the old one moves the item there and refreshes its
    time; the status and the type of the request are ignored. *)
Theorem setitem_refreshes r now st cat sID l conf i :
  args_ok r -> id_param r sID -> loc_param r l -> r_conf r = Some conf -> 0 <= nMapMaxLevel conf <= INT_MAX ->
  answers env r -> reply_room r (r_pool r) (blen NLA_OK) (st_os st) ->
  svc (nMapMaxLevel conf) (st_world st) cat -> cat !! cstr sID = Some i ->
  fn_b_IsLocInRC (cell (Z.to_nat (nMapMaxLevel conf)) fn_v_InitRootRect (loc i)) l = true ->
  exists st', ngx_http_lookaround_setitem env r now st =
      Ok (output_filter env, Some (mk_response NGX_HTTP_OK CT_TXT 2 (Some NLA_OK)), st') /\
    svc (nMapMaxLevel conf) (st_world st')
      (<[cstr sID := mk_item (cstr sID) (i_status i) (i_type i) l now]> cat).
Proof.
  intros Hr Hid Hl Hc Hlev Hans Hroom Hsvc Hk Hcell. rewrite (setitem_body r now st sID l) by done. rewrite Hc.
  destruct (setdataloc_same_cell conf Hlev (st_world st) cat (cstr sID) i l (int_arg 0 (param r (bs "status")))
              (int_arg 0 (param r (bs "type"))) now Hsvc Hk Hcell) as (w' & -> & _ & Hsvc').
  rewrite obind_Ok.
  destruct (render_spec env r (r_pool r) NLA_OK CT_TXT (mk_state w' (st_os st)) Hans Hroom) as (o' & ->).
  eexists. split; [done|]. done.
Qed.

(** C5: A [getitem] request answers the JSON text of the catalogued item with the
    identifier, or an empty object when there is none, and changes nothing. *)
Theorem getitem_reads r st cat sID conf :
  args_ok r -> id_param r sID -> answers env r ->
  svc (nMapMaxLevel conf) (st_world st) cat -> map_Forall (fun _ i => printable i) cat ->
  serves 3 NLA_DATA_JSON_LEN (r_pool r) (st_os st) ->
  let body := match cat !! cstr sID with None => bs "{}" | Some i => item_json i end in
  exists o', ngx_http_lookaround_getitem env r st =
    Ok (output_filter env, Some (mk_response NGX_HTTP_OK CT_JSON (blen body) (Some body)), mk_state (st_world st) o').
Proof.
  intros Hr (Hid & Hlen) Hans (core & map & ids & t & Hcore & Sv) Hpr Hroom body.
  destruct (id_buffer_ok sID Hlen) as [Hok Hbuf]. unfold ngx_http_lookaround_getitem. params Hr.
  rewrite Hid, Hok. cbn [negb]. rewrite Hbuf, obind_Ok.
  rewrite (getdatanode_spec _ _ _ _ _ _ _ (cstr sID) Hcore Sv), obind_Ok.
  destruct (ids !! cstr sID) as [d|] eqn:Hids.
  - destruct (indexed_node _ _ _ _ _ _ _ _ _ Sv Hids) as (_ & dn & Hdn & _ & Hcat).
    rewrite (ld_data_Some _ _ _ Hdn), obind_Ok. unfold body. rewrite Hcat. pose proof (Hpr _ _ Hcat) as Hp. simpl in Hp.
    rewrite format_item_Ok by (try done; unfold NLA_DATA_JSON_LEN; lia). rewrite obind_Ok.
    apply render_spec; [done|]. pose proof (item_json_length _ Hp).
    eapply serves_mono; [|exact Hroom]. unfold NLA_DATA_JSON_LEN. lia.
  - assert (cat !! cstr sID = None) as Hn.
    { destruct (cat !! cstr sID) as [i|] eqn:E; [|done].
      destruct (cat_node _ _ _ _ _ _ _ _ _ Sv E) as (d & dn & Hd & _). congruence. }
    unfold body. rewrite Hn. apply render_spec; [done|].
    eapply serves_mono; [|exact Hroom]. done.
Qed.

(** The parameters of a search. *)
Record search_param (r : request) (l : nla_2dloc) (dRadius : Dbl.double) (iStatus iType iCount : Z) : Prop := {
  sp_loc : loc_param r l;
  sp_radius : exists sRadius, param r (bs "radius") = Some sRadius /\
    dRadius = Dbl.div (Dbl.of_int (Number.ngx_atofp sRadius NLA_DEG_FIXPOINT)) Dbl.NLA_DEG_FIXPOINT_BASE_FLOAT;
  sp_status : iStatus = int_arg NLA_INVALID_STATUS (param r (bs "status"));
  sp_type : iType = int_arg NLA_INVALID_TYPE (param r (bs "type"));
  sp_count : iCount = int_arg NLA_DEF_COUNT (param r (bs "count"))
}.

(** C1: A [lookaround] request answers, as a JSON array, exactly the first [count]
    of the catalogued items that have the requested status and type and lie in
    the search rectangle; none is missing below that limit, none is repeated, and
    the output buffer of 200 bytes per item is never overrun. *)
Theorem lookaround_exact r st cat conf l dRadius iStatus iType iCount rc :
  args_ok r -> search_param r l dRadius iStatus iType iCount -> 0 < iCount < NLA_MAX_COUNT ->
  fn_v_GetRectFromLocRadius cos l dRadius = Ok rc -> r_conf r = Some conf ->
  0 <= nMapMaxLevel conf <= INT_MAX -> answers env r ->
  svc (nMapMaxLevel conf) (st_world st) cat -> map_Forall (fun _ i => printable i) cat ->
  serves 4 (iCount * NLA_DATA_JSON_LEN) (r_pool r) (st_os st) ->
  exists items o',
    items ≡ₚ (map_to_list cat).*2 /\
    let body := json_array (take (Z.to_nat iCount) (select iStatus iType rc items)) in
    ngx_http_lookaround_lookaround cos env r st =
      Ok (output_filter env, Some (mk_response NGX_HTTP_OK CT_JSON (blen body) (Some body)),
          mk_state (st_world st) o').
Proof.
  intros Hr [(sLat & sLon & Hlat & Hlon & ->) (sR & Hrad & ->) -> -> Hcount] Hc Hrc Hconf Hlev Hans
    (core & map & ids & t & Hcore & Sv) Hpr Hroom.
  pose proof (items_catalogue _ _ _ _ _ _ _ Sv) as Hperm. unfold NLA_MAX_COUNT, NLA_DATA_JSON_LEN in *.
  set (items := items_at (w_heap (st_world st)) (data_addrs t)) in *.
  set (iStatus := int_arg NLA_INVALID_STATUS _). set (iType := int_arg NLA_INVALID_TYPE _).
  destruct (Hroom (iCount * 200) ltac:(lia)) as (b & p & o & Ealloc & Hserves).
  assert (Hprint : Forall printable (select iStatus iType rc items)).
  { apply Forall_forall. intros i (_ & Hi)%list_elem_of_filter. rewrite Hperm in Hi.
    apply list_elem_of_fmap in Hi as ([k i'] & -> & Hk%elem_of_map_to_list). exact (Hpr _ _ Hk). }
  set (sel := select iStatus iType rc items) in *. set (out := take (Z.to_nat iCount) sel).
  pose proof (emits_Ok iCount sel (mk_ex 0 (bs "[") (iCount * 200)) Hprint ltac:(simpl; lia)
                ltac:(unfold room_for; cbn [ex_json ex_size ex_count]; change (blen (bs "[")) with 1; lia)) as Hemit.
  cbn [ex_count ex_json ex_size] in Hemit. rewrite Z.sub_0_r in Hemit. fold out in Hemit.
  assert (Hrows : blen (bs "[" ++ rows out) < iCount * 200).
  { rewrite blen_app. change (blen (bs "[")) with 1.
    pose proof (rows_length (Z.to_nat iCount) out ltac:(by apply Forall_take) ltac:(unfold out; rewrite length_take; lia)). lia. }
  destruct (render_spec env r p (json_array out) CT_JSON (mk_state (st_world st) o) Hans) as (o' & Hrender).
  { eapply serves_mono; [|exact Hserves]. pose proof (json_array_length out). lia. }
  exists items, o'. split; [done|]. cbn zeta. fold sel out. etransitivity; [|exact Hrender].
  unfold ngx_http_lookaround_lookaround. params Hr. rewrite Hlat. params Hr. rewrite Hlon. params Hr. rewrite Hrad.
  params Hr. fold iStatus iType. rewrite <- Hcount.
  destruct (Z.leb_spec iCount 0); [lia|]. unfold NLA_MAX_COUNT. destruct (Z.leb_spec 10000 iCount); [lia|]. cbn [orb].
  rewrite Hrc, obind_Ok. unfold NLA_DATA_JSON_LEN. rewrite i32_small by (unfold INT_MIN, INT_MAX; lia).
  unfold ngx_pcalloc. rewrite Ealloc, obind_Ok. cbn [st_world st_os]. rewrite Hcore, Hconf. cbn [deref]. rewrite !obind_Ok.
  unfold walk_fuel. rewrite (search_spec conf (st_world st) core map ids t cat) by done. fold items sel.
  rewrite Hemit, obind_Ok, close_json_spec by done. by rewrite obind_Ok.
Qed.

(** The table of actions. *)
Definition routes (r : request) (now : Z) (st : state) : list (bytes * out (Z * option response * state)) :=
  [(bs "lookaround", ngx_http_lookaround_lookaround cos env r st);
   (bs "setitem", ngx_http_lookaround_setitem env r now st);
   (bs "getitem", ngx_http_lookaround_getitem env r st);
   (bs "getitems", Ok (NGX_DONE, None, st));
   (bs "reset", Ok (NGX_DONE, None, st));
   (bs "stat", Ok (NGX_DONE, None, st));
   (bs "about", ngx_http_lookaround_about env r st);
   (bs "imok", ngx_http_lookaround_imok env r st);
   (bs "help", ngx_http_lookaround_help env r st)].

Fixpoint assoc {A} (k : bytes) (l : list (bytes * A)) (default : A) : A :=
  match l with
  | [] => default
  | (k', v) :: l' => if decide (k = k') then v else assoc k l' default
  end.

(** The content handler: any method but GET is answered with 405 and an
    error of the body or content-type step with its status, all without effect;
    otherwise the first segment of the path, cut at 32 bytes, selects the handler
    and an unknown one is answered with 400 without effect.  Extracting the
    segment reads only inside the path and writes at most 33 bytes. *)
Theorem handler_dispatch r now st :
  ngx_http_lookaround_handler cos env r now st =
    if Z.land (method r) NGX_HTTP_GET =? 0 then Ok (NGX_HTTP_NOT_ALLOWED, None, st)
    else if negb (discard_request_body env =? NGX_OK) && negb (discard_request_body env =? NGX_AGAIN)
    then Ok (discard_request_body env, None, st)
    else if negb (set_content_type env =? NGX_OK) then Ok (NGX_HTTP_INTERNAL_SERVER_ERROR, None, st)
    else assoc (action_of (uri r)) (routes r now st) (Ok (NGX_HTTP_BAD_REQUEST, None, st)).
Proof.
  unfold ngx_http_lookaround_handler. destruct (_ =? 0); [done|]. destruct (_ && _); [done|].
  destruct (negb _); [done|]. by rewrite get_action_spec, obind_Ok.
Qed.
End Requests.

(** ** Initialisation *)
Section Init.
Context {M : MM} {L : MMLaws M} {Osm : OSMem}.
Variable mm_create : Z -> bytes -> option mm.
Variable mm_permission : mm -> Z -> Z -> Z -> mm.
Variable uid : Z.

(** The number of buckets [init_module] asks for. *)
Definition hash_size (pConf : option loc_conf) : Z :=
  match pConf with None => 19997 | Some c => nHashSize c end.

(** C13: When the shared pool can be created and serves the first allocations,
    initialising the module leaves a shared state that represents the empty
    catalogue, unlocked, with 19997 buckets when no configuration is found, and
    a request counter of zero. *)
Theorem init_module_empty pl o ipid now pConf conf m limit :
  serves 6 16 pl o -> INT_MIN <= ipid <= INT_MAX ->
  mm_create MM_BUF_SIZE (mm_path MM_BUF_ID ipid) = Some m ->
  0 < hash_size pConf < 2 ^ 32 -> sizeof_map_node <= limit -> sizeof_Bucket * hash_size pConf <= limit ->
  limit < 2 ^ 32 -> plenty 5 limit (mm_permission m 384 uid ipid) ->
  exists pr pl' o', ngx_http_lookaround_init_module mm_create mm_permission uid pl o ipid now pConf = Ok (Some pr, pl', o') /\
    svc (nMapMaxLevel conf) (pr_world pr) ∅ /\ ullcTotalReq (pr_status pr) = 0.
Proof.
  intros Hs Hpid Hmm Hcap Hl1 Hl2 Hl3 (Hc & _). unfold sizeof_map_node in *.
  destruct (Hc 24 ltac:(lia)) as (a1 & m1 & E1 & (Hc1 & _)).
  destruct (Hc1 32 ltac:(lia)) as (a2 & m2 & E2 & Hm2).
  unfold ngx_http_lookaround_init_module.
  destruct (get_ngxStr_spec pl (bs "") o 4 16 Hs ltac:(done) ltac:(lia)) as (p1 & o1 & -> & Hs1). rewrite obind_Ok.
  destruct (get_ngxStr_spec p1 (bs "0") o1 2 16 Hs1 ltac:(done) ltac:(lia)) as (p2 & o2 & -> & Hs2). rewrite obind_Ok.
  destruct (get_ngxStr_spec p2 (bs "1") o2 0 16 Hs2 ltac:(done) ltac:(lia)) as (p3 & o3 & -> & _). rewrite obind_Ok.
  unfold fn_p_create_mm. pose proof (mm_path_fits MM_BUF_ID ipid ltac:(done) Hpid) as Hfit.
  rewrite sprintf_into_Ok by (unfold NLA_MAX_PATH; lia). rewrite !obind_Ok, Hmm, obind_Ok.
  unfold calloc_struct. change sizeof_server_status with 24. rewrite E1.
  change sizeof_core_data with 32. rewrite E2. cbn [deref]. rewrite obind_Ok.
  destruct (init_core_spec (mk_core None None None 0) (hash_size pConf) m2 conf limit) as (core & h & E & Hsvc); try done.
  assert (forall {A} (k : nla_core_data * heap -> out A),
    obind (match pConf with
           | None => fn_v_InitCoreData (mk_core None None None 0) 19997 (mk_heap m2 ∅ ∅)
           | Some pConf => fn_v_InitCoreData (mk_core None None None 0) (nHashSize pConf) (mk_heap m2 ∅ ∅)
           end) k = k (core, h)) as -> by (intros A k; destruct pConf; simpl hash_size in E; by rewrite E).
  rewrite obind_Ok. eexists _, p3, o3. split; [done|]. done.
Qed.

(** The file of the shared pool has a name that fits its buffer and that no
    other process or pool number shares, so the file removed on exit is the one
    that was created if, and only if, the process still has the same number. *)
Theorem pool_file_name id pid :
  0 <= id <= INT_MAX -> 0 <= pid <= INT_MAX ->
  fn_v_del_mm_file id pid = Ok (mm_path id pid) /\
  forall id' pid', 0 <= id' <= INT_MAX -> 0 <= pid' <= INT_MAX ->
    (fn_v_del_mm_file id' pid' = Ok (mm_path id pid) <-> id' = id /\ pid' = pid).
Proof.
  intros Hid Hpid.
  assert (H : forall i p, 0 <= i <= INT_MAX -> 0 <= p <= INT_MAX -> fn_v_del_mm_file i p = Ok (mm_path i p)).
  { intros i p Hi Hp. apply sprintf_into_Ok.
    pose proof (mm_path_fits i p ltac:(unfold INT_MIN; lia) ltac:(unfold INT_MIN; lia)). unfold NLA_MAX_PATH. lia. }
  split; [by apply H|]. intros id' pid' Hid' Hpid'. rewrite (H id' pid') by done. split.
  - intros E. assert (E' : mm_path id' pid' = mm_path id pid) by congruence. apply mm_path_inj in E'; lia.
  - by intros [-> ->].
Qed.
End Init.

(** ** Witnesses *)
#[local] Existing Instance bump_mm.
#[local] Existing Instance bump_laws.
#[local] Existing Instance endless_mem.

Lemma setitem_adds_witness :
  exists st', ngx_http_lookaround_setitem demo_env (demo_request (bs "/setitem") args_set_a) 5 (demo_state demo_world) =
      Ok (NGX_OK, Some (mk_response NGX_HTTP_OK CT_TXT 2 (Some NLA_OK)), st') /\
    svc 2 (st_world st') {[ bs "a" := mk_item (bs "a") 1 2 place_a 5 ]}.
Proof.
  apply (setitem_adds demo_env (demo_request (bs "/setitem") args_set_a) 5 (demo_state demo_world) ∅
           (bs "a") place_a demo_conf 100).
  - apply demo_args. vm_compute. set_solver.
  - split; [vm_compute; reflexivity|vm_compute; split; [discriminate|reflexivity]].
  - exists (bs "39.904989"), (bs "116.405285"). vm_compute. repeat split.
  - reflexivity.
  - apply demo_levels.
  - apply demo_answers.
  - apply demo_serves.
  - apply demo_svc.
  - reflexivity.
  - apply demo_room; [rewrite map_size_empty; lia|vm_compute; lia].
  - vm_compute. reflexivity.
Defined.

Lemma setitem_refreshes_witness :
  exists st', ngx_http_lookaround_setitem demo_env (demo_request (bs "/setitem") args_move_a) 9 (demo_state demo_world1) =
      Ok (NGX_OK, Some (mk_response NGX_HTTP_OK CT_TXT 2 (Some NLA_OK)), st') /\
    svc 2 (st_world st') (<[bs "a" := mk_item (bs "a") 0 0 place_b 9]> demo_cat1).
Proof.
  apply (setitem_refreshes demo_env (demo_request (bs "/setitem") args_move_a) 9 (demo_state demo_world1) demo_cat1
           (bs "a") place_b demo_conf (mk_item (bs "a") 0 0 place_a 5)).
  - apply demo_args. vm_compute. set_solver.
  - split; [vm_compute; reflexivity|vm_compute; split; [discriminate|reflexivity]].
  - exists (bs "31.230416"), (bs "121.473701"). vm_compute. repeat split.
  - reflexivity.
  - apply demo_levels.
  - apply demo_answers.
  - apply demo_serves.
  - apply demo_svc1.
  - vm_compute. reflexivity.
  - vm_compute. reflexivity.
Defined.

Lemma demo_printable : map_Forall (fun (_ : bytes) i => printable i) demo_cat1.
Proof. apply map_Forall_singleton. vm_compute. repeat split; discriminate. Qed.

Lemma getitem_reads_witness :
  let body := item_json (mk_item (bs "a") 0 0 place_a 5) in
  exists o', ngx_http_lookaround_getitem demo_env (demo_request (bs "/getitem") args_get_a) (demo_state demo_world1) =
    Ok (NGX_OK, Some (mk_response NGX_HTTP_OK CT_JSON (blen body) (Some body)), mk_state demo_world1 o').
Proof.
  apply (getitem_reads demo_env (demo_request (bs "/getitem") args_get_a) (demo_state demo_world1) demo_cat1
           (bs "a") demo_conf).
  - apply demo_args. vm_compute. set_solver.
  - split; [vm_compute; reflexivity|vm_compute; split; [discriminate|reflexivity]].
  - apply demo_answers.
  - apply demo_svc1.
  - apply demo_printable.
  - apply demo_serves.
Defined.

Lemma lookaround_exact_witness :
  exists items o',
    items ≡ₚ (map_to_list demo_cat1).*2 /\
    let body := json_array (take 3 (select NLA_INVALID_STATUS NLA_INVALID_TYPE
                  (mk_rect (mk_loc 39895996 116396293) (mk_loc 39913982 116414277)) items)) in
    ngx_http_lookaround_lookaround (fun _ => one_km) demo_env (demo_request (bs "/lookaround") args_look)
        (demo_state demo_world1) =
      Ok (NGX_OK, Some (mk_response NGX_HTTP_OK CT_JSON (blen body) (Some body)), mk_state demo_world1 o').
Proof.
  apply (lookaround_exact (fun _ => one_km) demo_env (demo_request (bs "/lookaround") args_look)
           (demo_state demo_world1) demo_cat1 demo_conf place_a one_km
           NLA_INVALID_STATUS NLA_INVALID_TYPE 3).
  - apply demo_args. vm_compute. set_solver.
  - split; [|exists (bs "1"); vm_compute; split; reflexivity|vm_compute; reflexivity..].
    exists (bs "39.904989"), (bs "116.405285"). vm_compute. repeat split.
  - unfold NLA_MAX_COUNT. lia.
  - vm_compute. reflexivity.
  - reflexivity.
  - apply demo_levels.
  - apply demo_answers.
  - apply demo_svc1.
  - apply demo_printable.
  - apply demo_serves.
Defined.

(** [mm_create] and [mm_permission] of the concrete pool. *)
Definition demo_create (_ : Z) (_ : bytes) : option (@mm bump_mm) := Some (bump_start 9 : @mm bump_mm).
Definition demo_permission (m : @mm bump_mm) (_ _ _ : Z) : @mm bump_mm := m.

Lemma init_module_empty_witness :
  exists pr pl' o',
    ngx_http_lookaround_init_module demo_create demo_permission 0
      demo_pool (demo_os : @os endless_mem) 4711 (1370000000, 0) None = Ok (Some pr, pl', o') /\
    svc 2 (pr_world pr) ∅ /\ ullcTotalReq (pr_status pr) = 0.
Proof.
  apply (init_module_empty demo_create demo_permission 0
           demo_pool (demo_os : @os endless_mem) 4711 (1370000000, 0) None demo_conf (bump_start 9 : @mm bump_mm) 400000).
  - apply demo_serves.
  - unfold INT_MIN, INT_MAX. lia.
  - reflexivity.
  - simpl. lia.
  - unfold sizeof_map_node. lia.
  - unfold sizeof_Bucket. simpl. lia.
  - lia.
  - apply bump_plenty. simpl. lia.
Defined.

Lemma pool_file_name_witness :
  fn_v_del_mm_file 1 4711 = Ok (bs "/tmp/nla-4711-1") /\
  forall id' pid', 0 <= id' <= INT_MAX -> 0 <= pid' <= INT_MAX ->
    (fn_v_del_mm_file id' pid' = Ok (bs "/tmp/nla-4711-1") <-> id' = 1 /\ pid' = 4711).
Proof. apply (pool_file_name 1 4711); unfold INT_MAX; lia. Defined.
