(* ===== verification/FaultProps.v ===== *)
(** * Requests that go wrong

    What the service does with incomplete requests, and the inputs on which its
    behaviour is not what it means to be: an identifier of exactly 32 bytes, a
    location outside the map, and an item that leaves its cell. *)
From Stdlib Require Import SpecFloat.
From S2P Require Import Prelude.
From S2P Require Import NgxString.
From S2P Require Import NgxHttpArg.
From S2P Require Import NgxPalloc.
From S2P Require Import Geo.
From S2P Require Import SharedMem.
From S2P Require Import StrMap.
From S2P Require Import QuadTree.
From S2P Require Import QuadTreeSpec.
From S2P Require Import QuadTreeUpd.
From S2P Require Import CoreData.
From S2P Require Import Handler.
From S2P Require Import Service.
From S2P Require Import LaModule.
From S2P Require Import HandlerSpec.
From S2P Require Import HandlerProps.
From S2P Require Import Demo.

Section Faults.
Context {M : MM} {L : MMLaws M} {Osm : OSMem}.
Variable cos : Dbl.double -> Dbl.double.
Variable env : ngx_env.
Implicit Types (cat : catalogue) (st : state).

(** An identifier that is missing, empty or longer than 32 bytes. *)
Definition bad_id (r : request) : Prop :=
  match param r (bs "id") with
  | None => True
  | Some s => blen s = 0 \/ NLA_DATA_ID_MAX_LEN < blen s
  end.

Definition missing (r : request) (names : list bytes) : Prop := exists n, n ∈ names /\ param r n = None.

Lemma bad_id_len s : blen s = 0 \/ NLA_DATA_ID_MAX_LEN < blen s -> id_len_ok s = false.
Proof.
  unfold id_len_ok, NLA_DATA_ID_MAX_LEN. intros H.
  destruct (Z.leb_spec (blen s) 0), (Z.ltb_spec 32 (blen s)); simpl; try done. lia.
Qed.

(** A request that lacks a parameter it needs, whose identifier is empty or
    longer than 32 bytes, or whose count is not between 1 and 9999 is answered
    with status 400, without a response body and without touching the shared
    state or the pool. *)
Theorem bad_requests_rejected r now st :
  args_ok r ->
  (bad_id r \/ missing r [bs "lat"; bs "lon"] ->
   ngx_http_lookaround_setitem env r now st = Ok (NGX_HTTP_BAD_REQUEST, None, st)) /\
  (bad_id r -> ngx_http_lookaround_getitem env r st = Ok (NGX_HTTP_BAD_REQUEST, None, st)) /\
  (missing r [bs "lat"; bs "lon"; bs "radius"] \/
   ~ 0 < int_arg NLA_DEF_COUNT (param r (bs "count")) < NLA_MAX_COUNT ->
   ngx_http_lookaround_lookaround cos env r st = Ok (NGX_HTTP_BAD_REQUEST, None, st)).
Proof.
  intros Hr. unfold bad_id, missing. split; [|split].
  - intros Hbad. unfold ngx_http_lookaround_setitem. params Hr.
    destruct (param r (bs "id")) as [sID|]; [|done].
    destruct (id_len_ok sID) eqn:Hok; [|done]. cbn [negb]. params Hr.
    destruct Hbad as [H%bad_id_len|(n & Hn & Hp)]; [congruence|].
    destruct (param r (bs "lat")) as [sLat|] eqn:E1; [|done]. params Hr.
    destruct (param r (bs "lon")) as [sLon|] eqn:E2; [|done].
    apply elem_of_cons in Hn as [->|[->|Hn%not_elem_of_nil]%elem_of_cons]; congruence || done.
  - intros Hbad. unfold ngx_http_lookaround_getitem. params Hr.
    destruct (param r (bs "id")) as [sID|]; [|done]. by rewrite (bad_id_len _ Hbad).
  - intros Hbad. unfold ngx_http_lookaround_lookaround. params Hr.
    destruct (param r (bs "lat")) as [sLat|] eqn:E1; [|done]. params Hr.
    destruct (param r (bs "lon")) as [sLon|] eqn:E2; [|done]. params Hr.
    destruct (param r (bs "radius")) as [sR|] eqn:E3; [|done]. params Hr.
    destruct Hbad as [(n & Hn & Hp)|Hc].
    + apply elem_of_cons in Hn as [->|[->|[->|Hn%not_elem_of_nil]%elem_of_cons]%elem_of_cons]; congruence || done.
    + set (iCount := int_arg NLA_DEF_COUNT _) in *.
      destruct (Z.leb_spec iCount 0); [done|]. destruct (Z.leb_spec NLA_MAX_COUNT iCount); [done|lia].
Qed.

(** C23: The length check accepts an identifier of 32 bytes, the size of the
    buffers, and the terminating NUL is then written behind the 32-byte buffer on
    the stack: for every [getitem] with such an identifier, and for every [setitem]
    that also has the parameters lat and lon, whatever they hold.  Without one of
    them [setitem] answers 400 before it copies the identifier. *)
Theorem id_of_32_bytes_overruns r now st sID :
  args_ok r -> param r (bs "id") = Some sID -> blen sID = NLA_DATA_ID_MAX_LEN ->
  ngx_http_lookaround_getitem env r st = Undef OutOfBounds /\
  ngx_http_lookaround_setitem env r now st =
    match param r (bs "lat"), param r (bs "lon") with
    | Some _, Some _ => Undef OutOfBounds
    | _, _ => Ok (NGX_HTTP_BAD_REQUEST, None, st)
    end.
Proof.
  intros Hr Hid Hlen.
  assert (Hok : id_len_ok sID = true) by (unfold id_len_ok; by rewrite Hlen).
  assert (Hbuf : id_buffer sID = Undef OutOfBounds) by (unfold id_buffer; by rewrite Hlen).
  split.
  - unfold ngx_http_lookaround_getitem. params Hr. rewrite Hid, Hok. cbn [negb]. by rewrite Hbuf.
  - unfold ngx_http_lookaround_setitem. params Hr. rewrite Hid, Hok. cbn [negb]. params Hr.
    destruct (param r (bs "lat")) as [sLat|]; [|done]. params Hr.
    destruct (param r (bs "lon")) as [sLon|]; [|done]. params Hr. by rewrite Hbuf.
Qed.

(** A new identifier with a location outside the map is answered with OK and
    indexed, but its data node hangs from no leaf; every later [setitem] for that
    identifier dereferences the NULL map node of the data node, which kills the
    worker process. *)
Theorem off_map_item_crashes r now st cat sID l conf limit :
  args_ok r -> id_param r sID -> loc_param r l -> r_conf r = Some conf -> 0 < nMapMaxLevel conf <= INT_MAX ->
  answers env r -> reply_room r (r_pool r) (blen NLA_OK) (st_os st) ->
  svc (nMapMaxLevel conf) (st_world st) cat -> cat !! cstr sID = None ->
  set_room conf cat limit (h_mm (w_heap (st_world st))) -> fn_b_IsLocInRC fn_v_InitRootRect l = false ->
  exists st', ngx_http_lookaround_setitem env r now st =
      Ok (output_filter env, Some (mk_response NGX_HTTP_OK CT_TXT 2 (Some NLA_OK)), st') /\
    forall r' now' l' o', args_ok r' -> id_param r' sID -> loc_param r' l' ->
      ngx_http_lookaround_setitem env r' now' (mk_state (st_world st') o') = Undef NullDeref.
Proof.
  intros Hr Hid Hl Hc Hlev Hans Hroom Hsvc Hnew Hset Hout. rewrite (setitem_body env r now st sID l) by done.
  pose proof (cstr_length sID) as Hcl. pose proof Hid as (_ & Hlen). rewrite Hc.
  destruct (setdataloc_off_map conf (st_world st) cat (cstr sID) l (int_arg 0 (param r (bs "status")))
              (int_arg 0 (param r (bs "type"))) limit now Hsvc Hnew Hset ltac:(lia) Hout ltac:(lia))
    as (w' & d & dn & -> & Hget & Hdn & Hpm).
  rewrite obind_Ok.
  destruct (render_spec env r (r_pool r) NLA_OK CT_TXT (mk_state w' (st_os st)) Hans Hroom) as (o' & ->).
  eexists. split; [done|]. intros r' now' l' o2 Hr' Hid' Hl'. rewrite (setitem_body env r' now' _ sID l') by done.
  cbn [st_world]. by rewrite (setdataloc_unlinked _ _ d dn _ _ _ _ _ Hget Hdn Hpm).
Qed.

(** A data node that is its own successor stops the walk from ending. *)
Lemma walk_self_loop iStatus iType iMaxCount h d dn pRC ex fuel :
  datas h !! d = Some dn -> next dn = Some d -> selected pRC iStatus iType (data dn) = false ->
  ex_count ex < iMaxCount -> walk iStatus iType iMaxCount fuel h pRC (Some d) ex = NoFuel.
Proof.
  intros Hd Hn Hs Hc. induction fuel as [|fuel IH]; [done|]. cbn [walk].
  destruct (Z.ltb_spec (ex_count ex) iMaxCount); [|lia]. rewrite bool_decide_eq_true_2 by done. cbn [andb].
  by rewrite (ld_data_Some _ _ _ Hd), obind_Ok, Hs, obind_Ok, Hn.
Qed.
End Faults.

(** ** An item that leaves its cell *)
#[local] Existing Instance bump_mm.

(** A search of the whole map for items with status [iStatus]. *)
Definition demo_search (iStatus : Z) (wf : nat) (w : @world bump_mm) : out nla_ex_param :=
  let! core := deref (w_core w) in
  get_around_data 2 iStatus NLA_INVALID_TYPE 50 3 wf (w_heap w) fn_v_InitRootRect (p_map_root core)
    (mk_ex 0 (bs "[") 10000).

Definition moved_away : out (@world bump_mm) :=
  let! w := demo_set (bs "b") place_b demo_world in
  let! w := demo_set (bs "a") place_a w in
  demo_set (bs "a") place_c w.

Definition moved_back : out (@world bump_mm) :=
  let! w := demo_set (bs "a") place_c demo_world1 in
  demo_set (bs "a") place_a w.

(** Items "b" and "a" are set in one cell, then "a" is set in another cell.
    Because the data node is not removed from the list of its old leaf, the list
    continues into the list of the new leaf: a search of the whole map returns
    "a" and misses "b", although the lookup of both still succeeds. *)
Theorem moving_an_item_loses_others :
  exists w ex, moved_away = Ok w /\ demo_search NLA_INVALID_STATUS 100 w = Ok ex /\
    ex_json ex = bs "[" ++ item_json (mk_item (bs "a") 0 0 place_c 5) ++ bs "," /\
    (exists pa, ngx_http_lookaround_getdatanode (bs "a") w = Ok (Some pa)) /\
    (exists pb, ngx_http_lookaround_getdatanode (bs "b") w = Ok (Some pb)).
Proof.
  eexists _, _. split; [vm_compute; reflexivity|]. split; [vm_compute; reflexivity|].
  split; [vm_compute; reflexivity|]. split; eexists; vm_compute; reflexivity.
Qed.

(** An item that is moved to another cell and back becomes its own successor
    in the list of its leaf: a search that does not select it never ends, however
    long it runs. *)
Theorem moving_an_item_back_hangs_searches :
  exists w, moved_back = Ok w /\ forall wf, demo_search 7 wf w = NoFuel.
Proof.
  eexists. split; [vm_compute; reflexivity|]. intros wf. unfold demo_search.
  cbn [w_core deref]. rewrite obind_Ok. cbv -[walk].
  erewrite walk_self_loop; [reflexivity|vm_compute; reflexivity|reflexivity|vm_compute; reflexivity|reflexivity].
Qed.

(** ** Witnesses *)
#[local] Existing Instance bump_laws.
#[local] Existing Instance endless_mem.

(** A request without parameters. *)
Lemma bad_requests_rejected_witness :
  ngx_http_lookaround_setitem demo_env (demo_request (bs "/setitem") []) 5 (demo_state demo_world) =
    Ok (NGX_HTTP_BAD_REQUEST, None, demo_state demo_world).
Proof.
  apply (proj1 (bad_requests_rejected (fun x => x) demo_env (demo_request (bs "/setitem") []) 5
                 (demo_state demo_world) (Forall_nil_2 _))).
  left. vm_compute. exact I.
Defined.

Lemma id_of_32_bytes_overruns_witness :
  ngx_http_lookaround_getitem demo_env (demo_request (bs "/setitem") args_id32) (demo_state demo_world) =
    Undef OutOfBounds /\
  ngx_http_lookaround_setitem demo_env (demo_request (bs "/setitem") args_id32) 5 (demo_state demo_world) =
    Undef OutOfBounds.
Proof.
  apply (id_of_32_bytes_overruns demo_env (demo_request (bs "/setitem") args_id32) 5 (demo_state demo_world)
           (bs "d0e3f836c81011e28497f23c91aec05e"));
    [apply demo_args; vm_compute; set_solver|vm_compute; reflexivity..].
Defined.

Lemma off_map_item_crashes_witness :
  exists st', ngx_http_lookaround_setitem demo_env (demo_request (bs "/setitem") args_off_map) 5 (demo_state demo_world) =
      Ok (NGX_OK, Some (mk_response NGX_HTTP_OK CT_TXT 2 (Some NLA_OK)), st') /\
    forall r' now' l' o', args_ok r' -> id_param r' (bs "a") -> loc_param r' l' ->
      ngx_http_lookaround_setitem demo_env r' now' (mk_state (st_world st') o') = Undef NullDeref.
Proof.
  apply (off_map_item_crashes demo_env (demo_request (bs "/setitem") args_off_map) 5 (demo_state demo_world) ∅
           (bs "a") (mk_loc 95000000 0) demo_conf 100).
  - apply demo_args. vm_compute. set_solver.
  - split; [vm_compute; reflexivity|vm_compute; split; [discriminate|reflexivity]].
  - exists (bs "95"), (bs "0"). vm_compute. repeat split.
  - reflexivity.
  - vm_compute. split; [reflexivity|discriminate].
  - apply demo_answers.
  - apply demo_serves.
  - apply demo_svc.
  - reflexivity.
  - apply demo_room; [rewrite map_size_empty; lia|vm_compute; lia].
  - vm_compute. reflexivity.
Defined.
