(* ===== verification/Workers.v ===== *)
(** * Worker processes that set items at the same time

    nginx runs several worker processes on the shared data.  Each call of
    [ngx_http_lookaround_setdataloc] is a sequence of steps.  The lookup takes no
    lock: it reads the count of the bucket of its identifier, the pointer to the
    pairs, one pair after the other ([get_pair]) and the value that was found,
    each in a step of its own.  Then come the allocation and filling of a new
    node; the tests and the compare-and-set of [ngx_spinlock]; in the critical
    section the parts of [sm_put_ptrvalue], which moves the array of the pairs and
    then writes pointer, count, key and value one after the other, and the calls on
    the tree; the release of the lock; the final assignment of the time.  [exec] is
    one step of one worker, [turn] lets a worker of the system take it, and [step]
    is the interleaving of all of them.

    A bucket that is being changed is seen as it is in memory ([flux]): a lookup
    in it may read an array that was freed or a pair that nothing was written to.
    The mm library locks its pool itself, so an allocation is one step.  The search
    of [sm_put_ptrvalue] for the key is one step, as only the owner of the lock
    writes to buckets, and so is the copy of a key.  The calls on the tree are one
    step each: of what they write, [Found] of another worker reads the map node of an
    item, and nothing else. *)
From S2P Require Import Prelude.
From S2P Require Import Geo.
From S2P Require Import SharedMem.
From S2P Require Import StrMap.
From S2P Require Import QuadTree.
From S2P Require Import CoreData.
From stdpp Require Import relations.
#[local] Open Scope Z_scope.
#[local] Open Scope c_scope.

(** The arguments of a call, and what [time(NULL)] will answer it. *)
Record call := mk_call { c_id : bytes; c_loc : nla_2dloc; c_status : Z; c_type : Z; c_now : Z }.

(** What is to be done while the lock is held. *)
Inductive crit : Type :=
| CPut (p : ptr)      (** [sm_put_ptrvalue] of a new node: the search, the copy of the key *)
| CGrow (p : ptr) (nk : addr)              (** the array of the pairs *)
| CPtr (p : ptr) (nk : addr) (q : addr)    (** [bucket->pairs = tmp_pairs] *)
| CCount (p : ptr) (nk : addr)             (** [bucket->count++] *)
| CKey (p : ptr) (nk : addr)               (** [pair->key = new_key] *)
| CValue (p : ptr) (nk : addr)             (** [pair->value = value] *)
| CCopy (p : ptr) (nk : addr)              (** [strcpy(pair->key, key)] *)
| CRemove (p : ptr)   (** [remove_datanode_from_map] of a known one *)
| CMove (p : ptr)     (** the assignment of its location *)
| CAdd (p : ptr)      (** [adddatanode] *)
| CUnlock (p : ptr).  (** [lock = 0] *)

(** Where the lookup is, in bucket [b]: the count [n] is read, the pointer [q] is
    read and the pairs before [j] do not match, the pair [j] matches. *)
Inductive look : Type :=
| LPairs (b n : nat)
| LScan (b : nat) (q : ptr) (n j : nat)
| LValue (b : nat) (q : ptr) (j : nat).

(** Where a worker is in the call. *)
Inductive pc : Type :=
| Start
| Look (l : look)
| NotFound
| Found (p : ptr)
| Spin (s : spin_at) (c : crit)
| Cas (s : spin_at) (c : crit)
| Crit (c : crit)
| Stamp (p : ptr)
| Done
| Crashed (u : ub).

(** A pair in memory; [None] is a member that nothing was written to. *)
Record slot := mk_slot { slot_key : option (option (addr * bytes)); slot_value : option ptr }.
Definition slot_of (p : Pair addr) : slot := mk_slot (Some (key p)) (Some (value p)).
(** A bucket in memory: its members, and the array of pairs that is allocated. *)
Record flux := mk_flux { fx_pairs : ptr; fx_count : nat; fx_array : ptr; fx_slots : list slot }.
Definition flux_of (b : Bucket addr) : flux := mk_flux (pairs_ptr b) (length (pairs b)) (pairs_ptr b) (slot_of <$> pairs b).
Definition set_slot (j : nat) (f : slot -> slot) (x : flux) : out flux :=
  match fx_slots x !! j with
  | Some c => Ok (mk_flux (fx_pairs x) (fx_count x) (fx_array x) (<[j := f c]> (fx_slots x)))
  | None => Undef OutOfBounds
  end.
(** A read of pair [j] of the array at [q]. *)
Definition get_slot (x : flux) (q : ptr) (j : nat) : out slot :=
  match q with
  | None => Undef NullDeref
  | Some _ =>
      if bool_decide (q = fx_array x) then match fx_slots x !! j with Some c => Ok c | None => Undef OutOfBounds end
      else Undef BadPointer
  end.
(** The test of the loop of [get_pair] reads the key, the value and the bytes of the key. *)
Definition slot_matches (k : bytes) (c : slot) : out bool :=
  match slot_key c with
  | None => Undef BadPointer
  | Some None => Ok false
  | Some (Some (_, s)) =>
      match slot_value c with
      | None => Undef BadPointer
      | Some None => Ok false
      | Some (Some _) => Ok (bool_decide (s = k))
      end
  end.

(** A member that was written. *)
Definition of_written {A} (c : option A) : out A := match c with Some v => Ok v | None => Undef BadPointer end.

Section Workers.
Context {M : MM}.
Variables (ngx_ncpu : Z) (conf : loc_conf).

(** The shared memory: the data, and the bucket that is being changed with its number.  Its
    entry in the string map of the data is what it will be. *)
Record shmem := mk_shmem { m_world : world; m_flux : option (nat * flux) }.

Definition with_heap (w : shmem) (h : heap) : shmem := mk_shmem (mk_world h (w_core (m_world w))) (m_flux w).
Definition with_core (w : shmem) (core : nla_core_data) : shmem := mk_shmem (mk_world (w_heap (m_world w)) (Some core)) (m_flux w).
Definition with_flux (w : shmem) (x : option (nat * flux)) : shmem := mk_shmem (m_world w) x.

Definition set_mm (m : mm) (h : heap) : heap := mk_heap m (maps h) (datas h).

(** Bucket [i] as it is in memory. *)
Definition bucket_now (w : shmem) (map : StrMap addr) (i : nat) : out flux :=
  match m_flux w with
  | Some (i', x) => if decide (i = i') then Ok x else let! b := bucket_at map i in Ok (flux_of b)
  | None => let! b := bucket_at map i in Ok (flux_of b)
  end.
Definition the_map (w : shmem) : out (StrMap addr) :=
  let! core := deref (w_core (m_world w)) in deref (p_id2data_map core).

(** A step of the lookup. *)
Definition exec_look (k : call) (l : look) (w : shmem) : out (pc * shmem) :=
  let! map := the_map w in
  match l with
  | LPairs b n =>
      let! x := bucket_now w map b in
      Ok (Look (LScan b (fx_pairs x) n 0), w)
  | LScan b q n j =>
      let! x := bucket_now w map b in
      let! c := get_slot x q j in
      let! m := slot_matches (c_id k) c in
      Ok (if m : bool then Look (LValue b q j) else if (S j =? n)%nat then NotFound else Look (LScan b q n (S j)), w)
  | LValue b q j =>
      let! x := bucket_now w map b in
      let! c := get_slot x q j in
      let! p := of_written (slot_value c) in
      Ok (match p with None => NotFound | Some _ => Found p end, w)
  end.

(** The write of a member of the last pair of the bucket that is being changed. *)
Definition write_last (f : slot -> slot) (w : shmem) : out shmem :=
  let! (i, x) := of_written (m_flux w) in
  let! x := set_slot (fx_count x - 1) f x in
  Ok (with_flux w (Some (i, x))).

Definition exec_crit (k : call) (c : crit) (w : shmem) : out (pc * shmem) :=
  let h := w_heap (m_world w) in
  let! core := deref (w_core (m_world w)) in
  match c with
  | CPut p =>
      match p_id2data_map core with
      | None => Ok (Crit (CAdd p), w)
      | Some map =>
          let! (i, b, j) := find_pair map (c_id k) in
          match j with
          | Some j =>
              let old := pairs b !! j ≫= StrMap.key in
              Ok (Crit (CAdd p), with_core w (set_id_map (Some (set_bucket map i (set_pair b j (mk_pair old p)))) core))
          | None =>
              let '(new_key, m) := mm_calloc (h_mm h) (u32 (u32 (blen (c_id k)) + 1)) in
              Ok (match new_key with None => Crit (CAdd p) | Some nk => Crit (CGrow p nk) end, with_heap w (set_mm m h))
          end
      end
  | CGrow p nk =>
      let! map := deref (p_id2data_map core) in
      let! i := index map (c_id k) in
      let! b := bucket_at map i in
      let '(new_pairs, m) := grow_bucket (h_mm h) b in
      match new_pairs with
      | None => Undef BadFree
      | Some q =>
          let blank := match pairs b with [] => mk_slot (Some None) (Some None) | _ => mk_slot None None end in
          let x := mk_flux (pairs_ptr b) (length (pairs b)) (Some q) ((slot_of <$> pairs b) ++ [blank]) in
          let map' := set_bucket map i (mk_bucket (Some q) (pairs b ++ [mk_pair (Some (nk, c_id k)) p])) in
          Ok (Crit (CPtr p nk q), with_flux (with_core (with_heap w (set_mm m h)) (set_id_map (Some map') core)) (Some (i, x)))
      end
  | CPtr p nk q =>
      let! (i, x) := of_written (m_flux w) in
      Ok (Crit (CCount p nk), with_flux w (Some (i, mk_flux (Some q) (fx_count x) (fx_array x) (fx_slots x))))
  | CCount p nk =>
      let! (i, x) := of_written (m_flux w) in
      Ok (Crit (CKey p nk), with_flux w (Some (i, mk_flux (fx_pairs x) (S (fx_count x)) (fx_array x) (fx_slots x))))
  | CKey p nk =>
      let! w := write_last (fun c => mk_slot (Some (Some (nk, []))) (slot_value c)) w in
      Ok (Crit (CValue p nk), w)
  | CValue p nk =>
      let! w := write_last (fun c => mk_slot (slot_key c) (Some p)) w in
      Ok (Crit (CCopy p nk), w)
  | CCopy p nk =>
      let! w := write_last (fun c => mk_slot (Some (Some (nk, c_id k))) (slot_value c)) w in
      Ok (Crit (CAdd p), with_flux w None)
  | CRemove p =>
      let! h := remove_datanode_from_map (nMapMaxLevel conf) (depth conf) (p_map_root core) p h in
      Ok (Crit (CMove p), with_heap w h)
  | CMove p =>
      let! h := upd_data p (set_loc (c_loc k)) h in
      Ok (Crit (CAdd p), with_heap w h)
  | CAdd p =>
      let! h := adddatanode (nMapMaxLevel conf) (depth conf) (p_map_root core) p h in
      Ok (Crit (CUnlock p), with_heap w h)
  | CUnlock p => Ok (Stamp p, with_core w (set_lock 0 core))
  end.

Definition exec (k : call) (c : pc) (w : shmem) : out (pc * shmem) :=
  let h := w_heap (m_world w) in
  match c with
  | Start =>
      match w_core (m_world w) ≫= p_id2data_map with
      | None => Ok (NotFound, w)
      | Some map =>
          let! i := index map (c_id k) in
          let! x := bucket_now w map i in
          Ok (if (fx_count x =? 0)%nat then NotFound else Look (LPairs i (fx_count x)), w)
      end
  | Look l => exec_look k l w
  | NotFound =>
      let '(p, h) := alloc_data h in
      let! h := fill_data (c_id k) (c_status k) (c_type k) (c_loc k) p h in
      Ok (Spin Outer (CPut p), with_heap w h)
  | Found p =>
      let! d := ld_data h p in
      let! n := ld_map h (p_map_node d) in
      if fn_b_IsLocInRC (rc n) (c_loc k) then
        let! h := upd_data p (set_loc (c_loc k)) h in Ok (Stamp p, with_heap w h)
      else Ok (Spin Outer (CRemove p), w)
  | Spin s c =>
      let! core := deref (w_core (m_world w)) in
      if lock core =? 0 then Ok (Cas s c, w) else Ok (Spin (spin_next ngx_ncpu NLA_DEF_LOCK_SPIN s) c, w)
  | Cas s c =>
      let! core := deref (w_core (m_world w)) in
      if lock core =? 0 then Ok (Crit c, with_core w (set_lock 1 core))
      else Ok (Spin (spin_next ngx_ncpu NLA_DEF_LOCK_SPIN s) c, w)
  | Crit c => exec_crit k c w
  | Stamp p =>
      let! h := upd_data p (set_time (c_now k)) h in
      Ok (Done, with_heap w h)
  | Done => Ok (Done, w)
  | Crashed u => Undef u
  end.

(** The shared data and the workers. *)
Record sys := mk_sys { s_mem : shmem; s_workers : list (call * pc) }.
Abbreviation s_world s := (m_world (s_mem s)).

(** A step of worker [i]; an undefined behaviour kills it. *)
Definition turn (i : nat) (s : sys) : sys :=
  match s_workers s !! i with
  | None => s
  | Some (k, c) =>
      match exec k c (s_mem s) with
      | Ok (c', w) => mk_sys w (<[i := (k, c')]> (s_workers s))
      | Undef u => mk_sys (s_mem s) (<[i := (k, Crashed u)]> (s_workers s))
      | NoFuel => s
      end
  end.

(** Any worker may take the next step. *)
Inductive step : sys -> sys -> Prop :=
| step_turn i s : step s (turn i s).

(** A schedule names the worker of each step. *)
Definition run (schedule : list nat) (s : sys) : sys := fold_left (fun s i => turn i s) schedule s.

Lemma run_steps schedule s : rtc step s (run schedule s).
Proof.
  revert s. induction schedule as [|i l IH]; intros s; [done|]. eapply rtc_l; [apply step_turn|apply IH].
Qed.

Lemma steps_run s s' : rtc step s s' -> exists schedule, s' = run schedule s.
Proof. induction 1 as [s|s s1 s2 [i s0] _ [l ->]]; [by exists []|by exists (i :: l)]. Qed.

(** ** Mutual exclusion *)
Definition in_crit (c : pc) : bool := match c with Crit _ => true | _ => false end.
Definition crashed (c : pc) : bool := match c with Crashed _ => true | _ => false end.

(** Number of workers in the critical section. *)
Definition holders (l : list (call * pc)) : nat := length (filter (fun kc => in_crit kc.2 = true) l).

Definition lock_of (w : world) : option Z := lock <$> w_core w.

Definition lock_now (w : shmem) : option Z := lock_of (m_world w).

Lemma write_last_lock f w w' : write_last f w = Ok w' -> lock_now w' = lock_now w.
Proof. unfold write_last. intros ([i x] & _ & (x' & _ & [= <-])%obind_Ok_inv)%obind_Ok_inv. done. Qed.

Lemma exec_crit_lock k c w c' w' : exec_crit k c w = Ok (c', w') ->
  match c with
  | CUnlock _ => in_crit c' = false /\ lock_now w' = Some 0
  | _ => in_crit c' = true /\ lock_now w' = lock_now w
  end.
Proof.
  unfold exec_crit. intros (core & Hc & H)%obind_Ok_inv.
  assert (Hl : forall core' fl h, lock core' = lock core -> lock_now (mk_shmem (mk_world h (Some core')) fl) = lock_now w).
  { intros core' fl h. unfold lock_now, lock_of. destruct (w_core (m_world w)); [|done]. injection Hc as ->. simpl. by intros ->. }
  destruct c.
  - destruct (p_id2data_map core); [|by injection H as <- <-]. apply obind_Ok_inv in H as ([[i b] [j|]] & _ & H).
    + injection H as <- <-. split; [done|]. by apply Hl.
    + destruct (mm_calloc _ _) as [[nk|] m]; by injection H as <- <-.
  - apply obind_Ok_inv in H as (map & _ & (i & _ & (b & _ & H)%obind_Ok_inv)%obind_Ok_inv). destruct (grow_bucket _ _) as [[q|] m]; [|done].
    injection H as <- <-. split; [done|]. by apply Hl.
  - apply obind_Ok_inv in H as ([i x] & _ & [= <- <-]). done.
  - apply obind_Ok_inv in H as ([i x] & _ & [= <- <-]). done.
  - apply obind_Ok_inv in H as (w1 & Hw & [= <- <-]). split; [done|]. by eapply write_last_lock.
  - apply obind_Ok_inv in H as (w1 & Hw & [= <- <-]). split; [done|]. by eapply write_last_lock.
  - apply obind_Ok_inv in H as (w1 & Hw & [= <- <-]). split; [done|]. change (lock_now (with_flux w1 None)) with (lock_now w1). by eapply write_last_lock.
  - apply obind_Ok_inv in H as (h & _ & [= <- <-]). done.
  - apply obind_Ok_inv in H as (h & _ & [= <- <-]). done.
  - apply obind_Ok_inv in H as (h & _ & [= <- <-]). done.
  - injection H as <- <-. done.
Qed.

Lemma exec_look_lock k l w c' w' : exec_look k l w = Ok (c', w') -> in_crit c' = false /\ w' = w.
Proof.
  unfold exec_look. intros (map & _ & H)%obind_Ok_inv. destruct l.
  - by apply obind_Ok_inv in H as (x & _ & [= <- <-]).
  - apply obind_Ok_inv in H as (x & _ & (c & _ & (m & _ & [= <- <-])%obind_Ok_inv)%obind_Ok_inv). split; [|done]. destruct m; [done|]. by destruct n as [|n]; [|destruct (j =? n)%nat].
  - apply obind_Ok_inv in H as (x & _ & (c & _ & (p & _ & [= <- <-])%obind_Ok_inv)%obind_Ok_inv). by destruct p.
Qed.

(** How a step of a worker changes the lock. *)
Lemma exec_lock k c w c' w' : exec k c w = Ok (c', w') ->
  (in_crit c = false /\ in_crit c' = false /\ lock_now w' = lock_now w) \/
  (in_crit c = false /\ in_crit c' = true /\ lock_now w = Some 0 /\ lock_now w' = Some 1) \/
  (in_crit c = true /\ in_crit c' = true /\ lock_now w' = lock_now w) \/
  (in_crit c = true /\ in_crit c' = false /\ lock_now w' = Some 0).
Proof.
  destruct c as [|l| |p|s c|s c|c|p| |u]; cbn [exec]; intros H.
  - left. destruct (_ ≫= _) as [map|]; [|by injection H as <- <-]. apply obind_Ok_inv in H as (i & _ & (x & _ & [= <- <-])%obind_Ok_inv). by destruct (fx_count x =? 0)%nat.
  - left. by apply exec_look_lock in H as [-> ->].
  - destruct (alloc_data _) as [p h]. apply obind_Ok_inv in H as (h' & _ & [= <- <-]). by left.
  - apply obind_Ok_inv in H as (d & _ & (n & _ & H)%obind_Ok_inv). left.
    destruct (fn_b_IsLocInRC _ _); [apply obind_Ok_inv in H as (h' & _ & H)|]; by injection H as <- <-.
  - apply obind_Ok_inv in H as (core & _ & H). left. by destruct (_ =? 0); injection H as <- <-.
  - apply obind_Ok_inv in H as (core & Hc & H). unfold lock_now, lock_of in *. destruct (w_core (m_world w)) as [co|] eqn:E; [|done].
    injection Hc as ->. destruct (Z.eqb_spec (lock core) 0) as [Hl|]; injection H as <- <-.
    + right; left. simpl. by rewrite Hl.
    + left. by rewrite E.
  - apply exec_crit_lock in H. right; right. destruct c; destruct H; [left..|right]; done.
  - apply obind_Ok_inv in H as (h & _ & [= <- <-]). by left.
  - injection H as <- <-. by left.
  - done.
Qed.

(** A lock that is taken is owned by the worker in the critical section; once
    workers have crashed it may be lost. *)
Definition lock_inv (s : sys) : Prop :=
  (lock_of (s_world s) = Some 0 /\ holders (s_workers s) = 0%nat) \/
  (lock_of (s_world s) = Some 1 /\ (holders (s_workers s) <= 1)%nat /\
     (holders (s_workers s) = 1%nat \/ exists j k u, s_workers s !! j = Some (k, Crashed u))).

Lemma holders_insert l i k c c' :
  l !! i = Some (k, c) ->
  (holders (<[i := (k, c')]> l) + (if in_crit c then 1 else 0) = holders l + (if in_crit c' then 1 else 0))%nat.
Proof.
  intros Hi. destruct (list_elem_of_split_length _ _ _ Hi) as (l1 & l2 & -> & ->).
  rewrite insert_app_r_alt, Nat.sub_diag by lia. cbn [insert list_insert]. unfold holders.
  rewrite !list.filter_app, !list.filter_cons, !length_app. simpl.
  destruct (in_crit c), (in_crit c'); simpl; lia.
Qed.

Lemma holders_none l : Forall (fun kc => in_crit kc.2 = false) l -> holders l = 0%nat.
Proof.
  unfold holders. induction 1 as [|[k c] l Hc Hl IH]; [done|]. rewrite list.filter_cons. simpl in Hc. simpl. by rewrite Hc.
Qed.

Lemma turn_lock_inv i s : lock_inv s -> lock_inv (turn i s).
Proof.
  intros Hs. unfold turn. destruct (s_workers s !! i) as [[k c]|] eqn:Hi; [|done].
  pose proof (fun c' => holders_insert _ _ _ _ c' Hi) as Hh. pose proof (lookup_lt_Some _ _ _ Hi) as Hlt.
  destruct (exec k c (s_mem s)) as [[c' w]|u|] eqn:E; [| |done]; unfold lock_inv in *; cbn [s_mem s_workers].
  - specialize (Hh c').
    assert (Hcr : forall j k1 u, s_workers s !! j = Some (k1, Crashed u) ->
              exists j k1 u, <[i := (k, c')]> (s_workers s) !! j = Some (k1, Crashed u)).
    { intros j k1 u Hj. exists j, k1, u. rewrite list_lookup_insert_ne; [done|]. intros ->. rewrite Hi in Hj.
      injection Hj as -> ->. discriminate E. }
    pose proof (exec_lock _ _ _ _ _ E) as HL. unfold lock_now in HL. destruct HL as [(Hc & Hc' & ->)|[(Hc & Hc' & Hl & ->)|[(Hc & Hc' & ->)|(Hc & Hc' & ->)]]];
      rewrite Hc, Hc' in Hh; destruct Hs as [[Hl0 H0]|(Hl0 & H0 & Hown)]; try congruence; try lia.
    + left. split; [done|lia].
    + right. split; [done|]. split; [lia|]. destruct Hown as [H1|(j & k1 & u & Hj)]; [left; lia|right; by eapply Hcr].
    + right. split; [done|]. split; [lia|left; lia].
    + left. split; [done|lia].
    + right. split; [done|]. split; [lia|]. destruct Hown as [H1|(j & k1 & u & Hj)]; [left; lia|right; by eapply Hcr].
    + left. split; [done|lia].
  - specialize (Hh (Crashed u)). simpl in Hh.
    assert (Hcr : exists j k1 u1, <[i := (k, Crashed u)]> (s_workers s) !! j = Some (k1, Crashed u1))
      by (exists i, k, u; by rewrite list_lookup_insert_eq).
    destruct Hs as [[? ?]|(? & ? & _)]; [left; split; [done|]|right; split; [done|]; split; [|by right]]; destruct (in_crit c); lia.
Qed.

Lemma steps_lock_inv s s' : rtc step s s' -> lock_inv s -> lock_inv s'.
Proof. induction 1 as [|s s1 s2 [i s0] _ IH]; [done|]. intros H. by apply IH, turn_lock_inv. Qed.

Lemma holders_two l i j k k' c c' :
  l !! i = Some (k, Crit c) -> l !! j = Some (k', Crit c') -> (holders l <= 1)%nat -> i = j.
Proof.
  intros Hi Hj Hh. destruct (decide (i = j)) as [|Hne]; [done|]. exfalso.
  pose proof (holders_insert _ _ _ _ Done Hi) as H1.
  assert (Hj' : <[i := (k, Done)]> l !! j = Some (k', Crit c')) by (by rewrite list_lookup_insert_ne).
  pose proof (holders_insert _ _ _ _ Done Hj') as H2. simpl in *. lia.
Qed.
End Workers.
Abbreviation s_world s := (m_world (s_mem s)).
