(* ===== verification/WorkersJoin.v ===== *)
(** * Workers that set different new identifiers

    The invariant of every interleaving: the shared data are those of a
    catalogue, the string map being ahead of the tree while a worker stands
    between the growth of a bucket and the insertion in the tree; a node that is
    not yet in the tree belongs to one worker only; each worker's item is in the
    catalogue exactly when it has left the critical section.  The identifiers fall
    into different buckets, so no lookup sees a bucket that is being changed. *)
From S2P Require Import Prelude.
From S2P Require Import Geo.
From S2P Require Import SharedMem.
From S2P Require Import StrMap.
From S2P Require Import StrMapProps.
From S2P Require Import QuadTree.
From S2P Require Import QuadTreeSpec.
From S2P Require Import QuadTreeAdd.
From S2P Require Import QuadTreeUpd.
From S2P Require Import CoreData.
From S2P Require Import Service.
From S2P Require Import Workers.
From stdpp Require Import relations.
#[local] Open Scope Z_scope.
#[local] Open Scope c_scope.

(** ** Sums over the workers *)
Abbreviation total := sum_list_with.

Lemma total_insert {A} (f : A -> nat) l i x y :
  l !! i = Some x -> (total f (<[i := y]> l) + f x = total f l + f y)%nat.
Proof.
  intros Hi. destruct (list_elem_of_split_length _ _ _ Hi) as (l1 & l2 & -> & ->).
  rewrite insert_app_r_alt, Nat.sub_diag by lia. cbn [insert list_insert].
  rewrite !sum_list_with_app. simpl. lia.
Qed.

(** The number of buckets of the string map, and identifiers that fall into different ones. *)
Definition n_buckets {M : MM} (w : world) : nat := match w_core w ≫= p_id2data_map with Some map => length (buckets map) | None => 0 end.
Definition apart (N : nat) (calls : list call) : Prop := NoDup ((fun k => Z.to_nat (hash (c_id k) mod Z.of_nat N)) <$> calls).

Section Join.
Context {M : MM} {L : MMLaws M}.
Variables (ngx_ncpu : Z) (conf : loc_conf).
Abbreviation nMax := (nMapMaxLevel conf).
Hypothesis Hlevels : 0 <= nMax <= INT_MAX.
Implicit Types (h : heap) (w : shmem) (cat : catalogue) (map : StrMap addr) (pub ids : gmap bytes addr) (t : qt).
Abbreviation exec := (exec ngx_ncpu conf).
Abbreviation turn := (turn ngx_ncpu conf).

(** The item of a call, before and after its time is set. *)
Definition item_of (k : call) (t : Z) : nla_data_item := mk_item (c_id k) (c_status k) (c_type k) (c_loc k) t.

(** The node a worker has filled and not yet put in the tree. *)
Definition crit_node (c : crit) : option addr :=
  match c with
  | CPut p | CGrow p _ | CPtr p _ _ | CCount p _ | CKey p _ | CValue p _ | CCopy p _ | CAdd p => p
  | _ => None
  end.
Definition private (c : pc) : option addr :=
  match c with Spin _ (CPut p) | Cas _ (CPut p) => p | Crit c => crit_node c | _ => None end.
(** The bucket holds the identifier and the tree does not yet; the bucket is being changed. *)
Definition writing (c : pc) : bool := match c with Crit (CPtr _ _ _ | CCount _ _ | CKey _ _ | CValue _ _ | CCopy _ _) => true | _ => false end.
Definition adding (c : pc) : bool := match c with Crit (CAdd _) => true | _ => writing c end.

(** The allocations a worker may still make; the identifiers still to publish. *)
Definition path_nodes : nat := 4 * depth conf.
Definition need (kc : call * pc) : nat :=
  match kc.2 with
  | Start | Look _ | NotFound => 3 + path_nodes
  | Spin _ _ | Cas _ _ | Crit (CPut _) => 2 + path_nodes
  | Crit (CGrow _ _) => 1 + path_nodes
  | c => if adding c then path_nodes else 0
  end.
Definition before (kc : call * pc) : nat :=
  match kc.2 with Start | Look _ | NotFound | Spin _ _ | Cas _ _ | Crit (CPut _ | CGrow _ _) => 1 | _ => 0 end.

(** How far a worker is from the end of its call, when no bucket has more than [F] pairs; the
    tests of the lock count alike. *)
Definition rank (F : nat) (c : pc) : nat :=
  match c with
  | Start => 16 + F | Look (LPairs _ _) => 15 + F | Look (LScan _ _ n j) => 14 + (n - j) | Look (LValue _ _ _) => 14
  | NotFound => 13 | Found _ => 13 | Spin _ _ | Cas _ _ => 12
  | Crit (CPut _) => 10 | Crit (CGrow _ _) => 9 | Crit (CPtr _ _ _) => 8 | Crit (CCount _ _) => 7 | Crit (CKey _ _) => 6
  | Crit (CValue _ _) => 5 | Crit (CCopy _ _) => 4 | Crit (CRemove _) => 5 | Crit (CMove _) => 4 | Crit (CAdd _) => 3 | Crit (CUnlock _) => 2
  | Stamp _ => 1 | Done | Crashed _ => 0
  end.

(** A lookup reads the bucket of its identifier, which does not hold it. *)
Definition look_ok map (k : call) (l : look) : Prop :=
  exists b, buckets map !! idx map (c_id k) = Some b /\
    match l with
    | LPairs i n => i = idx map (c_id k) /\ n = length (pairs b) /\ n <> 0%nat
    | LScan i q n j => i = idx map (c_id k) /\ q = pairs_ptr b /\ n = length (pairs b) /\ (j < n)%nat
    | LValue _ _ _ => False
    end.

(** What holds of a worker. *)
Definition worker_ok h map ids t cat (k : call) (c : pc) : Prop :=
  match c with
  | Start | NotFound => cat !! c_id k = None
  | Look l => cat !! c_id k = None /\ look_ok map k l
  | Spin _ (CPut (Some d)) | Cas _ (CPut (Some d))
  | Crit (CPut (Some d) | CGrow (Some d) _ | CPtr (Some d) _ _ | CCount (Some d) _ | CKey (Some d) _ | CValue (Some d) _ | CCopy (Some d) _ | CAdd (Some d)) =>
      cat !! c_id k = None /\ datas h !! d = Some (set_data (item_of k 0) zero_dnode) /\ (d ∉ data_addrs t)
  | Crit (CUnlock (Some d)) | Stamp (Some d) => ids !! c_id k = Some d /\ cat !! c_id k = Some (item_of k 0)
  | Done => cat !! c_id k = Some (item_of k (c_now k))
  | _ => False
  end.

(** A bucket that is being changed has room for one pair more than it counts until the count
    is written. *)
Definition shape (c : pc) (x : flux) : Prop :=
  match c with
  | Crit (CPtr _ _ _ | CCount _ _) => length (fx_slots x) = S (fx_count x)
  | _ => length (fx_slots x) = fx_count x /\ fx_count x <> 0%nat
  end.
Definition flux_ok (s : sys) map : Prop :=
  match m_flux (s_mem s) with
  | None => Forall (fun kc => writing kc.2 = false) (s_workers s)
  | Some (b, x) => exists i k c, s_workers s !! i = Some (k, c) /\ writing c = true /\ b = idx map (c_id k) /\ shape c x
  end.

(** The calls: new, storable, different identifiers, on the map. *)
Record calls_ok (cat0 : catalogue) (calls : list call) : Prop := {
  calls_new : forall k, k ∈ calls -> cat0 !! c_id k = None;
  calls_len : forall k, k ∈ calls -> blen (c_id k) < NLA_DATA_ID_MAX_LEN;
  calls_map : forall k, k ∈ calls -> fn_b_IsLocInRC fn_v_InitRootRect (c_loc k) = true;
  calls_nodup : NoDup (c_id <$> calls)
}.

Section Inv.
Variables (cat0 : catalogue) (calls : list call) (limit : Z) (N : nat).
Hypothesis Hcalls : calls_ok cat0 calls.
Hypothesis Hapart : apart N calls.
Definition final : nat := base.size cat0 + length calls.
Hypothesis Hlimit : sizeof_data_node <= limit < 2 ^ 32 /\ sizeof_Pair * (Z.of_nat final + 1) <= limit.

Record inv_at (s : sys) core map pub ids t cat n : Prop := {
  i_core : w_core (s_world s) = Some core;
  i_shared : shared conf core (w_heap (s_world s)) map pub ids t cat n;
  i_buckets : length (buckets map) = N;
  i_flux : flux_ok s map;
  i_mid : (exists i k c d, s_workers s !! i = Some (k, c) /\ adding c = true /\ private c = Some d /\
             pub = <[c_id k := d]> ids /\ n = S (base.size cat)) \/
          (Forall (fun kc => adding kc.2 = false) (s_workers s) /\ pub = ids /\ n = base.size cat);
  i_calls : (s_workers s).*1 = calls;
  i_lock : lock_inv s;
  i_workers : forall i k c, s_workers s !! i = Some (k, c) -> worker_ok (w_heap (s_world s)) map ids t cat k c;
  i_private : forall i j k k' c c' d, s_workers s !! i = Some (k, c) -> s_workers s !! j = Some (k', c') ->
    private c = Some d -> private c' = Some d -> i = j;
  i_cat : forall x, (x ∉ c_id <$> calls) -> cat !! x = cat0 !! x;
  i_before : (n + total before (s_workers s) <= final)%nat;
  i_room : plenty (total need (s_workers s)) limit (h_mm (w_heap (s_world s)))
}.

Definition inv (s : sys) : Prop := exists core map pub ids t cat n, inv_at s core map pub ids t cat n.

(** Different workers have different identifiers. *)
Lemma worker_ids s i j k k' c c' : (s_workers s).*1 = calls ->
  s_workers s !! i = Some (k, c) -> s_workers s !! j = Some (k', c') -> c_id k = c_id k' -> i = j.
Proof.
  intros Hc Hi Hj E. apply (NoDup_lookup (c_id <$> calls) i j (c_id k)); [by destruct Hcalls| |].
  - by rewrite <- Hc, !list_lookup_fmap, Hi.
  - rewrite <- Hc, !list_lookup_fmap, Hj. simpl. by rewrite E.
Qed.

Lemma worker_call s i k c : (s_workers s).*1 = calls -> s_workers s !! i = Some (k, c) -> k ∈ calls.
Proof. intros <- Hi. apply list_elem_of_fmap. exists (k, c). split; [done|]. by eapply list_elem_of_lookup_2. Qed.

(** The buckets of different workers. *)
Lemma worker_buckets s map i j k k' c c' : (s_workers s).*1 = calls -> length (buckets map) = N ->
  s_workers s !! i = Some (k, c) -> s_workers s !! j = Some (k', c') -> idx map (c_id k) = idx map (c_id k') -> i = j.
Proof.
  intros Hc HN Hi Hj E. unfold idx in E. rewrite HN in E.
  apply (NoDup_lookup ((fun k => Z.to_nat (hash (c_id k) mod Z.of_nat N)) <$> calls) i j (Z.to_nat (hash (c_id k) mod Z.of_nat N))); [done| |].
  - by rewrite <- Hc, !list_lookup_fmap, Hi.
  - rewrite <- Hc, !list_lookup_fmap, Hj. simpl. by rewrite E.
Qed.

Lemma writing_crit c : writing c = true -> in_crit c = true.
Proof. by destruct c as [| | | | | |[]| | |]. Qed.
Lemma adding_crit c : adding c = true -> exists c', c = Crit c'.
Proof. destruct c as [| | | | | |c| | |]; try done. eauto. Qed.

(** What a step of worker [i] has to show. *)
Lemma inv_step s core map pub ids t cat n i k c c' w' core' map' pub' ids' t' cat' n' :
  inv_at s core map pub ids t cat n -> s_workers s !! i = Some (k, c) ->
  turn i s = mk_sys w' (<[i := (k, c')]> (s_workers s)) ->
  w_core (m_world w') = Some core' -> shared conf core' (w_heap (m_world w')) map' pub' ids' t' cat' n' ->
  length (buckets map') = length (buckets map) ->
  ((writing c = false /\ writing c' = false /\ m_flux w' = m_flux (s_mem s)) \/
   (writing c' = true /\ exists x, m_flux w' = Some (idx map' (c_id k), x) /\ shape c' x) \/
   (writing c = true /\ writing c' = false /\ m_flux w' = None)) ->
  ((exists d, adding c' = true /\ private c' = Some d /\ pub' = <[c_id k := d]> ids' /\ n' = S (base.size cat')) \/
   (adding c = false /\ adding c' = false /\ pub' = pub /\ ids' = ids /\ n' = n /\ base.size cat' = base.size cat) \/
   (adding c = true /\ adding c' = false /\ pub' = ids' /\ n' = base.size cat')) ->
  worker_ok (w_heap (m_world w')) map' ids' t' cat' k c' ->
  (forall j k1 c1, j <> i -> s_workers s !! j = Some (k1, c1) -> worker_ok (w_heap (s_world s)) map ids t cat k1 c1 ->
     worker_ok (w_heap (m_world w')) map' ids' t' cat' k1 c1) ->
  (private c' = private c \/ private c' = None \/
   forall j k1 c1 d, s_workers s !! j = Some (k1, c1) -> private c1 = Some d -> private c' <> Some d) ->
  (forall x, (x ∉ c_id <$> calls) -> cat' !! x = cat !! x) ->
  (n' + before (k, c') <= n + before (k, c))%nat ->
  (forall rest, plenty (need (k, c) + rest) limit (h_mm (w_heap (s_world s))) ->
     plenty (need (k, c') + rest) limit (h_mm (w_heap (m_world w')))) ->
  inv (turn i s).
Proof.
  intros I Hi Ht Hcore Hsh HN Hflux Hmid Hself Hothers Hpriv Hcat Hbef Hroom.
  pose proof (turn_lock_inv ngx_ncpu conf i s (i_lock _ _ _ _ _ _ _ _ I)) as Hlock. rewrite Ht in *.
  exists core', map', pub', ids', t', cat', n'.
  assert (Hlt : (i < length (s_workers s))%nat) by (by eapply lookup_lt_Some).
  assert (Hset : forall j kc, j <> i -> <[i := (k, c')]> (s_workers s) !! j = Some kc -> s_workers s !! j = Some kc)
    by (intros j kc Hj; by rewrite list_lookup_insert_ne).
  assert (Hone : in_crit c = true -> forall j k1 c1, s_workers s !! j = Some (k1, c1) -> in_crit c1 = true -> j = i).
  { intros Hcc j k1 c1 Hj Hc1. destruct c as [| | | | | |c0| | |]; try done. destruct c1 as [| | | | | |c2| | |]; try done.
    eapply holders_two; [exact Hj|exact Hi|]. destruct (i_lock _ _ _ _ _ _ _ _ I) as [[_ ->]|(_ & ? & _)]; [lia|done]. }
  assert (Hidx : forall x, idx map' x = idx map x) by (intros x; unfold idx; by rewrite HN).
  split; cbn [s_mem s_workers]; try done.
  - rewrite HN. apply (i_buckets _ _ _ _ _ _ _ _ I).
  - unfold flux_ok. cbn [s_mem s_workers]. pose proof (i_flux _ _ _ _ _ _ _ _ I) as F. unfold flux_ok in F.
    destruct Hflux as [(Hw & Hw' & ->)|[(Hw' & x & -> & Hx)|(Hw & Hw' & ->)]].
    + destruct (m_flux (s_mem s)) as [[b x]|]; [|by apply Forall_insert]. destruct F as (j & k1 & c1 & Hj & Hc1 & -> & Hx). exists j, k1, c1.
      rewrite list_lookup_insert_ne, Hidx; [done|]. intros ->. rewrite Hi in Hj. injection Hj as <- <-. congruence.
    + exists i, k, c'. by rewrite list_lookup_insert_eq.
    + apply Forall_lookup. intros j [k1 c1] Hj. simpl. destruct (decide (j = i)) as [->|Hne]; [rewrite list_lookup_insert_eq in Hj by done; by injection Hj as _ <-|].
      apply Hset in Hj; [|done]. destruct (writing c1) eqn:E; [|done]. destruct Hne. eapply Hone; [by apply writing_crit|exact Hj|by apply writing_crit].
  - destruct Hmid as [(d & Ha & Hd & Hp & Hn)|[(Ha & Ha' & -> & -> & -> & Hs)|(Ha & Ha' & Hp & Hn)]].
    + left. exists i, k, c', d. by rewrite list_lookup_insert_eq.
    + destruct (i_mid _ _ _ _ _ _ _ _ I) as [(j & k1 & c1 & d & Hj & Hc1 & Hd & Hp & Hn)|(Hf & Hp & Hn)].
      * left. exists j, k1, c1, d. rewrite list_lookup_insert_ne, Hs; [done|]. intros ->. rewrite Hi in Hj. injection Hj as _ <-. congruence.
      * right. rewrite Hs. split; [|done]. by apply Forall_insert.
    + right. split; [|done]. apply Forall_lookup. intros j [k1 c1] Hj. simpl.
      destruct (decide (j = i)) as [->|Hne]; [rewrite list_lookup_insert_eq in Hj by done; by injection Hj as _ <-|].
      apply Hset in Hj; [|done]. destruct (adding c1) eqn:E; [|done]. destruct Hne.
      apply adding_crit in Ha as [? ->]. apply adding_crit in E as [? ->]. by eapply Hone.
  - rewrite list_fmap_insert, (i_calls _ _ _ _ _ _ _ _ I). simpl. apply list_insert_id.
    by rewrite <- (i_calls _ _ _ _ _ _ _ _ I), list_lookup_fmap, Hi.
  - intros j k1 c1 Hj. destruct (decide (j = i)) as [->|Hne].
    + rewrite list_lookup_insert_eq in Hj by done. by injection Hj as <- <-.
    + rewrite list_lookup_insert_ne in Hj by done. apply (Hothers j); [done|done|]. by apply (i_workers _ _ _ _ _ _ _ _ I j).
  - assert (Hpr : forall j k1 c1 d, j <> i -> s_workers s !! j = Some (k1, c1) -> private c1 = Some d -> private c' <> Some d).
    { intros j k1 c1 d Hne Hj Hd E. destruct Hpriv as [Hp|[Hp|Hp]]; [|congruence|by eapply Hp].
      apply Hne. eapply (i_private _ _ _ _ _ _ _ _ I); [exact Hj|exact Hi|exact Hd|congruence]. }
    intros j j' k1 k2 c1 c2 d Hj Hj' H1 H2.
    destruct (decide (j = i)) as [->|Hne], (decide (j' = i)) as [->|Hne']; [done| | |].
    + rewrite list_lookup_insert_eq in Hj by done. injection Hj as <- <-.
      rewrite list_lookup_insert_ne in Hj' by done. by destruct (Hpr _ _ _ _ Hne' Hj' H2).
    + rewrite list_lookup_insert_eq in Hj' by done. injection Hj' as <- <-.
      rewrite list_lookup_insert_ne in Hj by done. by destruct (Hpr _ _ _ _ Hne Hj H1).
    + rewrite list_lookup_insert_ne in Hj, Hj' by done. by eapply (i_private _ _ _ _ _ _ _ _ I).
  - intros x Hx. rewrite Hcat by done. by apply (i_cat _ _ _ _ _ _ _ _ I).
  - pose proof (total_insert before _ _ _ (k, c') Hi). pose proof (i_before _ _ _ _ _ _ _ _ I). lia.
  - pose proof (total_insert need _ _ _ (k, c') Hi) as Hn.
    assert (Hge : (need (k, c) <= total need (s_workers s))%nat).
    { clear -Hi. destruct (list_elem_of_split_length _ _ _ Hi) as (l1 & l2 & -> & _). rewrite sum_list_with_app. simpl. lia. }
    replace (total need (<[i:=(k, c')]> (s_workers s))) with (need (k, c') + (total need (s_workers s) - need (k, c)))%nat by lia.
    apply Hroom. replace (need (k, c) + _)%nat with (total need (s_workers s)) by lia. apply (i_room _ _ _ _ _ _ _ _ I).
Qed.

Lemma turn_Ok s i k c c' w' : s_workers s !! i = Some (k, c) -> exec k c (s_mem s) = Ok (c', w') ->
  turn i s = mk_sys w' (<[i := (k, c')]> (s_workers s)).
Proof. intros Hi He. unfold Workers.turn. by rewrite Hi, He. Qed.

(** A worker whose node is in the tree or not filled yet keeps what it has, as
    long as the catalogue, its bucket and the private nodes do. *)
Lemma worker_frame h h' map map' ids ids' t t' cat cat' k c :
  worker_ok h map ids t cat k c -> cat' !! c_id k = cat !! c_id k -> (ids !! c_id k <> None -> ids' !! c_id k = ids !! c_id k) ->
  (forall l, c = Look l -> look_ok map k l -> look_ok map' k l) ->
  (forall d, private c = Some d -> (d ∉ data_addrs t) -> is_Some (datas h !! d) -> datas h' !! d = datas h !! d /\ (d ∉ data_addrs t')) ->
  worker_ok h' map' ids' t' cat' k c.
Proof.
  intros Hw Hc Hids Hl Hp.
  assert (Hpriv : forall d, private c = Some d ->
    cat !! c_id k = None /\ datas h !! d = Some (set_data (item_of k 0) zero_dnode) /\ (d ∉ data_addrs t) ->
    cat' !! c_id k = None /\ datas h' !! d = Some (set_data (item_of k 0) zero_dnode) /\ (d ∉ data_addrs t')).
  { intros d Hd (H1 & H2 & H3). destruct (Hp d Hd H3 ltac:(rewrite H2; done)) as [E Hn]. rewrite Hc, E. done. }
  assert (Hin : forall d, ids !! c_id k = Some d /\ cat !! c_id k = Some (item_of k 0) ->
    ids' !! c_id k = Some d /\ cat' !! c_id k = Some (item_of k 0)).
  { intros d [H1 H2]. rewrite Hids, Hc by congruence. done. }
  destruct c as [|l| |q|sp c|sp c|c|[q|]| |u]; simpl in *; try done; try congruence; try (by apply Hin).
  - rewrite Hc. destruct Hw. auto.
  - destruct c as [[q|]|? ?|? ? ?|? ?|? ?|? ?|? ?|q|q|[q|]|q]; try done. by apply Hpriv.
  - destruct c as [[q|]|? ?|? ? ?|? ?|? ?|? ?|? ?|q|q|[q|]|q]; try done. by apply Hpriv.
  - destruct c as [[q|]|[q|] ?|[q|] ? ?|[q|] ?|[q|] ?|[q|] ?|[q|] ?|q|q|[q|]|[q|]]; try done; first [by apply Hpriv|by apply Hin].
Qed.

Lemma private_data h map ids t cat k c d : worker_ok h map ids t cat k c -> private c = Some d ->
  datas h !! d = Some (set_data (item_of k 0) zero_dnode) /\ (d ∉ data_addrs t).
Proof.
  intros Hw Hp. destruct c as [|l| |q|sp c|sp c|c|q| |u]; try done; (destruct c as [[|]|[|] ?|[|] ? ?|[|] ?|[|] ?|[|] ?|[|] ?|?|?|[|]|?]; try done; injection Hp as ->; by destruct Hw as (_ & ?)).
Qed.

Section Step.
Variables (s : sys) (core : nla_core_data) (map : StrMap addr) (pub ids : gmap bytes addr) (t : qt)
  (cat : catalogue) (n : nat) (i : nat) (k : call).
Hypothesis I : inv_at s core map pub ids t cat n.
Abbreviation w := (s_mem s).
Abbreviation h := (w_heap (m_world w)).

(** Worker [i], at [c], takes a step towards the end of its call. *)
Definition forward (c : pc) : Prop := exists c' w', exec k c w = Ok (c', w') /\ (rank final c' < rank final c)%nat.

(** The identifiers of the other workers. *)
Lemma other_id c j k1 c1 : s_workers s !! i = Some (k, c) -> s_workers s !! j = Some (k1, c1) -> j <> i -> c_id k <> c_id k1.
Proof.
  intros Hi Hj Hne E. apply Hne. symmetry. eapply worker_ids; [apply (i_calls _ _ _ _ _ _ _ _ I)|exact Hi|exact Hj|exact E].
Qed.

Lemma my_id c : s_workers s !! i = Some (k, c) -> c_id k ∈ c_id <$> calls.
Proof.
  intros Hi. apply list_elem_of_fmap. exists k. split; [done|]. eapply worker_call; [apply (i_calls _ _ _ _ _ _ _ _ I)|exact Hi].
Qed.

(** An identifier that is not in the catalogue and not being added by its own
    worker is not in the string map either. *)
Lemma not_published c : s_workers s !! i = Some (k, c) -> adding c = false -> cat !! c_id k = None -> pub !! c_id k = None.
Proof.
  intros Hi Ha Hc. pose proof (shared_None _ _ _ _ _ _ _ _ _ _ (i_shared _ _ _ _ _ _ _ _ I) Hc) as Hids.
  destruct (i_mid _ _ _ _ _ _ _ _ I) as [(j & k1 & c1 & d & Hj & Hc1 & _ & Hp & _)|(_ & Hp & _)]; rewrite Hp; [|done].
  assert (j <> i) by (intros ->; rewrite Hi in Hj; injection Hj as _ <-; congruence).
  rewrite lookup_insert_ne; [done|]. intros E. by apply (other_id c j k1 c1).
Qed.

(** A step that leaves the shared data alone. *)
Lemma idle_step c c' : s_workers s !! i = Some (k, c) -> exec k c w = Ok (c', w) ->
  adding c = false -> adding c' = false -> worker_ok h map ids t cat k c' ->
  (private c' = private c \/ private c' = None) -> (before (k, c') <= before (k, c))%nat -> (need (k, c') <= need (k, c))%nat ->
  inv (turn i s).
Proof.
  intros Hi He Ha Ha' Hok Hp Hb Hn.
  assert (Hw : forall c, adding c = false -> writing c = false) by (intros [| | | | | |[]| | |]; done).
  eapply (inv_step s core map pub ids t cat n i k c c' w core map pub ids t cat n I Hi).
  - by apply (turn_Ok s i k c c').
  - apply (i_core _ _ _ _ _ _ _ _ I).
  - apply (i_shared _ _ _ _ _ _ _ _ I).
  - done.
  - left. auto.
  - right; left. done.
  - done.
  - done.
  - destruct Hp; [by left|right; by left].
  - done.
  - lia.
  - intros rest. apply plenty_le. lia.
Qed.

(** The bucket of a worker that does not write is as the map says. *)
Lemma my_bucket c b : s_workers s !! i = Some (k, c) -> writing c = false -> buckets map !! idx map (c_id k) = Some b ->
  the_map w = Ok map /\ bucket_now w map (idx map (c_id k)) = Ok (flux_of b).
Proof.
  intros Hi Hc Hb. split; [unfold the_map; rewrite (i_core _ _ _ _ _ _ _ _ I); cbn [deref]; rewrite obind_Ok, (sh_map _ _ _ _ _ _ _ _ _ (i_shared _ _ _ _ _ _ _ _ I)); done|].
  unfold bucket_now, bucket_at. rewrite Hb, obind_Ok. pose proof (i_flux _ _ _ _ _ _ _ _ I) as F. unfold flux_ok in F.
  destruct (m_flux w) as [[b' x]|]; [|done]. destruct F as (j & k1 & c1 & Hj & Hc1 & -> & _). destruct (decide _) as [E|]; [|done]. exfalso.
  assert (i = j) as -> by (eapply worker_buckets; [apply (i_calls _ _ _ _ _ _ _ _ I)|apply (i_buckets _ _ _ _ _ _ _ _ I)|exact Hi|exact Hj|exact E]).
  rewrite Hi in Hj. injection Hj as _ <-. congruence.
Qed.

Lemma my_pairs c : s_workers s !! i = Some (k, c) -> adding c = false -> cat !! c_id k = None ->
  exists b, buckets map !! idx map (c_id k) = Some b /\ wf_bucket b /\ (length (pairs b) <= final)%nat /\ find_pair map (c_id k) = Ok (idx map (c_id k), b, None) /\
    index map (c_id k) = Ok (idx map (c_id k)) /\ forall j p, pairs b !! j = Some p -> pair_matches (c_id k) p = false.
Proof.
  intros Hi Ha Hc. destruct (shared_bucket _ _ _ _ _ _ _ _ _ (c_id k) (i_shared _ _ _ _ _ _ _ _ I) (not_published c Hi Ha Hc)) as (b & Hb & Hw & Hl & H).
  exists b. split; [done|]. split; [done|]. split; [|done]. pose proof (i_before _ _ _ _ _ _ _ _ I). lia.
Qed.

Lemma step_Start : s_workers s !! i = Some (k, Start) -> forward Start /\ inv (turn i s).
Proof.
  intros Hi. pose proof (i_workers _ _ _ _ _ _ _ _ I i k Start Hi) as Hc. simpl in Hc.
  destruct (my_pairs Start Hi eq_refl Hc) as (b & Hb & Hw & Hl & _ & Hx & _). destruct (my_bucket Start b Hi eq_refl Hb) as [_ Hn].
  set (c' := if (length (pairs b) =? 0)%nat then NotFound else Look (LPairs (idx map (c_id k)) (length (pairs b)))).
  assert (Hex : exec k Start w = Ok (c', w)).
  { cbn [Workers.exec]. rewrite (i_core _ _ _ _ _ _ _ _ I). change (Some core ≫= p_id2data_map) with (p_id2data_map core).
    rewrite (sh_map _ _ _ _ _ _ _ _ _ (i_shared _ _ _ _ _ _ _ _ I)), Hx, obind_Ok, Hn, obind_Ok. done. }
  split; [eexists _, _; split; [exact Hex|]; unfold c'; destruct (_ =? _)%nat; cbn; lia|].
  eapply (idle_step Start c' Hi Hex); unfold c'; destruct (Nat.eqb_spec (length (pairs b)) 0); try done; try (by left); try (cbn; lia).
  split; [done|]. by exists b.
Qed.

Lemma step_Look l : s_workers s !! i = Some (k, Look l) -> forward (Look l) /\ inv (turn i s).
Proof.
  intros Hi. pose proof (i_workers _ _ _ _ _ _ _ _ I i k (Look l) Hi) as Hc. simpl in Hc. destruct Hc as [Hc (b & Hb & Hl)].
  destruct (my_pairs (Look l) Hi eq_refl Hc) as (b' & Hb' & Hw & Hlen & _ & _ & Hm). rewrite Hb in Hb'. injection Hb' as <-.
  destruct (my_bucket (Look l) b Hi eq_refl Hb) as [Hmap Hn]. destruct l as [x n0|x q n0 j|x q j]; [| |done].
  - destruct Hl as (-> & -> & Hne). set (c' := Look (LScan (idx map (c_id k)) (pairs_ptr b) (length (pairs b)) 0)).
    assert (Hex : exec k (Look (LPairs (idx map (c_id k)) (length (pairs b)))) w = Ok (c', w)) by (cbn [Workers.exec]; unfold exec_look; by rewrite Hmap, obind_Ok, Hn, obind_Ok).
    split; [eexists _, _; split; [exact Hex|]; cbn; lia|]. eapply (idle_step _ c' Hi Hex); try done; try (by left).
    split; [done|]. exists b. split; [done|]. split; [done|]. split; [done|]. split; [done|lia].
  - destruct Hl as (-> & -> & -> & Hj). destruct (lookup_lt_is_Some_2 (pairs b) j Hj) as [p Hp].
    set (c' := if (S j =? length (pairs b))%nat then NotFound else Look (LScan (idx map (c_id k)) (pairs_ptr b) (length (pairs b)) (S j))).
    assert (Hex : exec k (Look (LScan (idx map (c_id k)) (pairs_ptr b) (length (pairs b)) j)) w = Ok (c', w)).
    { cbn [Workers.exec]. unfold exec_look. rewrite Hmap, obind_Ok, Hn, obind_Ok.
      assert (Hg : get_slot (flux_of b) (pairs_ptr b) j = Ok (slot_of p)).
      { unfold get_slot, flux_of. cbn [fx_array fx_slots]. destruct Hw as [_ Hq]. destruct (Hq ltac:(intros E; by rewrite E in Hp)) as [q ->].
        rewrite bool_decide_eq_true_2 by done. by rewrite list_lookup_fmap, Hp. }
      rewrite Hg, obind_Ok. assert (Hcm : slot_matches (c_id k) (slot_of p) = Ok false).
      { specialize (Hm j p Hp). unfold pair_matches in Hm. unfold slot_matches, slot_of. cbn [slot_key slot_value]. destruct (key p) as [[? ?]|]; [|done]. destruct (value p); [|done]. by rewrite Hm. }
      by rewrite Hcm, obind_Ok. }
    split; [eexists _, _; split; [exact Hex|]; unfold c'; destruct (_ =? _)%nat; cbn; lia|].
    eapply (idle_step _ c' Hi Hex); unfold c'; destruct (Nat.eqb_spec (S j) (length (pairs b))); try done; try (by left).
    split; [done|]. exists b. split; [done|]. split; [done|]. split; [done|]. split; [done|lia].
Qed.

Lemma step_NotFound : s_workers s !! i = Some (k, NotFound) -> forward NotFound /\ inv (turn i s).
Proof.
  intros Hi. pose proof (i_workers _ _ _ _ _ _ _ _ I i k NotFound Hi) as Hc. simpl in Hc.
  pose proof (i_shared _ _ _ _ _ _ _ _ I) as Sh.
  assert (Hk : k ∈ calls) by (eapply worker_call; [apply (i_calls _ _ _ _ _ _ _ _ I)|exact Hi]).
  pose proof (calls_len _ _ Hcalls k Hk) as Hlen. unfold NLA_DATA_ID_MAX_LEN, sizeof_data_node in *.
  assert (Hroom : exists rest, plenty (S rest) limit (h_mm h)).
  { pose proof (i_room _ _ _ _ _ _ _ _ I) as Hr. pose proof (total_insert need _ _ _ (k, Done) Hi) as Hn.
    change (need (k, NotFound)) with (3 + path_nodes)%nat in Hn. change (need (k, Done)) with 0%nat in Hn.
    exists (total need (s_workers s) - 1)%nat. eapply plenty_le; [|exact Hr]. lia. }
  destruct Hroom as (rest & Hcl & _). destruct (Hcl 80 ltac:(lia)) as (d & m & Ed & _). clear Hcl.
  set (dn := set_data (item_of k 0) zero_dnode).
  destruct (shared_private _ _ _ _ _ _ _ _ _ _ d dn m Sh Ed) as (Sh' & Hd & Hfd).
  assert (Hex : exec k NotFound w = Ok (Spin Outer (CPut (Some d)), with_heap w (mk_heap m (maps h) (<[d := dn]> (datas h))))).
  { cbn [Workers.exec]. unfold alloc_data. change sizeof_data_node with 80. rewrite Ed. unfold fill_data.
    rewrite (ld_data_Some _ d zero_dnode) by (simpl; by rewrite lookup_insert_eq). rewrite obind_Ok.
    unfold NLA_DATA_ID_MAX_LEN. destruct (Z.leb_spec (blen (c_id k) + 1) 32); [|lia].
    rewrite (upd_data_Some _ d zero_dnode) by (simpl; by rewrite lookup_insert_eq). rewrite obind_Ok.
    simpl maps. simpl datas. simpl h_mm. by rewrite insert_insert_eq. }
  split; [eexists _, _; split; [exact Hex|cbn; lia]|].
  eapply (inv_step s core map pub ids t cat n i k _ _ _ core map pub ids t cat n I Hi).
  - by apply (turn_Ok s i k _ _ _ Hi Hex).
  - apply (i_core _ _ _ _ _ _ _ _ I).
  - exact Sh'.
  - done.
  - by left.
  - right; left. done.
  - simpl. by rewrite lookup_insert_eq.
  - intros j k1 c1 Hne Hj Hw. eapply worker_frame; [exact Hw|done|done|done|].
    intros e _ He Hse. split; [|done]. simpl. rewrite lookup_insert_ne; [done|]. intros <-. rewrite Hfd in Hse. by destruct Hse.
  - right; right. intros j k1 c1 e Hj Hp [= ->].
    pose proof (i_workers _ _ _ _ _ _ _ _ I j k1 c1 Hj) as Hw. by destruct (private_data _ _ _ _ _ _ _ _ Hw Hp) as (Hw' & _); congruence.
  - done.
  - apply Nat.le_refl.
  - intros r. unfold need. simpl. intros (Hc2 & _). destruct (Hc2 80 ltac:(lia)) as (d' & m' & Ed' & Hm').
    rewrite Ed in Ed'. by injection Ed' as <- <-.
Qed.

(** The tests of the lock. *)
Lemma step_Spin sp d : s_workers s !! i = Some (k, Spin sp (CPut (Some d))) -> inv (turn i s).
Proof.
  intros Hi. pose proof (i_workers _ _ _ _ _ _ _ _ I i k _ Hi) as Hc.
  set (c' := if lock core =? 0 then Cas sp (CPut (Some d)) else Spin (spin_next ngx_ncpu NLA_DEF_LOCK_SPIN sp) (CPut (Some d))).
  assert (Hex : exec k (Spin sp (CPut (Some d))) w = Ok (c', w)).
  { cbn [Workers.exec]. rewrite (i_core _ _ _ _ _ _ _ _ I). cbn [deref]. rewrite obind_Ok. unfold c'. by destruct (_ =? _). }
  eapply (idle_step _ c' Hi Hex); try done; unfold c'; destruct (lock core =? 0); done || by left.
Qed.

Lemma step_Cas sp d : s_workers s !! i = Some (k, Cas sp (CPut (Some d))) -> inv (turn i s).
Proof.
  intros Hi. pose proof (i_workers _ _ _ _ _ _ _ _ I i k _ Hi) as Hc. destruct (Z.eqb_spec (lock core) 0) as [Hl|Hl].
  - assert (Hex : exec k (Cas sp (CPut (Some d))) w = Ok (Crit (CPut (Some d)), with_core w (set_lock 1 core))).
    { cbn [Workers.exec]. rewrite (i_core _ _ _ _ _ _ _ _ I). cbn [deref]. by rewrite obind_Ok, Hl. }
    eapply (inv_step s core map pub ids t cat n i k _ _ _ (set_lock 1 core) map pub ids t cat n I Hi).
    + by apply (turn_Ok s i k _ _ _ Hi Hex).
    + done.
    + eapply shared_core; [| |apply (i_shared _ _ _ _ _ _ _ _ I)]; done.
    + done.
    + by left.
    + right; left. done.
    + done.
    + done.
    + by left.
    + done.
    + done.
    + done.
  - eapply (idle_step _ (Spin (spin_next ngx_ncpu NLA_DEF_LOCK_SPIN sp) (CPut (Some d))) Hi); try done; [|by left].
    cbn [Workers.exec]. rewrite (i_core _ _ _ _ _ _ _ _ I). cbn [deref]. rewrite obind_Ok. by destruct (Z.eqb_spec (lock core) 0).
Qed.

(** Nobody else is in the critical section. *)
Lemma alone_in_crit c j k1 c1 : s_workers s !! i = Some (k, Crit c) -> s_workers s !! j = Some (k1, Crit c1) -> j = i.
Proof.
  intros Hi Hj. eapply holders_two; [exact Hj|exact Hi|].
  destruct (i_lock _ _ _ _ _ _ _ _ I) as [[_ ->]|(_ & ? & _)]; [lia|done].
Qed.
Lemma mid_before c : s_workers s !! i = Some (k, Crit c) -> adding (Crit c) = false -> pub = ids /\ n = base.size cat.
Proof.
  intros Hi Ha. destruct (i_mid _ _ _ _ _ _ _ _ I) as [(j & k1 & c1 & e & Hj & Hc1 & _)|(_ & H)]; [|done].
  pose proof (adding_crit _ Hc1) as [? ->]. pose proof (alone_in_crit _ _ _ _ Hi Hj) as ->. congruence.
Qed.
Lemma mid_during c d : s_workers s !! i = Some (k, Crit c) -> adding (Crit c) = true -> private (Crit c) = Some d -> pub = <[c_id k := d]> ids /\ n = S (base.size cat).
Proof.
  intros Hi Ha Hd. destruct (i_mid _ _ _ _ _ _ _ _ I) as [(j & k1 & c1 & e & Hj & Hc1 & He & Hp & Hn)|(H & _)].
  - pose proof (adding_crit _ Hc1) as [? ->]. pose proof (alone_in_crit _ _ _ _ Hi Hj) as ->. rewrite Hi in Hj. injection Hj as <- <-. split; [congruence|done].
  - rewrite Forall_lookup in H. specialize (H _ _ Hi). simpl in H, Ha. congruence.
Qed.

(** The room for [m] allocations that worker [i] still needs. *)
Lemma my_room c m : s_workers s !! i = Some (k, c) -> need (k, c) = m -> plenty (m + (total need (s_workers s) - m)) limit (h_mm h).
Proof.
  intros Hi Hm. eapply plenty_le; [|apply (i_room _ _ _ _ _ _ _ _ I)]. pose proof (total_insert need _ _ _ (k, Done) Hi) as Hn. change (need (k, Done)) with 0%nat in Hn. lia.
Qed.
Lemma my_turn c : s_workers s !! i = Some (k, c) -> before (k, c) = 1%nat -> (n + 1 <= final)%nat.
Proof.
  intros Hi Hb. pose proof (total_insert before _ _ _ (k, Done) Hi) as Hn. change (before (k, Done)) with 0%nat in Hn. pose proof (i_before _ _ _ _ _ _ _ _ I). lia.
Qed.

Lemma step_CPut d : s_workers s !! i = Some (k, Crit (CPut (Some d))) -> forward (Crit (CPut (Some d))) /\ inv (turn i s).
Proof.
  intros Hi. pose proof (i_workers _ _ _ _ _ _ _ _ I i k _ Hi) as Hc. simpl in Hc. destruct Hc as (Hnone & Hdn & Hd).
  pose proof (i_shared _ _ _ _ _ _ _ _ I) as Sh. destruct (mid_before _ Hi eq_refl) as [Hpub Hn].
  assert (Hk : k ∈ calls) by (eapply worker_call; [apply (i_calls _ _ _ _ _ _ _ _ I)|exact Hi]).
  pose proof (calls_len _ _ Hcalls k Hk) as Hlen. unfold NLA_DATA_ID_MAX_LEN, sizeof_data_node in *.
  destruct (my_pairs _ Hi eq_refl Hnone) as (b & _ & _ & _ & Hf & _).
  assert (Hsz : u32 (u32 (blen (c_id k)) + 1) = blen (c_id k) + 1) by (unfold blen in *; rewrite (u32_small (Z.of_nat _)), u32_small by lia; done).
  pose proof (my_room _ _ Hi eq_refl) as Hroom. change (need (k, Crit (CPut (Some d)))) with (S (S path_nodes)) in Hroom. cbn [Nat.add] in Hroom. destruct Hroom as (Hcl & _).
  destruct (Hcl (blen (c_id k) + 1) ltac:(unfold blen in *; lia)) as (nk & m & Ek & _). clear Hcl.
  assert (Hex : exec k (Crit (CPut (Some d))) w = Ok (Crit (CGrow (Some d) nk), with_heap w (set_mm m h))).
  { cbn [Workers.exec]. unfold exec_crit. rewrite (i_core _ _ _ _ _ _ _ _ I). cbn [deref]. rewrite obind_Ok, (sh_map _ _ _ _ _ _ _ _ _ Sh), Hf, obind_Ok, Hsz. by rewrite Ek. }
  split; [eexists _, _; split; [exact Hex|cbn; lia]|].
  eapply (inv_step s core map pub ids t cat n i k _ _ _ core map pub ids t cat n I Hi).
  - by apply (turn_Ok s i k _ _ _ Hi Hex).
  - apply (i_core _ _ _ _ _ _ _ _ I).
  - by eapply shared_calloc.
  - done.
  - by left.
  - right; left. done.
  - done.
  - done.
  - by left.
  - done.
  - done.
  - intros r Hr. change (need (k, Crit (CPut (Some d))) + r)%nat with (S (S (path_nodes + r))) in Hr. destruct Hr as (Hr & _).
    destruct (Hr (blen (c_id k) + 1) ltac:(unfold blen in *; lia)) as (nk2 & m2 & E2 & Hm2). rewrite Ek in E2. by injection E2 as <- <-.
Qed.

Lemma step_CGrow d nk : s_workers s !! i = Some (k, Crit (CGrow (Some d) nk)) -> forward (Crit (CGrow (Some d) nk)) /\ inv (turn i s).
Proof.
  intros Hi. pose proof (i_workers _ _ _ _ _ _ _ _ I i k _ Hi) as Hc. simpl in Hc. destruct Hc as (Hnone & Hdn & Hd).
  pose proof (i_shared _ _ _ _ _ _ _ _ I) as Sh. destruct (mid_before _ Hi eq_refl) as [Hpub Hn]. rewrite Hpub in Sh.
  destruct (my_pairs _ Hi eq_refl Hnone) as (b & Hb & Hwb & _ & _ & Hx & _).
  pose proof (my_turn _ Hi eq_refl) as Hfin. pose proof (my_room _ _ Hi eq_refl) as Hroom. change (need (k, Crit (CGrow (Some d) nk))) with (S path_nodes) in Hroom.
  assert (Hln : sizeof_Pair * (Z.of_nat n + 1) <= limit) by (unfold sizeof_Pair in *; lia).
  destruct (shared_grow conf core h map ids t cat n (c_id k) d limit _ nk b Sh Hnone Hb Hroom Hln ltac:(lia)) as (m & q & Eg & _ & Sh').
  set (map' := set_bucket _ _ _) in *. set (core' := set_id_map (Some map') core) in *.
  set (x := mk_flux (pairs_ptr b) (length (pairs b)) (Some q) ((slot_of <$> pairs b) ++ [match pairs b with [] => mk_slot (Some None) (Some None) | _ => mk_slot None None end])).
  set (w' := with_flux (with_core (with_heap w (set_mm m h)) core') (Some (idx map (c_id k), x))).
  assert (Hex : exec k (Crit (CGrow (Some d) nk)) w = Ok (Crit (CPtr (Some d) nk q), w')).
  { cbn [Workers.exec]. unfold exec_crit. rewrite (i_core _ _ _ _ _ _ _ _ I). cbn [deref]. rewrite obind_Ok, (sh_map _ _ _ _ _ _ _ _ _ Sh). cbn [deref].
    rewrite obind_Ok, Hx, obind_Ok. unfold bucket_at. rewrite Hb, obind_Ok. change (w_heap (m_world (s_mem s))) with h. by rewrite Eg. }
  assert (HNm : length (buckets map') = length (buckets map)) by (unfold map', set_bucket; simpl; by rewrite length_insert).
  assert (Hidx : forall y, idx map' y = idx map y) by (intros y; unfold idx; by rewrite HNm).
  split; [eexists _, _; split; [exact Hex|cbn; lia]|].
  eapply (inv_step s core map pub ids t cat n i k _ _ _ core' map' (<[c_id k := d]> ids) ids t cat (S n) I Hi).
  - by apply (turn_Ok s i k _ _ _ Hi Hex).
  - done.
  - exact Sh'.
  - done.
  - right; left. split; [done|]. exists x. rewrite Hidx. split; [done|]. unfold shape, x. cbn [fx_slots fx_count]. rewrite length_app, length_fmap. cbn. lia.
  - left. exists d. by rewrite Hn.
  - done.
  - intros j k1 c1 Hne Hj Hw. eapply worker_frame; [exact Hw|done|done| |done].
    intros l -> (b1 & Hb1 & Hl). exists b1. rewrite !Hidx. split; [|by destruct l]. unfold map', set_bucket. cbn [buckets]. rewrite list_lookup_insert_ne; [done|].
    intros E. apply Hne. symmetry. eapply worker_buckets; [apply (i_calls _ _ _ _ _ _ _ _ I)|apply (i_buckets _ _ _ _ _ _ _ _ I)|exact Hi|exact Hj|done].
  - by left.
  - done.
  - cbn. lia.
  - intros r Hr. change (need (k, Crit (CGrow (Some d) nk)) + r)%nat with (S (path_nodes + r)) in Hr.
    destruct (shared_grow conf core h map ids t cat n (c_id k) d limit _ nk b Sh Hnone Hb Hr Hln ltac:(lia)) as (m2 & q2 & Eg2 & Hm2 & _).
    rewrite Eg in Eg2. by injection Eg2 as <- <-.
Qed.

(** The writes to the bucket. *)
Lemma step_write c c' d w' :
  s_workers s !! i = Some (k, Crit c) -> writing (Crit c) = true -> adding (Crit c') = true -> crit_node c = Some d -> crit_node c' = Some d ->
  exec k (Crit c) w = Ok (Crit c', w') -> m_world w' = m_world w ->
  match m_flux w' with Some (b, x) => writing (Crit c') = true /\ (exists x0, m_flux w = Some (b, x0)) /\ shape (Crit c') x | None => writing (Crit c') = false end ->
  inv (turn i s).
Proof.
  intros Hi Hw Ha Hd Hd' Hex Hww Hfx. pose proof (i_workers _ _ _ _ _ _ _ _ I i k _ Hi) as Hc.
  assert (Hadd : adding (Crit c) = true) by by destruct c.
  destruct (mid_during c d Hi Hadd Hd) as [Hpub Hn].
  assert (Hok : cat !! c_id k = None /\ datas h !! d = Some (set_data (item_of k 0) zero_dnode) /\ (d ∉ data_addrs t)).
  { destruct c as [[|]|[|] ?|[|] ? ?|[|] ?|[|] ?|[|] ?|[|] ?|?|?|[|]|?]; try done; by injection Hd as ->. }
  eapply (inv_step s core map pub ids t cat n i k _ _ _ core map pub ids t cat n I Hi).
  - by apply (turn_Ok s i k _ _ _ Hi Hex).
  - rewrite Hww. apply (i_core _ _ _ _ _ _ _ _ I).
  - rewrite Hww. apply (i_shared _ _ _ _ _ _ _ _ I).
  - done.
  - destruct (m_flux w') as [[b x]|] eqn:E; [|right; right; done]. destruct Hfx as (Hw' & (x0 & Hx0) & Hsh). right; left. split; [done|]. exists x. split; [|done].
    pose proof (i_flux _ _ _ _ _ _ _ _ I) as F. unfold flux_ok in F. rewrite Hx0 in F. destruct F as (j & k1 & c1 & Hj & Hc1 & -> & _).
    destruct c1 as [| | | | | |c1| | |]; try done. pose proof (alone_in_crit _ _ _ _ Hi Hj) as ->. rewrite Hi in Hj. by injection Hj as <- _.
  - left. exists d. done.
  - rewrite Hww. destruct c' as [[|]|[|] ?|[|] ? ?|[|] ?|[|] ?|[|] ?|[|] ?|?|?|[|]|?]; try done; by injection Hd' as ->.
  - intros j k1 c1 _ _ Hw1. by rewrite Hww.
  - left. simpl. congruence.
  - done.
  - destruct c; try done. all: destruct c'; done.
  - rewrite Hww. destruct c; try done. all: destruct c'; done.
Qed.
Lemma my_flux c : s_workers s !! i = Some (k, Crit c) -> writing (Crit c) = true -> exists b x, m_flux w = Some (b, x) /\ shape (Crit c) x.
Proof.
  intros Hi Hw. pose proof (i_flux _ _ _ _ _ _ _ _ I) as F. unfold flux_ok in F. destruct (m_flux w) as [[b x]|].
  - destruct F as (j & k1 & c1 & Hj & Hc1 & -> & Hx). destruct c1 as [| | | | | |c1| | |]; try done. pose proof (alone_in_crit _ _ _ _ Hi Hj) as ->.
    rewrite Hi in Hj. injection Hj as <- <-. eauto.
  - rewrite Forall_lookup in F. specialize (F _ _ Hi). simpl in F, Hw. congruence.
Qed.
Lemma my_write f b x : m_flux w = Some (b, x) -> length (fx_slots x) = fx_count x /\ fx_count x <> 0%nat ->
  exists x', write_last f w = Ok (with_flux w (Some (b, x'))) /\ length (fx_slots x') = fx_count x' /\ fx_count x' <> 0%nat.
Proof.
  intros Hx (Hl & Hne). unfold write_last. rewrite Hx. cbn [of_written]. rewrite obind_Ok. unfold set_slot.
  destruct (lookup_lt_is_Some_2 (fx_slots x) (fx_count x - 1) ltac:(lia)) as [c ->]. rewrite obind_Ok. eexists. split; [reflexivity|]. cbn. by rewrite length_insert.
Qed.
Lemma core_now : deref (w_core (m_world w)) = Ok core.
Proof. by rewrite (i_core _ _ _ _ _ _ _ _ I). Qed.
Lemma step_writes c d : s_workers s !! i = Some (k, Crit c) -> writing (Crit c) = true -> crit_node c = Some d -> forward (Crit c) /\ inv (turn i s).
Proof.
  intros Hi Hw Hd. destruct (my_flux c Hi Hw) as (b & x & Hx & Hsh).
  assert (Hgo : forall c' w', exec k (Crit c) w = Ok (Crit c', w') -> adding (Crit c') = true -> crit_node c' = Some d -> (rank final (Crit c') < rank final (Crit c))%nat -> m_world w' = m_world w ->
    match m_flux w' with Some (b, x) => writing (Crit c') = true /\ (exists x0, m_flux w = Some (b, x0)) /\ shape (Crit c') x | None => writing (Crit c') = false end -> forward (Crit c) /\ inv (turn i s)).
  { intros c' w' Hex Ha Hd' Hr Hww Hfx. split; [by exists (Crit c'), w'|]. by eapply (step_write c c' d w'). }
  destruct c as [|?|p nk q|p nk|p nk|p nk|p nk| | | |]; try done; cbn [crit_node] in Hd; subst p; cbn [shape] in Hsh.
  - eapply (Hgo (CCount (Some d) nk)); [cbn [Workers.exec]; unfold exec_crit; rewrite core_now, obind_Ok, Hx; cbn [of_written]; rewrite obind_Ok; reflexivity|done|done|cbn; lia|done|]. cbn. split; [done|]. by split; [exists x|].
  - eapply (Hgo (CKey (Some d) nk)); [cbn [Workers.exec]; unfold exec_crit; rewrite core_now, obind_Ok, Hx; cbn [of_written]; rewrite obind_Ok; reflexivity|done|done|cbn; lia|done|]. cbn. split; [done|]. split; [by exists x|]. split; [done|lia].
  - destruct (my_write (fun c => mk_slot (Some (Some (nk, []))) (slot_value c)) b x Hx Hsh) as (x' & E & Hsh').
    eapply (Hgo (CValue (Some d) nk)); [cbn [Workers.exec]; unfold exec_crit; rewrite core_now, obind_Ok, E, obind_Ok; reflexivity|done|done|cbn; lia|done|]. cbn. split; [done|]. by split; [exists x|].
  - destruct (my_write (fun c => mk_slot (slot_key c) (Some (Some d))) b x Hx Hsh) as (x' & E & Hsh').
    eapply (Hgo (CCopy (Some d) nk)); [cbn [Workers.exec]; unfold exec_crit; rewrite core_now, obind_Ok, E, obind_Ok; reflexivity|done|done|cbn; lia|done|]. cbn. split; [done|]. by split; [exists x|].
  - destruct (my_write (fun c => mk_slot (Some (Some (nk, c_id k))) (slot_value c)) b x Hx Hsh) as (x' & E & Hsh').
    eapply (Hgo (CAdd (Some d))); [cbn [Workers.exec]; unfold exec_crit; rewrite core_now, obind_Ok, E, obind_Ok; reflexivity|done|done|cbn; lia|done|done].
Qed.

Lemma step_CAdd d : s_workers s !! i = Some (k, Crit (CAdd (Some d))) -> forward (Crit (CAdd (Some d))) /\ inv (turn i s).
Proof.
  intros Hi. pose proof (i_workers _ _ _ _ _ _ _ _ I i k _ Hi) as Hc. simpl in Hc. destruct Hc as (Hnone & Hdn & Hd).
  pose proof (i_shared _ _ _ _ _ _ _ _ I) as Sh.
  destruct (mid_during _ d Hi eq_refl eq_refl) as [Hpub Hn]. rewrite Hpub in Sh.
  assert (Hk : k ∈ calls) by (eapply worker_call; [apply (i_calls _ _ _ _ _ _ _ _ I)|exact Hi]).
  pose proof (i_room _ _ _ _ _ _ _ _ I) as Hroom. pose proof (i_before _ _ _ _ _ _ _ _ I) as Hbef.
  unfold sizeof_data_node, sizeof_Pair in *.
  pose proof (total_insert need _ _ _ (k, Done) Hi) as Htn. change (need (k, Crit (CAdd (Some d)))) with path_nodes in Htn.
  change (need (k, Done)) with 0%nat in Htn. unfold path_nodes, depth in Htn.
  assert (Hmm : mm_room (4 * Z.to_nat nMax) sizeof_map_node (h_mm h) = true).
  { apply (plenty_room _ limit); [unfold sizeof_map_node; lia|]. eapply plenty_le; [|exact Hroom]. lia. }
  destruct (shared_add conf Hlevels core h map ids t cat n (c_id k) d (item_of k 0) Sh Hnone Hdn Hd eq_refl
              (calls_map _ _ Hcalls k Hk) ltac:(lia) Hmm) as (h' & t' & Hadd & Sh' & Hperm & Hframe).
  assert (Hex : exec k (Crit (CAdd (Some d))) w = Ok (Crit (CUnlock (Some d)), with_heap w h')).
  { cbn [Workers.exec exec_crit]. unfold exec_crit. rewrite (i_core _ _ _ _ _ _ _ _ I). cbn [deref]. rewrite obind_Ok.
    by rewrite Hadd, obind_Ok. }
  split; [eexists _, _; split; [exact Hex|cbn; lia]|].
  eapply (inv_step s core map pub ids t cat n i k _ _ _ core map (<[c_id k := d]> ids) (<[c_id k := d]> ids) t' (<[c_id k := item_of k 0]> cat) n I Hi).
  - by apply (turn_Ok s i k _ _ _ Hi Hex).
  - apply (i_core _ _ _ _ _ _ _ _ I).
  - exact Sh'.
  - done.
  - by left.
  - right; right. rewrite map_size_insert_None by done. done.
  - simpl. by rewrite !lookup_insert_eq.
  - intros j k1 c1 Hne Hj Hw. pose proof (other_id _ _ _ _ Hi Hj Hne) as Hid. eapply worker_frame; [exact Hw| | |done|].
    + by rewrite lookup_insert_ne.
    + intros _. by rewrite lookup_insert_ne.
    + intros e He Het _. assert (Hed : e <> d).
      { intros ->. apply Hne. eapply (i_private _ _ _ _ _ _ _ _ I); [exact Hj|exact Hi|exact He|done]. }
      split; [apply Hframe; set_solver|]. rewrite Hperm. set_solver.
  - right; by left.
  - intros x Hx. rewrite lookup_insert_ne; [done|]. intros <-. by apply Hx, (my_id _ Hi).
  - done.
  - intros r Hr. cbn in Hr |- *. eapply (adddatanode_left nMax); [|exact Hadd|exact Hr]. unfold sizeof_map_node. lia.
Qed.

Lemma step_CUnlock d : s_workers s !! i = Some (k, Crit (CUnlock (Some d))) -> forward (Crit (CUnlock (Some d))) /\ inv (turn i s).
Proof.
  intros Hi. pose proof (i_workers _ _ _ _ _ _ _ _ I i k _ Hi) as Hc.
  assert (Hex : exec k (Crit (CUnlock (Some d))) w = Ok (Stamp (Some d), with_core w (set_lock 0 core))).
  { cbn [Workers.exec exec_crit]. unfold exec_crit. rewrite (i_core _ _ _ _ _ _ _ _ I). done. }
  split; [eexists _, _; split; [exact Hex|cbn; lia]|].
  eapply (inv_step s core map pub ids t cat n i k _ _ _ (set_lock 0 core) map pub ids t cat n I Hi).
  - by apply (turn_Ok s i k _ _ _ Hi Hex).
  - done.
  - eapply shared_core; [| |apply (i_shared _ _ _ _ _ _ _ _ I)]; done.
  - done.
  - by left.
  - right; left. done.
  - done.
  - done.
  - by left.
  - done.
  - done.
  - done.
Qed.

Lemma step_Stamp d : s_workers s !! i = Some (k, Stamp (Some d)) -> forward (Stamp (Some d)) /\ inv (turn i s).
Proof.
  intros Hi. pose proof (i_workers _ _ _ _ _ _ _ _ I i k _ Hi) as Hc. simpl in Hc. destruct Hc as [Hids Hcat].
  pose proof (i_shared _ _ _ _ _ _ _ _ I) as Sh.
  destruct (proj1 (sh_index _ _ _ _ _ _ _ _ _ Sh (c_id k) d) Hids) as (Hd & dn & Hdn & _).
  assert (Hdata : data dn = item_of k 0).
  { pose proof (sh_holds _ _ _ _ _ _ _ _ _ Sh (c_id k)) as H. rewrite Hcat, Hids in H. simpl in H. rewrite Hdn in H. by injection H. }
  set (it := item_of k (c_now k)).
  assert (Hcell : fn_b_IsLocInRC (cell (Z.to_nat nMax) fn_v_InitRootRect (loc (data dn))) (loc it) = true).
  { rewrite Hdata. apply cell_in, (calls_map _ _ Hcalls). eapply worker_call; [apply (i_calls _ _ _ _ _ _ _ _ I)|exact Hi]. }
  pose proof (shared_put_item conf Hlevels _ _ _ _ _ _ _ _ _ _ _ it Sh Hids Hdn eq_refl Hcell) as Sh'.
  assert (Hex : exec k (Stamp (Some d)) w = Ok (Done, with_heap w (put_item h d dn it))).
  { cbn [Workers.exec]. rewrite (upd_data_put _ _ _ _ it Hdn); [done|]. unfold set_time. by rewrite Hdata. }
  split; [eexists _, _; split; [exact Hex|cbn; lia]|].
  eapply (inv_step s core map pub ids t cat n i k _ _ _ core map pub ids t (<[c_id k := it]> cat) n I Hi).
  - by apply (turn_Ok s i k _ _ _ Hi Hex).
  - apply (i_core _ _ _ _ _ _ _ _ I).
  - exact Sh'.
  - done.
  - by left.
  - right; left. split; [done|]. split; [done|]. split; [done|]. split; [done|]. split; [done|]. by apply map_size_insert_Some.
  - simpl. by rewrite lookup_insert_eq.
  - intros j k1 c1 Hne Hj Hw. pose proof (other_id _ _ _ _ Hi Hj Hne) as Hid. eapply worker_frame; [exact Hw| |done|done|].
    + by rewrite lookup_insert_ne.
    + intros e _ Het _. split; [|done]. simpl. rewrite lookup_insert_ne; [done|]. by intros <-.
  - right; by left.
  - intros x Hx. rewrite lookup_insert_ne; [done|]. intros <-. by apply Hx, (my_id _ Hi).
  - done.
  - done.
Qed.
End Step.

(** Every step keeps the invariant, and a worker that is not waiting for the lock
    gets further. *)
Lemma turn_both i s k c : inv s -> s_workers s !! i = Some (k, c) ->
  match c with Spin _ _ | Cas _ _ | Done => True | _ => forward s k c end /\ inv (turn i s).
Proof.
  intros (core & map & pub & ids & t & cat & n & I) Hi.
  pose proof (i_workers _ _ _ _ _ _ _ _ I i k c Hi) as Hw.
  destruct c as [|l| |p|sp c|sp c|c|[d|]| |u]; try done.
  - by eapply step_Start.
  - by eapply step_Look.
  - by eapply step_NotFound.
  - split; [done|]. destruct c as [[d|]| | | | | | | | | |]; try done. by eapply step_Spin.
  - split; [done|]. destruct c as [[d|]| | | | | | | | | |]; try done. by eapply step_Cas.
  - destruct (writing (Crit c)) eqn:Ew.
    + assert (Hd : exists d, crit_node c = Some d) by (destruct c as [[|]|[|] ?|[|] ? ?|[|] ?|[|] ?|[|] ?|[|] ?|?|?|[|]|?]; try done; by eexists).
      destruct Hd as [d Hd]. by eapply step_writes.
    + destruct c as [[d|]|[d|] nk| | | | | | | |[d|]|[d|]]; try done; [by eapply step_CPut|by eapply step_CGrow|by eapply step_CAdd|by eapply step_CUnlock].
  - by eapply step_Stamp.
  - split; [done|]. eapply (idle_step s core map pub ids t cat n i k I Done Done Hi); try done. by left.
Qed.

Lemma turn_inv i s : inv s -> inv (turn i s).
Proof.
  intros I. destruct (s_workers s !! i) as [[k c]|] eqn:Hi; [by eapply turn_both|].
  unfold Workers.turn. by rewrite Hi.
Qed.

Lemma steps_inv s s' : rtc (step ngx_ncpu conf) s s' -> inv s -> inv s'.
Proof. induction 1 as [|s s1 s2 [j s0] _ IH]; [done|]. intros H. by apply IH, turn_inv. Qed.

Lemma start_inv (w0 : world) : svc nMax w0 cat0 -> n_buckets w0 = N -> plenty (length calls * (3 + path_nodes)) limit (h_mm (w_heap w0)) ->
  inv (mk_sys (mk_shmem w0 None) ((fun k => (k, Start)) <$> calls)).
Proof.
  intros (core & map & ids & t & Hcore & [Hlock Sh]%svc_shared) HN Hroom.
  assert (Hstart : forall i k c, ((fun k => (k, Start)) <$> calls) !! i = Some (k, c) -> calls !! i = Some k /\ c = Start).
  { intros i k c. rewrite list_lookup_fmap. destruct (calls !! i); [|done]. by intros [= <- <-]. }
  assert (Htotal : forall f m, (forall k, f (k, Start) = m) -> total f ((fun k => (k, Start)) <$> calls) = (length calls * m)%nat).
  { intros f m Hf. clear -Hf. induction calls as [|k l IH]; [done|]. rewrite fmap_cons. cbn [sum_list_with length Nat.mul]. by rewrite Hf, IH. }
  exists core, map, ids, ids, t, cat0, (base.size cat0). split; cbn [s_mem m_world s_workers]; try done.
  - unfold n_buckets in HN. rewrite Hcore in HN. cbn in HN. by rewrite (sh_map _ _ _ _ _ _ _ _ _ Sh) in HN.
  - unfold flux_ok. cbn. by apply Forall_fmap, Forall_true.
  - right. split; [|done]. by apply Forall_fmap, Forall_true.
  - rewrite <- list_fmap_compose. apply list_fmap_id.
  - left. unfold lock_of. cbn [s_mem m_world]. rewrite Hcore. simpl. rewrite Hlock. split; [done|].
    unfold holders. clear. by induction calls.
  - intros i k c [Hk ->]%Hstart. simpl. apply (calls_new _ _ Hcalls). by eapply list_elem_of_lookup_2.
  - by intros i j k k' c c' d [_ ->]%Hstart.
  - rewrite (Htotal before 1%nat) by done. unfold final. lia.
  - by rewrite (Htotal need (3 + path_nodes)%nat).
Qed.

(** What the invariant says of the catalogue once the lock is free. *)
Lemma inv_svc s : inv s -> lock_of (s_world s) = Some 0 ->
  exists cat, svc nMax (s_world s) cat /\ (forall x, (x ∉ c_id <$> calls) -> cat !! x = cat0 !! x) /\
    (forall i k c, s_workers s !! i = Some (k, c) -> cat !! c_id k = match c with
       | Stamp _ => Some (item_of k 0) | Done => Some (item_of k (c_now k)) | _ => None end).
Proof.
  intros (core & map & pub & ids & t & cat & n & I) Hlock. exists cat.
  assert (Hnone : holders (s_workers s) = 0%nat) by (destruct (i_lock _ _ _ _ _ _ _ _ I) as [[_ ?]|(? & _)]; [done|congruence]).
  assert (Hcrit : forall i k c, s_workers s !! i <> Some (k, Crit c)).
  { intros i k c Hi. pose proof (holders_insert _ _ _ _ Done Hi). simpl in *. lia. }
  pose proof (i_shared _ _ _ _ _ _ _ _ I) as Sh.
  destruct (i_mid _ _ _ _ _ _ _ _ I) as [(i & k & c & d & Hi & Hc & _)|(_ & -> & ->)]; [apply adding_crit in Hc as [? ->]; by apply Hcrit in Hi|].
  unfold lock_of in Hlock. rewrite (i_core _ _ _ _ _ _ _ _ I) in Hlock. injection Hlock as Hlock.
  split; [|split; [apply (i_cat _ _ _ _ _ _ _ _ I)|]].
  - exists core, map, ids, t. split; [apply (i_core _ _ _ _ _ _ _ _ I)|]. by apply svc_shared.
  - intros i k c Hi. pose proof (i_workers _ _ _ _ _ _ _ _ I i k c Hi) as Hw.
    destruct c as [|l| |p|sp c|sp c|c|[d|]| |u]; simpl in Hw; try done; try (by destruct Hw); try (destruct c as [[|]| | | | | | | | | |]; by destruct Hw).
    by apply Hcrit in Hi.
Qed.

Lemma inv_alive s i k c : inv s -> s_workers s !! i = Some (k, c) -> crashed c = false.
Proof.
  intros (core & map & pub & ids & t & cat & n & I) Hi. pose proof (i_workers _ _ _ _ _ _ _ _ I i k c Hi). by destruct c.
Qed.

(** When nobody is in the critical section the lock is free. *)
Lemma inv_lock_free s : inv s -> holders (s_workers s) = 0%nat -> lock_of (s_world s) = Some 0.
Proof.
  intros I H0. pose proof I as (core & map & pub & ids & t & cat & n & J).
  destruct (i_lock _ _ _ _ _ _ _ _ J) as [[? _]|(_ & _ & [?|(j & k & u & Hj)])]; [done|lia|].
  by pose proof (inv_alive _ _ _ _ I Hj).
Qed.
End Inv.
End Join.
