(* ===== verification/WorkersProps.v ===== *)
(** * Worker processes: properties

    The critical sections exclude each other in every interleaving; the lookup in
    front of the lock lets two workers that set the same new identifier collide, and
    two workers whose identifiers fall into one bucket of the string map; workers that
    set new identifiers of different buckets do not disturb each other. *)
From S2P Require Import Prelude.
From S2P Require Import Geo.
From S2P Require Import SharedMem.
From S2P Require Import StrMap.
From S2P Require Import StrMapProps.
From S2P Require Import QuadTree.
From S2P Require Import QuadTreeSpec.
From S2P Require Import QuadTreeAdd.
From S2P Require Import QuadTreeUpd.
From S2P Require Import CoreData.
From S2P Require Import Service.
From S2P Require Import Workers.
From S2P Require Import WorkersJoin.
From S2P Require Import Handler.
From S2P Require Import LaModule.
From S2P Require Import Demo.
From stdpp Require Import relations.
#[local] Open Scope Z_scope.
#[local] Open Scope c_scope.

(** ** The properties *)

(** The workers at the start of their calls. *)
Definition starting {M : MM} (w : world) (calls : list call) : sys := mk_sys (mk_shmem w None) ((fun k => (k, Start)) <$> calls).

(** C7: Whatever the calls of any number of workers, in every interleaving of
    their steps at most one worker is in the critical section, and the lock word
    is 1 while there is one. *)
Theorem workers_mutual_exclusion {M : MM} ngx_ncpu conf w calls s :
  lock_of w = Some 0 -> rtc (step ngx_ncpu conf) (starting w calls) s ->
  forall i k c, s_workers s !! i = Some (k, Crit c) ->
    lock_of (s_world s) = Some 1 /\
    forall j k' c', s_workers s !! j = Some (k', Crit c') -> j = i.
Proof.
  intros Hw Hs i k c Hi.
  assert (Hinv : lock_inv s).
  { apply (steps_lock_inv _ _ _ _ Hs). left. split; [done|]. unfold holders. clear. by induction calls. }
  destruct Hinv as [[_ H0]|(Hl & H1 & _)].
  - pose proof (holders_insert _ _ _ _ Done Hi). simpl in *. lia.
  - split; [done|]. intros j k' c' Hj. eapply holders_two; [exact Hj|exact Hi|done].
Qed.


(** ** The same identifier at the same time *)
#[local] Existing Instance bump_mm.
#[local] Existing Instance bump_laws.

Definition call_a : call := mk_call (bs "a") place_a 0 0 5.
Definition call_a' : call := mk_call (bs "a") place_b 1 0 6.
Definition call_b : call := mk_call (bs "b") place_b 1 0 6.

Definition all_done (s : sys) : bool := forallb (fun kc => match kc.2 with Done => true | _ => false end) (s_workers s).

Lemma all_done_spec s : all_done s = true -> Forall (fun kc => kc.2 = Done) (s_workers s).
Proof.
  unfold all_done. rewrite List.forallb_forall, Forall_forall. intros H [k c] Hin%list_elem_of_In. specialize (H _ Hin).
  simpl in *. by destruct c.
Qed.

(** A search of the whole map. *)
Definition search_all (w : @world bump_mm) : out nla_ex_param :=
  let! core := deref (w_core w) in
  get_around_data 2 NLA_INVALID_STATUS NLA_INVALID_TYPE 50 (depth demo_conf) 100 (w_heap w) fn_v_InitRootRect (p_map_root core)
    (mk_ex 0 (bs "[") 10000).

(** C8: The lookup is made before the lock is taken.  Two workers that set the
    same new identifier may both miss it, and then the tree holds two items with
    that identifier while the string map knows only the second; or the second
    worker may find the node between its publication and its insertion in the
    tree, and dereferences its NULL map node. *)
Theorem same_new_id_race :
  (exists s ex d, rtc (step 2 demo_conf) (starting demo_world [call_a; call_a']) s /\
     Forall (fun kc => kc.2 = Done) (s_workers s) /\
     search_all (s_world s) = Ok ex /\
     ex_json ex = bs "[" ++ item_json (item_of call_a' 6) ++ bs "," ++ item_json (item_of call_a 5) ++ bs "," /\
     ngx_http_lookaround_getdatanode (bs "a") (s_world s) = Ok (Some d) /\
     data <$> datas (w_heap (s_world s)) !! d = Some (item_of call_a' 6)) /\
  (exists s, rtc (step 2 demo_conf) (starting demo_world [call_a; call_a']) s /\
     s_workers s !! 1%nat = Some (call_a', Crashed NullDeref)).
Proof.
  split.
  - pose (sched := [0; 1]%nat ++ replicate 13 0%nat ++ replicate 20 1%nat).
    eexists (run 2 demo_conf sched (starting demo_world [call_a; call_a'])), _, _.
    split; [apply run_steps|]. split; [apply all_done_spec; vm_compute; reflexivity|].
    split; [vm_compute; reflexivity|]. split; [vm_compute; reflexivity|]. split; vm_compute; reflexivity.
  - exists (run 2 demo_conf (replicate 11 0%nat ++ replicate 5 1%nat) (starting demo_world [call_a; call_a'])).
    split; [apply run_steps|vm_compute; reflexivity].
Qed.

Definition call_d : call := mk_call (bs "d") place_b 1 0 6.
Definition call_g : call := mk_call (bs "g") place_b 1 0 6.

(** C9: The lookup reads a bucket without the lock.  In any state in which one worker is in the
    loop over the pairs of a bucket and another one is about to let the array of this bucket
    grow, the growth frees the array under the loop when it moves the pairs, and the next step
    of the first worker reads freed memory; workers that set different new identifiers of one
    bucket come to such a state. *)
Theorem same_bucket_race :
  (forall {M : MM} ngx_ncpu conf s i j k k' b q n l p nk core map bk q' m,
     i <> j -> s_workers s !! i = Some (k, Look (LScan b (Some q) n l)) -> s_workers s !! j = Some (k', Crit (CGrow p nk)) ->
     w_core (s_world s) = Some core -> p_id2data_map core = Some map -> index map (c_id k') = Ok b -> buckets map !! b = Some bk ->
     grow_bucket (h_mm (w_heap (s_world s))) bk = (Some q', m) -> q' <> q ->
     s_workers (turn ngx_ncpu conf i (turn ngx_ncpu conf j s)) !! i = Some (k, Crashed BadPointer)) /\
  (exists s, rtc (step 2 demo_conf) (starting demo_world [call_a; call_d; call_g]) s /\ s_workers s !! 0%nat = Some (call_a, Done) /\
     s_workers s !! 1%nat = Some (call_d, Crashed BadPointer)).
Proof.
  split.
  - intros M ngx_ncpu conf s i j k k' b q n l p nk core map bk q' m Hne Hi Hj Hc Hm Hx Hb Hg Hq.
    assert (Hex : exists w' x, exec ngx_ncpu conf k' (Crit (CGrow p nk)) (s_mem s) = Ok (Crit (CPtr p nk q'), w') /\ m_flux w' = Some (b, x) /\ fx_array x = Some q' /\
              exists map', the_map w' = Ok map').
    { cbn [exec]. unfold exec_crit. rewrite Hc. cbn [deref]. rewrite obind_Ok, Hm. cbn [deref]. rewrite obind_Ok, Hx, obind_Ok. unfold bucket_at. rewrite Hb, obind_Ok, Hg.
      do 2 eexists. split; [reflexivity|]. split; [reflexivity|]. split; [reflexivity|]. eexists. reflexivity. }
    destruct Hex as (w' & x & Hex & Hw & Hqx & map' & Hmap). rewrite (turn_Ok _ _ _ _ _ _ _ _ Hj Hex). unfold turn. cbn [s_workers s_mem].
    rewrite list_lookup_insert_ne, Hi by done. cbn [exec]. unfold exec_look. rewrite Hmap, obind_Ok. unfold bucket_now. rewrite Hw.
    destruct (decide (b = b)); [|done]. rewrite obind_Ok. unfold get_slot. rewrite Hqx, bool_decide_eq_false_2 by congruence. cbn [obind s_workers].
    apply list_lookup_insert_eq. rewrite length_insert. by eapply lookup_lt_Some.
  - exists (run 2 demo_conf (replicate 14 0%nat ++ [1; 1]%nat ++ replicate 8 2%nat ++ [1]%nat) (starting demo_world [call_a; call_d; call_g])).
    split; [apply run_steps|]. split; vm_compute; reflexivity.
Qed.

(** ** Witnesses *)

(** Worker 1 has published its identifier while worker 0 waits for the lock. *)
Lemma workers_mutual_exclusion_witness :
  let s := run 2 demo_conf [0; 1; 0; 1; 1; 1; 1; 0; 0]%nat (starting demo_world [call_a; call_b]) in
  exists c, s_workers s !! 1%nat = Some (call_b, Crit c) /\ lock_of (s_world s) = Some 1.
Proof.
  intros s. assert (Hc : exists c, s_workers s !! 1%nat = Some (call_b, Crit c)) by (eexists; vm_compute; reflexivity).
  destruct Hc as [c Hc]. exists c. split; [exact Hc|].
  apply (workers_mutual_exclusion 2 demo_conf demo_world [call_a; call_b] s) with (i := 1%nat) (k := call_b) (c := c);
    [vm_compute; reflexivity|apply run_steps|exact Hc].
Defined.




(** The three workers of the example, by the first part. *)
Lemma same_bucket_race_witness :
  let s := run 2 demo_conf (replicate 14 0%nat ++ [1; 1]%nat ++ replicate 7 2%nat) (starting demo_world [call_a; call_d; call_g]) in
  s_workers (turn 2 demo_conf 1 (turn 2 demo_conf 2 s)) !! 1%nat = Some (call_d, Crashed BadPointer).
Proof.
  intros s. destruct same_bucket_race as [H _].
  eapply (H _ 2 demo_conf s 1%nat 2%nat call_d call_g); [done|vm_compute; reflexivity..|vm_compute; discriminate].
Defined.
