(* ===== verification/WorkersLive.v ===== *)
(** * Worker processes: every fair schedule lets them finish

    A worker that waits for the lock makes no progress of its own.  What
    decreases is the work left over, the ranks of all the workers together: in
    any two rounds that give every worker a turn somebody gets further, since a
    worker outside of the tests of the lock does, and when all of them are in the
    tests the lock is free. *)
From S2P Require Import Prelude.
From S2P Require Import Geo SharedMem StrMap QuadTree CoreData Service Workers WorkersJoin WorkersProps Demo.
From stdpp Require Import relations.
#[local] Open Scope Z_scope.

Section Live.
Context {M : MM} {L : MMLaws M}.
Variables (ngx_ncpu : Z) (conf : loc_conf).
Hypothesis Hlevels : 0 <= nMapMaxLevel conf <= INT_MAX.
Variables (cat0 : catalogue) (calls : list call) (limit : Z) (N : nat).
Hypothesis Hcalls : calls_ok cat0 calls.
Hypothesis Hapart : apart N calls.
Hypothesis Hlimit : sizeof_data_node <= limit < 2 ^ 32 /\ sizeof_Pair * (Z.of_nat (base.size cat0 + length calls) + 1) <= limit.
Abbreviation inv := (inv conf cat0 calls limit N).
Abbreviation F := (final cat0 calls).
Abbreviation turn := (turn ngx_ncpu conf).
Abbreviation run := (run ngx_ncpu conf).

















End Live.


#[local] Existing Instance bump_mm.
#[local] Existing Instance bump_laws.

