(* ===== verification/NgxCodec.v ===== *)
(** * Encodings: nginx/src/core/ngx_string.c

    Hexadecimal, base64, percent and HTML escapes and UTF-8, as functions from the
    bytes read to the bytes written.  A destination is the list of the bytes
    written behind [dst]; the buffers are the callers'.  The theorems on lengths
    say how large they must be. *)
From S2P Require Import Prelude.
From S2P Require Import NgxString.

(** A static table indexed by a value that its type keeps in range. *)
Definition tbl (t : bytes) (i : Z) : Z := default 0 (t !! Z.to_nat i).
Definition u8 (z : Z) : Z := z mod 256.

(** ** Hexadecimal *)
Definition hex : bytes := bs "0123456789abcdef".

Fixpoint ngx_hex_dump (src : bytes) : bytes :=
  match src with
  | [] => []
  | c :: src' => tbl hex (Z.shiftr c 4) :: tbl hex (Z.land c 15) :: ngx_hex_dump src'
  end.

(** ** Base64 *)
Module Base64.

Definition basis64 : bytes := bs "ABCDEFGHIJKLMNOPQRSTUVWXYZabcdefghijklmnopqrstuvwxyz0123456789+/".

Fixpoint ngx_encode_base64 (s : bytes) : bytes :=
  match s with
  | s0 :: s1 :: s2 :: s' =>
      tbl basis64 (Z.land (Z.shiftr s0 2) 63) ::
      tbl basis64 (Z.lor (Z.shiftl (Z.land s0 3) 4) (Z.shiftr s1 4)) ::
      tbl basis64 (Z.lor (Z.shiftl (Z.land s1 15) 2) (Z.shiftr s2 6)) ::
      tbl basis64 (Z.land s2 63) :: ngx_encode_base64 s'
  | [s0; s1] =>
      [tbl basis64 (Z.land (Z.shiftr s0 2) 63);
       tbl basis64 (Z.lor (Z.shiftl (Z.land s0 3) 4) (Z.shiftr s1 4));
       tbl basis64 (Z.shiftl (Z.land s1 15) 2); 61]
  | [s0] =>
      [tbl basis64 (Z.land (Z.shiftr s0 2) 63); tbl basis64 (Z.shiftl (Z.land s0 3) 4); 61; 61]
  | [] => []
  end.

(** A decoding table; [c62] and [c63] are the characters of 62 and 63. *)
Definition bad (n : nat) : bytes := replicate n 77.
Definition upto (a : Z) (n : nat) : bytes := (fun i => a + Z.of_nat i) <$> seq 0 n.

Definition basis_std : bytes :=
  bad 43 ++ [62] ++ bad 3 ++ [63] ++ upto 52 10 ++ bad 7 ++ upto 0 26 ++ bad 6 ++ upto 26 26 ++ bad 133.
Definition basis_url : bytes :=
  bad 45 ++ [62] ++ bad 2 ++ upto 52 10 ++ bad 7 ++ upto 0 26 ++ bad 4 ++ [63] ++ bad 1 ++ upto 26 26 ++ bad 133.

(** The first loop: the bytes before ['='], [None] on a byte outside the alphabet. *)
Fixpoint scan (basis : bytes) (src : bytes) : option bytes :=
  match src with
  | [] => Some []
  | c :: src' =>
      if c =? 61 then Some []
      else if tbl basis c =? 77 then None
      else match scan basis src' with None => None | Some r => Some (c :: r) end
  end.

(** The second loop and the tests behind it. *)
Fixpoint decode_loop (basis : bytes) (s : bytes) : bytes :=
  match s with
  | s0 :: s1 :: s2 :: s3 :: s' =>
      u8 (Z.lor (Z.shiftl (tbl basis s0) 2) (Z.shiftr (tbl basis s1) 4)) ::
      u8 (Z.lor (Z.shiftl (tbl basis s1) 4) (Z.shiftr (tbl basis s2) 2)) ::
      u8 (Z.lor (Z.shiftl (tbl basis s2) 6) (tbl basis s3)) :: decode_loop basis s'
  | [s0; s1; s2] =>
      [u8 (Z.lor (Z.shiftl (tbl basis s0) 2) (Z.shiftr (tbl basis s1) 4));
       u8 (Z.lor (Z.shiftl (tbl basis s1) 4) (Z.shiftr (tbl basis s2) 2))]
  | [s0; s1] => [u8 (Z.lor (Z.shiftl (tbl basis s0) 2) (Z.shiftr (tbl basis s1) 4))]
  | _ => []
  end.

Definition ngx_decode_base64_internal (basis src : bytes) : option bytes :=
  match scan basis src with
  | None => None
  | Some s => if (length s mod 4 =? 1)%nat then None else Some (decode_loop basis s)
  end.

Definition ngx_decode_base64 (src : bytes) : option bytes := ngx_decode_base64_internal basis_std src.
Definition ngx_decode_base64url (src : bytes) : option bytes := ngx_decode_base64_internal basis_url src.
End Base64.

(** ** Percent escapes *)
Module Uri.

Definition all : Z := 4294967295.
Definition uri : bytes := [all; 2147483689; 0; 2147483648; all; all; all; all].
Definition args : bytes := [all; 2281703529; 0; 2147483648; all; all; all; all].
Definition uri_component : bytes := [all; 4227899391; 2013265921; 3087007745; all; all; all; all].
Definition html : bytes := [all; 173; 0; 2147483648; all; all; all; all].
Definition refresh : bytes := [all; 133; 0; 2147483648; all; all; all; all].
Definition memcached : bytes := [all; 33; 0; 0; 0; 0; 0; 0].

Definition maps : list bytes := [uri; args; uri_component; html; refresh; memcached; memcached].

(** [escape[c >> 5] & (1 << (c & 0x1f))] *)
Definition must_escape (escape : bytes) (c : Z) : bool :=
  negb (Z.land (tbl escape (Z.shiftr c 5)) (Z.shiftl 1 (Z.land c 31)) =? 0).

(** [ngx_escape_uri] with [dst == NULL]: the number of bytes to escape. *)
Fixpoint count_escapes (escape : bytes) (n : Z) (src : bytes) : Z :=
  match src with
  | [] => n
  | c :: src' => count_escapes escape (if must_escape escape c then n + 1 else n) src'
  end.

(** [ngx_escape_uri] with a destination; [escape] is [map[type]]. *)
Fixpoint ngx_escape_uri (escape : bytes) (src : bytes) : bytes :=
  match src with
  | [] => []
  | c :: src' =>
      if must_escape escape c
      then 37 :: tbl hex (Z.shiftr c 4) :: tbl hex (Z.land c 15) :: ngx_escape_uri escape src'
      else c :: ngx_escape_uri escape src'
  end.

Definition NGX_UNESCAPE_URI : Z := 1.
Definition NGX_UNESCAPE_REDIRECT : Z := 2.

Inductive sw : Type := sw_usual | sw_quoted | sw_quoted_second.

Definition flag (type bit : Z) : bool := negb (Z.land type bit =? 0).
Definition is_dec (ch : Z) : bool := (48 <=? ch) && (ch <=? 57).
Definition is_af (c : Z) : bool := (97 <=? c) && (c <=? 102).

(** One round of the loop: the bytes written, and the next state with [decoded],
    or [None] for [goto done].  [prev] is [*(s - 2)]. *)
Definition unescape_step (type : Z) (st : sw) (decoded prev ch : Z) : bytes * option (sw * Z) :=
  match st with
  | sw_usual =>
      if (ch =? 63) && flag type (Z.lor NGX_UNESCAPE_URI NGX_UNESCAPE_REDIRECT) then ([ch], None)
      else if ch =? 37 then ([], Some (sw_quoted, decoded))
      else ([ch], Some (sw_usual, decoded))
  | sw_quoted =>
      if is_dec ch then ([], Some (sw_quoted_second, u8 (ch - 48)))
      else
        let c := Z.lor ch 32 in
        if is_af c then ([], Some (sw_quoted_second, u8 (c - 97 + 10)))
        else ([ch], Some (sw_usual, decoded))
  | sw_quoted_second =>
      if is_dec ch then
        let x := u8 (Z.shiftl decoded 4 + ch - 48) in
        if flag type NGX_UNESCAPE_REDIRECT then
          if (37 <? x) && (x <? 127) then ([x], Some (sw_usual, decoded))
          else ([37; prev; ch], Some (sw_usual, decoded))
        else ([x], Some (sw_usual, decoded))
      else
        let c := Z.lor ch 32 in
        if is_af c then
          let x := u8 (Z.shiftl decoded 4 + c - 97 + 10) in
          if flag type NGX_UNESCAPE_URI then
            if x =? 63 then ([x], None) else ([x], Some (sw_usual, decoded))
          else if flag type NGX_UNESCAPE_REDIRECT then
            if x =? 63 then ([x], None)
            else if (37 <? x) && (x <? 127) then ([x], Some (sw_usual, decoded))
            else ([37; prev; ch], Some (sw_usual, decoded))
          else ([x], Some (sw_usual, decoded))
        else ([], Some (sw_usual, decoded))
  end.

(** The loop: the bytes written and the bytes not read. *)
Fixpoint unescape_loop (type : Z) (st : sw) (decoded prev : Z) (src : bytes) : bytes * bytes :=
  match src with
  | [] => ([], [])
  | ch :: src' =>
      let '(w, next) := unescape_step type st decoded prev ch in
      match next with
      | None => (w, src')
      | Some (st, decoded) => let '(d, s) := unescape_loop type st decoded ch src' in (w ++ d, s)
      end
  end.

Definition ngx_unescape_uri (src : bytes) (type : Z) : bytes * bytes := unescape_loop type sw_usual 0 0 src.

(** [ngx_escape_html]: the extra length, and the text. *)
Definition html_entity (ch : Z) : bytes :=
  if ch =? 60 then bs "&lt;" else if ch =? 62 then bs "&gt;" else if ch =? 38 then bs "&amp;"
  else if ch =? 34 then bs "&quot;" else [ch].

Fixpoint html_extra (len : Z) (src : bytes) : Z :=
  match src with
  | [] => len
  | ch :: src' =>
      html_extra (if ch =? 60 then len + 3 else if ch =? 62 then len + 3 else if ch =? 38 then len + 4
                  else if ch =? 34 then len + 5 else len) src'
  end.

Fixpoint ngx_escape_html (src : bytes) : bytes :=
  match src with
  | [] => []
  | ch :: src' => html_entity ch ++ ngx_escape_html src'
  end.
End Uri.

(** ** UTF-8 *)
Module Utf8.

Definition BAD : Z := 4294967295.
Definition INCOMPLETE : Z := 4294967294.

(** The loop over the continuation bytes: the value, or the error, with [*p]. *)
Fixpoint tail_loop (len : nat) (a : bytes) (p : nat) (u : Z) : out (option Z * nat) :=
  match len with
  | O => Ok (Some u, p)
  | S len' =>
      let! i := rd a p in
      if i <? 128 then Ok (None, S p)
      else tail_loop len' a (S p) (Z.lor (u32 (Z.shiftl u 6)) (Z.land i 63))
  end.

(** [a] is the memory readable behind the string, [n] the length passed. *)
Definition ngx_utf8_decode (a : bytes) (p : nat) (n : Z) : out (Z * nat) :=
  let! b := rd a p in
  let lead (u valid : Z) (len : nat) : out (Z * nat) :=
    if u64 (n - 1) <? Z.of_nat len then Ok (INCOMPLETE, p)
    else
      let! (r, p) := tail_loop len a (S p) u in
      match r with
      | None => Ok (BAD, p)
      | Some u => if valid <? u then Ok (u, p) else Ok (BAD, p)
      end in
  if 240 <=? b then lead (Z.land b 7) 65535 3%nat
  else if 224 <=? b then lead (Z.land b 15) 2047 2%nat
  else if 194 <=? b then lead (Z.land b 31) 127 1%nat
  else Ok (BAD, S p).

(** [ngx_utf8_length]: the loop; every round but the one that returns moves [p]. *)
Fixpoint length_loop (fuel : nat) (a : bytes) (p last : nat) (n len : Z) : out Z :=
  match fuel with
  | O => NoFuel
  | S f =>
      if (p <? last)%nat then
        let! c := rd a p in
        if c <? 128 then length_loop f a (S p) last n (len + 1)
        else
          let! (u, p) := ngx_utf8_decode a p n in
          if 1114111 <? u then Ok n else length_loop f a p last n (len + 1)
      else Ok len
  end.

Definition ngx_utf8_length (a : bytes) (p n : nat) : out Z :=
  length_loop (S n) a p (p + n) (Z.of_nat n) 0.

(** [ngx_utf8_cpystrn]: at most [n - 1] characters of [src], whose readable
    length is [len], then a NUL; the bytes written. *)
Fixpoint cpystrn_loop (fuel : nat) (a : bytes) (src : nat) (len : Z) (dst : bytes) : out bytes :=
  match fuel with
  | O => Ok (dst ++ [0])
  | S f =>
      let! c := rd a src in
      if c <? 128 then
        if c =? 0 then Ok (dst ++ [0])
        else cpystrn_loop f a (S src) (u64 (len - 1)) (dst ++ [c])
      else
        let! (u, nxt) := ngx_utf8_decode a src len in
        if 1114111 <? u then Ok (dst ++ [0])
        else cpystrn_loop f a nxt (u64 (len - (Z.of_nat nxt - Z.of_nat src)))
               (dst ++ take (nxt - src) (drop src a))
  end.

Definition ngx_utf8_cpystrn (a : bytes) (src n : nat) (len : Z) : out bytes :=
  match n with O => Ok [] | S n' => cpystrn_loop n' a src len [] end.
End Utf8.
