(* ===== verification/NgxCodecProps.v ===== *)
(** * What the encodings promise

    Round trips, lengths and the absence of unescaped characters.  Facts about
    single bytes are checked on all 256 of them. *)
From S2P Require Import Prelude.
From S2P Require Import NgxString.
From S2P Require Import NgxCodec.

(** ** Exhaustive reasoning on bytes *)
Definition all_bytes : list Z := Z.of_nat <$> seq 0 256.

Lemma byte_forall (P : Z -> bool) : forallb P all_bytes = true -> forall c, is_byte c -> P c = true.
Proof.
  intros H c Hc. rewrite List.forallb_forall in H. apply H. unfold is_byte in Hc.
  apply list_elem_of_In, list_elem_of_fmap. exists (Z.to_nat c). split; [lia|]. apply elem_of_seq. lia.
Qed.

Lemma byte_forall2 (P : Z -> Z -> bool) :
  forallb (fun a => forallb (P a) all_bytes) all_bytes = true ->
  forall a b, is_byte a -> is_byte b -> P a b = true.
Proof.
  intros H a b Ha Hb. apply (byte_forall (P a)); [|done].
  by apply (byte_forall (fun a => forallb (P a) all_bytes)).
Qed.

(** ** Base64 *)
Module Base64Facts.
Import Base64.

(** The four 6-bit groups of three bytes. *)
Definition g0 (a : Z) : Z := Z.land (Z.shiftr a 2) 63.
Definition g1 (a b : Z) : Z := Z.lor (Z.shiftl (Z.land a 3) 4) (Z.shiftr b 4).
Definition g2 (b c : Z) : Z := Z.lor (Z.shiftl (Z.land b 15) 2) (Z.shiftr c 6).
Definition g3 (c : Z) : Z := Z.land c 63.

(** A character of the alphabet: not ['='], decoded by its table. *)
Definition good (x : Z) : bool :=
  (tbl basis_std (tbl basis64 x) =? x) && negb (tbl basis64 x =? 61) &&
  negb (tbl basis_std (tbl basis64 x) =? 77).

Lemma good_spec x :
  good x = true ->
  tbl basis_std (tbl basis64 x) = x /\ (tbl basis64 x =? 61) = false /\ (tbl basis_std (tbl basis64 x) =? 77) = false.
Proof.
  unfold good. intros [[H1%Z.eqb_eq H2]%andb_prop H3]%andb_prop.
  apply negb_true_iff in H2, H3. done.
Qed.

Lemma good_groups a b : is_byte a -> is_byte b ->
  good (g0 a) = true /\ good (g1 a b) = true /\ good (g2 a b) = true /\ good (g3 a) = true.
Proof.
  intros Ha Hb.
  pose proof (byte_forall2 (fun a b => good (g0 a) && good (g1 a b) && good (g2 a b) && good (g3 a))
                ltac:(vm_compute; reflexivity) a b Ha Hb) as H. cbn beta in H.
  apply andb_prop in H as [[[H0 H1]%andb_prop H2]%andb_prop H3]. done.
Qed.

Lemma join_groups a b c : is_byte a -> is_byte b -> is_byte c ->
  u8 (Z.lor (Z.shiftl (g0 a) 2) (Z.shiftr (g1 a b) 4)) = a /\
  u8 (Z.lor (Z.shiftl (g1 a b) 4) (Z.shiftr (g2 b c) 2)) = b /\
  u8 (Z.lor (Z.shiftl (g2 b c) 6) (g3 c)) = c.
Proof.
  intros Ha Hb Hc.
  pose proof (byte_forall2 (fun a b => u8 (Z.lor (Z.shiftl (g0 a) 2) (Z.shiftr (g1 a b) 4)) =? a)
                ltac:(vm_compute; reflexivity) a b Ha Hb) as H1.
  (* the second byte is split between [g1 a b] and [g2 b c] *)
  assert (Hsplit : u8 (Z.shiftl (g1 a b) 4) = Z.land b 240 /\ Z.shiftr (g2 b c) 2 = Z.land b 15).
  { pose proof (byte_forall2 (fun a b => u8 (Z.shiftl (g1 a b) 4) =? Z.land b 240)
                  ltac:(vm_compute; reflexivity) a b Ha Hb) as E1.
    pose proof (byte_forall2 (fun b c => Z.shiftr (g2 b c) 2 =? Z.land b 15)
                  ltac:(vm_compute; reflexivity) b c Hb Hc) as E2.
    split; by apply Z.eqb_eq. }
  pose proof (byte_forall2 (fun b c => u8 (Z.lor (Z.shiftl (g2 b c) 6) (g3 c)) =? c)
                ltac:(vm_compute; reflexivity) b c Hb Hc) as H3.
  apply Z.eqb_eq in H1, H3. split; [done|]. split; [|done].
  destruct Hsplit as [E1 E2]. unfold u8 in *.
  change 256 with (2 ^ 8) in *. rewrite <- !Z.land_ones in * by lia.
  rewrite Z.land_lor_distr_l, E1, E2.
  pose proof (byte_forall (fun b => Z.lor (Z.land b 240) (Z.land (Z.land b 15) (Z.ones 8)) =? b)
                ltac:(vm_compute; reflexivity) b Hb) as H2.
  by apply Z.eqb_eq.
Qed.

(** The padding groups of the last one or two bytes. *)
Lemma byte_0 : is_byte 0.
Proof. unfold is_byte. lia. Qed.

Lemma g1_0 a : g1 a 0 = Z.shiftl (Z.land a 3) 4.
Proof. unfold g1. by rewrite Z.shiftr_0_l, Z.lor_0_r. Qed.
Lemma g2_0 b : g2 b 0 = Z.shiftl (Z.land b 15) 2.
Proof. unfold g2. by rewrite Z.shiftr_0_l, Z.lor_0_r. Qed.

Lemma scan_good x s : good x = true ->
  scan basis_std (tbl basis64 x :: s) = (match scan basis_std s with None => None | Some r => Some (tbl basis64 x :: r) end).
Proof. intros (_ & H2 & H3)%good_spec. cbn [scan]. by rewrite H2, H3. Qed.

(** Induction by three bytes. *)
Lemma triples (P : bytes -> Prop) :
  P [] -> (forall a, P [a]) -> (forall a b, P [a; b]) -> (forall a b c s, P s -> P (a :: b :: c :: s)) -> forall s, P s.
Proof.
  intros H0 H1 H2 H3.
  assert (H : forall s, P s /\ (forall a, P (a :: s)) /\ (forall a b, P (a :: b :: s))).
  { induction s as [|c s (IH0 & IH1 & IH2)]; [done|]. split; [apply IH1|]. split; [intros a; apply IH2|].
    intros a b. by apply H3. }
  intros s. apply H.
Qed.

Lemma encode_decode s : Forall is_byte s ->
  exists t, scan basis_std (ngx_encode_base64 s) = Some t /\ (length t mod 4 <> 1)%nat /\ decode_loop basis_std t = s.
Proof.
  induction s as [|a|a b|a b c s IH] using triples; intros Hs.
  - by exists [].
  - apply Forall_cons in Hs as [Hs _]. destruct (good_groups a 0 Hs byte_0) as (G0 & G1 & _).
    destruct (join_groups a 0 0 Hs byte_0 byte_0) as (J & _).
    cbn [ngx_encode_base64]. fold (g0 a). rewrite <- (g1_0 a).
    exists [tbl basis64 (g0 a); tbl basis64 (g1 a 0)]. rewrite !scan_good by done. split; [done|]. split; [done|].
    apply good_spec in G0 as (-> & _), G1 as (E1 & _). cbn [decode_loop].
    destruct (good_spec _ (proj1 (good_groups a 0 Hs byte_0))) as (E0 & _). by rewrite E0, E1, J.
  - apply Forall_cons in Hs as [Ha [Hb _]%Forall_cons].
    destruct (good_groups a b Ha Hb) as (G0 & G1 & _). destruct (good_groups b 0 Hb byte_0) as (_ & _ & G2 & _).
    destruct (join_groups a b 0 Ha Hb byte_0) as (J1 & J2 & _).
    cbn [ngx_encode_base64]. fold (g0 a) (g1 a b). rewrite <- (g2_0 b).
    exists [tbl basis64 (g0 a); tbl basis64 (g1 a b); tbl basis64 (g2 b 0)].
    rewrite !scan_good by done. split; [done|]. split; [done|].
    apply good_spec in G0 as (E0 & _), G1 as (E1 & _), G2 as (E2 & _). cbn [decode_loop].
    by rewrite E0, E1, E2, J1, J2.
  - apply Forall_cons in Hs as [Ha [Hb [Hc Hs]%Forall_cons]%Forall_cons].
    destruct (IH Hs) as (t & Et & Hm & Hd).
    destruct (good_groups a b Ha Hb) as (G0 & G1 & _). destruct (good_groups b c Hb Hc) as (_ & _ & G2 & _).
    destruct (good_groups c 0 Hc byte_0) as (_ & _ & _ & G3).
    destruct (join_groups a b c Ha Hb Hc) as (J1 & J2 & J3).
    cbn [ngx_encode_base64]. fold (g0 a) (g1 a b) (g2 b c) (g3 c).
    exists (tbl basis64 (g0 a) :: tbl basis64 (g1 a b) :: tbl basis64 (g2 b c) :: tbl basis64 (g3 c) :: t).
    rewrite !scan_good, Et by done. split; [done|]. split.
    + cbn [length]. replace (S (S (S (S (length t))))) with (length t + 1 * 4)%nat by lia. by rewrite Nat.Div0.mod_add.
    + apply good_spec in G0 as (E0 & _), G1 as (E1 & _), G2 as (E2 & _), G3 as (E3 & _). cbn [decode_loop].
      by rewrite E0, E1, E2, E3, J1, J2, J3, Hd.
Qed.

Lemma encode_length s : length (ngx_encode_base64 s) = ((length s + 2) / 3 * 4)%nat.
Proof.
  induction s as [|a|a b|a b c s IH] using triples; try reflexivity. cbn [ngx_encode_base64 length]. rewrite IH.
  replace (S (S (S (length s))) + 2)%nat with (length s + 2 + 1 * 3)%nat by lia. rewrite Nat.div_add by lia. lia.
Qed.
End Base64Facts.

(** ** Percent escapes *)
Module UriFacts.
Import Uri.

Lemma count_escapes_add escape n s : count_escapes escape n s = n + count_escapes escape 0 s.
Proof.
  revert n. induction s as [|c s IH]; intros n; simpl; [lia|].
  rewrite IH, (IH (if must_escape escape c then 0 + 1 else 0)). destruct (must_escape escape c); lia.
Qed.

Lemma escape_length escape s :
  blen (ngx_escape_uri escape s) = blen s + 2 * count_escapes escape 0 s.
Proof.
  unfold blen. induction s as [|c s IH]; [done|]. cbn [ngx_escape_uri count_escapes].
  rewrite count_escapes_add. destruct (must_escape escape c); cbn [length]; lia.
Qed.

(** Reading ['%'] and the two digits of a byte gives the byte back. *)
Lemma unescape_quoted c decoded prev s :
  is_byte c ->
  unescape_loop 0 sw_usual decoded prev (37 :: tbl hex (Z.shiftr c 4) :: tbl hex (Z.land c 15) :: s) =
  let '(d, r) := unescape_loop 0 sw_usual (Z.shiftr c 4) (tbl hex (Z.land c 15)) s in (c :: d, r).
Proof.
  intros Hc.
  pose proof (byte_forall (fun c => match unescape_step 0 sw_quoted 0 37 (tbl hex (Z.shiftr c 4)) with
      | ([], Some (sw_quoted_second, d)) =>
          (d =? Z.shiftr c 4) &&
          match unescape_step 0 sw_quoted_second d 0 (tbl hex (Z.land c 15)) with
          | ([x], Some (sw_usual, d')) => (x =? c) && (d' =? d)
          | _ => false
          end
      | _ => false
      end) ltac:(vm_compute; reflexivity) c Hc) as H. cbn beta in H.
  assert (Hd : forall dec prv ch, unescape_step 0 sw_quoted dec prv ch =
            match unescape_step 0 sw_quoted 0 37 ch with
            | ([], _) as r => r
            | (w, _) => (w, Some (sw_usual, dec))
            end).
  { intros dec prv ch. unfold unescape_step. destruct (is_dec ch); [done|]. by destruct (is_af _). }
  assert (Hp : forall dec prv ch, unescape_step 0 sw_quoted_second dec prv ch = unescape_step 0 sw_quoted_second dec 0 ch).
  { done. }
  cbn [unescape_loop]. change (unescape_step 0 sw_usual decoded prev 37) with (@nil Z, Some (sw_quoted, decoded)).
  cbn iota beta. rewrite Hd. destruct (unescape_step 0 sw_quoted 0 37 (tbl hex (Z.shiftr c 4))) as [[|? ?] [[[| |] d]|]];
    try done. apply andb_prop in H as [->%Z.eqb_eq H]. rewrite Hp.
  destruct (unescape_step 0 sw_quoted_second (Z.shiftr c 4) 0 (tbl hex (Z.land c 15))) as [[|x [|]] [[[| |] d']|]]; try done.
  apply andb_prop in H as [->%Z.eqb_eq ->%Z.eqb_eq]. by destruct (unescape_loop 0 sw_usual _ _ s).
Qed.

Lemma unescape_escape escape decoded prev s :
  must_escape escape 37 = true -> Forall is_byte s ->
  unescape_loop 0 sw_usual decoded prev (ngx_escape_uri escape s) = (s, []).
Proof.
  intros H37 Hs. revert decoded prev. induction Hs as [|c s Hc Hs IH]; intros decoded prev; [done|].
  cbn [ngx_escape_uri]. destruct (must_escape escape c) eqn:E.
  - by rewrite unescape_quoted, IH.
  - cbn [unescape_loop]. unfold unescape_step. change (flag 0 _) with false. rewrite andb_false_r.
    destruct (Z.eqb_spec c 37) as [->|]; [congruence|]. by rewrite IH.
Qed.

(** What the tables say of the hexadecimal digits and of ['%']. *)
Lemma maps_facts type map : maps !! type = Some map ->
  (forall c, is_byte c -> must_escape map (tbl hex (Z.shiftr c 4)) = false /\ must_escape map (tbl hex (Z.land c 15)) = false) /\
  must_escape map 37 = negb (type =? 4)%nat.
Proof.
  intros Hm.
  assert (H : forallb (fun '(type, map) =>
     forallb (fun c => negb (must_escape map (tbl hex (Z.shiftr c 4))) && negb (must_escape map (tbl hex (Z.land c 15)))) all_bytes &&
     Bool.eqb (must_escape map 37) (negb (type =? 4)%nat)) (zip (seq 0 7) maps) = true) by (vm_compute; reflexivity).
  rewrite List.forallb_forall in H. specialize (H (type, map)).
  assert (Hi : List.In (type, map) (zip (seq 0 7) maps)).
  { apply list_elem_of_In, list_elem_of_lookup. exists type. pose proof (lookup_lt_Some _ _ _ Hm) as Hl. change (length maps) with 7%nat in Hl.
    rewrite lookup_zip_with, Hm. rewrite lookup_seq_lt by lia. done. }
  specialize (H Hi). cbn beta iota in H. apply andb_prop in H as [H1 H2%Bool.eqb_prop]. split; [|done].
  intros c Hc. pose proof (byte_forall _ H1 c Hc) as H. cbn beta in H. apply andb_prop in H as [H3 H4].
  by apply negb_true_iff in H3, H4.
Qed.

(** Every byte to escape is gone from the result, but for ['%'] itself. *)
Lemma escaped_plain type map s c : maps !! type = Some map -> Forall is_byte s ->
  c ∈ ngx_escape_uri map s -> must_escape map c = true -> c = 37.
Proof.
  intros Hm Hs. destruct (maps_facts _ _ Hm) as [Hh _]. induction Hs as [|x s Hx Hs IH]; cbn [ngx_escape_uri].
  - by intros ?%not_elem_of_nil.
  - destruct (Hh x Hx) as [H1 H2]. destruct (must_escape map x) eqn:E; intros Hin Hc.
    + apply elem_of_cons in Hin as [->|[->|[->|Hin]%elem_of_cons]%elem_of_cons]; [done|congruence|congruence|by apply IH].
    + apply elem_of_cons in Hin as [->|Hin]; [congruence|by apply IH].
Qed.

Lemma html_extra_add n s : html_extra n s = n + html_extra 0 s.
Proof.
  revert n. induction s as [|c s IH]; intros n; simpl; [lia|].
  rewrite IH. rewrite (IH (if c =? 60 then _ else _)). zcase; lia.
Qed.

Lemma escape_html_length s : blen (ngx_escape_html s) = blen s + html_extra 0 s.
Proof.
  unfold blen. induction s as [|c s IH]; [done|]. cbn [ngx_escape_html html_extra].
  rewrite html_extra_add, length_app. unfold html_entity. cbn [length].
  zcase; change (length (bs "&lt;")) with 4%nat; change (length (bs "&gt;")) with 4%nat;
    change (length (bs "&amp;")) with 5%nat; change (length (bs "&quot;")) with 6%nat; simpl length; lia.
Qed.

Lemma escape_html_plain s c : c = 60 \/ c = 62 \/ c = 34 -> c ∉ ngx_escape_html s.
Proof.
  intros Hc. induction s as [|x s IH]; [apply not_elem_of_nil|]. cbn [ngx_escape_html]. rewrite not_elem_of_app.
  split; [|done]. unfold html_entity. zcase; vm_compute bs; rewrite ?not_elem_of_cons;
    repeat split; try lia; apply not_elem_of_nil.
Qed.

(** Unescaping never writes more than it reads, so it may be done in place. *)
Lemma unescape_step_shrinks type st decoded prev ch w next :
  unescape_step type st decoded prev ch = (w, next) ->
  (length w <= match st with sw_usual => 1 | sw_quoted => 1 | sw_quoted_second => 3 end)%nat /\
  match st, next with
  | sw_usual, Some (sw_usual, _) => True
  | sw_usual, Some (sw_quoted, _) => w = []
  | sw_quoted, Some (sw_usual, _) => True
  | sw_quoted, Some (sw_quoted_second, _) => w = []
  | sw_quoted_second, Some (sw_usual, _) | _, None => True
  | _, _ => False
  end.
Proof.
  destruct st; unfold unescape_step; intros H;
    repeat match type of H with context [if ?b then _ else _] => destruct b end;
    injection H as <- <-; simpl; split; first [lia|done].
Qed.

Lemma unescape_loop_shrinks type src : forall st decoded prev d r,
  unescape_loop type st decoded prev src = (d, r) ->
  (length d + length r <= length src + match st with sw_usual => 0 | sw_quoted => 1 | sw_quoted_second => 2 end)%nat.
Proof.
  induction src as [|ch src IH]; intros st decoded prev d r; cbn [unescape_loop].
  - intros [= <- <-]. simpl. lia.
  - destruct (unescape_step type st decoded prev ch) as [w next] eqn:E.
    pose proof (unescape_step_shrinks _ _ _ _ _ _ _ E) as [Hw Hn]. destruct next as [[st' decoded']|].
    + destruct (unescape_loop type st' decoded' ch src) as [d' r'] eqn:E'. intros [= <- <-].
      specialize (IH _ _ _ _ _ E'). rewrite length_app. cbn [length].
      destruct st, st'; try done; subst; simpl in *; lia.
    + intros [= <- <-]. cbn [length]. destruct st; lia.
Qed.
End UriFacts.

(** ** UTF-8 *)
Module Utf8Facts.
Import Utf8.

(** The encoding of a code point of two to four bytes. *)
Definition utf8 (u : Z) : bytes :=
  if u <? 2048 then [192 + u / 64; 128 + u mod 64]
  else if u <? 65536 then [224 + u / 4096; 128 + u / 64 mod 64; 128 + u mod 64]
  else [240 + u / 262144; 128 + u / 4096 mod 64; 128 + u / 64 mod 64; 128 + u mod 64].

Lemma lor_shift u x : 0 <= u -> 0 <= x < 64 -> Z.lor (Z.shiftl u 6) x = u * 64 + x.
Proof.
  intros Hu Hx. rewrite Z.shiftl_mul_pow2 by lia. change (2 ^ 6) with 64.
  apply Z.bits_inj'. intros n Hn. rewrite Z.lor_spec. change 64 with (2 ^ 6).
  destruct (Z.lt_ge_cases n 6) as [Hlt|Hge].
  - rewrite Z.mul_pow2_bits_low by done. cbn [orb].
    rewrite <- (Z.mod_pow2_bits_low (u * 2 ^ 6 + x) 6 n Hlt), Z.add_comm, Z_mod_plus_full, Z.mod_small by lia. done.
  - replace (Z.testbit x n) with false
      by (symmetry; rewrite <- (Z.mod_small x (2 ^ 6)) by lia; by apply Z.mod_pow2_bits_high).
    rewrite orb_false_r. replace n with (n - 6 + 6) at 2 by lia. rewrite <- Z.shiftr_spec by lia.
    rewrite Z.shiftr_div_pow2, Z.div_add_l, Z.div_small, Z.add_0_r by lia.
    rewrite Z.mul_pow2_bits by lia. f_equal.
Qed.

Lemma land_lead (b k n : Z) : 0 <= n -> 0 <= k < 2 ^ n -> b mod 2 ^ n = 0 -> Z.land (b + k) (2 ^ n - 1) = k.
Proof.
  intros Hn Hk Hb. replace (2 ^ n - 1) with (Z.ones n) by (rewrite Z.ones_equiv; lia).
  rewrite Z.land_ones by done. rewrite Z.add_mod by lia. rewrite Hb, Z.add_0_l, Z.mod_mod by lia. by apply Z.mod_small.
Qed.

Lemma land_cont k : 0 <= k < 64 -> Z.land (128 + k) 63 = k.
Proof. intros H. by apply (land_lead 128 k 6). Qed.

(** One continuation byte. *)
Lemma tail_step a p k u len :
  a !! p = Some (128 + k) -> 0 <= k < 64 -> 0 <= u < 2 ^ 26 ->
  tail_loop (S len) a p u = tail_loop len a (S p) (u * 64 + k).
Proof.
  intros Hp Hk Hu. cbn [tail_loop]. rewrite (rd_lookup _ _ _ Hp), obind_Ok.
  destruct (Z.ltb_spec (128 + k) 128); [lia|]. rewrite land_cont by done.
  rewrite u32_small by (rewrite Z.shiftl_mul_pow2 by lia; lia). by rewrite lor_shift by lia.
Qed.

Lemma decode_encoded pre post u n :
  128 <= u <= 1114111 -> Z.of_nat (length (utf8 u)) <= n < 2 ^ 64 ->
  ngx_utf8_decode (pre ++ utf8 u ++ post) (length pre) n = Ok (u, (length pre + length (utf8 u))%nat).
Proof.
  intros Hu Hn. set (p := length pre). set (a := pre ++ utf8 u ++ post).
  assert (Ha : forall i c, utf8 u !! i = Some c -> a !! (p + i)%nat = Some c).
  { intros i c Hi. unfold a, p. rewrite lookup_app_r by lia. replace (length pre + i - length pre)%nat with i by lia.
    by rewrite lookup_app_l by (by eapply lookup_lt_Some). }
  assert (H64 : u64 (n - 1) = n - 1).
  { apply uwrap_small. revert Hn. unfold utf8. destruct (u <? 2048); [simpl; lia|]. destruct (u <? 65536); simpl; lia. }
  unfold ngx_utf8_decode. rewrite H64. revert Hn Ha. unfold utf8.
  destruct (Z.ltb_spec u 2048) as [H1|H1]; [|destruct (Z.ltb_spec u 65536) as [H2|H2]]; intros Hn Ha; cbn [length] in *.
  - pose proof (Ha 0%nat _ eq_refl) as A0. pose proof (Ha 1%nat _ eq_refl) as A1. rewrite Nat.add_0_r in A0.
    replace (p + 1)%nat with (S p) in A1 by lia. rewrite (rd_lookup _ _ _ A0), obind_Ok.
    assert (2 <= u / 64 < 32) by (Z.to_euclidean_division_equations; lia).
    destruct (Z.leb_spec 240 (192 + u / 64)); [lia|]. destruct (Z.leb_spec 224 (192 + u / 64)); [lia|].
    destruct (Z.leb_spec 194 (192 + u / 64)); [|lia]. cbv zeta. destruct (Z.ltb_spec (n - 1) (Z.of_nat 1)); [lia|].
    change 31 with (2 ^ 5 - 1). rewrite land_lead by (try done; lia).
    rewrite (tail_step a (S p) (u mod 64) (u / 64) 0 A1) by (try apply Z.mod_pos_bound; lia).
    cbn [tail_loop]. rewrite obind_Ok. replace (u / 64 * 64 + u mod 64) with u by (pose proof (Z.div_mod u 64 ltac:(lia)); lia).
    destruct (Z.ltb_spec 127 u); [|lia]. do 2 f_equal. lia.
  - pose proof (Ha 0%nat _ eq_refl) as A0. pose proof (Ha 1%nat _ eq_refl) as A1. pose proof (Ha 2%nat _ eq_refl) as A2.
    rewrite Nat.add_0_r in A0. replace (p + 1)%nat with (S p) in A1 by lia. replace (p + 2)%nat with (S (S p)) in A2 by lia.
    rewrite (rd_lookup _ _ _ A0), obind_Ok.
    assert (0 <= u / 4096 < 16) by (Z.to_euclidean_division_equations; lia).
    destruct (Z.leb_spec 240 (224 + u / 4096)); [lia|]. destruct (Z.leb_spec 224 (224 + u / 4096)); [|lia].
    cbv zeta. destruct (Z.ltb_spec (n - 1) (Z.of_nat 2)); [lia|].
    change 15 with (2 ^ 4 - 1). rewrite land_lead by (try done; lia).
    rewrite (tail_step a (S p) (u / 64 mod 64) (u / 4096) 1 A1) by (try apply Z.mod_pos_bound; lia).
    assert (E1 : u / 4096 * 64 + u / 64 mod 64 = u / 64) by (Z.to_euclidean_division_equations; lia). rewrite E1.
    rewrite (tail_step a (S (S p)) (u mod 64) (u / 64) 0 A2)
      by (try apply Z.mod_pos_bound; Z.to_euclidean_division_equations; lia).
    cbn [tail_loop]. rewrite obind_Ok. replace (u / 64 * 64 + u mod 64) with u by (pose proof (Z.div_mod u 64 ltac:(lia)); lia).
    destruct (Z.ltb_spec 2047 u); [|lia]. do 2 f_equal. lia.
  - pose proof (Ha 0%nat _ eq_refl) as A0. pose proof (Ha 1%nat _ eq_refl) as A1. pose proof (Ha 2%nat _ eq_refl) as A2.
    pose proof (Ha 3%nat _ eq_refl) as A3.
    rewrite Nat.add_0_r in A0. replace (p + 1)%nat with (S p) in A1 by lia. replace (p + 2)%nat with (S (S p)) in A2 by lia.
    replace (p + 3)%nat with (S (S (S p))) in A3 by lia.
    rewrite (rd_lookup _ _ _ A0), obind_Ok.
    assert (0 <= u / 262144 < 8) by (Z.to_euclidean_division_equations; lia).
    destruct (Z.leb_spec 240 (240 + u / 262144)); [|lia].
    cbv zeta. destruct (Z.ltb_spec (n - 1) (Z.of_nat 3)); [lia|].
    change 7 with (2 ^ 3 - 1). rewrite land_lead by (try done; lia).
    rewrite (tail_step a (S p) (u / 4096 mod 64) (u / 262144) 2 A1) by (try apply Z.mod_pos_bound; lia).
    assert (E1 : u / 262144 * 64 + u / 4096 mod 64 = u / 4096) by (Z.to_euclidean_division_equations; lia). rewrite E1.
    rewrite (tail_step a (S (S p)) (u / 64 mod 64) (u / 4096) 1 A2)
      by (try apply Z.mod_pos_bound; Z.to_euclidean_division_equations; lia).
    assert (E2 : u / 4096 * 64 + u / 64 mod 64 = u / 64) by (Z.to_euclidean_division_equations; lia). rewrite E2.
    rewrite (tail_step a (S (S (S p))) (u mod 64) (u / 64) 0 A3)
      by (try apply Z.mod_pos_bound; Z.to_euclidean_division_equations; lia).
    cbn [tail_loop]. rewrite obind_Ok. replace (u / 64 * 64 + u mod 64) with u by (pose proof (Z.div_mod u 64 ltac:(lia)); lia).
    destruct (Z.ltb_spec 65535 u); [|lia]. do 2 f_equal. lia.
Qed.

(** A character, ASCII included, and a text. *)
Definition encode (u : Z) : bytes := if u <? 128 then [u] else utf8 u.
Definition text (us : list Z) : bytes := us ≫= encode.

Lemma utf8_length_pos u : (2 <= length (utf8 u))%nat.
Proof. unfold utf8. zcase; simpl; lia. Qed.
Lemma encode_length_pos u : (1 <= length (encode u))%nat.
Proof. unfold encode. zcase; [simpl; lia|]. pose proof (utf8_length_pos u). lia. Qed.
Lemma text_cons u us : text (u :: us) = encode u ++ text us.
Proof. reflexivity. Qed.

Lemma length_loop_text us : forall pre post fuel n len,
  Forall (fun u => 0 <= u <= 1114111) us -> (length (text us) < fuel)%nat ->
  Z.of_nat (length (text us)) <= n < 2 ^ 64 ->
  length_loop fuel (pre ++ text us ++ post) (length pre) (length pre + length (text us)) n len =
  Ok (len + Z.of_nat (length us)).
Proof.
  induction us as [|u us IH]; intros pre post fuel n len Hus Hf Hn; (destruct fuel as [|fuel]; [lia|]); cbn [length_loop].
  - rewrite Nat.add_0_r, Nat.ltb_irrefl. cbn [length]. f_equal. lia.
  - apply Forall_cons in Hus as [Hu Hus]. revert Hf Hn. rewrite text_cons, length_app. intros Hf Hn.
    pose proof (encode_length_pos u) as Hp.
    destruct (Nat.ltb_spec (length pre) (length pre + (length (encode u) + length (text us)))); [|lia].
    specialize (IH (pre ++ encode u) post fuel n (len + 1) Hus ltac:(lia) ltac:(lia)).
    rewrite length_app, <- !app_assoc in IH. rewrite <- !app_assoc.
    replace (len + Z.of_nat (length (u :: us))) with (len + 1 + Z.of_nat (length us)) by (cbn [length]; lia).
    replace (length pre + (length (encode u) + length (text us)))%nat with (length pre + length (encode u) + length (text us))%nat by lia.
    revert Hn IH Hf Hp. unfold encode. destruct (Z.ltb_spec u 128) as [H7|H7]; intros Hn IH Hf Hp.
    + rewrite (rd_lookup _ _ u) by (rewrite lookup_app_r, Nat.sub_diag by lia; done). rewrite obind_Ok.
      destruct (Z.ltb_spec u 128); [|lia]. rewrite <- IH. f_equal. simpl. lia.
    + assert (Hl : exists b, utf8 u !! 0%nat = Some b /\ 128 <= b).
      { unfold utf8. zcase; eexists; (split; [reflexivity|]); Z.to_euclidean_division_equations; lia. }
      destruct Hl as (b & Hb & Hge).
      rewrite (rd_lookup _ _ b)
        by (rewrite lookup_app_r, Nat.sub_diag by lia; rewrite lookup_app_l by (by eapply lookup_lt_Some); done).
      rewrite obind_Ok. destruct (Z.ltb_spec b 128); [lia|].
      rewrite decode_encoded by lia. rewrite obind_Ok. destruct (Z.ltb_spec 1114111 u); [lia|]. exact IH.
Qed.

(** Runs of ASCII characters. *)
Lemma length_loop_ascii s : forall pre post fuel k n len,
  Forall (fun c => 0 <= c < 128) s ->
  length_loop (length s + fuel) (pre ++ s ++ post) (length pre) (length pre + length s + k) n len =
  length_loop fuel (pre ++ s ++ post) (length pre + length s) (length pre + length s + k) n (len + Z.of_nat (length s)).
Proof.
  induction s as [|c s IH]; intros pre post fuel k n len Hs.
  - cbn [length]. rewrite Nat.add_0_r, Z.add_0_r. done.
  - apply Forall_cons in Hs as [Hc Hs]. cbn [length length_loop Nat.add].
    destruct (Nat.ltb_spec (length pre) (length pre + S (length s) + k)); [|lia].
    rewrite (rd_lookup _ _ c) by (rewrite lookup_app_r, Nat.sub_diag by lia; done). rewrite obind_Ok.
    destruct (Z.ltb_spec c 128); [|lia].
    specialize (IH (pre ++ [c]) post fuel k n (len + 1) Hs). rewrite <- !app_assoc, length_app in IH. cbn [length app] in IH.
    replace (length pre + 1)%nat with (S (length pre)) in IH by lia. cbn [app].
    replace (length pre + S (length s))%nat with (S (length pre) + length s)%nat by lia. rewrite IH. f_equal. lia.
Qed.
End Utf8Facts.

(** ** The properties *)

(** Decoding the base64 text of any bytes gives them back, and the text takes
    four characters for every three bytes begun, the size that the macro
    [ngx_base64_encoded_length] reserves. *)
Theorem base64_roundtrip s : Forall is_byte s ->
  Base64.ngx_decode_base64 (Base64.ngx_encode_base64 s) = Some s /\
  length (Base64.ngx_encode_base64 s) = ((length s + 2) / 3 * 4)%nat.
Proof.
  intros Hs. split; [|apply Base64Facts.encode_length].
  destruct (Base64Facts.encode_decode s Hs) as (t & Ht & Hm & Hd).
  unfold Base64.ngx_decode_base64, Base64.ngx_decode_base64_internal. rewrite Ht.
  destruct (Nat.eqb_spec (length t mod 4) 1) as [|_]; [done|]. by rewrite Hd.
Qed.

Lemma base64_roundtrip_witness :
  Base64.ngx_encode_base64 [0; 255; 16; 77] = bs "AP8QTQ==" /\
  Base64.ngx_decode_base64 (Base64.ngx_encode_base64 [0; 255; 16; 77]) = Some [0; 255; 16; 77].
Proof.
  split; [vm_compute; reflexivity|]. apply base64_roundtrip. repeat constructor; vm_compute; discriminate.
Defined.

(** Percent escaping with every table but that of refresh URIs is undone by
    unescaping; the escaped text has the length that the counting call with
    [dst == NULL] announces and no byte to escape is left in it but the ['%'] of
    the escapes; unescaping any text, with any flags, writes at most as many
    bytes as it reads.  The table of refresh URIs leaves ['%'] alone, against its
    comment: two texts get the same escape. *)
Theorem escape_uri_roundtrip type map s : Uri.maps !! type = Some map -> type <> 4%nat -> Forall is_byte s ->
  Uri.ngx_unescape_uri (Uri.ngx_escape_uri map s) 0 = (s, []) /\
  blen (Uri.ngx_escape_uri map s) = blen s + 2 * Uri.count_escapes map 0 s /\
  (forall c, c ∈ Uri.ngx_escape_uri map s -> Uri.must_escape map c = true -> c = 37) /\
  (forall text flags d r, Uri.ngx_unescape_uri text flags = (d, r) -> (length d + length r <= length text)%nat) /\
  Uri.ngx_escape_uri Uri.refresh (bs " ") = Uri.ngx_escape_uri Uri.refresh (bs "%20").
Proof.
  intros Hm Ht Hs. split; [|split; [|split; [|split; [|vm_compute; reflexivity]]]].
  - apply UriFacts.unescape_escape; [|done]. destruct (UriFacts.maps_facts _ _ Hm) as [_ ->].
    by destruct (Nat.eqb_spec type 4).
  - apply UriFacts.escape_length.
  - intros c. by apply (UriFacts.escaped_plain type).
  - intros text flags d r H%UriFacts.unescape_loop_shrinks. lia.
Qed.

Lemma escape_uri_roundtrip_witness :
  Uri.ngx_escape_uri Uri.uri_component (bs "a b%?") = bs "a%20b%25%3f" /\
  Uri.ngx_unescape_uri (Uri.ngx_escape_uri Uri.uri_component (bs "a b%?")) 0 = (bs "a b%?", []).
Proof.
  split; [vm_compute; reflexivity|].
  apply (escape_uri_roundtrip 2 Uri.uri_component (bs "a b%?")); [reflexivity|done|].
  vm_compute bs. repeat constructor; vm_compute; discriminate.
Defined.

(** On a well formed UTF-8 text, whatever lies around it in memory,
    [ngx_utf8_length] ends and answers the number of its characters, and
    [ngx_utf8_decode] of the encoding of a code point from 128 on answers the code
    point and advances behind it. *)
Theorem utf8_length_counts us pre post :
  Forall (fun u => 0 <= u <= 1114111) us -> blen (Utf8Facts.text us) < 2 ^ 64 ->
  Utf8.ngx_utf8_length (pre ++ Utf8Facts.text us ++ post) (length pre) (length (Utf8Facts.text us)) =
    Ok (Z.of_nat (length us)) /\
  (forall u, 128 <= u <= 1114111 ->
     Utf8.ngx_utf8_decode (pre ++ Utf8Facts.encode u ++ post) (length pre) (blen (Utf8Facts.encode u)) =
     Ok (u, (length pre + length (Utf8Facts.encode u))%nat)).
Proof.
  unfold blen. intros Hus Hn. split.
  - unfold Utf8.ngx_utf8_length. rewrite Utf8Facts.length_loop_text by (done || lia). done.
  - intros u Hu. unfold Utf8Facts.encode. destruct (Z.ltb_spec u 128); [lia|].
    apply Utf8Facts.decode_encoded; [done|]. unfold Utf8Facts.utf8. zcase; simpl; lia.
Qed.

Lemma utf8_length_counts_witness :
  Utf8Facts.text [75; 8364; 128512; 0] = [75; 226; 130; 172; 240; 159; 152; 128; 0] /\
  Utf8.ngx_utf8_length [75; 226; 130; 172; 240; 159; 152; 128; 0] 0 9 = Ok 4.
Proof.
  split; [vm_compute; reflexivity|].
  apply (utf8_length_counts [75; 8364; 128512; 0] [] []); [repeat constructor; lia|vm_compute; reflexivity].
Defined.

(** [ngx_utf8_length] passes the length of the whole string, not of its rest,
    to [ngx_utf8_decode]: an ASCII text with a truncated two-byte sequence behind
    it makes it read past the end of the string. *)
Theorem utf8_length_overreads s b :
  s <> [] -> Forall (fun c => 0 <= c < 128) s -> 194 <= b < 224 -> blen s < 2 ^ 63 ->
  Utf8.ngx_utf8_length (s ++ [b]) 0 (length (s ++ [b])) = Undef OutOfBounds.
Proof.
  unfold blen. intros Hne Hs Hb Hl. unfold Utf8.ngx_utf8_length. rewrite length_app. cbn [length].
  replace (S (length s + 1)) with (length s + 2)%nat by lia.
  pose proof (Utf8Facts.length_loop_ascii s [] [b] 2 1 (Z.of_nat (length s + 1)) 0 Hs) as H. cbn [app length Nat.add] in H.
  cbn [Nat.add]. rewrite H. clear H. cbn [Utf8.length_loop].
  destruct (Nat.ltb_spec (length s) (length s + 1)); [|lia].
  assert (Hr : rd (s ++ [b]) (length s) = Ok b) by (apply rd_lookup; by rewrite lookup_app_r, Nat.sub_diag by lia).
  rewrite Hr, obind_Ok. destruct (Z.ltb_spec b 128); [lia|].
  assert (0 < length s)%nat by (destruct s; [done|simpl; lia]).
  assert (Hu : u64 (Z.of_nat (length s + 1) - 1) = Z.of_nat (length s)) by (unfold u64; rewrite uwrap_small; lia).
  unfold Utf8.ngx_utf8_decode. rewrite Hr, obind_Ok, Hu. cbv zeta.
  destruct (Z.leb_spec 240 b); [lia|]. destruct (Z.leb_spec 224 b); [lia|]. destruct (Z.leb_spec 194 b); [|lia].
  destruct (Z.ltb_spec (Z.of_nat (length s)) (Z.of_nat 1)); [lia|].
  cbn [Utf8.tail_loop]. assert (Ho : rd (s ++ [b]) (S (length s)) = Undef OutOfBounds).
  { unfold rd. rewrite lookup_ge_None_2; [done|]. rewrite length_app. simpl. lia. }
  by rewrite Ho.
Qed.

Lemma utf8_length_overreads_witness : Utf8.ngx_utf8_length [65; 195] 0 2 = Undef OutOfBounds.
Proof. apply (utf8_length_overreads [65] 195); [done|repeat constructor; lia|lia|vm_compute; reflexivity]. Defined.

