(* ===== verification/NgxTime.v ===== *)
(** * Dates: nginx/src/http/ngx_http_parse_time.c, nginx/src/core/ngx_times.c

    Parsing the three date formats of HTTP and printing the first of them.  The
    parser reads the value through [rd], so a read behind it would show.  An
    answer [None] is NGX_ERROR.  Unsigned 64-bit arithmetic is reduced where it
    can wrap; the values of [ngx_gmtime] stay below [2 ^ 57]. *)
From S2P Require Import Prelude.

(** ** Errors *)
Definition ebind {A B} (m : out (option A)) (f : A -> out (option B)) : out (option B) :=
  obind m (fun r => match r with None => Ok None | Some a => f a end).
Notation "'let?' x := m 'in' k" := (ebind m (fun x => k))
  (at level 10, x pattern, m at level 200, k at level 200) : c_scope.

Definition ret {A} (a : A) : out (option A) := Ok (Some a).
Definition err {A} : out (option A) := Ok None.
Definition guard (b : bool) : out (option unit) := if b then ret tt else err.

Module Parse.

Definition mday : list Z := [31; 28; 31; 30; 31; 30; 31; 31; 30; 31; 30; 31].

Inductive fmt : Type := no | rfc822 | rfc850 | isoc.

#[export] Instance fmt_eq_dec : EqDecision fmt.
Proof. solve_decision. Defined.

Section Value.
Variable value : bytes.
Abbreviation fin := (length value).

(** The first loop: to the first [','] or [' ']. *)
Fixpoint weekday_loop (rest : bytes) (p : nat) : fmt * nat :=
  match rest with
  | [] => (no, p)
  | c :: rest' => if c =? 44 then (no, p) else if c =? 32 then (isoc, p) else weekday_loop rest' (S p)
  end.

(** The second loop: over the spaces from [p]. *)
Fixpoint space_loop (rest : bytes) (p : nat) : nat :=
  match rest with
  | [] => p
  | c :: rest' => if negb (c =? 32) then p else space_loop rest' (S p)
  end.

(** [end - p < n] *)
Definition room (p n : nat) : out (option unit) :=
  guard (negb (Z.of_nat fin - Z.of_nat p <? Z.of_nat n)).

Definition digit (p : nat) : out (option Z) :=
  let! c := rd value p in
  if (c <? 48) || (57 <? c) then err else ret (c - 48).

Definition digit2 (p : nat) : out (option Z) :=
  let? a := digit p in
  let? b := digit (S p) in
  ret (a * 10 + b).

Definition digit4 (p : nat) : out (option Z) :=
  let? a := digit p in
  let? b := digit (p + 1) in
  let? c := digit (p + 2) in
  let? d := digit (p + 3) in
  ret (a * 1000 + b * 100 + c * 10 + d).

(** [*p != c], an error. *)
Definition expect (p : nat) (c : Z) : out (option unit) :=
  let! x := rd value p in guard (x =? c).

(** The day in front of the month: [p], the format and the day. *)
Definition day_first (f : fmt) (p : nat) : out (option (nat * fmt * Z)) :=
  if decide (f = isoc) then ret (p, f, 0)
  else
    let? day := digit2 p in
    let p := (p + 2)%nat in
    let! c := rd value p in
    if c =? 32 then let? _ := room p 18 in ret (S p, rfc822, day)
    else if c =? 45 then ret (S p, rfc850, day)
    else err.

Definition month_at (p : nat) : out (option Z) :=
  let! c := rd value p in
  if c =? 74 then
    let! c1 := rd value (p + 1) in
    if c1 =? 97 then ret 0
    else let! c2 := rd value (p + 2) in if c2 =? 110 then ret 5 else ret 6
  else if c =? 70 then ret 1
  else if c =? 77 then let! c2 := rd value (p + 2) in if c2 =? 114 then ret 2 else ret 4
  else if c =? 65 then let! c1 := rd value (p + 1) in if c1 =? 112 then ret 3 else ret 7
  else if c =? 83 then ret 8
  else if c =? 79 then ret 9
  else if c =? 78 then ret 10
  else if c =? 68 then ret 11
  else err.

(** The separator behind the month and the year behind it. *)
Definition year_first (f : fmt) (p : nat) : out (option (nat * Z)) :=
  match f with
  | rfc822 =>
      let? _ := expect p 32 in
      let? y := digit4 (S p) in ret ((S p + 4)%nat, y)
  | rfc850 =>
      let? _ := expect p 45 in
      let? y := digit2 (S p) in ret ((S p + 2)%nat, y + (if y <? 70 then 2000 else 1900))
  | _ => ret (S p, 0)
  end.

(** The day behind the month, in the third format. *)
Definition day_second (f : fmt) (p : nat) (day : Z) : out (option (nat * Z)) :=
  if decide (f = isoc) then
    let! c := rd value p in
    let p := if c =? 32 then S p else p in
    let? day := digit p in
    let p := S p in
    let! c := rd value p in
    let? (p, day) := (if negb (c =? 32) then let? d := digit p in ret (S p, day * 10 + d) else ret (p, day)) in
    let? _ := room p 14 in
    ret (p, day)
  else ret (p, day).

(** [ hh:mm:ss] *)
Definition clock (p : nat) : out (option (nat * Z * Z * Z)) :=
  let? _ := expect p 32 in
  let? hour := digit2 (p + 1) in
  let? _ := expect (p + 3) 58 in
  let? min := digit2 (p + 4) in
  let? _ := expect (p + 6) 58 in
  let? sec := digit2 (p + 7) in
  ret ((p + 7)%nat, hour, min, sec).

Definition year_second (f : fmt) (p : nat) (year : Z) : out (option Z) :=
  if decide (f = isoc) then
    let? _ := expect (p + 2) 32 in digit4 (p + 3)
  else ret year.
End Value.

(** The tests on the fields. *)
Definition valid_date (year month day hour min sec : Z) : bool :=
  if (23 <? hour) || (59 <? min) || (59 <? sec) then false
  else if (day =? 29) && (month =? 1) then
    negb (negb (Z.land year 3 =? 0) || ((year mod 100 =? 0) && negb (year mod 400 =? 0)))
  else negb (default 0 (mday !! Z.to_nat month) <? day).

(** Gauss' formula. *)
Definition gauss (year month day hour min sec : Z) : Z :=
  let m := month - 1 in
  let '(month, year) := if m <=? 0 then (m + 12, u64 (year - 1)) else (m, year) in
  i64 (u64 (u64 (365 * year + year / 4 - year / 100 + year / 400 + 367 * month / 12 - 30
                 + day - 1 - 719527 + 31 + 28) * 86400 + hour * 3600 + min * 60 + sec)).

Definition ngx_http_parse_time (value : bytes) : out (option Z) :=
  let '(f, p) := weekday_loop value 0 in
  let p := space_loop (drop (S p) value) (S p) in
  let? _ := room value p 18 in
  let? (p, f, day) := day_first value f p in
  let? month := month_at value p in
  let? (p, year) := year_first value f (p + 3)%nat in
  let? (p, day) := day_second value f p day in
  let? (p, hour, min, sec) := clock value p in
  let? year := year_second value f p year in
  if valid_date year month day hour min sec then ret (gauss year month day hour min sec) else err.
End Parse.

(** ** Printing *)
Module Gmt.

Record ngx_tm_t := mk_tm {
  tm_sec : Z; tm_min : Z; tm_hour : Z; tm_mday : Z; tm_mon : Z; tm_year : Z; tm_wday : Z
}.

(** The days of the years from March 1, 1 BC. *)
Definition year_days (year : Z) : Z := 365 * year + year / 4 - year / 100 + year / 400.

(** Year and day of the year, both counted from March. *)
Definition year_yday (days : Z) : Z * Z :=
  let year := (days + 2) * 400 / (365 * 400 + 100 - 4 + 1) in
  let yday := days - year_days year in
  if yday <? 0 then
    let leap := if (year mod 4 =? 0) && (negb (year mod 100 =? 0) || (year mod 400 =? 0)) then 1 else 0 in
    (year - 1, 365 + leap + yday)
  else (year, yday).

(** Year, month and day of the month. *)
Definition date_of (year yday : Z) : Z * Z * Z :=
  let mon := (yday + 31) * 10 / 306 in
  let mday := yday - (367 * mon / 12 - 30) + 1 in
  if 306 <=? yday then (year + 1, mon - 10, mday) else (year, mon + 2, mday).

Definition ngx_gmtime (t : Z) : ngx_tm_t :=
  let n := u64 t in
  let days := n / 86400 in
  let wday := (4 + days) mod 7 in
  let n := n mod 86400 in
  let hour := n / 3600 in
  let n := n mod 3600 in
  let '(year, yday) := year_yday (days - (31 + 28) + 719527) in
  let '(year, mon, mday) := date_of year yday in
  mk_tm (n mod 60) (n / 60) hour mday mon year wday.

Definition week : list bytes := [bs "Sun"; bs "Mon"; bs "Tue"; bs "Wed"; bs "Thu"; bs "Fri"; bs "Sat"].
Definition months : list bytes :=
  [bs "Jan"; bs "Feb"; bs "Mar"; bs "Apr"; bs "May"; bs "Jun"; bs "Jul"; bs "Aug"; bs "Sep"; bs "Oct"; bs "Nov"; bs "Dec"].

Definition name_at (l : list bytes) (i : Z) : out bytes :=
  match l !! Z.to_nat i with Some s => Ok s | None => Undef OutOfBounds end.

(** The text of [ngx_sprintf] in [ngx_http_time]; [%4d] pads with spaces. *)
Definition space_pad (w : nat) (s : bytes) : bytes := replicate (w - length s) 32 ++ s.

Definition ngx_http_time (t : Z) : out bytes :=
  let tm := ngx_gmtime t in
  let! w := name_at week (tm_wday tm) in
  let! m := name_at months (tm_mon tm - 1) in
  Ok (w ++ bs ", " ++ fmt_0d 2 (tm_mday tm) ++ bs " " ++ m ++ bs " " ++ space_pad 4 (fmt_d (tm_year tm)) ++
      bs " " ++ fmt_0d 2 (tm_hour tm) ++ bs ":" ++ fmt_0d 2 (tm_min tm) ++ bs ":" ++ fmt_0d 2 (tm_sec tm) ++ bs " GMT").

Definition ngx_http_cookie_time (t : Z) : out bytes :=
  let tm := ngx_gmtime t in
  let! w := name_at week (tm_wday tm) in
  let! m := name_at months (tm_mon tm - 1) in
  let y := if 2037 <? tm_year tm then fmt_d (tm_year tm) else fmt_0d 2 (tm_year tm mod 100) in
  Ok (w ++ bs ", " ++ fmt_0d 2 (tm_mday tm) ++ bs "-" ++ m ++ bs "-" ++ y ++
      bs " " ++ fmt_0d 2 (tm_hour tm) ++ bs ":" ++ fmt_0d 2 (tm_min tm) ++ bs ":" ++ fmt_0d 2 (tm_sec tm) ++ bs " GMT").
End Gmt.

Example parse_rfc822 : Parse.ngx_http_parse_time (bs "Tue, 10 Nov 2002 23:50:13 GMT") = Ok (Some 1036972213).
Proof. vm_compute. reflexivity. Qed.
Example parse_rfc850 : Parse.ngx_http_parse_time (bs "Tuesday, 10-Dec-02 23:50:13 GMT") = Ok (Some 1039564213).
Proof. vm_compute. reflexivity. Qed.
Example parse_isoc : Parse.ngx_http_parse_time (bs "Tue Dec 10 23:50:13 2002") = Ok (Some 1039564213).
Proof. vm_compute. reflexivity. Qed.
Example print_time : Gmt.ngx_http_time 1036972213 = Ok (bs "Sun, 10 Nov 2002 23:50:13 GMT").
Proof. vm_compute. reflexivity. Qed.
