(* ===== verification/NgxTimeProps.v ===== *)
(** * What the date functions promise

    The parser never reads outside its value, and it inverts the printer. *)
From S2P Require Import Prelude.
From S2P Require Import NgxTime.
Import Parse Gmt.

(** ** Memory safety

    [spec m P]: [m] reads nothing out of bounds, and [P] holds of its result
    where it is no error. *)
Definition spec {A} (m : out (option A)) (P : A -> Prop) : Prop :=
  match m with Ok (Some a) => P a | Ok None => True | _ => False end.

Lemma spec_bind {A B} (m : out (option A)) (f : A -> out (option B)) P Q :
  spec m P -> (forall a, P a -> spec (f a) Q) -> spec (ebind m f) Q.
Proof. destruct m as [[a|]| |]; simpl; auto. Qed.

Lemma spec_ret {A} (a : A) (P : A -> Prop) : P a -> spec (ret a) P.
Proof. done. Qed.
Lemma spec_err {A} (P : A -> Prop) : spec err P.
Proof. done. Qed.
Lemma spec_if {A} (b : bool) (m n : out (option A)) P : spec m P -> spec n P -> spec (if b then m else n) P.
Proof. by destruct b. Qed.
Lemma spec_rd {A} v p (f : Z -> out (option A)) P :
  (p < length v)%nat -> (forall c, spec (f c) P) -> spec (obind (rd v p) f) P.
Proof. intros (c & _ & ->)%rd_in_range H. apply H. Qed.

Lemma spec_guard b : spec (guard b) (fun _ => b = true).
Proof. by destruct b. Qed.

Lemma spec_room v p n : spec (room v p n) (fun _ => (p + n <= length v)%nat).
Proof. unfold room. destruct (Z.ltb_spec (Z.of_nat (length v) - Z.of_nat p) (Z.of_nat n)); simpl; [done|lia]. Qed.

Lemma spec_true {A} (m : out (option A)) (P : A -> Prop) : spec m (fun _ => True) -> (forall a, P a) -> spec m P.
Proof. destruct m as [[a|]| |]; simpl; auto. Qed.

Section Safe.
Variable v : bytes.
Abbreviation len := (length v).

(** The branches and the reads of a field. *)
Ltac step0 :=
  lazymatch goal with
  | |- spec (obind (rd _ _) _) _ => apply spec_rd; [lia|intros ?]
  | |- spec (if _ then _ else _) _ => apply spec_if
  | |- spec err _ => apply spec_err
  | |- spec (ret _) _ => apply spec_ret
  end.

Lemma spec_digit p : (p < len)%nat -> spec (digit v p) (fun _ => True).
Proof. intros H. unfold digit. repeat step0; done. Qed.

Ltac step :=
  lazymatch goal with
  | |- spec (ebind (digit _ _) _) _ => eapply spec_bind; [apply spec_digit; lia|intros ? _]
  | _ => step0
  end.
Lemma spec_digit2 p : (p + 2 <= len)%nat -> spec (digit2 v p) (fun _ => True).
Proof. intros H. unfold digit2. repeat step; done. Qed.
Lemma spec_digit4 p : (p + 4 <= len)%nat -> spec (digit4 v p) (fun _ => True).
Proof. intros H. unfold digit4. repeat step; done. Qed.
Lemma spec_expect p c : (p < len)%nat -> spec (expect v p c) (fun _ => True).
Proof. intros H. unfold expect. step. by destruct (_ =? _). Qed.
Lemma spec_month p : (p + 3 <= len)%nat -> spec (month_at v p) (fun _ => True).
Proof. intros H. unfold month_at. repeat step; done. Qed.

(** How many bytes are left behind the field, by format. *)
Definition left_first (f : fmt) : nat := match f with no => 0 | rfc822 => 17 | rfc850 => 15 | isoc => 18 end.
Definition left_clock (f : fmt) : nat := match f with isoc => 14 | _ => 9 end.

Lemma spec_day_first f p : (p + 18 <= len)%nat -> f = no \/ f = isoc ->
  spec (day_first v f p) (fun '(p, f, _) => f <> no /\ (p + left_first f <= len)%nat).
Proof.
  intros Hp Hf. unfold day_first. destruct (decide (f = isoc)) as [->|]; [simpl; split; [done|lia]|].
  eapply spec_bind; [apply spec_digit2; lia|intros day _]. step. step.
  - eapply spec_bind; [apply spec_room|]. simpl. intros _ H. split; [done|lia].
  - step; step. simpl. split; [done|lia].
Qed.

Lemma spec_year_first f p : f <> no -> (p + left_first f <= len + 3)%nat ->
  spec (year_first v f p) (fun '(p, _) => (p + left_clock f <= len)%nat).
Proof.
  intros Hf Hp. unfold year_first. destruct f; [done| | |]; simpl in Hp.
  - eapply spec_bind; [apply spec_expect; lia|intros ? _].
    eapply spec_bind; [apply spec_digit4; lia|intros ? _]. simpl. lia.
  - eapply spec_bind; [apply spec_expect; lia|intros ? _].
    eapply spec_bind; [apply spec_digit2; lia|intros ? _]. simpl. lia.
  - simpl. lia.
Qed.

Lemma spec_day_second f p day : (p + left_clock f <= len)%nat ->
  spec (day_second v f p day) (fun '(p, _) => (p + left_clock f <= len)%nat).
Proof.
  intros Hp. unfold day_second. destruct (decide (f = isoc)) as [->|]; [|done]. simpl in Hp.
  apply spec_rd; [lia|intros c]. cbv zeta.
  set (q := if c =? 32 then S p else p). assert (q <= S p)%nat by (unfold q; destruct (c =? 32); lia).
  step. step.
  eapply (spec_bind _ _ (fun _ => True)).
  { destruct (negb _); [|done]. step. done. }
  intros [p' day'] _. eapply spec_bind; [apply spec_room|]. intros ? Hr. simpl in *. done.
Qed.

Lemma spec_clock f p : (p + left_clock f <= len)%nat ->
  spec (clock v p) (fun '(p, _, _, _) => (p + left_clock f <= len + 7)%nat).
Proof.
  intros Hp. assert (p + 9 <= len)%nat by (destruct f; simpl in Hp; lia).
  unfold clock. eapply spec_bind; [apply spec_expect; lia|intros ? _].
  eapply spec_bind; [apply spec_digit2; lia|intros ? _].
  eapply spec_bind; [apply spec_expect; lia|intros ? _].
  eapply spec_bind; [apply spec_digit2; lia|intros ? _].
  eapply spec_bind; [apply spec_expect; lia|intros ? _].
  eapply spec_bind; [apply spec_digit2; lia|intros ? _]. simpl. lia.
Qed.

Lemma spec_year_second f p year : (p + left_clock f <= len + 7)%nat -> spec (year_second v f p year) (fun _ => True).
Proof.
  intros Hp. unfold year_second. destruct (decide (f = isoc)) as [->|]; [|done]. simpl in Hp.
  eapply spec_bind; [apply spec_expect; lia|intros ? _]. apply spec_digit4. lia.
Qed.

Lemma weekday_fmt rest p : (weekday_loop rest p).1 = no \/ (weekday_loop rest p).1 = isoc.
Proof. revert p. induction rest as [|c rest IH]; intros p; simpl; [auto|]. zcase; auto. Qed.

Lemma parse_spec : spec (ngx_http_parse_time v) (fun _ => True).
Proof.
  unfold ngx_http_parse_time. pose proof (weekday_fmt v 0) as Hf. destruct (weekday_loop v 0) as [f p0]. simpl in Hf.
  set (p := space_loop _ _). clearbody p.
  eapply spec_bind; [apply spec_room|intros ? Hp; cbv beta in Hp].
  eapply spec_bind; [by apply spec_day_first|intros [[p1 f1] d1] [Hf1 Hp1]].
  assert (3 <= left_first f1)%nat by (destruct f1; simpl; [done|lia..]).
  eapply spec_bind; [apply spec_month; lia|intros month _].
  eapply spec_bind; [apply spec_year_first; [done|lia]|intros [p2 y2] Hp2].
  eapply spec_bind; [by apply spec_day_second|intros [p3 d3] Hp3].
  eapply spec_bind; [by apply spec_clock|intros [[[p4 hour] min] sec] Hp4].
  eapply spec_bind; [by apply (spec_year_second f1)|intros year _].
  by destruct (valid_date _ _ _ _ _ _).
Qed.
End Safe.

(** ** The calendar

    Years and days are counted from March 1: a leap day is the last day of a
    year, and the year [Y] of 365 or 366 days starts on the day [year_days Y]. *)
Definition leap (y : Z) : bool := (y mod 4 =? 0) && (negb (y mod 100 =? 0) || (y mod 400 =? 0)).
Definition year_length (Y : Z) : Z := if leap (Y + 1) then 366 else 365.

Fixpoint check_from (check : Z -> bool) (n : nat) (z : Z) : bool :=
  match n with O => true | S n => if check z then check_from check n (Z.succ z) else false end.

Lemma check_from_spec check n : forall z, check_from check n z = true -> forall r, z <= r < z + Z.of_nat n -> check r = true.
Proof.
  induction n as [|n IH]; intros z H r Hr; [lia|]. cbn [check_from] in H. destruct (check z) eqn:E; [|done].
  destruct (Z.eq_dec r z) as [->|]; [done|]. apply (IH _ H). lia.
Qed.

Lemma year_of r n : 0 <= r < year_days (Z.of_nat n) ->
  exists Y, 0 <= Y < Z.of_nat n /\ year_days Y <= r < year_days (Y + 1).
Proof.
  induction n as [|n IH]; intros Hr; [change (year_days (Z.of_nat 0)) with 0 in Hr; lia|].
  rewrite Nat2Z.inj_succ, <- Z.add_1_r in *.
  destruct (Z.lt_ge_cases r (year_days (Z.of_nat n))) as [Hlt|Hge].
  - destruct IH as (Y & ? & ?); [lia|]. exists Y. split; [lia|done].
  - exists (Z.of_nat n). split; lia.
Qed.

(** The estimate of the year, on the first and on the last day of each year of a
    cycle of 400 years: it is right or one too large. *)
Definition estimate (r : Z) : Z := (r + 2) * 400 / 146097.
Definition check_year (Y : Z) : bool :=
  (Y <=? estimate (year_days Y)) && (estimate (year_days (Y + 1) - 1) <=? Y + 1) &&
  (year_days (Y + 1) - year_days Y =? year_length Y).

Lemma cycle_checked : check_from check_year 400 0 = true.
Proof. vm_compute. reflexivity. Qed.

Lemma estimate_mono r r' : r <= r' -> estimate r <= estimate r'.
Proof. intros H. unfold estimate. apply Z.div_le_mono; lia. Qed.

Lemma cycle_spec r Y yd : 0 <= r < 146097 -> year_yday r = (Y, yd) ->
  0 <= Y /\ 0 <= yd < year_length Y /\ year_days Y + yd = r.
Proof.
  intros Hr. destruct (year_of r 400) as (Y' & HY & Hd); [by change (year_days (Z.of_nat 400)) with 146097|].
  pose proof (check_from_spec _ _ _ cycle_checked Y' ltac:(lia)) as C. unfold check_year in C.
  apply andb_prop in C as [[C1%Z.leb_le C2%Z.leb_le]%andb_prop C3%Z.eqb_eq].
  pose proof (estimate_mono (year_days Y') r ltac:(lia)). pose proof (estimate_mono r (year_days (Y' + 1) - 1) ltac:(lia)).
  unfold year_yday. change (365 * 400 + 100 - 4 + 1) with 146097. fold (estimate r). cbv zeta.
  destruct (Z.ltb_spec (r - year_days (estimate r)) 0) as [Hneg|Hpos].
  - assert (E : estimate r = Y' + 1) by (destruct (Z.eq_dec (estimate r) Y') as [E|]; [rewrite E in Hneg; lia|lia]).
    rewrite E. intros [= <- <-]. replace (Y' + 1 - 1) with Y' by lia. fold (leap (Y' + 1)).
    unfold year_length in *. destruct (leap (Y' + 1)); lia.
  - assert (E : estimate r = Y') by (destruct (Z.eq_dec (estimate r) (Y' + 1)) as [E|]; [rewrite E in Hpos; lia|lia]).
    rewrite E. intros [= <- <-]. lia.
Qed.

Lemma year_days_cycle q y : year_days (y + 400 * q) = year_days y + 146097 * q.
Proof.
  unfold year_days. replace ((y + 400 * q) / 4) with (y / 4 + 100 * q) by (Z.to_euclidean_division_equations; lia).
  replace ((y + 400 * q) / 100) with (y / 100 + 4 * q) by (Z.to_euclidean_division_equations; lia).
  replace ((y + 400 * q) / 400) with (y / 400 + q) by (Z.to_euclidean_division_equations; lia). lia.
Qed.

Lemma mod_cycle y q k : k = 4 \/ k = 100 \/ k = 400 -> (y + 400 * q) mod k = y mod k.
Proof.
  intros [-> | [-> | ->]]; [replace (400 * q) with (100 * q * 4) by lia|replace (400 * q) with (4 * q * 100) by lia|
    replace (400 * q) with (q * 400) by lia]; apply Z_mod_plus_full.
Qed.

Lemma year_yday_cycle q r : year_yday (r + 146097 * q) = let '(Y, yd) := year_yday r in (Y + 400 * q, yd).
Proof.
  unfold year_yday. change (365 * 400 + 100 - 4 + 1) with 146097.
  replace ((r + 146097 * q + 2) * 400 / 146097) with ((r + 2) * 400 / 146097 + 400 * q)
    by (replace ((r + 146097 * q + 2) * 400) with ((r + 2) * 400 + 400 * q * 146097) by lia; by rewrite Z_div_plus_full by lia).
  set (Y := (r + 2) * 400 / 146097). cbv zeta. rewrite year_days_cycle, !mod_cycle by auto.
  replace (r + 146097 * q - (year_days Y + 146097 * q)) with (r - year_days Y) by lia.
  destruct (_ <? 0); f_equal; lia.
Qed.

Lemma year_yday_spec D Y yd : 0 <= D -> year_yday D = (Y, yd) ->
  0 <= Y /\ 0 <= yd < year_length Y /\ year_days Y + yd = D.
Proof.
  intros HD. pose proof (Z.div_mod D 146097 ltac:(lia)) as E. pose proof (Z.mod_pos_bound D 146097 ltac:(lia)) as Hr.
  assert (0 <= D / 146097) by (apply Z.div_pos; lia).
  replace D with (D mod 146097 + 146097 * (D / 146097)) at 1 by lia. rewrite year_yday_cycle.
  pose proof (fun Y yd => cycle_spec _ Y yd Hr) as C. destruct (year_yday (D mod 146097)) as [Y' yd'].
  specialize (C _ _ eq_refl).
  intros [= <- <-]. rewrite year_days_cycle. unfold year_length, leap in *.
  replace (Y' + 400 * (D / 146097) + 1) with (Y' + 1 + 400 * (D / 146097)) by lia. rewrite !mod_cycle by auto.
  destruct C as (C1 & C2 & C3). split; [lia|]. split; [exact C2|lia].
Qed.

(** A day of the year in its month. *)
Definition month_days (mon0 : Z) : Z := default 0 (mday !! Z.to_nat mon0).

Definition check_day (yd : Z) : bool :=
  let '(y, mon, md) := date_of 0 yd in
  (1 <=? mon) && (mon <=? 12) && (1 <=? md) && (md <=? 31) &&
  (if yd =? 365 then (md =? 29) && (mon =? 2) && (y =? 1) else md <=? month_days (mon - 1)) &&
  ((0 <=? y) && (y <=? 1)) && Bool.eqb (y =? 1) (306 <=? yd) &&
  (let '(m, y') := if mon - 2 <=? 0 then (mon - 2 + 12, y - 1) else (mon - 2, y) in
   (y' =? 0) && (367 * m / 12 - 30 + md - 1 =? yd)).

Lemma days_checked : check_from check_day 366 0 = true.
Proof. vm_compute. reflexivity. Qed.

Lemma date_of_shift Y yd : date_of Y yd = let '(y, mon, md) := date_of 0 yd in (Y + y, mon, md).
Proof. unfold date_of. destruct (306 <=? yd); repeat f_equal; lia. Qed.

Lemma date_of_spec Y yd y mon md : 0 <= yd < 366 -> date_of Y yd = (y, mon, md) ->
  1 <= mon <= 12 /\ 1 <= md <= 31 /\
  (if yd =? 365 then md = 29 /\ mon = 2 /\ y = Y + 1 else md <= month_days (mon - 1)) /\
  y = Y + (if 306 <=? yd then 1 else 0) /\
  (exists m, (if mon - 2 <=? 0 then (mon - 2 + 12, y - 1) else (mon - 2, y)) = (m, Y) /\
             367 * m / 12 - 30 + md - 1 = yd).
Proof.
  intros Hyd. rewrite date_of_shift. pose proof (check_from_spec _ _ _ days_checked yd ltac:(lia)) as H.
  unfold check_day in H. destruct (date_of 0 yd) as [[y0 mon0] md0]. intros [= <- <- <-].
  apply andb_prop in H as [[[[[[[H1%Z.leb_le H2%Z.leb_le]%andb_prop H3%Z.leb_le]%andb_prop H4%Z.leb_le]%andb_prop
    H5]%andb_prop _]%andb_prop H6%Bool.eqb_prop]%andb_prop H7].
  rewrite <- H6. split; [done|]. split; [done|].
  assert (Hy : exists m, (if mon0 - 2 <=? 0 then (mon0 - 2 + 12, Y + y0 - 1) else (mon0 - 2, Y + y0)) = (m, Y) /\
             367 * m / 12 - 30 + md0 - 1 = yd).
  { destruct (mon0 - 2 <=? 0); apply andb_prop in H7 as [H7%Z.eqb_eq H8%Z.eqb_eq]; eexists;
      (split; [f_equal; lia|done]). }
  split; [|split; [|done]].
  - destruct (yd =? 365); [|by apply Z.leb_le].
    apply andb_prop in H5 as [[H5%Z.eqb_eq H8%Z.eqb_eq]%andb_prop H9%Z.eqb_eq]. lia.
  - destruct (Z.eqb_spec y0 1); [lia|]. destruct Hy as (m & Hy & _).
    destruct (mon0 - 2 <=? 0); injection Hy; lia.
Qed.

(** ** Reading what was printed *)
Definition d2 (z : Z) : bytes := [48 + z / 10; 48 + z mod 10].
Definition d4 (z : Z) : bytes := [48 + z / 1000; 48 + z / 100 mod 10; 48 + z / 10 mod 10; 48 + z mod 10].

Lemma two_digits z : 0 <= z < 100 -> fmt_0d 2 z = d2 z.
Proof.
  intros Hz. unfold fmt_0d, d2. destruct (Z.ltb_spec z 0); [lia|]. destruct (Z.lt_ge_cases z 10).
  - rewrite digits_small, Z.div_small, Z.mod_small by lia. done.
  - assert (0 <= z / 10 < 10) by (Z.to_euclidean_division_equations; lia). by rewrite digits_snoc, digits_small by lia.
Qed.

Lemma four_digits z : 1000 <= z < 10000 -> space_pad 4 (fmt_d z) = d4 z.
Proof.
  intros Hz. unfold fmt_d. destruct (Z.ltb_spec z 0); [lia|].
  assert (1 <= z / 1000 < 10) by (Z.to_euclidean_division_equations; lia).
  assert (10 <= z / 100) by (Z.to_euclidean_division_equations; lia).
  assert (10 <= z / 10) by (Z.to_euclidean_division_equations; lia).
  assert (E1 : z / 10 / 10 = z / 100) by (Z.to_euclidean_division_equations; lia).
  assert (E2 : z / 100 / 10 = z / 1000) by (Z.to_euclidean_division_equations; lia).
  by rewrite digits_snoc, digits_snoc, E1, digits_snoc, E2, digits_small by lia.
Qed.

(** A digit at a place where one was printed. *)
Lemma digit_at v p z : v !! p = Some (48 + z) -> 0 <= z < 10 -> digit v p = ret z.
Proof.
  intros Hv Hz. unfold digit. rewrite (rd_lookup _ _ _ Hv), obind_Ok.
  destruct (Z.ltb_spec (48 + z) 48); [lia|]. destruct (Z.ltb_spec 57 (48 + z)); [lia|]. simpl. f_equal. lia.
Qed.

Lemma digit2_at v p z : v !! p = Some (48 + z / 10) -> v !! S p = Some (48 + z mod 10) -> 0 <= z < 100 -> digit2 v p = ret z.
Proof.
  intros H1 H2 Hz. unfold digit2.
  rewrite (digit_at _ _ _ H1), (digit_at _ _ _ H2) by (Z.to_euclidean_division_equations; lia).
  simpl. unfold ret. do 2 f_equal. Z.to_euclidean_division_equations; lia.
Qed.

Lemma digit4_at v p z : v !! p = Some (48 + z / 1000) -> v !! (p + 1)%nat = Some (48 + z / 100 mod 10) ->
  v !! (p + 2)%nat = Some (48 + z / 10 mod 10) -> v !! (p + 3)%nat = Some (48 + z mod 10) ->
  1000 <= z < 10000 -> digit4 v p = ret z.
Proof.
  intros H1 H2 H3 H4 Hz. unfold digit4.
  rewrite (digit_at _ _ _ H1), (digit_at _ _ _ H2), (digit_at _ _ _ H3), (digit_at _ _ _ H4)
    by (Z.to_euclidean_division_equations; lia).
  simpl. unfold ret. do 2 f_equal. Z.to_euclidean_division_equations; lia.
Qed.

(** The text of a date. *)
Definition date_text (w m : bytes) (day year hour min sec : Z) : bytes :=
  w ++ bs ", " ++ d2 day ++ bs " " ++ m ++ bs " " ++ d4 year ++ bs " " ++ d2 hour ++ bs ":" ++ d2 min ++ bs ":" ++
  d2 sec ++ bs " GMT".

Lemma month_in_text i w m day year hour min sec :
  length w = 3%nat -> months !! i = Some m -> month_at (date_text w m day year hour min sec) 8 = ret (Z.of_nat i).
Proof.
  intros Hw Hm. destruct w as [|w1 [|w2 [|w3 [|]]]]; try discriminate Hw.
  do 12 (destruct i as [|i]; [injection Hm as <-; reflexivity|]). done.
Qed.

Lemma parse_date_text i w m day year hour min sec :
  w ∈ week -> months !! i = Some m -> 0 <= day < 100 -> 1000 <= year < 10000 ->
  0 <= hour < 100 -> 0 <= min < 100 -> 0 <= sec < 100 ->
  ngx_http_parse_time (date_text w m day year hour min sec) =
  if valid_date year (Z.of_nat i) day hour min sec then ret (gauss year (Z.of_nat i) day hour min sec) else err.
Proof.
  intros Hw Hm Hd Hy Hh Hmi Hs. set (v := date_text w m day year hour min sec).
  assert (Hw3 : length w = 3%nat) by (repeat (apply elem_of_cons in Hw as [->|Hw]; [done|]); by apply not_elem_of_nil in Hw).
  assert (Hm3 : length m = 3%nat) by (do 12 (destruct i as [|i]; [injection Hm as <-; done|]); done).
  assert (Hlen : length v = 29%nat) by (unfold v, date_text; rewrite !length_app, Hw3, Hm3; done).
  pose proof (month_in_text i w m day year hour min sec Hw3 Hm) as Hmonth. fold v in Hmonth.
  assert (Hstart : weekday_loop v 0 = (no, 3%nat)).
  { repeat (apply elem_of_cons in Hw as [->|Hw]; [reflexivity|]). by apply not_elem_of_nil in Hw. }
  assert (Hspace : space_loop (drop 4 v) 4 = 5%nat).
  { assert (48 + day / 10 =? 32 = false) by (Z.to_euclidean_division_equations; lia).
    repeat (apply elem_of_cons in Hw as [->|Hw]; [simpl; by replace (48 + day / 10 =? 32) with false|]).
    by apply not_elem_of_nil in Hw. }
  destruct w as [|w1 [|w2 [|w3 [|]]]]; try discriminate Hw3.
  destruct m as [|m1 [|m2 [|m3 [|]]]]; try discriminate Hm3.
  unfold ngx_http_parse_time. rewrite Hstart. cbv beta iota zeta. rewrite Hspace.
  assert (Hroom : forall p n, (p + n <= 29)%nat -> room v p n = ret tt).
  { intros p n Hpn. unfold room. rewrite Hlen. destruct (Z.ltb_spec (Z.of_nat 29 - Z.of_nat p) (Z.of_nat n)); [lia|done]. }
  rewrite Hroom by lia. cbn [ebind obind ret].
  unfold day_first. cbn [decide]. case_decide as E; [done|clear E].
  rewrite (digit2_at v 5 day) by done. cbn [ebind obind ret].
  rewrite (rd_lookup v _ 32) by done. cbn [obind]. change (32 =? 32) with true. cbn iota.
  rewrite Hroom by lia. cbn [ebind obind ret]. change (S (5 + 2)) with 8%nat. rewrite Hmonth. cbn [ebind obind ret].
  unfold year_first, expect. rewrite (rd_lookup v _ 32) by done. cbn [obind]. change (guard (32 =? 32)) with (ret tt). cbn [ebind obind ret].
  rewrite (digit4_at v _ year) by done. cbn [ebind obind ret].
  unfold day_second. case_decide as E; [done|clear E]. cbn [ebind obind ret]. unfold clock, expect.
  rewrite (rd_lookup v _ 32) by done. cbn [obind]. change (guard (32 =? 32)) with (ret tt). cbn [ebind obind ret].
  rewrite (digit2_at v _ hour) by done. cbn [ebind obind ret].
  rewrite (rd_lookup v _ 58) by done. cbn [obind]. change (guard (58 =? 58)) with (ret tt). cbn [ebind obind ret].
  rewrite (digit2_at v _ min) by done. cbn [ebind obind ret].
  rewrite (rd_lookup v _ 58) by done. cbn [obind]. change (guard (58 =? 58)) with (ret tt). cbn [ebind obind ret].
  rewrite (digit2_at v _ sec) by done. cbn [ebind obind ret].
  unfold year_second. case_decide as E; [done|clear E]. done.
Qed.

(** ** The properties *)

(** The broken-down time of [t]: a date of the calendar. *)
Definition tm_ok (tm : ngx_tm_t) : Prop :=
  0 <= tm_sec tm < 60 /\ 0 <= tm_min tm < 60 /\ 0 <= tm_hour tm < 24 /\ 1 <= tm_mon tm <= 12 /\ 0 <= tm_wday tm < 7 /\
  1 <= tm_mday tm <= (if (tm_mon tm =? 2) && leap (tm_year tm) then 29 else month_days (tm_mon tm - 1)).

Lemma gmtime_facts t : 0 <= t < 253402300800 ->
  tm_ok (ngx_gmtime t) /\ 1900 <= tm_year (ngx_gmtime t) < 10000 /\
  gauss (tm_year (ngx_gmtime t)) (tm_mon (ngx_gmtime t) - 1) (tm_mday (ngx_gmtime t)) (tm_hour (ngx_gmtime t))
    (tm_min (ngx_gmtime t)) (tm_sec (ngx_gmtime t)) = t.
Proof.
  intros Ht. unfold ngx_gmtime. replace (u64 t) with t by (symmetry; apply uwrap_small; lia).
  set (D := t / 86400 - (31 + 28) + 719527). assert (HD : 719468 <= D < 3652365) by (unfold D; Z.to_euclidean_division_equations; lia).
  destruct (year_yday D) as [Y yd] eqn:EY. destruct (year_yday_spec D Y yd ltac:(lia) EY) as (HY & Hyd & Hday).
  assert (Hyd' : 0 <= yd < 366) by (unfold year_length in Hyd; destruct (leap _); lia).
  destruct (date_of Y yd) as [[y mon] md] eqn:Ed. destruct (date_of_spec _ _ _ _ _ Hyd' Ed) as (Hm & Hmd & Hlen & Hy & m & Em & Hmd').
  cbn [tm_sec tm_min tm_hour tm_mday tm_mon tm_year tm_wday].
  assert (Hyear : 1900 <= y < 10000).
  { unfold year_days in Hday. destruct (Z.leb_spec 306 yd); Z.to_euclidean_division_equations; lia. }
  split; [|split; [done|]].
  - unfold tm_ok. cbn [tm_sec tm_min tm_hour tm_mday tm_mon tm_year tm_wday].
    split; [Z.to_euclidean_division_equations; lia|]. split; [Z.to_euclidean_division_equations; lia|].
    split; [Z.to_euclidean_division_equations; lia|]. split; [done|]. split; [apply Z.mod_pos_bound; lia|].
    split; [lia|]. destruct (Z.eqb_spec yd 365) as [->|].
    + destruct Hlen as (-> & -> & ->). unfold year_length in Hyd. destruct (leap (Y + 1)); [done|lia].
    + destruct (Z.eqb_spec mon 2) as [->|]; [|done]. unfold month_days in *. simpl in *. destruct (leap y); simpl; lia.
  - unfold gauss. replace (mon - 1 - 1) with (mon - 2) by lia.
    assert (u64 (y - 1) = y - 1) as -> by (apply uwrap_small; lia). rewrite Em.
    pose proof Hday as Hday'. unfold year_days in Hday'.
    replace (365 * Y + Y / 4 - Y / 100 + Y / 400 + 367 * m / 12 - 30 + md - 1 - 719527 + 31 + 28) with (t / 86400) by (unfold D in Hday'; lia).
    assert (0 <= t / 86400) by (apply Z.div_pos; lia).
    assert (E : t / 86400 * 86400 + t mod 86400 / 3600 * 3600 + t mod 86400 mod 3600 / 60 * 60 + t mod 86400 mod 3600 mod 60 = t)
      by (Z.to_euclidean_division_equations; lia).
    assert (u64 (t / 86400) = t / 86400) as -> by (apply uwrap_small; Z.to_euclidean_division_equations; lia).
    rewrite E. assert (u64 t = t) as -> by (apply uwrap_small; lia). apply i64_small. unfold INT64_MAX. lia.
Qed.

Lemma tm_ok_valid tm : tm_ok tm -> 0 <= tm_year tm ->
  valid_date (tm_year tm) (tm_mon tm - 1) (tm_mday tm) (tm_hour tm) (tm_min tm) (tm_sec tm) = true.
Proof.
  intros (Hs & Hmi & Hh & Hm & _ & Hd) Hy. unfold valid_date.
  destruct (Z.ltb_spec 23 (tm_hour tm)); [lia|]. destruct (Z.ltb_spec 59 (tm_min tm)); [lia|].
  destruct (Z.ltb_spec 59 (tm_sec tm)); [lia|]. cbn [orb]. fold (month_days (tm_mon tm - 1)).
  destruct (Z.eqb_spec (tm_mday tm) 29) as [E29|]; destruct (Z.eqb_spec (tm_mon tm - 1) 1) as [E2|]; cbn [andb].
  - rewrite E29 in Hd. replace (tm_mon tm) with 2 in Hd by lia. change (month_days (2 - 1)) with 28 in Hd. change (2 =? 2) with true in Hd.
    cbn [andb] in Hd. destruct (leap (tm_year tm)) eqn:El; [|lia]. unfold leap in El.
    change 3 with (Z.ones 2). rewrite Z.land_ones by lia. change (2 ^ 2) with 4.
    destruct (_ mod 4 =? 0), (_ mod 100 =? 0), (_ mod 400 =? 0); done.
  - destruct (Z.eqb_spec (tm_mon tm) 2); [lia|]. simpl in Hd. apply negb_true_iff, Z.ltb_ge. lia.
  - apply negb_true_iff, Z.ltb_ge. destruct ((tm_mon tm =? 2) && leap (tm_year tm)); [|lia].
    replace (tm_mon tm - 1) with 1 by lia. change (month_days 1) with 28. lia.
  - destruct (Z.eqb_spec (tm_mon tm) 2); [lia|]. simpl in Hd. apply negb_true_iff, Z.ltb_ge. lia.
Qed.

(** The date parser ends on every value without reading outside it, whatever
    its bytes are. *)
Theorem parse_time_in_bounds v : exists r, ngx_http_parse_time v = Ok r.
Proof. pose proof (parse_spec v) as H. destruct (ngx_http_parse_time v) as [[|]| |]; [eauto|eauto|done|done]. Qed.

(** C24: From 1970 to the year 9999, [ngx_gmtime] answers a date of the Gregorian
    calendar, leap years included; the text of [ngx_http_time] has 29 bytes, the
    size of its callers' buffers, and parsing it gives the time back. *)
Theorem http_time_roundtrip t : 0 <= t < 253402300800 ->
  exists v, ngx_http_time t = Ok v /\ length v = 29%nat /\ ngx_http_parse_time v = Ok (Some t) /\ tm_ok (ngx_gmtime t).
Proof.
  intros Ht. destruct (gmtime_facts t Ht) as (Hok & Hy & Hg). pose proof (tm_ok_valid _ Hok ltac:(lia)) as Hv.
  pose proof Hok as (Hs & Hmi & Hh & Hm & Hw & Hd).
  assert (Hd' : 0 <= tm_mday (ngx_gmtime t) < 100).
  { assert (Hmax : month_days (tm_mon (ngx_gmtime t) - 1) <= 31) by (unfold month_days; destruct (mday !! _) as [z|] eqn:E; [|simpl; lia];
      apply list_elem_of_lookup_2 in E; repeat (apply elem_of_cons in E as [->|E]; [simpl; lia|]); by apply not_elem_of_nil in E).
    destruct (_ && _); lia. }
  unfold ngx_http_time. set (tm := ngx_gmtime t) in *. unfold name_at.
  destruct (lookup_lt_is_Some_2 week (Z.to_nat (tm_wday tm))) as [w Ew]; [change (length week) with 7%nat; lia|].
  destruct (lookup_lt_is_Some_2 months (Z.to_nat (tm_mon tm - 1))) as [m Em]; [change (length months) with 12%nat; lia|].
  rewrite Ew, Em. cbn [obind]. rewrite !two_digits, four_digits by lia.
  change (exists v, Ok (date_text w m (tm_mday tm) (tm_year tm) (tm_hour tm) (tm_min tm) (tm_sec tm)) = Ok v /\
    length v = 29%nat /\ ngx_http_parse_time v = Ok (Some t) /\ tm_ok tm).
  exists (date_text w m (tm_mday tm) (tm_year tm) (tm_hour tm) (tm_min tm) (tm_sec tm)). split; [done|]. split; [|split; [|done]].
  - unfold date_text. apply list_elem_of_lookup_2 in Ew, Em. rewrite !length_app.
    assert (length w = 3%nat) as -> by (repeat (apply elem_of_cons in Ew as [->|Ew]; [done|]); by apply not_elem_of_nil in Ew).
    assert (length m = 3%nat) as -> by (repeat (apply elem_of_cons in Em as [->|Em]; [done|]); by apply not_elem_of_nil in Em).
    done.
  - rewrite (parse_date_text (Z.to_nat (tm_mon tm - 1))) by (try eassumption; try (by eapply list_elem_of_lookup_2); lia).
    rewrite Z2Nat.id by lia. by rewrite Hv, Hg.
Qed.

Lemma http_time_roundtrip_witness :
  exists v, ngx_http_time 951827696 = Ok v /\ length v = 29%nat /\ ngx_http_parse_time v = Ok (Some 951827696) /\
    tm_ok (ngx_gmtime 951827696).
Proof. apply (http_time_roundtrip 951827696). lia. Defined.
