(* ===== verification/NgxStrUtil.v ===== *)
(** * More string routines: nginx/src/core/ngx_string.c

    Copies, comparisons, searches in terminated strings, the printing of a number
    in [ngx_vslprintf], and the stable sort.  A pointer is an index into a list of
    bytes that holds all that may be read, the terminating NUL included. *)
From S2P Require Import Prelude.
From S2P Require Import NgxString.
From S2P Require Import NgxPalloc.
From S2P Require Import NgxCodec.
Import Search.

(** ** Copies *)

(** [ngx_tolower(c)] *)
Definition ngx_tolower (c : Z) : Z := if (65 <=? c) && (c <=? 90) then Z.lor c 32 else c.

(** [ngx_strlow(dst, a + i, n)]: the bytes written. *)
Fixpoint ngx_strlow (a : bytes) (i n : nat) : out bytes :=
  match n with
  | O => Ok []
  | S n' =>
      let! c := rd a i in
      let! r := ngx_strlow a (S i) n' in
      Ok (ngx_tolower c :: r)
  end.

(** [ngx_cpystrn(dst, a + i, n)]: the bytes written. *)
Fixpoint cpystrn (a : bytes) (i n : nat) : out bytes :=
  match n with
  | O => Ok [0]
  | S n' =>
      let! c := rd a i in
      if c =? 0 then Ok [0]
      else let! r := cpystrn a (S i) n' in Ok (c :: r)
  end.

Definition ngx_cpystrn (a : bytes) (i n : nat) : out bytes :=
  match n with O => Ok [] | S n' => cpystrn a i n' end.

(** [ngx_pstrdup(pool, src)]: the address and the contents of the copy. *)
Definition ngx_pstrdup {Osm : OSMem} (pl : pool) (src : bytes) (o : os) : out (option (Z * bytes) * pool * os) :=
  let! (dst, pl, o) := ngx_pnalloc pl (blen src) o in
  match dst with
  | None => Ok (None, pl, o)
  | Some dst => Ok (Some (dst, src), pl, o)
  end.

(** ** Printing a number *)
Definition NGX_INT64_LEN : nat := 20.
Definition HEX : bytes := bs "0123456789ABCDEF".

(** The [do ... while] loops from the end of [temp]; [room] bytes of it are left
    in front of [p]. *)
Fixpoint num_loop (base : Z) (digit : Z -> Z) (room : nat) (v : Z) (p : bytes) : out bytes :=
  match room with
  | O => Undef OutOfBounds
  | S room' =>
      let p := digit (v mod base) :: p in
      let v := v / base in
      if v =? 0 then Ok p else num_loop base digit room' v p
  end.

(** [ui64 & 0xf] and [ui64 >>= 4]. *)
Fixpoint hex_num_loop (table : bytes) (room : nat) (v : Z) (p : bytes) : out bytes :=
  match room with
  | O => Undef OutOfBounds
  | S room' =>
      let p := tbl table (Z.land v 15) :: p in
      let v := Z.shiftr v 4 in
      if v =? 0 then Ok p else hex_num_loop table room' v p
  end.

(** The bytes written to [buf], [left = last - buf]. *)
Definition ngx_sprintf_num (left : nat) (ui64 zero hexadecimal : Z) (width : nat) : out bytes :=
  let! p :=
    (if hexadecimal =? 0 then num_loop 10 (fun d => d + 48) NGX_INT64_LEN ui64 []
     else if hexadecimal =? 1 then hex_num_loop hex NGX_INT64_LEN ui64 []
     else hex_num_loop HEX NGX_INT64_LEN ui64 []) in
  let pad := Nat.min (width - length p) left in
  Ok (replicate pad zero ++ take (left - pad) p).

(** ** Comparisons *)

(** [return c1 - c2] of two [ngx_uint_t]. *)
Definition uint_diff (c1 c2 : Z) : Z := i64 (u64 (c1 - c2)).

(** [ngx_strcasecmp(a + i, b + j)] *)
Fixpoint strcasecmp (fuel : nat) (a : bytes) (i : nat) (b : bytes) (j : nat) : out Z :=
  match fuel with
  | O => NoFuel
  | S f =>
      let! c1 := rd a i in
      let! c2 := rd b j in
      let c1 := lower c1 in
      let c2 := lower c2 in
      if c1 =? c2 then
        if c1 =? 0 then Ok 0 else strcasecmp f a (S i) b (S j)
      else Ok (uint_diff c1 c2)
  end.

Definition ngx_strcasecmp (a : bytes) (i : nat) (b : bytes) (j : nat) : out Z :=
  strcasecmp (S (length a)) a i b j.

(** ['.'] must be the lowest character. *)
Definition dns_char (c : Z) : Z := if c =? 46 then 32 else c.

Fixpoint dns_strcmp (fuel : nat) (a : bytes) (i : nat) (b : bytes) (j : nat) : out Z :=
  match fuel with
  | O => NoFuel
  | S f =>
      let! c1 := rd a i in
      let! c2 := rd b j in
      let c1 := lower c1 in
      let c2 := lower c2 in
      if c1 =? c2 then
        if c1 =? 0 then Ok 0 else dns_strcmp f a (S i) b (S j)
      else Ok (uint_diff (dns_char c1) (dns_char c2))
  end.

Definition ngx_dns_strcmp (a : bytes) (i : nat) (b : bytes) (j : nat) : out Z :=
  dns_strcmp (S (length a)) a i b j.

(** From the last byte to the first; [upper] is the case folding, if any. *)
Fixpoint rcmp_loop (fold : Z -> Z) (a b : bytes) (n : nat) : out Z :=
  let! c1 := rd a n in
  let! c2 := rd b n in
  let c1 := fold c1 in
  let c2 := fold c2 in
  if negb (c1 =? c2) then Ok (c1 - c2)
  else match n with O => Ok 0 | S n' => rcmp_loop fold a b n' end.

Definition upper (c : Z) : Z := if (97 <=? c) && (c <=? 122) then c - 32 else c.

Definition ngx_rstrncmp (a b : bytes) (n : nat) : out Z :=
  match n with O => Ok 0 | S n' => rcmp_loop (fun c => c) a b n' end.
Definition ngx_rstrncasecmp (a b : bytes) (n : nat) : out Z :=
  match n with O => Ok 0 | S n' => rcmp_loop upper a b n' end.

(** [memcmp] and [strncmp] of libc: the sign is that of the first difference. *)
Fixpoint memcmp (a : bytes) (i : nat) (b : bytes) (j : nat) (n : nat) : out Z :=
  match n with
  | O => Ok 0
  | S n' =>
      let! c1 := rd a i in
      let! c2 := rd b j in
      if c1 =? c2 then memcmp a (S i) b (S j) n' else Ok (c1 - c2)
  end.

Fixpoint strncmp (a : bytes) (i : nat) (b : bytes) (j : nat) (n : nat) : out Z :=
  match n with
  | O => Ok 0
  | S n' =>
      let! c1 := rd a i in
      let! c2 := rd b j in
      if c1 =? c2 then if c1 =? 0 then Ok 0 else strncmp a (S i) b (S j) n' else Ok (c1 - c2)
  end.

Definition ngx_memn2cmp (s1 s2 : bytes) (n1 n2 : nat) : out Z :=
  let '(n, z) := if (n1 <=? n2)%nat then (n1, -1) else (n2, 1) in
  let! m := memcmp s1 0 s2 0 n in
  if negb (m =? 0) || (n1 =? n2)%nat then Ok m else Ok z.

(** ** Searches

    Each round of the nested loops reads one byte of [a] and the outer test
    sends the scan on from the next one.  [s2] starts at the first byte of [b]. *)
Fixpoint strnstr_loop (len : nat) (a : bytes) (s1 : nat) (b : bytes) (n : nat) (c2 : Z) : out (option nat) :=
  match len with
  | O => Ok None
  | S len' =>
      let! c1 := rd a s1 in
      if c1 =? 0 then Ok None
      else if negb (c1 =? c2) then strnstr_loop len' a (S s1) b n c2
      else if (len' <? n)%nat then Ok None
      else
        let! r := strncmp a (S s1) b 1 n in
        if negb (r =? 0) then strnstr_loop len' a (S s1) b n c2 else Ok (Some s1)
  end.

(** [strlen] *)
Fixpoint strlen (b : bytes) : out nat :=
  match b with
  | [] => Undef OutOfBounds
  | c :: b' => if c =? 0 then Ok O else let! n := strlen b' in Ok (S n)
  end.

(** [ngx_strnstr(a + s1, b, len)] *)
Definition ngx_strnstr (a : bytes) (s1 : nat) (b : bytes) (len : nat) : out (option nat) :=
  let! c2 := rd b 0 in
  let! n := strlen (drop 1 b) in
  strnstr_loop len a s1 b n c2.

Fixpoint strstrn_loop (fuel : nat) (a : bytes) (s1 : nat) (b : bytes) (n : nat) (c2 : Z) : out (option nat) :=
  match fuel with
  | O => NoFuel
  | S f =>
      let! c1 := rd a s1 in
      if c1 =? 0 then Ok None
      else if negb (c1 =? c2) then strstrn_loop f a (S s1) b n c2
      else
        let! r := strncmp a (S s1) b 1 n in
        if negb (r =? 0) then strstrn_loop f a (S s1) b n c2 else Ok (Some s1)
  end.

Definition ngx_strstrn (a : bytes) (s1 : nat) (b : bytes) (n : nat) : out (option nat) :=
  let! c2 := rd b 0 in strstrn_loop (S (length a)) a s1 b n c2.

Fixpoint strcasestrn_loop (fuel : nat) (a : bytes) (s1 : nat) (b : bytes) (n : nat) (c2 : Z) : out (option nat) :=
  match fuel with
  | O => NoFuel
  | S f =>
      let! c1 := rd a s1 in
      if c1 =? 0 then Ok None
      else if negb (lower c1 =? c2) then strcasestrn_loop f a (S s1) b n c2
      else
        let! r := ngx_strncasecmp a (S s1) b 1 n in
        if negb (r =? 0) then strcasestrn_loop f a (S s1) b n c2 else Ok (Some s1)
  end.

Definition ngx_strcasestrn (a : bytes) (s1 : nat) (b : bytes) (n : nat) : out (option nat) :=
  let! c2 := rd b 0 in
  (* [s2] is a [char *]: the byte is sign-extended *)
  let c2 := u64 (if 128 <=? c2 then c2 - 256 else c2) in
  strcasestrn_loop (S (length a)) a s1 b n (lower c2).

(** ** The stable sort

    The array is a list of elements; [cmp] is the caller's comparison. *)
Section Sort.
Context {A : Type} (cmp : A -> A -> Z).

(** The inner loop, from [p2] down: the final [p2] and the array. *)
Fixpoint shift_loop (p2 : nat) (base : list A) (p : A) : nat * list A :=
  match p2 with
  | O => (O, base)
  | S q =>
      match base !! q with
      | Some x => if 0 <? cmp x p then shift_loop q (<[p2 := x]> base) p else (p2, base)
      | None => (p2, base)
      end
  end.

(** The outer loop; [rounds] elements are left from [p1] on. *)
Fixpoint sort_loop (rounds p1 : nat) (base : list A) : list A :=
  match rounds with
  | O => base
  | S r =>
      match base !! p1 with
      | None => base
      | Some p =>
          let '(p2, base) := shift_loop p1 base p in
          sort_loop r (S p1) (<[p2 := p]> base)
      end
  end.

(** [avail]: [ngx_alloc] has the memory of one element. *)
Definition ngx_sort (avail : bool) (base : list A) : list A :=
  if negb avail then base else sort_loop (length base - 1) 1 base.
End Sort.

Example sort_ex : ngx_sort Z.sub true [3; 1; 2; 1] = [1; 1; 2; 3].
Proof. reflexivity. Qed.
Example strnstr_ex : ngx_strnstr (bs "one two" ++ [0]) 0 (bs "tw" ++ [0]) 7 = Ok (Some 4%nat).
Proof. vm_compute. reflexivity. Qed.
Example num_ex : ngx_sprintf_num 6 255 48 1 4 = Ok (bs "00ff") /\ ngx_sprintf_num 3 12345 32 0 0 = Ok (bs "123").
Proof. vm_compute. done. Qed.
Example dns_ex : ngx_dns_strcmp (bs "a.b" ++ [0]) 0 (bs "a-b" ++ [0]) 0 = Ok (-13).
Proof. vm_compute. reflexivity. Qed.
