(* ===== verification/NgxStrUtilProps.v ===== *)
(** * What the string helpers promise

    The sort is a stable sort; numbers are printed as their digits. *)
From S2P Require Import Prelude.
From S2P Require Import NgxString.
From S2P Require Import NgxCodec.
From S2P Require Import NgxStrUtil.
From Stdlib Require Import Sorting.Sorted Sorting.Permutation.

(** ** The sort *)
Section Sort.
Context {A : Type} (cmp : A -> A -> Z).

(** The inner loop opens a gap in front of the elements above [p]. *)
Lemma shift_loop_spec (p : A) : forall pre y post,
  exists l1 l2, pre = l1 ++ l2 /\
    shift_loop cmp (length pre) (pre ++ y :: post) p = (length l1, l1 ++ default y (head l2) :: l2 ++ post) /\
    Forall (fun x => 0 < cmp x p) l2 /\ (forall l x, l1 = l ++ [x] -> cmp x p <= 0).
Proof.
  intros pre. induction pre as [|x pre IH] using rev_ind; intros y post.
  - exists [], []. simpl. repeat split; [done|]. intros [|] ? ?; done.
  - rewrite length_app, Nat.add_comm. cbn [length Nat.add shift_loop].
    rewrite <- app_assoc. cbn [app]. rewrite list_lookup_middle by done. destruct (Z.ltb_spec 0 (cmp x p)) as [Hgt|Hle].
    + rewrite insert_app_r_alt by lia. replace (S (length pre) - length pre)%nat with 1%nat by lia. cbn [insert list_insert].
      destruct (IH x (x :: post)) as (l1 & l2 & -> & E & Hall & Hlast).
      exists l1, (l2 ++ [x]). split; [by rewrite app_assoc|]. split; [|split; [|done]].
      * change (<[1%nat:=x]> (x :: y :: post)) with (x :: x :: post). rewrite E. f_equal. destruct l2; simpl; [done|].
        by rewrite <- app_assoc.
      * apply Forall_app. split; [done|]. by constructor.
    + exists (pre ++ [x]), []. rewrite app_nil_r. split; [done|]. split; [|split; [done|]].
      * rewrite length_app, Nat.add_comm, <- app_assoc. done.
      * intros l x' [_ [= ->]]%app_inj_2; done.
Qed.

(** One round of the outer loop. *)
Lemma sort_round (p : A) pre post : exists l1 l2, pre = l1 ++ l2 /\
  (forall r, sort_loop cmp (S r) (length pre) (pre ++ p :: post) =
             sort_loop cmp r (S (length pre)) ((l1 ++ p :: l2) ++ post)) /\
  Forall (fun x => 0 < cmp x p) l2 /\ (forall l x, l1 = l ++ [x] -> cmp x p <= 0).
Proof.
  destruct (shift_loop_spec p pre p post) as (l1 & l2 & Epre & E & Hall & Hlast). exists l1, l2.
  split; [done|]. split; [|done]. intros r. cbn [sort_loop]. rewrite list_lookup_middle by done. rewrite E.
  rewrite insert_app_r_alt by lia. rewrite Nat.sub_diag. cbn [insert list_insert]. by rewrite <- app_assoc.
Qed.

(** Any property of a sorted prefix that a round keeps holds of the result. *)
Lemma sort_loop_ind (I : list A -> list A -> Prop) :
  (forall l1 l2 p rest, I (l1 ++ l2) (p :: rest) -> Forall (fun x => 0 < cmp x p) l2 ->
     (forall l x, l1 = l ++ [x] -> cmp x p <= 0) -> I (l1 ++ p :: l2) rest) ->
  forall post pre, I pre post -> I (sort_loop cmp (length post) (length pre) (pre ++ post)) [].
Proof.
  intros Hstep post. induction post as [|p post IH]; intros pre HI; [by rewrite app_nil_r|].
  destruct (sort_round p pre post) as (l1 & l2 & -> & E & Hall & Hlast). cbn [length]. rewrite E.
  specialize (IH (l1 ++ p :: l2)). replace (S (length (l1 ++ l2))) with (length (l1 ++ p :: l2)) by (rewrite !length_app; simpl; lia).
  apply IH. by apply Hstep.
Qed.

Lemma sort_ind (I : list A -> list A -> Prop) x l :
  (forall l1 l2 p rest, I (l1 ++ l2) (p :: rest) -> Forall (fun x => 0 < cmp x p) l2 ->
     (forall l x, l1 = l ++ [x] -> cmp x p <= 0) -> I (l1 ++ p :: l2) rest) ->
  I [x] l -> I (ngx_sort cmp true (x :: l)) [].
Proof.
  intros Hstep HI. unfold ngx_sort. cbn [negb length]. rewrite Nat.sub_succ, Nat.sub_0_r.
  by apply (sort_loop_ind I Hstep l [x]).
Qed.

(** The comparison is a total preorder. *)
Record cmp_laws : Prop := {
  cmp_total x y : 0 < cmp x y -> cmp y x <= 0;
  cmp_trans x y z : cmp x y <= 0 -> cmp y z <= 0 -> cmp x z <= 0;
}.

(** Equal elements, for [cmp]. *)
Definition same (z y : A) : Prop := cmp y z <= 0 /\ cmp z y <= 0.

#[export] Instance same_dec z y : Decision (same z y).
Proof. unfold same. apply _. Defined.

Notation le := (fun x y => cmp x y <= 0).

Lemma sorted_insert l1 l2 p : cmp_laws ->
  StronglySorted le (l1 ++ l2) -> Forall (fun x => 0 < cmp x p) l2 ->
  (forall l x, l1 = l ++ [x] -> cmp x p <= 0) -> StronglySorted le (l1 ++ p :: l2).
Proof.
  intros Hc Hs H2 Hlast. induction l1 as [|y l1 IH]; cbn [app] in *.
  - constructor; [done|]. eapply Forall_impl; [exact H2|]. intros x Hx. by apply (cmp_total Hc).
  - apply StronglySorted_inv in Hs as [Hs Hy].
    assert (Hyp : cmp y p <= 0).
    { destruct l1 as [|x l1 _] using rev_ind; [by apply (Hlast [])|].
      apply (cmp_trans Hc _ x); [|by apply (Hlast (y :: l1))].
      rewrite Forall_forall in Hy. apply Hy. set_solver. }
    constructor.
    + apply IH; [done|]. intros l x ->. by apply (Hlast (y :: l)).
    + apply Forall_app in Hy as [Hy1 Hy2]. apply Forall_app. split; [done|]. by constructor.
Qed.

Lemma stable_insert z l1 l2 p rest : cmp_laws -> Forall (fun x => 0 < cmp x p) l2 ->
  filter (same z) ((l1 ++ p :: l2) ++ rest) = filter (same z) ((l1 ++ l2) ++ p :: rest).
Proof.
  intros Hc H2. rewrite !list.filter_app, <- !app_assoc. f_equal. rewrite !list.filter_cons.
  case_decide as E; [|done].
  assert (H : filter (same z) l2 = []); [|by rewrite H].
  induction H2 as [|x l2 Hx H2 IH]; [done|]. rewrite list.filter_cons. case_decide as Ex; [|done].
  exfalso. destruct E as [_ E], Ex as [Ex _]. pose proof (cmp_trans Hc _ _ _ Ex E). lia.
Qed.

Lemma sort_correct base : cmp_laws ->
  StronglySorted le (ngx_sort cmp true base) /\ Permutation (ngx_sort cmp true base) base /\
  (forall z, filter (same z) (ngx_sort cmp true base) = filter (same z) base).
Proof.
  intros Hc. destruct base as [|x l]; [split; [constructor|done]|].
  pose proof (sort_ind (fun pre rest => StronglySorted le pre /\ Permutation (pre ++ rest) (x :: l) /\
    forall z, filter (same z) (pre ++ rest) = filter (same z) (x :: l)) x l) as H. cbv beta in H.
  rewrite !app_nil_r in H. apply H; [|split; [repeat constructor|done]]. clear H.
  intros l1 l2 p rest (Hs & Hp & Hf) H2 Hlast. split; [by apply sorted_insert|]. split.
  - rewrite <- Hp, <- !app_assoc. apply Permutation_app_head. cbn [app]. apply Permutation_middle.
  - intros z. by rewrite stable_insert.
Qed.
End Sort.

(** ** Printed numbers *)

(** Enough room in [temp]: one place for every digit. *)
Lemma num_loop_digits room : forall v p, 0 <= v < 10 ^ Z.of_nat room -> (0 < room)%nat ->
  num_loop 10 (fun d => d + 48) room v p = Ok (digits v ++ p).
Proof.
  induction room as [|room IH]; intros v p Hv Hr; [lia|]. cbn [num_loop].
  destruct (Z.lt_ge_cases v 10).
  - rewrite Z.div_small, Z.mod_small by lia. cbn [Z.eqb]. rewrite digits_small by lia. rewrite Z.add_comm. done.
  - rewrite Nat2Z.inj_succ, Z.pow_succ_r in Hv by lia. assert (0 < v / 10) by (apply Z.div_str_pos; lia).
    destruct (Z.eqb_spec (v / 10) 0); [lia|].
    rewrite IH; [|split; [lia|apply Z.div_lt_upper_bound; lia]|destruct room; [simpl in Hv; lia|lia]].
    rewrite (digits_snoc v), <- app_assoc by lia. do 2 f_equal. cbn [app]. by rewrite Z.add_comm.
Qed.

Lemma hex_loop_snoc ds c : forall acc a, Number.hex_loop acc ds = Some a ->
  Number.hex_loop acc (ds ++ [c]) = Number.hex_loop a [c].
Proof.
  induction ds as [|d ds IH]; intros acc a; cbn [Number.hex_loop app]; [by intros [= ->]|].
  destruct (_ && _); [by apply IH|]. cbv zeta. destruct (_ && _); [by apply IH|done].
Qed.

(** A digit of either table is read back. *)
Lemma hex_digit_back table d a : table = hex \/ table = HEX -> 0 <= d < 16 -> 0 <= a -> a * 16 + d <= INT64_MAX ->
  Number.hex_loop a [tbl table d] = Some (a * 16 + d).
Proof.
  intros Ht Hd Ha Hle.
  assert (H : forall c, c = 48 + d /\ d < 10 \/ Z.lor c 32 = 87 + d /\ 10 <= d /\ 57 < c -> Number.hex_loop a [c] = Some (a * 16 + d)).
  { intros c Hc. cbn [Number.hex_loop]. destruct (Z.leb_spec 48 c), (Z.leb_spec c 57); cbn [andb]; try lia.
    - rewrite i64_small by (unfold INT64_MAX in *; lia). f_equal. lia.
    - cbv zeta. destruct Hc as [|[-> ?]]; [lia|]. destruct (Z.leb_spec 97 (87 + d)), (Z.leb_spec (87 + d) 102); try lia. cbn [andb].
      rewrite i64_small by (unfold INT64_MAX in *; lia). f_equal. lia. }
  apply H. clear -Ht Hd.
  assert (Hk : forall table, table = hex \/ table = HEX ->
    forallb (fun d => if d <? 10 then tbl table d =? 48 + d else (Z.lor (tbl table d) 32 =? 87 + d) && (57 <? tbl table d))
      (Z.of_nat <$> seq 0 16) = true) by (intros ? [-> | ->]; vm_compute; reflexivity).
  specialize (Hk table Ht). rewrite List.forallb_forall in Hk. specialize (Hk d).
  assert (Hi : List.In d (Z.of_nat <$> seq 0 16)).
  { apply list_elem_of_In, list_elem_of_fmap. exists (Z.to_nat d). split; [lia|]. apply elem_of_seq. lia. }
  specialize (Hk Hi). cbv beta in Hk. destruct (Z.ltb_spec d 10); [left; lia|].
  apply andb_prop in Hk as [?%Z.eqb_eq ?%Z.ltb_lt]. right. lia.
Qed.

Lemma hex_num_loop_back table room : table = hex \/ table = HEX ->
  forall v p, 0 <= v < 16 ^ Z.of_nat room -> (0 < room)%nat ->
  exists ds, hex_num_loop table room v p = Ok (ds ++ p) /\ ds <> [] /\
    (v <= INT64_MAX -> Number.hex_loop 0 ds = Some v).
Proof.
  intros Ht. induction room as [|room IH]; intros v p Hv Hr; [lia|]. cbn [hex_num_loop].
  change 15 with (Z.ones 4). rewrite Z.land_ones, Z.shiftr_div_pow2 by lia. change (2 ^ 4) with 16.
  pose proof (Z.mod_pos_bound v 16 ltac:(lia)) as Hm. pose proof (Z.div_mod v 16 ltac:(lia)) as Hdm.
  assert (0 <= v / 16) by (apply Z.div_pos; lia).
  destruct (Z.eqb_spec (v / 16) 0) as [E|E].
  - exists [tbl table (v mod 16)]. split; [done|]. split; [done|]. intros Hle.
    rewrite hex_digit_back by (done || lia). f_equal. lia.
  - rewrite Nat2Z.inj_succ, Z.pow_succ_r in Hv by lia.
    destruct (IH (v / 16) (tbl table (v mod 16) :: p)) as (ds & -> & Hne & Hback).
    { split; [done|]. apply Z.div_lt_upper_bound; lia. }
    { destruct room; [|lia]. simpl in Hv. rewrite Z.div_small in E by lia. done. }
    exists (ds ++ [tbl table (v mod 16)]). rewrite <- app_assoc. split; [done|]. split; [by destruct ds|].
    intros Hle. rewrite (hex_loop_snoc ds _ 0 (v / 16)) by (apply Hback; lia).
    rewrite hex_digit_back by (done || lia). f_equal. lia.
Qed.

Lemma padded left width zero (p : bytes) :
  replicate (Nat.min (width - length p) left) zero ++ take (left - Nat.min (width - length p) left) p =
  take left (replicate (width - length p) zero ++ p).
Proof.
  rewrite take_app, take_replicate, length_replicate, (Nat.min_comm left). f_equal. f_equal. lia.
Qed.

(** ** The properties *)

(** [ngx_sort] of a comparison that is a total preorder answers a sorted
    permutation of the array in which the elements that compare as equal keep
    their order, as its comment promises; without memory for one element it
    leaves the array as it is. *)
Theorem ngx_sort_stable {A} (cmp : A -> A -> Z) base : cmp_laws cmp ->
  StronglySorted (fun x y => cmp x y <= 0) (ngx_sort cmp true base) /\
  Permutation (ngx_sort cmp true base) base /\
  (forall z, filter (same cmp z) (ngx_sort cmp true base) = filter (same cmp z) base) /\
  ngx_sort cmp false base = base.
Proof. intros H. destruct (sort_correct cmp base H) as (H1 & H2 & H3). done. Qed.

(** Pairs sorted by their first components. *)
Lemma ngx_sort_stable_witness :
  let cmp := fun x y : Z * Z => x.1 - y.1 in
  let base := [(2, 1); (1, 2); (2, 3); (1, 4)] in
  cmp_laws cmp /\ ngx_sort cmp true base = [(1, 2); (1, 4); (2, 1); (2, 3)] /\
  Permutation (ngx_sort cmp true base) base.
Proof.
  assert (H : cmp_laws (fun x y : Z * Z => x.1 - y.1)) by (constructor; intros; lia).
  split; [exact H|]. split; [reflexivity|]. apply (ngx_sort_stable _ _ H).
Defined.

(** For every 64-bit number, [ngx_sprintf_num] stays inside its temporary
    array and writes the padded digits, cut at the room that is left; the decimal
    digits parse back with [ngx_atoi], the hexadecimal ones, of either case, with
    [ngx_hextoi]. *)
Theorem sprintf_num_exact left v zero hexadecimal width : 0 <= v < 2 ^ 64 ->
  exists ds, ngx_sprintf_num left v zero hexadecimal width = Ok (take left (replicate (width - length ds) zero ++ ds)) /\
    (hexadecimal = 0 -> ds = digits v) /\
    (v <= INT64_MAX -> if hexadecimal =? 0 then Number.ngx_atoi ds = v else Number.ngx_hextoi ds = v).
Proof.
  intros Hv. unfold ngx_sprintf_num.
  destruct (Z.eqb_spec hexadecimal 0) as [->|Hne].
  - rewrite num_loop_digits by (unfold NGX_INT64_LEN; lia). rewrite app_nil_r, obind_Ok. cbv zeta. exists (digits v).
    split; [by rewrite padded|]. split; [done|]. intros Hle. destruct (digits_spec v ltac:(lia)) as [Hd Hf].
    rewrite Number.ngx_atoi_exact; [done|apply digits_nonempty|done|lia].
  - assert (H : exists ds, (if hexadecimal =? 1 then hex_num_loop hex NGX_INT64_LEN v [] else hex_num_loop HEX NGX_INT64_LEN v []) =
        Ok ds /\ ds <> [] /\ (v <= INT64_MAX -> Number.hex_loop 0 ds = Some v)).
    { destruct (hexadecimal =? 1);
        (edestruct hex_num_loop_back as (ds & -> & Hds); [by eauto| | |rewrite app_nil_r; eauto]); unfold NGX_INT64_LEN; simpl; lia. }
    destruct H as (ds & -> & Hn & Hback). rewrite obind_Ok. cbv zeta. exists ds. split; [by rewrite padded|]. split; [done|].
    intros Hle. unfold Number.ngx_hextoi. destruct ds as [|d ds]; [done|]. cbn [length Nat.eqb]. rewrite Hback by done.
    apply Number.finish_nonneg. lia.
Qed.

Lemma sprintf_num_exact_witness :
  exists ds, ngx_sprintf_num 8 48879 48 1 6 = Ok (take 8 (replicate (6 - length ds) 48 ++ ds)) /\
    Number.ngx_hextoi ds = 48879.
Proof.
  destruct (sprintf_num_exact 8 48879 48 1 6 ltac:(lia)) as (ds & E & _ & Hb). exists ds. split; [exact E|].
  apply Hb. vm_compute. discriminate.
Defined.
