(* ===== verification/NgxHttpParse.v ===== *)
(** * HTTP parsing: the request, the character classes, the loop of the parsers

    What the parsers of nginx/src/http/ngx_http_parse.c share: the fields of
    [ngx_http_request_t] they fill in, the bitmap [usual], and the loop
    [for (p = b->pos; p < b->last; p++) switch (state)] with its exits.  A
    pointer into the buffer is its offset, [None] the NULL pointer; the buffer
    holds the bytes from [b->start] to [b->last]. *)
From S2P Require Import Prelude.
From S2P Require Export NgxString.

(** ** The request *)
Record request := mk_request {
  method : Z; http_version : Z;
  complex_uri : bool; quoted_uri : bool; plus_in_uri : bool; space_in_uri : bool; invalid_header : bool;
  upstream : bool;
  state : Z; header_hash : Z; lowcase_index : Z; lowcase_header : bytes;
  header_name_start : option Z; header_name_end : option Z; header_start : option Z; header_end : option Z;
  uri_start : option Z; uri_end : option Z; uri_ext : option Z; args_start : option Z;
  request_start : option Z; request_end : option Z; method_end : option Z;
  schema_start : option Z; schema_end : option Z; host_start : option Z; host_end : option Z;
  port_end : option Z; http_protocol : option Z;
  http_minor : Z; http_major : Z }.

#[export] Instance request_settable : Settable request := fun r =>
  mk_request (method r) (http_version r)
    (complex_uri r) (quoted_uri r) (plus_in_uri r) (space_in_uri r) (invalid_header r)
    (upstream r)
    (state r) (header_hash r) (lowcase_index r) (lowcase_header r)
    (header_name_start r) (header_name_end r) (header_start r) (header_end r)
    (uri_start r) (uri_end r) (uri_ext r) (args_start r)
    (request_start r) (request_end r) (method_end r)
    (schema_start r) (schema_end r) (host_start r) (host_end r)
    (port_end r) (http_protocol r)
    (http_minor r) (http_major r).

Definition NGX_HTTP_LC_HEADER_LEN : Z := 32.
Definition NGX_HTTP_UNKNOWN : Z := 1.
Definition NGX_HTTP_GET : Z := 2.
Definition NGX_HTTP_HEAD : Z := 4.
Definition NGX_HTTP_POST : Z := 8.
Definition NGX_HTTP_PUT : Z := 16.
Definition NGX_HTTP_DELETE : Z := 32.
Definition NGX_HTTP_MKCOL : Z := 64.
Definition NGX_HTTP_COPY : Z := 128.
Definition NGX_HTTP_MOVE : Z := 256.
Definition NGX_HTTP_OPTIONS : Z := 512.
Definition NGX_HTTP_PROPFIND : Z := 1024.
Definition NGX_HTTP_PROPPATCH : Z := 2048.
Definition NGX_HTTP_LOCK : Z := 4096.
Definition NGX_HTTP_UNLOCK : Z := 8192.
Definition NGX_HTTP_PATCH : Z := 16384.
Definition NGX_HTTP_TRACE : Z := 32768.

Definition NGX_HTTP_PARSE_HEADER_DONE : Z := 1.
Definition NGX_HTTP_PARSE_INVALID_METHOD : Z := 10.
Definition NGX_HTTP_PARSE_INVALID_REQUEST : Z := 11.
Definition NGX_HTTP_PARSE_INVALID_09_METHOD : Z := 12.
Definition NGX_HTTP_PARSE_INVALID_HEADER : Z := 13.

(** The request as [ngx_http_create_request] leaves it: zeroed, the method
    unknown, HTTP/1.0. *)
Definition new_request : request :=
  mk_request NGX_HTTP_UNKNOWN 1000 false false false false false false
    0 0 0 (replicate 32 0) None None None None None None None None None None None None None None None None None 0 0.

(** ** Characters *)

Definition usual : list Z :=
  [0xffffdbfe; 0x7fff37d6; 0xffffffff; 0xffffffff; 0xffffffff; 0xffffffff; 0xffffffff; 0xffffffff].

(** [usual[ch >> 5] & (1 << (ch & 0x1f))] *)
Definition is_usual (ch : Z) : bool :=
  negb (Z.land (nth (Z.to_nat (Z.shiftr ch 5)) usual 0) (Z.shiftl 1 (Z.land ch 0x1f)) =? 0).

(** [c = (u_char) (ch | 0x20); c >= 'a' && c <= 'z'] *)
Definition is_alpha (ch : Z) : bool := let c := Z.lor ch 0x20 in (chr "a" <=? c) && (c <=? chr "z").

(** [ch >= '0' && ch <= '9'] *)
Definition is_num (ch : Z) : bool := (chr "0" <=? ch) && (ch <=? chr "9").

(** ** The loop of a parser *)

(** [*p] *)
Definition peek (buf : bytes) (p : Z) : out Z :=
  if p <? 0 then Undef OutOfBounds else rd buf (Z.to_nat p).

(** How the body of the loop ends for one character: it breaks out of the
    switch, or it leaves the loop by a [goto] or a [return]. *)
Inductive exit := done | header_done | data | args | invalid | Return (rc : Z).
Inductive verdict (R : Type) := Next (r : R) | Leave (l : exit) (r : R).
Arguments Next {R} r.
Arguments Leave {R} l r.

(** The loop from [p] on; [rest] are the bytes from [p] to [b->last].  [None]
    stands for leaving the loop at [b->last]. *)
Fixpoint scan {R} (step : Z -> Z -> R -> out (verdict R)) (rest : bytes) (p : Z) (r : R)
  : out (Z * option exit * R) :=
  match rest with
  | [] => Ok (p, None, r)
  | ch :: rest' =>
      let! v := step p ch r in
      match v with
      | Next r => scan step rest' (p + 1) r
      | Leave l r => Ok (p, Some l, r)
      end
  end.

(** ** States

    The integer [r->state] keeps the state of a parser between two calls; an
    enumeration of states lists them in the order of their numbers. *)
Class Switch (S : Type) : Type := { sw_all : list S; sw_no : S -> Z;
  sw_no_ok : forall s, sw_all !! Z.to_nat (sw_no s) = Some s }.

(** The local variable [state] set to a stored number.  No parser stores a
    number without a state; an enumeration variable with such a value is left
    undefined. *)
Definition load {S} `{Switch S} (n : Z) : out S :=
  match sw_all !! Z.to_nat n with Some s => Ok s | None => Undef BadConversion end.

Lemma load_no {S} `{Switch S} (s : S) : load (sw_no s) = Ok s.
Proof. unfold load. by rewrite sw_no_ok. Qed.

(** ** Facts shared by the parsers *)

Lemma peek_app buf more p c : peek buf p = Ok c -> peek (buf ++ more) p = Ok c.
Proof.
  unfold peek, rd. destruct (p <? 0); [done|].
  destruct (buf !! Z.to_nat p) eqn:E; [|done]. by rewrite (lookup_app_l_Some _ _ _ _ E).
Qed.

Lemma peek_in buf p : 0 <= p < blen buf -> exists c, buf !! Z.to_nat p = Some c /\ peek buf p = Ok c.
Proof.
  unfold blen. intros H. unfold peek. destruct (Z.ltb_spec p 0); [lia|]. apply rd_in_range. lia.
Qed.

Lemma Ok3_inj {A B C} (a a' : A) (b b' : B) (c c' : C) : Ok (a, b, c) = Ok (a', b', c') -> a = a' /\ b = b' /\ c = c'.
Proof. by intros [= -> -> ->]. Qed.

Lemma scan_next {R} (f : Z -> Z -> R -> out (verdict R)) ch l p r r1 :
  f p ch r = Ok (Next r1) -> scan f (ch :: l) p r = scan f l (p + 1) r1.
Proof. intros E. cbn [scan]. by rewrite E. Qed.

(** Scanning two pieces one after the other. *)
Lemma scan_app {R} (step : Z -> Z -> R -> out (verdict R)) a b p r :
  scan step (a ++ b) p r =
  let! x := scan step a p r in
  let '(q, l, r') := x in
  match l with None => scan step b q r' | Some _ => Ok (q, l, r') end.
Proof.
  revert p r. induction a as [|ch a IH]; intros p r; [done|]. cbn [app scan].
  destruct (step p ch r) as [[r'|l r']| |]; cbn [obind]; auto.
Qed.

Lemma scan_end {R} (step : Z -> Z -> R -> out (verdict R)) a p r q r' :
  scan step a p r = Ok (q, None, r') -> q = p + blen a.
Proof.
  revert p r. induction a as [|ch a IH]; intros p r; cbn [scan].
  - intros [= <- _]. unfold blen. simpl. lia.
  - destruct (step p ch r) as [[r0|l r0]| |]; cbn [obind]; try discriminate.
    intros H%IH. unfold blen in *. simpl. lia.
Qed.

(** A loop whose body succeeds on more of the buffer succeeds the same way. *)
Lemma scan_mono {R} (step step' : Z -> Z -> R -> out (verdict R)) a p r x :
  (forall p ch r v, step p ch r = Ok v -> step' p ch r = Ok v) ->
  scan step a p r = Ok x -> scan step' a p r = Ok x.
Proof.
  intros Hs. revert p r. induction a as [|ch a IH]; intros p r; [done|]. cbn [scan].
  destruct (step p ch r) as [v| |] eqn:E; try discriminate. rewrite (Hs _ _ _ _ E). cbn [obind].
  destruct v; auto.
Qed.

(** An invariant of the loop: what each character preserves holds at the end,
    and the loop is defined. *)
Lemma scan_inv {R} (step : Z -> Z -> R -> out (verdict R)) (I : Z -> R -> Prop) (Q : Z -> exit -> R -> Prop) a p r :
  (forall i ch r, a !! i = Some ch -> I (p + Z.of_nat i) r ->
     exists v, step (p + Z.of_nat i) ch r = Ok v /\
       match v with Next r' => I (p + Z.of_nat i + 1) r' | Leave l r' => Q (p + Z.of_nat i) l r' end) ->
  I p r ->
  exists q l r', scan step a p r = Ok (q, l, r') /\ p <= q <= p + blen a /\
    match l with None => q = p + blen a /\ I q r' | Some l => q < p + blen a /\ Q q l r' end.
Proof.
  unfold blen. revert p r. induction a as [|ch a IH]; intros p r Hstep HI; cbn [scan].
  - exists p, None, r. simpl. rewrite Z.add_0_r. split; [done|]. split; [lia|]. done.
  - destruct (Hstep 0%nat ch r eq_refl) as (v & Hv & HQ). { by rewrite Z.add_0_r. }
    simpl in Hv, HQ. rewrite Z.add_0_r in Hv, HQ. rewrite Hv. cbn [obind].
    destruct v as [r'|l r'].
    + destruct (IH (p + 1) r') as (q & l & r'' & -> & Hq & HE); [|done|].
      * intros i c r0 Hi H0. replace (p + 1 + Z.of_nat i) with (p + Z.of_nat (S i)) in * by lia.
        apply (Hstep (S i) c r0 Hi H0).
      * exists q, l, r''. simpl. split; [done|]. split; [lia|]. destruct l; [|]; destruct HE; split; (lia || done).
    + exists p, (Some l), r'. simpl. split; [done|]. split; [lia|]. split; [lia|done].
Qed.

(** The characters with a case of their own in the switches on URIs. *)
Definition special : list Z := Eval vm_compute in (0 :: LF :: CR :: bs " #%+./?").

Lemma is_usual_spec ch : is_byte ch -> is_usual ch = negb (bool_decide (ch ∈ special)).
Proof.
  unfold is_byte. intros H.
  assert (forallb (fun n => Bool.eqb (is_usual (Z.of_nat n)) (negb (bool_decide (Z.of_nat n ∈ special)))) (seq 0 256) = true)
    as Hall by (vm_compute; reflexivity).
  rewrite forallb_forall in Hall. specialize (Hall (Z.to_nat ch) ltac:(apply in_seq; lia)).
  rewrite Z2Nat.id in Hall by lia. by apply Bool.eqb_prop.
Qed.

(** ** Interrupted parsing

    The answer of a parser called again after [NGX_AGAIN]: the same code as in
    one call, and for [NGX_OK] and [NGX_AGAIN] the same position and result. *)
Definition agree {A} (x y : out (Z * Z * A)) : Prop :=
  match x, y with
  | Ok (rc, p, r), Ok (rc', p', r') => rc = rc' /\ (rc = NGX_OK \/ rc = NGX_AGAIN -> p = p' /\ r = r')
  | Undef u, Undef u' => u = u'
  | NoFuel, NoFuel => True
  | _, _ => False
  end.

Definition vmap {R} (f : R -> R) (v : verdict R) : verdict R :=
  match v with Next r => Next (f r) | Leave l r => Leave l (f r) end.

Definition omap {A B} (f : A -> B) (m : out A) : out B := let! a := m in Ok (f a).

(** A change of the loop's data that its body neither reads nor writes. *)
Lemma scan_retag {R} (step : Z -> Z -> R -> out (verdict R)) (f : R -> R) a p r :
  (forall p ch r, step p ch (f r) = omap (vmap f) (step p ch r)) ->
  scan step a p (f r) = omap (fun x => (x.1, f (x.2))) (scan step a p r).
Proof.
  intros Hf. revert p r. induction a as [|ch a IH]; intros p r; [done|]. cbn [scan].
  rewrite Hf. destruct (step p ch r) as [[r'|l r']| |]; cbn [obind omap vmap]; auto.
Qed.

(** Scanning the rest of a longer buffer from where the scan of its first part
    ended. *)
Lemma scan_resume {R} (step : bytes -> Z -> Z -> R -> out (verdict R)) buf more pos r p r' :
  (forall b m p ch r v, step b p ch r = Ok v -> step (b ++ m) p ch r = Ok v) ->
  0 <= pos <= blen buf ->
  scan (step buf) (drop (Z.to_nat pos) buf) pos r = Ok (p, None, r') ->
  p = blen buf /\
  scan (step (buf ++ more)) (drop (Z.to_nat pos) (buf ++ more)) pos r =
  scan (step (buf ++ more)) (drop (Z.to_nat p) (buf ++ more)) p r'.
Proof.
  unfold blen. intros Hmono Hpos H. pose proof (scan_end _ _ _ _ _ _ H) as E.
  unfold blen in E. rewrite length_drop in E.
  assert (p = Z.of_nat (length buf)) as -> by lia. split; [done|].
  rewrite Nat2Z.id, drop_app_length, drop_app_le by lia.
  rewrite scan_app, (scan_mono _ (step (buf ++ more)) _ _ _ _ ltac:(intros; by apply Hmono) H). done.
Qed.

Lemma scan_leave {R} (step : Z -> Z -> R -> out (verdict R)) (P : exit -> Prop) a p r q l r' :
  (forall p ch r l r', step p ch r = Ok (Leave l r') -> P l) ->
  scan step a p r = Ok (q, Some l, r') -> P l.
Proof.
  intros HP. revert p r. induction a as [|ch a IH]; intros p r; [discriminate|]. cbn [scan].
  destruct (step p ch r) as [[r0|l0 r0]| |] eqn:E; cbn [obind]; try discriminate; [apply IH|].
  intros [= _ <- _]. eauto.
Qed.
