(* ===== verification/NgxRequestLine.v ===== *)
(** * The request line: [ngx_http_parse_request_line] of nginx/src/http/ngx_http_parse.c

    One definition per state of the parser (or group of states with the same
    body), one character each; [step] is the switch that composes them and
    [ngx_http_parse_request_line] the loop with its epilogue.  The position [p]
    of a character is its offset in the buffer. *)
From S2P Require Import Prelude.
From S2P Require Export NgxHttpParse.

Module RequestLine.

Inductive sw :=
| sw_start | sw_method | sw_spaces_before_uri | sw_schema | sw_schema_slash | sw_schema_slash_slash
| sw_host_start | sw_host | sw_host_end | sw_host_ip_literal | sw_port | sw_host_http_09
| sw_after_slash_in_uri | sw_check_uri | sw_check_uri_http_09 | sw_uri | sw_http_09
| sw_http_H | sw_http_HT | sw_http_HTT | sw_http_HTTP
| sw_first_major_digit | sw_major_digit | sw_first_minor_digit | sw_minor_digit
| sw_spaces_after_digit | sw_almost_done.

#[export] Instance sw_eq_dec : EqDecision sw.
Proof. solve_decision. Defined.

Definition states : list sw :=
  [sw_start; sw_method; sw_spaces_before_uri; sw_schema; sw_schema_slash; sw_schema_slash_slash;
   sw_host_start; sw_host; sw_host_end; sw_host_ip_literal; sw_port; sw_host_http_09;
   sw_after_slash_in_uri; sw_check_uri; sw_check_uri_http_09; sw_uri; sw_http_09;
   sw_http_H; sw_http_HT; sw_http_HTT; sw_http_HTTP;
   sw_first_major_digit; sw_major_digit; sw_first_minor_digit; sw_minor_digit;
   sw_spaces_after_digit; sw_almost_done].

Fixpoint index_of (s : sw) (l : list sw) : Z :=
  match l with [] => 0 | x :: l' => if decide (x = s) then 0 else 1 + index_of s l' end.

#[export] Instance sw_switch : Switch sw.
Proof. refine {| sw_all := states; sw_no s := index_of s states |}. by intros []. Defined.

(** The comparison macros, byte by byte: [ngx_str3_cmp], [ngx_str4cmp],
    [ngx_str5cmp], ... compare all bytes of the literal, [ngx_str3Ocmp] skips the
    second one.  They stop at the first difference. *)
Fixpoint ngx_str_cmp (buf : bytes) (m : Z) (lit : bytes) : out bool :=
  match lit with
  | [] => Ok true
  | c :: lit' => let! d := peek buf m in if d =? c then ngx_str_cmp buf (m + 1) lit' else Ok false
  end.
Definition ngx_str3Ocmp (buf : bytes) (m : Z) (lit : bytes) : out bool :=
  match lit with
  | c0 :: _ :: lit' => let! d := peek buf m in if d =? c0 then ngx_str_cmp buf (m + 2) lit' else Ok false
  | _ => Ok false
  end.

(** The first literal that matches gives the method; [r->method] stays when
    none does.  At most one literal of a group matches, so that the tests of the
    group of five letters, which do not break, set it at most once. *)
Fixpoint select_method (cmp : bytes -> out bool) (group : list (bytes * Z)) (old : Z) : out Z :=
  match group with
  | [] => Ok old
  | (lit, m) :: group' => let! eq := cmp lit in if eq : bool then Ok m else select_method cmp group' old
  end.

(** [switch (p - m)] *)
Definition switch_method (buf : bytes) (m : Z) (n : Z) (old : Z) : out Z :=
  let str := ngx_str_cmp buf m in
  if n =? 3 then select_method str [(bs "GET", NGX_HTTP_GET); (bs "PUT", NGX_HTTP_PUT)] old
  else if n =? 4 then
    let! m1 := peek buf (m + 1) in
    if m1 =? chr "O" then
      select_method (ngx_str3Ocmp buf m)
        [(bs "POST", NGX_HTTP_POST); (bs "COPY", NGX_HTTP_COPY); (bs "MOVE", NGX_HTTP_MOVE); (bs "LOCK", NGX_HTTP_LOCK)] old
    else select_method str [(bs "HEAD", NGX_HTTP_HEAD)] old
  else if n =? 5 then
    select_method str [(bs "MKCOL", NGX_HTTP_MKCOL); (bs "PATCH", NGX_HTTP_PATCH); (bs "TRACE", NGX_HTTP_TRACE)] old
  else if n =? 6 then select_method str [(bs "DELETE", NGX_HTTP_DELETE); (bs "UNLOCK", NGX_HTTP_UNLOCK)] old
  else if n =? 7 then select_method str [(bs "OPTIONS", NGX_HTTP_OPTIONS)] old
  else if n =? 8 then select_method str [(bs "PROPFIND", NGX_HTTP_PROPFIND)] old
  else if n =? 9 then select_method str [(bs "PROPPATCH", NGX_HTTP_PROPPATCH)] old
  else Ok old.

(** ** The states

    Each definition gives what the body of its case does with the character [ch]
    at [p]. *)
Abbreviation outcome := (verdict (sw * request)).
Definition bad_request (s : sw) (r : request) : outcome := Leave (Return NGX_HTTP_PARSE_INVALID_REQUEST) (s, r).

(** [(ch < 'A' || ch > 'Z') && ch != '_'] *)
Definition no_method_char (ch : Z) : bool := ((ch <? chr "A") || (chr "Z" <? ch)) && negb (ch =? chr "_").

Definition on_start (p ch : Z) (r : request) : outcome :=
  let r := r <| request_start := Some p |> in
  if (ch =? CR) || (ch =? LF) then Next (sw_start, r)
  else if no_method_char ch then Leave (Return NGX_HTTP_PARSE_INVALID_METHOD) (sw_start, r)
  else Next (sw_method, r).

Definition on_method (buf : bytes) (p ch : Z) (r : request) : out outcome :=
  if ch =? chr " " then
    let r := r <| method_end := Some (p - 1) |> in
    match request_start r with
    | None => Undef NullDeref
    | Some m =>
        let! v := switch_method buf m (p - m) (method r) in
        Ok (Next (sw_spaces_before_uri, r <| method := v |>))
    end
  else if no_method_char ch then Ok (Leave (Return NGX_HTTP_PARSE_INVALID_METHOD) (sw_method, r))
  else Ok (Next (sw_method, r)).

Definition on_spaces_before_uri (p ch : Z) (r : request) : outcome :=
  if ch =? chr "/" then Next (sw_after_slash_in_uri, r <| uri_start := Some p |>)
  else if is_alpha ch then Next (sw_schema, r <| schema_start := Some p |>)
  else if ch =? chr " " then Next (sw_spaces_before_uri, r)
  else bad_request sw_spaces_before_uri r.

Definition on_schema (p ch : Z) (r : request) : outcome :=
  if is_alpha ch then Next (sw_schema, r)
  else if ch =? chr ":" then Next (sw_schema_slash, r <| schema_end := Some p |>)
  else bad_request sw_schema r.

(** A state that accepts one character only. *)
Definition expect (c : Z) (next here : sw) (ch : Z) (r : request) : outcome :=
  if ch =? c then Next (next, r) else bad_request here r.

(** The single slash of the schema stands for the missing URI. *)
Definition slash_of_schema (r : request) : request :=
  r <| uri_start := option_map (Z.add 1) (schema_end r) |>
    <| uri_end := option_map (Z.add 2) (schema_end r) |>.

Definition on_host_end (here : sw) (p ch : Z) (r : request) : outcome :=
  let r := r <| host_end := Some p |> in
  if ch =? chr ":" then Next (sw_port, r)
  else if ch =? chr "/" then Next (sw_after_slash_in_uri, r <| uri_start := Some p |>)
  else if ch =? chr " " then Next (sw_host_http_09, slash_of_schema r)
  else bad_request here r.

Definition on_host (p ch : Z) (r : request) : outcome :=
  if is_alpha ch then Next (sw_host, r)
  else if is_num ch || (ch =? chr ".") || (ch =? chr "-") then Next (sw_host, r)
  else on_host_end sw_host p ch r.

Definition on_host_start (p ch : Z) (r : request) : outcome :=
  let r := r <| host_start := Some p |> in
  if ch =? chr "[" then Next (sw_host_ip_literal, r) else on_host p ch r.

(** The unreserved characters and the sub-delims. *)
Definition ip_literal_chars : list Z := bs "-._~!$&'()*+,;=".

Definition on_host_ip_literal (p ch : Z) (r : request) : outcome :=
  if is_num ch then Next (sw_host_ip_literal, r)
  else if is_alpha ch then Next (sw_host_ip_literal, r)
  else if ch =? chr ":" then Next (sw_host_ip_literal, r)
  else if ch =? chr "]" then Next (sw_host_end, r)
  else if bool_decide (ch ∈ ip_literal_chars) then Next (sw_host_ip_literal, r)
  else bad_request sw_host_ip_literal r.

Definition on_port (p ch : Z) (r : request) : outcome :=
  if is_num ch then Next (sw_port, r)
  else if ch =? chr "/" then
    Next (sw_after_slash_in_uri, r <| port_end := Some p |> <| uri_start := Some p |>)
  else if ch =? chr " " then Next (sw_host_http_09, slash_of_schema (r <| port_end := Some p |>))
  else bad_request sw_port r.

Definition on_host_http_09 (p ch : Z) (r : request) : outcome :=
  if ch =? chr " " then Next (sw_host_http_09, r)
  else if ch =? CR then Next (sw_almost_done, r <| http_minor := 9 |>)
  else if ch =? LF then Leave done (sw_host_http_09, r <| http_minor := 9 |>)
  else if ch =? chr "H" then Next (sw_http_H, r <| http_protocol := Some p |>)
  else bad_request sw_host_http_09 r.

Definition on_after_slash_in_uri (p ch : Z) (r : request) : outcome :=
  if is_usual ch then Next (sw_check_uri, r)
  else if ch =? chr " " then Next (sw_check_uri_http_09, r <| uri_end := Some p |>)
  else if ch =? CR then Next (sw_almost_done, r <| uri_end := Some p |> <| http_minor := 9 |>)
  else if ch =? LF then Leave done (sw_after_slash_in_uri, r <| uri_end := Some p |> <| http_minor := 9 |>)
  else if ch =? chr "." then Next (sw_uri, r <| complex_uri := true |>)
  else if ch =? chr "%" then Next (sw_uri, r <| quoted_uri := true |>)
  else if ch =? chr "/" then Next (sw_uri, r <| complex_uri := true |>)
  else if ch =? chr "?" then Next (sw_uri, r <| args_start := Some (p + 1) |>)
  else if ch =? chr "#" then Next (sw_uri, r <| complex_uri := true |>)
  else if ch =? chr "+" then Next (sw_after_slash_in_uri, r <| plus_in_uri := true |>)
  else if ch =? 0 then bad_request sw_after_slash_in_uri r
  else Next (sw_check_uri, r).

Definition on_check_uri (p ch : Z) (r : request) : outcome :=
  if is_usual ch then Next (sw_check_uri, r)
  else if ch =? chr "/" then Next (sw_after_slash_in_uri, r <| uri_ext := None |>)
  else if ch =? chr "." then Next (sw_check_uri, r <| uri_ext := Some (p + 1) |>)
  else if ch =? chr " " then Next (sw_check_uri_http_09, r <| uri_end := Some p |>)
  else if ch =? CR then Next (sw_almost_done, r <| uri_end := Some p |> <| http_minor := 9 |>)
  else if ch =? LF then Leave done (sw_check_uri, r <| uri_end := Some p |> <| http_minor := 9 |>)
  else if ch =? chr "%" then Next (sw_uri, r <| quoted_uri := true |>)
  else if ch =? chr "?" then Next (sw_uri, r <| args_start := Some (p + 1) |>)
  else if ch =? chr "#" then Next (sw_uri, r <| complex_uri := true |>)
  else if ch =? chr "+" then Next (sw_check_uri, r <| plus_in_uri := true |>)
  else if ch =? 0 then bad_request sw_check_uri r
  else Next (sw_check_uri, r).

(** [sw_check_uri_http_09] and [sw_http_09]: after a space in the URI; any
    other character takes the parser [back] into the URI. *)
Definition on_uri_http_09 (here back : sw) (p ch : Z) (r : request) : outcome :=
  if ch =? chr " " then Next (here, r)
  else if ch =? CR then Next (sw_almost_done, r <| http_minor := 9 |>)
  else if ch =? LF then Leave done (here, r <| http_minor := 9 |>)
  else if ch =? chr "H" then Next (sw_http_H, r <| http_protocol := Some p |>)
  else Next (back, r <| space_in_uri := true |>).

Definition on_uri (p ch : Z) (r : request) : outcome :=
  if is_usual ch then Next (sw_uri, r)
  else if ch =? chr " " then Next (sw_http_09, r <| uri_end := Some p |>)
  else if ch =? CR then Next (sw_almost_done, r <| uri_end := Some p |> <| http_minor := 9 |>)
  else if ch =? LF then Leave done (sw_uri, r <| uri_end := Some p |> <| http_minor := 9 |>)
  else if ch =? chr "#" then Next (sw_uri, r <| complex_uri := true |>)
  else if ch =? 0 then bad_request sw_uri r
  else Next (sw_uri, r).

(** The version numbers are bit fields of 16 bits. *)
Definition on_first_major_digit (ch : Z) (r : request) : outcome :=
  if (ch <? chr "1") || (chr "9" <? ch) then bad_request sw_first_major_digit r
  else Next (sw_major_digit, r <| http_major := uwrap 16 (ch - chr "0") |>).

Definition on_major_digit (ch : Z) (r : request) : outcome :=
  if ch =? chr "." then Next (sw_first_minor_digit, r)
  else if negb (is_num ch) then bad_request sw_major_digit r
  else Next (sw_major_digit, r <| http_major := uwrap 16 (http_major r * 10 + ch - chr "0") |>).

Definition on_first_minor_digit (ch : Z) (r : request) : outcome :=
  if negb (is_num ch) then bad_request sw_first_minor_digit r
  else Next (sw_minor_digit, r <| http_minor := uwrap 16 (ch - chr "0") |>).

Definition on_minor_digit (ch : Z) (r : request) : outcome :=
  if ch =? CR then Next (sw_almost_done, r)
  else if ch =? LF then Leave done (sw_minor_digit, r)
  else if ch =? chr " " then Next (sw_spaces_after_digit, r)
  else if negb (is_num ch) then bad_request sw_minor_digit r
  else Next (sw_minor_digit, r <| http_minor := uwrap 16 (http_minor r * 10 + ch - chr "0") |>).

Definition on_spaces_after_digit (ch : Z) (r : request) : outcome :=
  if ch =? chr " " then Next (sw_spaces_after_digit, r)
  else if ch =? CR then Next (sw_almost_done, r)
  else if ch =? LF then Leave done (sw_spaces_after_digit, r)
  else bad_request sw_spaces_after_digit r.

Definition on_almost_done (p ch : Z) (r : request) : outcome :=
  let r := r <| request_end := Some (p - 1) |> in
  if ch =? LF then Leave done (sw_almost_done, r) else bad_request sw_almost_done r.

(** [switch (state)] *)
Definition step (buf : bytes) (p ch : Z) (x : sw * request) : out outcome :=
  let '(st, r) := x in
  match st with
  | sw_start => Ok (on_start p ch r)
  | sw_method => on_method buf p ch r
  | sw_spaces_before_uri => Ok (on_spaces_before_uri p ch r)
  | sw_schema => Ok (on_schema p ch r)
  | sw_schema_slash => Ok (expect (chr "/") sw_schema_slash_slash sw_schema_slash ch r)
  | sw_schema_slash_slash => Ok (expect (chr "/") sw_host_start sw_schema_slash_slash ch r)
  | sw_host_start => Ok (on_host_start p ch r)
  | sw_host => Ok (on_host p ch r)
  | sw_host_end => Ok (on_host_end sw_host_end p ch r)
  | sw_host_ip_literal => Ok (on_host_ip_literal p ch r)
  | sw_port => Ok (on_port p ch r)
  | sw_host_http_09 => Ok (on_host_http_09 p ch r)
  | sw_after_slash_in_uri => Ok (on_after_slash_in_uri p ch r)
  | sw_check_uri => Ok (on_check_uri p ch r)
  | sw_check_uri_http_09 => Ok (on_uri_http_09 sw_check_uri_http_09 sw_check_uri p ch r)
  | sw_uri => Ok (on_uri p ch r)
  | sw_http_09 => Ok (on_uri_http_09 sw_http_09 sw_uri p ch r)
  | sw_http_H => Ok (expect (chr "T") sw_http_HT sw_http_H ch r)
  | sw_http_HT => Ok (expect (chr "T") sw_http_HTT sw_http_HT ch r)
  | sw_http_HTT => Ok (expect (chr "P") sw_http_HTTP sw_http_HTT ch r)
  | sw_http_HTTP => Ok (expect (chr "/") sw_first_major_digit sw_http_HTTP ch r)
  | sw_first_major_digit => Ok (on_first_major_digit ch r)
  | sw_major_digit => Ok (on_major_digit ch r)
  | sw_first_minor_digit => Ok (on_first_minor_digit ch r)
  | sw_minor_digit => Ok (on_minor_digit ch r)
  | sw_spaces_after_digit => Ok (on_spaces_after_digit ch r)
  | sw_almost_done => Ok (on_almost_done p ch r)
  end.

(** What follows the label [done]. *)
Definition at_done (p : Z) (r : request) : Z * Z * request :=
  let r := match request_end r with None => r <| request_end := Some p |> | Some _ => r end in
  let r := r <| http_version := http_major r * 1000 + http_minor r |> <| state := sw_no sw_start |> in
  if (http_version r =? 9) && negb (method r =? NGX_HTTP_GET)
  then (NGX_HTTP_PARSE_INVALID_09_METHOD, p + 1, r) else (NGX_OK, p + 1, r).

(** The code returned, [b->pos] and the request.  [pos] is [b->pos] on entry;
    it is left there when the code of a [return] is not stored. *)
Definition ngx_http_parse_request_line (buf : bytes) (pos : Z) (r : request) : out (Z * Z * request) :=
  let! st := load (state r) in
  let! x := scan (step buf) (drop (Z.to_nat pos) buf) pos (st, r) in
  let '(p, l, (st, r)) := x in
  match l with
  | None => Ok (NGX_AGAIN, p, r <| state := sw_no st |>)
  | Some (Return rc) => Ok (rc, pos, r)
  | Some _ => Ok (at_done p r)
  end.

End RequestLine.
