(* ===== verification/NgxHeaderLine.v ===== *)
(** * Header lines and status lines: [ngx_http_parse_header_line] and
    [ngx_http_parse_status_line] of nginx/src/http/ngx_http_parse.c

    The header parser keeps two local variables besides the state: the hash of
    the lower-cased name so far and the index into [lowcase_header]. *)
From S2P Require Import Prelude.
From S2P Require Export NgxHttpParse.
From S2P Require NgxRequestLine.

(** [ngx_hash(key, c)]: 64-bit arithmetic. *)
Definition ngx_hash (key c : Z) : Z := u64 (key * 31 + c).

Module HeaderLine.
Import NgxRequestLine.RequestLine(ngx_str_cmp).

Inductive sw :=
| sw_start | sw_name | sw_space_before_value | sw_value | sw_space_after_value
| sw_ignore_line | sw_almost_done | sw_header_almost_done.

#[export] Instance sw_switch : Switch sw.
Proof.
  refine {| sw_all := [sw_start; sw_name; sw_space_before_value; sw_value; sw_space_after_value;
                       sw_ignore_line; sw_almost_done; sw_header_almost_done];
            sw_no s := match s with sw_start => 0 | sw_name => 1 | sw_space_before_value => 2 | sw_value => 3
                       | sw_space_after_value => 4 | sw_ignore_line => 5 | sw_almost_done => 6
                       | sw_header_almost_done => 7 end |}.
  by intros [].
Defined.

(** The lower case of the characters of a header name, 0 for the others. *)
Definition lowcase : list Z := Eval vm_compute in
  (replicate 32 0
   ++ replicate 13 0 ++ bs "-" ++ replicate 2 0 ++ bs "0123456789" ++ replicate 6 0
   ++ [0] ++ bs "abcdefghijklmnopqrstuvwxyz" ++ replicate 5 0
   ++ [0] ++ bs "abcdefghijklmnopqrstuvwxyz" ++ replicate 5 0
   ++ replicate 128 0).

(** The local variables of the loop. *)
Record locals := mk_locals { st : sw; hash : Z; i : Z; req : request }.
#[export] Instance locals_settable : Settable locals := fun x => mk_locals (st x) (hash x) (i x) (req x).

Abbreviation outcome := (verdict locals).
Definition bad_header (x : locals) : outcome := Leave (Return NGX_HTTP_PARSE_INVALID_HEADER) x.

(** [hash = ngx_hash(hash, c); r->lowcase_header[i++] = c; i &= 31] *)
Definition add_name_char (c : Z) (x : locals) : out locals :=
  if (0 <=? i x) && (i x <? NGX_HTTP_LC_HEADER_LEN) then
    let r := req x in
    let r := r <| lowcase_header := <[Z.to_nat (i x) := c]> (lowcase_header r) |> in
    Ok (x <| hash := ngx_hash (hash x) c |> <| req := r |>
          <| i := Z.land (i x + 1) (NGX_HTTP_LC_HEADER_LEN - 1) |>)
  else Undef OutOfBounds.

Definition on_start (p ch : Z) (x : locals) : out outcome :=
  let r := (req x) <| header_name_start := Some p |> <| invalid_header := false |> in
  if ch =? CR then Ok (Next (x <| st := sw_header_almost_done |> <| req := r <| header_end := Some p |> |>))
  else if ch =? LF then Ok (Leave header_done (x <| req := r <| header_end := Some p |> |>))
  else
    let c := nth (Z.to_nat ch) lowcase 0 in
    if negb (c =? 0) then
      Ok (Next (mk_locals sw_name (ngx_hash 0 c) 1 (r <| lowcase_header := <[0%nat := c]> (lowcase_header r) |>)))
    else if ch =? 0 then Ok (bad_header (x <| st := sw_name |> <| req := r |>))
    else Ok (Next (x <| st := sw_name |> <| req := r <| invalid_header := true |> |>)).

(** IIS may send duplicate ["HTTP/1.1 ..."] lines. *)
Definition duplicate_status_line (buf : bytes) (p ch : Z) (r : request) : out bool :=
  if (ch =? chr "/") && upstream r then
    match header_name_start r with
    | None => Undef NullDeref
    | Some s => if p - s =? 4 then ngx_str_cmp buf s (bs "HTTP") else Ok false
    end
  else Ok false.

Definition on_name (allow_underscores : bool) (buf : bytes) (p ch : Z) (x : locals) : out outcome :=
  let c := nth (Z.to_nat ch) lowcase 0 in
  let r := req x in
  if negb (c =? 0) then let! x := add_name_char c x in Ok (Next x)
  else if ch =? chr "_" then
    if allow_underscores then let! x := add_name_char ch x in Ok (Next x)
    else Ok (Next (x <| req := r <| invalid_header := true |> |>))
  else if ch =? chr ":" then
    Ok (Next (x <| st := sw_space_before_value |> <| req := r <| header_name_end := Some p |> |>))
  else if ch =? CR then
    Ok (Next (x <| st := sw_almost_done |>
                <| req := r <| header_name_end := Some p |> <| header_start := Some p |> <| header_end := Some p |> |>))
  else if ch =? LF then
    Ok (Leave done
          (x <| req := r <| header_name_end := Some p |> <| header_start := Some p |> <| header_end := Some p |> |>))
  else
    let! dup := duplicate_status_line buf p ch r in
    if dup : bool then Ok (Next (x <| st := sw_ignore_line |>))
    else if ch =? 0 then Ok (bad_header x)
    else Ok (Next (x <| req := r <| invalid_header := true |> |>)).

Definition on_space_before_value (p ch : Z) (x : locals) : outcome :=
  let r := req x in
  if ch =? chr " " then Next x
  else if ch =? CR then
    Next (x <| st := sw_almost_done |> <| req := r <| header_start := Some p |> <| header_end := Some p |> |>)
  else if ch =? LF then Leave done (x <| req := r <| header_start := Some p |> <| header_end := Some p |> |>)
  else if ch =? 0 then bad_header x
  else Next (x <| st := sw_value |> <| req := r <| header_start := Some p |> |>).

Definition on_value (p ch : Z) (x : locals) : outcome :=
  let ended := (req x) <| header_end := Some p |> in
  if ch =? chr " " then Next (x <| st := sw_space_after_value |> <| req := ended |>)
  else if ch =? CR then Next (x <| st := sw_almost_done |> <| req := ended |>)
  else if ch =? LF then Leave done (x <| req := ended |>)
  else if ch =? 0 then bad_header x
  else Next x.

Definition on_space_after_value (ch : Z) (x : locals) : outcome :=
  if ch =? chr " " then Next x
  else if ch =? CR then Next (x <| st := sw_almost_done |>)
  else if ch =? LF then Leave done x
  else if ch =? 0 then bad_header x
  else Next (x <| st := sw_value |>).

Definition on_ignore_line (ch : Z) (x : locals) : outcome :=
  if ch =? LF then Next (x <| st := sw_start |>) else Next x.

Definition on_almost_done (ch : Z) (x : locals) : outcome :=
  if ch =? LF then Leave done x else if ch =? CR then Next x else bad_header x.

Definition on_header_almost_done (ch : Z) (x : locals) : outcome :=
  if ch =? LF then Leave header_done x else bad_header x.

(** [switch (state)] *)
Definition step (allow_underscores : bool) (buf : bytes) (p ch : Z) (x : locals) : out outcome :=
  match st x with
  | sw_start => on_start p ch x
  | sw_name => on_name allow_underscores buf p ch x
  | sw_space_before_value => Ok (on_space_before_value p ch x)
  | sw_value => Ok (on_value p ch x)
  | sw_space_after_value => Ok (on_space_after_value ch x)
  | sw_ignore_line => Ok (on_ignore_line ch x)
  | sw_almost_done => Ok (on_almost_done ch x)
  | sw_header_almost_done => Ok (on_header_almost_done ch x)
  end.

Definition store (s : sw) (x : locals) : request :=
  (req x) <| state := sw_no s |> <| header_hash := hash x |> <| lowcase_index := i x |>.

(** The code returned, [b->pos] and the request. *)
Definition ngx_http_parse_header_line (allow_underscores : bool) (buf : bytes) (pos : Z) (r : request)
  : out (Z * Z * request) :=
  let! s := load (state r) in
  let! y := scan (step allow_underscores buf) (drop (Z.to_nat pos) buf) pos
              (mk_locals s (header_hash r) (lowcase_index r) r) in
  let '(p, l, x) := y in
  match l with
  | None => Ok (NGX_AGAIN, p, store (st x) x)
  | Some (Return rc) => Ok (rc, pos, req x)
  | Some header_done => Ok (NGX_HTTP_PARSE_HEADER_DONE, p + 1, (req x) <| state := sw_no sw_start |>)
  | Some _ => Ok (NGX_OK, p + 1, store sw_start x)
  end.

End HeaderLine.

Module StatusLine.

Inductive sw :=
| sw_start | sw_H | sw_HT | sw_HTT | sw_HTTP | sw_first_major_digit | sw_major_digit
| sw_first_minor_digit | sw_minor_digit | sw_status | sw_space_after_status | sw_status_text | sw_almost_done.

#[export] Instance sw_switch : Switch sw.
Proof.
  refine {| sw_all := [sw_start; sw_H; sw_HT; sw_HTT; sw_HTTP; sw_first_major_digit; sw_major_digit;
                       sw_first_minor_digit; sw_minor_digit; sw_status; sw_space_after_status; sw_status_text;
                       sw_almost_done];
            sw_no s := match s with sw_start => 0 | sw_H => 1 | sw_HT => 2 | sw_HTT => 3 | sw_HTTP => 4
                       | sw_first_major_digit => 5 | sw_major_digit => 6 | sw_first_minor_digit => 7
                       | sw_minor_digit => 8 | sw_status => 9 | sw_space_after_status => 10
                       | sw_status_text => 11 | sw_almost_done => 12 end |}.
  by intros [].
Defined.

(** [ngx_http_status_t] *)
Record status := mk_status { version : Z; code : Z; count : Z; start : option Z; end_ : option Z }.
#[export] Instance status_settable : Settable status :=
  fun s => mk_status (version s) (code s) (count s) (start s) (end_ s).
Definition no_status : status := mk_status 0 0 0 None None.

Record locals := mk_locals { st : sw; req : request; stat : status }.
#[export] Instance locals_settable : Settable locals := fun x => mk_locals (st x) (req x) (stat x).

Abbreviation outcome := (verdict locals).
Definition fail (x : locals) : outcome := Leave (Return NGX_ERROR) x.
Definition go (s : sw) (x : locals) : outcome := Next (x <| st := s |>).

(** A state that accepts one character of ["HTTP/"]. *)
Definition expect (c : Z) (next : sw) (ch : Z) (x : locals) : outcome :=
  if ch =? c then go next x else fail x.

Definition on_first_major_digit (ch : Z) (x : locals) : outcome :=
  if (ch <? chr "1") || (chr "9" <? ch) then fail x
  else go sw_major_digit (x <| req := (req x) <| http_major := uwrap 16 (ch - chr "0") |> |>).

Definition on_major_digit (ch : Z) (x : locals) : outcome :=
  if ch =? chr "." then go sw_first_minor_digit x
  else if negb (is_num ch) then fail x
  else Next (x <| req := (req x) <| http_major := uwrap 16 (http_major (req x) * 10 + ch - chr "0") |> |>).

Definition on_first_minor_digit (ch : Z) (x : locals) : outcome :=
  if negb (is_num ch) then fail x
  else go sw_minor_digit (x <| req := (req x) <| http_minor := uwrap 16 (ch - chr "0") |> |>).

Definition on_minor_digit (ch : Z) (x : locals) : outcome :=
  if ch =? chr " " then go sw_status x
  else if negb (is_num ch) then fail x
  else Next (x <| req := (req x) <| http_minor := uwrap 16 (http_minor (req x) * 10 + ch - chr "0") |> |>).

Definition on_status (p ch : Z) (x : locals) : outcome :=
  if ch =? chr " " then Next x
  else if negb (is_num ch) then fail x
  else
    let s := (stat x) <| code := u64 (code (stat x) * 10 + ch - chr "0") |>
                      <| count := u64 (count (stat x) + 1) |> in
    if count s =? 3 then Next (x <| st := sw_space_after_status |> <| stat := s <| start := Some (p - 2) |> |>)
    else Next (x <| stat := s |>).

Definition on_space_after_status (ch : Z) (x : locals) : outcome :=
  if ch =? chr " " then go sw_status_text x
  else if ch =? chr "." then go sw_status_text x
  else if ch =? CR then go sw_almost_done x
  else if ch =? LF then Leave done x
  else fail x.

Definition on_status_text (ch : Z) (x : locals) : outcome :=
  if ch =? CR then go sw_almost_done x else if ch =? LF then Leave done x else Next x.

Definition on_almost_done (p ch : Z) (x : locals) : outcome :=
  let x := x <| stat := (stat x) <| end_ := Some (p - 1) |> |> in
  if ch =? LF then Leave done x else fail x.

(** [switch (state)] *)
Definition step (p ch : Z) (x : locals) : out outcome :=
  Ok (match st x with
      | sw_start => expect (chr "H") sw_H ch x
      | sw_H => expect (chr "T") sw_HT ch x
      | sw_HT => expect (chr "T") sw_HTT ch x
      | sw_HTT => expect (chr "P") sw_HTTP ch x
      | sw_HTTP => expect (chr "/") sw_first_major_digit ch x
      | sw_first_major_digit => on_first_major_digit ch x
      | sw_major_digit => on_major_digit ch x
      | sw_first_minor_digit => on_first_minor_digit ch x
      | sw_minor_digit => on_minor_digit ch x
      | sw_status => on_status p ch x
      | sw_space_after_status => on_space_after_status ch x
      | sw_status_text => on_status_text ch x
      | sw_almost_done => on_almost_done p ch x
      end).

(** The code returned, [b->pos], the request and the status. *)
Definition ngx_http_parse_status_line (buf : bytes) (pos : Z) (r : request) (s : status)
  : out (Z * Z * (request * status)) :=
  let! st0 := load (state r) in
  let! y := scan step (drop (Z.to_nat pos) buf) pos (mk_locals st0 r s) in
  let '(p, l, x) := y in
  match l with
  | None => Ok (NGX_AGAIN, p, ((req x) <| state := sw_no (st x) |>, stat x))
  | Some (Return rc) => Ok (rc, pos, (req x, stat x))
  | Some _ =>
      let s := stat x in
      let s := match end_ s with None => s <| end_ := Some p |> | Some _ => s end in
      let s := s <| version := http_major (req x) * 1000 + http_minor (req x) |> in
      Ok (NGX_OK, p + 1, ((req x) <| state := sw_no sw_start |>, s))
  end.

End StatusLine.
