(* ===== verification/NgxUri.v ===== *)
(** * URIs: [ngx_http_parse_uri], [ngx_http_parse_complex_uri],
    [ngx_http_parse_unsafe_uri] and [ngx_http_split_args] of
    nginx/src/http/ngx_http_parse.c, [ngx_http_process_request_uri] of
    nginx/src/http/ngx_http_request.c

    [buf] is the memory the request points into, [mem] the buffer of
    [r->uri.data] that [ngx_http_parse_complex_uri] writes; reads and writes
    outside them are undefined. *)
From S2P Require Import Prelude.
From S2P Require Export NgxHttpParse.

(** The bytes from [a] to [b]. *)
Definition slice (buf : bytes) (a b : Z) : bytes := take (Z.to_nat (b - a)) (drop (Z.to_nat a) buf).

(** ** Checking a URI *)
Module ParseUri.

Inductive sw := sw_start | sw_after_slash_in_uri | sw_check_uri | sw_uri.
Abbreviation outcome := (verdict (sw * request)).

Definition on_start (ch : Z) (r : request) : outcome :=
  if negb (ch =? chr "/") then Leave (Return NGX_ERROR) (sw_start, r) else Next (sw_after_slash_in_uri, r).

Definition on_after_slash_in_uri (p ch : Z) (r : request) : outcome :=
  if is_usual ch then Next (sw_check_uri, r)
  else if ch =? chr " " then Next (sw_check_uri, r <| space_in_uri := true |>)
  else if ch =? chr "." then Next (sw_uri, r <| complex_uri := true |>)
  else if ch =? chr "%" then Next (sw_uri, r <| quoted_uri := true |>)
  else if ch =? chr "/" then Next (sw_uri, r <| complex_uri := true |>)
  else if ch =? chr "?" then Next (sw_uri, r <| args_start := Some (p + 1) |>)
  else if ch =? chr "#" then Next (sw_uri, r <| complex_uri := true |>)
  else if ch =? chr "+" then Next (sw_after_slash_in_uri, r <| plus_in_uri := true |>)
  else Next (sw_check_uri, r).

Definition on_check_uri (p ch : Z) (r : request) : outcome :=
  if is_usual ch then Next (sw_check_uri, r)
  else if ch =? chr "/" then Next (sw_after_slash_in_uri, r <| uri_ext := None |>)
  else if ch =? chr "." then Next (sw_check_uri, r <| uri_ext := Some (p + 1) |>)
  else if ch =? chr " " then Next (sw_check_uri, r <| space_in_uri := true |>)
  else if ch =? chr "%" then Next (sw_uri, r <| quoted_uri := true |>)
  else if ch =? chr "?" then Next (sw_uri, r <| args_start := Some (p + 1) |>)
  else if ch =? chr "#" then Next (sw_uri, r <| complex_uri := true |>)
  else if ch =? chr "+" then Next (sw_check_uri, r <| plus_in_uri := true |>)
  else Next (sw_check_uri, r).

Definition on_uri (ch : Z) (r : request) : outcome :=
  if is_usual ch then Next (sw_uri, r)
  else if ch =? chr " " then Next (sw_uri, r <| space_in_uri := true |>)
  else if ch =? chr "#" then Next (sw_uri, r <| complex_uri := true |>)
  else Next (sw_uri, r).

Definition step (p ch : Z) (x : sw * request) : out outcome :=
  let '(st, r) := x in
  Ok (match st with
      | sw_start => on_start ch r
      | sw_after_slash_in_uri => on_after_slash_in_uri p ch r
      | sw_check_uri => on_check_uri p ch r
      | sw_uri => on_uri ch r
      end).

(** The loop runs from [r->uri_start] to [r->uri_end], which the caller has set
    to a range of the buffer. *)
Definition ngx_http_parse_uri (buf : bytes) (r : request) : out (Z * request) :=
  match uri_start r, uri_end r with
  | Some a, Some b =>
      if (0 <=? a) && (a <=? b) && (b <=? blen buf) then
        let! x := scan step (slice buf a b) a (sw_start, r) in
        let '(_, l, (_, r)) := x in
        match l with Some (Return rc) => Ok (rc, r) | _ => Ok (NGX_OK, r) end
      else Undef OutOfBounds
  | _, _ => Undef NullDeref
  end.
End ParseUri.

(** ** Normalizing a URI *)
Module ComplexUri.

Inductive sw := sw_usual | sw_slash | sw_dot | sw_dot_dot | sw_quoted | sw_quoted_second.

(** The local variables, the strings [r->uri], [r->exten], [r->args] (start and
    length) and the request.  While the loop runs [r->uri_ext] points into
    [mem]; it is kept in [ext]. *)
Record locals := mk_locals {
  st : sw; quoted_state : sw; ch : Z; decoded : Z; p : Z; u : Z; mem : bytes;
  ext : option Z; uri_len : Z; exten : option (Z * Z); args_str : option (Z * Z); req : request }.
#[export] Instance locals_settable : Settable locals := fun x =>
  mk_locals (st x) (quoted_state x) (ch x) (decoded x) (p x) (u x) (mem x)
    (ext x) (uri_len x) (exten x) (args_str x) (req x).

(** [*u++ = c] *)
Definition emit (c : Z) (x : locals) : out locals :=
  if (0 <=? u x) && (u x <? blen (mem x))
  then Ok (x <| mem := <[Z.to_nat (u x) := c]> (mem x) |> <| u := u x + 1 |>)
  else Undef OutOfBounds.

(** [ch = *p++] *)
Definition advance (buf : bytes) (x : locals) : out locals :=
  let! c := peek buf (p x) in Ok (x <| ch := c |> <| p := p x + 1 |>).

(** [*u++ = c; ch = *p++; break], after [state = s]. *)
Definition copy (buf : bytes) (s : sw) (c : Z) (x : locals) : out (verdict locals) :=
  let! x := emit c x in let! x := advance buf x in Ok (Next (x <| st := s |>)).

(** [ch = *p++; break] with nothing written. *)
Definition skip (buf : bytes) (s : sw) (x : locals) : out (verdict locals) :=
  let! x := advance buf x in Ok (Next (x <| st := s |>)).

(** The cases of the path states that are the same in all of them: ['%'], ['?'],
    ['#'], ['+'] and any other character. *)
Definition on_others (buf : bytes) (x : locals) : out (verdict locals) :=
  if ch x =? chr "%" then skip buf sw_quoted (x <| quoted_state := st x |>)
  else if ch x =? chr "?" then Ok (Leave args (x <| req := (req x) <| args_start := Some (p x) |> |>))
  else if ch x =? chr "#" then Ok (Leave done x)
  else if ch x =? chr "+" then copy buf sw_usual (ch x) (x <| req := (req x) <| plus_in_uri := true |> |>)
  else copy buf sw_usual (ch x) x.

Definition on_usual (buf : bytes) (x : locals) : out (verdict locals) :=
  if is_usual (ch x) then copy buf sw_usual (ch x) x
  else if ch x =? chr "/" then copy buf sw_slash (ch x) (x <| ext := None |>)
  else if ch x =? chr "." then copy buf sw_usual (ch x) (x <| ext := Some (u x + 1) |>)
  else on_others buf x.

Definition on_slash (merge_slashes : bool) (buf : bytes) (x : locals) : out (verdict locals) :=
  if is_usual (ch x) then copy buf sw_usual (ch x) x
  else if ch x =? chr "/" then
    if merge_slashes then skip buf sw_slash x else copy buf sw_slash (ch x) x
  else if ch x =? chr "." then copy buf sw_dot (ch x) x
  else on_others buf x.

Definition on_dot (buf : bytes) (x : locals) : out (verdict locals) :=
  if is_usual (ch x) then copy buf sw_usual (ch x) x
  else if ch x =? chr "/" then skip buf sw_slash (x <| u := u x - 1 |>)
  else if ch x =? chr "." then copy buf sw_dot_dot (ch x) x
  else on_others buf x.

(** The loop that goes back to the previous slash; [None] when it passes the
    start of the URI. *)
Fixpoint go_back (fuel : nat) (mem : bytes) (u : Z) : out (option Z) :=
  match fuel with
  | O => NoFuel
  | S f =>
      if u <? 0 then Ok None
      else let! c := peek mem u in if c =? chr "/" then Ok (Some (u + 1)) else go_back f mem (u - 1)
  end.

Definition on_dot_dot (buf : bytes) (x : locals) : out (verdict locals) :=
  if is_usual (ch x) then copy buf sw_usual (ch x) x
  else if ch x =? chr "/" then
    let u0 := u x - 5 in
    let! back := go_back (S (S (Z.to_nat u0))) (mem x) u0 in
    match back with
    | None => Ok (Leave (Return NGX_HTTP_PARSE_INVALID_REQUEST) x)
    | Some v => skip buf sw_slash (x <| u := v |>)
    end
  else on_others buf x.

(** [c = (u_char) (ch | 0x20); c >= 'a' && c <= 'f'] *)
Definition is_hex_letter (ch : Z) : bool := let c := Z.lor ch 0x20 in (chr "a" <=? c) && (c <=? chr "f").
Definition bad_request (x : locals) : out (verdict locals) :=
  Ok (Leave (Return NGX_HTTP_PARSE_INVALID_REQUEST) x).

Definition on_quoted (buf : bytes) (x : locals) : out (verdict locals) :=
  let x := x <| req := (req x) <| quoted_uri := true |> |> in
  if is_num (ch x) then skip buf sw_quoted_second (x <| decoded := ch x - chr "0" |>)
  else if is_hex_letter (ch x) then
    skip buf sw_quoted_second (x <| decoded := Z.lor (ch x) 0x20 - chr "a" + 10 |>)
  else bad_request x.

(** The decoded character is read again in the state before the ['%'], except
    where it would be taken for a delimiter. *)
Definition on_quoted_second (buf : bytes) (x : locals) : out (verdict locals) :=
  if is_num (ch x) then
    let c := uwrap 8 (Z.shiftl (decoded x) 4 + ch x - chr "0") in
    let x := x <| ch := c |> in
    if (c =? chr "%") || (c =? chr "#") then copy buf sw_usual c x
    else if c =? 0 then bad_request x
    else Ok (Next (x <| st := quoted_state x |>))
  else if is_hex_letter (ch x) then
    let c := uwrap 8 (Z.shiftl (decoded x) 4 + Z.lor (ch x) 0x20 - chr "a" + 10) in
    let x := x <| ch := c |> in
    if c =? chr "?" then copy buf sw_usual c x
    else
      let x := if c =? chr "+" then x <| req := (req x) <| plus_in_uri := true |> |> else x in
      Ok (Next (x <| st := quoted_state x |>))
  else bad_request x.

(** [switch (state)] *)
Definition step (merge_slashes : bool) (buf : bytes) (x : locals) : out (verdict locals) :=
  match st x with
  | sw_usual => on_usual buf x
  | sw_slash => on_slash merge_slashes buf x
  | sw_dot => on_dot buf x
  | sw_dot_dot => on_dot_dot buf x
  | sw_quoted => on_quoted buf x
  | sw_quoted_second => on_quoted_second buf x
  end.

(** [while (p <= r->uri_end)]; leaving it by the test goes on at [done]. *)
Fixpoint loop (fuel : nat) (merge_slashes : bool) (buf : bytes) (last : Z) (x : locals) : out (exit * locals) :=
  match fuel with
  | O => NoFuel
  | S f =>
      if last <? p x then Ok (done, x)
      else
        let! v := step merge_slashes buf x in
        match v with
        | Next x => loop f merge_slashes buf last x
        | Leave l x => Ok (l, x)
        end
  end.

(** The end of the URI and of its extension, and [r->uri_ext = NULL]. *)
Definition close (x : locals) : locals :=
  let x := x <| uri_len := u x |> in
  let x := match ext x with Some e => x <| exten := Some (e, u x - e) |> | None => x end in
  x <| ext := None |> <| req := (req x) <| uri_ext := None |> |>.

(** The loop at the label [args]: the arguments end at the first ['#'], if there
    is one before [r->uri_end]. *)
Fixpoint find_hash (rest : bytes) (p : Z) : option Z :=
  match rest with
  | [] => None
  | c :: rest' => if c =? chr "#" then Some (p + 1) else find_hash rest' (p + 1)
  end.

Definition cut_args (buf : bytes) (last : Z) (x : locals) : locals :=
  match find_hash (slice buf (p x) last) (p x), args_start (req x) with
  | Some q, Some s =>
      x <| p := q |> <| args_str := Some (s, q - 1 - s) |> <| req := (req x) <| args_start := None |> |>
  | _, _ => x
  end.

(** A character is handled in one round, a decoded one in two. *)
Definition ngx_http_parse_complex_uri (merge_slashes : bool) (buf mem : bytes) (r : request) : out (Z * locals) :=
  match uri_start r, uri_end r with
  | Some start, Some last =>
      let r := r <| uri_ext := None |> <| args_start := None |> in
      let! c := peek buf start in
      let x := mk_locals sw_usual sw_usual c 0 (start + 1) 0 mem None 0 None None r in
      let! y := loop (2 * Z.to_nat (last - start) + 2) merge_slashes buf last x in
      let '(l, x) := y in
      match l with
      | Return rc => Ok (rc, x)
      | args => Ok (NGX_OK, close (cut_args buf last x))
      | _ => Ok (NGX_OK, close x)
      end
  | _, _ => Undef NullDeref
  end.

(** [r->uri.data] up to [r->uri.len], and the text of [r->exten]. *)
Definition uri_of (x : locals) : bytes := take (Z.to_nat (uri_len x)) (mem x).
Definition exten_of (x : locals) : option bytes :=
  option_map (fun e => take (Z.to_nat (e.2)) (drop (Z.to_nat (e.1)) (mem x))) (exten x).
End ComplexUri.

(** ** Unsafe URIs *)
Module UnsafeUri.

(** [ngx_path_separator] *)
Definition ngx_path_separator (c : Z) : bool := c =? chr "/".

(** The answer: the code, [uri->len] and [args] when it is set. *)
Definition answer : Type := Z * Z * option (Z * Z).

(** [mem] is the memory from [uri->data] on; the URI is its first [len] bytes.
    The loop has [n] bytes left, the next one at [p]. *)
Fixpoint loop (mem : bytes) (len : Z) (n : nat) (p : Z) : out answer :=
  match n with
  | O => Ok (NGX_OK, len, None)
  | S n' =>
      let! ch := peek mem p in
      let p := p + 1 in
      if is_usual ch then loop mem len n' p
      else if ch =? chr "?" then Ok (NGX_OK, len - Z.of_nat n, Some (p, Z.of_nat n - 1))
      else if ch =? 0 then Ok (NGX_ERROR, len, None)
      else if ngx_path_separator ch && (2 <? Z.of_nat n) then
        let! c0 := peek mem p in
        if c0 =? chr "." then
          let! c1 := peek mem (p + 1) in
          if c1 =? chr "." then
            let! c2 := peek mem (p + 2) in
            if ngx_path_separator c2 then Ok (NGX_ERROR, len, None) else loop mem len n' p
          else loop mem len n' p
        else loop mem len n' p
      else loop mem len n' p
  end.

(** The URI is [".."] followed by a separator: [p[0] == '.' && len == 3 && ...] *)
Definition dot_dot_slash (mem : bytes) (len : Z) : out bool :=
  let! c0 := peek mem 0 in
  if (c0 =? chr ".") && (len =? 3) then
    let! c1 := peek mem 1 in
    if c1 =? chr "." then let! c2 := peek mem 2 in Ok (ngx_path_separator c2) else Ok false
  else Ok false.

Definition ngx_http_parse_unsafe_uri (mem : bytes) (len : Z) : out answer :=
  if len =? 0 then Ok (NGX_ERROR, len, None)
  else
    let! c0 := peek mem 0 in
    if c0 =? chr "?" then Ok (NGX_ERROR, len, None)
    else
      let! dds := dot_dot_slash mem len in
      if dds : bool then Ok (NGX_ERROR, len, None) else loop mem len (Z.to_nat len) 0.
End UnsafeUri.

(** ** Splitting off the arguments *)

(** The URI and the arguments; both strings are views of [uri]. *)
Definition ngx_http_split_args (uri : bytes) : out (bytes * bytes) :=
  let! q := Search.ngx_strlchr uri 0 (length uri) (chr "?") in
  match q with
  | Some p => Ok (take p uri, drop (S p) uri)
  | None => Ok (uri, [])
  end.

(** ** The URI of a request *)
Module RequestUri.

(** What [ngx_http_process_request_uri] sets besides the request: [r->uri],
    [r->exten], [r->args] and [r->unparsed_uri] as texts, and
    [r->valid_unparsed_uri]. *)
Record strings := mk_strings { uri : bytes; exten : option bytes; args : option bytes;
  unparsed_uri : bytes; valid_unparsed_uri : bool }.

(** [r->uri.len] as the first statement computes it. *)
Definition raw_len (r : request) : out Z :=
  match uri_start r with
  | None => Undef NullDeref
  | Some s =>
      match args_start r with
      | Some a => Ok (a - 1 - s)
      | None => match uri_end r with Some e => Ok (e - s) | None => Undef NullDeref end
      end
  end.

(** [r->uri_ext] and [r->args_start] of a URI that is not complex. *)
Definition exten_text (buf : bytes) (r : request) (e : Z) : option bytes :=
  match args_start r, uri_end r with
  | Some a, _ => Some (slice buf e (a - 1))
  | None, Some b => Some (slice buf e b)
  | None, None => None
  end.

Definition args_text (buf : bytes) (r : request) (old : option bytes) : option bytes :=
  match args_start r, uri_end r with
  | Some a, Some b => if a <? b then Some (slice buf a b) else old
  | _, _ => old
  end.

(** [None]: the request was finalized with 400.  [ngx_pnalloc] succeeds and gives
    [r->uri.len + 1] bytes of any contents, here zeros. *)
Definition ngx_http_process_request_uri (merge_slashes : bool) (buf : bytes) (r : request)
  : out (option (request * strings)) :=
  let! len := raw_len r in
  match uri_start r, uri_end r with
  | Some s, Some e =>
      let unparsed := slice buf s e in
      let valid := negb (space_in_uri r) in
      if complex_uri r || quoted_uri r then
        let! y := ComplexUri.ngx_http_parse_complex_uri merge_slashes buf (replicate (Z.to_nat (len + 1)) 0) r in
        let '(rc, x) := y in
        if negb (rc =? NGX_OK) then Ok None
        else
          let r := ComplexUri.req x in
          let cut := option_map (fun t => slice buf (t.1) (t.1 + t.2)) (ComplexUri.args_str x) in
          Ok (Some (r, mk_strings (ComplexUri.uri_of x) (ComplexUri.exten_of x) (args_text buf r cut)
                         unparsed valid))
      else
        let ext := match uri_ext r with Some e => exten_text buf r e | None => None end in
        Ok (Some (r, mk_strings (slice buf s (s + len)) ext (args_text buf r None) unparsed valid))
  | _, _ => Undef NullDeref
  end.
End RequestUri.
