(* ===== verification/NgxChunked.v ===== *)
(** * Chunked bodies: [ngx_http_parse_chunked] of nginx/src/http/ngx_http_parse.c
    and the body filters of nginx/src/http/ngx_http_request_body.c

    [off_t] is a signed 64-bit integer; the multiplication of a chunk size
    wraps around as the compiled code does. *)
From S2P Require Import Prelude.
From S2P Require Export NgxHttpParse.

Module Chunked.

Inductive sw :=
| sw_chunk_start | sw_chunk_size | sw_chunk_extension | sw_chunk_extension_almost_done | sw_chunk_data
| sw_after_data | sw_after_data_almost_done | sw_last_chunk_extension | sw_last_chunk_extension_almost_done
| sw_trailer | sw_trailer_almost_done | sw_trailer_header | sw_trailer_header_almost_done.

#[export] Instance sw_eq_dec : EqDecision sw.
Proof. solve_decision. Defined.
#[export] Instance sw_switch : Switch sw.
Proof.
  refine {| sw_all := [sw_chunk_start; sw_chunk_size; sw_chunk_extension; sw_chunk_extension_almost_done;
                       sw_chunk_data; sw_after_data; sw_after_data_almost_done; sw_last_chunk_extension;
                       sw_last_chunk_extension_almost_done; sw_trailer; sw_trailer_almost_done;
                       sw_trailer_header; sw_trailer_header_almost_done];
            sw_no s := match s with sw_chunk_start => 0 | sw_chunk_size => 1 | sw_chunk_extension => 2
              | sw_chunk_extension_almost_done => 3 | sw_chunk_data => 4 | sw_after_data => 5
              | sw_after_data_almost_done => 6 | sw_last_chunk_extension => 7
              | sw_last_chunk_extension_almost_done => 8 | sw_trailer => 9 | sw_trailer_almost_done => 10
              | sw_trailer_header => 11 | sw_trailer_header_almost_done => 12 end |}.
  by intros [].
Defined.

(** [ngx_http_chunked_t] *)
Record ngx_http_chunked := mk_chunked { ctx_state : Z; size : Z; length : Z }.
#[export] Instance chunked_settable : Settable ngx_http_chunked :=
  fun c => mk_chunked (ctx_state c) (size c) (length c).

Abbreviation outcome := (verdict (sw * ngx_http_chunked)).

(** The value of a hexadecimal digit. *)
Definition hex_digit (ch : Z) : option Z :=
  if is_num ch then Some (ch - chr "0")
  else
    let c := Z.lor ch 0x20 in
    if (chr "a" <=? c) && (c <=? chr "f") then Some (c - chr "a" + 10) else None.

Definition on_chunk_start (ch : Z) (ctx : ngx_http_chunked) : outcome :=
  match hex_digit ch with
  | Some d => Next (sw_chunk_size, ctx <| size := d |>)
  | None => Leave invalid (sw_chunk_start, ctx)
  end.

(** The switch that ends the size, towards the data or, after size 0, towards
    the trailer. *)
Definition end_of_size (cr lf ext : sw) (ch : Z) (ctx : ngx_http_chunked) : outcome :=
  if ch =? CR then Next (cr, ctx)
  else if ch =? LF then Next (lf, ctx)
  else if (ch =? chr ";") || (ch =? chr " ") || (ch =? 9) then Next (ext, ctx)
  else Leave invalid (sw_chunk_size, ctx).

Definition on_chunk_size (ch : Z) (ctx : ngx_http_chunked) : outcome :=
  match hex_digit ch with
  | Some d => Next (sw_chunk_size, ctx <| size := i64 (size ctx * 16 + d) |>)
  | None =>
      if size ctx =? 0
      then end_of_size sw_last_chunk_extension_almost_done sw_trailer sw_last_chunk_extension ch ctx
      else end_of_size sw_chunk_extension_almost_done sw_chunk_data sw_chunk_extension ch ctx
  end.

(** The states that skip to the end of a line. *)
Definition to_eol (here cr lf : sw) (ch : Z) (ctx : ngx_http_chunked) : outcome :=
  if ch =? CR then Next (cr, ctx) else if ch =? LF then Next (lf, ctx) else Next (here, ctx).

(** The states after a carriage return. *)
Definition expect_lf (here next : sw) (ch : Z) (ctx : ngx_http_chunked) : outcome :=
  if ch =? LF then Next (next, ctx) else Leave invalid (here, ctx).

Definition on_trailer (ch : Z) (ctx : ngx_http_chunked) : outcome :=
  if ch =? CR then Next (sw_trailer_almost_done, ctx)
  else if ch =? LF then Leave done (sw_trailer, ctx)
  else Next (sw_trailer_header, ctx).

Definition on_trailer_almost_done (ch : Z) (ctx : ngx_http_chunked) : outcome :=
  if ch =? LF then Leave done (sw_trailer_almost_done, ctx) else Leave invalid (sw_trailer_almost_done, ctx).

(** [switch (state)] *)
Definition step (pos ch : Z) (x : sw * ngx_http_chunked) : out outcome :=
  let '(st, ctx) := x in
  Ok (match st with
      | sw_chunk_start => on_chunk_start ch ctx
      | sw_chunk_size => on_chunk_size ch ctx
      | sw_chunk_extension => to_eol sw_chunk_extension sw_chunk_extension_almost_done sw_chunk_data ch ctx
      | sw_chunk_extension_almost_done => expect_lf sw_chunk_extension_almost_done sw_chunk_data ch ctx
      | sw_chunk_data => Leave data (sw_chunk_data, ctx)
      | sw_after_data => to_eol sw_after_data sw_after_data_almost_done sw_chunk_start ch ctx
      | sw_after_data_almost_done => expect_lf sw_after_data_almost_done sw_chunk_start ch ctx
      | sw_last_chunk_extension =>
          to_eol sw_last_chunk_extension sw_last_chunk_extension_almost_done sw_trailer ch ctx
      | sw_last_chunk_extension_almost_done => expect_lf sw_last_chunk_extension_almost_done sw_trailer ch ctx
      | sw_trailer => on_trailer ch ctx
      | sw_trailer_almost_done => on_trailer_almost_done ch ctx
      | sw_trailer_header => to_eol sw_trailer_header sw_trailer_header_almost_done sw_trailer ch ctx
      | sw_trailer_header_almost_done => expect_lf sw_trailer_header_almost_done sw_trailer ch ctx
      end).

(** The smallest number of bytes to come: the switch after the label [data]. *)
Definition min_length (st : sw) (size : Z) : Z :=
  match st with
  | sw_chunk_start => 3
  | sw_chunk_size => i64 (2 + (if size =? 0 then 0 else i64 (size + 4)))
  | sw_chunk_extension | sw_chunk_extension_almost_done => i64 (i64 (1 + size) + 4)
  | sw_chunk_data => i64 (size + 4)
  | sw_after_data | sw_after_data_almost_done => 4
  | sw_last_chunk_extension | sw_last_chunk_extension_almost_done => 2
  | sw_trailer | sw_trailer_almost_done => 1
  | sw_trailer_header | sw_trailer_header_almost_done => 2
  end.

(** The code returned, [b->pos] and the context. *)
Definition ngx_http_parse_chunked (buf : bytes) (pos : Z) (ctx : ngx_http_chunked)
  : out (Z * Z * ngx_http_chunked) :=
  let! st := load (ctx_state ctx) in
  let st := if decide (st = sw_chunk_data) then if size ctx =? 0 then sw_after_data else st else st in
  let! x := scan step (drop (Z.to_nat pos) buf) pos (st, ctx) in
  let '(p, l, (st, ctx)) := x in
  match l with
  | Some done => Ok (NGX_DONE, p + 1, ctx <| ctx_state := 0 |>)
  | Some invalid => Ok (NGX_ERROR, pos, ctx)
  | _ =>
      let rc := match l with Some data => NGX_OK | _ => NGX_AGAIN end in
      let ctx := ctx <| ctx_state := sw_no st |> <| length := min_length st (size ctx) |> in
      if (size ctx <? 0) || (length ctx <? 0) then Ok (NGX_ERROR, p, ctx) else Ok (rc, p, ctx)
  end.

(** ** The request body

    [rest] is [rb->rest], [content_length_n] is [r->headers_in.content_length_n];
    the context is allocated when [rest] is -1.  An output buffer is the text it
    covers and its [last_buf] flag. *)
Record body := mk_body { chunked : ngx_http_chunked; rest : Z; content_length_n : Z; lingering_close : bool }.
#[export] Instance body_settable : Settable body :=
  fun b => mk_body (chunked b) (rest b) (content_length_n b) (lingering_close b).
Definition new_body : body := mk_body (mk_chunked 0 0 0) (-1) (-1) false.

Definition NGX_HTTP_BAD_REQUEST : Z := 400.
Definition NGX_HTTP_REQUEST_ENTITY_TOO_LARGE : Z := 413.

Abbreviation out_buf := (bytes * bool)%type.

(** The bytes of [buf] from [a] to [b]. *)
Definition text (buf : bytes) (a b : Z) : bytes := take (Z.to_nat (b - a)) (drop (Z.to_nat a) buf).

(** The bytes of the chunk that are in the buffer are taken out of it. *)
Definition take_data (buf : bytes) (pos : Z) (b : body) : Z * body :=
  let c := chunked b in
  let n := blen buf - pos in
  if size c <? n then
    (pos + size c, b <| content_length_n := i64 (content_length_n b + size c) |> <| chunked := c <| size := 0 |> |>)
  else
    (blen buf, b <| content_length_n := i64 (content_length_n b + n) |> <| chunked := c <| size := size c - n |> |>).

(** [for ( ;; )] on one buffer: [Some rc] when the filter returns [rc] from it. *)
Fixpoint filter_buf (fuel : nat) (max : Z) (buf : bytes) (pos : Z) (b : body) (outs : list out_buf)
  : out (option Z * body * list out_buf) :=
  match fuel with
  | O => NoFuel
  | S f =>
      let! x := ngx_http_parse_chunked buf pos (chunked b) in
      let '(rc, pos, ctx) := x in
      let b := b <| chunked := ctx |> in
      if rc =? NGX_OK then
        if negb (max =? 0) && (max <? i64 (content_length_n b + size ctx)) then
          Ok (Some NGX_HTTP_REQUEST_ENTITY_TOO_LARGE, b <| lingering_close := true |>, outs)
        else
          let '(pos', b) := take_data buf pos b in
          filter_buf f max buf pos' b (outs ++ [(text buf pos pos', false)])
      else if rc =? NGX_DONE then Ok (None, b <| rest := 0 |>, outs ++ [([], true)])
      else if rc =? NGX_AGAIN then Ok (None, b <| rest := length ctx |>, outs)
      else Ok (Some NGX_HTTP_BAD_REQUEST, b, outs)
  end.

(** [for (cl = in; cl; cl = cl->next)]; a round of the inner loop takes a byte
    of the buffer or ends it. *)
Fixpoint filter_chain (max : Z) (chain : list bytes) (b : body) (outs : list out_buf)
  : out (option Z * body * list out_buf) :=
  match chain with
  | [] => Ok (None, b, outs)
  | buf :: chain' =>
      let! x := filter_buf (S (Datatypes.length buf)) max buf 0 b outs in
      let '(rc, b, outs) := x in
      match rc with
      | Some _ => Ok (rc, b, outs)
      | None => filter_chain max chain' b outs
      end
  end.

(** [save] is [ngx_http_request_body_save_filter]; the allocations succeed. *)
Definition ngx_http_request_body_chunked_filter (save : list out_buf -> Z) (max : Z) (chain : list bytes) (b : body)
  : out (Z * body * list out_buf) :=
  let b := if rest b =? -1
           then b <| chunked := mk_chunked 0 0 0 |> <| content_length_n := 0 |> <| rest := 3 |>
           else b in
  let! x := filter_chain max chain b [] in
  let '(rc, b, outs) := x in
  match rc with
  | Some rc => Ok (rc, b, [])
  | None => Ok (save outs, b, outs)
  end.

(** The same body read and thrown away. *)
Fixpoint discard_loop (fuel : nat) (buf : bytes) (pos : Z) (b : body) : out (Z * body) :=
  match fuel with
  | O => NoFuel
  | S f =>
      let! x := ngx_http_parse_chunked buf pos (chunked b) in
      let '(rc, pos, ctx) := x in
      let b := b <| chunked := ctx |> in
      if rc =? NGX_OK then
        let n := blen buf - pos in
        if size ctx <? n then discard_loop f buf (pos + size ctx) (b <| chunked := ctx <| size := 0 |> |>)
        else discard_loop f buf (blen buf) (b <| chunked := ctx <| size := size ctx - n |> |>)
      else if rc =? NGX_DONE then Ok (NGX_OK, b <| content_length_n := 0 |>)
      else if rc =? NGX_AGAIN then Ok (NGX_OK, b <| content_length_n := length ctx |>)
      else Ok (NGX_HTTP_BAD_REQUEST, b)
  end.

Definition ngx_http_discard_request_body_filter (is_chunked : bool) (buf : bytes) (b : body) : out (Z * body) :=
  if is_chunked then discard_loop (S (Datatypes.length buf)) buf 0 b
  else
    let n := blen buf in
    if content_length_n b <? n then Ok (NGX_OK, b <| content_length_n := 0 |>)
    else Ok (NGX_OK, b <| content_length_n := content_length_n b - n |>).

End Chunked.
