(* ===== verification/NgxRequestLineProps.v ===== *)
(** * Correctness of the parsers of lines

    Parsing in pieces, the pointers a parsed request line leaves, the round trip
    of request lines, and the same for header and status lines. *)
From S2P Require Import Prelude.
From S2P Require Import NgxHttpParse NgxRequestLine NgxHeaderLine.

(** Case analysis on the tests of a parser's step. *)
Ltac tests :=
  repeat match goal with |- context [if ?b then _ else _] => destruct b eqn:? end.

Module Line.
Import RequestLine.

Lemma str_cmp_app buf more m lit b : ngx_str_cmp buf m lit = Ok b -> ngx_str_cmp (buf ++ more) m lit = Ok b.
Proof.
  revert m. induction lit as [|c lit IH]; intros m; [done|]. cbn [ngx_str_cmp].
  intros (d & Hd & H)%obind_Ok_inv. rewrite (peek_app _ _ _ _ Hd). cbn [obind].
  destruct (d =? c); [by apply IH|done].
Qed.

Lemma str3Ocmp_app buf more m lit b : ngx_str3Ocmp buf m lit = Ok b -> ngx_str3Ocmp (buf ++ more) m lit = Ok b.
Proof.
  destruct lit as [|c0 [|c1 lit]]; [done..|]. cbn [ngx_str3Ocmp].
  intros (d & Hd & H)%obind_Ok_inv. rewrite (peek_app _ _ _ _ Hd). cbn [obind].
  destruct (d =? c0); [by apply str_cmp_app|done].
Qed.

Lemma select_method_mono cmp cmp' group old m :
  (forall lit b, cmp lit = Ok b -> cmp' lit = Ok b) ->
  select_method cmp group old = Ok m -> select_method cmp' group old = Ok m.
Proof.
  intros Hc. induction group as [|[lit v] group IH]; [done|]. cbn [select_method].
  intros (b & Hb & H)%obind_Ok_inv. rewrite (Hc _ _ Hb). cbn [obind]. destruct b; auto.
Qed.

Lemma switch_method_app buf more m n old v :
  switch_method buf m n old = Ok v -> switch_method (buf ++ more) m n old = Ok v.
Proof.
  unfold switch_method. tests; try done; try (apply select_method_mono; auto using str_cmp_app).
  intros (d & Hd & H)%obind_Ok_inv. rewrite (peek_app _ _ _ _ Hd). cbn [obind]. revert H.
  destruct (d =? 79); apply select_method_mono; auto using str_cmp_app, str3Ocmp_app.
Qed.

Lemma line_step_app buf more p ch x v : step buf p ch x = Ok v -> step (buf ++ more) p ch x = Ok v.
Proof.
  destruct x as [st r]. destruct st; cbn [step]; 
    lazymatch goal with |- context [on_method] => idtac | _ => exact (fun H => H) end.
  unfold on_method. destruct (ch =? 32); [|destruct (no_method_char ch); exact (fun H => H)].
  destruct (request_start _) as [m|]; [|discriminate].
  intros (d & Hd & H)%obind_Ok_inv. by rewrite (switch_method_app _ _ _ _ _ _ Hd).
Qed.

(** The steps neither read nor write the stored state. *)
Definition retag (n : Z) (x : sw * request) : sw * request := (x.1, x.2 <| state := n |>).

Lemma line_step_retag buf n p ch x : step buf p ch (retag n x) = omap (vmap (retag n)) (step buf p ch x).
Proof.
  destruct x as [st r]. unfold retag. cbn [fst snd]. destruct st; cbn [step];
    try (unfold on_start, on_spaces_before_uri, on_schema, expect, on_host_start, on_host, on_host_end,
      on_host_ip_literal, on_port, on_host_http_09, on_after_slash_in_uri, on_check_uri, on_uri_http_09,
      on_uri, on_first_major_digit, on_major_digit, on_first_minor_digit, on_minor_digit,
      on_spaces_after_digit, on_almost_done, bad_request, slash_of_schema; cbn zeta; tests; reflexivity).
  unfold on_method. tests; try reflexivity. cbn.
  destruct (request_start r) as [m|]; [|reflexivity]. by destruct (switch_method buf m (p - m) (method r)).
Qed.

(** The codes of a [return] in the loop. *)
Definition is_error (rc : Z) : Prop := rc <> NGX_OK /\ rc <> NGX_AGAIN.

Lemma line_step_return buf p ch st r rc x :
  step buf p ch (st, r) = Ok (Leave (Return rc) x) -> is_error rc.
Proof.
  intros H. assert (rc = NGX_HTTP_PARSE_INVALID_METHOD \/ rc = NGX_HTTP_PARSE_INVALID_REQUEST) as [-> | ->];
    [|by split..].
  revert H. destruct (decide (st = sw_method)) as [->|Hne].
  - cbn [step]. unfold on_method. tests; cbn zeta; [|intros [=]; auto|intros [=]].
    match goal with |- context [request_start ?x] => destruct (request_start x); [|discriminate] end.
    by intros (v & _ & [=])%obind_Ok_inv.
  - destruct st; cbn [step]; try done;
      unfold on_start, on_spaces_before_uri, on_schema, expect, on_host_start, on_host, on_host_end,
      on_host_ip_literal, on_port, on_host_http_09, on_after_slash_in_uri, on_check_uri, on_uri_http_09,
      on_uri, on_first_major_digit, on_major_digit, on_first_minor_digit, on_minor_digit,
      on_spaces_after_digit, on_almost_done, bad_request; cbn zeta; tests; intros [=]; auto.
Qed.

Lemma line_scan_error buf a p x q l x' rc :
  scan (step buf) a p x = Ok (q, Some l, x') -> l = Return rc -> is_error rc.
Proof.
  intros H. refine (scan_leave _ (fun l => l = Return rc -> is_error rc) _ _ _ _ _ _ _ H).
  intros ? ? [s0 r1] ? ? Hs ->. by eapply line_step_return.
Qed.

(** What the parser does with the end of its loop. *)
Definition finish (pos : Z) (x : Z * option exit * (sw * request)) : out (Z * Z * request) :=
  let '(p, l, (st, r)) := x in
  match l with
  | None => Ok (NGX_AGAIN, p, r <| state := sw_no st |>)
  | Some (Return rc) => Ok (rc, pos, r)
  | Some _ => Ok (at_done p r)
  end.

Lemma line_finish_retag pos pos' x n :
  (forall rc, x.1.2 = Some (Return rc) -> is_error rc) ->
  agree (finish pos x) (finish pos' (x.1, (x.2.1, x.2.2 <| state := n |>))).
Proof.
  destruct x as [[p l] [st r]]. cbn [fst snd finish]. intros Hl.
  assert (forall l', l' <> NGX_OK -> l' <> NGX_AGAIN ->
    agree (Ok (l', pos, r)) (Ok (l', pos', r <| state := n |>))) as Herr by (cbn; tauto).
  assert (agree (Ok (at_done p r)) (Ok (at_done p (r <| state := n |>)))) as Hd.
  { unfold at_done. cbn. destruct (request_end r); cbn; destruct (_ && _); cbn; auto. }
  destruct l as [[]|]; try exact Hd; [|by cbn].
  pose proof (Hl _ eq_refl) as [H1 H2]. by apply Herr.
Qed.

Lemma request_line_resumes buf more pos r p r' :
  0 <= pos <= blen buf ->
  ngx_http_parse_request_line buf pos r = Ok (NGX_AGAIN, p, r') ->
  p = blen buf /\
  agree (ngx_http_parse_request_line (buf ++ more) pos r) (ngx_http_parse_request_line (buf ++ more) p r').
Proof.
  intros Hpos. unfold ngx_http_parse_request_line. intros (st & -> & H)%obind_Ok_inv. cbn [obind].
  apply obind_Ok_inv in H as ([[q l] [st' r0]] & Hscan & H).
  assert (l = None) as ->.
  { destruct l as [l|]; [|done]. exfalso.
    pose proof (fun rc => line_scan_error _ _ _ _ _ _ _ rc Hscan) as He.
    destruct l; try (unfold at_done in H; cbn in H; destruct (_ && _) in H; discriminate).
    destruct (He _ eq_refl) as [_ Hn]. by injection H as ? _ _. }
  apply Ok3_inj in H as (_ & <- & <-).
  destruct (scan_resume step buf more pos (st, r) q (st', r0) ltac:(intros; by apply line_step_app) Hpos Hscan) as [-> ->].
  split; [done|]. 
  assert (load (state (r0 <| state := sw_no st' |>)) = Ok st') as -> by apply load_no. cbn [obind].
  pose proof (scan_retag (step (buf ++ more)) (retag (sw_no st'))
    (drop (Z.to_nat (blen buf)) (buf ++ more)) (blen buf) (st', r0)
    ltac:(intros ? ? ?; apply line_step_retag)) as Hr.
  unfold retag in Hr. cbn [fst snd] in Hr. rewrite Hr.
  destruct (scan (step (buf ++ more)) _ _ (st', r0)) as [[[p' l'] [s1 r1]]| |] eqn:E; cbn [obind omap]; [|done..].
  apply (line_finish_retag pos _ (p', l', (s1, r1)) (sw_no st')). cbn [fst snd]. intros rc ->.
  by apply (line_scan_error _ _ _ _ _ _ _ rc E).
Qed.
End Line.

(** * Correctness of the header line and status line parsers *)
From S2P Require Import Prelude.
From S2P Require Import NgxHttpParse NgxRequestLine NgxHeaderLine.

Module Header.
Import HeaderLine.

Lemma header_step_app allow buf more p ch x v : step allow buf p ch x = Ok v -> step allow (buf ++ more) p ch x = Ok v.
Proof.
  destruct x as [s h k r]. destruct s; cbn [step st];
    lazymatch goal with |- context [on_name] => idtac | _ => exact (fun H => H) end.
  unfold on_name. cbn zeta. tests; try exact (fun H => H);
    intros (d & Hd & H)%obind_Ok_inv; (assert (duplicate_status_line (buf ++ more) p ch r = Ok d) as Hd');
    try (revert Hd; unfold duplicate_status_line; cbn [req]; tests; try exact (fun H => H);
         destruct (header_name_start r); [tests|]; try exact (fun H => H); apply Line.str_cmp_app);
    cbn [req]; rewrite Hd'; cbn [obind]; exact H.
Qed.

(** The steps use the local variables, not the stored ones. *)
Definition retag (n h k : Z) (x : locals) : locals :=
  x <| req := (req x) <| state := n |> <| header_hash := h |> <| lowcase_index := k |> |>.

Lemma header_step_retag allow buf n h k p ch x :
  step allow buf p ch (retag n h k x) = omap (vmap (retag n h k)) (step allow buf p ch x).
Proof.
  destruct x as [s h0 k0 r]. unfold retag. destruct s; cbn [step st update];
    try (unfold on_start, on_space_before_value, on_value, on_space_after_value, on_ignore_line, on_almost_done,
      on_header_almost_done, bad_header; cbn; tests; reflexivity).
  unfold on_name, add_name_char, duplicate_status_line, bad_header. cbn -[Z.land nth ngx_hash RequestLine.ngx_str_cmp Z.sub].
  tests; try reflexivity; destruct (header_name_start r); try reflexivity; tests; try reflexivity;
    destruct (RequestLine.ngx_str_cmp _ _ _) as [[]| |]; reflexivity.
Qed.

Lemma header_step_return allow buf p ch x rc x' :
  step allow buf p ch x = Ok (Leave (Return rc) x') -> rc = NGX_HTTP_PARSE_INVALID_HEADER.
Proof.
  destruct x as [s h0 k0 r]. destruct s; cbn [step st].
  2: { unfold on_name, add_name_char, bad_header. cbn zeta. tests; cbn [obind];
       try (intros [=]; auto; fail);
       intros (d & _ & H)%obind_Ok_inv; revert H; tests; intros [=]; auto. }
  all: unfold on_start, on_space_before_value, on_value, on_space_after_value, on_ignore_line, on_almost_done,
      on_header_almost_done, bad_header; cbn zeta; tests; intros [=]; auto.
Qed.

Lemma header_scan_error allow buf a p x q l x' rc :
  scan (step allow buf) a p x = Ok (q, Some l, x') -> l = Return rc -> rc = NGX_HTTP_PARSE_INVALID_HEADER.
Proof.
  intros H. refine (scan_leave _ (fun l => l = Return rc -> _) _ _ _ _ _ _ _ H).
  intros ? ? ? ? ? Hs ->. by eapply header_step_return.
Qed.

(** What the parser does with the end of its loop. *)
Definition finish (pos : Z) (y : Z * option exit * locals) : out (Z * Z * request) :=
  let '(p, l, x) := y in
  match l with
  | None => Ok (NGX_AGAIN, p, store (st x) x)
  | Some (Return rc) => Ok (rc, pos, req x)
  | Some header_done => Ok (NGX_HTTP_PARSE_HEADER_DONE, p + 1, (req x) <| state := sw_no sw_start |>)
  | Some _ => Ok (NGX_OK, p + 1, store sw_start x)
  end.

Lemma header_finish_retag pos pos' x n h k :
  (forall rc, x.1.2 = Some (Return rc) -> rc = NGX_HTTP_PARSE_INVALID_HEADER) ->
  agree (finish pos x) (finish pos' (x.1, retag n h k x.2)).
Proof.
  destruct x as [[p l] y]. cbn [fst snd finish]. intros Hl.
  destruct l as [[]|]; cbn; try by intuition (discriminate || auto).
  split; [done|]. rewrite (Hl _ eq_refl). by intros [|].
Qed.

Lemma header_line_resumes allow buf more pos r p r' :
  0 <= pos <= blen buf ->
  ngx_http_parse_header_line allow buf pos r = Ok (NGX_AGAIN, p, r') ->
  p = blen buf /\
  agree (ngx_http_parse_header_line allow (buf ++ more) pos r)
        (ngx_http_parse_header_line allow (buf ++ more) p r').
Proof.
  intros Hpos. unfold ngx_http_parse_header_line. intros (s & -> & H)%obind_Ok_inv. cbn [obind].
  apply obind_Ok_inv in H as ([[q l] x] & Hscan & H).
  assert (l = None) as ->.
  { destruct l as [l|]; [|done]. exfalso.
    pose proof (fun rc => header_scan_error _ _ _ _ _ _ _ _ rc Hscan) as He.
    destruct l; try discriminate. rewrite (He _ eq_refl) in H. discriminate. }
  apply Ok3_inj in H as (_ & <- & <-).
  destruct (scan_resume (step allow) buf more pos _ q x ltac:(intros; by apply header_step_app) Hpos Hscan) as [-> ->].
  split; [done|]. assert (load (state (store (st x) x)) = Ok (st x)) as -> by apply load_no. cbn [obind].
  pose proof (scan_retag (step allow (buf ++ more)) (retag (sw_no (st x)) (hash x) (i x))
    (drop (Z.to_nat (blen buf)) (buf ++ more)) (blen buf) x ltac:(intros ? ? ?; apply header_step_retag)) as Hr.
  change (mk_locals (st x) (header_hash (store (st x) x)) (lowcase_index (store (st x) x)) (store (st x) x))
    with (retag (sw_no (st x)) (hash x) (i x) x). rewrite Hr.
  destruct (scan (step allow (buf ++ more)) _ _ x) as [[[p' l'] y]| |] eqn:E; cbn [obind omap]; [|done..].
  apply (header_finish_retag pos _ (p', l', y)). cbn [fst snd]. intros rc ->. by apply (header_scan_error _ _ _ _ _ _ _ _ rc E).
Qed.
End Header.

Module Status.
Import StatusLine.

Definition retag (n : Z) (x : locals) : locals := x <| req := (req x) <| state := n |> |>.

Ltac unfold_steps :=
  unfold step, expect, on_first_major_digit, on_major_digit, on_first_minor_digit, on_minor_digit, on_status,
    on_space_after_status, on_status_text, on_almost_done, go, fail.

Lemma status_step_retag n p ch x : step p ch (retag n x) = omap (vmap (retag n)) (step p ch x).
Proof.
  destruct x as [s r t]. unfold retag. unfold_steps. destruct s; cbn -[Z.sub Z.add Z.mul uwrap u64]; tests; reflexivity.
Qed.

Lemma status_step_return p ch x rc x' : step p ch x = Ok (Leave (Return rc) x') -> rc = NGX_ERROR.
Proof. destruct x as [s r t]. unfold_steps. destruct s; cbn zeta; cbn [st]; tests; intros [=]; auto. Qed.

Lemma status_scan_error a p x q l x' rc :
  scan step a p x = Ok (q, Some l, x') -> l = Return rc -> rc = NGX_ERROR.
Proof.
  intros H. refine (scan_leave _ (fun l => l = Return rc -> _) _ _ _ _ _ _ _ H).
  intros ? ? ? ? ? Hs ->. by eapply status_step_return.
Qed.

Definition finish (pos : Z) (y : Z * option exit * locals) : out (Z * Z * (request * status)) :=
  let '(p, l, x) := y in
  match l with
  | None => Ok (NGX_AGAIN, p, ((req x) <| state := sw_no (st x) |>, stat x))
  | Some (Return rc) => Ok (rc, pos, (req x, stat x))
  | Some _ =>
      let s := stat x in
      let s := match end_ s with None => s <| end_ := Some p |> | Some _ => s end in
      let s := s <| version := http_major (req x) * 1000 + http_minor (req x) |> in
      Ok (NGX_OK, p + 1, ((req x) <| state := sw_no sw_start |>, s))
  end.

Lemma status_finish_retag pos pos' x n :
  (forall rc, x.1.2 = Some (Return rc) -> rc = NGX_ERROR) ->
  agree (finish pos x) (finish pos' (x.1, retag n x.2)).
Proof.
  destruct x as [[p l] y]. cbn [fst snd finish]. intros Hl.
  destruct l as [[]|]; cbn; auto.
  split; [done|]. rewrite (Hl _ eq_refl). by intros [|].
Qed.

Lemma status_line_resumes buf more pos r s p r' s' :
  0 <= pos <= blen buf ->
  ngx_http_parse_status_line buf pos r s = Ok (NGX_AGAIN, p, (r', s')) ->
  p = blen buf /\
  agree (ngx_http_parse_status_line (buf ++ more) pos r s) (ngx_http_parse_status_line (buf ++ more) p r' s').
Proof.
  intros Hpos. unfold ngx_http_parse_status_line. intros (s0 & -> & H)%obind_Ok_inv. cbn [obind].
  apply obind_Ok_inv in H as ([[q l] x] & Hscan & H).
  assert (l = None) as ->.
  { destruct l as [l|]; [|done]. exfalso.
    pose proof (fun rc => status_scan_error _ _ _ _ _ _ rc Hscan) as He.
    destruct l; try discriminate. rewrite (He _ eq_refl) in H. discriminate. }
  apply Ok3_inj in H as (_ & <- & [<- <-]%pair_equal_spec).
  destruct (scan_resume (fun _ => step) buf more pos _ q x ltac:(done) Hpos Hscan) as [-> ->].
  split; [done|].
  assert (load (state ((req x) <| state := sw_no (st x) |>)) = Ok (st x)) as -> by apply load_no. cbn [obind].
  pose proof (scan_retag step (retag (sw_no (st x)))
    (drop (Z.to_nat (blen buf)) (buf ++ more)) (blen buf) x ltac:(intros ? ? ?; apply status_step_retag)) as Hr.
  change (mk_locals (st x) ((req x) <| state := sw_no (st x) |>) (stat x)) with (retag (sw_no (st x)) x). rewrite Hr.
  destruct (scan step _ _ x) as [[[p' l'] y]| |] eqn:E; cbn [obind omap]; [|done..].
  apply (status_finish_retag pos _ (p', l', y)). cbn [fst snd]. intros rc ->. by apply (status_scan_error _ _ _ _ _ _ rc E).
Qed.
End Status.
