(* ===== verification/NgxRequestLineInv.v ===== *)
(** * The pointers of a request line

    A state-indexed invariant of [ngx_http_parse_request_line]: which pointers of
    the request are set in each state, and their order.  It holds of a new
    request, every character keeps it, more bytes keep it, and it gives the
    order of the pointers of a parsed line. *)
From S2P Require Import Prelude.
From S2P Require Import NgxHttpParse NgxRequestLine NgxRequestLineProps.
Import RequestLine.

Section Inv.
Context (buf : bytes).

Definition at_ (i : Z) : option Z := buf !! Z.to_nat i.

(** The URI starts with a slash; [r->args_start] is after a ['?'] of the URI; [r->uri_ext] is before it. *)
Definition strings (r : request) (u p : Z) : Prop :=
  at_ u = Some 47 /\
  (forall a, args_start r = Some a -> u < a <= p /\ at_ (a - 1) = Some 63) /\
  (forall e, uri_ext r = Some e -> u < e <= p /\ forall a, args_start r = Some a -> e <= a - 1).

Definition blank (r : request) : Prop := args_start r = None /\ uri_ext r = None /\ request_end r = None.

Definition with_start (r : request) (p : Z) : Prop := exists m, request_start r = Some m /\ 0 <= m < p.

Definition with_method (r : request) (p : Z) : Prop :=
  exists m me, request_start r = Some m /\ method_end r = Some me /\ 0 <= m <= me /\ me < p.

Definition with_schema (k : Z) (r : request) (p : Z) : Prop :=
  exists m me s, request_start r = Some m /\ method_end r = Some me /\ schema_end r = Some s /\
    0 <= m <= me /\ me < s /\ s + k <= p /\ (2 <= k -> at_ (s + 1) = Some 47) /\
    (k = 1 -> p = s + 1).

Definition with_uri (r : request) (p : Z) : Prop :=
  request_end r = None /\
  exists m me u, request_start r = Some m /\ method_end r = Some me /\ uri_start r = Some u /\
    0 <= m <= me /\ me < u < p /\ strings r u p.

Definition with_end (r : request) (p : Z) : Prop :=
  request_end r = None /\
  exists m me u e, request_start r = Some m /\ method_end r = Some me /\ uri_start r = Some u /\ uri_end r = Some e /\
    0 <= m <= me /\ me < u < e /\ e < p /\ strings r u e.

(** No arguments so far. *)
Definition fresh (r : request) : Prop := args_start r = None.

Definition inv (st : sw) (p : Z) (r : request) : Prop :=
  match st with
  | sw_start => blank r
  | sw_method => blank r /\ with_start r p
  | sw_spaces_before_uri | sw_schema => blank r /\ with_method r p
  | sw_schema_slash => blank r /\ with_schema 1 r p
  | sw_schema_slash_slash => blank r /\ with_schema 2 r p
  | sw_host_start | sw_host | sw_host_end | sw_host_ip_literal | sw_port => blank r /\ with_schema 3 r p
  | sw_after_slash_in_uri | sw_check_uri => with_uri r p /\ fresh r
  | sw_uri => with_uri r p
  | sw_check_uri_http_09 => with_end r p /\ fresh r
  | _ => with_end r p
  end.

(** A complete line, the line feed at [p]. *)
Definition complete (r : request) (p : Z) : Prop :=
  exists m me u e, request_start r = Some m /\ method_end r = Some me /\ uri_start r = Some u /\ uri_end r = Some e /\
    0 <= m <= me /\ me < u < e /\ e <= p /\ strings r u e /\
    (forall re, request_end r = Some re -> e <= re <= p).

Definition kept (v : verdict (sw * request)) (p : Z) : Prop :=
  match v with
  | Next (st, r) => inv st (p + 1) r
  | Leave done (_, r) => complete r p
  | Leave (Return rc) _ => rc = NGX_HTTP_PARSE_INVALID_METHOD \/ rc = NGX_HTTP_PARSE_INVALID_REQUEST
  | Leave _ _ => False
  end.

Lemma strings_le r u p q : p <= q -> strings r u p -> strings r u q.
Proof. intros H (Hs & Ha & He). split; [done|]. split; intros x Hx; [specialize (Ha _ Hx)|specialize (He _ Hx)]; intuition lia. Qed.

Lemma strings_blank r u p : at_ u = Some 47 -> blank r -> strings r u p.
Proof. intros Hu (Ha & He & _). split; [done|]. split; intros x Hx; congruence. Qed.

Lemma begin_uri r p :
  blank r -> with_method r p -> at_ p = Some 47 ->
  inv sw_after_slash_in_uri (p + 1) (r <| uri_start := Some p |>).
Proof.
  intros Hb (m & me & Hm & Hme & ? & ?) Hs. split.
  - split; [apply Hb|]. exists m, me, p. cbn. repeat split; try (done || lia);
      destruct Hb as (Ha & He & _); cbn in *; congruence.
  - apply Hb.
Qed.

Lemma with_schema_method k r p : 0 <= k -> with_schema k r p -> with_method r p.
Proof. intros ? (m & me & s & ? & ? & ? & ? & ? & ? & ? & ?). exists m, me. repeat split; try done; lia. Qed.

Lemma end_host r p : blank r -> with_schema 3 r p -> inv sw_host_http_09 (p + 1) (slash_of_schema r).
Proof.
  intros Hb (m & me & s & Hm & Hme & Hs & ? & ? & ? & Hsl & _). unfold slash_of_schema. cbn. split; [apply Hb|].
  rewrite Hs. exists m, me, (1 + s), (2 + s). cbn. split_and!; try (done || lia).
  apply strings_blank; [|done]. rewrite Z.add_comm. apply Hsl. lia.
Qed.

Section Step.
Context (p ch : Z) (Hp : 0 <= p) (Hch : at_ p = Some ch).

(** Opens the invariant, then closes the goals of the branches of a step. *)
Ltac open_inv :=
  repeat match goal with
  | H : _ /\ _ |- _ => destruct H
  | H : blank _ |- _ => unfold blank in H
  | H : with_start _ _ |- _ => destruct H as (m & ? & ?)
  | H : with_method _ _ |- _ => destruct H as (m & me & ? & ? & ? & ?)
  | H : with_schema _ _ _ |- _ => destruct H as (m & me & s & ? & ? & ? & ? & ? & ? & ? & ?)
  end.
Ltac close_inv :=
  cbn; unfold blank, with_start, with_method, with_schema; cbn;
  repeat match goal with
  | |- _ /\ _ => split
  | |- exists _, _ => eexists
  end; try eassumption; try reflexivity; try lia.

Lemma start_kept r : inv sw_start p r -> kept (on_start p ch r) p.
Proof. intros H. unfold on_start. cbn zeta. tests; cbn in *; auto. split; [done|]. exists p. cbn. split; [done|lia]. Qed.

Lemma spaces_before_uri_kept r : inv sw_spaces_before_uri p r -> kept (on_spaces_before_uri p ch r) p.
Proof.
  intros [Hb Hm]. unfold on_spaces_before_uri. destruct (Z.eqb_spec ch 47) as [->|_]; [by apply begin_uri|].
  tests; cbn -[inv]; auto; open_inv; close_inv.
Qed.

Lemma schema_kept r : inv sw_schema p r -> kept (on_schema p ch r) p.
Proof. intros H. unfold on_schema. cbn in H. tests; cbn -[inv]; auto; open_inv; close_inv. Qed.

Lemma host_end_kept here r (Hh : here = sw_host_end \/ here = sw_host) :
  blank r -> with_schema 3 r p -> kept (on_host_end here p ch r) p.
Proof.
  intros Hb Hs. unfold on_host_end. cbn zeta. destruct (Z.eqb_spec ch 58) as [->|_]; [open_inv; close_inv|].
  destruct (Z.eqb_spec ch 47) as [->|_].
  { apply (begin_uri (r <| host_end := Some p |>)); [done|by apply (with_schema_method 3)|done]. }
  destruct (Z.eqb_spec ch 32) as [->|_]; [|cbn; auto]. by apply (end_host (r <| host_end := Some p |>)).
Qed.

Lemma host_kept r : blank r -> with_schema 3 r p -> kept (on_host p ch r) p.
Proof.
  intros Hb Hs. unfold on_host. destruct (is_alpha ch), (is_num ch || (ch =? 46) || (ch =? 45));
    [open_inv; close_inv..|]. apply host_end_kept; auto.
Qed.

Lemma port_kept r : blank r -> with_schema 3 r p -> kept (on_port p ch r) p.
Proof.
  intros Hb Hs. unfold on_port. destruct (is_num ch); [open_inv; close_inv|].
  destruct (Z.eqb_spec ch 47) as [->|_].
  { apply (begin_uri (r <| port_end := Some p |>)); [done|by apply (with_schema_method 3)|done]. }
  destruct (Z.eqb_spec ch 32) as [->|_]; [|cbn; auto]. by apply (end_host (r <| port_end := Some p |>)).
Qed.

Lemma ip_literal_kept r : blank r -> with_schema 3 r p -> kept (on_host_ip_literal p ch r) p.
Proof. intros Hb Hs. unfold on_host_ip_literal. tests; cbn -[inv]; auto; open_inv; close_inv. Qed.


Lemma host_start_kept r : blank r -> with_schema 3 r p -> kept (on_host_start p ch r) p.
Proof.
  intros Hb Hs. unfold on_host_start. cbn zeta.
  destruct (ch =? 91); [open_inv; close_inv|]. by apply (host_kept (r <| host_start := Some p |>)).
Qed.

(** *** In the URI *)

Lemma uri_next r : with_uri r p -> with_uri r (p + 1).
Proof.
  intros (Hr & m & me & u & ? & ? & ? & ? & ? & Hs). split; [done|]. exists m, me, u.
  split_and!; try (done || lia). apply (strings_le _ _ p); [lia|done].
Qed.

Lemma uri_end_done r : with_uri r p -> complete (r <| uri_end := Some p |>) p.
Proof.
  intros (Hr & m & me & u & ? & ? & ? & ? & ? & Hs). exists m, me, u, p.
  cbn. split_and!; try (done || lia). congruence.
Qed.

Lemma uri_end_next r : with_uri r p -> with_end (r <| uri_end := Some p |>) (p + 1).
Proof.
  intros (Hr & m & me & u & ? & ? & ? & ? & ? & Hs). split; [done|]. exists m, me, u, p.
  cbn. split_and!; try (done || lia).
Qed.

Lemma strings_args r u :
  strings r u p -> u < p -> ch = 63 -> strings (r <| args_start := Some (p + 1) |>) u (p + 1).
Proof.
  intros (Hs & _ & He) Hu ->. split; [done|]. split; cbn.
  - intros a [= <-]. replace (p + 1 - 1) with p by lia. split_and!; (done || lia).
  - intros e E. destruct (He e E). split; [lia|]. intros a [= <-]. lia.
Qed.

Lemma args_next r : with_uri r p -> fresh r -> ch = 63 -> with_uri (r <| args_start := Some (p + 1) |>) (p + 1).
Proof.
  intros (Hr & m & me & u & ? & ? & Hu & ? & ? & Hs) Hna Hc. split; [done|]. exists m, me, u.
  cbn. split_and!; try (done || lia). apply strings_args; auto; lia.
Qed.

Lemma ext_next r : with_uri r p -> fresh r -> with_uri (r <| uri_ext := Some (p + 1) |>) (p + 1).
Proof.
  intros (Hr & m & me & u & ? & ? & Hu & ? & ? & Hs) Hna. split; [done|]. exists m, me, u.
  cbn. split_and!; try (done || lia). destruct Hs as (Hsl & _ & _). split; [done|]. split; cbn; [intros; congruence|].
  intros e [= <-]. split; [lia|]. intros; congruence.
Qed.

Lemma no_ext_next r : with_uri r p -> with_uri (r <| uri_ext := None |>) (p + 1).
Proof.
  intros H%uri_next. destruct H as (Hr & m & me & u & ? & ? & Hu & ? & ? & (Hs & Ha & He)). split; [done|]. exists m, me, u.
  cbn. split_and!; try (done || lia).
Qed.

Lemma uri_flags r r' q :
  with_uri r q -> args_start r' = args_start r -> uri_ext r' = uri_ext r -> request_end r' = request_end r ->
  request_start r' = request_start r -> method_end r' = method_end r -> uri_start r' = uri_start r -> with_uri r' q.
Proof. unfold with_uri, strings. by intros H -> -> -> -> -> ->. Qed.

(** A character that stays in the path. *)
Lemma path_kept s r r' :
  s = sw_after_slash_in_uri \/ s = sw_check_uri -> with_uri r p -> fresh r ->
  args_start r' = args_start r -> uri_ext r' = uri_ext r -> request_end r' = request_end r ->
  request_start r' = request_start r -> method_end r' = method_end r -> uri_start r' = uri_start r ->
  kept (Next (s, r')) p.
Proof.
  intros Hs Hu Hf E1 E2 E3 E4 E5 E6.
  assert (with_uri r' (p + 1) /\ fresh r') as H.
  { split; [by apply (uri_flags r); [apply uri_next|..]|unfold fresh; congruence]. }
  by destruct Hs as [-> | ->].
Qed.

Lemma to_uri_kept r r' :
  with_uri r p ->
  args_start r' = args_start r -> uri_ext r' = uri_ext r -> request_end r' = request_end r ->
  request_start r' = request_start r -> method_end r' = method_end r -> uri_start r' = uri_start r ->
  kept (Next (sw_uri, r')) p.
Proof. intros Hu E1 E2 E3 E4 E5 E6. cbn. by apply (uri_flags r); [apply uri_next|..]. Qed.

Lemma end_flags r r' q :
  with_end r q -> args_start r' = args_start r -> uri_ext r' = uri_ext r -> request_end r' = request_end r ->
  request_start r' = request_start r -> method_end r' = method_end r -> uri_start r' = uri_start r ->
  uri_end r' = uri_end r -> with_end r' q.
Proof. unfold with_end, strings. by intros H -> -> -> -> -> -> ->. Qed.

Lemma complete_flags r r' q :
  complete r q -> args_start r' = args_start r -> uri_ext r' = uri_ext r -> request_end r' = request_end r ->
  request_start r' = request_start r -> method_end r' = method_end r -> uri_start r' = uri_start r ->
  uri_end r' = uri_end r -> complete r' q.
Proof. unfold complete, strings. by intros H -> -> -> -> -> -> ->. Qed.

Lemma end_next r : with_end r p -> with_end r (p + 1).
Proof.
  intros (Hr & m & me & u & e & ? & ? & ? & ? & ? & ? & ? & Hs). split; [done|]. exists m, me, u, e.
  split_and!; (done || lia).
Qed.

Lemma end_done r : with_end r p -> complete r p.
Proof.
  intros (Hr & m & me & u & e & ? & ? & ? & ? & ? & ? & ? & Hs). exists m, me, u, e.
  split_and!; try (done || lia). congruence.
Qed.

Ltac case_ch := match goal with |- context [ch =? ?k] => destruct (Z.eqb_spec ch k) as [Hk|?] end.

Lemma after_slash_kept r : inv sw_after_slash_in_uri p r -> kept (on_after_slash_in_uri p ch r) p.
Proof.
  intros [Hu Hf]. unfold on_after_slash_in_uri. destruct (is_usual ch) eqn:Hus.
  { by apply (path_kept _ r); auto. }
  do 3 (case_ch; [first [by apply uri_end_next|by apply (uri_end_done r)|
    by split; [by apply uri_end_next|done]]|]).
  do 3 (case_ch; [by apply (to_uri_kept r)|]).
  case_ch; [by apply args_next|]. case_ch; [by apply (to_uri_kept r)|].
  case_ch; [apply (path_kept _ r); auto; lia|]. case_ch; [cbn; auto|].
  apply (path_kept _ r); auto.
Qed.

Lemma check_uri_kept r : inv sw_check_uri p r -> kept (on_check_uri p ch r) p.
Proof.
  intros [Hu Hf]. unfold on_check_uri. destruct (is_usual ch) eqn:Hus.
  { by apply (path_kept _ r); auto. }
  case_ch; [by split; [apply no_ext_next|done]|].
  case_ch; [by split; [apply ext_next|done]|].
  do 3 (case_ch; [first [by apply uri_end_next|by apply (uri_end_done r)|
    by split; [by apply uri_end_next|done]]|]).
  case_ch; [by apply (to_uri_kept r)|]. case_ch; [by apply args_next|].
  case_ch; [by apply (to_uri_kept r)|]. case_ch; [apply (path_kept _ r); auto; lia|].
  case_ch; [cbn; auto|]. apply (path_kept _ r); auto.
Qed.

Lemma uri_kept r : with_uri r p -> kept (on_uri p ch r) p.
Proof.
  intros Hu. unfold on_uri. destruct (is_usual ch); [by apply (to_uri_kept r)|].
  do 3 (case_ch; [first [by apply uri_end_next|by apply (uri_end_done r)]|]).
  case_ch; [by apply (to_uri_kept r)|]. case_ch; [cbn; auto|]. by apply (to_uri_kept r).
Qed.

(** *** After the URI *)

(** The states after the URI: any state whose invariant is [with_end]. *)
Definition after_uri (s : sw) : Prop := forall q r, with_end r q -> inv s q r.

Lemma end_kept s r r' :
  after_uri s -> with_end r p -> args_start r' = args_start r -> uri_ext r' = uri_ext r ->
  request_end r' = request_end r -> request_start r' = request_start r -> method_end r' = method_end r ->
  uri_start r' = uri_start r -> uri_end r' = uri_end r -> kept (Next (s, r')) p.
Proof. intros Hs H E1 E2 E3 E4 E5 E6 E7. apply Hs. by apply (end_flags r); [apply end_next|..]. Qed.

Lemma end_done_kept s r r' :
  with_end r p -> args_start r' = args_start r -> uri_ext r' = uri_ext r ->
  request_end r' = request_end r -> request_start r' = request_start r -> method_end r' = method_end r ->
  uri_start r' = uri_start r -> uri_end r' = uri_end r -> kept (Leave done (s, r')) p.
Proof. intros H E1 E2 E3 E4 E5 E6 E7. by apply (complete_flags r); [apply end_done|..]. Qed.

Lemma back_to_uri r r' :
  with_end r p -> args_start r' = args_start r -> uri_ext r' = uri_ext r ->
  request_end r' = request_end r -> request_start r' = request_start r -> method_end r' = method_end r ->
  uri_start r' = uri_start r -> with_uri r' (p + 1).
Proof.
  intros (Hr & m & me & u & e & ? & ? & ? & ? & ? & ? & ? & Hs) E1 E2 E3 E4 E5 E6. split; [congruence|].
  exists m, me, u. split_and!; try (congruence || lia). unfold strings. rewrite E1, E2.
  apply (strings_le _ _ e); [lia|done].
Qed.

Ltac after :=
  match goal with H : with_end ?r p |- _ =>
    first [ apply (end_done_kept _ r); done
          | apply (end_kept _ r); [intros ? ? ?; assumption|done..]
          | cbn; auto; fail ] end.

Lemma uri_http_09_kept r : with_end r p -> kept (on_uri_http_09 sw_http_09 sw_uri p ch r) p.
Proof.
  intros H. unfold on_uri_http_09. do 4 (case_ch; [after|]). by apply (back_to_uri r).
Qed.

Lemma check_uri_http_09_kept r :
  inv sw_check_uri_http_09 p r -> kept (on_uri_http_09 sw_check_uri_http_09 sw_check_uri p ch r) p.
Proof.
  intros [H Hf]. unfold on_uri_http_09.
  case_ch; [split; [by apply end_next|done]|]. do 3 (case_ch; [after|]). split; [by apply (back_to_uri r)|done].
Qed.

Lemma almost_done_kept r : with_end r p -> kept (on_almost_done p ch r) p.
Proof.
  intros H. unfold on_almost_done. cbn zeta. case_ch; [|cbn; auto].
  destruct H as (Hr & m & me & u & e & ? & ? & ? & ? & ? & ? & ? & Hs). exists m, me, u, e.
  cbn. split_and!; try (done || lia). intros re [= <-]. lia.
Qed.

Lemma host_http_09_kept r : with_end r p -> kept (on_host_http_09 p ch r) p.
Proof. intros H. unfold on_host_http_09. do 4 (case_ch; [after|]). cbn; auto. Qed.

Lemma expect_kept c next here r : after_uri next -> with_end r p -> kept (expect c next here ch r) p.
Proof. intros Hn H. unfold expect. case_ch; [by apply Hn, end_next|cbn; auto]. Qed.

Lemma expect_schema_kept k next here r :
  1 <= k <= 2 -> (forall q r, blank r /\ with_schema (k + 1) r q -> inv next q r) ->
  blank r -> with_schema k r p -> kept (expect 47 next here ch r) p.
Proof.
  intros Hk12 Hn Hb (m & me & s & ? & ? & ? & ? & ? & ? & Hs2 & Hs1). unfold expect. case_ch; [|cbn; auto].
  apply Hn. split; [done|]. exists m, me, s. split_and!; try (done || lia). intros _.
  destruct (decide (k = 1)) as [E|]; [|apply Hs2; lia]. rewrite <- (Hs1 E). congruence.
Qed.

Lemma version_kept r :
  with_end r p ->
  kept (on_first_major_digit ch r) p /\ kept (on_major_digit ch r) p /\ kept (on_first_minor_digit ch r) p /\
  kept (on_minor_digit ch r) p /\ kept (on_spaces_after_digit ch r) p.
Proof.
  intros H. unfold on_first_major_digit, on_major_digit, on_first_minor_digit, on_minor_digit, on_spaces_after_digit.
  split_and!; repeat match goal with |- context [if ?b then _ else _] => destruct b end; after.
Qed.

End Step.

(** *** The method *)

Lemma str_cmp_defined (m : Z) lit (n : Z) :
  0 <= m -> m + blen lit <= n -> n <= blen buf -> exists b, ngx_str_cmp buf m lit = Ok b.
Proof.
  unfold blen. revert m. induction lit as [|c lit IH]; intros m Hm Hl Hn; [by exists true|]. cbn [ngx_str_cmp].
  simpl in Hl. destruct (peek_in buf m) as (d & _ & ->); [unfold blen; lia|]. cbn [obind].
  destruct (d =? c); [apply IH; lia|by exists false].
Qed.

Lemma str3Ocmp_defined (m : Z) lit :
  0 <= m -> m + blen lit <= blen buf -> exists b, ngx_str3Ocmp buf m lit = Ok b.
Proof.
  intros Hm Hl. destruct lit as [|c0 [|c1 lit]]; [by exists false..|]. cbn [ngx_str3Ocmp].
  unfold blen in Hl. simpl in Hl.
  destruct (peek_in buf m) as (d & _ & ->); [unfold blen; lia|]. cbn [obind].
  destruct (d =? c0); [|by exists false]. apply (str_cmp_defined _ _ (blen buf)); unfold blen; lia.
Qed.

Lemma select_method_defined cmp group old :
  Forall (fun g => exists b, cmp (g.1) = Ok b) group -> exists v, select_method cmp group old = Ok v.
Proof.
  induction 1 as [|[lit m] group [b Hb] _ IH]; cbn [select_method]; [by exists old|].
  cbn [fst] in Hb. rewrite Hb. cbn [obind]. destruct b; [by exists m|done].
Qed.

(** The literals of a group, one by one. *)
Ltac group := repeat (apply Forall_cons; split); try apply List.Forall_nil.

Lemma switch_method_defined (m n : Z) old :
  0 <= m -> m + n <= blen buf -> exists v, switch_method buf m n old = Ok v.
Proof.
  intros Hm Hn. unfold switch_method.
  assert (forall group, Forall (fun g : bytes * Z => blen (g.1) <= n) group ->
    exists v, select_method (ngx_str_cmp buf m) group old = Ok v) as Hcmp.
  { intros group Hg. apply select_method_defined. eapply Forall_impl; [done|]. intros [lit v] Hl.
    apply (str_cmp_defined _ _ (m + n)); cbn in *; lia. }
  zcase; subst; try (apply Hcmp; group; unfold blen; cbn; lia); [|by exists old].
  destruct (peek_in buf (m + 1)) as (d & _ & ->); [lia|]. cbn [obind].
  destruct (d =? 79); [|apply Hcmp; group; unfold blen; cbn; lia].
  apply select_method_defined. group; apply str3Ocmp_defined; unfold blen in *; cbn; lia.
Qed.

Lemma method_kept p ch r :
  at_ p = Some ch -> 0 <= p < blen buf -> inv sw_method p r ->
  exists v, on_method buf p ch r = Ok v /\ kept v p.
Proof.
  intros Hch Hp [Hb (m & Hm & ? & ?)]. unfold on_method. destruct (ch =? 32).
  - cbn [request_start]. change (request_start (r <| method_end := Some (p - 1) |>)) with (request_start r).
    cbn zeta. rewrite Hm.
    destruct (switch_method_defined m (p - m) (method (r <| method_end := Some (p - 1) |>))) as [v Hv]; [lia..|].
    cbn in Hv |- *. rewrite Hv. cbn. eexists. split; [done|]. split; [done|]. exists m, (p - 1). cbn.
    split_and!; (done || lia).
  - destruct (no_method_char ch); eexists; (split; [done|]); cbn; auto. split; [done|]. exists m. split; [done|lia].
Qed.

Lemma step_kept p ch st r :
  at_ p = Some ch -> 0 <= p < blen buf -> inv st p r -> exists v, step buf p ch (st, r) = Ok v /\ kept v p.
Proof.
  intros Hch Hp Hi. destruct (decide (st = sw_method)) as [->|Hne]; [by apply method_kept|].
  assert (0 <= p) as Hp0 by lia.
  destruct st; try done; eexists; (split; [reflexivity|]).
  - by apply start_kept.
  - by apply spaces_before_uri_kept.
  - by apply schema_kept.
  - destruct Hi. by apply (expect_schema_kept _ _ Hch 1).
  - destruct Hi. by apply (expect_schema_kept _ _ Hch 2).
  - destruct Hi. by apply host_start_kept.
  - destruct Hi. by apply host_kept.
  - destruct Hi. apply host_end_kept; auto.
  - destruct Hi. by apply ip_literal_kept.
  - destruct Hi. by apply port_kept.
  - by apply host_http_09_kept.
  - by apply after_slash_kept.
  - by apply check_uri_kept.
  - by apply check_uri_http_09_kept.
  - by apply uri_kept.
  - by apply uri_http_09_kept.
  - apply expect_kept; [exact (fun _ _ H => H)|done..].
  - apply expect_kept; [exact (fun _ _ H => H)|done..].
  - apply expect_kept; [exact (fun _ _ H => H)|done..].
  - apply expect_kept; [exact (fun _ _ H => H)|done..].
  - by apply (version_kept p ch r).
  - by apply (version_kept p ch r).
  - by apply (version_kept p ch r).
  - by apply (version_kept p ch r).
  - by apply (version_kept p ch r).
  - by apply almost_done_kept.
Qed.

(** ** Simple paths

    While no flag is set, the path so far has no ['%'], ['#'] and ['?'], and no
    slash is followed by a slash or a dot. *)

Definition clean (r : request) : Prop := complex_uri r = false /\ quoted_uri r = false /\ space_in_uri r = false.

Definition simple (u q : Z) : Prop :=
  forall i, u <= i < q ->
    (at_ i <> Some 37 /\ at_ i <> Some 35 /\ at_ i <> Some 63) /\
    (at_ i = Some 47 -> i + 1 < q -> at_ (i + 1) <> Some 47 /\ at_ (i + 1) <> Some 46).

(** The end of the path of a URI that ends at [e]. *)
Definition path_end (r : request) (e : Z) : Z := match args_start r with Some a => a - 1 | None => e end.

Definition tidy_end (r : request) : Prop :=
  clean r -> forall u e, uri_start r = Some u -> uri_end r = Some e -> simple u (path_end r e).

Definition tidy (st : sw) (p : Z) (r : request) : Prop :=
  match st with
  | sw_after_slash_in_uri => clean r -> forall u, uri_start r = Some u -> simple u p
  | sw_check_uri => clean r -> forall u, uri_start r = Some u -> simple u p /\ at_ (p - 1) <> Some 47
  | sw_uri => clean r -> forall u, uri_start r = Some u -> exists a, args_start r = Some a /\ simple u (a - 1)
  | sw_start | sw_method | sw_spaces_before_uri | sw_schema | sw_schema_slash | sw_schema_slash_slash
  | sw_host_start | sw_host | sw_host_end | sw_host_ip_literal | sw_port => True
  | _ => tidy_end r
  end.

Definition tidied (v : verdict (sw * request)) (p : Z) : Prop :=
  match v with
  | Next (st, r) => tidy st (p + 1) r
  | Leave done (_, r) => tidy_end r
  | Leave _ _ => True
  end.

Section Tidy.
Context (p ch : Z) (Hp : 0 <= p) (Hch : at_ p = Some ch).

Lemma simple_snoc u :
  simple u p -> ch <> 37 -> ch <> 35 -> ch <> 63 -> (at_ (p - 1) = Some 47 -> ch <> 47 /\ ch <> 46) -> simple u (p + 1).
Proof.
  intros Hs H1 H2 H3 H4 i Hi. destruct (decide (i = p)) as [->|].
  - rewrite Hch. split; [split_and!; congruence|lia].
  - destruct (Hs i ltac:(lia)) as [Ha Hb]. split; [done|]. intros E _.
    destruct (decide (i + 1 = p)) as [Ei|]; [|apply Hb; [done|lia]].
    rewrite Ei, Hch. destruct H4; [by replace (p - 1) with i by lia|]. split; congruence.
Qed.

Lemma simple_one : at_ p = Some 47 -> simple p (p + 1).
Proof. intros Hs i Hi. replace i with p by lia. rewrite Hs. split; [done|lia]. Qed.

Lemma begin_tidied r : ch = 47 -> uri_start r = Some p -> tidied (Next (sw_after_slash_in_uri, r)) p.
Proof. intros -> Hu _ u Eu. rewrite Hu in Eu. injection Eu as <-. by apply simple_one. Qed.

Lemma host_tidied r : blank r -> with_schema 3 r p -> tidied (Next (sw_host_http_09, slash_of_schema r)) p.
Proof.
  intros (Ha & _ & _) (m & me & s & _ & _ & Hs & _ & _ & _ & Hsl & _) _ u e. unfold slash_of_schema, path_end. cbn.
  rewrite Hs, Ha. cbn. intros [= <-] [= <-] i Hi. replace i with (s + 1) by lia. rewrite Hsl by lia.
  split; [done|lia].
Qed.

(** The tests of a step, each equation kept. *)
Ltac next_ch := match goal with |- context [ch =? ?k] => destruct (Z.eqb_spec ch k) as [Hk|?] end.
Ltac flagged := cbn; let H := fresh in intros (? & ? & ?); discriminate.

Lemma usual_special k : is_usual k = false -> is_usual ch = true -> ch <> k.
Proof. intros Hk Hc ->. congruence. Qed.

Lemma to_check_uri u : simple u p -> ch <> 37 -> ch <> 35 -> ch <> 63 -> ch <> 47 -> (at_ (p - 1) = Some 47 -> ch <> 46) ->
  simple u (p + 1) /\ at_ (p + 1 - 1) <> Some 47.
Proof.
  intros. split; [apply simple_snoc; auto|]. replace (p + 1 - 1) with p by lia. congruence.
Qed.

Lemma after_slash_tidied r :
  fresh r -> tidy sw_after_slash_in_uri p r -> tidied (on_after_slash_in_uri p ch r) p.
Proof.
  intros Hf Ht. unfold on_after_slash_in_uri, fresh in *. destruct (is_usual ch) eqn:Hus.
  { intros Hc u Hu. specialize (Ht Hc u Hu). apply to_check_uri; try done; intros; by apply usual_special. }
  do 3 (next_ch; [cbn; unfold tidy_end, path_end; cbn; rewrite Hf; intros Hc u e Hu [= <-]; by apply Ht|]).
  next_ch; [flagged|]. next_ch; [flagged|]. next_ch; [flagged|].
  next_ch.
  { cbn. intros Hc u Hu. exists (p + 1). split; [done|]. replace (p + 1 - 1) with p by lia. by apply Ht. }
  next_ch; [flagged|].
  next_ch.
  { cbn. intros Hc u Hu. apply simple_snoc; [by apply Ht|lia..]. }
  next_ch; [done|]. intros Hc u Hu. specialize (Ht Hc u Hu). apply to_check_uri; auto.
Qed.

Lemma check_uri_tidied r :
  fresh r -> tidy sw_check_uri p r -> tidied (on_check_uri p ch r) p.
Proof.
  intros Hf Ht. unfold on_check_uri, fresh in *. destruct (is_usual ch) eqn:Hus.
  { intros Hc u Hu. destruct (Ht Hc u Hu). apply to_check_uri; try done; intros; by apply usual_special. }
  next_ch.
  { cbn. intros Hc u Hu. destruct (Ht Hc u Hu). apply simple_snoc; [done|lia..|done]. }
  next_ch.
  { cbn. intros Hc u Hu. destruct (Ht Hc u Hu). apply to_check_uri; [done|lia..|done]. }
  do 3 (next_ch; [cbn; unfold tidy_end, path_end; cbn; rewrite Hf; intros Hc u e Hu [= <-]; by apply Ht|]).
  next_ch; [flagged|].
  next_ch.
  { cbn. intros Hc u Hu. exists (p + 1). split; [done|]. replace (p + 1 - 1) with p by lia. by apply Ht. }
  next_ch; [flagged|].
  next_ch.
  { cbn. intros Hc u Hu. destruct (Ht Hc u Hu). apply to_check_uri; [done|lia..|done]. }
  next_ch; [done|]. intros Hc u Hu. destruct (Ht Hc u Hu). apply to_check_uri; auto.
Qed.

Lemma uri_tidied r : tidy sw_uri p r -> tidied (on_uri p ch r) p.
Proof.
  intros Ht. unfold on_uri. destruct (is_usual ch); [exact Ht|].
  do 3 (next_ch; [cbn; unfold tidy_end, path_end; cbn; intros Hc u e Hu [= <-];
    destruct (Ht Hc u Hu) as (a & -> & Hs); exact Hs|]).
  next_ch; [flagged|]. next_ch; [done|]. exact Ht.
Qed.

Lemma uri_http_09_tidied here back r :
  back = sw_uri \/ back = sw_check_uri -> here = sw_http_09 \/ here = sw_check_uri_http_09 ->
  tidy_end r -> tidied (on_uri_http_09 here back p ch r) p.
Proof.
  intros Hb Hh Ht. unfold on_uri_http_09. do 4 (next_ch; [destruct Hh as [-> | ->]; exact Ht|]).
  destruct Hb as [-> | ->]; flagged.
Qed.
End Tidy.

Lemma step_tidied p ch st r v :
  0 <= p -> at_ p = Some ch -> inv st p r -> tidy st p r -> step buf p ch (st, r) = Ok v -> tidied v p.
Proof.
  intros Hp Hch Hi Ht. destruct (decide (st = sw_method)) as [->|Hne].
  - cbn [step]. unfold on_method. destruct (ch =? 32).
    + match goal with |- context [request_start ?x] => destruct (request_start x); [|discriminate] end.
      intros (m & _ & H)%obind_Ok_inv. by injection H as <-.
    + destruct (no_method_char ch); intros [= <-]; done.
  - assert (forall k, (ch =? k) = true -> ch = k) as Heq by (intros k; apply Z.eqb_eq).
    destruct st; try done; cbn [step]; intros [= <-];
      try (destruct Hi as [Hb Hs]);
      try (unfold on_start, on_spaces_before_uri, on_schema, expect, on_host_start, on_host, on_host_end,
        on_host_ip_literal, on_port, on_host_http_09, on_first_major_digit, on_major_digit, on_first_minor_digit,
        on_minor_digit, on_spaces_after_digit, on_almost_done; cbn zeta; tests;
        first [exact I | exact Ht | apply (begin_tidied p ch Hch); [by apply Heq|reflexivity] | by apply host_tidied]).
    + by apply after_slash_tidied.
    + by apply check_uri_tidied.
    + apply uri_http_09_tidied; auto.
    + by apply uri_tidied.
    + apply uri_http_09_tidied; auto.
Qed.
End Inv.

(** ** The parser *)

(** The request between two calls: the stored state is one of the parser's and
    its invariant holds. *)
Definition stored (buf : bytes) (p : Z) (r : request) : Prop :=
  exists st, state r = sw_no st /\ inv buf st p r /\ tidy buf st p r.

(** A parsed line: the method, the URI and the line in order, the line feed at
    the end. *)
Definition parsed (buf : bytes) (p : Z) (r : request) : Prop :=
  state r = 0 /\
  exists m me u e re, request_start r = Some m /\ method_end r = Some me /\ uri_start r = Some u /\
    uri_end r = Some e /\ request_end r = Some re /\
    0 <= m <= me /\ me < u < e /\ e <= re /\ re < p <= blen buf /\ strings buf r u e /\ tidy_end buf r.

Lemma at_done_parsed buf q r :
  complete buf r q -> tidy_end buf r -> q < blen buf ->
  exists rc r', at_done q r = (rc, q + 1, r') /\ (rc = NGX_OK \/ rc = NGX_HTTP_PARSE_INVALID_09_METHOD) /\
    parsed buf (q + 1) r'.
Proof.
  intros (m & me & u & e & ? & ? & ? & ? & ? & ? & ? & Hs & Hre) Ht Hq.
  set (r1 := match request_end r with None => r <| request_end := Some q |> | Some _ => r end).
  assert (exists re, request_end r1 = Some re /\ e <= re <= q) as (re & Hr1 & ?).
  { unfold r1. destruct (request_end r) eqn:E; [eauto|]. exists q. split; [done|lia]. }
  set (r2 := r1 <| http_version := http_major r1 * 1000 + http_minor r1 |> <| state := sw_no sw_start |>).
  exists (if (http_version r2 =? 9) && negb (method r2 =? NGX_HTTP_GET)
          then NGX_HTTP_PARSE_INVALID_09_METHOD else NGX_OK), r2.
  split; [unfold at_done; fold r1; fold r2; by destruct (_ && _)|]. split; [destruct (_ && _); auto|].
  split; [done|]. exists m, me, u, e, re. unfold r2, r1. unfold r1 in Hr1.
  destruct (request_end r); cbn in *; split_and!; (done || lia).
Qed.

Lemma new_request_stored buf p : stored buf p new_request.
Proof. by exists sw_start. Qed.

Lemma at_app buf more i c : at_ buf i = Some c -> at_ (buf ++ more) i = Some c.
Proof. apply lookup_app_l_Some. Qed.

Lemma strings_app buf more r u p : strings buf r u p -> strings (buf ++ more) r u p.
Proof.
  intros (Hs & Ha & He). split; [by apply at_app|]. split; [|done]. intros a E. destruct (Ha a E). eauto using at_app.
Qed.

Lemma at_same buf more i : 0 <= i < blen buf -> at_ (buf ++ more) i = at_ buf i.
Proof. unfold at_, blen. intros H. apply lookup_app_l. lia. Qed.

Lemma simple_app buf more u q : 0 <= u -> q <= blen buf -> simple buf u q -> simple (buf ++ more) u q.
Proof.
  intros Hu Hq Hs i Hi. rewrite (at_same buf more i) by lia. destruct (Hs i Hi) as [Ha Hb]. split; [done|].
  intros E Hlt. rewrite at_same by lia. by apply Hb.
Qed.

Lemma tidy_end_app buf more p r : p <= blen buf -> with_end buf r p -> tidy_end buf r -> tidy_end (buf ++ more) r.
Proof.
  intros Hp (_ & m & me & u & e & _ & _ & Hu & He & ? & ? & ? & _ & Ha & _) Ht Hc u' e' Eu Ee.
  rewrite Hu in Eu. rewrite He in Ee. injection Eu as <-. injection Ee as <-.
  apply simple_app; [lia| |by apply Ht]. unfold path_end. destruct (args_start r) as [a|] eqn:E; [|lia].
  destruct (Ha a eq_refl). lia.
Qed.

Lemma tidy_app buf more st p r : p <= blen buf -> inv buf st p r -> tidy buf st p r -> tidy (buf ++ more) st p r.
Proof.
  intros Hp Hi Ht.
  destruct st; try done; cbn [inv tidy] in *; try (by apply (tidy_end_app _ _ p));
    try (apply (tidy_end_app _ _ p); [done|apply Hi|done]).
  - destruct Hi as [(_ & m & me & u & _ & _ & Hu & ? & ? & _) _]. intros Hc u' Eu. specialize (Ht Hc u' Eu).
    rewrite Hu in Eu. injection Eu as <-. apply simple_app; [lia..|done].
  - destruct Hi as [(_ & m & me & u & _ & _ & Hu & ? & ? & _) _]. intros Hc u' Eu. destruct (Ht Hc u' Eu) as [Hs Ha].
    rewrite Hu in Eu. injection Eu as <-. split; [apply simple_app; [lia..|done]|]. by rewrite at_same by lia.
  - destruct Hi as (_ & m & me & u & _ & _ & Hu & ? & ? & _ & Ha & _). intros Hc u' Eu.
    destruct (Ht Hc u' Eu) as (a & Ea & Hs). rewrite Hu in Eu. injection Eu as <-. destruct (Ha a Ea).
    exists a. split; [done|]. apply simple_app; [lia..|done].
Qed.

(** More bytes do not disturb it. *)
Lemma stored_app buf more p r : p <= blen buf -> stored buf p r -> stored (buf ++ more) p r.
Proof.
  intros Hp (st & Hst & Hi & Ht). exists st. split; [done|]. split; [|by apply tidy_app].
  assert (forall q, with_uri buf r q -> with_uri (buf ++ more) r q) as Hu.
  { intros q (? & m & me & u & H). split; [done|]. exists m, me, u. intuition auto using strings_app. }
  assert (forall q, with_end buf r q -> with_end (buf ++ more) r q) as He.
  { intros q (? & m & me & u & e & H). split; [done|]. exists m, me, u, e. intuition auto using strings_app. }
  assert (forall k q, with_schema buf k r q -> with_schema (buf ++ more) k r q) as Hs.
  { intros k q (m & me & s & H). exists m, me, s. intuition auto using at_app. }
  destruct st; cbn in Hi |- *; intuition auto.
Qed.

(** The loop never reads outside the buffer; the answers and what they leave. *)
Lemma request_line_kept buf pos r :
  0 <= pos <= blen buf -> stored buf pos r ->
  exists rc p r', ngx_http_parse_request_line buf pos r = Ok (rc, p, r') /\
    ((rc = NGX_AGAIN /\ p = blen buf /\ stored buf p r') \/
     (rc = NGX_OK \/ rc = NGX_HTTP_PARSE_INVALID_09_METHOD) /\ pos < p /\ parsed buf p r' \/
     (rc = NGX_HTTP_PARSE_INVALID_METHOD \/ rc = NGX_HTTP_PARSE_INVALID_REQUEST) /\ p = pos).
Proof.
  intros Hpos (st & Hst & Hi & Ht). unfold ngx_http_parse_request_line. rewrite Hst, load_no. cbn [obind].
  destruct (scan_inv (step buf) (fun p x => inv buf (x.1) p (x.2) /\ tidy buf (x.1) p (x.2))
    (fun p l x => kept buf (Leave l x) p /\ tidied buf (Leave l x) p)
    (drop (Z.to_nat pos) buf) pos (st, r)) as (q & l & [st' r'] & -> & Hq & HQ); [|by split|].
  { intros i ch [s r0] Hch [H0 H1]. rewrite lookup_drop in Hch. cbn [fst snd] in *.
    assert (at_ buf (pos + Z.of_nat i) = Some ch) as Hat by (unfold at_; rewrite <- Hch; f_equal; lia).
    assert (0 <= pos + Z.of_nat i < blen buf) by (apply lookup_lt_Some in Hch; unfold blen; lia).
    destruct (step_kept buf (pos + Z.of_nat i) ch s r0) as (v & Hv & Hk); [done..|].
    pose proof (step_tidied buf (pos + Z.of_nat i) ch s r0 v (proj1 H) Hat H0 H1 Hv) as Ht'.
    exists v. split; [done|]. by destruct v as [[]|[] []]. }
  assert (blen (drop (Z.to_nat pos) buf) = blen buf - pos) as Hlen.
  { unfold blen in *. rewrite length_drop. lia. }
  cbn [obind]. destruct l as [l|].
  - destruct HQ as (Hlt & HQ & HT). destruct l; try done.
    + destruct (at_done_parsed buf q r') as (rc & r'' & -> & Hrc & HP); [done..|lia|].
      exists rc, (q + 1), r''. split; [done|]. right; left. split_and!; (done || lia).
    + exists rc, pos, r'. split; [done|]. right; right. done.
  - destruct HQ as [-> HQ]. eexists _, _, _. split; [done|]. left. split_and!; [done|lia|].
    exists st'. split; [done|]. exact HQ.
Qed.
