(* ===== verification/NgxUriProps.v ===== *)
(** * Correctness of the URI functions: memory safety of the normalization *)
From S2P Require Import Prelude.
From S2P Require Import NgxHttpParse NgxRequestLine NgxUri NgxRequestLineInv.

(** ** The normalization stays in its buffers *)
Module Safe.
Import ComplexUri.

Section Safe.
Context (merge_slashes : bool) (buf : bytes) (start last stop : Z) (cap : Z).
Context (Hrange : 0 <= start <= stop) (Hstop : stop <= last) (Hlast : last < blen buf).
(** The loop stops at the end of the URI or at a ['?']. *)
Context (Hend : stop = last \/ peek buf stop = Ok 63) (Hcap : stop - start < cap).

Definition is_path (s : sw) : Prop := s <> sw_quoted /\ s <> sw_quoted_second.

(** The state that a quoted character goes back to, or the state itself. *)
Definition eff (x : locals) : sw :=
  match st x with sw_quoted | sw_quoted_second => quoted_state x | s => s end.

Record ok (x : locals) : Prop := {
  ok_p : start < p x <= stop + 1;
  ok_u : 0 <= u x <= p x - 1 - start;
  ok_mem : blen (mem x) = cap;
  ok_quoted : is_path (quoted_state x);
  ok_dot : eff x = sw_dot -> 1 <= u x;
  ok_ext : forall e, ext x = Some e -> eff x = sw_usual /\ 0 <= e <= u x;
  ok_hit : p x - 1 = stop -> stop = last \/ ch x = 63 }.

(** Where the loop leaves off. *)
Definition left_ok (l : exit) (x : locals) : Prop :=
  match l with
  | Return rc => rc = NGX_HTTP_PARSE_INVALID_REQUEST
  | done => ok x
  | args => ok x /\ args_start (req x) = Some (p x)
  | _ => False
  end.

(** The rounds left: two for a character, one more to hand on a decoded one. *)
Definition rounds (x : locals) : Z :=
  2 * (last + 1 - p x) + (if match st x with sw_quoted_second => true | _ => false end then 1 else 0).

Definition good (v : out (verdict locals)) (x : locals) : Prop :=
  exists w, v = Ok w /\
    match w with Next y => ok y /\ rounds y < rounds x | Leave l y => left_ok l y end.

Lemma advance_ok x :
  start < p x <= stop -> exists c, advance buf x = Ok (x <| ch := c |> <| p := p x + 1 |>) /\
    (p x = stop -> stop = last \/ c = 63).
Proof.
  intros Hp. unfold advance. destruct (peek_in buf (p x)) as (c & _ & Hc); [lia|]. rewrite Hc.
  exists c. split; [done|]. intros E. destruct Hend as [|Hs]; [auto|]. rewrite E, Hs in Hc. injection Hc as <-. auto.
Qed.

Lemma skip_ok s x x0 :
  p x = p x0 -> start < p x <= stop -> blen (mem x) = cap -> is_path (quoted_state x) ->
  0 <= u x <= p x - start -> (eff (x <| st := s |>) = sw_dot -> 1 <= u x) ->
  (forall e, ext x = Some e -> eff (x <| st := s |>) = sw_usual /\ 0 <= e <= u x) ->
  good (skip buf s x) x0.
Proof.
  intros Hpx Hp Hm Hq Hu Hd He. unfold good, skip. destruct (advance_ok x Hp) as (c & -> & Hc). cbn [obind].
  eexists. split; [reflexivity|]. split.
  - split; cbn; try done; lia.
  - unfold rounds. cbn. rewrite Hpx. destruct s, (st x0); lia.
Qed.

Lemma copy_ok s c x x0 :
  p x = p x0 -> start < p x <= stop -> blen (mem x) = cap -> is_path (quoted_state x) ->
  0 <= u x <= p x - 1 - start -> is_path s ->
  (forall e, ext x = Some e -> s = sw_usual /\ 0 <= e <= u x + 1) ->
  good (copy buf s c x) x0.
Proof.
  intros Hpx Hp Hm Hq Hu [Hs1 Hs2] He. unfold copy, emit.
  assert ((0 <=? u x) && (u x <? blen (mem x)) = true) as ->.
  { rewrite andb_true_iff, Z.leb_le, Z.ltb_lt. lia. }
  cbn [obind].
  set (y := x <| mem := <[Z.to_nat (u x) := c]> (mem x) |> <| u := u x + 1 |>).
  apply (skip_ok s y x0); try done; try (cbn; lia).
  - cbn. unfold blen in *. by rewrite length_insert.
  - intros e E. destruct (He e E) as [-> ?]. split; [done|]. cbn. lia.
Qed.

Ltac leave := eexists; split; [reflexivity|]; cbn; try done.

Section Step.
Context (x : locals) (Hok : ok x) (Hpx : p x <= last).

Lemma on_others_ok : is_path (st x) -> (forall e, ext x = Some e -> 0 <= e <= u x) -> good (on_others buf x) x.
Proof.
  intros Hs He. destruct Hok as [Hp Hu Hm Hq Hd Hx Hh]. unfold on_others.
  assert (eff x = st x) as Eeff by (destruct Hs; unfold eff; by destruct (st x)).
  destruct (Z.eqb_spec (ch x) 37) as [E37|].
  { apply skip_ok; cbn; try done; try lia.
    - by rewrite <- Eeff.
    - by rewrite <- Eeff. }
  destruct (Z.eqb_spec (ch x) 63) as [E63|].
  { leave. }
  destruct (Z.eqb_spec (ch x) 35) as [E35|]; [by leave|].
  assert (p x <= stop) by (assert (p x - 1 <> stop) by (intros E; destruct (Hh E); lia); lia).
  assert (forall e, ext x = Some e -> sw_usual = sw_usual /\ 0 <= e <= u x + 1) as He'.
  { intros e E. split; [done|]. specialize (He e E). lia. }
  destruct (ch x =? 43); (apply copy_ok; cbn; try done; try lia).
Qed.

(** Not at the stop, as the character is no ['?']. *)
Lemma before_stop : ch x <> 63 -> p x <= stop.
Proof. intros Hne. assert (p x - 1 <> stop) by (intros E; destruct (ok_hit _ Hok E); lia). destruct (ok_p _ Hok). lia. Qed.

Lemma usual_not_mark c : is_usual c = true -> c <> 63.
Proof. by intros H ->. Qed.

Lemma go_back_ok mem v f :
  v < blen mem -> (Z.to_nat (v + 1) < f)%nat ->
  exists r, go_back f mem v = Ok r /\ (forall w, r = Some w -> 1 <= w <= v + 1).
Proof.
  revert v. induction f as [|f IH]; intros v Hv Hf; [lia|]. cbn [go_back].
  destruct (Z.ltb_spec v 0); [by exists None|]. destruct (peek_in mem v) as (c & _ & ->); [lia|]. cbn [obind].
  destruct (c =? 47).
  - exists (Some (v + 1)). split; [done|]. intros w [= <-]. lia.
  - destruct (IH (v - 1)) as (r & -> & Hr); [lia..|]. exists r. split; [done|]. intros w E. specialize (Hr w E). lia.
Qed.

Lemma path_copy s c : is_path s -> ch x <> 63 -> (ext x = None \/ s = sw_usual) -> good (copy buf s c x) x.
Proof.
  intros Hs Hc He. pose proof Hok as [Hp Hu Hm Hq Hd Hx Hh]. pose proof (before_stop Hc).
  apply copy_ok; try done; try lia. intros e E. destruct (Hx e E). destruct He as [|Hs']; [congruence|].
  split; [done|lia].
Qed.

Lemma usual_ok : st x = sw_usual -> good (on_usual buf x) x.
Proof.
  intros Hst. pose proof Hok as [Hp Hu Hm Hq Hd Hx Hh]. unfold on_usual.
  destruct (is_usual (ch x)) eqn:E; [apply path_copy; auto using usual_not_mark; done|].
  destruct (Z.eqb_spec (ch x) 47) as [E47|].
  { pose proof (before_stop ltac:(lia)). apply copy_ok; cbn; try done; lia. }
  destruct (Z.eqb_spec (ch x) 46) as [E46|].
  { pose proof (before_stop ltac:(lia)). apply copy_ok; cbn; try done; try lia.
    intros e [= <-]. split; [done|lia]. }
  apply on_others_ok; [by rewrite Hst|]. intros e He. by apply Hx.
Qed.

(** In the other states of the path no extension is open. *)
Lemma no_ext : is_path (st x) -> st x <> sw_usual -> ext x = None.
Proof.
  intros [H1 H2] Hne. destruct (ext x) as [e|] eqn:E; [|done]. destruct (ok_ext _ Hok e E) as [Hf _].
  unfold eff in Hf. by destruct (st x).
Qed.

Lemma slash_ok : st x = sw_slash -> good (on_slash merge_slashes buf x) x.
Proof.
  intros Hst. pose proof (no_ext ltac:(by rewrite Hst) ltac:(by rewrite Hst)) as He. unfold on_slash.
  destruct (is_usual (ch x)) eqn:E; [apply path_copy; auto using usual_not_mark; done|].
  destruct (Z.eqb_spec (ch x) 47) as [E47|].
  { destruct merge_slashes; [|by apply path_copy; [|lia|auto]].
    pose proof Hok as [Hp Hu Hm Hq Hd Hx Hh]. pose proof (before_stop ltac:(lia)).
    apply skip_ok; cbn; try done; try lia. intros e. by rewrite He. }
  destruct (Z.eqb_spec (ch x) 46); [by apply path_copy; [|lia|auto]|].
  apply on_others_ok; rewrite ?Hst, ?He; done.
Qed.

Lemma dot_ok : st x = sw_dot -> good (on_dot buf x) x.
Proof.
  intros Hst. pose proof (no_ext ltac:(by rewrite Hst) ltac:(by rewrite Hst)) as He. unfold on_dot.
  destruct (is_usual (ch x)) eqn:E; [apply path_copy; auto using usual_not_mark; done|].
  destruct (Z.eqb_spec (ch x) 47) as [E47|].
  { pose proof Hok as [Hp Hu Hm Hq Hd Hx Hh]. pose proof (before_stop ltac:(lia)).
    assert (1 <= u x) by (apply Hd; unfold eff; by rewrite Hst).
    apply skip_ok; cbn; try done; try lia. intros e. by rewrite He. }
  destruct (Z.eqb_spec (ch x) 46); [by apply path_copy; [|lia|auto]|].
  apply on_others_ok; rewrite ?Hst, ?He; done.
Qed.

Lemma dot_dot_ok : st x = sw_dot_dot -> good (on_dot_dot buf x) x.
Proof.
  intros Hst. pose proof (no_ext ltac:(by rewrite Hst) ltac:(by rewrite Hst)) as He. unfold on_dot_dot.
  destruct (is_usual (ch x)) eqn:E; [apply path_copy; auto using usual_not_mark; done|].
  destruct (Z.eqb_spec (ch x) 47) as [E47|].
  { pose proof Hok as [Hp Hu Hm Hq Hd Hx Hh]. pose proof (before_stop ltac:(lia)). cbn zeta.
    destruct (go_back_ok (mem x) (u x - 5) (S (S (Z.to_nat (u x - 5))))) as (r & -> & Hr); [lia..|].
    cbn [obind]. destruct r as [w|]; [|by leave]. specialize (Hr w eq_refl).
    apply skip_ok; cbn; try done; try lia. intros e. by rewrite He. }
  apply on_others_ok; rewrite ?Hst, ?He; done.
Qed.

Lemma quoted_ok : st x = sw_quoted -> good (on_quoted buf x) x.
Proof.
  intros Hst. pose proof Hok as [Hp Hu Hm Hq Hd Hx Hh]. unfold on_quoted. cbn zeta.
  assert (eff x = quoted_state x) as Ee by (unfold eff; by rewrite Hst). rewrite Ee in *.
  change (ch (x <| req := (req x) <| quoted_uri := true |> |>)) with (ch x).
  destruct (is_num (ch x)) eqn:En.
  { assert (ch x <> 63) as Hne by (intros E; by rewrite E in En). pose proof (before_stop Hne).
    apply skip_ok; cbn; try done; lia. }
  destruct (is_hex_letter (ch x)) eqn:Eh; [|by leave].
  assert (ch x <> 63) as Hne by (intros E; by rewrite E in Eh). pose proof (before_stop Hne).
  apply skip_ok; cbn; try done; lia.
Qed.

(** Going back to the state before the ['%'] with the decoded character. *)
Lemma decoded_ok y :
  st x = sw_quoted_second -> ch x <> 63 -> st y = quoted_state x -> quoted_state y = quoted_state x ->
  p y = p x -> u y = u x -> mem y = mem x -> ext y = ext x -> good (Ok (Next y)) x.
Proof.
  intros Hst Hne Ys Yq Yp Yu Ym Ye. pose proof Hok as [Hp Hu Hm Hq Hd Hx Hh]. pose proof (before_stop Hne).
  assert (eff x = quoted_state x) as Ee by (unfold eff; by rewrite Hst). rewrite Ee in *.
  assert (eff y = quoted_state x) as Ey.
  { unfold eff. rewrite Ys. destruct Hq. by destruct (quoted_state x). }
  eexists. split; [reflexivity|]. split.
  - split; rewrite ?Ey, ?Yq, ?Yp, ?Yu, ?Ym, ?Ye; try done; lia.
  - unfold rounds. rewrite Hst, Ys, Yp. destruct Hq. destruct (quoted_state x); try done; lia.
Qed.

Lemma quoted_second_ok : st x = sw_quoted_second -> good (on_quoted_second buf x) x.
Proof.
  intros Hst. pose proof Hok as [Hp Hu Hm Hq Hd Hx Hh]. unfold on_quoted_second. cbn zeta.
  assert (forall e, ext x = Some e -> sw_usual = sw_usual /\ 0 <= e <= u x + 1) as Hx'.
  { intros e E. destruct (Hx e E). split; [done|lia]. }
  destruct (is_num (ch x)) eqn:En.
  { assert (ch x <> 63) as Hne by (intros E; by rewrite E in En). pose proof (before_stop Hne).
    destruct ((_ =? 37) || (_ =? 35)); [apply copy_ok; cbn; try done; lia|].
    destruct (_ =? 0); [by leave|].
    by apply decoded_ok. }
  destruct (is_hex_letter (ch x)) eqn:Eh; [|by leave].
  assert (ch x <> 63) as Hne by (intros E; by rewrite E in Eh). pose proof (before_stop Hne).
  destruct (_ =? 63); [apply copy_ok; cbn; try done; lia|].
  destruct (_ =? 43); by apply decoded_ok.
Qed.

Lemma step_ok : good (step merge_slashes buf x) x.
Proof.
  unfold step. destruct (st x) eqn:Hst; auto using usual_ok, slash_ok, dot_ok, dot_dot_ok, quoted_ok, quoted_second_ok.
Qed.
End Step.

(** The loop ends within its fuel. *)
Lemma loop_ok fuel x :
  ok x -> rounds x < Z.of_nat fuel ->
  exists l y, loop fuel merge_slashes buf last x = Ok (l, y) /\ left_ok l y.
Proof.
  revert x. induction fuel as [|fuel IH]; intros x Hx Hf.
  - unfold rounds in Hf. pose proof (ok_p _ Hx). destruct (st x); lia.
  - cbn [loop]. destruct (Z.ltb_spec last (p x)) as [|Hpx]; [by exists done, x|].
    destruct (step_ok x Hx Hpx) as (w & -> & Hw). cbn [obind]. destruct w as [y|l y]; [|by exists l, y].
    destruct Hw. apply IH; [done|lia].
Qed.
End Safe.

Lemma close_frame x : uri_len (close x) = u x /\ mem (close x) = mem x.
Proof. unfold close. change (ext (x <| uri_len := u x |>)) with (ext x). by destruct (ext x). Qed.

Lemma cut_args_frame buf last x :
  u (cut_args buf last x) = u x /\ mem (cut_args buf last x) = mem x /\ ext (cut_args buf last x) = ext x.
Proof. unfold cut_args. destruct (find_hash _ _); [|done]. by destruct (args_start _). Qed.

(** With a buffer for the URI as far as the stop, the normalization returns, and
    the URI it leaves is no longer. *)
Lemma complex_uri_defined merge_slashes buf mem r start last stop :
  uri_start r = Some start -> uri_end r = Some last ->
  0 <= start <= stop -> stop <= last -> last < blen buf -> start < last ->
  stop = last \/ peek buf stop = Ok 63 -> stop - start < blen mem ->
  exists rc x, ngx_http_parse_complex_uri merge_slashes buf mem r = Ok (rc, x) /\
    (rc = NGX_OK \/ rc = NGX_HTTP_PARSE_INVALID_REQUEST) /\
    (rc = NGX_OK -> 0 <= uri_len x <= stop - start /\ blen (ComplexUri.mem x) = blen mem).
Proof.
  intros Es El Hs Hl Hb Hsl Hend Hcap. unfold ngx_http_parse_complex_uri. rewrite Es, El.
  destruct (peek_in buf start) as (c & Hc & Hpc); [lia|]. rewrite Hpc. cbn [obind].
  set (x0 := mk_locals _ _ _ _ _ _ _ _ _ _ _ _).
  destruct (loop_ok merge_slashes buf start last stop (blen mem) ltac:(lia) Hl Hb Hend Hcap
              (2 * Z.to_nat (last - start) + 2) x0) as (l & y & -> & Hy).
  - split; cbn; try done; try lia. intros E. destruct Hend as [|He]; [auto|].
    replace start with stop in Hpc by lia. rewrite He in Hpc. injection Hpc as ->. auto.
  - unfold rounds. cbn. lia.
  - cbn [obind].
    assert (forall z, ok start last stop (blen mem) z -> 0 <= u z <= stop - start /\ blen (ComplexUri.mem z) = blen mem) as Hz.
    { intros z [Hp Hu Hm _ _ _ _]. split; [lia|done]. }
    destruct l; try done; cbn in Hy.
    + eexists _, _. split; [done|]. split; [auto|]. intros _. destruct (close_frame y) as [-> ->]. by apply Hz.
    + eexists _, _. split; [done|]. split; [auto|]. intros _. destruct (close_frame (cut_args buf last y)) as [-> ->].
      destruct (cut_args_frame buf last y) as (-> & -> & _). apply Hz, Hy.
    + subst rc. eexists _, _. split; [done|]. split; [auto|]. discriminate.
Qed.
End Safe.

(** ** The URI of a parsed request line *)
Module Parsed.
Import RequestUri.

Lemma peek_at buf i c : 0 <= i -> at_ buf i = Some c -> peek buf i = Ok c.
Proof. intros Hi Hc. unfold peek, at_ in *. destruct (Z.ltb_spec i 0); [lia|]. by apply rd_lookup. Qed.

Lemma slice_length buf a b : 0 <= a <= b -> b <= blen buf -> blen (slice buf a b) = b - a.
Proof. unfold blen, slice. intros H Hb. rewrite length_take, length_drop. lia. Qed.

(** The length of the path, as [ngx_http_process_request_uri] computes it. *)
Lemma raw_len_parsed buf p r :
  parsed buf p r ->
  exists u e len, uri_start r = Some u /\ uri_end r = Some e /\ raw_len r = Ok len /\
    0 <= u < e /\ e < p <= blen buf /\ 0 <= len <= e - u /\
    (u + len = e \/ peek buf (u + len) = Ok 63).
Proof.
  intros (_ & m & me & u & e & re & Hm & Hme & Hu & He & Hre & ? & ? & ? & ? & (_ & Ha & _) & _).
  unfold raw_len. rewrite Hu, He. destruct (args_start r) as [a|] eqn:E.
  - destruct (Ha a eq_refl) as [? Hc]. exists u, e, (a - 1 - u). split_and!; try (done || lia). right.
    replace (u + (a - 1 - u)) with (a - 1) by lia. apply peek_at; [lia|done].
  - exists u, e, (e - u). split_and!; try (done || lia).
Qed.

Lemma process_request_uri_defined ms buf p r :
  parsed buf p r ->
  exists res, ngx_http_process_request_uri ms buf r = Ok res /\
    (forall r' s, res = Some (r', s) -> blen (uri s) <= blen (unparsed_uri s)).
Proof.
  intros HP. destruct (raw_len_parsed _ _ _ HP) as (u & e & len & Hu & He & Hlen & ? & ? & ? & Hend).
  unfold ngx_http_process_request_uri. rewrite Hlen, Hu, He. cbn [obind].
  destruct (complex_uri r || quoted_uri r).
  - destruct (Safe.complex_uri_defined ms buf (replicate (Z.to_nat (len + 1)) 0) r u e (u + len))
      as (rc & x & -> & Hrc & Hx); try done; try lia.
    { unfold blen. rewrite length_replicate. lia. }
    cbn [obind]. destruct Hrc as [-> | ->]; cbn; [|by exists None].
    eexists. split; [reflexivity|]. intros r' s [= <- <-]. cbn [uri unparsed_uri].
    destruct (Hx eq_refl) as [Hl Hm]. rewrite slice_length by lia. unfold ComplexUri.uri_of, blen.
    rewrite length_take. lia.
  - eexists. split; [reflexivity|]. intros r' s [= <- <-]. cbn [uri unparsed_uri].
    rewrite !slice_length by lia. lia.
Qed.
End Parsed.
