(* ===== verification/NgxUriNormal.v ===== *)
(** * The normal form of a path

    The reference for [ngx_http_parse_complex_uri]: percent decoding, then the
    removal of empty and dot segments, on lists of segments; and the proof that
    the state machine computes it. *)
From S2P Require Import Prelude.
From S2P Require Import NgxHttpParse NgxRequestLine NgxUri NgxRequestLineInv NgxUriProps.

(** ** Reference *)

(** The value of a hexadecimal digit. *)
Definition hex_value (c : Z) : option Z :=
  if is_num c then Some (c - 48)
  else if ComplexUri.is_hex_letter c then Some (Z.lor c 32 - 97 + 10) else None.

(** The path of a URI: up to the ['?'] or the ['#'], the percent triples decoded.
    A triple that the end of the URI cuts off is dropped; a NUL and a bad digit
    are errors. *)
Fixpoint path_of (s : bytes) : option bytes :=
  match s with
  | [] => Some []
  | c :: s1 =>
      if (c =? 63) || (c =? 35) then Some []
      else if c =? 37 then
        match s1 with
        | [] => Some []
        | h :: s2 =>
            match hex_value h, s2 with
            | None, _ => None
            | Some _, [] => Some []
            | Some a, l :: s3 =>
                match hex_value l with
                | None => None
                | Some b => if 16 * a + b =? 0 then None else option_map (cons (16 * a + b)) (path_of s3)
                end
            end
        end
      else option_map (cons c) (path_of s1)
  end.

(** The segments between slashes. *)
Fixpoint segments (d : bytes) : list bytes :=
  match d with
  | [] => [[]]
  | c :: d' =>
      if c =? 47 then [] :: segments d'
      else match segments d' with s :: rest => (c :: s) :: rest | [] => [[c]] end
  end.

(** A directory on top of the path so far, innermost first: empty ones and ["."]
    are skipped, [".."] removes one. *)
Definition enter (stack : list bytes) (dir : bytes) : option (list bytes) :=
  if decide (dir = [] \/ dir = [46]) then Some stack
  else if decide (dir = [46; 46]) then match stack with [] => None | _ :: s => Some s end
  else Some (dir :: stack).

Definition enter_all (dirs : list bytes) (stack : list bytes) : option (list bytes) :=
  fold_left (fun o dir => o ≫= fun s => enter s dir) dirs (Some stack).

(** The text of a path: the directories and the last segment, which stays as it
    is. *)
Definition render (stack : list bytes) (file : bytes) : bytes :=
  concat (map (cons 47) (rev stack)) ++ 47 :: file.

(** The normal form of a path that starts with a slash. *)
Definition normalize (d : bytes) : option bytes :=
  match d with
  | [] => None
  | _ :: d' =>
      option_map (fun stack => render stack (List.last (segments d') []))
        (enter_all (removelast (segments d')) [])
  end.

Definition normal_path (s : bytes) : option bytes := path_of s ≫= normalize.

(** ** The reference, one character at a time *)

Fixpoint norm (stack : list bytes) (cur : bytes) (d : bytes) : option bytes :=
  match d with
  | [] => Some (render stack cur)
  | c :: d' =>
      if c =? 47 then enter stack cur ≫= fun stack => norm stack [] d'
      else norm stack (cur ++ [c]) d'
  end.

Lemma segments_cons d : exists s rest, segments d = s :: rest.
Proof. induction d as [|c d (s & rest & E)]; cbn; [eauto|]. rewrite E. destruct (c =? 47); eauto. Qed.

Lemma enter_all_None dirs : fold_left (fun o dir => o ≫= fun s => enter s dir) dirs None = None.
Proof. induction dirs; cbn; auto. Qed.

Lemma norm_segments d stack cur s rest :
  segments d = s :: rest ->
  norm stack cur d =
  option_map (fun stack => render stack (List.last ((cur ++ s) :: rest) []))
    (enter_all (removelast ((cur ++ s) :: rest)) stack).
Proof.
  revert stack cur s rest. induction d as [|c d IH]; intros stack cur s rest; cbn [segments norm].
  - intros [= <- <-]. cbn. by rewrite app_nil_r.
  - destruct (segments_cons d) as (s1 & rest1 & E1). rewrite E1. destruct (c =? 47).
    + intros [= <- <-]. rewrite app_nil_r.
      change (removelast (cur :: s1 :: rest1)) with (cur :: removelast (s1 :: rest1)).
      change (List.last (cur :: s1 :: rest1) []) with (List.last (s1 :: rest1) []).
      unfold enter_all. cbn [fold_left mbind option_bind]. destruct (enter stack cur) as [st|]; cbn [mbind option_bind].
      * by rewrite (IH st [] s1 rest1 E1).
      * by rewrite enter_all_None.
    + intros [= <- <-]. rewrite (IH stack (cur ++ [c]) s1 rest1 E1). by rewrite <- app_assoc.
Qed.

Lemma normalize_norm c d : normalize (c :: d) = norm [] [] d.
Proof.
  destruct (segments_cons d) as (s & rest & E). rewrite (norm_segments _ _ _ _ _ E). unfold normalize. by rewrite E.
Qed.

(** ** The state machine computes it *)
Module Refine.
Import ComplexUri.

(** The state after a segment [cur] that is not closed yet. *)
Definition st_of (cur : bytes) : sw :=
  if decide (cur = []) then sw_slash
  else if decide (cur = [46]) then sw_dot
  else if decide (cur = [46; 46]) then sw_dot_dot
  else sw_usual.

Lemma st_of_snoc cur c : c <> 46 -> st_of (cur ++ [c]) = sw_usual.
Proof.
  intros Hc. unfold st_of. destruct cur as [|a [|b cur]]; cbn.
  - repeat case_decide; congruence.
  - repeat case_decide; congruence.
  - repeat case_decide; try done; destruct cur; discriminate.
Qed.

Lemma st_of_dot cur : st_of (cur ++ [46]) =
  match st_of cur with sw_slash => sw_dot | sw_dot => sw_dot_dot | _ => sw_usual end.
Proof.
  unfold st_of. destruct cur as [|a [|b [|c cur]]]; cbn; repeat case_decide; simplify_eq; try done;
    try (destruct cur; discriminate).
Qed.

(** What has been written: the text [t], the path so far. *)
Definition holds (x : locals) (t : bytes) : Prop :=
  0 <= u x /\ take (Z.to_nat (u x)) (mem x) = t /\ u x = blen t.
Definition written (x : locals) (stack : list bytes) (cur : bytes) : Prop := holds x (render stack cur).

Definition no_slash (s : bytes) : Prop := Forall (fun c => c <> 47) s.
Definition wf (stack : list bytes) (cur : bytes) : Prop :=
  Forall (fun s => s <> [] /\ no_slash s) stack /\ no_slash cur.

Lemma render_snoc stack cur c : render stack (cur ++ [c]) = render stack cur ++ [c].
Proof. unfold render. by rewrite <- app_assoc. Qed.

Lemma render_close stack cur : render (cur :: stack) [] = render stack cur ++ [47].
Proof. unfold render. cbn [rev]. rewrite map_app, concat_app. cbn. rewrite app_nil_r. by rewrite <- !app_assoc. Qed.

Section Steps.
Context (buf : bytes).

(** A step that went on to the next character. *)
Definition moved (x y : locals) : Prop := p y = p x + 1 /\ peek buf (p x) = Ok (ch y).

Lemma skip_moved s x w : skip buf s x = Ok w ->
  exists y, w = Next y /\ st y = s /\ moved x y /\ u y = u x /\ mem y = mem x /\
    quoted_state y = quoted_state x /\ decoded y = decoded x.
Proof.
  unfold skip, advance, moved. destruct (peek buf (p x)) as [c| |] eqn:E; cbn [obind]; intros [= <-].
  eexists. split; [reflexivity|]. cbn. split_and!; done.
Qed.

Lemma copy_holds s c x w t : copy buf s c x = Ok w -> holds x t ->
  exists y, w = Next y /\ st y = s /\ moved x y /\ holds y (t ++ [c]).
Proof.
  unfold copy, emit. intros H (Hu & Ht & Hl). destruct (_ && _) eqn:Hb; [|done].
  apply andb_prop in Hb as [_ Hb%Z.ltb_lt]. unfold blen in *.
  apply (skip_moved s) in H as (y & -> & Hs & Hm & Hyu & Hym & _). exists y. split_and!; try done.
  unfold holds. rewrite Hyu, Hym. cbn. unfold blen. rewrite length_app. cbn.
  split; [lia|]. split; [|lia].
  replace (Z.to_nat (u x + 1)) with (S (Z.to_nat (u x))) by lia.
  rewrite (take_S_r _ _ c) by (rewrite list_lookup_insert_eq; [done|lia]).
  rewrite take_insert_ge by lia. by rewrite Ht.
Qed.

Lemma copy_moved s c x w stack cur : copy buf s c x = Ok w -> written x stack cur ->
  exists y, w = Next y /\ st y = s /\ moved x y /\ written y stack (cur ++ [c]).
Proof. unfold written. rewrite render_snoc. apply copy_holds. Qed.

(** Going back over a segment. *)
Lemma go_back_segment f m (base seg : bytes) v :
  no_slash seg -> take (length base + S (length seg)) m = base ++ 47 :: seg ->
  (length base <= v <= length base + length seg)%nat -> (v - length base < f)%nat ->
  go_back f m (Z.of_nat v) = Ok (Some (blen base + 1)).
Proof.
  intros Hseg Hm. revert v. induction f as [|f IH]; intros v Hv Hf; [lia|]. cbn [go_back].
  destruct (Z.ltb_spec (Z.of_nat v) 0); [lia|].
  assert (m !! v = (base ++ 47 :: seg) !! v) as Hl.
  { rewrite <- Hm. symmetry. apply lookup_take_lt. lia. }
  rewrite lookup_app_r in Hl by lia. unfold peek. destruct (Z.ltb_spec (Z.of_nat v) 0); [lia|]. rewrite Nat2Z.id.
  destruct (v - length base)%nat as [|k] eqn:Ek.
  - cbn in Hl. rewrite (rd_lookup _ _ _ Hl). cbn [obind]. unfold blen. cbn. do 2 f_equal. lia.
  - change ((47 :: seg) !! S k) with (seg !! k) in Hl.
    destruct (lookup_lt_is_Some_2 seg k ltac:(lia)) as [c Hc]. rewrite Hc in Hl.
    rewrite (rd_lookup _ _ _ Hl). cbn [obind].
    assert (c <> 47) as Hne by (apply (Forall_lookup_1 _ _ _ _ Hseg Hc)).
    destruct (Z.eqb_spec c 47); [done|]. replace (Z.of_nat v - 1) with (Z.of_nat (v - 1)) by lia. apply IH; lia.
Qed.

(** [".."] and a slash: the last directory is removed. *)
Definition parent (stack : list bytes) : option Z :=
  match stack with [] => None | _ :: s => Some (blen (render s [])) end.

Lemma dot_dot_back x stack :
  written x stack [46; 46] -> wf stack [46; 46] ->
  go_back (S (S (Z.to_nat (u x - 5)))) (mem x) (u x - 5) = Ok (parent stack).
Proof.
  intros (Hu & Ht & Hl) [Hw _]. destruct stack as [|seg stack].
  - cbn in Hl. rewrite Hl. done.
  - apply Forall_cons in Hw as [[Hne Hs] _]. unfold render in Ht, Hl. cbn [rev] in Ht, Hl.
    rewrite map_app, concat_app in Ht, Hl. cbn in Ht, Hl. rewrite app_nil_r in Ht, Hl.
    set (base := concat (map (cons 47) (rev stack))) in *.
    assert (u x = Z.of_nat (length base + length seg + 4)) as Hux.
    { rewrite Hl. unfold blen. rewrite !length_app. cbn. lia. }
    assert (1 <= length seg)%nat by (destruct seg; [done|cbn; lia]).
    replace (u x - 5) with (Z.of_nat (length base + length seg - 1)) by lia.
    rewrite (go_back_segment _ _ base seg); [|done| |lia..].
    + unfold parent, render. fold base. unfold blen. rewrite length_app. cbn. do 2 f_equal. lia.
    + apply (f_equal (take (length base + S (length seg)))) in Ht.
      rewrite take_take, Nat.min_l in Ht by lia. rewrite Ht, <- app_assoc, take_app_ge by lia. f_equal.
      replace (length base + S (length seg) - length base)%nat with (S (length seg)) by lia.
      cbn. by rewrite take_app_length.
Qed.

(** A character that is none of ['%'], ['?'] and ['#']. *)
Definition plain (c : Z) : Prop := c <> 37 /\ c <> 63 /\ c <> 35.

Definition fed (x : locals) (stack : list bytes) (cur : bytes) (c : Z) (w : verdict locals) : Prop :=
  if decide (c = 47) then
    match enter stack cur with
    | None => exists y, w = Leave (Return NGX_HTTP_PARSE_INVALID_REQUEST) y
    | Some s => exists y, w = Next y /\ st y = sw_slash /\ moved x y /\ written y s []
    end
  else exists y, w = Next y /\ st y = st_of (cur ++ [c]) /\ moved x y /\ written y stack (cur ++ [c]).

Lemma fed_copy x x' s stack cur c w :
  c <> 47 -> st_of (cur ++ [c]) = s -> p x' = p x -> u x' = u x -> mem x' = mem x -> written x stack cur ->
  copy buf s c x' = Ok w -> fed x stack cur c w.
Proof.
  intros Hc Hs Ep Eu Em Hw H. unfold fed. destruct (decide (c = 47)) as [|_]; [done|].
  assert (written x' stack cur) as Hw' by (unfold written, holds; by rewrite Eu, Em).
  apply (copy_moved _ _ _ _ _ _ H) in Hw' as (y & -> & Hy & Hm & Hwy). exists y.
  split_and!; try done; [congruence|]. unfold moved in *. by rewrite <- Ep.
Qed.

Lemma usual_plain c : is_usual c = true -> c <> 47 /\ c <> 46.
Proof. intros H. split; intros ->; discriminate. Qed.

Lemma others_fed x stack cur w :
  plain (ch x) -> ch x <> 47 -> st_of (cur ++ [ch x]) = sw_usual -> written x stack cur ->
  on_others buf x = Ok w -> fed x stack cur (ch x) w.
Proof.
  intros (H1 & H2 & H3) H4 H5 Hw. unfold on_others.
  destruct (Z.eqb_spec (ch x) 37); [done|]. destruct (Z.eqb_spec (ch x) 63); [done|].
  destruct (Z.eqb_spec (ch x) 35); [done|].
  destruct (ch x =? 43); (eapply fed_copy; done).
Qed.

Lemma feed x stack cur w :
  st x = st_of cur -> written x stack cur -> wf stack cur -> plain (ch x) ->
  step true buf x = Ok w -> fed x stack cur (ch x) w.
Proof.
  intros Hst Hw Hwf Hp. unfold step. rewrite Hst.
  assert (is_usual (ch x) = true -> forall w, copy buf sw_usual (ch x) x = Ok w -> fed x stack cur (ch x) w) as Hus.
  { intros [? ?]%usual_plain w'. eapply fed_copy; [done|by apply st_of_snoc|done..]. }
  unfold st_of at 1. destruct (decide (cur = [])) as [Hc|Hc1]; [|destruct (decide (cur = [46])) as [Hc|Hc2];
    [|destruct (decide (cur = [46; 46])) as [Hc|Hc3]]].
  - unfold on_slash. destruct (is_usual (ch x)) eqn:Eu; [by apply Hus|].
    destruct (Z.eqb_spec (ch x) 47) as [E|Hne].
    { intros (y & -> & Hy & Hm & Eyu & Eym & _)%skip_moved. unfold fed. rewrite decide_True by done.
      rewrite Hc. cbn. exists y. split_and!; try done. rewrite Hc in Hw. unfold written, holds in *. by rewrite Eyu, Eym. }
    destruct (Z.eqb_spec (ch x) 46) as [E|Hne']; [|by apply others_fed; auto using st_of_snoc].
    eapply fed_copy; [done| |done..]. by rewrite E, st_of_dot, Hc.
  - unfold on_dot. destruct (is_usual (ch x)) eqn:Eu; [by apply Hus|].
    destruct (Z.eqb_spec (ch x) 47) as [E|Hne].
    { intros (y & -> & Hy & Hm & Eyu & Eym & _)%skip_moved. unfold fed. rewrite decide_True by done.
      rewrite Hc. cbn. exists y. split_and!; try done. rewrite Hc in Hw. destruct Hw as (Hu & Ht & Hl).
      change [46] with ([] ++ [46]) in Ht, Hl. rewrite render_snoc in Ht, Hl. unfold written, holds. rewrite Eyu, Eym. cbn.
      unfold blen in *. rewrite length_app in Hl. cbn in Hl. split; [lia|]. split; [|lia].
      apply (f_equal (take (length (render stack [])))) in Ht. rewrite take_take, take_app_length in Ht.
      etrans; [|exact Ht]. f_equal. lia. }
    destruct (Z.eqb_spec (ch x) 46) as [E|Hne']; [|by apply others_fed; auto using st_of_snoc].
    eapply fed_copy; [done| |done..]. by rewrite E, st_of_dot, Hc.
  - unfold on_dot_dot. destruct (is_usual (ch x)) eqn:Eu; [by apply Hus|].
    destruct (Z.eqb_spec (ch x) 47) as [E|Hne].
    { cbn zeta. rewrite Hc in Hw, Hwf. rewrite (dot_dot_back x stack Hw Hwf). cbn [obind]. unfold fed.
      rewrite decide_True by done. rewrite Hc. change (enter stack [46; 46]) with
        (match stack with [] => None | _ :: s => Some s end). destruct stack as [|seg s]; cbn [parent].
      - intros [= <-]. by eexists.
      - intros (y & -> & Hy & Hm & Eyu & Eym & _)%skip_moved. exists y. split_and!; try done.
        unfold written, holds. rewrite Eyu, Eym. cbn. destruct Hw as (Hu & Ht & Hl).
        assert (render (seg :: s) [46; 46] = render s [] ++ (seg ++ [47; 46; 46])) as Er.
        { unfold render. cbn [rev]. rewrite map_app, concat_app. cbn. rewrite app_nil_r, <- !app_assoc. cbn. done. }
        rewrite Er in Ht, Hl. unfold blen in *. rewrite length_app in Hl.
        split; [lia|]. split; [|done]. rewrite Nat2Z.id.
        apply (f_equal (take (length (render s [])))) in Ht. rewrite take_take, take_app_length in Ht.
        etrans; [|exact Ht]. f_equal. lia. }
    apply others_fed; try done. destruct (decide (ch x = 46)) as [E|]; [|by apply st_of_snoc].
    by rewrite E, st_of_dot, Hc.
  - unfold on_usual. destruct (is_usual (ch x)) eqn:Eu; [by apply Hus|].
    destruct (Z.eqb_spec (ch x) 47) as [E|Hne].
    { intros H. pose proof (copy_moved _ _ _ _ stack cur H Hw) as (y & -> & Hy & Hm & Hwy).
      unfold fed. rewrite decide_True by done.
      unfold enter. rewrite decide_False by tauto. rewrite decide_False by done. exists y.
      split_and!; try done. rewrite E in Hwy. unfold written in *. by rewrite render_close, <- render_snoc. }
    destruct (Z.eqb_spec (ch x) 46) as [E|Hne']; [|by apply others_fed; auto using st_of_snoc].
    eapply fed_copy; [done| |done..]. rewrite E, st_of_dot. unfold st_of.
    by rewrite !decide_False by done.
Qed.
End Steps.

(** *** The loop *)

(** The answer of the reference from a path written so far and the rest of the
    URI. *)
Definition ref (stack : list bytes) (cur s : bytes) : option bytes := path_of s ≫= norm stack cur.

Lemma bind_cons v o stack cur :
  option_map (cons v) o ≫= norm stack cur =
  if v =? 47 then enter stack cur ≫= (fun st => o ≫= norm st []) else o ≫= norm stack (cur ++ [v]).
Proof.
  destruct o as [d|]; cbn; [done|]. destruct (v =? 47); [|done]. by destruct (enter stack cur).
Qed.

Lemma ref_plain stack cur c s :
  plain c -> ref stack cur (c :: s) =
  if c =? 47 then enter stack cur ≫= (fun st => ref st [] s) else ref stack (cur ++ [c]) s.
Proof.
  intros (H1 & H2 & H3). unfold ref at 1. cbn [path_of].
  destruct (Z.eqb_spec c 63); [done|]. destruct (Z.eqb_spec c 35); [done|]. cbn [orb].
  destruct (Z.eqb_spec c 37); [done|]. apply bind_cons.
Qed.

Lemma wf_snoc stack cur c : c <> 47 -> wf stack cur -> wf stack (cur ++ [c]).
Proof. intros Hc [Hs Hn]. split; [done|]. apply Forall_app. split; [done|]. by apply Forall_singleton. Qed.

Lemma wf_enter stack cur s : wf stack cur -> enter stack cur = Some s -> wf s [].
Proof.
  intros [Hs Hn]. unfold enter. destruct (decide (cur = [] \/ cur = [46])) as [|Hne]; [intros [= <-]; by split; [|constructor]|].
  destruct (decide (cur = [46; 46])).
  - destruct stack as [|a stack]; [done|]. intros [= <-]. split; [|constructor]. by apply Forall_cons in Hs as [_ Hs].
  - intros [= <-]. split; [|constructor]. apply Forall_cons. split; [|done]. split; [tauto|done].
Qed.

Section Loop.
Context (buf : bytes) (last : Z) (Hlast : 0 <= last < blen buf).

(** [s] is the rest of the URI from the current character on. *)
Definition here (x : locals) (s : bytes) : Prop :=
  1 <= p x /\ s = drop (Z.to_nat (p x - 1)) (take (Z.to_nat last) buf) /\
  (forall c s', s = c :: s' -> ch x = c).

Lemma here_moved x y c s : here x (c :: s) -> moved buf x y -> here y s.
Proof.
  intros (Hp & Hs & _) [Hy Hc].
  assert (s = drop (Z.to_nat (p y - 1)) (take (Z.to_nat last) buf)) as Es.
  { replace (Z.to_nat (p y - 1)) with (S (Z.to_nat (p x - 1))) by lia. apply (f_equal (drop 1)) in Hs.
    rewrite drop_drop in Hs. rewrite Nat.add_1_r in Hs. exact Hs. }
  split; [lia|]. split; [done|]. intros c' s' ->.
  assert (take (Z.to_nat last) buf !! Z.to_nat (p x) = Some c') as Hl.
  { replace (Z.to_nat (p x)) with (Z.to_nat (p y - 1) + 0)%nat by lia. rewrite <- lookup_drop, <- Es. done. }
  apply lookup_take_Some in Hl as [Hl _]. unfold peek in Hc. destruct (Z.ltb_spec (p x) 0); [lia|].
  rewrite (rd_lookup _ _ _ Hl) in Hc. by injection Hc.
Qed.

Lemma here_nil x : here x [] -> last < p x.
Proof.
  intros (Hp & Hs & _). symmetry in Hs. apply (f_equal length) in Hs. rewrite length_drop, length_take in Hs.
  unfold blen in Hlast. cbn in Hs. lia.
Qed.

Lemma here_cons x c s : here x (c :: s) -> p x <= last /\ ch x = c.
Proof.
  intros (Hp & Hs & Hc). split; [|by eapply Hc]. apply (f_equal length) in Hs.
  rewrite length_drop, length_take in Hs. unfold blen in Hlast. cbn in Hs. lia.
Qed.

Lemma loop_end f x l y : last < p x -> loop f true buf last x = Ok (l, y) -> l = done /\ y = x.
Proof. intros Hp. destruct f as [|f]; cbn [loop]; [done|]. destruct (Z.ltb_spec last (p x)); [|lia]. by intros [= <- <-]. Qed.

Lemma loop_step f x l y :
  p x <= last -> loop f true buf last x = Ok (l, y) ->
  exists w, step true buf x = Ok w /\
    match w with Next z => exists f', loop f' true buf last z = Ok (l, y) | Leave l' z => l' = l /\ z = y end.
Proof.
  intros Hp. destruct f as [|f]; cbn [loop]; [done|]. destruct (Z.ltb_spec last (p x)); [lia|].
  intros (w & Hw & H')%obind_Ok_inv. exists w. split; [done|]. destruct w; [by exists f|]. by injection H' as <- <-.
Qed.

(** What the loop leaves, against the reference. *)
Definition final (o : option bytes) (l : exit) (y : locals) : Prop :=
  match o with
  | Some t => (l = done \/ l = args) /\ 0 <= u y /\ take (Z.to_nat (u y)) (mem y) = t
  | None => l = Return NGX_HTTP_PARSE_INVALID_REQUEST
  end.

Lemma written_final x stack cur l : written x stack cur -> l = done \/ l = args -> final (Some (render stack cur)) l x.
Proof. intros (Hu & Ht & _) Hl. by split_and!. Qed.

(** Feeding a character, given the claim for the rest. *)
Lemma fed_final x stack cur c s w l y :
  wf stack cur -> fed buf x stack cur c w ->
  match w with Next z => exists f, loop f true buf last z = Ok (l, y) | Leave l' z => l' = l /\ z = y end ->
  (forall z stack cur f, moved buf x z -> st z = st_of cur -> written z stack cur -> wf stack cur ->
     loop f true buf last z = Ok (l, y) -> final (ref stack cur s) l y) ->
  final (if c =? 47 then enter stack cur ≫= (fun st => ref st [] s) else ref stack (cur ++ [c]) s) l y.
Proof.
  intros Hwf Hfed Hw Hrest. unfold fed in Hfed. destruct (decide (c = 47)) as [->|Hne].
  - cbn. destruct (enter stack cur) as [stk|] eqn:He; cbn.
    + destruct Hfed as (z & -> & Hst & Hm & Hwz). destruct Hw as [f Hf].
      by apply (Hrest z stk [] f); [|..|eapply wf_enter|].
    + destruct Hfed as (z & ->). by destruct Hw as [<- _].
  - destruct (Z.eqb_spec c 47); [done|]. destruct Hfed as (z & -> & Hst & Hm & Hwz). destruct Hw as [f Hf].
    by apply (Hrest z stack (cur ++ [c]) f); [..|apply wf_snoc|].
Qed.

Lemma percent_step x cur :
  st x = st_of cur -> ch x = 37 -> step true buf x = skip buf sw_quoted (x <| quoted_state := st x |>).
Proof.
  intros Hst Hc. unfold step, on_usual, on_slash, on_dot, on_dot_dot, on_others. rewrite Hst, Hc.
  unfold st_of. by repeat case_decide.
Qed.

Lemma stop_step x cur :
  st x = st_of cur -> ch x = 63 \/ ch x = 35 ->
  exists z l, step true buf x = Ok (Leave l z) /\ (l = done \/ l = args) /\ u z = u x /\ mem z = mem x.
Proof.
  intros Hst Hc. unfold step, on_usual, on_slash, on_dot, on_dot_dot, on_others. rewrite Hst.
  destruct Hc as [-> | ->]; unfold st_of; repeat case_decide; eexists _, _; cbn; (split; [reflexivity|]); auto.
Qed.

Lemma quoted_step x a :
  st x = sw_quoted -> hex_value (ch x) = Some a ->
  exists x', step true buf x = skip buf sw_quoted_second x' /\ decoded x' = a /\ p x' = p x /\ u x' = u x /\
    mem x' = mem x /\ quoted_state x' = quoted_state x.
Proof.
  intros Hst. unfold hex_value, step, on_quoted. rewrite Hst. cbn zeta.
  change (ch (x <| req := (req x) <| quoted_uri := true |> |>)) with (ch x).
  destruct (is_num (ch x)); [|destruct (is_hex_letter (ch x)); [|done]]; intros [= <-];
    eexists; (split; [reflexivity|]); cbn; auto.
Qed.

Lemma quoted_bad x :
  st x = sw_quoted -> hex_value (ch x) = None ->
  exists z, step true buf x = Ok (Leave (Return NGX_HTTP_PARSE_INVALID_REQUEST) z).
Proof.
  intros Hst. unfold hex_value, step, on_quoted. rewrite Hst. cbn zeta.
  change (ch (x <| req := (req x) <| quoted_uri := true |> |>)) with (ch x).
  destruct (is_num (ch x)); [done|]. destruct (is_hex_letter (ch x)); [done|]. intros _. by eexists.
Qed.

Lemma hex_value_range c a : hex_value c = Some a -> 0 <= a < 16.
Proof.
  unfold hex_value, is_num, is_hex_letter. intros H. destruct (_ && _) eqn:E.
  - apply andb_prop in E as [E1%Z.leb_le E2%Z.leb_le]. injection H as <-. lia.
  - clear E. destruct (_ && _) eqn:E; [|done]. apply andb_prop in E as [E1%Z.leb_le E2%Z.leb_le]. injection H as <-. lia.
Qed.

(** The second digit: the decoded value is written, or handed to the state
    before the ['%']. *)
Lemma second_step x b w v :
  st x = sw_quoted_second -> 0 <= decoded x < 16 -> hex_value (ch x) = Some b -> v = 16 * decoded x + b ->
  step true buf x = Ok w ->
  (v = 0 /\ exists z, w = Leave (Return NGX_HTTP_PARSE_INVALID_REQUEST) z) \/
  (v <> 0 /\ plain v /\ exists z, w = Next z /\ st z = quoted_state x /\ ch z = v /\ p z = p x /\ u z = u x /\ mem z = mem x) \/
  (v <> 0 /\ ~ plain v /\ exists x', copy buf sw_usual v x' = Ok w /\ p x' = p x /\ u x' = u x /\ mem x' = mem x).
Proof.
  intros Hst Hd Hb Hv. pose proof (hex_value_range _ _ Hb) as Hr. unfold step, on_quoted_second. rewrite Hst. cbn zeta.
  unfold hex_value in Hb. rewrite (Z.shiftl_mul_pow2 _ 4) by lia. change (2 ^ 4) with 16.
  destruct (is_num (ch x)) eqn:En.
  - injection Hb as Hb. unfold is_num in En. apply andb_prop in En as [E1%Z.leb_le E2%Z.leb_le].
    assert (uwrap 8 (decoded x * 16 + ch x - 48) = v) as -> by (rewrite uwrap_small; [lia|simpl; lia]).
    destruct (Z.eqb_spec v 37), (Z.eqb_spec v 35); cbn [orb]; intros H;
      try (right; right; split; [lia|]; split; [unfold plain; lia|]; eexists; split; [exact H|]; cbn; auto; fail).
    destruct (Z.eqb_spec v 0); [left; injection H as <-; eauto|].
    right; left. split; [done|]. split; [unfold plain; lia|]. injection H as <-. eexists. split; [reflexivity|]. cbn. auto.
  - destruct (is_hex_letter (ch x)) eqn:Eh; [|done]. injection Hb as Hb.
    unfold is_hex_letter in Eh. apply andb_prop in Eh as [E1%Z.leb_le E2%Z.leb_le].
    assert (uwrap 8 (decoded x * 16 + Z.lor (ch x) 32 - 97 + 10) = v) as -> by (rewrite uwrap_small; [lia|simpl; lia]).
    destruct (Z.eqb_spec v 63); intros H.
    + right; right. split; [lia|]. split; [unfold plain; lia|]. eexists. split; [exact H|]. cbn; auto.
    + right; left. split; [lia|]. split; [unfold plain; lia|]. revert H.
      destruct (v =? 43); intros [= <-]; (eexists; split; [reflexivity|]; cbn; auto).
Qed.

Lemma second_bad x w :
  st x = sw_quoted_second -> hex_value (ch x) = None -> step true buf x = Ok w ->
  exists z, w = Leave (Return NGX_HTTP_PARSE_INVALID_REQUEST) z.
Proof.
  intros Hst. unfold hex_value, step, on_quoted_second. rewrite Hst.
  destruct (is_num (ch x)); [done|]. destruct (is_hex_letter (ch x)); [done|]. intros _ [= <-]. by eexists.
Qed.

(** The claim for one rest of the URI. *)
Definition claim (s : bytes) : Prop :=
  forall stack cur f x l y,
    here x s -> st x = st_of cur -> written x stack cur -> wf stack cur -> loop f true buf last x = Ok (l, y) ->
    final (ref stack cur s) l y.

Lemma written_same x y stack cur : u y = u x -> mem y = mem x -> written x stack cur -> written y stack cur.
Proof. unfold written, holds. by intros -> ->. Qed.

(** A percent triple, up to its last digit. *)
Lemma triple_claim s3 h l a b :
  claim s3 -> hex_value h = Some a -> hex_value l = Some b ->
  forall stack cur f x e y,
    here x (l :: s3) -> st x = sw_quoted_second -> quoted_state x = st_of cur -> decoded x = a ->
    written x stack cur -> wf stack cur -> loop f true buf last x = Ok (e, y) ->
    final (ref stack cur (37 :: h :: l :: s3)) e y.
Proof.
  intros IH Ha Hb stack cur f x e y Hx Hst Hq Hd Hw Hwf Hl.
  destruct (here_cons _ _ _ Hx) as [Hp Hch]. apply loop_step in Hl as (w & Hstep & Hl); [|done].
  pose proof (hex_value_range _ _ Ha) as Hra.
  assert (ref stack cur (37 :: h :: l :: s3) =
    if 16 * a + b =? 0 then None else option_map (cons (16 * a + b)) (path_of s3) ≫= norm stack cur) as ->.
  { unfold ref. cbn [path_of]. rewrite Ha, Hb. cbn. by destruct (16 * a + b =? 0). }
  assert (forall z, p z = p x -> forall z' stack' cur' f', moved buf z z' -> st z' = st_of cur' -> written z' stack' cur' ->
    wf stack' cur' -> loop f' true buf last z' = Ok (e, y) -> final (ref stack' cur' s3) e y) as Hrest.
  { intros z Hz z' stack' cur' f' Hm. intros. eapply (IH stack' cur' f' z'); try done.
    apply (here_moved x _ l); [done|]. unfold moved in *. by rewrite <- Hz. }
  destruct (second_step x b w (16 * a + b)) as [(Hv & z & ->)|[(Hv & Hpl & z & -> & Zs & Zc & Zp & Zu & Zm)|
    (Hv & Hnp & x' & Hcp & Xp & Xu & Xm)]]; try done; try (by rewrite Hch || lia || congruence).
  - rewrite Hv. cbn. by destruct Hl as [<- _].
  - destruct (Z.eqb_spec (16 * a + b) 0); [done|]. rewrite bind_cons. destruct Hl as [f' Hl].
    apply loop_step in Hl as (w' & Hstep' & Hl'); [|lia].
    refine (fed_final z stack cur _ s3 w' e y Hwf _ Hl' (Hrest z Zp)).
    rewrite <- Zc. apply feed; try done; [congruence|by apply (written_same x)|by rewrite Zc].
  - destruct (Z.eqb_spec (16 * a + b) 0); [done|]. rewrite bind_cons.
    refine (fed_final x' stack cur _ s3 w e y Hwf _ Hl (Hrest x' Xp)).
    apply (fed_copy buf x' x' sw_usual); try done; [unfold plain in Hnp; lia| |by apply (written_same x)].
    apply st_of_snoc. unfold plain in Hnp. lia.
Qed.

Lemma run n s : (length s <= n)%nat -> claim s.
Proof.
  revert s. induction n as [|n IH]; intros s Hn stack cur f x l y Hx Hst Hw Hwf Hl.
  - destruct s; [|cbn in Hn; lia]. apply loop_end in Hl as [-> ->]; [|by apply here_nil]. by apply written_final; auto.
  - destruct s as [|c s1].
    { apply loop_end in Hl as [-> ->]; [|by apply here_nil]. by apply written_final; auto. }
    cbn in Hn. destruct (here_cons _ _ _ Hx) as [Hp Hch].
    apply loop_step in Hl as (w & Hstep & Hl); [|done].
    destruct (decide (c = 63 \/ c = 35)) as [Hc|Hc].
    { destruct (stop_step x cur Hst ltac:(by rewrite Hch)) as (z & l' & Hz & Hl' & Zu & Zm).
      rewrite Hz in Hstep. injection Hstep as <-. destruct Hl as [<- <-].
      assert (ref stack cur (c :: s1) = Some (render stack cur)) as ->.
      { unfold ref. cbn [path_of]. by destruct Hc as [-> | ->]. }
      apply written_final; [by apply (written_same x)|done]. }
    destruct (decide (c = 37)) as [->|Hc'].
    + rewrite (percent_step x cur) in Hstep by done.
      apply skip_moved in Hstep as (x1 & -> & X1s & X1m & X1u & X1e & X1q & X1d). destruct Hl as [f1 Hl].
      apply (here_moved x x1) in Hx; [|exact X1m].
      assert (written x1 stack cur) as Hw1 by (by apply (written_same x)).
      destruct s1 as [|h s2].
      { apply loop_end in Hl as [-> ->]; [|by apply here_nil]. by apply written_final; auto. }
      destruct (here_cons _ _ _ Hx) as [Hp1 Hch1]. apply loop_step in Hl as (w & Hstep & Hl); [|done].
      destruct (hex_value h) as [a|] eqn:Ha.
      2: { destruct (quoted_bad x1 X1s ltac:(by rewrite Hch1)) as [z Hz]. rewrite Hz in Hstep. injection Hstep as <-.
           destruct Hl as [<- _]. unfold ref. cbn [path_of]. by rewrite Ha. }
      destruct (quoted_step x1 a X1s ltac:(by rewrite Hch1)) as (x1' & Hs1 & Ed & Ep & Eu & Em & Eq).
      rewrite Hs1 in Hstep. apply skip_moved in Hstep as (x2 & -> & X2s & X2m & X2u & X2e & X2q & X2d).
      destruct Hl as [f2 Hl].
      apply (here_moved x1 x2) in Hx; [|unfold moved in *; by rewrite <- Ep].
      assert (written x2 stack cur) as Hw2 by (apply (written_same x1); [congruence..|done]).
      destruct s2 as [|lo s3].
      { apply loop_end in Hl as [-> ->]; [|by apply here_nil]. unfold ref. cbn [path_of]. rewrite Ha. cbn.
        by apply written_final; auto. }
      destruct (hex_value lo) as [b|] eqn:Hb.
      * apply (triple_claim s3 h lo a b ltac:(apply IH; cbn in Hn; lia) Ha Hb stack cur f2 x2); try done; [|congruence].
        rewrite X2q, Eq, X1q. done.
      * destruct (here_cons _ _ _ Hx) as [Hp2 Hch2]. apply loop_step in Hl as (w & Hstep & Hl); [|done].
        destruct (second_bad x2 w X2s ltac:(by rewrite Hch2) Hstep) as [z ->]. destruct Hl as [<- _].
        unfold ref. cbn [path_of]. by rewrite Ha, Hb.
    + rewrite ref_plain by (unfold plain; tauto).
      refine (fed_final x stack cur c s1 w l y Hwf _ Hl _).
      * rewrite <- Hch. apply feed; try done. rewrite Hch. unfold plain. tauto.
      * intros z stack' cur' f' Hm. intros. eapply (IH s1 ltac:(lia) stack' cur' f' z); try done.
        by apply (here_moved x _ c).
Qed.
End Loop.

(** The first slash, then the claim for the rest. *)
Lemma complex_uri_normal buf mem r start last rc x :
  uri_start r = Some start -> uri_end r = Some last -> 0 <= start < last -> last < blen buf ->
  at_ buf start = Some 47 ->
  ngx_http_parse_complex_uri true buf mem r = Ok (rc, x) ->
  match normal_path (slice buf start last) with
  | Some t => rc = NGX_OK /\ uri_of x = t
  | None => rc = NGX_HTTP_PARSE_INVALID_REQUEST
  end.
Proof.
  intros Es El Hs Hl Ha. unfold ngx_http_parse_complex_uri. rewrite Es, El.
  rewrite (Parsed.peek_at buf start 47) by (done || lia). cbn [obind].
  set (x0 := mk_locals _ _ _ _ _ _ _ _ _ _ _ _). intros ([l y] & Hloop & H)%obind_Ok_inv.
  assert (slice buf start last = 47 :: drop 1 (slice buf start last)) as Es1.
  { unfold slice. unfold at_ in Ha. rewrite (drop_S _ _ _ Ha).
    destruct (Z.to_nat (last - start)) as [|k] eqn:E; [lia|]. done. }
  set (s1 := drop 1 (slice buf start last)) in *. rewrite Es1.
  assert (here buf last x0 (47 :: s1)) as Hx0.
  { split; [cbn; lia|]. split; [|by intros c s' [= <- _]]. rewrite <- Es1. unfold slice. cbn.
    replace (Z.to_nat (start + 1 - 1)) with (Z.to_nat start) by lia.
    rewrite <- take_drop_commute || rewrite skipn_firstn_comm. f_equal. lia. }
  destruct (here_cons buf last ltac:(lia) _ _ _ Hx0) as [Hp _].
  apply loop_step in Hloop as (w & Hstep & Hloop); [|done].
  change (step true buf x0) with (copy buf sw_slash 47 (x0 <| ext := None |>)) in Hstep.
  destruct (copy_holds buf sw_slash 47 (x0 <| ext := None |>) w [] Hstep) as (z & -> & Hz & Hm & Hw).
  { split; [cbn; lia|]. split; [by cbn|]. by cbn. }
  destruct Hloop as [f Hloop].
  pose proof (run buf last ltac:(lia) (length s1) s1 (le_n _) [] [] f z l y) as Hfin.
  assert (normal_path (47 :: s1) = ref [] [] s1) as ->.
  { unfold normal_path, ref. cbn [path_of]. cbn. destruct (path_of s1) as [d|]; [|done]. cbn [option_map mbind option_bind].
    apply normalize_norm. }
  specialize (Hfin (here_moved buf last x0 z 47 s1 Hx0 Hm) Hz Hw (conj (List.Forall_nil _) (List.Forall_nil _)) Hloop).
  assert (forall v, u v = u y -> ComplexUri.mem v = ComplexUri.mem y -> uri_of (close v) = take (Z.to_nat (u y)) (ComplexUri.mem y)) as Hclose.
  { intros v Hv Hmv. unfold uri_of. destruct (Safe.close_frame v) as [-> ->]. by rewrite Hv, Hmv. }
  destruct (ref [] [] s1) as [t'|]; cbn [final] in Hfin.
  - destruct Hfin as ([-> | ->] & _ & Ht); injection H as <- <-; (split; [done|]).
    + by rewrite Hclose.
    + destruct (Safe.cut_args_frame buf last y) as (Eu & Em & _). by rewrite Hclose.
  - subst l. by injection H as <- _.
Qed.
End Refine.
