(* ===== verification/NgxRequestProps.v ===== *)
(** * Properties of request parsing

    The request line and the URI of a request, put together. *)
From S2P Require Import Prelude.
From S2P Require Import NgxHttpParse NgxRequestLine NgxUri NgxHeaderLine.
From S2P Require Import NgxRequestLineProps NgxRequestLineInv NgxUriProps NgxUriNormal.

(** ** A simple path is its own normal form *)

Definition no_mark (c : Z) : Prop := c <> 37 /\ c <> 35 /\ c <> 63.

Lemma path_of_simple d t :
  Forall no_mark d -> t = [] \/ head t = Some 63 -> path_of (d ++ t) = Some d.
Proof.
  intros Hd Ht. induction Hd as [|c d (H1 & H2 & H3) _ IH]; cbn [app].
  - destruct t as [|c t]; [done|]. destruct Ht as [|[= ->]]; done.
  - cbn [path_of]. destruct (Z.eqb_spec c 63); [done|]. destruct (Z.eqb_spec c 35); [done|]. cbn [orb].
    destruct (Z.eqb_spec c 37); [done|]. by rewrite IH.
Qed.

(** No slash is followed by a slash or a dot. *)
Fixpoint spaced (d : bytes) : Prop :=
  match d with
  | [] => True
  | c :: d' => (c = 47 -> head d' <> Some 47 /\ head d' <> Some 46) /\ spaced d'
  end.

Lemma norm_simple d stack cur :
  spaced d -> head cur <> Some 46 -> (cur = [] -> head d <> Some 47 /\ head d <> Some 46) ->
  norm stack cur d = Some (render stack cur ++ d).
Proof.
  revert stack cur. induction d as [|c d IH]; intros stack cur Hd Hh He; cbn [norm].
  - by rewrite app_nil_r.
  - destruct Hd as [Hc Hs]. destruct (Z.eqb_spec c 47) as [->|Hne].
    + assert (cur <> []) as Hne by (intros E; by destruct (He E)).
      assert (enter stack cur = Some (cur :: stack)) as ->.
      { unfold enter. destruct cur as [|a cur]; [done|]. cbn in Hh.
        rewrite !decide_False; [done|congruence|]. intros [|]; congruence. }
      cbn [mbind option_bind]. rewrite IH; [|done|done|by intros _; apply Hc].
      rewrite Refine.render_close. by rewrite <- app_assoc.
    + rewrite IH; [|done| |by destruct cur].
      * rewrite Refine.render_snoc, <- app_assoc. done.
      * destruct cur as [|a cur]; [|done]. destruct (He eq_refl). done.
Qed.

Lemma slice_lookup buf a b i :
  0 <= a -> (Z.of_nat i < b - a) -> slice buf a b !! i = at_ buf (a + Z.of_nat i).
Proof.
  intros Ha Hi. unfold slice, at_. rewrite lookup_take_lt by lia. rewrite lookup_drop. f_equal. lia.
Qed.

Lemma head_lookup {A} (l : list A) : head l = l !! 0%nat.
Proof. by destruct l. Qed.

Lemma spaced_lookup d :
  (forall i, d !! i = Some 47 -> d !! S i <> Some 47 /\ d !! S i <> Some 46) -> spaced d.
Proof.
  induction d as [|c d IH]; cbn [spaced]; intros H; [done|]. split.
  - intros ->. rewrite head_lookup. exact (H 0%nat eq_refl).
  - apply IH. intros i. exact (H (S i)).
Qed.

(** The path of a simple URI. *)
Lemma simple_normal buf u q e :
  0 <= u < q -> q <= e -> e <= blen buf -> at_ buf u = Some 47 -> simple buf u q ->
  q = e \/ at_ buf q = Some 63 ->
  normal_path (slice buf u e) = Some (slice buf u q).
Proof.
  intros Hu Hq He Ha Hs Hend.
  assert (slice buf u e = slice buf u q ++ slice buf q e) as ->.
  { unfold slice. replace (Z.to_nat (e - u)) with (Z.to_nat (q - u) + Z.to_nat (e - q))%nat by lia.
    rewrite <- take_take_drop, drop_drop. do 3 f_equal. lia. }
  assert (blen (slice buf u q) = q - u) as Hlen by (apply Parsed.slice_length; lia).
  assert (forall i c, slice buf u q !! i = Some c -> at_ buf (u + Z.of_nat i) = Some c /\ Z.of_nat i < q - u) as Hl.
  { intros i c Hi. pose proof (lookup_lt_Some _ _ _ Hi) as Hlt. unfold blen in Hlen.
    rewrite slice_lookup in Hi by lia. split; [done|lia]. }
  unfold normal_path. rewrite path_of_simple.
  - cbn [mbind option_bind]. destruct (slice buf u q) as [|c d] eqn:E; [unfold blen in Hlen; cbn in Hlen; lia|].
    rewrite normalize_norm.
    assert (c = 47) as ->.
    { destruct (Hl 0%nat c eq_refl) as [Hc _]. rewrite Z.add_0_r, Ha in Hc. by injection Hc. }
    assert (spaced (47 :: d)) as [Hd1 Hd].
    { apply spaced_lookup. intros i Hi. destruct (Hl i 47 Hi) as [Hc Hlt].
      destruct (Hs (u + Z.of_nat i) ltac:(lia)) as [_ Hn]. specialize (Hn Hc).
      assert (forall c, (47 :: d) !! S i = Some c -> c = 47 \/ c = 46 -> False) as Hno.
      { intros c Hc' Hor. destruct (Hl (S i) c Hc') as [Hc'' Hlt'].
        replace (u + Z.of_nat (S i)) with (u + Z.of_nat i + 1) in Hc'' by lia.
        destruct (Hn ltac:(lia)). destruct Hor as [-> | ->]; congruence. }
      split; intros Hx; eapply Hno; eauto. }
    rewrite norm_simple; [done|done|done|by intros _; apply Hd1].
  - apply Forall_lookup_2. intros i c Hi. destruct (Hl i c Hi) as [Hc Hlt].
    destruct (Hs (u + Z.of_nat i) ltac:(lia)) as [(H1 & H2 & H3) _]. unfold no_mark. split_and!; congruence.
  - destruct Hend as [->|Hend].
    + left. unfold slice. by replace (Z.to_nat (e - e)) with 0%nat by lia.
    + destruct (decide (q = e)) as [->|]; [left; unfold slice; by replace (Z.to_nat (e - e)) with 0%nat by lia|].
      right. rewrite head_lookup, slice_lookup by lia. rewrite Z.add_0_r. done.
Qed.

Module RequestPath.
Import RequestLine RequestUri.

(** The pieces of a parsed line that the URI functions use. *)
Lemma parsed_uri buf p r :
  parsed buf p r ->
  exists u e, uri_start r = Some u /\ uri_end r = Some e /\ 0 <= u < e /\ e < blen buf /\ at_ buf u = Some 47 /\
    (u < path_end r e <= e /\ (path_end r e = e \/ at_ buf (path_end r e) = Some 63)) /\
    (clean r -> simple buf u (path_end r e)) /\ raw_len r = Ok (path_end r e - u).
Proof.
  intros (_ & m & me & u & e & re & _ & _ & Hu & He & _ & ? & ? & ? & ? & (Hsl & Ha & _) & Ht).
  exists u, e. split_and!; try (done || lia).
  - unfold path_end. destruct (args_start r) as [a|] eqn:E; [|lia]. destruct (Ha a eq_refl) as [? Hq].
    assert (a - 1 <> u) by (intros E'; rewrite E' in Hq; congruence). lia.
  - unfold path_end. destruct (args_start r) as [a|] eqn:E; [|lia]. destruct (Ha a eq_refl). lia.
  - unfold path_end. destruct (args_start r) as [a|] eqn:E; [|auto]. right. by apply Ha.
  - intros Hc. by apply Ht.
  - unfold raw_len, path_end. rewrite Hu, He. by destruct (args_start r).
Qed.

(** C14: For every request line that the parser accepts, [ngx_http_process_request_uri]
    with [merge_slashes] on gives [r->uri] the normal form of the path, and refuses the
    request when there is none.  In the normal form the percent triples are decoded, and
    of the segments before the last one those that are empty or ["."] are skipped and
    [".."] removes the one before it; the last segment, behind the last slash, stays as
    it is, even ["."] or [".."].  There is none for a [".."] above the root, a bad
    triple or an encoded NUL.  A URI with a space in it that the parser does not flag as
    complex or quoted is excluded. *)
Theorem request_uri_normal buf p r u e :
  parsed buf p r -> uri_start r = Some u -> uri_end r = Some e ->
  space_in_uri r = false \/ complex_uri r = true \/ quoted_uri r = true ->
  exists res, ngx_http_process_request_uri true buf r = Ok res /\
    match normal_path (slice buf u e) with
    | Some t => exists r' s, res = Some (r', s) /\ uri s = t
    | None => res = None
    end.
Proof.
  intros HP Hu He Hflag. destruct (Parsed.process_request_uri_defined true buf p r HP) as (res & Hres & _).
  exists res. split; [done|].
  destruct (parsed_uri _ _ _ HP) as (u' & e' & Hu' & He' & ? & ? & Hsl & [? Hq] & Hsimple & Hraw).
  rewrite Hu in Hu'. injection Hu' as <-. rewrite He in He'. injection He' as <-. revert Hres.
  unfold ngx_http_process_request_uri. rewrite Hraw, Hu, He. cbn [obind].
  destruct (complex_uri r || quoted_uri r) eqn:Hcq.
  - intros ([rc x] & Hx & H')%obind_Ok_inv.
    pose proof (Refine.complex_uri_normal _ _ _ _ _ _ _ Hu He ltac:(done) ltac:(done) Hsl Hx) as Hn.
    destruct (normal_path _) as [t|].
    + destruct Hn as [-> Ht]. cbn in H'. injection H' as <-. eexists _, _. split; [reflexivity|]. exact Ht.
    + subst rc. cbn in H'. by injection H' as <-.
  - apply orb_false_elim in Hcq as [Hc Hqu]. intros [= <-].
    assert (clean r) as Hclean by (split_and!; [done|done|]; destruct Hflag as [|[|]]; congruence).
    rewrite (simple_normal buf u (path_end r e) e); try done; try lia; [|by apply Hsimple].
    eexists _, _. split; [reflexivity|]. cbn. f_equal. lia.
Qed.

(** A request line with a percent triple and dot segments. *)
Definition dotted_line : bytes := bs "GET /a/./b//%63/../d?x=1 HTTP/1.1" ++ [13; 10].

Definition after_parsing (buf : bytes) : request :=
  match ngx_http_parse_request_line buf 0 new_request with Ok (_, _, r) => r | _ => new_request end.

Lemma dotted_line_parsed : parsed dotted_line 35 (after_parsing dotted_line).
Proof.
  destruct (request_line_kept dotted_line 0 new_request) as (rc & p & r & E & H).
  { vm_compute. split; discriminate. }
  { apply new_request_stored. }
  unfold after_parsing. rewrite E. vm_compute in E. apply Ok3_inj in E as (<- & <- & <-).
  destruct H as [[H _]|[(_ & _ & H)|[[H|H] _]]]; [discriminate H|exact H|discriminate H..].
Qed.

Lemma request_uri_normal_witness :
  normal_path (slice dotted_line 4 24) = Some (bs "/a/b/d") /\
  exists res, ngx_http_process_request_uri true dotted_line (after_parsing dotted_line) = Ok res /\
    match normal_path (slice dotted_line 4 24) with
    | Some t => exists r' s, res = Some (r', s) /\ uri s = t
    | None => res = None
    end.
Proof.
  split; [vm_compute; reflexivity|].
  apply (request_uri_normal dotted_line 35 (after_parsing dotted_line) 4 24 dotted_line_parsed);
    [vm_compute; reflexivity..|]. left. vm_compute. reflexivity.
Defined.

(** C15: The request line parser never reads outside the bytes received: from a
    new request, or from what a call that ran out of bytes stored, it returns;
    out of bytes it stores a request that keeps the state's invariant whatever
    is received next; a parsed line has its method, its URI (from a slash) and its
    end in order, and its URI is then processed without reading or writing
    outside the buffers. *)
Theorem request_line_in_bounds buf pos :
  0 <= pos <= blen buf ->
  stored buf pos new_request /\
  forall r, stored buf pos r ->
    exists rc p r', ngx_http_parse_request_line buf pos r = Ok (rc, p, r') /\
      ((rc = NGX_AGAIN /\ p = blen buf /\ forall more, stored (buf ++ more) p r') \/
       (rc = NGX_OK \/ rc = NGX_HTTP_PARSE_INVALID_09_METHOD) /\ pos < p /\ parsed buf p r' /\
         (forall merge_slashes, exists res, ngx_http_process_request_uri merge_slashes buf r' = Ok res) \/
       (rc = NGX_HTTP_PARSE_INVALID_METHOD \/ rc = NGX_HTTP_PARSE_INVALID_REQUEST) /\ p = pos).
Proof.
  intros Hpos. split; [apply new_request_stored|]. intros r Hr.
  destruct (request_line_kept buf pos r Hpos Hr) as (rc & p & r' & E & H). exists rc, p, r'. split; [done|].
  destruct H as [(Hrc & -> & Hs)|[(Hrc & Hp & HP)|H]]; [left|right; left|by right; right].
  - split_and!; [done..|]. intros more. apply stored_app; [lia|done].
  - split_and!; [done..|]. intros ms. destruct (Parsed.process_request_uri_defined ms buf p r' HP) as (res & ? & _). eauto.
Qed.

Lemma request_line_in_bounds_witness :
  exists rc p r', ngx_http_parse_request_line dotted_line 0 new_request = Ok (rc, p, r').
Proof.
  destruct (request_line_in_bounds dotted_line 0) as [Hn H]; [vm_compute; split; discriminate|].
  destruct (H new_request Hn) as (rc & p & r' & E & _). exists rc, p, r'. exact E.
Defined.
End RequestPath.

(** A request line, a header line or an upstream status line that arrives in
    two pieces is parsed as one that arrives whole: after [NGX_AGAIN] on the
    first piece the parser has consumed it, and called again it answers what one
    call on both pieces answers, with the same position and the same request when
    the answer is [NGX_OK] or [NGX_AGAIN]. *)
Theorem lines_resume buf more pos r :
  0 <= pos <= blen buf ->
  (forall p r', RequestLine.ngx_http_parse_request_line buf pos r = Ok (NGX_AGAIN, p, r') ->
     p = blen buf /\
     agree (RequestLine.ngx_http_parse_request_line (buf ++ more) pos r)
           (RequestLine.ngx_http_parse_request_line (buf ++ more) p r')) /\
  (forall allow p r', HeaderLine.ngx_http_parse_header_line allow buf pos r = Ok (NGX_AGAIN, p, r') ->
     p = blen buf /\
     agree (HeaderLine.ngx_http_parse_header_line allow (buf ++ more) pos r)
           (HeaderLine.ngx_http_parse_header_line allow (buf ++ more) p r')) /\
  (forall s p r' s', StatusLine.ngx_http_parse_status_line buf pos r s = Ok (NGX_AGAIN, p, (r', s')) ->
     p = blen buf /\
     agree (StatusLine.ngx_http_parse_status_line (buf ++ more) pos r s)
           (StatusLine.ngx_http_parse_status_line (buf ++ more) p r' s')).
Proof.
  intros Hpos. split_and!; intros;
    [by apply Line.request_line_resumes|by apply Header.header_line_resumes|by apply Status.status_line_resumes].
Qed.

Definition half_line : bytes := bs "GET /lo".
Definition rest_of_line : bytes := bs "okaround HTTP/1.0" ++ [10].
Definition half_parsed : request :=
  match RequestLine.ngx_http_parse_request_line half_line 0 new_request with Ok (_, _, r) => r | _ => new_request end.

Lemma lines_resume_witness :
  agree (RequestLine.ngx_http_parse_request_line (half_line ++ rest_of_line) 0 new_request)
        (RequestLine.ngx_http_parse_request_line (half_line ++ rest_of_line) 7 half_parsed).
Proof.
  refine (proj2 (proj1 (lines_resume half_line rest_of_line 0 new_request _) 7 half_parsed _)).
  - vm_compute. split; discriminate.
  - vm_compute. reflexivity.
Defined.

(** ** Printing and parsing a request line *)
Module RoundTrip.
Import RequestLine.

Definition methods : list (bytes * Z) :=
  [(bs "GET", NGX_HTTP_GET); (bs "HEAD", NGX_HTTP_HEAD); (bs "POST", NGX_HTTP_POST); (bs "PUT", NGX_HTTP_PUT);
   (bs "DELETE", NGX_HTTP_DELETE); (bs "MKCOL", NGX_HTTP_MKCOL); (bs "COPY", NGX_HTTP_COPY); (bs "MOVE", NGX_HTTP_MOVE);
   (bs "OPTIONS", NGX_HTTP_OPTIONS); (bs "PROPFIND", NGX_HTTP_PROPFIND); (bs "PROPPATCH", NGX_HTTP_PROPPATCH);
   (bs "LOCK", NGX_HTTP_LOCK); (bs "UNLOCK", NGX_HTTP_UNLOCK); (bs "PATCH", NGX_HTTP_PATCH); (bs "TRACE", NGX_HTTP_TRACE)].

(** The characters a URI of a request line may have. *)
Definition uri_char (c : Z) : Prop := c <> 32 /\ c <> 13 /\ c <> 10 /\ c <> 0.

Definition print_line (name uri : bytes) (major minor : Z) : bytes :=
  name ++ bs " " ++ uri ++ bs " HTTP/" ++ [48 + major; 46; 48 + minor; 13; 10].

(** Scanning the method and the space after it. *)
Lemma scan_method name code rest :
  (name, code) ∈ methods ->
  exists r, scan (step (name ++ 32 :: rest)) (name ++ [32]) 0 (sw_start, new_request) =
    Ok (blen name + 1, None, (sw_spaces_before_uri, r)) /\
    r = new_request <| request_start := Some 0 |> <| method_end := Some (blen name - 1) |> <| method := code |>.
Proof.
  intros H. unfold methods in H. repeat (apply elem_of_cons in H as [[= -> ->]|H]); [..|by apply elem_of_nil in H];
    eexists; (split; [vm_compute; reflexivity|reflexivity]).
Qed.

(** The fields that the scan of a URI leaves alone. *)
Definition same (r r' : request) : Prop :=
  method r' = method r /\ request_start r' = request_start r /\ method_end r' = method_end r /\
  uri_start r' = uri_start r /\ request_end r' = request_end r.

Definition in_uri (s : sw) : Prop := s = sw_after_slash_in_uri \/ s = sw_check_uri \/ s = sw_uri.

Lemma uri_step buf p ch s r :
  in_uri s -> uri_char ch ->
  exists s' r', step buf p ch (s, r) = Ok (Next (s', r')) /\ in_uri s' /\ same r r'.
Proof.
  intros Hs (H1 & H2 & H3 & H4). unfold in_uri, same.
  destruct Hs as [-> |[-> | ->]]; cbn [step]; unfold on_after_slash_in_uri, on_check_uri, on_uri;
    destruct (Z.eqb_spec ch 32); try done; destruct (Z.eqb_spec ch 13); try done;
    destruct (Z.eqb_spec ch 10); try done; destruct (Z.eqb_spec ch 0); try done;
    tests; eexists _, _; (split; [reflexivity|]); cbn; auto 10.
Qed.

Lemma scan_uri buf w p s r :
  in_uri s -> Forall uri_char w ->
  exists s' r', scan (step buf) w p (s, r) = Ok (p + blen w, None, (s', r')) /\ in_uri s' /\ same r r'.
Proof.
  intros Hs Hw. revert p s r Hs. induction Hw as [|ch w Hch _ IH]; intros p s r Hs.
  - exists s, r. cbn. rewrite Z.add_0_r. by split_and!.
  - destruct (uri_step buf p ch s r Hs Hch) as (s1 & r1 & E & Hs1 & Hr1). cbn [scan]. rewrite E. cbn [obind].
    destruct (IH (p + 1) s1 r1 Hs1) as (s2 & r2 & -> & Hs2 & Hr2). exists s2, r2. split_and!; try done.
    + unfold blen. cbn. do 3 f_equal. lia.
    + unfold same in *. intuition congruence.
Qed.

(** The state after a space that ends the URI. *)
Lemma space_step buf p s r :
  in_uri s -> exists s', (s' = sw_check_uri_http_09 \/ s' = sw_http_09) /\
    step buf p 32 (s, r) = Ok (Next (s', r <| uri_end := Some p |>)).
Proof. intros [-> |[-> | ->]]; eexists; (split; [|reflexivity]); auto. Qed.

Lemma http_step buf p s r :
  s = sw_check_uri_http_09 \/ s = sw_http_09 ->
  step buf p 72 (s, r) = Ok (Next (sw_http_H, r <| http_protocol := Some p |>)).
Proof. by intros [-> | ->]. Qed.

Lemma major_step buf p d r :
  1 <= d <= 9 -> step buf p (48 + d) (sw_first_major_digit, r) = Ok (Next (sw_major_digit, r <| http_major := d |>)).
Proof.
  intros Hd. cbn [step]. unfold on_first_major_digit. rewrite (proj2 (Z.ltb_ge _ _)), (proj2 (Z.ltb_ge _ _)) by lia.
  cbn [orb]. replace (48 + d - 48) with d by lia. rewrite uwrap_small by (change (2 ^ 16) with 65536; lia). done.
Qed.

Lemma minor_step buf p d r :
  0 <= d <= 9 -> step buf p (48 + d) (sw_first_minor_digit, r) = Ok (Next (sw_minor_digit, r <| http_minor := d |>)).
Proof.
  intros Hd. cbn [step]. unfold on_first_minor_digit, is_num.
  rewrite (proj2 (Z.leb_le _ _)), (proj2 (Z.leb_le _ _)) by lia.
  cbn [andb negb]. replace (48 + d - 48) with d by lia. rewrite uwrap_small by (change (2 ^ 16) with 65536; lia). done.
Qed.

Lemma scan_version buf p s r major minor :
  in_uri s -> 1 <= major <= 9 -> 0 <= minor <= 9 ->
  exists r', scan (step buf) (32 :: 72 :: 84 :: 84 :: 80 :: 47 :: [48 + major; 46; 48 + minor; 13; 10]) p (s, r) =
      Ok (p + 10, Some done, (sw_almost_done, r')) /\
    method r' = method r /\ request_start r' = request_start r /\ method_end r' = method_end r /\
    uri_start r' = uri_start r /\ uri_end r' = Some p /\ request_end r' = Some (p + 9) /\
    http_major r' = major /\ http_minor r' = minor.
Proof.
  intros Hs Hmaj Hmin. destruct (space_step buf p s r Hs) as (s' & Hs' & E).
  rewrite (scan_next _ _ _ _ _ _ E), (scan_next _ _ _ _ _ _ (http_step buf _ s' _ Hs')).
  do 4 (rewrite (scan_next _ _ _ _ _ (_, _)) by reflexivity).
  rewrite (scan_next _ _ _ _ _ _ (major_step buf _ major _ Hmaj)), (scan_next _ _ _ _ _ (sw_first_minor_digit, _)) by reflexivity.
  rewrite (scan_next _ _ _ _ _ _ (minor_step buf _ minor _ Hmin)), (scan_next _ _ _ _ _ (sw_almost_done, _)) by reflexivity.
  replace (p + 1 + 1 + 1 + 1 + 1 + 1 + 1 + 1 + 1 + 1) with (p + 10) by lia.
  eexists. split; [reflexivity|]. cbn. split_and!; try done. f_equal. lia.
Qed.

Lemma scan_line name code w major minor more :
  (name, code) ∈ methods -> Forall uri_char w -> 1 <= major <= 9 -> 0 <= minor <= 9 ->
  let rest := 47 :: w ++ (32 :: 72 :: 84 :: 84 :: 80 :: 47 :: [48 + major; 46; 48 + minor; 13; 10]) ++ more in
  exists r, scan (step (name ++ 32 :: rest)) (name ++ 32 :: rest) 0 (sw_start, new_request) =
      Ok (blen name + blen w + 12, Some done, (sw_almost_done, r)) /\
    method r = code /\ request_start r = Some 0 /\ method_end r = Some (blen name - 1) /\
    uri_start r = Some (blen name + 1) /\ uri_end r = Some (blen name + blen w + 2) /\
    request_end r = Some (blen name + blen w + 11) /\ http_major r = major /\ http_minor r = minor.
Proof.
  intros Hm Hw Hmaj Hmin rest. destruct (scan_method name code rest Hm) as (r1 & E1 & R1).
  set (B := name ++ 32 :: rest) in *.
  replace (scan (step B) B) with (scan (step B) ((name ++ [32]) ++ rest)) by (unfold B; by rewrite <- app_assoc).
  rewrite scan_app, E1. cbn [obind]. unfold rest at 1. rewrite (scan_next _ _ _ _ _ (sw_after_slash_in_uri, r1 <| uri_start := Some (blen name + 1) |>)) by reflexivity.
  destruct (scan_uri B w (blen name + 1 + 1) sw_after_slash_in_uri
    (r1 <| uri_start := Some (blen name + 1) |>)) as (s2 & r2 & E2 & Hs2 & R2); [by left|done|].
  rewrite scan_app, E2. cbn [obind]. rewrite scan_app.
  destruct (scan_version B (blen name + 1 + 1 + blen w) s2 r2 major minor Hs2 Hmaj Hmin)
    as (r3 & E3 & R3). rewrite E3. cbn [obind].
  exists r3. unfold same in R2. subst r1. cbn in R2.
  replace (blen name + 1 + 1 + blen w) with (blen name + blen w + 2) in * by lia.
  replace (blen name + blen w + 2 + 10) with (blen name + blen w + 12) by lia.
  replace (blen name + blen w + 2 + 9) with (blen name + blen w + 11) in R3 by lia.
  split; [done|]. intuition congruence.
Qed.

(** C17: A printed request line is parsed back: the method of the table, a URI
    that starts with a slash and has no space, CR, LF or NUL, and a version of one
    digit and one digit come out as they were put in, whatever follows the line, the
    position is just behind it, and the first character of the buffer is the
    start of the request. *)
Theorem request_line_roundtrip name code w major minor more :
  (name, code) ∈ methods -> Forall uri_char w -> 1 <= major <= 9 -> 0 <= minor <= 9 ->
  let line := print_line name (47 :: w) major minor in
  exists r, ngx_http_parse_request_line (line ++ more) 0 new_request = Ok (NGX_OK, blen line, r) /\
    method r = code /\ request_start r = Some 0 /\ method_end r = Some (blen name - 1) /\
    uri_start r = Some (blen name + 1) /\ uri_end r = Some (blen name + 1 + blen (47 :: w)) /\
    http_major r = major /\ http_minor r = minor /\ http_version r = major * 1000 + minor /\
    request_end r = Some (blen line - 2) /\ state r = 0.
Proof.
  intros Hm Hw Hmaj Hmin line.
  destruct (scan_line name code w major minor more Hm Hw Hmaj Hmin) as (r & E & H).
  replace (line ++ more) with (name ++ 32 :: 47 :: w ++ (32 :: 72 :: 84 :: 84 :: 80 :: 47 :: [48 + major; 46; 48 + minor; 13; 10]) ++ more)
    by (unfold line, print_line; rewrite <- !app_assoc; reflexivity).
  unfold ngx_http_parse_request_line. cbn [state new_request]. change (load 0) with (Ok sw_start). cbn [obind].
  change (Z.to_nat 0) with 0%nat. rewrite drop_0, E. cbn [obind].
  assert (blen line = blen name + blen w + 13) as -> by
    (unfold line, print_line, blen; rewrite !length_app; cbn; lia).
  destruct H as (H1 & H2 & H3 & H4 & H5 & H6 & H7 & H8).
  unfold at_done. rewrite H6. cbn. rewrite H7, H8.
  destruct (Z.eqb_spec (major * 1000 + minor) 9); [lia|]. cbn.
  eexists. split; [f_equal; f_equal; f_equal; lia|]. cbn. unfold blen in *. cbn in *.
  split_and!; try done; rewrite ?H5, ?H6; f_equal; lia.
Qed.

Lemma request_line_roundtrip_witness :
  exists r, ngx_http_parse_request_line (print_line (bs "PUT") (bs "/setitem?x=%20") 1 1 ++ bs "Host: a") 0 new_request =
    Ok (NGX_OK, 29, r) /\ method r = NGX_HTTP_PUT.
Proof.
  assert ((bs "PUT", NGX_HTTP_PUT) ∈ methods) as Hm by (vm_compute; right; right; right; left).
  destruct (request_line_roundtrip (bs "PUT") NGX_HTTP_PUT (bs "setitem?x=%20") 1 1 (bs "Host: a") Hm)
    as (r & E & H & _).
  - apply Forall_forall. intros c Hc. vm_compute in Hc. unfold uri_char. set_solver by lia.
  - lia.
  - lia.
  - exists r. split; [exact E|exact H].
Defined.

End RoundTrip.
