(* ===== verification/NgxChunkedProps.v ===== *)
(** * Chunked bodies: the filter against a decoder of one byte at a time

    [feed] decodes a chunked body one byte at a time, with sizes that do not
    wrap; the body filter, whatever the buffers its input is cut into, does what
    [feed] does on all the bytes.  [encode] is the encoder of RFC 2616 that the
    decoder undoes. *)
From S2P Require Import Prelude.
From S2P Require Import NgxHttpParse NgxChunked.

Module Decoder.
Import Chunked.

(** What is known of a body after some of its bytes: the state, the bytes of the
    chunk that are still to come, and the text so far; or how it ended.  A chunk
    of [huge] bytes and more is outside the decoder. *)
Inductive progress :=
| Running (s : sw) (n : Z) (acc : bytes)
| Finished (acc : bytes)
| Malformed
| TooLarge
| Huge.

Definition huge : Z := 2 ^ 59.

(** One byte.  [max] is the limit on the length of the body, 0 for none; it is
    tested when a byte of a chunk arrives. *)
Definition feed (max : Z) (x : progress) (ch : Z) : progress :=
  match x with
  | Running s n acc =>
      if decide (s = sw_chunk_data) then
        if negb (max =? 0) && (max <? blen acc + n) then TooLarge
        else if n =? 1 then Running sw_after_data 0 (acc ++ [ch])
        else Running sw_chunk_data (n - 1) (acc ++ [ch])
      else
        match step 0 ch (s, mk_chunked 0 n 0) with
        | Ok (Next (s', c)) => if huge <=? size c then Huge else Running s' (size c) acc
        | Ok (Leave done _) => Finished acc
        | _ => Malformed
        end
  | _ => x
  end.

Definition feeds (max : Z) (x : progress) (l : bytes) : progress := fold_left (feed max) l x.

Definition start : progress := Running sw_chunk_start 0 [].

Lemma feeds_app max x a b : feeds max x (a ++ b) = feeds max (feeds max x a) b.
Proof. apply fold_left_app. Qed.

Lemma feeds_cons max x ch l : feeds max x (ch :: l) = feeds max (feed max x ch) l.
Proof. done. Qed.

Lemma feeds_stuck max x l : (forall s n acc, x <> Running s n acc) -> feeds max x l = x.
Proof. intros Hx. induction l as [|ch l IH]; [done|]. rewrite feeds_cons. destruct x; try apply IH. by destruct (Hx s n acc). Qed.

(** A byte adds at most itself to the text. *)
Lemma feeds_length max s n acc l s' n' acc' :
  feeds max (Running s n acc) l = Running s' n' acc' -> blen acc' <= blen acc + blen l.
Proof.
  revert s n acc. induction l as [|ch l IH]; intros s n acc.
  - intros [= _ _ ->]. unfold blen. cbn. lia.
  - rewrite feeds_cons. unfold blen in *. cbn [Datatypes.length].
    destruct (feed max (Running s n acc) ch) as [s1 n1 acc1| | | |] eqn:E;
      try (rewrite feeds_stuck by done; discriminate).
    intros H%IH. enough (Datatypes.length acc1 <= S (Datatypes.length acc))%nat by lia.
    revert E. cbn [feed]. repeat case_match; intros [= _ _ <-]; rewrite ?length_app; cbn; lia.
Qed.

(** The states with what is left of a chunk: it is not empty in front of its data. *)
Definition in_chunk (s : sw) : bool :=
  match s with sw_chunk_extension | sw_chunk_extension_almost_done | sw_chunk_data => true | _ => false end.
Definition fits (s : sw) (n : Z) : Prop := 0 <= n < huge /\ (in_chunk s = true -> 0 < n).

Lemma hex_digit_range ch d : hex_digit ch = Some d -> 0 <= d < 16.
Proof.
  unfold hex_digit, is_num. intros H. repeat case_match; simplify_eq/=;
    repeat match goal with H : (_ && _)%bool = true |- _ => apply andb_true_iff in H as [?%Z.leb_le ?%Z.leb_le] end; lia.
Qed.

(** Outside of the data of a chunk, a character does the same whatever its
    position and the fields that only the parser's epilogue sets; it keeps the
    size small, and the data starts with a size above 0. *)
Lemma step_feed max p ch s c acc :
  s <> sw_chunk_data -> fits s (size c) ->
  match feed max (Running s (size c) acc) ch with
  | Running s' n' acc' => acc' = acc /\ fits s' n' /\ exists c', step p ch (s, c) = Ok (Next (s', c')) /\ size c' = n'
  | Finished acc' => acc' = acc /\ exists x, step p ch (s, c) = Ok (Leave done x)
  | Malformed => exists x, step p ch (s, c) = Ok (Leave invalid x)
  | TooLarge => False
  | Huge => True
  end.
Proof.
  intros Hs [Hn Hc]. unfold feed. rewrite decide_False by done.
  assert (forall d, 0 <= d < 16 -> i64 (size c * 16 + d) = size c * 16 + d) as Hi.
  { intros d Hd. apply swrap_small; [lia|]. unfold huge in Hn. simpl in *. lia. }
  destruct s; try done; cbn [step];
    unfold on_chunk_start, on_chunk_size, end_of_size, to_eol, expect_lf, on_trailer, on_trailer_almost_done; cbn [size];
    repeat (match goal with
            | |- context [match hex_digit ch with _ => _ end] => destruct (hex_digit ch) as [d|] eqn:Hd
            | |- context [if ?b then _ else _] => destruct b eqn:?
            end; cbn); try done; try (by eexists);
    repeat match goal with H : hex_digit _ = Some _ |- _ => apply hex_digit_range in H end;
    rewrite ?Hi in * by done;
    repeat match goal with H : (huge <=? _) = false |- _ => apply Z.leb_gt in H | H : (_ =? 0) = false |- _ => apply Z.eqb_neq in H end;
    split_and!; try done; try (unfold fits; split; [lia|]; done || lia); eauto.
Qed.

(** The scan of a buffer, up to the data of a chunk. *)
Lemma scan_feed max a p s c acc :
  fits s (size c) -> feeds max (Running s (size c) acc) a <> Huge ->
  exists q l s' c' a1 a2, scan step a p (s, c) = Ok (q, l, (s', c')) /\ a = a1 ++ a2 /\ q = p + blen a1 /\
    match l with
    | None => a2 = [] /\ feeds max (Running s (size c) acc) a1 = Running s' (size c') acc /\ fits s' (size c')
    | Some data => a2 <> [] /\ feeds max (Running s (size c) acc) a1 = Running s' (size c') acc /\ fits s' (size c') /\ s' = sw_chunk_data
    | Some done => feeds max (Running s (size c) acc) a = Finished acc
    | Some invalid => feeds max (Running s (size c) acc) a = Malformed
    | _ => False
    end.
Proof.
  revert p s c. induction a as [|ch a IH]; intros p s c Hf Hh.
  { exists p, None, s, c, [], []. cbn. rewrite Z.add_0_r. by split_and!. }
  destruct (decide (s = sw_chunk_data)) as [-> |Hs].
  { exists p, (Some data), sw_chunk_data, c, [], (ch :: a). cbn. rewrite Z.add_0_r. by split_and!. }
  pose proof (step_feed max p ch s c acc Hs Hf) as Hstep. rewrite feeds_cons in Hh |- *. cbn [scan].
  destruct (feed max (Running s (size c) acc) ch) as [s1 n1 acc1|acc1| | |] eqn:E.
  - destruct Hstep as (-> & Hf1 & c1 & Hst & <-). rewrite Hst. cbn [obind].
    destruct (IH (p + 1) s1 c1 Hf1 Hh) as (q & l & s' & c' & a1 & a2 & -> & -> & -> & H).
    exists (p + 1 + blen a1), l, s', c', (ch :: a1), a2. split_and!; try done; [unfold blen; cbn; lia|].
    rewrite !feeds_cons, E. done.
  - destruct Hstep as (-> & [s1 c1] & Hst). rewrite Hst. cbn [obind].
    exists p, (Some done), s1, c1, [], (ch :: a). cbn. rewrite Z.add_0_r. split_and!; try done. by apply feeds_stuck.
  - destruct Hstep as ([s1 c1] & Hst). rewrite Hst. cbn [obind].
    exists p, (Some invalid), s1, c1, [], (ch :: a). cbn. rewrite Z.add_0_r. split_and!; try done. by apply feeds_stuck.
  - done.
  - destruct Hh. by apply feeds_stuck.
Qed.

(** What the parser knows between two calls: the stored state, or the end of a
    chunk's data that the next call will notice. *)
Definition knows (c : ngx_http_chunked) (s : sw) (n : Z) : Prop :=
  size c = n /\ fits s n /\
  (ctx_state c = sw_no s \/ ctx_state c = sw_no sw_chunk_data /\ s = sw_after_data /\ n = 0).

Lemma min_length_fits s n : fits s n -> 0 <= min_length s n.
Proof.
  intros [Hn Hc]. unfold huge in Hn. change (2 ^ 59) with 576460752303423488 in Hn.
  assert (forall z, 0 <= z < 2 ^ 60 -> i64 z = z) as Hi by (intros; apply swrap_small; simpl in *; lia).
  change (2 ^ 60) with 1152921504606846976 in Hi.
  destruct s; cbn [min_length]; try lia; repeat case_match; rewrite ?(Hi (1 + n)), ?(Hi (n + 4)) by lia; rewrite ?Hi by lia; lia.
Qed.

(** One call of the parser. *)
Lemma parse_feed max buf pos c s acc :
  0 <= pos <= blen buf -> knows c s (size c) ->
  feeds max (Running s (size c) acc) (drop (Z.to_nat pos) buf) <> Huge ->
  exists rc p c', ngx_http_parse_chunked buf pos c = Ok (rc, p, c') /\
    ((rc = NGX_OK /\ exists a1 a2, drop (Z.to_nat pos) buf = a1 ++ a2 /\ a2 <> [] /\ p = pos + blen a1 /\
        feeds max (Running s (size c) acc) a1 = Running sw_chunk_data (size c') acc /\ knows c' sw_chunk_data (size c')) \/
     (rc = NGX_AGAIN /\ p = blen buf /\ exists s', ctx_state c' = sw_no s' /\ length c' = min_length s' (size c') /\
        fits s' (size c') /\ feeds max (Running s (size c) acc) (drop (Z.to_nat pos) buf) = Running s' (size c') acc) \/
     (rc = NGX_DONE /\ ctx_state c' = 0 /\ feeds max (Running s (size c) acc) (drop (Z.to_nat pos) buf) = Finished acc) \/
     (rc = NGX_ERROR /\ feeds max (Running s (size c) acc) (drop (Z.to_nat pos) buf) = Malformed)).
Proof.
  intros Hpos (_ & Hf & Hst) Hh. unfold ngx_http_parse_chunked.
  set (start_of st := if decide (st = sw_chunk_data) then if size c =? 0 then sw_after_data else st else st).
  assert (exists st, load (ctx_state c) = Ok st /\ start_of st = s) as (st & -> & Est).
  { unfold start_of. destruct Hst as [->|(-> & -> & ->)]; rewrite load_no; eexists; (split; [reflexivity|]).
    - destruct (decide (s = sw_chunk_data)) as [-> |]; [|done]. destruct (Z.eqb_spec (size c) 0); [|done].
      destruct Hf as [_ Hf]. specialize (Hf eq_refl). lia.
    - done. }
  cbn [obind]. change (if decide (st = sw_chunk_data) then if size c =? 0 then sw_after_data else st else st) with (start_of st).
  rewrite Est.
  destruct (scan_feed max (drop (Z.to_nat pos) buf) pos s c acc Hf Hh) as (q & l & s' & c' & a1 & a2 & E & Ea & -> & H).
  rewrite E. cbn [obind].
  assert (fits s' (size c') -> (size c' <? 0) || (min_length s' (size c') <? 0) = false) as Hpos'.
  { intros Hf'. pose proof (min_length_fits _ _ Hf'). destruct Hf' as [? _].
    by rewrite (proj2 (Z.ltb_ge _ _)), (proj2 (Z.ltb_ge _ _)) by lia. }
  destruct l as [[]|]; try done.
  - eexists _, _, _. split; [reflexivity|]. right; right; left. done.
  - destruct H as (Ha2 & H & Hf' & ->). cbn -[min_length]. rewrite Hpos' by done.
    eexists _, _, _. split; [reflexivity|]. left. split; [done|]. exists a1, a2. split_and!; try done.
    split_and!; [done..|by left].
  - eexists _, _, _. split; [reflexivity|]. right; right; right. done.
  - destruct H as (-> & H & Hf'). cbn -[min_length]. rewrite Hpos' by done. rewrite app_nil_r in Ea.
    eexists _, _, _. split; [reflexivity|]. right; left. split; [done|]. split.
    + rewrite <- Ea. unfold blen in *. rewrite length_drop. lia.
    + exists s'. rewrite Ea. done.
Qed.
(** The bytes of a chunk. *)
Lemma feeds_data max n acc d :
  0 < n < huge -> blen d <= n -> negb (max =? 0) && (max <? blen acc + n) = false ->
  feeds max (Running sw_chunk_data n acc) d =
    if n =? blen d then Running sw_after_data 0 (acc ++ d) else Running sw_chunk_data (n - blen d) (acc ++ d).
Proof.
  intros Hn Hd Hmax. revert n acc Hn Hd Hmax. induction d as [|ch d IH]; intros n acc Hn Hd Hmax.
  - change (blen []) with 0 in *. destruct (Z.eqb_spec n 0); [lia|]. by rewrite Z.sub_0_r, app_nil_r.
  - rewrite feeds_cons. cbn [feed]. rewrite decide_True, Hmax by done.
    unfold blen in *. cbn [Datatypes.length] in *. rewrite Nat2Z.inj_succ in *. destruct (Z.eqb_spec n 1) as [-> |].
    + destruct d; [|cbn in Hd; lia]. done.
    + rewrite IH, <- app_assoc; [|lia|lia|].
      * cbn. destruct (Z.eqb_spec (n - 1) (Z.of_nat (Datatypes.length d))),
          (Z.eqb_spec n (Z.succ (Z.of_nat (Datatypes.length d)))); try lia; [done|]. f_equal. lia.
      * rewrite length_app, <- Hmax. cbn. do 2 f_equal. lia.
Qed.

(** ** The filter *)

Definition text_of (outs : list out_buf) : bytes := concat (map fst outs).
Definition no_last (outs : list out_buf) : Prop := Forall (fun o => snd o = false) outs.

(** The body filter has decoded [acc] and is in the middle of the body. *)
Definition tracks (b : body) (s : sw) (n : Z) (acc : bytes) : Prop :=
  knows (chunked b) s n /\ content_length_n b = blen acc.

(** What the filter has done to the body and the output, when it has to go on
    ([None]) or to stop ([Some]); [pre] are the bytes of earlier calls. *)
Definition answers (pre : bytes) (x : progress) (rc : option Z) (b : body) (outs : list out_buf) : Prop :=
  match x with
  | Running s n acc => rc = None /\ tracks b s n acc /\ rest b = min_length s n /\ pre ++ text_of outs = acc /\ no_last outs
  | Finished acc =>
      rc = None /\ rest b = 0 /\ content_length_n b = blen acc /\
      exists o, outs = o ++ [([], true)] /\ pre ++ text_of o = acc /\ no_last o
  | Malformed => rc = Some NGX_HTTP_BAD_REQUEST
  | TooLarge => rc = Some NGX_HTTP_REQUEST_ENTITY_TOO_LARGE /\ lingering_close b = true
  | Huge => False
  end.

(** A round that takes bytes of a chunk out of the buffer. *)
Lemma take_data_feed max buf pos b acc :
  0 <= pos < blen buf -> tracks b sw_chunk_data (size (chunked b)) acc -> blen acc + blen buf - pos < 2 ^ 62 ->
  negb (max =? 0) && (max <? blen acc + size (chunked b)) = false ->
  exists s b' k, take_data buf pos b = (pos + k, b') /\ 0 < k /\ pos + k <= blen buf /\
    let acc' := acc ++ text buf pos (pos + k) in
    feeds max (Running sw_chunk_data (size (chunked b)) acc) (text buf pos (pos + k)) = Running s (size (chunked b')) acc' /\
    tracks b' s (size (chunked b')) acc'.
Proof.
  intros Hpos [(_ & [Hn Hc] & Hst) Hlen] Hb Hmax. specialize (Hc eq_refl).
  destruct Hst as [Hst|(_ & ? & _)]; [|done].
  set (n := size (chunked b)) in *. set (k := Z.min n (blen buf - pos)).
  assert (blen (text buf pos (pos + k)) = k) as Hk.
  { unfold text, blen in *. rewrite length_take, length_drop. lia. }
  assert (forall j, 0 <= j <= blen buf - pos -> i64 (blen acc + j) = blen acc + j) as Hi.
  { intros j Hj. change (2 ^ 62) with 4611686018427387904 in Hb. unfold blen in *. apply swrap_small; [lia|]. simpl. lia. }
  exists (if n =? k then sw_after_data else sw_chunk_data),
    (b <| content_length_n := blen acc + k |> <| chunked := (chunked b) <| size := n - k |> |>), k.
  split_and!.
  - unfold take_data. fold n. destruct (Z.ltb_spec n (blen buf - pos)).
    + assert (k = n) as -> by lia. rewrite Hlen, Hi, Z.sub_diag by lia. done.
    + assert (k = blen buf - pos) as -> by lia. rewrite Hlen, Hi by lia. f_equal. lia.
  - lia.
  - lia.
  - intros acc'. subst acc'. split.
    + rewrite feeds_data, Hk by (done || lia). cbn. destruct (Z.eqb_spec n k) as [Ek|]; [by rewrite Ek, Z.sub_diag|done].
    + unfold tracks, knows. cbn. unfold blen in *. rewrite length_app. split; [|lia]. split; [done|].
      destruct (Z.eqb_spec n k) as [Ek|].
      * rewrite Ek, Z.sub_diag. split; [done|]. by right.
      * split; [|by left]. split; [lia|]. intros _. lia.
Qed.

Lemma filter_buf_feed pre max buf fuel pos b s acc outs :
  0 <= pos <= blen buf -> blen buf - pos < Z.of_nat fuel -> blen acc + blen buf - pos < 2 ^ 62 ->
  tracks b s (size (chunked b)) acc -> pre ++ text_of outs = acc -> no_last outs ->
  let x := feeds max (Running s (size (chunked b)) acc) (drop (Z.to_nat pos) buf) in
  x <> Huge ->
  exists rc b' outs', filter_buf fuel max buf pos b outs = Ok (rc, b', outs') /\ answers pre x rc b' outs'.
Proof.
  revert pos b s acc outs. induction fuel as [|fuel IH]; intros pos b s acc outs Hpos Hfuel Hlen [Hk Hl] Ho Hno x Hx; [lia|].
  cbn [filter_buf].
  destruct (parse_feed max buf pos (chunked b) s acc Hpos Hk Hx) as (rc & p & c' & -> & H). cbn [obind].
  fold x in H. destruct H as [(-> & a1 & a2 & Ea & Ha2 & -> & H1 & Hk')|[(-> & -> & s' & Hs' & Hlen' & Hf' & ->)|[(-> & Hs' & ->)|(-> & ->)]]].
  - change (NGX_OK =? NGX_OK) with true. cbv iota.
    assert (drop (Z.to_nat (pos + blen a1)) buf = a2) as Ed.
    { rewrite Z2Nat.inj_add by (unfold blen; lia). rewrite <- drop_drop, Ea. unfold blen. by rewrite Nat2Z.id, drop_app_length. }
    assert (blen a1 + blen a2 = blen buf - pos) as Hla.
    { apply (f_equal blen) in Ea. unfold blen in *. rewrite length_drop, length_app in Ea. lia. }
    assert (0 < blen a2) as Ha2'. { destruct a2; [done|]. unfold blen. cbn. lia. }
    set (b1 := b <| chunked := c' |>).
    assert (tracks b1 sw_chunk_data (size (chunked b1)) acc) as Hb1 by done.
    assert (i64 (content_length_n b1 + size (chunked b1)) = blen acc + size (chunked b1)) as Hi.
    { destruct Hb1 as [(_ & [Hn _] & _) Hl']. rewrite Hl'. unfold huge in Hn.
      change (2 ^ 62) with 4611686018427387904 in Hlen. change (2 ^ 59) with 576460752303423488 in Hn.
      apply swrap_small; [lia|]. unfold blen in *. change (2 ^ (64 - 1)) with 9223372036854775808. lia. }
    change (i64 (content_length_n b1 + size c')) with (i64 (content_length_n b1 + size (chunked b1))). rewrite Hi.
    assert (x = feeds max (Running sw_chunk_data (size (chunked b1)) acc) a2) as Ex.
    { unfold x. by rewrite Ea, feeds_app, H1. }
    destruct (negb (max =? 0) && (max <? blen acc + size (chunked b1))) eqn:Hmax.
    + eexists _, _, _. split; [reflexivity|]. rewrite Ex. destruct a2 as [|ch a2]; [done|].
      rewrite feeds_cons. cbn [feed]. rewrite decide_True, Hmax by done. by rewrite feeds_stuck.
    + destruct (take_data_feed max buf (pos + blen a1) b1 acc) as (s2 & b2 & k & Et & Hk1 & Hk2 & Hf & Hb2);
        [unfold blen in *; lia|done|unfold blen in *; lia|done|].
      rewrite Et. 
      assert (drop (Z.to_nat (pos + blen a1)) buf = text buf (pos + blen a1) (pos + blen a1 + k) ++ drop (Z.to_nat (pos + blen a1 + k)) buf) as Ed2.
      { unfold text. rewrite (Z2Nat.inj_add (pos + blen a1) k) by (unfold blen; lia). rewrite <- drop_drop.
        replace (pos + blen a1 + k - (pos + blen a1)) with k by lia. by rewrite take_drop. }
      rewrite <- Ed, Ed2, feeds_app, Hf in Ex. clearbody x. subst x.
      apply (IH (pos + blen a1 + k) b2 s2 (acc ++ text buf (pos + blen a1) (pos + blen a1 + k))).
      * unfold blen in *; lia.
      * unfold blen in *; lia.
      * assert (blen (text buf (pos + blen a1) (pos + blen a1 + k)) = k) as Hkt.
        { unfold text, blen in *. rewrite length_take, length_drop. lia. }
        unfold blen in *. rewrite length_app. lia.
      * exact Hb2.
      * unfold text_of in *. rewrite map_app, concat_app. cbn. by rewrite app_nil_r, app_assoc, Ho.
      * apply Forall_app. split; [done|]. by repeat constructor.
      * done.
  - change (NGX_AGAIN =? NGX_OK) with false. change (NGX_AGAIN =? NGX_DONE) with false. change (NGX_AGAIN =? NGX_AGAIN) with true. cbv iota.
    eexists _, _, _. split; [reflexivity|]. cbn. split_and!; try done. split; [split_and!; [done..|by left]|done].
  - change (NGX_DONE =? NGX_OK) with false. change (NGX_DONE =? NGX_DONE) with true. cbv iota.
    eexists _, _, _. split; [reflexivity|]. cbn. eauto 10.
  - eexists _, _, _. split; [reflexivity|]. done.
Qed.

Lemma filter_chain_feed pre max chain b s n acc outs :
  blen acc + blen (concat chain) < 2 ^ 62 -> tracks b s n acc -> rest b = min_length s n ->
  pre ++ text_of outs = acc -> no_last outs ->
  let x := feeds max (Running s n acc) in
  (forall acc', x (concat (removelast chain)) <> Finished acc') -> x (concat chain) <> Huge ->
  exists rc b' outs', filter_chain max chain b outs = Ok (rc, b', outs') /\ answers pre (x (concat chain)) rc b' outs'.
Proof.
  revert b s n acc outs. induction chain as [|buf chain IH]; intros b s n acc outs Hlen Hb Hr Ho Hno x Hfin Hx.
  { exists None, b, outs. done. }
  destruct Hb as [Hk Hl]. assert (n = size (chunked b)) as -> by (by destruct Hk). cbn [concat] in *.
  assert (forall y, x buf = y -> (forall s n acc, y <> Running s n acc) -> x (buf ++ concat chain) = y) as Hstuck.
  { intros y <- Hy. unfold x. rewrite feeds_app. by apply feeds_stuck. }
  destruct (filter_buf_feed pre max buf (S (Datatypes.length buf)) 0 b s acc outs) as (rc & b1 & outs1 & E & H).
  - unfold blen. lia.
  - unfold blen. lia.
  - unfold blen in *. rewrite length_app in Hlen. lia.
  - done.
  - done.
  - done.
  - intros Hh. apply Hx. by apply Hstuck.
  - change (drop (Z.to_nat 0) buf) with buf in H. fold x in H. cbn [filter_chain]. rewrite E. cbn [obind].
    destruct (x buf) as [s1 n1 acc1|acc1| | |] eqn:Ex; cbn [answers] in H.
    + destruct H as (-> & Hb1 & Hr1 & Ho1 & Hno1). unfold x in *. rewrite feeds_app, Ex in *.
      apply (IH b1 s1 n1 acc1 outs1); try done.
      * apply feeds_length in Ex. unfold blen in *. rewrite length_app in Hlen. lia.
      * intros acc'. destruct chain as [|buf' chain]; [done|]. specialize (Hfin acc').
        change (removelast (buf :: buf' :: chain)) with (buf :: removelast (buf' :: chain)) in Hfin.
        cbn [concat] in Hfin. by rewrite feeds_app, Ex in Hfin.
    + destruct H as (-> & H). destruct chain as [|buf' chain].
      * eexists _, _, _. split; [reflexivity|]. cbn [concat]. unfold x in *. rewrite app_nil_r, Ex. done.
      * destruct (Hfin acc1). change (removelast (buf :: buf' :: chain)) with (buf :: removelast (buf' :: chain)).
        cbn [concat]. fold x. unfold x in *. rewrite feeds_app, Ex. by apply feeds_stuck.
    + subst rc. eexists _, _, _. split; [reflexivity|]. by rewrite (Hstuck Malformed).
    + destruct H as (-> & H). eexists _, _, _. split; [reflexivity|]. by rewrite (Hstuck TooLarge).
    + done.
Qed.

(** The body of a request that has been fed [x]: no byte of it read yet, or in
    its middle. *)
Definition reading (b : body) (x : progress) : Prop :=
  (b = new_body /\ x = start) \/
  exists s n acc, x = Running s n acc /\ tracks b s n acc /\ rest b = min_length s n.

Definition decoded (x : progress) : bytes := match x with Running _ _ acc | Finished acc => acc | _ => [] end.

(** The chunked body filter decodes the bytes and not the buffers: whatever
    the chain of buffers of a call and whatever the earlier calls have read, its
    answer is that of the decoder fed with all the bytes, one at a time.  In the
    middle of the body it passes on the new text and asks for the least number of
    bytes that can follow; at the end it also passes on the buffer that marks the
    end; a malformed body is answered with 400 and one over the limit with 413,
    nothing passed on.  (The end of the body in an earlier buffer than the last,
    and chunks of 2^59 bytes and more, are excluded.) *)
Theorem chunked_filter_is_decoder save max chain b x :
  reading b x -> blen (decoded x) + blen (concat chain) < 2 ^ 62 ->
  (forall acc, feeds max x (concat (removelast chain)) <> Finished acc) ->
  feeds max x (concat chain) <> Huge ->
  exists rc b' outs, ngx_http_request_body_chunked_filter save max chain b = Ok (rc, b', outs) /\
    match feeds max x (concat chain) with
    | Running s n acc as x' => rc = save outs /\ reading b' x' /\ no_last outs /\ acc = decoded x ++ text_of outs
    | Finished acc => rc = save outs /\ rest b' = 0 /\ content_length_n b' = blen acc /\
        exists o, outs = o ++ [([], true)] /\ no_last o /\ acc = decoded x ++ text_of o
    | Malformed => rc = NGX_HTTP_BAD_REQUEST /\ outs = []
    | TooLarge => rc = NGX_HTTP_REQUEST_ENTITY_TOO_LARGE /\ lingering_close b' = true /\ outs = []
    | Huge => False
    end.
Proof.
  intros Hb Hlen Hfin Hx. unfold ngx_http_request_body_chunked_filter.
  set (b0 := if rest b =? -1 then _ else b).
  assert (exists s n acc, x = Running s n acc /\ tracks b0 s n acc /\ rest b0 = min_length s n) as (s & n & acc & -> & Hb0 & Hr).
  { destruct Hb as [[-> ->]|(s & n & acc & -> & Hb & Hr)].
    - exists sw_chunk_start, 0, []. split; [done|]. unfold b0. cbn. split; [|done].
      split; [|done]. split; [done|]. split; [|by left]. by split.
    - exists s, n, acc. split; [done|]. unfold b0. destruct Hb as [(Hs & Hf & Hst) Hl].
      pose proof (min_length_fits _ _ Hf). destruct (Z.eqb_spec (rest b) (-1)); [lia|]. by split. }
  destruct (filter_chain_feed acc max chain b0 s n acc [] Hlen Hb0 Hr (app_nil_r _) (List.Forall_nil _) Hfin Hx) as (rc & b' & outs & E & H).
  rewrite E. cbn [obind decoded].
  destruct (feeds max (Running s n acc) (concat chain)) as [s' n' acc'|acc'| | |]; cbn [answers] in H.
  - destruct H as (-> & Hb' & Hr' & Ho & Hno). eexists _, _, _. split; [reflexivity|]. split_and!; try done.
    right. eauto 10.
  - destruct H as (-> & Hr' & Hl & o & -> & Ho & Hno). eexists _, _, _. split; [reflexivity|]. split_and!; try done. eauto.
  - subst rc. eexists _, _, _. split; [reflexivity|]. done.
  - destruct H as (-> & H). eexists _, _, _. split; [reflexivity|]. done.
  - done.
Qed.

(** The limit is exceeded in the second call. *)
Definition first_part : bytes := bs "5" ++ [13; 10] ++ bs "he".
Definition after_first : body :=
  match ngx_http_request_body_chunked_filter (fun _ => NGX_OK) 6 [first_part] new_body with
  | Ok (_, b, _) => b | _ => new_body end.
Definition second_part : list bytes := [bs "ll"; bs "o" ++ [13; 10; 50; 13; 10; 33]].

Lemma chunked_filter_is_decoder_witness :
  exists b, ngx_http_request_body_chunked_filter (fun _ => NGX_OK) 6 second_part after_first =
    Ok (NGX_HTTP_REQUEST_ENTITY_TOO_LARGE, b, []).
Proof.
  destruct (chunked_filter_is_decoder (fun _ => NGX_OK) 6 second_part after_first (Running sw_chunk_data 3 (bs "he")))
    as (rc & b & outs & E & H).
  - right. exists sw_chunk_data, 3, (bs "he"). split; [reflexivity|]. split; [|vm_compute; reflexivity].
    split; [|vm_compute; reflexivity]. split; [vm_compute; reflexivity|]. split; [split; [vm_compute; split; [discriminate|reflexivity]|reflexivity]|].
    left. vm_compute. reflexivity.
  - vm_compute. reflexivity.
  - intros acc. vm_compute. discriminate.
  - vm_compute. discriminate.
  - exists b. assert (feeds 6 (Running sw_chunk_data 3 (bs "he")) (concat second_part) = TooLarge) as Ef by (vm_compute; reflexivity).
    rewrite Ef in H. destruct H as (-> & _ & ->). exact E.
Defined.
End Decoder.

(** ** Encoding *)
Module Encoder.
Import Chunked Decoder.

(** The value of a hexadecimal digit of either case, and of a number. *)
Definition digit (c : Z) : option Z :=
  if (48 <=? c) && (c <=? 57) then Some (c - 48)
  else if (65 <=? c) && (c <=? 70) then Some (c - 55)
  else if (97 <=? c) && (c <=? 102) then Some (c - 87) else None.
Fixpoint number (n : Z) (l : bytes) : option Z :=
  match l with [] => Some n | c :: l' => d ← digit c; number (16 * n + d) l' end.

(** The rest of a line: characters that do not end it. *)
Definition in_line (l : bytes) : Prop := Forall (fun c => c <> 13 /\ c <> 10) l.
Definition crlf : bytes := [13; 10].

(** A chunk extension starts with a semicolon, a space or a tab. *)
Definition extension (l : bytes) : Prop :=
  in_line l /\ match l with [] => True | c :: _ => c = 59 \/ c = 32 \/ c = 9 end.

(** A chunk as it is sent: its size in hexadecimal, the extension, the data. *)
Record chunk := mk_chunk { digits : bytes; ext : bytes; chunk_text : bytes }.
Definition sendable (c : chunk) : Prop :=
  digits c <> [] /\ Forall is_byte (digits c) /\ number 0 (digits c) = Some (blen (chunk_text c)) /\
  extension (ext c) /\ chunk_text c <> [] /\ blen (chunk_text c) < huge.

Definition send (c : chunk) : bytes := digits c ++ ext c ++ crlf ++ chunk_text c ++ crlf.
Definition trailer (lines : list bytes) : bytes := concat (map (fun l => l ++ crlf) lines).

(** A body: its chunks, the chunk of size 0 with [zero] as the size and [e] as
    the extension, the header lines of the trailer, the empty line. *)
Definition encode (cs : list chunk) (zero e : bytes) (lines : list bytes) : bytes :=
  concat (map send cs) ++ zero ++ e ++ crlf ++ trailer lines ++ crlf.

Lemma hex_digit_digit c : is_byte c -> hex_digit c = digit c.
Proof.
  unfold is_byte. intros H.
  assert (forallb (fun n => bool_decide (hex_digit (Z.of_nat n) = digit (Z.of_nat n))) (seq 0 256) = true)
    as Hall by (vm_compute; reflexivity).
  rewrite forallb_forall in Hall. specialize (Hall (Z.to_nat c) ltac:(apply in_seq; lia)).
  rewrite Z2Nat.id in Hall by lia. by apply bool_decide_eq_true in Hall.
Qed.

Lemma digit_range c d : digit c = Some d -> 0 <= d < 16.
Proof.
  unfold digit. intros H. repeat case_match; simplify_eq/=;
    repeat match goal with H : (_ && _)%bool = true |- _ => apply andb_true_iff in H as [?%Z.leb_le ?%Z.leb_le] end; lia.
Qed.

Lemma number_mono l n m : 0 <= n -> number n l = Some m -> n <= m.
Proof.
  revert n. induction l as [|c l IH]; intros n Hn; cbn; [intros [= ->]; lia|].
  destruct (digit c) as [d|] eqn:Hd; cbn; [|discriminate]. apply digit_range in Hd.
  intros H%IH; lia.
Qed.

(** Reading a size. *)
Lemma feeds_number max acc l n m :
  Forall is_byte l -> 0 <= n -> number n l = Some m -> m < huge ->
  feeds max (Running sw_chunk_size n acc) l = Running sw_chunk_size m acc.
Proof.
  intros Hl. revert n. induction Hl as [|c l Hc Hl IH]; intros n Hn; cbn [number]; [by intros [= ->]|].
  destruct (digit c) as [d|] eqn:Hd; cbn [mbind option_bind]; [|discriminate]. intros Hm Hlt.
  pose proof (digit_range _ _ Hd) as Hdr. pose proof (number_mono l (16 * n + d) m ltac:(lia) Hm) as Hmono.
  assert (i64 (n * 16 + d) = 16 * n + d) as Hi.
  { unfold huge in Hlt. change (2 ^ 59) with 576460752303423488 in Hlt. unfold i64. rewrite swrap_small; [lia|lia|].
    change (2 ^ (64 - 1)) with 9223372036854775808. lia. }
  rewrite feeds_cons. assert (feed max (Running sw_chunk_size n acc) c = Running sw_chunk_size (16 * n + d) acc) as ->.
  { cbn. unfold on_chunk_size. rewrite hex_digit_digit, Hd by done. cbn -[Z.mul].
    by rewrite Hi, (proj2 (Z.leb_gt _ _)) by lia. }
  apply IH; (lia || done).
Qed.

Lemma feeds_first_digit max acc c l m :
  Forall is_byte (c :: l) -> number 0 (c :: l) = Some m -> m < huge ->
  feeds max (Running sw_chunk_start 0 acc) (c :: l) = Running sw_chunk_size m acc.
Proof.
  intros Hl Hm Hlt. rewrite <- (feeds_number max acc (c :: l) 0 m Hl) by (lia || done).
  rewrite !feeds_cons. f_equal. apply List.Forall_inv in Hl. cbn in Hm |- *.
  unfold on_chunk_start, on_chunk_size. rewrite hex_digit_digit by done. destruct (digit c) as [d|] eqn:Hd; [|discriminate].
  cbn. apply digit_range in Hd. unfold i64. rewrite swrap_small; [done|lia|]. change (2 ^ (64 - 1)) with 9223372036854775808. lia.
Qed.

(** The states that skip the rest of a line: what ends them is kept apart. *)
Lemma feeds_line max (here : sw) n acc l :
  here ∈ [sw_chunk_extension; sw_last_chunk_extension; sw_trailer_header; sw_after_data] -> n < huge -> in_line l ->
  feeds max (Running here n acc) l = Running here n acc.
Proof.
  intros Hh Hn Hl. induction Hl as [|c l [H13 H10] _ IH]; [done|].
  rewrite feeds_cons, <- IH at 1. f_equal. rewrite IH.
  apply Z.eqb_neq in H13, H10. apply Z.leb_gt in Hn.
  repeat (apply elem_of_cons in Hh as [-> |Hh]); [..|by apply elem_of_nil in Hh];
    cbn; unfold to_eol; rewrite H13, H10; cbn; by rewrite Hn.
Qed.

(** The characters after the size. *)
Lemma feed_size_end max n acc c :
  0 <= n < huge -> c ∈ [13; 59; 32; 9] ->
  feed max (Running sw_chunk_size n acc) c =
    Running (match c =? 13, n =? 0 with
             | true, true => sw_last_chunk_extension_almost_done | true, false => sw_chunk_extension_almost_done
             | false, true => sw_last_chunk_extension | false, false => sw_chunk_extension end) n acc.
Proof.
  intros [_ Hlt%Z.leb_gt] Hc. unfold feed. rewrite decide_False by done. cbn [step]. unfold on_chunk_size. cbn [size].
  repeat (apply elem_of_cons in Hc as [-> |Hc]); [..|by apply elem_of_nil in Hc];
    match goal with |- context [hex_digit ?k] => change (hex_digit k) with (@None Z) end;
    destruct (n =? 0); unfold end_of_size; cbn [Z.eqb Pos.eqb orb size]; by rewrite Hlt.
Qed.

(** From behind the size to behind the line. *)
Lemma feeds_size_line max n acc e :
  0 <= n < huge -> extension e ->
  feeds max (Running sw_chunk_size n acc) (e ++ crlf) =
    if n =? 0 then Running sw_trailer n acc else Running sw_chunk_data n acc.
Proof.
  intros Hn [He Hc]. pose proof (proj2 (Z.leb_gt _ _) (proj2 Hn)) as Hb. destruct e as [|c e].
  - cbn [app]. unfold crlf. rewrite feeds_cons, feed_size_end by (done || set_solver).
    destruct (n =? 0); cbn -[huge]; by rewrite Hb.
  - rewrite <- app_comm_cons, feeds_cons, feeds_app. apply List.Forall_inv_tail in He.
    rewrite feed_size_end by (done || set_solver). assert ((c =? 13) = false) as -> by (destruct Hc as [-> |[-> | ->]]; done).
    rewrite feeds_line; [|destruct (n =? 0); set_solver|apply Hn|done].
    destruct (n =? 0); cbn -[huge]; rewrite Hb, decide_False by done; cbn -[huge]; by rewrite Hb.
Qed.

(** A chunk from its size to the end of its data's line. *)
Lemma feeds_chunk max acc c :
  sendable c -> max = 0 \/ blen acc + blen (chunk_text c) <= max ->
  feeds max (Running sw_chunk_start 0 acc) (send c) = Running sw_chunk_start 0 (acc ++ chunk_text c).
Proof.
  intros (Hd & Hb & Hnum & He & Ht & Hlt) Hmax.
  assert (0 < blen (chunk_text c)) as Hpos. { destruct (chunk_text c); [done|]. unfold blen. cbn. lia. }
  unfold send. destruct (digits c) as [|c0 ds]; [done|].
  rewrite feeds_app, (feeds_first_digit _ _ _ _ _ Hb Hnum Hlt), app_assoc, feeds_app, feeds_size_line by (done || lia).
  destruct (Z.eqb_spec (blen (chunk_text c)) 0); [lia|].
  rewrite feeds_app, feeds_data; [|lia..|].
  - rewrite Z.eqb_refl. done.
  - destruct Hmax as [-> |]; [done|]. rewrite (proj2 (Z.ltb_ge _ _)) by lia. apply andb_false_r.
Qed.

Lemma feeds_chunks max acc cs :
  Forall sendable cs -> max = 0 \/ blen acc + blen (concat (map chunk_text cs)) <= max ->
  feeds max (Running sw_chunk_start 0 acc) (concat (map send cs)) =
    Running sw_chunk_start 0 (acc ++ concat (map chunk_text cs)).
Proof.
  intros Hcs. revert acc. induction Hcs as [|c cs Hc _ IH]; intros acc Hmax; [by rewrite app_nil_r|].
  cbn [map concat] in *. unfold blen in *. rewrite length_app in Hmax.
  rewrite feeds_app, feeds_chunk by (done || unfold blen; lia).
  rewrite IH by (unfold blen; rewrite length_app; lia). by rewrite app_assoc.
Qed.

(** A header line of the trailer is not empty. *)
Lemma feeds_trailer max acc lines :
  Forall (fun l => l <> [] /\ in_line l) lines ->
  feeds max (Running sw_trailer 0 acc) (trailer lines) = Running sw_trailer 0 acc.
Proof.
  intros Hl. induction Hl as [|l lines [Hne Hl] _ IH]; [done|].
  unfold trailer in *. cbn [map concat]. rewrite <- app_assoc, feeds_app.
  destruct l as [|c l]; [done|]. destruct (List.Forall_inv Hl) as [H13%Z.eqb_neq H10%Z.eqb_neq].
  rewrite feeds_cons. assert (feed max (Running sw_trailer 0 acc) c = Running sw_trailer_header 0 acc) as ->.
  { cbn. unfold on_trailer. by rewrite H13, H10. }
  rewrite feeds_line; [|set_solver|done|by apply List.Forall_inv_tail in Hl]. rewrite feeds_app. exact IH.
Qed.

#[export] Instance extension_dec l : Decision (extension l).
Proof. unfold extension, in_line. destruct l; solve_decision. Defined.
#[export] Instance sendable_dec c : Decision (sendable c).
Proof. unfold sendable, is_byte. solve_decision. Defined.

(** All of an encoded body but its last byte. *)
Definition unfinished (cs : list chunk) (zero e : bytes) (lines : list bytes) : bytes :=
  concat (map send cs) ++ zero ++ e ++ crlf ++ trailer lines ++ [13].

Definition encodable (max : Z) (cs : list chunk) (zero e : bytes) (lines : list bytes) : Prop :=
  Forall sendable cs /\ (max = 0 \/ blen (concat (map chunk_text cs)) <= max) /\
  zero <> [] /\ Forall (eq 48) zero /\ extension e /\ Forall (fun l => l <> [] /\ in_line l) lines.

#[export] Instance encodable_dec max cs zero e lines : Decision (encodable max cs zero e lines).
Proof. unfold encodable, in_line. solve_decision. Defined.

Lemma feeds_unfinished max cs zero e lines :
  encodable max cs zero e lines ->
  feeds max start (unfinished cs zero e lines) = Running sw_trailer_almost_done 0 (concat (map chunk_text cs)).
Proof.
  intros (Hcs & Hmax & Hz & Hz0 & He & Hl). unfold start, unfinished.
  rewrite feeds_app, feeds_chunks by done. cbn [app].
  assert (Forall is_byte zero /\ number 0 zero = Some 0) as [Hb Hn].
  { clear Hz. induction Hz0 as [|c zero <- _ [IH1 IH2]]; [by split|]. split; [constructor; [done|]; done|exact IH2]. }
  destruct zero as [|c zero]; [done|].
  rewrite feeds_app, (feeds_first_digit _ _ _ _ _ Hb Hn) by done.
  rewrite app_assoc, feeds_app, feeds_size_line by done. cbn [Z.eqb].
  by rewrite feeds_app, feeds_trailer.
Qed.

Lemma encode_unfinished cs zero e lines : encode cs zero e lines = unfinished cs zero e lines ++ [10].
Proof. unfold encode, unfinished, crlf. by rewrite <- !app_assoc. Qed.

(** A part of a body that lacks its last byte does not finish it. *)
Lemma feeds_part max cs zero e lines extra a b :
  encodable max cs zero e lines -> a ++ b = encode cs zero e lines ++ extra -> blen a < blen (encode cs zero e lines) ->
  forall acc, feeds max start a <> Finished acc.
Proof.
  intros He Hab Hlt acc Ha. rewrite encode_unfinished in *. rewrite <- app_assoc in Hab.
  assert (exists c, unfinished cs zero e lines = a ++ c) as [c Ec].
  { exists (drop (Datatypes.length a) (unfinished cs zero e lines)). rewrite <- (take_drop (Datatypes.length a) (unfinished cs zero e lines)) at 1.
    f_equal. apply (f_equal (take (Datatypes.length a))) in Hab. unfold blen in Hlt. rewrite length_app in Hlt. cbn in Hlt.
    rewrite take_app_length, take_app_le in Hab by lia. done. }
  pose proof (feeds_unfinished max cs zero e lines He) as H. rewrite Ec, feeds_app, Ha in H.
  by rewrite feeds_stuck in H.
Qed.

(** C16: The chunked body filter undoes the chunked encoding: whatever chunks of
    less than 2^59 bytes a body is sent in, with hexadecimal sizes of either case,
    extensions and trailer lines, and whatever buffers it arrives in, the text
    passed on is that of the chunks, followed by the buffer that marks the end,
    and nothing more is asked for; bytes after the body in the last buffer stay.
    (With a limit, the body is not over it.) *)
Theorem chunked_roundtrip save max chain cs zero e lines extra :
  encodable max cs zero e lines -> concat chain = encode cs zero e lines ++ extra ->
  blen (concat (removelast chain)) < blen (encode cs zero e lines) -> blen (concat chain) < 2 ^ 62 ->
  let body := concat (map chunk_text cs) in
  exists b o, ngx_http_request_body_chunked_filter save max chain new_body =
      Ok (save (o ++ [([], true)]), b, o ++ [([], true)]) /\
    text_of o = body /\ no_last o /\ rest b = 0 /\ content_length_n b = blen body.
Proof.
  intros He Hc Hlast Hlen body.
  assert (feeds max start (concat chain) = Finished body) as E.
  { rewrite Hc, encode_unfinished, <- app_assoc, feeds_app, feeds_unfinished by done.
    cbn [app]. rewrite feeds_cons. by apply feeds_stuck. }
  assert (forall acc, feeds max start (concat (removelast chain)) <> Finished acc) as Hfin.
  { destruct chain as [|buf chain]; [done|].
    apply (feeds_part max cs zero e lines extra _ (List.last (buf :: chain) [])); [done| |done].
    rewrite <- Hc. transitivity (concat (removelast (buf :: chain) ++ [List.last (buf :: chain) []])).
    - rewrite concat_app. cbn [concat]. by rewrite app_nil_r.
    - f_equal. symmetry. by apply app_removelast_last. }
  unfold ngx_http_request_body_chunked_filter. cbn [rest new_body]. change (-1 =? -1) with true. cbv iota.
  set (b0 := new_body <| chunked := mk_chunked 0 0 0 |> <| content_length_n := 0 |> <| rest := 3 |>).
  assert (tracks b0 sw_chunk_start 0 []) as Hb0. { split; [|done]. split; [done|]. split; [by split|by left]. }
  destruct (filter_chain_feed [] max chain b0 sw_chunk_start 0 [] []) as (rc & b' & outs & -> & H);
    [done|done|done|done|constructor|exact Hfin|fold start; by rewrite E|].
  fold start in H. rewrite E in H. cbn [answers] in H. destruct H as (-> & Hr & Hl & o & -> & Ho & Hno).
  exists b', o. cbn [obind]. done.
Qed.

(** A body of two chunks that arrives in three buffers. *)
Definition sent_chunks : list chunk := [mk_chunk (bs "3") (bs ";a") (bs "foo"); mk_chunk (bs "0A") [] (bs "0123456789")].
Definition sent_bytes : bytes := encode sent_chunks (bs "0") [] [bs "X: y"].
Definition sent_buffers : list bytes := [take 7 sent_bytes; take 9 (drop 7 sent_bytes); drop 16 sent_bytes ++ bs "GET"].

Lemma chunked_roundtrip_witness :
  encodable 13 sent_chunks (bs "0") [] [bs "X: y"] /\
  exists b o, ngx_http_request_body_chunked_filter (fun _ => NGX_OK) 13 sent_buffers new_body =
      Ok (NGX_OK, b, o ++ [([], true)]) /\ text_of o = bs "foo0123456789".
Proof.
  assert (encodable 13 sent_chunks (bs "0") [] [bs "X: y"]) as He.
  { apply (bool_decide_unpack _). vm_compute. exact I. }
  split; [exact He|].
  destruct (chunked_roundtrip (fun _ => NGX_OK) 13 sent_buffers sent_chunks (bs "0") [] [bs "X: y"] (bs "GET") He)
    as (b & o & E & Ho & _); [by vm_compute..|].
  exists b, o. split; [exact E|exact Ho].
Defined.
End Encoder.
