(* ===== verification/NgxRadix.v ===== *)
(** * Radix trees: nginx/src/core/ngx_radix_tree.c

    The trees from network prefixes to values of the geo module.  The nodes are a
    store addressed by pointers, with the list of free nodes and the page that
    new ones are cut from; pages come from the pool.  The functions for 32-bit
    and for 128-bit keys are the same loops over different positions in the key:
    a [cursor] says how a position reads the key and the mask and how it
    advances, and whether the loop breaks there. *)
From S2P Require Import Prelude.
From S2P Require Export NgxHttpParse NgxPalloc.
From stdpp Require Import gmap.
#[local] Open Scope Z_scope.

Definition NGX_BUSY : Z := -3.

(** [(uintptr_t) -1] *)
Definition NGX_RADIX_NO_VALUE : Z := 2 ^ 64 - 1.

Record ngx_radix_node := mk_radix_node { right : option Z; left : option Z; parent : option Z; value : Z }.
#[export] Instance radix_node_settable : Settable ngx_radix_node :=
  fun n => mk_radix_node (right n) (left n) (parent n) (value n).

Definition sizeof_radix_node : Z := 32.

Section Radix.
Context {Osm : OSMem}.

(** [start] is 0 for NULL. *)
Record ngx_radix_tree := mk_radix_tree {
  nodes : gmap Z ngx_radix_node; root : option Z; tree_pool : pool; free : option Z; start : Z; size : Z; mem : os }.
#[export] Instance radix_tree_settable : Settable ngx_radix_tree :=
  fun t => mk_radix_tree (nodes t) (root t) (tree_pool t) (free t) (start t) (size t) (mem t).
Implicit Types (t : ngx_radix_tree).

Definition ld t (a : Z) : out ngx_radix_node :=
  match nodes t !! a with Some n => Ok n | None => Undef BadPointer end.
Definition st t (a : Z) (n : ngx_radix_node) : ngx_radix_tree := t <| nodes := <[a := n]> (nodes t) |>.
Definition upd t (a : Z) (f : ngx_radix_node -> ngx_radix_node) : out ngx_radix_tree :=
  let! n := ld t a in Ok (st t a (f n)).

(** A node from the list of free ones or from the page.  A node of the page is
    not initialised. *)
Definition ngx_radix_alloc t : out (option Z * ngx_radix_tree) :=
  match free t with
  | Some p => let! n := ld t p in Ok (Some p, t <| free := right n |>)
  | None =>
      let cut t := (Some (start t), t <| start := start t + sizeof_radix_node |> <| size := size t - sizeof_radix_node |>) in
      if size t <? sizeof_radix_node then
        let! (p, pl, o) := ngx_pmemalign (tree_pool t) ngx_pagesize ngx_pagesize (mem t) in
        let t := t <| tree_pool := pl |> <| mem := o |> in
        match p with
        | None => Ok (None, t <| start := 0 |>)
        | Some p => Ok (cut (t <| start := p |> <| size := ngx_pagesize |>))
        end
      else Ok (cut t)
  end.

(** ** Positions in a key *)
Record cursor := mk_cursor {
  position : Type; first : position;
  mask_bit : position -> out bool;          (** [bit & mask] *)
  key_bit : position -> out bool;           (** [key & bit] *)
  advance : position -> position * bool     (** and whether the loop breaks *)
}.

(** [bit] runs from [0x80000000] to 0. *)
Definition cursor32 (key mask : Z) : cursor := {|
  position := Z; first := 0x80000000;
  mask_bit bit := Ok (negb (Z.land bit mask =? 0));
  key_bit bit := Ok (negb (Z.land key bit =? 0));
  advance bit := (Z.shiftr bit 1, false) |}.

(** [i] and [bit], in arrays of 16 bytes. *)
Definition advance128 (p : Z * Z) : (Z * Z) * bool :=
  let '(i, bit) := p in
  let bit := Z.shiftr bit 1 in
  if bit =? 0 then if i + 1 =? 16 then ((i + 1, bit), true) else ((i + 1, 0x80), false)
  else ((i, bit), false).
Definition cursor128 (key mask : bytes) : cursor := {|
  position := Z * Z; first := (0, 0x80);
  mask_bit p := let! m := peek mask p.1 in Ok (negb (Z.land p.2 m =? 0));
  key_bit p := let! k := peek key p.1 in Ok (negb (Z.land k p.2 =? 0));
  advance := advance128 |}.

(** The loop of [ngx_radix128tree_find] does not look at the end of the key. *)
Definition find128 (key : bytes) : cursor := {|
  position := Z * Z; first := (0, 0x80);
  mask_bit _ := Ok true;
  key_bit p := let! k := peek key p.1 in Ok (negb (Z.land k p.2 =? 0));
  advance p := let bit := Z.shiftr p.2 1 in if bit =? 0 then ((p.1 + 1, 0x80), false) else ((p.1, bit), false) |}.

Section Loops.
Variable c : cursor.

(** The child of node [n] that the key at [p] selects. *)
Definition child (n : ngx_radix_node) (p : position c) : out (option Z) :=
  let! k := key_bit c p in Ok (if k then right n else left n).

(** The first loop of an insertion: the position, [node] and [next]. *)
Fixpoint descend (fuel : nat) t (node : Z) (p : position c) : out (position c * Z * option Z) :=
  match fuel with
  | O => NoFuel
  | S f =>
      let! m := mask_bit c p in
      if m : bool then
        let! n := ld t node in
        let! next := child n p in
        match next with
        | None => Ok (p, node, None)
        | Some next => let '(p, brk) := advance c p in if brk : bool then Ok (p, next, Some next) else descend f t next p
        end
      else Ok (p, node, Some node)
  end.

(** The second one: the last node, or [None] when the memory runs out. *)
Fixpoint grow (fuel : nat) t (node : Z) (p : position c) : out (option Z * ngx_radix_tree) :=
  match fuel with
  | O => NoFuel
  | S f =>
      let! m := mask_bit c p in
      if m : bool then
        let! (next, t) := ngx_radix_alloc t in
        match next with
        | None => Ok (None, t)
        | Some next =>
            let t := st t next (mk_radix_node None None (Some node) NGX_RADIX_NO_VALUE) in
            let! k := key_bit c p in
            let! t := upd t node (fun n => if k : bool then n <| right := Some next |> else n <| left := Some next |>) in
            let '(p, brk) := advance c p in
            if brk : bool then Ok (Some next, t) else grow f t next p
        end
      else Ok (Some node, t)
  end.

Definition tree_insert (fuel : nat) t (v : Z) : out (Z * ngx_radix_tree) :=
  let! r := deref (root t) in
  let! x := descend fuel t r (first c) in
  let '(p, node, next) := x in
  match next with
  | Some _ =>
      let! n := ld t node in
      if negb (value n =? NGX_RADIX_NO_VALUE) then Ok (NGX_BUSY, t)
      else Ok (NGX_OK, st t node (n <| value := v |>))
  | None =>
      let! (node, t) := grow fuel t node p in
      match node with
      | None => Ok (NGX_ERROR, t)
      | Some node => let! t := upd t node (fun n => n <| value := v |>) in Ok (NGX_OK, t)
      end
  end.

(** The loop that looks for the node to delete. *)
Fixpoint locate (fuel : nat) t (node : option Z) (p : position c) : out (option Z) :=
  match fuel with
  | O => NoFuel
  | S f =>
      match node with
      | None => Ok None
      | Some a =>
          let! m := mask_bit c p in
          if m : bool then
            let! n := ld t a in
            let! next := child n p in
            let '(p, brk) := advance c p in
            if brk : bool then Ok next else locate f t next p
          else Ok (Some a)
      end
  end.
End Loops.

(** [node->right || node->left] *)
Definition has_child (n : ngx_radix_node) : bool :=
  match right n, left n with None, None => false | _, _ => true end.

(** The loop that takes a leaf out of the tree, and then its ancestors that have
    become leaves without a value. *)
Fixpoint prune (fuel : nat) t (node : Z) : out ngx_radix_tree :=
  match fuel with
  | O => NoFuel
  | S f =>
      let! n := ld t node in
      let! up := deref (parent n) in
      let! t := upd t up (fun n => if bool_decide (right n = Some node) then n <| right := None |> else n <| left := None |>) in
      let! t := upd t node (fun n => n <| right := free t |>) in
      let t := t <| free := Some node |> in
      let! n := ld t up in
      if has_child n then Ok t
      else if negb (value n =? NGX_RADIX_NO_VALUE) then Ok t
      else match parent n with None => Ok t | Some _ => prune f t up end
  end.

Definition tree_delete (c : cursor) (fuel : nat) t : out (Z * ngx_radix_tree) :=
  let! node := locate c fuel t (root t) (first c) in
  match node with
  | None => Ok (NGX_ERROR, t)
  | Some a =>
      let! n := ld t a in
      if has_child n then
        if negb (value n =? NGX_RADIX_NO_VALUE) then Ok (NGX_OK, st t a (n <| value := NGX_RADIX_NO_VALUE |>))
        else Ok (NGX_ERROR, t)
      else let! t := prune fuel t a in Ok (NGX_OK, t)
  end.

Fixpoint tree_find (c : cursor) (fuel : nat) t (node : option Z) (p : position c) (v : Z) : out Z :=
  match fuel with
  | O => NoFuel
  | S f =>
      match node with
      | None => Ok v
      | Some a =>
          let! n := ld t a in
          let v := if negb (value n =? NGX_RADIX_NO_VALUE) then value n else v in
          let! next := child c n p in
          tree_find c f t next (advance c p).1 v
      end
  end.

(** ** The functions

    A node is at most 32 levels, or 128, below the root. *)
Definition fuel32 : nat := 34.
Definition fuel128 : nat := 130.

Definition ngx_radix32tree_insert t (key mask v : Z) : out (Z * ngx_radix_tree) := tree_insert (cursor32 key mask) fuel32 t v.
Definition ngx_radix32tree_delete t (key mask : Z) : out (Z * ngx_radix_tree) := tree_delete (cursor32 key mask) fuel32 t.
Definition ngx_radix32tree_find t (key : Z) : out Z :=
  tree_find (cursor32 key 0) fuel32 t (root t) (first (cursor32 key 0)) NGX_RADIX_NO_VALUE.

Definition ngx_radix128tree_insert t (key mask : bytes) (v : Z) : out (Z * ngx_radix_tree) :=
  tree_insert (cursor128 key mask) fuel128 t v.
Definition ngx_radix128tree_delete t (key mask : bytes) : out (Z * ngx_radix_tree) := tree_delete (cursor128 key mask) fuel128 t.
Definition ngx_radix128tree_find t (key : bytes) : out Z :=
  tree_find (find128 key) fuel128 t (root t) (first (find128 key)) NGX_RADIX_NO_VALUE.

(** ** Creation *)

(** [do { ... key += inc; } while (key)]; [None] when an insertion fails. *)
Fixpoint prefill (fuel : nat) t (key mask inc : Z) : out (option ngx_radix_tree) :=
  match fuel with
  | O => NoFuel
  | S f =>
      let! (rc, t) := ngx_radix32tree_insert t key mask NGX_RADIX_NO_VALUE in
      if negb (rc =? NGX_OK) then Ok None
      else let key := u32 (key + inc) in if key =? 0 then Ok (Some t) else prefill f t key mask inc
  end.

(** [while (preallocate--)], the mask and the increment before the round. *)
Fixpoint prealloc (rounds : nat) t (mask inc : Z) : out (option ngx_radix_tree) :=
  match rounds with
  | O => Ok (Some t)
  | S r =>
      let mask := Z.lor (Z.shiftr mask 1) 0x80000000 in
      let! x := prefill (Z.to_nat (2 ^ 32 / inc)) t 0 mask inc in
      match x with None => Ok None | Some t => prealloc r t mask (Z.shiftr inc 1) end
  end.

(** [None] stands for NULL.  A [preallocate] between 0 and 32, or -1. *)
Definition ngx_radix_tree_create (pl : pool) (preallocate : Z) (o : os) : out (option ngx_radix_tree) :=
  let! (p, pl, o) := ngx_palloc pl 40 o in
  match p with
  | None => Ok None
  | Some _ =>
      let! (r, t) := ngx_radix_alloc (mk_radix_tree ∅ None pl None 0 0 o) in
      match r with
      | None => Ok None
      | Some r =>
          let t := (st t r (mk_radix_node None None None NGX_RADIX_NO_VALUE)) <| root := Some r |> in
          if preallocate =? 0 then Ok (Some t)
          else
            let preallocate := if preallocate =? -1 then
              let k := ngx_pagesize / sizeof_radix_node in if k =? 128 then 6 else if k =? 256 then 7 else 8
              else preallocate in
            prealloc (Z.to_nat preallocate) t 0 0x80000000
      end
  end.
End Radix.
