(* ===== verification/NgxRadixProps.v ===== *)
(** * Radix trees: the invariant and the properties

    A tree is described by the address of each path that has a node, the value of
    each path that has one, and the list of free nodes.  A path is the list of
    the bits that lead to it, the last one first, so that a node's children and
    parent are one bit away.  The memory is described apart: the free list, and
    the page that new nodes are cut from. *)
From S2P Require Import Prelude.
From stdpp Require Import gmap.
From S2P Require Import NgxPalloc NgxRadix.
#[local] Open Scope Z_scope.

(** ** The pages of the pool *)

(** What more the system's allocator promises: an allocation, or the release of
    another block, leaves the live blocks alone. *)
Class OSMemKeeps (Osm : OSMem) (OL : OSMemLaws Osm) := {
  os_alloc_keeps o al n r o' x : os_alloc o al n = (r, o') -> x ∈ os_live o -> x ∈ os_live o';
  os_free_keeps o p q k : (q, k) ∈ os_live o -> q <> p -> (q, k) ∈ os_live (os_free o p)
}.

Section Pages.
Context {Osm : OSMem} {OL : OSMemLaws Osm} {OK : OSMemKeeps Osm OL}.

Definition keeps (o o' : os) : Prop := forall q k, 0 < k -> (q, k) ∈ os_live o -> (q, k) ∈ os_live o'.

Lemma keeps_refl o : keeps o o.
Proof. by intros q k. Qed.

Lemma keeps_trans o1 o2 o3 : keeps o1 o2 -> keeps o2 o3 -> keeps o1 o3.
Proof. intros H1 H2 q k Hk H. eauto. Qed.

Lemma alloc_keeps o al n r o' : os_alloc o al n = (r, o') -> keeps o o'.
Proof. intros E q k _. by eapply os_alloc_keeps. Qed.

(** The release of a block that was allocated after the state [o0]. *)
Lemma free_fresh_keeps o0 o1 o al n p :
  os_alloc o0 al n = (Some p, o1) -> 0 < al -> 0 < n -> keeps o0 o -> keeps o0 (os_free o p).
Proof.
  intros E Hal Hn Ho q k Hk Hq. apply os_free_keeps; [by apply Ho|]. intros ->.
  destruct (os_alloc_Some _ _ _ _ _ E Hal Hn) as (_ & _ & _ & _ & Hall).
  rewrite List.Forall_forall in Hall. apply list_elem_of_In in Hq. specialize (Hall _ Hq). cbn in Hall. lia.
Qed.

Lemma palloc_small_keeps al pl size o r pl' o' :
  palloc_small al pl size o = (r, pl', o') -> keeps o o' /\ p_max pl' = p_max pl.
Proof.
  unfold palloc_small. destruct (try_blocks _ _ _) as [[m bl]|]; [intros [= <- <- <-]; by split; [apply keeps_refl|]|].
  unfold ngx_palloc_block. destruct (blocks pl); [intros [= <- <- <-]; by split; [apply keeps_refl|]|].
  destruct (os_alloc _ _ _) as [[new|] o1] eqn:E; [|intros [= <- <- <-]; split; [by eapply alloc_keeps|done]].
  destruct (count_failed _ _ _) as [tl cur]. intros [= <- <- <-]. split; [by eapply alloc_keeps|done].
Qed.

(** The list node of a large allocation is a small one. *)
Lemma list_node_keeps pl o :
  sizeof_pool_large_t <= p_max pl ->
  exists r pl' o', ngx_palloc pl sizeof_pool_large_t o = Ok (r, pl', o') /\ keeps o o' /\ p_max pl' = p_max pl.
Proof.
  intros Hmax. unfold ngx_palloc. cbn [palloc_fuel]. destruct (Z.leb_spec sizeof_pool_large_t (p_max pl)); [|lia].
  destruct (palloc_small true pl sizeof_pool_large_t o) as [[r pl'] o'] eqn:E. exists r, pl', o'.
  split; [done|]. by eapply palloc_small_keeps.
Qed.

(** A page is new memory. *)
Lemma pmemalign_page pl o :
  sizeof_pool_large_t <= p_max pl ->
  exists r pl' o', ngx_pmemalign pl ngx_pagesize ngx_pagesize o = Ok (r, pl', o') /\ keeps o o' /\ p_max pl' = p_max pl /\
    match r with
    | Some p => 0 < p /\ (p, ngx_pagesize) ∈ os_live o' /\
        forall q k, (q, k) ∈ os_live o -> p + ngx_pagesize <= q \/ q + k <= p
    | None => True
    end.
Proof.
  intros Hmax. unfold ngx_pmemalign. destruct (os_alloc o ngx_pagesize ngx_pagesize) as [[p|] o1] eqn:E.
  - destruct (list_node_keeps pl o1 Hmax) as (r & pl' & o' & -> & Hk & Hm). cbn [obind].
    destruct (os_alloc_Some _ _ _ _ _ E ltac:(done) ltac:(done)) as (Hp & _ & _ & Hlive & Hall).
    assert (keeps o o') as Hko by (eapply keeps_trans; [by eapply alloc_keeps|exact Hk]).
    destruct r as [r|]; eexists _, _, _; (split; [reflexivity|]).
    + split; [done|]. split; [done|]. split; [done|]. split; [apply Hk; [done|]; rewrite Hlive; by left|].
      intros q k Hq. rewrite List.Forall_forall in Hall. apply list_elem_of_In in Hq. exact (Hall _ Hq).
    + split; [|by split]. by eapply free_fresh_keeps.
  - eexists _, _, _. split; [reflexivity|]. split; [by eapply alloc_keeps|by split].
Qed.
End Pages.

Section Inv.
Context {Osm : OSMem} {OL : OSMemLaws Osm} {OK : OSMemKeeps Osm OL}.
Implicit Types (t : ngx_radix_tree) (sh vals : gmap (list bool) Z) (fl : list Z) (p q ks : list bool).

(** ** The memory *)

(** The list of free nodes, linked by [right]. *)
Fixpoint chain t (a : option Z) (fl : list Z) : Prop :=
  match fl with
  | [] => a = None
  | x :: fl' => a = Some x /\ exists n, nodes t !! x = Some n /\ chain t (right n) fl'
  end.

Record mem_ok t fl : Prop := {
  m_chain : chain t (free t) fl;
  m_nodup : NoDup fl;
  m_pool : sizeof_pool_large_t <= p_max (tree_pool t);
  m_size : 0 <= size t;
  m_pages : exists pages : list Z, (forall pg, pg ∈ pages -> (pg, ngx_pagesize) ∈ os_live (mem t)) /\
    (forall a n, nodes t !! a = Some n -> exists pg, pg ∈ pages /\ pg <= a /\ a + sizeof_radix_node <= pg + ngx_pagesize) /\
    (sizeof_radix_node <= size t -> exists pg, pg ∈ pages /\ pg <= start t /\ start t + size t <= pg + ngx_pagesize);
  m_fresh : sizeof_radix_node <= size t -> forall a n, nodes t !! a = Some n -> a + sizeof_radix_node <= start t \/ start t + size t <= a
}.

(** ** The shape *)
Definition node_at sh vals p : ngx_radix_node :=
  mk_radix_node (sh !! (true :: p)) (sh !! (false :: p)) (match p with [] => None | _ :: q => sh !! q end)
    (default NGX_RADIX_NO_VALUE (vals !! p)).

Record shape_ok t sh vals : Prop := {
  s_root : root t = sh !! [];
  s_some : is_Some (sh !! []);
  s_closed : forall b p, is_Some (sh !! (b :: p)) -> is_Some (sh !! p);
  s_inj : forall p q a, sh !! p = Some a -> sh !! q = Some a -> p = q;
  s_node : forall p a, sh !! p = Some a -> nodes t !! a = Some (node_at sh vals p);
  s_vals : forall p v, vals !! p = Some v -> is_Some (sh !! p) /\ v <> NGX_RADIX_NO_VALUE
}.

(** The free nodes are not in the tree. *)
Definition apart sh fl : Prop := forall p a, sh !! p = Some a -> a ∉ fl.

Record radix_ok t sh vals fl : Prop := {
  r_mem : mem_ok t fl; r_shape : shape_ok t sh vals; r_apart : apart sh fl }.

Lemma chain_ext t t' a fl :
  (forall x, x ∈ fl -> nodes t' !! x = nodes t !! x) -> chain t a fl -> chain t' a fl.
Proof.
  revert a. induction fl as [|x fl IH]; intros a Hn; cbn; [done|].
  intros (-> & n & Hx & Hc). split; [done|]. exists n. rewrite Hn by left. split; [done|]. apply IH; [|done].
  intros y Hy. apply Hn. by right.
Qed.

(** Writing a node of the tree. *)
Lemma mem_ok_st t fl a n n' : mem_ok t fl -> nodes t !! a = Some n' -> a ∉ fl -> mem_ok (st t a n) fl.
Proof.
  intros [Hc Hd Hp Hs Hpg Hf] Ha Hfl.
  assert (Hdom : forall b m, nodes (st t a n) !! b = Some m -> exists m', nodes t !! b = Some m').
  { intros b m Hb. cbn in Hb. destruct (decide (b = a)) as [-> |Hne]; [eauto|]. rewrite lookup_insert_ne in Hb by done. eauto. }
  split; try done.
  - eapply (chain_ext t); [|exact Hc]. intros x Hx. cbn. rewrite lookup_insert_ne; [done|]. intros ->. done.
  - destruct Hpg as (pages & H1 & H2 & H3). exists pages. split_and!; try done.
    intros b m Hb. destruct (Hdom b m Hb) as [m' Hm']. by eapply H2.
  - intros Hsz b m Hb. destruct (Hdom b m Hb) as [m' Hm']. by eapply Hf.
Qed.

Lemma upd_spec t a n f : nodes t !! a = Some n -> upd t a f = Ok (st t a (f n)).
Proof. intros Ha. unfold upd, ld. by rewrite Ha. Qed.

Lemma ld_spec t sh vals p a : shape_ok t sh vals -> sh !! p = Some a -> ld t a = Ok (node_at sh vals p).
Proof. intros Hs Ha. unfold ld. by rewrite (s_node _ _ _ Hs p a Ha). Qed.

(** The bounds of the page that is cut. *)
Lemma mem_ok_page t fl (pages : list Z) :
  chain t (free t) fl -> NoDup fl -> sizeof_pool_large_t <= p_max (tree_pool t) -> 0 <= size t ->
  (forall pg, pg ∈ pages -> (pg, ngx_pagesize) ∈ os_live (mem t)) ->
  (forall a n, nodes t !! a = Some n -> exists pg, pg ∈ pages /\ pg <= a /\ a + sizeof_radix_node <= pg + ngx_pagesize) ->
  (exists pg, pg ∈ pages /\ pg <= start t /\ start t + size t <= pg + ngx_pagesize) ->
  (forall a n, nodes t !! a = Some n -> a + sizeof_radix_node <= start t \/ start t + size t <= a) ->
  mem_ok t fl.
Proof. intros H1 H2 H3 H4 H5 H6 H7 H8. split; [done..|exists pages; by split_and!|done]. Qed.

(** A node cut from the page. *)
Lemma cut_spec t : 
  mem_ok t [] -> sizeof_radix_node <= size t ->
  nodes t !! start t = None /\
  forall n, mem_ok (st (t <| start := start t + sizeof_radix_node |> <| size := size t - sizeof_radix_node |>) (start t) n) [].
Proof.
  intros [Hc Hd Hp Hs Hpg Hf] Hsz. specialize (Hf Hsz). unfold sizeof_radix_node in *. split.
  { destruct (nodes t !! start t) eqn:E; [|done]. specialize (Hf _ _ E). lia. }
  intros n. destruct Hpg as (pages & H1 & H2 & H3). destruct (H3 Hsz) as (pg & Hpg & Hl & Hu).
  apply (mem_ok_page _ _ pages); try done; cbn; unfold sizeof_radix_node.
  - lia.
  - intros a m Ha. destruct (decide (a = start t)) as [-> |Hne]; [exists pg; split; [done|]; lia|].
    rewrite lookup_insert_ne in Ha by done. by eapply H2.
  - exists pg. split; [done|]. lia.
  - intros a m Ha. unfold sizeof_radix_node. destruct (decide (a = start t)) as [-> |Hne]; [lia|].
    rewrite lookup_insert_ne in Ha by done. specialize (Hf _ _ Ha). lia.
Qed.

(** A new page. *)
Lemma page_spec t pl o (p : Z) :
  mem_ok t [] -> keeps (mem t) o -> p_max pl = p_max (tree_pool t) -> 0 < p -> (p, ngx_pagesize) ∈ os_live o ->
  (forall (q k : Z), (q, k) ∈ os_live (mem t) -> p + ngx_pagesize <= q \/ q + k <= p) ->
  mem_ok (t <| tree_pool := pl |> <| mem := o |> <| start := p |> <| size := ngx_pagesize |>) [].
Proof.
  intros [Hc Hd Hp Hs Hpg Hf] Hk Hm Hp0 Hlive Hfresh. destruct Hpg as (pages & H1 & H2 & H3).
  apply (mem_ok_page _ _ (p :: pages)); try done; cbn.
  - by rewrite Hm.
  - intros pg [-> |Hpg]%elem_of_cons; [done|]. by apply Hk, H1.
  - intros a n Ha. destruct (H2 a n Ha) as (pg & Hpg & Hb). exists pg. split; [by right|done].
  - exists p. split; [left|]. lia.
  - intros a n Ha. destruct (H2 a n Ha) as (pg & Hpg & Hb). specialize (Hfresh _ _ (H1 pg Hpg)). lia.
Qed.

(** An allocation: the node is nowhere in the tree, and once it is written the
    memory is as it should be again. *)
Lemma alloc_spec t fl :
  mem_ok t fl ->
  exists r t', ngx_radix_alloc t = Ok (r, t') /\ nodes t' = nodes t /\ root t' = root t /\
    match r with
    | None => fl = [] /\ mem_ok t' fl
    | Some a => exists fl', (forall x, x ∈ fl' -> x ∈ fl) /\ a ∉ fl' /\ (a ∈ fl \/ nodes t !! a = None) /\
        forall n, mem_ok (st t' a n) fl'
    end.
Proof.
  intros Hm. pose proof Hm as [Hc Hd Hp Hs Hpg Hf]. unfold ngx_radix_alloc. destruct fl as [|x fl]; cbn in Hc.
  - rewrite Hc. destruct (Z.ltb_spec (size t) sizeof_radix_node) as [Hlt|Hge].
    + destruct (pmemalign_page (tree_pool t) (mem t) Hp) as (r & pl & o & -> & Hk & Hmax & Hr). cbn [obind].
      destruct r as [p|].
      * destruct Hr as (Hp0 & Hlive & Hfresh). pose proof (page_spec t pl o p Hm Hk Hmax Hp0 Hlive Hfresh) as Hm'.
        destruct (cut_spec _ Hm' ltac:(cbn; done)) as [Hn Hcut]. eexists _, _. split; [reflexivity|].
        split; [done|]. split; [done|]. exists []. split; [done|]. split; [apply not_elem_of_nil|]. split; [by right|].
        exact Hcut.
      * eexists _, _. split; [reflexivity|]. split; [done|]. split; [done|]. split; [done|].
        destruct Hpg as (pages & H1 & H2 & H3). split; cbn; try done; try (intros; lia); try (by rewrite Hmax).
        exists pages. split_and!; try done; [|lia]. intros pg Hpg. by apply Hk, H1.
    + destruct (cut_spec _ Hm Hge) as [Hn Hcut]. eexists _, _. split; [reflexivity|].
      split; [done|]. split; [done|]. exists []. split; [done|]. split; [apply not_elem_of_nil|]. split; [by right|].
      exact Hcut.
  - destruct Hc as (Hfr & n & Hx & Hc). rewrite Hfr. unfold ld. rewrite Hx. cbn [obind]. apply NoDup_cons in Hd as [Hxfl Hd].
    eexists _, _. split; [reflexivity|]. split; [done|]. split; [done|]. exists fl.
    split; [by right|]. split; [done|]. split; [left; left|]. intros n'.
    eapply (mem_ok_st _ _ _ _ n); [|done|done]. split; cbn; try done. eapply (chain_ext t); [done|exact Hc].
Qed.

(** ** Changes of the shape *)

(** A value is set or, with [NGX_RADIX_NO_VALUE], removed. *)
Definition set_at (p : list bool) (v : Z) vals : gmap (list bool) Z :=
  if v =? NGX_RADIX_NO_VALUE then delete p vals else <[p := v]> vals.

Lemma set_at_default p v vals q :
  default NGX_RADIX_NO_VALUE (set_at p v vals !! q) = if decide (q = p) then v else default NGX_RADIX_NO_VALUE (vals !! q).
Proof.
  unfold set_at. destruct (Z.eqb_spec v NGX_RADIX_NO_VALUE) as [-> |]; destruct (decide (q = p)) as [-> |].
  - by rewrite lookup_delete_eq.
  - by rewrite lookup_delete_ne.
  - by rewrite lookup_insert_eq.
  - by rewrite lookup_insert_ne.
Qed.

Lemma set_at_vals sh vals p v :
  is_Some (sh !! p) -> (forall q w, vals !! q = Some w -> is_Some (sh !! q) /\ w <> NGX_RADIX_NO_VALUE) ->
  forall q w, set_at p v vals !! q = Some w -> is_Some (sh !! q) /\ w <> NGX_RADIX_NO_VALUE.
Proof.
  intros Hp Hv q w. unfold set_at. destruct (Z.eqb_spec v NGX_RADIX_NO_VALUE) as [-> |Hne].
  - intros [_ H]%lookup_delete_Some. eauto.
  - intros [[<- <-]|[_ H]]%lookup_insert_Some; eauto.
Qed.

Lemma set_value t sh vals p a v :
  shape_ok t sh vals -> sh !! p = Some a ->
  shape_ok (st t a ((node_at sh vals p) <| value := v |>)) sh (set_at p v vals).
Proof.
  intros [Hr Hs Hc Hi Hn Hv] Ha. split; try done.
  - intros q b Hq. cbn. destruct (decide (q = p)) as [-> |Hne].
    + assert (b = a) as -> by congruence. rewrite lookup_insert_eq. unfold node_at. cbn. by rewrite set_at_default, decide_True.
    + rewrite lookup_insert_ne by (intros ->; apply Hne; by eapply Hi). rewrite (Hn q b Hq).
      unfold node_at. by rewrite set_at_default, decide_False.
  - apply set_at_vals; [by eexists|done].
Qed.

(** A new child of the node [u] at [p]. *)
Definition link (b : bool) (x : option Z) (n : ngx_radix_node) : ngx_radix_node :=
  if b then n <| right := x |> else n <| left := x |>.

Lemma attach t sh vals p u b a :
  shape_ok t sh vals -> sh !! p = Some u -> sh !! (b :: p) = None -> (forall q, sh !! q <> Some a) ->
  shape_ok (st (st t a (mk_radix_node None None (Some u) NGX_RADIX_NO_VALUE)) u (link b (Some a) (node_at sh vals p)))
    (<[b :: p := a]> sh) vals.
Proof.
  intros [Hr Hs Hc Hi Hn Hv] Hu Hnew Ha. assert (u <> a) by (intros ->; by eapply Ha).
  assert (Hother : forall q c, q <> b :: p -> <[b :: p := a]> sh !! q = Some c -> sh !! q = Some c /\ c <> a).
  { intros q c Hq. rewrite lookup_insert_ne by done. intros Hqc. split; [done|]. intros ->. by eapply Ha. }
  split; try done.
  - cbn. by rewrite lookup_insert_ne.
  - by rewrite lookup_insert_ne.
  - intros c q. destruct (decide (c :: q = b :: p)) as [[= -> ->]|Hne].
    + intros _. rewrite lookup_insert_ne; [by eexists|]. intros E. apply (f_equal length) in E. cbn in E. lia.
    + rewrite lookup_insert_ne by done. intros Hq. destruct (decide (q = b :: p)) as [-> |]; [rewrite lookup_insert_eq; by eexists|].
      rewrite lookup_insert_ne by done. by eapply Hc.
  - intros q1 q2 c H1 H2. destruct (decide (q1 = b :: p)) as [-> |N1], (decide (q2 = b :: p)) as [-> |N2]; [done| | |].
    + rewrite lookup_insert_eq in H1. injection H1 as <-. by destruct (Hother _ _ N2 H2).
    + rewrite lookup_insert_eq in H2. injection H2 as <-. by destruct (Hother _ _ N1 H1).
    + destruct (Hother _ _ N1 H1), (Hother _ _ N2 H2). by eapply Hi.
  - intros q c Hq. cbn. destruct (decide (q = b :: p)) as [-> |Nq].
    + rewrite lookup_insert_eq in Hq. injection Hq as <-. rewrite lookup_insert_ne, lookup_insert_eq by done.
      assert (Hnone : forall e, <[b :: p := a]> sh !! (e :: b :: p) = None).
      { intros e. rewrite lookup_insert_ne by (intros E; apply (f_equal length) in E; cbn in E; lia).
        destruct (sh !! (e :: b :: p)) eqn:E; [|done]. destruct (Hc e (b :: p)) as [x Hx]; [by eexists|]. congruence. }
      unfold node_at. rewrite !Hnone, lookup_insert_ne by (intros E; apply (f_equal length) in E; cbn in E; lia).
      rewrite Hu. destruct (vals !! (b :: p)) eqn:E; [|done]. destruct (proj1 (Hv _ _ E)). congruence.
    + destruct (Hother _ _ Nq Hq) as [Hq' Hca]. destruct (decide (q = p)) as [-> |Nqp].
      * assert (c = u) as -> by congruence. rewrite lookup_insert_eq. unfold node_at, link.
        assert (Hpar : match p with [] => None | _ :: q => <[b :: p := a]> sh !! q end = match p with [] => None | _ :: q => sh !! q end).
        { destruct p as [|e p']; [done|]. rewrite lookup_insert_ne; [done|]. intros E. apply (f_equal length) in E. cbn in E. lia. }
        rewrite Hpar. destruct b; cbn; rewrite lookup_insert_eq, lookup_insert_ne by done; done.
      * assert (c <> u) by (intros ->; apply Nqp; by eapply Hi). rewrite !lookup_insert_ne by done. rewrite (Hn q c Hq').
        unfold node_at. f_equal. f_equal.
        -- rewrite lookup_insert_ne; [done|]. by intros [= _ ->].
        -- rewrite lookup_insert_ne; [done|]. by intros [= _ ->].
        -- destruct q as [|e q']; [done|]. rewrite lookup_insert_ne; [done|]. intros <-.
           destruct (Hc e (b :: p)) as [x Hx]; [by eexists|]. congruence.
  - intros q v Hq. destruct (Hv q v Hq) as [[x Hx] ?]. split; [|done].
    rewrite lookup_insert_ne; [by eexists|]. intros <-. congruence.
Qed.

(** A leaf is taken out. *)
Lemma detach t sh vals p u b a n :
  shape_ok t sh vals -> sh !! p = Some u -> sh !! (b :: p) = Some a -> (forall c, sh !! (c :: b :: p) = None) ->
  shape_ok (st (st t u (link b None (node_at sh vals p))) a n) (delete (b :: p) sh) (delete (b :: p) vals).
Proof.
  intros [Hr Hs Hc Hi Hn Hv] Hu Ha Hleaf.
  assert (Hlen : forall q : list bool, length q <> S (length p) -> q <> b :: p) by (intros q Hq ->; done).
  split; try done.
  - cbn. by rewrite lookup_delete_ne.
  - by rewrite lookup_delete_ne.
  - intros c q [x [Hne Hq]%lookup_delete_Some]. rewrite lookup_delete_ne; [by eapply Hc|]. intros <-. by rewrite Hleaf in Hq.
  - intros q1 q2 c [_ H1]%lookup_delete_Some [_ H2]%lookup_delete_Some. by eapply Hi.
  - intros q c [Hne Hq]%lookup_delete_Some. cbn.
    assert (c <> a) by (intros ->; apply Hne; by eapply Hi). rewrite lookup_insert_ne by done.
    assert (Hval : default NGX_RADIX_NO_VALUE (delete (b :: p) vals !! q) = default NGX_RADIX_NO_VALUE (vals !! q)).
    { by rewrite lookup_delete_ne. }
    destruct (decide (q = p)) as [-> |Nqp].
    + assert (c = u) as -> by congruence. rewrite lookup_insert_eq. unfold node_at, link. rewrite Hval.
      assert (Hpar : match p with [] => None | _ :: q => delete (b :: p) sh !! q end = match p with [] => None | _ :: q => sh !! q end).
      { destruct p as [|e p']; [done|]. rewrite lookup_delete_ne; [done|]. symmetry. apply Hlen. cbn. lia. }
      rewrite Hpar. destruct b; cbn; rewrite lookup_delete_eq, lookup_delete_ne by done; done.
    + assert (c <> u) by (intros ->; apply Nqp; by eapply Hi). rewrite lookup_insert_ne by done. rewrite (Hn q c Hq).
      unfold node_at. rewrite Hval. f_equal. f_equal.
      * rewrite lookup_delete_ne; [done|]. by intros [= _ ->].
      * rewrite lookup_delete_ne; [done|]. by intros [= _ ->].
      * destruct q as [|e q']; [done|]. rewrite lookup_delete_ne; [done|]. intros <-. by rewrite Hleaf in Hq.
  - intros q v [Hne Hq]%lookup_delete_Some. destruct (Hv q v Hq) as [Hx ?]. split; [|done]. by rewrite lookup_delete_ne.
Qed.
End Inv.

(** * Radix trees: properties

    The loops follow the bits that a cursor reads; an insertion, a deletion and a
    search refine those of a finite map from prefixes to values, a search
    answering the value of the longest prefix of the key. *)
From S2P Require Import Prelude.
From stdpp Require Import gmap.
From S2P Require Import NgxPalloc NginxProps NgxRadix.
#[local] Open Scope Z_scope.

(** ** What a cursor reads *)

(** From position [x] the bits [ks] are under the mask. *)
Inductive reads (c : cursor) : position c -> list bool -> Prop :=
| reads_end x : mask_bit c x = Ok false -> reads c x []
| reads_last x k y : mask_bit c x = Ok true -> key_bit c x = Ok k -> advance c x = (y, true) -> reads c x [k]
| reads_next x k y ks : mask_bit c x = Ok true -> key_bit c x = Ok k -> advance c x = (y, false) -> reads c y ks ->
    reads c x (k :: ks).

(** From position [x] the key goes on with the bits [ks], the mask aside. *)
Inductive sees (c : cursor) : position c -> list bool -> Prop :=
| sees_nil x : sees c x []
| sees_cons x k ks : key_bit c x = Ok k -> sees c (advance c x).1 ks -> sees c x (k :: ks).

Section Loops.
Context {Osm : OSMem} {OL : OSMemLaws Osm} {OK : OSMemKeeps Osm OL}.
Implicit Types (t : ngx_radix_tree) (sh vals : gmap (list bool) Z) (fl : list Z) (p q ks : list bool).

Lemma child_spec (c : cursor) sh vals p x k : key_bit c x = Ok k -> child c (node_at sh vals p) x = Ok (sh !! (k :: p)).
Proof. intros E. unfold child. rewrite E. cbn. by destruct k. Qed.

(** A path whose first part has no node has none either. *)
Lemma closed_app t sh vals p ks : shape_ok t sh vals -> sh !! p = None -> sh !! (ks ++ p) = None.
Proof.
  intros Hs Hp. induction ks as [|b ks IH]; [done|]. cbn. destruct (sh !! (b :: ks ++ p)) eqn:E; [|done].
  destruct (s_closed _ _ _ Hs b (ks ++ p)) as [x Hx]; [by eexists|]. congruence.
Qed.

Lemma rev_snoc (k : bool) ks p : reverse (k :: ks) ++ p = reverse ks ++ k :: p.
Proof. by rewrite reverse_cons, <- app_assoc. Qed.

(** The way down of an insertion: to the end of the prefix, or to where a node
    is missing. *)
Lemma descend_spec c t sh vals ks : shape_ok t sh vals ->
  forall fuel x p a, reads c x ks -> sh !! p = Some a -> (length ks < fuel)%nat ->
  exists y b next, descend c fuel t a x = Ok (y, b, next) /\
    ((next = Some b /\ sh !! (reverse ks ++ p) = Some b) \/
     (next = None /\ exists ks1 k ks2, ks = ks1 ++ k :: ks2 /\ sh !! (reverse ks1 ++ p) = Some b /\
        reads c y (k :: ks2) /\ sh !! (k :: reverse ks1 ++ p) = None)).
Proof.
  intros Hs. induction ks as [|k ks IH]; intros fuel x p a Hr Ha Hf.
  - destruct fuel as [|f]; [lia|]. inversion Hr as [z Hm| |]; subst. cbn [descend]. rewrite Hm. cbn [obind].
    eexists _, _, _. split; [reflexivity|]. by left.
  - destruct fuel as [|f]; [lia|]. cbn in Hf.
    assert (Hk : mask_bit c x = Ok true /\ key_bit c x = Ok k) by (by inversion Hr). destruct Hk as [Hm Hk].
    cbn [descend]. rewrite Hm. cbn [obind]. rewrite (ld_spec _ _ _ _ _ Hs Ha). cbn [obind].
    rewrite (child_spec c sh vals p x k Hk). cbn [obind].
    destruct (sh !! (k :: p)) as [b|] eqn:Eb.
    + inversion Hr as [|z kz y Hmz Hkz Hadv|z kz y ksz Hmz Hkz Hadv Hy]; subst; rewrite Hadv.
      * eexists _, _, _. split; [reflexivity|]. left. by rewrite rev_snoc.
      * destruct (IH f y (k :: p) b Hy Eb ltac:(lia)) as (y' & b' & next & E & H). exists y', b', next. split; [done|].
        destruct H as [[-> H]|(-> & ks1 & k1 & ks2 & -> & H1 & H2 & H3)]; [left; by rewrite rev_snoc|right].
        split; [done|]. exists (k :: ks1), k1, ks2. by rewrite !rev_snoc.
    + eexists _, _, _. split; [reflexivity|]. right. split; [done|]. exists [], k, ks. done.
Qed.

(** A new node under [p]. *)
Lemma grow_step t sh vals fl p u k a t1 fl1 :
  radix_ok t sh vals fl -> sh !! p = Some u -> sh !! (k :: p) = None ->
  nodes t1 = nodes t -> root t1 = root t -> (forall x, x ∈ fl1 -> x ∈ fl) -> a ∉ fl1 -> (a ∈ fl \/ nodes t !! a = None) ->
  (forall n, mem_ok (st t1 a n) fl1) ->
  exists t2, upd (st t1 a (mk_radix_node None None (Some u) NGX_RADIX_NO_VALUE)) u
      (fun n => if k then n <| right := Some a |> else n <| left := Some a |>) = Ok t2 /\
    radix_ok t2 (<[k :: p := a]> sh) vals fl1.
Proof.
  intros [Hm Hs Hap] Hu Hk Hn Hr Hfl Ha Hnew Hst.
  assert (Hsa : forall q, sh !! q <> Some a).
  { intros q Hq. destruct Hnew as [Hin|Hno]; [by eapply Hap|]. by rewrite (s_node _ _ _ Hs q a Hq) in Hno. }
  assert (Hua : u <> a) by (intros ->; by eapply Hsa).
  assert (Hs1 : shape_ok t1 sh vals) by (destruct Hs; split; rewrite ?Hn, ?Hr; done).
  set (n := mk_radix_node None None (Some u) NGX_RADIX_NO_VALUE).
  assert (Hun : nodes (st t1 a n) !! u = Some (node_at sh vals p)).
  { cbn. rewrite lookup_insert_ne by done. rewrite Hn. by apply (s_node _ _ _ Hs). }
  rewrite (upd_spec _ _ _ _ Hun). eexists. split; [reflexivity|].
  split.
  - eapply mem_ok_st; [apply Hst|exact Hun|]. intros Hin. by eapply Hap, Hfl.
  - assert (E : (if k then (node_at sh vals p) <| right := Some a |> else (node_at sh vals p) <| left := Some a |>) = link k (Some a) (node_at sh vals p)) by (by destruct k).
    rewrite E. by apply (attach t1 sh vals p u k a Hs1 Hu Hk Hsa).
  - intros q b. destruct (decide (q = k :: p)) as [-> |Hq]; [rewrite lookup_insert_eq; by intros [= <-]|].
    rewrite lookup_insert_ne by done. intros Hb Hin. by eapply Hap, Hfl.
Qed.

(** New nodes are at most [d] levels below the root. *)
Definition deeper sh sh' (d : nat) : Prop := forall q, is_Some (sh' !! q) -> is_Some (sh !! q) \/ (length q <= d)%nat.

Lemma deeper_refl sh d : deeper sh sh d.
Proof. by left. Qed.

Lemma deeper_insert sh p a d : (length p <= d)%nat -> deeper sh (<[p := a]> sh) d.
Proof.
  intros Hp q. destruct (decide (q = p)) as [-> |]; [by right|]. rewrite lookup_insert_ne by done. by left.
Qed.

Lemma deeper_trans sh1 sh2 sh3 d : deeper sh1 sh2 d -> deeper sh2 sh3 d -> deeper sh1 sh3 d.
Proof. intros H1 H2 q Hq. destruct (H2 q Hq) as [Hq'|]; [by apply H1|by right]. Qed.

(** The new nodes of an insertion. *)
Lemma grow_spec c ks : forall fuel t sh vals fl x p a,
  radix_ok t sh vals fl -> reads c x ks -> sh !! p = Some a ->
  match ks with [] => True | k :: _ => sh !! (k :: p) = None end -> (length ks < fuel)%nat ->
  exists r t' sh' fl', grow c fuel t a x = Ok (r, t') /\ radix_ok t' sh' vals fl' /\ deeper sh sh' (length ks + length p) /\
    match r with Some b => sh' !! (reverse ks ++ p) = Some b | None => True end.
Proof.
  induction ks as [|k ks IH]; intros fuel t sh vals fl x p a Hok Hr Ha Hnew Hf.
  - destruct fuel as [|f]; [lia|]. inversion Hr as [z Hm| |]; subst. cbn [grow]. rewrite Hm. cbn [obind].
    eexists _, _, sh, fl. split; [reflexivity|]. split; [done|]. split; [apply deeper_refl|done].
  - destruct fuel as [|f]; [lia|]. cbn in Hf.
    assert (Hk : mask_bit c x = Ok true /\ key_bit c x = Ok k) by (by inversion Hr). destruct Hk as [Hm Hk].
    cbn [grow]. rewrite Hm. cbn [obind].
    destruct (alloc_spec t fl (r_mem _ _ _ _ Hok)) as (r & t1 & -> & Hn & Hrt & H). cbn [obind]. destruct r as [b|].
    + destruct H as (fl1 & Hfl & Hb & Hfresh & Hst). rewrite Hk. cbn [obind].
      destruct (grow_step t sh vals fl p a k b t1 fl1 Hok Ha Hnew Hn Hrt Hfl Hb Hfresh Hst) as (t2 & -> & Hok2). cbn [obind].
      assert (Hsub : deeper sh (<[k :: p := b]> sh) (length (k :: ks) + length p)) by (apply deeper_insert; cbn; lia).
      inversion Hr as [|z kz y Hmz Hkz Hadv|z kz y ksz Hmz Hkz Hadv Hy]; subst; rewrite Hadv.
      * eexists _, _, _, _. split; [reflexivity|]. split; [exact Hok2|]. split; [done|]. rewrite rev_snoc. apply lookup_insert_eq.
      * destruct (IH f t2 _ vals fl1 y (k :: p) b Hok2 Hy (lookup_insert_eq _ _ _)) as (r & t' & sh' & fl' & E & Hok' & Hsub' & Hr'); [|lia|].
        { destruct ks as [|k2 ks]; [done|]. rewrite lookup_insert_ne by (intros E; apply (f_equal length) in E; cbn in E; lia).
          by apply (closed_app t sh vals (k :: p) [k2] (r_shape _ _ _ _ Hok)). }
        exists r, t', sh', fl'. split; [done|]. split; [done|]. split; [|by rewrite rev_snoc].
        eapply deeper_trans; [exact Hsub|]. cbn [length] in *. by replace (S (length ks) + length p)%nat with (length ks + S (length p))%nat by lia.
    + destruct H as [-> Hm1]. eexists _, _, sh, []. split; [reflexivity|]. split; [|split; [apply deeper_refl|done]].
      destruct Hok as [_ Hs Hap]. split; [done| |done]. destruct Hs; split; rewrite ?Hn, ?Hrt; done.
Qed.

Lemma shape_bound t sh vals fl p a : radix_ok t sh vals fl -> sh !! p = Some a -> a ∉ fl.
Proof. intros Hok. by apply (r_apart _ _ _ _ Hok). Qed.

(** Writing the value of a node. *)
Lemma write_value t sh vals fl p a v : radix_ok t sh vals fl -> sh !! p = Some a ->
  radix_ok (st t a ((node_at sh vals p) <| value := v |>)) sh (set_at p v vals) fl.
Proof.
  intros Hok Ha. split; [|by apply set_value; [apply Hok|]|apply Hok].
  eapply mem_ok_st; [apply Hok|by apply (s_node _ _ _ (r_shape _ _ _ _ Hok))|by eapply shape_bound].
Qed.

Lemma no_value vals p : (forall q v, vals !! q = Some v -> v <> NGX_RADIX_NO_VALUE) ->
  (default NGX_RADIX_NO_VALUE (vals !! p) =? NGX_RADIX_NO_VALUE) = match vals !! p with Some _ => false | None => true end.
Proof.
  intros Hv. destruct (vals !! p) as [v|] eqn:E; cbn; [|apply Z.eqb_refl]. apply Z.eqb_neq. by eapply Hv.
Qed.

Lemma shape_vals t sh vals q v : shape_ok t sh vals -> vals !! q = Some v -> v <> NGX_RADIX_NO_VALUE.
Proof. intros Hs Hq. by apply (s_vals _ _ _ Hs q v). Qed.

(** An insertion at the prefix [ks]. *)
Lemma insert_spec c fuel t sh vals fl ks v :
  radix_ok t sh vals fl -> reads c (first c) ks -> (length ks < fuel)%nat ->
  exists rc t' sh' fl', tree_insert c fuel t v = Ok (rc, t') /\ deeper sh sh' (length ks) /\
    let p := reverse ks in
    match vals !! p with
    | Some _ => rc = NGX_BUSY /\ t' = t
    | None => rc = NGX_OK /\ radix_ok t' sh' (set_at p v vals) fl' \/ rc = NGX_ERROR /\ radix_ok t' sh' vals fl'
    end.
Proof.
  intros Hok Hr Hf. pose proof (r_shape _ _ _ _ Hok) as Hs. destruct (s_some _ _ _ Hs) as [rt Hrt].
  unfold tree_insert. rewrite (s_root _ _ _ Hs), Hrt. cbn [deref obind].
  destruct (descend_spec c t sh vals ks Hs fuel (first c) [] rt Hr Hrt Hf) as (y & b & next & -> & H). cbn [obind].
  rewrite app_nil_r in H. destruct H as [[-> Hb]|(-> & ks1 & k & ks2 & -> & Hb & Hy & Hnone)].
  - rewrite (ld_spec _ _ _ _ _ Hs Hb). cbn [obind node_at value].
    rewrite (no_value vals (reverse ks)) by (by intros; eapply shape_vals).
    destruct (vals !! reverse ks) eqn:Ev; cbn [negb].
    + exists NGX_BUSY, t, sh, fl. split; [done|]. split; [apply deeper_refl|done].
    + eexists _, _, sh, fl. split; [reflexivity|]. split; [apply deeper_refl|]. left. split; [done|]. by apply write_value.
  - rewrite app_nil_r in Hb, Hnone. rewrite length_app in Hf. cbn in Hf.
    destruct (grow_spec c (k :: ks2) fuel t sh vals fl y (reverse ks1) b Hok Hy Hb Hnone ltac:(cbn; lia))
      as (r & t1 & sh1 & fl1 & -> & Hok1 & Hsub & Hr1). cbn [obind].
    rewrite length_reverse in Hsub. replace (length (k :: ks2) + length ks1)%nat with (length (ks1 ++ k :: ks2)) in Hsub
      by (rewrite length_app; lia).
    assert (vals !! reverse (ks1 ++ k :: ks2) = None) as Hv.
    { destruct (vals !! reverse (ks1 ++ k :: ks2)) as [w|] eqn:E; [|done].
      destruct (s_vals _ _ _ Hs _ _ E) as [[z Hz] _]. rewrite reverse_app, reverse_cons, <- app_assoc in Hz. cbn in Hz.
      by rewrite (closed_app t sh vals _ _ Hs Hnone) in Hz. }
    rewrite Hv. destruct r as [a|].
    + rewrite <- reverse_app in Hr1. pose proof (s_node _ _ _ (r_shape _ _ _ _ Hok1) _ _ Hr1) as Ha.
      rewrite (upd_spec _ _ _ _ Ha). cbn [obind]. eexists _, _, sh1, fl1. split; [reflexivity|]. split; [done|].
      left. split; [done|]. by apply write_value.
    + exists NGX_ERROR, t1, sh1, fl1. split; [done|]. split; [done|]. by right.
Qed.

(** The node of a prefix. *)
Lemma locate_spec c t sh vals ks : shape_ok t sh vals ->
  forall fuel x p, reads c x ks -> (length ks < fuel)%nat ->
  locate c fuel t (sh !! p) x = Ok (sh !! (reverse ks ++ p)).
Proof.
  intros Hs. induction ks as [|k ks IH]; intros fuel x p Hr Hf; (destruct fuel as [|f]; [lia|]); cbn [locate].
  - inversion Hr as [z Hm| |]; subst. cbn. destruct (sh !! p); [|done]. by rewrite Hm.
  - destruct (sh !! p) as [a|] eqn:Ha; [|by rewrite (closed_app t sh vals p _ Hs Ha)]. cbn in Hf.
    assert (Hk : mask_bit c x = Ok true /\ key_bit c x = Ok k) by (by inversion Hr). destruct Hk as [Hm Hk].
    rewrite Hm. cbn [obind]. rewrite (ld_spec _ _ _ _ _ Hs Ha). cbn [obind]. rewrite (child_spec c sh vals p x k Hk).
    cbn [obind]. rewrite rev_snoc.
    inversion Hr as [|z kz y Hmz Hkz Hadv|z kz y ksz Hmz Hkz Hadv Hy]; subst; rewrite Hadv; [done|].
    by apply IH; [|lia].
Qed.

Lemma has_child_at sh vals p : has_child (node_at sh vals p) = true <-> exists c, is_Some (sh !! (c :: p)).
Proof.
  unfold has_child, node_at. cbn. split.
  - destruct (sh !! (true :: p)) eqn:Et; [exists true; by eexists|].
    destruct (sh !! (false :: p)) eqn:Ef; [exists false; by eexists|done].
  - intros [[] [x Hx]]; rewrite Hx; [done|]. by destruct (sh !! (true :: p)).
Qed.

(** One round of the pruning. *)
Lemma prune_step t sh vals fl p u b a :
  radix_ok t sh vals fl -> sh !! p = Some u -> sh !! (b :: p) = Some a -> (forall c, sh !! (c :: b :: p) = None) ->
  exists t1 t2, upd t u (fun n => if bool_decide (right n = Some a) then n <| right := None |> else n <| left := None |>) = Ok t1 /\
    upd t1 a (fun n => n <| right := free t1 |>) = Ok t2 /\
    radix_ok (t2 <| free := Some a |>) (delete (b :: p) sh) (delete (b :: p) vals) (a :: fl).
Proof.
  intros [Hm Hs Hap] Hu Ha Hleaf. pose proof (s_node _ _ _ Hs _ _ Hu) as Hun. pose proof (s_node _ _ _ Hs _ _ Ha) as Han.
  assert (Hua : u <> a). { intros ->. pose proof (s_inj _ _ _ Hs _ _ _ Hu Ha) as E. apply (f_equal length) in E. cbn in E. lia. }
  rewrite (upd_spec _ _ _ _ Hun). eexists _, _. split; [reflexivity|].
  assert (E : (if bool_decide (right (node_at sh vals p) = Some a) then (node_at sh vals p) <| right := None |> else (node_at sh vals p) <| left := None |>)
              = link b None (node_at sh vals p)).
  { unfold node_at at 1. cbn [right]. destruct b; [by rewrite bool_decide_true|]. rewrite bool_decide_false; [done|].
    intros Ht. by pose proof (s_inj _ _ _ Hs _ _ _ Ht Ha). }
  rewrite E. set (t1 := st t u (link b None (node_at sh vals p))).
  assert (Han1 : nodes t1 !! a = Some (node_at sh vals (b :: p))) by (unfold t1; cbn; by rewrite lookup_insert_ne).
  rewrite (upd_spec _ _ _ _ Han1). split; [reflexivity|].
  set (n := (node_at sh vals (b :: p)) <| right := free t1 |>).
  pose proof (mem_ok_st t fl u (link b None (node_at sh vals p)) _ Hm Hun (Hap _ _ Hu)) as Hm1. fold t1 in Hm1.
  pose proof (mem_ok_st t1 fl a n _ Hm1 Han1 (Hap _ _ Ha)) as Hm2.
  split.
  - destruct Hm2 as [Hc Hd Hp Hsz Hpg Hf]. split; cbn; try done; [|by apply NoDup_cons; split; [eapply Hap|]].
    split; [done|]. exists n. rewrite lookup_insert_eq. split; [done|].
    eapply (chain_ext (st t1 a n)); [done|]. exact Hc.
  - pose proof (detach t sh vals p u b a n Hs Hu Ha Hleaf) as [Hr' Hs' Hc' Hi' Hn' Hv']. split; done.
  - intros q c [Hne Hq]%lookup_delete_Some. apply not_elem_of_cons. split; [|by eapply Hap].
    intros ->. apply Hne. by eapply (s_inj _ _ _ Hs).
Qed.

(** The pruning ends; only nodes without a value go beside the first one. *)
Lemma prune_spec p : forall b fuel t sh vals fl a,
  radix_ok t sh vals fl -> sh !! (b :: p) = Some a -> (forall c, sh !! (c :: b :: p) = None) -> (length p < fuel)%nat ->
  exists t' sh' fl', prune fuel t a = Ok t' /\ radix_ok t' sh' (delete (b :: p) vals) fl' /\ sh' ⊆ sh.
Proof.
  induction p as [|b' p IH]; intros b fuel t sh vals fl a Hok Ha Hleaf Hf; (destruct fuel as [|f]; [lia|]); cbn in Hf;
    pose proof (r_shape _ _ _ _ Hok) as Hs; cbn [prune]; rewrite (ld_spec _ _ _ _ _ Hs Ha); cbn [obind];
    unfold node_at at 1; cbn [parent].
  - destruct (s_some _ _ _ Hs) as [u Hu]. rewrite Hu. cbn [deref obind].
    destruct (prune_step t sh vals fl [] u b a Hok Hu Ha Hleaf) as (t1 & t2 & -> & E2 & Hok').
    cbn [obind]. rewrite E2. cbn [obind]. set (t3 := t2 <| free := Some a |>) in *.
    assert (Hu' : delete [b] sh !! [] = Some u) by (by rewrite lookup_delete_ne).
    rewrite (ld_spec _ _ _ _ _ (r_shape _ _ _ _ Hok') Hu'). cbn [obind].
    exists t3, (delete [b] sh), (a :: fl). split; [|split; [done|apply delete_subseteq]].
    destruct (has_child _); [done|]. destruct (negb _); done.
  - destruct (s_closed _ _ _ Hs b (b' :: p)) as [u Hu]; [by eexists|]. rewrite Hu. cbn [deref obind].
    destruct (prune_step t sh vals fl (b' :: p) u b a Hok Hu Ha Hleaf) as (t1 & t2 & -> & E2 & Hok').
    cbn [obind]. rewrite E2. cbn [obind]. set (t3 := t2 <| free := Some a |>) in *.
    set (sh1 := delete (b :: b' :: p) sh) in *. set (vals1 := delete (b :: b' :: p) vals) in *.
    assert (Hu' : sh1 !! (b' :: p) = Some u).
    { unfold sh1. rewrite lookup_delete_ne; [done|]. intros E. apply (f_equal length) in E. cbn in E. lia. }
    pose proof (r_shape _ _ _ _ Hok') as Hs'. rewrite (ld_spec _ _ _ _ _ Hs' Hu'). cbn [obind].
    destruct (has_child (node_at sh1 vals1 (b' :: p))) eqn:Hch.
    { exists t3, sh1, (a :: fl). split; [done|]. split; [done|apply delete_subseteq]. }
    cbn [node_at value parent]. rewrite (no_value vals1) by (by intros; eapply shape_vals).
    destruct (vals1 !! (b' :: p)) as [w|] eqn:Ev; cbn [negb].
    { exists t3, sh1, (a :: fl). split; [done|]. split; [done|apply delete_subseteq]. }
    destruct (s_closed _ _ _ Hs' b' p) as [u2 Hu2]; [by eexists|]. rewrite Hu2.
    destruct (IH b' f t3 sh1 vals1 (a :: fl) u Hok' Hu') as (t' & sh' & fl' & E & Hok2 & Hsub); [|lia|].
    { intros c. destruct (sh1 !! (c :: b' :: p)) eqn:E; [|done].
      assert (has_child (node_at sh1 vals1 (b' :: p)) = true) by (apply has_child_at; exists c; by eexists). congruence. }
    exists t', sh', fl'. split; [done|]. rewrite delete_id in Hok2 by done. split; [done|].
    etransitivity; [done|apply delete_subseteq].
Qed.

(** A deletion of the prefix [ks]. *)
Lemma delete_spec c fuel t sh vals fl ks :
  radix_ok t sh vals fl -> reads c (first c) ks -> (length ks < fuel)%nat ->
  (ks = [] -> exists b, is_Some (sh !! [b])) ->
  let p := reverse ks in
  exists rc t' sh' fl', tree_delete c fuel t = Ok (rc, t') /\ radix_ok t' sh' (delete p vals) fl' /\ sh' ⊆ sh /\
    (is_Some (vals !! p) -> rc = NGX_OK) /\
    (sh !! p = None \/ (exists b, is_Some (sh !! (b :: p))) /\ vals !! p = None -> rc = NGX_ERROR /\ t' = t).
Proof.
  intros Hok Hr Hf Hroot p. pose proof (r_shape _ _ _ _ Hok) as Hs. unfold tree_delete.
  rewrite (s_root _ _ _ Hs), (locate_spec c t sh vals ks Hs fuel (first c) [] Hr Hf), app_nil_r. cbn [obind]. fold p.
  destruct (sh !! p) as [a|] eqn:Ha.
  2: { assert (vals !! p = None) as Hv.
       { destruct (vals !! p) eqn:E; [|done]. destruct (s_vals _ _ _ Hs _ _ E) as [[x Hx] _]. congruence. }
       exists NGX_ERROR, t, sh, fl. rewrite delete_id, Hv by done. split_and!; done || by intros []. }
  rewrite (ld_spec _ _ _ _ _ Hs Ha). cbn [obind]. destruct (has_child (node_at sh vals p)) eqn:Hch.
  - pose proof (proj1 (has_child_at _ _ _) Hch) as Hkids. cbn [node_at value].
    rewrite (no_value vals p) by (by intros; eapply shape_vals).
    destruct (vals !! p) as [v|] eqn:Ev; cbn [negb].
    + eexists _, _, sh, fl. split; [reflexivity|]. pose proof (write_value t sh vals fl p a NGX_RADIX_NO_VALUE Hok Ha) as Hw.
      unfold set_at in Hw. rewrite Z.eqb_refl in Hw. split_and!; try done. by intros [?|[_ ?]].
    + exists NGX_ERROR, t, sh, fl. rewrite delete_id by done. split_and!; done || by intros [].
  - assert (Hleaf : forall c, sh !! (c :: p) = None).
    { intros k. destruct (sh !! (k :: p)) eqn:E; [|done].
      assert (has_child (node_at sh vals p) = true) by (apply has_child_at; exists k; by eexists). congruence. }
    destruct p as [|b q] eqn:Ep.
    { apply (f_equal reverse) in Ep. unfold p in Ep. rewrite reverse_involutive in Ep. destruct (Hroot Ep) as (b & x & Hx). by rewrite Hleaf in Hx. }
    assert (length q < fuel)%nat as Hq.
    { apply (f_equal length) in Ep. unfold p in Ep. rewrite length_reverse in Ep. cbn in Ep. lia. }
    destruct (prune_spec q b fuel t sh vals fl a Hok Ha Hleaf Hq) as (t' & sh' & fl' & -> & Hok' & Hsub). cbn [obind].
    exists NGX_OK, t', sh', fl'. split_and!; try done. intros [?|[[k [x Hx]] _]]; [done|]. by rewrite Hleaf in Hx.
Qed.

(** The node of the empty prefix without a child: its parent is NULL. *)
Lemma delete_root c fuel t sh vals fl :
  radix_ok t sh vals fl -> reads c (first c) [] -> (0 < fuel)%nat -> (forall b, sh !! [b] = None) ->
  tree_delete c fuel t = Undef NullDeref.
Proof.
  intros Hok Hr Hf Hleaf. pose proof (r_shape _ _ _ _ Hok) as Hs. destruct (s_some _ _ _ Hs) as [a Ha]. unfold tree_delete.
  rewrite (s_root _ _ _ Hs), (locate_spec c t sh vals [] Hs fuel (first c) [] Hr Hf). cbn [reverse rev_append app obind].
  change (reverse [] ++ []) with (@nil bool). rewrite Ha.
  rewrite (ld_spec _ _ _ _ _ Hs Ha). cbn [obind]. assert (has_child (node_at sh vals []) = false) as ->.
  { unfold has_child, node_at. cbn. by rewrite !Hleaf. }
  destruct fuel; [lia|]. cbn [prune]. by rewrite (ld_spec _ _ _ _ _ Hs Ha).
Qed.

(** ** Searching *)

(** The value of the longest prefix of [ks] that has one, [best] before the
    prefixes that extend [p]. *)
Fixpoint longest (vals : gmap (list bool) Z) (p ks : list bool) (best : Z) : Z :=
  let best := default best (vals !! p) in
  match ks with [] => best | k :: ks' => longest vals (k :: p) ks' best end.

(** Without a node, there is no longer prefix. *)
Lemma longest_none t sh vals ks : shape_ok t sh vals -> forall p best, sh !! p = None -> longest vals p ks best = best.
Proof.
  intros Hs. assert (Hv : forall p, sh !! p = None -> vals !! p = None).
  { intros p Hp. destruct (vals !! p) eqn:E; [|done]. destruct (s_vals _ _ _ Hs _ _ E) as [[x Hx] _]. congruence. }
  induction ks as [|k ks IH]; intros p best Hp; cbn; rewrite (Hv p Hp); [done|]. cbn. apply IH.
  apply (closed_app t sh vals p [k] Hs Hp).
Qed.

Lemma find_spec c t sh vals ks : shape_ok t sh vals ->
  forall fuel x p best, sees c x ks -> (length ks < fuel)%nat -> sh !! (reverse ks ++ p) = None ->
  tree_find c fuel t (sh !! p) x best = Ok (longest vals p ks best).
Proof.
  intros Hs. induction ks as [|k ks IH]; intros fuel x p best Hsee Hf Hend; (destruct fuel as [|f]; [lia|]); cbn in Hf.
  - cbn in Hend. rewrite Hend. by rewrite (longest_none t sh vals [] Hs).
  - destruct (sh !! p) as [a|] eqn:Ha; [|by rewrite (longest_none t sh vals _ Hs)]. cbn [tree_find].
    rewrite (ld_spec _ _ _ _ _ Hs Ha). cbn [obind]. inversion Hsee as [|z kz ksz Hk Hrest]; subst.
    rewrite (child_spec c sh vals p x k Hk). cbn [obind longest].
    rewrite <- IH with (fuel := f) (x := (advance c x).1); [|done|lia|by rewrite <- rev_snoc].
    f_equal. cbn [node_at value]. rewrite (no_value vals) by (by intros; eapply shape_vals). by destruct (vals !! p).
Qed.

(** A search that has a node for every bit of the key reads on. *)
Lemma find_over c t sh vals ks u : shape_ok t sh vals ->
  forall fuel x p best, sees c x ks -> (length ks < fuel)%nat -> is_Some (sh !! (reverse ks ++ p)) ->
  key_bit c (fold_left (fun z (_ : bool) => (advance c z).1) ks x) = Undef u ->
  tree_find c fuel t (sh !! p) x best = Undef u.
Proof.
  intros Hs. induction ks as [|k ks IH]; intros fuel x p best Hsee Hf [e He] Hu; (destruct fuel as [|f]; [lia|]); cbn in Hf.
  - cbn in He. change (reverse [] ++ p) with p in He. rewrite He. cbn [tree_find]. rewrite (ld_spec _ _ _ _ _ Hs He). cbn [obind].
    unfold child. cbn in Hu. by rewrite Hu.
  - destruct (sh !! p) as [a|] eqn:Ha; [|by rewrite (closed_app t sh vals p _ Hs Ha) in He]. cbn [tree_find].
    rewrite (ld_spec _ _ _ _ _ Hs Ha). cbn [obind]. inversion Hsee as [|z kz ksz Hk Hrest]; subst.
    rewrite (child_spec c sh vals p x k Hk). cbn [obind]. apply IH; [done|lia|rewrite <- rev_snoc; by eexists|exact Hu].
Qed.
End Loops.

(** ** The bits of keys and masks *)

(** The lowest [j] bits, the highest first. *)
Fixpoint bits (j : nat) (z : Z) : list bool :=
  match j with O => [] | S j' => Z.testbit z (Z.of_nat j') :: bits j' z end.

(** The bits of a key up to the first zero of the mask. *)
Fixpoint masked (ks ms : list bool) : list bool :=
  match ks, ms with k :: ks', true :: ms' => k :: masked ks' ms' | _, _ => [] end.

Definition bits128 (key : bytes) : list bool := concat (map (bits 8) key).

Definition net32 (key mask : Z) : list bool := masked (bits 32 key) (bits 32 mask).
Definition net128 (key mask : bytes) : list bool := masked (bits128 key) (bits128 mask).

Definition pos (j : nat) : Z := match j with O => 0 | S j' => 2 ^ Z.of_nat j' end.

Lemma land_pow2 j z : Z.land (2 ^ Z.of_nat j) z = if Z.testbit z (Z.of_nat j) then 2 ^ Z.of_nat j else 0.
Proof.
  apply Z.bits_inj'. intros i Hi. rewrite Z.land_spec, Z.pow2_bits_eqb by lia.
  destruct (Z.eqb_spec (Z.of_nat j) i) as [<-|Hne].
  - destruct (Z.testbit z (Z.of_nat j)) eqn:E; [by rewrite Z.pow2_bits_true by lia|by rewrite Z.bits_0].
  - destruct (Z.testbit z (Z.of_nat j)); [by rewrite Z.pow2_bits_false by lia|by rewrite Z.bits_0].
Qed.

Lemma test_pow2 j z : negb (Z.land (2 ^ Z.of_nat j) z =? 0) = Z.testbit z (Z.of_nat j).
Proof.
  rewrite land_pow2. destruct (Z.testbit z (Z.of_nat j)); [|done].
  pose proof (Z.pow_pos_nonneg 2 (Z.of_nat j) ltac:(lia) ltac:(lia)). by destruct (Z.eqb_spec (2 ^ Z.of_nat j) 0); [lia|].
Qed.

Lemma shift_pos j : Z.shiftr (2 ^ Z.of_nat j) 1 = pos j.
Proof.
  rewrite Z.shiftr_div_pow2 by lia. destruct j as [|j]; [done|]. cbn [pos].
  rewrite Nat2Z.inj_succ, Z.pow_succ_r by lia. rewrite Z.mul_comm, Z.pow_1_r. by apply Z.div_mul.
Qed.

Lemma reads32 key mask j : reads (cursor32 key mask) (pos j) (masked (bits j key) (bits j mask)).
Proof.
  induction j as [|j IH]; cbn [bits masked]; [by apply reads_end|].
  destruct (Z.testbit mask (Z.of_nat j)) eqn:Em.
  - eapply reads_next; cbn.
    + by rewrite test_pow2, Em.
    + by rewrite Z.land_comm, test_pow2.
    + by rewrite shift_pos.
    + exact IH.
  - apply reads_end. cbn. by rewrite test_pow2, Em.
Qed.

Lemma sees32 key j : sees (cursor32 key 0) (pos j) (bits j key ++ [false]).
Proof.
  induction j as [|j IH]; cbn [bits app].
  - apply sees_cons; [cbn; by rewrite Z.land_0_r|apply sees_nil].
  - apply sees_cons; [cbn; by rewrite Z.land_comm, test_pow2|]. cbn. by rewrite shift_pos.
Qed.

Lemma pos_zero j : (pos j =? 0) = match j with O => true | S _ => false end.
Proof. destruct j as [|j]; [done|]. cbn [pos]. pose proof (Z.pow_pos_nonneg 2 (Z.of_nat j) ltac:(lia) ltac:(lia)). by destruct (Z.eqb_spec (2 ^ Z.of_nat j) 0); [lia|]. Qed.

Lemma peek_byte (l : bytes) (i : nat) b : l !! i = Some b -> peek l (Z.of_nat i) = Ok b.
Proof.
  intros Hb. unfold peek. destruct (Z.ltb_spec (Z.of_nat i) 0); [lia|]. rewrite Nat2Z.id. unfold rd. by rewrite Hb.
Qed.

(** What the cursor reads in byte [i]. *)
Section Bytes.
Variables (key mask : bytes) (i : nat) (k m : Z).
Hypotheses (Hk : key !! i = Some k) (Hm : mask !! i = Some m).

Lemma mask_bit128 j : mask_bit (cursor128 key mask) (Z.of_nat i, 2 ^ Z.of_nat j) = Ok (Z.testbit m (Z.of_nat j)).
Proof. cbn -[Z.pow]. rewrite (peek_byte _ _ _ Hm). cbn -[Z.pow]. by rewrite test_pow2. Qed.

Lemma key_bit128 j : key_bit (cursor128 key mask) (Z.of_nat i, 2 ^ Z.of_nat j) = Ok (Z.testbit k (Z.of_nat j)).
Proof. cbn -[Z.pow]. rewrite (peek_byte _ _ _ Hk). cbn -[Z.pow]. by rewrite Z.land_comm, test_pow2. Qed.

Lemma key_bit_find j : key_bit (find128 key) (Z.of_nat i, 2 ^ Z.of_nat j) = Ok (Z.testbit k (Z.of_nat j)).
Proof. exact (key_bit128 j). Qed.
End Bytes.

Lemma reads128 key mask i j k m :
  length key = 16%nat -> length mask = 16%nat -> key !! i = Some k -> mask !! i = Some m ->
  reads (cursor128 key mask) (Z.of_nat i, 2 ^ Z.of_nat j)
    (masked (bits (S j) k ++ bits128 (drop (S i) key)) (bits (S j) m ++ bits128 (drop (S i) mask))).
Proof.
  intros Hkl Hml. remember (15 - i)%nat as d eqn:Hd. revert i j k m Hd.
  induction d as [|d IHd]; intros i j k m Hd Hk Hm; pose proof (lookup_lt_Some _ _ _ Hk) as Hi;
    induction j as [|j IHj]; rewrite (eq_refl : bits (S _) k = _ :: bits _ k), (eq_refl : bits (S _) m = _ :: bits _ m);
    cbn [app masked];
    match goal with |- context [Z.testbit m ?x] => destruct (Z.testbit m x) eqn:Em end;
    try (apply reads_end; by rewrite (mask_bit128 key mask i m Hm), Em).
  - assert (i = 15)%nat as -> by lia. rewrite !drop_ge by lia.
    eapply reads_last; [by rewrite (mask_bit128 key mask _ m Hm), Em|by rewrite (key_bit128 key mask _ k Hk)|reflexivity].
  - eapply reads_next; [by rewrite (mask_bit128 key mask _ m Hm), Em|by rewrite (key_bit128 key mask _ k Hk)| |exact IHj].
    cbn -[Z.pow]. by rewrite (shift_pos (S j)), pos_zero.
  - destruct (lookup_lt_is_Some_2 key (S i)) as [k' Hk']; [lia|]. destruct (lookup_lt_is_Some_2 mask (S i)) as [m' Hm']; [lia|].
    rewrite (drop_S key k' (S i)), (drop_S mask m' (S i)) by done.
    eapply reads_next; [by rewrite (mask_bit128 key mask _ m Hm), Em|by rewrite (key_bit128 key mask _ k Hk)| |].
    2: { change (bits128 (k' :: ?l)) with (bits 8 k' ++ bits128 l). apply (IHd (S i) 7%nat k' m'); [lia|done|done]. }
    cbn -[Z.pow]. destruct (Z.eqb_spec (Z.of_nat i + 1) 16); [lia|]. do 2 f_equal. lia.
  - eapply reads_next; [by rewrite (mask_bit128 key mask _ m Hm), Em|by rewrite (key_bit128 key mask _ k Hk)| |exact IHj].
    cbn -[Z.pow]. by rewrite (shift_pos (S j)), pos_zero.
Qed.

(** A search sees the bits of the whole key, and then looks behind it. *)
Lemma sees128 key i j k :
  key !! i = Some k -> length key = 16%nat ->
  let ks := bits (S j) k ++ bits128 (drop (S i) key) in
  sees (find128 key) (Z.of_nat i, 2 ^ Z.of_nat j) ks /\
  fold_left (fun z (_ : bool) => (advance (find128 key) z).1) ks (Z.of_nat i, 2 ^ Z.of_nat j) = (16, 0x80).
Proof.
  intros Hk Hkl. remember (15 - i)%nat as d eqn:Hd. revert i j k Hd Hk.
  induction d as [|d IHd]; intros i j k Hd Hk; pose proof (lookup_lt_Some _ _ _ Hk) as Hi; induction j as [|j IHj];
    intros ks; unfold ks in *; rewrite (eq_refl : bits (S _) k = _ :: bits _ k); cbn [app fold_left].
  - assert (i = 15)%nat as -> by lia. rewrite drop_ge by lia. split; [|reflexivity].
    apply sees_cons; [by apply key_bit_find|apply sees_nil].
  - assert (E : (advance (find128 key) (Z.of_nat i, 2 ^ Z.of_nat (S j))).1 = (Z.of_nat i, 2 ^ Z.of_nat j)).
    { cbn -[Z.pow]. by rewrite (shift_pos (S j)), pos_zero. }
    rewrite E. split; [|apply IHj]. apply sees_cons; [by apply key_bit_find|]. rewrite E. apply IHj.
  - destruct (lookup_lt_is_Some_2 key (S i)) as [k' Hk']; [lia|]. rewrite (drop_S key k' (S i)) by done.
    assert (E : (advance (find128 key) (Z.of_nat i, 2 ^ Z.of_nat 0)).1 = (Z.of_nat (S i), 2 ^ Z.of_nat 7)).
    { replace (Z.of_nat (S i)) with (Z.of_nat i + 1) by lia. reflexivity. }
    destruct (IHd (S i) 7%nat k' ltac:(lia) Hk') as [H1 H2]. rewrite E. split; [|exact H2].
    apply sees_cons; [by apply key_bit_find|]. rewrite E. exact H1.
  - assert (E : (advance (find128 key) (Z.of_nat i, 2 ^ Z.of_nat (S j))).1 = (Z.of_nat i, 2 ^ Z.of_nat j)).
    { cbn -[Z.pow]. by rewrite (shift_pos (S j)), pos_zero. }
    rewrite E. split; [|apply IHj]. apply sees_cons; [by apply key_bit_find|]. rewrite E. apply IHj.
Qed.

Lemma bits_length j z : length (bits j z) = j.
Proof. induction j; cbn; congruence. Qed.

Lemma bits128_length key : length (bits128 key) = (8 * length key)%nat.
Proof. unfold bits128. induction key as [|k key IH]; [done|]. cbn [map concat length]. rewrite length_app, bits_length, IH. lia. Qed.

Lemma masked_length ks ms : (length (masked ks ms) <= length ks)%nat.
Proof. revert ms. induction ks as [|k ks IH]; intros [|[] ms]; cbn; try lia. specialize (IH ms). lia. Qed.

(** ** The properties *)
Section Tree.
Context {Osm : OSMem} {OL : OSMemLaws Osm} {OK : OSMemKeeps Osm OL}.
Implicit Types (t : ngx_radix_tree) (m : gmap (list bool) Z).

(** The tree holds the values [m] of prefixes of at most [w] bits, each prefix
    with its last bit first. *)
Definition represents (w : nat) t m : Prop :=
  exists sh fl, radix_ok t sh m fl /\ forall p, is_Some (sh !! p) -> (length p <= w)%nat.

(** The longest prefix of the key that has a value. *)
Definition longest_match m (ks : list bool) (r : Z) : Prop :=
  (r = NGX_RADIX_NO_VALUE /\ forall i, (i <= length ks)%nat -> m !! reverse (take i ks) = None) \/
  exists i, (i <= length ks)%nat /\ m !! reverse (take i ks) = Some r /\
    forall j, (i < j <= length ks)%nat -> m !! reverse (take j ks) = None.

Lemma longest_spec m ks : forall p best,
  (longest m p ks best = best /\ forall i, (i <= length ks)%nat -> m !! (reverse (take i ks) ++ p) = None) \/
  exists i, (i <= length ks)%nat /\ m !! (reverse (take i ks) ++ p) = Some (longest m p ks best) /\
    forall j, (i < j <= length ks)%nat -> m !! (reverse (take j ks) ++ p) = None.
Proof.
  induction ks as [|k ks IH]; intros p best.
  - cbn. destruct (m !! p) as [v|] eqn:E; cbn.
    + right. exists 0%nat. split; [lia|]. change (reverse (take 0 []) ++ p) with p. split; [done|]. intros; lia.
    + left. split; [done|]. intros i _. by destruct i.
  - cbn [longest length].
    assert (Hz : m !! (reverse (take 0 (k :: ks)) ++ p) = m !! p) by done.
    assert (Hs : forall i, m !! (reverse (take (S i) (k :: ks)) ++ p) = m !! (reverse (take i ks) ++ k :: p))
      by (intros i; cbn [take]; by rewrite rev_snoc).
    destruct (IH (k :: p) (default best (m !! p))) as [[E Hn]|(i & Hi & Hv & Hn)].
    + rewrite E. destruct (m !! p) as [v|] eqn:Ep; cbn [default].
      * right. exists 0%nat. split; [lia|]. rewrite Hz. split; [done|]. intros [|j] Hj; [lia|]. rewrite Hs. apply Hn. lia.
      * left. split; [done|]. intros [|i] Hi; [by rewrite Hz|]. rewrite Hs. apply Hn. lia.
    + right. exists (S i). split; [lia|]. rewrite Hs. split; [done|]. intros [|j] Hj; [lia|]. rewrite Hs. apply Hn. lia.
Qed.

Lemma longest_is m ks : longest_match m ks (longest m [] ks NGX_RADIX_NO_VALUE).
Proof.
  destruct (longest_spec m ks [] NGX_RADIX_NO_VALUE) as [[E H]|(i & Hi & Hv & H)].
  - left. split; [done|]. intros i Hi. specialize (H i Hi). by rewrite app_nil_r in H.
  - right. exists i. rewrite app_nil_r in Hv. split; [done|]. split; [done|]. intros j Hj. specialize (H j Hj). by rewrite app_nil_r in H.
Qed.

(** An operation at the prefix [ks]. *)
Lemma insert_represents c fuel w t m ks v :
  represents w t m -> reads c (first c) ks -> (length ks < fuel)%nat -> (length ks <= w)%nat ->
  exists rc t', tree_insert c fuel t v = Ok (rc, t') /\
    match m !! reverse ks with
    | Some _ => rc = NGX_BUSY /\ t' = t
    | None => rc = NGX_OK /\ represents w t' (set_at (reverse ks) v m) \/ rc = NGX_ERROR /\ represents w t' m
    end.
Proof.
  intros (sh & fl & Hok & Hw) Hr Hf Hlen.
  destruct (insert_spec c fuel t sh m fl ks v Hok Hr Hf) as (rc & t' & sh' & fl' & E & Hd & H). exists rc, t'. split; [done|].
  assert (Hw' : forall p, is_Some (sh' !! p) -> (length p <= w)%nat) by (intros p Hp; destruct (Hd p Hp); [by apply Hw|lia]).
  cbv zeta in H. destruct (m !! reverse ks); [done|]. destruct H as [[-> H]|[-> H]]; [left|right]; split; try done; exists sh', fl'; done.
Qed.

(** Below the root there is something when a longer prefix than the empty one has
    a value. *)
Lemma root_child t sh m q : shape_ok t sh m -> q <> [] -> is_Some (m !! q) -> exists b, is_Some (sh !! [b]).
Proof.
  intros Hs Hq [v Hv]. destruct (s_vals _ _ _ Hs _ _ Hv) as [Hx _]. clear v Hv.
  induction q as [|b q IH]; [done|]. destruct q as [|b' q]; [by exists b|].
  apply IH; [done|]. by eapply (s_closed _ _ _ Hs).
Qed.

Lemma delete_represents c fuel w t m ks :
  represents w t m -> reads c (first c) ks -> (length ks < fuel)%nat ->
  (ks <> [] \/ exists q, q <> [] /\ is_Some (m !! q)) ->
  exists rc t', tree_delete c fuel t = Ok (rc, t') /\ represents w t' (delete (reverse ks) m) /\
    (is_Some (m !! reverse ks) -> rc = NGX_OK).
Proof.
  intros (sh & fl & Hok & Hw) Hr Hf Hroot.
  destruct (delete_spec c fuel t sh m fl ks Hok Hr Hf) as (rc & t' & sh' & fl' & E & Hok' & Hsub & Hrc & _).
  { intros ->. destruct Hroot as [?|(q & Hq & Hv)]; [done|]. by eapply root_child; [apply Hok| |]. }
  exists rc, t'. split; [done|]. split; [|done]. exists sh', fl'. split; [done|]. intros p [x Hx]. apply Hw. exists x.
  by eapply lookup_weaken.
Qed.

Lemma find_represents c fuel w t m ks :
  represents w t m -> sees c (first c) ks -> (length ks < fuel)%nat -> (w < length ks)%nat ->
  tree_find c fuel t (root t) (first c) NGX_RADIX_NO_VALUE = Ok (longest m [] ks NGX_RADIX_NO_VALUE).
Proof.
  intros (sh & fl & Hok & Hw) Hsee Hf Hlen. pose proof (r_shape _ _ _ _ Hok) as Hs. rewrite (s_root _ _ _ Hs).
  eapply find_spec; [done|done|done|]. rewrite app_nil_r. destruct (sh !! reverse ks) eqn:E; [|done].
  specialize (Hw (reverse ks) ltac:(by eexists)). rewrite length_reverse in Hw. lia.
Qed.

(** A value below the depth of the tree is not looked at. *)
Lemma longest_snoc w t m ks k best p : represents w t m -> (w < length (reverse (ks ++ [k]) ++ p))%nat ->
  longest m p (ks ++ [k]) best = longest m p ks best.
Proof.
  intros (sh & fl & Hok & Hw). revert p best. induction ks as [|k' ks IH]; intros p best Hlen.
  - cbn in *. destruct (m !! (k :: p)) eqn:E; [|done].
    destruct (s_vals _ _ _ (r_shape _ _ _ _ Hok) _ _ E) as [Hx _]. specialize (Hw _ Hx). cbn in Hw. lia.
  - cbn [app longest]. apply IH. by rewrite <- rev_snoc.
Qed.
End Tree.

Section Properties.
Context {Osm : OSMem} {OL : OSMemLaws Osm} {OK : OSMemKeeps Osm OL}.
Implicit Types (t : ngx_radix_tree) (m : gmap (list bool) Z).

(** C18: A radix tree of IPv4 prefixes is a finite map.  Whatever the page and the
    free nodes: an insertion records the value of a new prefix, or answers
    [NGX_BUSY] for a known one, or, out of memory, [NGX_ERROR], with nothing else
    changed; a deletion removes the value of the prefix; a search answers the
    value of the longest prefix of the address that has one, or
    [NGX_RADIX_NO_VALUE]. *)
Theorem radix32_is_map t m :
  represents 32 t m ->
  (forall key mask v, v <> NGX_RADIX_NO_VALUE ->
     let net := reverse (net32 key mask) in
     exists rc t', ngx_radix32tree_insert t key mask v = Ok (rc, t') /\
       match m !! net with
       | Some _ => rc = NGX_BUSY /\ t' = t
       | None => rc = NGX_OK /\ represents 32 t' (<[net := v]> m) \/ rc = NGX_ERROR /\ represents 32 t' m
       end) /\
  (forall key mask, (net32 key mask <> [] \/ exists q, q <> [] /\ is_Some (m !! q)) ->
     let net := reverse (net32 key mask) in
     exists rc t', ngx_radix32tree_delete t key mask = Ok (rc, t') /\ represents 32 t' (delete net m) /\
       (is_Some (m !! net) -> rc = NGX_OK)) /\
  (forall key, exists r, ngx_radix32tree_find t key = Ok r /\ longest_match m (bits 32 key) r).
Proof.
  intros Hrep. pose proof (fun k ms => masked_length (bits 32 k) ms) as Hlen. setoid_rewrite bits_length in Hlen.
  split_and!.
  - intros key mask v Hv net. unfold net, net32 in *.
    destruct (insert_represents (cursor32 key mask) fuel32 32 t m _ v Hrep (reads32 key mask 32)) as (rc & t' & E & H);
      [specialize (Hlen key (bits 32 mask)); unfold fuel32; lia|apply Hlen|].
    exists rc, t'. split; [exact E|]. unfold set_at in H. by rewrite (proj2 (Z.eqb_neq _ _) Hv) in H.
  - intros key mask Hroot net. unfold net, net32 in *.
    apply (delete_represents (cursor32 key mask) fuel32 32 t m _ Hrep (reads32 key mask 32)); [|done].
    specialize (Hlen key (bits 32 mask)). unfold fuel32. lia.
  - intros key. exists (longest m [] (bits 32 key) NGX_RADIX_NO_VALUE). split; [|apply longest_is].
    rewrite <- (longest_snoc 32 t m (bits 32 key) false NGX_RADIX_NO_VALUE [] Hrep)
      by (rewrite length_app, length_reverse, length_app, bits_length; cbn; lia).
    apply (find_represents (cursor32 key 0) fuel32 32 t m _ Hrep (sees32 key 32));
      rewrite length_app, bits_length; unfold fuel32; cbn; lia.
Qed.

(** The same for prefixes of IPv6 addresses, as long as no address has a node of
    its own. *)
Theorem radix128_is_map t m :
  represents 128 t m ->
  (forall key mask v, length key = 16%nat -> length mask = 16%nat -> v <> NGX_RADIX_NO_VALUE ->
     let net := reverse (net128 key mask) in
     exists rc t', ngx_radix128tree_insert t key mask v = Ok (rc, t') /\
       match m !! net with
       | Some _ => rc = NGX_BUSY /\ t' = t
       | None => rc = NGX_OK /\ represents 128 t' (<[net := v]> m) \/ rc = NGX_ERROR /\ represents 128 t' m
       end) /\
  (forall key mask, length key = 16%nat -> length mask = 16%nat -> (net128 key mask <> [] \/ exists q, q <> [] /\ is_Some (m !! q)) ->
     let net := reverse (net128 key mask) in
     exists rc t', ngx_radix128tree_delete t key mask = Ok (rc, t') /\ represents 128 t' (delete net m) /\
       (is_Some (m !! net) -> rc = NGX_OK)) /\
  (forall key, length key = 16%nat -> represents 127 t m ->
     exists r, ngx_radix128tree_find t key = Ok r /\ longest_match m (bits128 key) r).
Proof.
  intros Hrep.
  assert (Hreads : forall key mask, length key = 16%nat -> length mask = 16%nat ->
    reads (cursor128 key mask) (first (cursor128 key mask)) (net128 key mask) /\ (length (net128 key mask) <= 128)%nat).
  { intros key mask Hk Hm. split.
    - destruct key as [|k key]; [done|]. destruct mask as [|x mask]; [done|].
      exact (reads128 (k :: key) (x :: mask) 0 7 k x Hk Hm eq_refl eq_refl).
    - unfold net128. pose proof (masked_length (bits128 key) (bits128 mask)) as H. rewrite bits128_length, Hk in H. exact H. }
  split_and!.
  - intros key mask v Hk Hm Hv net. destruct (Hreads key mask Hk Hm) as [Hr Hlen].
    destruct (insert_represents (cursor128 key mask) fuel128 128 t m _ v Hrep Hr) as (rc & t' & E & H); [unfold fuel128; lia|done|].
    exists rc, t'. split; [exact E|]. unfold set_at in H. by rewrite (proj2 (Z.eqb_neq _ _) Hv) in H.
  - intros key mask Hk Hm Hroot net. destruct (Hreads key mask Hk Hm) as [Hr Hlen].
    apply (delete_represents (cursor128 key mask) fuel128 128 t m _ Hrep Hr); [unfold fuel128; lia|done].
  - intros key Hk Hrep'. exists (longest m [] (bits128 key) NGX_RADIX_NO_VALUE). split; [|apply longest_is].
    destruct key as [|k key']; [done|]. destruct (sees128 (k :: key') 0 7 k eq_refl Hk) as [H1 _].
    apply (find_represents (find128 (k :: key')) fuel128 127 t m _ Hrep' H1).
    + change (length (bits128 (k :: key')) < fuel128)%nat. rewrite bits128_length, Hk. unfold fuel128. lia.
    + change (127 < length (bits128 (k :: key')))%nat. rewrite bits128_length, Hk. lia.
Qed.

(** What the radix trees get wrong.  Deleting the prefix of length 0 from a
    tree whose root has no child dereferences the NULL parent of the root, whether
    it has a value or not; and once an IPv6 address is inserted with a mask of all
    128 bits, a search for it reads the byte behind its 16. *)
Theorem radix_faults t m :
  (forall key mask a n, represents 32 t m -> Z.testbit mask 31 = false ->
     root t = Some a -> nodes t !! a = Some n -> has_child n = false ->
     ngx_radix32tree_delete t key mask = Undef NullDeref) /\
  (forall key v t', represents 128 t m -> length key = 16%nat -> v <> NGX_RADIX_NO_VALUE ->
     ngx_radix128tree_insert t key (replicate 16 255) v = Ok (NGX_OK, t') ->
     ngx_radix128tree_find t' key = Undef OutOfBounds).
Proof.
  split.
  - intros key mask a n (sh & fl & Hok & _) Hmask Ha Hn Hch. pose proof (r_shape _ _ _ _ Hok) as Hs.
    rewrite (s_root _ _ _ Hs) in Ha. rewrite (s_node _ _ _ Hs _ _ Ha) in Hn. injection Hn as <-.
    apply (delete_root (cursor32 key mask) fuel32 t sh m fl); [done| |unfold fuel32; lia|].
    + pose proof (reads32 key mask 32) as H. cbn [bits masked] in H. change (Z.of_nat 31) with 31 in H. by rewrite Hmask in H.
    + intros b. destruct (sh !! [b]) eqn:E; [|done].
      assert (has_child (node_at sh m []) = true) by (apply has_child_at; exists b; by eexists). congruence.
  - intros key v t' (sh & fl & Hok & _) Hlen Hv Hins. destruct key as [|k key']; [done|].
    assert (Hall : masked (bits128 (k :: key')) (bits128 (replicate 16 255)) = bits128 (k :: key')).
    { assert (Ht : bits128 (replicate 16 255) = replicate (length (bits128 (k :: key'))) true) by (rewrite bits128_length, Hlen; vm_compute; reflexivity).
      rewrite Ht. generalize (bits128 (k :: key')). intros l. induction l as [|b l IH]; [done|]. cbn. by rewrite IH. }
    pose proof (reads128 (k :: key') (replicate 16 255) 0 7 k 255 Hlen eq_refl eq_refl eq_refl) as Hr.
    change (reads (cursor128 (k :: key') (replicate 16 255)) (Z.of_nat 0, 2 ^ Z.of_nat 7)
      (masked (bits128 (k :: key')) (bits128 (replicate 16 255)))) in Hr. rewrite Hall in Hr.
    destruct (insert_spec _ fuel128 t sh m fl _ v Hok Hr) as (rc & t1 & sh' & fl' & E & _ & H).
    { rewrite bits128_length, Hlen. unfold fuel128. lia. }
    unfold ngx_radix128tree_insert in Hins. rewrite Hins in E. injection E as <- <-. cbv zeta in H.
    assert (Hok' : radix_ok t' sh' (set_at (reverse (bits128 (k :: key'))) v m) fl').
    { destruct (m !! _); [by destruct H|]. by destruct H as [[_ H]|[? _]]. }
    pose proof (r_shape _ _ _ _ Hok') as Hs.
    assert (Hnode : is_Some (sh' !! reverse (bits128 (k :: key')))).
    { apply (s_vals _ _ _ Hs _ v). unfold set_at. rewrite (proj2 (Z.eqb_neq _ _) Hv). apply lookup_insert_eq. }
    unfold ngx_radix128tree_find. rewrite (s_root _ _ _ Hs).
    destruct (sees128 (k :: key') 0 7 k eq_refl Hlen) as [H1 H2].
    change (bits 8 k ++ bits128 (drop 1 (k :: key'))) with (bits128 (k :: key')) in H1, H2.
    apply (find_over (find128 (k :: key')) t' sh' _ (bits128 (k :: key')) OutOfBounds Hs); [exact H1| | |].
    + rewrite bits128_length, Hlen. unfold fuel128. lia.
    + by rewrite app_nil_r.
    + change (first (find128 (k :: key'))) with (Z.of_nat 0, 2 ^ Z.of_nat 7). rewrite H2.
      change (key_bit (find128 (k :: key')) (16, 128)) with (obind (peek (k :: key') 16) (fun b => Ok (negb (Z.land b 128 =? 0)))).
      unfold peek, rd. change (Z.to_nat 16) with 16%nat. cbn -[lookup]. by rewrite lookup_ge_None_2 by lia.
Qed.
End Properties.

(** ** Creation *)
Section Creation.
Context {Osm : OSMem} {OL : OSMemLaws Osm} {OK : OSMemKeeps Osm OL}.
Implicit Types (t : ngx_radix_tree).

(** Nodes without values leave the map empty. *)
Lemma insert_nothing t key mask : represents 32 t ∅ ->
  exists rc t', ngx_radix32tree_insert t key mask NGX_RADIX_NO_VALUE = Ok (rc, t') /\ (rc = NGX_OK \/ rc = NGX_ERROR) /\ represents 32 t' ∅.
Proof.
  intros Hrep. pose proof (masked_length (bits 32 key) (bits 32 mask)) as Hlen. rewrite bits_length in Hlen.
  destruct (insert_represents (cursor32 key mask) fuel32 32 t ∅ _ NGX_RADIX_NO_VALUE Hrep (reads32 key mask 32)) as (rc & t' & E & H);
    [unfold fuel32; lia|done|]. exists rc, t'. split; [exact E|]. rewrite lookup_empty in H.
  destruct H as [[-> H]|[-> H]]; [|by split; [right|]]. split; [by left|]. unfold set_at in H. by rewrite Z.eqb_refl, delete_empty in H.
Qed.

Lemma prefill_empty mask k fuel : (k < 32)%nat -> forall t i,
  represents 32 t ∅ -> 0 <= i -> i < 2 ^ (32 - Z.of_nat k) -> 2 ^ (32 - Z.of_nat k) - i <= Z.of_nat fuel ->
  exists x, prefill fuel t (i * 2 ^ Z.of_nat k) mask (2 ^ Z.of_nat k) = Ok x /\
    match x with Some t' => represents 32 t' ∅ | None => True end.
Proof.
  intros Hk. assert (E : 2 ^ 32 = 2 ^ (32 - Z.of_nat k) * 2 ^ Z.of_nat k) by (rewrite <- Z.pow_add_r by lia; f_equal; lia).
  pose proof (Z.pow_pos_nonneg 2 (Z.of_nat k) ltac:(lia) ltac:(lia)) as Hp.
  induction fuel as [|fuel IH]; intros t i Hrep Hi Hlt Hf; [lia|]. cbn [prefill].
  destruct (insert_nothing t (i * 2 ^ Z.of_nat k) mask Hrep) as (rc & t' & -> & [-> | ->] & Hrep'); cbn [obind]; [|by eexists].
  change (negb (NGX_OK =? NGX_OK)) with false. cbv iota.
  replace (i * 2 ^ Z.of_nat k + 2 ^ Z.of_nat k) with ((i + 1) * 2 ^ Z.of_nat k) by lia.
  unfold u32, uwrap. rewrite E. rewrite Z.mul_mod_distr_r by lia.
  destruct (decide (i + 1 = 2 ^ (32 - Z.of_nat k))) as [He|Hne].
  - rewrite He, Z.mod_same by lia. by eexists.
  - rewrite Z.mod_small by lia. destruct (Z.eqb_spec ((i + 1) * 2 ^ Z.of_nat k) 0); [nia|]. apply IH; (done || lia).
Qed.

Lemma prealloc_empty rounds : forall t mask j, (rounds + j <= 32)%nat -> represents 32 t ∅ ->
  exists x, prealloc rounds t mask (pos (32 - j)) = Ok x /\ match x with Some t' => represents 32 t' ∅ | None => True end.
Proof.
  induction rounds as [|r IH]; intros t mask j Hj Hrep; [by exists (Some t)|]. cbn [prealloc].
  destruct (32 - j)%nat as [|k] eqn:Ek; [lia|]. cbn [pos].
  pose proof (Z.pow_pos_nonneg 2 (Z.of_nat k) ltac:(lia) ltac:(lia)) as Hp.
  assert (E : 2 ^ 32 / 2 ^ Z.of_nat k = 2 ^ (32 - Z.of_nat k)) by (rewrite <- Z.pow_sub_r by lia; done).
  pose proof (Z.pow_pos_nonneg 2 (32 - Z.of_nat k) ltac:(lia) ltac:(lia)) as Hp2. rewrite E.
  destruct (prefill_empty (Z.lor (Z.shiftr mask 1) 0x80000000) k (Z.to_nat (2 ^ (32 - Z.of_nat k))) ltac:(lia) t 0 Hrep) as (x & Ex & Hx);
    [lia|lia|lia|]. rewrite Z.mul_0_l in Ex. rewrite Ex. cbn [obind]. destruct x as [t'|]; [|by eexists].
  rewrite shift_pos. replace k with (32 - S j)%nat by lia. apply IH; [lia|done].
Qed.

(** The node of the root. *)
Lemma first_node pl o r t : sizeof_pool_large_t <= p_max pl ->
  ngx_radix_alloc (mk_radix_tree ∅ None pl None 0 0 o) = Ok (Some r, t) ->
  represents 32 ((st t r (mk_radix_node None None None NGX_RADIX_NO_VALUE)) <| root := Some r |>) ∅.
Proof.
  intros Hp E. assert (Hm : mem_ok (mk_radix_tree ∅ None pl None 0 0 o) []).
  { split; cbn; try done; [apply NoDup_nil_2|]. exists []. split_and!; try done. intros pg Hpg. by apply elem_of_nil in Hpg. }
  destruct (alloc_spec _ _ Hm) as (r' & t' & E' & Hn & _ & H). rewrite E in E'. injection E' as <- <-.
  destruct H as (fl & Hfl & Hr & _ & Hst). exists {[ [] := r ]}, fl.
  assert (fl = []) as -> by (destruct fl as [|x fl]; [done|]; by specialize (Hfl x ltac:(left)) as ?%elem_of_nil).
  assert (Hsh : forall p a, ({[ [] := r ]} : gmap (list bool) Z) !! p = Some a -> p = [] /\ a = r).
  { intros p a [<- <-]%lookup_singleton_Some. done. }
  split; [|intros p [a Ha]; apply Hsh in Ha as [-> _]; cbn; lia]. split.
  - destruct (Hst (mk_radix_node None None None NGX_RADIX_NO_VALUE)). by split.
  - split; cbn.
    + by rewrite lookup_singleton_eq.
    + rewrite lookup_singleton_eq. by eexists.
    + intros b p [a Ha]. by apply Hsh in Ha as [? _].
    + intros p q a [-> _]%Hsh [-> _]%Hsh. done.
    + intros p a [-> ->]%Hsh. rewrite Hn, lookup_insert_eq. unfold node_at. by rewrite !lookup_singleton_ne, lookup_empty.
    + intros p v Hv. by rewrite lookup_empty in Hv.
  - intros p a [-> ->]%Hsh. exact Hr.
Qed.

(** A new tree is the empty map, whatever is allocated beforehand. *)
Lemma radix_tree_create_empty pl preallocate o :
  40 <= p_max pl -> preallocate = -1 \/ 0 <= preallocate <= 32 ->
  exists r, ngx_radix_tree_create pl preallocate o = Ok r /\ match r with Some t => represents 32 t ∅ | None => True end.
Proof.
  intros Hmax Hpre. unfold ngx_radix_tree_create, ngx_palloc. cbn [palloc_fuel].
  destruct (Z.leb_spec 40 (p_max pl)); [|lia].
  destruct (palloc_small true pl 40 o) as [[p pl1] o1] eqn:E. destruct (palloc_small_keeps _ _ _ _ _ _ _ E) as [_ Hm1].
  cbn [obind]. destruct p as [p|]; [|by eexists].
  assert (Hp1 : sizeof_pool_large_t <= p_max pl1) by (rewrite Hm1; unfold sizeof_pool_large_t; lia).
  destruct (ngx_radix_alloc (mk_radix_tree ∅ None pl1 None 0 0 o1)) as [[[r|] t]|u|] eqn:Ea; cbn [obind]; [|by eexists|..].
  - pose proof (first_node pl1 o1 r t Hp1 Ea) as Hrep. destruct (preallocate =? 0); [by eexists|].
    set (n := if preallocate =? -1 then _ else preallocate).
    assert (0 <= n <= 32) as Hn.
    { unfold n. destruct (Z.eqb_spec preallocate (-1)); [vm_compute; split; discriminate|]. destruct Hpre; lia. }
    exact (prealloc_empty (Z.to_nat n) _ 0 0 ltac:(lia) Hrep).
  - exfalso. revert Ea. unfold ngx_radix_alloc. cbn [free size start]. change (0 <? sizeof_radix_node) with true. cbv iota. cbn [tree_pool mem].
    destruct (pmemalign_page pl1 o1 Hp1) as ([q|] & ? & ? & -> & _); done.
  - exfalso. revert Ea. unfold ngx_radix_alloc. cbn [free size start]. change (0 <? sizeof_radix_node) with true. cbv iota. cbn [tree_pool mem].
    destruct (pmemalign_page pl1 o1 Hp1) as ([q|] & ? & ? & -> & _); done.
Qed.
End Creation.

(** ** Witnesses *)
#[local] Existing Instance known_mem.
#[local] Existing Instance known_laws.

#[local] Instance known_keeps : OSMemKeeps known_mem known_laws.
Proof.
  split; [|done]. intros o al n r o' x E Hx. simpl in E. unfold known_alloc in E.
  destruct (decide _); injection E as <- <-; [by right|done].
Qed.

Definition demo_tree : ngx_radix_tree :=
  match ngx_radix_tree_create demo_pool4k 0 (demo_blocks : @os known_mem) with
  | Ok (Some t) => t | _ => mk_radix_tree ∅ None demo_pool4k None 0 0 (demo_blocks : @os known_mem) end.

Definition demo_made : bool :=
  match ngx_radix_tree_create demo_pool4k 0 (demo_blocks : @os known_mem) with Ok (Some _) => true | _ => false end.
Definition demo_inserted : Z :=
  match ngx_radix32tree_insert demo_tree 0x0a000000 0xff000000 7 with Ok (rc, _) => rc | _ => 0 end.
Definition demo_root : Z := match root demo_tree with Some a => a | None => 0 end.

Lemma demo_tree_empty : represents 32 demo_tree ∅.
Proof.
  destruct (radix_tree_create_empty demo_pool4k 0 (demo_blocks : @os known_mem)) as (r & E & H); [by vm_compute|by right|].
  unfold demo_tree. rewrite E. destruct r as [t|]; [exact H|]. exfalso.
  assert (B : demo_made = true) by (vm_compute; reflexivity). unfold demo_made in B. by rewrite E in B.
Qed.

(** The tree with 10.0.0.0/8. *)
Lemma radix32_is_map_witness :
  exists t', ngx_radix32tree_insert demo_tree 0x0a000000 0xff000000 7 = Ok (NGX_OK, t') /\
    represents 32 t' {[ reverse [false; false; false; false; true; false; true; false] := 7 ]}.
Proof.
  destruct (proj1 (radix32_is_map demo_tree ∅ demo_tree_empty) 0x0a000000 0xff000000 7) as (rc & t' & E & H); [discriminate|].
  rewrite lookup_empty in H. exists t'. destruct H as [[-> H]|[-> _]].
  - split; [exact E|exact H].
  - exfalso. assert (B : demo_inserted = NGX_OK) by (vm_compute; reflexivity). unfold demo_inserted in B. by rewrite E in B.
Defined.

Lemma radix_faults_witness : ngx_radix32tree_delete demo_tree 0 0 = Undef NullDeref.
Proof.
  assert (Hr : match root demo_tree with Some a => a =? demo_root | None => false end = true) by (vm_compute; reflexivity).
  assert (Hn : match nodes demo_tree !! demo_root with Some n => negb (has_child n) | None => false end = true) by (vm_compute; reflexivity).
  destruct (root demo_tree) as [a|] eqn:Ea; [|discriminate]. apply Z.eqb_eq in Hr. rewrite <- Hr in Hn.
  destruct (nodes demo_tree !! a) as [n|] eqn:En; [|discriminate].
  exact (proj1 (radix_faults demo_tree ∅) 0 0 a n demo_tree_empty eq_refl Ea En (proj1 (negb_true_iff _) Hn)).
Defined.
