(* ===== verification/NgxHeaderValue.v ===== *)
(** * Values of header fields: ngx_http_parse_multi_header_lines, ngx_http_validate_host

    The search for a parameter in the lines of a header such as Cookie
    (nginx/src/http/ngx_http_parse.c), and the check and normalisation of a host
    (nginx/src/http/ngx_http_request.c), each with the definition it is proved
    equal to. *)
From S2P Require Import Prelude.
From S2P Require Export NgxString NgxPalloc NgxStrUtil.
Export NgxString.Search.

Module MultiHeader.

(** [while (start < end && *start == ' ') start++]; [n] is [end - start]. *)
Fixpoint skip_spaces (v : bytes) (start n : nat) : out nat :=
  match n with
  | O => Ok start
  | S n' => let! c := rd v start in if c =? chr " " then skip_spaces v (S start) n' else Ok start
  end.

(** The first loop behind [skip]. *)
Fixpoint skip_param (v : bytes) (start n : nat) : out nat :=
  match n with
  | O => Ok start
  | S n' => let! ch := rd v start in if (ch =? chr ";") || (ch =? chr ",") then Ok (S start) else skip_param v (S start) n'
  end.

(** [for (last = start; last < end && *last != ';'; last++)] *)
Fixpoint find_last (v : bytes) (last n : nat) : out nat :=
  match n with
  | O => Ok last
  | S n' => let! c := rd v last in if c =? chr ";" then Ok last else find_last v (S last) n'
  end.

(** [while (start < end)] on one header.  [want] says that [value] is not NULL;
    [Some x] stands for [return i] with [x] the bytes of [*value]. *)
Fixpoint value_loop (fuel : nat) (v : bytes) (en : nat) (name : bytes) (want : bool) (start : nat) : out (option bytes) :=
  match fuel with
  | O => NoFuel
  | S f =>
      if (en <=? start)%nat then Ok None
      else
        let skip start :=
          let! start := skip_param v start (en - start) in
          let! start := skip_spaces v start (en - start) in
          value_loop f v en name want start in
        let! r := ngx_strncasecmp v start name 0 (length name) in
        if negb (r =? 0) then skip start
        else
          let start := (start + length name)%nat in
          let! start := skip_spaces v start (en - start) in
          if want then
            if (start =? en)%nat then skip start
            else
              let! c := rd v start in
              let start := S start in
              if negb (c =? chr "=") then skip start
              else
                let! start := skip_spaces v start (en - start) in
                let! last := find_last v start (en - start) in
                Ok (Some (take (last - start) (drop start v)))
          else
            let! found := if (start =? en)%nat then Ok true else let! c := rd v start in Ok (c =? chr ",") in
            if found : bool then Ok (Some []) else skip start
  end.

(** [headers] are the values of the lines; the NUL that ends a header line in
    memory follows each of them. *)
Fixpoint lines_loop (headers : list bytes) (i : Z) (name : bytes) (want : bool) : out (Z * option bytes) :=
  match headers with
  | [] => Ok (NGX_DECLINED, None)
  | h :: headers' =>
      if (length h <? length name)%nat then lines_loop headers' (i + 1) name want
      else
        let! r := value_loop (S (length h)) (h ++ [0]) (length h) name want 0 in
        match r with
        | Some x => Ok (i, Some x)
        | None => lines_loop headers' (i + 1) name want
        end
  end.

Definition ngx_http_parse_multi_header_lines (headers : list bytes) (name : bytes) (want : bool) : out (Z * option bytes) :=
  lines_loop headers 0 name want.

(** ** Reference: the parameters of a value *)

Definition sep (c : Z) : bool := (c =? chr ";") || (c =? chr ",").

Fixpoint trim (s : bytes) : bytes :=
  match s with [] => [] | c :: s' => if c =? chr " " then trim s' else s end.

(** Where the parameters behind each separator start. *)
Fixpoint seps (s : bytes) : list bytes :=
  match s with [] => [] | c :: s' => if sep c then trim s' :: seps s' else seps s' end.
Definition params (s : bytes) : list bytes := s :: seps s.

(** What follows [name] and spaces at the beginning of [s]. *)
Definition after_name (name s : bytes) : option bytes :=
  if bool_decide (ci_at s 0 name) then Some (trim (drop (length name) s)) else None.

(** The value of a parameter [name = value]; it ends at a semicolon. *)
Definition assigned (name s : bytes) : option bytes :=
  match after_name name s with
  | Some (c :: t) => if c =? chr "=" then Some (until (chr ";") (trim t)) else None
  | _ => None
  end.

(** A parameter that is only the name, with a separator behind it. *)
Definition bare (name s : bytes) : bool :=
  match after_name name s with Some (c :: _) => sep c | _ => false end.

(** The first parameter with a value; a bare one hides the one behind it. *)
Fixpoint pick (name : bytes) (l : list bytes) : option bytes :=
  match l with
  | [] => None
  | s :: l' =>
      match assigned name s with
      | Some x => Some x
      | None => if bare name s then match l' with [] => None | _ :: l'' => pick name l'' end else pick name l'
      end
  end.

(** A parameter that is only the name, at the end or before a comma. *)
Definition listed (name s : bytes) : bool :=
  match after_name name s with Some [] => true | Some (c :: _) => c =? chr "," | None => false end.

Definition found (want : bool) (name h : bytes) : option bytes :=
  if want then pick name (params h) else if existsb (listed name) (params h) then Some [] else None.

(** The index of the first line with the parameter, and its value. *)
Fixpoint first_line (want : bool) (name : bytes) (headers : list bytes) (i : Z) : Z * option bytes :=
  match headers with
  | [] => (NGX_DECLINED, None)
  | h :: headers' => match found want name h with Some x => (i, Some x) | None => first_line want name headers' (i + 1) end
  end.

(** ** Equality with the reference *)

Definition param_name (name : bytes) : Prop :=
  name <> [] /\ Forall is_byte name /\ Forall (fun c => c <> 0) name /\ Forall (fun c => sep (lower c) = false) name.
#[export] Instance param_name_dec name : Decision (param_name name).
Proof. unfold param_name, is_byte. apply _. Defined.

Lemma rd_cons v c s start : drop start v = c :: s -> rd v start = Ok c /\ drop (S start) v = s /\ (start < length v)%nat.
Proof.
  intros E. assert (v !! start = Some c) as Hc by (rewrite <- (Nat.add_0_r start), <- lookup_drop, E; done).
  split; [by apply rd_lookup|]. apply lookup_lt_Some in Hc as Hl. split; [|done].
  replace (S start) with (start + 1)%nat by lia. rewrite <- drop_drop, E. done.
Qed.

(** The loops over a value [v] followed by a NUL, in terms of what is left of
    it: [at_ start s] says that [s] is the rest of the value from [start]. *)
Definition at_ (v : bytes) (start : nat) (s : bytes) : Prop := drop start v = s /\ (start <= length v)%nat.

Lemma at_len v start s : at_ v start s -> (length v - start)%nat = length s.
Proof. intros [<- ?]. by rewrite length_drop. Qed.

Lemma at_cons v start c s : at_ v start (c :: s) -> rd (v ++ [0]) start = Ok c /\ at_ v (S start) s.
Proof.
  intros [E Hl]. destruct (rd_cons _ _ _ _ E) as (_ & Hd & Hlt). split; [|by split; [|lia]].
  apply rd_lookup. rewrite lookup_app_l by done. rewrite <- (Nat.add_0_r start), <- lookup_drop, E. done.
Qed.

Lemma at_drop v start s k : at_ v start s -> (k <= length s)%nat -> at_ v (start + k) (drop k s).
Proof. intros [<- Hl]. rewrite length_drop. split; [by rewrite drop_drop|lia]. Qed.

Lemma skip_spaces_at v s : forall start, at_ v start s ->
  exists start', skip_spaces (v ++ [0]) start (length v - start) = Ok start' /\ at_ v start' (trim s).
Proof.
  induction s as [|c s IH]; intros start H; rewrite (at_len _ _ _ H); cbn [length skip_spaces trim]; [by exists start|].
  destruct (at_cons _ _ _ _ H) as [-> H']. cbn [obind]. destruct (c =? 32); [|by exists start].
  destruct (IH (S start) H') as (x & E & Hx). rewrite (at_len _ _ _ H') in E. by exists x.
Qed.

(** What is left behind the first separator. *)
Fixpoint after_sep (s : bytes) : bytes :=
  match s with [] => [] | c :: s' => if sep c then s' else after_sep s' end.

Lemma skip_param_at v s : forall start, at_ v start s ->
  exists start', skip_param (v ++ [0]) start (length v - start) = Ok start' /\ at_ v start' (after_sep s).
Proof.
  induction s as [|c s IH]; intros start H; rewrite (at_len _ _ _ H); cbn [length skip_param after_sep]; [by exists start|].
  destruct (at_cons _ _ _ _ H) as [-> H']. cbn [obind]. change ((c =? 59) || (c =? 44)) with (sep c).
  destruct (sep c); [by exists (S start)|].
  destruct (IH (S start) H') as (x & E & Hx). rewrite (at_len _ _ _ H') in E. by exists x.
Qed.

Lemma find_last_at v s : forall last, at_ v last s ->
  find_last (v ++ [0]) last (length v - last) = Ok (last + length (until 59 s))%nat.
Proof.
  induction s as [|c s IH]; intros last H; rewrite (at_len _ _ _ H); cbn [length find_last until]; [by rewrite Nat.add_0_r|].
  destruct (at_cons _ _ _ _ H) as [-> H']. cbn [obind]. destruct (c =? 59); cbn [length]; [by rewrite Nat.add_0_r|].
  specialize (IH (S last) H'). rewrite (at_len _ _ _ H') in IH. rewrite IH. f_equal. lia.
Qed.

Lemma trim_length s : (length (trim s) <= length s)%nat.
Proof. induction s as [|c s IH]; [done|]. cbn [trim]. destruct (c =? 32); simpl; lia. Qed.
Lemma after_sep_length s : s <> [] -> (length (after_sep s) < length s)%nat.
Proof.
  induction s as [|c s IH]; [done|]. intros _. cbn [after_sep]. destruct (sep c); simpl; [lia|].
  destruct s; [simpl; lia|]. specialize (IH ltac:(done)). simpl in *. lia.
Qed.

Lemma seps_trim s : seps (trim s) = seps s.
Proof. induction s as [|c s IH]; [done|]. cbn [trim seps]. destruct (Z.eqb_spec c 32) as [->|]; [exact IH|done]. Qed.
Lemma seps_drop k s : Forall (fun c => sep c = false) (take k s) -> seps (drop k s) = seps s.
Proof.
  revert s. induction k as [|k IH]; intros [|c s]; try done. intros [Hc H]%Forall_cons. cbn [drop seps]. by rewrite Hc, IH.
Qed.

Lemma seps_after s : seps s = [] /\ after_sep s = [] \/ seps s = trim (after_sep s) :: seps (trim (after_sep s)).
Proof.
  induction s as [|c s IH]; [by left|]. cbn [seps after_sep]. destruct (sep c); [|exact IH]. right. by rewrite seps_trim.
Qed.

Section Value.
Context (v name : bytes) (Hv : Forall is_byte v) (Hname : param_name name).

Lemma after_name_nil : after_name name [] = None.
Proof.
  unfold after_name. rewrite bool_decide_eq_false_2; [done|]. destruct Hname as [Hne _]. unfold ci_at. cbn [drop].
  rewrite take_nil. by destruct name.
Qed.

Lemma is_byte_0 : is_byte 0.
Proof. unfold is_byte. lia. Qed.

(** Comparing with the name does not leave the value and its NUL. *)
Lemma strncasecmp_at start s : at_ v start s ->
  exists r, ngx_strncasecmp (v ++ [0]) start name 0 (length name) = Ok r /\
    (r =? 0) = bool_decide (ci_at s 0 name).
Proof.
  destruct Hname as (_ & Hnb & Hnz & _). intros [Hs Hl].
  assert (Hind : forall n start j, (start <= length v)%nat -> (j + n = length name)%nat ->
    exists r, ngx_strncasecmp (v ++ [0]) start name j n = Ok r /\
      (r = 0 <-> lowers (take n (drop start v)) = lowers (drop j name))).
  { clear start s Hs Hl. induction n as [|n IH]; intros start j Hl Hj.
    { exists 0. split; [done|]. rewrite take_0, drop_ge by lia. done. }
    destruct (rd_in_range name j ltac:(lia)) as (c2 & Hc2 & Hr2).
    pose proof (Forall_lookup_1 _ _ _ _ Hnb Hc2) as B2. pose proof (Forall_lookup_1 _ _ _ _ Hnz Hc2) as N2.
    rewrite (drop_S _ _ _ Hc2). cbn [ngx_strncasecmp].
    assert (Hl2 : lower c2 <> 0) by (intros ?%lower_zero; done).
    destruct (decide (start = length v)) as [->|Hne].
    - replace (rd (v ++ [0]) (length v)) with (Ok 0 : out Z) by (unfold rd; by rewrite list_lookup_middle).
      rewrite Hr2, !obind_Ok. change (lower 0) with 0.
      destruct (Z.eqb_spec 0 (lower c2)); [done|]. eexists. split; [done|].
      rewrite drop_all. cbn. split; [|done]. intros Hz. apply byte_diff_zero in Hz; [done|apply is_byte_0|by apply lower_byte].
    - destruct (rd_in_range v start ltac:(lia)) as (c1 & Hc1 & _). pose proof (Forall_lookup_1 _ _ _ _ Hv Hc1) as B1.
      rewrite (rd_lookup (v ++ [0]) start c1) by (by rewrite lookup_app_l by lia). rewrite Hr2, !obind_Ok.
      rewrite (drop_S _ _ _ Hc1). unfold lowers in *. cbn [take fmap list_fmap].
      destruct (Z.eqb_spec (lower c1) (lower c2)) as [E|E].
      + destruct (Z.eqb_spec (lower c1) 0); [congruence|].
        destruct (IH (S start) (S j) ltac:(lia) ltac:(lia)) as (r & -> & Hr). exists r. split; [done|].
        rewrite Hr, E. split; [by intros ->|by intros [=]].
      + eexists. split; [done|]. split; [|by intros [=]]. intros Hz. apply byte_diff_zero in Hz; auto using lower_byte. done. }
  destruct (Hind (length name) start 0%nat Hl eq_refl) as (r & -> & Hr). exists r. split; [done|].
  rewrite drop_0 in Hr. apply Bool.eq_iff_eq_true. rewrite Z.eqb_eq, bool_decide_eq_true.
  unfold ci_at. by rewrite drop_0, <- Hs.
Qed.

Lemma ci_at_no_sep s : ci_at s 0 name -> Forall (fun c => sep c = false) (take (length name) s) /\ (length name <= length s)%nat.
Proof.
  unfold ci_at. rewrite drop_0. intros H. split.
  - destruct Hname as (_ & _ & _ & Hsep). apply Forall_forall. intros c Hc.
    apply (list_elem_of_fmap_2 lower) in Hc. fold (lowers (take (length name) s)) in Hc. rewrite H in Hc.
    apply list_elem_of_fmap in Hc as (d & Hd & Hin). rewrite Forall_forall in Hsep. specialize (Hsep d Hin).
    rewrite <- Hd in Hsep. unfold sep in *. unfold lower in Hsep. destruct ((65 <=? c) && (c <=? 90)) eqn:E; [|exact Hsep].
    apply andb_prop in E as [?%Z.leb_le ?%Z.leb_le]. apply orb_false_iff. split; apply Z.eqb_neq; lia.
  - apply (f_equal length) in H. unfold lowers in H. rewrite !length_fmap, length_take in H. lia.
Qed.

Definition hit (want : bool) (l : list bytes) : option bytes :=
  if want then pick name l else if existsb (listed name) l then Some [] else None.

Lemma hit_miss want s l : after_name name s = None -> hit want (s :: l) = hit want l.
Proof. unfold hit. cbn [pick existsb]. unfold assigned, bare, listed. by intros ->. Qed.

Lemma value_loop_at want fuel : forall start s, at_ v start s -> (length s < fuel)%nat ->
  value_loop fuel (v ++ [0]) (length v) name want start = Ok (hit want (params s)).
Proof.
  induction fuel as [|fuel IH]; intros start s Hat Hf; [lia|]. cbn [value_loop].
  destruct (Nat.leb_spec (length v) start) as [Hle|Hlt].
  { destruct s; [|pose proof (at_len _ _ _ Hat); simpl in *; lia]. unfold params. rewrite hit_miss by apply after_name_nil.
    by destruct want. }
  assert (Hskip : forall st t, at_ v st t -> (length t <= length s)%nat ->
    (let! start := skip_param (v ++ [0]) st (length v - st) in
     let! start := skip_spaces (v ++ [0]) start (length v - start) in
     value_loop fuel (v ++ [0]) (length v) name want start) = Ok (hit want (seps t))).
  { intros st t Ht Hlen. destruct (skip_param_at v t st Ht) as (s1 & -> & H1). rewrite obind_Ok.
    destruct (skip_spaces_at v _ s1 H1) as (s2 & -> & H2). rewrite obind_Ok.
    rewrite (IH s2 _ H2).
    - destruct (seps_after t) as [[E1 E2]| ->]; [|done]. rewrite E1, E2. unfold params. by rewrite hit_miss by apply after_name_nil.
    - pose proof (trim_length (after_sep t)). destruct t as [|c t]; [simpl in *|pose proof (after_sep_length (c :: t) ltac:(done)); simpl in *; lia].
      pose proof (at_len _ _ _ Hat). lia. }
  destruct (strncasecmp_at start s Hat) as (r & -> & Hr). rewrite obind_Ok, Hr. unfold params.
  destruct (bool_decide_reflect (ci_at s 0 name)) as [Hci|Hci]; cbn [negb].
  2: { cbn iota. rewrite (Hskip start s Hat) by lia. rewrite hit_miss; [done|]. unfold after_name. by rewrite bool_decide_eq_false_2. }
  cbn iota. destruct (ci_at_no_sep s Hci) as [Hns Hle].
  assert (Hafter : after_name name s = Some (trim (drop (length name) s))) by (unfold after_name; by rewrite bool_decide_eq_true_2).
  destruct (skip_spaces_at v _ _ (at_drop _ _ _ (length name) Hat Hle)) as (s1 & -> & H1). rewrite obind_Ok.
  assert (Hseps : seps (trim (drop (length name) s)) = seps s) by (by rewrite seps_trim, seps_drop).
  assert (Hlen : (length (trim (drop (length name) s)) <= length s)%nat)
    by (pose proof (trim_length (drop (length name) s)); rewrite length_drop in *; lia).
  destruct (trim (drop (length name) s)) as [|c t] eqn:Et; pose proof (at_len _ _ _ H1) as Hl1; simpl in Hl1.
  - destruct H1 as [H1 H1']. replace (s1 =? length v)%nat with true by (symmetry; apply Nat.eqb_eq; lia).
    destruct want; [|cbn [obind]; unfold hit; cbn [existsb]; unfold listed; by rewrite Hafter].
    rewrite (Hskip s1 []) by (try done; cbn; lia). rewrite <- Hseps. unfold hit. cbn [pick]. unfold assigned, bare. by rewrite Hafter.
  - replace (s1 =? length v)%nat with false by (symmetry; apply Nat.eqb_neq; lia).
    destruct (at_cons _ _ _ _ H1) as [-> H2]. rewrite !obind_Ok. simpl in Hlen. destruct want.
    + destruct (Z.eqb_spec c 61) as [->|Hc]; cbn [negb]; cbn iota.
      * destruct (skip_spaces_at v _ _ H2) as (s2 & -> & H3). rewrite obind_Ok, (find_last_at v _ _ H3), obind_Ok.
        unfold hit. cbn [pick]. unfold assigned. rewrite Hafter. cbn. do 2 f_equal.
        replace (s2 + _ - s2)%nat with (length (until 59 (trim t))) by lia.
        destruct H3 as [H3 H3']. rewrite drop_app_le by done. rewrite H3, take_app_le by (rewrite <- (take_until 59 (trim t)) at 1; rewrite length_take; lia).
        by rewrite take_until.
      * rewrite (Hskip (S s1) t H2) by lia. unfold hit. cbn [pick]. unfold assigned, bare. rewrite Hafter.
        rewrite (proj2 (Z.eqb_neq _ _) Hc). rewrite <- Hseps. cbn [seps]. by destruct (sep c).
    + unfold hit. cbn [existsb]. unfold listed at 1. rewrite Hafter. destruct (c =? 44) eqn:Hc; [done|]. cbn [orb].
      rewrite (Hskip s1 (c :: t) H1) by (cbn; lia). by rewrite Hseps.
Qed.
End Value.

Lemma params_short name h : param_name name -> (length h < length name)%nat -> forall want, found want name h = None.
Proof.
  intros Hname Hlt want.
  assert (Hseps : forall t s, t ∈ seps s -> (length t < length s)%nat).
  { intros t. induction s as [|c s IH]; cbn [seps]; [by intros ?%elem_of_nil|].
    intros Ht. destruct (sep c); [apply elem_of_cons in Ht as [->|Ht]; [pose proof (trim_length s); simpl; lia|]|];
      specialize (IH Ht); simpl; lia. }
  assert (Hnone : forall s, s ∈ params h -> after_name name s = None).
  { intros s Hs. unfold after_name. rewrite bool_decide_eq_false_2; [done|]. intros [_ H]%(ci_at_no_sep name Hname).
    apply elem_of_cons in Hs as [->|Hs%Hseps]; lia. }
  change (found want name h) with (hit name want (params h)). revert Hnone. generalize (params h). intros l.
  induction l as [|s l IH]; [by destruct want|]. intros Hnone.
  rewrite hit_miss by (apply Hnone; left). apply IH. intros s' Hs'. apply Hnone. by right.
Qed.

Lemma multi_header_lines_reference headers name want :
  Forall (Forall is_byte) headers -> param_name name ->
  ngx_http_parse_multi_header_lines headers name want = Ok (first_line want name headers 0).
Proof.
  intros Hh Hname. unfold ngx_http_parse_multi_header_lines. generalize 0. induction Hh as [|h headers Hv _ IH]; intros i; [done|].
  cbn [lines_loop first_line]. destruct (Nat.ltb_spec (length h) (length name)) as [Hlt|Hge].
  - by rewrite params_short, IH.
  - rewrite (value_loop_at h name Hv Hname want (S (length h)) 0 h); [|split; [done|lia]|lia]. rewrite obind_Ok.
    change (hit name want (params h)) with (found want name h). by destruct (found want name h).
Qed.

(** Without bare parameters, the first one that is assigned. *)
Fixpoint first_assigned (name : bytes) (l : list bytes) : option bytes :=
  match l with
  | [] => None
  | s :: l' => match assigned name s with Some x => Some x | None => first_assigned name l' end
  end.

Lemma pick_no_bare name l : Forall (fun s => bare name s = false) l -> pick name l = first_assigned name l.
Proof. induction 1 as [|s l Hs _ IH]; [done|]. cbn [pick first_assigned]. by rewrite Hs, IH. Qed.

(** The parameter behind a bare one of the same name is not found: of
    [Cookie: a; a=1] the value of [a] is missed. *)
Lemma bare_hides_next name x : param_name name -> Forall is_byte x -> Forall (fun c => sep c = false) x ->
  ngx_http_parse_multi_header_lines [name ++ chr ";" :: name ++ chr "=" :: x] name true = Ok (NGX_DECLINED, None).
Proof.
  intros Hname Hx Hsep. pose proof Hname as (_ & Hb & _ & Hns).
  assert (Hn : Forall (fun c => sep c = false) name).
  { eapply Forall_impl; [exact Hns|]. cbn. intros c Hc. unfold lower in Hc. destruct ((65 <=? c) && (c <=? 90)) eqn:E; [|done].
    apply andb_prop in E as [?%Z.leb_le ?%Z.leb_le]. apply orb_false_iff. split; apply Z.eqb_neq; lia. }
  assert (Hseps : forall a b, Forall (fun c => sep c = false) a -> seps (a ++ b) = seps b).
  { intros a b. induction 1 as [|c a Hc _ IH]; [done|]. cbn [app seps]. by rewrite Hc. }
  rewrite multi_header_lines_reference; [|constructor; [|constructor]|done].
  2: { repeat first [apply Forall_app_2 | apply Forall_cons_2]; try done; unfold is_byte; lia. }
  unfold first_line, found, params. rewrite (Hseps name _ Hn). cbn [seps]. change (sep 59) with true. cbv iota.
  rewrite (Hseps name _ Hn). cbn [seps]. change (sep 61) with false. cbv iota.
  rewrite <- (app_nil_r x), (Hseps x []), app_nil_r by done. cbn [pick].
  assert (Ha : after_name name (name ++ 59 :: name ++ 61 :: x) = Some (59 :: name ++ 61 :: x)).
  { unfold after_name. rewrite bool_decide_eq_true_2 by (unfold ci_at; by rewrite drop_0, take_app_length). by rewrite drop_app_length. }
  unfold assigned at 1, bare at 1. by rewrite Ha.
Qed.
End MultiHeader.

(** ** The host *)
Module Host.

Inductive sw := sw_usual | sw_literal | sw_rest.

Record locals := mk_locals { dot_pos : Z; host_len : Z; state : sw; alloc : bool }.
#[export] Instance locals_settable : Settable locals := fun x => mk_locals (dot_pos x) (host_len x) (state x) (alloc x).

(** The switch on one character; [None] stands for [return NGX_DECLINED]. *)
Definition step (i ch : Z) (x : locals) : option locals :=
  if ch =? chr "." then if dot_pos x =? u64 (i - 1) then None else Some (x <| dot_pos := i |>)
  else if ch =? chr ":" then
    match state x with sw_usual => Some (x <| host_len := i |> <| state := sw_rest |>) | _ => Some x end
  else if ch =? chr "[" then if i =? 0 then Some (x <| state := sw_literal |>) else Some x
  else if ch =? chr "]" then
    match state x with sw_literal => Some (x <| host_len := i + 1 |> <| state := sw_rest |>) | _ => Some x end
  else if ch =? 0 then None
  else if ch =? chr "/" then None
  else if (chr "A" <=? ch) && (ch <=? chr "Z") then Some (x <| alloc := true |>) else Some x.

Fixpoint loop (h : bytes) (i : Z) (x : locals) : option locals :=
  match h with
  | [] => Some x
  | ch :: h' => match step i ch x with Some x => loop h' (i + 1) x | None => None end
  end.

Section Validate.
Context {Osm : OSMem}.

(** The host is answered when it is valid. *)
Definition ngx_http_validate_host (host : bytes) (copy : bool) (pl : pool) (o : os) : out (Z * bytes * pool * os) :=
  match loop host 0 (mk_locals (blen host) (blen host) sw_usual copy) with
  | None => Ok (NGX_DECLINED, [], pl, o)
  | Some x =>
      let host_len := if dot_pos x =? u64 (host_len x - 1) then host_len x - 1 else host_len x in
      if host_len =? 0 then Ok (NGX_DECLINED, [], pl, o)
      else if alloc x then
        let! (data, pl, o) := ngx_pnalloc pl host_len o in
        match data with
        | None => Ok (NGX_ERROR, [], pl, o)
        | Some _ => let! low := ngx_strlow host 0 (Z.to_nat host_len) in Ok (NGX_OK, low, pl, o)
        end
      else Ok (NGX_OK, take (Z.to_nat host_len) host, pl, o)
  end.
End Validate.

(** *** Reference *)

(** No NUL, no slash, no empty label; [prev] says that a dot precedes. *)
Fixpoint acceptable (prev : bool) (h : bytes) : bool :=
  match h with
  | [] => true
  | c :: h' => negb (c =? 0) && negb (c =? chr "/") && negb (prev && (c =? chr ".")) && acceptable (c =? chr ".") h'
  end.

(** Where the name ends: behind the bracket of an IP literal, or before the
    port. *)
Definition name_end (h : bytes) : nat :=
  match h with
  | c :: s =>
      if c =? chr "[" then if bool_decide (chr "]" ∈ s) then S (length (until (chr "]") h)) else length h
      else length (until (chr ":") h)
  | [] => O
  end.

(** The dot that ends a name is dropped, if it is the last one of the host. *)
Definition host_name (h : bytes) : bytes :=
  let n := name_end h in
  take (if bool_decide (h !! (n - 1)%nat = Some (chr ".") /\ chr "." ∉ drop n h) then n - 1 else n) h.

Definition upper (c : Z) : bool := (chr "A" <=? c) && (c <=? chr "Z").

(** *** The loop, a variable at a time *)

Fixpoint last_dot (i : Z) (h : bytes) (d : Z) : Z :=
  match h with [] => d | c :: h' => last_dot (i + 1) h' (if c =? 46 then i else d) end.

Fixpoint name_state (i : Z) (h : bytes) (x : Z * sw) : Z * sw :=
  match h with
  | [] => x
  | c :: h' => name_state (i + 1) h'
      (match snd x with
       | sw_usual => if c =? 58 then (i, sw_rest) else if (c =? 91) && (i =? 0) then (fst x, sw_literal) else x
       | sw_literal => if c =? 93 then (i + 1, sw_rest) else if (c =? 91) && (i =? 0) then (fst x, sw_literal) else x
       | sw_rest => if (c =? 91) && (i =? 0) then (fst x, sw_literal) else x
       end)
  end.

Lemma loop_parts h : forall i x prev, 0 <= i -> i + blen h < 2 ^ 63 ->
  (if prev : bool then dot_pos x = i - 1 /\ 0 < i else 0 <= dot_pos x < i - 1 \/ i + blen h <= dot_pos x < 2 ^ 63) ->
  loop h i x = if acceptable prev h
               then let '(hl, s) := name_state i h (host_len x, state x) in
                    Some (mk_locals (last_dot i h (dot_pos x)) hl s (alloc x || existsb upper h))
               else None.
Proof.
  unfold blen. induction h as [|c h IH]; intros i x prev Hi Hlen Hd.
  { cbn. rewrite orb_false_r. by destruct x. }
  cbn [loop acceptable name_state last_dot existsb length] in *. rewrite Nat2Z.inj_succ in *.
  assert (Hu : (dot_pos x =? u64 (i - 1)) = prev).
  { unfold u64, uwrap. destruct prev; [apply Z.eqb_eq|apply Z.eqb_neq].
    - rewrite Z.mod_small; lia.
    - destruct (decide (i = 0)) as [->|]; [change ((0 - 1) mod 2 ^ 64) with (2 ^ 64 - 1); lia|rewrite Z.mod_small; lia]. }
  unfold step. destruct (Z.eqb_spec c 46) as [->|Hdot].
  { rewrite Hu. cbn [negb andb Z.eqb orb]. rewrite andb_true_r. destruct prev; cbn [negb andb]; [done|].
    rewrite (IH _ _ true) by (cbn; lia). by destruct x as [d hl [] al]. }
  rewrite andb_false_r. cbn [negb]. rewrite andb_true_r.
  assert (Hnext : forall y, dot_pos y = dot_pos x ->
    (if false then dot_pos y = i + 1 - 1 /\ 0 < i + 1 else 0 <= dot_pos y < i + 1 - 1 \/ i + 1 + Z.of_nat (length h) <= dot_pos y < 2 ^ 63)).
  { intros y ->. destruct prev; lia. }
  destruct (Z.eqb_spec c 58) as [->|Hc1].
  { cbn. destruct x as [d hl [] al]; cbn; by rewrite (IH _ _ false) by (try apply Hnext; cbn; lia || done). }
  destruct (Z.eqb_spec c 91) as [->|Hc2].
  { cbn. destruct (i =? 0); destruct x as [d hl [] al]; cbn; by rewrite (IH _ _ false) by (try apply Hnext; cbn; lia || done). }
  destruct (Z.eqb_spec c 93) as [->|Hc3].
  { cbn. destruct x as [d hl [] al]; cbn; by rewrite (IH _ _ false) by (try apply Hnext; cbn; lia || done). }
  destruct (Z.eqb_spec c 0) as [->|Hc4]; [done|].
  destruct (Z.eqb_spec c 47) as [->|Hc5]; [done|]. cbn [negb andb orb].
  fold (upper c). destruct (upper c) eqn:Eu; cbn [orb].
  - rewrite orb_true_r, (IH _ _ false) by (try (apply (Hnext (x <| alloc := true |>) eq_refl)); cbn; lia).
    by destruct x as [d hl [] al].
  - rewrite (IH _ x false) by (try (apply (Hnext x eq_refl)); lia). by destruct x as [d hl [] al].
Qed.

Lemma last_dot_none h : forall i d, chr "." ∉ h -> last_dot i h d = d.
Proof.
  induction h as [|c h IH]; intros i d Hno; [done|]. apply not_elem_of_cons in Hno as [Hc Hno]. cbn [last_dot].
  rewrite IH by done. by rewrite (proj2 (Z.eqb_neq c 46)).
Qed.

Lemma last_dot_some h : forall i d, chr "." ∈ h -> i <= last_dot i h d.
Proof.
  induction h as [|c h IH]; intros i d; [by intros ?%elem_of_nil|]. cbn [last_dot]. intros [<-|Hin]%elem_of_cons.
  - rewrite Z.eqb_refl. destruct (decide (46 ∈ h)) as [Hin|Hno]; [specialize (IH (i + 1) i Hin); lia|]. rewrite last_dot_none by done. lia.
  - specialize (IH (i + 1) (if c =? 46 then i else d) Hin). lia.
Qed.

Lemma last_dot_range h : forall i d, last_dot i h d = d \/ i <= last_dot i h d < i + blen h.
Proof.
  unfold blen. induction h as [|c h IH]; intros i d; [by left|]. cbn [last_dot length].
  destruct (c =? 46); [destruct (IH (i + 1) i)|destruct (IH (i + 1) d)]; lia.
Qed.

Lemma last_dot_iff h : forall i d k, (k < length h)%nat -> d < i \/ i + blen h <= d ->
  last_dot i h d = i + Z.of_nat k <-> h !! k = Some (chr ".") /\ chr "." ∉ drop (S k) h.
Proof.
  unfold blen. induction h as [|c h IH]; intros i d k Hk Hd; [cbn in Hk; lia|]. cbn [length] in *. rewrite Nat2Z.inj_succ in Hd.
  cbn [last_dot]. destruct k as [|k].
  - cbn. rewrite drop_0, Z.add_0_r. destruct (decide (46 ∈ h)) as [Hin|Hno].
    { pose proof (last_dot_some h (i + 1) (if c =? 46 then i else d) Hin). split; [lia|]. by intros [_ ?]. }
    rewrite last_dot_none by done. destruct (Z.eqb_spec c 46) as [->|Hc]; split; try done; [lia|]. by intros [[=] _].
  - replace (i + Z.of_nat (S k)) with (i + 1 + Z.of_nat k) by lia. cbn [lookup list_lookup drop]. apply IH; [lia|].
    destruct (c =? 46); lia.
Qed.

Lemma name_state_rest s : forall i hl, 0 < i -> fst (name_state i s (hl, sw_rest)) = hl.
Proof.
  induction s as [|c s IH]; intros i hl Hi; [done|]. cbn [name_state snd fst].
  rewrite (proj2 (Z.eqb_neq i 0)), andb_false_r by lia. apply IH. lia.
Qed.

Lemma name_state_literal s : forall i hl, 0 < i ->
  fst (name_state i s (hl, sw_literal)) =
  if bool_decide (chr "]" ∈ s) then i + Z.of_nat (length (until (chr "]") s)) + 1 else hl.
Proof.
  induction s as [|c s IH]; intros i hl Hi; [done|]. cbn [name_state snd fst until].
  rewrite (proj2 (Z.eqb_neq i 0)), andb_false_r by lia. destruct (Z.eqb_spec c 93) as [->|Hc].
  - rewrite name_state_rest by lia. rewrite bool_decide_eq_true_2 by left. cbn. lia.
  - rewrite IH by lia. assert (Hiff : 93 ∈ c :: s <-> 93 ∈ s) by (rewrite elem_of_cons; split; [by intros [?|?]|by right]).
    rewrite (bool_decide_ext _ _ Hiff). case_bool_decide; [|done]. cbn [length]. lia.
Qed.

Lemma name_state_usual s : forall i, 0 < i ->
  fst (name_state i s (i + blen s, sw_usual)) = i + Z.of_nat (length (until (chr ":") s)).
Proof.
  unfold blen. induction s as [|c s IH]; intros i Hi; [done|]. cbn [name_state snd fst until length].
  rewrite (proj2 (Z.eqb_neq i 0)), andb_false_r by lia. destruct (Z.eqb_spec c 58) as [->|Hc].
  - rewrite name_state_rest by lia. cbn. lia.
  - replace (i + Z.of_nat (S (length s))) with (i + 1 + Z.of_nat (length s)) by lia. rewrite IH by lia. cbn [length]. lia.
Qed.

Lemma name_state_end h : fst (name_state 0 h (blen h, sw_usual)) = Z.of_nat (name_end h).
Proof.
  unfold blen. destruct h as [|c s]; [done|]. cbn [name_state snd fst name_end until length Z.eqb].
  destruct (Z.eqb_spec c 91) as [->|Hc].
  - change (91 =? 58) with false. change (91 =? 93) with false. cbn [andb].
    rewrite name_state_literal by lia. case_bool_decide; cbn [length]; lia.
  - destruct (Z.eqb_spec c 58) as [->|Hc2]; [by rewrite name_state_rest|]. cbn [andb].
    replace (Z.of_nat (S (length s))) with (0 + 1 + blen s) by (unfold blen; lia). rewrite name_state_usual by lia. cbn [length]. lia.
Qed.

Lemma name_end_le h : (name_end h <= length h)%nat.
Proof.
  assert (Hu : forall c h, (length (until c h) <= length h)%nat).
  { intros c l. rewrite <- (take_until c l) at 1. rewrite length_take. lia. }
  unfold name_end. destruct h as [|c s]; [done|]. destruct (Z.eqb_spec c 91) as [->|]; [|apply Hu].
  case_bool_decide as Hin; [|done]. cbn [until length]. change (91 =? 93) with false. cbn [length].
  assert (length (until 93 s) < length s)%nat; [|lia]. clear -Hin.
  induction s as [|x s IH]; [by apply elem_of_nil in Hin|]. cbn [until]. destruct (Z.eqb_spec x 93); cbn; [lia|].
  apply elem_of_cons in Hin as [?|Hin]; [done|]. specialize (IH Hin). lia.
Qed.

Lemma strlow_spec a n : forall i, (i + n <= length a)%nat -> ngx_strlow a i n = Ok (lowers (take n (drop i a))).
Proof.
  induction n as [|n IH]; intros i Hi; [done|]. cbn [ngx_strlow]. destruct (rd_in_range a i ltac:(lia)) as (c & Hc & ->).
  rewrite obind_Ok, IH by lia. by rewrite (drop_S _ _ _ Hc).
Qed.

Lemma lowers_no_upper b : existsb upper b = false -> lowers b = b.
Proof.
  unfold lowers. induction b as [|c b IH]; [done|]. cbn. intros [Hc Hb]%orb_false_iff. rewrite IH by done.
  unfold lower. unfold upper in Hc. by rewrite Hc.
Qed.

Section Answer.
Context {Osm : OSMem}.

(** What the check answers and when it allocates. *)
Lemma validate_host_answer host copy pl o :
  blen host < 2 ^ 63 -> sizeof_pool_large_t <= p_max pl ->
  exists rc name pl' o', ngx_http_validate_host host copy pl o = Ok (rc, name, pl', o') /\ p_max pl' = p_max pl /\
    if acceptable false host && negb (bool_decide (host_name host = []))
    then rc = NGX_OK /\ name = lowers (host_name host) \/
         rc = NGX_ERROR /\ name = [] /\ (copy || existsb upper host) = true
    else rc = NGX_DECLINED /\ name = [] /\ pl' = pl /\ o' = o.
Proof.
  intros Hlen Hmax. unfold ngx_http_validate_host.
  rewrite (loop_parts host 0 _ false) by (cbn; lia || (unfold blen in *; lia)).
  destruct (acceptable false host); cbn [andb]; [|by eauto 10].
  pose proof (name_state_end host) as Hns. pose proof (name_end_le host) as Hle.
  change (host_len _, state _) with (blen host, sw_usual). destruct (name_state 0 host (blen host, sw_usual)) as [hl s] eqn:Es.
  cbn [fst] in Hns. cbn [dot_pos host_len alloc]. subst hl.
  set (n := name_end host) in *. unfold host_name. fold n.
  assert (Hdot : (last_dot 0 host (blen host) =? u64 (Z.of_nat n - 1)) =
                 bool_decide (host !! (n - 1)%nat = Some 46 /\ 46 ∉ drop n host) /\
                 (n = 0%nat -> bool_decide (host !! (n - 1)%nat = Some 46 /\ 46 ∉ drop n host) = false)).
  { destruct (decide (n = 0%nat)) as [E0|Hn].
    - assert (Hf : bool_decide (host !! (n - 1)%nat = Some 46 /\ 46 ∉ drop n host) = false).
      { apply bool_decide_eq_false_2. rewrite E0. cbn. intros [H0 Hno]. rewrite drop_0 in Hno. apply Hno. by eapply list_elem_of_lookup_2. }
      rewrite Hf. split; [|done]. rewrite E0. apply Z.eqb_neq. change (u64 (Z.of_nat 0 - 1)) with (2 ^ 64 - 1).
      pose proof (last_dot_range host 0 (blen host)). lia.
    - split; [|done]. unfold u64, uwrap. rewrite Z.mod_small by (unfold blen in *; lia).
      apply Bool.eq_iff_eq_true. rewrite Z.eqb_eq, bool_decide_eq_true.
      pose proof (last_dot_iff host 0 (blen host) (n - 1) ltac:(lia) ltac:(lia)) as Hiff.
      replace (S (n - 1)) with n in Hiff by lia. rewrite <- Hiff. lia. }
  destruct Hdot as [-> Hn0]. set (b := bool_decide _) in *. clearbody b. clearbody n.
  set (m := if b then (n - 1)%nat else n).
  replace (if b then Z.of_nat n - 1 else Z.of_nat n) with (Z.of_nat m) by (unfold m; destruct b; [|done]; destruct n; [by specialize (Hn0 eq_refl)|lia]).
  assert (Hm : (m <= length host)%nat) by (unfold m; destruct b; lia).
  assert (Hnil : (Z.of_nat m =? 0) = bool_decide (take m host = [])).
  { apply Bool.eq_iff_eq_true. rewrite Z.eqb_eq, bool_decide_eq_true, <- length_zero_iff_nil, length_take. lia. }
  rewrite Hnil. case_bool_decide as Hz; cbn [negb]; [by eauto 10|].
  rewrite Nat2Z.id. destruct (copy || existsb upper host) eqn:Ec.
  - destruct (pnalloc_total pl (Z.of_nat m) o Hmax) as (r & pl' & o' & -> & Hp). rewrite obind_Ok. destruct r as [d|]; [|by eauto 12].
    rewrite strlow_spec by (cbn; lia). rewrite obind_Ok, drop_0. eauto 12.
  - apply orb_false_iff in Ec as [_ Hup]. exists NGX_OK, (take m host), pl, o. split; [done|]. split; [done|]. left. split; [done|].
    symmetry. apply lowers_no_upper. rewrite <- (take_drop m host), existsb_app in Hup. by apply orb_false_iff in Hup as [? _].
Qed.
End Answer.
End Host.
