(* ===== verification/NgxHeaderValueProps.v ===== *)
(** * Properties of header values

    The search for a parameter answers what the list of parameters answers; the
    check of a host accepts a host by its text and normalises its name. *)
From S2P Require Import Prelude NginxProps NgxHeaderValue.
#[local] Open Scope Z_scope.
Import MultiHeader Host.

(** [ngx_http_parse_multi_header_lines] finds in the lines of a header such
    as Cookie the first line whose value has the parameter, and answers the text
    up to the next semicolon, for every name and value and without reading
    outside them.  In a value where the name never stands alone before a
    separator, it is the first parameter of that name with a value; a parameter
    right behind a bare one of the same name is not found. *)
Theorem multi_header_lines_params headers name want :
  Forall (Forall is_byte) headers -> param_name name ->
  ngx_http_parse_multi_header_lines headers name want = Ok (first_line want name headers 0) /\
  (forall h, headers = [h] -> want = true -> Forall (fun s => bare name s = false) (params h) ->
    exists i, ngx_http_parse_multi_header_lines headers name want = Ok (i, first_assigned name (params h))) /\
  (forall x, Forall is_byte x -> Forall (fun c => sep c = false) x ->
    ngx_http_parse_multi_header_lines [name ++ chr ";" :: name ++ chr "=" :: x] name true = Ok (NGX_DECLINED, None)).
Proof.
  intros Hh Hname. rewrite multi_header_lines_reference by done. split; [done|]. split.
  - intros h -> -> Hbare. cbn [first_line]. unfold found. rewrite pick_no_bare by done.
    destruct (first_assigned name (params h)); by eexists.
  - intros x Hx Hs. by apply bare_hides_next.
Qed.

Lemma multi_header_lines_params_witness :
  ngx_http_parse_multi_header_lines [bs "lang=en"; bs "a=1; SID = x 1;b"] (bs "sid") true = Ok (1, Some (bs "x 1")) /\
  ngx_http_parse_multi_header_lines [bs "b; b=1"] (bs "b") true = Ok (NGX_DECLINED, None).
Proof.
  split.
  - rewrite (proj1 (multi_header_lines_params [bs "lang=en"; bs "a=1; SID = x 1;b"] (bs "sid") true
      ltac:(apply (bool_decide_unpack _); vm_compute; exact I) ltac:(apply (bool_decide_unpack _); vm_compute; exact I))).
    reflexivity.
  - rewrite (proj1 (multi_header_lines_params [bs "b; b=1"] (bs "b") true
      ltac:(apply (bool_decide_unpack _); vm_compute; exact I) ltac:(apply (bool_decide_unpack _); vm_compute; exact I))).
    reflexivity.
Defined.

(** [ngx_http_validate_host] accepts a host that has no NUL, slash or empty
    label and whose name is not empty, and answers the name in lower case,
    without the port and without the dot that ends the host; it refuses the
    others before anything is allocated.  It fails only where it allocates: when
    the caller wants a copy or the host has an upper case letter. *)
Theorem validate_host_normal {Osm : OSMem} host copy pl o :
  blen host < 2 ^ 63 -> sizeof_pool_large_t <= p_max pl ->
  exists rc name pl' o', ngx_http_validate_host host copy pl o = Ok (rc, name, pl', o') /\
    if acceptable false host && negb (bool_decide (host_name host = []))
    then (rc = NGX_OK /\ name = lowers (host_name host) \/
          rc = NGX_ERROR /\ name = [] /\ (copy || existsb upper host) = true) /\ p_max pl' = p_max pl
    else rc = NGX_DECLINED /\ name = [] /\ pl' = pl /\ o' = o.
Proof.
  intros Hlen Hmax. destruct (validate_host_answer host copy pl o Hlen Hmax) as (rc & name & pl' & o' & E & Hp & H).
  exists rc, name, pl', o'. split; [done|]. by destruct (_ && _).
Qed.

Lemma validate_host_normal_witness :
  exists rc name pl' o', ngx_http_validate_host (bs "Example.COM.:80") false demo_pool4k (demo_blocks : @os known_mem) = Ok (rc, name, pl', o') /\
    (rc = NGX_OK /\ name = bs "example.com" \/ rc = NGX_ERROR).
Proof.
  destruct (@validate_host_normal known_mem (bs "Example.COM.:80") false demo_pool4k demo_blocks ltac:(vm_compute; reflexivity) ltac:(vm_compute; discriminate))
    as (rc & name & pl' & o' & E & H).
  exists rc, name, pl', o'. split; [exact E|].
  replace (acceptable false (bs "Example.COM.:80") && negb (bool_decide (host_name (bs "Example.COM.:80") = []))) with true in H by (vm_compute; reflexivity).
  destruct H as [[[-> ->]|(-> & _)] _]; [left; split; [done|vm_compute; reflexivity]|by right].
Defined.
