(* ===== verification/NgxHash.v ===== *)
(** * Hash tables: nginx/src/core/ngx_hash.c

    The tables from names to pointers that nginx builds while it reads its
    configuration and only searches afterwards: the names of header fields, of
    servers, of variables.  The elements of a bucket lie one behind the other in
    memory, ended by an element whose value is NULL; the memory is a store of
    elements by address.  Values are pointers, 0 stands for NULL. *)
From S2P Require Import Prelude.
From S2P Require Export NgxHeaderValue NgxHeaderLine.
From stdpp Require Import gmap.
#[local] Open Scope Z_scope.

Record ngx_hash_elt := mk_hash_elt { value : Z; len : Z; name : bytes }.

(** [None] is the NULL pointer. *)
Record ngx_hash_t := mk_hash { buckets : option (list Z); size : Z }.
Record ngx_hash_wildcard := mk_wildcard { hash : ngx_hash_t; wc_value : Z }.
Record ngx_hash_key_t := mk_hash_key { key : option bytes; key_hash : Z; key_value : Z }.
Record ngx_hash_combined := mk_combined { exact : ngx_hash_t; wc_head : Z; wc_tail : Z }.

(** The memory of the tables: elements, and the structures [ngx_hash_wildcard_t]
    with the bits of their addresses that mark values cleared. *)
Record hash_mem := mk_hash_mem { elts : gmap Z ngx_hash_elt; tables : gmap Z ngx_hash_wildcard }.
#[export] Instance hash_mem_settable : Settable hash_mem := fun m => mk_hash_mem (elts m) (tables m).

Definition u16 : Z -> Z := uwrap 16.

(** [ngx_align(d, a)] *)
Definition ngx_align (d a : Z) : Z := Z.land (d + (a - 1)) (Z.lnot (a - 1)).

(** ** Keys *)

Definition ngx_hash_key (data : bytes) : Z := fold_left ngx_hash data 0.
Definition ngx_hash_key_lc (data : bytes) : Z := fold_left (fun k c => ngx_hash k (ngx_tolower c)) data 0.

(** The key and the bytes written to [dst]. *)
Fixpoint hash_strlow (k : Z) (src : bytes) : Z * bytes :=
  match src with
  | [] => (k, [])
  | c :: src' => let c := ngx_tolower c in let '(k, dst) := hash_strlow (ngx_hash k c) src' in (k, c :: dst)
  end.
Definition ngx_hash_strlow (src : bytes) : Z * bytes := hash_strlow 0 src.

(** ** Searching *)

(** [for (i = 0; i < len; i++) if (name[i] != elt->name[i]) goto next]; [n] is
    [len - i]. *)
Fixpoint same_name (nm elt_name : bytes) (i n : nat) : out bool :=
  match n with
  | O => Ok true
  | S n' =>
      let! a := rd nm i in
      let! b := rd elt_name i in
      if a =? b then same_name nm elt_name (S i) n' else Ok false
  end.

(** The address of [elt->name] is 10 bytes behind that of the element. *)
Definition next_elt (p : Z) (e : ngx_hash_elt) : Z := ngx_align_ptr (p + 10 + len e) 8.

Fixpoint find_loop (fuel : nat) (m : hash_mem) (p : Z) (nm : bytes) : out Z :=
  match fuel with
  | O => NoFuel
  | S f =>
      match elts m !! p with
      | None => Undef BadPointer
      | Some e =>
          if value e =? 0 then Ok 0
          else if negb (blen nm =? len e) then find_loop f m (next_elt p e) nm
          else
            let! same := same_name nm (name e) 0 (length nm) in
            if same : bool then Ok (value e) else find_loop f m (next_elt p e) nm
      end
  end.

(** Each round looks at another element of the memory. *)
Definition ngx_hash_find (m : hash_mem) (h : ngx_hash_t) (k : Z) (nm : bytes) : out Z :=
  let! bs := deref (buckets h) in
  if size h =? 0 then Undef DivByZero
  else
    match bs !! Z.to_nat (k mod size h) with
    | None => Undef OutOfBounds
    | Some elt => if elt =? 0 then Ok 0 else find_loop (S (base.size (elts m))) m elt nm
    end.

(** ** Wildcard names

    The two low bits of a value mark pointers to tables, and values that are not
    for the name itself. *)

Definition table (m : hash_mem) (hwc : Z) : out ngx_hash_wildcard :=
  match tables m !! hwc with Some t => Ok t | None => Undef BadPointer end.
Definition bit_set (v b : Z) : bool := negb (Z.land v b =? 0).
(** [(uintptr_t) value & (uintptr_t) ~3] *)
Definition unmark (v : Z) : Z := Z.land v (Z.lnot 3).

(** [while (n) { if (name[n - 1] == '.') break; n--; }] *)
Fixpoint after_last_dot (nm : bytes) (n : nat) : out nat :=
  match n with
  | O => Ok O
  | S n' => let! c := rd nm n' in if c =? chr "." then Ok n else after_last_dot nm n'
  end.

(** The names are searched from their last label to the first. *)
Fixpoint find_wc_head (fuel : nat) (m : hash_mem) (hwc : Z) (nm : bytes) : out Z :=
  match fuel with
  | O => NoFuel
  | S f =>
      let! n := after_last_dot nm (length nm) in
      let! t := table m hwc in
      let label := drop n nm in
      let! value := ngx_hash_find m (hash t) (ngx_hash_key label) label in
      if value =? 0 then Ok (wc_value t)
      else if bit_set value 2 then
        if (n =? 0)%nat then
          if bit_set value 1 then Ok 0 else let! t := table m (unmark value) in Ok (wc_value t)
        else
          let hwc := unmark value in
          let! value := find_wc_head f m hwc (take (n - 1) nm) in
          if negb (value =? 0) then Ok value else let! t := table m hwc in Ok (wc_value t)
      else if bit_set value 1 then if (n =? 0)%nat then Ok 0 else Ok (unmark value)
      else Ok value
  end.
Definition ngx_hash_find_wc_head (m : hash_mem) (hwc : Z) (nm : bytes) : out Z := find_wc_head (S (length nm)) m hwc nm.

(** [for (i = 0; i < len; i++)] up to the first dot; [n] is [len - i]. *)
Fixpoint first_dot (nm : bytes) (i n : nat) : out nat :=
  match n with
  | O => Ok i
  | S n' => let! c := rd nm i in if c =? chr "." then Ok i else first_dot nm (S i) n'
  end.

Fixpoint find_wc_tail (fuel : nat) (m : hash_mem) (hwc : Z) (nm : bytes) : out Z :=
  match fuel with
  | O => NoFuel
  | S f =>
      let! i := first_dot nm 0 (length nm) in
      if (i =? length nm)%nat then Ok 0
      else
        let! t := table m hwc in
        let label := take i nm in
        let! value := ngx_hash_find m (hash t) (ngx_hash_key label) label in
        if value =? 0 then Ok (wc_value t)
        else if bit_set value 2 then
          let hwc := unmark value in
          let! value := find_wc_tail f m hwc (drop (S i) nm) in
          if negb (value =? 0) then Ok value else let! t := table m hwc in Ok (wc_value t)
        else Ok value
  end.
Definition ngx_hash_find_wc_tail (m : hash_mem) (hwc : Z) (nm : bytes) : out Z := find_wc_tail (S (length nm)) m hwc nm.

(** [hash->wc_head && hash->wc_head->hash.buckets] *)
Definition has_buckets (m : hash_mem) (hwc : Z) : out bool :=
  if hwc =? 0 then Ok false else let! t := table m hwc in Ok (bool_decide (is_Some (buckets (hash t)))).

Definition ngx_hash_find_combined (m : hash_mem) (h : ngx_hash_combined) (k : Z) (nm : bytes) : out Z :=
  let! value := if bool_decide (is_Some (buckets (exact h))) then ngx_hash_find m (exact h) k nm else Ok 0 in
  if negb (value =? 0) then Ok value
  else if (length nm =? 0)%nat then Ok 0
  else
    let! b := has_buckets m (wc_head h) in
    let! value := if b : bool then ngx_hash_find_wc_head m (wc_head h) nm else Ok 0 in
    if negb (value =? 0) then Ok value
    else
      let! b := has_buckets m (wc_tail h) in
      let! value := if b : bool then ngx_hash_find_wc_tail m (wc_tail h) nm else Ok 0 in
      Ok value.

(** ** Building *)

Definition sizeof_hash_wildcard : Z := 24.

Definition key_len (n : ngx_hash_key_t) : Z := blen (default [] (key n)).
Definition NGX_HASH_ELT_SIZE (n : ngx_hash_key_t) : Z := 8 + ngx_align (key_len n + 2) 8.

Record ngx_hash_init_t := mk_hash_init { hinit_hash : option Z; max_size : Z; bucket_size : Z }.

Definition test_at (test : list Z) (i : Z) : Z := nth (Z.to_nat i) test 0.
Definition add_size (test : list Z) (i n : Z) : list Z := <[Z.to_nat i := u16 (test_at test i + n)]> test.

(** The names [n, nelts) of one round of the loop over sizes: whether no bucket
    overflows. *)
Fixpoint fits (names : list ngx_hash_key_t) (sz bsize : Z) (test : list Z) : bool :=
  match names with
  | [] => true
  | n :: names' =>
      match key n with
      | None => fits names' sz bsize test
      | Some _ =>
          let k := key_hash n mod sz in
          let test := add_size test k (NGX_HASH_ELT_SIZE n) in
          if u16 bsize <? test_at test k then false else fits names' sz bsize test
      end
  end.

(** [for (size = start; size < hinit->max_size; size++)] *)
Fixpoint find_size (fuel : nat) (names : list ngx_hash_key_t) (sz max bsize : Z) : out (option Z) :=
  match fuel with
  | O => NoFuel
  | S f =>
      if sz <? max then
        if fits names sz bsize (replicate (Z.to_nat sz) 0) then Ok (Some sz) else find_size f names (sz + 1) max bsize
      else Ok None
  end.

(** The sizes of the buckets. *)
Fixpoint bucket_sizes (names : list ngx_hash_key_t) (sz : Z) (test : list Z) : list Z :=
  match names with
  | [] => test
  | n :: names' =>
      bucket_sizes names' sz
        (match key n with None => test | Some _ => add_size test (key_hash n mod sz) (NGX_HASH_ELT_SIZE n) end)
  end.

(** [sizeof(void * )] marks an empty bucket. *)
Definition round_up (cacheline : Z) (t : Z) : Z := if t =? 8 then t else u16 (ngx_align t cacheline).
Definition total (test : list Z) : Z := fold_left (fun len t => if t =? 8 then len else len + t) test 0.

Fixpoint place (test : list Z) (elts : Z) : list Z :=
  match test with
  | [] => []
  | t :: test' => if t =? 8 then 0 :: place test' elts else elts :: place test' (elts + t)
  end.

(** The loop that writes the elements; [test] holds the bytes used. *)
Fixpoint fill (names : list ngx_hash_key_t) (sz : Z) (bks : list Z) (test : list Z) (m : hash_mem) : out (list Z * hash_mem) :=
  match names with
  | [] => Ok (test, m)
  | n :: names' =>
      match key n with
      | None => fill names' sz bks test m
      | Some d =>
          let k := key_hash n mod sz in
          let elt := test_at bks k + test_at test k in
          let! low := ngx_strlow d 0 (length d) in
          let m := m <| elts := <[elt := mk_hash_elt (key_value n) (u16 (blen d)) low]> (elts m) |> in
          fill names' sz bks (add_size test k (NGX_HASH_ELT_SIZE n)) m
      end
  end.

(** The NULL values that end the buckets; the rest of such an element is not
    initialised. *)
Fixpoint finish (bks test : list Z) (m : hash_mem) : hash_mem :=
  match bks, test with
  | b :: bks', t :: test' =>
      finish bks' test' (if b =? 0 then m else m <| elts := <[b + t := mk_hash_elt 0 0 []]> (elts m) |>)
  | _, _ => m
  end.

Section Init.
Context {Osm : OSMem} (ngx_cacheline_size : Z).

(** The buckets, and the table if there is none yet. *)
Definition alloc_buckets (hinit : ngx_hash_init_t) (sz : Z) (m : hash_mem) (pl : pool) (o : os)
  : out (option Z * hash_mem * pool * os) :=
  match hinit_hash hinit with
  | None =>
      let! (p, pl, o) := ngx_pcalloc pl (sizeof_hash_wildcard + sz * 8) o in
      match p with
      | None => Ok (None, m, pl, o)
      | Some p => Ok (Some p, m <| tables := <[p := mk_wildcard (mk_hash None 0) 0]> (tables m) |>, pl, o)
      end
  | Some h =>
      let! (p, pl, o) := ngx_pcalloc pl (sz * 8) o in
      match p with None => Ok (None, m, pl, o) | Some _ => Ok (Some h, m, pl, o) end
  end.

(** The code, the address of the table, the memory. *)
Definition ngx_hash_init (hinit : ngx_hash_init_t) (names : list ngx_hash_key_t) (m : hash_mem) (pl : pool) (o : os)
  : out (Z * option Z * hash_mem * pool * os) :=
  let nelts := Z.of_nat (length names) in
  if existsb (fun n => bucket_size hinit <? NGX_HASH_ELT_SIZE n + 8) names then Ok (NGX_ERROR, hinit_hash hinit, m, pl, o)
  else
    let '(test, o) := os_alloc o 1 (max_size hinit * 2) in
    match test with
    | None => Ok (NGX_ERROR, hinit_hash hinit, m, pl, o)
    | Some test =>
        let bsize := u64 (bucket_size hinit - 8) in
        if bsize / 16 =? 0 then Undef DivByZero
        else
          let start := nelts / (bsize / 16) in
          let start := if start =? 0 then 1 else start in
          let start := if (10000 <? max_size hinit) && negb (nelts =? 0) && (max_size hinit / nelts <? 100)
                       then max_size hinit - 1000 else start in
          let! found := find_size (S (Z.to_nat (max_size hinit - start))) names start (max_size hinit) bsize in
          match found with
          | None => Ok (NGX_ERROR, hinit_hash hinit, m, pl, os_free o test)
          | Some sz =>
              let sizes := map (round_up ngx_cacheline_size) (bucket_sizes names sz (replicate (Z.to_nat sz) 8)) in
              let! x := alloc_buckets hinit sz m pl o in
              let '(h, m, pl, o) := x in
              match h with
              | None => Ok (NGX_ERROR, None, m, pl, os_free o test)
              | Some h =>
                  let! (e, pl, o) := ngx_palloc pl (total sizes + ngx_cacheline_size) o in
                  match e with
                  | None => Ok (NGX_ERROR, Some h, m, pl, os_free o test)
                  | Some e =>
                      let bks := place sizes (ngx_align_ptr e ngx_cacheline_size) in
                      let! x := fill names sz bks (replicate (Z.to_nat sz) 0) m in
                      let '(used, m) := x in
                      let m := finish bks used m in
                      match tables m !! h with
                      | None => Undef BadPointer
                      | Some t => Ok (NGX_OK, Some h, m <| tables := <[h := mk_wildcard (mk_hash (Some bks) sz) (wc_value t)]> (tables m) |>,
                                      pl, os_free o test)
                      end
                  end
              end
          end
    end.
End Init.
