(* ===== verification/NgxHashProps.v ===== *)
(** * Properties of the hash tables

    [ngx_hash_init] lays the elements out so that no two of them overlap, and
    [ngx_hash_find] answers on the result what a scan of the list of names
    answers. *)
From stdpp Require Import gmap.
From S2P Require Import Prelude NginxProps NgxHash.
#[local] Open Scope Z_scope.

(** ** Alignment *)

Lemma align_pow d c : 0 <= c -> ngx_align d (2 ^ c) = 2 ^ c * ((d + (2 ^ c - 1)) / 2 ^ c).
Proof.
  intros Hc. unfold ngx_align. rewrite Z.sub_1_r, <- Z.ones_equiv.
  rewrite <- Z.ldiff_land, Z.ldiff_ones_r, Z.shiftl_mul_pow2, Z.shiftr_div_pow2 by lia. lia.
Qed.

Lemma align_spec d c : 0 <= c -> d <= ngx_align d (2 ^ c) < d + 2 ^ c /\ ngx_align d (2 ^ c) mod 2 ^ c = 0.
Proof.
  intros Hc. rewrite align_pow by done. pose proof (Z.pow_pos_nonneg 2 c ltac:(lia) Hc) as Hp.
  pose proof (Z.div_mod (d + (2 ^ c - 1)) (2 ^ c) ltac:(lia)). pose proof (Z.mod_pos_bound (d + (2 ^ c - 1)) (2 ^ c) ltac:(lia)).
  split; [lia|]. by rewrite Z.mul_comm, Z.mod_mul by lia.
Qed.

Lemma align_le d e c : 0 <= c -> d <= e -> e mod 2 ^ c = 0 -> ngx_align d (2 ^ c) <= e.
Proof.
  intros Hc Hd He. pose proof (Z.pow_pos_nonneg 2 c ltac:(lia) Hc). destruct (align_spec d c Hc) as [[H1 H2] H3].
  apply Z.mod_divide in He as [x ->]; [|lia]. apply Z.mod_divide in H3 as [y Hy]; [|lia]. rewrite Hy in *.
  assert (y < x + 1) by (apply (Z.mul_lt_mono_pos_r (2 ^ c)); lia). apply Z.mul_le_mono_nonneg_r; lia.
Qed.

Lemma elt_size_bounds n : key_len n + 10 <= NGX_HASH_ELT_SIZE n <= key_len n + 17 /\ NGX_HASH_ELT_SIZE n mod 8 = 0.
Proof.
  unfold NGX_HASH_ELT_SIZE. destruct (align_spec (key_len n + 2) 3 ltac:(lia)) as [H1 H2]. change (2 ^ 3) with 8 in *.
  split; [lia|]. rewrite Z.add_mod, H2 by lia. done.
Qed.

Lemma elt_size_pos n : 16 <= NGX_HASH_ELT_SIZE n.
Proof.
  destruct (elt_size_bounds n) as [H1 H2]. unfold key_len, blen in H1.
  apply Z.mod_divide in H2 as [x Hx]; [|lia]. rewrite Hx in *. lia.
Qed.

(** ** Buckets *)

Section Buckets.
Context (sz : Z) (Hsz : 0 < sz).
Implicit Types (names l : list ngx_hash_key_t) (test : list Z).

Definition in_bucket (k : Z) (n : ngx_hash_key_t) : bool :=
  match key n with Some _ => key_hash n mod sz =? k | None => false end.

(** The names of bucket [k], in their order. *)
Definition bucket (k : Z) names : list ngx_hash_key_t := List.filter (in_bucket k) names.
Definition used (l : list ngx_hash_key_t) : Z := fold_right (fun n t => NGX_HASH_ELT_SIZE n + t) 0 l.

Lemma used_cons n l : used (n :: l) = NGX_HASH_ELT_SIZE n + used l.
Proof. done. Qed.

Lemma used_nonneg l : 0 <= used l.
Proof. induction l as [|n l IH]; [done|]. rewrite used_cons. pose proof (elt_size_pos n). lia. Qed.

Lemma used_app l1 l2 : used (l1 ++ l2) = used l1 + used l2.
Proof. induction l1 as [|n l1 IH]; [done|]. cbn [app]. rewrite !used_cons. lia. Qed.

Lemma used_mod l : used l mod 8 = 0.
Proof.
  induction l as [|n l IH]; [done|]. rewrite used_cons. destruct (elt_size_bounds n) as [_ Hn]. rewrite Z.add_mod, Hn, IH by lia. done.
Qed.

Lemma bucket_cons k n names :
  bucket k (n :: names) = (if in_bucket k n then [n] else []) ++ bucket k names.
Proof. unfold bucket. cbn. by destruct (in_bucket k n). Qed.

Lemma test_at_add test i j n : 0 <= i < Z.of_nat (length test) -> 0 <= j ->
  test_at (add_size test i n) j = if i =? j then u16 (test_at test i + n) else test_at test j.
Proof.
  intros Hi Hj. unfold add_size. set (x := u16 _). unfold test_at. rewrite !nth_lookup. destruct (Z.eqb_spec i j) as [->|Hne].
  - by rewrite list_lookup_insert_eq by lia.
  - by rewrite list_lookup_insert_ne by lia.
Qed.

Lemma add_size_length test i n : length (add_size test i n) = length test.
Proof. apply length_insert. Qed.

Lemma test_at_replicate v k : 0 <= k < sz -> test_at (replicate (Z.to_nat sz) v) k = v.
Proof. intros Hk. unfold test_at. rewrite nth_lookup, lookup_replicate_2 by lia. done. Qed.

Lemma u16_small z : 0 <= z < 2 ^ 16 -> u16 z = z.
Proof. apply uwrap_small. Qed.

(** Sizes for which no bucket overflows its space [bsize]. *)
Lemma fits_used names bsize : 0 <= bsize < 2 ^ 15 -> Forall (fun n => NGX_HASH_ELT_SIZE n <= bsize) names ->
  forall test, length test = Z.to_nat sz -> (forall k, 0 <= k < sz -> 0 <= test_at test k <= bsize) ->
  fits names sz bsize test = true -> forall k, 0 <= k < sz -> test_at test k + used (bucket k names) <= bsize.
Proof.
  intros Hb. induction 1 as [|n names Hn _ IH]; intros test Hlen Htest Hfits k Hk; [change (used (bucket k [])) with 0; specialize (Htest k Hk); lia|].
  cbn [fits] in Hfits. rewrite bucket_cons. unfold in_bucket. destruct (key n); [|by apply IH].
  pose proof (Z.mod_pos_bound (key_hash n) sz Hsz) as Hm. set (k0 := key_hash n mod sz) in *. clearbody k0.
  pose proof (elt_size_pos n) as Hpos. pose proof (Htest k0 Hm) as H0.
  rewrite (u16_small bsize) in Hfits by lia.
  assert (Hat : forall j, 0 <= j < sz -> test_at (add_size test k0 (NGX_HASH_ELT_SIZE n)) j =
    if k0 =? j then test_at test k0 + NGX_HASH_ELT_SIZE n else test_at test j).
  { intros j Hj. rewrite test_at_add by lia. destruct (k0 =? j); [|done]. apply u16_small. lia. }
  rewrite (Hat k0 Hm), Z.eqb_refl in Hfits. destruct (Z.ltb_spec bsize (test_at test k0 + NGX_HASH_ELT_SIZE n)) as [|Hle]; [done|].
  assert (Hinv : forall j, 0 <= j < sz -> 0 <= test_at (add_size test k0 (NGX_HASH_ELT_SIZE n)) j <= bsize).
  { intros j Hj. rewrite Hat by done. specialize (Htest j Hj). destruct (k0 =? j); lia. }
  specialize (IH (add_size test k0 (NGX_HASH_ELT_SIZE n)) ltac:(by rewrite add_size_length) Hinv Hfits k Hk).
  rewrite Hat in IH by done. destruct (Z.eqb_spec k0 k); cbn [app]; rewrite ?used_cons; try subst k; lia.
Qed.

Lemma bucket_sizes_at names bound : bound < 2 ^ 16 -> forall test, length test = Z.to_nat sz ->
  (forall k, 0 <= k < sz -> 0 <= test_at test k /\ test_at test k + used (bucket k names) <= bound) ->
  length (bucket_sizes names sz test) = Z.to_nat sz /\
  forall k, 0 <= k < sz -> test_at (bucket_sizes names sz test) k = test_at test k + used (bucket k names).
Proof.
  intros Hb. induction names as [|n names IH]; intros test Hlen Htest; [split; [done|]; intros; change (used (bucket k [])) with 0; cbn [bucket_sizes]; lia|].
  cbn [bucket_sizes]. setoid_rewrite bucket_cons in Htest. setoid_rewrite bucket_cons. unfold in_bucket in *. destruct (key n); [|by apply IH].
  pose proof (Z.mod_pos_bound (key_hash n) sz Hsz) as Hm. set (k0 := key_hash n mod sz) in *. clearbody k0.
  assert (Hat : forall j, 0 <= j < sz -> test_at (add_size test k0 (NGX_HASH_ELT_SIZE n)) j =
    test_at test j + used (if k0 =? j then [n] else [])).
  { intros j Hj. rewrite test_at_add by lia. destruct (Z.eqb_spec k0 j) as [E|]; [subst j|change (used []) with 0; lia]. pose proof (elt_size_pos n).
    specialize (Htest k0 Hm). rewrite Z.eqb_refl, used_app in Htest. pose proof (used_nonneg (bucket k0 names)).
    rewrite used_cons in *. change (used []) with 0 in *. rewrite Z.add_0_r in *. apply u16_small. lia. }
  destruct (IH (add_size test k0 (NGX_HASH_ELT_SIZE n))) as [Hl IH'].
  - by rewrite add_size_length.
  - intros j Hj. rewrite Hat by done. specialize (Htest j Hj). rewrite used_app in Htest.
    pose proof (used_nonneg (if k0 =? j then [n] else [])). lia.
  - split; [done|]. intros k Hk. rewrite IH', Hat, used_app by done. lia.
Qed.


(** ** Placing the buckets *)

(** The space behind the elements of a bucket is for the NULL that ends it. *)
Definition sized (c : Z) (t : Z) : Prop := t = 8 \/ 8 < t /\ t mod 2 ^ c = 0.

Lemma total_from (ts : list Z) : forall a, fold_left (fun len t => if t =? 8 then len else len + t) ts a = a + total ts.
Proof.
  unfold total. induction ts as [|t ts IH]; intros a; cbn [fold_left]; [lia|].
  rewrite IH, (IH (if t =? 8 then 0 else 0 + t)). destruct (t =? 8); lia.
Qed.

Lemma place_at sizes : forall e k, Forall (fun t => 8 <= t) sizes -> (k < length sizes)%nat ->
  nth k (place sizes e) 0 = if nth k sizes 0 =? 8 then 0 else e + total (take k sizes).
Proof.
  induction sizes as [|t sizes IH]; intros e k Hall Hk; [cbn in Hk; lia|]. apply Forall_cons in Hall as [Ht Hall]. cbn [place].
  destruct k as [|k].
  - destruct (t =? 8) eqn:E; cbn; rewrite E; [done|]. unfold total. cbn. lia.
  - cbn in Hk. destruct (t =? 8) eqn:E; cbn [nth take]; rewrite IH by (done || lia); destruct (nth k sizes 0 =? 8); try done;
      unfold total at 2; cbn [fold_left]; rewrite total_from, E; lia.
Qed.

Lemma total_app (l1 l2 : list Z) : total (l1 ++ l2) = total l1 + total l2.
Proof.
  unfold total at 1. by rewrite fold_left_app, total_from.
Qed.

(** ** The elements in memory *)

Definition elt_of (n : ngx_hash_key_t) : ngx_hash_elt :=
  mk_hash_elt (key_value n) (u16 (key_len n)) (lowers (default [] (key n))).

(** The elements of [l] lie one behind the other from [p] on. *)
Fixpoint laid (E : gmap Z ngx_hash_elt) (p : Z) l : Prop :=
  match l with
  | [] => True
  | n :: l' => E !! p = Some (elt_of n) /\ laid E (p + NGX_HASH_ELT_SIZE n) l'
  end.

Lemma laid_same E E' l : forall p, (forall a, p <= a < p + used l -> E' !! a = E !! a) -> laid E p l -> laid E' p l.
Proof.
  induction l as [|n l IH]; intros p HE; [done|]. rewrite used_cons in HE. pose proof (elt_size_pos n). pose proof (used_nonneg l).
  intros [Hn Hl]. split; [by rewrite HE by lia|]. apply IH; [|done]. intros a Ha. apply HE. lia.
Qed.

Lemma laid_snoc E l n : forall p, laid E p l -> E !! (p + used l) = Some (elt_of n) -> laid E p (l ++ [n]).
Proof.
  induction l as [|x l IH]; intros p; cbn [laid app].
  - rewrite Z.add_0_r. done.
  - rewrite used_cons. intros [Hx Hl] Hn. split; [done|]. apply IH; [done|]. by rewrite <- Z.add_assoc.
Qed.

(** The spaces of the buckets of [all] do not meet. *)
Definition spaced (all : list ngx_hash_key_t) (bks : list Z) : Prop :=
  forall j k, 0 <= j < sz -> 0 <= k < sz -> j <> k -> bucket j all <> [] -> bucket k all <> [] ->
    test_at bks j + used (bucket j all) + 8 <= test_at bks k \/ test_at bks k + used (bucket k all) + 8 <= test_at bks j.

Lemma bucket_app k l1 l2 : bucket k (l1 ++ l2) = bucket k l1 ++ bucket k l2.
Proof. unfold bucket. apply List.filter_app. Qed.

Lemma fill_laid all bks names : spaced all bks -> (forall k, 0 <= k < sz -> used (bucket k all) < 2 ^ 16) ->
  forall before test m, all = before ++ names -> length test = Z.to_nat sz ->
  (forall k, 0 <= k < sz -> test_at test k = used (bucket k before) /\ laid (elts m) (test_at bks k) (bucket k before)) ->
  exists test' m', fill names sz bks test m = Ok (test', m') /\ tables m' = tables m /\ length test' = Z.to_nat sz /\
    forall k, 0 <= k < sz -> test_at test' k = used (bucket k all) /\ laid (elts m') (test_at bks k) (bucket k all).
Proof.
  intros Hsp Hmax. induction names as [|n names IH]; intros before test m Hall Hlen Hinv.
  { rewrite app_nil_r in Hall. subst all. by exists test, m. }
  cbn [fill].
  assert (Hnext : all = (before ++ [n]) ++ names) by (by rewrite <- app_assoc).
  destruct (key n) as [d|] eqn:Ek.
  2: { apply (IH (before ++ [n])); [done..|]. intros k Hk. specialize (Hinv k Hk). rewrite bucket_app. unfold bucket at 2 4. cbn.
       unfold in_bucket. rewrite Ek. by rewrite app_nil_r. }
  rewrite Host.strlow_spec by (cbn; lia). rewrite obind_Ok, drop_0, firstn_all.
  pose proof (Z.mod_pos_bound (key_hash n) sz Hsz) as Hm. assert (Hin : forall k, in_bucket k n = (key_hash n mod sz =? k)) by (intros; unfold in_bucket; by rewrite Ek).
  set (k0 := key_hash n mod sz) in *. clearbody k0.
  assert (Hb : forall k, bucket k (before ++ [n]) = bucket k before ++ (if k0 =? k then [n] else [])).
  { intros k. rewrite bucket_app. f_equal. unfold bucket. cbn. rewrite Hin. by destruct (k0 =? k). }
  assert (Hne : forall k, bucket k before <> [] \/ k0 = k -> bucket k all <> []).
  { intros k Hk. rewrite Hnext, bucket_app, Hb. destruct (Z.eqb_spec k0 k); [by destruct (bucket k before)|].
    destruct Hk as [Hk|]; [|done]. by destruct (bucket k before). }
  assert (Hle : forall k, used (bucket k (before ++ [n])) <= used (bucket k all)).
  { intros k. rewrite Hnext, (bucket_app k _ names), used_app. pose proof (used_nonneg (bucket k names)). lia. }
  replace (mk_hash_elt (key_value n) (u16 (blen d)) (lowers d)) with (elt_of n) by (unfold elt_of, key_len; by rewrite Ek).
  destruct (Hinv k0 Hm) as [Ht0 Hl0]. rewrite Ht0. pose proof (elt_size_pos n) as Hpos.
  set (m1 := m <| elts := <[test_at bks k0 + used (bucket k0 before) := elt_of n]> (elts m) |>).
  destruct (IH (before ++ [n]) (add_size test k0 (NGX_HASH_ELT_SIZE n)) m1 Hnext) as (test' & m' & E' & Htab & H');
    [by rewrite add_size_length| |by exists test', m'].
  intros k Hk. destruct (Hinv k Hk) as [Ht Hl]. rewrite test_at_add by lia. specialize (Hle k) as Hlek. rewrite Hb, used_app in Hlek.
  rewrite Hb, used_app. destruct (Z.eqb_spec k0 k) as [E|Hne0].
  - subst k. rewrite Ht0, used_cons in *. change (used []) with 0 in *. rewrite Z.add_0_r in *. split.
    + apply u16_small. pose proof (used_nonneg (bucket k0 before)). specialize (Hmax k0 Hm). lia.
    + apply laid_snoc; [|unfold m1; cbn; apply lookup_insert_eq]. apply (laid_same (elts m)); [|done].
      intros a Ha. unfold m1. cbn. apply lookup_insert_ne. lia.
  - rewrite app_nil_r. split; [change (used []) with 0; lia|]. apply (laid_same (elts m)); [|done].
    intros a Ha. unfold m1. cbn. apply lookup_insert_ne. intros <-.
    assert (Hnb : bucket k before <> []) by (intros E; rewrite E in Ha; change (used []) with 0 in Ha; lia).
    destruct (Hsp k0 k Hm Hk Hne0 (Hne k0 (or_intror eq_refl)) (Hne k (or_introl Hnb))) as [Hs|Hs].
    + pose proof (Hle k0) as H0. rewrite Hb, Z.eqb_refl, used_app, used_cons in H0. change (used []) with 0 in *. lia.
    + change (used []) with 0 in *. pose proof (used_nonneg (bucket k0 before)). lia.
Qed.

(** *** The ends of the buckets *)
Definition null_elt : ngx_hash_elt := mk_hash_elt 0 0 [].
Definition ends (bks test : list Z) (a : Z) : Prop :=
  exists i b t, bks !! i = Some b /\ test !! i = Some t /\ b <> 0 /\ a = b + t.

Lemma finish_keeps bks : forall test m a, elts m !! a = Some null_elt -> elts (finish bks test m) !! a = Some null_elt.
Proof.
  induction bks as [|b bks IH]; intros [|t test] m a Ha; try done. cbn [finish]. apply IH. destruct (b =? 0); [done|]. cbn.
  destruct (decide (b + t = a)) as [->|]; [by rewrite lookup_insert_eq|by rewrite lookup_insert_ne].
Qed.

Lemma finish_lookup bks : forall test m a,
  (ends bks test a -> elts (finish bks test m) !! a = Some null_elt) /\
  (~ ends bks test a -> elts (finish bks test m) !! a = elts m !! a).
Proof.
  induction bks as [|b bks IH]; intros test m a.
  { split; [intros (i & ? & ? & H & _); by rewrite lookup_nil in H|done]. }
  destruct test as [|t test].
  { split; [intros (i & ? & ? & _ & H & _); by rewrite lookup_nil in H|done]. }
  cbn [finish]. set (m1 := if b =? 0 then m else _). destruct (IH test m1 a) as [IH1 IH2]. split.
  - intros (i & b' & t' & Hb & Ht & H0 & ->). destruct i as [|i].
    + cbn in Hb, Ht. injection Hb as <-. injection Ht as <-. apply finish_keeps. unfold m1.
      rewrite (proj2 (Z.eqb_neq b 0) H0). apply lookup_insert_eq.
    + apply IH1. by exists i, b', t'.
  - intros Hno. rewrite IH2.
    + unfold m1. destruct (Z.eqb_spec b 0) as [|H0]; [done|]. cbn. rewrite lookup_insert_ne; [done|]. intros <-.
      apply Hno. by exists 0%nat, b, t.
    + intros (i & b' & t' & H). apply Hno. by exists (S i), b', t'.
Qed.

Lemma finish_tables bks : forall test m, tables (finish bks test m) = tables m.
Proof.
  induction bks as [|b bks IH]; intros [|t test] m; try done. cbn [finish]. rewrite IH. by destruct (b =? 0).
Qed.

(** ** Searching a bucket *)

(** What a scan of the names answers. *)
Fixpoint scan_names (nm : bytes) (l : list ngx_hash_key_t) : Z :=
  match l with
  | [] => 0
  | n :: l' =>
      match key n with
      | Some d => if bool_decide (lowers d = nm) then key_value n else scan_names nm l'
      | None => scan_names nm l'
      end
  end.

Lemma same_name_spec a b n : forall i, (i + n <= length a)%nat -> (i + n <= length b)%nat ->
  same_name a b i n = Ok (bool_decide (take n (drop i a) = take n (drop i b))).
Proof.
  induction n as [|n IH]; intros i Ha Hb; cbn [same_name]; [done|].
  destruct (rd_in_range a i ltac:(lia)) as (x & Hx & ->). destruct (rd_in_range b i ltac:(lia)) as (y & Hy & ->). rewrite !obind_Ok.
  assert (Hiff : take (S n) (drop i a) = take (S n) (drop i b) <-> x = y /\ take n (drop (S i) a) = take n (drop (S i) b)).
  { rewrite (drop_S _ _ _ Hx), (drop_S _ _ _ Hy). cbn. split; [by intros [=]|by intros [-> ->]]. }
  rewrite (bool_decide_ext _ _ Hiff). destruct (Z.eqb_spec x y) as [->|Hne].
  - rewrite IH by lia. f_equal. apply bool_decide_ext. tauto.
  - rewrite bool_decide_eq_false_2; [done|]. by intros [? _].
Qed.

(** Names a bucket can hold. *)
Definition storable (n : ngx_hash_key_t) : Prop := key_value n <> 0 /\ key_len n < 2 ^ 16 - 17.

Lemma next_elt_of p n : p mod 8 = 0 -> storable n -> next_elt p (elt_of n) = p + NGX_HASH_ELT_SIZE n.
Proof.
  intros Hp [_ Hn]. unfold next_elt, elt_of. cbn [len]. rewrite u16_small by (unfold key_len, blen in *; lia).
  unfold NGX_HASH_ELT_SIZE. change (ngx_align_ptr ?x 8) with (ngx_align x (2 ^ 3)). change (ngx_align ?x 8) with (ngx_align x (2 ^ 3)).
  rewrite !align_pow by lia. change (2 ^ 3) with 8. apply Z.mod_divide in Hp as [x ->]; [|lia].
  replace (x * 8 + 10 + key_len n + (8 - 1)) with (key_len n + 2 + (8 - 1) + (x + 1) * 8) by lia. rewrite Z.div_add by lia. lia.
Qed.

Lemma find_loop_laid m nm l : Forall (fun n => storable n /\ is_Some (key n)) l ->
  forall fuel p, p mod 8 = 0 -> laid (elts m) p l -> elts m !! (p + used l) = Some null_elt -> (length l < fuel)%nat ->
  find_loop fuel m p nm = Ok (scan_names nm l).
Proof.
  induction 1 as [|n l [Hn [d Hd]] _ IH]; intros fuel p Hp Hl Hend Hf; (destruct fuel as [|fuel]; [cbn in Hf; lia|]); cbn [find_loop].
  - change (used []) with 0 in Hend. rewrite Z.add_0_r in Hend. by rewrite Hend.
  - destruct Hl as [Hx Hl]. rewrite Hx, next_elt_of by done. cbn [value elt_of len name scan_names].
    rewrite (proj2 (Z.eqb_neq _ _) (proj1 Hn)), Hd. cbn [default]. change (default [] (Some d)) with d.
    assert (Hnext : find_loop fuel m (p + NGX_HASH_ELT_SIZE n) nm = Ok (scan_names nm l)).
    { apply IH; [|done| |cbn in Hf; lia].
      - destruct (elt_size_bounds n) as [_ H8]. rewrite Z.add_mod, Hp, H8 by lia. done.
      - rewrite <- Z.add_assoc. by rewrite used_cons in Hend. }
    assert (Hkl : key_len n = blen d) by (unfold key_len; by rewrite Hd).
    rewrite u16_small by (destruct Hn; unfold key_len, blen in *; lia). rewrite Hkl.
    destruct (Z.eqb_spec (blen nm) (blen d)) as [Hlen|Hlen]; cbn [negb].
    + unfold blen in Hlen. apply Nat2Z.inj in Hlen. change (id d) with d. unfold lowers.
      rewrite same_name_spec by (rewrite ?length_fmap; lia).
      rewrite obind_Ok. assert (Hiff : take (length nm) (drop 0 nm) = take (length nm) (drop 0 (lower <$> d)) <-> lower <$> d = nm).
      { rewrite !drop_0, firstn_all, take_ge by (rewrite length_fmap; lia). by split. }
      rewrite (bool_decide_ext _ _ Hiff). by case_bool_decide.
    + rewrite bool_decide_eq_false_2; [done|]. intros <-. apply Hlen. unfold blen, lowers. by rewrite length_fmap.
Qed.

(** There are as many elements in memory as in a bucket, and one more. *)
Lemma laid_size m l : forall p (D : gset Z), laid (elts m) p l -> elts m !! (p + used l) = Some null_elt ->
  (forall a, a ∈ D -> a < p) -> D ⊆ dom (elts m) -> (base.size D + length l < base.size (elts m))%nat.
Proof.
  induction l as [|n l IH]; intros p D Hl Hend HD Hsub.
  - change (used []) with 0 in Hend. rewrite Z.add_0_r in Hend. rewrite <- size_dom.
    assert (Hp : p ∉ D) by (intros ?%HD; lia).
    assert (Hs : {[p]} ∪ D ⊆ dom (elts m)).
    { apply union_subseteq. split; [|done]. apply singleton_subseteq_l, elem_of_dom. by eexists. }
    apply subseteq_size in Hs. rewrite size_union, size_singleton in Hs by set_solver. cbn. lia.
  - destruct Hl as [Hn Hl]. rewrite used_cons, Z.add_assoc in Hend. pose proof (elt_size_pos n).
    assert (Hp : p ∉ D) by (intros ?%HD; lia).
    specialize (IH (p + NGX_HASH_ELT_SIZE n) ({[p]} ∪ D) Hl Hend).
    rewrite size_union, size_singleton in IH by set_solver. cbn [length]. cut (1 + base.size D + length l < base.size (elts m))%nat; [lia|].
    apply IH.
    + intros a [->%elem_of_singleton|Ha]%elem_of_union; [lia|]. specialize (HD a Ha). lia.
    + apply union_subseteq. split; [|done]. apply singleton_subseteq_l, elem_of_dom. by eexists.
Qed.

(** A name whose entries all lie in bucket [k]. *)
Lemma scan_bucket nm k names :
  (forall n d, n ∈ names -> key n = Some d -> lowers d = nm -> key_hash n mod sz = k) ->
  scan_names nm (bucket k names) = scan_names nm names.
Proof.
  induction names as [|n names IH]; intros Hk; [done|]. rewrite bucket_cons. cbn [scan_names].
  assert (IH' : scan_names nm (bucket k names) = scan_names nm names) by (apply IH; intros n' d Hn; apply Hk; by right).
  unfold in_bucket. destruct (key n) as [d|] eqn:Ed; [|exact IH'].
  destruct (Z.eqb_spec (key_hash n mod sz) k) as [E|E]; cbn [app scan_names]; [rewrite Ed, IH'; done|].
  rewrite bool_decide_eq_false_2; [done|]. intros Hd. apply E. apply (Hk n d); [left|done..].
Qed.
End Buckets.


(** ** The layout *)
Section Layout.
Context (sz c : Z) (Hsz : 0 < sz) (Hc : 3 <= c <= 15) (names : list ngx_hash_key_t).
Context (Hused : forall k, 0 <= k < sz -> used (bucket sz k names) + 8 <= 2 ^ 15).

Definition sizes : list Z := map (round_up (2 ^ c)) (bucket_sizes names sz (replicate (Z.to_nat sz) 8)).

Lemma bucket_nil k : bucket sz k names = [] <-> used (bucket sz k names) = 0.
Proof.
  split; [by intros ->|]. destruct (bucket sz k names) as [|n l]; [done|]. rewrite used_cons. pose proof (elt_size_pos n).
  pose proof (used_nonneg l). lia.
Qed.

Lemma sizes_length : length sizes = Z.to_nat sz.
Proof.
  unfold sizes. rewrite length_map. apply (bucket_sizes_at sz Hsz names (2 ^ 15)); [done|by rewrite length_replicate|].
  intros k Hk. rewrite test_at_replicate by done. specialize (Hused k Hk). lia.
Qed.

Lemma sizes_at k : 0 <= k < sz ->
  test_at sizes k = if bool_decide (bucket sz k names = []) then 8 else ngx_align (8 + used (bucket sz k names)) (2 ^ c).
Proof.
  intros Hk. destruct (bucket_sizes_at sz Hsz names (2 ^ 15) ltac:(done) (replicate (Z.to_nat sz) 8)) as [Hl Hat].
  { by rewrite length_replicate. }
  { intros j Hj. rewrite test_at_replicate by done. specialize (Hused j Hj). lia. }
  specialize (Hat k Hk). rewrite test_at_replicate in Hat by done. unfold sizes, test_at in *.
  rewrite (nth_indep _ 0 (round_up (2 ^ c) 0)) by (rewrite length_map; lia). rewrite map_nth, Hat. unfold round_up.
  case_bool_decide as Hn.
  - by rewrite (proj1 (bucket_nil k) Hn).
  - assert (used (bucket sz k names) <> 0) by (intros ?%bucket_nil; done). pose proof (used_nonneg (bucket sz k names)).
    destruct (Z.eqb_spec (8 + used (bucket sz k names)) 8); [lia|]. apply u16_small.
    destruct (align_spec (8 + used (bucket sz k names)) c ltac:(lia)) as [H1 _].
    pose proof (align_le (8 + used (bucket sz k names)) (2 ^ 15) c ltac:(lia) ltac:(specialize (Hused k Hk); lia)) as H2.
    assert (2 ^ 15 mod 2 ^ c = 0).
    { replace 15 with (15 - c + c) by lia. rewrite Z.pow_add_r by lia. apply Z.mod_mul. pose proof (Z.pow_pos_nonneg 2 c ltac:(lia) ltac:(lia)). lia. }
    specialize (H2 H3). lia.
Qed.

(** A bucket that is not empty has room for its elements and the end. *)
Lemma sizes_room k : 0 <= k < sz -> bucket sz k names <> [] ->
  test_at sizes k mod 2 ^ c = 0 /\ used (bucket sz k names) + 8 <= test_at sizes k /\ 8 < test_at sizes k.
Proof.
  intros Hk Hne. rewrite sizes_at by done. rewrite bool_decide_eq_false_2 by done.
  destruct (align_spec (8 + used (bucket sz k names)) c ltac:(lia)) as [H1 H2].
  assert (used (bucket sz k names) <> 0) by (intros ?%bucket_nil; done). pose proof (used_nonneg (bucket sz k names)). lia.
Qed.

Lemma total_take_S k : 0 <= k < sz ->
  total (take (S (Z.to_nat k)) sizes) = total (take (Z.to_nat k) sizes) + (if bool_decide (bucket sz k names = []) then 0 else test_at sizes k).
Proof.
  intros Hk. pose proof sizes_length as Hl. destruct (lookup_lt_is_Some_2 sizes (Z.to_nat k)) as [t Ht]; [lia|].
  rewrite (take_S_r _ _ _ Ht), total_app. f_equal. assert (E : test_at sizes k = t) by (unfold test_at; by apply nth_lookup_Some).
  case_bool_decide as Hn; unfold total; cbn.
  - rewrite sizes_at, bool_decide_eq_true_2 in E by done. by rewrite <- E.
  - destruct (sizes_room k Hk Hn) as (_ & _ & H). destruct (Z.eqb_spec t 8); lia.
Qed.

Lemma total_take_mono j k : 0 <= j -> j <= k -> k <= sz -> total (take (Z.to_nat j) sizes) <= total (take (Z.to_nat k) sizes).
Proof.
  intros Hj Hjk. replace k with (j + Z.of_nat (Z.to_nat (k - j))) by lia. generalize (Z.to_nat (k - j)). intros d.
  induction d as [|d IH]; intros Hs; [by rewrite Z.add_0_r|]. specialize (IH ltac:(lia)).
  replace (Z.to_nat (j + Z.of_nat (S d))) with (S (Z.to_nat (j + Z.of_nat d))) by lia. rewrite total_take_S by lia.
  case_bool_decide as Hn; [lia|]. destruct (sizes_room (j + Z.of_nat d) ltac:(lia) Hn). lia.
Qed.

(** The buckets behind each other from the address [e] on. *)
Lemma place_sizes e k : 0 <= k < sz ->
  test_at (place sizes e) k = if bool_decide (bucket sz k names = []) then 0 else e + total (take (Z.to_nat k) sizes).
Proof.
  intros Hk. unfold test_at at 1. rewrite place_at.
  - change (nth (Z.to_nat k) sizes 0) with (test_at sizes k). case_bool_decide as Hn.
    + by rewrite sizes_at, bool_decide_eq_true_2 by done.
    + destruct (sizes_room k Hk Hn) as (_ & _ & H). destruct (Z.eqb_spec (test_at sizes k) 8); [lia|done].
  - apply Forall_forall. intros t [i Hi]%list_elem_of_lookup_1. pose proof (lookup_lt_Some _ _ _ Hi) as Hl. rewrite sizes_length in Hl.
    assert (E : test_at sizes (Z.of_nat i) = t) by (unfold test_at; rewrite Nat2Z.id; by apply nth_lookup_Some). rewrite <- E.
    destruct (decide (bucket sz (Z.of_nat i) names = [])) as [Hn|Hn].
    + rewrite sizes_at, bool_decide_eq_true_2 by (done || lia). lia.
    + destruct (sizes_room (Z.of_nat i) ltac:(lia) Hn). lia.
  - rewrite sizes_length. lia.
Qed.

Lemma place_length l : forall e, length (place l e) = length l.
Proof. induction l as [|t l IH]; intros e; [done|]. cbn. destruct (t =? 8); cbn; by rewrite IH. Qed.

Lemma total_mod k : 0 <= k <= sz -> 0 <= total (take (Z.to_nat k) sizes) /\ total (take (Z.to_nat k) sizes) mod 2 ^ c = 0.
Proof.
  intros Hk. split; [apply (total_take_mono 0 k); lia|]. replace k with (Z.of_nat (Z.to_nat k)) in * by lia. revert Hk. generalize (Z.to_nat k).
  pose proof (Z.pow_pos_nonneg 2 c ltac:(lia) ltac:(lia)).
  intros d. induction d as [|d IH]; intros Hd; [done|]. specialize (IH ltac:(lia)). rewrite Nat2Z.id in *.
  pose proof (total_take_S (Z.of_nat d) ltac:(lia)) as E. rewrite Nat2Z.id in E. rewrite E. case_bool_decide as Hn; [by rewrite Z.add_0_r|].
  destruct (sizes_room (Z.of_nat d) ltac:(lia) Hn) as (Hm & _). rewrite Z.add_mod, IH, Hm by lia. done.
Qed.

Lemma place_spaced e : spaced sz names (place sizes e).
Proof.
  assert (H : forall j k, 0 <= j -> j < k -> k < sz -> bucket sz j names <> [] -> bucket sz k names <> [] ->
    test_at (place sizes e) j + used (bucket sz j names) + 8 <= test_at (place sizes e) k).
  { intros j k Hj Hjk Hk Hnj Hnk. rewrite !place_sizes, !bool_decide_eq_false_2 by (done || lia).
    destruct (sizes_room j ltac:(lia) Hnj) as (_ & Hr & _).
    pose proof (total_take_mono (j + 1) k ltac:(lia) ltac:(lia) ltac:(lia)) as Hm.
    replace (Z.to_nat (j + 1)) with (S (Z.to_nat j)) in Hm by lia. rewrite total_take_S, bool_decide_eq_false_2 in Hm by (done || lia). lia. }
  intros j k Hj Hk Hne Hnj Hnk. destruct (Z.lt_total j k) as [?|[?|?]]; [left|done|right]; apply H; (done || lia).
Qed.

(** All of them fit in the memory asked for. *)
Lemma place_inside e k : 0 <= k < sz -> bucket sz k names <> [] ->
  e <= test_at (place sizes e) k /\ test_at (place sizes e) k + used (bucket sz k names) + 8 <= e + total sizes.
Proof.
  intros Hk Hn. rewrite place_sizes, bool_decide_eq_false_2 by done. destruct (total_mod k ltac:(lia)) as [H0 _].
  destruct (sizes_room k Hk Hn) as (_ & Hr & _). pose proof (total_take_mono (k + 1) sz ltac:(lia) ltac:(lia) ltac:(lia)) as Hm.
  replace (Z.to_nat (k + 1)) with (S (Z.to_nat k)) in Hm by lia. rewrite total_take_S, bool_decide_eq_false_2 in Hm by (done || lia).
  rewrite (take_ge _ (Z.to_nat sz)) in Hm by (rewrite sizes_length; lia). lia.
Qed.
End Layout.

(** ** Building and searching *)

Lemma find_size_spec names max bsize fuel : forall start, max - start < Z.of_nat fuel -> (0 < fuel)%nat ->
  exists r, find_size fuel names start max bsize = Ok r /\
    match r with
    | Some s => start <= s < max /\ fits names s bsize (replicate (Z.to_nat s) 0) = true
    | None => forall s, start <= s < max -> fits names s bsize (replicate (Z.to_nat s) 0) = false
    end.
Proof.
  induction fuel as [|fuel IH]; intros start Hf Hpos; [lia|]. cbn [find_size]. destruct (Z.ltb_spec start max) as [Hlt|Hge].
  2: { exists None. split; [done|]. lia. }
  destruct (fits names start bsize (replicate (Z.to_nat start) 0)) eqn:Ef; [by exists (Some start)|].
  destruct (IH (start + 1) ltac:(lia) ltac:(lia)) as (r & -> & Hr). exists r. split; [done|]. destruct r as [s|].
  - destruct Hr. split; [lia|done].
  - intros s Hs. destruct (decide (s = start)) as [->|]; [done|]. apply Hr. lia.
Qed.

(** The names a table is built from: their hashes are those of the lower case
    names, and no value is NULL. *)
Definition names_ok (H : bytes -> Z) (names : list ngx_hash_key_t) : Prop :=
  Forall (fun n => match key n with Some d => key_hash n = H (lowers d) /\ key_value n <> 0 | None => True end) names.

Lemma lookup_test_at (l : list Z) k : 0 <= k < Z.of_nat (length l) -> l !! Z.to_nat k = Some (test_at l k).
Proof. intros Hk. unfold test_at. destruct (nth_lookup_or_length l (Z.to_nat k) 0); [done|lia]. Qed.

Section Built.
Context (sz c : Z) (Hsz : 0 < sz) (Hc : 3 <= c <= 15) (H : bytes -> Z) (names : list ngx_hash_key_t).
Context (Hnames : names_ok H names) (Hlen : Forall (fun n => NGX_HASH_ELT_SIZE n <= 2 ^ 15) names).
Context (Hused : forall k, 0 <= k < sz -> used (bucket sz k names) + 8 <= 2 ^ 15).
Context (e : Z) (He : 0 < e) (He8 : e mod 2 ^ c = 0).

Let bks := place (sizes sz c names) e.

Lemma bks_bucket k : 0 <= k < sz -> bucket sz k names <> [] -> 0 < test_at bks k /\ test_at bks k mod 8 = 0.
Proof.
  intros Hk Hn. unfold bks. rewrite place_sizes, bool_decide_eq_false_2 by done.
  destruct (total_mod sz c Hsz Hc names Hused k ltac:(lia)) as [H0 Hm]. split; [lia|].
  assert (Hd : forall x, x mod 2 ^ c = 0 -> x mod 8 = 0).
  { intros x. replace c with (c - 3 + 3) by lia. rewrite Z.pow_add_r by lia. change (2 ^ 3) with 8.
    pose proof (Z.pow_pos_nonneg 2 (c - 3) ltac:(lia) ltac:(lia)). intros [y ->]%Z.mod_divide; [|lia]. rewrite Z.mul_assoc. by apply Z.mod_mul. }
  apply Hd. pose proof (Z.pow_pos_nonneg 2 c ltac:(lia) ltac:(lia)). rewrite Z.add_mod, He8, Hm by lia. done.
Qed.

Lemma bks_length : length bks = Z.to_nat sz.
Proof. unfold bks. by rewrite place_length, sizes_length. Qed.

Lemma bucket_forall k : Forall (fun n => storable n /\ is_Some (key n)) (bucket sz k names).
Proof.
  apply List.Forall_forall. intros n [Hin Hb]%List.filter_In. unfold in_bucket in Hb. destruct (key n) as [d|] eqn:Ed; [|done].
  split; [|by eexists]. unfold names_ok in Hnames. rewrite List.Forall_forall in Hnames, Hlen. specialize (Hnames n Hin). rewrite Ed in Hnames.
  split; [apply Hnames|]. specialize (Hlen n Hin). destruct (elt_size_bounds n). lia.
Qed.

(** The elements of all buckets, each ended by NULL. *)
Lemma built m : exists test m',
  fill names sz bks (replicate (Z.to_nat sz) 0) m = Ok (test, m') /\ tables m' = tables m /\
  forall k, 0 <= k < sz -> bucket sz k names <> [] ->
    laid (elts (finish bks test m')) (test_at bks k) (bucket sz k names) /\
    elts (finish bks test m') !! (test_at bks k + used (bucket sz k names)) = Some null_elt.
Proof.
  pose proof (place_spaced sz c Hsz Hc names Hused e) as Hsp. fold bks in Hsp.
  destruct (fill_laid sz Hsz names bks names Hsp) with (before := @nil ngx_hash_key_t) (test := replicate (Z.to_nat sz) 0) (m := m)
    as (test & m' & E & Ht & Hl & Hat).
  - intros k Hk. specialize (Hused k Hk). lia.
  - done.
  - by rewrite length_replicate.
  - intros k Hk. by rewrite test_at_replicate.
  - exists test, m'. split; [done|]. split; [done|]. intros k Hk Hn. destruct (Hat k Hk) as [Htk Hlk].
    destruct (bks_bucket k Hk Hn) as [Hb _].
    assert (Hlook : forall i, 0 <= i < sz -> bks !! Z.to_nat i = Some (test_at bks i) /\ test !! Z.to_nat i = Some (test_at test i)).
    { intros i Hi. pose proof bks_length. split; apply lookup_test_at; lia. }
    split.
    + apply (laid_same (elts m')); [|done]. intros a Ha. apply finish_lookup. intros (i & b & t & Hbi & Hti & Hb0 & ->).
      pose proof (lookup_lt_Some _ _ _ Hbi) as Hi. rewrite bks_length in Hi.
      destruct (Hlook (Z.of_nat i) ltac:(lia)) as [H1 H2]. rewrite Nat2Z.id in H1, H2.
      rewrite Hbi in H1. rewrite Hti in H2. injection H1 as ->. injection H2 as ->.
      destruct (Hat (Z.of_nat i) ltac:(lia)) as [Hti' _]. rewrite Hti' in Ha.
      assert (Hni : bucket sz (Z.of_nat i) names <> []).
      { intros En. apply Hb0. unfold bks. by rewrite place_sizes, bool_decide_eq_true_2 by (done || lia). }
      destruct (decide (Z.of_nat i = k)) as [<-|Hne]; [lia|].
      pose proof (used_nonneg (bucket sz (Z.of_nat i) names)).
      destruct (Hsp (Z.of_nat i) k ltac:(lia) Hk Hne Hni Hn); lia.
    + apply finish_lookup. destruct (Hlook k Hk) as [H1 H2]. exists (Z.to_nat k), (test_at bks k), (test_at test k).
      split; [done|]. split; [done|]. split; [lia|]. by rewrite Htk.
Qed.

Lemma find_built m nm :
  (forall k, 0 <= k < sz -> bucket sz k names <> [] ->
    laid (elts m) (test_at bks k) (bucket sz k names) /\ elts m !! (test_at bks k + used (bucket sz k names)) = Some null_elt) ->
  ngx_hash_find m (mk_hash (Some bks) sz) (H nm) nm = Ok (scan_names nm names).
Proof.
  intros Hm. unfold ngx_hash_find. cbn [buckets deref size]. rewrite obind_Ok. destruct (Z.eqb_spec sz 0) as [|_]; [lia|].
  pose proof (Z.mod_pos_bound (H nm) sz Hsz) as Hk. set (k := H nm mod sz) in *.
  assert (Hb : bks !! Z.to_nat k = Some (test_at bks k)).
  { apply lookup_test_at. rewrite bks_length. lia. }
  rewrite Hb.
  assert (Hscan : scan_names nm (bucket sz k names) = scan_names nm names).
  { apply scan_bucket. intros n d Hin Hd <-. unfold names_ok in Hnames. rewrite Forall_forall in Hnames. specialize (Hnames n Hin).
    rewrite Hd in Hnames. unfold k. by destruct Hnames as [-> _]. }
  rewrite <- Hscan. destruct (decide (bucket sz k names = [])) as [Hn|Hn].
  - replace (test_at bks k) with 0 by (unfold bks; by rewrite place_sizes, bool_decide_eq_true_2). by rewrite Hn.
  - destruct (bks_bucket k Hk Hn) as [Hpos H8]. destruct (Z.eqb_spec (test_at bks k) 0); [lia|].
    destruct (Hm k Hk Hn) as [Hl Hend]. apply (find_loop_laid m nm _ (bucket_forall k)); try done.
    pose proof (laid_size sz Hsz m (bucket sz k names) (test_at bks k) ∅ Hl Hend) as Hs. rewrite size_empty in Hs.
    specialize (Hs ltac:(set_solver) ltac:(apply empty_subseteq)). lia.
Qed.
End Built.

(** An answer [NGX_ERROR]. *)
Local Ltac failed := do 5 eexists; split; [reflexivity|split; [done|by left]].

Section Init.
Context {Osm : OSMem} {OL : OSMemLaws Osm}.

Lemma hash_init_spec c H hinit names m psize pl o :
  3 <= c <= 15 -> 24 <= bucket_size hinit <= 2 ^ 15 -> pool_ok psize pl -> names_ok H names ->
  (forall h, hinit_hash hinit = Some h -> is_Some (tables m !! h)) ->
  exists rc h m' pl' o', ngx_hash_init (2 ^ c) hinit names m pl o = Ok (rc, h, m', pl', o') /\ pool_ok psize pl' /\
    if existsb (fun n => bucket_size hinit <? NGX_HASH_ELT_SIZE n + 8) names
    then rc = NGX_ERROR /\ m' = m /\ pl' = pl /\ o' = o
    else rc = NGX_ERROR \/
         rc = NGX_OK /\ exists p t, h = Some p /\ (forall h0, hinit_hash hinit = Some h0 -> p = h0) /\ tables m' !! p = Some t /\
           forall nm, ngx_hash_find m' (hash t) (H nm) nm = Ok (scan_names nm names).
Proof.
  intros Hc Hbs Hpool Hnames Hh. unfold ngx_hash_init. destruct (existsb _ names) eqn:Ex; [do 5 eexists; split; [reflexivity|]; by split_and!|].
  assert (Hlen : Forall (fun n => NGX_HASH_ELT_SIZE n <= bucket_size hinit - 8) names).
  { apply List.Forall_forall. intros n Hn. apply Z.nlt_ge. intros Hlt. rewrite <- not_true_iff_false in Ex. apply Ex.
    apply existsb_exists. exists n. split; [done|]. apply Z.ltb_lt. lia. }
  destruct (os_alloc o 1 (max_size hinit * 2)) as [[test|] o1]; [|by failed].
  assert (Hu : u64 (bucket_size hinit - 8) = bucket_size hinit - 8) by (unfold u64; apply uwrap_small; lia). rewrite Hu.
  assert (1 <= (bucket_size hinit - 8) / 16) by (apply Z.div_le_lower_bound; lia).
  destruct (Z.eqb_spec ((bucket_size hinit - 8) / 16) 0) as [|_]; [lia|]. cbv zeta.
  set (start := if (10000 <? max_size hinit) && _ && _ then _ else _).
  assert (Hstart : 0 < start).
  { unfold start. destruct (Z.ltb_spec 10000 (max_size hinit)); cbn [andb]; [destruct (_ && _); [lia|]|];
      (destruct (Z.eqb_spec (Z.of_nat (length names) / ((bucket_size hinit - 8) / 16)) 0); [lia|]);
      assert (0 <= Z.of_nat (length names) / ((bucket_size hinit - 8) / 16)) by (apply Z.div_pos; lia); lia. }
  clearbody start.
  destruct (find_size_spec names (max_size hinit) (bucket_size hinit - 8) (S (Z.to_nat (max_size hinit - start))) start ltac:(lia) ltac:(lia))
    as (r & -> & Hr). rewrite obind_Ok. destruct r as [sz|]; [|by failed]. destruct Hr as [Hsz Hfits].
  assert (Hsz0 : 0 < sz) by lia.
  assert (Hused : forall k, 0 <= k < sz -> used (bucket sz k names) + 8 <= 2 ^ 15).
  { intros k Hk. pose proof (fits_used sz Hsz0 names (bucket_size hinit - 8) ltac:(lia) Hlen (replicate (Z.to_nat sz) 0)) as Hf.
    specialize (Hf ltac:(by rewrite length_replicate) ltac:(intros j Hj; rewrite test_at_replicate by done; lia) Hfits k Hk).
    rewrite test_at_replicate in Hf by done. lia. }
  change (map (round_up (2 ^ c)) (bucket_sizes names sz (replicate (Z.to_nat sz) 8))) with (sizes sz c names).
  assert (Halloc : exists h m1 pl1 o2, alloc_buckets hinit sz m pl o1 = Ok (h, m1, pl1, o2) /\ pool_ok psize pl1 /\
    match h with Some h => is_Some (tables m1 !! h) /\ (forall h0, hinit_hash hinit = Some h0 -> h = h0) | None => True end).
  { unfold alloc_buckets, ngx_pcalloc. destruct (hinit_hash hinit) as [h|].
    - destruct (palloc_positive psize pl (sz * 8) o1 Hpool ltac:(lia)) as (r & pl1 & o2 & -> & Hp & _). rewrite obind_Ok.
      destruct r; (do 4 eexists; split; [reflexivity|]; split; [done|]); [split; [by apply Hh|by intros ? [=]]|done].
    - destruct (palloc_positive psize pl (sizeof_hash_wildcard + sz * 8) o1 Hpool ltac:(unfold sizeof_hash_wildcard; lia)) as (r & pl1 & o2 & -> & Hp & _).
      rewrite obind_Ok. destruct r as [p|]; [|do 4 eexists; split; [reflexivity|by split]]. eexists _, _, pl1, o2. split; [done|]. split; [done|]. cbn.
      rewrite lookup_insert_eq. split; [by eexists|done]. }
  destruct Halloc as (h & m1 & pl1 & o2 & -> & Hp1 & Htab). rewrite obind_Ok. destruct h as [h|]; [|by failed].
  pose proof (Z.pow_pos_nonneg 2 c ltac:(lia) ltac:(lia)) as Hpow.
  destruct (total_mod sz c Hsz0 Hc names Hused sz ltac:(lia)) as [Htot _].
  rewrite take_ge in Htot by (rewrite sizes_length by done; lia).
  destruct (palloc_positive psize pl1 (total (sizes sz c names) + 2 ^ c) o2 Hp1 ltac:(lia)) as (r & pl2 & o3 & -> & Hp2 & He).
  rewrite obind_Ok. destruct r as [e|]; [|by failed].
  change (ngx_align_ptr e (2 ^ c)) with (ngx_align e (2 ^ c)). destruct (align_spec e c ltac:(lia)) as [Hae Ham].
  destruct (built sz c Hsz0 Hc names Hused (ngx_align e (2 ^ c)) ltac:(lia) Ham m1) as (used_ & m2 & -> & Htab2 & Hbuilt).
  rewrite obind_Ok, finish_tables, Htab2. destruct Htab as [[t Ht] Hh0]. rewrite Ht. do 5 eexists. split; [done|]. split; [done|].
  right. split; [done|]. eexists _, _. split; [done|]. split; [done|]. split; [cbn; apply lookup_insert_eq|].
  intros nm. cbn [hash]. apply (find_built sz c Hsz0 Hc H names Hnames); try done; [|lia].
  eapply Forall_impl; [exact Hlen|]. cbn. lia.
Qed.
(** C21: A hash table that [ngx_hash_init] builds answers every search with what a
    scan of the list of names answers: the value of the first name that is equal
    up to case, or NULL; the search ends and reads only elements of the table.
    The sizes are added in 16 bits; up to a bucket size of 32768 no addition
    wraps.  A name that is too long for a bucket is refused before anything is
    allocated. *)
Theorem hash_init_find c H hinit names m psize pl o :
  3 <= c <= 15 -> 24 <= bucket_size hinit <= 2 ^ 15 -> pool_ok psize pl -> names_ok H names ->
  (forall h, hinit_hash hinit = Some h -> is_Some (tables m !! h)) ->
  exists rc h m' pl' o', ngx_hash_init (2 ^ c) hinit names m pl o = Ok (rc, h, m', pl', o') /\ pool_ok psize pl' /\
    if existsb (fun n => bucket_size hinit <? NGX_HASH_ELT_SIZE n + 8) names
    then rc = NGX_ERROR /\ m' = m /\ pl' = pl /\ o' = o
    else rc = NGX_ERROR \/
         rc = NGX_OK /\ exists p t, h = Some p /\ (forall h0, hinit_hash hinit = Some h0 -> p = h0) /\ tables m' !! p = Some t /\
           forall nm, ngx_hash_find m' (hash t) (H nm) nm = Ok (scan_names nm names).
Proof. apply hash_init_spec. Qed.
End Init.

(** ** An example *)

#[local] Existing Instance known_mem.
#[local] Existing Instance known_laws.
Definition demo_names : list ngx_hash_key_t :=
  [mk_hash_key (Some (bs "Host")) (ngx_hash_key_lc (bs "Host")) 16; mk_hash_key None 0 0;
   mk_hash_key (Some (bs "Via")) (ngx_hash_key_lc (bs "Via")) 48].

Lemma hash_init_find_witness :
  exists rc h m' pl' o', ngx_hash_init (2 ^ 6) (mk_hash_init None 512 64) demo_names (mk_hash_mem ∅ ∅) demo_pool4k (demo_blocks : @os known_mem) =
    Ok (rc, h, m', pl', o') /\ pool_ok 4096 pl' /\
    if existsb (fun n => 64 <? NGX_HASH_ELT_SIZE n + 8) demo_names
    then rc = NGX_ERROR /\ m' = mk_hash_mem ∅ ∅ /\ pl' = demo_pool4k /\ o' = demo_blocks
    else rc = NGX_ERROR \/
         rc = NGX_OK /\ exists p t, h = Some p /\ (forall h0, None = Some h0 -> p = h0) /\ tables m' !! p = Some t /\
           forall nm, ngx_hash_find m' (hash t) (ngx_hash_key nm) nm = Ok (scan_names nm demo_names).
Proof.
  apply (hash_init_find 6 ngx_hash_key (mk_hash_init None 512 64)); [lia|cbn; lia|apply demo_pool4k_ok|by repeat constructor|done].
Defined.
