(* ===== verification/NgxArray.v ===== *)
(** * Arrays and lists: nginx/src/core/ngx_array.c and .h, ngx_list.c and .h

    The growing arrays and the lists of parts that nginx allocates from a pool.
    The contents are a list; pushing an element is the call together with the
    writes of the caller to the slot it returns, and a slot outside the memory of
    the array is out of bounds. *)
From S2P Require Import Prelude.
From S2P Require Export NgxPalloc.

(** [a_addr] is the address of the structure, [elts] of its memory. *)
Record ngx_array (A : Type) := mk_array { a_addr : Z; elts : Z; items : list A; a_size : Z; nalloc : Z }.
Arguments mk_array {A}.
Arguments a_addr {A}.
Arguments elts {A}.
Arguments items {A}.
Arguments a_size {A}.
Arguments nalloc {A}.

Definition sizeof_array : Z := 40.
Definition sizeof_list : Z := 56.
Definition sizeof_list_part : Z := 24.

Section Array.
Context {Osm : OSMem} {A : Type}.
Implicit Types (a : ngx_array A) (pl : pool) (o : os).

Definition ngx_array_init (addr : Z) pl (n size : Z) o : out (option (ngx_array A) * pool * os) :=
  let! (p, pl, o) := ngx_palloc pl (n * size) o in
  match p with
  | None => Ok (None, pl, o)
  | Some p => Ok (Some (mk_array addr p [] size n), pl, o)
  end.

Definition ngx_array_create pl (n size : Z) o : out (option (ngx_array A) * pool * os) :=
  let! (p, pl, o) := ngx_palloc pl sizeof_array o in
  match p with
  | None => Ok (None, pl, o)
  | Some p => ngx_array_init p pl n size o
  end.

(** [pool->d.last = last] *)
Definition set_last pl (last : Z) : pool :=
  match blocks pl with
  | [] => pl
  | b :: bl => mk_pool (mk_block (b_base b) last (b_end b) (b_failed b) :: bl) (p_current pl) (p_max pl) (p_large pl)
  end.
Definition d_last pl : Z := match blocks pl with b :: _ => b_last b | [] => 0 end.
Definition d_end pl : Z := match blocks pl with b :: _ => b_end b | [] => 0 end.

Definition ngx_array_destroy a pl : pool :=
  let pl := if elts a + a_size a * nalloc a =? d_last pl then set_last pl (d_last pl - a_size a * nalloc a) else pl in
  if a_addr a + sizeof_array =? d_last pl then set_last pl (a_addr a) else pl.

(** The slots that are returned, filled with [xs]. *)
Definition fill_slots a (xs : list A) : out (ngx_array A) :=
  if nalloc a <? Z.of_nat (length (items a ++ xs)) then Undef OutOfBounds
  else Ok (mk_array (a_addr a) (elts a) (items a ++ xs) (a_size a) (nalloc a)).

Definition push_into a (xs : list A) pl o : out (option (ngx_array A) * pool * os) :=
  let! a := fill_slots a xs in Ok (Some a, pl, o).

Definition ngx_array_push a (x : A) pl o : out (option (ngx_array A) * pool * os) :=
  if Z.of_nat (length (items a)) =? nalloc a then
    let size := a_size a * nalloc a in
    if (elts a + size =? d_last pl) && (d_last pl + a_size a <=? d_end pl) then
      push_into (mk_array (a_addr a) (elts a) (items a) (a_size a) (nalloc a + 1)) [x] (set_last pl (d_last pl + a_size a)) o
    else
      let! (new, pl, o) := ngx_palloc pl (2 * size) o in
      match new with
      | None => Ok (None, pl, o)
      | Some new => push_into (mk_array (a_addr a) new (items a) (a_size a) (nalloc a * 2)) [x] pl o
      end
  else push_into a [x] pl o.

Definition ngx_array_push_n a (xs : list A) pl o : out (option (ngx_array A) * pool * os) :=
  let n := Z.of_nat (length xs) in
  let size := n * a_size a in
  if nalloc a <? Z.of_nat (length (items a)) + n then
    if (elts a + a_size a * nalloc a =? d_last pl) && (d_last pl + size <=? d_end pl) then
      push_into (mk_array (a_addr a) (elts a) (items a) (a_size a) (nalloc a + n)) xs (set_last pl (d_last pl + size)) o
    else
      let nalloc' := 2 * (if nalloc a <=? n then n else nalloc a) in
      let! (new, pl, o) := ngx_palloc pl (nalloc' * a_size a) o in
      match new with
      | None => Ok (None, pl, o)
      | Some new => push_into (mk_array (a_addr a) new (items a) (a_size a) nalloc') xs pl o
      end
  else push_into a xs pl o.

(** ** Lists: the elements of the parts before the last one, and of the last *)
Record ngx_list := mk_list { before : list A; last_part : list A; l_size : Z; l_nalloc : Z }.

Definition ngx_list_init pl (n size : Z) o : out (option ngx_list * pool * os) :=
  let! (p, pl, o) := ngx_palloc pl (n * size) o in
  match p with
  | None => Ok (None, pl, o)
  | Some _ => Ok (Some (mk_list [] [] size n), pl, o)
  end.

Definition ngx_list_create pl (n size : Z) o : out (option ngx_list * pool * os) :=
  let! (p, pl, o) := ngx_palloc pl sizeof_list o in
  match p with
  | None => Ok (None, pl, o)
  | Some _ => ngx_list_init pl n size o
  end.

Definition list_slot (l : ngx_list) (x : A) pl o : out (option ngx_list * pool * os) :=
  if l_nalloc l <=? Z.of_nat (length (last_part l)) then Undef OutOfBounds
  else Ok (Some (mk_list (before l) (last_part l ++ [x]) (l_size l) (l_nalloc l)), pl, o).

Definition ngx_list_push (l : ngx_list) (x : A) pl o : out (option ngx_list * pool * os) :=
  if Z.of_nat (length (last_part l)) =? l_nalloc l then
    let! (part, pl, o) := ngx_palloc pl sizeof_list_part o in
    match part with
    | None => Ok (None, pl, o)
    | Some _ =>
        let! (p, pl, o) := ngx_palloc pl (l_nalloc l * l_size l) o in
        match p with
        | None => Ok (None, pl, o)
        | Some _ => list_slot (mk_list (before l ++ last_part l) [] (l_size l) (l_nalloc l)) x pl o
        end
    end
  else list_slot l x pl o.

Definition list_items (l : ngx_list) : list A := before l ++ last_part l.

(** ** What a push does *)

Definition array_ok a : Prop := 0 < a_size a /\ 0 < nalloc a /\ Z.of_nat (length (items a)) <= nalloc a.
Definition list_ok (l : ngx_list) : Prop := 0 < l_nalloc l /\ Z.of_nat (length (last_part l)) <= l_nalloc l.

Lemma palloc_max pl size o : sizeof_pool_large_t <= p_max pl ->
  exists r pl' o', ngx_palloc pl size o = Ok (r, pl', o') /\ p_max pl' = p_max pl.
Proof. apply (palloc_fuel_total true). Qed.

Lemma set_last_max pl last : p_max (set_last pl last) = p_max pl.
Proof. unfold set_last. by destruct (blocks pl). Qed.

(** A push appends the element, in an array with room for it, or reports that the
    memory ran out; it never writes outside the array. *)
Lemma array_push_spec a x pl o : array_ok a -> sizeof_pool_large_t <= p_max pl ->
  exists r pl' o', ngx_array_push a x pl o = Ok (r, pl', o') /\ p_max pl' = p_max pl /\
    match r with Some a' => array_ok a' /\ items a' = items a ++ [x] | None => True end.
Proof.
  intros (Hs & Hn & Hl) Hmax.
  assert (Hinto : forall e n pl' o', Z.of_nat (length (items a)) < n -> p_max pl' = p_max pl -> exists r pl'' o'',
    push_into (mk_array (a_addr a) e (items a) (a_size a) n) [x] pl' o' = Ok (r, pl'', o'') /\ p_max pl'' = p_max pl /\
    match r with Some a' => array_ok a' /\ items a' = items a ++ [x] | None => True end).
  { intros e n pl' o' Hlt Hp. unfold push_into, fill_slots. cbn [items nalloc a_addr a_size elts].
    rewrite length_app. cbn [length]. destruct (Z.ltb_spec n (Z.of_nat (length (items a) + 1))); [lia|].
    do 3 eexists. split; [reflexivity|]. split; [done|]. split; [|done]. unfold array_ok. cbn. rewrite length_app. cbn. lia. }
  unfold ngx_array_push. destruct (Z.eqb_spec (Z.of_nat (length (items a))) (nalloc a)).
  - destruct (_ && _).
    + apply Hinto; [lia|apply set_last_max].
    + destruct (palloc_max pl (2 * (a_size a * nalloc a)) o Hmax) as (r & pl1 & o1 & -> & Hp). rewrite obind_Ok.
      destruct r; [apply Hinto; [lia|done]|]. by exists None, pl1, o1.
  - destruct a as [ad e it s n']. cbn in *. apply Hinto; [lia|done].
Qed.

Lemma list_push_spec l x pl o : list_ok l -> sizeof_pool_large_t <= p_max pl ->
  exists r pl' o', ngx_list_push l x pl o = Ok (r, pl', o') /\ p_max pl' = p_max pl /\
    match r with Some l' => list_ok l' /\ list_items l' = list_items l ++ [x] | None => True end.
Proof.
  intros (Hn & Hl) Hmax. unfold ngx_list_push, list_slot. destruct (Z.eqb_spec (Z.of_nat (length (last_part l))) (l_nalloc l)).
  - destruct (palloc_max pl sizeof_list_part o Hmax) as (r & pl1 & o1 & -> & Hp1). rewrite obind_Ok.
    destruct r; [|by exists None, pl1, o1].
    destruct (palloc_max pl1 (l_nalloc l * l_size l) o1 ltac:(lia)) as (r & pl2 & o2 & -> & Hp2). rewrite obind_Ok.
    destruct r; [|exists None, pl2, o2; split; [done|split; [lia|done]]]. cbn [last_part l_nalloc length].
    destruct (Z.leb_spec (l_nalloc l) (Z.of_nat 0)); [lia|]. do 3 eexists. split; [reflexivity|]. split; [lia|].
    unfold list_ok, list_items. cbn. split; [lia|done].
  - destruct (Z.leb_spec (l_nalloc l) (Z.of_nat (length (last_part l)))); [lia|]. do 3 eexists. split; [reflexivity|]. split; [done|].
    unfold list_ok, list_items. cbn. rewrite length_app. cbn. split; [lia|]. by rewrite app_assoc.
Qed.
End Array.
Arguments ngx_list : clear implicits.
