(* ===== verification/NgxHeaders.v ===== *)
(** * Request headers: nginx/src/http/ngx_http_request.c

    From the lines of a request header to [r->headers_in] and to the decision how
    the body is framed: the table of known headers and its handlers, the choice of
    the server, the loop over the lines and the final checks.  Memory for the
    contents of strings is not modelled: an element of the header list carries
    the texts of its name and value, copied where the code keeps pointers into
    the buffer, which it ends with NULs. *)
From S2P Require Import Prelude.
From S2P Require Export NgxHash NgxArray NgxUri.
From stdpp Require Import gmap.
#[local] Open Scope Z_scope.

Module Headers.
Import Number.

Definition NGX_HTTP_BAD_REQUEST : Z := 400.
Definition NGX_HTTP_NOT_ALLOWED : Z := 405.
Definition NGX_HTTP_INTERNAL_SERVER_ERROR : Z := 500.
Definition NGX_HTTP_NOT_IMPLEMENTED : Z := 501.
Definition NGX_HTTP_VERSION_10 : Z := 1000.
Definition NGX_HTTP_CONNECTION_CLOSE : Z := 1.
Definition NGX_HTTP_CONNECTION_KEEP_ALIVE : Z := 2.

(** [ngx_table_elt_t] *)
Record table_elt := mk_elt { e_hash : Z; e_key : bytes; e_value : bytes; lowcase_key : bytes }.

(** [ngx_http_headers_in_t]: the pointers and the arrays by their offsets in the
    structure, without an entry while NULL. *)
Record headers_in := mk_headers_in {
  headers : ngx_list table_elt; lines : gmap Z table_elt; arrays : gmap Z (ngx_array table_elt);
  server : bytes; content_length_n : Z; keep_alive_n : Z; connection_type : Z; chunked : bool;
  msie : bool; msie6 : bool; opera : bool; gecko : bool; chrome : bool; safari : bool; konqueror : bool }.
#[export] Instance headers_in_settable : Settable headers_in := fun h =>
  mk_headers_in (headers h) (lines h) (arrays h) (server h) (content_length_n h) (keep_alive_n h) (connection_type h)
    (chunked h) (msie h) (msie6 h) (opera h) (gecko h) (chrome h) (safari h) (konqueror h).

Definition host : Z := 56.
Definition connection : Z := 64.
Definition if_modified_since : Z := 72.
Definition if_unmodified_since : Z := 80.
Definition if_match : Z := 88.
Definition if_none_match : Z := 96.
Definition user_agent : Z := 104.
Definition referer : Z := 112.
Definition content_length : Z := 120.
Definition content_type : Z := 128.
Definition range : Z := 136.
Definition if_range : Z := 144.
Definition transfer_encoding : Z := 152.
Definition expect : Z := 160.
Definition upgrade : Z := 168.
Definition accept_encoding : Z := 176.
Definition via : Z := 184.
Definition authorization : Z := 192.
Definition keep_alive : Z := 200.
Definition x_forwarded_for : Z := 208.
Definition cookies : Z := 280.

(** How a request ends early: [ngx_http_finalize_request] or
    [ngx_http_close_request]. *)
Inductive ending := Finalized (code : Z) | Closed (code : Z).

(** ** The known headers *)

Inductive handler := process_host | process_connection | process_unique_header_line | process_user_agent
  | process_header_line | process_multi_header_lines.

(** The table, with the offset of each entry; a build with gzip and
    X-Forwarded-For, without realip, headers and dav. *)
Definition ngx_http_headers_in : list (bytes * Z * handler) :=
  [(bs "Host", host, process_host); (bs "Connection", connection, process_connection);
   (bs "If-Modified-Since", if_modified_since, process_unique_header_line);
   (bs "If-Unmodified-Since", if_unmodified_since, process_unique_header_line);
   (bs "If-Match", if_match, process_unique_header_line); (bs "If-None-Match", if_none_match, process_unique_header_line);
   (bs "User-Agent", user_agent, process_user_agent); (bs "Referer", referer, process_header_line);
   (bs "Content-Length", content_length, process_unique_header_line); (bs "Content-Type", content_type, process_header_line);
   (bs "Range", range, process_header_line); (bs "If-Range", if_range, process_unique_header_line);
   (bs "Transfer-Encoding", transfer_encoding, process_header_line); (bs "Expect", expect, process_unique_header_line);
   (bs "Upgrade", upgrade, process_header_line); (bs "Accept-Encoding", accept_encoding, process_header_line);
   (bs "Via", via, process_header_line); (bs "Authorization", authorization, process_unique_header_line);
   (bs "Keep-Alive", keep_alive, process_header_line); (bs "X-Forwarded-For", x_forwarded_for, process_multi_header_lines);
   (bs "Cookie", cookies, process_multi_header_lines)].

(** The address of entry [i], [sizeof(ngx_http_header_t)] being 32. *)
Definition entry_addr (base : Z) (i : nat) : Z := base + 32 * Z.of_nat i.

(** [ngx_http_init_headers_in_hash]: the keys it hands to [ngx_hash_init]. *)
Definition headers_in_keys (base : Z) : list ngx_hash_key_t :=
  imap (fun i e => mk_hash_key (Some e.1.1) (ngx_hash_key_lc e.1.1) (entry_addr base i)) ngx_http_headers_in.

Definition headers_in_hinit (cacheline h : Z) : ngx_hash_init_t := mk_hash_init (Some h) 512 (ngx_align 64 cacheline).

Fixpoint push_keys {Osm : OSMem} (keys : list ngx_hash_key_t) a (temp_pool : pool) (o : os)
  : out (option (ngx_array ngx_hash_key_t) * pool * os) :=
  match keys with
  | [] => Ok (Some a, temp_pool, o)
  | k :: keys =>
      let! (a, temp_pool, o) := ngx_array_push a k temp_pool o in
      match a with None => Ok (None, temp_pool, o) | Some a => push_keys keys a temp_pool o end
  end.

(** [base] is the address of the table, [h] that of [cmcf->headers_in_hash]. *)
Definition ngx_http_init_headers_in_hash {Osm : OSMem} (cacheline base h : Z) (m : hash_mem) (temp_pool pl : pool) (o : os)
  : out (Z * hash_mem * pool * pool * os) :=
  let! (a, temp_pool, o) := ngx_array_init 0 temp_pool 32 40 o in
  match a with
  | None => Ok (NGX_ERROR, m, temp_pool, pl, o)
  | Some a =>
      let! (a, temp_pool, o) := push_keys (headers_in_keys base) a temp_pool o in
      match a with
      | None => Ok (NGX_ERROR, m, temp_pool, pl, o)
      | Some a =>
          let! x := ngx_hash_init cacheline (headers_in_hinit cacheline h) (items a) m pl o in
          let '(rc, _, m, pl, o) := x in
          if negb (rc =? NGX_OK) then Ok (NGX_ERROR, m, temp_pool, pl, o) else Ok (NGX_OK, m, temp_pool, pl, o)
      end
  end.

(** The entry a value of the hash table points to. *)
Definition entry_at (base v : Z) : out (bytes * Z * handler) :=
  if (v - base) mod 32 =? 0 then
    match ngx_http_headers_in !! Z.to_nat ((v - base) / 32) with Some e => Ok e | None => Undef BadPointer end
  else Undef BadPointer.

Section Request.
Context {Osm : OSMem}.

(** A request while its header is read.  [srv] is the server whose configuration
    applies, [captures] says that [r->captures] is allocated. *)
Record rq := mk_rq { r : request; hin : headers_in; srv : Z; captures : bool; request_length : Z;
  ended : option ending; req_pool : pool; req_mem : os }.
#[export] Instance rq_settable : Settable rq := fun x =>
  mk_rq (r x) (hin x) (srv x) (captures x) (request_length x) (ended x) (req_pool x) (req_mem x).
Implicit Types (x : rq).

Definition finalize (code : Z) x : rq := x <| ended := Some (Finalized code) |>.
Definition close (code : Z) x : rq := x <| ended := Some (Closed code) |>.
Definition set_hin x (h : headers_in) : rq := x <| hin := h |>.

(** ** The server *)

Record http_regex := mk_regex { re_id : Z; re_ncaptures : Z }.
(** [ngx_http_virtual_names_t] *)
Record virtual_names := mk_names { names : ngx_hash_combined; regex : list (http_regex * Z) }.

(** [pcre_exec] of the PCRE library on the compiled expression [re_id]. *)
Context (pcre_exec : Z -> bytes -> Z).
Definition NGX_REGEX_NO_MATCHED : Z := -1.

(** Without the variables that the named captures set. *)
Definition ngx_http_regex_exec (ncaptures : Z) (re : http_regex) (s : bytes) x : out (Z * rq) :=
  let! y := if negb (re_ncaptures re =? 0) && negb (captures x) then
              let! (p, pl, o) := ngx_palloc (req_pool x) (ncaptures * 4) (req_mem x) in
              let x := x <| req_pool := pl |> <| req_mem := o |> in
              match p with None => Ok (false, x) | Some _ => Ok (true, x <| captures := true |>) end
            else Ok (true, x) in
  let '(ok, x) := y in
  if negb ok then Ok (NGX_ERROR, x)
  else
    let rc := pcre_exec (re_id re) s in
    if rc =? NGX_REGEX_NO_MATCHED then Ok (NGX_DECLINED, x)
    else if rc <? 0 then Ok (NGX_ERROR, x)
    else Ok (NGX_OK, x).

Fixpoint regex_loop (ncaptures : Z) (sn : list (http_regex * Z)) (h : bytes) x : out (Z * Z * rq) :=
  match sn with
  | [] => Ok (NGX_DECLINED, 0, x)
  | (re, cscf) :: sn' =>
      let! (n, x) := ngx_http_regex_exec ncaptures re h x in
      if n =? NGX_DECLINED then regex_loop ncaptures sn' h x
      else if n =? NGX_OK then Ok (NGX_OK, cscf, x)
      else Ok (NGX_ERROR, 0, x)
  end.

(** The configuration the request meets: tables in memory, the header table, the
    names of the address it came in by, the flags of each server. *)
Record srv_conf := mk_srv { ignore_invalid_headers : bool; underscores_in_headers : bool }.
Record conf := mk_conf { tables_mem : hash_mem; headers_in_hash : ngx_hash_t; vnames : option virtual_names;
  ncaptures : Z; cscf : Z -> srv_conf }.
Context (cf : conf).

(** The code, and the server when it is [NGX_OK]. *)
Definition ngx_http_find_virtual_server (h : bytes) x : out (Z * Z * rq) :=
  match vnames cf with
  | None => Ok (NGX_DECLINED, 0, x)
  | Some vn =>
      let! s := ngx_hash_find_combined (tables_mem cf) (names vn) (ngx_hash_key h) h in
      if negb (s =? 0) then Ok (NGX_OK, s, x)
      else if negb (length h =? 0)%nat then regex_loop (ncaptures cf) (regex vn) h x
      else Ok (NGX_DECLINED, 0, x)
  end.

(** A build without SSL. *)
Definition ngx_http_set_virtual_server (h : bytes) x : out (Z * rq) :=
  let! y := ngx_http_find_virtual_server h x in
  let '(rc, s, x) := y in
  if rc =? NGX_ERROR then Ok (NGX_ERROR, close NGX_HTTP_INTERNAL_SERVER_ERROR x)
  else if rc =? NGX_DECLINED then Ok (NGX_OK, x)
  else Ok (NGX_OK, x <| srv := s |>).

(** ** The handlers of the header lines *)

(** The NUL behind the value. *)
Definition zstr (e : table_elt) : bytes := e_value e ++ [0].

(** [if ( *ph == NULL) *ph = h] *)
Definition set_first (offset : Z) (h : table_elt) (hi : headers_in) : headers_in :=
  match lines hi !! offset with None => hi <| lines := <[offset := h]> (lines hi) |> | Some _ => hi end.

Definition ngx_http_process_header_line (offset : Z) (h : table_elt) x : out (Z * rq) :=
  Ok (NGX_OK, set_hin x (set_first offset h (hin x))).

Definition ngx_http_process_unique_header_line (offset : Z) (h : table_elt) x : out (Z * rq) :=
  match lines (hin x) !! offset with
  | None => Ok (NGX_OK, set_hin x (set_first offset h (hin x)))
  | Some _ => Ok (NGX_ERROR, finalize NGX_HTTP_BAD_REQUEST x)
  end.

Definition ngx_http_process_host (h : table_elt) x : out (Z * rq) :=
  let x := set_hin x (set_first host h (hin x)) in
  let! y := Host.ngx_http_validate_host (e_value h) false (req_pool x) (req_mem x) in
  let '(rc, name, pl, o) := y in
  let x := x <| req_pool := pl |> <| req_mem := o |> in
  if rc =? NGX_DECLINED then Ok (NGX_ERROR, finalize NGX_HTTP_BAD_REQUEST x)
  else if rc =? NGX_ERROR then Ok (NGX_ERROR, close NGX_HTTP_INTERNAL_SERVER_ERROR x)
  else if negb (length (server (hin x)) =? 0)%nat then Ok (NGX_OK, x)
  else
    let! (rc, x) := ngx_http_set_virtual_server name x in
    if rc =? NGX_ERROR then Ok (NGX_ERROR, x)
    else Ok (NGX_OK, set_hin x ((hin x) <| server := name |>)).

Definition ngx_http_process_connection (h : table_elt) x : out (Z * rq) :=
  let! close := ngx_strcasestrn (zstr h) 0 (bs "close") 4 in
  match close with
  | Some _ => Ok (NGX_OK, set_hin x ((hin x) <| connection_type := NGX_HTTP_CONNECTION_CLOSE |>))
  | None =>
      let! keep := ngx_strcasestrn (zstr h) 0 (bs "keep-alive") 9 in
      match keep with
      | Some _ => Ok (NGX_OK, set_hin x ((hin x) <| connection_type := NGX_HTTP_CONNECTION_KEEP_ALIVE |>))
      | None => Ok (NGX_OK, x)
      end
  end.

(** [ngx_strstrn(user_agent + i, s, len - 1) != NULL] *)
Definition has_word (v : bytes) (i : nat) (s : bytes) : out bool :=
  let! p := ngx_strstrn v i s (length s - 1) in Ok (bool_decide (is_Some p)).

(** The version of Internet Explorer behind [MSIE ] at [p]. *)
Definition msie_version (v : bytes) (p : nat) (hi : headers_in) : out headers_in :=
  let! dot := rd v (p + 6) in
  if dot =? chr "." then
    let! ver := rd v (p + 5) in
    if (ver =? chr "4") || (ver =? chr "5") then Ok (hi <| msie6 := true |>)
    else if ver =? chr "6" then
      let! sv := ngx_strstrn v (p + 8) (bs "SV1") 2 in
      match sv with None => Ok (hi <| msie6 := true |>) | Some _ => Ok hi end
    else Ok hi
  else Ok hi.

Definition ngx_http_process_user_agent (h : table_elt) x : out (Z * rq) :=
  match lines (hin x) !! user_agent with
  | Some _ => Ok (NGX_OK, x)
  | None =>
      let hi := set_first user_agent h (hin x) in
      let v := zstr h in
      let! p := ngx_strstrn v 0 (bs "MSIE ") 4 in
      let! hi := match p with
                 | Some p => if (p + 7 <? length (e_value h))%nat then msie_version v p (hi <| msie := true |>) else Ok hi
                 | None => Ok hi
                 end in
      let! op := has_word v 0 (bs "Opera") in
      let hi := if op : bool then hi <| opera := true |> <| msie := false |> <| msie6 := false |> else hi in
      if negb (msie hi) && negb (opera hi) then
        let! ge := has_word v 0 (bs "Gecko/") in
        if ge : bool then Ok (NGX_OK, set_hin x (hi <| gecko := true |>))
        else
          let! ch := has_word v 0 (bs "Chrome/") in
          if ch : bool then Ok (NGX_OK, set_hin x (hi <| chrome := true |>))
          else
            let! sa := has_word v 0 (bs "Safari/") in
            let! ma := if sa : bool then has_word v 0 (bs "Mac OS X") else Ok false in
            if ma : bool then Ok (NGX_OK, set_hin x (hi <| safari := true |>))
            else
              let! ko := has_word v 0 (bs "Konqueror") in
              if ko : bool then Ok (NGX_OK, set_hin x (hi <| konqueror := true |>)) else Ok (NGX_OK, set_hin x hi)
      else Ok (NGX_OK, set_hin x hi)
  end.

Definition ngx_http_process_multi_header_lines (offset : Z) (h : table_elt) x : out (Z * rq) :=
  let! (a, pl, o) := match arrays (hin x) !! offset with
                     | None => ngx_array_init offset (req_pool x) 1 8 (req_mem x)
                     | Some a => Ok (Some a, req_pool x, req_mem x)
                     end in
  let x := x <| req_pool := pl |> <| req_mem := o |> in
  match a with
  | None => Ok (NGX_ERROR, close NGX_HTTP_INTERNAL_SERVER_ERROR x)
  | Some a =>
      let! (a, pl, o) := ngx_array_push a h (req_pool x) (req_mem x) in
      let x := x <| req_pool := pl |> <| req_mem := o |> in
      match a with
      | None => Ok (NGX_ERROR, close NGX_HTTP_INTERNAL_SERVER_ERROR x)
      | Some a => Ok (NGX_OK, set_hin x ((hin x) <| arrays := <[offset := a]> (arrays (hin x)) |>))
      end
  end.

Definition run_handler (hd : handler) (offset : Z) (h : table_elt) x : out (Z * rq) :=
  match hd with
  | process_host => ngx_http_process_host h x
  | process_connection => ngx_http_process_connection h x
  | process_unique_header_line => ngx_http_process_unique_header_line offset h x
  | process_user_agent => ngx_http_process_user_agent h x
  | process_header_line => ngx_http_process_header_line offset h x
  | process_multi_header_lines => ngx_http_process_multi_header_lines offset h x
  end.

Context (headers_in_addr : Z).

(** [hh = ngx_hash_find(...); if (hh && hh->handler(r, h, hh->offset) != NGX_OK)] *)
Definition dispatch (h : table_elt) x : out (Z * rq) :=
  let! hh := ngx_hash_find (tables_mem cf) (headers_in_hash cf) (e_hash h) (lowcase_key h) in
  if hh =? 0 then Ok (NGX_OK, x)
  else
    let! e := entry_at headers_in_addr hh in
    let '(_, offset, hd) := e in
    run_handler hd offset h x.

(** A header line that is parsed: the element of the list and its handler.
    [None]: the request is closed. *)
Definition add_header (hash : Z) (key v low : bytes) (index : Z) x : out (Z * rq) :=
  let! (l, pl, o) := ngx_list_push (headers (hin x)) (mk_elt hash key v []) (req_pool x) (req_mem x) in
  let x := x <| req_pool := pl |> <| req_mem := o |> in
  match l with
  | None => Ok (NGX_ERROR, close NGX_HTTP_INTERNAL_SERVER_ERROR x)
  | Some l =>
      let! (p, pl, o) := ngx_pnalloc (req_pool x) (blen key) (req_mem x) in
      let x := set_hin (x <| req_pool := pl |> <| req_mem := o |>) ((hin x) <| headers := l |>) in
      match p with
      | None => Ok (NGX_ERROR, close NGX_HTTP_INTERNAL_SERVER_ERROR x)
      | Some _ =>
          let! low := if blen key =? index then Ok (take (length key) low) else ngx_strlow key 0 (length key) in
          let h := mk_elt hash key v low in
          let x := set_hin x ((hin x) <| headers := mk_list (before l) (removelast (last_part l) ++ [h]) (l_size l) (l_nalloc l) |>) in
          dispatch h x
      end
  end.

(** ** The header is complete *)

Definition is_value (e : table_elt) (s : bytes) : out bool :=
  if (length (e_value e) =? length s)%nat then
    let! c := ngx_strncasecmp (zstr e) 0 s 0 (length s) in Ok (c =? 0)
  else Ok false.

Definition ngx_http_process_request_header x : out (Z * rq) :=
  let! (rc, x) := if (length (server (hin x)) =? 0)%nat then ngx_http_set_virtual_server (server (hin x)) x else Ok (NGX_OK, x) in
  if rc =? NGX_ERROR then Ok (NGX_ERROR, x)
  else if bool_decide (lines (hin x) !! host = None) && (NGX_HTTP_VERSION_10 <? http_version (r x)) then
    Ok (NGX_ERROR, finalize NGX_HTTP_BAD_REQUEST x)
  else
    let x := match lines (hin x) !! content_length with
             | Some e => set_hin x ((hin x) <| content_length_n := ngx_atoof (e_value e) |>)
             | None => x
             end in
    if bool_decide (is_Some (lines (hin x) !! content_length)) && (content_length_n (hin x) =? NGX_ERROR) then
      Ok (NGX_ERROR, finalize NGX_HTTP_BAD_REQUEST x)
    else if negb (Z.land (method (r x)) NGX_HTTP_TRACE =? 0) then Ok (NGX_ERROR, finalize NGX_HTTP_NOT_ALLOWED x)
    else
      let! (ok, x) := match lines (hin x) !! transfer_encoding with
                      | None => Ok (true, x)
                      | Some e =>
                          let! c := is_value e (bs "chunked") in
                          if c : bool then
                            Ok (true, set_hin x ((hin x) <| lines := delete content_length (lines (hin x)) |>
                                                          <| content_length_n := -1 |> <| chunked := true |>))
                          else
                            let! i := is_value e (bs "identity") in
                            if i : bool then Ok (true, x) else Ok (false, finalize NGX_HTTP_NOT_IMPLEMENTED x)
                      end in
      if negb ok then Ok (NGX_ERROR, x)
      else
        match (if connection_type (hin x) =? NGX_HTTP_CONNECTION_KEEP_ALIVE then lines (hin x) !! keep_alive else None) with
        | Some e => Ok (NGX_OK, set_hin x ((hin x) <| keep_alive_n := ngx_atotm (e_value e) |>))
        | None => Ok (NGX_OK, x)
        end.

(** ** The loop over the lines *)

(** [More]: the buffer ends in the middle of the header; [Ready]: the request is
    passed to [ngx_http_process_request]; [Stop]: the function returns. *)
Inductive progress := More | Ready | Stop.

(** The texts of a parsed line, whose pointers lie in the buffer. *)
Definition line_texts (buf : bytes) (q : request) : out (bytes * bytes * bytes) :=
  let! ks := deref (header_name_start q) in
  let! ke := deref (header_name_end q) in
  let! vs := deref (header_start q) in
  let! ve := deref (header_end q) in
  if (0 <=? ks) && (ks <=? ke) && (ke <? blen buf) && (0 <=? vs) && (vs <=? ve) && (ve <? blen buf) then
    Ok (slice buf ks ke, slice buf vs ve, <[Z.to_nat ve := 0]> (<[Z.to_nat ke := 0]> buf))
  else Undef OutOfBounds.

(** [for ( ;; )] of [ngx_http_process_request_headers] on what has been read: the
    buffer, [pos] and the request. *)
Fixpoint headers_loop (fuel : nat) (buf : bytes) (pos : Z) x : out (progress * bytes * Z * rq) :=
  match fuel with
  | O => NoFuel
  | S f =>
      let sc := cscf cf (srv x) in
      let! y := HeaderLine.ngx_http_parse_header_line (underscores_in_headers sc) buf pos (r x) in
      let '(rc, pos, q) := y in
      let x := x <| r := q |> in
      if rc =? NGX_OK then
        let! ks := deref (header_name_start q) in
        let x := x <| request_length := request_length x + (pos - ks) |> in
        if invalid_header q && ignore_invalid_headers sc then headers_loop f buf pos x
        else
          let! t := line_texts buf q in
          let '(key, v, buf) := t in
          let! (rc, x) := add_header (header_hash q) key v (lowcase_header q) (lowcase_index q) x in
          if negb (rc =? NGX_OK) then Ok (Stop, buf, pos, x) else headers_loop f buf pos x
      else if rc =? NGX_HTTP_PARSE_HEADER_DONE then
        let! ks := deref (header_name_start q) in
        let x := x <| request_length := request_length x + (pos - ks) |> in
        let! (rc, x) := ngx_http_process_request_header x in
        if negb (rc =? NGX_OK) then Ok (Stop, buf, pos, x) else Ok (Ready, buf, pos, x)
      else if rc =? NGX_AGAIN then Ok (More, buf, pos, x)
      else Ok (Stop, buf, pos, finalize NGX_HTTP_BAD_REQUEST x)
  end.

(** Each line takes a byte of the buffer. *)
Definition ngx_http_process_request_headers (buf : bytes) (pos : Z) x : out (progress * bytes * Z * rq) :=
  headers_loop (S (length buf)) buf pos x.
End Request.
End Headers.
