(* ===== verification/NgxHeadersProps.v ===== *)
(** * Properties of the request headers

    A header of well formed lines is read back field by field: the loop of
    [ngx_http_process_request_headers] is a fold of the handlers over the fields
    it was printed from.  The final checks leave one way to find the end of the
    body. *)
From stdpp Require Import gmap.
From S2P Require Import Prelude NgxHeaders NgxHashProps NgxHeaderLine.
#[local] Open Scope Z_scope.
Import HeaderLine.

(** ** One line *)

(** Characters that [lowcase] keeps: letters, digits and the hyphen. *)
Definition token (c : Z) : Prop := is_byte c /\ nth (Z.to_nat c) lowcase 0 <> 0.
#[export] Instance token_dec c : Decision (token c).
Proof. unfold token, is_byte. apply _. Defined.

Definition field_name (name : bytes) : Prop := name <> [] /\ Forall token name.
Definition field_value (v : bytes) : Prop :=
  Forall (fun c => is_byte c /\ c <> CR /\ c <> LF /\ c <> 0) v /\ head v <> Some (chr " ") /\ last v <> Some (chr " ").

Record field := mk_field { f_name : bytes; f_spaces : nat; f_value : bytes }.
Definition field_ok (f : field) : Prop := field_name (f_name f) /\ field_value (f_value f).
#[export] Instance field_ok_dec f : Decision (field_ok f).
Proof. unfold field_ok, field_name, field_value, is_byte. apply _. Defined.
Definition print_field (f : field) : bytes :=
  f_name f ++ chr ":" :: replicate (f_spaces f) (chr " ") ++ f_value f ++ [CR; LF].

Lemma lowcase_token c : token c -> nth (Z.to_nat c) lowcase 0 = lower c.
Proof.
  intros [Hb Hn].
  assert (H : forallb (fun n => (nth n lowcase 0 =? 0) || (nth n lowcase 0 =? lower (Z.of_nat n))) (seq 0 256) = true) by (vm_compute; reflexivity).
  rewrite forallb_forall in H. unfold is_byte in Hb. specialize (H (Z.to_nat c) ltac:(apply in_seq; lia)).
  rewrite Z2Nat.id in H by lia. apply orb_true_iff in H as [H%Z.eqb_eq|H%Z.eqb_eq]; done.
Qed.

Lemma token_not c : token c -> c <> 58 /\ c <> 13 /\ c <> 10 /\ c <> 95 /\ c <> 0 /\ lower c <> 0.
Proof.
  intros Hc. pose proof (lowcase_token c Hc) as Hl. destruct Hc as [_ Hn]. split_and!; [..|by rewrite <- Hl];
    intros ->; by apply Hn.
Qed.

(** The name behind its first character: [k] characters are stored. *)
Definition named (r : request) (h k : Z) (L : bytes) : locals := mk_locals sw_name h k (r <| lowcase_header := L |>).

Lemma name_step au buf p c r h k L : token c -> 0 <= k < 32 ->
  step au buf p c (named r h k L) = Ok (Next (named r (ngx_hash h (lower c)) ((k + 1) mod 32) (<[Z.to_nat k := lower c]> L))).
Proof.
  intros Hc Hk. unfold step, named. cbn [st]. unfold on_name. rewrite (lowcase_token c Hc). destruct (token_not c Hc) as (_ & _ & _ & _ & _ & Hl).
  rewrite (proj2 (Z.eqb_neq _ _) Hl). cbn [negb]. unfold add_name_char. cbn [HeaderLine.i].
  unfold NGX_HTTP_LC_HEADER_LEN. destruct (Z.leb_spec 0 k); [|lia]. destruct (Z.ltb_spec k 32); [|lia]. cbn [andb obind]. change (32 - 1) with (Z.ones 5). cbn. rewrite Z.land_ones by lia. done.
Qed.

Lemma scan_name au buf s rest r : Forall token s -> forall p h k L, 0 <= k < 32 -> length L = 32%nat ->
  exists L', scan (step au buf) (s ++ rest) p (named r h k L) =
    scan (step au buf) rest (p + blen s) (named r (fold_left ngx_hash (lowers s) h) ((k + blen s) mod 32) L') /\
    length L' = 32%nat /\ (k + blen s < 32 -> take (Z.to_nat (k + blen s)) L' = take (Z.to_nat k) L ++ lowers s).
Proof.
  induction 1 as [|c s Hc Hs IH]; intros p h k L Hk HL; unfold blen; cbn [length app].
  - exists L. rewrite Z.add_0_r, Z.mod_small, Z.add_0_r by lia. split; [done|]. split; [done|]. intros _. by rewrite app_nil_r.
  - rewrite (scan_next _ _ _ _ _ _ (name_step au buf p c r h k L Hc Hk)).
    destruct (IH (p + 1) (ngx_hash h (lower c)) ((k + 1) mod 32) (<[Z.to_nat k := lower c]> L)) as (L' & -> & HL' & Htake);
      [by apply Z.mod_pos_bound|by rewrite length_insert|].
    unfold blen in *. exists L'. split; [|split; [done|]].
    + rewrite Zplus_mod_idemp_l. replace (p + Z.of_nat (S (length s))) with (p + 1 + Z.of_nat (length s)) by lia.
      by replace (k + Z.of_nat (S (length s))) with (k + 1 + Z.of_nat (length s)) by lia.
    + intros Hlt. rewrite Z.mod_small in Htake by lia. unfold lowers. cbn [fmap list_fmap].
      replace (k + Z.of_nat (S (length s))) with (k + 1 + Z.of_nat (length s)) by lia. rewrite Htake by lia.
      replace (Z.to_nat (k + 1)) with (S (Z.to_nat k)) by lia.
      rewrite (take_S_r _ _ (lower c)) by (apply list_lookup_insert_eq; lia). rewrite take_insert_ge by lia. by rewrite <- app_assoc.
Qed.

(** Values: the last character that is not a space decides where they end. *)
Lemma spaces_before au buf n rest r h k : forall p,
  scan (step au buf) (replicate n 32 ++ rest) p (mk_locals sw_space_before_value h k r) =
  scan (step au buf) rest (p + Z.of_nat n) (mk_locals sw_space_before_value h k r).
Proof.
  induction n as [|n IH]; intros p; [by rewrite Z.add_0_r|]. cbn [replicate app].
  rewrite (scan_next _ _ _ _ _ (mk_locals sw_space_before_value h k r)) by done. rewrite IH. f_equal. lia.
Qed.

Lemma scan_value au buf s rest r h k : Forall (fun c => is_byte c /\ c <> CR /\ c <> LF /\ c <> 0) s ->
  forall p st0 he, (st0 = sw_value \/ st0 = sw_space_after_value /\ s <> []) -> last s <> Some 32 ->
  exists he', scan (step au buf) (s ++ rest) p (mk_locals st0 h k (r <| header_end := he |>)) =
    scan (step au buf) rest (p + blen s) (mk_locals sw_value h k (r <| header_end := he' |>)).
Proof.
  induction 1 as [|c s (_ & H1 & H2 & H3) Hs IH]; intros p st0 he Hst Hl; unfold blen in *; cbn [length app].
  - destruct Hst as [->|[_ ?]]; [|done]. exists he. by rewrite Z.add_0_r.
  - assert (Hlast : s <> [] -> last s <> Some 32) by (destruct s; [done|]; intros _; exact Hl).
    apply Z.eqb_neq in H1, H2, H3.
    destruct (Z.eqb_spec c 32) as [->|Hc].
    + assert (s <> []) by (intros ->; by apply Hl).
      assert (Hstep : exists he1, step au buf p 32 (mk_locals st0 h k (r <| header_end := he |>)) =
        Ok (Next (mk_locals sw_space_after_value h k (r <| header_end := he1 |>)))).
      { destruct Hst as [->|[-> _]]; eexists; reflexivity. }
      destruct Hstep as [he1 Hstep]. rewrite (scan_next _ _ _ _ _ _ Hstep).
      destruct (IH (p + 1) sw_space_after_value he1) as [he' ->]; [by right|by apply Hlast|]. exists he'. f_equal. lia.
    + assert (Hstep : step au buf p c (mk_locals st0 h k (r <| header_end := he |>)) = Ok (Next (mk_locals sw_value h k (r <| header_end := he |>)))).
      { apply Z.eqb_neq in Hc. destruct Hst as [->|[-> _]]; cbn [step st]; unfold on_value, on_space_after_value; by rewrite Hc, H1, H2, H3. }
      rewrite (scan_next _ _ _ _ _ _ Hstep). destruct s as [|c' s].
      * exists he. cbn. f_equal. 
      * destruct (IH (p + 1) sw_value he) as [he' ->]; [by left|by apply Hlast|]. exists he'. f_equal. lia.
Qed.

(** What the parser has stored after the line of [f] that starts at [pos]. *)
Definition value_at (pos : Z) (f : field) : Z := pos + blen (f_name f) + 1 + Z.of_nat (f_spaces f).
Definition after_line (q : request) (pos : Z) (f : field) (L : bytes) : request :=
  q <| header_name_start := Some pos |> <| invalid_header := false |> <| lowcase_header := L |>
    <| header_name_end := Some (pos + blen (f_name f)) |>
    <| header_start := Some (value_at pos f) |> <| header_end := Some (value_at pos f + blen (f_value f)) |>
    <| state := 0 |> <| header_hash := ngx_hash_key (lowers (f_name f)) |> <| lowcase_index := blen (f_name f) mod 32 |>.

Lemma print_length f : blen (print_field f) = blen (f_name f) + 1 + Z.of_nat (f_spaces f) + blen (f_value f) + 2.
Proof. unfold print_field, blen. rewrite length_app. cbn [length]. rewrite !length_app, length_replicate. cbn [length]. lia. Qed.

Lemma scan_field au buf f rest pos q : field_ok f -> state q = 0 -> length (lowcase_header q) = 32%nat -> forall h k,
  exists L, length L = 32%nat /\
    (blen (f_name f) < 32 -> take (length (f_name f)) L = lowers (f_name f)) /\
    exists x, scan (step au buf) (print_field f ++ rest) pos (mk_locals sw_start h k q) =
      Ok (pos + blen (print_field f) - 1, Some done, x) /\ store sw_start x = after_line q pos f L.
Proof.
  intros [[Hne Hname] (Hv & Hhead & Hlast)] Hst HL h k. rewrite print_length. unfold print_field, after_line, value_at. destruct f as [name n v]. cbn [f_name f_spaces f_value] in *.
  destruct name as [|c s]; [done|]. apply Forall_cons in Hname as [Hc Hs]. cbn [app].
  destruct (token_not c Hc) as (_ & H13 & H10 & _ & _ & Hl).
  assert (Hstart : step au buf pos c (mk_locals sw_start h k q) = Ok (Next (named (q <| header_name_start := Some pos |> <| invalid_header := false |>)
    (ngx_hash 0 (lower c)) 1 (<[0%nat := lower c]> (lowcase_header q))))).
  { cbn [step st]. unfold on_start. cbn [req]. rewrite (proj2 (Z.eqb_neq c CR) H13), (proj2 (Z.eqb_neq c LF) H10), (lowcase_token c Hc).
    by rewrite (proj2 (Z.eqb_neq _ _) Hl). }
  rewrite (scan_next _ _ _ _ _ _ Hstart). rewrite <- app_assoc.
  set (q1 := q <| header_name_start := Some pos |> <| invalid_header := false |>).
  destruct (scan_name au buf s ((58 :: replicate n 32 ++ v ++ [CR; LF]) ++ rest) q1 Hs (pos + 1) (ngx_hash 0 (lower c)) 1 (<[0%nat := lower c]> (lowcase_header q)))
    as (L & -> & HL' & Htake); [lia|by rewrite length_insert|].
  exists L. split; [done|]. split.
  { intros Hlt. unfold blen in *. cbn [length] in *. replace (Z.to_nat (1 + Z.of_nat (length s))) with (S (length s)) in Htake by lia.
    rewrite Htake by lia. by destruct (lowcase_header q). }
  cbn [app]. set (p1 := pos + 1 + blen s). set (hash1 := fold_left ngx_hash (lowers s) (ngx_hash 0 (lower c))).
  set (q2 := q1 <| lowcase_header := L |> <| header_name_end := Some p1 |>). set (k1 := (1 + blen s) mod 32).
  assert (Hcolon : step au buf p1 58 (named q1 hash1 k1 L) = Ok (Next (mk_locals sw_space_before_value hash1 k1 q2))) by done.
  rewrite (scan_next _ _ _ _ _ _ Hcolon). rewrite <- !app_assoc, spaces_before.
  set (p2 := p1 + 1 + Z.of_nat n). cbn [app].
  assert (Hfinal : forall p3 x, st x = sw_almost_done -> scan (step au buf) (LF :: rest) p3 x = Ok (p3, Some done, x)).
  { intros p3 x Hx. cbn [scan]. unfold step. rewrite Hx. done. }
  assert (Hp1 : p1 = pos + blen (c :: s)) by (unfold p1, blen; cbn [length]; lia).
  assert (Hk1 : k1 = blen (c :: s) mod 32) by (unfold k1, blen; cbn [length]; f_equal; lia).
  assert (Hh1 : hash1 = ngx_hash_key (lowers (c :: s))) by done.
  rewrite <- Hh1, <- Hk1, <- Hp1. fold p2.
  destruct v as [|d v].
  - cbn [app]. assert (Hcr : step au buf p2 CR (mk_locals sw_space_before_value hash1 k1 q2) =
      Ok (Next (mk_locals sw_almost_done hash1 k1 (q2 <| header_start := Some p2 |> <| header_end := Some p2 |>)))) by done.
    rewrite (scan_next _ _ _ _ _ _ Hcr), Hfinal by done. eexists. split; [do 3 f_equal; unfold p2, blen in *; cbn [length]; lia|].
    change (blen []) with 0. rewrite Z.add_0_r. done.
  - apply Forall_cons in Hv as [(Hb & Hd1 & Hd2 & Hd3) Hv]. assert (Hd : d <> 32) by (intros ->; by apply Hhead). cbn [app].
    assert (Hfirst : step au buf p2 d (mk_locals sw_space_before_value hash1 k1 q2) =
      Ok (Next (mk_locals sw_value hash1 k1 ((q2 <| header_start := Some p2 |>) <| header_end := header_end q |>)))).
    { cbn [step st]. unfold on_space_before_value. apply Z.eqb_neq in Hd, Hd1, Hd2, Hd3. by rewrite Hd, Hd1, Hd2, Hd3. }
    rewrite (scan_next _ _ _ _ _ _ Hfirst).
    assert (Hl' : last v <> Some 32) by (destruct v; [done|exact Hlast]).
    destruct (scan_value au buf v (CR :: LF :: rest) (q2 <| header_start := Some p2 |>) hash1 k1 Hv (p2 + 1) sw_value (header_end q) ltac:(by left) Hl') as [he ->].
    set (p3 := p2 + 1 + blen v).
    assert (Hcr : step au buf p3 CR (mk_locals sw_value hash1 k1 ((q2 <| header_start := Some p2 |>) <| header_end := he |>)) =
      Ok (Next (mk_locals sw_almost_done hash1 k1 ((q2 <| header_start := Some p2 |>) <| header_end := Some p3 |>)))) by done.
    rewrite (scan_next _ _ _ _ _ _ Hcr), Hfinal by done. eexists. split; [do 3 f_equal; unfold p3, p2, blen in *; cbn [length]; lia|].
    replace (p2 + blen (d :: v)) with p3 by (unfold p3, blen; cbn [length]; lia). done.
Qed.

(** A line that the buffer holds from [pos] on, and the empty line. *)
Lemma parse_field au buf f rest pos q : field_ok f -> state q = 0 -> length (lowcase_header q) = 32%nat ->
  drop (Z.to_nat pos) buf = print_field f ++ rest ->
  exists L, length L = 32%nat /\ (blen (f_name f) < 32 -> take (length (f_name f)) L = lowers (f_name f)) /\
    ngx_http_parse_header_line au buf pos q = Ok (NGX_OK, pos + blen (print_field f), after_line q pos f L).
Proof.
  intros Hf Hst HL Hbuf.
  destruct (scan_field au buf f rest pos q Hf Hst HL (header_hash q) (lowcase_index q)) as (L & HL' & Htake & x & Hscan & Hx).
  exists L. split; [done|]. split; [done|]. unfold ngx_http_parse_header_line. rewrite Hst, Hbuf.
  change (load 0) with (Ok sw_start : out sw). cbn [obind]. rewrite Hscan. cbn [obind]. rewrite Hx. do 3 f_equal. lia.
Qed.

Definition after_header (q : request) (pos : Z) : request :=
  q <| header_name_start := Some pos |> <| invalid_header := false |> <| header_end := Some pos |> <| state := 0 |>.

Lemma parse_end au buf rest pos q : state q = 0 -> drop (Z.to_nat pos) buf = CR :: LF :: rest ->
  ngx_http_parse_header_line au buf pos q = Ok (NGX_HTTP_PARSE_HEADER_DONE, pos + 2, after_header q pos).
Proof.
  intros Hst Hbuf. unfold ngx_http_parse_header_line. rewrite Hst, Hbuf. change (load 0) with (Ok sw_start : out sw). cbn [obind scan].
  unfold step at 1. cbn [st on_start]. unfold on_start. cbn [req]. change (CR =? CR) with true. cbn iota. cbn [obind scan].
  unfold step. cbn [st]. cbn. do 3 f_equal. lia.
Qed.

Import Headers.

Section Fields.
Context {Osm : OSMem} (pcre_exec : Z -> bytes -> Z) (cf : conf) (base : Z).
Implicit Types (x y : rq) (fs : list field).

(** The table of known headers as the configuration phase builds it. *)
Definition table_ok : Prop :=
  0 < base /\ forall nm, ngx_hash_find (tables_mem cf) (headers_in_hash cf) (ngx_hash_key nm) nm = Ok (scan_names nm (headers_in_keys base)).

(** The entry of a lower case name. *)
Fixpoint known (nm : bytes) (l : list (bytes * Z * handler)) : option (Z * handler) :=
  match l with
  | [] => None
  | (n, offset, hd) :: l' => if bool_decide (lowers n = nm) then Some (offset, hd) else known nm l'
  end.

Lemma entry_known nm : 0 < base ->
  match known nm ngx_http_headers_in with
  | Some (offset, hd) => exists n, scan_names nm (headers_in_keys base) <> 0 /\
      entry_at base (scan_names nm (headers_in_keys base)) = Ok (n, offset, hd)
  | None => scan_names nm (headers_in_keys base) = 0
  end.
Proof.
  intros Hb. unfold headers_in_keys.
  assert (H : forall l k, drop k ngx_http_headers_in = l ->
    match known nm l with
    | Some (offset, hd) => exists n i, scan_names nm (imap (fun i e => mk_hash_key (Some e.1.1) (ngx_hash_key_lc e.1.1) (entry_addr base (k + i))) l) = entry_addr base i /\
        ngx_http_headers_in !! i = Some (n, offset, hd)
    | None => scan_names nm (imap (fun i e => mk_hash_key (Some e.1.1) (ngx_hash_key_lc e.1.1) (entry_addr base (k + i))) l) = 0
    end).
  { induction l as [|[[n o] hd] l IH]; intros k Hk; [done|]. cbn [known imap scan_names key key_value fst snd].
    rewrite Nat.add_0_r. case_bool_decide.
    - exists n, k. split; [done|]. rewrite <- (Nat.add_0_r k), <- lookup_drop, Hk. done.
    - specialize (IH (S k)). rewrite <- (Nat.add_1_r k), <- drop_drop, Hk in IH. specialize (IH eq_refl).
      erewrite imap_ext; [exact IH|]. intros i e _. cbn. do 2 f_equal. lia. }
  specialize (H ngx_http_headers_in 0%nat eq_refl). cbn [Nat.add] in H.
  destruct (known nm ngx_http_headers_in) as [[o hd]|]; [|exact H]. destruct H as (n & i & -> & Hi). exists n. unfold entry_addr, entry_at.
  split; [lia|]. replace (base + 32 * Z.of_nat i - base) with (Z.of_nat i * 32) by lia. rewrite Z.mod_mul, Z.div_mul by lia.
  cbn [Z.eqb]. by rewrite Nat2Z.id, Hi.
Qed.

Definition dispatch_known (h : table_elt) x : out (Z * rq) :=
  match known (lowcase_key h) ngx_http_headers_in with
  | Some (offset, hd) => run_handler pcre_exec cf hd offset h x
  | None => Ok (NGX_OK, x)
  end.

Lemma dispatch_is_known h x : table_ok -> e_hash h = ngx_hash_key (lowcase_key h) ->
  dispatch pcre_exec cf base h x = dispatch_known h x.
Proof.
  intros [Hb Htab] Hh. unfold dispatch, dispatch_known. rewrite Hh, Htab, obind_Ok. pose proof (entry_known (lowcase_key h) Hb) as H.
  destruct (known _ _) as [[o hd]|].
  - destruct H as (n & H0 & E). rewrite (proj2 (Z.eqb_neq _ _) H0), E. done.
  - by rewrite H.
Qed.

(** What a field does to the request: the list of headers, then its handler. *)
Definition elt_of_field (f : field) : table_elt :=
  mk_elt (ngx_hash_key (lowers (f_name f))) (f_name f) (f_value f) (lowers (f_name f)).

Definition add_field (f : field) x : out (Z * rq) :=
  let h := elt_of_field f in
  let! (l, pl, o) := ngx_list_push (headers (hin x)) (mk_elt (e_hash h) (e_key h) (e_value h) []) (req_pool x) (req_mem x) in
  let x := x <| req_pool := pl |> <| req_mem := o |> in
  match l with
  | None => Ok (NGX_ERROR, close NGX_HTTP_INTERNAL_SERVER_ERROR x)
  | Some l =>
      let! (p, pl, o) := ngx_pnalloc (req_pool x) (blen (f_name f)) (req_mem x) in
      let x := set_hin (x <| req_pool := pl |> <| req_mem := o |>) ((hin x) <| headers := l |>) in
      match p with
      | None => Ok (NGX_ERROR, close NGX_HTTP_INTERNAL_SERVER_ERROR x)
      | Some _ =>
          dispatch_known h (set_hin x ((hin x) <| headers := mk_list (before l) (removelast (last_part l) ++ [h]) (l_size l) (l_nalloc l) |>))
      end
  end.

Lemma add_header_field f L x : table_ok -> length L = 32%nat ->
  (blen (f_name f) < 32 -> take (length (f_name f)) L = lowers (f_name f)) ->
  add_header pcre_exec cf base (ngx_hash_key (lowers (f_name f))) (f_name f) (f_value f) L (blen (f_name f) mod 32) x = add_field f x.
Proof.
  intros Ht HL Htake. unfold add_header, add_field. cbn [e_hash e_key e_value elt_of_field].
  destruct (ngx_list_push _ _ _ _) as [[[[l|] pl] o]| |]; cbn [obind]; try done.
  destruct (ngx_pnalloc _ _ _) as [[[[p|] pl1] o1]| |]; cbn [obind]; try done.
  replace (if blen (f_name f) =? blen (f_name f) mod 32 then _ else _) with (Ok (lowers (f_name f))).
  - rewrite obind_Ok. by apply dispatch_is_known.
  - destruct (Z.eqb_spec (blen (f_name f)) (blen (f_name f) mod 32)) as [E|E].
    + rewrite Htake; [done|]. rewrite E. by apply Z.mod_pos_bound.
    + by rewrite Host.strlow_spec, drop_0, firstn_all by (cbn; lia).
Qed.

Fixpoint run_fields fs x : out (Z * rq) :=
  match fs with
  | [] => Ok (NGX_OK, x)
  | f :: fs' =>
      let! (rc, x) := add_field f (x <| request_length := request_length x + blen (print_field f) |>) in
      if negb (rc =? NGX_OK) then Ok (rc, x) else run_fields fs' x
  end.

(** *** The handlers leave the parser alone *)

Definition with_r (q : request) (y : Z * rq) : Z * rq := (y.1, y.2 <| r := q |>).

(** Both sides branch on the same data. *)
Local Ltac innermost t :=
  lazymatch t with
  | context [match ?y with _ => _ end] => innermost y
  | _ => destruct t
  end.
Local Ltac same_branches :=
  unfold obind, omap; cbn;
  repeat (first [ done | match goal with |- context [match ?y with _ => _ end] => innermost y end ]; cbn).

Lemma regex_exec_r q n re s x : ngx_http_regex_exec pcre_exec n re s (x <| r := q |>) = omap (with_r q) (ngx_http_regex_exec pcre_exec n re s x).
Proof. destruct x. unfold ngx_http_regex_exec. same_branches. Qed.

Lemma regex_loop_r q n sn h : forall x, regex_loop pcre_exec n sn h (x <| r := q |>) =
  omap (fun y : Z * Z * rq => (y.1, y.2 <| r := q |>)) (regex_loop pcre_exec n sn h x).
Proof.
  induction sn as [|[re c] sn IH]; intros x; [done|]. cbn [regex_loop]. rewrite regex_exec_r.
  destruct (ngx_http_regex_exec pcre_exec n re h x) as [[m y]| |]; cbn; try done.
  destruct (m =? NGX_DECLINED); [apply IH|]. by destruct (m =? NGX_OK).
Qed.

Lemma set_server_r q h x : ngx_http_set_virtual_server pcre_exec cf h (x <| r := q |>) = omap (with_r q) (ngx_http_set_virtual_server pcre_exec cf h x).
Proof.
  unfold ngx_http_set_virtual_server.
  assert (E : ngx_http_find_virtual_server pcre_exec cf h (x <| r := q |>) =
    omap (fun y : Z * Z * rq => (y.1, y.2 <| r := q |>)) (ngx_http_find_virtual_server pcre_exec cf h x)).
  { unfold ngx_http_find_virtual_server. destruct (vnames cf) as [vn|]; [|done].
    destruct (ngx_hash_find_combined _ _ _ _) as [s| |]; cbn; try done. destruct (negb (s =? 0)); [done|].
    destruct (negb (length h =? 0)%nat); [|done]. apply regex_loop_r. }
  rewrite E. destruct (ngx_http_find_virtual_server pcre_exec cf h x) as [[[rc s] y]| |]; cbn; try done.
  destruct (rc =? NGX_ERROR); [done|]. by destruct (rc =? NGX_DECLINED).
Qed.

Lemma process_host_r h q x : ngx_http_process_host pcre_exec cf h (x <| r := q |>) = omap (with_r q) (ngx_http_process_host pcre_exec cf h x).
Proof.
  unfold ngx_http_process_host, set_hin, update, put. destruct x as [q0 hi sv cp rl en pl o]. cbn.
  destruct (Host.ngx_http_validate_host _ _ _ _) as [[[[rc nm] pl1] o1]| |]; cbn; try done.
  destruct (rc =? NGX_DECLINED); [done|]. destruct (rc =? NGX_ERROR); [done|]. destruct (negb _); [done|].
  set (x1 := mk_rq q0 (set_first host h hi) sv cp rl en pl1 o1).
  pose proof (set_server_r q nm x1) as E. unfold x1, update, put in E. cbn in E. rewrite E. fold x1.
  destruct (ngx_http_set_virtual_server pcre_exec cf nm x1) as [[m y]| |]; cbn; try done. by destruct (m =? NGX_ERROR).
Qed.

Lemma handler_r hd offset h q x : run_handler pcre_exec cf hd offset h (x <| r := q |>) = omap (with_r q) (run_handler pcre_exec cf hd offset h x).
Proof.
  destruct hd; cbn [run_handler]; [apply process_host_r| | | | |]; destruct x as [q0 hi sv cp rl en pl o].
  - unfold ngx_http_process_connection. same_branches.
  - unfold ngx_http_process_unique_header_line. same_branches.
  - unfold ngx_http_process_user_agent. same_branches.
  - done.
  - unfold ngx_http_process_multi_header_lines. same_branches.
Qed.

Lemma dispatch_known_r h q x : dispatch_known h (x <| r := q |>) = omap (with_r q) (dispatch_known h x).
Proof. unfold dispatch_known. destruct (known _ _) as [[o hd]|]; [apply handler_r|done]. Qed.

(** The setters of different fields commute. *)
Lemma pool_r q pl o x : x <| r := q |> <| req_pool := pl |> <| req_mem := o |> = x <| req_pool := pl |> <| req_mem := o |> <| r := q |>.
Proof. done. Qed.
Lemma hin_r q hi x : set_hin (x <| r := q |>) hi = (set_hin x hi) <| r := q |>.
Proof. done. Qed.
Lemma close_r q c x : close c (x <| r := q |>) = (close c x) <| r := q |>.
Proof. done. Qed.
Lemma finalize_r q c x : finalize c (x <| r := q |>) = (finalize c x) <| r := q |>.
Proof. done. Qed.

Lemma add_field_r f q x : add_field f (x <| r := q |>) = omap (with_r q) (add_field f x).
Proof.
  unfold add_field. change (ngx_list_push (headers (hin (x <| r := q |>))) ?e (req_pool (x <| r := q |>)) (req_mem (x <| r := q |>)))
    with (ngx_list_push (headers (hin x)) e (req_pool x) (req_mem x)).
  destruct (ngx_list_push _ _ _ _) as [[[[l|] pl1] o1]| |]; cbn [obind]; [|by rewrite pool_r, close_r|done|done].
  rewrite pool_r. set (x1 := x <| req_pool := pl1 |> <| req_mem := o1 |>). clearbody x1.
  change (ngx_pnalloc (req_pool (x1 <| r := q |>)) ?n (req_mem (x1 <| r := q |>))) with (ngx_pnalloc (req_pool x1) n (req_mem x1)).
  destruct (ngx_pnalloc _ _ _) as [[[[p|] pl2] o2]| |]; cbn [obind]; [| |done|done].
  - rewrite pool_r. set (x2 := x1 <| req_pool := pl2 |> <| req_mem := o2 |>). clearbody x2.
    apply (dispatch_known_r (elt_of_field f) q (set_hin (set_hin x2 _) _)).
  - by rewrite pool_r, hin_r, close_r.
Qed.

Lemma run_fields_r fs q : forall x, run_fields fs (x <| r := q |>) = omap (with_r q) (run_fields fs x).
Proof.
  induction fs as [|f fs IH]; intros x; [done|]. cbn [run_fields].
  change (x <| r := q |> <| request_length := _ |>) with ((x <| request_length := request_length x + blen (print_field f) |>) <| r := q |>).
  rewrite add_field_r. destruct (add_field f _) as [[rc y]| |]; cbn; try done. destruct (negb (rc =? NGX_OK)); [done|]. apply IH.
Qed.

(** *** The loop reads the fields *)

Lemma after_line_same q pos f L : http_version (after_line q pos f L) = http_version q /\ method (after_line q pos f L) = method q.
Proof. done. Qed.

Lemma set_server_keeps h x rc y : ngx_http_set_virtual_server pcre_exec cf h x = Ok (rc, y) -> r y = r x.
Proof.
  intros E. pose proof (set_server_r (r x) h x) as H. replace (x <| r := r x |>) with x in H by by destruct x.
  rewrite E in H. injection H as Hy. by rewrite Hy.
Qed.

Lemma process_header_r q x : http_version q = http_version (r x) -> method q = method (r x) ->
  ngx_http_process_request_header pcre_exec cf (x <| r := q |>) = omap (with_r q) (ngx_http_process_request_header pcre_exec cf x).
Proof.
  intros Hv Hm. unfold ngx_http_process_request_header.
  assert (Hs : (if (length (server (hin (x <| r := q |>))) =? 0)%nat
      then ngx_http_set_virtual_server pcre_exec cf (server (hin (x <| r := q |>))) (x <| r := q |>) else Ok (NGX_OK, x <| r := q |>)) =
    omap (with_r q) (if (length (server (hin x)) =? 0)%nat then ngx_http_set_virtual_server pcre_exec cf (server (hin x)) x else Ok (NGX_OK, x))).
  { change (hin (x <| r := q |>)) with (hin x). case_match; [by rewrite set_server_r|done]. }
  rewrite Hs. clear Hs.
  destruct (if (length (server (hin x)) =? 0)%nat then _ else _) as [[rc y]| |] eqn:E; [|done|done].
  assert (Hr : r y = r x) by (case_match; [by eapply set_server_keeps|by simplify_eq]). clear E.
  rewrite <- Hr in Hv, Hm. cbn [omap obind with_r fst snd].
  destruct (rc =? NGX_ERROR); [done|]. change (hin (y <| r := q |>)) with (hin y). change (r (y <| r := q |>)) with q. rewrite Hv.
  destruct (_ && (NGX_HTTP_VERSION_10 <? http_version (r y))); [done|].
  set (z := match lines (hin y) !! content_length with Some e => set_hin y ((hin y) <| content_length_n := Number.ngx_atoof (e_value e) |>) | None => y end).
  replace (match lines (hin y) !! content_length with Some e => set_hin (y <| r := q |>) _ | None => y <| r := q |> end) with (z <| r := q |>)
    by (unfold z; by destruct (lines (hin y) !! content_length)).
  replace (method (r z)) with (method q) by (unfold z; by destruct (lines (hin y) !! content_length)).
  clearbody z. change (hin (z <| r := q |>)) with (hin z). change (r (z <| r := q |>)) with q.
  destruct (_ && (content_length_n (hin z) =? NGX_ERROR)); [done|]. destruct (negb (Z.land (method q) NGX_HTTP_TRACE =? 0)); [done|].
  assert (Hend : forall x, match (if connection_type (hin (x <| r := q |>)) =? NGX_HTTP_CONNECTION_KEEP_ALIVE then lines (hin (x <| r := q |>)) !! keep_alive else None) with
    | Some e => Ok (NGX_OK, set_hin (x <| r := q |>) ((hin (x <| r := q |>)) <| keep_alive_n := Number.ngx_atotm (e_value e) |>))
    | None => Ok (NGX_OK, x <| r := q |>) end = omap (with_r q)
    match (if connection_type (hin x) =? NGX_HTTP_CONNECTION_KEEP_ALIVE then lines (hin x) !! keep_alive else None) with
    | Some e => Ok (NGX_OK, set_hin x ((hin x) <| keep_alive_n := Number.ngx_atotm (e_value e) |>))
    | None => Ok (NGX_OK, x) end).
  { intros w. change (hin (w <| r := q |>)) with (hin w). by destruct (if connection_type _ =? _ then _ else _). }
  destruct (lines (hin z) !! transfer_encoding) as [e|]; cbn [obind negb]; [|apply Hend].
  destruct (is_value e (bs "chunked")) as [[|]| |]; cbn [obind negb]; [|destruct (is_value e (bs "identity")) as [[|]| |]; cbn [obind negb]; [apply Hend|done..]|done|done].
  rewrite hin_r. apply Hend.
Qed.
Lemma slice_at buf k s rest a b : drop (Z.to_nat a) buf = s ++ rest -> 0 <= a -> b = a + blen s -> k = s -> slice buf a b = k.
Proof.
  intros Hbuf Ha -> ->. unfold slice. rewrite Hbuf. replace (Z.to_nat (a + blen s - a)) with (length s) by (unfold blen; lia).
  by rewrite take_app_length.
Qed.

Lemma drop_further buf s rest a : 0 <= a -> drop (Z.to_nat a) buf = s ++ rest -> drop (Z.to_nat (a + blen s)) buf = rest.
Proof.
  intros Ha Hbuf. replace (Z.to_nat (a + blen s)) with (Z.to_nat a + length s)%nat by (unfold blen; lia).
  by rewrite <- drop_drop, Hbuf, drop_app_length.
Qed.

Lemma line_texts_field buf f rest pos q L : 0 <= pos -> drop (Z.to_nat pos) buf = print_field f ++ rest ->
  exists buf', line_texts buf (after_line q pos f L) = Ok (f_name f, f_value f, buf') /\ length buf' = length buf /\
    drop (Z.to_nat (pos + blen (print_field f))) buf' = rest.
Proof.
  intros Hpos Hbuf. pose proof (drop_further buf _ _ _ Hpos Hbuf) as Hrest.
  assert (Hlen : pos + blen (print_field f) <= blen buf).
  { apply (f_equal (@length Z)) in Hbuf. rewrite length_drop, length_app in Hbuf. unfold blen. rewrite print_length in *. unfold blen in *.
    pose proof (print_length f) as Hp. unfold blen in Hp. lia. }
  pose proof (print_length f) as Hp. unfold print_field in Hbuf. rewrite <- app_assoc in Hbuf. cbn [app] in Hbuf.
  pose proof (slice_at _ (f_name f) _ _ _ _ Hbuf Hpos eq_refl eq_refl) as Hkey.
  apply drop_further in Hbuf; [|done].
  assert (Hbuf2 : drop (Z.to_nat (value_at pos f)) buf = f_value f ++ CR :: LF :: rest).
  { unfold value_at. replace (pos + blen (f_name f) + 1 + Z.of_nat (f_spaces f)) with (pos + blen (f_name f) + blen (58 :: replicate (f_spaces f) 32))
      by (unfold blen; cbn [length]; rewrite length_replicate; lia).
    apply drop_further; [unfold blen; lia|]. rewrite Hbuf. cbn [app]. by rewrite <- !app_assoc. }
  assert (Hval : slice buf (value_at pos f) (value_at pos f + blen (f_value f)) = f_value f)
    by (eapply slice_at; [exact Hbuf2|unfold value_at, blen; lia|done|done]).
  exists (<[Z.to_nat (value_at pos f + blen (f_value f)) := 0]> (<[Z.to_nat (pos + blen (f_name f)) := 0]> buf)).
  split; [|split].
  - unfold line_texts, after_line. cbn [header_name_start header_name_end header_start header_end update put].
    cbv [deref]. cbn -[slice]. fold (value_at pos f). rewrite Hkey, Hval.
    destruct (_ && _) eqn:E; [done|]. exfalso. rewrite !andb_false_iff, !Z.leb_gt, !Z.ltb_ge in E. unfold value_at, blen in *. lia.
  - by rewrite !length_insert.
  - rewrite !drop_insert_lt; [done|..]; unfold value_at, blen in *; lia.
Qed.
(** What the rest of the request sees of the outcome: not the buffer, the
    position and the scratch of the line parser. *)
Definition view (y : progress * bytes * Z * rq) : progress * rq := (y.1.1.1, y.2 <| r := new_request |>).

(** The header as a fold over its fields, then the final checks. *)
Definition read_fields fs x : out (progress * rq) :=
  let! (rc, x) := run_fields fs x in
  if negb (rc =? NGX_OK) then Ok (Stop, x)
  else
    let! (rc, x) := ngx_http_process_request_header pcre_exec cf (x <| request_length := request_length x + 2 |>) in
    Ok (if rc =? NGX_OK then Ready else Stop, x).

Definition forget (y : progress * rq) : progress * rq := (y.1, y.2 <| r := new_request |>).

Lemma add_field_keeps f x rc y : add_field f x = Ok (rc, y) -> r y = r x.
Proof.
  intros E. pose proof (add_field_r f (r x) x) as H. replace (x <| r := r x |>) with x in H by by destruct x.
  rewrite E in H. injection H as Hy. by rewrite Hy.
Qed.

Lemma run_fields_keeps fs x rc y : run_fields fs x = Ok (rc, y) -> r y = r x.
Proof.
  intros E. pose proof (run_fields_r fs (r x) x) as H. replace (x <| r := r x |>) with x in H by by destruct x.
  rewrite E in H. injection H as Hy. by rewrite Hy.
Qed.

Lemma read_fields_r fs q x : http_version q = http_version (r x) -> method q = method (r x) ->
  omap forget (read_fields fs (x <| r := q |>)) = omap forget (read_fields fs x).
Proof.
  intros Hv Hm. unfold read_fields. rewrite run_fields_r.
  pose proof (run_fields_keeps fs x) as Hk.
  destruct (run_fields fs x) as [[rc y]| |]; [|done|done]. specialize (Hk rc y eq_refl). cbn [omap obind with_r fst snd].
  destruct (negb (rc =? NGX_OK)); [done|].
  change (y <| r := q |> <| request_length := ?l |>) with ((y <| request_length := l |>) <| r := q |>).
  rewrite process_header_r by (change (r (y <| request_length := ?l |>)) with (r y); by rewrite Hk).
  change (request_length (y <| r := q |>)) with (request_length y).
  by destruct (ngx_http_process_request_header _ _ _) as [[rc' z]| |].
Qed.

Lemma fuel_enough fs buf pos post : drop (Z.to_nat pos) buf = concat (map print_field fs) ++ CR :: LF :: post -> (length fs < S (length buf))%nat.
Proof.
  intros Hbuf. apply (f_equal (@length Z)) in Hbuf. rewrite length_drop, length_app in Hbuf.
  assert (length fs <= length (concat (map print_field fs)))%nat; [|lia]. clear Hbuf. induction fs as [|f fs IH]; cbn [map concat length]; [lia|].
  rewrite length_app. pose proof (print_length f) as Hp. unfold blen in Hp. lia.
Qed.

Lemma headers_loop_reads : table_ok -> forall fs fuel buf pos x post, (length fs < fuel)%nat -> Forall field_ok fs -> 0 <= pos ->
  state (r x) = 0 -> length (lowcase_header (r x)) = 32%nat ->
  drop (Z.to_nat pos) buf = concat (map print_field fs) ++ CR :: LF :: post ->
  omap view (headers_loop pcre_exec cf base fuel buf pos x) = omap forget (read_fields fs x).
Proof.
  intros Ht. induction fs as [|f fs IH]; intros fuel buf pos x post Hfuel Hfs Hpos Hst HL Hbuf;
    (destruct fuel as [|fuel]; [cbn [length] in Hfuel; lia|]); cbn [headers_loop].
  - rewrite (parse_end _ _ _ _ _ Hst Hbuf). cbn [obind]. change (NGX_HTTP_PARSE_HEADER_DONE =? NGX_OK) with false.
    change (NGX_HTTP_PARSE_HEADER_DONE =? NGX_HTTP_PARSE_HEADER_DONE) with true. cbn iota.
    change (header_name_start (after_header (r x) pos)) with (Some pos). cbn [deref obind]. unfold read_fields. cbn [run_fields obind].
    change (negb (NGX_OK =? NGX_OK)) with false. cbn iota. replace (pos + 2 - pos) with 2 by lia.
    change (x <| r := ?q |> <| request_length := _ |>) with ((x <| request_length := request_length x + 2 |>) <| r := q |>).
    rewrite process_header_r by done.
    destruct (ngx_http_process_request_header _ _ _) as [[rc y]| |]; [|done|done]. cbn [obind omap with_r fst snd].
    by destruct (rc =? NGX_OK).
  - apply Forall_cons in Hfs as [Hf Hfs]. cbn [map concat] in Hbuf. rewrite <- app_assoc in Hbuf.
    destruct (parse_field (underscores_in_headers (cscf cf (srv x))) buf f _ pos (r x) Hf Hst HL Hbuf) as (L & HL' & Htake & ->).
    cbn [obind]. change (NGX_OK =? NGX_OK) with true. cbn iota.
    destruct (line_texts_field buf f _ pos (r x) L Hpos Hbuf) as (buf' & Htexts & Hlen & Hrest).
    remember (after_line (r x) pos f L) as q eqn:Hq.
    replace (deref (header_name_start q)) with (Ok pos : out Z) by by rewrite Hq. cbn [obind].
    replace (invalid_header q) with false by by rewrite Hq. cbn [andb]. rewrite Htexts. cbn [obind].
    replace (header_hash q) with (ngx_hash_key (lowers (f_name f))) by by rewrite Hq.
    replace (lowcase_header q) with L by by rewrite Hq. replace (lowcase_index q) with (blen (f_name f) mod 32) by by rewrite Hq.
    rewrite add_header_field by done. replace (pos + blen (print_field f) - pos) with (blen (print_field f)) by lia.
    change (x <| r := q |> <| request_length := _ |>) with ((x <| request_length := request_length x + blen (print_field f) |>) <| r := q |>).
    unfold read_fields. cbn [run_fields]. rewrite add_field_r.
    destruct (add_field f (x <| request_length := _ |>)) as [[rc y]| |] eqn:Ey; [|done|done].
    apply add_field_keeps in Ey. change (r (x <| request_length := ?l |>)) with (r x) in Ey. cbn [obind omap with_r fst snd].
    destruct (negb (rc =? NGX_OK)) eqn:Erc; [cbn [obind]; by rewrite Erc|].
    rewrite (IH fuel buf' (pos + blen (print_field f)) (y <| r := q |>) post); [|cbn [length] in Hfuel; lia|done|unfold blen; lia|..|exact Hrest].
    + rewrite read_fields_r; [done|..]; rewrite Ey; by rewrite Hq.
    + change (state q = 0). by rewrite Hq.
    + change (length (lowcase_header q) = 32%nat). by rewrite Hq.
Qed.
(** C20: A header is read back field by field.  On a buffer that holds well formed
    lines and the empty line, the loop of [ngx_http_process_request_headers]
    does what folding the handlers over the fields and then making the final
    checks does: the same list of headers, the same handlers in the same order,
    the same end, whatever follows the header in the buffer. *)
Theorem request_headers_read fs buf pos x post : table_ok -> Forall field_ok fs -> 0 <= pos ->
  state (r x) = 0 -> length (lowcase_header (r x)) = 32%nat ->
  drop (Z.to_nat pos) buf = concat (map print_field fs) ++ CR :: LF :: post ->
  omap view (ngx_http_process_request_headers pcre_exec cf base buf pos x) = omap forget (read_fields fs x).
Proof. intros. unfold ngx_http_process_request_headers. eapply headers_loop_reads; try done. by eapply fuel_enough. Qed.
End Fields.

(** ** The table of known headers *)

Section Table.
Context {Osm : OSMem} {Osml : OSMemLaws Osm}.

Lemma hash_key_lc_spec s : ngx_hash_key_lc s = ngx_hash_key (lowers s).
Proof. unfold ngx_hash_key_lc, ngx_hash_key. generalize 0. induction s as [|c s IH]; intros h; [done|]. apply IH. Qed.

Lemma in_headers_in_keys base n : In n (headers_in_keys base) ->
  exists e i, In e ngx_http_headers_in /\ n = mk_hash_key (Some e.1.1) (ngx_hash_key_lc e.1.1) (entry_addr base i).
Proof.
  intros [i Hi]%list_elem_of_In%list_elem_of_lookup. unfold headers_in_keys in Hi. rewrite list_lookup_imap in Hi.
  destruct (ngx_http_headers_in !! i) as [e|] eqn:Ee; [|done]. injection Hi as <-. exists e, i. split; [|done].
  by apply list_elem_of_In, list_elem_of_lookup_2 with i.
Qed.

Lemma headers_in_keys_ok base : 0 < base -> names_ok ngx_hash_key (headers_in_keys base).
Proof.
  intros Hb. apply List.Forall_forall. intros n Hn. apply in_headers_in_keys in Hn as (e & i & _ & ->). cbn.
  split; [apply hash_key_lc_spec|unfold entry_addr; lia].
Qed.

Lemma headers_in_keys_short base b : 64 <= b -> existsb (fun n => b <? NGX_HASH_ELT_SIZE n + 8) (headers_in_keys base) = false.
Proof.
  intros Hb. apply not_true_iff_false. intros (n & Hn & Hlt%Z.ltb_lt)%existsb_exists. apply in_headers_in_keys in Hn as (e & i & He & ->).
  assert (H : forallb (fun e => NGX_HASH_ELT_SIZE (mk_hash_key (Some e.1.1) 0 0) + 8 <=? 64) ngx_http_headers_in = true) by (vm_compute; reflexivity).
  rewrite forallb_forall in H. specialize (H e He). apply Z.leb_le in H.
  change (NGX_HASH_ELT_SIZE (mk_hash_key (Some e.1.1) (ngx_hash_key_lc e.1.1) (entry_addr base i))) with (NGX_HASH_ELT_SIZE (mk_hash_key (Some e.1.1) 0 0)) in Hlt. lia.
Qed.

Lemma push_keys_spec keys : forall (a : ngx_array ngx_hash_key_t) pl o, array_ok a -> sizeof_pool_large_t <= p_max pl ->
  exists r pl' o', push_keys keys a pl o = Ok (r, pl', o') /\ match r with Some a' => items a' = items a ++ keys | None => True end.
Proof.
  induction keys as [|k keys IH]; intros a pl o Ha Hp; cbn [push_keys]; [do 3 eexists; split; [done|by rewrite app_nil_r]|].
  destruct (array_push_spec a k pl o Ha Hp) as (r & pl1 & o1 & -> & Hp1 & Hr). cbn [obind]. destruct r as [a1|]; [|by do 3 eexists].
  destruct Hr as [Ha1 Hi]. destruct (IH a1 pl1 o1 Ha1 ltac:(lia)) as (r & pl2 & o2 & -> & Hr). do 3 eexists. split; [done|].
  destruct r; [|done]. by rewrite Hr, Hi, <- app_assoc.
Qed.

(** The configuration phase ends with a table of exactly the known headers, or
    reports that the memory ran out. *)
Lemma headers_table_built c base h m temp_pool psize pl o :
  3 <= c <= 15 -> 0 < base -> sizeof_pool_large_t <= p_max temp_pool -> pool_ok psize pl -> is_Some (tables m !! h) ->
  exists rc m' tp' pl' o', ngx_http_init_headers_in_hash (2 ^ c) base h m temp_pool pl o = Ok (rc, m', tp', pl', o') /\
    (rc = NGX_ERROR \/ rc = NGX_OK /\ exists t, tables m' !! h = Some t /\
      forall cf, tables_mem cf = m' -> headers_in_hash cf = NgxHash.hash t -> table_ok cf base).
Proof.
  intros Hc Hb Htp Hpool Hh. unfold ngx_http_init_headers_in_hash, ngx_array_init.
  destruct (palloc_max temp_pool (32 * 40) o Htp) as (r & tp1 & o1 & -> & Hp1). rewrite obind_Ok.
  destruct r as [p|]; [|do 5 eexists; split; [done|by left]]. cbn [obind].
  destruct (push_keys_spec (headers_in_keys base) (mk_array 0 p [] 40 32) tp1 o1) as (r & tp2 & o2 & -> & Hr); [by split_and!|lia|].
  rewrite obind_Ok. destruct r as [a|]; [|do 5 eexists; split; [done|by left]]. cbn [items app] in Hr. rewrite Hr.
  assert (Hbs : 64 <= ngx_align 64 (2 ^ c) <= 2 ^ 15).
  { destruct (align_spec 64 c ltac:(lia)) as [[H1 _] _]. split; [done|]. destruct (Z.le_ge_cases c 6).
    - transitivity 64; [|lia]. apply align_le; [lia..|]. replace 64 with (2 ^ (6 - c) * 2 ^ c) by (rewrite <- Z.pow_add_r by lia; by replace (6 - c + c) with 6 by lia).
      by rewrite Z.mod_mul by lia.
    - transitivity (2 ^ c); [|apply Z.pow_le_mono_r; lia]. apply align_le; [lia| |by rewrite Z.mod_same by lia].
      change 64 with (2 ^ 6). apply Z.pow_le_mono_r; lia. }
  destruct (hash_init_spec c ngx_hash_key (headers_in_hinit (2 ^ c) h) (headers_in_keys base) m psize pl o2 Hc) as (rc & h' & m' & pl' & o' & -> & _ & Hres); try done.
  - cbn. lia.
  - by apply headers_in_keys_ok.
  - by intros ? [= <-].
  - rewrite headers_in_keys_short in Hres by (cbn; lia). rewrite obind_Ok. destruct Hres as [->|(-> & p' & t & -> & Hp & Ht & Hfind)].
    + do 5 eexists. split; [done|by left].
    + rewrite (Hp h eq_refl) in Ht. do 5 eexists. split; [done|]. right. split; [done|]. exists t. split; [done|].
      intros cf Hm Hhash. split; [done|]. rewrite Hm, Hhash. exact Hfind.
Qed.
End Table.
