(* ===== verification/NgxFramingProps.v ===== *)
(** * How the body of a request is framed

    After a header that is accepted the length of the body is decided in one way:
    by the first Transfer-Encoding, or else by the only Content-Length. *)
From stdpp Require Import gmap.
From S2P Require Import Prelude NginxProps NgxHeaders NgxHashProps NgxHeaderLine NgxHeadersProps.
#[local] Open Scope Z_scope.
Import HeaderLine Headers.

(** ** Values *)

Lemma is_value_spec e s : Forall is_byte (e_value e) -> Forall is_byte s -> Forall (fun c => c <> 0) s ->
  is_value e s = Ok (bool_decide (lowers (e_value e) = lowers s)).
Proof.
  intros Hv Hs Hnz. unfold is_value. destruct (Nat.eqb_spec (length (e_value e)) (length s)) as [El|El].
  - destruct (ngx_strncasecmp_spec (zstr e) 0 s 0 (length s)) as (c & -> & Hc); try done.
    + apply Forall_app. split; [done|]. repeat constructor; unfold is_byte; lia.
    + unfold zstr. rewrite length_app. cbn. lia.
    + rewrite obind_Ok. f_equal. apply Bool.eq_iff_eq_true. rewrite Z.eqb_eq, bool_decide_eq_true, Hc.
      unfold zstr. rewrite !drop_0, firstn_all, take_app_le, take_ge by lia. done.
  - rewrite bool_decide_eq_false_2; [done|]. intros E. apply El. apply (f_equal length) in E. unfold lowers in E. by rewrite !length_fmap in E.
Qed.

(** A number that [ngx_atoof] accepts is made of digits; its value is the decimal
    value in 64 bits. *)
Lemma i64_step a b : i64 (i64 a * 10 + b) = i64 (a * 10 + b).
Proof.
  unfold i64, swrap. f_equal.
  replace (((a + 2 ^ (64 - 1)) mod 2 ^ 64 - 2 ^ (64 - 1)) * 10 + b + 2 ^ (64 - 1)) with
    ((a + 2 ^ (64 - 1)) mod 2 ^ 64 * 10 + (b - 9 * 2 ^ (64 - 1))) by lia.
  rewrite <- Zplus_mod_idemp_l, Zmult_mod_idemp_l, Zplus_mod_idemp_l. f_equal. lia.
Qed.

Lemma dec_loop_wraps ds : Forall is_digit ds -> forall v, Number.dec_loop (i64 v) ds = Some (i64 (Number.dec_from v ds)).
Proof.
  induction 1 as [|c ds Hc Hds IH]; intros v; [done|]. cbn [Number.dec_loop]. rewrite Number.not_digit_test by done.
  rewrite i64_step, IH. by rewrite Number.dec_from_cons.
Qed.

Lemma atoof_accepts v : Number.ngx_atoof v <> NGX_ERROR ->
  v <> [] /\ Forall is_digit v /\ Number.ngx_atoof v = i64 (dec_value v) /\ 0 <= Number.ngx_atoof v.
Proof.
  unfold Number.ngx_atoof. destruct (Nat.eqb_spec (length v) 0) as [|Hl]; [done|].
  destruct (decide (Forall is_digit v)) as [Hd|Hd]; [|by rewrite Number.dec_loop_error].
  replace (Number.dec_loop 0 v) with (Some (i64 (dec_value v))) by (symmetry; exact (dec_loop_wraps v Hd 0)).
  cbn [Number.finish]. destruct (Z.ltb_spec (i64 (dec_value v)) 0); [done|]. intros _. split; [by intros ->|]. done.
Qed.

(** ** What a handler does to the lines *)

Section Framing.
Context {Osm : OSMem} (pcre_exec : Z -> bytes -> Z) (cf : conf) (base : Z).
Implicit Types (x y : rq) (fs : list field).

Definition set_line (offset : Z) (h : table_elt) (m : gmap Z table_elt) : gmap Z table_elt :=
  match m !! offset with None => <[offset := h]> m | Some _ => m end.

Definition lines_after (hd : handler) (offset : Z) (h : table_elt) (m : gmap Z table_elt) : gmap Z table_elt :=
  match hd with
  | process_connection | process_multi_header_lines => m
  | process_host => set_line host h m
  | process_user_agent => set_line user_agent h m
  | process_unique_header_line | process_header_line => set_line offset h m
  end.

(** The rest of the framing is not touched. *)
Definition same_frame (h1 h2 : headers_in) : Prop :=
  content_length_n h1 = content_length_n h2 /\ chunked h1 = chunked h2.

Lemma set_first_lines offset h hi : lines (set_first offset h hi) = set_line offset h (lines hi) /\ same_frame (set_first offset h hi) hi.
Proof. unfold set_first, set_line. by destruct (lines hi !! offset). Qed.

(** Every step that may fail returns an outcome. *)
Ltac out_steps :=
  repeat match goal with
  | H : obind ?m _ = Ok _ |- _ => let E := fresh "E" in destruct m eqn:E; cbn [obind] in H; try discriminate H
  | H : (match ?m with _ => _ end) = Ok _ |- _ => let E := fresh "E" in destruct m eqn:E; try discriminate H
  | H : Ok _ = Ok _ |- _ => injection H as H; subst
  end.

Lemma regex_exec_hin n re s x rc y : ngx_http_regex_exec pcre_exec n re s x = Ok (rc, y) -> hin y = hin x.
Proof. unfold ngx_http_regex_exec. intros E. out_steps; simplify_eq/=; done. Qed.

Lemma regex_loop_hin n sn h : forall x rc s y, regex_loop pcre_exec n sn h x = Ok (rc, s, y) -> hin y = hin x.
Proof.
  induction sn as [|[re c] sn IH]; intros x rc s y; cbn [regex_loop]; [by intros [= <- <- <-]|].
  destruct (ngx_http_regex_exec pcre_exec n re h x) as [[m z]| |] eqn:Ez; cbn [obind]; [|done|done].
  apply regex_exec_hin in Ez. destruct (m =? NGX_DECLINED); [intros E; apply IH in E; congruence|].
  destruct (m =? NGX_OK); intros [= <- <- <-]; done.
Qed.

Lemma set_server_hin h x rc y : ngx_http_set_virtual_server pcre_exec cf h x = Ok (rc, y) -> hin y = hin x.
Proof.
  unfold ngx_http_set_virtual_server, ngx_http_find_virtual_server. intros E.
  destruct (vnames cf) as [vn|]; [|by injection E as <- <-].
  destruct (ngx_hash_find_combined _ _ _ _) as [s| |]; cbn [obind] in E; try done.
  destruct (negb (s =? 0)); [by injection E as <- <-|]. destruct (negb (length h =? 0)%nat); [|by injection E as <- <-].
  destruct (regex_loop _ _ _ _ _) as [[[m s'] z]| |] eqn:Ez; cbn [obind] in E; try done. apply regex_loop_hin in Ez.
  destruct (m =? NGX_ERROR); [|destruct (m =? NGX_DECLINED)]; injection E as <- <-; done.
Qed.

Definition kept (h1 h2 : headers_in) : Prop := lines h1 = lines h2 /\ same_frame h1 h2.

Lemma msie_version_kept v p hi hi' : msie_version v p hi = Ok hi' -> kept hi' hi.
Proof. unfold msie_version. intros E. out_steps; simplify_eq; done. Qed.

Lemma user_agent_kept h x y : lines (hin x) !! user_agent = None ->
  ngx_http_process_user_agent h x = Ok (NGX_OK, y) -> kept (hin y) (set_first user_agent h (hin x)).
Proof.
  unfold ngx_http_process_user_agent. intros -> E. set (h0 := set_first user_agent h (hin x)) in *. clearbody h0.
  destruct (ngx_strstrn _ _ _ _) as [p| |]; cbn [obind] in E; try done.
  assert (Hk : exists hi, match p with Some p => if (p + 7 <? length (e_value h))%nat then msie_version (zstr h) p (h0 <| msie := true |>) else Ok h0 | None => Ok h0 end = Ok hi /\ kept hi h0).
  { destruct (match p with Some _ => _ | None => _ end) as [hi| |] eqn:Ep; try done. exists hi. split; [done|].
    destruct p as [p|]; [|by injection Ep as <-]. destruct (_ <? _)%nat; [|by injection Ep as <-]. by apply msie_version_kept in Ep. }
  destruct Hk as (hi & Ep & Hk). rewrite Ep in E. clear Ep. cbn [obind] in E.
  destruct (has_word (zstr h) 0 (bs "Opera")) as [op| |]; cbn [obind] in E; try done.
  set (h1 := if op then _ else hi) in E. assert (Hk1 : kept h1 h0) by (unfold h1; by destruct op). clearbody h1.
  out_steps; simplify_eq; exact Hk1.
Qed.

Lemma handler_lines hd offset h x y : run_handler pcre_exec cf hd offset h x = Ok (NGX_OK, y) ->
  lines (hin y) = lines_after hd offset h (lines (hin x)) /\ same_frame (hin y) (hin x) /\
  (hd = process_unique_header_line -> lines (hin x) !! offset = None).
Proof.
  destruct hd; cbn [run_handler lines_after].
  - unfold ngx_http_process_host. destruct (set_first_lines host h (hin x)) as [El [Ef1 Ef2]]. intros E.
    destruct (Host.ngx_http_validate_host _ _ _ _) as [[[[rc nm] pl1] o1]| |]; cbn [obind] in E; try done.
    destruct (rc =? NGX_DECLINED); [done|]. destruct (rc =? NGX_ERROR); [done|].
    destruct (negb _); [injection E as <-; split; [exact El|]; split; [by split|done]|].
    destruct (ngx_http_set_virtual_server _ _ _ _) as [[m z]| |] eqn:Ez; cbn [obind] in E; try done. apply set_server_hin in Ez.
    destruct (m =? NGX_ERROR) eqn:Em; [done|]. injection E as <-.
    change (hin z = set_first host h (hin x)) in Ez.
    rewrite <- Ez in El, Ef1, Ef2. split; [exact El|]. split; [by split|done].
  - unfold ngx_http_process_connection. intros E. out_steps; simplify_eq/=; (split; [done|]; split; [done|discriminate]).
  - unfold ngx_http_process_unique_header_line. intros E. destruct (lines (hin x) !! offset) eqn:El; [done|]. injection E as <-.
    destruct (set_first_lines offset h (hin x)) as [E1 E2]. split; [exact E1|]. by split.
  - unfold ngx_http_process_user_agent. intros E. unfold set_line. destruct (lines (hin x) !! user_agent) eqn:El; [by injection E as <-|].
    destruct (set_first_lines user_agent h (hin x)) as [E1 [E2 E3]]. unfold set_line in E1. rewrite El in E1.
    destruct (user_agent_kept h x y El) as (K1 & K2 & K3); [by unfold ngx_http_process_user_agent; rewrite El|].
    split; [congruence|]. split; [split; congruence|discriminate].
  - intros E. injection E as <-. destruct (set_first_lines offset h (hin x)) as [E1 E2]. split; [exact E1|]. split; [exact E2|discriminate].
  - unfold ngx_http_process_multi_header_lines. intros E. out_steps; simplify_eq/=; (split; [done|]; split; [done|discriminate]).
Qed.
(** The three slots that decide the framing belong to one name each. *)
Definition slot (offset : Z) (nm : bytes) (hd : handler) : Prop :=
  (offset, nm, hd) = (host, bs "host", process_host) \/
  (offset, nm, hd) = (content_length, bs "content-length", process_unique_header_line) \/
  (offset, nm, hd) = (transfer_encoding, bs "transfer-encoding", process_header_line).

Lemma known_slot nm off hd o n k : known nm ngx_http_headers_in = Some (off, hd) -> slot o n k ->
  (nm = n /\ off = o /\ hd = k) \/ (nm <> n /\ forall h m, lines_after hd off h m !! o = m !! o).
Proof.
  intros Hk Hs.
  assert (Hin : exists e, In e ngx_http_headers_in /\ lowers e.1.1 = nm /\ e.1.2 = off /\ e.2 = hd).
  { revert Hk. generalize ngx_http_headers_in. induction l as [|[[a b] c] l IH]; [done|]. cbn [known].
    case_bool_decide as E; [intros [= <- <-]; exists (a, b, c); split; [by left|done]|].
    intros Hk. destruct (IH Hk) as (e & He & H). exists e. split; [by right|done]. }
  clear Hk. destruct Hin as (e & He & <- & <- & <-).
  assert (Hset : forall p h m, p <> o -> set_line p h m !! o = m !! o).
  { intros p h m Hp. unfold set_line. destruct (m !! p); [done|]. by rewrite lookup_insert_ne. }
  destruct Hs as [[= -> -> ->]|[[= -> -> ->]|[= -> -> ->]]];
    (repeat destruct He as [<-|He]; [..|done]);
    first [left; by split_and! | right; split; [by vm_compute|]; intros h m; cbn [lines_after snd]; first [done | by apply Hset]].
Qed.

Lemma known_slot_name o n k : slot o n k -> known n ngx_http_headers_in = Some (o, k).
Proof. intros [[= -> -> ->]|[[= -> -> ->]|[= -> -> ->]]]; by vm_compute. Qed.

Definition named (nm : bytes) (f : field) : bool := bool_decide (lowers (f_name f) = nm).
Definition first_named (nm : bytes) fs : option field := head (List.filter (named nm) fs).

Lemma add_field_lines f x y : add_field pcre_exec cf f x = Ok (NGX_OK, y) ->
  same_frame (hin y) (hin x) /\
  forall o n k, slot o n k ->
    lines (hin y) !! o = (if named n f then match lines (hin x) !! o with Some e => Some e | None => Some (elt_of_field f) end else lines (hin x) !! o) /\
    (k = process_unique_header_line -> named n f = true -> lines (hin x) !! o = None).
Proof.
  unfold add_field. intros E.
  destruct (ngx_list_push _ _ _ _) as [[[[l|] pl] ox]| |]; cbn [obind] in E; try done.
  destruct (ngx_pnalloc _ _ _) as [[[[p|] pl1] o1]| |]; cbn [obind] in E; try done.
  match type of E with dispatch_known _ _ _ ?z = _ => set (x1 := z) in E end.
  assert (Hx1 : kept (hin x1) (hin x)) by done. clearbody x1. destruct Hx1 as (Hl & Hf1 & Hf2). rewrite <- Hl. clear Hl.
  unfold dispatch_known in E. change (lowcase_key (elt_of_field f)) with (lowers (f_name f)) in E.
  destruct (known (lowers (f_name f)) ngx_http_headers_in) as [[off hd]|] eqn:Ek.
  - apply handler_lines in E as (El & [Es1 Es2] & Eu). split; [split; congruence|]. intros o n k Hs. rewrite El. unfold named.
    destruct (known_slot _ _ _ o n k Ek Hs) as [(Hn & <- & <-)|[Hn Hno]].
    + rewrite bool_decide_eq_true_2 by done. split; [|by intros Hk _; apply Eu].
      destruct Hs as [[= -> -> ->]|[[= -> -> ->]|[= -> -> ->]]]; cbn [lines_after]; unfold set_line;
        (destruct (lines (hin x1) !! _) eqn:Ex; [done|by rewrite lookup_insert_eq]).
    + rewrite bool_decide_eq_false_2 by done. split; [apply Hno|done].
  - injection E as <-. split; [by split|]. intros o n k Hs. unfold named. rewrite bool_decide_eq_false_2; [done|].
    intros Hn. rewrite Hn, (known_slot_name o n k Hs) in Ek. done.
Qed.
Definition count_named (nm : bytes) fs : nat := length (List.filter (named nm) fs).

Lemma run_fields_lines fs : forall x y, run_fields pcre_exec cf fs x = Ok (NGX_OK, y) ->
  same_frame (hin y) (hin x) /\ forall o n k, slot o n k ->
    lines (hin y) !! o = match lines (hin x) !! o with Some e => Some e | None => elt_of_field <$> first_named n fs end /\
    (k = process_unique_header_line -> (count_named n fs <= (if bool_decide (lines (hin x) !! o = None) then 1 else 0))%nat).
Proof.
  induction fs as [|f fs IH]; intros x y; cbn [run_fields].
  - intros [= <-]. split; [done|]. intros o n k _. split; [by destruct (lines (hin x) !! o)|]. intros _. unfold count_named. cbn. lia.
  - destruct (add_field _ _ _ _) as [[rc z]| |] eqn:Ez; cbn [obind]; try done.
    destruct (rc =? NGX_OK) eqn:Erc; cbn [negb]; [|intros [= -> ->]; done]. apply Z.eqb_eq in Erc. subst rc.
    intros E. apply add_field_lines in Ez as [[Hf1 Hf2] Ez]. apply IH in E as [[Hs1 Hs2] E]. change (hin (x <| request_length := ?l |>)) with (hin x) in *.
    split; [split; congruence|]. intros o n k Hs. destruct (Ez o n k Hs) as [El Eu], (E o n k Hs) as [E1 E2]. rewrite E1, El.
    unfold first_named, count_named in *. cbn [List.filter]. destruct (named n f) eqn:En.
    + split; [by destruct (lines (hin x) !! o)|]. intros Hk. specialize (Eu Hk eq_refl). specialize (E2 Hk). rewrite El, Eu in E2. rewrite Eu.
      cbn [length]. rewrite bool_decide_eq_false_2 in E2 by done. rewrite bool_decide_eq_true_2 by done. lia.
    + split; [done|]. intros Hk. rewrite <- El. by apply E2.
Qed.

(** What an accepted header says of the body. *)
Definition plain_body fs (hi : headers_in) : Prop :=
  chunked hi = false /\
  match first_named (bs "content-length") fs with
  | Some f => f_value f <> [] /\ Forall is_digit (f_value f) /\ content_length_n hi = i64 (dec_value (f_value f)) /\ 0 <= content_length_n hi
  | None => content_length_n hi = -1
  end.
Definition framed (version mth : Z) fs (hi : headers_in) : Prop :=
  (count_named (bs "content-length") fs <= 1)%nat /\
  (NGX_HTTP_VERSION_10 < version -> is_Some (first_named (bs "host") fs)) /\
  Z.land mth NGX_HTTP_TRACE = 0 /\
  match first_named (bs "transfer-encoding") fs with
  | Some f => (lowers (f_value f) = bs "chunked" /\ chunked hi = true /\ content_length_n hi = -1) \/
              (lowers (f_value f) = bs "identity" /\ plain_body fs hi)
  | None => plain_body fs hi
  end.

Definition fresh (hi : headers_in) : Prop := lines hi = ∅ /\ chunked hi = false /\ content_length_n hi = -1.

(** The final checks on the lines of the fields. *)
Lemma process_header_framed fs x y : Forall field_ok fs ->
  (forall o n k, slot o n k -> lines (hin x) !! o = elt_of_field <$> first_named n fs) ->
  chunked (hin x) = false -> content_length_n (hin x) = -1 -> (count_named (bs "content-length") fs <= 1)%nat ->
  ngx_http_process_request_header pcre_exec cf x = Ok (NGX_OK, y) -> framed (http_version (r x)) (method (r x)) fs (hin y).
Proof.
  intros Hfs Hlines Hch Hcl Hcount. unfold ngx_http_process_request_header.
  pose proof (Hlines host _ _ ltac:(by left)) as Hhost. pose proof (Hlines content_length _ _ ltac:(right; by left)) as Hlen.
  pose proof (Hlines transfer_encoding _ _ ltac:(right; by right)) as Hte. clear Hlines.
  destruct (if (length (server (hin x)) =? 0)%nat then _ else _) as [[rc x0]| |] eqn:E0; [|done|done].
  assert (Hx0 : hin x0 = hin x /\ r x0 = r x).
  { case_match; [split; [by eapply set_server_hin|by eapply set_server_keeps]|by simplify_eq]. }
  clear E0. destruct Hx0 as [Hh <-]. rewrite <- Hh in Hhost, Hlen, Hte, Hch, Hcl. clear Hh. cbn [obind].
  destruct (rc =? NGX_ERROR) eqn:Erc; [intros [= -> ->]; done|]. clear Erc.
  destruct (bool_decide _ && _) eqn:Ever; [done|].
  assert (Hver : NGX_HTTP_VERSION_10 < http_version (r x0) -> is_Some (first_named (bs "host") fs)).
  { intros Hlt. apply Z.ltb_lt in Hlt. rewrite Hlt, andb_true_r in Ever. apply bool_decide_eq_false in Ever. rewrite Hhost in Ever.
    by destruct (first_named (bs "host") fs). }
  clear Ever Hhost.
  set (x1 := match lines (hin x0) !! content_length with Some e => _ | None => x0 end).
  assert (H1 : lines (hin x1) = lines (hin x0) /\ chunked (hin x1) = false /\ r x1 = r x0 /\
    content_length_n (hin x1) = match first_named (bs "content-length") fs with Some f => Number.ngx_atoof (f_value f) | None => -1 end).
  { unfold x1. rewrite Hlen. by destruct (first_named (bs "content-length") fs). }
  clearbody x1. destruct H1 as (Hl1 & Hc1 & Hr1 & Hn1). rewrite <- Hl1 in Hlen, Hte. rewrite Hr1.
  destruct (bool_decide _ && _) eqn:Ebad; [done|].
  assert (Hplain : plain_body fs (hin x1)).
  { split; [done|]. rewrite Hlen in Ebad. rewrite Hn1 in *. destruct (first_named (bs "content-length") fs) as [f|]; [|done].
    rewrite bool_decide_eq_true_2 in Ebad by (by eexists). apply Z.eqb_neq in Ebad. by apply atoof_accepts. }
  clear Ebad. destruct (Z.eqb_spec (Z.land (method (r x0)) NGX_HTTP_TRACE) 0) as [Hm|]; [|done]. cbn [negb].
  (* the last step only sets [keep_alive_n] *)
  assert (Hend : forall z, match (if connection_type (hin z) =? NGX_HTTP_CONNECTION_KEEP_ALIVE then lines (hin z) !! keep_alive else None) with
      | Some e => Ok (NGX_OK, set_hin z ((hin z) <| keep_alive_n := Number.ngx_atotm (e_value e) |>))
      | None => Ok (NGX_OK, z) end = Ok (NGX_OK, y) -> same_frame (hin y) (hin z)).
  { intros z. destruct (if connection_type _ =? _ then _ else _); by intros [= <-]. }
  rewrite Hte. intros H. split; [done|]. split; [done|]. split; [done|].
  destruct (first_named (bs "transfer-encoding") fs) as [f|] eqn:Ef.
  - assert (Hf : field_ok f).
    { unfold first_named in Ef. assert (In f (List.filter (named (bs "transfer-encoding")) fs)) as [Hin _]%List.filter_In.
      { destruct (List.filter _ fs); [done|]. injection Ef as ->. by left. }
      rewrite List.Forall_forall in Hfs. by apply Hfs. }
    destruct Hf as [_ (Hbytes & _ & _)].
    assert (Hb : Forall is_byte (e_value (elt_of_field f))) by (eapply Forall_impl; [exact Hbytes|by intros c (? & _)]).
    assert (Hframe : forall z, same_frame (hin y) (hin z) -> kept (hin z) (hin x1) -> plain_body fs (hin y)).
    { intros z [E1 E2] (_ & E3 & E4). destruct Hplain as [P1 P2]. unfold plain_body. by rewrite E1, E2, E3, E4. }
    change (elt_of_field <$> Some f) with (Some (elt_of_field f)) in H. cbv iota beta in H.
    rewrite (is_value_spec _ (bs "chunked")) in H by (try done; vm_compute; repeat constructor; discriminate). cbn [obind] in H.
    case_bool_decide as Hchunked; cbn [obind negb] in H.
    + left. apply Hend in H as [E1 E2]. by rewrite E1, E2.
    + rewrite (is_value_spec _ (bs "identity")) in H by (try done; vm_compute; repeat constructor; discriminate). cbn [obind] in H.
      case_bool_decide as Hid; cbn [obind negb] in H; [|done]. right. split; [done|]. apply Hend in H. by eapply Hframe.
  - cbn [fmap option_fmap obind] in H. apply Hend in H as [E1 E2]. destruct Hplain as [P1 P2]. unfold plain_body. by rewrite E1, E2.
Qed.
(** C19: The body of an accepted request is framed in one way, when its header is a
    sequence of well formed lines, [name: value] and CRLF, in one buffer; malformed lines,
    lines that end with a bare LF and a header that is read in pieces are not covered.  When
    [ngx_http_process_request_headers] passes such a request on, its header had at most
    one Content-Length, a Host unless the version is 1.0 or older, and the method
    is not TRACE; the first Transfer-Encoding, if there is one, was chunked, and
    then the body is read as chunks and every length is dropped, or identity;
    otherwise the body has the length of the Content-Length, a text of digits
    whose value in 64 bits is not negative, or no length at all. *)
Theorem framing_unambiguous fs buf pos x post buf' pos' y :
  table_ok cf base -> Forall field_ok fs -> 0 <= pos -> state (r x) = 0 -> length (lowcase_header (r x)) = 32%nat -> fresh (hin x) ->
  drop (Z.to_nat pos) buf = concat (map print_field fs) ++ CR :: LF :: post ->
  ngx_http_process_request_headers pcre_exec cf base buf pos x = Ok (Ready, buf', pos', y) ->
  framed (http_version (r x)) (method (r x)) fs (hin y).
Proof.
  intros Ht Hfs Hpos Hst HL (Hl & Hch & Hcl) Hbuf E.
  pose proof (headers_loop_reads pcre_exec cf base Ht fs _ buf pos x post (fuel_enough fs buf pos post Hbuf) Hfs Hpos Hst HL Hbuf) as Hr.
  unfold ngx_http_process_request_headers in E. rewrite E in Hr. clear E. unfold read_fields in Hr.
  pose proof (run_fields_keeps pcre_exec cf fs x) as Hkeep.
  destruct (run_fields pcre_exec cf fs x) as [[rc z]| |] eqn:Ez; [|done|done]. specialize (Hkeep rc z eq_refl). cbn [obind] in Hr.
  destruct (rc =? NGX_OK) eqn:Erc; cbn [negb] in Hr; [|discriminate Hr]. apply Z.eqb_eq in Erc. subst rc.
  apply run_fields_lines in Ez as [[Hc1 Hc2] Hz].
  assert (Hlz : forall o n k, slot o n k -> lines (hin z) !! o = elt_of_field <$> first_named n fs).
  { intros o n k Hs. destruct (Hz o n k Hs) as [Eo _]. by rewrite Hl, lookup_empty in Eo. }
  assert (Hcount : (count_named (bs "content-length") fs <= 1)%nat).
  { destruct (Hz content_length _ _ ltac:(right; by left)) as [_ H]. specialize (H eq_refl). by rewrite Hl, lookup_empty in H. }
  destruct (ngx_http_process_request_header _ _ _) as [[rc y1]| |] eqn:Ey; [|done|done]. cbn [obind] in Hr.
  destruct (rc =? NGX_OK) eqn:Erc; [|discriminate Hr]. apply Z.eqb_eq in Erc. subst rc.
  apply (process_header_framed fs) in Ey; [|done|done|by transitivity (chunked (hin x))|by transitivity (content_length_n (hin x))|done].
  injection Hr as Hr. change (r (z <| request_length := _ |>)) with (r z) in Ey. rewrite Hkeep in Ey.
  by rewrite Hr.
Qed.
End Framing.

(** ** An example *)

#[local] Existing Instance known_mem.
#[local] Existing Instance known_laws.

Definition demo_temp : pool := mk_pool [mk_block 8192 8272 12288 0] 0 4015 [].
Definition demo_os : @os known_mem := (8192, 4096) :: demo_blocks.
(** The table of known headers at 65536, [cmcf->headers_in_hash] at 8. *)
Definition demo_table : out (Z * hash_mem * pool * pool * @os known_mem) :=
  ngx_http_init_headers_in_hash (2 ^ 6) 65536 8 (mk_hash_mem ∅ {[8 := mk_wildcard (NgxHash.mk_hash None 0) 0]}) demo_temp demo_pool4k demo_os.
Definition code_of (t : out (Z * hash_mem * pool * pool * @os known_mem)) : Z := match t with Ok (rc, _, _, _, _) => rc | _ => NGX_ERROR end.
Definition mem_of (t : out (Z * hash_mem * pool * pool * @os known_mem)) : hash_mem := match t with Ok (_, m, _, _, _) => m | _ => mk_hash_mem ∅ ∅ end.
Definition table_of (m : hash_mem) : ngx_hash_t := match tables m !! 8 with Some t => NgxHash.hash t | None => NgxHash.mk_hash None 0 end.
Definition cf_of (t : out (Z * hash_mem * pool * pool * @os known_mem)) : conf :=
  mk_conf (mem_of t) (table_of (mem_of t)) None 0 (fun _ => mk_srv true false).
Definition demo_cf : conf := cf_of demo_table.

Lemma cf_of_ok tb : code_of tb = NGX_OK ->
  (exists rc m tp pl o, tb = Ok (rc, m, tp, pl, o) /\
    (rc = NGX_ERROR \/ rc = NGX_OK /\ exists t, tables m !! 8 = Some t /\
      forall cf, tables_mem cf = m -> headers_in_hash cf = NgxHash.hash t -> table_ok cf 65536)) -> table_ok (cf_of tb) 65536.
Proof.
  intros Hcode (rc & m & tp & pl & o & -> & [->|(_ & t & Et & Hok)]); [done|]. apply Hok; [done|]. cbn. unfold table_of. by rewrite Et.
Qed.

Lemma demo_table_built : exists rc m tp pl o, demo_table = Ok (rc, m, tp, pl, o) /\
  (rc = NGX_ERROR \/ rc = NGX_OK /\ exists t, tables m !! 8 = Some t /\
    forall cf, tables_mem cf = m -> headers_in_hash cf = NgxHash.hash t -> table_ok cf 65536).
Proof.
  apply (headers_table_built 6 65536 8 (mk_hash_mem ∅ {[8 := mk_wildcard (NgxHash.mk_hash None 0) 0]}) demo_temp 4096 demo_pool4k demo_os);
    [lia|lia|by vm_compute|apply demo_pool4k_ok|]. cbn [tables]. rewrite lookup_singleton_eq. by eexists.
Qed.

Lemma demo_table_code : code_of demo_table = NGX_OK.
Proof. vm_compute. reflexivity. Qed.

Lemma demo_table_ok : table_ok demo_cf 65536.
Proof. exact (cf_of_ok demo_table demo_table_code demo_table_built). Qed.

Definition demo_fields : list field :=
  [mk_field (bs "Host") 1 (bs "example.com."); mk_field (bs "content-length") 0 (bs "12"); mk_field (bs "X-Id") 2 []].
Definition demo_buf : bytes := concat (map print_field demo_fields) ++ CR :: LF :: bs "hello".
Definition demo_rq : rq :=
  mk_rq (new_request <| http_version := 1001 |> <| method := 2 |>)
    (mk_headers_in (mk_list [] [] 56 20) ∅ ∅ [] (-1) (-1) 0 false false false false false false false false) 1 false 0 None demo_pool4k demo_os.
Definition no_regex (_ : Z) (_ : bytes) : Z := -1.

Lemma demo_fields_ok : Forall field_ok demo_fields.
Proof. apply (bool_decide_unpack _). vm_compute. exact I. Qed.

Lemma request_headers_read_witness :
  omap view (ngx_http_process_request_headers no_regex demo_cf 65536 demo_buf 0 demo_rq) = omap forget (read_fields no_regex demo_cf demo_fields demo_rq).
Proof.
  apply (request_headers_read no_regex demo_cf 65536 demo_fields demo_buf 0 demo_rq (bs "hello") demo_table_ok demo_fields_ok); [lia|reflexivity..].
Defined.

Definition ready_of (m : out (progress * bytes * Z * rq)) : bool := match m with Ok (Ready, _, _, _) => true | _ => false end.

Lemma ready_case m (P : rq -> Prop) : ready_of m = true -> (forall b p y, m = Ok (Ready, b, p, y) -> P y) ->
  exists b p y, m = Ok (Ready, b, p, y) /\ P y.
Proof. destruct m as [[[[[| |] b] p] y]| |]; try done. intros _ H. exists b, p, y. split; [done|]. by eapply H. Qed.

Lemma demo_ready : ready_of (ngx_http_process_request_headers no_regex demo_cf 65536 demo_buf 0 demo_rq) = true.
Proof. vm_compute. reflexivity. Qed.

Lemma framing_unambiguous_witness :
  exists b p y, ngx_http_process_request_headers no_regex demo_cf 65536 demo_buf 0 demo_rq = Ok (Ready, b, p, y) /\
    framed (http_version (r demo_rq)) (method (r demo_rq)) demo_fields (hin y).
Proof.
  apply (ready_case _ _ demo_ready). intros b p y.
  apply (framing_unambiguous no_regex demo_cf 65536 demo_fields demo_buf 0 demo_rq (bs "hello") b p y demo_table_ok demo_fields_ok);
    [lia|reflexivity|reflexivity|by split|reflexivity].
Defined.
