(* ===== verification/NgxUpstreamRR.v ===== *)
(** * Round robin over the servers of an upstream: ngx_http_upstream_round_robin.c

    The peers of an upstream live in the memory of a worker and are shared by its
    requests; a request keeps which of them it has tried.  Sessions of TLS are not
    modelled. *)
From S2P Require Import Prelude.
From S2P Require Export NgxString NgxPalloc.
From stdpp Require Import list.
#[local] Open Scope Z_scope.

Definition NGX_BUSY : Z := -3.
Definition NGX_PEER_FAILED : Z := 4.

(** [ngx_addr_t]; [sockaddr] stands for the structure it points to. *)
Record addr := mk_addr { a_sockaddr : bytes; a_socklen : Z; a_name : bytes }.

(** [ngx_http_upstream_server_t] *)
Record server := mk_server { addrs : list addr; s_weight : Z; s_max_fails : Z; s_fail_timeout : Z; s_down : bool; backup : bool }.

(** [ngx_http_upstream_rr_peer_t] *)
Record peer := mk_peer { sockaddr : bytes; socklen : Z; name : bytes;
  current_weight : Z; effective_weight : Z; weight : Z; fails : Z; accessed : Z; checked : Z;
  max_fails : Z; fail_timeout : Z; down : bool }.
#[export] Instance peer_settable : Settable peer := fun p =>
  mk_peer (sockaddr p) (socklen p) (name p) (current_weight p) (effective_weight p) (weight p) (fails p) (accessed p) (checked p)
    (max_fails p) (fail_timeout p) (down p).

(** [ngx_http_upstream_rr_peers_t], without [next]: a group is a list of peers and
    the backup ones behind it. *)
Record peers := mk_peers { total_weight : Z; single : bool; weighted : bool; p_name : bytes; peer_list : list peer }.
#[export] Instance peers_settable : Settable peers := fun p =>
  mk_peers (total_weight p) (single p) (weighted p) (p_name p) (peer_list p).
Definition number (ps : peers) : Z := Z.of_nat (length (peer_list ps)).
Record group := mk_group { primary : peers; next : option peers }.

Definition sizeof_rr_peers : Z := 144.
Definition sizeof_rr_peer : Z := 104.
Definition sizeof_rr_data : Z := 32.

(** ** The configuration *)

Definition count_servers (bk : bool) (l : list server) : Z * Z :=
  fold_left (fun '(n, w) s =>
    if Bool.eqb (backup s) bk then (u64 (n + Z.of_nat (length (addrs s))), u64 (w + Z.of_nat (length (addrs s)) * s_weight s))
    else (n, w)) l (0, 0).

Definition peer_of (s : server) (a : addr) : peer :=
  mk_peer (a_sockaddr a) (a_socklen a) (a_name a) 0 (s_weight s) (s_weight s) 0 0 0 (s_max_fails s) (s_fail_timeout s) (s_down s).

Fixpoint peers_of (bk : bool) (l : list server) : list peer :=
  match l with
  | [] => []
  | s :: l' => (if Bool.eqb (backup s) bk then map (peer_of s) (addrs s) else []) ++ peers_of bk l'
  end.

(** [us->servers], or the address of an upstream that is defined implicitly:
    [resolved] is what [ngx_inet_resolve_host] answers. *)
Definition implicit_peer (a : addr) : peer := mk_peer (a_sockaddr a) (a_socklen a) (a_name a) 0 1 1 0 0 0 1 10 false.

Section RoundRobin.
Context {Osm : OSMem}.
Implicit Types (pl : pool) (o : os) (g : group).

Definition ngx_http_upstream_init_round_robin (servers : option (list server)) (host : bytes) (port : Z) (resolved : option (list addr)) pl o
  : out (Z * option group * pool * os) :=
  match servers with
  | Some l =>
      let '(n, w) := count_servers false l in
      if n =? 0 then Ok (NGX_ERROR, None, pl, o)
      else
        let! (p, pl, o) := ngx_pcalloc pl (sizeof_rr_peers + sizeof_rr_peer * (n - 1)) o in
        match p with
        | None => Ok (NGX_ERROR, None, pl, o)
        | Some _ =>
            let ps := mk_peers w (n =? 1) (negb (w =? n)) host (peers_of false l) in
            let '(n, w) := count_servers true l in
            if n =? 0 then Ok (NGX_OK, Some (mk_group ps None), pl, o)
            else
              let! (p, pl, o) := ngx_pcalloc pl (sizeof_rr_peers + sizeof_rr_peer * (n - 1)) o in
              match p with
              | None => Ok (NGX_ERROR, Some (mk_group ps None), pl, o)
              | Some _ =>
                  let bk := mk_peers w false (negb (w =? n)) host (peers_of true l) in
                  Ok (NGX_OK, Some (mk_group (ps <| single := false |>) (Some bk)), pl, o)
              end
        end
  | None =>
      if port =? 0 then Ok (NGX_ERROR, None, pl, o)
      else
        match resolved with
        | None => Ok (NGX_ERROR, None, pl, o)
        | Some l =>
            let n := Z.of_nat (length l) in
            let! (p, pl, o) := ngx_pcalloc pl (sizeof_rr_peers + sizeof_rr_peer * (n - 1)) o in
            match p with
            | None => Ok (NGX_ERROR, None, pl, o)
            | Some _ => Ok (NGX_OK, Some (mk_group (mk_peers n (n =? 1) false host (map implicit_peer l)) None), pl, o)
            end
        end
  end.

(** ** A request *)

(** [ngx_http_upstream_rr_peer_data_t]: [on_backup] says that [peers] points to
    the backup peers.  [tried] is [&data] or memory of the pool. *)
Record rr_data := mk_rr { on_backup : bool; current : Z; tried : list Z }.
#[export] Instance rr_settable : Settable rr_data := fun d => mk_rr (on_backup d) (current d) (tried d).

(** [ngx_peer_connection_t] *)
Record peer_connection := mk_pc { pc_sockaddr : option (bytes * Z); pc_name : option bytes; tries : Z; cached : bool; connection : option Z }.
#[export] Instance pc_settable : Settable peer_connection := fun c =>
  mk_pc (pc_sockaddr c) (pc_name c) (tries c) (cached c) (connection c).

(** The peers [rrp->peers] points to. *)
Definition group_peers g (bk : bool) : out peers :=
  if bk then match next g with Some ps => Ok ps | None => Undef NullDeref end else Ok (primary g).
Definition set_peers g (bk : bool) (ps : peers) : group :=
  if bk then mk_group (primary g) (Some ps) else mk_group ps (next g).

Definition words (n : Z) : Z := (n + 63) / 64.

(** [old] is [r->upstream->peer.data]. *)
Definition ngx_http_upstream_init_round_robin_peer g (old : option rr_data) (c : peer_connection) pl o
  : out (Z * option rr_data * peer_connection * pool * os) :=
  let! (p, pl, o) := match old with Some _ => Ok (Some 0, pl, o) | None => ngx_palloc pl sizeof_rr_data o end in
  match p with
  | None => Ok (NGX_ERROR, old, c, pl, o)
  | Some _ =>
      let n := number (primary g) in
      let n := match next g with Some b => if n <? number b then number b else n | None => n end in
      let! (t, pl, o) := if n <=? 64 then Ok (Some [0], pl, o)
                         else
                           let! (p, pl, o) := ngx_pcalloc pl (words n * 8) o in
                           Ok (match p with Some _ => Some (replicate (Z.to_nat (words n)) 0) | None => None end, pl, o) in
      match t with
      | None => Ok (NGX_ERROR, Some (mk_rr false 0 []), c, pl, o)
      | Some t => Ok (NGX_OK, Some (mk_rr false 0 t), c <| tries := number (primary g) |>, pl, o)
      end
  end.

(** ** Choosing a peer *)

Definition word_at (t : list Z) (i : Z) : out Z :=
  match t !! Z.to_nat (i / 64) with Some w => Ok w | None => Undef OutOfBounds end.
Definition mask (i : Z) : Z := Z.shiftl 1 (i mod 64).
Definition mark (t : list Z) (i : Z) : out (list Z) :=
  let! w := word_at t i in Ok (<[Z.to_nat (i / 64) := Z.lor w (mask i)]> t).

(** A peer that is neither down nor resting after its failures. *)
Definition usable (now : Z) (p : peer) : bool :=
  negb (down p) && negb (negb (max_fails p =? 0) && (max_fails p <=? fails p) && (now - checked p <=? fail_timeout p)).

(** The peers [done] are behind; [best] is an index and its weight. *)
Fixpoint get_peer_loop (now : Z) (t : list Z) (done rest : list peer) (best : option (Z * Z)) (total : Z)
  : out (list peer * option (Z * Z) * Z) :=
  match rest with
  | [] => Ok (done, best, total)
  | p :: rest' =>
      let i := Z.of_nat (length done) in
      let! w := word_at t i in
      if negb (Z.land w (mask i) =? 0) then get_peer_loop now t (done ++ [p]) rest' best total
      else if negb (usable now p) then get_peer_loop now t (done ++ [p]) rest' best total
      else
        let cw := i64 (current_weight p + effective_weight p) in
        let total := i64 (total + effective_weight p) in
        let p' := p <| current_weight := cw |>
                    <| effective_weight := if effective_weight p <? weight p then effective_weight p + 1 else effective_weight p |> in
        let best := match best with Some (_, b) => if b <? cw then Some (i, cw) else best | None => Some (i, cw) end in
        get_peer_loop now t (done ++ [p']) rest' best total
  end.

(** The index of the peer, and the request and peers it changed. *)
Definition ngx_http_upstream_get_peer (now : Z) (l : list peer) (d : rr_data) : out (option Z * list peer * rr_data) :=
  let! (l, best, total) := get_peer_loop now (tried d) [] l None 0 in
  match best with
  | None => Ok (None, l, d)
  | Some (i, _) =>
      let! t := mark (tried d) i in
      let l := alter (fun p => p <| current_weight := i64 (current_weight p - total) |> <| checked := now |>) (Z.to_nat i) l in
      Ok (Some i, l, d <| current := i |> <| tried := t |>)
  end.

(** [rrp->tried[i] = 0] for the first [n] words. *)
Definition clear_tried (t : list Z) (n : Z) : out (list Z) :=
  if Z.of_nat (length t) <? n then Undef OutOfBounds else Ok (replicate (Z.to_nat n) 0 ++ drop (Z.to_nat n) t).

Definition clear_fails (ps : peers) : peers := ps <| peer_list := map (fun p => p <| fails := 0 |>) (peer_list ps) |>.

(** The call on the backup peers is the only recursive one: they have no next. *)
Fixpoint get_round_robin_peer (depth : nat) (now : Z) g (d : rr_data) (c : peer_connection)
  : out (Z * group * rr_data * peer_connection) :=
  match depth with
  | O => NoFuel
  | S depth' =>
      let bk := on_backup d in
      let c := c <| cached := false |> <| connection := None |> in
      let! ps := group_peers g bk in
      let nxt := if bk then None else next g in
      let! (i, l, d) := if single ps then
                          match peer_list ps with
                          | [] => Undef OutOfBounds
                          | p :: _ => Ok (if down p then None else Some 0, peer_list ps, d)
                          end
                        else ngx_http_upstream_get_peer now (peer_list ps) d in
      let g := set_peers g bk (ps <| peer_list := l |>) in
      match i with
      | Some i =>
          match l !! Z.to_nat i with
          | None => Undef OutOfBounds
          | Some p =>
              let c := c <| pc_sockaddr := Some (sockaddr p, socklen p) |> <| pc_name := Some (name p) |> in
              let c := match nxt with
                       | Some b => if tries c =? 1 then c <| tries := u64 (tries c + number b) |> else c
                       | None => c
                       end in
              Ok (NGX_OK, g, d, c)
          end
      | None =>
          let fail g d c :=
            let! ps := group_peers g bk in
            Ok (NGX_BUSY, set_peers g bk (clear_fails ps), d, c <| pc_name := Some (p_name ps) |>) in
          match nxt with
          | None => fail g d c
          | Some b =>
              let! t := clear_tried (tried d) (words (number b)) in
              let! (rc, g, d, c) := get_round_robin_peer depth' now g (d <| on_backup := true |> <| tried := t |>) (c <| tries := number b |>) in
              if negb (rc =? NGX_BUSY) then Ok (rc, g, d, c) else fail g d c
          end
      end
  end.

Definition ngx_http_upstream_get_round_robin_peer : Z -> group -> rr_data -> peer_connection -> out (Z * group * rr_data * peer_connection) :=
  get_round_robin_peer 2.

(** ** The end of an attempt *)

Definition failed_peer (now : Z) (p : peer) : peer :=
  let p := p <| fails := u64 (fails p + 1) |> <| accessed := now |> <| checked := now |> in
  let ew := if negb (max_fails p =? 0) then i64 (effective_weight p - weight p / max_fails p) else effective_weight p in
  p <| effective_weight := if ew <? 0 then 0 else ew |>.

Definition passed_peer (p : peer) : peer := if accessed p <? checked p then p <| fails := 0 |> else p.

Definition ngx_http_upstream_free_round_robin_peer (now : Z) (state : Z) g (d : rr_data) (c : peer_connection) : out (group * peer_connection) :=
  let! ps := group_peers g (on_backup d) in
  if single ps then Ok (g, c <| tries := 0 |>)
  else
    match peer_list ps !! Z.to_nat (current d) with
    | None => Undef OutOfBounds
    | Some _ =>
        let f := if negb (Z.land state NGX_PEER_FAILED =? 0) then failed_peer now else passed_peer in
        let g := set_peers g (on_backup d) (ps <| peer_list := alter f (Z.to_nat (current d)) (peer_list ps) |>) in
        Ok (g, if negb (tries c =? 0) then c <| tries := tries c - 1 |> else c)
    end.
End RoundRobin.
