(* ===== verification/NgxUpstreamRRProps.v ===== *)
(** * Properties of the round robin

    A peer that is chosen is usable and was not tried; when all peers are usable
    each one gets its share of the requests, at every moment. *)
From stdpp Require Import list.
From S2P Require Import Prelude NginxProps NgxUpstreamRR.
#[local] Open Scope Z_scope.

(** ** One choice *)

Definition marked (t : list Z) (i : Z) : bool := negb (Z.land (nth (Z.to_nat (i / 64)) t 0) (mask i) =? 0).
Definition eligible (now : Z) (t : list Z) (i : Z) (p : peer) : bool := negb (marked t i) && usable now p.
Definition raised (p : peer) : peer :=
  p <| current_weight := i64 (current_weight p + effective_weight p) |>
    <| effective_weight := if effective_weight p <? weight p then effective_weight p + 1 else effective_weight p |>.

(** The weights of the eligible peers from index [k] on, and their sum. *)
Fixpoint scores (now : Z) (t : list Z) (k : Z) (l : list peer) : list (Z * Z) :=
  match l with
  | [] => []
  | p :: l' => (if eligible now t k p then [(k, i64 (current_weight p + effective_weight p))] else []) ++ scores now t (k + 1) l'
  end.
Fixpoint total_of (now : Z) (t : list Z) (k : Z) (l : list peer) (total : Z) : Z :=
  match l with
  | [] => total
  | p :: l' => total_of now t (k + 1) l' (if eligible now t k p then i64 (total + effective_weight p) else total)
  end.
Fixpoint raise_all (now : Z) (t : list Z) (k : Z) (l : list peer) : list peer :=
  match l with
  | [] => []
  | p :: l' => (if eligible now t k p then raised p else p) :: raise_all now t (k + 1) l'
  end.
Definition better (b : option (Z * Z)) (x : Z * Z) : option (Z * Z) :=
  match b with Some (_, c) => if c <? x.2 then Some x else b | None => Some x end.

Definition room (t : list Z) (n : nat) : Prop := Z.of_nat n <= 64 * Z.of_nat (length t).

Lemma word_at_nth t i : 0 <= i < 64 * Z.of_nat (length t) -> word_at t i = Ok (nth (Z.to_nat (i / 64)) t 0).
Proof.
  intros Hi. unfold word_at.
  assert (Hlt : (Z.to_nat (i / 64) < length t)%nat).
  { pose proof (Z.div_pos i 64 ltac:(lia) ltac:(lia)). pose proof (Z.div_lt_upper_bound i 64 (Z.of_nat (length t)) ltac:(lia) ltac:(lia)). lia. }
  destruct (nth_lookup_or_length t (Z.to_nat (i / 64)) 0) as [->|]; [done|lia].
Qed.

Lemma get_peer_loop_spec now t rest : forall done best total, room t (length done + length rest) ->
  get_peer_loop now t done rest best total =
    Ok (done ++ raise_all now t (Z.of_nat (length done)) rest,
        fold_left better (scores now t (Z.of_nat (length done)) rest) best,
        total_of now t (Z.of_nat (length done)) rest total).
Proof.
  induction rest as [|p rest IH]; intros done best total Hroom; cbn [get_peer_loop raise_all scores total_of]; [by rewrite app_nil_r|].
  cbn [length] in Hroom. unfold room in *. rewrite word_at_nth by lia. cbn [obind]. unfold eligible, marked.
  assert (Hlen : forall q : peer, Z.of_nat (length (done ++ [q])) = Z.of_nat (length done) + 1) by (intros q; rewrite length_app; cbn; lia).
  destruct (Z.eqb_spec (Z.land (nth (Z.to_nat (Z.of_nat (length done) / 64)) t 0) (mask (Z.of_nat (length done)))) 0); cbn [negb andb].
  - destruct (usable now p); cbn [negb].
    + rewrite IH, Hlen by (rewrite length_app; cbn; lia). rewrite <- app_assoc. done.
    + rewrite IH, Hlen by (rewrite length_app; cbn; lia). rewrite <- app_assoc. done.
  - rewrite IH, Hlen by (rewrite length_app; cbn; lia). rewrite <- app_assoc. done.
Qed.

(** The best score is the first of the largest. *)
Lemma best_spec s b : match fold_left better s b with
  | None => s = [] /\ b = None
  | Some x => (In x s \/ b = Some x) /\ (forall y, In y s \/ b = Some y -> y.2 <= x.2)
  end.
Proof.
  revert b. induction s as [|x s IH]; intros b; cbn [fold_left].
  - destruct b; [|done]. split; [by right|]. intros y [[]|[= <-]]. lia.
  - specialize (IH (better b x)). destruct (fold_left better s (better b x)) as [z|].
    + destruct IH as [H1 H2]. unfold better in *. destruct b as [[i c]|].
      * destruct (Z.ltb_spec c x.2).
        -- split; [destruct H1 as [|[= <-]]; [left; by right|left; by left]|].
           intros y [[<-|Hy]|[= <-]]; [apply H2; by right|apply H2; by left|]. specialize (H2 x (or_intror eq_refl)). cbn. lia.
        -- split; [destruct H1 as [|[= <-]]; [left; by right|by right]|].
           intros y [[<-|Hy]|[= <-]]; [|apply H2; by left|apply H2; by right]. specialize (H2 (i, c) (or_intror eq_refl)). cbn in H2. lia.
      * split; [destruct H1 as [|[= <-]]; [left; by right|left; by left]|].
        intros y [[<-|Hy]|[=]]; [apply H2; by right|apply H2; by left].
    + destruct IH as [_ IH]. unfold better in IH. destruct b as [[i c]|]; [by destruct (c <? x.2)|done].
Qed.

Lemma in_scores now t l : forall k i c, In (i, c) (scores now t k l) <->
  exists j p, l !! j = Some p /\ i = k + Z.of_nat j /\ eligible now t i p = true /\ c = i64 (current_weight p + effective_weight p).
Proof.
  induction l as [|p l IH]; intros k i c; cbn [scores].
  - split; [done|]. by intros (j & p & Hj & _).
  - rewrite in_app_iff, IH. split.
    + intros [Hin|(j & q & Hj & -> & H)].
      * destruct (eligible now t k p) eqn:E; [|done]. destruct Hin as [[= <- <-]|[]]. exists 0%nat, p. split; [done|]. rewrite Z.add_0_r. by split_and!.
      * exists (S j), q. split; [done|]. split; [lia|done].
    + intros ([|j] & q & Hj & Hi & He & ->).
      * injection Hj as ->. left. rewrite Z.add_0_r in Hi. subst. rewrite He. by left.
      * right. exists j, q. split; [done|]. split; [lia|]. by split.
Qed.

Lemma raise_all_length now t l : forall k, length (raise_all now t k l) = length l.
Proof. induction l as [|p l IH]; intros k; [done|]. cbn. by rewrite IH. Qed.

Lemma lookup_raise_all now t l : forall k j, raise_all now t k l !! j =
  (fun p => if eligible now t (k + Z.of_nat j) p then raised p else p) <$> (l !! j).
Proof.
  induction l as [|p l IH]; intros k j; [done|]. destruct j as [|j]; cbn [raise_all lookup list_lookup]; [by rewrite Z.add_0_r|].
  change ((raise_all now t (k + 1) l) !! j = (fun p => if eligible now t (k + Z.of_nat (S j)) p then raised p else p) <$> (l !! j)).
  rewrite IH. by replace (k + 1 + Z.of_nat j) with (k + Z.of_nat (S j)) by lia.
Qed.

(** Marks. *)
Lemma marked_mark t i t' j : 0 <= i < 64 * Z.of_nat (length t) -> 0 <= j -> mark t i = Ok t' ->
  marked t' j = marked t j || (j =? i).
Proof.
  intros Hi Hj. unfold mark. rewrite word_at_nth by done. cbn [obind]. intros [= <-]. unfold marked, mask.
  assert (Hlt : (Z.to_nat (i / 64) < length t)%nat).
  { pose proof (Z.div_pos i 64 ltac:(lia) ltac:(lia)). pose proof (Z.div_lt_upper_bound i 64 (Z.of_nat (length t)) ltac:(lia) ltac:(lia)). lia. }
  rewrite !Z.shiftl_1_l.
  assert (Hbit : forall w k, 0 <= k -> negb (Z.land w (2 ^ k) =? 0) = Z.testbit w k).
  { intros w k Hk. apply Bool.eq_iff_eq_true. rewrite negb_true_iff, Z.eqb_neq. split.
    - intros Hne. apply not_false_iff_true. intros Hf. apply Hne. apply Z.bits_inj'. intros n Hn. rewrite Z.land_spec, Z.pow2_bits_eqb, Z.bits_0 by done.
      destruct (Z.eqb_spec k n) as [<-|]; [by rewrite Hf|apply andb_false_r].
    - intros Ht E. assert (Hz : Z.testbit (Z.land w (2 ^ k)) k = false) by (by rewrite E, Z.bits_0).
      rewrite Z.land_spec, Z.pow2_bits_true, Ht in Hz by done. done. }
  pose proof (Z.mod_pos_bound i 64 ltac:(lia)). pose proof (Z.mod_pos_bound j 64 ltac:(lia)).
  rewrite !Hbit by lia.
  destruct (Nat.eq_dec (Z.to_nat (j / 64)) (Z.to_nat (i / 64))) as [E|E].
  - rewrite E, nth_lookup, list_lookup_insert_eq by done. cbn. rewrite Z.lor_spec, Z.pow2_bits_eqb by lia.
    f_equal. apply Bool.eq_iff_eq_true. rewrite !Z.eqb_eq.
    apply (f_equal Z.of_nat) in E. rewrite !Z2Nat.id in E by (apply Z.div_pos; lia).
    pose proof (Z.div_mod i 64 ltac:(lia)). pose proof (Z.div_mod j 64 ltac:(lia)). lia.
  - rewrite !nth_lookup, list_lookup_insert_ne by done. destruct (Z.eqb_spec j i) as [->|]; [done|]. by rewrite orb_false_r.
Qed.

Lemma raise_none now t l : forall k, (forall j p, l !! j = Some p -> eligible now t (k + Z.of_nat j) p = false) -> raise_all now t k l = l.
Proof.
  induction l as [|p l IH]; intros k H; [done|]. cbn [raise_all]. pose proof (H 0%nat p eq_refl) as H0. rewrite Z.add_0_r in H0. rewrite H0. f_equal.
  apply IH. intros j q Hj. rewrite <- (H (S j) q Hj). f_equal. lia.
Qed.

Lemma mark_total t i : 0 <= i < 64 * Z.of_nat (length t) -> exists t', mark t i = Ok t' /\ length t' = length t.
Proof. intros Hi. unfold mark. rewrite word_at_nth by done. cbn [obind]. eexists. split; [done|]. by rewrite length_insert. Qed.

Definition score (p : peer) : Z := i64 (current_weight p + effective_weight p).

(** What a choice is: nothing when no peer is eligible, and otherwise the first
    eligible peer of the largest weight, which is marked. *)
Lemma get_peer_spec now l d : room (tried d) (length l) ->
  let total := total_of now (tried d) 0 l 0 in
  match fold_left better (scores now (tried d) 0 l) None with
  | None => ngx_http_upstream_get_peer now l d = Ok (None, l, d) /\ forall j p, l !! j = Some p -> eligible now (tried d) (Z.of_nat j) p = false
  | Some (i, _) => exists j p t', i = Z.of_nat j /\ l !! j = Some p /\ eligible now (tried d) i p = true /\
      (forall k q, l !! k = Some q -> eligible now (tried d) (Z.of_nat k) q = true -> score q <= score p) /\
      mark (tried d) i = Ok t' /\ length t' = length (tried d) /\
      ngx_http_upstream_get_peer now l d =
        Ok (Some i, alter (fun p => p <| current_weight := i64 (current_weight p - total) |> <| checked := now |>) j (raise_all now (tried d) 0 l),
            d <| current := i |> <| tried := t' |>)
  end.
Proof.
  intros Hroom. cbv zeta. unfold ngx_http_upstream_get_peer. rewrite get_peer_loop_spec by done. cbn [app obind length]. change (Z.of_nat 0) with 0.
  pose proof (best_spec (scores now (tried d) 0 l) None) as Hb.
  destruct (fold_left better (scores now (tried d) 0 l) None) as [[i c]|].
  - destruct Hb as [[Hin|Hin] Hmax]; [|done]. apply in_scores in Hin as (j & p & Hj & Hi & He & Hc). rewrite Z.add_0_l in Hi. subst i.
    apply lookup_lt_Some in Hj as Hlt. destruct (mark_total (tried d) (Z.of_nat j)) as (t' & Ht & Hl); [unfold room in Hroom; lia|].
    exists j, p, t'. split; [done|]. split; [done|]. split; [done|]. split.
    + intros k q Hk Hq. assert (Hs : In (Z.of_nat k, score q) (scores now (tried d) 0 l)) by (apply in_scores; exists k, q; by rewrite Z.add_0_l).
      specialize (Hmax _ (or_introl Hs)). cbn in Hmax. unfold score in *. lia.
    + split; [done|]. split; [done|]. rewrite Ht. cbn [obind]. by rewrite Nat2Z.id.
  - destruct Hb as [Hb _].
    assert (Hno : forall j p, l !! j = Some p -> eligible now (tried d) (Z.of_nat j) p = false).
    { intros j p Hj. apply not_true_is_false. intros He.
      assert (Hs : In (Z.of_nat j, score p) (scores now (tried d) 0 l)) by (apply in_scores; exists j, p; by rewrite Z.add_0_l).
      by rewrite Hb in Hs. }
    split; [|done]. rewrite raise_none; [done|]. intros j p Hj. rewrite Z.add_0_l. by apply Hno.
Qed.

(** ** Shares *)

Definition zsum {A} (f : A -> Z) (l : list A) : Z := fold_right (fun a s => f a + s) 0 l.

Lemma zsum_alter {A} (f : A -> Z) g j l x : l !! j = Some x -> zsum f (alter g j l) = zsum f l - f x + f (g x).
Proof.
  revert j. induction l as [|a l IH]; intros [|j]; cbn; try done; [intros [= ->]; lia|]. intros H. 
  change (f a + zsum f (alter g j l) = f a + zsum f l - f x + f (g x)). rewrite (IH j H). lia.
Qed.

Lemma zsum_le {A} (f g : A -> Z) l : (forall x, x ∈ l -> f x <= g x) -> zsum f l <= zsum g l.
Proof.
  induction l as [|a l IH]; intros H; cbn; [lia|]. pose proof (H a ltac:(left)). specialize (IH ltac:(intros x Hx; apply H; by right)).
  change (f a + zsum f l <= g a + zsum g l). lia.
Qed.

Lemma zsum_ext {A} (f g : A -> Z) l : (forall x, x ∈ l -> f x = g x) -> zsum f l = zsum g l.
Proof. intros H. apply Z.le_antisymm; apply zsum_le; intros x Hx; by rewrite (H x Hx). Qed.

Lemma zsum_map {A B} (f : B -> Z) (g : A -> B) l : zsum f (map g l) = zsum (fun x => f (g x)) l.
Proof. induction l as [|a l IH]; [done|]. cbn. f_equal. exact IH. Qed.

Lemma zsum_add {A} (f g : A -> Z) l : zsum (fun x => f x + g x) l = zsum f l + zsum g l.
Proof. induction l as [|a l IH]; [done|]. cbn. change (f a + g a + zsum (fun x => f x + g x) l = f a + zsum f l + (g a + zsum g l)). lia. Qed.

Lemma zsum_const {A} c (l : list A) : zsum (fun _ => c) l = c * Z.of_nat (length l).
Proof. induction l as [|a l IH]; [cbn; lia|]. cbn [length]. change (c + zsum (fun _ => c) l = c * Z.of_nat (S (length l))). lia. Qed.

Lemma zsum_member {A} (f : A -> Z) lo x l : (forall y, y ∈ l -> lo <= f y) -> x ∈ l -> f x + lo * (Z.of_nat (length l) - 1) <= zsum f l.
Proof.
  induction l as [|a l IH]; intros H; [by intros []%elem_of_nil|]. cbn [length]. change (zsum f (a :: l)) with (f a + zsum f l).
  pose proof (H a ltac:(left)) as Ha. intros [->|Hx]%elem_of_cons.
  - pose proof (zsum_le (fun _ => lo) f l ltac:(intros y Hy; apply H; by right)) as Hl. rewrite zsum_const in Hl. lia.
  - specialize (IH ltac:(intros y Hy; apply H; by right) Hx). lia.
Qed.

(** A peer that works and has not failed lately. *)
Definition healthy (p : peer) : Prop := down p = false /\ fails p = 0 /\ 0 <= max_fails p /\ 1 <= weight p /\ effective_weight p = weight p.

Lemma passed_peer_keeps p : weight (passed_peer p) = weight p /\ current_weight (passed_peer p) = current_weight p /\ (healthy p -> healthy (passed_peer p)).
Proof.
  unfold passed_peer. destruct (accessed p <? checked p); [|done]. split; [done|]. split; [done|].
  intros (H1 & H2 & H3 & H4 & H5). by split_and!.
Qed.

Lemma healthy_usable now p : healthy p -> usable now p = true.
Proof.
  intros (Hd & Hf & Hm & _). unfold usable. rewrite Hd, Hf. destruct (Z.eqb_spec (max_fails p) 0); [done|].
  destruct (Z.leb_spec (max_fails p) 0); [lia|done].
Qed.

(** A request that starts afresh, finds a peer and succeeds; [None] when no peer is
    usable. *)
Definition fresh_data (g : group) : rr_data :=
  let n := match next g with Some b => Z.max (number (primary g)) (number b) | None => number (primary g) end in
  mk_rr false 0 (replicate (Z.to_nat (Z.max 1 (words n))) 0).
Definition fresh_pc (g : group) : peer_connection := mk_pc None None (number (primary g)) false None.
Definition serve (now : Z) (g : group) : out (option nat * group) :=
  let! (rc, g, d, c) := ngx_http_upstream_get_round_robin_peer now g (fresh_data g) (fresh_pc g) in
  if rc =? NGX_OK then let! (g, _) := ngx_http_upstream_free_round_robin_peer now 0 g d c in Ok (Some (Z.to_nat (current d)), g)
  else Ok (None, g).
Fixpoint serve_all (nows : list Z) (g : group) : out (list nat * group) :=
  match nows with
  | [] => Ok ([], g)
  | now :: nows' =>
      let! (i, g) := serve now g in
      let! (picks, g) := serve_all nows' g in
      Ok (match i with Some i => i :: picks | None => picks end, g)
  end.

Lemma words_room n : 0 <= n -> n <= 64 * Z.max 1 (words n).
Proof. intros Hn. unfold words. pose proof (Z.div_mod (n + 63) 64 ltac:(lia)). pose proof (Z.mod_pos_bound (n + 63) 64 ltac:(lia)). lia. Qed.

Lemma words_mono n k : n <= k -> words n <= words k.
Proof. intros H. unfold words. apply Z.div_le_mono; lia. Qed.

Lemma fresh_data_room g : room (tried (fresh_data g)) (length (peer_list (primary g))) /\ exists k, tried (fresh_data g) = replicate k 0.
Proof.
  split; [|by eexists]. unfold room, fresh_data. cbn [tried]. rewrite length_replicate. fold (number (primary g)).
  pose proof (words_room (number (primary g)) ltac:(unfold number; lia)). destruct (next g) as [b|]; [|lia].
  pose proof (words_mono (number (primary g)) (Z.max (number (primary g)) (number b)) ltac:(lia)). lia.
Qed.

Section Shares.
Context (ws : list Z) (Hne : ws <> []).
Let W : Z := zsum id ws.
Context (Hbound : Z.of_nat (length ws) * W < 2 ^ 62).

Record shares (m : Z) (cnt : nat -> Z) (l : list peer) : Prop := {
  sh_weights : map weight l = ws;
  sh_healthy : Forall healthy l;
  sh_sum : zsum current_weight l = 0;
  sh_each : forall j p, l !! j = Some p -> current_weight p = m * weight p - W * cnt j /\ - W < current_weight p }.

Lemma weights_pos : forall l, Forall healthy l -> Forall (fun w => 1 <= w) (map weight l).
Proof. induction 1 as [|p l (_ & _ & _ & H & _) _ IH]; constructor; done. Qed.

Lemma zsum_pos (l : list Z) : Forall (fun w => 1 <= w) l -> Z.of_nat (length l) <= zsum id l /\ forall w, w ∈ l -> w <= zsum id l.
Proof.
  induction 1 as [|w l Hw _ [IH1 IH2]]; cbn [length]; [split; [cbn; lia|by intros w []%elem_of_nil]|].
  change (zsum id (w :: l)) with (w + zsum id l). split; [lia|]. intros v [->|Hv]%elem_of_cons; [lia|]. specialize (IH2 v Hv). lia.
Qed.

Section Step.
Context (m : Z) (cnt : nat -> Z) (l : list peer) (Hsh : shares m cnt l).

Lemma W_ge : Z.of_nat (length l) <= W /\ forall j p, l !! j = Some p -> weight p <= W.
Proof.
  destruct Hsh as [Hw Hh _ _]. pose proof (weights_pos l Hh) as Hp. rewrite Hw in Hp. apply zsum_pos in Hp as [H1 H2].
  rewrite <- Hw, length_map, Hw in H1. split; [exact H1|]. intros j p Hj. apply H2. rewrite <- Hw. apply list_elem_of_fmap. exists p.
  split; [done|]. by apply list_elem_of_lookup_2 with j.
Qed.

Lemma W_small : W < 2 ^ 62.
Proof.
  destruct W_ge as [Hlen _]. destruct Hsh as [Hw _ _ _]. assert (Hn : length l = length ws) by (by rewrite <- Hw, length_map). rewrite Hn in Hlen.
  destruct (length ws) eqn:E; [by apply length_zero_iff_nil in E|]. nia.
Qed.

Lemma cw_bound j p : l !! j = Some p -> - 2 ^ 62 < current_weight p < 2 ^ 62 - W /\ 1 <= weight p <= W.
Proof.
  intros Hj. destruct W_ge as [Hlen Hw]. pose proof (Hw j p Hj). destruct Hsh as [Hws Hh Hs He]. destruct (He j p Hj) as [_ Hlow].
  assert (Hn : Z.of_nat (length l) = Z.of_nat (length ws)) by (by rewrite <- Hws, length_map).
  pose proof (Forall_lookup_1 _ _ _ _ Hh Hj) as (_ & _ & _ & Hw1 & _).
  pose proof (zsum_member current_weight (- W + 1) p l) as Hm. rewrite Hs in Hm.
  assert (current_weight p + (- W + 1) * (Z.of_nat (length l) - 1) <= 0).
  { apply Hm; [|by apply list_elem_of_lookup_2 with j]. intros q [k Hk]%list_elem_of_lookup. destruct (He k q Hk). lia. }
  apply lookup_lt_Some in Hj. nia.
Qed.

Lemma not_marked k j : marked (replicate k 0) j = false.
Proof. unfold marked. rewrite nth_lookup. destruct (replicate k 0 !! _) eqn:E; [apply lookup_replicate in E as [-> _]|]; done. Qed.

Lemma all_eligible now k j i p : l !! j = Some p -> eligible now (replicate k 0) i p = true.
Proof.
  intros Hj. unfold eligible. rewrite not_marked. cbn [negb andb]. apply healthy_usable. destruct Hsh as [_ Hh _ _].
  by apply (Forall_lookup_1 _ _ _ _ Hh Hj).
Qed.

Lemma raised_healthy j p : l !! j = Some p -> raised p = p <| current_weight := current_weight p + weight p |>.
Proof.
  intros Hj. destruct (cw_bound j p Hj) as [Hb Hw]. destruct Hsh as [_ Hh _ _]. destruct (Forall_lookup_1 _ _ _ _ Hh Hj) as (_ & _ & _ & _ & He).
  unfold raised. rewrite He, Z.ltb_irrefl. rewrite i64_small by (unfold INT64_MAX; lia). destruct p. cbn in *. by subst.
Qed.

Lemma raise_all_healthy now k : raise_all now (replicate k 0) 0 l = map (fun p => p <| current_weight := current_weight p + weight p |>) l.
Proof.
  apply list_eq. intros j. rewrite lookup_raise_all. change (map ?f l) with (f <$> l). rewrite list_lookup_fmap.
  destruct (l !! j) as [p|] eqn:Hj; [|done]. cbn [fmap option_fmap option_map]. rewrite (all_eligible now k j _ p Hj). f_equal. by apply (raised_healthy j).
Qed.

Lemma total_healthy now k : total_of now (replicate k 0) 0 l 0 = W.
Proof.
  destruct W_ge as [Hlen _]. destruct Hsh as [Hw Hh _ _].
  assert (H : forall l' i tot, Forall healthy l' -> 0 <= tot -> tot + zsum weight l' < 2 ^ 62 ->
    total_of now (replicate k 0) i l' tot = tot + zsum weight l').
  { induction l' as [|p l' IH]; intros i tot Hl Ht Hlt; cbn [total_of]; [cbn; lia|].
    apply Forall_cons in Hl as [Hp Hl]. assert (He : eligible now (replicate k 0) i p = true) by (unfold eligible; rewrite not_marked; by apply healthy_usable).
    rewrite He. destruct Hp as (_ & _ & _ & H1 & ->). change (zsum weight (p :: l')) with (weight p + zsum weight l') in *.
    assert (0 <= zsum weight l').
    { pose proof (zsum_le (fun _ => 0) weight l') as Hz. rewrite zsum_const in Hz. rewrite Z.mul_0_l in Hz. apply Hz.
      intros q Hq. rewrite Forall_forall in Hl. specialize (Hl q Hq). destruct Hl as (_ & _ & _ & ? & _). lia. }
    rewrite i64_small by (unfold INT64_MAX; lia). rewrite IH by (done || lia). lia. }
  assert (HW : zsum weight l = W) by (unfold W; rewrite <- Hw, zsum_map; done).
  rewrite H; [by rewrite HW|done|lia|]. rewrite HW. pose proof (weights_pos l Hh) as Hp. rewrite Hw in Hp. apply zsum_pos in Hp as [Hp _].
  assert (1 <= Z.of_nat (length ws)) by (destruct (length ws) eqn:E; [by apply length_zero_iff_nil in E|lia]). fold W in Hp. nia.
Qed.

(** The peer that is chosen keeps the weights balanced. *)
Lemma chosen_shares now j p : l !! j = Some p -> (forall k q, l !! k = Some q -> score q <= score p) ->
  shares (m + 1) (fun k => if Nat.eqb k j then cnt k + 1 else cnt k)
    (alter passed_peer j (alter (fun p => p <| current_weight := i64 (current_weight p - W) |> <| checked := now |>) j
      (map (fun p => p <| current_weight := current_weight p + weight p |>) l))).
Proof.
  intros Hj Hmax. pose proof Hsh as [Hw Hh Hs He].
  set (l1 := map (fun p => p <| current_weight := current_weight p + weight p |>) l).
  assert (H1 : l1 !! j = Some (p <| current_weight := current_weight p + weight p |>)) by (unfold l1; rewrite list_lookup_fmap, Hj; done).
  assert (HW : zsum weight l = W) by (unfold W; rewrite <- Hw, zsum_map; done).
  assert (Hs1 : zsum current_weight l1 = W) by (unfold l1; rewrite zsum_map; cbn; rewrite zsum_add, Hs, HW; done).
  (* the largest weight is positive *)
  assert (Hsc : forall k q, l !! k = Some q -> score q = current_weight q + weight q).
  { intros k q Hk. unfold score. destruct (Forall_lookup_1 _ _ _ _ Hh Hk) as (_ & _ & _ & _ & ->). destruct (cw_bound k q Hk). rewrite i64_small by (unfold INT64_MAX; lia). done. }
  assert (Hpos : 1 <= current_weight p + weight p).
  { apply Z.nlt_ge. intros Hlt. assert (zsum current_weight l1 <= 0).
    { pose proof (zsum_le current_weight (fun _ => 0) l1) as Hz. rewrite zsum_const, Z.mul_0_l in Hz. apply Hz. intros q [q0 [-> Hq]]%list_elem_of_fmap.
      apply list_elem_of_lookup in Hq as [k Hk]. specialize (Hmax k q0 Hk). rewrite !(Hsc _ _ Hk), !(Hsc _ _ Hj) in Hmax. cbn. lia. }
    destruct W_ge as [Hlen _]. apply lookup_lt_Some in Hj. lia. }
  destruct (cw_bound j p Hj) as [Hb Hwp].
  set (p1 := p <| current_weight := current_weight p + weight p |>) in *.
  set (p2 := p1 <| current_weight := i64 (current_weight p1 - W) |> <| checked := now |>).
  assert (Hp2 : current_weight p2 = current_weight p + weight p - W).
  { unfold p2, p1. cbn. apply i64_small. unfold INT64_MAX. pose proof W_small. lia. }
  assert (Hlook : forall k q, alter passed_peer j (alter (fun p => p <| current_weight := i64 (current_weight p - W) |> <| checked := now |>) j l1) !! k = Some q ->
    exists q0, l !! k = Some q0 /\ weight q = weight q0 /\ (healthy q0 -> healthy q) /\
      current_weight q = current_weight q0 + weight q0 - (if Nat.eqb k j then W else 0)).
  { intros k q Hq. destruct (Nat.eqb_spec k j) as [->|Hkj].
    - rewrite !list_lookup_alter_eq, H1 in Hq. assert (Hq2 : q = passed_peer p2) by by injection Hq as <-.
      exists p. split; [done|]. destruct (passed_peer_keeps p2) as (K1 & K2 & K3). rewrite Hq2, K1, K2, Hp2. split; [done|]. split; [|done].
      intros (E1 & E2 & E3 & E4 & E5). apply K3. by split_and!.
    - rewrite !list_lookup_alter_ne in Hq by done. unfold l1 in Hq. change (map ?f l) with (f <$> l) in Hq. rewrite list_lookup_fmap in Hq.
      destruct (l !! k) as [q0|] eqn:Hk; [|done]. injection Hq as <-. exists q0. split; [done|]. split; [done|]. split; [done|]. cbn. lia. }
  split.
  - rewrite <- Hw. change (map ?f ?x) with (f <$> x). apply list_eq. intros k. rewrite !list_lookup_fmap.
    destruct (_ !! k) as [q|] eqn:Hq; [destruct (Hlook k q Hq) as (q0 & Hk & Hwq & _); rewrite Hk; cbn; by rewrite Hwq|].
    apply lookup_ge_None in Hq. rewrite !length_alter in Hq. unfold l1 in Hq. rewrite length_map in Hq. by rewrite (lookup_ge_None_2 l k Hq).
  - apply Forall_lookup. intros k q Hq. destruct (Hlook k q Hq) as (q0 & Hk & _ & Hhq & _). apply Hhq. by apply (Forall_lookup_1 _ _ _ _ Hh Hk).
  - rewrite (zsum_alter _ _ _ _ p2) by (rewrite list_lookup_alter_eq, H1; done). rewrite (zsum_alter _ _ _ _ p1 H1).
    replace (current_weight (passed_peer p2)) with (current_weight p2) by (unfold passed_peer; by destruct (accessed p2 <? checked p2)).
    fold p2. rewrite Hs1, Hp2. unfold p1. cbn. lia.
  - intros k q Hq. destruct (Hlook k q Hq) as (q0 & Hk & -> & _ & ->). destruct (He k q0 Hk) as [Ec Hlow].
    destruct (cw_bound k q0 Hk) as [_ Hwk]. destruct (Nat.eqb_spec k j) as [->|]; [|lia]. rewrite Hj in Hk. injection Hk as <-. lia.
Qed.
End Step.
Definition balanced (m : Z) (cnt : nat -> Z) (g : group) : Prop := single (primary g) = false /\ shares m cnt (peer_list (primary g)).

Lemma serve_step now m cnt g : balanced m cnt g -> exists j g', serve now g = Ok (Some j, g') /\
  balanced (m + 1) (fun k => if Nat.eqb k j then cnt k + 1 else cnt k) g'.
Proof.
  intros [Hsingle Hsh]. destruct g as [ps nxt]. cbn [primary] in *. unfold serve.
  destruct (fresh_data_room (mk_group ps nxt)) as [Hroom [k Hk]]. cbn [primary] in Hroom.
  set (d := fresh_data (mk_group ps nxt)) in *. assert (Hbk : on_backup d = false) by done. clearbody d. generalize (fresh_pc (mk_group ps nxt)). intros c.
  pose proof (get_peer_spec now (peer_list ps) d Hroom) as Hget. cbv zeta in Hget.
  destruct (fold_left better (scores now (tried d) 0 (peer_list ps)) None) as [[i sc]|].
  2: { destruct Hget as [_ Hno]. exfalso. destruct (peer_list ps) as [|p l'] eqn:El; [destruct Hsh as [Hw _ _ _]; cbn in Hw; by apply Hne|].
       specialize (Hno 0%nat p eq_refl). rewrite Hk in Hno. by rewrite (all_eligible m cnt (p :: l') Hsh now k 0%nat _ p eq_refl) in Hno. }
  destruct Hget as (j & p & t' & -> & Hj & _ & Hmax & _ & _ & Hget). rewrite Hk in Hget, Hmax.
  rewrite (total_healthy m cnt _ Hsh), (raise_all_healthy m cnt _ Hsh) in Hget.
  exists j. eexists. unfold ngx_http_upstream_get_round_robin_peer. cbn [get_round_robin_peer]. rewrite Hbk. cbn [group_peers primary obind next]. rewrite Hsingle, Hget.
  cbn [obind]. rewrite Nat2Z.id.
  assert (Hlk : exists p', alter (fun p => p <| current_weight := i64 (current_weight p - W) |> <| checked := now |>) j
      (map (fun p => p <| current_weight := current_weight p + weight p |>) (peer_list ps)) !! j = Some p').
  { rewrite list_lookup_alter_eq. change (map ?f ?x) with (f <$> x). rewrite list_lookup_fmap, Hj. by eexists. }
  destruct Hlk as [p' Hp']. rewrite Hp'. cbn [obind]. change (NGX_OK =? NGX_OK) with true. cbn iota.
  unfold ngx_http_upstream_free_round_robin_peer. change (on_backup (d <| current := Z.of_nat j |> <| tried := t' |>)) with (on_backup d). rewrite Hbk.
  cbn [group_peers set_peers primary obind]. change (single (ps <| peer_list := ?x |>)) with (single ps). rewrite Hsingle.
  change (current (d <| current := Z.of_nat j |> <| tried := t' |>)) with (Z.of_nat j). rewrite Nat2Z.id.
  change (peer_list (ps <| peer_list := ?x |>)) with x. rewrite Hp'. cbn [obind]. change (Z.land 0 NGX_PEER_FAILED =? 0) with true. cbn [negb]. split; [done|].
  split; [exact Hsingle|]. cbn [primary peer_list update put].
  apply (chosen_shares m cnt (peer_list ps) Hsh now j p Hj). intros i q Hi. apply (Hmax i q Hi). by apply (all_eligible m cnt _ Hsh now k i).
Qed.
Definition picked (picks : list nat) (j : nat) : Z := Z.of_nat (count_occ Nat.eq_dec picks j).

Lemma serve_all_balanced nows : forall m cnt g, balanced m cnt g -> exists picks g', serve_all nows g = Ok (picks, g') /\
  length picks = length nows /\ balanced (m + Z.of_nat (length nows)) (fun j => cnt j + picked picks j) g'.
Proof.
  assert (Hext : forall m f1 f2 g, (forall j, f1 j = f2 j) -> balanced m f1 g -> balanced m f2 g).
  { intros m f1 f2 g Hf [H1 [H2 H3 H4 H5]]. split; [done|]. split; [done..|]. intros j p Hj. rewrite <- Hf. by apply H5. }
  induction nows as [|now nows IH]; intros m cnt g Hb; cbn [serve_all].
  - exists [], g. split; [done|]. split; [done|]. rewrite Z.add_0_r. eapply Hext; [|exact Hb]. intros j. unfold picked. cbn. lia.
  - destruct (serve_step now m cnt g Hb) as (j & g1 & -> & Hb1). cbn [obind].
    destruct (IH _ _ _ Hb1) as (picks & g2 & -> & Hlen & Hb2). cbn [obind]. eexists _, _. split; [done|]. split; [cbn; by f_equal|].
    replace (m + Z.of_nat (length (now :: nows))) with (m + 1 + Z.of_nat (length nows)) by (cbn [length]; lia).
    eapply Hext; [|exact Hb2]. intros k. unfold picked. cbn [count_occ]. destruct (Nat.eqb_spec k j) as [->|Hk].
    + destruct (Nat.eq_dec j j); [lia|done].
    + destruct (Nat.eq_dec j k); [by subst|lia].
Qed.

(** When a cycle is complete every peer has had its share. *)
Lemma cycle_complete cnt l : shares W cnt l -> forall j p, l !! j = Some p -> cnt j = weight p /\ current_weight p = 0.
Proof.
  intros Hsh j p Hj. destruct (W_ge W cnt l Hsh) as [Hlen _]. pose proof Hsh as [_ _ Hs He].
  assert (Hnn : forall k q, l !! k = Some q -> 0 <= current_weight q).
  { intros k q Hk. destruct (He k q Hk) as [E Hlow]. rewrite E in *. apply lookup_lt_Some in Hk.
    assert (0 < W) by lia. assert (0 <= weight q - cnt k) by (apply Z.lt_succ_r, (Z.mul_lt_mono_pos_l W); lia). nia. }
  assert (Hz : current_weight p = 0).
  { pose proof (zsum_member current_weight 0 p l) as Hm. rewrite Hs in Hm. pose proof Hnn as Hnn'. specialize (Hnn j p Hj).
    assert (current_weight p + 0 * (Z.of_nat (length l) - 1) <= 0); [|lia]. apply Hm; [|by apply list_elem_of_lookup_2 with j].
    intros q [k Hk]%list_elem_of_lookup. by apply (Hnn' k q). }
  split; [|done]. destruct (He j p Hj) as [E _]. apply lookup_lt_Some in Hj. assert (0 < W) by lia.
  apply (Z.mul_reg_l _ _ W); lia.
Qed.
End Shares.

(** ** The configuration *)

Lemma u64_u64 a b : u64 (u64 a + b) = u64 (a + b).
Proof. unfold u64, uwrap. apply Zplus_mod_idemp_l. Qed.

Lemma count_servers_number bk l : fst (count_servers bk l) = u64 (Z.of_nat (length (peers_of bk l))).
Proof.
  unfold count_servers. assert (H : forall l n w, fst (fold_left (fun '(n, w) s => if Bool.eqb (backup s) bk
      then (u64 (n + Z.of_nat (length (addrs s))), u64 (w + Z.of_nat (length (addrs s)) * s_weight s)) else (n, w)) l (u64 n, w)) =
    u64 (n + Z.of_nat (length (peers_of bk l)))).
  { clear l. induction l as [|s l IH]; intros n w; cbn [fold_left peers_of]; [cbn; by rewrite Z.add_0_r|].
    rewrite length_app. destruct (Bool.eqb (backup s) bk); [|by rewrite IH].
    rewrite u64_u64, IH, length_map. f_equal. lia. }
  apply (H l 0 0).
Qed.

Definition sound_server (s : server) : Prop := 1 <= s_weight s /\ 0 <= s_max_fails s /\ s_down s = false.
#[export] Instance sound_server_dec s : Decision (sound_server s).
Proof. unfold sound_server. apply _. Defined.

Lemma peers_of_fresh bk l : Forall sound_server l -> Forall (fun p => healthy p /\ current_weight p = 0) (peers_of bk l).
Proof.
  induction 1 as [|s l (H1 & H2 & H3) _ IH]; [constructor|]. cbn [peers_of]. apply Forall_app. split; [|done].
  destruct (Bool.eqb (backup s) bk); [|constructor]. apply Forall_fmap, Forall_forall. intros a _. cbn. by split_and!.
Qed.

Lemma init_group {Osm : OSMem} l host port pl o g pl' o' : 2 <= Z.of_nat (length (peers_of false l)) < 2 ^ 64 ->
  ngx_http_upstream_init_round_robin (Some l) host port None pl o = Ok (NGX_OK, Some g, pl', o') ->
  peer_list (primary g) = peers_of false l /\ single (primary g) = false.
Proof.
  intros Hn. unfold ngx_http_upstream_init_round_robin. pose proof (count_servers_number false l) as Hc.
  destruct (count_servers false l) as [n w]. cbn [fst] in Hc. unfold u64 in Hc. rewrite uwrap_small in Hc by lia. subst n.
  destruct (Z.eqb_spec (Z.of_nat (length (peers_of false l))) 0); [lia|].
  destruct (ngx_pcalloc _ _ _) as [[[[p|] pl1] o1]| |]; cbn [obind]; try done.
  destruct (count_servers true l) as [n2 w2]. destruct (n2 =? 0).
  - intros [= <- _ _]. cbn. split; [done|]. apply Z.eqb_neq. lia.
  - destruct (ngx_pcalloc _ _ _) as [[[[p2|] pl2] o2]| |]; cbn [obind]; try done. by intros [= <- _ _].
Qed.

(** C25: The round robin gives every peer its share.  Take an upstream of several
    peers that all work, as [ngx_http_upstream_init_round_robin] builds it, and
    any number of requests, one after the other, that succeed.  Every request gets
    a peer; at every moment no peer has had more than its share of the requests
    so far, rounded up; and after as many requests as the sum of the weights each
    peer has had exactly as many as its weight, and the upstream is balanced as
    in the beginning. *)
Theorem round_robin_fair {Osm : OSMem} l host port pl o g pl' o' nows :
  let ws := map weight (peers_of false l) in
  let W := zsum id ws in
  Forall sound_server l -> (2 <= length ws)%nat -> Z.of_nat (length ws) * W < 2 ^ 62 ->
  ngx_http_upstream_init_round_robin (Some l) host port None pl o = Ok (NGX_OK, Some g, pl', o') ->
  exists picks g', serve_all nows g = Ok (picks, g') /\ length picks = length nows /\
    (forall j w, ws !! j = Some w -> W * (picked picks j - 1) < Z.of_nat (length nows) * w) /\
    (Z.of_nat (length nows) = W ->
      (forall j w, ws !! j = Some w -> picked picks j = w) /\ zsum (fun p => Z.abs (current_weight p)) (peer_list (primary g')) = 0).
Proof.
  intros ws W Hl Hn Hb Hinit.
  assert (Hne : ws <> []) by (intros E; rewrite E in Hn; cbn in Hn; lia).
  pose proof (peers_of_fresh false l Hl) as Hfresh.
  assert (HW : Z.of_nat (length ws) <= W).
  { refine (proj1 (zsum_pos ws ws _)). apply weights_pos. eapply Forall_impl; [exact Hfresh|]. by intros p [H _]. }
  assert (Hlen : length (peers_of false l) = length ws) by (unfold ws; by rewrite length_map).
  apply init_group in Hinit as [Hg Hsingle]; [|rewrite Hlen; nia].
  assert (Hbal : balanced ws 0 (fun _ => 0) g).
  { split; [done|]. rewrite Hg. split; [done| | |].
    - eapply Forall_impl; [exact Hfresh|]. by intros p [? _].
    - rewrite (zsum_ext _ (fun _ => 0)), zsum_const; [done|]. intros p Hp. rewrite Forall_forall in Hfresh. by apply Hfresh.
    - intros j p Hj. pose proof (Forall_lookup_1 _ _ _ _ Hfresh Hj) as [_ ->]. fold W. lia. }
  destruct (serve_all_balanced ws Hne Hb nows 0 (fun _ => 0) g Hbal) as (picks & g' & E & Hp & Hbal').
  exists picks, g'. split; [done|]. split; [done|]. destruct Hbal' as [_ Hsh]. rewrite Z.add_0_l in Hsh.
  assert (Hlook : forall j w, ws !! j = Some w -> exists p, peer_list (primary g') !! j = Some p /\ weight p = w).
  { intros j w Hj. destruct Hsh as [Hw _ _ _]. rewrite <- Hw in Hj. change (map ?f ?x) with (f <$> x) in Hj. rewrite list_lookup_fmap in Hj.
    destruct (peer_list (primary g') !! j) as [p|]; [|done]. injection Hj as <-. by exists p. }
  split.
  - intros j w Hj. destruct (Hlook j w Hj) as (p & Hpj & <-). destruct Hsh as [_ _ _ He]. destruct (He j p Hpj) as [Ec Hlow]. fold W in Ec, Hlow. lia.
  - intros HL. rewrite HL in Hsh. pose proof (cycle_complete ws _ _ Hsh) as Hc. split.
    + intros j w Hj. destruct (Hlook j w Hj) as (p & Hpj & <-). destruct (Hc j p Hpj) as [<- _]. lia.
    + rewrite (zsum_ext _ (fun _ => 0)), zsum_const; [lia|]. intros p [j Hj]%list_elem_of_lookup. destruct (Hc j p Hj) as [_ ->]. done.
Qed.

(** ** The attempts of one request *)

(** A group of several peers; [n2] is the number of backup peers. *)
Definition shaped (g : group) (n1 n2 : nat) : Prop :=
  single (primary g) = false /\ length (peer_list (primary g)) = n1 /\
  match next g with Some b => single b = false /\ length (peer_list b) = n2 | None => n2 = 0%nat end.

(** What one choice does to the marks of a request. *)
Definition marks (d d' : rr_data) (j : nat) : Prop :=
  current d' = Z.of_nat j /\ marked (tried d) (Z.of_nat j) = false /\
  forall i, 0 <= i -> marked (tried d') i = marked (tried d) i || (i =? Z.of_nat j).

Lemma choose_marks now l d : room (tried d) (length l) ->
  exists r l' d', ngx_http_upstream_get_peer now l d = Ok (r, l', d') /\ length l' = length l /\
    on_backup d' = on_backup d /\ length (tried d') = length (tried d) /\
    match r with Some i => exists j, i = Z.of_nat j /\ (j < length l)%nat /\ marks d d' j | None => True end.
Proof.
  intros Hroom. pose proof (get_peer_spec now l d Hroom) as H. cbv zeta in H.
  destruct (fold_left better _ None) as [[i sc]|]; [|destruct H as [-> _]; by exists None, l, d].
  destruct H as (j & p & t' & -> & Hj & He & _ & Ht & Hlen & ->). do 3 eexists. split; [done|]. split; [by rewrite length_alter, raise_all_length|].
  split; [done|]. split; [done|]. apply lookup_lt_Some in Hj. exists j. split; [done|]. split; [done|]. split; [done|]. split.
  - unfold eligible in He. apply andb_prop in He as [He _]. by apply negb_true_iff in He.
  - intros i Hi. eapply marked_mark; [|done|exact Ht]. unfold room in Hroom. lia.
Qed.

Definition chosen (n1 n2 : nat) (d d' : rr_data) : Prop := exists j,
  (on_backup d' = on_backup d /\ (j < if on_backup d then n2 else n1)%nat /\ marks d d' j) \/
  (on_backup d = false /\ on_backup d' = true /\ (j < n2)%nat /\ current d' = Z.of_nat j /\
   forall i, 0 <= i < Z.of_nat n2 -> marked (tried d') i = (i =? Z.of_nat j)).

Lemma marked_cleared t n i : 0 <= i < 64 * n -> marked (replicate (Z.to_nat n) 0 ++ drop (Z.to_nat n) t) i = false.
Proof.
  intros Hi. unfold marked. rewrite nth_lookup, lookup_app_l.
  - rewrite lookup_replicate_2; [done|]. pose proof (Z.div_lt_upper_bound i 64 n ltac:(lia) ltac:(lia)). pose proof (Z.div_pos i 64 ltac:(lia) ltac:(lia)). lia.
  - rewrite length_replicate. pose proof (Z.div_lt_upper_bound i 64 n ltac:(lia) ltac:(lia)). pose proof (Z.div_pos i 64 ltac:(lia) ltac:(lia)). lia.
Qed.

Lemma set_peers_shaped g b ps ps' n1 n2 : group_peers g b = Ok ps -> single ps' = false -> length (peer_list ps') = length (peer_list ps) ->
  shaped g n1 n2 -> shaped (set_peers g b ps') n1 n2.
Proof.
  intros Hps Hs Hl (H1 & H2 & H3). destruct g as [p0 [b0|]], b; cbn in *; try done; injection Hps as <-; split_and!; cbn; try done; try congruence.
  - split; [done|]. rewrite Hl. apply H3.
Qed.

Lemma get_peer_group bk g n1 n2 : shaped g n1 n2 -> (bk = true -> is_Some (next g)) ->
  exists ps, group_peers g bk = Ok ps /\ single ps = false /\ length (peer_list ps) = if bk then n2 else n1.
Proof.
  intros (H1 & H2 & H3) Hb. destruct bk; cbn.
  - destruct (Hb eq_refl) as [b E]. rewrite E in *. by exists b.
  - by exists (primary g).
Qed.

(** A group without backup peers behind it. *)
Lemma get_last depth now g d c n1 n2 : shaped g n1 n2 -> on_backup d = true \/ next g = None -> (on_backup d = true -> is_Some (next g)) ->
  room (tried d) (if on_backup d then n2 else n1) ->
  exists rc g' d' c', get_round_robin_peer (S depth) now g d c = Ok (rc, g', d', c') /\ shaped g' n1 n2 /\ (is_Some (next g) -> is_Some (next g')) /\
    length (tried d') = length (tried d) /\ on_backup d' = on_backup d /\
    ((rc = NGX_OK /\ exists j, (j < if on_backup d then n2 else n1)%nat /\ marks d d' j) \/ rc = NGX_BUSY).
Proof.
  intros Hg Hlast Hnext Hroom. cbn [get_round_robin_peer].
  destruct (get_peer_group _ g n1 n2 Hg Hnext) as (ps & Hps & Hsingle & Hlen). rewrite Hps. cbn [obind].
  replace (if on_backup d then None else next g) with (@None peers) by (destruct Hlast as [-> | ->]; [done|by destruct (on_backup d)]).
  rewrite Hsingle. rewrite <- Hlen in Hroom. destruct (choose_marks now (peer_list ps) d Hroom) as (r & l & d' & -> & Hl & Hb & Ht & Hr). cbn [obind].
  assert (Hg' : shaped (set_peers g (on_backup d) (ps <| peer_list := l |>)) n1 n2) by (by eapply set_peers_shaped).
  assert (Hn' : forall ps', is_Some (next g) -> is_Some (next (set_peers g (on_backup d) ps'))) by (intros ps' Hs; by destruct (on_backup d); cbn; eauto).
  destruct r as [i|].
  - destruct Hr as (j & -> & Hj & Hm). rewrite Nat2Z.id. destruct (lookup_lt_is_Some_2 l j ltac:(lia)) as [p Hp]. rewrite Hp.
    do 4 eexists. split; [reflexivity|]. split; [done|]. split; [exact (Hn' _)|]. split; [done|]. split; [done|]. left. split; [done|]. exists j. split; [by rewrite <- Hlen|done].
  - assert (Hps' : group_peers (set_peers g (on_backup d) (ps <| peer_list := l |>)) (on_backup d) = Ok (ps <| peer_list := l |>)).
    { destruct (on_backup d); done. }
    rewrite Hps'. cbn [obind]. do 4 eexists. split; [reflexivity|]. split.
    + eapply set_peers_shaped; [exact Hps'|done| |done]. cbn. by rewrite length_map.
    + split; [destruct (on_backup d); [by eexists|done]|]. split; [done|]. split; [done|]. by right.
Qed.

Lemma get_any now g d c n1 n2 : shaped g n1 n2 -> (on_backup d = true -> is_Some (next g)) -> room (tried d) n1 -> room (tried d) n2 ->
  exists rc g' d' c', ngx_http_upstream_get_round_robin_peer now g d c = Ok (rc, g', d', c') /\ shaped g' n1 n2 /\
    (is_Some (next g) -> is_Some (next g')) /\ (on_backup d' = true -> is_Some (next g')) /\ length (tried d') = length (tried d) /\
    ((rc = NGX_OK /\ chosen n1 n2 d d') \/ rc = NGX_BUSY).
Proof.
  intros Hg Hnext H1 H2. destruct (on_backup d) eqn:Hb; [|destruct (next g) as [b|] eqn:Hn].
  1, 3: destruct (get_last 1 now g d c n1 n2 Hg) as (rc & g' & d' & c' & E & Hg' & Hs & Ht & Hbk & Hr);
    [first [by left | by right]|rewrite Hb; done|by rewrite Hb|]; rewrite Hb in *;
    exists rc, g', d', c'; (split; [exact E|]); (split; [done|]); (split; [first [done | by rewrite Hn in Hs]|]); (split; [rewrite Hbk; first [intros _; by apply Hs, Hnext | done]|]); (split; [done|]);
    (destruct Hr as [(-> & j & Hj & Hm)| ->]; [left; split; [done|]; exists j; left; by rewrite Hb|by right]).
  (* the primary peers, and the backup ones behind them *)
  unfold ngx_http_upstream_get_round_robin_peer. pose (dep := 1%nat). change 2%nat with (S dep). cbn [get_round_robin_peer].
  rewrite Hb, Hn. pose proof Hg as (S1 & S2 & S3). rewrite Hn in S3. cbn [group_peers obind]. rewrite S1.
  rewrite <- S2 in H1. destruct (choose_marks now (peer_list (primary g)) d H1) as (r & l & d1 & -> & Hl & Hb1 & Ht1 & Hr). cbn [obind].
  set (g1 := set_peers g false ((primary g) <| peer_list := l |>)).
  assert (Hg1 : shaped g1 n1 n2) by (by eapply set_peers_shaped). assert (Hn1 : next g1 = Some b) by exact Hn.
  destruct r as [i|].
  - destruct Hr as (j & -> & Hj & Hm). rewrite Nat2Z.id. destruct (lookup_lt_is_Some_2 l j ltac:(lia)) as [p Hp]. rewrite Hp.
    do 4 eexists. split; [reflexivity|]. split; [done|]. split; [by rewrite Hn1|]. split; [by rewrite Hn1|]. split; [done|]. left. split; [done|].
    exists j. left. rewrite Hb, Hb1. by rewrite <- S2.
  - unfold clear_tried. destruct S3 as [S3 S4]. unfold number. rewrite S4.
    assert (Hw2 : words (Z.of_nat n2) <= Z.of_nat (length (tried d1))).
    { rewrite Ht1. unfold room in H2. unfold words. apply Z.lt_succ_r. apply Z.div_lt_upper_bound; lia. }
    destruct (Z.ltb_spec (Z.of_nat (length (tried d1))) (words (Z.of_nat n2))); [lia|]. cbn [obind].
    set (d2 := d1 <| on_backup := true |> <| tried := _ |>).
    assert (Ht2 : length (tried d2) = length (tried d)).
    { unfold d2. cbn. rewrite length_app, length_replicate, length_drop, <- Ht1. unfold words in *. assert (0 <= (Z.of_nat n2 + 63) / 64) by (apply Z.div_pos; lia). lia. }
    destruct (get_last 0 now g1 d2 (c <| cached := false |> <| connection := None |> <| tries := Z.of_nat n2 |>) n1 n2 Hg1) as (rc & g' & d' & c' & E & Hg' & Hs & Ht & Hbk & Hres).
    + by left.
    + intros _. rewrite Hn1. by eexists.
    + unfold room in *. rewrite Ht2. exact H2.
    + unfold dep. rewrite E. cbn [obind]. assert (Hnx : is_Some (next g')) by (apply Hs; rewrite Hn1; by eexists).
      destruct Hres as [(-> & j & Hj & Hc & _ & Hm)| ->].
      * do 4 eexists. split; [reflexivity|]. split; [done|]. split; [done|]. split; [done|]. split; [congruence|]. left. split; [done|].
        exists j. right. split; [done|]. split; [exact Hbk|]. split; [exact Hj|]. split; [exact Hc|]. intros i Hi. rewrite Hm by lia. unfold d2. cbn [tried update put].
        rewrite marked_cleared; [done|]. unfold words in *. pose proof (Z.div_mod (Z.of_nat n2 + 63) 64 ltac:(lia)). pose proof (Z.mod_pos_bound (Z.of_nat n2 + 63) 64 ltac:(lia)). lia.
      * cbn [negb]. change (NGX_BUSY =? NGX_BUSY) with true. cbn [negb]. cbn [group_peers obind].
        do 4 eexists. split; [reflexivity|]. split; [eapply (set_peers_shaped _ false); [done| | |done]; cbn; [by destruct Hg'|by rewrite length_map]|].
        split; [intros _; exact Hnx|]. split; [intros _; exact Hnx|]. split; [congruence|]. by right.
Qed.

(** The attempts of a request at the times [nows], each of which fails, until no
    peer is left. *)
Fixpoint attempts (nows : list Z) (g : group) (d : rr_data) (c : peer_connection) : out (list (bool * nat) * Z) :=
  match nows with
  | [] => Ok ([], NGX_OK)
  | now :: nows' =>
      let! (rc, g, d, c) := ngx_http_upstream_get_round_robin_peer now g d c in
      if rc =? NGX_OK then
        let! (g, c) := ngx_http_upstream_free_round_robin_peer now NGX_PEER_FAILED g d c in
        let! (picks, rc) := attempts nows' g d c in
        Ok ((on_backup d, Z.to_nat (current d)) :: picks, rc)
      else Ok ([], rc)
  end.

Definition in_group (n1 n2 : nat) (x : bool * nat) : Prop := (x.2 < if x.1 then n2 else n1)%nat.

(** The peers seen so far are marked. *)
Record seen_ok (n1 n2 : nat) (seen : list (bool * nat)) (g : group) (d : rr_data) : Prop := {
  so_shape : shaped g n1 n2;
  so_next : on_backup d = true -> is_Some (next g);
  so_room : room (tried d) n1 /\ room (tried d) n2;
  so_marked : forall b j, ((b, j) ∈ seen) -> in_group n1 n2 (b, j) /\ (b = on_backup d -> marked (tried d) (Z.of_nat j) = true) /\ (b = true -> on_backup d = true) }.

Lemma free_shaped now state g d c n1 n2 : shaped g n1 n2 -> (on_backup d = true -> is_Some (next g)) ->
  (Z.to_nat (current d) < if on_backup d then n2 else n1)%nat ->
  exists g' c', ngx_http_upstream_free_round_robin_peer now state g d c = Ok (g', c') /\ shaped g' n1 n2 /\ (is_Some (next g) -> is_Some (next g')).
Proof.
  intros Hg Hn Hj. destruct (get_peer_group _ g n1 n2 Hg Hn) as (ps & Hps & Hsingle & Hlen). unfold ngx_http_upstream_free_round_robin_peer.
  rewrite Hps. cbn [obind]. rewrite Hsingle. rewrite <- Hlen in Hj. destruct (lookup_lt_is_Some_2 _ _ Hj) as [p ->].
  do 2 eexists. split; [reflexivity|]. split; [eapply set_peers_shaped; [exact Hps|done| |done]; cbn; by rewrite length_alter|].
  intros Hs. destruct (on_backup d); [by eexists|done].
Qed.

Lemma attempts_spec n1 n2 nows : forall seen g d c, seen_ok n1 n2 seen g d -> exists picks rc, attempts nows g d c = Ok (picks, rc) /\
  NoDup picks /\ (forall x, (x ∈ picks) -> (x ∉ seen) /\ in_group n1 n2 x) /\ (rc = NGX_BUSY \/ length picks = length nows).
Proof.
  induction nows as [|now nows IH]; intros seen g d c Hok; cbn [attempts].
  { exists [], NGX_OK. split; [done|]. split; [constructor|]. split; [by intros x []%elem_of_nil|by right]. }
  destruct Hok as [Hg Hn [H1 H2] Hm].
  destruct (get_any now g d c n1 n2 Hg Hn H1 H2) as (rc & g1 & d1 & c1 & -> & Hg1 & Hs1 & Hn1 & Ht & Hr). cbn [obind].
  destruct Hr as [(-> & Hch)| ->].
  2: { exists [], NGX_BUSY. split; [done|]. split; [constructor|]. split; [by intros x []%elem_of_nil|by left]. }
  change (NGX_OK =? NGX_OK) with true. cbn iota.
  assert (Hx : exists j, Z.to_nat (current d1) = j /\ in_group n1 n2 (on_backup d1, j) /\ ((on_backup d1, j) ∉ seen) /\
    seen_ok n1 n2 ((on_backup d1, j) :: seen) g1 d1).
  { assert (Hroom : room (tried d1) n1 /\ room (tried d1) n2) by (unfold room in *; by rewrite Ht).
    destruct Hch as (j & [(Hb & Hj & Hc & Hf & Hmk)|(Hb & Hb1 & Hj & Hc & Hmk)]); exists j.
    - split; [by rewrite Hc, Nat2Z.id|]. assert (Hin : in_group n1 n2 (on_backup d1, j)) by (unfold in_group; by rewrite Hb).
      split; [done|]. split; [intros Hs; destruct (Hm _ _ Hs) as (_ & Hmm & _); rewrite Hb in Hmm; specialize (Hmm eq_refl); congruence|].
      split; [done..|]. intros b i [[= -> ->]|Hs]%elem_of_cons.
      + split; [done|]. split; [intros _; rewrite Hmk by lia; rewrite Z.eqb_refl; apply orb_true_r|done].
      + destruct (Hm b i Hs) as (Hi & Hmm & Hbb). split; [done|]. rewrite Hb. split; [|done]. intros E. rewrite Hmk by lia. by rewrite (Hmm E).
    - split; [by rewrite Hc, Nat2Z.id|]. assert (Hin : in_group n1 n2 (on_backup d1, j)) by (unfold in_group; by rewrite Hb1).
      split; [done|]. split; [rewrite Hb1; intros Hs; destruct (Hm _ _ Hs) as (_ & _ & Hbb); specialize (Hbb eq_refl); congruence|].
      split; [done..|]. intros b i [[= -> ->]|Hs]%elem_of_cons.
      + split; [done|]. split; [intros _; rewrite Hmk by lia; by rewrite Z.eqb_refl|done].
      + destruct (Hm b i Hs) as (Hi & _ & Hbb). split; [done|]. split; [|done]. rewrite Hb1. intros ->. specialize (Hbb eq_refl). congruence. }
  destruct Hx as (j & Hj & Hin & Hnot & Hok1). rewrite Hj.
  destruct (free_shaped now NGX_PEER_FAILED g1 d1 c1 n1 n2 Hg1 Hn1) as (g2 & c2 & -> & Hg2 & Hs2); [by rewrite Hj|]. cbn [obind].
  destruct (IH ((on_backup d1, j) :: seen) g2 d1 c2) as (picks & rc & -> & Hnd & Hnew & Hend).
  { destruct Hok1 as [_ Hnx Hrm Hmk]. split; [done| |done|done]. intros Hb. by apply Hs2, Hnx. }
  cbn [obind]. exists ((on_backup d1, j) :: picks), rc. split; [done|]. split; [|split].
  - constructor; [|done]. intros Hp. destruct (Hnew _ Hp) as [Hno _]. apply Hno. by left.
  - intros x [->|Hp]%elem_of_cons; [done|]. destruct (Hnew x Hp) as [Hno Hi]. split; [|done]. intros Hs. apply Hno. by right.
  - destruct Hend; [by left|right]. cbn. by f_equal.
Qed.

Lemma in_group_bound n1 n2 picks : NoDup picks -> (forall x, x ∈ picks -> in_group n1 n2 x) -> (length picks <= n1 + n2)%nat.
Proof.
  intros Hnd Hin. transitivity (length (map (pair false) (seq 0 n1) ++ map (pair true) (seq 0 n2))).
  - apply submseteq_length, NoDup_submseteq; [done|]. intros [b j] Hx. specialize (Hin _ Hx). unfold in_group in Hin. cbn in Hin.
    apply elem_of_app. destruct b; [right|left]; apply list_elem_of_fmap; exists j; (split; [done|]); apply elem_of_seq; lia.
  - rewrite length_app, !length_map, !length_seq. lia.
Qed.

(** C26: A request ends.  In an upstream of several peers, whatever their state and
    however the times pass, a request that starts afresh and fails at every peer
    it gets never gets a peer twice, reads no mark outside its array, goes on to
    the backup peers, and after at most as many attempts as there are peers is
    told that none is left. *)
Theorem attempts_end g n1 n2 nows c : shaped g n1 n2 ->
  exists picks rc, attempts nows g (fresh_data g) c = Ok (picks, rc) /\
    NoDup picks /\ (forall x, x ∈ picks -> in_group n1 n2 x) /\ (length picks <= n1 + n2)%nat /\
    ((n1 + n2 < length nows)%nat -> rc = NGX_BUSY).
Proof.
  intros Hg. destruct (attempts_spec n1 n2 nows [] g (fresh_data g) c) as (picks & rc & E & Hnd & Hnew & Hend).
  - split; [done|done| |by intros b j []%elem_of_nil]. pose proof Hg as (_ & H1 & H2). destruct (fresh_data_room g) as [Hr _]. rewrite H1 in Hr. split; [done|].
    unfold room, fresh_data in *. cbn [tried] in *. rewrite length_replicate in *. destruct (next g) as [b|]; [|lia]. destruct H2 as [_ H2].
    unfold number, words in *. rewrite H2 in *. rewrite H1 in *. pose proof (Z.div_mod (Z.max (Z.of_nat n1) (Z.of_nat n2) + 63) 64 ltac:(lia)).
    pose proof (Z.mod_pos_bound (Z.max (Z.of_nat n1) (Z.of_nat n2) + 63) 64 ltac:(lia)). lia.
  - assert (Hb : (length picks <= n1 + n2)%nat) by (apply in_group_bound; [done|]; intros x Hx; by apply Hnew).
    exists picks, rc. split; [done|]. split; [done|]. split; [intros x Hx; by apply Hnew|]. split; [done|]. intros Hlt. destruct Hend; [done|lia].
Qed.

(** ** An example *)

#[local] Existing Instance known_mem.
Definition demo_addr (n : Z) : addr := mk_addr [2; n] 16 (bs "10.0.0." ++ [48 + n]).
Definition demo_servers : list server :=
  [mk_server [demo_addr 1] 5 1 10 false false; mk_server [demo_addr 2; demo_addr 3] 1 0 10 false false; mk_server [demo_addr 4] 1 1 10 false true].
Definition demo_init : out (Z * option group * pool * @os known_mem) :=
  ngx_http_upstream_init_round_robin (Some demo_servers) (bs "app") 0 None demo_pool4k (demo_blocks : @os known_mem).
Definition init_ok (m : out (Z * option group * pool * @os known_mem)) : bool :=
  match m with Ok (rc, Some _, _, _) => rc =? NGX_OK | _ => false end.

Lemma init_case m (P : group -> Prop) : init_ok m = true -> (forall g pl o, m = Ok (NGX_OK, Some g, pl, o) -> P g) ->
  exists g pl o, m = Ok (NGX_OK, Some g, pl, o) /\ P g.
Proof.
  destruct m as [[[[rc [g|]] pl] o]| |]; try done. cbn. intros ->%Z.eqb_eq H. exists g, pl, o. split; [done|]. by eapply H.
Qed.

Lemma demo_init_ok : init_ok demo_init = true.
Proof. vm_compute. reflexivity. Qed.

Lemma round_robin_fair_witness :
  exists g pl o, demo_init = Ok (NGX_OK, Some g, pl, o) /\
    exists picks g', serve_all (replicate 7 100) g = Ok (picks, g') /\
      picked picks 0 = 5 /\ picked picks 1 = 1 /\ picked picks 2 = 1.
Proof.
  apply (init_case _ _ demo_init_ok). intros g pl o E.
  destruct (round_robin_fair demo_servers (bs "app") 0 demo_pool4k (demo_blocks : @os known_mem) g pl o (replicate 7 100)) as (picks & g' & Es & _ & _ & Hc);
    [by apply (bool_decide_unpack _); vm_compute|vm_compute; lia|vm_compute; reflexivity|exact E|].
  destruct Hc as [Hc _]; [by vm_compute|]. exists picks, g'. split; [exact Es|]. split; [|split]; apply Hc; reflexivity.
Defined.

Definition demo_group : group :=
  mk_group (mk_peers 7 false true (bs "app") (peers_of false demo_servers)) (Some (mk_peers 1 false false (bs "app") (peers_of true demo_servers))).

Lemma attempts_end_witness :
  exists picks rc, attempts (replicate 5 100) demo_group (fresh_data demo_group) (fresh_pc demo_group) = Ok (picks, rc) /\
    rc = NGX_BUSY /\ (length picks <= 4)%nat.
Proof.
  destruct (attempts_end demo_group 3 1 (replicate 5 100) (fresh_pc demo_group)) as (picks & rc & Ea & _ & _ & Hl & Hb);
    [split; [reflexivity|]; split; [reflexivity|]; split; reflexivity|].
  exists picks, rc. split; [exact Ea|]. split; [apply Hb; cbn; lia|exact Hl].
Defined.
