(* ===== verification/NgxUpstreamPolicy.v ===== *)
(** * Other policies for an upstream: ngx_http_upstream_ip_hash_module.c,
    ngx_http_upstream_least_conn_module.c

    Both keep the data of the round robin and fall back on it. *)
From S2P Require Import Prelude.
From S2P Require Export NgxUpstreamRR.
#[local] Open Scope Z_scope.

(** ** The hash of the address of the client *)

Module IpHash.

(** [ngx_http_upstream_ip_hash_peer_data_t]; [addr] are the [addrlen] bytes that
    are hashed, [tries] an unsigned char. *)
Record peer_data := mk_data { rrp : rr_data; hash : Z; addr : bytes; ip_tries : Z }.
#[export] Instance data_settable : Settable peer_data := fun d => mk_data (rrp d) (hash d) (addr d) (ip_tries d).

Definition sizeof_ip_hash_data : Z := 72.

(** The family of the client and the bytes of its address. *)
Inductive client := Inet (a : bytes) | Inet6 (a : bytes) | Other.
Definition hashed (c : client) : bytes :=
  match c with Inet a => take 3 a | Inet6 a => take 16 a | Other => [0; 0; 0] end.

Section IpHash.
Context {Osm : OSMem}.

Definition ngx_http_upstream_init_ip_hash_peer (g : group) (cl : client) (c : peer_connection) (pl : pool) (o : os)
  : out (Z * option peer_data * peer_connection * pool * os) :=
  let! (p, pl, o) := ngx_palloc pl sizeof_ip_hash_data o in
  match p with
  | None => Ok (NGX_ERROR, None, c, pl, o)
  | Some _ =>
      let! x := ngx_http_upstream_init_round_robin_peer g (Some (mk_rr false 0 [])) c pl o in
      let '(rc, d, c, pl, o) := x in
      if negb (rc =? NGX_OK) then Ok (NGX_ERROR, None, c, pl, o)
      else
        match d with
        | None => Undef NullDeref
        | Some d => Ok (NGX_OK, Some (mk_data d 89 (hashed cl) 0), c, pl, o)
        end
  end.
End IpHash.

Definition hash_addr (h : Z) (a : bytes) : Z := fold_left (fun h b => u64 (u64 (h * 113) + b) mod 6271) a h.

(** The loop over the weights; the index of the peer. *)
Fixpoint weighted_index (w : Z) (l : list peer) (i : Z) : Z :=
  match l with
  | [] => i
  | p :: l' => let w := w - weight p in if w <? 0 then i else weighted_index w l' (i + 1)
  end.

Definition index_of (h : Z) (ps : peers) : out Z :=
  if negb (weighted ps) then if number ps =? 0 then Undef DivByZero else Ok (h mod number ps)
  else if total_weight ps =? 0 then Undef DivByZero else Ok (weighted_index (h mod total_weight ps) (peer_list ps) 0).

(** [for ( ;; )]: the peers, the request, and the peer or [None] for the round
    robin. *)
Fixpoint ip_hash_loop (fuel : nat) (now h : Z) (ps : peers) (d : peer_data) (c : peer_connection)
  : out (option (Z * Z) * peers * peer_data * peer_connection) :=
  match fuel with
  | O => NoFuel
  | S f =>
      let h := hash_addr h (addr d) in
      let! p := index_of h ps in
      let next ps d c :=
        let t := uwrap 8 (ip_tries d + 1) in
        let d := d <| ip_tries := t |> in
        if 20 <=? t then Ok (None, ps, d, c) else ip_hash_loop f now h ps d c in
      let! w := word_at (tried (rrp d)) p in
      if Z.land w (mask p) =? 0 then
        match peer_list ps !! Z.to_nat p with
        | None => Undef OutOfBounds
        | Some pe =>
            let skip :=
              let! t := mark (tried (rrp d)) p in
              next ps (d <| rrp := (rrp d) <| tried := t |> |>) (c <| tries := u64 (tries c - 1) |>) in
            if down pe then skip
            else if (max_fails pe =? 0) || (fails pe <? max_fails pe) then Ok (Some (h, p), ps, d, c)
            else if fail_timeout pe <? now - checked pe then
              Ok (Some (h, p), ps <| peer_list := alter (fun q => q <| checked := now |>) (Z.to_nat p) (peer_list ps) |>, d, c)
            else skip
        end
      else next ps d c
  end.

Definition ngx_http_upstream_get_ip_hash_peer (now : Z) (g : group) (d : peer_data) (c : peer_connection)
  : out (Z * group * peer_data * peer_connection) :=
  let rr g d c :=
    let! x := ngx_http_upstream_get_round_robin_peer now g (rrp d) c in
    let '(rc, g, r, c) := x in Ok (rc, g, d <| rrp := r |>, c) in
  let! ps := group_peers g (on_backup (rrp d)) in
  if (20 <? ip_tries d) || single ps then rr g d c
  else
    let c := c <| cached := false |> <| connection := None |> in
    let! x := ip_hash_loop 21 now (hash d) ps d c in
    let '(r, ps, d, c) := x in
    let g := set_peers g (on_backup (rrp d)) ps in
    match r with
    | None => rr g d c
    | Some (h, p) =>
        match peer_list ps !! Z.to_nat p with
        | None => Undef OutOfBounds
        | Some pe =>
            let c := c <| pc_sockaddr := Some (sockaddr pe, socklen pe) |> <| pc_name := Some (name pe) |> in
            let! t := mark (tried (rrp d)) p in
            Ok (NGX_OK, g, d <| rrp := (rrp d) <| current := p |> <| tried := t |> |> <| hash := h |>, c)
        end
    end.
End IpHash.

(** ** The least number of connections *)

Module LeastConn.

(** [ngx_http_upstream_lc_peer_data_t]: [conns] is the index in [lcf->conns] that
    its pointer has, the counters themselves belong to the upstream. *)
Record peer_data := mk_data { rrp : rr_data; conns : nat }.
#[export] Instance data_settable : Settable peer_data := fun d => mk_data (rrp d) (conns d).
Definition sizeof_lc_data : Z := 56.

(** [lcp->conns[i]] *)
Definition conns_at (cs : list Z) (base : nat) (i : Z) : out Z :=
  match cs !! (base + Z.to_nat i)%nat with Some n => Ok n | None => Undef OutOfBounds end.
Definition set_conns (cs : list Z) (base : nat) (i : Z) (f : Z -> Z) : out (list Z) :=
  match cs !! (base + Z.to_nat i)%nat with Some n => Ok (<[(base + Z.to_nat i)%nat := u64 (f n)]> cs) | None => Undef OutOfBounds end.

(** [ngx_http_upstream_init_least_conn]: the group and the counters. *)
Definition ngx_http_upstream_init_least_conn {Osm : OSMem} (servers : option (list server)) (host : bytes) (port : Z) (resolved : option (list addr))
  (pl : pool) (o : os) : out (Z * option (group * list Z) * pool * os) :=
  let! x := ngx_http_upstream_init_round_robin servers host port resolved pl o in
  let '(rc, g, pl, o) := x in
  if negb (rc =? NGX_OK) then Ok (NGX_ERROR, None, pl, o)
  else
    match g with
    | None => Undef NullDeref
    | Some g =>
        let n := u64 (number (primary g) + match next g with Some b => number b | None => 0 end) in
        let! (p, pl, o) := ngx_pcalloc pl (8 * n) o in
        match p with
        | None => Ok (NGX_ERROR, None, pl, o)
        | Some _ => Ok (NGX_OK, Some (g, replicate (Z.to_nat n) 0), pl, o)
        end
    end.

Definition ngx_http_upstream_init_least_conn_peer {Osm : OSMem} (g : group) (c : peer_connection) (pl : pool) (o : os)
  : out (Z * option peer_data * peer_connection * pool * os) :=
  let! (p, pl, o) := ngx_palloc pl sizeof_lc_data o in
  match p with
  | None => Ok (NGX_ERROR, None, c, pl, o)
  | Some _ =>
      let! x := ngx_http_upstream_init_round_robin_peer g (Some (mk_rr false 0 [])) c pl o in
      let '(rc, d, c, pl, o) := x in
      if negb (rc =? NGX_OK) then Ok (NGX_ERROR, None, c, pl, o)
      else match d with None => Undef NullDeref | Some d => Ok (NGX_OK, Some (mk_data d 0), c, pl, o) end
  end.

(** The loop for the least number of connections per weight, from index [i] on:
    the index and weight of [best] and [many]. *)
Fixpoint least_loop (now : Z) (t cs : list Z) (base : nat) (i : Z) (rest : list peer) (best : option (Z * Z * bool))
  : out (option (Z * Z * bool)) :=
  match rest with
  | [] => Ok best
  | pe :: rest' =>
      let! w := word_at t i in
      if negb (Z.land w (mask i) =? 0) || negb (usable now pe) then least_loop now t cs base (i + 1) rest' best
      else
        let! ci := conns_at cs base i in
        match best with
        | None => least_loop now t cs base (i + 1) rest' (Some (i, weight pe, false))
        | Some (p, bw, many) =>
            let! cp := conns_at cs base p in
            if u64 (ci * bw) <? u64 (cp * weight pe) then least_loop now t cs base (i + 1) rest' (Some (i, weight pe, false))
            else least_loop now t cs base (i + 1) rest' (Some (p, bw, many || (u64 (ci * bw) =? u64 (cp * weight pe))))
        end
  end.

(** The loop over the peers with as many: the peers, the index of [best] and the
    sum of the weights. *)
Fixpoint many_loop (n : nat) (now : Z) (t cs : list Z) (base : nat) (l : list peer) (i p total : Z) : out (list peer * Z * Z) :=
  match n with
  | O => Ok (l, p, total)
  | S n' =>
      let! w := word_at t i in
      if negb (Z.land w (mask i) =? 0) then many_loop n' now t cs base l (i + 1) p total
      else
        match l !! Z.to_nat i, l !! Z.to_nat p with
        | Some pe, Some best =>
            if down pe then many_loop n' now t cs base l (i + 1) p total
            else
              let! ci := conns_at cs base i in
              let! cp := conns_at cs base p in
              if negb (u64 (ci * weight best) =? u64 (cp * weight pe)) || negb (usable now pe) then many_loop n' now t cs base l (i + 1) p total
              else
                let cw := i64 (current_weight pe + effective_weight pe) in
                let total := i64 (total + effective_weight pe) in
                let pe' := pe <| current_weight := cw |>
                             <| effective_weight := if effective_weight pe <? weight pe then effective_weight pe + 1 else effective_weight pe |> in
                let l := <[Z.to_nat i := pe']> l in
                let bcw := if i =? p then cw else current_weight best in
                many_loop n' now t cs base l (i + 1) (if bcw <? cw then i else p) total
        | _, _ => Undef OutOfBounds
        end
  end.

(** The peer of one group, the group and the counters. *)
Definition choose (now : Z) (ps : peers) (cs : list Z) (d : peer_data) : out (option Z * peers * list Z * peer_data) :=
  let! best := least_loop now (tried (rrp d)) cs (conns d) 0 (peer_list ps) None in
  match best with
  | None => Ok (None, ps, cs, d)
  | Some (p, _, many) =>
      let! x := if many : bool
                then many_loop (length (peer_list ps) - Z.to_nat p) now (tried (rrp d)) cs (conns d) (peer_list ps) p p 0
                else Ok (peer_list ps, p, 0) in
      let '(l, p, total) := x in
      let l := alter (fun q => q <| current_weight := i64 (current_weight q - total) |> <| checked := now |>) (Z.to_nat p) l in
      let! t := mark (tried (rrp d)) p in
      let! cs := set_conns cs (conns d) p (fun n => n + 1) in
      Ok (Some p, ps <| peer_list := l |>, cs, d <| rrp := (rrp d) <| current := p |> <| tried := t |> |>)
  end.

Fixpoint get_least_conn_peer (depth : nat) (now : Z) (g : group) (cs : list Z) (d : peer_data) (c : peer_connection)
  : out (Z * group * list Z * peer_data * peer_connection) :=
  match depth with
  | O => NoFuel
  | S depth' =>
      let bk := on_backup (rrp d) in
      let! ps := group_peers g bk in
      if single ps then
        let! x := ngx_http_upstream_get_round_robin_peer now g (rrp d) c in
        let '(rc, g, r, c) := x in Ok (rc, g, cs, d <| rrp := r |>, c)
      else
        let c := c <| cached := false |> <| connection := None |> in
        let nxt := if bk then None else next g in
        let! x := choose now ps cs d in
        let '(r, ps, cs, d) := x in
        let g := set_peers g bk ps in
        match r with
        | Some p =>
            match peer_list ps !! Z.to_nat p with
            | None => Undef OutOfBounds
            | Some pe =>
                let c := c <| pc_sockaddr := Some (sockaddr pe, socklen pe) |> <| pc_name := Some (name pe) |> in
                let c := match nxt with Some b => if tries c =? 1 then c <| tries := u64 (tries c + number b) |> else c | None => c end in
                Ok (NGX_OK, g, cs, d, c)
            end
        | None =>
            let fail g cs d c :=
              let! ps := group_peers g bk in
              Ok (NGX_BUSY, set_peers g bk (clear_fails ps), cs, d, c <| pc_name := Some (p_name ps) |>) in
            match nxt with
            | None => fail g cs d c
            | Some b =>
                let! t := clear_tried (tried (rrp d)) (words (number b)) in
                let d := mk_data ((rrp d) <| on_backup := true |> <| tried := t |>) (conns d + length (peer_list ps)) in
                let! x := get_least_conn_peer depth' now g cs d (c <| tries := number b |>) in
                let '(rc, g, cs, d, c) := x in
                if negb (rc =? NGX_BUSY) then Ok (rc, g, cs, d, c) else fail g cs d c
            end
        end
  end.

Definition ngx_http_upstream_get_least_conn_peer := get_least_conn_peer 2.

Definition ngx_http_upstream_free_least_conn_peer (now state : Z) (g : group) (cs : list Z) (d : peer_data) (c : peer_connection)
  : out (group * list Z * peer_connection) :=
  let! ps := group_peers g (on_backup (rrp d)) in
  let! cs := if single ps then Ok cs else set_conns cs (conns d) (current (rrp d)) (fun n => n - 1) in
  let! (g, c) := ngx_http_upstream_free_round_robin_peer now state g (rrp d) c in
  Ok (g, cs, c).
End LeastConn.
