(* ===== verification/NgxUpstreamPolicyProps.v ===== *)
(** * Properties of the policies ip_hash and least_conn

    least_conn chooses a peer with the least number of connections for its weight;
    ip_hash sends a client to the same peer as long as that works. *)
From S2P Require Import Prelude NginxProps NgxUpstreamPolicy NgxUpstreamRRProps.
#[local] Open Scope Z_scope.

Module LeastConnProps.
Import LeastConn.

Section Choice.
Context (now : Z) (t cs : list Z) (base : nat) (l0 : list peer).

Definition conns_of (i : nat) : Z := nth (base + i) cs 0.
Context (Hroom : room t (length l0)) (Hcs : (base + length l0 <= length cs)%nat) (Hpos : Forall (fun n => 0 <= n) cs).
Context (Hw : Forall (fun p => 1 <= weight p) l0).
Context (Hsmall : forall i j p, (i < length l0)%nat -> l0 !! j = Some p -> conns_of i * weight p < 2 ^ 64).

Definition weight_of (i : nat) : Z := match l0 !! i with Some p => weight p | None => 1 end.
Definition able (i : nat) : Prop := exists p, l0 !! i = Some p /\ eligible now t (Z.of_nat i) p = true.
(** [i] has at most as many connections for its weight as [j]. *)
Definition lighter (i j : nat) : Prop := conns_of i * weight_of j <= conns_of j * weight_of i.
Definition least_below (n p : nat) : Prop := (p < n)%nat /\ able p /\ forall j, (j < n)%nat -> able j -> lighter p j.

Lemma weight_of_pos i : 1 <= weight_of i.
Proof. unfold weight_of. destruct (l0 !! i) as [p|] eqn:E; [|lia]. apply (Forall_lookup_1 _ _ _ _ Hw E). Qed.

Lemma conns_of_pos i : 0 <= conns_of i.
Proof.
  unfold conns_of. destruct (nth_lookup_or_length cs (base + i) 0) as [E|E]; [|by rewrite nth_overflow by lia].
  apply (Forall_lookup_1 _ _ _ _ Hpos E).
Qed.

Lemma lighter_trans i j k : lighter i j -> lighter j k -> lighter i k.
Proof.
  unfold lighter. intros H1 H2. pose proof (weight_of_pos i). pose proof (weight_of_pos j). pose proof (weight_of_pos k).
  apply (Z.mul_le_mono_pos_r _ _ (weight_of j)); [lia|].
  apply (Z.mul_le_mono_nonneg_r _ _ (weight_of k)) in H1; [|lia]. apply (Z.mul_le_mono_nonneg_r _ _ (weight_of i)) in H2; [|lia]. lia.
Qed.

Lemma conns_at_of i : (i < length l0)%nat -> conns_at cs base (Z.of_nat i) = Ok (conns_of i).
Proof.
  intros Hi. unfold conns_at, conns_of. rewrite Nat2Z.id. destruct (nth_lookup_or_length cs (base + i) 0) as [->|]; [done|lia].
Qed.

Lemma u64_product i j p : (i < length l0)%nat -> l0 !! j = Some p -> u64 (conns_of i * weight p) = conns_of i * weight_of j.
Proof.
  intros Hi Hj. unfold weight_of. rewrite Hj. apply uwrap_small. specialize (Hsmall i j p Hi Hj). pose proof (conns_of_pos i).
  pose proof (Forall_lookup_1 _ _ _ _ Hw Hj). cbn in *. nia.
Qed.

Lemma eligible_test i p : (i < length l0)%nat ->
  exists w, word_at t (Z.of_nat i) = Ok w /\ negb (Z.land w (mask (Z.of_nat i)) =? 0) = marked t (Z.of_nat i) /\
    (marked t (Z.of_nat i) || negb (usable now p)) = negb (eligible now t (Z.of_nat i) p).
Proof.
  intros Hi. unfold room in Hroom. eexists. split; [apply word_at_nth; lia|]. split; [done|]. unfold eligible. by destruct (marked _ _), (usable now p).
Qed.

Definition best_inv (n : nat) (b : option (Z * Z * bool)) : Prop :=
  match b with
  | Some (p, bw, _) => exists j, p = Z.of_nat j /\ bw = weight_of j /\ least_below n j
  | None => forall j, (j < n)%nat -> ~ able j
  end.

Lemma least_loop_spec rest : forall n b, drop n l0 = rest -> (n <= length l0)%nat -> best_inv n b ->
  exists b', least_loop now t cs base (Z.of_nat n) rest b = Ok b' /\ best_inv (length l0) b'.
Proof.
  induction rest as [|pe rest IH]; intros n b Hd Hn Hb; cbn [least_loop].
  { exists b. split; [done|]. replace (length l0) with n; [done|]. apply (f_equal length) in Hd. rewrite length_drop in Hd. cbn in Hd. lia. }
  assert (Hpe : l0 !! n = Some pe) by (rewrite <- (Nat.add_0_r n), <- lookup_drop, Hd; done).
  assert (Hrest : drop (S n) l0 = rest) by (rewrite <- Nat.add_1_r, <- drop_drop, Hd; done).
  apply lookup_lt_Some in Hpe as Hlt. destruct (eligible_test n pe Hlt) as (w & E1 & E2 & E3). rewrite E1. cbn [obind]. rewrite E2, E3.
  replace (Z.of_nat n + 1) with (Z.of_nat (S n)) by lia.
  destruct (eligible now t (Z.of_nat n) pe) eqn:Hel; cbn [negb].
  - assert (Hable : able n) by by exists pe. rewrite conns_at_of by done. cbn [obind].
    assert (Hwn : weight_of n = weight pe) by (unfold weight_of; by rewrite Hpe).
    destruct b as [[[p bw] many]|]; cbn [best_inv] in Hb.
    + destruct Hb as (j & -> & -> & Hj & Haj & Hlj). rewrite conns_at_of by lia. cbn [obind]. pose proof Haj as (q & Hq & _).
      assert (Hbw : weight_of j = weight q) by (unfold weight_of; by rewrite Hq). rewrite Hbw, (u64_product n j q), (u64_product j n pe), <- Hbw by (done || lia).
      destruct (Z.ltb_spec (conns_of n * weight_of j) (conns_of j * weight_of n)); (apply IH; [done|lia|]).
      * exists n. split; [done|]. split; [done|]. split; [lia|]. split; [done|]. intros i Hi Hai. destruct (Nat.eq_dec i n) as [->|]; [unfold lighter; lia|].
        apply lighter_trans with j; [unfold lighter; lia|]. apply Hlj; [lia|done].
      * exists j. split; [done|]. split; [done|]. split; [lia|]. split; [done|]. intros i Hi Hai. destruct (Nat.eq_dec i n) as [->|]; [unfold lighter; lia|].
        apply Hlj; [lia|done].
    + apply IH; [done|lia|]. exists n. split; [done|]. split; [done|]. split; [lia|]. split; [done|]. intros i Hi Hai.
      destruct (Nat.eq_dec i n) as [->|]; [unfold lighter; lia|]. exfalso. apply (Hb i); [lia|done].
  - assert (Hno : ~ able n) by (intros (q & Hq & He); rewrite Hpe in Hq; injection Hq as <-; congruence).
    apply IH; [done|lia|]. destruct b as [[[p bw] many]|]; cbn [best_inv] in *.
    + destruct Hb as (j & -> & -> & Hj & Haj & Hlj). exists j. split; [done|]. split; [done|]. split; [lia|]. split; [done|].
      intros i Hi Hai. destruct (Nat.eq_dec i n) as [->|]; [done|]. apply Hlj; [lia|done].
    + intros i Hi Hai. destruct (Nat.eq_dec i n) as [->|]; [done|]. apply (Hb i); [lia|done].
Qed.
(** The second loop changes weights of the round robin only. *)
Definition alike (p q : peer) : Prop := weight p = weight q /\ down p = down q /\ usable now p = usable now q /\ name p = name q /\ sockaddr p = sockaddr q.

Lemma alike_insert l i pe pe' : Forall2 alike l l0 -> l !! i = Some pe -> alike pe' pe -> Forall2 alike (<[i := pe']> l) l0.
Proof.
  intros Hl Hi (E1 & E2 & E3 & E4 & E5). destruct (Forall2_lookup_l _ _ _ _ _ Hl Hi) as (q & Hq & A1 & A2 & A3 & A4 & A5).
  rewrite <- (list_insert_id l0 i q Hq). apply Forall2_insert; [done|]. unfold alike. by rewrite E1, E2, E3, E4, E5.
Qed.

Lemma alike_weight l i pe : Forall2 alike l l0 -> l !! i = Some pe -> weight pe = weight_of i.
Proof. intros Hl Hi. destruct (Forall2_lookup_l _ _ _ _ _ Hl Hi) as (q & Hq & A1 & _). unfold weight_of. by rewrite Hq. Qed.

Lemma many_loop_spec n : forall i p l total, (i + n = length l0)%nat -> Forall2 alike l l0 -> least_below (length l0) p ->
  exists l' p' total', many_loop n now t cs base l (Z.of_nat i) (Z.of_nat p) total = Ok (l', Z.of_nat p', total') /\
    Forall2 alike l' l0 /\ least_below (length l0) p'.
Proof.
  induction n as [|n IH]; intros i p l total Hi Hl Hp; cbn [many_loop]; [by exists l, p, total|].
  assert (Hlen : length l = length l0) by by apply Forall2_length in Hl.
  destruct (lookup_lt_is_Some_2 l i ltac:(lia)) as [pe Hpe]. pose proof Hp as (Hpl & Hap & Hlp).
  destruct (lookup_lt_is_Some_2 l p ltac:(lia)) as [best Hbest].
  destruct (eligible_test i pe ltac:(lia)) as (w & E1 & E2 & E3). rewrite E1. cbn [obind]. rewrite E2.
  replace (Z.of_nat i + 1) with (Z.of_nat (S i)) by lia. rewrite !Nat2Z.id, Hpe, Hbest.
  destruct (marked t (Z.of_nat i)) eqn:Em; [apply IH; [lia|done|done]|]. destruct (down pe) eqn:Ed; [apply IH; [lia|done|done]|].
  rewrite !conns_at_of by lia. cbn [obind].
  destruct (Forall2_lookup_l _ _ _ _ _ Hl Hpe) as (q & Hq & A1 & A2 & A3 & _). destruct (Forall2_lookup_l _ _ _ _ _ Hl Hbest) as (qb & Hqb & B1 & _).
  rewrite A1, B1, (u64_product i p qb), (u64_product p i q) by (done || lia).
  destruct (Z.eqb_spec (conns_of i * weight_of p) (conns_of p * weight_of i)) as [Eq|_]; cbn [negb orb]; [|apply IH; [lia|done|done]].
  destruct (usable now pe) eqn:Eu; cbn [negb]; [|apply IH; [lia|done|done]].
  assert (Hli : least_below (length l0) i).
  { split; [lia|]. split; [exists q; split; [done|]; unfold eligible; by rewrite Em, <- A3|]. intros j Hj Haj. apply lighter_trans with p; [unfold lighter; lia|by apply Hlp]. }
  match goal with |- context [many_loop n now t cs base (<[i := ?x]> l) _ (if ?b then _ else _) ?tot] =>
    assert (Hins : Forall2 alike (<[i := x]> l) l0) by (apply (alike_insert l i pe); [done|done|by split_and!]); destruct b; apply IH; [lia|done|done|lia|done|done] end.
Qed.
End Choice.

(** [choose] finds a least loaded peer among those it may take. *)
Lemma choose_least now ps cs d l0 : peer_list ps = l0 -> room (tried (rrp d)) (length l0) -> (conns d + length l0 <= length cs)%nat ->
  Forall (fun n => 0 <= n) cs -> Forall (fun p => 1 <= weight p) l0 ->
  (forall i j p, (i < length l0)%nat -> l0 !! j = Some p -> conns_of cs (conns d) i * weight p < 2 ^ 64) ->
  exists r ps' cs' d', choose now ps cs d = Ok (r, ps', cs', d') /\
    match r with
    | None => (forall j, (j < length l0)%nat -> ~ able now (tried (rrp d)) l0 j) /\ ps' = ps /\ cs' = cs /\ d' = d
    | Some i => exists p, i = Z.of_nat p /\ least_below now (tried (rrp d)) cs (conns d) l0 (length l0) p /\
        current (rrp d') = i /\ marks (rrp d) (rrp d') p /\ conns d' = conns d /\
        cs' = <[(conns d + p)%nat := u64 (conns_of cs (conns d) p + 1)]> cs /\ Forall2 (fun p q => name p = name q /\ sockaddr p = sockaddr q) (peer_list ps') l0 /\ single ps' = single ps
    end.
Proof.
  intros El Hroom Hcs Hpos Hw Hsmall. unfold choose. rewrite El.
  destruct (least_loop_spec now (tried (rrp d)) cs (conns d) l0 Hroom Hcs Hpos Hw Hsmall l0 0 None) as (b & E & Hb); [done|lia|intros j Hj; lia|].
  change (Z.of_nat 0) with 0 in E. rewrite E. cbn [obind]. destruct b as [[[p bw] many]|]; [|do 4 eexists; by split].
  destruct Hb as (j & -> & _ & Hj).
  assert (Halike : Forall2 (alike now) l0 l0) by (apply Forall2_same_length_lookup_2; [done|]; intros i x y -> [= ->]; done).
  assert (Hm : exists l' p' tot, (if many : bool then many_loop (length l0 - Z.to_nat (Z.of_nat j)) now (tried (rrp d)) cs (conns d) l0 (Z.of_nat j) (Z.of_nat j) 0
      else Ok (l0, Z.of_nat j, 0)) = Ok (l', Z.of_nat p', tot) /\ Forall2 (alike now) l' l0 /\ least_below now (tried (rrp d)) cs (conns d) l0 (length l0) p').
  { destruct many; [|by exists l0, j, 0]. rewrite Nat2Z.id. destruct Hj as (Hjl & Hj2). apply many_loop_spec; try done. lia. }
  destruct Hm as (l' & p' & tot & -> & Hl' & Hp'). cbn [obind]. pose proof Hp' as (Hpl & (q & Hq & He) & _).
  destruct (mark_total (tried (rrp d)) (Z.of_nat p')) as (t' & Ht & Hlt); [unfold room in Hroom; lia|]. rewrite Ht. cbn [obind].
  unfold set_conns. rewrite Nat2Z.id. destruct (lookup_lt_is_Some_2 cs (conns d + p') ltac:(lia)) as [n Hn]. rewrite Hn. cbn [obind].
  do 4 eexists. split; [reflexivity|]. exists p'. split; [done|]. split; [done|]. split; [done|]. split.
  - split; [done|]. split; [unfold eligible in He; apply andb_prop in He as [He _]; by apply negb_true_iff in He|].
    intros i Hi. eapply marked_mark; [|done|exact Ht]. unfold room in Hroom. lia.
  - split; [done|]. split; [unfold conns_of; by rewrite (nth_lookup_Some _ _ _ _ Hn)|]. cbn [peer_list update put].
    split; [|done]. apply Forall2_same_length_lookup_2; [rewrite length_alter; by apply Forall2_length in Hl'|]. intros i x y Hx Hy.
    destruct (Nat.eq_dec i p') as [->|Hne].
    + rewrite list_lookup_alter_eq in Hx. destruct (l' !! p') as [z|] eqn:Hz; [|done]. injection Hx as <-.
      destruct (Forall2_lookup_lr _ _ _ _ _ _ Hl' Hz Hy) as (_ & _ & _ & A1 & A2). done.
    + rewrite list_lookup_alter_ne in Hx by done. destruct (Forall2_lookup_lr _ _ _ _ _ _ Hl' Hx Hy) as (_ & _ & _ & A1 & A2). done.
Qed.

(** Least_conn chooses a least loaded peer.  In an upstream of several peers,
    if a peer of the primary ones can be taken, the request gets one that can be
    taken and has, for its weight, at most as many connections as any other that
    can; the counter of that peer is raised by one, the other counters stay, and
    giving the peer back, in success or failure, restores the counters. *)
Theorem least_conn_least now g cs d c l0 : peer_list (primary g) = l0 -> single (primary g) = false -> on_backup (rrp d) = false -> conns d = 0%nat ->
  room (tried (rrp d)) (length l0) -> (length l0 <= length cs)%nat ->
  Forall (fun n => 0 <= n < 2 ^ 64 - 1) cs -> Forall (fun p => 1 <= weight p) l0 ->
  (forall i j p, (i < length l0)%nat -> l0 !! j = Some p -> conns_of cs 0 i * weight p < 2 ^ 64) ->
  (exists j, able now (tried (rrp d)) l0 j) ->
  exists p pe g' d' c', ngx_http_upstream_get_least_conn_peer now g cs d c = Ok (NGX_OK, g', <[p := nth p cs 0 + 1]> cs, d', c') /\
    able now (tried (rrp d)) l0 p /\ (forall j, able now (tried (rrp d)) l0 j -> lighter cs 0 l0 p j) /\
    l0 !! p = Some pe /\ pc_name c' = Some (name pe) /\ current (rrp d') = Z.of_nat p /\
    forall now' state, exists g'' c'', ngx_http_upstream_free_least_conn_peer now' state g' (<[p := nth p cs 0 + 1]> cs) d' c' = Ok (g'', cs, c'').
Proof.
  intros El Hs Hb Hc Hroom Hcs Hpos Hw Hsmall [j0 Hj0].
  destruct (choose_least now (primary g) cs d l0 El Hroom) as (r & ps' & cs' & d' & E & Hr);
    [by rewrite Hc|eapply Forall_impl; [exact Hpos|cbn; lia]|done|by rewrite Hc|].
  destruct r as [i|].
  2: { destruct Hr as [Hno _]. exfalso. destruct Hj0 as (q & Hq & Hq2). apply (Hno j0); [by apply lookup_lt_Some in Hq|by exists q]. }
  destruct Hr as (p & -> & (Hpl & Hap & Hlp) & Hcur & Hmk & Hcd & -> & Hnames & Hsingle). rewrite Hc in *. cbn [Nat.add] in *.
  assert (Hlen : length (peer_list ps') = length l0) by by apply Forall2_length in Hnames.
  destruct (lookup_lt_is_Some_2 (peer_list ps') p ltac:(lia)) as [pe' Hpe']. destruct (Forall2_lookup_l _ _ _ _ _ Hnames Hpe') as (pe & Hpe & En & Es).
  destruct (lookup_lt_is_Some_2 cs p ltac:(lia)) as [n Hn].
  assert (Hbk : on_backup (rrp d') = false).
  { unfold choose in E. destruct (least_loop _ _ _ _ _ _ _) as [[[[q bw] many]|]| |]; cbn [obind] in E; try done.
    destruct (if many then _ else _) as [[[l2 p2] tot]| |]; cbn [obind] in E; try done. destruct (mark _ _); cbn [obind] in E; try done.
    destruct (set_conns _ _ _ _); cbn [obind] in E; try done. by injection E as _ _ _ <-. }
  assert (Hu : u64 (conns_of cs 0 p + 1) = nth p cs 0 + 1).
  { unfold conns_of. cbn [Nat.add]. rewrite (nth_lookup_Some _ _ _ _ Hn). pose proof (Forall_lookup_1 _ _ _ _ Hpos Hn). cbn in *. apply uwrap_small. lia. }
  rewrite Hu in E. exists p, pe. unfold ngx_http_upstream_get_least_conn_peer. cbn [get_least_conn_peer]. rewrite Hb. cbn [group_peers obind]. rewrite Hs, E.
  cbn [obind]. rewrite Nat2Z.id, Hpe'. do 3 eexists. split; [reflexivity|]. split; [done|]. split.
  { intros j Hj. apply Hlp; [|done]. destruct Hj as (q & Hq & _). by apply lookup_lt_Some in Hq. }
  split; [done|]. split; [rewrite <- En; destruct (next g); [|done]; by case_match|]. split; [done|].
  intros now' state. unfold ngx_http_upstream_free_least_conn_peer. rewrite Hbk. cbn [group_peers set_peers primary obind]. rewrite Hsingle, Hs.
  unfold set_conns. rewrite Hcd, Hcur, Nat2Z.id. cbn [Nat.add]. rewrite list_lookup_insert_eq by lia. cbn [obind].
  unfold ngx_http_upstream_free_round_robin_peer. rewrite Hbk. cbn [group_peers primary obind]. rewrite Hsingle, Hs, Hcur, Nat2Z.id, Hpe'. cbn [obind].
  do 2 eexists. rewrite list_insert_insert_eq. f_equal. f_equal. f_equal. rewrite (nth_lookup_Some _ _ _ _ Hn).
  pose proof (Forall_lookup_1 _ _ _ _ Hpos Hn). cbn in *. unfold u64. rewrite uwrap_small by lia. apply list_insert_id. rewrite Hn. f_equal. lia.
Qed.

(** An example: three peers of the weights 5, 1, 1 with 4, 1 and 0 connections. *)
Definition demo_counters : list Z := [4; 1; 0; 0].
Definition demo_data : peer_data := mk_data (fresh_data demo_group) 0.

Lemma least_conn_least_witness :
  exists p pe g' d' c', ngx_http_upstream_get_least_conn_peer 100 demo_group demo_counters demo_data (fresh_pc demo_group) =
      Ok (NGX_OK, g', <[p := nth p demo_counters 0 + 1]> demo_counters, d', c') /\
    peer_list (primary demo_group) !! p = Some pe /\ pc_name c' = Some (name pe).
Proof.
  destruct (least_conn_least 100 demo_group demo_counters demo_data (fresh_pc demo_group) (peer_list (primary demo_group)))
    as (p & pe & g' & d' & c' & E & _ & _ & Hp & Hn & _); try reflexivity.
  - vm_compute. discriminate.
  - vm_compute. lia.
  - apply (bool_decide_unpack _). vm_compute. exact I.
  - apply (bool_decide_unpack _). vm_compute. exact I.
  - intros [|[|[|i]]] [|[|[|j]]] q Hi Hj; cbn in Hi, Hj; try lia; try discriminate Hj; injection Hj as <-; vm_compute; reflexivity.
  - exists 0%nat. eexists. split; [reflexivity|]. vm_compute. reflexivity.
  - exists p, pe, g', d', c'. by split.
Defined.
End LeastConnProps.

Module IpHashProps.
Import IpHash.

Lemma hash_addr_nonneg a : forall h, 0 <= h -> 0 <= hash_addr h a.
Proof. induction a as [|b a IH]; intros h Hh; [done|]. apply IH. apply Z.mod_pos_bound. lia. Qed.

Lemma weighted_index_bound l : forall w i, Forall (fun p => 1 <= weight p) l -> 0 <= w < zsum weight l ->
  i <= weighted_index w l i < i + Z.of_nat (length l).
Proof.
  induction l as [|p l IH]; intros w i Hl Hw; [cbn in Hw; lia|]. apply Forall_cons in Hl as [Hp Hl]. cbn [weighted_index length].
  change (zsum weight (p :: l)) with (weight p + zsum weight l) in Hw. destruct (Z.ltb_spec (w - weight p) 0); [lia|].
  specialize (IH (w - weight p) (i + 1) Hl ltac:(lia)). lia.
Qed.

(** A group as the configuration builds it. *)
Definition consistent (ps : peers) : Prop :=
  peer_list ps <> [] /\ Forall (fun p => 1 <= weight p) (peer_list ps) /\ (weighted ps = true -> total_weight ps = zsum weight (peer_list ps)).

Lemma index_of_bound h ps : consistent ps -> 0 <= h -> exists j, index_of h ps = Ok (Z.of_nat j) /\ (j < length (peer_list ps))%nat.
Proof.
  intros (Hne & Hw & Ht) Hh. unfold index_of, number.
  assert (Hl : 1 <= Z.of_nat (length (peer_list ps))) by (destruct (peer_list ps); [done|cbn; lia]).
  assert (Hs : Z.of_nat (length (peer_list ps)) <= zsum weight (peer_list ps)).
  { pose proof (zsum_le (fun _ => 1) weight (peer_list ps)) as Hz. rewrite zsum_const in Hz. rewrite <- (Z.mul_1_l (Z.of_nat _)). apply Hz.
    intros p Hp. by rewrite Forall_forall in Hw; apply Hw. }
  assert (H : forall z, 0 <= z < Z.of_nat (length (peer_list ps)) -> exists j, (Ok z : out Z) = Ok (Z.of_nat j) /\ (j < length (peer_list ps))%nat).
  { intros z Hz. exists (Z.to_nat z). split; [by rewrite Z2Nat.id by lia|lia]. }
  destruct (weighted ps); cbn [negb].
  - rewrite Ht by done. destruct (Z.eqb_spec (zsum weight (peer_list ps)) 0); [lia|]. apply H.
    pose proof (weighted_index_bound (peer_list ps) (h mod zsum weight (peer_list ps)) 0 Hw ltac:(apply Z.mod_pos_bound; lia)). lia.
  - destruct (Z.eqb_spec (Z.of_nat (length (peer_list ps))) 0); [lia|]. apply H, Z.mod_pos_bound. lia.
Qed.

Definition up (p : peer) : Prop := down p = false /\ (max_fails p = 0 \/ fails p < max_fails p).

Lemma ip_hash_loop_hit f now h0 ps d c j pe : let h := hash_addr h0 (addr d) in
  room (tried (rrp d)) (length (peer_list ps)) -> index_of h ps = Ok (Z.of_nat j) -> peer_list ps !! j = Some pe ->
  marked (tried (rrp d)) (Z.of_nat j) = false -> up pe ->
  ip_hash_loop (S f) now h0 ps d c = Ok (Some (h, Z.of_nat j), ps, d, c).
Proof.
  intros h Hroom Hi Hj Hm (Hd & Hf). cbn [ip_hash_loop]. fold h. rewrite Hi. cbn [obind].
  apply lookup_lt_Some in Hj as Hlt. unfold room in Hroom. rewrite word_at_nth by lia. cbn [obind].
  unfold marked in Hm. apply negb_false_iff in Hm. rewrite Hm, Nat2Z.id, Hj, Hd.
  assert (Hup : (max_fails pe =? 0) || (fails pe <? max_fails pe) = true).
  { destruct Hf as [->|Hf]; [done|]. apply Z.ltb_lt in Hf. rewrite Hf. apply orb_true_r. }
  by rewrite Hup.
Qed.

(** A client is sent to the peer its address selects as long as that is up. *)
Lemma ip_hash_sticky now g d c j pe : let h := hash_addr (hash d) (addr d) in
  on_backup (rrp d) = false -> single (primary g) = false -> ip_tries d <= 20 -> room (tried (rrp d)) (length (peer_list (primary g))) ->
  index_of h (primary g) = Ok (Z.of_nat j) -> peer_list (primary g) !! j = Some pe -> marked (tried (rrp d)) (Z.of_nat j) = false -> up pe ->
  exists d' c', ngx_http_upstream_get_ip_hash_peer now g d c = Ok (NGX_OK, g, d', c') /\
    current (rrp d') = Z.of_nat j /\ pc_name c' = Some (name pe) /\ pc_sockaddr c' = Some (sockaddr pe, socklen pe).
Proof.
  intros h Hb Hs Ht Hroom Hi Hj Hm Hup. unfold ngx_http_upstream_get_ip_hash_peer. rewrite Hb. cbn [group_peers obind]. rewrite Hs.
  destruct (Z.ltb_spec 20 (ip_tries d)); [lia|]. cbn [orb]. rewrite (ip_hash_loop_hit 20 now (hash d) (primary g) d _ j pe) by done.
  cbn [obind]. rewrite Nat2Z.id, Hj. apply lookup_lt_Some in Hj as Hlt. unfold room in Hroom.
  destruct (mark_total (tried (rrp d)) (Z.of_nat j)) as (t' & Hmk & _); [lia|]. rewrite Hmk. cbn [obind].
  rewrite Hb. destruct g as [p nx]. do 2 eexists. split; [reflexivity|]. by split_and!.
Qed.
End IpHashProps.
