(* ===== verification/NgxLocations.v ===== *)
(** * Locations: nginx/src/http/ngx_http.c, ngx_http_core_module.c

    The locations of a server are sorted, split by kind and made into a tree of
    names when the configuration is read; a request searches the tree.  Queues
    (ngx_queue.h) are lists here, configurations are numbers into a store, so that
    they are shared as pointers are. *)
From S2P Require Import Prelude.
From S2P Require Export NgxHeaders.
#[local] Open Scope Z_scope.

Module Locations.
Import Headers.

(** [ngx_http_location_queue_t] without the links. *)
Inductive lq := Lq (exact inclusive : option Z) (name : bytes) (sub : list lq).
Definition lq_exact (q : lq) : option Z := let 'Lq e _ _ _ := q in e.
Definition lq_inclusive (q : lq) : option Z := let 'Lq _ i _ _ := q in i.
Definition lq_name (q : lq) : bytes := let 'Lq _ _ n _ := q in n.
Definition lq_list (q : lq) : list lq := let 'Lq _ _ _ l := q in l.

(** [ngx_http_location_tree_node_t] *)
Inductive tree := Null
| Node (left right sub : tree) (t_exact t_inclusive : option Z) (t_auto : bool) (t_len : Z) (t_name : bytes).

(** The fields of [ngx_http_core_loc_conf_t] that concern the search. *)
Record clcf := mk_clcf { c_name : bytes; c_regex : option http_regex; noname : bool; named : bool; exact_match : bool; noregex : bool;
  auto_redirect : bool; locations : option (list lq); static_locations : tree; regex_locations : option (list Z) }.
#[export] Instance clcf_settable : Settable clcf := fun c =>
  mk_clcf (c_name c) (c_regex c) (noname c) (named c) (exact_match c) (noregex c) (auto_redirect c) (locations c) (static_locations c) (regex_locations c).
Definition store : Type := gmap Z clcf.
Definition conf_at (st : store) (id : Z) : out clcf := match st !! id with Some c => Ok c | None => Undef BadPointer end.

Definition sizeof_location_queue : Z := 72.
Definition offsetof_tree_name : Z := 42.

(** [strcmp] on texts that a NUL ends, [memcmp]. *)
Fixpoint compare_bytes (a b : bytes) : Z :=
  match a, b with
  | [], [] => 0
  | [], d :: _ => - d
  | c :: _, [] => c
  | c :: a', d :: b' => if c =? d then compare_bytes a' b' else c - d
  end.
Fixpoint c_string (s : bytes) : bytes := match s with [] => [] | c :: s' => if c =? 0 then [] else c :: c_string s' end.
Definition ngx_strcmp (a b : bytes) : Z := compare_bytes (c_string a) (c_string b).
Definition ngx_strncmp (a b : bytes) (n : nat) : Z := compare_bytes (take n (c_string a)) (take n (c_string b)).
Definition ngx_filename_cmp (a b : bytes) (n : nat) : Z := compare_bytes (take n a) (take n b).

(** [lq->exact ? lq->exact : lq->inclusive] *)
Definition lq_conf (st : store) (q : lq) : out (Z * clcf) :=
  match (match lq_exact q with Some i => Some i | None => lq_inclusive q end) with
  | Some i => let! c := conf_at st i in Ok (i, c)
  | None => Undef NullDeref
  end.

Section Build.
Context {Osm : OSMem}.
Implicit Types (st : store) (pl : pool) (o : os).

(** The queue of the enclosing location with the new one at its end. *)
Definition ngx_http_add_location (locs : option (list lq)) (id : Z) (c : clcf) pl o : out (Z * option (list lq) * pool * os) :=
  let! (p, pl, o) := match locs with Some _ => Ok (Some 0, pl, o) | None => ngx_palloc pl sizeof_location_queue o end in
  match p with
  | None => Ok (NGX_ERROR, None, pl, o)
  | Some _ =>
      let l := match locs with Some l => l | None => [] end in
      let! (p, pl, o) := ngx_palloc pl sizeof_location_queue o in
      match p with
      | None => Ok (NGX_ERROR, Some l, pl, o)
      | Some _ =>
          let single := exact_match c || bool_decide (is_Some (c_regex c)) || named c || noname c in
          let q := if single then Lq (Some id) None (c_name c) [] else Lq None (Some id) (c_name c) [] in
          Ok (NGX_OK, Some (l ++ [q]), pl, o)
      end
  end.

(** ** Sorting *)

Definition cmp_confs (first second : clcf) : Z :=
  if noname first && negb (noname second) then 1
  else if negb (noname first) && noname second then -1
  else if noname first || noname second then 0
  else if named first && negb (named second) then 1
  else if negb (named first) && named second then -1
  else if named first && named second then ngx_strcmp (c_name first) (c_name second)
  else
    let r1 := bool_decide (is_Some (c_regex first)) in
    let r2 := bool_decide (is_Some (c_regex second)) in
    if r1 && negb r2 then 1
    else if negb r1 && r2 then -1
    else if r1 || r2 then 0
    else
      let rc := ngx_strcmp (c_name first) (c_name second) in
      if (rc =? 0) && negb (exact_match first) && exact_match second then 1 else rc.

Definition ngx_http_cmp_locations st (one two : lq) : out Z :=
  let! (_, first) := lq_conf st one in
  let! (_, second) := lq_conf st two in
  Ok (cmp_confs first second).

(** [ngx_queue_sort]: the elements before the one that moves, the last one first. *)
Fixpoint insert_back st (prevs : list lq) (q : lq) : out (list lq) :=
  match prevs with
  | [] => Ok [q]
  | p :: prevs' =>
      let! c := ngx_http_cmp_locations st p q in
      if c <=? 0 then Ok (q :: prevs) else let! r := insert_back st prevs' q in Ok (p :: r)
  end.
Fixpoint sort_loop st (prevs rest : list lq) : out (list lq) :=
  match rest with
  | [] => Ok (rev prevs)
  | q :: rest' => let! prevs := insert_back st prevs q in sort_loop st prevs rest'
  end.
Definition queue_sort st (l : list lq) : out (list lq) :=
  match l with [] => Ok [] | q :: rest => sort_loop st [q] rest end.

(** [*(clcfp++) = lq->exact]; a NULL ends the array. *)
Fixpoint exacts (l : list lq) : list Z :=
  match l with [] => [] | q :: l' => match lq_exact q with Some i => i :: exacts l' | None => [] end end.

(** The array of the locations from index [i] on, with a NULL behind. *)
Definition collect (l : list lq) (i : nat) (n : Z) pl o : out (option (list Z) * pool * os) :=
  let! (p, pl, o) := ngx_palloc pl ((n + 1) * 8) o in
  Ok (match p with Some _ => Some (exacts (drop i l)) | None => None end, pl, o).

(** The loop over the sorted queue: the code, the index it stops at, the store, the
    indices of the first regex and the first named location, the numbers of both.
    [init] is the call for the locations of one of them. *)
Fixpoint scan_locations (init : store -> Z -> pool -> os -> out (Z * store * option (list Z) * pool * os)) (rest : list lq) (i : nat) st pl o
  (regex nameds : option nat) (r n : Z) : out (Z * nat * store * pool * os * option nat * option nat * Z * Z) :=
  match rest with
  | [] => Ok (NGX_OK, i, st, pl, o, regex, nameds, r, n)
  | q :: rest' =>
      let! (cid, _) := lq_conf st q in
      let! x := init st cid pl o in
      let '(rc, st, _, pl, o) := x in
      if negb (rc =? NGX_OK) then Ok (NGX_ERROR, i, st, pl, o, regex, nameds, r, n)
      else
        let! c := conf_at st cid in
        if bool_decide (is_Some (c_regex c)) then
          scan_locations init rest' (S i) st pl o (match regex with None => Some i | _ => regex end) nameds (r + 1) n
        else if named c then scan_locations init rest' (S i) st pl o regex (match nameds with None => Some i | _ => nameds end) r (n + 1)
        else if noname c then Ok (NGX_OK, i, st, pl, o, regex, nameds, r, n)
        else scan_locations init rest' (S i) st pl o regex nameds r n
  end.

(** The code, the store and [cscf->named_locations].  The recursion is on the
    nesting of locations. *)
Fixpoint ngx_http_init_locations (fuel : nat) st (id : Z) (nm : option (list Z)) pl o : out (Z * store * option (list Z) * pool * os) :=
  match fuel with
  | O => NoFuel
  | S f =>
      let! pc := conf_at st id in
      match locations pc with
      | None => Ok (NGX_OK, st, nm, pl, o)
      | Some l =>
          let! l := queue_sort st l in
          let! y := scan_locations (fun st cid => ngx_http_init_locations f st cid None) l O st pl o None None 0 0 in
          let '(rc, i, st, pl, o, regex, nameds, r, n) := y in
          if negb (rc =? NGX_OK) then Ok (NGX_ERROR, st, nm, pl, o)
          else
            let l := take i l in
            let! (x, pl, o) := match nameds with None => Ok (Some nm, pl, o)
                               | Some k => let! (a, pl, o) := collect l k n pl o in Ok (match a with Some a => Some (Some a) | None => None end, pl, o) end in
            match x with
            | None => Ok (NGX_ERROR, alter (fun c => c <| locations := Some l |>) id st, nm, pl, o)
            | Some nm =>
                let l := match nameds with Some k => take k l | None => l end in
                let! (x, pl, o) := match regex with None => Ok (Some None, pl, o)
                                   | Some k => let! (a, pl, o) := collect l k r pl o in Ok (match a with Some a => Some (Some a) | None => None end, pl, o) end in
                match x with
                | None => Ok (NGX_ERROR, alter (fun c => c <| locations := Some l |>) id st, nm, pl, o)
                | Some re =>
                    let l := match regex with Some k => take k l | None => l end in
                    Ok (NGX_OK, alter (fun c => c <| locations := Some l |> <| regex_locations := match re with Some a => Some a | None => regex_locations c end |>) id st, nm, pl, o)
                end
            end
      end
  end.

(** ** The tree *)

(** [None]: a location is declared twice. *)
Fixpoint join_loop (q : lq) (rest : list lq) : option (list lq) :=
  match rest with
  | [] => Some [q]
  | x :: rest' =>
      if ngx_strcmp (lq_name q) (lq_name x) =? 0 then
        if (bool_decide (is_Some (lq_exact q)) && bool_decide (is_Some (lq_exact x))) ||
           (bool_decide (is_Some (lq_inclusive q)) && bool_decide (is_Some (lq_inclusive x))) then None
        else join_loop (Lq (lq_exact q) (lq_inclusive x) (lq_name q) (lq_list q)) rest'
      else match join_loop x rest' with Some l => Some (q :: l) | None => None end
  end.
Definition ngx_http_join_exact_locations (l : list lq) : option (list lq) :=
  match l with [] => Some [] | q :: rest => join_loop q rest end.

(** The locations behind [q] whose names start with its name. *)
Fixpoint span_prefix (nm : bytes) (l : list lq) : list lq * list lq :=
  match l with
  | [] => ([], [])
  | x :: l' =>
      if (length (lq_name x) <? length nm)%nat || negb (ngx_strncmp nm (lq_name x) (length nm) =? 0) then ([], l)
      else let '(a, b) := span_prefix nm l' in (x :: a, b)
  end.

(** [ngx_http_create_locations_list(locations, q)] on the part of the queue that
    starts at [q]. *)
Fixpoint ngx_http_create_locations_list (fuel : nat) (l : list lq) : out (list lq) :=
  match fuel with
  | O => NoFuel
  | S f =>
      match l with
      | [] | [_] => Ok l
      | q :: rest =>
          match lq_inclusive q with
          | None => let! rest := ngx_http_create_locations_list f rest in Ok (q :: rest)
          | Some _ =>
              let '(pre, post) := span_prefix (lq_name q) rest in
              if (length pre =? 0)%nat then let! rest := ngx_http_create_locations_list f rest in Ok (q :: rest)
              else
                let! sub := ngx_http_create_locations_list f (lq_list q ++ pre) in
                let! post := if (length post =? 0)%nat then Ok [] else ngx_http_create_locations_list f post in
                Ok (Lq (lq_exact q) (lq_inclusive q) (lq_name q) sub :: post)
          end
      end
  end.

Definition auto_of st (x : option Z) : out bool :=
  match x with Some i => let! c := conf_at st i in Ok (auto_redirect c) | None => Ok false end.

(** [None]: no memory.  The root of a queue is its middle element. *)
Fixpoint ngx_http_create_locations_tree (fuel : nat) st (l : list lq) (prefix : nat) pl o : out (option tree * pool * os) :=
  match fuel with
  | O => NoFuel
  | S f =>
      let k := (length l / 2)%nat in
      match drop k l with
      | [] => Undef BadPointer
      | q :: tail =>
          let nm := drop prefix (lq_name q) in
          let len := Z.of_nat (length nm) in
          let! (p, pl, o) := ngx_palloc pl (offsetof_tree_name + len) o in
          match p with
          | None => Ok (None, pl, o)
          | Some _ =>
              let! ae := auto_of st (lq_exact q) in
              let! ai := auto_of st (lq_inclusive q) in
              let node lt rt sub := Node lt rt sub (lq_exact q) (lq_inclusive q) (ae || ai) (uwrap 8 len) nm in
              let inclusive lt rt pl o :=
                match lq_list q with
                | [] => Ok (Some (node lt rt Null), pl, o)
                | sub => 
                    let! (t, pl, o) := ngx_http_create_locations_tree f st sub (prefix + length nm) pl o in
                    Ok (match t with Some t => Some (node lt rt t) | None => None end, pl, o)
                end in
              if (k =? 0)%nat then inclusive Null Null pl o
              else
                let! (lt, pl, o) := ngx_http_create_locations_tree f st (take k l) prefix pl o in
                match lt with
                | None => Ok (None, pl, o)
                | Some lt =>
                    match tail with
                    | [] => inclusive lt Null pl o
                    | _ =>
                        let! (rt, pl, o) := ngx_http_create_locations_tree f st tail prefix pl o in
                        match rt with
                        | None => Ok (None, pl, o)
                        | Some rt => inclusive lt rt pl o
                        end
                    end
                end
          end
      end
  end.

(** The locations in a queue with those below them. *)
Fixpoint lq_size (q : lq) : nat := let 'Lq _ _ _ l := q in S (list_sum (map lq_size l)).
Definition queue_size (l : list lq) : nat := list_sum (map lq_size l).

(** The trees of the locations in the queue. *)
Fixpoint nested_trees (init : store -> Z -> pool -> os -> out (Z * store * pool * os)) (rest : list lq) st pl o : out (Z * store * pool * os) :=
  match rest with
  | [] => Ok (NGX_OK, st, pl, o)
  | q :: rest' =>
      let! (cid, _) := lq_conf st q in
      let! x := init st cid pl o in
      let '(rc, st, pl, o) := x in
      if negb (rc =? NGX_OK) then Ok (NGX_ERROR, st, pl, o) else nested_trees init rest' st pl o
  end.

(** The making of the tree takes the queue apart and leaves it empty. *)
Fixpoint ngx_http_init_static_location_trees (fuel : nat) st (id : Z) pl o : out (Z * store * pool * os) :=
  match fuel with
  | O => NoFuel
  | S f =>
      let! pc := conf_at st id in
      match locations pc with
      | None => Ok (NGX_OK, st, pl, o)
      | Some [] => Ok (NGX_OK, st, pl, o)
      | Some l =>
          let! y := nested_trees (ngx_http_init_static_location_trees f) l st pl o in
          let '(rc, st, pl, o) := y in
          if negb (rc =? NGX_OK) then Ok (NGX_ERROR, st, pl, o)
          else
            match ngx_http_join_exact_locations l with
            | None => Ok (NGX_ERROR, st, pl, o)
            | Some l =>
                let! l := ngx_http_create_locations_list (length l) l in
                let! (t, pl, o) := ngx_http_create_locations_tree (queue_size l) st l 0 pl o in
                match t with
                | None => Ok (NGX_ERROR, st, pl, o)
                | Some t => Ok (NGX_OK, alter (fun c => c <| locations := Some [] |> <| static_locations := t |>) id st, pl, o)
                end
            end
      end
  end.
End Build.

(** ** The search *)

(** The code, and the location that [r->loc_conf] is set to. *)
Fixpoint find_static_location (t : tree) (uri : bytes) (rv : Z) (loc : option Z) : out (Z * option Z) :=
  match t with
  | Null => Ok (rv, loc)
  | Node lt rt sub ex inc auto len nm =>
      let n := Nat.min (length uri) (Z.to_nat len) in
      let rc := ngx_filename_cmp uri nm n in
      if negb (rc =? 0) then if rc <? 0 then find_static_location lt uri rv loc else find_static_location rt uri rv loc
      else if len <? blen uri then
        match inc with
        | Some i => find_static_location sub (drop n uri) NGX_AGAIN (Some i)
        | None => find_static_location rt uri rv loc
        end
      else if blen uri =? len then
        match ex, inc with
        | Some i, _ => Ok (NGX_OK, Some i)
        | None, Some i => Ok (NGX_AGAIN, Some i)
        | None, None => Undef NullDeref
        end
      else if (blen uri + 1 =? len) && auto then
        match ex, inc with
        | Some i, _ | None, Some i => find_static_location lt uri NGX_DONE (Some i)
        | None, None => Undef NullDeref
        end
      else find_static_location lt uri rv loc
  end.

Definition ngx_http_core_find_static_location (t : tree) (uri : bytes) : out (Z * option Z) :=
  find_static_location t uri NGX_DECLINED None.

Section Find.
Context {Osm : OSMem} (pcre_exec : Z -> bytes -> Z) (st : store) (ncapt : Z) (uri : bytes).

(** [cur] is the location [r->loc_conf] belongs to; recursion on the nesting. *)
Fixpoint ngx_http_core_find_location (fuel : nat) (cur : Z) (x : rq) : out (Z * Z * rq) :=
  match fuel with
  | O => NoFuel
  | S f =>
      let! pc := conf_at st cur in
      let! (rc, loc) := ngx_http_core_find_static_location (static_locations pc) uri in
      let cur := match loc with Some i => i | None => cur end in
      let! y := if rc =? NGX_AGAIN then
                  let! c := conf_at st cur in
                  let! z := ngx_http_core_find_location f cur x in
                  let '(rc, cur, x) := z in Ok (rc, cur, x, noregex c)
                else Ok (rc, cur, x, false) in
      let '(rc, cur, x, nore) := y in
      if (rc =? NGX_OK) || (rc =? NGX_DONE) then Ok (rc, cur, x)
      else
        match (if nore : bool then None else regex_locations pc) with
        | None => Ok (rc, cur, x)
        | Some l =>
            let fix regexes (l : list Z) x :=
              match l with
              | [] => Ok (rc, cur, x)
              | i :: l' =>
                  let! c := conf_at st i in
                  match c_regex c with
                  | None => Undef NullDeref
                  | Some re =>
                      let! (n, x) := ngx_http_regex_exec pcre_exec ncapt re uri x in
                      if n =? NGX_OK then
                        let! z := ngx_http_core_find_location f i x in
                        let '(rc, cur, x) := z in Ok (if rc =? NGX_ERROR then rc else NGX_OK, cur, x)
                      else if n =? NGX_DECLINED then regexes l' x
                      else Ok (NGX_ERROR, cur, x)
                  end
              end in
            regexes l x
        end
  end.
End Find.
End Locations.
