(* ===== verification/NgxLocationsProps.v ===== *)
(** * Properties of the search for a location

    The tree that the configuration builds answers every search as the list of
    the declared locations does: the exact location, or else the inclusive one
    with the longest name. *)
From Stdlib Require Import Sorting.Sorted Sorting.Permutation.
From stdpp Require Import gmap list.
From S2P Require Import Prelude NgxHeaders NgxLocations.
#[local] Open Scope Z_scope.
Import Headers Locations.

(** ** The order of names *)

Definition diverge (a b : bytes) : Prop := exists p x y a' b', a = p ++ x :: a' /\ b = p ++ y :: b' /\ x < y.
Definition strict_prefix (a b : bytes) : Prop := exists x c, b = a ++ x :: c.
Definition lexlt (a b : bytes) : Prop := diverge a b \/ strict_prefix a b.

Lemma diverge_cons x a b : diverge (x :: a) (x :: b) <-> diverge a b.
Proof.
  split.
  - intros ([|z p] & c & d & a' & b' & Ha & Hb & Hlt); cbn in *; [injection Ha as -> ->; injection Hb as -> ->; lia|].
    injection Ha as -> ->. injection Hb as ->. by exists p, c, d, a', b'.
  - intros (p & c & d & a' & b' & -> & -> & Hlt). by exists (x :: p), c, d, a', b'.
Qed.

Lemma strict_prefix_cons x a b : strict_prefix (x :: a) (x :: b) <-> strict_prefix a b.
Proof. split; intros (c & d & E); [injection E as ->|subst]; by exists c, d. Qed.

Lemma lexlt_cons x a b : lexlt (x :: a) (x :: b) <-> lexlt a b.
Proof. unfold lexlt. by rewrite diverge_cons, strict_prefix_cons. Qed.

Lemma lexlt_nil_r a : ~ lexlt a [].
Proof. intros [(p & x & y & a' & b' & _ & E & _)|(x & c & E)]; by destruct p || destruct a. Qed.

Lemma lexlt_nil_l x b : lexlt [] (x :: b).
Proof. right. by exists x, b. Qed.

Lemma lexlt_diff x y a b : x <> y -> lexlt (x :: a) (y :: b) <-> x < y.
Proof.
  intros Hne. split.
  - intros [([|z p] & c & d & a' & b' & Ha & Hb & Hlt)|(c & d & E)]; cbn in *; [by injection Ha as -> ->; injection Hb as -> ->|congruence|congruence].
  - intros Hlt. left. by exists [], x, y, a, b.
Qed.

Lemma lexlt_app p a b : lexlt (p ++ a) (p ++ b) <-> lexlt a b.
Proof. induction p as [|x p IH]; [done|]. cbn. by rewrite lexlt_cons. Qed.

Lemma lexlt_irrefl a : ~ lexlt a a.
Proof. induction a as [|x a IH]; [apply lexlt_nil_r|by rewrite lexlt_cons]. Qed.

Lemma lexlt_trans a b c : lexlt a b -> lexlt b c -> lexlt a c.
Proof.
  revert b c. induction a as [|x a IH]; intros [|y b] [|z c] H1 H2; try by destruct (lexlt_nil_r _ H1) || destruct (lexlt_nil_r _ H2).
  - apply lexlt_nil_l.
  - destruct (Z.eq_dec x y) as [->|Hxy]; [apply lexlt_cons in H1|apply lexlt_diff in H1; [|done]];
      (destruct (Z.eq_dec y z) as [->|Hyz]; [apply lexlt_cons in H2|apply lexlt_diff in H2; [|done]]).
    + apply lexlt_cons. by eapply IH.
    + apply lexlt_diff; lia.
    + apply lexlt_diff; lia.
    + apply lexlt_diff; lia.
Qed.

Lemma prefix_not_lexlt a b : a `prefix_of` b -> ~ lexlt b a.
Proof.
  intros [c ->]. rewrite <- (app_nil_r a) at 2. rewrite lexlt_app. apply lexlt_nil_r.
Qed.

(** A name between a prefix and its extension has the prefix. *)
Lemma prefix_between q x y : q `prefix_of` y -> lexlt q x -> lexlt x y -> q `prefix_of` x.
Proof.
  revert x y. induction q as [|c q IH]; intros x y Hp H1 H2; [apply prefix_nil|].
  destruct y as [|d y]; [by apply prefix_nil_inv in Hp|]. pose proof (prefix_cons_inv_1 _ _ _ _ Hp) as ->. apply prefix_cons_inv_2 in Hp.
  destruct x as [|z x]; [by apply lexlt_nil_r in H1|]. destruct (Z.eq_dec z d) as [->|Hz].
  - apply lexlt_cons in H1, H2. apply prefix_cons. by eapply IH.
  - apply lexlt_diff in H1; [|done]. apply lexlt_diff in H2; [|done]. lia.
Qed.

(** What a comparison of the first bytes says. *)
Lemma compare_spec a b : match Z.compare (compare_bytes (take (Nat.min (length a) (length b)) a) (take (Nat.min (length a) (length b)) b)) 0 with
  | Eq => a `prefix_of` b \/ b `prefix_of` a
  | Lt => diverge a b
  | Gt => diverge b a
  end.
Proof.
  revert b. induction a as [|x a IH]; intros [|y b]; cbn [length Nat.min take compare_bytes]; try (left; apply prefix_nil); try (right; apply prefix_nil).
  destruct (Z.eqb_spec x y) as [->|Hne].
  - specialize (IH b). destruct (Z.compare _ _).
    + destruct IH; [left|right]; by apply prefix_cons.
    + by apply diverge_cons.
    + by apply diverge_cons.
  - destruct (Z.compare_spec (x - y) 0); [lia|exists [], x, y, a, b; split; [done|]; split; [done|lia]|exists [], y, x, b, a; split; [done|]; split; [done|lia]].
Qed.

Definition text (s : bytes) : Prop := Forall (fun c => 0 < c) s.

Lemma c_string_text s : text s -> c_string s = s.
Proof. induction 1 as [|c s Hc _ IH]; [done|]. cbn. destruct (Z.eqb_spec c 0); [lia|by rewrite IH]. Qed.

Lemma compare_bytes_spec a b : text a -> text b ->
  match Z.compare (compare_bytes a b) 0 with Eq => a = b | Lt => lexlt a b | Gt => lexlt b a end.
Proof.
  intros Ha. revert b. induction Ha as [|x a Hx Ha IH]; intros [|y b] Hb; cbn [compare_bytes]; [done| | |].
  - apply Forall_cons in Hb as [Hy _]. destruct (Z.compare_spec (- y) 0); [lia|apply lexlt_nil_l|lia].
  - destruct (Z.compare_spec x 0); [lia|lia|apply lexlt_nil_l].
  - apply Forall_cons in Hb as [Hy Hb]. destruct (Z.eqb_spec x y) as [->|Hne].
    + specialize (IH b Hb). destruct (Z.compare _ _); [by subst|by apply lexlt_cons|by apply lexlt_cons].
    + destruct (Z.compare_spec (x - y) 0); [lia|apply lexlt_diff; lia|apply lexlt_diff; lia].
Qed.

Lemma strcmp_spec a b : text a -> text b -> match Z.compare (ngx_strcmp a b) 0 with Eq => a = b | Lt => lexlt a b | Gt => lexlt b a end.
Proof. intros Ha Hb. unfold ngx_strcmp. rewrite !c_string_text by done. by apply compare_bytes_spec. Qed.

Lemma strncmp_spec a b : text a -> text b -> (length a <= length b)%nat -> (ngx_strncmp a b (length a) =? 0) = bool_decide (a `prefix_of` b).
Proof.
  intros Ha Hb Hl. unfold ngx_strncmp. rewrite !c_string_text by done.
  assert (Hta : text (take (length a) a)) by by apply Forall_take. assert (Htb : text (take (length a) b)) by by apply Forall_take.
  pose proof (compare_bytes_spec _ _ Hta Htb) as H. rewrite firstn_all in *.
  apply Bool.eq_iff_eq_true. rewrite bool_decide_eq_true, Z.eqb_eq. split.
  - intros E. rewrite E in H. cbn in H. rewrite H. exists (drop (length a) b). by rewrite take_drop.
  - intros [c ->]. rewrite take_app_length in *. destruct (Z.compare_spec (compare_bytes a a) 0) as [|Hlt|Hgt]; [done|..]; by destruct (lexlt_irrefl a).
Qed.

(** ** Nested queues *)

(** The locations of a queue and those below them. *)
Fixpoint below (q : lq) : list lq := let 'Lq _ _ _ l := q in q :: flat_map below l.
Definition flat (l : list lq) : list lq := flat_map below l.

Lemma lq_ind' (P : lq -> Prop) : (forall e i n l, Forall P l -> P (Lq e i n l)) -> forall q, P q.
Proof.
  intros H. fix IH 1. intros [e i n l]. apply H. induction l as [|q l IHl]; constructor; [apply IH|exact IHl].
Qed.

Lemma elem_flat x l : x ∈ flat l <-> exists q, q ∈ l /\ x ∈ below q.
Proof. unfold flat. rewrite list_elem_of_In, in_flat_map. by setoid_rewrite list_elem_of_In. Qed.

Lemma flat_app l1 l2 : flat (l1 ++ l2) = flat l1 ++ flat l2.
Proof. apply flat_map_app. Qed.

Lemma below_eq q : below q = q :: flat (lq_list q).
Proof. by destruct q. Qed.

Definition names_lt (a b : lq) : Prop := lexlt (lq_name a) (lq_name b).

(** A queue whose names extend [pre], ascend, and of which no inclusive location
    is a prefix of another one: what its name is a prefix of is below it. *)
Inductive level : bytes -> list lq -> Prop :=
| level_intro pre l : StronglySorted names_lt l ->
    (forall q, q ∈ l -> pre `prefix_of` lq_name q /\ text (lq_name q) /\ (length (lq_name q) <= 255)%nat /\
      (is_Some (lq_exact q) \/ is_Some (lq_inclusive q)) /\ (lq_list q <> [] -> is_Some (lq_inclusive q)) /\ level (lq_name q) (lq_list q)) ->
    (forall a b, a ∈ l -> b ∈ l -> is_Some (lq_inclusive a) -> lq_name a `prefix_of` lq_name b -> a = b) -> level pre l.

Lemma level_below pre l x : level pre l -> x ∈ flat l -> pre `prefix_of` lq_name x.
Proof.
  intros Hl Hx. apply elem_flat in Hx as (q & Hq & Hx). revert pre l Hl Hq. induction q as [e i n sub IH] using lq_ind'. intros pre l Hl Hq.
  destruct Hl as [pre l _ Hin _]. destruct (Hin _ Hq) as (Hp & _ & _ & _ & _ & Hsub). cbn in Hp, Hsub, Hx.
  apply elem_of_cons in Hx as [->|Hx]; [done|]. apply elem_flat in Hx as (y & Hy & Hx). rewrite Forall_forall in IH.
  etrans; [exact Hp|]. by apply (IH y Hy Hx n sub).
Qed.

Lemma below_name pre l q x : level pre l -> q ∈ l -> x ∈ below q -> lq_name q `prefix_of` lq_name x.
Proof.
  intros [pre' l' _ Hin _] Hq Hx. rewrite below_eq in Hx. apply elem_of_cons in Hx as [->|Hx]; [done|].
  eapply level_below; [|exact Hx]. by apply (Hin q Hq).
Qed.

Lemma below_exact pre l q x : level pre l -> q ∈ l -> x ∈ below q -> lq_inclusive q = None -> x = q.
Proof.
  intros [pre' l' _ Hin _] Hq Hx Hi. rewrite below_eq in Hx. apply elem_of_cons in Hx as [->|Hx]; [done|].
  destruct (Hin q Hq) as (_ & _ & _ & _ & Hne & _). destruct (lq_list q); [by apply elem_of_nil in Hx|].
  destruct (Hne ltac:(done)) as [? E]. congruence.
Qed.

(** ** The tree of a queue *)

(** The first configuration of a location. *)
Definition the_conf (q : lq) : option Z := match lq_exact q with Some i => Some i | None => lq_inclusive q end.
Definition auto_at (st : store) (x : option Z) : bool := match x with Some i => match st !! i with Some c => auto_redirect c | None => false end | None => false end.
Definition auto_lq st q : bool := auto_at st (lq_exact q) || auto_at st (lq_inclusive q).

Inductive tree_of (st : store) : bytes -> list lq -> tree -> Prop :=
| tree_of_nil pre : tree_of st pre [] Null
| tree_of_node pre l1 q l2 lt rt sub nm : lq_name q = pre ++ nm ->
    tree_of st pre l1 lt -> tree_of st pre l2 rt -> tree_of st (lq_name q) (lq_list q) sub ->
    tree_of st pre (l1 ++ q :: l2) (Node lt rt sub (lq_exact q) (lq_inclusive q) (auto_lq st q) (blen nm) nm).

(** ** The answer of a search *)

Definition irrelevant (full : bytes) (x : lq) : Prop :=
  lq_name x <> full /\ (is_Some (lq_inclusive x) -> ~ lq_name x `prefix_of` full).

(** What a search for [full] may answer if the locations [l] are searched while
    [r] is the answer so far: the location of that name; or, without one, a
    location that has one byte more and redirects; or the inclusive location
    whose name is the longest prefix; or else [r]. *)
Definition answer st (l : list lq) (full : bytes) (r res : Z * option Z) : Prop :=
  (exists q, q ∈ l /\ lq_name q = full /\ res = (if bool_decide (is_Some (lq_exact q)) then NGX_OK else NGX_AGAIN, the_conf q)) \/
  (forall q, q ∈ l -> lq_name q <> full) /\
  ((exists q c, q ∈ l /\ lq_name q = full ++ [c] /\ auto_lq st q = true /\ res = (NGX_DONE, the_conf q)) \/
   (exists q, q ∈ l /\ is_Some (lq_inclusive q) /\ lq_name q `prefix_of` full /\ res = (NGX_AGAIN, lq_inclusive q) /\
      forall q', q' ∈ l -> is_Some (lq_inclusive q') -> lq_name q' `prefix_of` full -> (length (lq_name q') <= length (lq_name q))%nat) \/
   (forall q, q ∈ l -> is_Some (lq_inclusive q) -> ~ lq_name q `prefix_of` full) /\ res = r).

(** Locations that do not concern the name may be left out. *)
Lemma answer_more st l l' full r res : answer st l full r res -> l ⊆ l' -> (forall x, x ∈ l' -> x ∈ l \/ irrelevant full x) -> answer st l' full r res.
Proof.
  intros [(q & Hq & E & ->)|[Hno H]] Hsub Hirr; [left; exists q; by auto|]. right. split.
  { intros q Hq. destruct (Hirr q Hq) as [Hq'|[Hn _]]; [by apply Hno|done]. }
  destruct H as [(q & c & Hq & E & Ha & ->)|[(q & Hq & Hi & Hp & -> & Hmax)|[Hn ->]]].
  - left. exists q, c. by auto.
  - right. left. exists q. split; [by auto|]. split; [done|]. split; [done|]. split; [done|]. intros q' Hq' Hi' Hp'.
    destruct (Hirr q' Hq') as [H|[_ H]]; [by apply Hmax|by destruct (H Hi')].
  - right. right. split; [|done]. intros q Hq Hi. destruct (Hirr q Hq) as [H|[_ H]]; by auto.
Qed.

Lemma above_irrelevant full x : lexlt full (lq_name x) -> irrelevant full x.
Proof. intros H. split; [intros E; rewrite E in H; by apply lexlt_irrefl in H|]. intros _ Hp. by apply (prefix_not_lexlt _ _ Hp). Qed.

Lemma lexlt_prefix_r a b x : lexlt a b -> b `prefix_of` x -> lexlt a x.
Proof.
  intros H [c ->]. destruct c as [|z c]; [by rewrite app_nil_r|]. eapply lexlt_trans; [exact H|]. right. by exists z, c.
Qed.

Lemma diverge_prefix a b x y : diverge a b -> a `prefix_of` x -> b `prefix_of` y -> diverge x y.
Proof. intros (p & c & d & a' & b' & -> & -> & Hlt) [s ->] [t ->]. exists p, c, d, (a' ++ s), (b' ++ t). by rewrite <- !app_assoc. Qed.

Lemma diverge_not_prefix a b : diverge a b -> ~ a `prefix_of` b.
Proof.
  intros (p & c & d & a' & b' & -> & -> & Hlt) [s E]. rewrite <- app_assoc in E. apply app_inv_head in E. cbn in E. injection E. lia.
Qed.
Lemma diverge_not_prefix' a b : diverge a b -> ~ b `prefix_of` a.
Proof.
  intros (p & c & d & a' & b' & -> & -> & Hlt) [s E]. rewrite <- app_assoc in E. apply app_inv_head in E. cbn in E. injection E. lia.
Qed.

(** ** The search in a tree *)

Lemma sorted_app_inv (l1 l2 : list lq) q : StronglySorted names_lt (l1 ++ q :: l2) ->
  StronglySorted names_lt l1 /\ StronglySorted names_lt l2 /\ (forall s, s ∈ l1 -> names_lt s q) /\ (forall s, s ∈ l2 -> names_lt q s).
Proof.
  induction l1 as [|a l1 IH]; cbn; intros H; apply StronglySorted_inv in H as [Hs Ha].
  - split; [constructor|]. split; [done|]. split; [by intros s []%elem_of_nil|]. by apply Forall_forall.
  - destruct (IH Hs) as (H1 & H2 & H3 & H4). rewrite Forall_app, Forall_cons in Ha. destruct Ha as (Ha1 & Haq & _).
    split; [by constructor|]. split; [done|]. split; [|done]. intros s [->|Hx]%elem_of_cons; [done|by apply H3].
Qed.

Lemma level_part pre l l' : level pre l -> StronglySorted names_lt l' -> l' ⊆ l -> level pre l'.
Proof. intros [pre' l0 _ Hin Hpre] Hs Hsub. constructor; [done|intros q Hq; by apply Hin, Hsub|intros a b Ha Hb; by apply Hpre; apply Hsub]. Qed.

Section Node.
Context (pre : bytes) (l1 : list lq) (q : lq) (l2 : list lq) (Hl : level pre (l1 ++ q :: l2)).

Lemma node_sorted : (forall s, s ∈ l1 -> names_lt s q) /\ (forall s, s ∈ l2 -> names_lt q s) /\ level pre l1 /\ level pre l2.
Proof.
  inversion Hl as [pre' l Hs _ _]; subst. destruct (sorted_app_inv _ _ _ Hs) as (H1 & H2 & H3 & H4).
  split; [done|]. split; [done|]. split; (eapply level_part; [exact Hl|done|set_solver]).
Qed.

Lemma in_left s : s ∈ l1 -> s ∈ l1 ++ q :: l2. Proof. intros H. apply elem_of_app. by left. Qed.
Lemma in_node : q ∈ l1 ++ q :: l2. Proof. apply elem_of_app. by right; left. Qed.
Lemma in_right s : s ∈ l2 -> s ∈ l1 ++ q :: l2. Proof. intros H. apply elem_of_app. by right; right. Qed.

Lemma level_incl a b : a ∈ l1 ++ q :: l2 -> b ∈ l1 ++ q :: l2 -> is_Some (lq_inclusive a) -> lq_name a `prefix_of` lq_name b -> a = b.
Proof. inversion Hl as [pre' l _ _ H]; subst. apply H. Qed.

Section Full.
Context (full : bytes).
Lemma right_above x : lexlt full (lq_name q) -> x ∈ below q ++ flat l2 -> irrelevant full x.
Proof.
  intros Hlt Hx. apply above_irrelevant. apply elem_of_app in Hx as [Hx|Hx].
  - eapply lexlt_prefix_r; [exact Hlt|]. eapply below_name; [exact Hl|apply in_node|exact Hx].
  - apply elem_flat in Hx as (s & Hs & Hx). eapply lexlt_prefix_r; [|eapply below_name; [exact Hl|by apply in_right|exact Hx]].
    eapply lexlt_trans; [exact Hlt|]. by apply node_sorted.
Qed.

Lemma left_below x : lexlt (lq_name q) full -> x ∈ flat l1 -> irrelevant full x.
Proof.
  intros Hlt Hx. apply elem_flat in Hx as (s & Hs & Hx). pose proof (proj1 node_sorted s Hs) as Hsq.
  assert (Hcase : lq_name x `prefix_of` full -> x = s /\ lq_inclusive s = None).
  { intros Hp. pose proof (below_name _ _ _ _ Hl (in_left _ Hs) Hx) as Hsx.
    assert (Hpq : lq_name s `prefix_of` lq_name q) by (eapply prefix_between; [by etrans|exact Hsq|exact Hlt]).
    destruct (lq_inclusive s) eqn:Ei.
    - exfalso. assert (E : s = q) by (apply level_incl; [by apply in_left|apply in_node|by rewrite Ei|done]). rewrite E in Hsq. by apply lexlt_irrefl in Hsq.
    - split; [|done]. eapply below_exact; [exact Hl|by apply in_left|done|done]. }
  split.
  - intros E. destruct (Hcase ltac:(by rewrite E)) as [-> _]. apply (lexlt_irrefl full). rewrite <- E at 1. by eapply lexlt_trans.
  - intros [i Hi] Hp. destruct (Hcase Hp) as [-> E]. congruence.
Qed.

Lemma right_beside x : is_Some (lq_inclusive q) -> lq_name q `prefix_of` full -> x ∈ flat l2 -> irrelevant full x.
Proof.
  intros Hi Hp Hx. apply elem_flat in Hx as (s & Hs & Hx). pose proof (proj1 (proj2 node_sorted) s Hs) as Hqs.
  assert (Hno : ~ lq_name x `prefix_of` full).
  { intros Hpx. pose proof (below_name _ _ _ _ Hl (in_right _ Hs) Hx) as Hsx.
    destruct (prefix_weak_total (lq_name q) (lq_name s) full) as [H|H]; [done|by etrans| |].
    - assert (E : q = s) by (apply level_incl; [apply in_node|by apply in_right|done|done]). rewrite <- E in Hqs. by apply lexlt_irrefl in Hqs.
    - by apply (prefix_not_lexlt _ _ H). }
  split; [intros E; apply Hno; by rewrite E|done].
Qed.

Lemma mid_below x : diverge (lq_name q) full -> x ∈ below q -> irrelevant full x.
Proof.
  intros Hd Hx. pose proof (below_name _ _ _ _ Hl in_node Hx) as Hqx.
  assert (Hno : ~ lq_name x `prefix_of` full) by (intros Hp; apply (diverge_not_prefix _ _ Hd); by etrans).
  split; [intros E; apply Hno; by rewrite E|done].
Qed.

Lemma mid_exact x : lq_inclusive q = None -> lq_name q <> full -> x ∈ below q -> irrelevant full x.
Proof.
  intros Hi Hne Hx. rewrite (below_exact _ _ _ _ Hl in_node Hx Hi). split; [done|]. intros [i E]. congruence.
Qed.

Lemma flat_node : flat (l1 ++ q :: l2) = flat l1 ++ below q ++ flat l2.
Proof. by rewrite flat_app. Qed.

Lemma answer_left st r res : lexlt full (lq_name q) -> answer st (flat l1) full r res -> answer st (flat (l1 ++ q :: l2)) full r res.
Proof.
  intros Hlt Ha. rewrite flat_node. eapply answer_more; [exact Ha|set_solver|]. intros x [Hx|Hx]%elem_of_app; [by left|right; by apply right_above].
Qed.

Lemma answer_right st r res : lexlt (lq_name q) full -> (forall x, x ∈ below q -> irrelevant full x) ->
  answer st (flat l2) full r res -> answer st (flat (l1 ++ q :: l2)) full r res.
Proof.
  intros Hlt Hq Ha. rewrite flat_node. eapply answer_more; [exact Ha|set_solver|].
  intros x [Hx|[Hx|Hx]%elem_of_app]%elem_of_app; [right; by apply left_below|right; by apply Hq|by left].
Qed.

(** The inclusive location itself is the answer as long as none below it is. *)
Lemma answer_sub st r res : is_Some (lq_inclusive q) -> strict_prefix (lq_name q) full ->
  answer st (flat (lq_list q)) full (NGX_AGAIN, lq_inclusive q) res -> answer st (flat (l1 ++ q :: l2)) full r res.
Proof.
  intros Hi Hsp Ha. assert (Hp : lq_name q `prefix_of` full) by (destruct Hsp as (x & c & ->); by exists (x :: c)).
  assert (Hlt : lexlt (lq_name q) full) by by right.
  assert (Hne : lq_name q <> full) by (intros E; rewrite E in Hlt; by apply lexlt_irrefl in Hlt).
  assert (Hlong : forall x, x ∈ flat (lq_list q) -> (length (lq_name q) <= length (lq_name x))%nat).
  { intros x Hx. apply prefix_length. eapply below_name; [exact Hl|apply in_node|]. rewrite below_eq. by right. }
  rewrite flat_node. apply (answer_more st (below q)); [|set_solver|].
  2: { intros x [Hx|[Hx|Hx]%elem_of_app]%elem_of_app; [right; by apply left_below|by left|right; by apply right_beside]. }
  rewrite below_eq. destruct Ha as [(y & Hy & E & ->)|[Hno Ha]]; [left; exists y; split; [by right|done]|].
  right. split; [intros y [->|Hy]%elem_of_cons; [done|by apply Hno]|].
  destruct Ha as [(y & c & Hy & E & Hau & ->)|[(y & Hy & Hiy & Hpy & -> & Hmax)|[Hn ->]]].
  - left. exists y, c. split; [by right|done].
  - right. left. exists y. split; [by right|]. split; [done|]. split; [done|]. split; [done|].
    intros z [->|Hz]%elem_of_cons Hiz Hpz; [by apply Hlong|by apply Hmax].
  - right. left. exists q. split; [by left|]. split; [done|]. split; [done|]. split; [done|].
    intros z [->|Hz]%elem_of_cons Hiz Hpz; [done|by destruct (Hn z Hz Hiz)].
Qed.

Lemma answer_auto st r res c : lq_name q = full ++ [c] -> auto_lq st q = true ->
  answer st (flat l1) full (NGX_DONE, the_conf q) res -> answer st (flat (l1 ++ q :: l2)) full r res.
Proof.
  intros E Hau Ha. assert (Hlt : lexlt full (lq_name q)) by (rewrite E; right; by exists c, []).
  pose proof (answer_left st _ res Hlt Ha) as [H|[Hno [H|[H|[Hn ->]]]]]; [by left|right; split; [done|]..].
  - by left.
  - by right; left.
  - left. exists q, c. split; [rewrite flat_node, below_eq; set_solver|done].
Qed.
End Full.
End Node.

Lemma take_drop_prefix (nm uri : bytes) : (length nm <= length uri)%nat -> nm `prefix_of` uri \/ uri `prefix_of` nm -> uri = nm ++ drop (length nm) uri.
Proof.
  intros Hlen [[c ->]|Hp]; [by rewrite drop_app_length|]. destruct Hp as [c ->]. rewrite length_app in Hlen.
  assert (c = []) as -> by (destruct c; [done|cbn in *; lia]). rewrite app_nil_r, drop_all. by rewrite app_nil_r.
Qed.

Lemma strict_of_longer (a b : bytes) : (length a < length b)%nat -> a `prefix_of` b \/ b `prefix_of` a -> strict_prefix a b.
Proof.
  intros Hlen H. pose proof (take_drop_prefix a b ltac:(lia) H) as E. rewrite E. destruct (drop (length a) b) as [|x c] eqn:Ed; [|by exists x, c].
  rewrite app_nil_r in E. subst. lia.
Qed.

Lemma diverge_app p a b : diverge a b -> diverge (p ++ a) (p ++ b).
Proof. intros H. induction p as [|x p IH]; [done|]. cbn. by apply diverge_cons. Qed.

Lemma strict_prefix_app p a b : strict_prefix a b -> strict_prefix (p ++ a) (p ++ b).
Proof. intros (x & c & ->). exists x, c. by rewrite app_assoc. Qed.

(** The search returns, with one of the answers for the locations of the tree. *)
Lemma search_answer st pre l t : tree_of st pre l t -> level pre l ->
  forall uri r, exists res, find_static_location t uri (fst r) (snd r) = Ok res /\ answer st (flat l) (pre ++ uri) r res.
Proof.
  induction 1 as [pre|pre l1 q l2 lt rt sub nm Enm _ IHl _ IHr _ IHs]; intros Hl uri r.
  { exists r. split; [by destruct r|]. right. split; [by intros q []%elem_of_nil|]. right. right. split; [by intros q []%elem_of_nil|done]. }
  destruct (node_sorted _ _ _ _ Hl) as (_ & _ & Hl1 & Hl2). specialize (IHl Hl1). specialize (IHr Hl2).
  assert (Hq : (is_Some (lq_exact q) \/ is_Some (lq_inclusive q)) /\ level (lq_name q) (lq_list q)).
  { inversion Hl as [pre' l' _ Hin _]; subst. by destruct (Hin q (in_node l1 q l2)) as (_ & _ & _ & ? & _ & ?). }
  destruct Hq as [Hsome Hlq]. specialize (IHs Hlq). cbn [find_static_location].
  unfold blen, ngx_filename_cmp. rewrite Nat2Z.id. pose proof (compare_spec uri nm) as Hcmp.
  destruct (Z.compare_spec (compare_bytes (take (Nat.min (length uri) (length nm)) uri) (take (Nat.min (length uri) (length nm)) nm)) 0) as [Ec|Hc|Hc].
  - rewrite Ec. cbn [Z.eqb negb]. destruct (Z.ltb_spec (Z.of_nat (length nm)) (Z.of_nat (length uri))) as [Hlen|Hlen].
    + assert (Hsp : strict_prefix nm uri) by (apply strict_of_longer; [lia|tauto]).
      assert (Hfull : strict_prefix (lq_name q) (pre ++ uri)) by (rewrite Enm; by apply strict_prefix_app).
      destruct (lq_inclusive q) as [i|] eqn:Ei.
      * rewrite Nat.min_r by lia. destruct (IHs (drop (length nm) uri) (NGX_AGAIN, Some i)) as (res & E & Ha). exists res. split; [exact E|].
        eapply answer_sub; [exact Hl|by rewrite Ei|exact Hfull|]. rewrite Ei.
        assert (Efull : lq_name q ++ drop (length nm) uri = pre ++ uri).
        { rewrite Enm, <- app_assoc. f_equal. symmetry. apply take_drop_prefix; [lia|tauto]. }
        by rewrite <- Efull.
      * destruct (IHr uri r) as (res & E & Ha). exists res. split; [exact E|]. assert (Hlt : lexlt (lq_name q) (pre ++ uri)) by by right.
        eapply answer_right; [exact Hl|exact Hlt| |exact Ha]. intros x. apply (mid_exact _ _ _ _ Hl); [done|].
        intros E'. rewrite E' in Hlt. by apply lexlt_irrefl in Hlt.
    + destruct (Z.eqb_spec (Z.of_nat (length uri)) (Z.of_nat (length nm))) as [He|Hne].
      * assert (uri = nm) as -> by (pose proof (take_drop_prefix nm uri ltac:(lia) ltac:(tauto)) as E; rewrite <- (Nat2Z.inj _ _ He), drop_all, app_nil_r in E; done).
        exists (if bool_decide (is_Some (lq_exact q)) then NGX_OK else NGX_AGAIN, the_conf q). split.
        { unfold the_conf. destruct (lq_exact q); [done|]. by destruct (lq_inclusive q); [|destruct Hsome as [[]|[]]]. }
        left. exists q. rewrite flat_node, below_eq. split; [set_solver|]. split; [by rewrite Enm|done].
      * assert (Hsp : strict_prefix uri nm) by (apply strict_of_longer; [lia|tauto]).
        assert (Hlt : lexlt (pre ++ uri) (lq_name q)) by (rewrite Enm; right; by apply strict_prefix_app).
        destruct ((Z.of_nat (length uri) + 1 =? Z.of_nat (length nm)) && auto_lq st q) eqn:Ea.
        -- apply andb_true_iff in Ea as [Elen Hau]. apply Z.eqb_eq in Elen. destruct Hsp as (x & c & ->). rewrite length_app in Elen. cbn in Elen.
           assert (c = []) as -> by (destruct c; [done|cbn in Elen; lia]).
           destruct (IHl uri (NGX_DONE, the_conf q)) as (res & E & Ha). exists res. split.
           { unfold the_conf in *. destruct (lq_exact q); [exact E|]. by destruct (lq_inclusive q); [|destruct Hsome as [[]|[]]]. }
           eapply answer_auto; [exact Hl| |exact Hau|exact Ha]. by rewrite Enm, app_assoc.
        -- destruct (IHl uri r) as (res & E & Ha). exists res. split; [exact E|]. by eapply answer_left.
  - rewrite (proj2 (Z.eqb_neq _ _)) by lia. cbn [negb]. rewrite (proj2 (Z.ltb_lt _ _)) by lia.
    destruct (IHl uri r) as (res & E & Ha). exists res. split; [exact E|]. eapply answer_left; [exact Hl| |exact Ha].
    rewrite Enm. left. by apply diverge_app.
  - rewrite (proj2 (Z.eqb_neq _ _)) by lia. cbn [negb]. rewrite (proj2 (Z.ltb_ge _ _)) by lia.
    destruct (IHr uri r) as (res & E & Ha). exists res. split; [exact E|].
    assert (Hd : diverge (lq_name q) (pre ++ uri)) by (rewrite Enm; by apply diverge_app).
    eapply answer_right; [exact Hl|by left| |exact Ha]. intros x. by apply (mid_below _ _ _ _ Hl).
Qed.

(** ** Making the nested queue *)

Definition strip (q : lq) : lq := let 'Lq e i n _ := q in Lq e i n [].
Lemma strip_name q : lq_name (strip q) = lq_name q. Proof. by destruct q. Qed.
Lemma strip_flat q : lq_list q = [] -> strip q = q. Proof. destruct q. cbn. by intros ->. Qed.

(** What a location of a level satisfies by itself. *)
Definition location_ok (pre : bytes) (q : lq) : Prop :=
  pre `prefix_of` lq_name q /\ text (lq_name q) /\ (length (lq_name q) <= 255)%nat /\ (is_Some (lq_exact q) \/ is_Some (lq_inclusive q)).

Lemma level_cons pre q l : level pre l -> location_ok pre q -> (lq_list q <> [] -> is_Some (lq_inclusive q)) -> level (lq_name q) (lq_list q) ->
  (forall y, y ∈ l -> names_lt q y) -> (is_Some (lq_inclusive q) -> forall y, y ∈ l -> ~ lq_name q `prefix_of` lq_name y) -> level pre (q :: l).
Proof.
  intros [pre' l' Hs Hin Hpre] (Hp & Ht & H255 & Hsome) Hne Hsub Hlt Hno. constructor.
  - constructor; [done|]. by apply Forall_forall.
  - intros x [->|Hx]%elem_of_cons; [by split_and!|by apply Hin].
  - intros a b [->|Ha]%elem_of_cons [->|Hb]%elem_of_cons Hi Hab; [done|by destruct (Hno Hi b Hb)| |by apply Hpre].
    destruct (prefix_not_lexlt _ _ Hab). by apply Hlt.
Qed.

Lemma span_prefix_spec nm l a b : span_prefix nm l = (a, b) -> text nm -> Forall (fun q => text (lq_name q)) l ->
  StronglySorted names_lt l -> Forall (fun q => lexlt nm (lq_name q)) l ->
  l = a ++ b /\ (forall x, x ∈ a -> nm `prefix_of` lq_name x) /\ (forall x, x ∈ b -> ~ nm `prefix_of` lq_name x).
Proof.
  revert a b. induction l as [|x l IH]; intros a b E Hnm Ht Hs Hlt; cbn [span_prefix] in E.
  { injection E as <- <-. split; [done|]. split; by intros x []%elem_of_nil. }
  apply Forall_cons in Ht as [Htx Ht]. apply Forall_cons in Hlt as [Hx Hlt]. apply StronglySorted_inv in Hs as [Hs Hxl].
  assert (Hb : ((length (lq_name x) <? length nm)%nat || negb (ngx_strncmp nm (lq_name x) (length nm) =? 0)) = negb (bool_decide (nm `prefix_of` lq_name x))).
  { destruct (Nat.ltb_spec (length (lq_name x)) (length nm)) as [Hlen|Hlen]; cbn [orb].
    - rewrite bool_decide_eq_false_2; [done|]. intros Hp%prefix_length. lia.
    - by rewrite strncmp_spec. }
  rewrite Hb in E. destruct (bool_decide_reflect (nm `prefix_of` lq_name x)) as [Hp|Hp]; cbn [negb] in E.
  - destruct (span_prefix nm l) as [a' b'] eqn:E'. injection E as <- <-. destruct (IH _ _ eq_refl Hnm Ht Hs Hlt) as (-> & Ha & Hb').
    split; [done|]. split; [|done]. intros y [->|Hy]%elem_of_cons; [done|by apply Ha].
  - injection E as <- <-. split; [done|]. split; [by intros y []%elem_of_nil|]. intros y [->|Hy]%elem_of_cons Hpy; [done|].
    apply Hp. rewrite Forall_forall in Hxl. eapply prefix_between; [exact Hpy|done|by apply Hxl].
Qed.

Lemma sorted_parts {A} (R : A -> A -> Prop) (a b : list A) : StronglySorted R (a ++ b) ->
  StronglySorted R a /\ StronglySorted R b /\ forall x y, x ∈ a -> y ∈ b -> R x y.
Proof.
  induction a as [|z a IH]; cbn; intros H; [split; [constructor|split; [done|by intros x y []%elem_of_nil]]|].
  apply StronglySorted_inv in H as [H Hz]. apply Forall_app in Hz as [Hza Hzb]. destruct (IH H) as (H1 & H2 & H3).
  split; [by constructor|]. split; [done|]. rewrite Forall_forall in Hzb. intros x y [->|Hx]%elem_of_cons Hy; [by apply Hzb|by apply H3].
Qed.

Lemma level_nil pre : level pre [].
Proof. constructor; [constructor|by intros q []%elem_of_nil|by intros a b []%elem_of_nil]. Qed.

Lemma level_one pre q : location_ok pre q -> lq_list q = [] -> level pre [q].
Proof.
  intros Hq E. apply level_cons; [apply level_nil|done|by rewrite E|rewrite E; apply level_nil|by intros y []%elem_of_nil|by intros _ y []%elem_of_nil].
Qed.

Lemma flat_names l l' : map strip (flat l') = l -> forall y, y ∈ l' -> exists x, x ∈ l /\ lq_name x = lq_name y.
Proof.
  intros <- y Hy. exists (strip y). split; [|apply strip_name]. apply list_elem_of_fmap. exists y. split; [done|].
  apply elem_flat. exists y. split; [done|]. rewrite below_eq. by left.
Qed.

(** From an ascending queue without nesting: a level with the same locations. *)
Lemma create_list_level f : forall pre l, (length l <= f)%nat -> (0 < f)%nat -> StronglySorted names_lt l ->
  (forall q, q ∈ l -> location_ok pre q /\ lq_list q = []) ->
  exists l', ngx_http_create_locations_list f l = Ok l' /\ level pre l' /\ map strip (flat l') = l /\ (l <> [] -> l' <> []).
Proof.
  induction f as [|f IH]; intros pre l Hf H0 Hs Hok; [lia|]. cbn [ngx_http_create_locations_list].
  destruct l as [|q [|q2 rest2]].
  { exists []. split; [done|]. split; [apply level_nil|done]. }
  { destruct (Hok q ltac:(by left)) as [Hq Eq]. exists [q]. split; [done|]. split; [by apply level_one|].
    cbn. rewrite app_nil_r, below_eq, Eq. cbn. by rewrite strip_flat. }
  set (rest := q2 :: rest2) in *. destruct (Hok q ltac:(by left)) as [Hq Eq]. assert (Hrest : rest <> []) by done. clearbody rest. clear q2 rest2.
  apply StronglySorted_inv in Hs as [Hs Hlt]. rewrite Forall_forall in Hlt. cbn [length] in Hf.
  assert (Hflen : (length rest <= f)%nat /\ (0 < f)%nat) by (destruct rest; [done|cbn in *; lia]). destruct Hflen as [Hf1 Hf2].
  assert (Hokr : forall x, x ∈ rest -> location_ok pre x /\ lq_list x = []) by (intros x Hx; apply Hok; by right).
  (* the rest is done by itself, [q] stays *)
  assert (Hplain : (is_Some (lq_inclusive q) -> forall y, y ∈ rest -> ~ lq_name q `prefix_of` lq_name y) ->
    exists l', (let! rest := ngx_http_create_locations_list f rest in Ok (q :: rest)) = Ok l' /\ level pre l' /\ map strip (flat l') = q :: rest /\ (q :: rest <> [] -> l' <> [])).
  { intros Hno. destruct (IH pre rest Hf1 Hf2 Hs Hokr) as (r & -> & Hr & Er & _). exists (q :: r). split; [done|]. split; [|split; [|done]].
    - apply level_cons; [done|done|by rewrite Eq|rewrite Eq; apply level_nil| |].
      + intros y Hy. destruct (flat_names _ _ Er y Hy) as (x & Hx & En). unfold names_lt. rewrite <- En. by apply Hlt.
      + intros Hi y Hy. destruct (flat_names _ _ Er y Hy) as (x & Hx & En). rewrite <- En. by apply Hno.
    - cbn [flat flat_map]. rewrite map_app. fold (flat r). rewrite Er, below_eq, Eq. cbn. by rewrite strip_flat. }
  destruct (lq_inclusive q) as [i|] eqn:Ei.
  2: { apply Hplain. by intros [? ?]. }
  destruct (span_prefix (lq_name q) rest) as [a b] eqn:Esp. pose proof Hq as (Hq1 & Hq2 & Hq3 & Hq4).
  destruct (span_prefix_spec _ _ _ _ Esp Hq2) as (Erest & Ha & Hb); [apply Forall_forall; intros x Hx; by apply Hokr|done|by apply Forall_forall|].
  destruct (Nat.eqb_spec (length a) 0) as [E0|E0].
  { apply Hplain. intros _ y Hy. apply Hb. destruct a; [|done]. by rewrite Erest in Hy. }
  clear Hplain. rewrite Eq. cbn [app]. assert (Hlen : length rest = (length a + length b)%nat) by (rewrite Erest; apply length_app).
  pose proof Hs as Hsab. rewrite Erest in Hsab. destruct (sorted_parts _ _ _ Hsab) as (Hsa & Hsb & _). clear Hsab.
  destruct (IH (lq_name q) a ltac:(lia) Hf2 Hsa) as (sub & -> & Hsub & Esub & Hsubne).
  { intros x Hx. destruct (Hokr x ltac:(rewrite Erest; apply elem_of_app; by left)) as [(_ & ? & ? & ?) ?]. by split; [split; [apply Ha|]|]. }
  rewrite obind_Ok.
  assert (Hpost : exists b', (if (length b =? 0)%nat then Ok [] else ngx_http_create_locations_list f b) = Ok b' /\ level pre b' /\ map strip (flat b') = b).
  { destruct (Nat.eqb_spec (length b) 0) as [Eb|Eb]; [exists []; destruct b; [|done]; split; [done|]; split; [apply level_nil|done]|].
    destruct (IH pre b ltac:(lia) Hf2 Hsb) as (b' & -> & ? & ? & _); [|by exists b'].
    intros x Hx. apply Hokr. rewrite Erest. apply elem_of_app. by right. }
  destruct Hpost as (b' & -> & Hb' & Eb'). rewrite obind_Ok. eexists. split; [done|]. split; [|split; [|done]].
  - apply level_cons; [done| | |done| |].
    + split; [done|]. split; [done|]. split; [done|]. right. by eexists.
    + intros _. by exists i.
    + intros y Hy. destruct (flat_names _ _ Eb' y Hy) as (x & Hx & En). unfold names_lt. cbn [lq_name]. rewrite <- En. apply Hlt.
      rewrite Erest. apply elem_of_app. by right.
    + intros _ y Hy. destruct (flat_names _ _ Eb' y Hy) as (x & Hx & En). cbn [lq_name]. rewrite <- En. by apply Hb.
  - cbn [flat flat_map]. rewrite map_app, below_eq. fold (flat b'). cbn [lq_list map strip]. rewrite Esub, Eb', Erest.
    destruct q as [e i' n s]. cbn in *. by subst.
Qed.

(** ** Making the tree *)

Definition known (st : store) (q : lq) : Prop :=
  (forall i, lq_exact q = Some i -> is_Some (st !! i)) /\ (forall i, lq_inclusive q = Some i -> is_Some (st !! i)).

Lemma auto_of_eq st x : (forall i, x = Some i -> is_Some (st !! i)) -> auto_of st x = Ok (auto_at st x).
Proof. destruct x as [i|]; [|done]. intros H. destruct (H i eq_refl) as [c E]. cbn. unfold conf_at. by rewrite E. Qed.

Lemma queue_size_app a b : queue_size (a ++ b) = (queue_size a + queue_size b)%nat.
Proof. unfold queue_size. by rewrite map_app, list_sum_app. Qed.
Lemma queue_size_cons q l : queue_size (q :: l) = (S (queue_size (lq_list q)) + queue_size l)%nat.
Proof. by destruct q. Qed.

Section Tree.
Context {Osm : OSMem} (st : store).

(** The tree is the one of the queue, unless the memory runs out. *)
Definition made (pre : bytes) (l : list lq) (pl : pool) (m : out (option tree * pool * os)) : Prop :=
  exists t pl' o', m = Ok (t, pl', o') /\ p_max pl' = p_max pl /\ match t with Some tr => tree_of st pre l tr | None => True end.

Lemma create_tree_made f : forall pre l pl o, level pre l -> l <> [] -> (queue_size l <= f)%nat -> (forall x, x ∈ flat l -> known st x) ->
  sizeof_pool_large_t <= p_max pl -> made pre l pl (ngx_http_create_locations_tree f st l (length pre) pl o).
Proof.
  induction f as [|f IH]; intros pre l pl o Hl Hne Hf Hk Hp.
  { destruct l as [|q l]; [done|]. rewrite queue_size_cons in Hf. lia. }
  cbn [ngx_http_create_locations_tree]. remember (length l / 2)%nat as k eqn:Ek.
  assert (Hkl : (k < length l)%nat) by (destruct l; [done|]; rewrite Ek; apply Nat.div_lt; cbn; lia).
  assert (Hk0 : k = 0%nat -> (length l < 2)%nat) by (intros E0; rewrite E0 in Ek; by apply Nat.div_small_iff). clear Ek.
  destruct (drop k l) as [|q tail] eqn:Ed.
  { apply (f_equal length) in Ed. rewrite length_drop in Ed. cbn in Ed. lia. }
  pose proof (take_drop k l) as El. rewrite Ed in El. set (l1 := take k l) in *. assert (Hl1 : length l1 = k) by (unfold l1; rewrite length_take; lia).
  clearbody l1. clear Ed. subst l. destruct (node_sorted _ _ _ _ Hl) as (_ & _ & Hlv1 & Hlv2).
  rewrite queue_size_app, queue_size_cons in Hf.
  assert (Hq : location_ok pre q /\ level (lq_name q) (lq_list q)).
  { inversion Hl as [pre' l' _ Hin _]; subst. by destruct (Hin q (in_node l1 q tail)) as (? & ? & ? & ? & _ & ?). }
  destruct Hq as [(Hpre & _ & H255 & _) Hsub]. destruct Hpre as [nm Enm]. rewrite Enm, drop_app_length. rewrite Enm, length_app in H255.
  destruct (palloc_max pl (offsetof_tree_name + Z.of_nat (length nm)) o Hp) as (r & pl1 & o1 & -> & Hp1). rewrite obind_Ok.
  destruct r as [p|]; [|by exists None, pl1, o1]. rewrite flat_node in Hk.
  assert (Hkq : known st q) by (apply Hk; rewrite below_eq; set_solver). rewrite (auto_of_eq st (lq_exact q)), (auto_of_eq st (lq_inclusive q)) by apply Hkq.
  rewrite !obind_Ok. fold (auto_lq st q). rewrite uwrap_small by lia. fold (blen nm).
  assert (Hinc : forall lt rt pl2 o2, p_max pl2 = p_max pl -> tree_of st pre l1 lt -> tree_of st pre tail rt ->
    made pre (l1 ++ q :: tail) pl (match lq_list q with
      | [] => Ok (Some (Node lt rt Null (lq_exact q) (lq_inclusive q) (auto_lq st q) (blen nm) nm), pl2, o2)
      | y :: z => let! (t, pl, o) := ngx_http_create_locations_tree f st (y :: z) (length pre + length nm) pl2 o2 in
          Ok (match t with Some t => Some (Node lt rt t (lq_exact q) (lq_inclusive q) (auto_lq st q) (blen nm) nm) | None => None end, pl, o) end)).
  { intros lt rt pl2 o2 Hp2 Hlt Hrt. destruct (lq_list q) as [|s sub] eqn:Es.
    - eexists _, _, _. split; [done|]. split; [done|]. apply tree_of_node; try done. rewrite Es. constructor.
    - rewrite <- length_app, <- Enm. rewrite <- Es in *. destruct (IH (lq_name q) (lq_list q) pl2 o2 Hsub) as (t & pl3 & o3 & -> & Hp3 & Ht);
        [by rewrite Es|lia|intros x Hx; apply Hk; rewrite below_eq; set_solver|lia|].
      rewrite obind_Ok. eexists _, _, _. split; [done|]. split; [lia|]. destruct t; [|done]. by apply tree_of_node. }
  destruct (Nat.eqb_spec k 0) as [Ek|Ek].
  - assert (l1 = []) as -> by (destruct l1; [done|cbn in Hl1; lia]).
    assert (tail = []) as -> by (destruct tail; [done|specialize (Hk0 Ek); cbn in Hk0; lia]).
    apply Hinc; [lia|constructor|constructor].
  - destruct (IH pre l1 pl1 o1 Hlv1) as (lt & pl2 & o2 & -> & Hp2 & Hlt); [by destruct l1|lia|intros x Hx; apply Hk; set_solver|lia|]. rewrite obind_Ok.
    destruct lt as [lt|]; [|eexists None, _, _; split; [done|split; [lia|done]]].
    destruct tail as [|s tail]; [apply Hinc; [lia|done|constructor]|].
    destruct (IH pre (s :: tail) pl2 o2 Hlv2) as (rt & pl3 & o3 & -> & Hp3 & Hrt); [done|lia|intros x Hx; apply Hk; set_solver|lia|]. rewrite obind_Ok.
    destruct rt as [rt|]; [|eexists None, _, _; split; [done|split; [lia|done]]]. apply Hinc; [lia|done|done].
Qed.
End Tree.
