(* ===== verification/NgxLocationsBuild.v ===== *)
(** * Properties of the locations from their declaration to the search

    The queue of the declared locations is sorted and split by kind, pairs of an
    exact and an inclusive location of one name are joined, and the tree of the
    static ones answers every search as a map from names does. *)
From Stdlib Require Import Sorting.Sorted Sorting.Permutation.
From stdpp Require Import gmap list.
From S2P Require Import Prelude NgxPalloc NginxProps NgxArray NgxHeaders NgxLocations NgxLocationsProps.
#[local] Open Scope Z_scope.
Import Headers Locations.

(** ** Joining *)

Definition key : Type := bytes * bool.
(** The configurations of a location under the keys name and exactness. *)
Definition entries (q : lq) : list (key * Z) :=
  (match lq_exact q with Some i => [((lq_name q, true), i)] | None => [] end) ++
  (match lq_inclusive q with Some i => [((lq_name q, false), i)] | None => [] end).

(** The order of a sorted queue: an exact location is before the inclusive one. *)
Definition loc_le (a b : lq) : Prop :=
  lexlt (lq_name a) (lq_name b) \/ lq_name a = lq_name b /\ (is_Some (lq_inclusive a) -> lq_exact b = None).
Definition some_conf (q : lq) : Prop := is_Some (lq_exact q) \/ is_Some (lq_inclusive q).
(** As it is declared: one configuration. *)
Definition one_conf (q : lq) : Prop := lq_list q = [] /\ text (lq_name q) /\ some_conf q /\ (lq_exact q = None \/ lq_inclusive q = None).

Definition joined (l j : list lq) : Prop :=
  StronglySorted names_lt j /\ flat_map entries j = flat_map entries l /\
  (forall x, x ∈ j -> lq_list x = [] /\ some_conf x /\ exists y, y ∈ l /\ lq_name y = lq_name x).

Lemma join_loop_joined rest : forall q, lq_list q = [] -> text (lq_name q) -> some_conf q -> (forall x, x ∈ rest -> one_conf x) -> StronglySorted loc_le (q :: rest) ->
  match join_loop q rest with Some j => joined (q :: rest) j | None => ~ NoDup (map fst (flat_map entries (q :: rest))) end.
Proof.
  induction rest as [|x rest IH]; intros q Hlist Htext Hq Hone Hs; cbn [join_loop].
  { split; [by repeat constructor|]. split; [done|]. intros x Hx. split; [set_solver|]. split; [set_solver|]. exists q. set_solver. }
  apply StronglySorted_inv in Hs as [Hs Hq_le]. destruct (Hone x ltac:(by left)) as (Hxl & Hxt & Hxs & Hx1).
  pose proof (Forall_inv Hq_le) as Hqx. pose proof (strcmp_spec _ _ Htext Hxt) as Hcmp.
  destruct (Z.eqb_spec (ngx_strcmp (lq_name q) (lq_name x)) 0) as [E|E].
  - rewrite E in Hcmp. cbn in Hcmp. destruct Hqx as [Hlt|[_ Hqx]]; [rewrite Hcmp in Hlt; by apply lexlt_irrefl in Hlt|].
    destruct (_ || _) eqn:Edup.
    { intros Hnd. apply orb_true_iff in Edup as [Ed|Ed]; apply andb_true_iff in Ed as [E1%bool_decide_eq_true E2%bool_decide_eq_true];
        destruct E1 as [i1 E1], E2 as [i2 E2]; cbn [flat_map] in Hnd; unfold entries in Hnd; rewrite E1, E2, Hcmp in Hnd.
      - cbn in Hnd. apply NoDup_cons in Hnd as [Hnd _]. apply Hnd. rewrite map_app. apply elem_of_app. right. by left.
      - rewrite !map_app in Hnd. rewrite <- !app_assoc in Hnd. apply NoDup_app in Hnd as (_ & _ & Hnd). cbn in Hnd.
        apply NoDup_cons in Hnd as [Hnd _]. apply Hnd. destruct (lq_exact x); cbn; set_solver. }
    apply orb_false_iff in Edup as [Ed1 Ed2].
    assert (Hparts : lq_exact x = None /\ is_Some (lq_inclusive x) /\ lq_inclusive q = None).
    { destruct (lq_exact x) as [i|] eqn:Ex.
      - exfalso. rewrite (bool_decide_eq_true_2 (is_Some (Some i))), andb_true_r in Ed1 by done. apply bool_decide_eq_false in Ed1.
        destruct Hq as [Hq|Hq]; [done|]. by specialize (Hqx Hq).
      - destruct Hxs as [[? ?]|Hxs]; [congruence|]. split; [done|]. split; [done|]. rewrite (bool_decide_eq_true_2 (is_Some (lq_inclusive x))), andb_true_r in Ed2 by done.
        apply bool_decide_eq_false in Ed2. destruct (lq_inclusive q); [|done]. by destruct Ed2. }
    destruct Hparts as (Hxe & Hxi & Hqi).
    assert (Hent : entries q ++ entries x = entries (Lq (lq_exact q) (lq_inclusive x) (lq_name q) (lq_list q))).
    { unfold entries. cbn. by rewrite Hxe, Hqi, Hcmp, app_nil_r. }
    specialize (IH (Lq (lq_exact q) (lq_inclusive x) (lq_name q) (lq_list q)) Hlist Htext ltac:(by right) (fun y Hy => Hone y ltac:(by right))).
    cbn [flat_map] in IH |- *. rewrite app_assoc, Hent.
    assert (Hs' : StronglySorted loc_le (Lq (lq_exact q) (lq_inclusive x) (lq_name q) (lq_list q) :: rest)).
    { apply StronglySorted_inv in Hs as [Hs Hx]. constructor; [done|]. eapply Forall_impl; [exact Hx|]. unfold loc_le. cbn. by rewrite Hcmp. }
    specialize (IH Hs'). destruct (join_loop _ rest) as [j|]; [|done].
    destruct IH as (Hj & Ej & Hin). split; [done|]. cbn [flat_map] in Ej |- *. split; [by rewrite app_assoc, Hent|].
    intros y Hy. destruct (Hin y Hy) as (? & ? & z & Hz & En). split; [done|]. split; [done|].
    apply elem_of_cons in Hz as [->|Hz]; [exists q; split; [by left|done]|exists z; split; [by right; right|done]].
  - assert (Hlt : names_lt q x).
    { destruct Hqx as [Hlt|[En _]]; [done|]. exfalso. destruct (Z.compare_spec (ngx_strcmp (lq_name q) (lq_name x)) 0); [done|..]; rewrite En in Hcmp; by apply lexlt_irrefl in Hcmp. }
    specialize (IH x Hxl Hxt Hxs (fun y Hy => Hone y ltac:(by right)) Hs). destruct (join_loop x rest) as [j|].
    + destruct IH as (Hj & Ej & Hin). split; [|split].
      * constructor; [done|]. apply Forall_forall. intros y Hy. destruct (Hin y Hy) as (_ & _ & z & Hz & En). unfold names_lt. rewrite <- En.
        apply StronglySorted_inv in Hs as [_ Hx]. rewrite Forall_forall in Hx. apply elem_of_cons in Hz as [->|Hz]; [done|].
        destruct (Hx z Hz) as [Hxz|[<- _]]; [by eapply lexlt_trans|done].
      * cbn [flat_map]. by rewrite Ej.
      * intros y [->|Hy]%elem_of_cons; [split; [done|split; [done|exists q; split; [by left|done]]]|].
        destruct (Hin y Hy) as (? & ? & z & Hz & En). split; [done|]. split; [done|]. exists z. split; [by right|done].
    + intros Hnd. apply IH. cbn [flat_map] in Hnd |- *. rewrite map_app in Hnd. by apply NoDup_app in Hnd as (_ & _ & Hnd).
Qed.

Lemma elem_entries (k : key) (i : Z) q : (k, i) ∈ entries q <-> fst k = lq_name q /\ Some i = if snd k then lq_exact q else lq_inclusive q.
Proof.
  destruct k as [nm b]. unfold entries. rewrite elem_of_app. cbn. destruct b, (lq_exact q), (lq_inclusive q); rewrite ?list_elem_of_singleton, ?elem_of_nil; naive_solver.
Qed.

Lemma sorted_keys j : StronglySorted names_lt j -> NoDup (map fst (flat_map entries j)).
Proof.
  induction 1 as [|q j _ IH Hq]; [constructor|]. cbn [flat_map]. rewrite map_app. apply NoDup_app. split; [|split; [|done]].
  - unfold entries. destruct (lq_exact q), (lq_inclusive q); cbn; [|apply NoDup_singleton|apply NoDup_singleton|apply NoDup_nil_2].
    apply NoDup_cons. split; [|apply NoDup_singleton]. intros E%list_elem_of_singleton. discriminate.
  - intros k ([k0 i0] & -> & [Hkn _]%elem_entries)%list_elem_of_fmap Hin.
    apply list_elem_of_fmap in Hin as ([k' i] & Ek & Hin). cbn in Ek. subst k'. apply list_elem_of_In, in_flat_map in Hin as (y & Hy%list_elem_of_In & Hi%list_elem_of_In).
    rewrite Forall_forall in Hq. specialize (Hq y Hy). unfold names_lt in Hq. cbn in Hkn. rewrite <- Hkn in Hq.
    apply elem_entries in Hi as [E _].
    cbn in E. rewrite E in Hq. by apply lexlt_irrefl in Hq.
Qed.

(** ** Sorting *)

Lemma sorted_snoc {A} (R : A -> A -> Prop) l a : StronglySorted R l -> (forall x, x ∈ l -> R x a) -> StronglySorted R (l ++ [a]).
Proof.
  induction 1 as [|b l Hl IH Hb]; intros Ha; cbn; [by repeat constructor|]. constructor; [apply IH; set_solver|].
  apply Forall_app. split; [done|]. constructor; [|done]. apply Ha. by left.
Qed.

Lemma sorted_rev {A} (R : A -> A -> Prop) l : StronglySorted (flip R) l -> StronglySorted R (rev l).
Proof.
  induction 1 as [|a l _ IH Ha]; cbn; [constructor|]. apply sorted_snoc; [done|]. intros x Hx. rewrite Forall_forall in Ha.
  apply Ha. by rewrite list_elem_of_In, <- in_rev, <- list_elem_of_In in Hx.
Qed.

Lemma filter_rev' {A} (P : A -> Prop) `{!forall x, Decision (P x)} (l : list A) : filter P (rev l) = rev (filter P l).
Proof.
  induction l as [|x l IH]; [done|]. cbn [rev]. rewrite filter_app, IH, !filter_cons, filter_nil. destruct (decide (P x)); [done|by rewrite app_nil_r].
Qed.

Section Sort.
Context (le : lq -> lq -> Prop) `{!RelDecision le} (Htotal : forall a b, ~ le a b -> le b a).

Fixpoint ins (prevs : list lq) (q : lq) : list lq :=
  match prevs with [] => [q] | p :: prevs' => if decide (le p q) then q :: prevs else p :: ins prevs' q end.

Lemma ins_perm prevs q : ins prevs q ≡ₚ q :: prevs.
Proof. induction prevs as [|p prevs IH]; [done|]. cbn. destruct (decide _); [done|]. rewrite IH. apply Permutation_swap. Qed.

Lemma ins_filter (P : lq -> Prop) `{!forall x, Decision (P x)} prevs q : (forall a b, P a -> P b -> le a b) -> filter P (ins prevs q) = filter P (q :: prevs).
Proof.
  intros HP. induction prevs as [|p prevs IH]; [done|]. cbn [ins]. destruct (decide (le p q)) as [|Hn]; [done|].
  rewrite !filter_cons in *. rewrite IH. destruct (decide (P q)), (decide (P p)); try done. destruct Hn. by apply HP.
Qed.

Lemma ins_sorted prevs q : (forall a b, a ∈ q :: prevs -> b ∈ q :: prevs -> forall c, c ∈ q :: prevs -> le a b -> le b c -> le a c) ->
  StronglySorted (flip le) prevs -> StronglySorted (flip le) (ins prevs q).
Proof.
  induction prevs as [|p prevs IH]; intros Htr Hs; cbn [ins]; [by repeat constructor|]. apply StronglySorted_inv in Hs as [Hs Hp].
  destruct (decide (le p q)) as [Hpq|Hpq].
  - constructor; [by constructor|]. constructor; [done|]. rewrite Forall_forall in Hp |- *. intros y Hy. apply (Htr y p ltac:(set_solver) ltac:(set_solver)); [set_solver|by apply Hp|done].
  - constructor; [apply IH; [|done]; intros a b Ha Hb c Hc; apply Htr; set_solver|].
    rewrite (ins_perm prevs q). constructor; [by apply Htotal|done].
Qed.

(** The loop of [ngx_queue_sort] with a comparison that answers. *)
Lemma sort_loop_spec st rest : forall prevs,
  (forall a b, a ∈ prevs ++ rest -> b ∈ prevs ++ rest -> exists c, ngx_http_cmp_locations st a b = Ok c /\ (c <= 0 <-> le a b)) ->
  (forall a b c, a ∈ prevs ++ rest -> b ∈ prevs ++ rest -> c ∈ prevs ++ rest -> le a b -> le b c -> le a c) ->
  StronglySorted (flip le) prevs ->
  exists l, sort_loop st prevs rest = Ok l /\ StronglySorted le l /\ l ≡ₚ prevs ++ rest /\
    forall (P : lq -> Prop) (HP : forall x, Decision (P x)), (forall a b, P a -> P b -> le a b) -> filter P l = filter P (rev prevs ++ rest).
Proof.
  induction rest as [|q rest IH]; intros prevs Hcmp Htr Hs; cbn [sort_loop].
  { exists (rev prevs). split; [done|]. split; [by apply sorted_rev|]. rewrite !app_nil_r. split; [symmetry; apply Permutation_rev|done]. }
  assert (Eins : insert_back st prevs q = Ok (ins prevs q)).
  { assert (Hq : forall p, p ∈ prevs -> exists c, ngx_http_cmp_locations st p q = Ok c /\ (c <= 0 <-> le p q)) by (intros p Hp; apply Hcmp; set_solver).
    clear -Hq. induction prevs as [|p prevs IH]; [done|]. cbn. destruct (Hq p ltac:(by left)) as (c & -> & Hc). rewrite obind_Ok.
    destruct (decide (le p q)) as [Hd|Hd]; [by rewrite (proj2 (Z.leb_le c 0) (proj2 Hc Hd))|].
    rewrite (proj2 (Z.leb_gt c 0)) by (apply Z.nle_gt; tauto). rewrite IH; [done|]. intros x Hx. apply Hq. by right. }
  rewrite Eins, obind_Ok. assert (Hp : ins prevs q ++ rest ≡ₚ prevs ++ q :: rest) by (rewrite ins_perm; apply Permutation_middle).
  destruct (IH (ins prevs q)) as (l & El & Hls & Hlp & Hf).
  - intros a b. rewrite Hp. apply Hcmp.
  - intros a b c. rewrite Hp. apply Htr.
  - apply ins_sorted; [|done]. intros a b Ha Hb c Hc. apply Htr; set_solver.
  - exists l. split; [done|]. split; [done|]. split; [by rewrite Hlp|]. intros P0 HP0 H0. rewrite (Hf P0 HP0 H0), !filter_app.
    assert (E : filter P0 (rev (ins prevs q)) = filter P0 (rev (q :: prevs))).
    { rewrite !filter_rev'. by rewrite (ins_filter P0). }
    rewrite E. cbn [rev]. by rewrite filter_app, <- app_assoc, <- (filter_app P0 [q]).
Qed.
End Sort.

(** ** The order of the locations *)

(** Static locations come first, then those with a regular expression, the named
    ones and those without name. *)
Definition rank (c : clcf) : nat :=
  if noname c then 3 else if named c then 2 else if bool_decide (is_Some (c_regex c)) then 1 else 0.

Lemma compare_opp a b : compare_bytes a b = - compare_bytes b a.
Proof.
  revert b. induction a as [|x a IH]; intros [|y b]; cbn; try lia. rewrite (Z.eqb_sym y x). destruct (x =? y); [apply IH|lia].
Qed.

Lemma strcmp_le a b : text a -> text b -> ngx_strcmp a b <= 0 <-> lexlt a b \/ a = b.
Proof.
  intros Ha Hb. pose proof (strcmp_spec a b Ha Hb) as H. destruct (Z.compare_spec (ngx_strcmp a b) 0) as [E|E|E].
  - subst. split; [by right|lia].
  - split; [by left|lia].
  - split; [lia|]. intros [H1| ->]; [|by apply lexlt_irrefl in H]. destruct (lexlt_irrefl a). by eapply lexlt_trans.
Qed.

Lemma strcmp_eq a b : text a -> text b -> ngx_strcmp a b = 0 <-> a = b.
Proof.
  intros Ha Hb. pose proof (strcmp_spec a b Ha Hb) as H. split; [intros E; by rewrite E in H|]. intros ->.
  destruct (Z.compare_spec (ngx_strcmp b b) 0); [done|..]; by apply lexlt_irrefl in H.
Qed.

Lemma cmp_total c d : ~ cmp_confs c d <= 0 -> cmp_confs d c <= 0.
Proof.
  unfold cmp_confs, ngx_strcmp. rewrite (compare_opp (c_string (c_name d))). set (k := compare_bytes _ _).
  destruct (noname c), (noname d), (named c), (named d), (bool_decide (is_Some (c_regex c))), (bool_decide (is_Some (c_regex d))); cbn; try lia.
  destruct (exact_match c), (exact_match d), (Z.eqb_spec k 0), (Z.eqb_spec (- k) 0); cbn; lia.
Qed.

Definition conf_le (c d : clcf) : Prop :=
  (rank c < rank d)%nat \/ rank c = rank d /\
  match rank c with
  | 0%nat => lexlt (c_name c) (c_name d) \/ c_name c = c_name d /\ (exact_match d = true -> exact_match c = true)
  | 2%nat => lexlt (c_name c) (c_name d) \/ c_name c = c_name d
  | _ => True
  end.

Lemma cmp_confs_le c d : text (c_name c) -> text (c_name d) -> cmp_confs c d <= 0 <-> conf_le c d.
Proof.
  intros Hc Hd. pose proof (strcmp_le _ _ Hc Hd) as Hle. pose proof (strcmp_eq _ _ Hc Hd) as Heq. unfold cmp_confs, conf_le, rank.
  destruct (noname c), (noname d), (named c), (named d), (bool_decide (is_Some (c_regex c))), (bool_decide (is_Some (c_regex d))); cbn;
    try (split; [lia|intros [?|[? _]]; lia]); try (split; [intros _; lia|lia]); try (split; [intros _; by right|lia]);
    try (rewrite Hle; split; [by right|intros [?|[_ ?]]; [lia|done]]).
  destruct (Z.eqb_spec (ngx_strcmp (c_name c) (c_name d)) 0) as [E|E]; cbn.
  - pose proof (proj1 Heq E) as En. rewrite E, En. destruct (exact_match c), (exact_match d); cbn; split; try lia; intros; try (right; split; [done|by right]).
    destruct H as [H|[_ [H|[_ H]]]]; [lia|by apply lexlt_irrefl in H|by specialize (H eq_refl)].
  - rewrite Hle. split; [intros [H|H]; [right; split; [done|by left]|tauto]|]. intros [H|[_ [H|[H _]]]]; [lia|by left|by right].
Qed.

Lemma conf_le_trans a b c : conf_le a b -> conf_le b c -> conf_le a c.
Proof.
  unfold conf_le. intros [H1|[E1 H1]] [H2|[E2 H2]]; [left; lia|left; lia|left; lia|]. right. split; [lia|]. rewrite <- E1 in H2.
  destruct (rank a) as [|[|[|?]]]; try done.
  - destruct H1 as [H1|[N1 H1]], H2 as [H2|[N2 H2]]; [left; by eapply lexlt_trans|left; by rewrite <- N2|left; by rewrite N1|right]. split; [congruence|auto].
  - destruct H1 as [H1|N1], H2 as [H2|N2]; [left; by eapply lexlt_trans|left; by rewrite <- N2|left; by rewrite N1|right; congruence].
Qed.

Lemma conf_le_rank a b : conf_le a b -> (rank a <= rank b)%nat.
Proof. intros [H|[E _]]; lia. Qed.

(** An ascending list by rank is its four parts, one behind the other. *)
Lemma by_rank {A} (r : A -> nat) (l : list A) : StronglySorted (fun a b => r a <= r b)%nat l -> (forall x, x ∈ l -> (r x <= 3)%nat) ->
  l = filter (fun x => r x = 0%nat) l ++ filter (fun x => r x = 1%nat) l ++ filter (fun x => r x = 2%nat) l ++ filter (fun x => r x = 3%nat) l.
Proof.
  assert (Hnone : forall n (l : list A), (forall x, x ∈ l -> (n < r x)%nat) -> filter (fun x => r x = n) l = []).
  { clear l. intros n l H. induction l as [|x l IH]; [done|]. rewrite filter_cons, decide_False by (specialize (H x ltac:(by left)); lia). apply IH. intros y Hy. apply H. by right. }
  induction 1 as [|x l Hs IH Hx]; [done|]. intros H3. rewrite Forall_forall in Hx. pose proof (H3 x ltac:(by left)) as Hx3.
  specialize (IH (fun y Hy => H3 y ltac:(by right))). rewrite !filter_cons.
  destruct (r x) as [|[|[|[|?]]]] eqn:Er; [..|lia]; repeat case_decide; try lia; rewrite IH at 1;
    rewrite ?(Hnone 0%nat), ?(Hnone 1%nat), ?(Hnone 2%nat) by (intros y Hy; specialize (Hx y Hy); lia); done.
Qed.

(** ** Declared locations *)

(** What [ngx_http_add_location] appends for the configuration [c]. *)
Definition entry (i : Z) (c : clcf) : lq :=
  if exact_match c || bool_decide (is_Some (c_regex c)) || named c || noname c then Lq (Some i) None (c_name c) [] else Lq None (Some i) (c_name c) [].

Lemma add_location_appends {Osm : OSMem} locs i c pl o : sizeof_pool_large_t <= p_max pl ->
  exists rc l pl' o', ngx_http_add_location locs i c pl o = Ok (rc, l, pl', o') /\ p_max pl' = p_max pl /\
    (rc = NGX_ERROR \/ rc = NGX_OK /\ l = Some (match locs with Some l => l | None => [] end ++ [entry i c])).
Proof.
  intros Hp. unfold ngx_http_add_location.
  assert (Hfirst : exists p pl1 o1, (match locs with Some _ => Ok (Some 0, pl, o) | None => ngx_palloc pl sizeof_location_queue o end) = Ok (p, pl1, o1) /\ p_max pl1 = p_max pl).
  { destruct locs; [by eexists _, _, _|]. by apply palloc_max. }
  destruct Hfirst as (p & pl1 & o1 & -> & Hp1). rewrite obind_Ok. destruct p; [|eexists _, _, _, _; by eauto].
  destruct (palloc_max pl1 sizeof_location_queue o1 ltac:(lia)) as (p & pl2 & o2 & -> & Hp2). rewrite obind_Ok.
  destruct p; [|eexists _, _, _, _; split; [done|split; [lia|by left]]]. unfold entry.
  destruct (_ || _); eexists _, _, _, _; (split; [done|split; [lia|by right]]).
Qed.

(** A configuration of a location without locations inside, of one kind. *)
Definition simple (c : clcf) : Prop :=
  locations c = None /\ text (c_name c) /\ (length (c_name c) <= 255)%nat /\
  (noname c = true -> named c = false) /\ (noname c || named c = true -> c_regex c = None).

Section Declared.
Context (st : store) (cf : Z -> clcf).
Definition E (i : Z) : lq := entry i (cf i).
Definition has (l : list Z) : Prop := forall i, i ∈ l -> st !! i = Some (cf i) /\ simple (cf i).

Lemma E_conf i : the_conf (E i) = Some i.
Proof. unfold E, entry. by destruct (_ || _). Qed.
Lemma E_name i : lq_name (E i) = c_name (cf i).
Proof. unfold E, entry. by destruct (_ || _). Qed.
#[local] Instance E_inj : Inj eq eq E.
Proof. intros i j H. apply (f_equal the_conf) in H. rewrite !E_conf in H. by injection H. Qed.

Definition cfq (q : lq) : clcf := match the_conf q with Some i => cf i | None => cf 0 end.
Lemma cfq_E i : cfq (E i) = cf i.
Proof. unfold cfq. by rewrite E_conf. Qed.

Lemma lq_conf_E i : st !! i = Some (cf i) -> lq_conf st (E i) = Ok (i, cf i).
Proof. intros H. unfold lq_conf. fold (the_conf (E i)). rewrite E_conf. unfold conf_at. by rewrite H. Qed.

Lemma filter_map_E (P : clcf -> Prop) `{!forall c, Decision (P c)} l : filter (fun q => P (cfq q)) (map E l) = map E (filter (fun i => P (cf i)) l).
Proof.
  induction l as [|i l IH]; [done|]. cbn [map]. rewrite !filter_cons, IH. rewrite cfq_E. by destruct (decide (P (cf i))).
Qed.

(** The queue is sorted; locations with a regular expression keep their order. *)
Lemma sort_ids ids : has ids -> exists ids', queue_sort st (map E ids) = Ok (map E ids') /\ ids' ≡ₚ ids /\
  StronglySorted (fun i j => conf_le (cf i) (cf j)) ids' /\ filter (fun i => rank (cf i) = 1%nat) ids' = filter (fun i => rank (cf i) = 1%nat) ids.
Proof.
  intros Hhas. destruct ids as [|i0 ids]; [exists []; split; [done|]; split; [done|]; split; [constructor|done]|].
  set (le := fun a b => cmp_confs (cfq a) (cfq b) <= 0).
  assert (Hle : forall i j, i ∈ i0 :: ids -> j ∈ i0 :: ids -> le (E i) (E j) <-> conf_le (cf i) (cf j)).
  { intros i j Hi Hj. unfold le. rewrite !cfq_E. apply cmp_confs_le; by apply Hhas. }
  assert (Hel : forall a, a ∈ [E i0] ++ map E ids -> exists i, a = E i /\ i ∈ i0 :: ids).
  { intros a Ha. change ([E i0] ++ map E ids) with (E <$> (i0 :: ids)) in Ha. by apply list_elem_of_fmap in Ha. }
  assert (Hdec : RelDecision le) by (intros a b; unfold le; apply _). unfold queue_sort. cbn [map].
  destruct (sort_loop_spec le (fun a b => cmp_total (cfq a) (cfq b)) st (map E ids) [E i0]) as (l & El & Hs & Hp & Hf).
  - intros a b (i & -> & Hi)%Hel (j & -> & Hj)%Hel. unfold ngx_http_cmp_locations. rewrite !lq_conf_E by by apply Hhas.
    rewrite !obind_Ok. eexists. split; [done|]. unfold le. by rewrite !cfq_E.
  - intros a b c (i & -> & Hi)%Hel (j & -> & Hj)%Hel (k & -> & Hk)%Hel. rewrite !Hle by done. apply conf_le_trans.
  - by repeat constructor.
  - rewrite El. destruct (Permutation_map_inv E (i0 :: ids) Hp) as (ids' & -> & Hp'). exists ids'. split; [done|]. split; [by symmetry|].
    assert (Hin : forall i, i ∈ ids' -> i ∈ i0 :: ids) by (intros i; by rewrite <- Hp'). split.
    + clear -Hs Hin Hle. induction ids' as [|i l IH]; [constructor|]. cbn in Hs. apply StronglySorted_inv in Hs as [Hs Hi].
      constructor; [apply IH; [done|]; intros j Hj; apply Hin; by right|]. apply Forall_forall. intros j Hj. rewrite Forall_forall in Hi.
      apply Hle; [apply Hin; by left|apply Hin; by right|]. apply Hi. apply list_elem_of_fmap. by exists j.
    + assert (Hrank : forall a b, rank (cfq a) = 1%nat -> rank (cfq b) = 1%nat -> le a b).
      { unfold le. intros a b Ha Hb. unfold cmp_confs, rank in *. destruct (noname (cfq a)), (noname (cfq b)), (named (cfq a)), (named (cfq b)); try done.
        by destruct (bool_decide (is_Some (c_regex (cfq a)))), (bool_decide (is_Some (c_regex (cfq b)))). }
      specialize (Hf (fun q => rank (cfq q) = 1%nat) (fun q => decide (rank (cfq q) = 1%nat)) Hrank). cbn [rev app] in Hf.
      change (E i0 :: map E ids) with (map E (i0 :: ids)) in Hf.
      pose proof (filter_map_E (fun c => rank c = 1%nat) ids') as H1. pose proof (filter_map_E (fun c => rank c = 1%nat) (i0 :: ids)) as H2.
      apply (inj (fmap E)). etrans; [symmetry; exact H1|]. etrans; [exact Hf|exact H2].
Qed.

(** ** The loop over the sorted queue *)

Definition first_at {A} (old : option nat) (i : nat) (l : list A) : option nat :=
  match l with [] => old | _ => match old with None => Some i | _ => old end end.

Section Scan.
Context {Osm : OSMem} (init : store -> Z -> pool -> os -> out (Z * store * option (list Z) * pool * os)).
Definition quiet (l : list Z) : Prop := forall i pl o, i ∈ l -> init st i pl o = Ok (NGX_OK, st, None, pl, o).

Ltac scan_step H Hq i :=
  destruct (H i ltac:(by left)) as [(Hi & (_ & _ & _ & Hk1 & Hk2)) Hr];
  cbn [map app scan_locations]; rewrite (lq_conf_E i Hi), obind_Ok, Hq by (by left); rewrite obind_Ok; cbn [Z.eqb negb NGX_OK];
  unfold conf_at; rewrite Hi, obind_Ok; unfold rank in Hr;
  destruct (noname (cf i)), (named (cf i)), (bool_decide (is_Some (c_regex (cf i)))) eqn:?; try done.

Lemma scan_static l : forall rest i pl o rg nm r n, (forall x, x ∈ l -> (st !! x = Some (cf x) /\ simple (cf x)) /\ rank (cf x) = 0%nat) -> quiet l ->
  scan_locations init (map E l ++ rest) i st pl o rg nm r n = scan_locations init rest (i + length l) st pl o rg nm r n.
Proof.
  induction l as [|x l IH]; intros rest i pl o rg nm r n H Hq; [by rewrite Nat.add_0_r|]. scan_step H Hq x.
  rewrite IH; [f_equal; cbn; lia|intros y Hy; apply H; by right|intros y pl' o' Hy; apply Hq; by right].
Qed.

Lemma scan_regex l : forall rest i pl o rg nm r n, (forall x, x ∈ l -> (st !! x = Some (cf x) /\ simple (cf x)) /\ rank (cf x) = 1%nat) -> quiet l ->
  scan_locations init (map E l ++ rest) i st pl o rg nm r n = scan_locations init rest (i + length l) st pl o (first_at rg i l) nm (r + Z.of_nat (length l)) n.
Proof.
  induction l as [|x l IH]; intros rest i pl o rg nm r n H Hq; [by rewrite Nat.add_0_r, Z.add_0_r|]. scan_step H Hq x.
  rewrite IH; [|intros y Hy; apply H; by right|intros y pl' o' Hy; apply Hq; by right]. f_equal; [cbn; lia|destruct l, rg; done|cbn; lia].
Qed.

Lemma scan_named l : forall rest i pl o rg nm r n, (forall x, x ∈ l -> (st !! x = Some (cf x) /\ simple (cf x)) /\ rank (cf x) = 2%nat) -> quiet l ->
  scan_locations init (map E l ++ rest) i st pl o rg nm r n = scan_locations init rest (i + length l) st pl o rg (first_at nm i l) r (n + Z.of_nat (length l)).
Proof.
  induction l as [|x l IH]; intros rest i pl o rg nm r n H Hq; [by rewrite Nat.add_0_r, Z.add_0_r|]. scan_step H Hq x.
  - apply bool_decide_eq_true in Heqb. rewrite (Hk2 ltac:(done)) in Heqb. by destruct Heqb.
  - rewrite IH; [|intros y Hy; apply H; by right|intros y pl' o' Hy; apply Hq; by right]. f_equal; [cbn; lia|destruct l, nm; done|cbn; lia].
Qed.

Lemma scan_noname l : forall i pl o rg nm r n, (forall x, x ∈ l -> (st !! x = Some (cf x) /\ simple (cf x)) /\ rank (cf x) = 3%nat) -> quiet l ->
  scan_locations init (map E l) i st pl o rg nm r n = Ok (NGX_OK, i, st, pl, o, rg, nm, r, n).
Proof.
  destruct l as [|x l]; intros i pl o rg nm r n H Hq; [done|]. scan_step H Hq x.
  - specialize (Hk1 eq_refl). done.
  - specialize (Hk1 eq_refl). done.
  - apply bool_decide_eq_true in Heqb. rewrite (Hk2 ltac:(done)) in Heqb. by destruct Heqb.
Qed.
End Scan.

Lemma exacts_E l : (forall x, x ∈ l -> (0 < rank (cf x))%nat) -> exacts (map E l) = l.
Proof.
  induction l as [|x l IH]; intros H; [done|]. cbn [map exacts]. rewrite IH by (intros y Hy; apply H; by right).
  specialize (H x ltac:(by left)). unfold E, entry, rank in *. destruct (noname (cf x)), (named (cf x)), (bool_decide (is_Some (c_regex (cf x)))), (exact_match (cf x)); cbn in *; try done; lia.
Qed.
End Declared.

Lemma quiet_init {Osm : OSMem} st cf f ids : has st cf ids -> (0 < f)%nat -> quiet st (fun st cid => ngx_http_init_locations f st cid None) ids.
Proof.
  intros H Hf i pl o Hi. destruct f as [|f]; [lia|]. destruct (H i Hi) as [Hst (Hnone & _)]. cbn [ngx_http_init_locations]. unfold conf_at. by rewrite Hst, obind_Ok, Hnone.
Qed.

Lemma scan_all {Osm : OSMem} st cf init A R N X pl o : has st cf (A ++ R ++ N ++ X) -> quiet st init (A ++ R ++ N ++ X) ->
  (forall x, x ∈ A -> rank (cf x) = 0%nat) -> (forall x, x ∈ R -> rank (cf x) = 1%nat) -> (forall x, x ∈ N -> rank (cf x) = 2%nat) -> (forall x, x ∈ X -> rank (cf x) = 3%nat) ->
  scan_locations init (map (E cf) (A ++ R ++ N ++ X)) 0 st pl o None None 0 0 =
    Ok (NGX_OK, (length A + length R + length N)%nat, st, pl, o, first_at None (length A) R, first_at None (length A + length R) N, Z.of_nat (length R), Z.of_nat (length N)).
Proof.
  intros H Hq HA HR HN HX. rewrite !map_app.
  rewrite (scan_static st cf); [|intros x Hx; split; [apply H; set_solver|by apply HA]|intros x ? ? Hx; apply Hq; set_solver].
  rewrite (scan_regex st cf); [|intros x Hx; split; [apply H; set_solver|by apply HR]|intros x ? ? Hx; apply Hq; set_solver].
  rewrite (scan_named st cf); [|intros x Hx; split; [apply H; set_solver|by apply HN]|intros x ? ? Hx; apply Hq; set_solver].
  rewrite (scan_noname st cf); [|intros x Hx; split; [apply H; set_solver|by apply HX]|intros x ? ? Hx; apply Hq; set_solver]. done.
Qed.

(** The outcome: the static locations stay in the queue, sorted; the others are
    in the arrays. *)
Definition split_queue (st : store) cf (id : Z) (pc : clcf) (ids : list Z) (nm : option (list Z)) (st1 : store) (nm1 : option (list Z)) : Prop :=
  (forall j, j <> id -> st1 !! j = st !! j) /\ exists A R N, A ≡ₚ filter (fun i => rank (cf i) = 0%nat) ids /\
    StronglySorted (fun i j => conf_le (cf i) (cf j)) A /\ R = filter (fun i => rank (cf i) = 1%nat) ids /\ N ≡ₚ filter (fun i => rank (cf i) = 2%nat) ids /\
    nm1 = (if decide (N = []) then nm else Some N) /\
    st1 !! id = Some (pc <| locations := Some (map (E cf) A) |> <| regex_locations := if decide (R = []) then regex_locations pc else Some R |>).

Lemma init_locations_spec {Osm : OSMem} st cf f id pc ids nm pl o : st !! id = Some pc -> locations pc = Some (map (E cf) ids) -> has st cf ids -> (0 < f)%nat ->
  sizeof_pool_large_t <= p_max pl ->
  exists rc st1 nm1 pl1 o1, ngx_http_init_locations (S f) st id nm pl o = Ok (rc, st1, nm1, pl1, o1) /\ p_max pl1 = p_max pl /\
    (rc = NGX_ERROR \/ rc = NGX_OK /\ split_queue st cf id pc ids nm st1 nm1).
Proof.
  intros Hid Hloc Hhas Hf Hp. cbn [ngx_http_init_locations]. unfold conf_at at 1. rewrite Hid, obind_Ok, Hloc.
  destruct (sort_ids st cf ids Hhas) as (ids' & -> & Hperm & Hs & Hregex). rewrite obind_Ok.
  assert (Hhas' : has st cf ids') by (intros i; rewrite Hperm; apply Hhas).
  assert (Hrs : StronglySorted (fun a b => rank (cf a) <= rank (cf b))%nat ids').
  { clear -Hs. induction Hs as [|x l _ IH Hx]; constructor; [done|]. eapply Forall_impl; [exact Hx|]. intros y. apply conf_le_rank. }
  pose proof (by_rank (fun i => rank (cf i)) ids' Hrs) as Hparts.
  assert (Hr3 : forall i, (rank (cf i) <= 3)%nat) by (intros i; unfold rank; destruct (noname (cf i)), (named (cf i)), (bool_decide (is_Some (c_regex (cf i)))); lia).
  specialize (Hparts (fun x _ => Hr3 x)). cbv beta in Hparts. rewrite Hregex in Hparts.
  set (A := filter (fun i => rank (cf i) = 0%nat) ids') in *. set (R := filter (fun i => rank (cf i) = 1%nat) ids) in *.
  set (N := filter (fun i => rank (cf i) = 2%nat) ids') in *. set (X := filter (fun i => rank (cf i) = 3%nat) ids') in *.
  assert (HA : forall x, x ∈ A -> rank (cf x) = 0%nat) by by intros x [? ?]%list_elem_of_filter.
  assert (HR : forall x, x ∈ R -> rank (cf x) = 1%nat) by by intros x [? ?]%list_elem_of_filter.
  assert (HN : forall x, x ∈ N -> rank (cf x) = 2%nat) by by intros x [? ?]%list_elem_of_filter.
  assert (HX : forall x, x ∈ X -> rank (cf x) = 3%nat) by by intros x [? ?]%list_elem_of_filter.
  assert (HpA : A ≡ₚ filter (fun i => rank (cf i) = 0%nat) ids) by (unfold A; by rewrite Hperm).
  assert (HpN : N ≡ₚ filter (fun i => rank (cf i) = 2%nat) ids) by (unfold N; by rewrite Hperm).
  assert (HsA : StronglySorted (fun i j => conf_le (cf i) (cf j)) A) by (rewrite Hparts in Hs; by apply sorted_parts in Hs as (? & _)).
  assert (HeqR : R = filter (fun i => rank (cf i) = 1%nat) ids) by done.
  clearbody A R N X. clear Hs Hrs. subst ids'.
  rewrite (scan_all st cf _ A R N X); [|done|by apply (quiet_init st cf)|done..]. rewrite obind_Ok. cbn [Z.eqb negb NGX_OK].
  assert (Etake : take (length A + length R + length N) (map (E cf) (A ++ R ++ N ++ X)) = map (E cf) A ++ map (E cf) R ++ map (E cf) N).
  { rewrite !map_app, !app_assoc. apply take_app_length'. rewrite !length_app, !length_map. lia. }
  rewrite Etake. clear Etake.
  assert (Hfin : forall g nm1, nm1 = (if decide (N = []) then nm else Some N) ->
    g pc = pc <| locations := Some (map (E cf) A) |> <| regex_locations := if decide (R = []) then regex_locations pc else Some R |> ->
    split_queue st cf id pc ids nm (alter g id st) nm1).
  { intros g nm1 -> Eg. split; [intros j Hj; by apply lookup_alter_ne|]. exists A, R, N. split_and!; try done.
    etrans; [apply lookup_alter_eq|]. etrans; [exact (f_equal (fmap g) Hid)|]. cbn. by f_equal. }
  assert (HexR : exacts (map (E cf) R) = R) by (apply exacts_E; intros x Hx; rewrite HR by done; lia).
  assert (HexN : exacts (map (E cf) N) = N) by (apply exacts_E; intros x Hx; rewrite HN by done; lia).
  assert (Hcol : forall l k n pl o, sizeof_pool_large_t <= p_max pl -> exists a pl' o', collect l k n pl o = Ok (a, pl', o') /\ p_max pl' = p_max pl /\
    (a = None \/ a = Some (exacts (drop k l)))).
  { clear. intros l k n pl o Hp. unfold collect. destruct (palloc_max pl ((n + 1) * 8) o Hp) as (r & pl' & o' & -> & Hp'). rewrite obind_Ok.
    eexists _, _, _. split; [done|]. split; [done|]. destruct r; [by right|by left]. }
  assert (Hregexes : forall nm1 pl1 o1, nm1 = (if decide (N = []) then nm else Some N) -> p_max pl1 = p_max pl ->
    exists rc st1 nm2 pl2 o2, (let! (x, pl, o) := match first_at None (length A) R with None => Ok (Some None, pl1, o1)
        | Some k => let! (a, pl, o) := collect (map (E cf) A ++ map (E cf) R) k (Z.of_nat (length R)) pl1 o1 in Ok (match a with Some a => Some (Some a) | None => None end, pl, o) end in
      match x with
      | None => Ok (NGX_ERROR, alter (fun c => c <| locations := Some (map (E cf) A ++ map (E cf) R) |>) id st, nm1, pl, o)
      | Some re => Ok (NGX_OK, alter (fun c => c <| locations := Some match first_at None (length A) R with Some k => take k (map (E cf) A ++ map (E cf) R) | None => map (E cf) A ++ map (E cf) R end |>
                         <| regex_locations := match re with Some a => Some a | None => regex_locations c end |>) id st, nm1, pl, o)
      end) = Ok (rc, st1, nm2, pl2, o2) /\ p_max pl2 = p_max pl /\ (rc = NGX_ERROR \/ rc = NGX_OK /\ split_queue st cf id pc ids nm st1 nm2)).
  { intros nm1 pl1 o1 Enm Hp1. destruct R as [|r0 R0]; [|set (R := r0 :: R0) in *; change (first_at None (length A) R) with (Some (length A))].
    - cbn [first_at]. rewrite obind_Ok. cbn [map]. rewrite !app_nil_r. eexists _, _, _, _, _. split; [done|]. split; [done|]. right. split; [done|]. by apply Hfin.
    - cbv iota. destruct (Hcol (map (E cf) A ++ map (E cf) R) (length A) (Z.of_nat (length R)) pl1 o1 ltac:(lia)) as (a & pl2 & o2 & -> & Hp2 & Ha). rewrite !obind_Ok.
      destruct Ha as [->| ->]; eexists _, _, _, _, _; (split; [done|split; [lia|]]); [by left|right; split; [done|]]. apply Hfin; [done|].
      rewrite (drop_app_length' (map (E cf) A)) by (by rewrite length_map). rewrite (take_app_length' (map (E cf) A)) by (by rewrite length_map).
      by rewrite HexR, decide_False. }
  destruct N as [|n0 N0]; [|set (N := n0 :: N0) in *; change (first_at None (length A + length R) N) with (Some (length A + length R)%nat)].
  - cbn [first_at]. rewrite obind_Ok. cbn [map]. rewrite !app_nil_r. by apply Hregexes.
  - cbv iota. destruct (Hcol (map (E cf) A ++ map (E cf) R ++ map (E cf) N) (length A + length R)%nat (Z.of_nat (length N)) pl o Hp) as (a & pl2 & o2 & -> & Hp2 & Ha). rewrite !obind_Ok.
    destruct Ha as [->| ->]; [eexists _, _, _, _, _; split; [done|split; [done|by left]]|]. rewrite app_assoc.
    rewrite (drop_app_length' (map (E cf) A ++ map (E cf) R)), (take_app_length' (map (E cf) A ++ map (E cf) R)) by (by rewrite length_app, !length_map).
    rewrite HexN. by apply Hregexes.
Qed.

(** ** What the search should find *)

Section Finds.
Context (cf : Z -> clcf) (D : gmap key Z).

Definition first_conf (nm : bytes) : option Z := match D !! (nm, true) with Some i => Some i | None => D !! (nm, false) end.
Definition redirects (nm : bytes) : bool :=
  match D !! (nm, true) with Some i => auto_redirect (cf i) | None => false end || match D !! (nm, false) with Some i => auto_redirect (cf i) | None => false end.
(** The inclusive location with the longest name among the prefixes of length at
    most [n]. *)
Fixpoint longest_inclusive (uri : bytes) (n : nat) : option Z :=
  match D !! (take n uri, false) with Some i => Some i | None => match n with O => None | S n' => longest_inclusive uri n' end end.

(** The location of the name, the exact one first; or else a redirection to the
    name with one byte more, or the inclusive location of the longest prefix. *)
Definition finds (uri : bytes) (res : Z * option Z) : Prop :=
  match D !! (uri, true), D !! (uri, false) with
  | Some i, _ => res = (NGX_OK, Some i)
  | None, Some i => res = (NGX_AGAIN, Some i)
  | None, None =>
      (exists c i, first_conf (uri ++ [c]) = Some i /\ redirects (uri ++ [c]) = true /\ res = (NGX_DONE, Some i)) \/
      res = match longest_inclusive uri (length uri) with Some i => (NGX_AGAIN, Some i) | None => (NGX_DECLINED, None) end
  end.
End Finds.

Section Answer.
Context (st : store) (cf : Z -> clcf) (j : list lq) (Hj : StronglySorted names_lt j) (Hsome : forall q, q ∈ j -> some_conf q)
  (Hknown : forall q i, q ∈ j -> lq_exact q = Some i \/ lq_inclusive q = Some i -> st !! i = Some (cf i)).
Notation D := (list_to_map (flat_map entries j) : gmap key Z).

Lemma lookup_joined nm (b : bool) i : D !! (nm, b) = Some i <-> exists q, q ∈ j /\ lq_name q = nm /\ Some i = if b then lq_exact q else lq_inclusive q.
Proof.
  rewrite <- elem_of_list_to_map by (by apply sorted_keys). rewrite list_elem_of_In, in_flat_map. split.
  - intros (q & Hq%list_elem_of_In & Hi%list_elem_of_In). apply elem_entries in Hi as [E1 E2]. exists q. by split.
  - intros (q & Hq & E1 & E2). exists q. rewrite <- list_elem_of_In. split; [done|]. rewrite <- list_elem_of_In. by apply elem_entries.
Qed.

Lemma joined_name_inj q q' : q ∈ j -> q' ∈ j -> lq_name q = lq_name q' -> q = q'.
Proof.
  clear Hsome Hknown. induction Hj as [|x l Hs IH Hx]; [by intros ?%elem_of_nil|]. rewrite Forall_forall in Hx. unfold names_lt in Hx.
  intros [->|H1]%elem_of_cons [->|H2]%elem_of_cons E; [done| | |by apply IH].
  - specialize (Hx _ H2). rewrite E in Hx. by apply lexlt_irrefl in Hx.
  - specialize (Hx _ H1). rewrite E in Hx. by apply lexlt_irrefl in Hx.
Qed.

Lemma lookup_at q (b : bool) : q ∈ j -> D !! (lq_name q, b) = if b then lq_exact q else lq_inclusive q.
Proof.
  intros Hq. destruct (D !! (lq_name q, b)) as [i|] eqn:Ed.
  - apply lookup_joined in Ed as (q' & Hq' & En & E). by rewrite (joined_name_inj _ _ Hq' Hq En) in E.
  - destruct (if b then lq_exact q else lq_inclusive q) as [i|] eqn:Ei; [|done]. rewrite <- Ed. apply lookup_joined. by exists q.
Qed.

Lemma lookup_absent nm (b : bool) : (forall q, q ∈ j -> lq_name q <> nm) -> D !! (nm, b) = None.
Proof. intros H. destruct (D !! (nm, b)) eqn:Ed; [|done]. apply lookup_joined in Ed as (q & Hq & En & _). by destruct (H q Hq). Qed.

Lemma name_longest_none uri n : (forall q, q ∈ j -> is_Some (lq_inclusive q) -> ~ lq_name q `prefix_of` uri) -> longest_inclusive D uri n = None.
Proof.
  intros H. assert (Hn : forall n, D !! (take n uri, false) = None).
  { clear n. intros n. destruct (D !! _) eqn:Ed; [|done]. apply lookup_joined in Ed as (q & Hq & En & Ei). destruct (H q Hq ltac:(by rewrite <- Ei)). rewrite En. apply prefix_take. }
  induction n as [|n IH]; cbn [longest_inclusive]; by rewrite Hn.
Qed.

Lemma name_longest_is uri q n : q ∈ j -> is_Some (lq_inclusive q) -> lq_name q `prefix_of` uri -> (length (lq_name q) <= n <= length uri)%nat ->
  (forall q', q' ∈ j -> is_Some (lq_inclusive q') -> lq_name q' `prefix_of` uri -> (length (lq_name q') <= length (lq_name q))%nat) ->
  longest_inclusive D uri n = lq_inclusive q.
Proof.
  intros Hq Hi Hp Hn Hmax. assert (Eq : take (length (lq_name q)) uri = lq_name q) by (destruct Hp as [c ->]; by rewrite take_app_length).
  induction n as [|n IH]; cbn [longest_inclusive].
  - assert (length (lq_name q) = 0%nat) as El by lia. rewrite El in Eq. rewrite Eq, (lookup_at q false Hq). by destruct (lq_inclusive q), Hi.
  - destruct (D !! (take (S n) uri, false)) as [i|] eqn:Ed.
    + apply lookup_joined in Ed as (q' & Hq' & En & Ei). assert (Hlen : length (lq_name q') = S n) by (rewrite En, length_take; lia).
      specialize (Hmax q' Hq' ltac:(by rewrite <- Ei)). rewrite En in Hmax. specialize (Hmax (prefix_take _ _)).
      rewrite <- En, Hlen in Hmax. assert (length (lq_name q) = S n) as El by lia. rewrite El in Eq. rewrite Eq in En. by rewrite (joined_name_inj _ _ Hq Hq' (eq_sym En)).
    + apply IH. destruct (decide (length (lq_name q) = S n)) as [El|]; [|lia]. rewrite El in Eq. rewrite Eq, (lookup_at q false Hq) in Ed. rewrite Ed in Hi. by destruct Hi.
Qed.

Lemma auto_known q : q ∈ j -> auto_lq st q = redirects cf D (lq_name q).
Proof.
  intros Hq. unfold auto_lq, redirects. rewrite (lookup_at q true Hq), (lookup_at q false Hq). unfold auto_at.
  f_equal; [destruct (lq_exact q) as [i|] eqn:Ei|destruct (lq_inclusive q) as [i|] eqn:Ei]; try done; rewrite (Hknown q i Hq); auto.
Qed.

Lemma answer_finds uri res : answer st j uri (NGX_DECLINED, None) res -> finds cf D uri res.
Proof.
  intros [(q & Hq & <- & ->)|[Hno Ha]]; unfold finds.
  - rewrite (lookup_at q true Hq), (lookup_at q false Hq). unfold the_conf. destruct (lq_exact q) as [i|] eqn:Ee; [done|].
    destruct (lq_inclusive q) as [i|] eqn:Ei; [done|]. destruct (Hsome q Hq) as [[? ?]|[? ?]]; congruence.
  - rewrite !(lookup_absent uri) by done. destruct Ha as [(q & c & Hq & En & Hau & ->)|[(q & Hq & Hi & Hp & -> & Hmax)|[Hn ->]]].
    + left. exists c. unfold first_conf. rewrite <- En, (lookup_at q true Hq), (lookup_at q false Hq), <- (auto_known q Hq). unfold the_conf.
      destruct (lq_exact q) as [i|] eqn:Ee; [by exists i|]. destruct (lq_inclusive q) as [i|] eqn:Ei; [by exists i|]. destruct (Hsome q Hq) as [[? ?]|[? ?]]; congruence.
    + right. rewrite (name_longest_is uri q); [|done|done|done|apply prefix_length in Hp; lia|done]. by destruct (lq_inclusive q), Hi.
    + right. by rewrite name_longest_none.
Qed.
End Answer.

(** ** From the declaration to the search *)

Lemma answer_strip st l full r res : answer st l full r res -> answer st (map strip l) full r res.
Proof.
  assert (Hin : forall q, q ∈ l -> strip q ∈ map strip l) by (intros q Hq; apply list_elem_of_fmap; by exists q).
  assert (Hof : forall x, x ∈ map strip l -> exists q, q ∈ l /\ x = strip q) by (intros x (q & -> & Hq)%list_elem_of_fmap; by exists q).
  assert (Hs : forall q, lq_name (strip q) = lq_name q /\ lq_exact (strip q) = lq_exact q /\ lq_inclusive (strip q) = lq_inclusive q /\ the_conf (strip q) = the_conf q /\ auto_lq st (strip q) = auto_lq st q) by by intros [].
  intros [(q & Hq & En & ->)|[Hno Ha]]; [left; exists (strip q); destruct (Hs q) as (-> & -> & _ & -> & _); by split; [apply Hin|]|]. right. split.
  { intros x (q & Hq & ->)%Hof. destruct (Hs q) as (-> & _). by apply Hno. }
  destruct Ha as [(q & c & Hq & En & Hau & ->)|[(q & Hq & Hi & Hp & -> & Hmax)|[Hn ->]]].
  - left. exists (strip q), c. destruct (Hs q) as (-> & _ & _ & -> & ->). by split; [apply Hin|].
  - right. left. exists (strip q). destruct (Hs q) as (-> & _ & -> & _ & _). split; [by apply Hin|]. split; [done|]. split; [done|]. split; [done|].
    intros x (q' & Hq' & ->)%Hof. destruct (Hs q') as (-> & _ & -> & _ & _). by apply Hmax.
  - right. right. split; [|done]. intros x (q & Hq & ->)%Hof. destruct (Hs q) as (-> & _ & -> & _ & _). by apply Hn.
Qed.

Lemma nonempty_cons {B} (l : list B) : l <> [] -> exists x l', l = x :: l'.
Proof. destruct l as [|x l]; [done|]. by exists x, l. Qed.

Definition key_of (c : clcf) : key := (c_name c, exact_match c).

Section Static.
Context {Osm : OSMem} (st : store) (cf : Z -> clcf) (A : list Z) (Hhas : has st cf A) (HA : forall i, i ∈ A -> rank (cf i) = 0%nat).

Lemma static_entry i : i ∈ A -> E cf i = if exact_match (cf i) then Lq (Some i) None (c_name (cf i)) [] else Lq None (Some i) (c_name (cf i)) [].
Proof.
  intros Hi. specialize (HA i Hi). unfold E, entry, rank in *. destruct (noname (cf i)), (named (cf i)), (bool_decide (is_Some (c_regex (cf i)))); try done.
  by rewrite !orb_false_r.
Qed.

Lemma entries_static l : l ⊆ A -> flat_map entries (map (E cf) l) = map (fun i => (key_of (cf i), i)) l.
Proof.
  induction l as [|i l IH]; intros Hl; [done|]. cbn [map flat_map]. rewrite IH by set_solver. rewrite static_entry by set_solver.
  unfold key_of. by destruct (exact_match (cf i)).
Qed.

Lemma static_one i : i ∈ A -> one_conf (E cf i).
Proof.
  intros Hi. destruct (Hhas i Hi) as [_ (_ & Ht & _)]. rewrite static_entry by done. destruct (exact_match (cf i));
    (split; [done|split; [done|split; [|by (left + right)]]]); [left|right]; by eexists.
Qed.

Lemma static_sorted : StronglySorted (fun i j => conf_le (cf i) (cf j)) A -> StronglySorted loc_le (map (E cf) A).
Proof.
  assert (H : forall l, l ⊆ A -> StronglySorted (fun i j => conf_le (cf i) (cf j)) l -> StronglySorted loc_le (map (E cf) l)); [|by apply H].
  intros l Hl Hs. induction Hs as [|i l Hs IH Hi]; [constructor|]. cbn. constructor; [apply IH; set_solver|]. apply Forall_forall.
  intros x (k & -> & Hk)%list_elem_of_fmap. rewrite Forall_forall in Hi. specialize (Hi k Hk). unfold conf_le in Hi. rewrite (HA i), (HA k) in Hi by set_solver.
  unfold loc_le. rewrite !E_name. destruct Hi as [Hi|[_ [Hi|[En Hi]]]]; [lia|by left|right]. split; [done|].
  rewrite !static_entry by set_solver. destruct (exact_match (cf i)), (exact_match (cf k)); cbn; try done; try by intros []. by specialize (Hi eq_refl).
Qed.

(** The search for every name, in a tree that is made of the static locations. *)
Lemma build_tree pl o : A <> [] -> StronglySorted (fun i j => conf_le (cf i) (cf j)) A -> sizeof_pool_large_t <= p_max pl ->
  match ngx_http_join_exact_locations (map (E cf) A) with
  | None => ~ NoDup (map (fun i => key_of (cf i)) A)
  | Some j => NoDup (map (fun i => key_of (cf i)) A) /\ exists l t pl' o', ngx_http_create_locations_list (length j) j = Ok l /\
      ngx_http_create_locations_tree (queue_size l) st l 0 pl o = Ok (t, pl', o') /\
      match t with None => True | Some tr => forall uri, exists res, ngx_http_core_find_static_location tr uri = Ok res /\
        finds cf (list_to_map (map (fun i => (key_of (cf i), i)) A)) uri res end
  end.
Proof.
  intros Hne Hs Hp. assert (Ekeys : map (fun i => key_of (cf i)) A = map fst (flat_map entries (map (E cf) A))).
  { rewrite entries_static by done. by rewrite map_map. }
  rewrite Ekeys, <- (entries_static A) by done. apply static_sorted in Hs.
  destruct (nonempty_cons A Hne) as (i0 & A0 & EA). unfold ngx_http_join_exact_locations.
  assert (Emap : map (E cf) A = E cf i0 :: map (E cf) A0) by by rewrite EA. rewrite Emap.
  assert (Hone : forall x, x ∈ map (E cf) A -> one_conf x) by (intros x (i & -> & Hi)%list_elem_of_fmap; by apply static_one).
  rewrite Emap in Hs, Hone. destruct (Hone (E cf i0) ltac:(by left)) as (H1 & H2 & H3 & _).
  pose proof (join_loop_joined (map (E cf) A0) (E cf i0) H1 H2 H3 (fun x Hx => Hone x ltac:(by right)) Hs) as Hj.
  destruct (join_loop _ _) as [j|]; [|done]. destruct Hj as (Hj & Eent & Hin). rewrite <- Eent. split; [by apply sorted_keys|]. rewrite <- Emap in Eent, Hin.
  assert (Hname : forall x, x ∈ j -> exists i, i ∈ A /\ c_name (cf i) = lq_name x).
  { intros x Hx. destruct (Hin x Hx) as (_ & _ & y & (i & -> & Hi)%list_elem_of_fmap & En). exists i. by rewrite <- En, E_name. }
  assert (Hjne : j <> []) by (intros ->; rewrite Emap in Eent; cbn in Eent; destruct H3 as [[? H3]|[? H3]]; unfold entries in Eent; rewrite H3 in Eent; [done|by destruct (lq_exact (E cf i0))]).
  destruct (create_list_level (length j) [] j) as (l & El & Hl & Estrip & Hlne); [done|destruct j; [done|cbn; lia]|done| |].
  { intros x Hx. destruct (Hin x Hx) as (Hxl & Hxs & _). destruct (Hname x Hx) as (i & Hi & En). destruct (Hhas i Hi) as [_ (_ & Ht & H255 & _)]. rewrite En in Ht, H255.
    split; [|done]. split; [apply prefix_nil|]. by split. }
  assert (Hknown : forall q i, q ∈ j -> lq_exact q = Some i \/ lq_inclusive q = Some i -> st !! i = Some (cf i)).
  { intros q i Hq Hi. assert (Hent : exists b : bool, ((lq_name q, b), i) ∈ flat_map entries j).
    { exists (if bool_decide (lq_exact q = Some i) then true else false). apply list_elem_of_In, in_flat_map. exists q. rewrite <- !list_elem_of_In. split; [done|].
      apply elem_entries. split; [done|]. cbn. destruct (bool_decide_reflect (lq_exact q = Some i)); [done|]. by destruct Hi. }
    destruct Hent as [b Hent]. rewrite Eent, entries_static in Hent by done. apply list_elem_of_fmap in Hent as (i' & E' & Hi'). injection E' as _ _ ->. by apply Hhas. }
  destruct (create_tree_made st (queue_size l) [] l pl o Hl (Hlne Hjne) ltac:(done)) as (t & pl' & o' & Et & _ & Htree); [|done|].
  { intros x Hx. assert (Hsx : strip x ∈ j) by (rewrite <- Estrip; apply list_elem_of_fmap; by exists x).
    destruct x as [e i n sub]. split; intros k Hk; eexists; apply (Hknown _ k Hsx); [by left|by right]. }
  exists l, t, pl', o'. split; [done|]. split; [done|]. destruct t as [tr|]; [|done]. intros uri.
  destruct (search_answer st [] l tr Htree Hl uri (NGX_DECLINED, None)) as (res & E & Ha). exists res. split; [exact E|].
  apply answer_strip in Ha. rewrite Estrip in Ha. eapply answer_finds; [exact Hj|intros q Hq; by apply Hin|exact Hknown|exact Ha].
Qed.
End Static.

Lemma quiet_trees {Osm : OSMem} st cf f pl o : forall l, has st cf l -> (0 < f)%nat ->
  nested_trees (ngx_http_init_static_location_trees f) (map (E cf) l) st pl o = Ok (NGX_OK, st, pl, o).
Proof.
  induction l as [|i l IH]; intros H Hf; [done|]. destruct (H i ltac:(by left)) as [Hst (Hnone & _)]. cbn [map nested_trees]. rewrite (lq_conf_E st cf) by done.
  rewrite obind_Ok. assert (E0 : ngx_http_init_static_location_trees f st i pl o = Ok (NGX_OK, st, pl, o)).
  { destruct f as [|f]; [lia|]. cbn [ngx_http_init_static_location_trees]. unfold conf_at. by rewrite Hst, obind_Ok, Hnone. }
  rewrite E0, obind_Ok. apply IH; [|done]. intros k Hk. apply H. by right.
Qed.

Lemma trees_spec {Osm : OSMem} f st cf id pc A pl o : st !! id = Some pc -> locations pc = Some (map (E cf) A) -> static_locations pc = Null ->
  has st cf A -> (forall i, i ∈ A -> rank (cf i) = 0%nat) -> StronglySorted (fun i j => conf_le (cf i) (cf j)) A -> sizeof_pool_large_t <= p_max pl -> (0 < f)%nat ->
  exists rc st2 pl2 o2, ngx_http_init_static_location_trees (S f) st id pl o = Ok (rc, st2, pl2, o2) /\
    (rc = NGX_ERROR \/ rc = NGX_OK /\ NoDup (map (fun i => key_of (cf i)) A) /\ exists tr, (exists l, st2 !! id = Some (pc <| locations := l |> <| static_locations := tr |>)) /\
      forall uri, exists res, ngx_http_core_find_static_location tr uri = Ok res /\ finds cf (list_to_map (map (fun i => (key_of (cf i), i)) A)) uri res).
Proof.
  intros Hid Hloc Hnull Hhas HA Hs Hp Hf. cbn [ngx_http_init_static_location_trees]. unfold conf_at. rewrite Hid, obind_Ok, Hloc.
  destruct (decide (A = [])) as [->|Hne].
  { cbn [map]. eexists _, _, _, _. split; [done|]. right. split; [done|]. split; [apply NoDup_nil_2|]. exists Null. split; [exists (locations pc)|].
    - rewrite Hid. f_equal. rewrite <- Hnull. by destruct pc.
    - intros uri. exists (NGX_DECLINED, None). split; [done|]. cbn [map list_to_map foldr]. unfold finds. rewrite !lookup_empty. right.
      assert (Hl : forall n, longest_inclusive ∅ uri n = None) by (induction n as [|n IH]; cbn [longest_inclusive]; by rewrite lookup_empty). by rewrite Hl. }
  pose proof (build_tree st cf A Hhas HA pl o Hne Hs Hp) as Hb. destruct (map (E cf) A) as [|q l] eqn:El; [by destruct A|].
  rewrite <- El in *. rewrite (quiet_trees st cf f pl o A Hhas Hf), obind_Ok. cbn [Z.eqb negb NGX_OK].
  destruct (ngx_http_join_exact_locations _) as [j|]; [|by eexists _, _, _, _; split; [done|left]].
  destruct Hb as (Hnd & l' & t & pl' & o' & -> & Et & Ht). rewrite obind_Ok, Et, obind_Ok.
  destruct t as [tr|]; [|by eexists _, _, _, _; split; [done|left]]. eexists _, _, _, _. split; [done|]. right. split; [done|]. split; [done|].
  exists tr. split; [|done]. exists (Some []). etrans; [apply lookup_alter_eq|]. exact (f_equal (fmap _) Hid).
Qed.

(** C27: The search finds what is declared.  For locations without nested ones,
    declared in any order and of any kind, the configuration is read to an end:
    it fails, as it does when a static location is declared twice, or the queue
    keeps the static locations and the arrays the others, those with a regular
    expression in the order of their declaration, and the tree it builds answers
    every URI with the location that has that name, the exact one first; or else
    with a redirection to a location whose name has one byte more; or else with
    the inclusive location whose name is the longest prefix. *)
Theorem locations_longest {Osm : OSMem} st cf id pc ids nm pl o :
  st !! id = Some pc -> locations pc = Some (map (E cf) ids) -> static_locations pc = Null -> has st cf ids -> sizeof_pool_large_t <= p_max pl ->
  let statics := filter (fun i => rank (cf i) = 0%nat) ids in
  exists rc st1 nm1 pl1 o1, ngx_http_init_locations 2 st id nm pl o = Ok (rc, st1, nm1, pl1, o1) /\
    (rc = NGX_ERROR \/ rc = NGX_OK /\ split_queue st cf id pc ids nm st1 nm1 /\
     exists rc2 st2 pl2 o2, ngx_http_init_static_location_trees 2 st1 id pl1 o1 = Ok (rc2, st2, pl2, o2) /\
       (rc2 = NGX_ERROR \/ rc2 = NGX_OK /\ NoDup (map (fun i => key_of (cf i)) statics) /\
        exists pc2, st2 !! id = Some pc2 /\ forall uri, exists res, ngx_http_core_find_static_location (static_locations pc2) uri = Ok res /\
          finds cf (list_to_map (map (fun i => (key_of (cf i), i)) statics)) uri res)).
Proof.
  intros Hid Hloc Hnull Hhas Hp statics.
  destruct (init_locations_spec st cf 1 id pc ids nm pl o Hid Hloc Hhas ltac:(lia) Hp) as (rc & st1 & nm1 & pl1 & o1 & E1 & Hp1 & Hrc).
  exists rc, st1, nm1, pl1, o1. split; [exact E1|]. destruct Hrc as [->|[-> Hsplit]]; [by left|]. right. split; [done|]. split; [done|].
  destruct Hsplit as (Hother & A & R & N & HpA & HsA & _ & _ & _ & Hid1).
  assert (Hin : forall i, i ∈ A -> rank (cf i) = 0%nat /\ i ∈ ids) by (intros i Hi; rewrite HpA in Hi; by apply list_elem_of_filter in Hi).
  assert (Hhas1 : has st1 cf A).
  { intros i Hi. destruct (Hin i Hi) as [_ Hi']. destruct (Hhas i Hi') as [Hst Hsimple]. split; [|done]. rewrite Hother; [done|].
    intros ->. destruct Hsimple as [Hnone _]. rewrite Hid in Hst. injection Hst as ->. congruence. }
  destruct (trees_spec 1 st1 cf id _ A pl1 o1 Hid1 ltac:(by destruct pc) ltac:(by destruct pc) Hhas1 (fun i Hi => proj1 (Hin i Hi)) HsA ltac:(lia) ltac:(lia))
    as (rc2 & st2 & pl2 & o2 & E2 & Hrc2).
  exists rc2, st2, pl2, o2. split; [exact E2|]. destruct Hrc2 as [->|(-> & Hnd & tr & [l Hid2] & Hfind)]; [by left|right]. split; [done|].
  assert (Hperm : map (fun i => (key_of (cf i), i)) A ≡ₚ map (fun i => (key_of (cf i), i)) statics) by by apply Permutation_map.
  split; [unfold statics; by rewrite <- HpA|]. eexists. split; [exact Hid2|]. intros uri. destruct (Hfind uri) as (res & Ef & Hres). exists res. split; [by destruct pc|].
  assert (Emap : (list_to_map (map (fun i => (key_of (cf i), i)) A) : gmap key Z) = list_to_map (map (fun i => (key_of (cf i), i)) statics)).
  { apply list_to_map_proper; [|exact Hperm]. change (NoDup (map fst (map (fun i => (key_of (cf i), i)) A))). by rewrite map_map. }
  by rewrite <- Emap.
Qed.

(** ** An example *)

#[local] Existing Instance known_mem.
Definition demo_loc (nm : bytes) (re : option http_regex) (no na ex au : bool) : clcf := mk_clcf nm re no na ex false au None Null None.
Definition demo_conf (i : Z) : clcf :=
  match i with
  | 1 => demo_loc (bs "/") None false false false false
  | 2 => demo_loc (bs "/img/") None false false false true
  | 3 => demo_loc (bs "/img/logo") None false false true false
  | 4 => demo_loc (bs "png$") (Some (mk_regex 0 0)) false false false false
  | 5 => demo_loc (bs "@fallback") None false true false false
  | 6 => demo_loc (bs "") None true false false false
  | _ => demo_loc (bs "/im") None false false false false
  end.
Definition demo_ids : list Z := [5; 2; 4; 6; 3; 7; 1].
Definition server_of (cf : Z -> clcf) (ids : list Z) : clcf := mk_clcf [] None false false false false false (Some (map (E cf) ids)) Null None.
Definition store_of (cf : Z -> clcf) (ids : list Z) : store := list_to_map ((0, server_of cf ids) :: map (fun i => (i, cf i)) ids).
Definition demo_server : clcf := server_of demo_conf demo_ids.
Definition demo_store : store := store_of demo_conf demo_ids.

Definition simple_b (c : clcf) : bool :=
  match locations c with None => true | _ => false end && forallb (fun x => 0 <? x) (c_name c) && (length (c_name c) <=? 255)%nat &&
  negb (noname c && named c) && (negb (noname c || named c) || match c_regex c with None => true | _ => false end).
Lemma simple_b_ok c : simple_b c = true -> simple c.
Proof.
  unfold simple_b, simple. rewrite !andb_true_iff. intros ((((H1 & H2) & H3) & H4) & H5). split_and!.
  - by destruct (locations c).
  - apply Forall_forall. intros x Hx. rewrite forallb_forall in H2. apply list_elem_of_In in Hx. by apply Z.ltb_lt, H2.
  - by apply Nat.leb_le.
  - by destruct (noname c), (named c).
  - intros E1. rewrite E1 in H5. by destruct (c_regex c).
Qed.

Lemma demo_has : has demo_store demo_conf demo_ids.
Proof.
  intros i Hi. repeat (apply elem_of_cons in Hi as [->|Hi]; [split; [reflexivity|apply simple_b_ok; reflexivity]|]). by apply elem_of_nil in Hi.
Qed.

(** What the whole way answers for a URI. *)
Definition search_in (cf : Z -> clcf) (ids : list Z) (uri : bytes) : option (Z * option Z) :=
  match ngx_http_init_locations 2 (store_of cf ids) 0 None demo_pool4k (demo_blocks : @os known_mem) with
  | Ok (0, st1, _, pl, o) =>
      match ngx_http_init_static_location_trees 2 st1 0 pl o with
      | Ok (0, st2, _, _) =>
          match st2 !! 0 with
          | Some c => match ngx_http_core_find_static_location (static_locations c) uri with Ok r => Some r | _ => None end
          | None => None
          end
      | _ => None
      end
  | _ => None
  end.

Lemma locations_longest_witness :
  search_in demo_conf demo_ids (bs "/img/logo") = Some (NGX_OK, Some 3) /\ search_in demo_conf demo_ids (bs "/img/logos") = Some (NGX_AGAIN, Some 2) /\
  search_in demo_conf demo_ids (bs "/img") = Some (NGX_DONE, Some 2) /\ search_in demo_conf demo_ids (bs "/image") = Some (NGX_AGAIN, Some 7) /\
  let statics := filter (fun i => rank (demo_conf i) = 0%nat) demo_ids in
  exists rc st1 nm1 pl1 o1, ngx_http_init_locations 2 demo_store 0 None demo_pool4k (demo_blocks : @os known_mem) = Ok (rc, st1, nm1, pl1, o1) /\
    (rc = NGX_ERROR \/ rc = NGX_OK /\ split_queue demo_store demo_conf 0 demo_server demo_ids None st1 nm1 /\
     exists rc2 st2 pl2 o2, ngx_http_init_static_location_trees 2 st1 0 pl1 o1 = Ok (rc2, st2, pl2, o2) /\
       (rc2 = NGX_ERROR \/ rc2 = NGX_OK /\ NoDup (map (fun i => key_of (demo_conf i)) statics) /\
        exists pc2, st2 !! 0 = Some pc2 /\ forall uri, exists res, ngx_http_core_find_static_location (static_locations pc2) uri = Ok res /\
          finds demo_conf (list_to_map (map (fun i => (key_of (demo_conf i), i)) statics)) uri res)).
Proof.
  split; [vm_compute; reflexivity|]. split; [vm_compute; reflexivity|]. split; [vm_compute; reflexivity|]. split; [vm_compute; reflexivity|].
  apply (locations_longest demo_store demo_conf 0 demo_server demo_ids None demo_pool4k (demo_blocks : @os known_mem));
    [reflexivity|reflexivity|reflexivity|exact demo_has|vm_compute; discriminate].
Defined.

(** A redirection can be missed: of the two locations [/a/] and [/a-b] the search
    for [/a] meets the first one, of three with [/a+] it turns to the left at
    [/a-b] and never does. *)
Definition slash_conf (i : Z) : clcf :=
  match i with
  | 1 => demo_loc (bs "/a/") None false false false true
  | 2 => demo_loc (bs "/a-b") None false false false false
  | _ => demo_loc (bs "/a+") None false false false false
  end.
Lemma redirect_missed : search_in slash_conf [1; 2] (bs "/a") = Some (NGX_DONE, Some 1) /\ search_in slash_conf [1; 2; 3] (bs "/a") = Some (NGX_DECLINED, None).
Proof. split; vm_compute; reflexivity. Qed.
