(* ===== verification/NgxPrintf.v ===== *)
(** * Formatted printing: nginx/src/core/ngx_string.c

    [ngx_vslprintf] with all its directives and the functions that call it.  A
    format is the list of its bytes in front of the NUL; the result is the list
    of the bytes that are written from [buf] on. *)
From Stdlib Require Import Floats.SpecFloat.
From S2P Require Import Prelude.
From S2P Require Import NgxString Geo.
From S2P Require Export NgxStrUtil.
#[local] Open Scope Z_scope.

Module Printf.
Import Dbl.

(** What [va_arg] takes: a number, an [ngx_str_t] or [ngx_variable_value_t], the
    memory from a [char *] on, a double. *)
Inductive arg := ANum (z : Z) | AStr (s : bytes) | AMem (s : bytes) | ADouble (f : spec_float).

Definition NGX_INT_T_LEN : nat := 20.
Definition NGX_ATOMIC_T_LEN : nat := 20.
Definition NGX_PTR_SIZE : nat := 8.

(** The flags of a directive. *)
Record flags := mk_flags { zero : Z; width : Z; sign : bool; hexadecimal : Z; max_width : bool; frac_width : Z; slen : option Z }.
#[export] Instance flags_settable : Settable flags := fun s => mk_flags (zero s) (width s) (sign s) (hexadecimal s) (max_width s) (frac_width s) (slen s).

(** [last - buf]; [None]: [last] is the address -1. *)
Definition room : Type := option nat.
Definition cut (r : room) (s : bytes) : bytes := match r with Some n => take n s | None => s end.
Definition less (r : room) (n : nat) : room := match r with Some m => Some (m - n)%nat | None => None end.

(** [*fmt] *)
Definition peek (fmt : bytes) : Z := match fmt with [] => 0 | c :: _ => c end.
Definition is_digit (c : Z) : bool := (48 <=? c) && (c <=? 57).

(** [while ( *fmt >= '0' && *fmt <= '9') width = width * 10 + *fmt++ - '0';] *)
Fixpoint number (n : Z) (fmt : bytes) : Z * bytes :=
  match fmt with
  | c :: fmt' => if is_digit c then number (u64 (n * 10 + c - 48)) fmt' else (n, fmt)
  | [] => (n, [])
  end.

(** The loop over the flags. *)
Fixpoint read_flags (s : flags) (fmt : bytes) (args : list arg) : out (flags * bytes * list arg) :=
  match fmt with
  | [] => Ok (s, fmt, args)
  | c :: fmt' =>
      if c =? 117 (* u *) then read_flags (s <| sign := false |>) fmt' args
      else if c =? 109 (* m *) then read_flags (s <| max_width := true |>) fmt' args
      else if c =? 88 (* X *) then read_flags (s <| hexadecimal := 2 |> <| sign := false |>) fmt' args
      else if c =? 120 (* x *) then read_flags (s <| hexadecimal := 1 |> <| sign := false |>) fmt' args
      else if c =? 46 (* . *) then let '(n, fmt) := number (frac_width s) fmt' in Ok (s <| frac_width := n |>, fmt, args)
      else if c =? 42 (* * *) then
        match args with
        | ANum n :: args => read_flags (s <| slen := if u64 n =? 2 ^ 64 - 1 then None else Some (u64 n) |>) fmt' args
        | _ => Undef BadPointer
        end
      else Ok (s, fmt, args)
  end.

(** [while ( *p && buf < last) *buf++ = *p++;] *)
Fixpoint copy_string (r : room) (p : bytes) : out bytes :=
  match p with
  | [] => Undef OutOfBounds
  | c :: p' =>
      if c =? 0 then Ok []
      else match r with
           | Some O => Ok []
           | _ => let! s := copy_string (less r 1) p' in Ok (c :: s)
           end
  end.
(** [ngx_cpymem(buf, p, len)] *)
Definition copy_mem (p : bytes) (len : nat) : out bytes := if (length p <? len)%nat then Undef OutOfBounds else Ok (take len p).

(** [ngx_sprintf_num(buf, last, ui64, zero, hex, width)]; without [last] the room
    that the longest number takes is enough. *)
Definition print_num (r : room) (ui64 z h width : Z) : out bytes :=
  let w := Z.to_nat width in
  ngx_sprintf_num (match r with Some n => n | None => w + NGX_INT64_LEN end)%nat ui64 z h w.

(** The number behind the '-' that is written without a check. *)
Definition print_signed (r : room) (i64 : Z) (s : flags) : out bytes :=
  if i64 <? 0 then let! p := print_num (less r 1) (u64 (- i64)) (zero s) (hexadecimal s) (width s) in Ok (45 :: p)
  else print_num r i64 (zero s) (hexadecimal s) (width s).

(** The conversions of a double: truncation, undefined out of range. *)
Definition to_range (lo hi : Z) (d : spec_float) : out Z :=
  match d with
  | S754_zero _ => Ok 0
  | S754_finite s m e => let z := if s then - trunc m e else trunc m e in if (lo <=? z) && (z <=? hi) then Ok z else Undef BadConversion
  | _ => Undef BadConversion
  end.
Definition to_i64 := to_range (- 2 ^ 63) (2 ^ 63 - 1).
Definition to_u64 := to_range 0 (2 ^ 64 - 1).
Definition half : spec_float := div (of_int 1) (of_int 2).
Fixpoint scale_of (n : nat) : Z := match n with O => 1 | S n' => u64 (scale_of n' * 10) end.

Definition print_double (r : room) (f : spec_float) (s : flags) : out bytes :=
  let minus := SFltb f (of_int 0) in
  let f := if minus then SFopp f else f in
  let pre := if minus then [45] else [] in
  let r := less r (length pre) in
  let! ui64 := to_i64 f in
  let scale := scale_of (Z.to_nat (frac_width s)) in
  let! (ui64, frac) :=
    (if frac_width s =? 0 then Ok (u64 ui64, 0)
     else
       let! frac := to_u64 (SFadd 53 1024 (mul (SFsub 53 1024 f (of_int (u64 ui64))) (of_int scale)) half) in
       Ok (if frac =? scale then (u64 (ui64 + 1), 0) else (u64 ui64, frac))) in
  let! whole := print_num r ui64 (zero s) 0 (width s) in
  let r := less r (length whole) in
  if frac_width s =? 0 then Ok (pre ++ whole)
  else
    let dot := cut r [46] in
    let! digits := print_num (less r (length dot)) frac 48 0 (frac_width s) in
    Ok (pre ++ whole ++ dot ++ digits).

(** The types of the integer directives, as they are read from a signed and an
    unsigned argument. *)
Definition integer (c : Z) (s : flags) (z : Z) : option (Z * flags) :=
  let signed := s <| sign := true |> in
  let either (w : Z) := Some (if sign s then swrap w z else uwrap w z, s) in
  let wide (w : Z) (n : nat) := Some (if sign s then swrap w z else uwrap w z, if max_width s then s <| width := Z.of_nat n |> else s) in
  if c =? 79 (* O *) then Some (i64 z, signed)
  else if c =? 80 (* P *) then Some (i32 z, signed)
  else if c =? 84 (* T *) then Some (i64 z, signed)
  else if c =? 77 (* M *) then Some (if u64 z =? 2 ^ 64 - 1 then (-1, signed) else (u64 z, s <| sign := false |>))
  else if c =? 122 (* z *) then either 64
  else if c =? 105 (* i *) then wide 64 NGX_INT_T_LEN
  else if c =? 100 (* d *) then either 32
  else if c =? 108 (* l *) then either 64
  else if c =? 68 (* D *) then either 32
  else if c =? 76 (* L *) then either 64
  else if c =? 65 (* A *) then wide 64 NGX_ATOMIC_T_LEN
  else if c =? 114 (* r *) then Some (i64 z, signed)
  else if c =? 112 (* p *) then Some (u64 z, s <| hexadecimal := 2 |> <| sign := false |> <| zero := 48 |> <| width := Z.of_nat (NGX_PTR_SIZE * 2) |>)
  else None.

(** The directive whose letter is [c], with room for a byte at least. *)
Definition convert (r : room) (c : Z) (s : flags) (args : list arg) : out (bytes * list arg) :=
  if (c =? 86) || (c =? 118) (* V, v *) then
    match args with AStr v :: args => Ok (cut r v, args) | _ => Undef BadPointer end
  else if c =? 115 (* s *) then
    match args with
    | AMem p :: args =>
        let! w := match slen s with
                  | None => copy_string r p
                  | Some n => copy_mem p (match r with Some m => Nat.min m (Z.to_nat n) | None => Z.to_nat n end)
                  end in
        Ok (w, args)
    | _ => Undef BadPointer
    end
  else if c =? 102 (* f *) then
    match args with ADouble f :: args => let! w := print_double r f s in Ok (w, args) | _ => Undef BadPointer end
  else if c =? 99 (* c *) then
    match args with ANum d :: args => Ok ([Z.land d 255], args) | _ => Undef BadPointer end
  else if c =? 90 (* Z *) then Ok ([0], args)
  else if c =? 78 (* N *) then Ok ([10], args)
  else if c =? 37 (* %% *) then Ok ([37], args)
  else
    match integer c s 0 with
    | None => Ok ([c], args)
    | Some _ =>
        match args with
        | ANum z :: args =>
            match integer c s z with
            | Some (n, s) => let! w := print_signed r n s in Ok (w, args)
            | None => Ok ([c], args)
            end
        | _ => Undef BadPointer
        end
    end.

Definition full (r : room) : bool := match r with Some O => true | _ => false end.

(** One round: the bytes it writes, what is left of the format and of the
    arguments.  The letter of a directive may be the NUL behind the format, which
    is copied; what is behind it is not the format's. *)
Definition directive (r : room) (fmt : bytes) (args : list arg) : out (bytes * bytes * list arg) :=
  let z := if peek fmt =? 48 then 48 else 32 in
  let '(w, fmt) := number 0 fmt in
  let! (s, fmt, args) := read_flags (mk_flags z w true 0 false 0 None) fmt args in
  let! (text, args) := convert r (peek fmt) s args in
  match fmt with [] => Undef OutOfBounds | _ :: fmt => Ok (text, fmt, args) end.

Fixpoint vslprintf_loop (fuel : nat) (r : room) (fmt : bytes) (args : list arg) : out bytes :=
  match fuel with
  | O => NoFuel
  | S f =>
      match fmt with
      | [] => Ok []
      | c :: fmt' =>
          if full r then Ok []
          else if c =? 37 then
            let! (text, fmt, args) := directive r fmt' args in
            let! rest := vslprintf_loop f (less r (length text)) fmt args in Ok (text ++ rest)
          else let! rest := vslprintf_loop f (less r 1) fmt' args in Ok (c :: rest)
      end
  end.
Definition ngx_vslprintf (r : room) (fmt : bytes) (args : list arg) : out bytes := vslprintf_loop (S (length fmt)) r fmt args.

Definition ngx_sprintf : bytes -> list arg -> out bytes := ngx_vslprintf None.
(** [ngx_snprintf(buf, max, fmt, ...)], [ngx_slprintf(buf, last, fmt, ...)] with
    [last - buf] bytes of room. *)
Definition ngx_snprintf (max : nat) : bytes -> list arg -> out bytes := ngx_vslprintf (Some max).
Definition ngx_slprintf (left : nat) : bytes -> list arg -> out bytes := ngx_vslprintf (Some left).
End Printf.
