(* ===== verification/NgxPrintfProps.v ===== *)
(** * Properties of formatted printing

    What is printed fits the room, and is what the room leaves of the text that is
    printed without a limit. *)
From S2P Require Import Prelude NgxCodec NgxStrUtil NgxStrUtilProps NgxPrintf.
#[local] Open Scope Z_scope.
Import Printf.

(** ** The room is enough *)

Definition fits (r : room) (w : bytes) : Prop := match r with Some n => (length w <= n)%nat | None => True end.

Lemma fits_cut r w : fits r (cut r w).
Proof. destruct r; [|done]. cbn. rewrite length_take. lia. Qed.

Lemma fits_app r a b : fits r a -> fits (less r (length a)) b -> fits r (a ++ b).
Proof. destruct r; [|done]. cbn. rewrite length_app. lia. Qed.

Lemma fits_le r n w : fits (less r n) w -> fits r w.
Proof. destruct r; [|done]. cbn. lia. Qed.

Lemma print_num_fits r v z h w s : print_num r v z h w = Ok s -> fits r s.
Proof.
  unfold print_num, ngx_sprintf_num. intros H. apply obind_Ok_inv in H as (p & _ & H). injection H as <-.
  destruct r as [n|]; [|done]. cbn. rewrite length_app, length_replicate, length_take. lia.
Qed.

Lemma copy_string_fits p : forall r s, copy_string r p = Ok s -> fits r s.
Proof.
  induction p as [|c p IH]; intros r s H; [done|]. cbn in H. destruct (c =? 0); [injection H as <-; by destruct r; cbn; lia|].
  destruct r as [[|n]|]; [injection H as <-; cbn; lia| |done]. apply obind_Ok_inv in H as (s' & E & H). injection H as <-.
  specialize (IH _ _ E). cbn in *. lia.
Qed.

Lemma print_signed_fits r n s w : full r = false -> print_signed r n s = Ok w -> fits r w.
Proof.
  intros Hr. unfold print_signed. destruct (n <? 0); [|apply print_num_fits]. intros H. apply obind_Ok_inv in H as (p & E & H).
  injection H as <-. apply print_num_fits in E. destruct r as [[|m]|]; [done| |done]. cbn in *. lia.
Qed.

Lemma print_double_fits r f s w : full r = false -> print_double r f s = Ok w -> fits r w.
Proof.
  intros Hr. unfold print_double. set (pre := if SpecFloat.SFltb _ _ then [45] else []).
  assert (Hpre : fits r pre) by (unfold pre; destruct (SpecFloat.SFltb _ _), r as [[|n]|]; cbn; try done; lia). clearbody pre. intros H.
  apply obind_Ok_inv in H as (i & _ & H). apply obind_Ok_inv in H as ([ui frac] & _ & H). apply obind_Ok_inv in H as (whole & Ew & H).
  apply print_num_fits in Ew. destruct (frac_width s =? 0); [injection H as <-; by apply fits_app|].
  apply obind_Ok_inv in H as (ds & Ed & H). injection H as <-. apply print_num_fits in Ed.
  apply fits_app; [done|]. apply fits_app; [done|]. apply fits_app; [apply fits_cut|done].
Qed.

Lemma convert_fits r c s args w args' : full r = false -> convert r c s args = Ok (w, args') -> fits r w.
Proof.
  intros Hr. assert (H1 : forall x : Z, fits r [x]) by (intros x; destruct r as [[|n]|]; cbn; [done|lia|done]).
  unfold convert. destruct (_ || _).
  { destruct args as [|[| | |] ?]; try done. intros H. injection H as <- _. apply fits_cut. }
  destruct (c =? 115).
  { destruct args as [|[| |p|] ?]; try done. intros H. apply obind_Ok_inv in H as (s' & E & H). injection H as <- _.
    destruct (slen s) as [n|]; [|by eapply copy_string_fits]. unfold copy_mem in E. destruct (_ <? _)%nat; [done|]. injection E as <-.
    destruct r as [m|]; [|done]. cbn. rewrite length_take. lia. }
  destruct (c =? 102).
  { destruct args as [|[| | |f] ?]; try done. intros H. apply obind_Ok_inv in H as (s' & E & H). injection H as <- _. by eapply print_double_fits. }
  destruct (c =? 99); [destruct args as [|[| | |] ?]; try done; intros H; by injection H as <- _|].
  destruct (c =? 90); [intros H; by injection H as <- _|]. destruct (c =? 78); [intros H; by injection H as <- _|].
  destruct (c =? 37); [intros H; by injection H as <- _|].
  destruct (integer c s 0); [|intros H; by injection H as <- _]. destruct args as [|[z| | |] ?]; try done.
  destruct (integer c s z) as [[n s']|]; intros H; [|by injection H as <- _]. apply obind_Ok_inv in H as (s2 & E & H). injection H as <- _.
  by eapply print_signed_fits.
Qed.

Lemma loop_fits f : forall r fmt args w, vslprintf_loop f r fmt args = Ok w -> fits r w.
Proof.
  induction f as [|f IH]; intros r fmt args w H; [done|]. cbn [vslprintf_loop] in H.
  destruct fmt as [|c fmt]; [injection H as <-; destruct r; cbn; [lia|done]|].
  destruct (full r) eqn:Hr; [injection H as <-; destruct r; cbn; [lia|done]|]. destruct (c =? 37).
  - apply obind_Ok_inv in H as ([[text fmt'] args'] & E & H). apply obind_Ok_inv in H as (rest & Er & H). injection H as <-.
    apply fits_app; [|by eapply IH]. unfold directive in E. destruct (number 0 fmt) as [n fm]. apply obind_Ok_inv in E as ([[s fm2] a2] & _ & E).
    apply obind_Ok_inv in E as ([t a3] & Ec & E). destruct fm2; [done|]. injection E as <- _ _. by eapply convert_fits.
  - apply obind_Ok_inv in H as (rest & Er & H). injection H as <-. apply (fits_app r [c]); [|by eapply IH].
    destruct r as [[|n]|]; cbn; [done|lia|done].
Qed.

(** ** Printing into less room *)

Lemma take_app_less n (a b : bytes) : take n (a ++ b) = take n a ++ take (n - length (take n a)) b.
Proof. rewrite take_app, length_take. f_equal. destruct (Nat.le_ge_cases n (length a)); [rewrite !(proj2 (Nat.sub_0_le _ _)) by lia; done|by rewrite Nat.min_r]. Qed.

(** [m] with room for [n] bytes writes the beginning of what it writes without a limit. *)
Definition cuts (n : nat) (m m' : out bytes) : Prop := forall w, m = Ok w -> m' = Ok (take n w).

Lemma num_loop_length base digit k : forall v p s, num_loop base digit k v p = Ok s -> (length s <= k + length p)%nat.
Proof.
  induction k as [|k IH]; intros v p s H; [done|]. cbn [num_loop] in H. destruct (_ =? 0); [injection H as <-; cbn; lia|].
  apply IH in H. cbn in H. lia.
Qed.
Lemma hex_num_loop_length table k : forall v p s, hex_num_loop table k v p = Ok s -> (length s <= k + length p)%nat.
Proof.
  induction k as [|k IH]; intros v p s H; [done|]. cbn [hex_num_loop] in H. destruct (_ =? 0); [injection H as <-; cbn; lia|].
  apply IH in H. cbn in H. lia.
Qed.

Lemma print_num_cuts n v z h w : cuts n (print_num None v z h w) (print_num (Some n) v z h w).
Proof.
  intros s. unfold print_num, ngx_sprintf_num. intros H. apply obind_Ok_inv in H as (p & E & H). rewrite E, obind_Ok. injection H as <-. f_equal.
  assert (Hp : (length p <= NGX_INT64_LEN)%nat).
  { destruct (h =? 0); [apply num_loop_length in E|destruct (h =? 1); apply hex_num_loop_length in E]; cbn [length] in E; lia. }
  rewrite !padded. rewrite (take_ge _ (Z.to_nat w + NGX_INT64_LEN)); [done|]. rewrite length_app, length_replicate. lia.
Qed.

Lemma print_signed_cuts n v s : (0 < n)%nat -> cuts n (print_signed None v s) (print_signed (Some n) v s).
Proof.
  intros Hn w. unfold print_signed. destruct (v <? 0); [|apply print_num_cuts]. intros H. apply obind_Ok_inv in H as (p & E & H). injection H as <-.
  cbn [less] in *. rewrite (print_num_cuts (n - 1) _ _ _ _ _ E), obind_Ok. by destruct n as [|n]; [lia|rewrite Nat.sub_succ, Nat.sub_0_r].
Qed.

Lemma copy_string_cuts p : forall n, cuts n (copy_string None p) (copy_string (Some n) p).
Proof.
  induction p as [|c p IH]; intros n w H; [done|]. cbn [copy_string less] in *. destruct (c =? 0); [injection H as <-; by rewrite take_nil|].
  apply obind_Ok_inv in H as (s & E & H). injection H as <-. destruct n as [|n]; [done|]. by rewrite Nat.sub_succ, Nat.sub_0_r, (IH n _ E).
Qed.

Lemma print_double_cuts n f s : (0 < n)%nat -> cuts n (print_double None f s) (print_double (Some n) f s).
Proof.
  intros Hn w. unfold print_double. set (pre := if SpecFloat.SFltb _ _ then [45] else []).
  assert (Hpre : take n pre = pre) by (apply take_ge; unfold pre; destruct (SpecFloat.SFltb _ _); cbn; lia). clearbody pre.
  cbn [less cut]. intros H. apply obind_Ok_inv in H as (i & Ei & H). rewrite Ei, obind_Ok. apply obind_Ok_inv in H as ([ui frac] & Ef & H). rewrite Ef, obind_Ok.
  apply obind_Ok_inv in H as (whole & Ew & H). rewrite (print_num_cuts (n - length pre) _ _ _ _ _ Ew), obind_Ok.
  destruct (frac_width s =? 0); [injection H as <-; by rewrite take_app_less, Hpre|]. apply obind_Ok_inv in H as (ds & Ed & H). injection H as <-.
  rewrite (print_num_cuts _ _ _ _ _ _ Ed), obind_Ok.
  change (46 :: ds) with ([46] ++ ds). by rewrite (take_app_less n pre), Hpre, (take_app_less _ whole), (take_app_less _ [46]).
Qed.

Lemma convert_cuts n c s args w args' : (0 < n)%nat -> convert None c s args = Ok (w, args') -> convert (Some n) c s args = Ok (take n w, args').
Proof.
  intros Hn. assert (H1 : forall x : Z, take n [x] = [x]) by (intros x; apply take_ge; cbn; lia).
  unfold convert. destruct (_ || _).
  { destruct args as [|[| | |] ?]; try done. intros H. by injection H as <- <-. }
  destruct (c =? 115).
  { destruct args as [|[| |p|] ?]; try done. intros H. apply obind_Ok_inv in H as (s' & E & H). injection H as <- <-.
    destruct (slen s) as [k|]; [|by rewrite (copy_string_cuts p n _ E)]. unfold copy_mem in *. destruct (Nat.ltb_spec (length p) (Z.to_nat k)); [done|]. injection E as <-.
    rewrite (proj2 (Nat.ltb_ge _ _)) by lia. by rewrite take_take. }
  destruct (c =? 102).
  { destruct args as [|[| | |f] ?]; try done. intros H. apply obind_Ok_inv in H as (s' & E & H). injection H as <- <-. by rewrite (print_double_cuts n f s Hn _ E). }
  destruct (c =? 99); [destruct args as [|[| | |] ?]; try done; intros H; injection H as <- <-; by rewrite H1|].
  destruct (c =? 90); [intros H; injection H as <- <-; by rewrite H1|]. destruct (c =? 78); [intros H; injection H as <- <-; by rewrite H1|].
  destruct (c =? 37); [intros H; injection H as <- <-; by rewrite H1|].
  destruct (integer c s 0); [|intros H; injection H as <- <-; by rewrite H1]. destruct args as [|[z| | |] ?]; try done.
  destruct (integer c s z) as [[m s']|]; intros H; [|injection H as <- <-; by rewrite H1]. apply obind_Ok_inv in H as (s2 & E & H). injection H as <- <-.
  by rewrite (print_signed_cuts n m s' Hn _ E).
Qed.

Lemma directive_cuts n fmt args w fmt' args' : (0 < n)%nat -> directive None fmt args = Ok (w, fmt', args') -> directive (Some n) fmt args = Ok (take n w, fmt', args').
Proof.
  intros Hn H. unfold directive in *. destruct (number 0 fmt) as [k fm]. apply obind_Ok_inv in H as ([[s fm2] a2] & Ef & H). rewrite Ef, obind_Ok.
  apply obind_Ok_inv in H as ([t a3] & Ec & H). rewrite (convert_cuts n _ _ _ _ _ Hn Ec), obind_Ok. destruct fm2; [done|]. by injection H as <- <- <-.
Qed.

Lemma loop_cuts f : forall n fmt args, cuts n (vslprintf_loop f None fmt args) (vslprintf_loop f (Some n) fmt args).
Proof.
  induction f as [|f IH]; intros n fmt args w H; [done|]. cbn [vslprintf_loop] in *. destruct fmt as [|c fmt]; [injection H as <-; by rewrite take_nil|].
  destruct n as [|n]; [done|]. cbn [full] in *. destruct (c =? 37).
  - apply obind_Ok_inv in H as ([[text fmt'] args'] & E & H). apply obind_Ok_inv in H as (rest & Er & H). injection H as <-.
    rewrite (directive_cuts (S n) _ _ _ _ _ ltac:(lia) E), obind_Ok. cbn [less] in *. rewrite (IH _ _ _ _ Er), obind_Ok. by rewrite take_app_less.
  - apply obind_Ok_inv in H as (rest & Er & H). injection H as <-. cbn [less] in *. rewrite (IH (S n - 1)%nat _ _ _ Er), obind_Ok. by rewrite Nat.sub_succ, Nat.sub_0_r.
Qed.

(** ** Printing ends *)

Lemma obind_ends {A B} (m : out A) (f : A -> out B) : m <> NoFuel -> (forall a, m = Ok a -> f a <> NoFuel) -> obind m f <> NoFuel.
Proof. destruct m; cbn; auto. Qed.

Lemma print_num_ends r v z h w : print_num r v z h w <> NoFuel.
Proof.
  assert (H1 : forall base digit k v p, num_loop base digit k v p <> NoFuel) by (intros base digit k; induction k as [|k IH]; intros u p; cbn [num_loop]; [done|by destruct (_ =? 0)]).
  assert (H2 : forall table k v p, hex_num_loop table k v p <> NoFuel) by (intros table k; induction k as [|k IH]; intros u p; cbn [hex_num_loop]; [done|by destruct (_ =? 0)]).
  unfold print_num, ngx_sprintf_num. apply obind_ends; [|done]. destruct (h =? 0); [done|]. by destruct (h =? 1).
Qed.

Lemma copy_string_ends p : forall r, copy_string r p <> NoFuel.
Proof. induction p as [|c p IH]; intros r; cbn; [done|]. destruct (c =? 0), r as [[|n]|]; try done; (apply obind_ends; [apply IH|done]). Qed.

Lemma to_range_ends lo hi d : to_range lo hi d <> NoFuel.
Proof. destruct d as [| | |s m e]; try done. cbn. by destruct (_ && _). Qed.

Lemma convert_ends r c s args : convert r c s args <> NoFuel.
Proof.
  unfold convert. destruct (_ || _); [by destruct args as [|[| | |] ?]|].
  destruct (c =? 115).
  { destruct args as [|[| | |] ?]; try done. apply obind_ends; [|done]. destruct (slen s); [|apply copy_string_ends]. unfold copy_mem. by destruct (_ <? _)%nat. }
  destruct (c =? 102).
  { destruct args as [|[| | |] ?]; try done. apply obind_ends; [|done]. unfold print_double. cbv zeta. apply obind_ends; [apply to_range_ends|]. intros i _.
    apply obind_ends; [|intros [ui frac] _; apply obind_ends; [apply print_num_ends|intros whole _]].
    - destruct (frac_width s =? 0); [done|]. apply obind_ends; [apply to_range_ends|done].
    - destruct (frac_width s =? 0); [done|]. apply obind_ends; [apply print_num_ends|done]. }
  destruct (c =? 99); [by destruct args as [|[| | |] ?]|]. destruct (c =? 90); [done|]. destruct (c =? 78); [done|]. destruct (c =? 37); [done|].
  destruct (integer c s 0); [|done]. destruct args as [|[| | |] ?]; try done. destruct (integer c s z) as [[m s']|]; [|done].
  apply obind_ends; [|done]. unfold print_signed. destruct (m <? 0); [apply obind_ends; [|done]|]; apply print_num_ends.
Qed.

Lemma number_shorter n fmt : (length (snd (number n fmt)) <= length fmt)%nat.
Proof. revert n. induction fmt as [|c fmt IH]; intros n; [done|]. cbn. destruct (is_digit c); [|done]. etrans; [apply IH|lia]. Qed.

Lemma read_flags_spec fmt : forall s args, read_flags s fmt args <> NoFuel /\
  forall s' fmt' args', read_flags s fmt args = Ok (s', fmt', args') -> (length fmt' <= length fmt)%nat.
Proof.
  assert (Hle : forall (m : out (flags * bytes * list arg)) k, (m <> NoFuel /\ forall s' fmt' args', m = Ok (s', fmt', args') -> (length fmt' <= k)%nat) ->
    m <> NoFuel /\ forall s' fmt' args', m = Ok (s', fmt', args') -> (length fmt' <= S k)%nat).
  { intros m k [H1 H2]. split; [done|]. intros s' fmt' args' E. specialize (H2 _ _ _ E). lia. }
  induction fmt as [|c fmt IH]; intros s args; cbn [read_flags length]; [split; [done|]; intros s' fmt' args' H; by injection H as _ <- _|].
  destruct (c =? 117); [apply Hle, IH|]. destruct (c =? 109); [apply Hle, IH|]. destruct (c =? 88); [apply Hle, IH|]. destruct (c =? 120); [apply Hle, IH|].
  destruct (c =? 46).
  { apply Hle. pose proof (number_shorter (frac_width s) fmt) as Hn. destruct (number (frac_width s) fmt) as [n fm]. split; [done|]. intros s' fmt' args' H. by injection H as _ <- _. }
  destruct (c =? 42); [|split; [done|]; intros s' fmt' args' H; by injection H as _ <- _].
  destruct args as [|[| | |] ?]; [by split|apply Hle, IH|by split..].
Qed.

Lemma directive_spec r fmt args : directive r fmt args <> NoFuel /\ forall w fmt' args', directive r fmt args = Ok (w, fmt', args') -> (length fmt' < length fmt)%nat.
Proof.
  unfold directive. pose proof (number_shorter 0 fmt) as Hn. destruct (number 0 fmt) as [n fm]. cbn [snd] in Hn.
  destruct (read_flags_spec fm (mk_flags (if peek fmt =? 48 then 48 else 32) n true 0 false 0 None) args) as [Hf Hl]. split.
  - apply obind_ends; [done|]. intros [[s fm2] a2] _. apply obind_ends; [apply convert_ends|]. intros [t a3] _. by destruct fm2.
  - intros w fmt' args' H. apply obind_Ok_inv in H as ([[s fm2] a2] & E & H). specialize (Hl _ _ _ E).
    apply obind_Ok_inv in H as ([t a3] & _ & H). destruct fm2 as [|x fm2]; [done|]. injection H as _ <- _. cbn in Hl. lia.
Qed.

Lemma loop_ends f : forall r fmt args, (length fmt < f)%nat -> vslprintf_loop f r fmt args <> NoFuel.
Proof.
  induction f as [|f IH]; intros r fmt args Hf; [lia|]. cbn [vslprintf_loop]. destruct fmt as [|c fmt]; [done|]. destruct (full r); [done|]. cbn in Hf.
  destruct (c =? 37); [|apply obind_ends; [apply IH; lia|done]]. destruct (directive_spec r fmt args) as [Hd Hl].
  apply obind_ends; [done|]. intros [[t fm] a] E. specialize (Hl _ _ _ E). apply obind_ends; [apply IH; lia|done].
Qed.

(** Printing ends and stays in the buffer.  Whatever the format, the arguments
    and the room, [ngx_snprintf] and [ngx_slprintf] come to an end, write no more
    bytes than there is room for, and write the beginning of the text that
    [ngx_sprintf] writes. *)
Theorem printf_in_room n fmt args :
  ngx_snprintf n fmt args <> NoFuel /\ (forall w, ngx_snprintf n fmt args = Ok w -> (length w <= n)%nat) /\
  (forall w, ngx_sprintf fmt args = Ok w -> ngx_snprintf n fmt args = Ok (take n w)) /\ ngx_slprintf n fmt args = ngx_snprintf n fmt args.
Proof.
  split; [apply loop_ends; lia|]. split; [intros w; apply (loop_fits _ (Some n))|]. split; [intros w; apply loop_cuts|done].
Qed.

Example printf_ex : ngx_sprintf (bs "%V: %O-%O/%*s%%%04xz%5.2f") [AStr (bs "a"); ANum (-1); ANum 7; ANum 2; AMem (bs "xyz"); ANum 255; ADouble (SpecFloat.S754_finite true 5 (-1))] = Ok (bs "a: -1-7/xy%00ff-    2.50").
Proof. vm_compute. reflexivity. Qed.

(** ** Formats, directive by directive *)

Lemma loop_fuel f : forall f' r fmt args, (length fmt < f)%nat -> (length fmt < f')%nat -> vslprintf_loop f r fmt args = vslprintf_loop f' r fmt args.
Proof.
  induction f as [|f IH]; intros [|f'] r fmt args Hf Hf'; try lia. cbn [vslprintf_loop]. destruct fmt as [|c fmt]; [done|]. destruct (full r); [done|].
  cbn [length] in *. destruct (c =? 37); [|by rewrite (IH f') by lia]. destruct (directive_spec r fmt args) as [_ Hl].
  destruct (directive r fmt args) as [[[t fm] a]| |]; cbn [obind]; try done. specialize (Hl _ _ _ eq_refl). by rewrite (IH f') by lia.
Qed.

Lemma sprintf_nil args : ngx_sprintf [] args = Ok [].
Proof. reflexivity. Qed.
Lemma loop_char f c fmt args : (c =? 37) = false -> vslprintf_loop (S f) None (c :: fmt) args = let! w := vslprintf_loop f None fmt args in Ok (c :: w).
Proof. intros Hc. cbn [vslprintf_loop full less]. by rewrite Hc. Qed.
Lemma sprintf_text t fmt args : forallb (fun c => negb (c =? 37)) t = true -> ngx_sprintf (t ++ fmt) args = let! w := ngx_sprintf fmt args in Ok (t ++ w).
Proof.
  unfold ngx_sprintf, ngx_vslprintf. induction t as [|c t IH]; intros H; [cbn [app]; by destruct (vslprintf_loop _ _ fmt args)|].
  cbn [forallb] in H. apply andb_true_iff in H as [Hc H]. apply negb_true_iff in Hc. cbn [app length]. rewrite (loop_char _ _ _ _ Hc), (IH H).
  by destruct (vslprintf_loop _ _ fmt args).
Qed.

(** A directive, by what it does. *)
Lemma loop_directive f fmt args t fmt' args' : directive None fmt args = Ok (t, fmt', args') ->
  vslprintf_loop (S f) None (37 :: fmt) args = let! w := vslprintf_loop f None fmt' args' in Ok (t ++ w).
Proof. intros H. cbn [vslprintf_loop full less]. change (37 =? 37) with true. cbn match. by rewrite H, obind_Ok. Qed.
Lemma sprintf_directive fmt args t fmt' args' : directive None fmt args = Ok (t, fmt', args') ->
  ngx_sprintf (37 :: fmt) args = let! w := ngx_sprintf fmt' args' in Ok (t ++ w).
Proof.
  intros H. unfold ngx_sprintf, ngx_vslprintf. rewrite (loop_directive _ _ _ _ _ _ H).
  destruct (directive_spec None fmt args) as [_ Hl]. specialize (Hl _ _ _ H). cbn [length]. by rewrite (loop_fuel (S (length fmt)) (S (length fmt'))) by lia.
Qed.

Lemma print_num_padded z zero w : 0 <= z < 2 ^ 64 -> print_num None z zero 0 (Z.of_nat w) = Ok (replicate (w - length (Prelude.digits z)) zero ++ Prelude.digits z).
Proof.
  intros Hz. unfold print_num, ngx_sprintf_num. rewrite Nat2Z.id. cbn [Z.eqb].
  rewrite num_loop_digits by (unfold NGX_INT64_LEN; lia). rewrite app_nil_r, obind_Ok, padded. f_equal. apply take_ge.
  pose proof (digits_length z 19 ltac:(lia)). rewrite length_app, length_replicate. unfold NGX_INT64_LEN. lia.
Qed.

Lemma sprintf_O fmt z args : 0 <= z < 2 ^ 63 -> ngx_sprintf (37 :: 79 :: fmt) (ANum z :: args) = let! w := ngx_sprintf fmt args in Ok (Prelude.digits z ++ w).
Proof.
  intros Hz. apply sprintf_directive. unfold directive. cbn [peek number is_digit read_flags]. change (79 =? 48) with false. change ((48 <=? 79) && (79 <=? 57)) with false. cbn match.
  cbn. unfold print_signed. cbn [zero hexadecimal width]. rewrite i64_small by (unfold INT64_MAX; lia). destruct (Z.ltb_spec z 0); [lia|].
  pose proof (print_num_padded z 32 0 ltac:(lia)) as E. change (Z.of_nat 0) with 0 in E. cbn in E |- *. by rewrite E.
Qed.
Lemma sprintf_0muA fmt z args : 0 <= z < 2 ^ 64 ->
  ngx_sprintf (37 :: 48 :: 109 :: 117 :: 65 :: fmt) (ANum z :: args) = let! w := ngx_sprintf fmt args in Ok (zpad NGX_ATOMIC_T_LEN (Prelude.digits z) ++ w).
Proof.
  intros Hz. apply sprintf_directive. unfold directive. cbn. rewrite uwrap_small by lia. unfold print_signed. cbn [zero hexadecimal width].
  destruct (Z.ltb_spec z 0); [lia|]. match goal with |- context [print_num None z ?a ?b ?c] => change (print_num None z a b c) with (print_num None z 48 0 (Z.of_nat 20)) end.
  by rewrite print_num_padded by lia.
Qed.
Lemma sprintf_V fmt v args : ngx_sprintf (37 :: 86 :: fmt) (AStr v :: args) = let! w := ngx_sprintf fmt args in Ok (v ++ w).
Proof. by apply sprintf_directive. Qed.
Lemma sprintf_d fmt z args : 0 <= z < 2 ^ 31 -> ngx_sprintf (37 :: 100 :: fmt) (ANum z :: args) = let! w := ngx_sprintf fmt args in Ok (Prelude.digits z ++ w).
Proof.
  intros Hz. apply sprintf_directive. unfold directive. cbn. rewrite swrap_small by (cbn; lia). unfold print_signed. cbn [zero hexadecimal width].
  destruct (Z.ltb_spec z 0); [lia|]. pose proof (print_num_padded z 32 0 ltac:(lia)) as E. change (Z.of_nat 0) with 0 in E. cbn in E |- *. by rewrite E.
Qed.
Lemma sprintf_ud fmt z args : 0 <= z < 2 ^ 32 -> ngx_sprintf (37 :: 117 :: 100 :: fmt) (ANum z :: args) = let! w := ngx_sprintf fmt args in Ok (Prelude.digits z ++ w).
Proof.
  intros Hz. apply sprintf_directive. unfold directive. cbn. rewrite uwrap_small by lia. unfold print_signed. cbn [zero hexadecimal width].
  destruct (Z.ltb_spec z 0); [lia|]. pose proof (print_num_padded z 32 0 ltac:(lia)) as E. change (Z.of_nat 0) with 0 in E. cbn in E |- *. by rewrite E.
Qed.
Lemma sprintf_uxi fmt z args t : 0 <= z < 2 ^ 64 -> hex_num_loop hex NGX_INT64_LEN z [] = Ok t ->
  ngx_sprintf (37 :: 117 :: 120 :: 105 :: fmt) (ANum z :: args) = let! w := ngx_sprintf fmt args in Ok (t ++ w).
Proof.
  intros Hz Ht. apply sprintf_directive. unfold directive. cbn -[hex_num_loop]. rewrite uwrap_small by lia. unfold print_signed. cbn [zero hexadecimal width].
  destruct (Z.ltb_spec z 0); [lia|].
  assert (E : print_num None z 32 1 0 = Ok t).
  { unfold print_num, ngx_sprintf_num. change (1 =? 0) with false. change (1 =? 1) with true. cbn match. rewrite Ht, obind_Ok. cbv zeta. rewrite padded. cbn [Nat.sub replicate app]. f_equal. apply take_ge.
    apply hex_num_loop_length in Ht. cbn [length] in Ht. unfold NGX_INT64_LEN in *. cbn. lia. }
  cbn -[print_num] in E |- *. by rewrite E.
Qed.
Lemma sprintf_const fmt : forallb (fun c => negb (c =? 37)) fmt = true -> ngx_sprintf fmt [] = Ok fmt.
Proof. intros H. pose proof (sprintf_text fmt [] [] H) as E. by rewrite app_nil_r, sprintf_nil, obind_Ok, app_nil_r in E. Qed.
