(* ===== verification/NgxBuf.v ===== *)
(** * Buffers and chains: nginx/src/core/ngx_buf.c and .h

    Buffers and the links of chains are objects at addresses, since the same
    buffer is reached through several chains and the functions relink the chains
    in place.  0 is NULL. *)
From S2P Require Import Prelude NgxString.
From S2P Require Export NgxPalloc.
#[local] Open Scope Z_scope.

Module Buf.

(** [ngx_buf_t] without the fields that no function here reads or writes. *)
Record ngx_buf := mk_buf { pos : Z; last : Z; file_pos : Z; file_last : Z; start : Z; end_ : Z; tag : Z; file : Z;
  temporary : bool; memory : bool; mmap : bool; in_file : bool; flush : bool; sync : bool; last_buf : bool }.
#[export] Instance buf_settable : Settable ngx_buf := fun b =>
  mk_buf (pos b) (last b) (file_pos b) (file_last b) (start b) (end_ b) (tag b) (file b)
    (temporary b) (memory b) (mmap b) (in_file b) (flush b) (sync b) (last_buf b).

(** What [ngx_calloc_buf] fills. *)
Definition zero_buf : ngx_buf := mk_buf 0 0 0 0 0 0 0 0 false false false false false false false.

Definition ngx_buf_in_memory (b : ngx_buf) : bool := temporary b || memory b || mmap b.
Definition ngx_buf_special (b : ngx_buf) : bool := (flush b || last_buf b || sync b) && negb (ngx_buf_in_memory b) && negb (in_file b).
Definition ngx_buf_sync_only (b : ngx_buf) : bool := sync b && negb (ngx_buf_in_memory b) && negb (in_file b) && negb (flush b) && negb (last_buf b).
Definition ngx_buf_size (b : ngx_buf) : Z := if ngx_buf_in_memory b then last b - pos b else i64 (file_last b - file_pos b).

Definition sizeof_buf : Z := 80.
Definition sizeof_chain : Z := 16.

Section Chains.
Context {Osm : OSMem}.

(** [links]: the buffer and the next link of each [ngx_chain_t]; [free_links]:
    [pool->chain]. *)
Record heap := mk_heap { bufs : gmap Z ngx_buf; links : gmap Z (Z * Z); free_links : Z; h_pool : pool; h_mem : os }.
#[export] Instance heap_settable : Settable heap := fun h => mk_heap (bufs h) (links h) (free_links h) (h_pool h) (h_mem h).
Implicit Types (h : heap).

Definition buf_at h (p : Z) : out ngx_buf :=
  if p =? 0 then Undef NullDeref else match bufs h !! p with Some b => Ok b | None => Undef BadPointer end.
Definition link_at h (p : Z) : out (Z * Z) :=
  if p =? 0 then Undef NullDeref else match links h !! p with Some l => Ok l | None => Undef BadPointer end.
Definition set_buf (p : Z) (b : ngx_buf) h : heap := h <| bufs := <[p := b]> (bufs h) |>.
Definition set_link (p b n : Z) h : heap := h <| links := <[p := (b, n)]> (links h) |>.
(** [cl->next = n] *)
Definition set_next (p n : Z) h : out heap := let! (b, _) := link_at h p in Ok (set_link p b n h).

Definition palloc (size : Z) h : out (option Z * heap) :=
  let! (p, pl, o) := ngx_palloc (h_pool h) size (h_mem h) in Ok (p, h <| h_pool := pl |> <| h_mem := o |>).

Definition ngx_calloc_buf h : out (Z * heap) :=
  let! (p, h) := palloc sizeof_buf h in
  match p with None => Ok (0, h) | Some p => Ok (p, set_buf p zero_buf h) end.

Definition ngx_create_temp_buf (size : Z) h : out (Z * heap) :=
  let! (b, h) := ngx_calloc_buf h in
  if b =? 0 then Ok (0, h)
  else
    let! (p, h) := palloc size h in
    match p with
    | None => Ok (0, h)
    | Some p => Ok (b, set_buf b (zero_buf <| start := p |> <| pos := p |> <| last := p |> <| end_ := p + size |> <| temporary := true |>) h)
    end.

(** The fields of a new link are what the memory holds: any buffer and link. *)
Definition ngx_alloc_chain_link h : out (Z * heap) :=
  if negb (free_links h =? 0) then
    let! (_, n) := link_at h (free_links h) in Ok (free_links h, h <| free_links := n |>)
  else
    let! (p, h) := palloc sizeof_chain h in
    match p with None => Ok (0, h) | Some p => Ok (p, set_link p 0 0 h) end.

(** [ngx_free_chain(pool, cl)] *)
Definition ngx_free_chain (cl : Z) h : out heap := let! h := set_next cl (free_links h) h in Ok (h <| free_links := cl |>).

(** The place [*ll]: a variable or the [next] of a link. *)
Inductive place := Var | Next (p : Z).
(** [*ll = v]: the heap and the variable. *)
Definition store (ll : place) (v : Z) (var : Z) h : out (Z * heap) :=
  match ll with Var => Ok (v, h) | Next p => let! h := set_next p v h in Ok (var, h) end.

Fixpoint bufs_loop (n : nat) (size p : Z) (chain : Z) (ll : place) h : out (Z * heap) :=
  match n with
  | O => store ll 0 chain h
  | S n' =>
      let! (b, h) := ngx_calloc_buf h in
      if b =? 0 then Ok (0, h)
      else
        let h := set_buf b (zero_buf <| pos := p |> <| last := p |> <| temporary := true |> <| start := p |> <| end_ := p + size |>) h in
        let! (cl, h) := ngx_alloc_chain_link h in
        if cl =? 0 then Ok (0, h)
        else
          let! (_, nx) := link_at h cl in
          let! (chain, h) := store ll cl chain (set_link cl b nx h) in
          bufs_loop n' size (p + size) chain (Next cl) h
  end.

Definition ngx_create_chain_of_bufs (num : nat) (size : Z) h : out (Z * heap) :=
  let! (p, h) := palloc (Z.of_nat num * size) h in
  match p with None => Ok (0, h) | Some p => bufs_loop num size p 0 Var h end.

(** The last link of a chain. *)
Fixpoint last_place (fuel : nat) (cl : Z) (ll : place) h : out place :=
  match fuel with
  | O => NoFuel
  | S f => if cl =? 0 then Ok ll else let! (_, n) := link_at h cl in last_place f n (Next cl) h
  end.

Fixpoint copy_loop (fuel : nat) (inp : Z) (chain : Z) (ll : place) h : out (Z * Z * heap) :=
  match fuel with
  | O => NoFuel
  | S f =>
      if inp =? 0 then let! (chain, h) := store ll 0 chain h in Ok (NGX_OK, chain, h)
      else
        let! (cl, h) := ngx_alloc_chain_link h in
        if cl =? 0 then Ok (NGX_ERROR, chain, h)
        else
          let! (b, _) := link_at h inp in
          let! (_, nx) := link_at h cl in
          let! (chain, h) := store ll cl chain (set_link cl b nx h) in
          let! (_, nin) := link_at h inp in
          copy_loop f nin chain (Next cl) h
  end.

(** The code and the chain; [fuel] bounds the lengths of both chains. *)
Definition ngx_chain_add_copy (fuel : nat) (chain inp : Z) h : out (Z * Z * heap) :=
  let! ll := last_place fuel chain Var h in copy_loop fuel inp chain ll h.

(** The link and the list of free ones. *)
Definition ngx_chain_get_free_buf (free : Z) h : out (Z * Z * heap) :=
  if negb (free =? 0) then
    let! (_, n) := link_at h free in
    let! h := set_next free 0 h in Ok (free, n, h)
  else
    let! (cl, h) := ngx_alloc_chain_link h in
    if cl =? 0 then Ok (0, free, h)
    else
      let! (b, h) := ngx_calloc_buf h in
      if b =? 0 then Ok (0, free, h) else Ok (cl, free, set_link cl b 0 h).

(** The loop that takes the buffers that are sent from the busy chain. *)
Fixpoint sent_loop (fuel : nat) (free busy t : Z) h : out (Z * Z * heap) :=
  match fuel with
  | O => NoFuel
  | S f =>
      if busy =? 0 then Ok (free, busy, h)
      else
        let! (b, nx) := link_at h busy in
        let! bf := buf_at h b in
        if negb (ngx_buf_size bf =? 0) then Ok (free, busy, h)
        else if negb (tag bf =? t) then
          let! h := ngx_free_chain busy h in sent_loop f free nx t h
        else
          let h := set_buf b (bf <| pos := start bf |> <| last := start bf |>) h in
          let! h := set_next busy free h in sent_loop f busy nx t h
  end.

(** The chains [free] and [busy]; [out] is empty afterwards. *)
Definition ngx_chain_update_chains (fuel : nat) (free busy out_ t : Z) h : out (Z * Z * heap) :=
  let! (busy, h) := (if busy =? 0 then Ok (out_, h)
                     else
                       let! ll := last_place fuel busy Var h in
                       match ll with Next p => let! h := set_next p out_ h in Ok (busy, h) | Var => Ok (busy, h) end) in
  sent_loop fuel free busy t h.
End Chains.
End Buf.
