(* ===== verification/NgxRange.v ===== *)
(** * Byte ranges: nginx/src/http/modules/ngx_http_range_filter_module.c

    The header filter parses the Range header and announces the parts, the body
    filter cuts the buffers of the response to them.  Integers of type [off_t] are
    64 bits wide and wrap around, as they do in the machine code. *)
From S2P Require Import Prelude NgxString NgxTime NgxStrUtil.
From S2P Require Export NgxArray NgxPrintf NgxBuf.
From S2P Require Import NgxHeaders.
#[local] Open Scope Z_scope.

Module Range.
Import Printf Buf.

Definition NGX_HTTP_OK : Z := 200.
Definition NGX_HTTP_PARTIAL_CONTENT : Z := 206.
Definition NGX_HTTP_RANGE_NOT_SATISFIABLE : Z := 416.
Definition NGX_OFF_T_LEN : Z := 20.

(** [ngx_http_range_t] *)
Record range := mk_range { start : Z; end_ : Z; content_range : bytes }.
Definition sizeof_range : Z := 32.
Definition sizeof_ctx : Z := 64.

(** [ngx_http_range_filter_ctx_t] *)
Record ctx := mk_ctx { offset : Z; boundary_header : bytes; ranges : list range }.
#[export] Instance ctx_settable : Settable ctx := fun c => mk_ctx (offset c) (boundary_header c) (ranges c).

(** ** Parsing *)

(** The text is what [p] points to, with the NUL behind the value. *)
Fixpoint spaces (p : bytes) : out bytes :=
  match p with [] => Undef OutOfBounds | c :: p' => if c =? 32 then spaces p' else Ok p end.
Fixpoint digits (n : Z) (p : bytes) : out (Z * bytes) :=
  match p with
  | [] => Undef OutOfBounds
  | c :: p' => if is_digit c then digits (i64 (n * 10 + c - 48)) p' else Ok (n, p)
  end.
Definition at_ (p : bytes) : out Z := match p with [] => Undef OutOfBounds | c :: _ => Ok c end.

(** From the second number on: the range, or [None] for 416. *)
Definition range_end (content_length : Z) (suffix : bool) (start : Z) (p : bytes) : out (option (Z * Z * bytes)) :=
  let! c := at_ p in
  if negb (is_digit c) then Ok None
  else
    let! (end_, p) := digits 0 p in
    let! p := spaces p in
    let! c := at_ p in
    if negb (c =? 44) && negb (c =? 0) then Ok None
    else
      let '(start, end_) := if suffix : bool then (i64 (content_length - end_), i64 (content_length - 1)) else (start, end_) in
      Ok (Some (start, if content_length <=? end_ then content_length else i64 (end_ + 1), p)).

(** One round of the loop up to [found]. *)
Definition range_spec (content_length : Z) (p : bytes) : out (option (Z * Z * bytes)) :=
  let! p := spaces p in
  let! c := at_ p in
  if c =? 45 then range_end content_length true 0 (drop 1 p)
  else if negb (is_digit c) then Ok None
  else
    let! (start, p) := digits 0 p in
    let! p := spaces p in
    let! c := at_ p in
    if negb (c =? 45) then Ok None
    else
      let! p := spaces (drop 1 p) in
      let! c := at_ p in
      if (c =? 44) || (c =? 0) then Ok (Some (start, content_length, p)) else range_end content_length false start p.

Section Filter.
Context {Osm : OSMem}.
Implicit Types (a : ngx_array range) (pl : pool) (o : os).

Fixpoint parse_loop (fuel : nat) (content_length : Z) (p : bytes) (size n : Z) a pl o : out (Z * ngx_array range * pool * os) :=
  match fuel with
  | O => NoFuel
  | S f =>
      let! x := range_spec content_length p in
      match x with
      | None => Ok (NGX_HTTP_RANGE_NOT_SATISFIABLE, a, pl, o)
      | Some (start, end_, p) =>
          let! y := (if start <? end_ then
                       let! (a', pl, o) := ngx_array_push a (mk_range start end_ []) pl o in
                       match a' with
                       | None => Ok (Some NGX_ERROR, a, size, n, pl, o)
                       | Some a => Ok (if n =? 0 then Some NGX_DECLINED else None, a, i64 (size + (end_ - start)), u64 (n - 1), pl, o)
                       end
                     else Ok (None, a, size, n, pl, o)) in
          let '(rc, a, size, n, pl, o) := y in
          match rc with
          | Some rc => Ok (rc, a, pl, o)
          | None =>
              let! c := at_ p in
              if c =? 44 then parse_loop f content_length (drop 1 p) size n a pl o
              else if (length (items a) =? 0)%nat then Ok (NGX_HTTP_RANGE_NOT_SATISFIABLE, a, pl, o)
              else if content_length <? size then Ok (NGX_DECLINED, a, pl, o)
              else Ok (NGX_OK, a, pl, o)
          end
      end
  end.

(** [value] is that of the Range header; the code and [ctx->ranges]. *)
Definition ngx_http_range_parse (content_length : Z) (value : bytes) (max_ranges : Z) a pl o : out (Z * ngx_array range * pool * os) :=
  let p := drop 6 value ++ [0] in
  parse_loop (length p) content_length p 0 max_ranges a pl o.

(** ** The header filter *)

(** The fields of the request that the filter uses; [content_length],
    [accept_ranges] and [h_content_range] point to elements of [headers]. *)
Record hout := mk_hout { status : Z; status_line : bytes; headers : ngx_list Headers.table_elt; content_length : option nat;
  h_content_range : option nat; accept_ranges : option nat; etag : option bytes; last_modified_time : Z;
  content_type : bytes; content_type_len : Z; content_type_lowcase : option bytes; charset : bytes; content_length_n : Z }.
#[export] Instance hout_settable : Settable hout := fun h =>
  mk_hout (status h) (status_line h) (headers h) (content_length h) (h_content_range h) (accept_ranges h) (etag h) (last_modified_time h)
    (content_type h) (content_type_len h) (content_type_lowcase h) (charset h) (content_length_n h).
Record req := mk_req { http_version : Z; main : bool; allow_ranges : bool; in_range : option bytes; if_range : option bytes; max_ranges : Z;
  h_out : hout; r_ctx : option ctx; r_pool : pool; r_mem : os; temp_number : Z }.
#[export] Instance req_settable : Settable req := fun r =>
  mk_req (http_version r) (main r) (allow_ranges r) (in_range r) (if_range r) (max_ranges r) (h_out r) (r_ctx r) (r_pool r) (r_mem r) (temp_number r).
Implicit Types (r : req).

(** [ngx_next_temp_number(0)] *)
Definition ngx_next_temp_number r : Z * req := let n := u64 (temp_number r + 1) in (n, r <| temp_number := n |>).

(** The element that a pointer into the list points to. *)
Definition set_elt (l : ngx_list Headers.table_elt) (i : nat) (f : Headers.table_elt -> Headers.table_elt) : ngx_list Headers.table_elt :=
  let n := length (before l) in
  if (i <? n)%nat then mk_list (alter f i (before l)) (last_part l) (l_size l) (l_nalloc l)
  else mk_list (before l) (alter f (i - n)%nat (last_part l)) (l_size l) (l_nalloc l).

(** A new element with this key and [hash = 1], its value still to be set. *)
Definition push_header (k : bytes) r : out (option nat * req) :=
  let! (l, pl, o) := ngx_list_push (headers (h_out r)) (Headers.mk_elt 1 k [] []) (r_pool r) (r_mem r) in
  let i := length (list_items (headers (h_out r))) in
  match l with
  | None => Ok (None, r <| r_pool := pl |> <| r_mem := o |>)
  | Some l => Ok (Some i, r <| h_out := (h_out r) <| headers := l |> |> <| r_pool := pl |> <| r_mem := o |>)
  end.
Definition set_value (i : nat) (v : bytes) r : req :=
  r <| h_out := (h_out r) <| headers := set_elt (headers (h_out r)) i (fun e => Headers.mk_elt (Headers.e_hash e) (Headers.e_key e) v (Headers.lowcase_key e)) |> |>.

(** Memory for [len] bytes. *)
Definition room_for (len : Z) r : out (bool * req) :=
  let! (p, pl, o) := ngx_pnalloc (r_pool r) len (r_mem r) in Ok (match p with Some _ => true | None => false end, r <| r_pool := pl |> <| r_mem := o |>).
(** What is printed into memory of [len] bytes. *)
Definition print_into (len : Z) (fmt : bytes) (args : list arg) : out bytes :=
  let! w := ngx_sprintf fmt args in if len <? blen w then Undef OutOfBounds else Ok w.

(** [content_length->hash = 0; content_length = NULL] *)
Definition drop_content_length (h : hout) : hout :=
  match content_length h with
  | None => h
  | Some i => h <| headers := set_elt (headers h) i (fun e => Headers.mk_elt 0 (Headers.e_key e) (Headers.e_value e) (Headers.lowcase_key e)) |> <| content_length := None |>
  end.
Definition ngx_http_clear_content_length (h : hout) : hout := drop_content_length (h <| content_length_n := -1 |>).

(** The next filters: other modules. *)
Context (ngx_http_next_header_filter : req -> out (Z * req)).

Definition CRLF : bytes := [13; 10].

Definition ngx_http_range_singlepart_header (c : ctx) r : out (Z * req) :=
  let! (i, r) := push_header (bs "Content-Range") r in
  match i with
  | None => Ok (NGX_ERROR, r)
  | Some i =>
      let r := r <| h_out := (h_out r) <| h_content_range := Some i |> |> in
      let len := 8 + 3 * NGX_OFF_T_LEN in
      let! (ok, r) := room_for len r in
      if negb ok then Ok (NGX_ERROR, r)
      else
        match ranges c with
        | [] => Undef OutOfBounds
        | rg :: _ =>
            let! v := print_into len (bs "bytes %O-%O/%O") [ANum (start rg); ANum (i64 (end_ rg - 1)); ANum (content_length_n (h_out r))] in
            let r := set_value i v r in
            ngx_http_next_header_filter (r <| h_out := drop_content_length ((h_out r) <| content_length_n := i64 (end_ rg - start rg) |>) |>)
        end
  end.

(** The text in front of each part. *)
Definition part_header (len boundary : Z) (h : hout) : out bytes :=
  if negb (length (charset h) =? 0)%nat then
    print_into len (CRLF ++ bs "--%0muA" ++ CRLF ++ bs "Content-Type: %V; charset=%V" ++ CRLF ++ bs "Content-Range: bytes ") [ANum boundary; AStr (content_type h); AStr (charset h)]
  else if negb (length (content_type h) =? 0)%nat then
    print_into len (CRLF ++ bs "--%0muA" ++ CRLF ++ bs "Content-Type: %V" ++ CRLF ++ bs "Content-Range: bytes ") [ANum boundary; AStr (content_type h)]
  else print_into len (CRLF ++ bs "--%0muA" ++ CRLF ++ bs "Content-Range: bytes ") [ANum boundary].

(** The loop over the ranges: their texts and the length of the whole body;
    [None]: no memory. *)
Fixpoint parts_loop (l : list range) (header_len len : Z) r : out (option (list range * Z) * req) :=
  match l with
  | [] => Ok (Some ([], len), r)
  | rg :: l' =>
      let room := 3 * NGX_OFF_T_LEN + 2 + 4 in
      let! (ok, r) := room_for room r in
      if negb ok then Ok (None, r)
      else
        let! t := print_into room (bs "%O-%O/%O" ++ CRLF ++ CRLF) [ANum (start rg); ANum (i64 (end_ rg - 1)); ANum (content_length_n (h_out r))] in
        let! (x, r) := parts_loop l' header_len (u64 (len + header_len + blen t + u64 (end_ rg - start rg))) r in
        match x with
        | None => Ok (None, r)
        | Some (l', len) => Ok (Some (mk_range (start rg) (end_ rg) t :: l', len), r)
        end
  end.

Definition ngx_http_range_multipart_header (c : ctx) r : out (Z * req) :=
  let h := h_out r in
  let len := 4 + Z.of_nat NGX_ATOMIC_T_LEN + 16 + blen (content_type h) + 23 + (if (length (charset h) =? 0)%nat then 0 else 10 + blen (charset h)) in
  let! (ok, r) := room_for len r in
  if negb ok then Ok (NGX_ERROR, r)
  else
    let '(boundary, r) := ngx_next_temp_number r in
    let! bh := part_header len boundary (h_out r) in
    let c := c <| boundary_header := bh |> in
    let r := r <| h_out := (if (length (charset (h_out r)) =? 0)%nat then h_out r else (h_out r) <| charset := [] |>) |> in
    let len := 45 + Z.of_nat NGX_ATOMIC_T_LEN in
    let! (ok, r) := room_for len r in
    if negb ok then Ok (NGX_ERROR, r <| r_ctx := Some c |>)
    else
      let! ct := print_into len (bs "multipart/byteranges; boundary=%0muA") [ANum boundary] in
      let r := r <| h_out := (h_out r) <| content_type := ct |> <| content_type_lowcase := None |> <| content_type_len := blen ct |> |> in
      let! (x, r) := parts_loop (ranges c) (blen bh) (4 + Z.of_nat NGX_ATOMIC_T_LEN + 4) r in
      match x with
      | None => Ok (NGX_ERROR, r <| r_ctx := Some c |>)
      | Some (l, len) =>
          let r := r <| r_ctx := Some (c <| ranges := l |>) |> in
          ngx_http_next_header_filter (r <| h_out := drop_content_length ((h_out r) <| content_length_n := i64 len |>) |>)
      end.

Definition ngx_http_range_not_satisfiable r : out (Z * req) :=
  let r := r <| h_out := (h_out r) <| status := NGX_HTTP_RANGE_NOT_SATISFIABLE |> |> in
  let! (i, r) := push_header (bs "Content-Range") r in
  match i with
  | None => Ok (NGX_ERROR, r)
  | Some i =>
      let r := r <| h_out := (h_out r) <| h_content_range := Some i |> |> in
      let len := 8 + NGX_OFF_T_LEN in
      let! (ok, r) := room_for len r in
      if negb ok then Ok (NGX_ERROR, r)
      else
        let! v := print_into len (bs "bytes */%O") [ANum (content_length_n (h_out r))] in
        let r := set_value i v r in
        Ok (NGX_HTTP_RANGE_NOT_SATISFIABLE, r <| h_out := ngx_http_clear_content_length (h_out r) |>)
  end.

(** Whether the If-Range header lets the ranges pass. *)
Definition if_range_passes r : out bool :=
  match if_range r with
  | None => Ok true
  | Some v =>
      let! quote := (if (2 <=? length v)%nat then let! c := rd v (length v - 1) in Ok (c =? 34) else Ok false) in
      if quote : bool then
        match etag (h_out r) with
        | None => Ok false
        | Some e =>
            if negb (length v =? length e)%nat then Ok false
            else let! n := strncmp v 0 e 0 (length e) in Ok (n =? 0)
        end
      else if last_modified_time (h_out r) =? -1 then Ok false
      else
        let! t := Parse.ngx_http_parse_time v in
        Ok (match t with Some t => t | None => -1 end =? last_modified_time (h_out r))
  end.

(** [next_filter:] *)
Definition plain_response r : out (Z * req) :=
  let! (i, r) := push_header (bs "Accept-Ranges") r in
  match i with
  | None => Ok (NGX_ERROR, r)
  | Some i => ngx_http_next_header_filter (set_value i (bs "bytes") (r <| h_out := (h_out r) <| accept_ranges := Some i |> |>))
  end.

Definition ngx_http_range_header_filter r : out (Z * req) :=
  if (http_version r <? Headers.NGX_HTTP_VERSION_10) || negb (status (h_out r) =? NGX_HTTP_OK) || negb (main r) ||
     (content_length_n (h_out r) =? -1) || negb (allow_ranges r) then ngx_http_next_header_filter r
  else if max_ranges r =? 0 then ngx_http_next_header_filter r
  else
    match in_range r with
    | None => plain_response r
    | Some v =>
        let! bytes_eq := (if (length v <? 7)%nat then Ok false else let! n := ngx_strncasecmp v 0 (bs "bytes=") 0 6 in Ok (n =? 0)) in
        if negb bytes_eq then plain_response r
        else
          let! pass := if_range_passes r in
          if negb pass then plain_response r
          else
            let! (p, pl, o) := ngx_pcalloc (r_pool r) sizeof_ctx (r_mem r) in
            match p with
            | None => Ok (NGX_ERROR, r <| r_pool := pl |> <| r_mem := o |>)
            | Some p =>
                let! (a, pl, o) := ngx_array_init p pl 1 sizeof_range o in
                match a with
                | None => Ok (NGX_ERROR, r <| r_pool := pl |> <| r_mem := o |>)
                | Some a =>
                    let! y := ngx_http_range_parse (content_length_n (h_out r)) v (max_ranges r) a pl o in
                    let '(rc, a, pl, o) := y in
                    let r := r <| r_pool := pl |> <| r_mem := o |> in
                    if rc =? NGX_OK then
                      let c := mk_ctx 0 [] (items a) in
                      let r := r <| r_ctx := Some c |> <| h_out := (h_out r) <| status := NGX_HTTP_PARTIAL_CONTENT |> <| status_line := [] |> |> in
                      if (length (items a) =? 1)%nat then ngx_http_range_singlepart_header c r else ngx_http_range_multipart_header c r
                    else if rc =? NGX_HTTP_RANGE_NOT_SATISFIABLE then ngx_http_range_not_satisfiable r
                    else if rc =? NGX_ERROR then Ok (NGX_ERROR, r)
                    else plain_response r
                end
            end
    end.
End Filter.

(** ** The body filter *)

Section Body.
Context {Osm : OSMem}.
Implicit Types (h : heap).

(** The buffer behind the start of the range, and in front of its end. *)
Definition skip_front (n : Z) (b : ngx_buf) : ngx_buf :=
  let b := if in_file b then b <| file_pos := i64 (file_pos b + n) |> else b in
  if ngx_buf_in_memory b then b <| pos := pos b + n |> else b.
Definition skip_back (n : Z) (b : ngx_buf) : ngx_buf :=
  let b := if in_file b then b <| file_last := i64 (file_last b - n) |> else b in
  if ngx_buf_in_memory b then b <| last := last b - n |> else b.
Definition skip_all (b : ngx_buf) : ngx_buf :=
  let b := if in_file b then b <| file_pos := file_last b |> else b in
  b <| pos := last b |> <| sync := true |>.

(** The loop over the chain: the offset, [out] and the heap. *)
Fixpoint singlepart_loop (fuel : nat) (rg : range) (offset cl out_ : Z) (ll : place) h : out (Z * Z * heap) :=
  match fuel with
  | O => NoFuel
  | S f =>
      if cl =? 0 then Ok (offset, out_, h)
      else
        let! (p, next) := link_at h cl in
        let! b := buf_at h p in
        let st := offset in
        let la := i64 (offset + ngx_buf_size b) in
        if ngx_buf_special b then
          let! (out_, h) := store ll cl out_ h in
          let! (_, next) := link_at h cl in
          singlepart_loop f rg la next out_ (Next cl) h
        else if (end_ rg <=? st) || (la <=? start rg) then
          singlepart_loop f rg la next out_ ll (set_buf p (skip_all b) h)
        else
          let b := if st <? start rg then skip_front (start rg - st) b else b in
          let h := set_buf p b h in
          if end_ rg <=? la then
            let h := set_buf p ((skip_back (la - end_ rg) b) <| last_buf := true |>) h in
            let! (out_, h) := store ll cl out_ h in
            let! h := set_next cl 0 h in
            Ok (la, out_, h)
          else
            let! (out_, h) := store ll cl out_ h in
            let! (_, next) := link_at h cl in
            singlepart_loop f rg la next out_ (Next cl) h
  end.

(** What a body filter does: the chain for the next filter, if it is called, or a
    code. *)
Inductive pass := Call (chain : Z) | Return (rc : Z).

Definition ngx_http_range_singlepart_body (fuel : nat) (c : ctx) (inp : Z) h : out (pass * ctx * heap) :=
  match ranges c with
  | [] => Undef OutOfBounds
  | rg :: _ =>
      let! (off, out_, h) := singlepart_loop fuel rg (offset c) inp 0 Var h in
      Ok (if out_ =? 0 then Return NGX_OK else Call out_, c <| offset := off |>, h)
  end.

Definition ngx_http_range_test_overlapped (c : ctx) (b : ngx_buf) : Z * ctx :=
  if negb (offset c =? 0) then (NGX_ERROR, c)
  else
    let la := i64 (offset c + ngx_buf_size b) in
    if negb (last_buf b) && existsb (fun rg => (start rg <? offset c) || (la <? end_ rg)) (ranges c) then (NGX_ERROR, c)
    else (NGX_OK, c <| offset := ngx_buf_size b |>).

(** The buffer of a text that is all of its memory, at [p]. *)
Definition text_buf (p len : Z) : ngx_buf := zero_buf <| pos := p |> <| last := p + len |>.
(** The part of [buf] that is the range. *)
Definition data_buf (rg : range) (buf : ngx_buf) : ngx_buf :=
  let b := zero_buf <| in_file := in_file buf |> <| temporary := temporary buf |> <| memory := memory buf |> <| mmap := mmap buf |> <| file := file buf |> in
  let b := if in_file buf then b <| file_pos := i64 (file_pos buf + start rg) |> <| file_last := i64 (file_pos buf + end_ rg) |> else b in
  if ngx_buf_in_memory buf then b <| pos := pos buf + u64 (start rg) |> <| last := pos buf + u64 (end_ rg) |> else b.

(** A buffer of the new chain: the bytes of a text, or a part of the buffer. *)
Inductive piece := Text (s : bytes) (writable : bool) (is_last : bool) | Data (b : ngx_buf).

(** Memory for a buffer and its link. *)
Definition new_link h : out (bool * heap) :=
  let! (b, h) := ngx_calloc_buf h in
  if b =? 0 then Ok (false, h) else let! (cl, h) := ngx_alloc_chain_link h in Ok (negb (cl =? 0), h).

(** [None]: no memory. *)
Fixpoint multipart_loop (bh : bytes) (buf : ngx_buf) (l : list range) h : out (option (list piece) * heap) :=
  match l with
  | [] => Ok (Some [], h)
  | rg :: l' =>
      let! (ok1, h) := new_link h in
      if negb ok1 then Ok (None, h)
      else
        let! (ok2, h) := new_link h in
        if negb ok2 then Ok (None, h)
        else
          let! (ok3, h) := new_link h in
          if negb ok3 then Ok (None, h)
          else
            let! (x, h) := multipart_loop bh buf l' h in
            Ok (match x with None => None | Some out_ => Some (Text bh false false :: Text (content_range rg) true false :: Data (data_buf rg buf) :: out_) end, h)
  end.

Definition ngx_http_range_multipart_body (c : ctx) (buf : ngx_buf) h : out (option (list piece) * heap) :=
  let! (x, h) := multipart_loop (boundary_header c) buf (ranges c) h in
  match x with
  | None => Ok (None, h)
  | Some out_ =>
      let! (b, h) := ngx_calloc_buf h in
      if b =? 0 then Ok (None, h)
      else
        let! (p, h) := (let! (p, pl, o) := ngx_pnalloc (h_pool h) (4 + Z.of_nat NGX_ATOMIC_T_LEN + 4) (h_mem h) in Ok (p, h <| h_pool := pl |> <| h_mem := o |>)) in
        match p with
        | None => Ok (None, h)
        | Some _ =>
            let! w := copy_mem (boundary_header c) (4 + NGX_ATOMIC_T_LEN) in
            let! (cl, h) := ngx_alloc_chain_link h in
            if cl =? 0 then Ok (None, h) else Ok (Some (out_ ++ [Text (w ++ bs "--" ++ CRLF) true true]), h)
        end
  end.

(** What the body filter hands to the next one: the chain as it is, the chain of
    the only part, the pieces of several parts. *)
Inductive body_result := Unchanged | Single (p : pass) | Multi (x : option (list piece)) | Overlapped.
Definition ngx_http_range_body_filter (fuel : nat) (c : option ctx) (inp : Z) h : out (body_result * option ctx * heap) :=
  if inp =? 0 then Ok (Unchanged, c, h)
  else
    match c with
    | None => Ok (Unchanged, None, h)
    | Some cx =>
        if (length (ranges cx) =? 1)%nat then
          let! (p, cx, h) := ngx_http_range_singlepart_body fuel cx inp h in Ok (Single p, Some cx, h)
        else
          let! (p, _) := link_at h inp in
          let! b := buf_at h p in
          if ngx_buf_special b then Ok (Unchanged, c, h)
          else
            let '(rc, cx) := ngx_http_range_test_overlapped cx b in
            if negb (rc =? NGX_OK) then Ok (Overlapped, Some cx, h)
            else let! (x, h) := ngx_http_range_multipart_body cx b h in Ok (Multi x, Some cx, h)
    end.
End Body.
End Range.
