(* ===== verification/NgxRangeProps.v ===== *)
(** * Properties of the parsing of byte ranges, and of the header of a response

    Accepted ranges lie inside the content as long as the numbers of the header
    are short; long ones wrap around and are accepted in front of it. *)
From stdpp Require Import list.
From S2P Require Import Prelude NgxString NgxArray NgxPrintf NginxProps NgxRange.
#[local] Open Scope Z_scope.
Import Printf Range.

(** ** Reading numbers *)

(** No more than [k] digits in a row. *)
Definition short_runs (k : nat) (p : bytes) : Prop := forall a r b, p = a ++ r ++ b -> Forall (fun c => is_digit c = true) r -> (length r <= k)%nat.
Definition terminated (p : bytes) : Prop := exists q, p = q ++ [0].

Lemma short_runs_suffix k a p : short_runs k (a ++ p) -> short_runs k p.
Proof. intros H a' r b -> Hr. apply (H (a ++ a') r b); [by rewrite app_assoc|done]. Qed.

Lemma terminated_nonempty p : terminated p -> exists c p', p = c :: p' /\ (c <> 0 -> terminated p').
Proof.
  intros [q ->]. destruct q as [|c q]; [by exists 0, []|]. exists c, (q ++ [0]). split; [done|]. intros _. by exists q.
Qed.

(** What is left of a text: a suffix that still ends with the NUL. *)
Definition rest_of (p p' : bytes) : Prop := exists a, p = a ++ p' /\ terminated p'.
Lemma rest_refl p : terminated p -> rest_of p p.
Proof. by exists []. Qed.
Lemma rest_trans p q r : rest_of p q -> rest_of q r -> rest_of p r.
Proof. intros (a & -> & _) (b & -> & H). exists (a ++ b). by rewrite <- app_assoc. Qed.
Lemma rest_length p q : rest_of p q -> (length q <= length p)%nat.
Proof. intros (a & -> & _). rewrite length_app. lia. Qed.
Lemma rest_runs k p q : rest_of p q -> short_runs k p -> short_runs k q.
Proof. intros (a & -> & _). apply short_runs_suffix. Qed.
Lemma rest_tail c p : terminated (c :: p) -> c <> 0 -> rest_of (c :: p) p.
Proof. intros H Hc. destruct (terminated_nonempty _ H) as (c' & p' & E & Ht). injection E as <- <-. exists [c]. by split; [|apply Ht]. Qed.
Lemma rest_cons p c q : rest_of p (c :: q) -> c <> 0 -> rest_of p q /\ (length q < length p)%nat.
Proof. intros H Hc. pose proof (rest_length _ _ H) as Hl. cbn in Hl. split; [|lia]. eapply rest_trans; [exact H|]. apply rest_tail; [by destruct H as (a & _ & ?)|done]. Qed.

Lemma spaces_rest p : terminated p -> exists c p', spaces p = Ok (c :: p') /\ rest_of p (c :: p').
Proof.
  induction p as [|c p IH]; intros Ht; [by destruct Ht as [[|? ?] E]|]. cbn [spaces]. destruct (Z.eqb_spec c 32) as [->|Hc].
  - destruct (terminated_nonempty _ Ht) as (c' & p' & E & Ht'). injection E as <- <-. destruct (IH (Ht' ltac:(done))) as (c2 & p2 & -> & Hr).
    exists c2, p2. split; [done|]. eapply rest_trans; [by apply rest_tail|exact Hr].
  - exists c, p. split; [done|]. by apply rest_refl.
Qed.

Lemma is_digit_range c : is_digit c = true -> 48 <= c <= 57.
Proof. unfold is_digit. lia. Qed.

Lemma digits_value r : forall k n p, Forall (fun c => is_digit c = true) r -> (length r <= k)%nat -> (k <= 18)%nat -> 0 <= n < 10 ^ Z.of_nat (18 - k) ->
  (forall c p', p = c :: p' -> is_digit c = false) -> p <> [] ->
  exists m, digits n (r ++ p) = Ok (m, p) /\ 0 <= m < 10 ^ Z.of_nat (18 - k + length r).
Proof.
  induction r as [|c r IH]; intros k n p Hr Hk H18 Hn Hp Hne; cbn [app length].
  - exists n. rewrite Nat.add_0_r. split; [|done]. destruct p as [|c p]; [done|]. cbn. by rewrite (Hp c p eq_refl).
  - apply Forall_cons in Hr as [Hc Hr]. cbn [digits]. rewrite Hc. apply is_digit_range in Hc. cbn [length] in Hk. destruct k as [|k]; [lia|].
    replace (18 - k)%nat with (S (18 - S k)) in IH at 1 by lia.
    assert (E10 : 10 ^ Z.of_nat (S (18 - S k)) = 10 * 10 ^ Z.of_nat (18 - S k)) by (rewrite Nat2Z.inj_succ, Z.pow_succ_r; lia).
    assert (H63 : 10 ^ Z.of_nat (S (18 - S k)) <= 10 ^ 18) by (apply Z.pow_le_mono_r; lia).
    assert (Hn' : 0 <= n * 10 + c - 48 < 10 ^ Z.of_nat (18 - k)) by (replace (18 - k)%nat with (S (18 - S k)) by lia; lia).
    change (10 ^ 18) with 1000000000000000000 in H63. replace (18 - k)%nat with (S (18 - S k)) in Hn' by lia. rewrite i64_small by (unfold INT64_MAX; lia). replace (S (18 - S k)) with (18 - k)%nat in Hn' by lia. destruct (IH k (n * 10 + c - 48) p Hr ltac:(lia) ltac:(lia) Hn' Hp Hne) as (m & -> & Hm).
    exists m. split; [done|]. replace (18 - S k + S (length r))%nat with (18 - k + length r)%nat by lia. exact Hm.
Qed.

(** The digits at the front of a text. *)
Lemma split_digits p : terminated p -> exists r q, p = r ++ q /\ Forall (fun c => is_digit c = true) r /\ terminated q /\ (forall c q', q = c :: q' -> is_digit c = false) /\ q <> [].
Proof.
  induction p as [|c p IH]; intros Ht; [by destruct Ht as [[|? ?] E]|]. destruct (is_digit c) eqn:Hc.
  - destruct (terminated_nonempty _ Ht) as (c' & p' & E & Ht'). injection E as <- <-.
    destruct IH as (r & q & -> & Hr & Hq & Hn & Hne); [apply Ht'; intros ->; done|]. exists (c :: r), q. split; [done|]. by split; [constructor|].
  - exists [], (c :: p). split; [done|]. split; [constructor|]. split; [done|]. split; [|done]. intros c' q' E. injection E as <- <-. done.
Qed.

Lemma digits_short p : terminated p -> short_runs 13 p -> exists m c q, digits 0 p = Ok (m, c :: q) /\ 0 <= m < 10 ^ 13 /\ rest_of p (c :: q).
Proof.
  intros Ht Hs. destruct (split_digits p Ht) as (r & q & -> & Hr & Hq & Hn & Hne). pose proof (Hs [] r q eq_refl Hr) as Hl.
  destruct (digits_value r 18 0 q Hr ltac:(lia) ltac:(lia) ltac:(cbn; lia) Hn Hne) as (m & E & Hm).
  destruct q as [|c q]; [done|]. exists m, c, q. split; [exact E|]. split; [|by exists r].
  split; [lia|]. eapply Z.lt_le_trans; [apply Hm|]. apply Z.pow_le_mono_r; cbn; lia.
Qed.

(** ** One range *)

Definition limit : Z := 10 ^ 13.
(** A range that is kept: inside the content, or it starts too early and ends at
    the end. *)
Definition spec_ok (cl s e : Z) : Prop := - limit < s /\ e <= cl /\ (0 <= s \/ e = cl).

Lemma range_end_spec cl suffix s p : terminated p -> short_runs 13 p -> 0 <= cl < 2 ^ 62 -> 0 <= s < limit ->
  exists x, range_end cl suffix s p = Ok x /\ match x with None => True | Some (s', e, p') => spec_ok cl s' e /\ rest_of p p' end.
Proof.
  intros Ht Hs Hcl H0. unfold range_end. destruct (terminated_nonempty p Ht) as (c & p0 & Ep & _). replace (at_ p) with (Ok c) by (by rewrite Ep). rewrite obind_Ok. clear Ep p0.
  destruct (is_digit c); cbn [negb]; [|by exists None]. destruct (digits_short p Ht Hs) as (m & c1 & q & -> & Hm & Hr). rewrite obind_Ok.
  destruct (spaces_rest (c1 :: q)) as (c2 & q2 & -> & Hr2); [by destruct Hr as (? & _ & ?)|]. rewrite obind_Ok. cbn [at_]. rewrite obind_Ok.
  destruct (_ && _); [by exists None|]. unfold limit, spec_ok in *. change (10 ^ 13) with 10000000000000 in *. change (2 ^ 62) with 4611686018427387904 in *.
  destruct suffix; (eexists; split; [reflexivity|]).
  - rewrite !(i64_small (cl - _)) by (unfold INT64_MAX; lia). destruct (Z.leb_spec cl (cl - 1)); [lia|]. rewrite i64_small by (unfold INT64_MAX; lia).
    split; [unfold limit; lia|]. by eapply rest_trans.
  - split; [|by eapply rest_trans]. destruct (Z.leb_spec cl m); [unfold limit; lia|]. rewrite i64_small by (unfold INT64_MAX; lia). unfold limit; lia.
Qed.

Lemma range_spec_ok cl p : terminated p -> short_runs 13 p -> 0 <= cl < 2 ^ 62 ->
  exists x, range_spec cl p = Ok x /\ match x with None => True | Some (s, e, p') => spec_ok cl s e /\ rest_of p p' /\ (length p' < length p)%nat end.
Proof.
  intros Ht Hs Hcl. unfold range_spec. destruct (spaces_rest p Ht) as (c & q & -> & Hr). rewrite obind_Ok. cbn [at_]. rewrite obind_Ok.
  assert (Hstep : forall s suffix q', rest_of (c :: q) q' -> (length q' < length (c :: q))%nat -> 0 <= s < limit ->
    exists x, range_end cl suffix s q' = Ok x /\ match x with None => True | Some (s', e, p') => spec_ok cl s' e /\ rest_of p p' /\ (length p' < length p)%nat end).
  { intros s suffix q' Hq' Hl Hs0. assert (Hpq : rest_of p q') by by eapply rest_trans.
    destruct (range_end_spec cl suffix s q') as (x & E & Hx); [by destruct Hpq as (? & _ & ?)|by eapply rest_runs|done|done|].
    exists x. split; [exact E|]. destruct x as [[[s' e] p']|]; [|done]. destruct Hx as [Hx1 Hx2]. split; [done|]. split; [by eapply rest_trans|].
    pose proof (rest_length _ _ Hx2). pose proof (rest_length _ _ Hr). lia. }
  destruct (Z.eqb_spec c 45) as [->|Hc].
  { cbn [drop]. destruct (rest_cons _ _ _ (rest_refl (45 :: q) ltac:(by destruct Hr as (? & _ & ?))) ltac:(lia)) as [Hq Hl]. apply Hstep; [done|done|unfold limit; lia]. }
  destruct (is_digit c) eqn:Hd; cbn [negb]; [|by exists None].
  assert (Htc : terminated (c :: q)) by by destruct Hr as (? & _ & ?).
  destruct (split_digits (c :: q) Htc) as (r & q0 & Er & _). clear r q0 Er.
  destruct (digits_short (c :: q) Htc ltac:(by eapply rest_runs)) as (m & c1 & q1 & Em & Hm & Hr1).
  assert (Hl1 : (length (c1 :: q1) < length (c :: q))%nat).
  { pose proof Em as Em'. cbn [digits] in Em'. rewrite Hd in Em'. destruct (rest_cons _ _ _ (rest_refl (c :: q) Htc)) as [Hq _]; [intros ->; done|].
    destruct Hr1 as ([|x a] & Ea & Ht1); [|cbn in Ea; injection Ea as _ ->; cbn; rewrite length_app; cbn; lia].
    exfalso. cbn in Ea. injection Ea as <- <-. destruct Hq as (a & _ & Htq).
    assert (Hg : forall n t t' v, digits n t = Ok (v, t') -> (length t' <= length t)%nat).
    { clear. intros n t. revert n. induction t as [|z t IH]; intros n t' v H; [done|]. cbn in H. destruct (is_digit z); [apply IH in H; cbn; lia|by injection H as _ <-]. }
    apply Hg in Em'. cbn in Em'. lia. }
  rewrite Em, obind_Ok. destruct (spaces_rest (c1 :: q1)) as (c2 & q2 & -> & Hr2); [by destruct Hr1 as (? & _ & ?)|]. rewrite obind_Ok. cbn [at_]. rewrite obind_Ok.
  destruct (Z.eqb_spec c2 45) as [->|Hc2]; cbn [negb]; [|by exists None]. change (drop 1 (45 :: q2)) with q2.
  destruct (rest_cons _ _ _ (rest_trans _ _ _ Hr1 Hr2) ltac:(lia)) as [Hq2 Hl2].
  destruct (spaces_rest q2) as (c3 & q3 & -> & Hr3); [by destruct Hq2 as (? & _ & ?)|]. rewrite obind_Ok. cbn [at_]. rewrite obind_Ok.
  pose proof (rest_trans _ _ _ Hq2 Hr3) as Hq3. pose proof (rest_length _ _ Hr3) as Hl3. destruct (_ || _).
  - eexists. split; [reflexivity|]. split; [unfold spec_ok, limit in *; lia|]. split; [by eapply rest_trans|]. pose proof (rest_length _ _ Hr). lia.
  - apply Hstep; [done|lia|unfold limit; lia].
Qed.

(** ** All ranges *)

Fixpoint total (l : list range) : Z := match l with [] => 0 | r :: l' => (end_ r - start r) + total l' end.
Definition kept (cl : Z) (r : range) : Prop := start r < end_ r /\ spec_ok cl (start r) (end_ r).
Definition inside (cl : Z) (r : range) : Prop := 0 <= start r < end_ r /\ end_ r <= cl.

Lemma total_ranges_app l r : total (l ++ [r]) = total l + (end_ r - start r).
Proof. induction l as [|x l IH]; cbn; [lia|]. rewrite IH. lia. Qed.

Lemma kept_total cl l : Forall (kept cl) l -> 0 <= total l /\ Forall (fun r => end_ r - start r <= total l) l.
Proof.
  induction 1 as [|r l Hr _ [IH1 IH2]]; [by split|]. cbn. unfold kept in Hr. split; [lia|]. constructor; [lia|]. eapply Forall_impl; [exact IH2|]. cbn. lia.
Qed.

(** Ranges that are not longer together than the content lie inside it. *)
Lemma kept_inside cl l : Forall (kept cl) l -> total l <= cl -> Forall (inside cl) l.
Proof.
  intros Hl Ht. destruct (kept_total cl l Hl) as [_ Hs]. rewrite Forall_forall in *. intros r Hr. specialize (Hl r Hr). specialize (Hs r Hr). cbn in Hs.
  unfold kept, spec_ok, inside in *. lia.
Qed.

Section Parse.
Context {Osm : OSMem} (cl : Z) (Hcl : 0 <= cl < 2 ^ 62).

Lemma parse_loop_ok fuel : forall p size n (a : ngx_array range) pl o, terminated p -> short_runs 13 p -> (length p <= fuel)%nat -> array_ok a -> sizeof_pool_large_t <= p_max pl ->
  Forall (kept cl) (items a) -> size = total (items a) -> size + Z.of_nat (length p) * (cl + limit) < 2 ^ 63 -> 0 <= n < 2 ^ 64 ->
  exists rc a' pl' o', parse_loop fuel cl p size n a pl o = Ok (rc, a', pl', o') /\
    (rc = NGX_OK -> items a' <> [] /\ Forall (inside cl) (items a') /\ total (items a') <= cl /\ Z.of_nat (length (items a')) <= Z.of_nat (length (items a)) + n).
Proof.
  induction fuel as [|f IH]; intros p size n a pl o Ht Hs Hf Ha Hp Hk Hsize Hmax Hn.
  { destruct (terminated_nonempty p Ht) as (c & q & -> & _). cbn in Hf. lia. }
  cbn [parse_loop]. destruct (range_spec_ok cl p Ht Hs Hcl) as (x & -> & Hx). rewrite obind_Ok.
  destruct x as [[[s e] p']|]; [|by do 4 eexists]. destruct Hx as (Hspec & Hr & Hlen).
  destruct (terminated_nonempty p') as (c & q & Ep' & Hq); [by destruct Hr as (? & _ & ?)|].
  (* behind [found] *)
  assert (Hgo : forall a1 size1 n1 pl1 o1, array_ok a1 -> sizeof_pool_large_t <= p_max pl1 -> Forall (kept cl) (items a1) -> size1 = total (items a1) ->
    size1 + Z.of_nat (length p') * (cl + limit) < 2 ^ 63 -> 0 <= n1 < 2 ^ 64 -> Z.of_nat (length (items a1)) + n1 <= Z.of_nat (length (items a)) + n ->
    exists rc a' pl' o', (let! c := at_ p' in
        if c =? 44 then parse_loop f cl (drop 1 p') size1 n1 a1 pl1 o1
        else if (length (items a1) =? 0)%nat then Ok (NGX_HTTP_RANGE_NOT_SATISFIABLE, a1, pl1, o1)
        else if cl <? size1 then Ok (NGX_DECLINED, a1, pl1, o1) else Ok (NGX_OK, a1, pl1, o1)) = Ok (rc, a', pl', o') /\
      (rc = NGX_OK -> items a' <> [] /\ Forall (inside cl) (items a') /\ total (items a') <= cl /\ Z.of_nat (length (items a')) <= Z.of_nat (length (items a)) + n)).
  { intros a1 size1 n1 pl1 o1 Ha1 Hp1 Hk1 Hs1 Hm1 Hn1 Hl1. rewrite Ep'. cbn [at_]. rewrite obind_Ok. destruct (Z.eqb_spec c 44) as [->|Hc].
    - change (drop 1 (44 :: q)) with q. rewrite Ep' in Hr, Hlen, Hm1. destruct (rest_cons _ _ _ Hr ltac:(lia)) as [Hrq Hlq]. cbn [length] in *.
      destruct (IH q size1 n1 a1 pl1 o1) as (rc & a' & pl' & o' & E & H); try done; [by apply Hq|by eapply rest_runs|lia|unfold limit in *; nia|].
      exists rc, a', pl', o'. split; [exact E|]. intros Hrc. destruct (H Hrc) as (? & ? & ? & ?). split_and!; try done. lia.
    - destruct (Nat.eqb_spec (length (items a1)) 0) as [E0|E0]; [by do 4 eexists|]. destruct (Z.ltb_spec cl size1); [by do 4 eexists|].
      exists NGX_OK, a1, pl1, o1. split; [done|]. intros _. split; [intros E; by rewrite E in E0|]. subst size1. split; [by apply kept_inside|]. split; [done|]. lia. }
  destruct (Z.ltb_spec s e) as [Hse|Hse].
  2: { rewrite obind_Ok. apply Hgo; try done. unfold limit in *. nia. }
  destruct (array_push_spec a (mk_range s e []) pl o Ha Hp) as (r & pl1 & o1 & -> & Hp1 & Hr1). rewrite !obind_Ok.
  destruct r as [a1|]; [|by do 4 eexists]. destruct Hr1 as [Ha1 Eitems]. rewrite obind_Ok.
  destruct (Z.eqb_spec n 0) as [->|Hn0]; [by do 4 eexists|].
  assert (Hk1 : Forall (kept cl) (items a1)) by (rewrite Eitems; apply Forall_app; split; [done|]; by constructor).
  assert (Htot : total (items a1) = size + (e - s)) by (rewrite Eitems, total_ranges_app; cbn; lia).
  destruct (kept_total cl _ Hk1) as [H0 _]. destruct (kept_total cl _ Hk) as [H00 _]. unfold spec_ok in Hspec.
  assert (Hbound : size + (e - s) + Z.of_nat (length p') * (cl + limit) < 2 ^ 63) by (unfold limit in *; nia).
  assert (Hsmall : i64 (size + (e - s)) = size + (e - s)).
  { apply i64_small. unfold INT64_MAX. assert (0 <= Z.of_nat (length p') * (cl + limit)) by (unfold limit in *; nia). change (2 ^ 63) with 9223372036854775808 in Hbound. lia. }
  rewrite Hsmall. assert (Hu : u64 (n - 1) = n - 1) by (apply uwrap_small; lia). rewrite Hu.
  apply Hgo; [done|lia|done|done|lia|lia|]. rewrite Eitems, length_app. cbn. lia.
Qed.

(** C28: Ranges lie inside the content.  For every Range header whose numbers have
    at most 13 digits, and that is not so long that the sum of the lengths of its
    ranges could wrap around, the parser ends without reading behind the header,
    and the ranges it accepts are not empty, lie inside the content, are at most
    as many as are allowed, and together not longer than the content. *)
Theorem ranges_in_bounds v max (a : ngx_array range) pl o : short_runs 13 (drop 6 v ++ [0]) -> (Z.of_nat (length v) + 1) * (cl + 10 ^ 13) < 2 ^ 63 -> 0 <= max < 2 ^ 64 ->
  array_ok a -> items a = [] -> sizeof_pool_large_t <= p_max pl ->
  exists rc a' pl' o', ngx_http_range_parse cl v max a pl o = Ok (rc, a', pl', o') /\
    (rc = NGX_OK -> items a' <> [] /\ Forall (inside cl) (items a') /\ total (items a') <= cl /\ Z.of_nat (length (items a')) <= max).
Proof.
  intros Hs Hlen Hmax Ha Ei Hp. unfold ngx_http_range_parse.
  destruct (parse_loop_ok (length (drop 6 v ++ [0])) (drop 6 v ++ [0]) 0 max a pl o) as (rc & a' & pl' & o' & E & H); try done; try (by rewrite Ei).
  - by exists (drop 6 v).
  - rewrite length_app, length_drop. cbn [length]. unfold limit. nia.
  - exists rc, a', pl', o'. split; [exact E|]. intros Hrc. destruct (H Hrc) as (? & ? & ? & Hl). split_and!; try done. by rewrite Ei in Hl.
Qed.
End Parse.

(** ** Examples *)

#[local] Existing Instance known_mem.
Definition demo_ranges : ngx_array range := mk_array 0 1024 [] sizeof_range 4.
Fixpoint runs_from (k run : nat) (p : bytes) : bool :=
  match p with [] => true | c :: p' => if is_digit c then (run <? k)%nat && runs_from k (S run) p' else runs_from k 0 p' end.

Lemma runs_from_skip k a : forall run p, runs_from k run (a ++ p) = true -> exists run', runs_from k run' p = true.
Proof.
  induction a as [|c a IH]; intros run p H; [by exists run|]. cbn in H. destruct (is_digit c); [|by eapply IH]. apply andb_true_iff in H as [_ H]. by eapply IH.
Qed.

Lemma runs_from_ok k p : runs_from k 0 p = true -> short_runs k p.
Proof.
  intros H a r b -> Hr. apply runs_from_skip in H as [run H].
  assert (Hle : (r = [] \/ run + length r <= k)%nat); [|destruct Hle as [->|]; cbn; lia].
  revert run H. induction Hr as [|c r Hc Hr IH]; intros run H; [by left|]. cbn in H. rewrite Hc in H. apply andb_true_iff in H as [Hk H].
  apply Nat.ltb_lt in Hk. right. destruct (IH _ H) as [->|?]; cbn; lia.
Qed.

Definition accepted (m : out (Z * ngx_array range * pool * @os known_mem)) : option (Z * list (Z * Z)) :=
  match m with Ok (rc, a, _, _) => Some (rc, map (fun r => (start r, end_ r)) (items a)) | _ => None end.

Lemma ranges_in_bounds_witness :
  accepted (ngx_http_range_parse 20 (bs "bytes=0-4, 10- ,-3") 5 demo_ranges demo_pool4k (demo_blocks : @os known_mem)) = Some (NGX_OK, [(0, 5); (10, 20); (17, 20)]) /\
  exists rc a' pl' o', ngx_http_range_parse 20 (bs "bytes=0-4, 10- ,-3") 5 demo_ranges demo_pool4k (demo_blocks : @os known_mem) = Ok (rc, a', pl', o') /\
    (rc = NGX_OK -> items a' <> [] /\ Forall (inside 20) (items a') /\ total (items a') <= 20 /\ Z.of_nat (length (items a')) <= 5).
Proof.
  split; [vm_compute; reflexivity|]. apply ranges_in_bounds; [split; [done|reflexivity]|apply runs_from_ok; reflexivity|reflexivity|split; [done|reflexivity]|
    split; [reflexivity|split; [reflexivity|vm_compute; discriminate]]|reflexivity|vm_compute; discriminate].
Defined.

(** The sum of the lengths wraps around: two ranges that start in front of a
    content of 1000 bytes are accepted. *)
Lemma wrapped_ranges_accepted :
  accepted (ngx_http_range_parse 1000 (bs "bytes=-2000,-9223372036854773808") 5 demo_ranges demo_pool4k (demo_blocks : @os known_mem)) =
    Some (NGX_OK, [(-1000, 1000); (-9223372036854772808, 1000)]).
Proof. vm_compute. reflexivity. Qed.

(** * The header of a range response

    What the header filter prints fits the memory it asks for, and is the text of
    the ranges; the part headers and the length of a multipart response. *)
From stdpp Require Import list.
From S2P Require Import Prelude NgxString NgxStrUtil NgxStrUtilProps NgxPrintf NgxPrintfProps NgxRange.
From S2P Require Import NgxHeaders.
#[local] Open Scope Z_scope.
Import Printf Range.
#[local] Abbreviation dec := Prelude.digits.

Lemma u64_small z : 0 <= z < 2 ^ 64 -> u64 z = z.
Proof. apply uwrap_small. Qed.

(** ** Lists of headers *)

Lemma list_items_set l i f : list_items (set_elt l i f) = alter f i (list_items l).
Proof.
  unfold set_elt, list_items. destruct (Nat.ltb_spec i (length (before l))); cbn.
  - by rewrite alter_app_l.
  - by rewrite alter_app_r_alt.
Qed.
Lemma alter_length_snoc {A} (f : A -> A) l x : alter f (length l) (l ++ [x]) = l ++ [f x].
Proof. rewrite alter_app_r_alt by lia. by rewrite Nat.sub_diag. Qed.
Lemma list_ok_set l i f : list_ok l -> list_ok (set_elt l i f).
Proof. intros [Hn Hl]. unfold set_elt. destruct (_ <? _)%nat; split; cbn; rewrite ?length_alter; lia. Qed.

Section Header.
Context {Osm : OSMem}.
Implicit Types (r : req).

(** The request is well formed; what it has but for the memory and the headers. *)
Definition req_ok r : Prop := list_ok (headers (h_out r)) /\ sizeof_pool_large_t <= p_max (r_pool r) /\
  match content_length (h_out r) with Some i => (i < length (list_items (headers (h_out r))))%nat | None => True end.

Lemma push_header_spec k r : req_ok r -> exists i r1, push_header k r = Ok (i, r1) /\ req_ok r1 /\ exists pl o l,
  r1 = r <| h_out := (h_out r) <| headers := l |> |> <| r_pool := pl |> <| r_mem := o |> /\
  match i with Some i => i = length (list_items (headers (h_out r))) /\ list_items l = list_items (headers (h_out r)) ++ [Headers.mk_elt 1 k [] []] | None => l = headers (h_out r) end.
Proof.
  intros (Hl & Hp & Hc). unfold push_header. destruct (list_push_spec (headers (h_out r)) (Headers.mk_elt 1 k [] []) (r_pool r) (r_mem r) Hl Hp) as (x & pl & o & -> & Hm & Hx).
  rewrite obind_Ok. destruct x as [l|].
  - destruct Hx as [Hok Hi]. eexists (Some _), _. split; [reflexivity|]. split; [split; [done|split; [cbn; lia|]]|].
    { cbn. case_match; [|done]. rewrite Hi, length_app. lia. }
    exists pl, o, l. by destruct r as [? ? ? ? ? ? [] ? ? ? ?].
  - eexists None, _. split; [reflexivity|]. split; [split; [done|split; [cbn; lia|done]]|]. exists pl, o, (headers (h_out r)). by destruct r as [? ? ? ? ? ? [] ? ? ? ?].
Qed.

Lemma room_for_spec n r : req_ok r -> exists ok r1, room_for n r = Ok (ok, r1) /\ req_ok r1 /\ exists pl o, r1 = r <| r_pool := pl |> <| r_mem := o |>.
Proof.
  intros (Hl & Hp & Hc). unfold room_for. destruct (pnalloc_total (r_pool r) n (r_mem r) Hp) as (x & pl & o & -> & Hm). rewrite obind_Ok.
  do 2 eexists. split; [reflexivity|]. split; [split; [done|split; [cbn; lia|done]]|]. by exists pl, o.
Qed.

Lemma print_into_ok len fmt args w : ngx_sprintf fmt args = Ok w -> blen w <= len -> print_into len fmt args = Ok w.
Proof. intros H Hl. unfold print_into. rewrite H, obind_Ok. by rewrite (proj2 (Z.ltb_ge len (blen w))). Qed.

Lemma dec_length z : 0 <= z < 2 ^ 63 -> blen (dec z) <= 19.
Proof. intros H. unfold blen. pose proof (digits_length z 18 ltac:(lia)). lia. Qed.

(** "s-e/n" *)
Definition range_text (rg : range) (n : Z) : bytes := dec (start rg) ++ [45] ++ dec (end_ rg - 1) ++ [47] ++ dec n.
Definition proper (n : Z) (rg : range) : Prop := 0 <= start rg < end_ rg /\ end_ rg <= n /\ n < 2 ^ 62.

Lemma range_text_length rg n : proper n rg -> blen (range_text rg n) <= 59.
Proof.
  intros (Hs & He & Hn). pose proof (dec_length (start rg) ltac:(lia)). pose proof (dec_length (end_ rg - 1) ltac:(lia)). pose proof (dec_length n ltac:(lia)).
  unfold range_text, blen in *. rewrite !length_app. cbn [length]. lia.
Qed.

Lemma sprintf_range fmt rg n : proper n rg -> forallb (fun c => negb (c =? 37)) fmt = true ->
  ngx_sprintf (bs "%O-%O/%O" ++ fmt) [ANum (start rg); ANum (i64 (end_ rg - 1)); ANum n] = Ok (range_text rg n ++ fmt).
Proof.
  intros (Hs & He & Hn) Hf. rewrite i64_small by (unfold INT64_MAX; lia). change (bs "%O-%O/%O" ++ fmt) with (37 :: 79 :: [45] ++ 37 :: 79 :: [47] ++ 37 :: 79 :: fmt).
  rewrite sprintf_O, sprintf_text, sprintf_O, sprintf_text, sprintf_O by (done || lia).
  pose proof (sprintf_text fmt [] [] Hf) as E. rewrite app_nil_r, sprintf_nil in E. rewrite E. cbn [obind]. rewrite app_nil_r. unfold range_text. by rewrite <- !app_assoc.
Qed.

Lemma drop_content_length_spec h : content_length_n (drop_content_length h) = content_length_n h /\ h_content_range (drop_content_length h) = h_content_range h /\
  forall i, content_length h <> Some i -> list_items (headers (drop_content_length h)) !! i = list_items (headers h) !! i.
Proof.
  unfold drop_content_length. destruct (content_length h) as [j|]; [|done]. split; [done|]. split; [done|]. intros i Hi. cbn. rewrite list_items_set.
  apply list_lookup_alter_ne. congruence.
Qed.

(** ** One range *)

(** The next filters are called with the announced length and the text of the
    Content-Range header, or the memory runs out. *)
Lemma singlepart_header_ok next c rg r : ranges c = [rg] -> proper (content_length_n (h_out r)) rg -> req_ok r ->
  exists rc r1, ngx_http_range_singlepart_header next c r = (if rc =? NGX_OK then next r1 else Ok (NGX_ERROR, r1)) /\
    (rc = NGX_OK -> content_length_n (h_out r1) = end_ rg - start rg /\ exists i e, h_content_range (h_out r1) = Some i /\
      list_items (headers (h_out r1)) !! i = Some e /\ Headers.e_hash e = 1 /\ Headers.e_key e = bs "Content-Range" /\
      Headers.e_value e = bs "bytes " ++ range_text rg (content_length_n (h_out r))).
Proof.
  intros Hc Hp Hok. unfold ngx_http_range_singlepart_header. destruct (push_header_spec (bs "Content-Range") r Hok) as (i & r1 & -> & Hok1 & pl & o & l & E1 & Hi).
  rewrite obind_Ok. destruct i as [i|]; [|by exists NGX_ERROR, r1]. cbv zeta.
  destruct (room_for_spec (8 + 3 * NGX_OFF_T_LEN) (r1 <| h_out := (h_out r1) <| h_content_range := Some i |> |>)) as (ok & r2 & -> & Hok2 & pl2 & o2 & E2); [done|].
  rewrite obind_Ok. destruct ok; [cbn [negb]|by exists NGX_ERROR, r2]. rewrite Hc.
  assert (En : content_length_n (h_out r2) = content_length_n (h_out r)) by (by subst r2 r1). rewrite En.
  rewrite (print_into_ok _ _ _ (bs "bytes " ++ range_text rg (content_length_n (h_out r)))), obind_Ok.
  - eexists NGX_OK, _. split; [reflexivity|]. intros _. destruct Hi as [-> Hl]. destruct Hp as (Hs & He & Hn).
    assert (Hcl : content_length (h_out r2) = content_length (h_out r)) by (by subst r2 r1).
    assert (Hl2 : list_items (headers (h_out r2)) = list_items (headers (h_out r)) ++ [Headers.mk_elt 1 (bs "Content-Range") [] []]) by (by subst r2 r1).
    set (h3 := _ <| content_length_n := _ |>). assert (En3 : content_length_n h3 = end_ rg - start rg) by (unfold h3; cbn; apply i64_small; unfold INT64_MAX; lia).
    destruct (drop_content_length_spec h3) as (E & E' & Ed). assert (Hset : forall x (y : req), h_out (y <| h_out := x |>) = x) by done. rewrite Hset. fold h3. rewrite E, E', En3. split; [done|].
    exists (length (list_items (headers (h_out r)))), (Headers.mk_elt 1 (bs "Content-Range") (bs "bytes " ++ range_text rg (content_length_n (h_out r))) []).
    split; [by subst h3 r2 r1|]. split; [|done]. rewrite Ed.
    + unfold h3, set_value. cbn. rewrite list_items_set, Hl2, alter_length_snoc. by rewrite lookup_app_r, Nat.sub_diag by lia.
    + unfold h3, set_value. cbn. rewrite Hcl. destruct Hok as (_ & _ & Hi). destruct (content_length (h_out r)); [|done]. intros [= ->]. lia.
  - change (bs "bytes %O-%O/%O") with (bs "bytes " ++ (bs "%O-%O/%O" ++ [])). rewrite sprintf_text by done. rewrite sprintf_range by done. by rewrite obind_Ok, app_nil_r.
  - pose proof (range_text_length rg _ Hp). unfold blen, NGX_OFF_T_LEN in *. rewrite length_app. cbn [length]. change (length (bs "bytes ")) with 6%nat. lia.
Qed.

(** ** Several ranges *)

Definition boundary_text (b : Z) : bytes := zpad NGX_ATOMIC_T_LEN (dec b).
Lemma boundary_length b : 0 <= b < 2 ^ 64 -> length (boundary_text b) = NGX_ATOMIC_T_LEN.
Proof.
  intros Hb. unfold boundary_text, zpad. pose proof (digits_length b 19 ltac:(lia)). rewrite length_app, length_replicate. unfold NGX_ATOMIC_T_LEN in *. lia.
Qed.

(** The text in front of a part of a body of this type and charset. *)
Definition part_text (b : Z) (ct cs : bytes) : bytes :=
  CRLF ++ bs "--" ++ boundary_text b ++ CRLF ++
  (match cs, ct with [], [] => [] | [], _ => bs "Content-Type: " ++ ct ++ CRLF | _, _ => bs "Content-Type: " ++ ct ++ bs "; charset=" ++ cs ++ CRLF end) ++
  bs "Content-Range: bytes ".

Lemma part_header_ok b h : 0 <= b < 2 ^ 64 ->
  part_header (63 + blen (content_type h) + (if (length (charset h) =? 0)%nat then 0 else 10 + blen (charset h))) b h = Ok (part_text b (content_type h) (charset h)).
Proof.
  intros Hb. pose proof (boundary_length b Hb) as Hl. unfold part_header, part_text.
  change (CRLF ++ bs "--%0muA" ++ CRLF ++ bs "Content-Type: %V; charset=%V" ++ CRLF ++ bs "Content-Range: bytes ") with
    ((CRLF ++ bs "--") ++ 37 :: 48 :: 109 :: 117 :: 65 :: (CRLF ++ bs "Content-Type: ") ++ 37 :: 86 :: bs "; charset=" ++ 37 :: 86 :: CRLF ++ bs "Content-Range: bytes ").
  change (CRLF ++ bs "--%0muA" ++ CRLF ++ bs "Content-Type: %V" ++ CRLF ++ bs "Content-Range: bytes ") with
    ((CRLF ++ bs "--") ++ 37 :: 48 :: 109 :: 117 :: 65 :: (CRLF ++ bs "Content-Type: ") ++ 37 :: 86 :: CRLF ++ bs "Content-Range: bytes ").
  change (CRLF ++ bs "--%0muA" ++ CRLF ++ bs "Content-Range: bytes ") with ((CRLF ++ bs "--") ++ 37 :: 48 :: 109 :: 117 :: 65 :: CRLF ++ bs "Content-Range: bytes ").
  destruct (charset h) as [|c cs]; cbn [length Nat.eqb negb]; [destruct (content_type h) as [|t ct]; cbn [length Nat.eqb negb]|]; apply print_into_ok;
    rewrite ?sprintf_text, ?sprintf_0muA, ?sprintf_text, ?sprintf_V, ?sprintf_text, ?sprintf_V by (done || lia); rewrite ?sprintf_const by done.
  all: unfold blen, NGX_ATOMIC_T_LEN in *.
  - cbn [obind]. unfold boundary_text. by rewrite <- !app_assoc.
  - rewrite !length_app, Hl. cbn. lia.
  - cbn [obind]. unfold boundary_text. by rewrite <- !app_assoc.
  - rewrite !length_app, Hl. cbn [length]. change (length (bs "Content-Type: ")) with 14%nat. change (length (bs "Content-Range: bytes ")) with 21%nat. cbn. lia.
  - cbn [obind]. unfold boundary_text. by rewrite <- !app_assoc.
  - rewrite !length_app, Hl. cbn [length]. change (length (bs "Content-Type: ")) with 14%nat. change (length (bs "Content-Range: bytes ")) with 21%nat. cbn. lia.
Qed.

(** The ranges with their texts, and the bytes of the parts. *)
Definition with_text (n : Z) (rg : range) : range := mk_range (start rg) (end_ rg) (range_text rg n ++ CRLF ++ CRLF).
Fixpoint parts_size (hl n : Z) (l : list range) : Z :=
  match l with [] => 0 | rg :: l' => hl + blen (content_range (with_text n rg)) + (end_ rg - start rg) + parts_size hl n l' end.

Lemma parts_size_pos hl n l : 0 <= hl -> Forall (proper n) l -> 0 <= parts_size hl n l.
Proof.
  intros Hh HF. induction HF as [|rg l (? & _) HF IH]; cbn [parts_size]; [lia|]. unfold blen. lia.
Qed.

Lemma parts_loop_ok hl n l : 0 <= hl -> Forall (proper n) l -> forall r len, req_ok r -> content_length_n (h_out r) = n -> 0 <= len -> len + parts_size hl n l < 2 ^ 63 ->
  exists x r1, parts_loop l hl len r = Ok (x, r1) /\ req_ok r1 /\ (exists pl o, r1 = r <| r_pool := pl |> <| r_mem := o |>) /\
    match x with Some y => y = (map (with_text n) l, len + parts_size hl n l) | None => True end.
Proof.
  intros Hh HF. induction HF as [|rg l Hp HF IH]; intros r len Hok Hn Hl Hb; cbn [parts_loop].
  { exists (Some ([], len)), r. split; [done|]. split; [done|]. split; [exists (r_pool r), (r_mem r); by destruct r|]. cbn. by rewrite Z.add_0_r. }
  destruct (room_for_spec (3 * NGX_OFF_T_LEN + 2 + 4) r Hok) as (ok & r1 & -> & Hok1 & pl & o & E1). rewrite obind_Ok.
  destruct ok; [cbn [negb]|exists None, r1; split; [done|]; split; [done|]; split; [by exists pl, o|done]].
  assert (En : content_length_n (h_out r1) = n) by (by rewrite E1). rewrite En. cbv zeta.
  rewrite (print_into_ok _ _ _ (range_text rg n ++ CRLF ++ CRLF)), obind_Ok; [|by apply sprintf_range|].
  2: { pose proof (range_text_length rg n Hp). unfold blen, NGX_OFF_T_LEN in *. rewrite !length_app. change (length CRLF) with 2%nat. lia. }
  cbn [map parts_size content_range with_text] in *. pose proof (parts_size_pos hl n l Hh HF) as Hpos.
  assert (Hblen : 0 <= blen (range_text rg n ++ CRLF ++ CRLF)) by (unfold blen; lia). destruct Hp as (Hs & He & Hn').
  rewrite (u64_small (end_ rg - start rg)), u64_small by lia.
  destruct (IH r1 (len + hl + blen (range_text rg n ++ CRLF ++ CRLF) + (end_ rg - start rg)) Hok1 En) as (x & r2 & -> & Hok2 & (pl2 & o2 & E2) & Hx); [lia|lia|].
  rewrite obind_Ok. destruct x as [y|].
  - subst y. eexists (Some _), r2. split; [reflexivity|]. split; [done|]. split; [exists pl2, o2; by rewrite E2, E1|]. f_equal. lia.
  - exists None, r2. split; [done|]. split; [done|]. split; [exists pl2, o2; by rewrite E2, E1|done].
Qed.

(** The next filters are called with the length of the parts and the closing
    boundary, or the memory runs out. *)
Lemma multipart_header_ok next c r n : content_length_n (h_out r) = n -> Forall (proper n) (ranges c) -> req_ok r ->
  let b := u64 (temp_number r + 1) in
  let bh := part_text b (content_type (h_out r)) (charset (h_out r)) in
  28 + parts_size (blen bh) n (ranges c) < 2 ^ 63 ->
  exists rc r1, ngx_http_range_multipart_header next c r = (if rc =? NGX_OK then next r1 else Ok (NGX_ERROR, r1)) /\
    (rc = NGX_OK -> content_length_n (h_out r1) = 28 + parts_size (blen bh) n (ranges c) /\ content_type (h_out r1) = bs "multipart/byteranges; boundary=" ++ boundary_text b /\
      r_ctx r1 = Some (mk_ctx (offset c) bh (map (with_text n) (ranges c)))).
Proof.
  intros Hn HF Hok b bh Hsize. unfold ngx_http_range_multipart_header. cbv zeta.
  assert (Hb : 0 <= b < 2 ^ 64) by (apply Z.mod_pos_bound; lia).
  match goal with |- context [room_for ?x r] => destruct (room_for_spec x r Hok) as (ok & r1 & -> & Hok1 & pl & o & E1) end. rewrite obind_Ok.
  destruct ok; [cbn [negb]|by exists NGX_ERROR, r1]. unfold ngx_next_temp_number.
  assert (Eb : u64 (temp_number r1 + 1) = b) by (by rewrite E1). rewrite Eb. assert (Hh : h_out r1 = h_out r) by (by rewrite E1).
  assert (E63 : forall x y : Z, 4 + Z.of_nat NGX_ATOMIC_T_LEN + 16 + x + 23 + y = 63 + x + y) by (intros x y; unfold NGX_ATOMIC_T_LEN; lia).
  assert (Et : forall x (y : req), h_out (y <| temp_number := x |>) = h_out y) by done.
  rewrite Et, Hh, E63, (part_header_ok b (h_out r) Hb), obind_Ok. fold bh.
  set (h2 := if (length (charset (h_out r)) =? 0)%nat then _ else _).
  assert (Hh2 : headers h2 = headers (h_out r) /\ content_length h2 = content_length (h_out r) /\ content_length_n h2 = n) by (unfold h2; by destruct (_ =? 0)%nat).
  destruct Hh2 as (Hd2 & Hcl2 & Hn2). set (r2 := r1 <| temp_number := b |> <| h_out := h2 |>).
  assert (Hok2 : req_ok r2). { destruct Hok1 as (H1 & H2 & H3). rewrite Hh in *. unfold req_ok, r2. cbn. by rewrite Hd2, Hcl2. }
  match goal with |- context [room_for ?x r2] => destruct (room_for_spec x r2 Hok2) as (ok & r3 & -> & Hok3 & pl3 & o3 & E3) end. rewrite obind_Ok.
  destruct ok; [cbn [negb]|by eexists NGX_ERROR, _].
  rewrite (print_into_ok _ _ _ (bs "multipart/byteranges; boundary=" ++ boundary_text b)), obind_Ok.
  2: { change (bs "multipart/byteranges; boundary=%0muA") with (bs "multipart/byteranges; boundary=" ++ [37; 48; 109; 117; 65]).
       rewrite sprintf_text, sprintf_0muA, sprintf_nil by (done || lia). cbn [obind]. by rewrite app_nil_r. }
  2: { unfold blen. rewrite length_app, (boundary_length b Hb). unfold NGX_ATOMIC_T_LEN. cbn. lia. }
  set (ct := bs "multipart/byteranges; boundary=" ++ _). set (r4 := r3 <| h_out := _ |>). change (4 + Z.of_nat NGX_ATOMIC_T_LEN + 4) with 28.
  assert (Hr4 : content_length_n (h_out r4) = n /\ req_ok r4) by (unfold r4; rewrite E3 in *; done). destruct Hr4 as [Hn4 Hok4].
  cbn [ranges]. change (ranges (c <| boundary_header := bh |>)) with (ranges c).
  destruct (parts_loop_ok (blen bh) n (ranges c) ltac:(unfold blen; lia) HF r4 28 Hok4 Hn4 ltac:(lia) Hsize) as (x & r5 & -> & Hok5 & (pl5 & o5 & E5) & Hx).
  rewrite obind_Ok. destruct x as [[l len]|]; [|by eexists NGX_ERROR, _]. injection Hx as -> ->.
  eexists NGX_OK, _. split; [reflexivity|]. intros _. set (h6 := _ <| content_length_n := _ |>).
  pose proof (parts_size_pos (blen bh) n (ranges c) ltac:(unfold blen; lia) HF). destruct (drop_content_length_spec h6) as (E & _ & _).
  assert (Hset : forall x (y : req), h_out (y <| h_out := x |>) = x) by done. rewrite Hset, E. split; [exact (i64_small (28 + parts_size (blen bh) n (ranges c)) ltac:(unfold INT64_MAX; lia))|].
  split; [|by rewrite E5]. transitivity (content_type (h_out r5)); [|by rewrite E5]. unfold drop_content_length. by destruct (content_length h6).
Qed.
End Header.
