(* ===== verification/NgxRangeBody.v ===== *)
(** * Properties of the body of a range response

    What the body filter passes on is the announced part of the content, whatever
    buffers the content arrives in. *)
From stdpp Require Import gmap list.
From S2P Require Import Prelude NgxString NgxStrUtil NgxPrintf NginxProps NgxRange NgxRangeProps NgxHeaders.
#[local] Open Scope Z_scope.
Import Printf Buf Range.

Section Content.
(** The bytes in memory and in the files. *)
Context (mem : Z -> Z) (files : Z -> Z -> Z).

Definition bytes_at (f : Z -> Z) (a b : Z) : bytes := map f (seqZ a (b - a)).

Lemma bytes_at_length f a b : a <= b -> Z.of_nat (length (bytes_at f a b)) = b - a.
Proof. intros H. unfold bytes_at. rewrite length_map, length_seqZ. lia. Qed.

Lemma bytes_at_app f a c b : a <= c <= b -> bytes_at f a b = bytes_at f a c ++ bytes_at f c b.
Proof.
  intros H. unfold bytes_at. rewrite <- map_app. f_equal. replace (b - a) with ((c - a) + (b - c)) by lia. rewrite seqZ_app by lia. do 2 f_equal. lia.
Qed.

Lemma bytes_at_drop f a b n : 0 <= n <= b - a -> bytes_at f (a + n) b = drop (Z.to_nat n) (bytes_at f a b).
Proof.
  intros H. rewrite (bytes_at_app f a (a + n) b) by lia. rewrite drop_app_length'; [done|]. pose proof (bytes_at_length f a (a + n) ltac:(lia)). lia.
Qed.
Lemma bytes_at_take f a b n : 0 <= n <= b - a -> bytes_at f a (b - n) = take (Z.to_nat (b - a - n)) (bytes_at f a b).
Proof.
  intros H. rewrite (bytes_at_app f a (b - n) b) by lia. rewrite take_app_length'; [done|]. pose proof (bytes_at_length f a (b - n) ltac:(lia)). lia.
Qed.

(** The bytes of a buffer. *)
Definition data (b : ngx_buf) : bytes :=
  if ngx_buf_in_memory b then bytes_at mem (pos b) (last b) else if in_file b then bytes_at (files (file b)) (file_pos b) (file_last b) else [].

Definition wf (b : ngx_buf) : Prop :=
  (if ngx_buf_in_memory b then pos b <= last b /\ (in_file b = true -> file_last b - file_pos b = last b - pos b)
   else if in_file b then file_pos b <= file_last b else file_pos b = file_last b) /\
  (0 <= file_pos b < 2 ^ 62 /\ 0 <= file_last b < 2 ^ 62).

Lemma size_data b : wf b -> ngx_buf_size b = Z.of_nat (length (data b)).
Proof.
  intros [H (Hf & Hl)]. unfold ngx_buf_size, data. destruct (ngx_buf_in_memory b); [rewrite bytes_at_length; lia|].
  rewrite i64_small by (unfold INT64_MAX; lia). destruct (in_file b); [rewrite bytes_at_length; lia|]. cbn. lia.
Qed.

Ltac buf_cases b := destruct b as [p l fp fl s e t fi tm me mm inf fs sy lb];
  unfold skip_front, skip_back, data, wf, ngx_buf_size, ngx_buf_in_memory in *; cbn [pos last file_pos file_last Buf.start Buf.end_ tag file temporary memory mmap in_file flush sync last_buf] in *;
  destruct tm, me, mm, inf; cbn in *.

Lemma data_front n b : wf b -> 0 <= n <= ngx_buf_size b -> data (skip_front n b) = drop (Z.to_nat n) (data b) /\ wf (skip_front n b) /\
  ngx_buf_size (skip_front n b) = ngx_buf_size b - n.
Proof.
  intros Hw Hn. assert (Hs : forall x, 0 <= x < 2 ^ 62 -> i64 x = x) by (intros x Hx; apply i64_small; unfold INT64_MAX; lia).
  buf_cases b; repeat match goal with H : _ /\ _ |- _ => destruct H | H : true = true -> _ |- _ => specialize (H eq_refl) end; try rewrite (Hs (fl - fp)) in * by lia;
    rewrite ?(Hs (fp + n)), ?(Hs (fl - (fp + n))) by lia.
  all: split_and!; first [apply bytes_at_drop; lia|by rewrite drop_nil|lia|done].
Qed.

Lemma data_back n b : wf b -> 0 <= n <= ngx_buf_size b -> data (skip_back n b) = take (Z.to_nat (ngx_buf_size b - n)) (data b) /\ wf (skip_back n b).
Proof.
  intros Hw Hn. assert (Hs : forall x, 0 <= x < 2 ^ 62 -> i64 x = x) by (intros x Hx; apply i64_small; unfold INT64_MAX; lia).
  buf_cases b; repeat match goal with H : _ /\ _ |- _ => destruct H | H : true = true -> _ |- _ => specialize (H eq_refl) end; try rewrite (Hs (fl - fp)) in * by lia;
    rewrite ?(Hs (fl - n)), ?(Hs (fl - fp)) by lia.
  all: split_and!; first [apply bytes_at_take; lia|by rewrite take_nil|lia|done].
Qed.

Lemma data_all b : data (skip_all b) = [].
Proof.
  assert (H : forall f x, bytes_at f x x = []) by (intros f x; unfold bytes_at; by rewrite Z.sub_diag).
  unfold skip_all. buf_cases b; try apply H; done.
Qed.

(** ** Slices *)

(** The bytes from [s] to [e] of a content of which [D] begins at [off]. *)
Definition slice (s e off : Z) (D : bytes) : bytes := drop (Z.to_nat (s - off)) (take (Z.to_nat (e - off)) D).

Lemma slice_app s e off A B : slice s e off (A ++ B) = slice s e off A ++ slice s e (off + Z.of_nat (length A)) B.
Proof.
  unfold slice. rewrite take_app, drop_app. f_equal. rewrite length_take.
  replace (Z.to_nat (e - (off + Z.of_nat (length A)))) with (Z.to_nat (e - off) - length A)%nat by lia.
  replace (Z.to_nat (s - (off + Z.of_nat (length A)))) with (Z.to_nat (s - off) - length A)%nat by lia.
  destruct (Nat.le_ge_cases (Z.to_nat (e - off)) (length A)) as [H|H].
  - replace (Z.to_nat (e - off) - length A)%nat with 0%nat by lia. by rewrite take_0, !drop_nil.
  - by rewrite Nat.min_r.
Qed.

Lemma slice_outside s e off D : e <= off \/ off + Z.of_nat (length D) <= s -> slice s e off D = [].
Proof.
  unfold slice. intros [H|H]; [replace (Z.to_nat (e - off)) with 0%nat by lia; by rewrite take_0, drop_nil|]. apply drop_ge. rewrite length_take. lia.
Qed.

Lemma slice_nil s e off : slice s e off [] = [].
Proof. unfold slice. by rewrite take_nil, drop_nil. Qed.

(** ** Chains *)

Context {Osm : OSMem}.
Implicit Types (h : heap).

(** The links [L] lead from [p] to [e]. *)
Fixpoint segto h (L : list Z) (p e : Z) : Prop :=
  match L with [] => p = e | a :: L' => p = a /\ a <> 0 /\ exists b n, links h !! a = Some (b, n) /\ segto h L' n e end.

Definition addr_of h (a : Z) : option Z := fst <$> links h !! a.
Definition buf_of h (a : Z) : option ngx_buf := match addr_of h a with Some p => if p =? 0 then None else bufs h !! p | None => None end.
Definition data_of h (a : Z) : bytes := match buf_of h a with Some b => data b | None => [] end.
Definition chain_data h (L : list Z) : bytes := concat (map (data_of h) L).

Lemma segto_app h A B : forall p e, segto h (A ++ B) p e <-> exists m, segto h A p m /\ segto h B m e.
Proof.
  induction A as [|a A IH]; intros p e; cbn.
  - split; [intros H; by exists p|intros (m & -> & H); done].
  - split.
    + intros (-> & Ha & b & n & E & H). apply IH in H as (m & H1 & H2). exists m. split; [|done]. split; [done|]. split; [done|]. by exists b, n.
    + intros (m & (-> & Ha & b & n & E & H1) & H2). split; [done|]. split; [done|]. exists b, n. split; [done|]. apply IH. by exists m.
Qed.

Lemma segto_ext h h' L : forall p e, (forall a, a ∈ L -> links h' !! a = links h !! a) -> segto h L p e -> segto h' L p e.
Proof.
  induction L as [|a L IH]; intros p e H; [done|]. intros (-> & Ha & b & n & E & Hs). split; [done|]. split; [done|]. exists b, n.
  split; [by rewrite H by (by left)|]. apply IH; [|done]. intros x Hx. apply H. by right.
Qed.

Lemma chain_data_ext h h' L : (forall a, a ∈ L -> data_of h' a = data_of h a) -> chain_data h' L = chain_data h L.
Proof.
  intros H. unfold chain_data. f_equal. apply map_ext_in. intros a Ha. apply H. by apply list_elem_of_In.
Qed.
Lemma chain_data_app h A B : chain_data h (A ++ B) = chain_data h A ++ chain_data h B.
Proof. unfold chain_data. by rewrite map_app, concat_app. Qed.

(** Changing a link but for its [next], and changing the buffer of one link. *)
Lemma data_of_set_link h q b n n' a : links h !! q = Some (b, n) -> data_of (set_link q b n' h) a = data_of h a.
Proof.
  intros Hq. unfold data_of, buf_of, addr_of, set_link. cbn. destruct (decide (a = q)) as [->|Hne]; [|by rewrite lookup_insert_ne].
  by rewrite lookup_insert_eq, Hq.
Qed.
Lemma data_of_set_buf h p b a : addr_of h a <> Some p -> data_of (set_buf p b h) a = data_of h a.
Proof.
  intros Ha. unfold data_of, buf_of, addr_of, set_buf in *. cbn. destruct (links h !! a) as [[x n]|]; [|done]. cbn in *. destruct (x =? 0); [done|].
  rewrite lookup_insert_ne; [done|]. congruence.
Qed.
Lemma data_of_set_buf_eq h p b n a : links h !! a = Some (p, n) -> p <> 0 -> data_of (set_buf p b h) a = data b.
Proof.
  intros Ha Hp. unfold data_of, buf_of, addr_of, set_buf. cbn. rewrite Ha. cbn. rewrite (proj2 (Z.eqb_neq p 0)) by done. by rewrite lookup_insert_eq.
Qed.

(** Where the output chain ends: nothing is output, or the last link [q] of the
    output still leads over skipped links to the next input link. *)
Definition at_hole h (O S : list Z) (cl out_ : Z) (ll : place) : Prop :=
  (O = [] /\ out_ = 0 /\ ll = Var) \/
  (exists O' q b n, O = O' ++ [q] /\ ll = Next q /\ segto h O' out_ q /\ q <> 0 /\ links h !! q = Some (b, n) /\ segto h S n cl).

(** [*ll = cl]: the output leads to [cl]. *)
Lemma store_spec h O S cl out_ ll : at_hole h O S cl out_ ll -> NoDup O -> exists out1 h1, store ll cl out_ h = Ok (out1, h1) /\ bufs h1 = bufs h /\
  segto h1 O out1 cl /\ (forall a, a ∉ O -> links h1 !! a = links h !! a) /\ (forall a, addr_of h1 a = addr_of h a) /\ (forall a, data_of h1 a = data_of h a).
Proof.
  intros [(-> & -> & ->)|(O' & q & b & n & -> & -> & Hseg & Hq & Eq & _)] Hnd.
  { exists cl, h. by split_and!. }
  cbn [store]. unfold set_next, link_at. rewrite (proj2 (Z.eqb_neq q 0)) by done. rewrite Eq, !obind_Ok. exists out_, (set_link q b cl h).
  apply NoDup_app in Hnd as (_ & Hnd & _). split; [done|]. split; [done|]. split; [|split; [|split]].
  - apply segto_app. exists q. split.
    + eapply segto_ext; [|exact Hseg]. intros a Ha. cbn. rewrite lookup_insert_ne; [done|]. intros ->. apply (Hnd a Ha). by left.
    + cbn. split; [done|]. split; [done|]. exists b, cl. by rewrite lookup_insert_eq.
  - intros a Ha. cbn. rewrite lookup_insert_ne; [done|]. intros ->. apply Ha. apply elem_of_app. by right; left.
  - intros a. unfold addr_of. cbn. destruct (decide (a = q)) as [->|Hne]; [by rewrite lookup_insert_eq, Eq|by rewrite lookup_insert_ne].
  - intros a. by eapply data_of_set_link.
Qed.

Definition good h (a : Z) : Prop := exists p n b, links h !! a = Some (p, n) /\ p <> 0 /\ bufs h !! p = Some b /\ wf b.
Definition distinct h (L : list Z) : Prop := forall a a', a ∈ L -> a' ∈ L -> addr_of h a = addr_of h a' -> a = a'.
(** The loop: [O] is output, [S] is skipped behind it, [L] is still to come. *)
Record inv h (O S L : list Z) (cl out_ : Z) (ll : place) : Prop := mk_inv {
  inv_seg : segto h L cl 0; inv_hole : at_hole h O S cl out_ ll; inv_nodup : NoDup (O ++ S ++ L);
  inv_distinct : distinct h (O ++ S ++ L); inv_good : forall a, a ∈ L -> good h a; inv_skipped : chain_data h S = [] }.

Lemma good_set h p b a : addr_of h a <> Some p -> good h a -> good (set_buf p b h) a.
Proof.
  intros Ha (p' & n & b' & E & Hp & Eb & Hw). exists p', n, b'. split; [done|]. split; [done|]. split; [|done]. cbn. rewrite lookup_insert_ne; [done|].
  intros <-. apply Ha. unfold addr_of. by rewrite E.
Qed.

Lemma other_addr h O S a L p n x : distinct h (O ++ S ++ a :: L) -> NoDup (O ++ S ++ a :: L) -> links h !! a = Some (p, n) -> x ∈ O ++ S ++ L -> addr_of h x <> Some p.
Proof.
  intros Hd Hnd Ea Hx Ex. assert (x = a).
  { apply Hd; [|apply elem_of_app; right; apply elem_of_app; by right; left|unfold addr_of at 2; by rewrite Ea, Ex].
    rewrite !elem_of_app, elem_of_cons in *. tauto. }
  subst x. rewrite app_assoc, NoDup_app in Hnd. destruct Hnd as (_ & H1 & H2). apply NoDup_cons in H2 as [H2 _].
  rewrite app_assoc, elem_of_app in Hx. destruct Hx as [Hx|Hx]; [|done]. apply (H1 a Hx). by left.
Qed.

(** A link of the input is output with a new value of its buffer. *)
Lemma emit_spec h O S a L out_ ll p n b' : inv h O S (a :: L) a out_ ll -> links h !! a = Some (p, n) -> p <> 0 ->
  exists out1 h1, store ll a out_ (set_buf p b' h) = Ok (out1, h1) /\ links h1 !! a = Some (p, n) /\ segto h1 O out1 a /\ inv h1 (O ++ [a]) [] L n out1 (Next a) /\
    chain_data h1 (O ++ [a]) = chain_data h O ++ data b' /\ chain_data h1 L = chain_data h L.
Proof.
  intros [Hseg Hhole Hnd Hd Hg Hsk] Ea Hp. destruct Hseg as (_ & Ha0 & b0 & n0 & E0 & Hseg). rewrite Ea in E0. injection E0 as <- <-.
  assert (Hother : forall x, x ∈ O ++ S ++ L -> addr_of h x <> Some p) by (intros x; by eapply other_addr).
  assert (HndO : NoDup O) by by apply NoDup_app in Hnd as (? & _ & _).
  assert (Hhole' : at_hole (set_buf p b' h) O S a out_ ll).
  { destruct Hhole as [?|(O' & q & b & m & ? & ? & H1 & ? & ? & H2)]; [by left|right]. exists O', q, b, m. split_and!; try done; (eapply segto_ext; [|eassumption]; done). }
  destruct (store_spec (set_buf p b' h) O S a out_ ll Hhole' HndO) as (out1 & h1 & Est & Hb & HsO & Hl & Haddr & Hdat).
  assert (HaO : a ∉ O /\ a ∉ L /\ (forall x, x ∈ L -> x ∉ O)).
  { apply NoDup_app in Hnd as (_ & H1 & H2). apply NoDup_app in H2 as (_ & _ & H2). apply NoDup_cons in H2 as [H2 _]. split; [intros H; apply (H1 a H); set_solver|].
    split; [done|]. intros x Hx HxO. apply (H1 x HxO). set_solver. }
  destruct HaO as (HaO & HaL & HLO). exists out1, h1. split; [done|]. assert (El : links h1 !! a = Some (p, n)) by by rewrite Hl. split; [done|]. split; [done|].
  assert (Hdo : forall x, x ∈ O ++ S ++ L -> data_of h1 x = data_of h x) by (intros x Hx; rewrite Hdat; by apply data_of_set_buf, Hother).
  assert (Hda : data_of h1 a = data b') by (rewrite Hdat; by eapply data_of_set_buf_eq).
  split; [|split].
  - assert (Hsub : forall x, x ∈ (O ++ [a]) ++ [] ++ L -> x ∈ O ++ S ++ a :: L) by (intros x; rewrite !elem_of_app, !elem_of_cons, !elem_of_nil; tauto). split.
    + eapply segto_ext; [|exact Hseg]. intros x Hx. by apply Hl, HLO.
    + right. exists O, a, p, n. by split_and!.
    + cbn [app]. rewrite <- app_assoc. cbn [app]. apply NoDup_app in Hnd as (N1 & N2 & N3). apply NoDup_app in N3 as (_ & _ & N3). apply NoDup_app.
      split; [done|]. split; [|done]. intros x Hx Hx'. apply (N2 x Hx). apply elem_of_app. by right.
    + intros x y Hx Hy. rewrite !Haddr. apply Hd; by apply Hsub.
    + intros x Hx. assert (Hgx : good (set_buf p b' h) x) by (apply good_set; [apply Hother; set_solver|apply Hg; by right]).
      destruct Hgx as (p' & n' & b'' & E & ? & ? & ?). exists p', n', b''. rewrite Hl by by apply HLO. rewrite Hb. by split_and!.
    + done.
  - rewrite chain_data_app. f_equal; [apply chain_data_ext; intros x Hx; apply Hdo; set_solver|]. unfold chain_data. cbn. by rewrite app_nil_r.
  - apply chain_data_ext. intros x Hx. apply Hdo. set_solver.
Qed.

Lemma set_buf_same h p b : bufs h !! p = Some b -> set_buf p b h = h.
Proof. intros E. unfold set_buf. destruct h as [bs ls f pl o]. cbn in *. by rewrite insert_id. Qed.
Lemma set_buf_twice h p b b' : set_buf p b' (set_buf p b h) = set_buf p b' h.
Proof. unfold set_buf. destruct h as [bs ls f pl o]. cbn in *. by rewrite insert_insert_eq. Qed.

Lemma special_data b : wf b -> ngx_buf_special b = true -> data b = [] /\ ngx_buf_size b = 0.
Proof.
  intros Hw Hs. assert (E : data b = []).
  { unfold ngx_buf_special in Hs. unfold data. destruct (ngx_buf_in_memory b), (in_file b); rewrite ?andb_false_r in Hs; done. }
  split; [done|]. by rewrite (size_data b Hw), E.
Qed.

(** The input link [a] is skipped. *)
Lemma skip_inv h O S a L out_ ll p n b' : inv h O S (a :: L) a out_ ll -> links h !! a = Some (p, n) -> p <> 0 -> data b' = [] ->
  inv (set_buf p b' h) O (S ++ [a]) L n out_ ll /\ chain_data (set_buf p b' h) O = chain_data h O /\ chain_data (set_buf p b' h) L = chain_data h L.
Proof.
  intros [Hseg Hhole Hnd Hd Hg Hsk] Ea Hp Hb. destruct Hseg as (_ & Ha0 & b0 & n0 & E0 & Hseg). rewrite Ea in E0. injection E0 as <- <-.
  assert (Hother : forall x, x ∈ O ++ S ++ L -> addr_of h x <> Some p) by (intros x; by eapply other_addr).
  assert (Hdo : forall x, x ∈ O ++ S ++ L -> data_of (set_buf p b' h) x = data_of h x) by (intros x Hx; by apply data_of_set_buf, Hother).
  assert (Hc : forall X, (forall x, x ∈ X -> x ∈ O ++ S ++ L) -> chain_data (set_buf p b' h) X = chain_data h X) by (intros X HX; apply chain_data_ext; intros x Hx; by apply Hdo, HX).
  assert (Eq : O ++ (S ++ [a]) ++ L = O ++ S ++ a :: L) by (by rewrite <- (app_assoc S)).
  split; [split|split; apply Hc; set_solver].
  - eapply segto_ext; [|exact Hseg]. done.
  - destruct Hhole as [?|(O' & q & b & m & HO & Hll & H1 & Hq & El & H2)]; [by left|right]. exists O', q, b, m. split_and!; try done.
    + eapply segto_ext; [|exact H1]; done.
    + apply segto_app. exists a. split; [eapply segto_ext; [|exact H2]; done|]. cbn. split; [done|]. split; [done|]. by exists p, n.
  - by rewrite Eq.
  - rewrite Eq. exact Hd.
  - intros x Hx. apply good_set; [apply Hother; set_solver|apply Hg; by right].
  - rewrite chain_data_app, (Hc S) by set_solver. rewrite Hsk. unfold chain_data. cbn. by rewrite (data_of_set_buf_eq h p b' n a Ea Hp), Hb.
Qed.

(** The part of a buffer that is in the range. *)
Lemma part_front s e off b : wf b -> 0 <= off -> off + ngx_buf_size b <= e -> s < off + ngx_buf_size b -> 0 <= s ->
  let b1 := if off <? s then skip_front (s - off) b else b in data b1 = slice s e off (data b) /\ wf b1.
Proof.
  intros Hw Ho He Hs H0 b1. unfold slice. pose proof (size_data b Hw) as Hsz. rewrite (take_ge (data b)) by lia. unfold b1. destruct (off <? s) eqn:E.
  - destruct (data_front (s - off) b Hw ltac:(lia)) as (-> & ? & _). done.
  - replace (Z.to_nat (s - off)) with 0%nat by lia. done.
Qed.
Lemma part_back s e off b : wf b -> 0 <= off -> off < e <= off + ngx_buf_size b -> s <= e -> s < off + ngx_buf_size b -> 0 <= s ->
  let b1 := if off <? s then skip_front (s - off) b else b in
  data ((skip_back (off + ngx_buf_size b - e) b1) <| last_buf := true |>) = slice s e off (data b).
Proof.
  intros Hw Ho He Hse Hs H0 b1. assert (E : forall x, data (x <| last_buf := true |>) = data x) by by intros []. rewrite E. pose proof (size_data b Hw) as Hsz.
  assert (H : wf b1 /\ data b1 = drop (Z.to_nat (s - off)) (data b) /\ ngx_buf_size b1 = ngx_buf_size b - Z.max 0 (s - off)).
  { unfold b1. destruct (off <? s) eqn:El.
    - destruct (data_front (s - off) b Hw ltac:(lia)) as (-> & ? & ->). split_and!; [done|done|lia].
    - replace (Z.to_nat (s - off)) with 0%nat by lia. split_and!; [done|done|lia]. }
  destruct H as (Hw1 & Hd1 & Hs1). destruct (data_back (off + ngx_buf_size b - e) b1 Hw1 ltac:(lia)) as (-> & _). rewrite Hd1, Hs1. unfold slice.
  rewrite take_drop_commute. do 2 f_equal. lia.
Qed.

Lemma good_buf_at h a : good h a -> exists p n b, links h !! a = Some (p, n) /\ p <> 0 /\ buf_at h p = Ok b /\ wf b /\ data_of h a = data b /\ link_at h a = (if a =? 0 then Undef NullDeref else Ok (p, n)).
Proof.
  intros (p & n & b & E & Hp & Eb & Hw). exists p, n, b. unfold buf_at, data_of, buf_of, addr_of, link_at. rewrite E. cbn.
  rewrite (proj2 (Z.eqb_neq p 0)) by done. by rewrite Eb.
Qed.

Lemma finish_spec h O a out1 p n : segto h O out1 a -> links h !! a = Some (p, n) -> a <> 0 -> a ∉ O ->
  exists h2, set_next a 0 h = Ok h2 /\ segto h2 (O ++ [a]) out1 0 /\ chain_data h2 (O ++ [a]) = chain_data h (O ++ [a]).
Proof.
  intros Hs Ea Ha Hn. unfold set_next, link_at. rewrite (proj2 (Z.eqb_neq a 0)) by done. rewrite Ea, obind_Ok. exists (set_link a p 0 h). split; [done|]. split.
  - apply segto_app. exists a. split.
    + eapply segto_ext; [|exact Hs]. intros x Hx. cbn. rewrite lookup_insert_ne; [done|]. by intros ->.
    + cbn. split; [done|]. split; [done|]. exists p, 0. by rewrite lookup_insert_eq.
  - apply chain_data_ext. intros x _. by eapply data_of_set_link.
Qed.

(** ** The loop *)
Lemma singlepart_loop_ok rg L : forall h O S off cl out_ ll fuel, inv h O S L cl out_ ll -> 0 <= off -> 0 <= start rg <= end_ rg ->
  off + Z.of_nat (length (chain_data h L)) < 2 ^ 62 -> (length L < fuel)%nat ->
  exists off' out' h' R, singlepart_loop fuel rg off cl out_ ll h = Ok (off', out', h') /\ segto h' R out' 0 /\
    chain_data h' R = chain_data h O ++ slice (start rg) (end_ rg) off (chain_data h L) /\
    (off' = off + Z.of_nat (length (chain_data h L)) \/ end_ rg <= off' <= off + Z.of_nat (length (chain_data h L))).
Proof.
  induction L as [|a L IH]; intros h O S off cl out_ ll fuel Hi Ho Hr Hlen Hf; (destruct fuel as [|fuel]; [cbn in Hf; lia|]); cbn [singlepart_loop].
  { pose proof (inv_seg _ _ _ _ _ _ _ Hi) as Hs. cbn in Hs. subst cl. rewrite Z.eqb_refl. exists off, out_, h.
    destruct (inv_hole _ _ _ _ _ _ _ Hi) as [(-> & -> & _)|(O' & q & b & n & -> & _ & H1 & Hq & Eq & H2)].
    - exists []. rewrite slice_nil. split_and!; [done|done|done|]. unfold chain_data at 1. cbn. lia.
    - exists ((O' ++ [q]) ++ S). rewrite slice_nil, app_nil_r. split; [done|]. split; [|split; [|unfold chain_data at 1; cbn; lia]].
      + rewrite <- app_assoc. apply segto_app. exists q. split; [done|]. cbn. split; [done|]. split; [done|]. by exists b, n.
      + by rewrite chain_data_app, (inv_skipped _ _ _ _ _ _ _ Hi), app_nil_r. }
  pose proof (inv_seg _ _ _ _ _ _ _ Hi) as (-> & Ha & _). rewrite (proj2 (Z.eqb_neq a 0)) by done.
  destruct (good_buf_at h a (inv_good _ _ _ _ _ _ _ Hi a ltac:(by left))) as (p & n & b & Ea & Hp & Eb & Hw & Ed & El).
  rewrite (proj2 (Z.eqb_neq a 0)) in El by done. rewrite El, obind_Ok. cbn match. rewrite Eb, obind_Ok.
  assert (Hc : chain_data h (a :: L) = data b ++ chain_data h L) by (unfold chain_data; cbn; by rewrite Ed). rewrite Hc in *. rewrite length_app, Nat2Z.inj_add in *.
  pose proof (size_data b Hw) as Hsz. rewrite (i64_small (off + _)) by (unfold INT64_MAX; lia). rewrite slice_app, <- Hsz in *.
  assert (Hset : set_buf p b h = h) by (apply set_buf_same; unfold buf_at in Eb; rewrite (proj2 (Z.eqb_neq p 0)) in Eb by done; destruct (bufs h !! p); [by injection Eb as ->|done]).
  destruct (ngx_buf_special b) eqn:Hsp; [|destruct ((end_ rg <=? off) || (off + ngx_buf_size b <=? start rg)) eqn:Hskip].
  - destruct (special_data b Hw Hsp) as [Hd0 Hz]. destruct (emit_spec h O S a L out_ ll p n b Hi Ea Hp) as (out1 & h1 & Est & Ea1 & _ & Hi1 & HO1 & HL1).
    rewrite Hset in Est. rewrite Est, obind_Ok. cbn match. unfold link_at. rewrite (proj2 (Z.eqb_neq a 0)) by done. rewrite Ea1, obind_Ok. cbn match.
    destruct (IH h1 (O ++ [a]) [] (off + ngx_buf_size b) n out1 (Next a) fuel Hi1) as (off' & out' & h' & R & E & Hs & Hd & Hoff); [lia|done|rewrite HL1; lia|cbn in Hf; lia|].
    exists off', out', h', R. split; [exact E|]. split; [done|]. split; [|rewrite HL1 in Hoff; lia].
    rewrite Hd, HO1, HL1, Hd0, slice_nil, app_nil_r. done.
  - destruct (skip_inv h O S a L out_ ll p n (skip_all b) Hi Ea Hp (data_all b)) as (Hi1 & HO1 & HL1).
    destruct (IH _ _ _ (off + ngx_buf_size b) n out_ ll fuel Hi1) as (off' & out' & h' & R & E & Hs & Hd & Hoff); [lia|done|rewrite HL1; lia|cbn in Hf; lia|].
    exists off', out', h', R. split; [exact E|]. split; [done|]. split; [|rewrite HL1 in Hoff; lia].
    rewrite Hd, HO1, HL1, (slice_outside _ _ off (data b)) by lia. done.
  - rewrite orb_false_iff, !Z.leb_gt in Hskip. rewrite set_buf_twice. destruct (end_ rg <=? off + ngx_buf_size b) eqn:Hend.
    + match goal with |- context [set_buf p ?x h] => destruct (emit_spec h O S a L out_ ll p n x Hi Ea Hp) as (out1 & h1 & Est & Ea1 & Hs1 & Hi1 & HO1 & HL1) end.
      rewrite Est, obind_Ok. cbn match. destruct (finish_spec h1 O a out1 p n Hs1 Ea1 Ha) as (h2 & E2 & Hs2 & Hd2).
      { pose proof (inv_nodup _ _ _ _ _ _ _ Hi) as Hnd. apply NoDup_app in Hnd as (_ & H & _). intros HO. apply (H a HO). set_solver. }
      rewrite E2, obind_Ok. exists (off + ngx_buf_size b), out1, h2, (O ++ [a]). split; [done|]. split; [done|]. split; [|lia].
      rewrite Hd2, HO1, (slice_outside _ _ (off + ngx_buf_size b)), app_nil_r by lia. f_equal. apply part_back; [done|lia..].
    + match goal with |- context [set_buf p ?x h] => destruct (emit_spec h O S a L out_ ll p n x Hi Ea Hp) as (out1 & h1 & Est & Ea1 & _ & Hi1 & HO1 & HL1) end.
      rewrite Est, obind_Ok. cbn match. unfold link_at. rewrite (proj2 (Z.eqb_neq a 0)) by done. rewrite Ea1, obind_Ok. cbn match.
      destruct (IH h1 (O ++ [a]) [] (off + ngx_buf_size b) n out1 (Next a) fuel Hi1) as (off' & out' & h' & R & E & Hs & Hd & Hoff); [lia|done|rewrite HL1; lia|cbn in Hf; lia|].
      exists off', out', h', R. split; [exact E|]. split; [done|]. split; [|rewrite HL1 in Hoff; lia].
      rewrite Hd, HO1, HL1, <- app_assoc. do 2 f_equal. apply part_front; [done|lia..].
Qed.

(** ** The calls of the filter *)

(** One call of the body filter per chain, each with the memory as the next
    filters have left it. *)
Fixpoint serve (fuel : nat) (c : ctx) (ins : list (heap * Z)) : out (list (heap * pass) * ctx) :=
  match ins with
  | [] => Ok ([], c)
  | (h, inp) :: ins' =>
      let! (x, c1, h1) := ngx_http_range_body_filter fuel (Some c) inp h in
      let p := match x with Single p => p | _ => Call inp end in
      match c1 with
      | None => Undef BadPointer
      | Some c1 => let! (l, c2) := serve fuel c1 ins' in Ok ((h1, p) :: l, c2)
      end
  end.

(** A chain that comes in, with its bytes, and what goes out. *)
Definition comes_in (fuel : nat) (x : heap * Z) (D : bytes) : Prop :=
  exists L, segto (fst x) L (snd x) 0 /\ L <> [] /\ NoDup L /\ distinct (fst x) L /\ (forall a, a ∈ L -> good (fst x) a) /\ chain_data (fst x) L = D /\ (length L < fuel)%nat.
Definition goes_out (x : heap * pass) (D : bytes) : Prop :=
  match snd x with Return rc => rc = NGX_OK /\ D = [] | Call p => p <> 0 /\ exists R, segto (fst x) R p 0 /\ chain_data (fst x) R = D end.

Lemma single_call fuel c rg h inp D : ranges c = [rg] -> comes_in fuel (h, inp) D -> 0 <= offset c -> 0 <= start rg <= end_ rg -> offset c + blen D < 2 ^ 62 ->
  exists c1 h1 p, ngx_http_range_body_filter fuel (Some c) inp h = Ok (Single p, Some c1, h1) /\ ranges c1 = [rg] /\
    goes_out (h1, p) (slice (start rg) (end_ rg) (offset c) D) /\ (offset c1 = offset c + blen D \/ end_ rg <= offset c1 <= offset c + blen D).
Proof.
  intros Hc (L & Hs & Hne & Hnd & Hd & Hg & HD & Hf) Ho Hr Hlen. cbn [fst snd] in *. unfold ngx_http_range_body_filter.
  assert (Hz : inp <> 0) by (destruct L as [|a L]; [done|]; destruct Hs as (-> & ? & _); done). rewrite (proj2 (Z.eqb_neq inp 0)) by done.
  rewrite Hc. cbn [length Nat.eqb]. unfold ngx_http_range_singlepart_body. rewrite Hc.
  destruct (singlepart_loop_ok rg L h [] [] (offset c) inp 0 Var fuel) as (off' & out' & h' & R & E & HsR & HdR & Hoff).
  { split; [done|by left|done|done|done|done]. }
  { done. } { done. } { rewrite HD. unfold blen in Hlen. done. } { done. }
  rewrite E, obind_Ok. cbn match. cbn [obind]. rewrite HD in HdR, Hoff. unfold chain_data at 2 in HdR. cbn [map concat app] in HdR.
  eexists _, _, _. split; [reflexivity|]. split; [by destruct c|]. unfold goes_out. cbn [fst snd]. split; [|destruct c; exact Hoff].
  destruct (out' =? 0) eqn:Eo.
  - apply Z.eqb_eq in Eo as ->. split; [done|]. destruct R as [|a R]; [by rewrite <- HdR|]. cbn in HsR. destruct HsR as (<- & ? & _). done.
  - apply Z.eqb_neq in Eo. split; [done|]. by exists R.
Qed.

(** The part of each chain that is in the range, when [before] bytes have come in. *)
Fixpoint slices (s e before : Z) (Ds : list bytes) : list bytes :=
  match Ds with [] => [] | D :: Ds' => slice s e before D :: slices s e (before + blen D) Ds' end.
Lemma slices_concat s e Ds : forall before, concat (slices s e before Ds) = slice s e before (concat Ds).
Proof. induction Ds as [|D Ds IH]; intros n; cbn; [by rewrite slice_nil|]. rewrite slice_app. f_equal. apply IH. Qed.

Lemma serve_ok fuel rg ins Ds : Forall2 (comes_in fuel) ins Ds -> 0 <= start rg <= end_ rg -> forall before c, ranges c = [rg] -> 0 <= offset c -> 
  (offset c = before \/ end_ rg <= offset c <= before) -> before + blen (concat Ds) < 2 ^ 62 ->
  exists outs c', serve fuel c ins = Ok (outs, c') /\ Forall2 goes_out outs (slices (start rg) (end_ rg) before Ds).
Proof.
  intros HF Hr. induction HF as [|[h inp] D ins Ds Hin HF IH]; intros before c Hc H0 Ho Hlen; cbn [serve slices].
  { exists [], c. by split. }
  cbn [concat] in Hlen. unfold blen in *. rewrite length_app in Hlen.
  destruct (single_call fuel c rg h inp D Hc Hin H0 Hr ltac:(unfold blen; lia)) as (c1 & h1 & p & E & Hc1 & Hout & Hoff). unfold blen in Hoff. rewrite E, obind_Ok. cbn match.
  destruct (IH (before + Z.of_nat (length D)) c1 Hc1) as (outs & c' & E' & HF'); [lia|lia|lia|]. rewrite E', obind_Ok. exists ((h1, p) :: outs), c'. split; [done|].
  constructor; [|done]. destruct Ho as [<-|Ho]; [done|]. rewrite slice_outside in Hout by lia. by rewrite slice_outside by lia.
Qed.

(** ** Several parts *)

Definition piece_data (p : piece) : bytes := match p with Text s _ _ => s | Data b => data b end.

Lemma data_buf_data rg b : wf b -> 0 <= start rg < end_ rg -> end_ rg <= ngx_buf_size b -> end_ rg < 2 ^ 62 ->
  data (data_buf rg b) = slice (start rg) (end_ rg) 0 (data b).
Proof.
  intros Hw Hs He Hm. destruct rg as [rs re cr]. cbn [start end_] in *. unfold slice. rewrite !Z.sub_0_r.
  assert (Hcut : forall f x y, x <= y -> re <= y - x -> bytes_at f (x + rs) (x + re) = drop (Z.to_nat rs) (take (Z.to_nat re) (bytes_at f x y))).
  { intros f x y Hxy Hey. replace (x + re) with (y - (y - x - re)) by lia. rewrite bytes_at_drop, bytes_at_take by lia. do 3 f_equal. lia. }
  assert (Hi : forall x, 0 <= x < 2 ^ 63 -> i64 x = x) by (intros x Hx; apply i64_small; unfold INT64_MAX; lia).
  unfold data_buf. cbn [start end_]. buf_cases b; repeat match goal with H : _ /\ _ |- _ => destruct H | H : true = true -> _ |- _ => specialize (H eq_refl) end;
    try rewrite (Hi (fl - fp)) in * by lia; rewrite ?(u64_small rs), ?(u64_small re), ?(Hi (fp + rs)), ?(Hi (fp + re)) by lia; try (apply Hcut; lia); lia.
Qed.

Definition free_ok h : Prop := (exists F, segto h F (free_links h) 0) /\ sizeof_pool_large_t <= p_max (h_pool h).

Lemma calloc_buf_ok h : free_ok h -> exists b h1, ngx_calloc_buf h = Ok (b, h1) /\ free_ok h1.
Proof.
  intros [(F & HF) Hp]. unfold ngx_calloc_buf, palloc. destruct (palloc_max (h_pool h) sizeof_buf (h_mem h) Hp) as (x & pl & o & -> & Hm). cbn [obind].
  destruct x as [p|]; (do 2 eexists; split; [reflexivity|]; split; [exists F; eapply segto_ext; [|exact HF]; done|cbn; lia]).
Qed.
Lemma alloc_link_ok h : free_ok h -> exists b h1, ngx_alloc_chain_link h = Ok (b, h1) /\ free_ok h1.
Proof.
  intros [(F & HF) Hp]. unfold ngx_alloc_chain_link. destruct (Z.eqb_spec (free_links h) 0) as [Hz|Hz]; cbn [negb].
  - unfold palloc. destruct (palloc_max (h_pool h) sizeof_chain (h_mem h) Hp) as (x & pl & o & -> & Hm). cbn [obind].
    destruct x as [p|]; (do 2 eexists; split; [reflexivity|]; split; [by exists []|cbn; lia]).
  - destruct F as [|a F]; [done|]. destruct HF as (-> & Ha & b & n & E & HF). unfold link_at. rewrite (proj2 (Z.eqb_neq a 0)) by done. rewrite E, obind_Ok.
    do 2 eexists. split; [reflexivity|]. split; [|done]. exists F. eapply segto_ext; [|exact HF]. done.
Qed.
Lemma new_link_ok h : free_ok h -> exists ok h1, new_link h = Ok (ok, h1) /\ free_ok h1.
Proof.
  intros Hf. unfold new_link. destruct (calloc_buf_ok h Hf) as (b & h1 & -> & Hf1). rewrite obind_Ok. destruct (b =? 0); [by exists false, h1|].
  destruct (alloc_link_ok h1 Hf1) as (cl & h2 & -> & Hf2). rewrite obind_Ok. by eexists _, h2.
Qed.

(** What the parts are to be. *)
Definition parts_text (bh D : bytes) (l : list range) : bytes :=
  concat (map (fun rg => bh ++ content_range rg ++ slice (start rg) (end_ rg) 0 D) l).

Lemma parts_text_eq bh D n l : parts_text bh D (map (with_text n) l) =
  concat (map (fun rg => bh ++ range_text rg n ++ CRLF ++ CRLF ++ drop (Z.to_nat (start rg)) (take (Z.to_nat (end_ rg)) D)) l).
Proof.
  unfold parts_text. f_equal. rewrite map_map. apply map_ext. intros rg. unfold with_text, slice. cbn [content_range start end_]. by rewrite !Z.sub_0_r, <- !app_assoc.
Qed.
Lemma parts_text_length bh D n l : blen D = n -> Forall (proper n) l -> blen (parts_text bh D (map (with_text n) l)) = parts_size (blen bh) n l.
Proof.
  intros HD HF. unfold parts_text. induction HF as [|rg l (Hs & He & _) HF IH]; [done|]. cbn [map concat parts_size]. unfold slice, blen in *. cbn [with_text start end_].
  rewrite length_app, Nat2Z.inj_add, IH, !length_app, length_drop, length_take. cbn [with_text content_range]. lia.
Qed.

Lemma multipart_loop_ok bh b l : wf b -> Forall (fun rg => 0 <= start rg < end_ rg /\ end_ rg <= ngx_buf_size b /\ end_ rg < 2 ^ 62) l -> forall h, free_ok h ->
  exists x h1, multipart_loop bh b l h = Ok (x, h1) /\ free_ok h1 /\ match x with Some ps => concat (map piece_data ps) = parts_text bh (data b) l | None => True end.
Proof.
  intros Hw HF. induction HF as [|rg l (Hs & He & Hm) HF IH]; intros h Hf; cbn [multipart_loop].
  { exists (Some []), h. by split_and!. }
  do 3 (match goal with |- context [new_link ?h] => destruct (new_link_ok h) as (? & ? & -> & ?); [done|] end; rewrite obind_Ok;
    match goal with |- context [negb ?ok] => destruct ok; [cbn [negb]|by eexists None, _] end).
  match goal with H : free_ok ?h |- context [multipart_loop bh b l ?h] => destruct (IH h H) as (x & h1 & -> & Hf1 & Hx) end. rewrite obind_Ok.
  destruct x as [ps|]; [|by exists None, h1]. eexists (Some _), h1. split; [reflexivity|]. split; [done|]. cbn [map concat piece_data]. rewrite Hx.
  unfold parts_text. cbn [map concat]. rewrite <- !app_assoc. by rewrite data_buf_data.
Qed.

Lemma multi_call fuel c h inp p n b : (length (ranges c) <> 1)%nat -> offset c = 0 -> inp <> 0 -> link_at h inp = Ok (p, n) -> buf_at h p = Ok b -> wf b ->
  ngx_buf_special b = false -> Forall (fun rg => 0 <= start rg < end_ rg /\ end_ rg <= ngx_buf_size b /\ end_ rg < 2 ^ 62) (ranges c) -> free_ok h ->
  0 <= ngx_buf_size b < 2 ^ 62 -> (4 + NGX_ATOMIC_T_LEN <= length (boundary_header c))%nat ->
  exists x c1 h1, ngx_http_range_body_filter fuel (Some c) inp h = Ok (Multi x, Some c1, h1) /\
    match x with
    | Some ps => concat (map piece_data ps) = parts_text (boundary_header c) (data b) (ranges c) ++ take (4 + NGX_ATOMIC_T_LEN) (boundary_header c) ++ bs "--" ++ CRLF
    | None => True
    end.
Proof.
  intros Hlen Ho Hinp El Eb Hw Hsp HF Hf Hsz Hbh. unfold ngx_http_range_body_filter. rewrite (proj2 (Z.eqb_neq inp 0)), (proj2 (Nat.eqb_neq _ _) Hlen) by done.
  rewrite El, obind_Ok. cbn match. rewrite Eb, obind_Ok, Hsp. unfold ngx_http_range_test_overlapped. rewrite Ho. cbn [Z.eqb negb].
  assert (Hex : existsb (fun rg => (start rg <? 0) || (i64 (0 + ngx_buf_size b) <? end_ rg)) (ranges c) = false).
  { rewrite i64_small by (unfold INT64_MAX; lia). clear -HF. induction HF as [|rg l (? & ? & _) HF IH]; [done|]. cbn [existsb]. rewrite IH, orb_false_r. apply orb_false_iff. lia. }
  rewrite Hex, andb_false_r. change (negb (NGX_OK =? NGX_OK)) with false. cbn match. unfold ngx_http_range_multipart_body.
  change (ranges (c <| offset := ngx_buf_size b |>)) with (ranges c). change (boundary_header (c <| offset := ngx_buf_size b |>)) with (boundary_header c).
  destruct (multipart_loop_ok (boundary_header c) b (ranges c) Hw HF h Hf) as (x & h1 & -> & Hf1 & Hx). rewrite obind_Ok. destruct x as [ps|]; [|by eexists None, _, _].
  destruct (calloc_buf_ok h1 Hf1) as (q & h2 & -> & Hf2). rewrite obind_Ok. destruct (q =? 0); [by eexists None, _, _|]. destruct Hf2 as [HF2 Hp2].
  destruct (pnalloc_total (h_pool h2) (4 + Z.of_nat NGX_ATOMIC_T_LEN + 4) (h_mem h2) Hp2) as (y & pl & o & -> & Hm). cbn [obind]. destruct y as [y|]; [|by eexists None, _, _].
  unfold copy_mem. rewrite (proj2 (Nat.ltb_ge _ _) Hbh), obind_Ok.
  match goal with |- context [ngx_alloc_chain_link ?h3] => destruct (alloc_link_ok h3) as (cl & h4 & -> & _) end.
  { split; [|cbn; lia]. destruct HF2 as (F & HF2). exists F. eapply segto_ext; [|exact HF2]. done. }
  rewrite obind_Ok. destruct (cl =? 0); [by eexists None, _, _|]. eexists (Some _), _, _. split; [reflexivity|].
  rewrite map_app, concat_app, Hx. f_equal. cbn [map concat piece_data]. by rewrite app_nil_r.
Qed.

(** ** The response *)

(** C29: A response with one range.  When the header filter passes a response with
    the range of its context on, the Content-Range header it sends is
    "bytes first-last/length", and the body filter, called any number of times
    with chains of buffers in memory or in files that bring in at least the range,
    ends and passes on exactly the bytes of the range; they are as many as the
    header filter announced. *)
Theorem single_range_served fuel c rg r rc r1 ins Ds : ranges c = [rg] -> offset c = 0 -> proper (content_length_n (h_out r)) rg -> req_ok r ->
  ngx_http_range_singlepart_header (fun r => Ok (NGX_OK, r)) c r = Ok (rc, r1) -> rc <> NGX_ERROR ->
  Forall2 (comes_in fuel) ins Ds -> end_ rg <= blen (concat Ds) < 2 ^ 62 ->
  exists outs c' Es, serve fuel c ins = Ok (outs, c') /\ Forall2 goes_out outs Es /\
    concat Es = drop (Z.to_nat (start rg)) (take (Z.to_nat (end_ rg)) (concat Ds)) /\ blen (concat Es) = content_length_n (h_out r1) /\
    exists i e, h_content_range (h_out r1) = Some i /\ list_items (headers (h_out r1)) !! i = Some e /\
      Headers.e_key e = bs "Content-Range" /\ Headers.e_value e = bs "bytes " ++ range_text rg (content_length_n (h_out r)).
Proof.
  intros Hc Ho Hp Hok Hh Hrc HF Hlen.
  destruct (singlepart_header_ok (fun r => Ok (NGX_OK, r)) c rg r Hc Hp Hok) as (rc2 & r2 & E & Ha). rewrite Hh in E.
  destruct (Z.eqb_spec rc2 NGX_OK) as [->|]; [|by injection E as -> _]. injection E as -> ->. destruct (Ha eq_refl) as (Hn & i & e & Hi & He & _ & Hk & Hv).
  destruct Hp as (Hs & _ & _). destruct (serve_ok fuel rg ins Ds HF ltac:(lia) 0 c Hc ltac:(lia) ltac:(lia) ltac:(lia)) as (outs & c' & Es & HFo).
  exists outs, c', (slices (start rg) (end_ rg) 0 Ds). rewrite slices_concat. unfold slice. rewrite !Z.sub_0_r. split; [done|]. split; [done|]. split; [done|].
  split; [|by exists i, e]. rewrite Hn. unfold blen in *. rewrite length_drop, length_take. lia.
Qed.

(** C30: A response with several ranges.  When the header filter passes the
    response on, the body filter, called with the whole content in one buffer, in
    memory or in a file, ends and makes for each range the boundary, the type, the
    text of the range and exactly its bytes, and behind them the closing boundary;
    they are as many as the header filter announced, unless the memory runs out. *)
Theorem multipart_served fuel c r rc r1 : (length (ranges c) <> 1)%nat -> offset c = 0 -> Forall (proper (content_length_n (h_out r))) (ranges c) -> req_ok r ->
  let b := u64 (temp_number r + 1) in
  let bh := part_text b (content_type (h_out r)) (charset (h_out r)) in
  28 + parts_size (blen bh) (content_length_n (h_out r)) (ranges c) < 2 ^ 63 ->
  ngx_http_range_multipart_header (fun r => Ok (NGX_OK, r)) c r = Ok (rc, r1) -> rc <> NGX_ERROR ->
  exists c1, r_ctx r1 = Some c1 /\ content_type (h_out r1) = bs "multipart/byteranges; boundary=" ++ boundary_text b /\
    forall h inp p n buf, inp <> 0 -> link_at h inp = Ok (p, n) -> buf_at h p = Ok buf -> wf buf -> ngx_buf_special buf = false ->
      blen (data buf) = content_length_n (h_out r) -> content_length_n (h_out r) < 2 ^ 62 -> free_ok h ->
      exists x c2 h1, ngx_http_range_body_filter fuel (Some c1) inp h = Ok (Multi x, Some c2, h1) /\
        match x with
        | None => True
        | Some ps => blen (concat (map piece_data ps)) = content_length_n (h_out r1) /\
            concat (map piece_data ps) =
              concat (map (fun rg => bh ++ range_text rg (content_length_n (h_out r)) ++ CRLF ++ CRLF ++ drop (Z.to_nat (start rg)) (take (Z.to_nat (end_ rg)) (data buf))) (ranges c)) ++
              CRLF ++ bs "--" ++ boundary_text b ++ bs "--" ++ CRLF
        end.
Proof.
  intros Hlen Ho HF Hok b bh Hsize Hh Hrc.
  destruct (multipart_header_ok (fun r => Ok (NGX_OK, r)) c r _ eq_refl HF Hok Hsize) as (rc2 & r2 & E & Ha). rewrite Hh in E.
  destruct (Z.eqb_spec rc2 NGX_OK) as [->|]; [|by injection E as -> _]. injection E as -> ->. destruct (Ha eq_refl) as (Hn & Hct & Hctx). fold b bh in Hctx, Hn, Hct.
  eexists. split; [exact Hctx|]. split; [done|]. intros h inp p n buf Hinp El Eb Hw Hsp Hsz Hn62 Hf. set (N := content_length_n (h_out r)) in *.
  pose proof (size_data buf Hw) as Hsd. fold (blen (data buf)) in Hsd. rewrite Hsz in Hsd.
  assert (Hbound : 0 <= b < 2 ^ 64) by (apply Z.mod_pos_bound; lia). pose proof (boundary_length b Hbound) as Hbl.
  assert (Htake : take (4 + NGX_ATOMIC_T_LEN) bh = CRLF ++ bs "--" ++ boundary_text b).
  { unfold bh, part_text. rewrite !app_assoc, <- (app_assoc _ _ (bs "Content-Range: bytes ")), <- (app_assoc _ CRLF), take_app_length'; [by rewrite <- !app_assoc|].
    rewrite !length_app, Hbl. done. }
  destruct (multi_call fuel (mk_ctx (offset c) bh (map (with_text N) (ranges c))) h inp p n buf) as (x & c2 & h1 & E & Hx); try done.
  { cbn. by rewrite length_map. }
  { apply Forall_map. eapply Forall_impl; [exact HF|]. intros rg (? & ? & ?). cbn. lia. }
  { rewrite Hsd. unfold N. unfold blen in Hsz. lia. }
  { cbn [boundary_header]. assert (Hl := f_equal length Htake). rewrite length_take, !length_app, Hbl in Hl. change (length CRLF) with 2%nat in Hl. change (length (bs "--")) with 2%nat in Hl. unfold NGX_ATOMIC_T_LEN in *. lia. }
  exists x, c2, h1. split; [exact E|]. destruct x as [ps|]; [|done]. cbn [boundary_header ranges] in Hx. rewrite Htake in Hx. split.
  - rewrite Hx, Hn, <- (parts_text_length bh (data buf) N) by done. unfold blen. rewrite !length_app, Hbl.
    change (length CRLF) with 2%nat. change (length (bs "--")) with 2%nat. unfold NGX_ATOMIC_T_LEN. lia.
  - rewrite Hx, parts_text_eq, <- !app_assoc. done.
Qed.
End Content.


(** ** Examples *)

#[local] Existing Instance known_mem.
Definition demo_bytes : Z -> Z := fun z => z mod 256.
Definition demo_file : Z -> Z -> Z := fun f z => (f + 2 * z) mod 256.
Definition demo_request (ct : bytes) (n : Z) : @req known_mem :=
  mk_req 1001 true true None None 5 (mk_hout 206 [] (mk_list [] [] 56 20) None None None None (-1) ct 0 None [] n) None demo_pool4k (demo_blocks : @os known_mem) 6.
Definition demo_in_memory : ngx_buf := zero_buf <| pos := 100 |> <| last := 105 |> <| memory := true |>.
Definition demo_in_file : ngx_buf := zero_buf <| in_file := true |> <| file := 7 |> <| file_last := 5 |> <| last_buf := true |>.
Definition demo_heap (b : ngx_buf) : @heap known_mem := mk_heap {[8 := b]} {[16 := (8, 0)]} 0 demo_pool4k (demo_blocks : @os known_mem).
Definition passed (m : out (Z * @req known_mem)) : bool := match m with Ok (rc, _) => negb (rc =? NGX_ERROR) | _ => false end.

Lemma demo_request_ok ct n : req_ok (demo_request ct n).
Proof. split; [split; [reflexivity|vm_compute; discriminate]|]. split; [vm_compute; discriminate|done]. Qed.
Lemma demo_comes_in b D : wf b -> data demo_bytes demo_file b = D -> comes_in demo_bytes demo_file 2 (demo_heap b, 16) D.
Proof.
  intros Hw HD. exists [16]. cbn [fst snd]. split; [split; [done|split; [done|by exists 8, 0]]|]. split; [done|]. split; [apply NoDup_singleton|].
  split; [intros a a' Ha Ha' _; apply list_elem_of_singleton in Ha, Ha'; by subst|]. split; [|split; [|cbn; lia]].
  - intros a Ha. apply list_elem_of_singleton in Ha as ->. by exists 8, 0, b.
  - unfold chain_data, data_of, buf_of, addr_of. cbn [map concat]. rewrite app_nil_r. cbn. done.
Qed.

Lemma single_range_served_witness :
  exists rc r1 outs c' Es, ngx_http_range_singlepart_header (fun r => Ok (NGX_OK, r)) (mk_ctx 0 [] [mk_range 3 8 []]) (demo_request [] 10) = Ok (rc, r1) /\
    serve 2 (mk_ctx 0 [] [mk_range 3 8 []]) [(demo_heap demo_in_memory, 16); (demo_heap demo_in_file, 16)] = Ok (outs, c') /\
    Forall2 (goes_out demo_bytes demo_file) outs Es /\ concat Es = [103; 104; 7; 9; 11].
Proof.
  destruct (ngx_http_range_singlepart_header (fun r => Ok (NGX_OK, r)) (mk_ctx 0 [] [mk_range 3 8 []]) (demo_request [] 10)) as [[rc r1]| |] eqn:E;
    assert (Hp : passed (ngx_http_range_singlepart_header (fun r => Ok (NGX_OK, r)) (mk_ctx 0 [] [mk_range 3 8 []]) (demo_request [] 10)) = true) by (vm_compute; reflexivity);
    rewrite E in Hp; [|discriminate..].
  destruct (single_range_served demo_bytes demo_file 2 (mk_ctx 0 [] [mk_range 3 8 []]) (mk_range 3 8 []) (demo_request [] 10) rc r1
    [(demo_heap demo_in_memory, 16); (demo_heap demo_in_file, 16)] [[100; 101; 102; 103; 104]; [7; 9; 11; 13; 15]]) as (outs & c' & Es & H1 & H2 & H3 & _ & _);
    [reflexivity|reflexivity|unfold proper; cbn; lia|apply demo_request_ok|exact E|intros ->; discriminate| |done|].
  - repeat constructor; apply demo_comes_in; try reflexivity; repeat split; vm_compute; try done; lia.
  - exists rc, r1, outs, c', Es. split; [reflexivity|]. split; [exact H1|]. split; [exact H2|exact H3].
Defined.

Definition two_ranges : ctx := mk_ctx 0 [] [mk_range 0 2 []; mk_range 4 5 []].
Definition demo_ctype (m : out (Z * @req known_mem)) : bytes := match m with Ok (_, r) => content_type (h_out r) | _ => [] end.

Lemma multipart_served_witness :
  exists rc r1 c1, ngx_http_range_multipart_header (fun r => Ok (NGX_OK, r)) two_ranges (demo_request (bs "text/x") 5) = Ok (rc, r1) /\ r_ctx r1 = Some c1 /\
    exists x c2 h1, ngx_http_range_body_filter 1 (Some c1) 16 (demo_heap demo_in_file) = Ok (Multi x, Some c2, h1) /\
      match x with
      | None => True
      | Some ps => concat (map (piece_data demo_bytes demo_file) ps) =
          CRLF ++ bs "--00000000000000000007" ++ CRLF ++ bs "Content-Type: text/x" ++ CRLF ++ bs "Content-Range: bytes 0-1/5" ++ CRLF ++ CRLF ++ [7; 9] ++
          CRLF ++ bs "--00000000000000000007" ++ CRLF ++ bs "Content-Type: text/x" ++ CRLF ++ bs "Content-Range: bytes 4-4/5" ++ CRLF ++ CRLF ++ [15] ++
          CRLF ++ bs "--00000000000000000007--" ++ CRLF
      end.
Proof.
  destruct (ngx_http_range_multipart_header (fun r => Ok (NGX_OK, r)) two_ranges (demo_request (bs "text/x") 5)) as [[rc r1]| |] eqn:E;
    assert (Hp : passed (ngx_http_range_multipart_header (fun r => Ok (NGX_OK, r)) two_ranges (demo_request (bs "text/x") 5)) = true) by (vm_compute; reflexivity);
    rewrite E in Hp; [|discriminate..].
  destruct (multipart_served demo_bytes demo_file 1 two_ranges (demo_request (bs "text/x") 5) rc r1) as (c1 & Hc1 & _ & H);
    [discriminate|reflexivity|repeat constructor; unfold proper; cbn; lia|apply demo_request_ok|vm_compute; reflexivity|exact E|intros ->; discriminate|].
  destruct (H (demo_heap demo_in_file) 16 8 0 demo_in_file) as (x & c2 & h1 & Ex & Hx); [done|reflexivity|reflexivity|repeat split; vm_compute; try done; lia|reflexivity|reflexivity|done| |].
  - split; [by exists []|vm_compute; discriminate].
  - exists rc, r1, c1. split; [reflexivity|]. split; [exact Hc1|]. exists x, c2, h1. split; [exact Ex|]. destruct x as [ps|]; [|exact I]. destruct Hx as [_ ->]. vm_compute. reflexivity.
Defined.
