(* ===== verification/NgxInet.v ===== *)
(** * Addresses: nginx/src/core/ngx_inet.c

    Numeric addresses as text and as numbers, networks, and the addresses of a
    configuration.  The machine is little-endian, so a number in network order has
    its bytes swapped; addresses of IPv6 are lists of 16 bytes. *)
From S2P Require Import Prelude NgxString NgxStrUtil.
From S2P Require Export NgxPalloc NgxPrintf.
#[local] Open Scope Z_scope.

Module Inet.
Import Number Search Printf.

(** ** Byte order *)

(** The memory of a 32-bit number. *)
Definition mem32 (x : Z) : bytes := [Z.land x 255; Z.land (Z.shiftr x 8) 255; Z.land (Z.shiftr x 16) 255; Z.land (Z.shiftr x 24) 255].
Definition htonl (x : Z) : Z :=
  Z.shiftl (Z.land x 255) 24 + Z.shiftl (Z.land (Z.shiftr x 8) 255) 16 + Z.shiftl (Z.land (Z.shiftr x 16) 255) 8 + Z.land (Z.shiftr x 24) 255.
Definition ntohl : Z -> Z := htonl.
Definition htons (x : Z) : Z := Z.shiftl (Z.land x 255) 8 + Z.land (Z.shiftr x 8) 255.
Definition ntohs : Z -> Z := htons.

Definition INADDR_NONE : Z := 4294967295.
Definition INADDR_ANY : Z := 0.
Definition NGX_INET_ADDRSTRLEN : Z := 15.
Definition NGX_INET6_ADDRSTRLEN : Z := 45.

(** [struct sockaddr] of the three families: [s_addr] and the port in network
    order; the path with its NUL. *)
Inductive sockaddr := SIn (s_addr port : Z) | SIn6 (s6_addr : bytes) (port : Z) | SUn (sun_path : bytes).
Inductive sa_family := AF_UNSPEC | AF_UNIX | AF_INET | AF_INET6.
Definition family_of (sa : sockaddr) : sa_family := match sa with SIn _ _ => AF_INET | SIn6 _ _ => AF_INET6 | SUn _ => AF_UNIX end.

(** ** Reading addresses *)

Fixpoint inet_loop (addr octet n : Z) (text : bytes) : option (Z * Z * Z) :=
  match text with
  | [] => Some (addr, octet, n)
  | c :: text' =>
      if is_digit c then inet_loop addr (u64 (octet * 10 + (c - 48))) n text'
      else if (c =? 46) && (octet <? 256) then inet_loop (u32 (u32 (Z.shiftl addr 8) + octet)) 0 (u64 (n + 1)) text'
      else None
  end.
Definition ngx_inet_addr (text : bytes) : Z :=
  match inet_loop 0 0 0 text with
  | Some (addr, octet, n) => if (n =? 3) && (octet <? 256) then htonl (u32 (u32 (Z.shiftl addr 8) + octet)) else INADDR_NONE
  | None => INADDR_NONE
  end.

(** The variables of [ngx_inet6_addr]: the bytes that are written, the place
    [zero] among them, the text behind the last colon. *)
Record in6 := mk_in6 { written : bytes; zero_at : option nat; digit : option bytes; nibbles : Z; word : Z; left_ : Z }.
#[export] Instance in6_settable : Settable in6 := fun s => mk_in6 (written s) (zero_at s) (digit s) (nibbles s) (word s) (left_ s).
Definition put16 (hi lo : Z) (s : in6) : in6 := s <| written := written s ++ [Z.land hi 255; Z.land lo 255] |> <| left_ := left_ s - 1 |>.

(** The loop up to the last group; [None]: [NGX_ERROR]. *)
Fixpoint in6_loop (p : bytes) (s : in6) : option in6 :=
  match p with
  | [] => Some s
  | c :: p' =>
      if c =? 58 (* : *) then
        if negb (nibbles s =? 0) then
          let s := put16 (Z.shiftr (word s) 8) (word s) (s <| digit := Some p' |>) in
          if negb (left_ s =? 0) then in6_loop p' (s <| nibbles := 0 |> <| word := 0 |>) else None
        else
          match zero_at s with
          | None => in6_loop p' (s <| digit := Some p' |> <| zero_at := Some (length (written s)) |>)
          | Some _ => None
          end
      else if (c =? 46) && negb (nibbles s =? 0) then
        match digit s with
        | None => None
        | Some d =>
            if left_ s <? 2 then None
            else
              let w := ngx_inet_addr d in
              if w =? INADDR_NONE then None
              else let w := ntohl w in Some (put16 (Z.shiftr w 24) (Z.shiftr w 16) (s <| word := w |>))
        end
      else
        let s := s <| nibbles := nibbles s + 1 |> in
        if 4 <? nibbles s then None
        else if is_digit c then in6_loop p' (s <| word := u64 (word s * 16 + (c - 48)) |>)
        else
          let c := Z.lor c 32 in
          if (97 <=? c) && (c <=? 102) then in6_loop p' (s <| word := u64 (word s * 16 + (c - 97) + 10) |>) else None
  end.

(** What is behind the loop: the last group, and the groups behind [zero] moved to
    the end. *)
Definition in6_end (s : in6) : option bytes :=
  if (nibbles s =? 0) && (match zero_at s with None => true | Some _ => false end) then None
  else
    let s := put16 (Z.shiftr (word s) 8) (word s) s in
    match zero_at s with
    | Some z => if left_ s =? 0 then None else Some (take z (written s) ++ replicate (Z.to_nat (left_ s * 2)) 0 ++ drop z (written s))
    | None => if left_ s =? 0 then Some (written s) else None
    end.
(** The 16 bytes of the address, or [None] for [NGX_ERROR]. *)
Definition ngx_inet6_addr (p : bytes) : option bytes :=
  match p with
  | [] => None
  | c :: p' => match in6_loop (if c =? 58 then p' else p) (mk_in6 [] None None 0 0 8) with None => None | Some s => in6_end s end
  end.

(** ** Printing addresses *)

(** The loop that looks for the longest run of zeros: [zero], [last], [max], [n];
    -1 is the largest [ngx_uint_t]. *)
Fixpoint zero_run (k : nat) (p : bytes) (i : nat) (zero last max n : Z) : out (Z * Z * Z * Z) :=
  match k with
  | O => Ok (zero, last, max, n)
  | S k' =>
      let! a := rd p i in
      let! b := rd p (i + 1) in
      if negb (a =? 0) || negb (b =? 0) then
        let '(zero, max) := if max <? n then (last, n) else (zero, max) in
        zero_run k' p (i + 2) zero last max 0
      else zero_run k' p (i + 2) zero (if n =? 0 then Z.of_nat i else last) max (n + 1)
  end.

(** The loop that prints the groups. *)
Fixpoint print_groups (fuel : nat) (p : bytes) (i n zero max : Z) : out bytes :=
  match fuel with
  | O => NoFuel
  | S f =>
      if n <=? i then Ok []
      else if i =? zero then let! t := print_groups f p (i + (max - 1) * 2 + 2) n zero max in Ok (58 :: t)
      else
        let! a := rd p (Z.to_nat i) in
        let! b := rd p (Z.to_nat i + 1) in
        let! w := ngx_sprintf (bs "%uxi") [ANum (a * 256 + b)] in
        let! t := print_groups f p (i + 2) n zero max in
        Ok (w ++ (if i <? 14 then [58] else []) ++ t)
  end.

Definition dotted (p : bytes) : bytes * list arg := (bs "%ud.%ud.%ud.%ud", map ANum p).

(** The text, for [len] bytes of room. *)
Definition ngx_inet6_ntop (p : bytes) (len : Z) : out bytes :=
  if len <? NGX_INET6_ADDRSTRLEN then Ok []
  else
    let! (zero, last, max, n) := zero_run 8 p 0 (2 ^ 64 - 1) (2 ^ 64 - 1) 1 0 in
    let '(zero, max) := if max <? n then (last, n) else (zero, max) in
    let! p10 := rd p 10 in
    let! p11 := rd p 11 in
    let! p14 := rd p 14 in
    let! p15 := rd p 15 in
    let n := if (zero =? 0) && ((max =? 5) && (p10 =? 255) && (p11 =? 255) || (max =? 6) || (max =? 7) && negb (p14 =? 0) && negb (p15 =? 1)) then 12 else 16 in
    let! t := print_groups 9 p 0 n zero max in
    let t := if zero =? 0 then 58 :: t else t in
    if n =? 12 then let! w := ngx_sprintf (fst (dotted (drop 12 p))) (snd (dotted (drop 12 p))) in Ok (t ++ w) else Ok t.

(** The text; for a Unix socket without the last byte, which is the NUL if there
    is room for it. *)
Definition ngx_sock_ntop (sa : sockaddr) (len : Z) (port : bool) : out bytes :=
  match sa with
  | SIn s_addr sin_port =>
      let '(fmt, args) := dotted (mem32 s_addr) in
      if port : bool then ngx_snprintf (Z.to_nat len) (fmt ++ bs ":%d") (args ++ [ANum (ntohs sin_port)]) else ngx_snprintf (Z.to_nat len) fmt args
  | SIn6 s6_addr sin6_port =>
      let! t := ngx_inet6_ntop s6_addr len in
      if port : bool then let! w := ngx_sprintf (bs "]:%d") [ANum (ntohs sin6_port)] in Ok (91 :: t ++ w) else Ok t
  | SUn path =>
      let! w := ngx_snprintf (Z.to_nat len) (bs "unix:%s%Z") [AMem path] in
      match w with [] => Undef OutOfBounds | _ => Ok (removelast w) end
  end.

Definition ngx_inet_ntop (family : sa_family) (addr : bytes) (len : Z) : out bytes :=
  match family with
  | AF_INET => ngx_snprintf (Z.to_nat len) (fst (dotted (take 4 addr))) (snd (dotted (take 4 addr)))
  | AF_INET6 => ngx_inet6_ntop addr len
  | _ => Ok []
  end.

(** ** Networks *)

Inductive cidr := CIn (addr mask : Z) | CIn6 (addr mask : bytes).

(** The loop over the 16 bytes: the address, the mask and whether the address had
    bits outside it. *)
Fixpoint mask6_loop (addr : bytes) (shift : Z) : bytes * bytes * bool :=
  match addr with
  | [] => ([], [], false)
  | a :: addr' =>
      let s := if 8 <? shift then 8 else shift in
      let m := Z.land (Z.shiftl 255 (8 - s)) 255 in
      let '(addr', mask, rc) := mask6_loop addr' (shift - s) in
      (Z.land a m :: addr', m :: mask, negb (a =? Z.land a m) || rc)
  end.

(** [None] for [NGX_ERROR]. *)
Definition ngx_ptocidr (text : bytes) : out (Z * option cidr) :=
  let! mask := ngx_strlchr text 0 (length text) 47 in
  let len := match mask with Some m => m | None => length text end in
  let in_addr := ngx_inet_addr (take len text) in
  let shift_of (m : nat) := ngx_atoi (drop (S m) text) in
  if negb (in_addr =? INADDR_NONE) then
    match mask with
    | None => Ok (NGX_OK, Some (CIn in_addr 4294967295))
    | Some m =>
        let shift := shift_of m in
        if (shift =? NGX_ERROR) || (32 <? shift) then Ok (NGX_ERROR, None)
        else
          let mask := if shift =? 0 then 0 else htonl (u32 (Z.shiftl 4294967295 (32 - shift))) in
          Ok (if in_addr =? Z.land in_addr mask then NGX_OK else NGX_DONE, Some (CIn (Z.land in_addr mask) mask))
    end
  else
    match ngx_inet6_addr (take len text) with
    | None => Ok (NGX_ERROR, None)
    | Some addr =>
        match mask with
        | None => Ok (NGX_OK, Some (CIn6 addr (replicate 16 255)))
        | Some m =>
            let shift := shift_of m in
            if (shift =? NGX_ERROR) || (128 <? shift) then Ok (NGX_ERROR, None)
            else let '(addr, mask, changed) := mask6_loop addr shift in Ok (if changed : bool then NGX_DONE else NGX_OK, Some (CIn6 addr mask))
        end
    end.
End Inet.
