(* ===== verification/NgxInetProps.v ===== *)
(** * Properties of addresses and networks *)
From stdpp Require Import list.
From S2P Require Import Prelude NgxCodec NgxString NgxStrUtil NgxStrUtilProps NgxPrintf NgxPrintfProps NgxInet.
#[local] Open Scope Z_scope.
Import Printf Inet.
#[local] Abbreviation dec := Prelude.digits.

(** ** Dotted addresses *)

Definition byte (z : Z) : Prop := 0 <= z < 256.
Definition dots (a b c d : Z) : bytes := dec a ++ 46 :: dec b ++ 46 :: dec c ++ 46 :: dec d.

Lemma dec_short z : byte z -> (1 <= length (dec z) <= 3)%nat.
Proof. intros Hz. pose proof (digits_length z 2 ltac:(unfold byte in *; lia)). pose proof (digits_nonempty z). destruct (dec z); [done|]. cbn in *. lia. Qed.

Lemma sprintf_dotted fmt a b c d args : byte a -> byte b -> byte c -> byte d ->
  ngx_sprintf (bs "%ud.%ud.%ud.%ud" ++ fmt) (ANum a :: ANum b :: ANum c :: ANum d :: args) = let! w := ngx_sprintf fmt args in Ok (dots a b c d ++ w).
Proof.
  unfold byte. intros Ha Hb Hc Hd. change (bs "%ud.%ud.%ud.%ud" ++ fmt) with
    (37 :: 117 :: 100 :: [46] ++ 37 :: 117 :: 100 :: [46] ++ 37 :: 117 :: 100 :: [46] ++ 37 :: 117 :: 100 :: fmt).
  rewrite sprintf_ud, sprintf_text, sprintf_ud, sprintf_text, sprintf_ud, sprintf_text, sprintf_ud by (done || lia).
  destruct (ngx_sprintf fmt args) as [w| |]; cbn [obind]; [|done..]. f_equal. unfold dots. rewrite <- !app_assoc. cbn [app]. by rewrite <- !app_assoc, <- ?app_comm_cons, <- ?app_assoc.
Qed.

Lemma digit_bool c : Prelude.is_digit c -> Printf.is_digit c = true.
Proof. unfold Prelude.is_digit, Printf.is_digit. intros. lia. Qed.

(** A run of digits is read as its number. *)
Lemma inet_loop_digits ds : forall addr octet n rest, Forall Prelude.is_digit ds -> 0 <= octet -> (octet + 1) * 10 ^ Z.of_nat (length ds) <= 2 ^ 64 ->
  inet_loop addr octet n (ds ++ rest) = inet_loop addr (Number.dec_from octet ds) n rest.
Proof.
  induction ds as [|c ds IH]; intros addr octet n rest Hd Ho Hb; [done|]. inversion Hd as [|? ? Hc Hd']; subst. cbn [app inet_loop length] in *.
  rewrite (digit_bool c Hc). unfold Prelude.is_digit in Hc. rewrite Nat2Z.inj_succ, Z.pow_succ_r in Hb by lia.
  assert (0 < 10 ^ Z.of_nat (length ds)) by lia. unfold u64. rewrite uwrap_small by nia. rewrite IH by (done || nia).
  unfold Number.dec_from. cbn [fold_left]. f_equal.
Qed.

Lemma inet_loop_dec v addr n rest : byte v -> inet_loop addr 0 n (dec v ++ rest) = inet_loop addr v n rest.
Proof.
  intros Hv. destruct (digits_spec v ltac:(unfold byte in *; lia)) as [Hval Hd]. rewrite inet_loop_digits; [|done|lia|].
  - unfold Number.dec_from. unfold dec_value in Hval. by rewrite Hval.
  - pose proof (dec_short v Hv) as Hl. assert (10 ^ Z.of_nat (length (dec v)) <= 10 ^ 3) by (apply Z.pow_le_mono_r; lia). lia.
Qed.

Definition addr4 (a b c d : Z) : Z := ((a * 256 + b) * 256 + c) * 256 + d.
Lemma push_octet addr v : 0 <= addr < 2 ^ 24 -> byte v -> u32 (u32 (Z.shiftl addr 8) + v) = addr * 256 + v.
Proof. unfold byte. intros Ha Hv. rewrite Z.shiftl_mul_pow2 by lia. change (2 ^ 8) with 256. rewrite (u32_small (addr * 256)) by lia. by rewrite u32_small by lia. Qed.

Lemma inet_addr_dots a b c d : byte a -> byte b -> byte c -> byte d -> ngx_inet_addr (dots a b c d) = htonl (addr4 a b c d).
Proof.
  intros Ha Hb Hc Hd. unfold ngx_inet_addr, dots, addr4.
  assert (Hdot : forall addr v n rest, byte v -> 0 <= addr < 2 ^ 24 -> 0 <= n < 10 -> inet_loop addr v n (46 :: rest) = inet_loop (addr * 256 + v) 0 (n + 1) rest).
  { intros addr v n rest Hv Haddr Hn. cbn [inet_loop]. change (Printf.is_digit 46) with false. change (46 =? 46) with true. unfold byte in Hv.
    rewrite (proj2 (Z.ltb_lt v 256)) by lia. cbn [andb]. unfold u64. rewrite uwrap_small by lia. by rewrite push_octet. }
  unfold byte in *. rewrite inet_loop_dec, Hdot, inet_loop_dec, Hdot, inet_loop_dec, Hdot by (done || lia).
  pose proof (inet_loop_dec d (((0 * 256 + a) * 256 + b) * 256 + c) (0 + 1 + 1 + 1) [] Hd) as E. rewrite app_nil_r in E. rewrite E. cbn [inet_loop].
  change (0 + 1 + 1 + 1 =? 3) with true. rewrite (proj2 (Z.ltb_lt d 256)) by lia. cbn [andb]. rewrite push_octet by (unfold byte; lia). done.
Qed.

(** Numbers as bytes. *)
Lemma mem32_addr4 a b c d : byte a -> byte b -> byte c -> byte d -> mem32 (addr4 a b c d) = [d; c; b; a].
Proof.
  unfold byte, mem32, addr4. intros. change 255 with (Z.ones 8). rewrite !Z.land_ones, !Z.shiftr_div_pow2 by lia.
  change (2 ^ 8) with 256. change (2 ^ 16) with (256 * 256). change (2 ^ 24) with (256 * 256 * 256).
  rewrite <- !Z.div_div by lia. rewrite !(Z.div_add_l _ 256), (Z.div_small d), Z.add_0_r by lia. rewrite !(Z.div_add_l _ 256), (Z.div_small c), Z.add_0_r by lia.
  rewrite !(Z.div_add_l _ 256), (Z.div_small b), Z.add_0_r by lia. rewrite !(Z.add_comm (_ * 256)), !Z.mod_add, !Z.mod_small by lia. done.
Qed.
Lemma htonl_addr4 a b c d : byte a -> byte b -> byte c -> byte d -> htonl (addr4 a b c d) = addr4 d c b a.
Proof.
  intros Ha Hb Hc Hd. pose proof (mem32_addr4 a b c d Ha Hb Hc Hd) as E. unfold mem32 in E. injection E as E1 E2 E3 E4. unfold htonl. rewrite E1, E2, E3, E4.
  unfold addr4. rewrite !Z.shiftl_mul_pow2 by lia. lia.
Qed.
Lemma addr4_bytes x : 0 <= x < 2 ^ 32 -> exists a b c d, x = addr4 a b c d /\ byte a /\ byte b /\ byte c /\ byte d.
Proof.
  intros Hx. exists (x / 256 / 256 / 256), (x / 256 / 256 mod 256), (x / 256 mod 256), (x mod 256). unfold addr4, byte.
  pose proof (Z.div_mod x 256 ltac:(lia)). pose proof (Z.div_mod (x / 256) 256 ltac:(lia)). pose proof (Z.div_mod (x / 256 / 256) 256 ltac:(lia)).
  pose proof (Z.mod_pos_bound x 256 ltac:(lia)). pose proof (Z.mod_pos_bound (x / 256) 256 ltac:(lia)). pose proof (Z.mod_pos_bound (x / 256 / 256) 256 ltac:(lia)). lia.
Qed.

(** ** Groups of hexadecimal digits *)

Definition group (w : Z) : Prop := 0 <= w < 65536.
Definition hex_char (d : Z) : Z := tbl hex d.
Lemma hex_char_spec d : 0 <= d < 16 -> hex_char d <> 58 /\ hex_char d <> 46 /\
  (Printf.is_digit (hex_char d) = true /\ hex_char d - 48 = d \/
   Printf.is_digit (hex_char d) = false /\ 97 <= Z.lor (hex_char d) 32 <= 102 /\ Z.lor (hex_char d) 32 - 97 + 10 = d).
Proof.
  intros Hd. assert (H : forallb (fun d => negb (hex_char d =? 58) && negb (hex_char d =? 46) &&
    (if Printf.is_digit (hex_char d) then hex_char d - 48 =? d else (97 <=? Z.lor (hex_char d) 32) && (Z.lor (hex_char d) 32 <=? 102) && (Z.lor (hex_char d) 32 - 97 + 10 =? d))) (seqZ 0 16) = true)
    by (vm_compute; reflexivity).
  rewrite List.forallb_forall in H. specialize (H d ltac:(apply list_elem_of_In, elem_of_seqZ; lia)). rewrite !andb_true_iff in H. destruct H as [[H1 H2] H3].
  split; [lia|]. split; [lia|]. destruct (Printf.is_digit (hex_char d)); [left|right; rewrite !andb_true_iff in H3]; split; try done; lia.
Qed.

(** One digit. *)
Lemma in6_hex d rest s : 0 <= d < 16 -> 0 <= nibbles s < 4 -> 0 <= word s < 65536 ->
  in6_loop (hex_char d :: rest) s = in6_loop rest (s <| nibbles := nibbles s + 1 |> <| word := word s * 16 + d |>).
Proof.
  intros Hd Hn Hw. destruct (hex_char_spec d Hd) as (H1 & H2 & H3). cbn [in6_loop]. rewrite (proj2 (Z.eqb_neq _ 58) H1), (proj2 (Z.eqb_neq _ 46) H2). cbn [andb].
  destruct s as [w z dg n wd l]. cbn in *. destruct (Z.ltb_spec 4 (n + 1)); [lia|]. unfold u64. destruct H3 as [(-> & E)|(-> & E1 & E2)].
  - rewrite uwrap_small by lia. cbn. by rewrite E.
  - rewrite (proj2 (Z.leb_le 97 _)), (proj2 (Z.leb_le _ 102)) by lia. cbn [andb]. rewrite uwrap_small by lia. replace (wd * 16 + (Z.lor (hex_char d) 32 - 97) + 10) with (wd * 16 + d) by lia. done.
Qed.

(** A whole group, from the state in front of it. *)
Lemma hex_group k : (k <= 4)%nat -> forall v p room, (k <= room)%nat -> 0 <= v < 16 ^ Z.of_nat k -> (0 < k)%nat ->
  exists ds, hex_num_loop hex room v p = Ok (ds ++ p) /\ (1 <= length ds <= k)%nat /\ Forall (fun c => c <> 58) ds /\
    forall s rest, nibbles s = 0 -> word s = 0 -> in6_loop (ds ++ rest) s = in6_loop rest (s <| nibbles := Z.of_nat (length ds) |> <| word := v |>).
Proof.
  induction k as [|k IH]; intros Hk v p room Hroom Hv Hk0; [lia|]. destruct room as [|room]; [lia|]. cbn [hex_num_loop]. fold (hex_char (Z.land v 15)).
  change 15 with (Z.ones 4). rewrite Z.land_ones, Z.shiftr_div_pow2 by lia. change (2 ^ 4) with 16.
  pose proof (Z.mod_pos_bound v 16 ltac:(lia)) as Hm. pose proof (Z.div_mod v 16 ltac:(lia)) as Hdm. assert (0 <= v / 16) by (apply Z.div_pos; lia).
  rewrite Nat2Z.inj_succ, Z.pow_succ_r in Hv by lia. destruct (Z.eqb_spec (v / 16) 0) as [E|E].
  - exists [hex_char (v mod 16)]. split; [done|]. split; [cbn; lia|]. split; [by repeat constructor; apply hex_char_spec|]. intros s rest Hn Hw. cbn [app length]. rewrite in6_hex by lia. rewrite Hn, Hw.
    destruct s. cbn in *. do 2 f_equal. lia.
  - destruct k as [|k]; [rewrite Z.div_small in E by (cbn in Hv; lia); done|].
    destruct (IH ltac:(lia) (v / 16) (hex_char (v mod 16) :: p) room ltac:(lia)) as (ds & -> & Hl & H58 & Hds); [split; [done|apply Z.div_lt_upper_bound; lia]|lia|].
    exists (ds ++ [hex_char (v mod 16)]). rewrite <- app_assoc. split; [done|]. rewrite length_app. split; [cbn; lia|]. split; [apply Forall_app; split; [done|by repeat constructor; apply hex_char_spec]|]. intros s rest Hn Hw.
    rewrite <- app_assoc. cbn [app]. rewrite Hds by done.
    assert (Hp : 16 ^ Z.of_nat (S k) <= 4096) by (change 4096 with (16 ^ 3); apply Z.pow_le_mono_r; lia). assert (0 <= v / 16 < 65536 /\ 0 <= Z.of_nat (length ds) < 4) as [Hv16 Hl4] by (set (X := 16 ^ _) in *; lia). clear IH Hds Hv.
    rewrite in6_hex; [|lia|exact Hl4|exact Hv16].
    change (length [hex_char (v mod 16)]) with 1%nat. assert (Ew : v / 16 * 16 + v mod 16 = v) by lia. assert (En : Z.of_nat (length ds) + 1 = Z.of_nat (length ds + 1)) by lia.
    rewrite <- En. destruct s. cbn -[Z.div Z.modulo Z.mul Z.of_nat Z.add]. by rewrite Ew.
Qed.

Definition hex_text (w : Z) : bytes := match hex_num_loop hex NGX_INT64_LEN w [] with Ok t => t | _ => [] end.
Lemma hex_text_spec w : group w -> hex_num_loop hex NGX_INT64_LEN w [] = Ok (hex_text w) /\ (1 <= length (hex_text w) <= 4)%nat /\ Forall (fun c => c <> 58) (hex_text w) /\
  forall s rest, nibbles s = 0 -> word s = 0 -> in6_loop (hex_text w ++ rest) s = in6_loop rest (s <| nibbles := Z.of_nat (length (hex_text w)) |> <| word := w |>).
Proof.
  intros Hw. destruct (hex_group 4 ltac:(lia) w [] NGX_INT64_LEN ltac:(unfold NGX_INT64_LEN; lia) ltac:(unfold group in Hw; cbn; lia) ltac:(lia)) as (ds & E & Hl & H58 & Hds).
  rewrite app_nil_r in E. unfold hex_text. rewrite E. done.
Qed.

(** ** Addresses of eight groups *)

Definition ad (W : list Z) : bytes := concat (map (fun w => [w / 256; w mod 256]) W).
Lemma ad_app A B : ad (A ++ B) = ad A ++ ad B.
Proof. unfold ad. by rewrite map_app, concat_app. Qed.
Lemma ad_length W : length (ad W) = (2 * length W)%nat.
Proof. unfold ad. induction W as [|w W IH]; [done|]. cbn in *. lia. Qed.
Lemma ad_zeros n : ad (replicate n 0) = replicate (2 * n) 0.
Proof. induction n as [|n IH]; [done|]. change (ad (replicate (S n) 0)) with (0 :: 0 :: ad (replicate n 0)). rewrite IH. by replace (2 * S n)%nat with (S (S (2 * n))) by lia. Qed.

Lemma rd_ad A w C : rd (ad (A ++ w :: C)) (2 * length A) = Ok (w / 256) /\ rd (ad (A ++ w :: C)) (2 * length A + 1) = Ok (w mod 256).
Proof.
  rewrite ad_app. change (ad (w :: C)) with (w / 256 :: w mod 256 :: ad C).
  split; apply rd_lookup; rewrite lookup_app_r by (rewrite ad_length; lia); rewrite ad_length; [by rewrite Nat.sub_diag|].
  by replace (2 * length A + 1 - 2 * length A)%nat with 1%nat by lia.
Qed.

Lemma put16_group w s : group w -> put16 (Z.shiftr w 8) w s = s <| written := written s ++ [w / 256; w mod 256] |> <| left_ := left_ s - 1 |>.
Proof.
  unfold group, put16. intros Hw. change 255 with (Z.ones 8). rewrite !Z.land_ones, Z.shiftr_div_pow2 by lia. change (2 ^ 8) with 256.
  rewrite (Z.mod_small (w / 256)); [done|]. split; [apply Z.div_pos; lia|apply Z.div_lt_upper_bound; lia].
Qed.

(** Groups that are followed by a colon each. *)
Definition colons (W : list Z) : bytes := concat (map (fun w => hex_text w ++ [58]) W).
Definition at_start (s : in6) : Prop := nibbles s = 0 /\ word s = 0.

Lemma in6_colons W : forall s rest, Forall group W -> at_start s -> Z.of_nat (length W) < left_ s ->
  exists d, in6_loop (colons W ++ rest) s = in6_loop rest (mk_in6 (written s ++ ad W) (zero_at s) d 0 0 (left_ s - Z.of_nat (length W))) /\
    (d = if (length W =? 0)%nat then digit s else Some rest).
Proof.
  induction W as [|w W IH]; intros s rest HW [Hn Hw] Hl.
  { exists (digit s). split; [|done]. cbn [colons map concat app length]. destruct s. cbn in *. subst. by rewrite app_nil_r, Z.sub_0_r. }
  inversion HW as [|? ? Hg HW']; subst. destruct (hex_text_spec w Hg) as (_ & Hlen & _ & Hhex). cbn [colons map concat]. rewrite <- !app_assoc, Hhex by done.
  cbn [app in6_loop]. change (58 =? 58) with true. cbn match. set (s1 := s <| nibbles := _ |> <| word := w |>).
  assert (Hs1 : nibbles s1 = Z.of_nat (length (hex_text w)) /\ word s1 = w /\ written s1 = written s /\ zero_at s1 = zero_at s /\ left_ s1 = left_ s) by (by destruct s).
  destruct Hs1 as (E1 & E2 & E3 & E4 & E5). clearbody s1. rewrite E1, E2. destruct (Z.eqb_spec (Z.of_nat (length (hex_text w))) 0); [lia|]. cbn [negb].
  fold (colons W). rewrite put16_group by done. cbn [length] in Hl. rewrite Nat2Z.inj_succ in Hl.
  match goal with |- context [negb (left_ ?t =? 0)] => set (t1 := t) end. assert (Ht : left_ t1 = left_ s - 1 /\ written t1 = written s ++ [w / 256; w mod 256] /\ zero_at t1 = zero_at s /\ digit t1 = Some (colons W ++ rest)).
  { unfold t1. destruct s1. cbn in *. subst. done. }
  destruct Ht as (T1 & T2 & T3 & T4). clearbody t1. rewrite T1. destruct (Z.eqb_spec (left_ s - 1) 0); [lia|]. cbn [negb].
  destruct (IH (t1 <| nibbles := 0 |> <| word := 0 |>) rest HW') as (d & E & Hd); [by destruct t1|destruct t1; cbn in *; lia|].
  exists d. split; [|rewrite Hd; cbn; destruct t1; cbn in *; subst; by destruct W].
  rewrite E. destruct t1. cbn in *. subst. rewrite <- app_assoc. cbn [app]. f_equal. f_equal. rewrite Nat2Z.inj_succ. lia.
Qed.

(** The last group. *)
Lemma in6_last w s : group w -> at_start s -> in6_loop (hex_text w) s = Some (s <| nibbles := Z.of_nat (length (hex_text w)) |> <| word := w |>).
Proof. intros Hg [Hn Hw]. destruct (hex_text_spec w Hg) as (_ & _ & _ & H). specialize (H s [] Hn Hw). by rewrite app_nil_r in H. Qed.

Lemma end_plain wr d nb w : nb <> 0 -> group w -> in6_end (mk_in6 wr None d nb w 1) = Some (wr ++ [w / 256; w mod 256]).
Proof. intros Hnb Hw. unfold in6_end. cbn [nibbles zero_at word]. rewrite (proj2 (Z.eqb_neq nb 0)) by done. cbn [andb]. by rewrite put16_group. Qed.
Lemma end_run A B d nb w l : group w -> 2 <= l ->
  in6_end (mk_in6 (A ++ B) (Some (length A)) d nb w l) = Some (A ++ replicate (Z.to_nat (2 * (l - 1))) 0 ++ B ++ [w / 256; w mod 256]).
Proof.
  intros Hw Hl. unfold in6_end. cbn [nibbles zero_at word]. rewrite andb_false_r, put16_group by done. cbn [zero_at left_ written update].
  change (zero_at (_ <| left_ := _ |>)) with (Some (length A)). cbn -[Z.sub Z.mul]. destruct (Z.eqb_spec (l - 1) 0); [lia|].
  rewrite <- app_assoc, take_app_length, drop_app_length. by rewrite (Z.mul_comm _ 2).
Qed.

(** The groups behind the run of zeros. *)
Definition tail_text (C : list Z) : bytes := match rev C with [] => [] | w :: D => colons (rev D) ++ hex_text w end.
Lemma tail_snoc C w : tail_text (C ++ [w]) = colons C ++ hex_text w.
Proof. unfold tail_text. rewrite rev_app_distr. cbn. by rewrite rev_involutive. Qed.

Lemma read_run B C s : Forall group C -> at_start s -> zero_at s = None -> written s = ad B -> left_ s = 8 - Z.of_nat (length B) -> (length B + length C <= 6)%nat ->
  match in6_loop (58 :: tail_text C) s with None => None | Some s => in6_end s end = Some (ad B ++ ad (replicate (8 - length B - length C) 0) ++ ad C).
Proof.
  intros HC [Hn Hw] Hz Hwr Hl Hlen. cbn [in6_loop]. change (58 =? 58) with true. cbn match. rewrite Hn, Hz. change (0 =? 0) with true. cbn [negb].
  set (s1 := s <| digit := _ |> <| zero_at := _ |>).
  assert (Hs1 : at_start s1 /\ written s1 = ad B /\ zero_at s1 = Some (length (ad B)) /\ left_ s1 = 8 - Z.of_nat (length B)) by (unfold s1; destruct s; cbn in *; by subst).
  destruct Hs1 as (Hst & E1 & E2 & E3). clearbody s1. clear s Hn Hw Hz Hwr Hl. rewrite ad_zeros. destruct C as [|w C _] using rev_ind.
  - cbn [tail_text rev in6_loop]. destruct s1 as [wr z d nb wd l]. cbn in E1, E2, E3. destruct Hst as [Hnb Hwd]. cbn in Hnb, Hwd. subst.
    rewrite <- (app_nil_r (ad B)) at 1. rewrite end_run by (unfold group; cbn in *; lia). cbn [app]. change (ad []) with (@nil Z). rewrite app_nil_r. f_equal. f_equal.
    change [0 / 256; 0 mod 256] with (replicate 2 0). rewrite <- replicate_add. f_equal. cbn in *. lia.
  - rewrite tail_snoc. apply Forall_app in HC as [HC Hg]. inversion Hg as [|? ? Hw _]; subst. rewrite length_app in *. cbn [length] in *.
    destruct (in6_colons C s1 (hex_text w) HC Hst ltac:(lia)) as (d & E & _). rewrite E, in6_last by (done || (split; done)). rewrite E1, E2, E3. cbn [update].
    change (_ <| nibbles := _ |> <| word := w |>) with (mk_in6 (ad B ++ ad C) (Some (length (ad B))) d (Z.of_nat (length (hex_text w))) w (8 - Z.of_nat (length B) - Z.of_nat (length C))).
    rewrite end_run by (done || lia). f_equal. f_equal. rewrite (ad_app C [w]). f_equal. f_equal. lia.
Qed.

(** Decimal digits in front of a dot. *)
Lemma in6_digits ds : forall s rest, Forall Prelude.is_digit ds -> 0 <= nibbles s -> nibbles s + Z.of_nat (length ds) <= 4 ->
  exists w, in6_loop (ds ++ rest) s = in6_loop rest (s <| nibbles := nibbles s + Z.of_nat (length ds) |> <| word := w |>).
Proof.
  induction ds as [|c ds IH]; intros s rest Hd Hn Hl.
  { exists (word s). cbn [app length]. rewrite Z.add_0_r. by destruct s. }
  inversion Hd as [|? ? Hc Hd']; subst. pose proof (digit_bool c Hc) as Eb. unfold Prelude.is_digit in Hc. cbn [app in6_loop length] in *. rewrite Nat2Z.inj_succ in Hl.
  rewrite (proj2 (Z.eqb_neq c 58)), (proj2 (Z.eqb_neq c 46)), Eb by lia. cbn [andb]. destruct s as [wr z d nb w l]. cbn [nibbles update] in *.
  change (nibbles (_ <| nibbles := nb + 1 |>)) with (nb + 1). destruct (Z.ltb_spec 4 (nb + 1)); [lia|].
  match goal with |- context [in6_loop (ds ++ rest) ?t] => destruct (IH t rest Hd') as (w' & E) end; [cbn; lia|cbn; lia|].
  exists w'. rewrite E. replace (nb + Z.of_nat (S (length ds))) with (nb + 1 + Z.of_nat (length ds)) by lia. done.
Qed.

Definition none4 (a b c d : Z) : bool := (a =? 255) && (b =? 255) && (c =? 255) && (d =? 255).
Lemma addr4_none a b c d : byte a -> byte b -> byte c -> byte d -> (addr4 a b c d =? INADDR_NONE) = none4 d c b a.
Proof.
  unfold byte, addr4, none4, INADDR_NONE. intros. destruct (Z.eqb_spec a 255), (Z.eqb_spec b 255), (Z.eqb_spec c 255), (Z.eqb_spec d 255); cbn [andb]; apply Z.eqb_neq || apply Z.eqb_eq; lia.
Qed.

(** A dotted tail. *)
Lemma read_dotted D a b c d s : Forall group D -> byte a -> byte b -> byte c -> byte d -> at_start s -> zero_at s = None -> written s = [] -> left_ s = 8 -> (length D <= 5)%nat ->
  match in6_loop (58 :: colons D ++ dots a b c d) s with None => None | Some s => in6_end s end =
    if none4 a b c d then None else Some (ad (replicate (6 - length D) 0) ++ ad D ++ [a; b; c; d]).
Proof.
  intros HD Ha Hb Hc Hd [Hn Hw] Hz Hwr Hl Hlen. cbn [in6_loop]. change (58 =? 58) with true. cbn match. rewrite Hn, Hz. change (0 =? 0) with true. cbn [negb].
  set (s1 := s <| digit := _ |> <| zero_at := _ |>).
  assert (Hs1 : at_start s1 /\ written s1 = [] /\ zero_at s1 = Some 0%nat /\ left_ s1 = 8 /\ digit s1 = Some (colons D ++ dots a b c d)) by (unfold s1; destruct s; cbn in *; by subst).
  destruct Hs1 as (Hst & E1 & E2 & E3 & E4). clearbody s1. clear s Hn Hw Hz Hwr Hl.
  destruct (in6_colons D s1 (dots a b c d) HD Hst ltac:(lia)) as (dg & E & Hdg). rewrite E, E1, E2, E3.
  assert (Hdg' : dg = Some (dots a b c d)) by (rewrite Hdg; destruct D; [exact E4|done]). rewrite Hdg'. clear E Hdg Hdg' E1 E2 E3 E4 s1 Hst dg.
  unfold dots at 1. destruct (digits_spec a ltac:(unfold byte in *; lia)) as [_ Hdig]. pose proof (dec_short a Ha) as Hla.
  match goal with |- context [in6_loop (dec a ++ ?rest) ?t] => destruct (in6_digits (dec a) t rest Hdig) as (w & ->) end; [change (0 <= 0); lia|change (0 + Z.of_nat (length (dec a)) <= 4); lia|].
  cbn [in6_loop]. change (46 =? 58) with false. change (46 =? 46) with true. cbn match.
  match goal with |- context [negb (nibbles ?t =? 0)] => change (nibbles t) with (0 + Z.of_nat (length (dec a))) end.
  rewrite (proj2 (Z.eqb_neq (0 + Z.of_nat (length (dec a))) 0)) by lia. cbn [negb andb].
  match goal with |- context [digit ?t] => change (digit t) with (Some (dots a b c d)) end. cbn match.
  match goal with |- context [left_ ?t <? 2] => change (left_ t) with (8 - Z.of_nat (length D)) end. destruct (Z.ltb_spec (8 - Z.of_nat (length D)) 2); [lia|].
  rewrite inet_addr_dots, htonl_addr4, addr4_none by done. destruct (none4 a b c d); [done|]. unfold ntohl. rewrite htonl_addr4 by done.
  pose proof (mem32_addr4 a b c d Ha Hb Hc Hd) as Em. unfold mem32 in Em. injection Em as E1 E2 E3 E4.
  unfold put16. rewrite E3, E4. cbn -[Z.sub Z.mul Z.shiftr Z.land replicate ad]. unfold in6_end. cbn -[Z.sub Z.mul Z.shiftr Z.land replicate ad]. rewrite andb_false_r. unfold put16.
  cbn -[Z.sub Z.mul Z.shiftr Z.land replicate ad]. rewrite E1, E2. destruct (Z.eqb_spec (8 - Z.of_nat (length D) - 1 - 1) 0); [lia|].
  rewrite ad_zeros, <- !app_assoc. rewrite take_0, drop_0. cbn [app]. do 3 f_equal. lia.
Qed.

(** ** What is printed *)

Lemma group_bytes w : group w -> byte (w / 256) /\ byte (w mod 256) /\ w / 256 * 256 + w mod 256 = w.
Proof.
  unfold group, byte. intros Hw. pose proof (Z.div_mod w 256 ltac:(lia)). pose proof (Z.mod_pos_bound w 256 ltac:(lia)).
  assert (0 <= w / 256 < 256) by (split; [apply Z.div_pos|apply Z.div_lt_upper_bound]; lia). lia.
Qed.

(** The groups [Q] end with [n] zeros that begin at [last]; a run of [max] zeros
    among those in front of them begins at [zero]. *)
Definition run_info (Q : list Z) (zero last max n : Z) : Prop :=
  exists A m, Q = A ++ replicate m 0 /\ n = Z.of_nat m /\ ((0 < m)%nat -> last = 2 * Z.of_nat (length A)) /\
    (zero = 2 ^ 64 - 1 /\ max = 1 \/ exists B k C, A = B ++ replicate k 0 ++ C /\ zero = 2 * Z.of_nat (length B) /\ max = Z.of_nat k /\ (2 <= k)%nat).
Definition best_run (zero last max n : Z) : Z * Z := if max <? n then (last, n) else (zero, max).

Lemma run_info_best Q zero last max n : run_info Q zero last max n ->
  let '(zero, max) := best_run zero last max n in
  zero = 2 ^ 64 - 1 /\ max = 1 \/ exists B k C, Q = B ++ replicate k 0 ++ C /\ zero = 2 * Z.of_nat (length B) /\ max = Z.of_nat k /\ (2 <= k)%nat.
Proof.
  intros (A & m & -> & -> & Hlast & Hb). unfold best_run. destruct (Z.ltb_spec max (Z.of_nat m)).
  - assert (1 <= max) by (destruct Hb as [[_ ->]|(B & k & C & _ & _ & -> & ?)]; lia). right. exists A, m, []. rewrite app_nil_r. split; [done|]. split; [apply Hlast; lia|]. lia.
  - destruct Hb as [?|(B & k & C & -> & ? & ? & ?)]; [by left|right]. exists B, k, (C ++ replicate m 0). by rewrite <- !app_assoc.
Qed.

Lemma zero_run_ok R : forall Q zero last max n, Forall group R -> run_info Q zero last max n -> exists zero' last' max' n',
  zero_run (length R) (ad (Q ++ R)) (2 * length Q) zero last max n = Ok (zero', last', max', n') /\ run_info (Q ++ R) zero' last' max' n'.
Proof.
  induction R as [|w R IH]; intros Q zero last max n HR Hi; cbn [length zero_run].
  { rewrite app_nil_r. by exists zero, last, max, n. }
  inversion HR as [|? ? Hw HR']; subst. destruct (rd_ad Q w R) as [-> ->]. rewrite !obind_Ok. destruct (group_bytes w Hw) as (H1 & H2 & H3).
  assert (Ez : negb (w / 256 =? 0) || negb (w mod 256 =? 0) = negb (w =? 0)).
  { unfold byte in *. destruct (Z.eqb_spec (w / 256) 0), (Z.eqb_spec (w mod 256) 0), (Z.eqb_spec w 0); cbn; lia. }
  rewrite Ez. replace (2 * length Q + 2)%nat with (2 * length (Q ++ [w]))%nat by (rewrite length_app; cbn; lia).
  replace (Q ++ w :: R) with ((Q ++ [w]) ++ R) by by rewrite <- app_assoc. destruct (Z.eqb_spec w 0) as [->|Hne]; cbn [negb].
  - apply IH; [done|]. destruct Hi as (A & m & -> & -> & Hlast & Hb). exists A, (S m). rewrite <- app_assoc. change [0] with (replicate 1 0). rewrite <- replicate_add, Nat.add_1_r.
    split; [done|]. split; [lia|]. split; [|done]. intros _. destruct (Z.eqb_spec (Z.of_nat m) 0); [|apply Hlast; lia]. assert (m = 0%nat) as -> by lia. cbn [replicate]. rewrite app_nil_r. lia.
  - pose proof (run_info_best _ _ _ _ _ Hi) as Hbest. fold (best_run zero last max n). destruct (best_run zero last max n) as [z mx]. apply IH; [done|].
    exists (Q ++ [w]), 0%nat. cbn [replicate]. rewrite app_nil_r. split; [done|]. split; [done|]. split; [lia|].
    destruct Hbest as [?|(B & k & C & -> & ? & ? & ?)]; [by left|right]. exists B, k, (C ++ [w]). by rewrite <- !app_assoc.
Qed.

Lemma hex_print w : group w -> ngx_sprintf (bs "%uxi") [ANum w] = Ok (hex_text w).
Proof.
  intros Hw. destruct (hex_text_spec w Hw) as (E & _). change (bs "%uxi") with (37 :: 117 :: 120 :: 105 :: []). assert (Hb : 0 <= w < 2 ^ 64) by (unfold group in Hw; lia). rewrite (sprintf_uxi _ _ _ _ Hb E), sprintf_nil. cbn [obind].
  by rewrite app_nil_r.
Qed.

(** One group. *)
Lemma print_group f A w C n zero max : group w -> 2 * Z.of_nat (length A) < n -> zero <> 2 * Z.of_nat (length A) ->
  print_groups (S f) (ad (A ++ w :: C)) (2 * Z.of_nat (length A)) n zero max =
    let! t := print_groups f (ad (A ++ w :: C)) (2 * Z.of_nat (length (A ++ [w]))) n zero max in Ok (hex_text w ++ (if (length A <? 7)%nat then [58] else []) ++ t).
Proof.
  intros Hw Hn Hz. cbn [print_groups]. destruct (Z.leb_spec n (2 * Z.of_nat (length A))); [lia|]. destruct (Z.eqb_spec (2 * Z.of_nat (length A)) zero); [lia|].
  replace (Z.to_nat (2 * Z.of_nat (length A))) with (2 * length A)%nat by lia. destruct (rd_ad A w C) as [-> ->]. rewrite !obind_Ok.
  destruct (group_bytes w Hw) as (_ & _ & ->). rewrite hex_print, obind_Ok by done. replace (2 * Z.of_nat (length A) + 2) with (2 * Z.of_nat (length (A ++ [w]))) by (rewrite length_app; cbn [length]; lia).
  by replace (2 * Z.of_nat (length A) <? 14) with (length A <? 7)%nat by (destruct (Nat.ltb_spec (length A) 7), (Z.ltb_spec (2 * Z.of_nat (length A)) 14); lia).
Qed.

Lemma print_zeros f p i n max : i < n -> print_groups (S f) p i n i max = let! t := print_groups f p (i + (max - 1) * 2 + 2) n i max in Ok (58 :: t).
Proof. intros Hi. cbn [print_groups]. destruct (Z.leb_spec n i); [lia|]. by rewrite Z.eqb_refl. Qed.

(** Groups with a colon behind each. *)
Lemma print_colons X : forall A C f n zero max, Forall group X -> 2 * Z.of_nat (length A + length X) <= n -> (length A + length X <= 7)%nat ->
  zero < 2 * Z.of_nat (length A) \/ 2 * Z.of_nat (length A + length X) <= zero ->
  print_groups (length X + f) (ad (A ++ X ++ C)) (2 * Z.of_nat (length A)) n zero max =
    let! t := print_groups f (ad (A ++ X ++ C)) (2 * Z.of_nat (length (A ++ X))) n zero max in Ok (colons X ++ t).
Proof.
  induction X as [|w X IH]; intros A C f n zero max HX Hn H7 Hz.
  { cbn [length app Nat.add colons map concat]. rewrite app_nil_r. by destruct (print_groups f _ _ _ _ _). }
  inversion HX as [|? ? Hw HX']; subst. cbn [length] in *. cbn [Nat.add app]. rewrite print_group by (done || lia).
  replace (A ++ w :: X ++ C) with ((A ++ [w]) ++ X ++ C) by by rewrite <- app_assoc. rewrite IH; [|done|rewrite length_app; cbn [length]; lia..].
  destruct (Nat.ltb_spec (length A) 7); [|lia]. replace ((A ++ [w]) ++ X) with (A ++ w :: X) by by rewrite <- app_assoc.
  destruct (print_groups f _ _ _ _ _); cbn [obind]; try done. cbn [colons map concat]. by rewrite <- !app_assoc.
Qed.

(** The three forms of the text. *)
Inductive text_of (W : list Z) : bytes -> Prop :=
| Plain A w : W = A ++ [w] -> text_of W (colons A ++ hex_text w)
| Run B k C : W = B ++ replicate k 0 ++ C -> (2 <= k)%nat -> text_of W ((if (length B =? 0)%nat then [58] else []) ++ colons B ++ 58 :: tail_text C)
| Dotted D a b c d : W = replicate (6 - length D) 0 ++ D ++ [a * 256 + b; c * 256 + d] -> D = [] \/ D = [65535] -> byte a -> byte b -> byte c -> byte d ->
    text_of W (58 :: 58 :: colons D ++ dots a b c d).

Lemma print_tail f A C n zero max : Forall group C -> n = 2 * Z.of_nat (length A + length C) -> (length A + length C = 8)%nat -> zero < 2 * Z.of_nat (length A) ->
  print_groups (S (length C) + f) (ad (A ++ C)) (2 * Z.of_nat (length A)) n zero max = Ok (tail_text C).
Proof.
  intros HC -> H8 Hz. destruct C as [|w C _] using rev_ind.
  - cbn [length Nat.add print_groups]. rewrite app_nil_r. destruct (Z.leb_spec (2 * Z.of_nat (length A + 0)) (2 * Z.of_nat (length A))); [done|lia].
  - apply Forall_app in HC as [HC Hg]. inversion Hg as [|? ? Hw _]; subst. rewrite length_app, tail_snoc in *. cbn [length] in *.
    replace (S (length C + 1) + f)%nat with (length C + S (S f))%nat by lia. rewrite print_colons by (done || lia). rewrite app_assoc.
    rewrite print_group by (done || rewrite ?length_app; lia). destruct (Nat.ltb_spec (length (A ++ C)) 7); [rewrite length_app in *; lia|].
    cbn [print_groups]. rewrite !length_app. cbn [length]. destruct (Z.leb_spec (2 * Z.of_nat (length A + (length C + 1))) (2 * Z.of_nat (length A + length C + 1))); [|lia].
    cbn [obind app]. by rewrite app_nil_r.
Qed.

Lemma ntop_text W : length W = 8%nat -> Forall group W -> exists t, ngx_inet6_ntop (ad W) 45 = Ok t /\ text_of W t.
Proof.
  intros H8 HW. unfold ngx_inet6_ntop. change (45 <? NGX_INET6_ADDRSTRLEN) with false. cbn match.
  destruct (zero_run_ok W [] (2 ^ 64 - 1) (2 ^ 64 - 1) 1 0 HW) as (zero & last & max & n & E & Hi).
  { exists [], 0%nat. split; [done|]. split; [done|]. split; [lia|by left]. }
  rewrite H8 in E. change (2 * length (@nil Z))%nat with 0%nat in E. cbn [app] in E. rewrite E, obind_Ok. cbn match. clear E. pose proof (run_info_best _ _ _ _ _ Hi) as Hb. fold (best_run zero last max n).
  destruct (best_run zero last max n) as [z m]. clear zero last max n Hi. cbn [app] in Hb.
  assert (Hrd : forall j, (j < 8)%nat -> exists w, W !! j = Some w /\ rd (ad W) (2 * j) = Ok (w / 256) /\ rd (ad W) (2 * j + 1) = Ok (w mod 256)).
  { intros j Hj. destruct (lookup_lt_is_Some_2 W j ltac:(lia)) as [w Hw]. exists w. split; [done|]. apply list_elem_of_split_length in Hw as (A & C & -> & ->). apply rd_ad. }
  destruct (Hrd 5%nat ltac:(lia)) as (w5 & L5 & E10 & E11), (Hrd 7%nat ltac:(lia)) as (w7 & L7 & E14 & E15). cbn [Nat.mul Nat.add] in *. rewrite E10, E11, E14, E15, !obind_Ok. clear Hrd E10 E11 E14 E15.
  destruct Hb as [[-> ->]|(B & k & C & EW & -> & -> & Hk)].
  - change (2 ^ 64 - 1 =? 0) with false. cbn [andb]. change (16 =? 12) with false. cbn match.
    assert (HA : exists A w, W = A ++ [w] /\ length A = 7%nat) by (destruct W as [|w A _] using rev_ind; [done|]; rewrite length_app in H8; cbn in H8; exists A, w; split; [done|lia]).
    destruct HA as (A & w & -> & HA). apply Forall_app in HW as [HW Hg]. inversion Hg as [|? ? Hw _]; subst.
    pose proof (print_colons A [] [w] 2 16 (2 ^ 64 - 1) 1 HW) as E. cbn [app length] in E. rewrite HA in E. change (7 + 2)%nat with 9%nat in E. change (2 * Z.of_nat 0) with 0 in E.
    rewrite E by lia. pose proof (print_group 1 A w [] 16 (2 ^ 64 - 1) 1 Hw) as E'. rewrite HA in E'. change (2 * Z.of_nat 7) with 14 in *. rewrite E' by lia. rewrite length_app, HA.
    cbn [print_groups length Nat.add Nat.ltb]. change (16 <=? 2 * Z.of_nat 8) with true. cbn match. change (8 <=? 7)%nat with false. cbn [obind app]. rewrite app_nil_r. eexists. split; [reflexivity|]. by apply Plain.
  - subst W. rewrite !length_app, length_replicate in H8. rewrite !Forall_app in HW. destruct HW as (HB & Hzeros & HC).
    set (dotp := (2 * Z.of_nat (length B) =? 0) && _). destruct dotp eqn:Hd.
    + unfold dotp in Hd. rewrite !andb_true_iff, !orb_true_iff, !andb_true_iff in Hd. destruct Hd as [HB0 Hd]. assert (B = []) as -> by (apply Z.eqb_eq in HB0; destruct B; [done|cbn [length] in HB0; lia]).
      change (2 * Z.of_nat (length (@nil Z))) with 0 in *. cbn [app length Nat.add] in *. change (12 =? 12) with true. change (0 =? 0) with true. cbn match.
      assert (Hend : forall f, print_groups (S f) (ad (replicate k 0 ++ C)) 12 12 0 (Z.of_nat k) = Ok []) by done.
      assert (Hdots : forall D x y, group x -> group y -> replicate k 0 ++ C = replicate (6 - length D) 0 ++ D ++ [x; y] -> D = [] \/ D = [65535] -> (length D <= 1)%nat ->
        (let! w := ngx_sprintf (dotted (drop 12 (ad (replicate k 0 ++ C)))).1 (dotted (drop 12 (ad (replicate k 0 ++ C)))).2 in Ok ((58 :: 58 :: colons D) ++ w)) =
          Ok (58 :: 58 :: colons D ++ dots (x / 256) (x mod 256) (y / 256) (y mod 256)) /\
        text_of (replicate k 0 ++ C) (58 :: 58 :: colons D ++ dots (x / 256) (x mod 256) (y / 256) (y mod 256))).
      { intros D x y Hx Hy EW HD HlD. destruct (group_bytes x Hx) as (X1 & X2 & X3), (group_bytes y Hy) as (Y1 & Y2 & Y3). rewrite EW. split.
        - rewrite app_assoc, ad_app, drop_app_length' by (rewrite ad_length, length_app, length_replicate; lia).
          pose proof (sprintf_dotted [] (x / 256) (x mod 256) (y / 256) (y mod 256) [] X1 X2 Y1 Y2) as E. rewrite app_nil_r, sprintf_nil, obind_Ok, app_nil_r in E.
          change (dotted (ad [x; y])) with (bs "%ud.%ud.%ud.%ud", map ANum [x / 256; x mod 256; y / 256; y mod 256]). cbn [fst snd map]. rewrite E, obind_Ok. done.
        - apply Dotted; try done. by rewrite X3, Y3. }
      assert (HCg : forall x C', C = x :: C' -> group x /\ Forall group C') by (intros x C' ->; by inversion HC).
      destruct Hd as [[[[Hk5 H5a] H5b]|Hk6]|[[Hk7 _] _]].
      * assert (k = 5%nat) as -> by lia. destruct C as [|x [|y [|u [|? ?]]]]; cbn [length] in H8; try lia. destruct (HCg _ _ eq_refl) as [Hx HC']. inversion HC' as [|? ? Hy HC'']; subst. inversion HC'' as [|? ? Hu _]; subst.
        cbn in L5. injection L5 as <-. destruct (group_bytes x Hx) as (_ & _ & Ex). assert (x = 65535) as -> by lia.
        change (print_groups 9 ?p 0 12 0 (Z.of_nat 5)) with (let! t := print_groups 8 p (2 * Z.of_nat (length (replicate 5 0))) 12 0 (Z.of_nat 5) in Ok (58 :: t)).
        rewrite (print_group 7 (replicate 5 0) 65535 [y; u]) by (done || cbn; lia). change (2 * Z.of_nat (length (replicate 5 0 ++ [65535]))) with 12. rewrite Hend. cbn [obind].
        destruct (Hdots [65535] y u Hy Hu eq_refl ltac:(by right) ltac:(cbn; lia)) as [E HT]. eexists. split; [|exact HT]. exact E.
      * assert (k = 6%nat) as -> by lia. destruct C as [|y [|u [|? ?]]]; cbn [length] in H8; try lia. destruct (HCg _ _ eq_refl) as [Hy HC']. inversion HC' as [|? ? Hu _]; subst.
        change (print_groups 9 ?p 0 12 0 (Z.of_nat 6)) with (let! t := print_groups 8 p 12 12 0 (Z.of_nat 6) in Ok (58 :: t)). rewrite Hend. cbn [obind].
        destruct (Hdots [] y u Hy Hu eq_refl ltac:(by left) ltac:(cbn; lia)) as [E HT]. eexists. split; [|exact HT]. exact E.
      * assert (k = 7%nat) as -> by lia. destruct C as [|u [|? ?]]; cbn [length] in H8; try lia. destruct (HCg _ _ eq_refl) as [Hu _].
        change (print_groups 9 ?p 0 12 0 (Z.of_nat 7)) with (let! t := print_groups 8 p 14 12 0 (Z.of_nat 7) in Ok (58 :: t)). change (print_groups 8 ?p 14 12 0 (Z.of_nat 7)) with (Ok (A:=bytes) []). cbn [obind].
        destruct (Hdots [] 0 u ltac:(unfold group; lia) Hu eq_refl ltac:(by left) ltac:(cbn; lia)) as [E HT]. eexists. split; [|exact HT]. exact E.
    + change (16 =? 12) with false. cbn match. replace 9%nat with (length B + S (S (length C) + (k - 1)))%nat by lia.
      pose proof (print_colons B [] (replicate k 0 ++ C) (S (S (length C) + (k - 1))) 16 (2 * Z.of_nat (length B)) (Z.of_nat k) HB) as E.
      change (2 * Z.of_nat (length (@nil Z))) with 0 in E. change (length (@nil Z)) with 0%nat in E. cbn [app Nat.add] in E |- *. rewrite E by lia. clear E.
      rewrite print_zeros by lia.
      pose proof (print_tail (k - 1) (B ++ replicate k 0) C 16 (2 * Z.of_nat (length B)) (Z.of_nat k) HC) as E. rewrite !length_app, length_replicate, <- app_assoc in E. cbn [Nat.add] in E.
      replace (2 * Z.of_nat (length B) + (Z.of_nat k - 1) * 2 + 2) with (2 * Z.of_nat (length B + k)) by lia. rewrite E by lia. cbn [obind].
      eexists. split; [reflexivity|]. pose proof (Run (B ++ replicate k 0 ++ C) B k C eq_refl Hk) as HR.
      destruct (Z.eqb_spec (2 * Z.of_nat (length B)) 0), (Nat.eqb_spec (length B) 0); try lia; exact HR.
Qed.

(** ** The round trip *)

Definition broadcast (p : bytes) : Prop := p = replicate 12 0 ++ replicate 4 255 \/ p = replicate 10 0 ++ replicate 6 255.

Lemma first_not_colon w rest : group w -> exists c r, hex_text w ++ rest = c :: r /\ (c =? 58) = false.
Proof.
  intros Hw. destruct (hex_text_spec w Hw) as (_ & Hl & H58 & _). destruct (hex_text w) as [|c r]; [cbn in Hl; lia|]. inversion H58; subst. exists c, (r ++ rest). split; [done|]. lia.
Qed.
Lemma read_text t c r : t = c :: r -> (c =? 58) = false -> ngx_inet6_addr t = match in6_loop t (mk_in6 [] None None 0 0 8) with None => None | Some s => in6_end s end.
Proof. intros -> Hc. cbn [ngx_inet6_addr]. by rewrite Hc. Qed.

Lemma text_read W t : length W = 8%nat -> Forall group W -> text_of W t -> ngx_inet6_addr t = Some (ad W) \/ ngx_inet6_addr t = None /\ broadcast (ad W).
Proof.
  intros H8 HW HT. destruct HT as [A w ->|B k C -> Hk|D a b c d EW HD Ha Hb Hc Hd].
  - left. apply Forall_app in HW as [HA Hg]. inversion Hg as [|? ? Hw _]; subst. rewrite length_app in H8. cbn [length] in H8.
    assert (Hfirst : exists c r, colons A ++ hex_text w = c :: r /\ (c =? 58) = false).
    { destruct A as [|a A]; [cbn in H8; lia|]. inversion HA; subst. cbn [colons map concat]. rewrite <- !app_assoc. by apply first_not_colon. }
    destruct Hfirst as (c & r & Et & Hc). rewrite (read_text _ _ _ Et Hc). set (s0 := mk_in6 _ _ _ _ _ _).
    destruct (in6_colons A s0 (hex_text w) HA ltac:(done) ltac:(cbn; lia)) as (d & E & _). rewrite E, in6_last by done.
    assert (E1 : left_ s0 - Z.of_nat (length A) = 1) by (cbn [s0 left_]; lia). rewrite E1. cbn [update].
    change (_ <| nibbles := _ |> <| word := w |>) with (mk_in6 (ad A) None d (Z.of_nat (length (hex_text w))) w 1). destruct (hex_text_spec w Hw) as (_ & Hl & _).
    rewrite end_plain by (done || lia). by rewrite ad_app.
  - left. rewrite !Forall_app in HW. destruct HW as (HB & _ & HC). rewrite !length_app, length_replicate in H8. set (s0 := mk_in6 [] None None 0 0 8).
    assert (Hread : match in6_loop (colons B ++ 58 :: tail_text C) s0 with None => None | Some s => in6_end s end = Some (ad (B ++ replicate k 0 ++ C))).
    { destruct (in6_colons B s0 (58 :: tail_text C) HB ltac:(done) ltac:(cbn [s0 left_]; lia)) as (d & -> & _).
      rewrite (read_run B C) by (done || lia). rewrite !ad_app. replace (8 - length B - length C)%nat with k by lia. done. }
    destruct B as [|b B]; [exact Hread|]. cbn [length Nat.eqb]. inversion HB; subst.
    assert (Hf : exists c r, colons (b :: B) ++ 58 :: tail_text C = c :: r /\ (c =? 58) = false) by (cbn [colons map concat]; rewrite <- !app_assoc; by apply first_not_colon).
    destruct Hf as (c & r & Et & Hc). cbn [app]. rewrite (read_text _ _ _ Et Hc). exact Hread.
  - cbn [ngx_inet6_addr]. change (58 =? 58) with true. cbn match.
    assert (HDg : Forall group D /\ (length D <= 5)%nat) by (destruct HD as [->| ->]; [by split; [constructor|cbn; lia]|split; [by repeat constructor|cbn; lia]]).
    destruct HDg as [HDg HDl]. rewrite (read_dotted D a b c d) by done.
    assert (Ead : ad W = ad (replicate (6 - length D) 0) ++ ad D ++ [a; b; c; d]).
    { rewrite EW, !ad_app. do 2 f_equal. unfold ad. cbn [map concat app]. unfold byte in *. rewrite !(Z.add_comm (_ * 256)), !Z.div_add, !Z.mod_add, !Z.div_small, !Z.mod_small by lia. done. }
    destruct (none4 a b c d) eqn:E4; [right|left; by rewrite Ead]. split; [done|]. unfold none4 in E4. rewrite !andb_true_iff, !Z.eqb_eq in E4. destruct E4 as [[[-> ->] ->] ->].
    rewrite Ead. destruct HD as [->| ->]; [by left|by right].
Qed.

Lemma words_of p : Forall byte p -> forall n, length p = (2 * n)%nat -> exists W, p = ad W /\ length W = n /\ Forall group W.
Proof.
  intros Hp n. revert p Hp. induction n as [|n IH]; intros p Hp Hl; [by destruct p; [exists []|]|].
  destruct p as [|a [|b p]]; cbn [length] in Hl; try lia. inversion Hp as [|? ? Ha Hp']; subst. inversion Hp' as [|? ? Hb Hp'']; subst. destruct (IH p Hp'' ltac:(lia)) as (W & -> & <- & HW).
  unfold byte in *. exists (a * 256 + b :: W). split; [|split; [done|constructor; [unfold group; lia|done]]].
  change (ad (a * 256 + b :: W)) with ((a * 256 + b) / 256 :: (a * 256 + b) mod 256 :: ad W). rewrite (Z.add_comm (a * 256)), Z.div_add, Z.mod_add, Z.div_small, Z.mod_small by lia. done.
Qed.

Lemma colons_length A : Forall group A -> (length (colons A) <= 5 * length A)%nat.
Proof.
  induction 1 as [|w A Hw HA IH]; [done|]. destruct (hex_text_spec w Hw) as (_ & Hl & _). cbn [colons map concat length]. fold (colons A). rewrite !length_app. cbn [length]. lia.
Qed.
Lemma tail_length C : Forall group C -> (length (tail_text C) <= 5 * length C)%nat.
Proof.
  intros HC. destruct C as [|w C _] using rev_ind; [cbn; lia|]. apply Forall_app in HC as [HC Hg]. inversion Hg as [|? ? Hw _]; subst. rewrite tail_snoc, !length_app. cbn [length].
  pose proof (colons_length C HC). destruct (hex_text_spec w Hw) as (_ & Hl & _). lia.
Qed.
Lemma dots_length a b c d : byte a -> byte b -> byte c -> byte d -> (length (dots a b c d) <= 15)%nat.
Proof.
  intros Ha Hb Hc Hd. pose proof (dec_short a Ha). pose proof (dec_short b Hb). pose proof (dec_short c Hc). pose proof (dec_short d Hd).
  unfold dots. rewrite !length_app. cbn [length]. rewrite !length_app. cbn [length]. rewrite !length_app. cbn [length]. lia.
Qed.

Lemma text_of_length W t : length W = 8%nat -> Forall group W -> text_of W t -> (length t <= 39)%nat.
Proof.
  intros H8 HW HT. destruct HT as [A w ->|B k C -> Hk|D a b c d EW HD Ha Hb Hc Hd].
  - rewrite length_app in *. apply Forall_app in HW as [HA Hg]. inversion Hg as [|? ? Hw _]; subst. cbn [length] in *.
    pose proof (colons_length A HA). destruct (hex_text_spec w Hw) as (_ & Hl & _). lia.
  - rewrite !length_app, length_replicate in H8. rewrite !Forall_app in HW. destruct HW as (HB & _ & HC). rewrite !length_app. cbn [length].
    pose proof (colons_length B HB). pose proof (tail_length C HC). destruct (length B =? 0)%nat; cbn [length]; lia.
  - cbn [length]. rewrite length_app. pose proof (dots_length a b c d Ha Hb Hc Hd). assert (length (colons D) <= 5)%nat; [|lia].
    destruct HD as [->| ->]; [cbn; lia|]. apply (colons_length [65535]). by repeat constructor.
Qed.

(** C31: The text of an IPv6 address is read back.  For every address of 16 bytes
    [ngx_inet6_ntop] ends without reading outside it and writes at most 39 of the
    45 bytes it asks for, and [ngx_inet6_addr] reads the address back from them;
    but the two addresses whose text ends with 255.255.255.255 are rejected, since
    the value of that text is taken for an error. *)
Theorem inet6_roundtrip p : length p = 16%nat -> Forall byte p ->
  exists t, ngx_inet6_ntop p NGX_INET6_ADDRSTRLEN = Ok t /\ blen t <= 39 /\
    ((~ broadcast p -> ngx_inet6_addr t = Some p) /\ (broadcast p -> ngx_inet6_addr t = None)).
Proof.
  intros Hl Hp. destruct (words_of p Hp 8 Hl) as (W & -> & H8 & HW). destruct (ntop_text W H8 HW) as (t & E & HT). exists t. split; [exact E|].
  pose proof (text_of_length W t H8 HW HT). split; [unfold blen; lia|]. split.
  - intros Hb. by destruct (text_read W t H8 HW HT) as [?|[_ ?]].
  - clear -E. intros [Hb|Hb]; rewrite Hb in E; vm_compute in E; injection E as <-; vm_compute; reflexivity.
Qed.
Lemma inet6_roundtrip_witness :
  (exists t, ngx_inet6_ntop (ad [8193; 3512; 0; 0; 1; 0; 0; 1]) NGX_INET6_ADDRSTRLEN = Ok t /\ ngx_inet6_addr t = Some (ad [8193; 3512; 0; 0; 1; 0; 0; 1])) /\
  (exists t, ngx_inet6_ntop (ad [0; 0; 0; 0; 0; 65535; 65535; 65535]) NGX_INET6_ADDRSTRLEN = Ok t /\ ngx_inet6_addr t = None).
Proof.
  split.
  - destruct (inet6_roundtrip (ad [8193; 3512; 0; 0; 1; 0; 0; 1])) as (t & E & _ & H & _); [done|repeat constructor; done|]. exists t. split; [exact E|]. apply H. intros [Hb|Hb]; vm_compute in Hb; discriminate.
  - destruct (inet6_roundtrip (ad [0; 0; 0; 0; 0; 65535; 65535; 65535])) as (t & E & _ & _ & H); [done|repeat constructor; done|]. exists t. split; [exact E|]. apply H. by right.
Defined.

(** ** IPv4 *)

(** The text of an IPv4 address is at most 15 bytes and is read back; that of
    255.255.255.255 is read as the address, which is [INADDR_NONE]. *)
Lemma inet4_roundtrip a : 0 <= a < 2 ^ 32 -> exists t, ngx_inet_ntop AF_INET (mem32 a) NGX_INET_ADDRSTRLEN = Ok t /\ blen t <= 15 /\ ngx_inet_addr t = a.
Proof.
  intros Ha. destruct (addr4_bytes a Ha) as (x & y & z & w & -> & Hx & Hy & Hz & Hw). exists (dots w z y x).
  pose proof (dots_length w z y x Hw Hz Hy Hx) as Hl. rewrite mem32_addr4 by done. split; [|split; [unfold blen; lia|]].
  - pose proof (sprintf_dotted [] w z y x [] Hw Hz Hy Hx) as E. rewrite app_nil_r, sprintf_nil, obind_Ok, app_nil_r in E.
    unfold ngx_inet_ntop. cbn [take]. change (dotted [w; z; y; x]) with (bs "%ud.%ud.%ud.%ud", map ANum [w; z; y; x]). cbn [fst snd map].
    unfold ngx_snprintf, ngx_sprintf, ngx_vslprintf in *. rewrite (loop_cuts _ (Z.to_nat NGX_INET_ADDRSTRLEN) _ _ _ E). f_equal. apply take_ge. change (Z.to_nat NGX_INET_ADDRSTRLEN) with 15%nat. lia.
  - rewrite inet_addr_dots by done. by rewrite htonl_addr4.
Qed.

(** * Properties of networks

    What [ngx_ptocidr] reads is the prefix of the address, in the form in which
    the radix trees take it. *)
From stdpp Require Import list.
From S2P Require Import Prelude NgxString NgxStrUtil NgxPrintf NgxInet NgxRadixProps.
#[local] Open Scope Z_scope.
Import Printf Inet.

(** ** Addresses as bits *)

Lemma bits_split j k hi lo : 0 <= lo < 2 ^ Z.of_nat k -> bits (j + k) (hi * 2 ^ Z.of_nat k + lo) = bits j hi ++ bits k lo.
Proof.
  intros Hlo. assert (Hlow : forall i, (i <= k)%nat -> bits i (hi * 2 ^ Z.of_nat k + lo) = bits i lo).
  { induction i as [|i IH]; intros Hi; [done|]. cbn [bits]. rewrite IH by lia. f_equal.
    rewrite <- (Z.mod_pow2_bits_low (hi * _ + lo) (Z.of_nat k)), <- (Z.mod_pow2_bits_low lo (Z.of_nat k)) by lia. f_equal. rewrite Z.add_comm, Z.mod_add by lia. done. }
  induction j as [|j IH]; cbn [Nat.add app bits]; [by apply Hlow|]. rewrite IH. f_equal.
  replace (Z.of_nat (j + k)) with (Z.of_nat j + Z.of_nat k) by lia. rewrite <- Z.div_pow2_bits by lia. f_equal.
  rewrite Z.add_comm, Z.div_add, Z.div_small by lia. lia.
Qed.
Lemma bits_addr4 a b c d : byte a -> byte b -> byte c -> byte d -> bits 32 (addr4 a b c d) = bits128 [a; b; c; d].
Proof.
  unfold byte, addr4, bits128. intros Ha Hb Hc Hd. cbn [map concat]. rewrite app_nil_r.
  change 32%nat with (24 + 8)%nat. change 256 with (2 ^ Z.of_nat 8). rewrite (bits_split 24 8) by (cbn; lia). change 24%nat with (16 + 8)%nat. rewrite (bits_split 16 8) by (cbn; lia).
  change 16%nat with (8 + 8)%nat. rewrite (bits_split 8 8) by (cbn; lia). by rewrite <- !app_assoc.
Qed.
Lemma land_byte x : byte (Z.land x 255).
Proof. unfold byte. change 255 with (Z.ones 8). rewrite Z.land_ones by lia. apply Z.mod_pos_bound. lia. Qed.
Lemma bits_ntohl x : bits 32 (ntohl x) = bits128 (mem32 x).
Proof.
  assert (E : ntohl x = addr4 (Z.land x 255) (Z.land (Z.shiftr x 8) 255) (Z.land (Z.shiftr x 16) 255) (Z.land (Z.shiftr x 24) 255)).
  { unfold ntohl, htonl, addr4. rewrite !Z.shiftl_mul_pow2 by lia. lia. }
  rewrite E, bits_addr4 by apply land_byte. done.
Qed.

Definition both : list bool -> list bool -> list bool := zip_with andb.
Lemma bits_land j x y : bits j (Z.land x y) = both (bits j x) (bits j y).
Proof. induction j as [|j IH]; [done|]. cbn [bits both zip_with]. rewrite Z.land_spec, IH. done. Qed.
Lemma both_app a b c d : length a = length c -> both (a ++ b) (c ++ d) = both a c ++ both b d.
Proof. intros H. by apply zip_with_app. Qed.
Lemma bits128_land p q : length p = length q -> bits128 (zip_with Z.land p q) = both (bits128 p) (bits128 q).
Proof.
  revert q. induction p as [|x p IH]; intros [|y q] H; cbn in H; try done. unfold bits128 in *. cbn [zip_with map concat].
  rewrite both_app by by rewrite !bits_length. rewrite bits_land, IH by lia. done.
Qed.
Lemma mem32_land x y : mem32 (Z.land x y) = zip_with Z.land (mem32 x) (mem32 y).
Proof.
  assert (H : forall a b, Z.land (Z.land a b) 255 = Z.land (Z.land a 255) (Z.land b 255)) by (intros a b; apply Z.bits_inj'; intros i Hi; rewrite !Z.land_spec; by destruct (Z.testbit a i), (Z.testbit b i), (Z.testbit 255 i)).
  unfold mem32. cbn [zip_with]. by rewrite !Z.shiftr_land, !H.
Qed.

(** The mask of the first [n] of [k] bits. *)
Definition ones (k n : nat) : list bool := replicate n true ++ replicate (k - n) false.
Lemma both_ones l n : (n <= length l)%nat -> both l (ones (length l) n) = take n l ++ replicate (length l - n) false.
Proof.
  unfold ones. revert n. induction l as [|b l IH]; intros [|n] H; cbn in *; try done; try lia.
  - rewrite andb_false_r. f_equal. specialize (IH 0%nat ltac:(lia)). cbn in IH. by rewrite Nat.sub_0_r in IH.
  - rewrite andb_true_r. f_equal. apply IH. lia.
Qed.
Lemma masked_ones l n : (n <= length l)%nat -> masked (take n l ++ replicate (length l - n) false) (ones (length l) n) = take n l.
Proof.
  unfold ones. revert n. induction l as [|b l IH]; intros [|n] H; cbn in *; try done; try lia. f_equal. apply IH. lia.
Qed.

(** ** Masks *)

Lemma forall_below (f : nat -> bool) n m : forallb f (seq 0 n) = true -> (m < n)%nat -> f m = true.
Proof. intros H Hm. rewrite List.forallb_forall in H. apply H. apply in_seq. lia. Qed.

Definition mask4 (n : Z) : Z := if n =? 0 then 0 else htonl (u32 (Z.shiftl 4294967295 (32 - n))).
Lemma mask4_bits n : (n <= 32)%nat -> bits 32 (ntohl (mask4 (Z.of_nat n))) = ones 32 n.
Proof.
  intros Hn. apply (bool_decide_unpack _). pose proof (forall_below (fun n => bool_decide (bits 32 (ntohl (mask4 (Z.of_nat n))) = ones 32 n)) 33 n) as H. cbv beta in H.
  rewrite H; [done|vm_compute; reflexivity|lia].
Qed.
Lemma mask8_bits s : (s <= 8)%nat -> bits 8 (Z.land (Z.shiftl 255 (8 - Z.of_nat s)) 255) = ones 8 s.
Proof.
  intros Hn. apply (bool_decide_unpack _). pose proof (forall_below (fun s => bool_decide (bits 8 (Z.land (Z.shiftl 255 (8 - Z.of_nat s)) 255) = ones 8 s)) 9 s) as H. cbv beta in H.
  rewrite H; [done|vm_compute; reflexivity|lia].
Qed.

Lemma mask6_loop_spec addr : forall n, (n <= 8 * length addr)%nat -> let '(addr', mask, changed) := mask6_loop addr (Z.of_nat n) in
  addr' = zip_with Z.land addr mask /\ length mask = length addr /\ bits128 mask = ones (8 * length addr) n /\ changed = negb (bool_decide (addr = addr')).
Proof.
  induction addr as [|a addr IH]; intros n Hn; cbn [mask6_loop].
  { cbn in Hn. assert (n = 0%nat) as -> by lia. by split_and!. }
  set (s := Nat.min n 8). assert (Es : (if 8 <? Z.of_nat n then 8 else Z.of_nat n) = Z.of_nat s) by (destruct (Z.ltb_spec 8 (Z.of_nat n)); lia). rewrite Es.
  replace (Z.of_nat n - Z.of_nat s) with (Z.of_nat (n - s)) by lia. cbn [length] in *. specialize (IH (n - s)%nat ltac:(lia)).
  destruct (mask6_loop addr (Z.of_nat (n - s))) as [[addr' mask] ch]. destruct IH as (-> & Hl & Hb & ->). cbn [zip_with length]. split; [done|]. split; [lia|]. split.
  - unfold bits128 in *. cbn [map concat]. rewrite Hb, (mask8_bits s) by lia. unfold ones, s. destruct (Nat.le_ge_cases n 8).
    + rewrite Nat.min_l by lia. rewrite Nat.sub_diag. cbn [replicate app]. rewrite <- app_assoc, <- replicate_add. do 2 f_equal. lia.
    + rewrite Nat.min_r by lia. change (8 - 8)%nat with 0%nat. change (replicate 0 false) with (@nil bool). rewrite app_nil_r, app_assoc, <- replicate_add. do 2 f_equal; lia.
  - rewrite <- negb_andb. f_equal. apply eq_true_iff_eq. rewrite andb_true_iff, Z.eqb_eq, !bool_decide_eq_true. split; [by intros [<- <-]|by intros [= <- <-]].
Qed.

(** ** The length of what is read *)

Lemma in6_loop_length p : forall s s', in6_loop p s = Some s' -> Z.of_nat (length (written s)) + 2 * left_ s = 16 -> 1 <= left_ s -> (default 0%nat (zero_at s) <= length (written s))%nat ->
  Z.of_nat (length (written s')) + 2 * left_ s' = 16 /\ 1 <= left_ s' /\ (default 0%nat (zero_at s') <= length (written s'))%nat.
Proof.
  induction p as [|c p IH]; intros s s' E H1 H2 H3; cbn [in6_loop] in E; [by injection E as <-|].
  assert (Hput : forall hi lo t, written (put16 hi lo t) = written t ++ [Z.land hi 255; Z.land lo 255] /\ left_ (put16 hi lo t) = left_ t - 1 /\ zero_at (put16 hi lo t) = zero_at t) by done.
  destruct (c =? 58); [|destruct ((c =? 46) && negb (nibbles s =? 0))].
  - destruct (negb (nibbles s =? 0)).
    + match type of E with context [put16 ?a ?b ?t] => destruct (Hput a b t) as (P1 & P2 & P3); set (u := put16 a b t) in * end.
      change (left_ (s <| digit := Some p |>)) with (left_ s) in P2. change (written (s <| digit := Some p |>)) with (written s) in P1. change (zero_at (s <| digit := Some p |>)) with (zero_at s) in P3.
      destruct (Z.eqb_spec (left_ u) 0); cbn [negb] in E; [done|]. clearbody u. apply IH in E; [done|cbn..].
      * rewrite P1, P2, length_app. cbn [length]. lia.
      * lia.
      * rewrite P1, P3, length_app. lia.
    + destruct (zero_at s); [done|]. apply IH in E; [done|exact H1|exact H2|cbn; lia].
  - destruct (digit s); [|done]. destruct (Z.ltb_spec (left_ s) 2); [done|]. destruct (_ =? INADDR_NONE); [done|]. injection E as <-.
    match goal with |- context [put16 ?a ?b ?t] => destruct (Hput a b t) as (-> & -> & ->) end. rewrite length_app. cbn. lia.
  - cbv zeta in E. destruct (4 <? _); [done|]. destruct (is_digit c); [|destruct ((97 <=? _) && _); [|done]]; apply IH in E; done.
Qed.

Lemma inet6_addr_length p a : ngx_inet6_addr p = Some a -> length a = 16%nat.
Proof.
  destruct p as [|c p]; [done|]. cbn [ngx_inet6_addr]. set (q := if c =? 58 then p else c :: p). destruct (in6_loop q _) as [s|] eqn:E; [|done].
  destruct (in6_loop_length _ _ _ E ltac:(done) ltac:(cbn; lia) ltac:(cbn; lia)) as (H1 & H2 & H3). unfold in6_end. destruct (_ && _); [done|]. cbv zeta.
  set (s1 := put16 _ _ s). assert (E1 : written s1 = written s ++ [Z.land (Z.shiftr (word s) 8) 255; Z.land (word s) 255] /\ left_ s1 = left_ s - 1 /\ zero_at s1 = zero_at s) by done.
  destruct E1 as (E1 & E2 & E3). clearbody s1. rewrite E1, E2, E3. destruct (zero_at s) as [z|]; cbn [default] in H3; destruct (Z.eqb_spec (left_ s - 1) 0); intros [= <-].
  - rewrite !length_app, length_take, length_replicate, length_drop, !length_app. cbn [length]. lia.
  - rewrite length_app. cbn [length]. lia.
Qed.

(** ** Networks *)

Lemma cidr_parts t n : Forall (fun c => c <> 47) t -> (n <= 128)%nat ->
  Search.ngx_strlchr (t ++ 47 :: dec (Z.of_nat n)) 0 (length (t ++ 47 :: dec (Z.of_nat n))) 47 = Ok (Some (length t)) /\
  take (length t) (t ++ 47 :: dec (Z.of_nat n)) = t /\ Number.ngx_atoi (drop (S (length t)) (t ++ 47 :: dec (Z.of_nat n))) = Z.of_nat n.
Proof.
  intros Ht Hn. set (text := t ++ 47 :: dec (Z.of_nat n)). split; [|split].
  - unfold Search.ngx_strlchr. destruct (Search.strlchr_loop_spec text 0 (length text - 0) 47 ltac:(lia)) as (r & -> & Hr). cbn [drop Nat.add] in Hr.
    change (drop 0 text) with text in Hr. unfold text in Hr. rewrite Search.until_app in Hr by done. cbn [Search.until] in Hr. change (47 =? 47) with true in Hr. cbn match in Hr. rewrite app_nil_r, length_app in Hr.
    cbn [length] in Hr. destruct r as [r|]; cbn [default] in Hr; [unfold id in Hr; by rewrite Hr|lia].
  - unfold text; by rewrite take_app_length.
  - unfold text. replace (S (length t)) with (length t + 1)%nat by lia. rewrite <- drop_drop, drop_app_length. cbn [drop]. destruct (digits_spec (Z.of_nat n) ltac:(lia)) as [Hv Hd].
    rewrite <- Hv at 2. apply Number.ngx_atoi_exact; [apply digits_nonempty|done|rewrite Hv; unfold INT64_MAX; lia].
Qed.

(** C32: Networks are prefixes.  A text "address/n" of an IPv4 address and at most
    32, or of an IPv6 address and at most 128, is read as the network whose
    address has the first [n] bits of the address and zeros behind them, with
    [NGX_DONE] exactly when that is another address; used as key and mask of a
    radix tree it stands for the prefix of these [n] bits. *)
Theorem cidr_is_prefix t n : Forall (fun c => c <> 47) t ->
  (forall a, ngx_inet_addr t = a -> a <> INADDR_NONE -> (n <= 32)%nat -> exists addr mask,
     ngx_ptocidr (t ++ 47 :: dec (Z.of_nat n)) = Ok (if bool_decide (a = addr) then NGX_OK else NGX_DONE, Some (CIn addr mask)) /\
     bits 32 (ntohl addr) = take n (bits 32 (ntohl a)) ++ replicate (32 - n) false /\
     net32 (ntohl addr) (ntohl mask) = take n (bits 32 (ntohl a))) /\
  (forall p, ngx_inet_addr t = INADDR_NONE -> ngx_inet6_addr t = Some p -> (n <= 128)%nat -> exists addr mask,
     ngx_ptocidr (t ++ 47 :: dec (Z.of_nat n)) = Ok (if bool_decide (p = addr) then NGX_OK else NGX_DONE, Some (CIn6 addr mask)) /\
     length addr = 16%nat /\ bits128 addr = take n (bits128 p) ++ replicate (128 - n) false /\ net128 addr mask = take n (bits128 p)).
Proof.
  intros Ht. split.
  - intros a Ea Ha Hn. destruct (cidr_parts t n Ht ltac:(lia)) as (E1 & E2 & E3). unfold ngx_ptocidr. rewrite E1, obind_Ok, E2, Ea, E3. rewrite (proj2 (Z.eqb_neq a _)) by done. cbn [negb].
    destruct (Z.eqb_spec (Z.of_nat n) NGX_ERROR) as [Hx|_]; [unfold NGX_ERROR in Hx; lia|]. destruct (Z.ltb_spec 32 (Z.of_nat n)); [lia|]. cbn [orb]. fold (mask4 (Z.of_nat n)).
    exists (Z.land a (mask4 (Z.of_nat n))), (mask4 (Z.of_nat n)).
    assert (Hb : bits 32 (ntohl (Z.land a (mask4 (Z.of_nat n)))) = take n (bits 32 (ntohl a)) ++ replicate (32 - n) false).
    { rewrite bits_ntohl, mem32_land, bits128_land, <- !bits_ntohl, mask4_bits by done. pose proof (both_ones (bits 32 (ntohl a)) n) as H1. rewrite bits_length in H1. by apply H1. }
    split; [|split; [done|]].
    + f_equal. f_equal. destruct (Z.eqb_spec a (Z.land a (mask4 (Z.of_nat n)))); by case_bool_decide.
    + unfold net32. rewrite Hb, mask4_bits by done. pose proof (masked_ones (bits 32 (ntohl a)) n) as H1. rewrite bits_length in H1. by apply H1.
  - intros p Ea Ep Hn. destruct (cidr_parts t n Ht Hn) as (E1 & E2 & E3). unfold ngx_ptocidr. rewrite E1, obind_Ok, E2, Ea, E3, Ep. cbn [Z.eqb negb]. change (INADDR_NONE =? INADDR_NONE) with true. cbn [negb].
    destruct (Z.eqb_spec (Z.of_nat n) NGX_ERROR) as [Hx|_]; [unfold NGX_ERROR in Hx; lia|]. destruct (Z.ltb_spec 128 (Z.of_nat n)); [lia|]. cbn [orb].
    pose proof (inet6_addr_length _ _ Ep) as H16. pose proof (mask6_loop_spec p n ltac:(lia)) as HL. destruct (mask6_loop p (Z.of_nat n)) as [[addr mask] ch]. destruct HL as (-> & Hl & Hm & ->).
    rewrite H16 in Hm. change (8 * 16)%nat with 128%nat in Hm. exists (zip_with Z.land p mask), mask.
    assert (Hlp : length (bits128 p) = 128%nat) by (rewrite bits128_length; lia).
    assert (Hb : bits128 (zip_with Z.land p mask) = take n (bits128 p) ++ replicate (128 - n) false).
    { rewrite bits128_land, Hm by lia. pose proof (both_ones (bits128 p) n) as H1. rewrite Hlp in H1. by apply H1. }
    split; [by case_bool_decide|]. split; [rewrite length_zip_with; lia|]. split; [done|].
    unfold net128. rewrite Hb, Hm. pose proof (masked_ones (bits128 p) n) as H1. rewrite Hlp in H1. by apply H1.
Qed.
Lemma cidr_is_prefix_witness :
  (exists addr mask, ngx_ptocidr (bs "10.1.2.3" ++ 47 :: dec (Z.of_nat 8)) = Ok (NGX_DONE, Some (CIn addr mask)) /\ net32 (ntohl addr) (ntohl mask) = [false; false; false; false; true; false; true; false]) /\
  (exists addr mask, ngx_ptocidr (bs "8000::" ++ 47 :: dec (Z.of_nat 3)) = Ok (NGX_OK, Some (CIn6 addr mask)) /\ net128 addr mask = [true; false; false]).
Proof.
  split.
  - destruct (proj1 (cidr_is_prefix (bs "10.1.2.3") 8 ltac:(repeat constructor; discriminate)) (ngx_inet_addr (bs "10.1.2.3")) eq_refl ltac:(vm_compute; discriminate) ltac:(lia)) as (addr & mask & E & _ & H).
    exists addr, mask. split; [|rewrite H; vm_compute; reflexivity]. 
    assert (E' : ngx_ptocidr (bs "10.1.2.3" ++ 47 :: dec (Z.of_nat 8)) = Ok (NGX_DONE, Some (CIn 10 255))) by (vm_compute; reflexivity). rewrite E' in *. injection E as _ <- <-. reflexivity.
  - destruct (proj2 (cidr_is_prefix (bs "8000::") 3 ltac:(repeat constructor; discriminate)) (128 :: replicate 15 0) ltac:(vm_compute; reflexivity) ltac:(vm_compute; reflexivity) ltac:(lia)) as (addr & mask & E & _ & _ & H).
    exists addr, mask. split; [|rewrite H; vm_compute; reflexivity]. 
    assert (E' : ngx_ptocidr (bs "8000::" ++ 47 :: dec (Z.of_nat 3)) = Ok (NGX_OK, Some (CIn6 (128 :: replicate 15 0) (224 :: replicate 15 0)))) by (vm_compute; reflexivity). rewrite E' in *. injection E as _ <- <-. reflexivity.
Defined.
