(* ===== verification/NgxUrl.v ===== *)
(** * Addresses in a configuration: nginx/src/core/ngx_inet.c and ngx_parse.c

    [ngx_parse_url] with its three forms, the resolution of names at start-up, and
    the sizes and times of a configuration.  The text of a URL is followed by a NUL,
    as every word of a configuration is. *)
From S2P Require Import Prelude NgxString NgxStrUtil.
From S2P Require Export NgxPalloc NgxPrintf NgxInet.
#[local] Open Scope Z_scope.

Module Url.
Import Number Search Printf Inet.

(** [ngx_addr_t] *)
Record addr := mk_addr { a_sockaddr : sockaddr; socklen : Z; name : bytes }.
Definition sizeof_addr : Z := 32.
Definition sizeof_sockaddr (sa : sockaddr) : Z := match sa with SIn _ _ => 16 | SIn6 _ _ => 28 | SUn _ => 110 end.
Definition SUN_PATH : Z := 108.

(** [ngx_url_t]; [err] is the text of the error. *)
Record url := mk_url { text : bytes; host : bytes; port_text : bytes; uri : bytes; port : Z; default_port : Z; family : sa_family;
  listen : bool; uri_part : bool; no_resolve : bool; no_port : bool; wildcard : bool; u_socklen : Z; u_sockaddr : sockaddr;
  addrs : list addr; naddrs : Z; err : option bytes }.
#[export] Instance url_settable : Settable url := fun u =>
  mk_url (text u) (host u) (port_text u) (uri u) (port u) (default_port u) (family u) (listen u) (uri_part u) (no_resolve u) (no_port u) (wildcard u)
    (u_socklen u) (u_sockaddr u) (addrs u) (naddrs u) (err u).

Definition with_port (sa : sockaddr) (p : Z) : sockaddr := match sa with SIn a _ => SIn a p | SIn6 a _ => SIn6 a p | SUn path => SUn path end.
Definition with_addr (sa : sockaddr) (a : Z) : sockaddr := match sa with SIn _ p => SIn a p | _ => sa end.
Definition with_addr6 (sa : sockaddr) (a : bytes) : sockaddr := match sa with SIn6 _ p => SIn6 a p | _ => sa end.
Definition unspecified (sa : sockaddr) : bool :=
  match sa with SIn a _ => a =? INADDR_ANY | SIn6 a _ => forallb (Z.eqb 0) a | SUn _ => false end.

(** [data[a .. b)] *)
Definition sub (data : bytes) (a b : nat) : bytes := take (b - a) (drop a data).

Section Url.
Context {Osm : OSMem}.
(** The resolver of the C library: the addresses of a name that ends with a NUL, or
    [None]; addresses of other families are [AF_UNSPEC] here. *)
Context (getaddrinfo : bytes -> option (list (sa_family * sockaddr))).
Implicit Types (u : url) (pl : pool) (o : os).

Definition failed u (e : bytes) pl o : out (Z * url * pool * os) := Ok (NGX_ERROR, u <| err := Some e |>, pl, o).

(** ** Names *)

Definition is_inet (f : sa_family) : bool := match f with AF_INET | AF_INET6 => true | _ => false end.
Definition same_family (f g : sa_family) : bool := match f, g with AF_INET, AF_INET | AF_INET6, AF_INET6 => true | _, _ => false end.

(** The loop over the results of one family; [None]: no memory. *)
Fixpoint resolved_loop (f : sa_family) (len : Z) (p : Z) (l : list (sa_family * sockaddr)) pl o : out (option (list addr) * pool * os) :=
  match l with
  | [] => Ok (Some [], pl, o)
  | (g, sa) :: l' =>
      if negb (same_family g f) then resolved_loop f len p l' pl o
      else
        let! (m, pl, o) := ngx_pcalloc pl (sizeof_sockaddr sa) o in
        match m with
        | None => Ok (None, pl, o)
        | Some _ =>
            let sa := with_port sa p in
            let! (m, pl, o) := ngx_pnalloc pl len o in
            match m with
            | None => Ok (None, pl, o)
            | Some _ =>
                let! n := ngx_sock_ntop sa len true in
                let! (x, pl, o) := resolved_loop f len p l' pl o in
                Ok (match x with None => None | Some l => Some (mk_addr sa (sizeof_sockaddr sa) n :: l) end, pl, o)
            end
        end
  end.

(** The host begins at [start] of the text. *)
Definition ngx_inet_resolve_host (start : nat) u pl o : out (Z * url * pool * os) :=
  let p := htons (port u) in
  let '(m, o) := os_alloc o 1 (blen (host u) + 1) in
  match m with
  | None => Ok (NGX_ERROR, u, pl, o)
  | Some m =>
      let! name := ngx_cpystrn (text u) start (length (host u) + 1) in
      let o := os_free o m in
      match getaddrinfo name with
      | None => failed u (bs "host not found") pl o
      | Some res =>
          let n := Z.of_nat (length (List.filter (fun x => is_inet (fst x)) res)) in
          if n =? 0 then failed u (bs "host not found") pl o
          else
            let! (m, pl, o) := ngx_pcalloc pl (n * sizeof_addr) o in
            match m with
            | None => Ok (NGX_ERROR, u, pl, o)
            | Some _ =>
                let u := u <| naddrs := n |> in
                let! (x, pl, o) := resolved_loop AF_INET (NGX_INET_ADDRSTRLEN + 6) p res pl o in
                match x with
                | None => Ok (NGX_ERROR, u, pl, o)
                | Some l4 =>
                    let! (x, pl, o) := resolved_loop AF_INET6 (NGX_INET6_ADDRSTRLEN + 8) p res pl o in
                    match x with
                    | None => Ok (NGX_ERROR, u, pl, o)
                    | Some l6 => Ok (NGX_OK, u <| addrs := l4 ++ l6 |>, pl, o)
                    end
                end
            end
      end
  end.

(** ** Unix sockets *)

Definition ngx_parse_unix_domain_url u pl o : out (Z * url * pool * os) :=
  let data := text u in
  let stop := (length data - 1)%nat in
  let! colon := (if uri_part u then ngx_strlchr data 5 stop 58 else Ok None) in
  let u := match colon with Some c => u <| uri := sub data (S c) stop |> | None => u end in
  let stop := match colon with Some c => c | None => stop end in
  let len := Z.of_nat stop - 5 in
  if len =? 0 then failed u (bs "no path in the unix domain socket") pl o
  else
    let u := u <| host := sub data 5 stop |> in
    if SUN_PATH <? len + 1 then failed u (bs "too long path in the unix domain socket") pl o
    else
      let! path := ngx_cpystrn data 5 (Z.to_nat (len + 1)) in
      let u := u <| u_socklen := 110 |> <| u_sockaddr := SUn path |> in
      let! (m, pl, o) := ngx_pcalloc pl sizeof_addr o in
      match m with
      | None => Ok (NGX_ERROR, u, pl, o)
      | Some _ =>
          let! (m, pl, o) := ngx_pcalloc pl 110 o in
          match m with
          | None => Ok (NGX_ERROR, u, pl, o)
          | Some _ => Ok (NGX_OK, u <| family := AF_UNIX |> <| naddrs := 1 |> <| addrs := [mk_addr (SUn path) 110 (take (Z.to_nat (len + 5)) data)] |>, pl, o)
          end
      end.

(** ** Hosts and IPv4 addresses *)

(** The address whose text is the host: [u->addrs[0]]. *)
Definition add_addr u pl o : out (Z * url * pool * os) :=
  let u := u <| naddrs := 1 |> in
  let! (m, pl, o) := ngx_pcalloc pl sizeof_addr o in
  match m with
  | None => Ok (NGX_ERROR, u, pl, o)
  | Some _ =>
      let! (m, pl, o) := ngx_pcalloc pl (sizeof_sockaddr (u_sockaddr u)) o in
      match m with
      | None => Ok (NGX_ERROR, u, pl, o)
      | Some _ =>
          let len := blen (host u) + 6 in
          let! (m, pl, o) := ngx_pnalloc pl len o in
          match m with
          | None => Ok (NGX_ERROR, u, pl, o)
          | Some _ =>
              let! n := ngx_sprintf (bs "%V:%d") [AStr (host u); ANum (port u)] in
              if len <? blen n then Undef OutOfBounds
              else Ok (NGX_OK, u <| addrs := [mk_addr (u_sockaddr u) (sizeof_sockaddr (u_sockaddr u)) n] |>, pl, o)
          end
      end
  end.

(** The number of a port. *)
Definition port_ok (n : Z) : bool := (1 <=? n) && (n <=? 65535).
Definition set_port (n : Z) u : url := u <| port := uwrap 16 n |> <| u_sockaddr := with_port (u_sockaddr u) (htons n) |>.

(** From [len = last - host] on. *)
Definition inet_host (stop : nat) u pl o : out (Z * url * pool * os) :=
  if (stop =? 0)%nat then failed u (bs "no host") pl o
  else
    let u := u <| host := sub (text u) 0 stop |> in
    let! c := rd (text u) 0 in
    if listen u && (stop =? 1)%nat && (c =? 42) then Ok (NGX_OK, u <| u_sockaddr := with_addr (u_sockaddr u) INADDR_ANY |> <| wildcard := true |>, pl, o)
    else
      let a := ngx_inet_addr (host u) in
      let u := u <| u_sockaddr := with_addr (u_sockaddr u) a |> in
      if negb (a =? INADDR_NONE) then add_addr (if a =? INADDR_ANY then u <| wildcard := true |> else u) pl o
      else if no_resolve u then Ok (NGX_OK, u, pl, o)
      else
        let! (rc, u, pl, o) := ngx_inet_resolve_host 0 u pl o in
        if negb (rc =? NGX_OK) then Ok (NGX_ERROR, u, pl, o)
        else
          match addrs u with
          | [] => Undef OutOfBounds
          | x :: _ =>
              let u := u <| family := family_of (a_sockaddr x) |> <| u_socklen := socklen x |> <| u_sockaddr := a_sockaddr x |> in
              Ok (NGX_OK, if unspecified (u_sockaddr u) then u <| wildcard := true |> else u, pl, o)
          end.

(** The earlier of [uri] and [args]. *)
Definition uri_start (uri args : option nat) : option nat :=
  match args with
  | None => uri
  | Some a => match uri with None => Some a | Some x => Some (if (a <? x)%nat then a else x) end
  end.

Definition ngx_parse_inet_url u pl o : out (Z * url * pool * os) :=
  let u := u <| u_socklen := 16 |> <| u_sockaddr := SIn 0 0 |> <| family := AF_INET |> in
  let data := text u in
  let stop := (length data - 1)%nat in
  let! port := ngx_strlchr data 0 stop 58 in
  let! uri_ := ngx_strlchr data 0 stop 47 in
  let! args := ngx_strlchr data 0 stop 63 in
  let uri_ := uri_start uri_ args in
  if (match uri_ with Some _ => listen u || negb (uri_part u) | None => false end) then failed u (bs "invalid host") pl o
  else
    let u := match uri_ with Some x => u <| uri := sub data x stop |> | None => u end in
    let stop := match uri_ with Some x => x | None => stop end in
    let port := match port, uri_ with Some p, Some x => if (x <? p)%nat then None else Some p | _, _ => port end in
    match port with
    | Some p =>
        let n := ngx_atoi (sub data (S p) stop) in
        if negb (port_ok n) then failed u (bs "invalid port") pl o
        else inet_host p (set_port n u <| port_text := sub data (S p) stop |>) pl o
    | None =>
        let n := ngx_atoi (sub data 0 stop) in
        if (match uri_ with Some _ => false | None => true end) && listen u && negb (n =? NGX_ERROR) then
          if negb (port_ok n) then failed u (bs "invalid port") pl o
          else Ok (NGX_OK, set_port n u <| port_text := sub data 0 stop |> <| wildcard := true |>, pl, o)
        else inet_host stop (u <| no_port := true |> <| Url.port := default_port u |> <| u_sockaddr := with_port (u_sockaddr u) (htons (default_port u)) |>) pl o
    end.

(** ** IPv6 addresses *)

(** The port and the URI behind the bracket at [p]. *)
Definition inet6_rest (p : nat) u pl o : out (option bytes * url) :=
  let data := text u in
  let stop := (length data - 1)%nat in
  let! uri_ := ngx_strlchr data (S p) stop 47 in
  if (match uri_ with Some _ => listen u || negb (uri_part u) | None => false end) then Ok (Some (bs "invalid host"), u)
  else
    let u := match uri_ with Some x => u <| uri := sub data x stop |> | None => u end in
    let stop := match uri_ with Some x => x | None => stop end in
    let! c := rd data (S p) in
    if c =? 58 then
      let n := ngx_atoi (sub data (p + 2) stop) in
      if negb (port_ok n) then Ok (Some (bs "invalid port"), u) else Ok (None, set_port n u <| port_text := sub data (p + 2) stop |>)
    else Ok (None, u <| no_port := true |> <| port := default_port u |> <| u_sockaddr := with_port (u_sockaddr u) (htons (default_port u)) |>).

Definition ngx_parse_inet6_url u pl o : out (Z * url * pool * os) :=
  let u := u <| u_socklen := 28 |> <| u_sockaddr := SIn6 (replicate 16 0) 0 |> in
  let data := text u in
  let! p := ngx_strlchr data 1 (length data - 1) 93 in
  match p with
  | None => failed u (bs "invalid host") pl o
  | Some p =>
      let! (e, u) := inet6_rest p u pl o in
      match e with
      | Some e => failed u e pl o
      | None =>
          if (p =? 1)%nat then failed u (bs "no host") pl o
          else
            let u := u <| host := sub data 0 (S p) |> in
            match ngx_inet6_addr (sub data 1 p) with
            | None => failed u (bs "invalid IPv6 address") pl o
            | Some a =>
                let u := u <| u_sockaddr := with_addr6 (u_sockaddr u) a |> in
                add_addr ((if unspecified (u_sockaddr u) then u <| wildcard := true |> else u) <| family := AF_INET6 |>) pl o
            end
      end
  end.

Definition ngx_parse_url u pl o : out (Z * url * pool * os) :=
  let! n := ngx_strncasecmp (text u) 0 (bs "unix:") 0 5 in
  if n =? 0 then ngx_parse_unix_domain_url u pl o
  else
    let! c := rd (text u) 0 in
    if c =? 91 then ngx_parse_inet6_url u pl o else ngx_parse_inet_url u pl o.
(** The address and its length when they are found: [ngx_parse_addr]. *)
Definition ngx_parse_addr (text : bytes) pl o : out (Z * option (sockaddr * Z) * pool * os) :=
  let inaddr := ngx_inet_addr text in
  let sa := if negb (inaddr =? INADDR_NONE) then Some (SIn inaddr 0) else match ngx_inet6_addr text with Some a => Some (SIn6 a 0) | None => None end in
  match sa with
  | None => Ok (NGX_DECLINED, None, pl, o)
  | Some sa =>
      let! (m, pl, o) := ngx_pcalloc pl (sizeof_sockaddr sa) o in
      match m with
      | None => Ok (NGX_ERROR, None, pl, o)
      | Some _ => Ok (NGX_OK, Some (sa, sizeof_sockaddr sa), pl, o)
      end
  end.
End Url.
End Url.

(** ** Sizes and times: ngx_parse.c *)

Module Units.
Import Number Printf.

Definition is_unit (c lower : Z) : bool := (c =? lower) || (c =? lower - 32).

(** The length of the number and the scale that the last letter stands for. *)
Definition ngx_parse_size (line : bytes) : out Z :=
  let len := (length line - 1)%nat in
  let! unit := (if (length line =? 0)%nat then Undef OutOfBounds else rd line len) in
  let '(digits, scale) := if is_unit unit 107 then (take len line, 1024) else if is_unit unit 109 then (take len line, 1024 * 1024) else (line, 1) in
  let size := ngx_atosz digits in
  Ok (if size =? NGX_ERROR then NGX_ERROR else i64 (size * scale)).
Definition ngx_parse_offset (line : bytes) : out Z :=
  let len := (length line - 1)%nat in
  let! unit := (if (length line =? 0)%nat then Undef OutOfBounds else rd line len) in
  let '(digits, scale) :=
    if is_unit unit 107 then (take len line, 1024) else if is_unit unit 109 then (take len line, 1024 * 1024)
    else if is_unit unit 103 then (take len line, 1024 * 1024 * 1024) else (line, 1) in
  let offset := ngx_atoof digits in
  Ok (if offset =? NGX_ERROR then NGX_ERROR else i64 (offset * scale)).

(** The steps of [ngx_parse_time], in their order. *)
Definition st_start := 0.
Definition st_year := 1.
Definition st_month := 2.
Definition st_week := 3.
Definition st_day := 4.
Definition st_hour := 5.
Definition st_min := 6.
Definition st_sec := 7.
Definition st_msec := 8.
Definition st_last := 9.
Definition NGX_MAX_INT32_VALUE : Z := 2147483647.

(** The letter [c] behind a number, in front of [next]: the new step, [max] and
    [scale], and whether [next] belongs to it; [None]: [NGX_ERROR]. *)
Definition time_unit (is_sec : bool) (step c next : Z) : option (Z * Z * Z * bool) :=
  let unit (ok : bool) (st seconds : Z) := if ok then Some (st, NGX_MAX_INT32_VALUE / seconds, seconds, false) else None in
  if c =? 121 (* y *) then unit (step <=? st_start) st_year (60 * 60 * 24 * 365)
  else if c =? 77 (* M *) then unit (step <? st_month) st_month (60 * 60 * 24 * 30)
  else if c =? 119 (* w *) then unit (step <? st_week) st_week (60 * 60 * 24 * 7)
  else if c =? 100 (* d *) then unit (step <? st_day) st_day (60 * 60 * 24)
  else if c =? 104 (* h *) then unit (step <? st_hour) st_hour (60 * 60)
  else if c =? 109 (* m *) then
    if next =? 115 then if is_sec || (st_msec <=? step) then None else Some (st_msec, NGX_MAX_INT32_VALUE, 1, true)
    else unit (step <? st_min) st_min 60
  else if c =? 115 (* s *) then unit (step <? st_sec) st_sec 1
  else if c =? 32 then unit (step <? st_sec) st_last 1
  else None.

Fixpoint spaces (p : bytes) : bytes := match p with c :: p' => if c =? 32 then spaces p' else p | [] => [] end.

(** The text is followed by a NUL. *)
Fixpoint time_loop (fuel : nat) (is_sec : bool) (step value total : Z) (valid : bool) (p : bytes) : out Z :=
  match fuel with
  | O => NoFuel
  | S f =>
      match p with
      | [] => Ok (if valid then i64 (total + i64 (value * (if is_sec then 1 else 1000))) else NGX_ERROR)
      | c :: p =>
          if is_digit c then time_loop f is_sec step (i64 (value * 10 + (c - 48))) total true p
          else
            match time_unit is_sec step c (peek p) with
            | None => Ok NGX_ERROR
            | Some (step, max, scale, two) =>
                let p := if two : bool then drop 1 p else p in
                let '(scale, max) := if negb (step =? st_msec) && negb is_sec then (scale * 1000, max / 1000) else (scale, max) in
                if max <? u64 value then Ok NGX_ERROR
                else
                  let total := i64 (total + i64 (value * scale)) in
                  if NGX_MAX_INT32_VALUE <? u64 total then Ok NGX_ERROR else time_loop f is_sec step 0 total valid (spaces p)
            end
      end
  end.
Definition ngx_parse_time (line : bytes) (is_sec : bool) : out Z :=
  time_loop (S (length line)) is_sec (if is_sec then st_start else st_month) 0 0 false line.

Example parse_time_ex : ngx_parse_time (bs "1h 30m") true = Ok 5400 /\ ngx_parse_time (bs "1m500ms") false = Ok 60500 /\ ngx_parse_time (bs "1s2h") true = Ok NGX_ERROR.
Proof. vm_compute. done. Qed.
(** What is read behind the last unit is not checked. *)
Example parse_time_unchecked : ngx_parse_time (bs "3000000000") true = Ok 3000000000 /\ ngx_parse_size (bs "9223372036854775807k") = Ok (-1024).
Proof. vm_compute. done. Qed.
End Units.
