(* ===== verification/NgxUrlProps.v ===== *)
(** * Properties of the addresses in a configuration *)
From stdpp Require Import list.
From S2P Require Import Prelude NgxArray NgxString NgxStrUtil NgxStrUtilProps NgxPrintf NgxPrintfProps NgxInet NgxInetProps NgxUrl NginxProps.
#[local] Open Scope Z_scope.
Import Printf Inet Url.
#[local] Abbreviation dec := Prelude.digits.

(** ** Searches *)

Lemma strlchr_found a c n : forall p, (p + n <= length a)%nat -> exists r, Search.strlchr_loop a p n c = Ok r /\
  match r with
  | Some i => (p <= i < p + n)%nat /\ a !! i = Some c /\ (forall j, (p <= j < i)%nat -> a !! j <> Some c)
  | None => forall j, (p <= j < p + n)%nat -> a !! j <> Some c
  end.
Proof.
  induction n as [|n IH]; intros p Hp; cbn [Search.strlchr_loop]; [exists None; split; [done|]; intros j Hj; lia|].
  destruct (rd_in_range a p ltac:(lia)) as (x & Hx & ->). rewrite obind_Ok. destruct (Z.eqb_spec x c) as [->|Hne].
  - exists (Some p). split; [done|]. split; [lia|]. split; [done|]. intros j Hj. lia.
  - assert (Hpx : a !! p <> Some c) by congruence. destruct (IH (S p) ltac:(lia)) as (r & E & Hr). exists r. split; [done|]. destruct r as [i|].
    + destruct Hr as (H1 & H2 & H3). split; [lia|]. split; [done|]. intros j Hj. destruct (decide (j = p)) as [->|]; [done|]. apply H3. lia.
    + intros j Hj. destruct (decide (j = p)) as [->|]; [done|]. apply Hr. lia.
Qed.

(** The first [c] is at [i]. *)
Lemma strlchr_at a p stop c i : (p <= i < stop)%nat -> (stop <= length a)%nat -> a !! i = Some c -> (forall j, (p <= j < i)%nat -> a !! j <> Some c) ->
  Search.ngx_strlchr a p stop c = Ok (Some i).
Proof.
  intros Hi Hs Ha Hb. unfold Search.ngx_strlchr. destruct (strlchr_found a c (stop - p) p ltac:(lia)) as (r & -> & Hr). f_equal. destruct r as [k|]; [|exfalso; apply (Hr i); [lia|done]].
  destruct Hr as (H1 & H2 & H3). f_equal. destruct (Nat.lt_trichotomy k i) as [H|[H|H]]; [exfalso; apply (Hb k); [lia|done]|done|exfalso; apply (H3 i); [lia|done]].
Qed.
Lemma strlchr_nowhere a p stop c : (stop <= length a)%nat -> (p <= stop)%nat -> (forall j, (p <= j < stop)%nat -> a !! j <> Some c) -> Search.ngx_strlchr a p stop c = Ok None.
Proof.
  intros Hs Hp Hb. unfold Search.ngx_strlchr. destruct (strlchr_found a c (stop - p) p ltac:(lia)) as (r & -> & Hr). destruct r as [k|]; [|done].
  destruct Hr as (H1 & H2 & _). exfalso. apply (Hb k); [lia|done].
Qed.
(** Nothing is found in front of [i]. *)
Lemma strlchr_from a p stop c i : (p <= i <= stop)%nat -> (stop <= length a)%nat -> (forall j, (p <= j < i)%nat -> a !! j <> Some c) ->
  exists r, Search.ngx_strlchr a p stop c = Ok r /\ match r with Some k => (i <= k < stop)%nat /\ a !! k = Some c | None => True end.
Proof.
  intros Hi Hs Hb. unfold Search.ngx_strlchr. destruct (strlchr_found a c (stop - p) p ltac:(lia)) as (r & -> & Hr). exists r. split; [done|]. destruct r as [k|]; [|done].
  destruct Hr as (H1 & H2 & _). split; [|done]. destruct (Nat.lt_ge_cases k i); [exfalso; apply (Hb k); [lia|done]|lia].
Qed.

(** ** The characters of addresses *)

Definition dotted_char (c : Z) : Prop := 48 <= c <= 57 \/ c = 46.
Lemma inet_loop_chars t : forall addr octet n r, inet_loop addr octet n t = Some r -> Forall dotted_char t.
Proof.
  induction t as [|c t IH]; intros addr octet n r E; [constructor|]. cbn [inet_loop] in E. destruct (Printf.is_digit c) eqn:Ed.
  - constructor; [unfold Printf.is_digit in Ed; left; lia|]. by eapply IH.
  - destruct (Z.eqb_spec c 46) as [->|]; [|done]. cbn [andb] in E. destruct (octet <? 256); [|done]. constructor; [by right|]. by eapply IH.
Qed.
Lemma inet_loop_dots t : forall addr octet n r, inet_loop addr octet n t = Some r -> Forall (fun c => c <> 46) t -> exists x y, r = (x, y, n).
Proof.
  induction t as [|c t IH]; intros addr octet n r E Hd; [injection E as <-; by eexists _, _|]. inversion Hd; subst. cbn [inet_loop] in E.
  destruct (Printf.is_digit c); [by eapply IH|]. destruct (Z.eqb_spec c 46); done.
Qed.
Lemma inet_addr_chars t : ngx_inet_addr t <> INADDR_NONE -> Forall dotted_char t /\ Number.ngx_atoi t = NGX_ERROR /\ t <> [].
Proof.
  unfold ngx_inet_addr. intros H. destruct (inet_loop 0 0 0 t) as [[[x y] n]|] eqn:E; [|done]. split; [by eapply inet_loop_chars|].
  destruct (decide (Forall (fun c => c <> 46) t)) as [Hd|Hd].
  - destruct (inet_loop_dots _ _ _ _ _ E Hd) as (? & ? & [= -> -> ->]). done.
  - split; [|intros ->; by apply Hd]. unfold Number.ngx_atoi. destruct t as [|c t]; [done|]. cbn [length Nat.eqb].
    rewrite Number.dec_loop_error; [done|]. intros Hall. apply Hd. eapply Forall_impl; [exact Hall|]. intros z Hz. unfold Prelude.is_digit in Hz. lia.
Qed.

Lemma atoi_port n : 0 <= n <= 65535 -> Number.ngx_atoi (dec n) = n.
Proof.
  intros Hn. destruct (digits_spec n ltac:(lia)) as [Hv Hd]. rewrite <- Hv at 2. apply Number.ngx_atoi_exact; [apply digits_nonempty|done|rewrite Hv; unfold INT64_MAX; lia].
Qed.
Lemma port_length n : 0 <= n <= 65535 -> (length (dec n) <= 5)%nat.
Proof. intros Hn. apply (digits_length n 4). lia. Qed.

Section Url.
Context {Osm : OSMem} (getaddrinfo : bytes -> option (list (sa_family * sockaddr))).
Implicit Types (u : url) (pl : pool) (o : os).

Lemma sub_app A M B : sub (A ++ M ++ B) (length A) (length A + length M) = M.
Proof. unfold sub. rewrite drop_app_length. replace (length A + length M - length A)%nat with (length M) by lia. by rewrite take_app_length. Qed.

(** [u->addrs[0]] *)
Lemma add_addr_ok u pl o : sizeof_pool_large_t <= p_max pl -> 0 <= port u <= 65535 -> exists rc u' pl' o', add_addr u pl o = Ok (rc, u', pl', o') /\
  (rc = NGX_ERROR /\ err u' = err u \/
   rc = NGX_OK /\ u' = u <| naddrs := 1 |> <| addrs := [mk_addr (u_sockaddr u) (sizeof_sockaddr (u_sockaddr u)) (host u ++ 58 :: dec (port u))] |>).
Proof.
  intros Hm Hp. unfold add_addr, ngx_pcalloc. destruct (palloc_max pl sizeof_addr o Hm) as (r & pl1 & o1 & -> & Hm1). rewrite obind_Ok.
  destruct r; [|do 4 eexists; split; [reflexivity|by left]]. change (u_sockaddr (u <| naddrs := 1 |>)) with (u_sockaddr u).
  destruct (palloc_max pl1 (sizeof_sockaddr (u_sockaddr u)) o1 ltac:(lia)) as (r & pl2 & o2 & -> & Hm2). rewrite obind_Ok.
  destruct r; [|do 4 eexists; split; [reflexivity|by left]]. cbv zeta. change (host (u <| naddrs := 1 |>)) with (host u). change (port (u <| naddrs := 1 |>)) with (port u).
  destruct (pnalloc_total pl2 (blen (host u) + 6) o2 ltac:(lia)) as (r & pl3 & o3 & -> & Hm3). rewrite obind_Ok.
  destruct r; [|do 4 eexists; split; [reflexivity|by left]].
  assert (E : ngx_sprintf (bs "%V:%d") [AStr (host u); ANum (port u)] = Ok (host u ++ 58 :: dec (port u))).
  { change (bs "%V:%d") with (37 :: 86 :: [58] ++ 37 :: 100 :: []). rewrite sprintf_V, sprintf_text, sprintf_d, sprintf_nil by (done || lia). cbn [obind app]. by rewrite app_nil_r. }
  rewrite E, obind_Ok. pose proof (port_length (port u) Hp). destruct (Z.ltb_spec (blen (host u) + 6) (blen (host u ++ 58 :: dec (port u)))) as [Hlt|_].
  { exfalso. unfold blen in Hlt. rewrite length_app in Hlt. cbn [length] in Hlt. lia. }
  do 4 eexists. split; [reflexivity|]. right. done.
Qed.

Definition port_suffix (p : option Z) : bytes := match p with Some n => 58 :: dec n | None => [] end.
(** A URL may follow where one is looked for. *)
Definition uri_follows u (rest : bytes) : Prop := rest = [] \/ (exists c r, rest = c :: r /\ (c = 47 \/ c = 63)) /\ listen u = false /\ uri_part u = true.

Lemma digit_not c z : Prelude.is_digit c -> z < 48 \/ 57 < z -> c <> z.
Proof. unfold Prelude.is_digit. lia. Qed.

(** What is in front of the URI. *)
Lemma front_chars t p j x : Forall dotted_char t -> (forall n, p = Some n -> 0 <= n) -> (t ++ port_suffix p) !! j = Some x -> x <> 47 /\ x <> 63 /\ ((j < length t)%nat -> x <> 58 /\ x <> 91 /\ x <> 42).
Proof.
  intros Ht Hp Hj. apply lookup_app_Some in Hj as [Hj|[Hl Hj]].
  - rewrite Forall_lookup in Ht. specialize (Ht _ _ Hj). unfold dotted_char in Ht. lia.
  - destruct p as [n|]; [|done]. assert (H : x = 58 \/ 48 <= x <= 57); [|lia]. cbn [port_suffix] in Hj. destruct (j - length t)%nat as [|k]; [injection Hj as <-; by left|right].
    destruct (digits_spec n (Hp n eq_refl)) as [_ Hd]. rewrite Forall_lookup in Hd. exact (Hd _ _ Hj).
Qed.

(** The host and the port in front of [stop] when the URI is found. *)
Lemma inet_host_ok t a u pl o : ngx_inet_addr t = a -> a <> INADDR_NONE -> (exists rest, text u = t ++ rest) -> sizeof_pool_large_t <= p_max pl -> 0 <= port u <= 65535 ->
  exists rc u' pl' o', inet_host getaddrinfo (length t) u pl o = Ok (rc, u', pl', o') /\
    (rc = NGX_ERROR /\ err u' = err u \/
     rc = NGX_OK /\ exists sa, sa = with_addr (u_sockaddr u) a /\
       u' = u <| host := t |> <| u_sockaddr := sa |> <| wildcard := wildcard u || (a =? INADDR_ANY) |> <| naddrs := 1 |> <| addrs := [mk_addr sa (sizeof_sockaddr sa) (t ++ 58 :: dec (port u))] |>).
Proof.
  intros Ha Hn (rest & Et) Hm Hp. assert (Hne : ngx_inet_addr t <> INADDR_NONE) by (by rewrite Ha). destruct (inet_addr_chars t Hne) as (Hc & _ & Hnil).
  assert (Hsub : sub (text u) 0 (length t) = t) by (rewrite Et; unfold sub; rewrite drop_0, Nat.sub_0_r; by rewrite take_app_length).
  unfold inet_host. destruct t as [|c t]; [done|]. change (length (c :: t) =? 0)%nat with false. cbn match.
  assert (Ec : rd (text u) 0 = Ok c) by (rewrite Et; done). rewrite Hsub. change (text (u <| host := c :: t |>)) with (text u). rewrite Ec, obind_Ok. apply Forall_cons_1 in Hc as [Hc1 _].
  assert (E42 : (c =? 42) = false) by (apply Z.eqb_neq; unfold dotted_char in Hc1; lia). rewrite E42, andb_false_r. cbn match.
  change (host (u <| host := c :: t |>)) with (c :: t). rewrite Ha. rewrite (proj2 (Z.eqb_neq a INADDR_NONE)) by done. cbn [negb].
  match goal with |- context [add_addr ?x pl o] => destruct (add_addr_ok x pl o Hm) as (rc & u' & pl' & o' & -> & H) end; [by destruct (a =? INADDR_ANY)|].
  exists rc, u', pl', o'. split; [done|]. destruct H as [[-> ->]|[-> ->]]; [left; split; [done|by destruct (a =? INADDR_ANY)]|right]. split; [done|]. eexists. split; [reflexivity|].
  destruct (a =? INADDR_ANY); [by rewrite orb_true_r|]. rewrite orb_false_r. by destruct u.
Qed.

(** Where the URI begins. *)
Lemma uri_start_ok D x rest : (forall j, (j < length D)%nat -> forall c, D !! j = Some c -> c <> 47 /\ c <> 63) ->
  (rest = [] \/ exists c r, rest = c :: r /\ (c = 47 \/ c = 63)) ->
  exists s q, Search.ngx_strlchr (D ++ rest ++ [x]) 0 (length D + length rest) 47 = Ok s /\
    Search.ngx_strlchr (D ++ rest ++ [x]) 0 (length D + length rest) 63 = Ok q /\ uri_start s q = match rest with [] => None | _ => Some (length D) end.
Proof.
  intros HD Hr. set (a := D ++ rest ++ [x]). assert (Hlen : (length a = length D + length rest + 1)%nat) by (unfold a; rewrite !length_app; cbn [length]; lia).
  assert (Hfree : forall c, c = 47 \/ c = 63 -> forall j, (0 <= j < length D)%nat -> a !! j <> Some c).
  { intros c Hc j Hj. unfold a. rewrite lookup_app_l by lia. intros E. destruct (HD j ltac:(lia) _ E). lia. }
  destruct (strlchr_from a 0 (length D + length rest) 47 (length D) ltac:(lia) ltac:(lia) (Hfree 47 ltac:(lia))) as (s & Es & Hs).
  destruct (strlchr_from a 0 (length D + length rest) 63 (length D) ltac:(lia) ltac:(lia) (Hfree 63 ltac:(lia))) as (q & Eq & Hq).
  destruct Hr as [->|(c & r & -> & Hc)].
  - exists s, q. split; [done|]. split; [done|]. cbn [length] in Hs, Hq. destruct s; [lia|]. destruct q; [lia|]. done.
  - assert (Ha : a !! length D = Some c) by (unfold a; cbn [app]; by rewrite list_lookup_middle). cbn [length] in *.
    destruct Hc as [->| ->].
    + rewrite (strlchr_at a 0 (length D + S (length r)) 47 (length D)) in Es |- * by (lia || done || (apply Hfree; lia)). exists (Some (length D)), q.
      split; [done|]. split; [done|]. destruct q as [k|]; [|done]. destruct Hq as [Hq _]. cbn [uri_start]. by rewrite (proj2 (Nat.ltb_ge _ _)) by lia.
    + exists s, (Some (length D)). split; [done|]. split; [apply strlchr_at; [lia|lia|done|apply Hfree; lia]|].
      destruct s as [k|]; [|done]. destruct Hs as [Hs Hk]. assert (k <> length D) by congruence. cbn [uri_start]. by rewrite (proj2 (Nat.ltb_lt _ _)) by lia.
Qed.

(** Where the port begins, once the URI is known. *)
Lemma port_found t popt rest x : Forall (fun c => c <> 58) t -> (rest = [] \/ exists c r, rest = c :: r /\ (c = 47 \/ c = 63)) ->
  let D := t ++ port_suffix popt in
  exists p, Search.ngx_strlchr (D ++ rest ++ [x]) 0 (length D + length rest) 58 = Ok p /\
    match p, match rest with [] => None | _ => Some (length D) end with Some k, Some x => if (x <? k)%nat then None else Some k | _, _ => p end
    = (match popt with Some _ => Some (length t) | None => None end).
Proof.
  intros Ht Hr D. assert (Hlen : (length (D ++ rest ++ [x]) = length D + length rest + 1)%nat) by (rewrite !length_app; cbn [length]; lia).
  assert (Hfree : forall j, (0 <= j < length t)%nat -> (D ++ rest ++ [x]) !! j <> Some 58).
  { intros j Hj. unfold D. rewrite <- app_assoc, lookup_app_l by lia. intros E. by eapply (proj1 (Forall_lookup _ _) Ht). }
  assert (HD : (length D = length t + length (port_suffix popt))%nat) by (unfold D; by rewrite length_app). destruct popt as [n|].
  - cbn [port_suffix length] in HD. exists (Some (length t)). split; [apply strlchr_at; [lia|lia| |done]|].
    + unfold D. rewrite <- app_assoc. cbn [port_suffix app]. by rewrite list_lookup_middle.
    + destruct rest; [done|]. by rewrite (proj2 (Nat.ltb_ge _ _)) by lia.
  - cbn [port_suffix length] in HD. destruct (strlchr_from (D ++ rest ++ [x]) 0 (length D + length rest) 58 (length t) ltac:(lia) ltac:(lia) Hfree) as (p & E & Hp).
    exists p. split; [done|]. destruct p as [k|]; [|done]. destruct Hp as [Hp Hk]. destruct Hr as [->|(c & r & -> & Hc)]; [cbn [length] in Hp; lia|].
    assert (k <> length D). { intros ->. cbn [app] in Hk. rewrite list_lookup_middle in Hk by done. injection Hk as ->. lia. }
    by rewrite (proj2 (Nat.ltb_lt _ _)) by lia.
Qed.

Definition port_of u (popt : option Z) : Z := match popt with Some n => n | None => default_port u end.
Definition uri_of u (rest : bytes) : bytes := match rest with [] => uri u | _ => rest end.

(** What a URL with the IPv4 address [t] (the number [a]) is read as. *)
Definition reads_as u (t rest : bytes) (a : Z) (popt : option Z) (u' : url) : Prop :=
  let n := port_of u popt in
  host u' = t /\ port u' = n /\ uri u' = uri_of u rest /\ family u' = AF_INET /\ u_socklen u' = 16 /\ u_sockaddr u' = SIn a (htons n) /\
  no_port u' = match popt with Some _ => no_port u | None => true end /\ wildcard u' = wildcard u || (a =? INADDR_ANY) /\
  naddrs u' = 1 /\ addrs u' = [mk_addr (SIn a (htons n)) 16 (t ++ 58 :: dec n)] /\ err u' = err u.

Lemma inet_url_reads u t a popt rest pl o : ngx_inet_addr t = a -> a <> INADDR_NONE -> text u = t ++ port_suffix popt ++ rest ++ [0] ->
  uri_follows u rest -> 1 <= port_of u popt <= 65535 -> sizeof_pool_large_t <= p_max pl ->
  exists rc u' pl' o', ngx_parse_inet_url getaddrinfo u pl o = Ok (rc, u', pl', o') /\
    (rc = NGX_ERROR /\ err u' = err u \/ rc = NGX_OK /\ reads_as u t rest a popt u').
Proof.
  intros Ha Hn Et Hr Hp Hm. assert (Hne : ngx_inet_addr t <> INADDR_NONE) by (by rewrite Ha). destruct (inet_addr_chars t Hne) as (Hc & Hatoi & _).
  assert (Hr' : rest = [] \/ exists c r, rest = c :: r /\ (c = 47 \/ c = 63)) by (destruct Hr as [->|[? _]]; [by left|by right]).
  set (D := t ++ port_suffix popt). assert (ED : text u = D ++ rest ++ [0]) by (unfold D; by rewrite <- app_assoc).
  assert (HD : (length D = length t + length (port_suffix popt))%nat) by (unfold D; by rewrite length_app).
  assert (Hp0 : forall n, popt = Some n -> 0 <= n) by (intros n ->; cbn [port_of] in Hp; lia).
  destruct (uri_start_ok D 0 rest) as (s & q & Es & Eq & Esq); [|done|].
  { intros j Hj c Hjc. by destruct (front_chars t popt j c Hc Hp0 Hjc) as (? & ? & _). }
  destruct (port_found t popt rest 0) as (p & Ep & Epp); [eapply Forall_impl; [exact Hc|]; unfold dotted_char; intros; lia|done|]. fold D in Ep, Epp.
  unfold ngx_parse_inet_url. cbv zeta. set (u1 := u <| u_socklen := 16 |> <| u_sockaddr := SIn 0 0 |> <| family := AF_INET |>).
  change (text u1) with (text u). replace (length (text u) - 1)%nat with (length D + length rest)%nat by (rewrite ED, !length_app; cbn [length]; lia).
  rewrite ED, Ep, obind_Ok, Es, obind_Ok, Eq, obind_Ok, Esq.
  set (U := match rest with [] => None | _ => Some (length D) end) in *.
  assert (Hg : match U with Some _ => listen u1 || negb (uri_part u1) | None => false end = false).
  { unfold U. destruct rest; [done|]. destruct Hr as [?|(_ & Hl & Hu)]; [done|]. change (listen u || negb (uri_part u) = false). by rewrite Hl, Hu. }
  assert (Hs : match U with Some x => x | None => (length D + length rest)%nat end = length D) by (unfold U; destruct rest; [cbn [length]; lia|done]).
  assert (Hu : match U with Some x => u1 <| uri := sub (D ++ rest ++ [0]) x (length D + length rest) |> | None => u1 end = u1 <| uri := uri_of u rest |>).
  { unfold U, uri_of. destruct rest; [by destruct u|]. by rewrite sub_app. }
  rewrite Hg, Hu, Hs, Epp. destruct popt as [n|].
  - assert (En : Number.ngx_atoi (sub (D ++ rest ++ [0]) (S (length t)) (length D)) = n).
    { transitivity (Number.ngx_atoi (dec n)); [f_equal|apply atoi_port; cbn [port_of] in Hp; lia].
      replace (length D) with (length (t ++ [58%Z]) + length (dec n))%nat by (rewrite HD, length_app; cbn [port_suffix length]; lia).
      replace (S (length t)) with (length (t ++ [58%Z])) by (rewrite length_app; cbn [length]; lia).
      replace (D ++ rest ++ [0]) with ((t ++ [58%Z]) ++ dec n ++ rest ++ [0]) by (unfold D; cbn [port_suffix]; rewrite <- !app_assoc; done). by rewrite sub_app. }
    rewrite En. cbn [port_of] in Hp. assert (Ek : port_ok n = true) by (unfold port_ok; lia). rewrite Ek. cbn [negb].
    match goal with |- context [inet_host _ _ ?x _ _] => set (u3 := x) end.
    assert (Eu : uwrap 16 n = n) by (unfold uwrap; apply Z.mod_small; lia).
    destruct (inet_host_ok t a u3 pl o Ha Hn) as (rc & u' & pl' & o' & E & H); [|done| |].
    { exists (port_suffix (Some n) ++ rest ++ [0]). exact Et. }
    { change (0 <= uwrap 16 n <= 65535). lia. }
    exists rc, u', pl', o'. split; [exact E|]. destruct H as [[-> H]|[-> (sa & Hsa & ->)]]; [left; split; [done|exact H]|right]. split; [done|].
    change (u_sockaddr u3) with (SIn 0 (htons n)) in Hsa. cbn [with_addr] in Hsa. subst sa. change (port u3) with (uwrap 16 n). rewrite Eu.
    repeat split. exact Eu.
  - cbn [port_of] in Hp. assert (Hl : length D = length t) by (rewrite HD; cbn [port_suffix length]; lia).
    assert (Ets : sub (D ++ rest ++ [0]) 0 (length D) = t).
    { unfold sub. rewrite drop_0, Nat.sub_0_r, take_app_length. unfold D. cbn [port_suffix]. by rewrite app_nil_r. }
    rewrite Ets, Hatoi. rewrite (Z.eqb_refl NGX_ERROR). cbn [negb]. rewrite andb_false_r, Hl.
    match goal with |- context [inet_host _ _ ?x _ _] => set (u3 := x) end.
    destruct (inet_host_ok t a u3 pl o Ha Hn) as (rc & u' & pl' & o' & E & H); [|done| |].
    { exists (port_suffix None ++ rest ++ [0]). exact Et. }
    { change (0 <= default_port u <= 65535). lia. }
    exists rc, u', pl', o'. split; [exact E|]. destruct H as [[-> H]|[-> (sa & Hsa & ->)]]; [left; split; [done|exact H]|right]. split; [done|].
    change (u_sockaddr u3) with (SIn 0 (htons (default_port u))) in Hsa. cbn [with_addr] in Hsa. subst sa. repeat split.
Qed.
End Url.

Lemma not_unix t rest : Forall dotted_char t -> t <> [] -> exists z, Search.ngx_strncasecmp (t ++ rest) 0 (bs "unix:") 0 5 = Ok z /\ z <> 0.
Proof.
  intros Hc Hn. destruct t as [|c t]; [done|]. apply Forall_cons_1 in Hc as [Hc _]. exists (i64 (u64 (Search.lower c - 117))).
  assert (E : Search.lower c <> 117 /\ i64 (u64 (Search.lower c - 117)) <> 0).
  { assert (H : c = 46 \/ c = 48 \/ c = 49 \/ c = 50 \/ c = 51 \/ c = 52 \/ c = 53 \/ c = 54 \/ c = 55 \/ c = 56 \/ c = 57) by (unfold dotted_char in Hc; lia).
    destruct H as [->|[->|[->|[->|[->|[->|[->|[->|[->|[->| ->]]]]]]]]]]; vm_compute; done. }
  destruct E as [El Ei]. split; [|done]. cbn [Search.ngx_strncasecmp]. rewrite (eq_refl : rd ((c :: t) ++ rest) 0 = Ok c), obind_Ok, (eq_refl : rd (bs "unix:") 0 = Ok 117), obind_Ok.
  cbv zeta. change (Search.lower 117) with 117. by rewrite (proj2 (Z.eqb_neq (Search.lower c) 117)).
Qed.

(** C33: a URL that begins with the text [t] of an IPv4 address (not that of
    255.255.255.255), with [":n"] behind it or not, and with a URI or arguments behind
    that where they may stand, is read as that address: the socket address has the
    address and the port in network order (the default port when there is none), the
    host is [t], the URI is what follows, the name of the address is ["t:n"] and fits
    its buffer; the wildcard address is noted.  No resolver is asked.  When the pool
    has no memory the result is [NGX_ERROR] and no message is left. *)
Theorem url_reads `{Osm : OSMem} getaddrinfo u t a popt rest pl o :
  ngx_inet_addr t = a -> a <> INADDR_NONE -> text u = t ++ port_suffix popt ++ rest ++ [0] ->
  uri_follows u rest -> 1 <= port_of u popt <= 65535 -> sizeof_pool_large_t <= p_max pl ->
  exists rc u' pl' o', ngx_parse_url getaddrinfo u pl o = Ok (rc, u', pl', o') /\
    (rc = NGX_ERROR /\ err u' = err u \/ rc = NGX_OK /\ reads_as u t rest a popt u').
Proof.
  intros Ha Hn Et Hr Hp Hm. assert (Hne : ngx_inet_addr t <> INADDR_NONE) by (by rewrite Ha). destruct (inet_addr_chars t Hne) as (Hc & _ & Hnil).
  destruct (inet_url_reads getaddrinfo u t a popt rest pl o Ha Hn Et Hr Hp Hm) as (rc & u' & pl' & o' & E & H). exists rc, u', pl', o'. split; [|exact H].
  unfold ngx_parse_url. destruct (not_unix t (port_suffix popt ++ rest ++ [0]) Hc Hnil) as (z & Ez & Hz). rewrite <- Et in Ez. rewrite Ez, obind_Ok.
  rewrite (proj2 (Z.eqb_neq z 0)) by done. destruct t as [|c t]; [done|]. apply Forall_cons_1 in Hc as [Hc _].
  rewrite Et. cbn [app]. rewrite (eq_refl : rd (c :: t ++ port_suffix popt ++ rest ++ [0]) 0 = Ok c), obind_Ok.
  rewrite (proj2 (Z.eqb_neq c 91)) by (unfold dotted_char in Hc; lia). exact E.
Qed.

Definition demo_url (t : bytes) : url := mk_url t [] [] [] 0 80 AF_UNSPEC false true false false false 0 (SIn 0 0) [] 0 None.
Lemma url_reads_witness : exists rc u' pl' o', @ngx_parse_url known_mem (fun _ => None) (demo_url (bs "10.0.0.1:8080/a" ++ [0])) demo_pool4k demo_blocks = Ok (rc, u', pl', o') /\
  (rc = NGX_ERROR /\ err u' = None \/ rc = NGX_OK /\ reads_as (demo_url (bs "10.0.0.1:8080/a" ++ [0])) (bs "10.0.0.1") (bs "/a") 16777226 (Some 8080) u').
Proof.
  apply (@url_reads known_mem (fun _ => None) (demo_url (bs "10.0.0.1:8080/a" ++ [0])) (bs "10.0.0.1") 16777226 (Some 8080) (bs "/a") demo_pool4k demo_blocks).
  - vm_compute. reflexivity.
  - vm_compute. discriminate.
  - reflexivity.
  - right. split; [exists 47, (bs "a"); split; [reflexivity|left; reflexivity]|split; reflexivity].
  - vm_compute. split; discriminate.
  - vm_compute. discriminate.
Defined.

(** What stands between the bracket and the URI is dropped unless it begins with a
    colon, and an IPv6 host does not end at a question mark. *)
Definition demo_parse (t : bytes) : option (Z * Z * option bytes) :=
  match @ngx_parse_url known_mem (fun _ => None) (demo_url (t ++ [0])) demo_pool4k demo_blocks with Ok (rc, u, _, _) => Some (rc, port u, err u) | _ => None end.
Example inet6_junk : demo_parse (bs "[::1]junk") = Some (NGX_OK, 80, None) /\ demo_parse (bs "[::1]:8080?a") = Some (NGX_ERROR, 0, Some (bs "invalid port")) /\
  demo_parse (bs "1.2.3.4:8080?a") = Some (NGX_OK, 8080, None).
Proof. vm_compute. done. Qed.
