(* ===== verification/NgxScript.v ===== *)
(** * Scripts: nginx/src/http/ngx_http_script.c, part of ngx_http_variables.c

    Texts with variables are compiled to two sequences of codes, one that computes
    the length of the value and one that writes it.  A sequence is an array of bytes;
    the first byte of a code holds the code here and the others hold nothing, so
    [ip] is the offset of a code.  The value is written to memory of the request's
    pool, and nothing may be written behind its end.

    The memory of the pool that holds text is the list [bufs] of buffers, with their
    sizes and what has been written to them; a text is a slice of a constant or of a
    buffer.  Handlers of variables are parameters: they answer from the request and do
    not change it.  Texts of the configuration are followed by a NUL. *)
From S2P Require Import Prelude NgxString NgxStrUtil NgxCodec NgxPrintf.
From S2P Require Export NgxPalloc NgxArray.
#[local] Open Scope Z_scope.

Module Script.
Import Search.

(** ** Texts and variables *)

Inductive source := SText (t : bytes) | SBuf (i : nat).
Record slice := mk_slice { base : source; off : Z; len : Z }.
#[export] Instance slice_settable : Settable slice := fun s => mk_slice (base s) (off s) (len s).
Definition lit (t : bytes) : slice := mk_slice (SText t) 0 (blen t).

(** The size of a buffer and the bytes written from its start. *)
Abbreviation memory := (list (Z * bytes)).

(** What is read through a slice; bytes that were not written are undefined. *)
Definition source_text (m : memory) (s : source) : out bytes :=
  match s with SText t => Ok t | SBuf i => match m !! i with Some (_, w) => Ok w | None => Undef OutOfBounds end end.
Definition text_of (m : memory) (s : slice) : out bytes :=
  if len s =? 0 then Ok []
  else
    let! t := source_text m (base s) in
    if (0 <=? off s) && (0 <=? len s) && (off s + len s <=? blen t) then Ok (take (Z.to_nat (len s)) (drop (Z.to_nat (off s)) t)) else Undef OutOfBounds.

(** [ngx_http_variable_value_t] *)
Record vv := mk_vv { v_text : slice; valid : bool; no_cacheable : bool; not_found : bool }.
#[export] Instance vv_settable : Settable vv := fun v => mk_vv (v_text v) (valid v) (no_cacheable v) (not_found v).
Definition null_value : vv := mk_vv (lit []) true false false.
Definition true_value : vv := mk_vv (lit [49]) true false false.

(** The fields of a request that the codes and the handlers use, its variables, the
    memory of its pool and the headers of the response. *)
Record req := mk_req { uri : slice; args : slice; quoted_uri : bool; plus_in_uri : bool; captures : list Z; ncaptures : Z; captures_data : slice;
  internal : bool; valid_unparsed_uri : bool; valid_location : bool; uri_changed : bool; exten : slice; location : option slice;
  header_status : Z; err_status : Z; loc_conf : Z }.
#[export] Instance req_settable : Settable req := fun q => mk_req (uri q) (args q) (quoted_uri q) (plus_in_uri q) (captures q) (ncaptures q) (captures_data q)
  (internal q) (valid_unparsed_uri q) (valid_location q) (uri_changed q) (exten q) (location q) (header_status q) (err_status q) (loc_conf q).
Record request := mk_request { rq : req; variables : list vv; bufs : memory; headers : ngx_list slice }.
#[export] Instance request_settable : Settable request := fun r => mk_request (rq r) (variables r) (bufs r) (headers r).

(** ** Codes *)

Inductive lcode := LCopy (n : Z) | LVar (index : Z) | LArgs | LCapture (n : Z) | LFullName (conf : bool) | LEnd.
Definition lsize (c : lcode) : nat := match c with LArgs | LEnd => 8 | _ => 16 end.
Abbreviation lcodes := (list (option lcode)).

(** [ngx_http_complex_value_t]; the values are codes of type [C]. *)
Record complex (C : Type) := mk_complex { cv_value : bytes; cv_flushes : option (list Z); cv_lengths : option lcodes; cv_values : option (list (option C)) }.
Arguments mk_complex {C}.
Arguments cv_value {C}.
Arguments cv_flushes {C}.
Arguments cv_lengths {C}.
Arguments cv_values {C}.

(** [ngx_http_regex_t] *)
Record regex := mk_regex { re_id : Z; re_ncaptures : Z; re_variables : list (Z * Z) }.
(** [ngx_http_script_regex_code_t] and [ngx_http_script_regex_end_code_t] *)
Record regex_code := mk_regex_code { rc_regex : regex; rc_lengths : option lcodes; rc_size : Z; rc_status : Z; rc_next : Z;
  rc_test : bool; rc_negative_test : bool; rc_uri : bool; rc_args : bool; rc_add_args : bool; rc_redirect : bool; rc_break_cycle : bool }.
#[export] Instance regex_code_settable : Settable regex_code := fun c => mk_regex_code (rc_regex c) (rc_lengths c) (rc_size c) (rc_status c) (rc_next c)
  (rc_test c) (rc_negative_test c) (rc_uri c) (rc_args c) (rc_add_args c) (rc_redirect c) (rc_break_cycle c).
Record regex_end_code := mk_regex_end { re_uri : bool; re_args : bool; re_add_args : bool; re_redirect : bool }.

Inductive file_op := file_plain | file_not_plain | file_dir | file_not_dir | file_exists | file_not_exists | file_exec | file_not_exec.

(** [CCopy t] has the text behind it, with its NUL if there is one. *)
Inductive code :=
| CCopy (t : bytes) | CVar (index : Z) | CArgs | CCapture (n : Z) | CFullName (conf : bool)
| CRegex (c : regex_code) | CRegexEnd (c : regex_end_code) | CReturn (st : Z) (text : complex code) | CBreak | CIf (next : Z) (loc : option Z)
| CEqual | CNotEqual | CFile (op : file_op) | CComplex (lengths : lcodes) | CValue (text : bytes) | CSetVar (index : Z) | CSetHandler (handler data : Z)
| CGetVar (index : Z) | CNop | CEnd.
Definition align8 (n : Z) : Z := Z.land (n + 7) (Z.lnot 7).
Definition csize (c : code) : nat :=
  match c with
  | CCopy t => Z.to_nat (16 + align8 (blen t))
  | CVar _ | CCapture _ | CFullName _ | CRegexEnd _ | CFile _ | CComplex _ | CSetVar _ | CGetVar _ => 16
  | CArgs | CBreak | CEqual | CNotEqual | CNop | CEnd => 8
  | CRegex _ => 72 | CReturn _ _ => 56 | CIf _ _ | CSetHandler _ _ => 24 | CValue _ => 32
  end.
Abbreviation codes := (list (option code)).

(** The bytes that a code takes. *)
Definition slots {C} (n : nat) (c : C) : list (option C) := Some c :: replicate (n - 1) None.
Definition lslots (c : lcode) : lcodes := slots (lsize c) c.
Definition cslots (c : code) : codes := slots (csize c) c.
(** The code at [ip]. *)
Definition fetch {C} (cs : list (option C)) (ip : nat) : out C := match cs !! ip with Some (Some c) => Ok c | _ => Undef OutOfBounds end.

(** ** The engine: [ngx_http_script_engine_t]

    [ip = None] is [ngx_http_script_exit].  [pos] is the end of what has been written
    to the buffer [cur]; [args_at] is the offset there of [e->args]. *)
Record engine := mk_engine { ip : option nat; sp : list vv; buf : slice; cur : nat; args_at : option Z; line : slice;
  flushed : bool; skip : bool; quote : bool; is_args : bool; status : Z; r : request }.
#[export] Instance engine_settable : Settable engine := fun e => mk_engine (ip e) (sp e) (buf e) (cur e) (args_at e) (line e)
  (flushed e) (skip e) (quote e) (is_args e) (status e) (r e).
(** [ngx_memzero(&e, sizeof(ngx_http_script_engine_t))] and the request. *)
Definition zero_engine (r : request) : engine := mk_engine (Some 0%nat) [] (lit []) 0 None (lit []) false false false false 0 r.

(** [e->ip += n] *)
Definition advance (n : nat) (e : engine) : engine := e <| ip := option_map (fun i => i + n)%nat (ip e) |>.
Definition pos (e : engine) : Z := match bufs (r e) !! cur e with Some (_, w) => blen w | None => 0 end.

(** [e->pos = ngx_copy(e->pos, t)] *)
Definition put (t : bytes) (e : engine) : out engine :=
  match bufs (r e) !! cur e with
  | None => Undef NullDeref
  | Some (size, w) => if size <? blen (w ++ t) then Undef OutOfBounds else Ok (e <| r := (r e) <| bufs := <[cur e := (size, w ++ t)]> (bufs (r e)) |> |>)
  end.

Section Script.
Context {Osm : OSMem}.
(** The handler of a variable: what it writes, or [None] when it fails; and the flag
    [NGX_HTTP_VAR_NOCACHEABLE]. *)
Context (get_handler : Z -> req -> option vv) (var_nocacheable : Z -> bool).
Context (cycle_prefix cycle_conf_prefix : bytes).
Implicit Types (q : request) (e : engine) (pl : pool) (o : os).

(** ** Variables of a request: ngx_http_variables.c *)

Definition variable_at (vs : list vv) (i : nat) : out vv := match vs !! i with Some v => Ok v | None => Undef OutOfBounds end.
Definition put_var (i : Z) (v : vv) q : request := q <| variables := <[Z.to_nat i := v]> (variables q) |>.

Definition ngx_http_get_indexed_variable q (index : Z) : out (option vv * request) :=
  if Z.of_nat (length (variables q)) <=? index then Ok (None, q)
  else
    let! v := variable_at (variables q) (Z.to_nat index) in
    if not_found v || valid v then Ok (Some v, q)
    else
      match get_handler index (rq q) with
      | Some v => let v := if var_nocacheable index then v <| no_cacheable := true |> else v in Ok (Some v, put_var index v q)
      | None => Ok (None, put_var index (v <| valid := false |> <| not_found := true |>) q)
      end.

Definition ngx_http_get_flushed_variable q (index : Z) : out (option vv * request) :=
  let! v := variable_at (variables q) (Z.to_nat index) in
  if valid v || not_found v then
    if negb (no_cacheable v) then Ok (Some v, q)
    else ngx_http_get_indexed_variable (put_var index (v <| valid := false |> <| not_found := false |>) q) index
  else ngx_http_get_indexed_variable q index.

(** ** The codes of values *)

(** [e->flushed ? ... : ...] *)
Definition engine_variable e (index : Z) : out (option vv * engine) :=
  let! (v, q) := (if flushed e then ngx_http_get_indexed_variable else ngx_http_get_flushed_variable) (r e) index in
  Ok (match v with Some v => if not_found v then None else Some v | None => None end, e <| r := q |>).

(** [r->captures[n]] and [r->captures[n + 1]], and whether the capture is escaped. *)
Definition capture_slice (q : req) (n : Z) : out slice :=
  let! a := rd (captures q) (Z.to_nat n) in
  let! b := rd (captures q) (Z.to_nat n + 1) in
  Ok (mk_slice (base (captures_data q)) (off (captures_data q) + a) (b - a)).
Definition escapes e : bool := (is_args e || quote e) && (quoted_uri (rq (r e)) || plus_in_uri (rq (r e))).

Definition ngx_http_script_copy_capture_len_code (n : Z) e : out (Z * engine) :=
  let q := rq (r e) in
  let e := advance 16 e in
  if n <? ncaptures q then
    let! s := capture_slice q n in
    if escapes e then let! t := text_of (bufs (r e)) s in Ok (len s + 2 * Uri.count_escapes Uri.args 0 t, e)
    else Ok (len s, e)
  else Ok (0, e).
Definition ngx_http_script_copy_capture_code (n : Z) e : out engine :=
  let q := rq (r e) in
  let e := advance 16 e in
  if n <? ncaptures q then
    let! s := capture_slice q n in
    let! t := text_of (bufs (r e)) s in
    put (if escapes e then Uri.ngx_escape_uri Uri.args t else t) e
  else Ok e.

Definition ngx_http_script_copy_var_len_code (index : Z) e : out (Z * engine) :=
  let! (v, e) := engine_variable (advance 16 e) index in
  Ok (match v with Some v => len (v_text v) | None => 0 end, e).
Definition ngx_http_script_copy_var_code (index : Z) e : out engine :=
  let e := advance 16 e in
  if skip e then Ok e
  else
    let! (v, e) := engine_variable e index in
    match v with Some v => let! t := text_of (bufs (r e)) (v_text v) in put t e | None => Ok e end.

(** A length code: the length and the engine. *)
Definition exec_length (c : lcode) e : out (Z * engine) :=
  match c with
  | LCopy n => Ok (n, advance 16 e)
  | LVar i => ngx_http_script_copy_var_len_code i e
  | LArgs => Ok (1, advance 8 (e <| is_args := true |>))
  | LCapture n => ngx_http_script_copy_capture_len_code n e
  | LFullName conf => Ok (blen (if conf : bool then cycle_conf_prefix else cycle_prefix), advance 16 e)
  | LEnd => Undef NullDeref
  end.
(** [while ( *(uintptr_t * ) e.ip) len += lcode(&e)] *)
Fixpoint run_lengths (fuel : nat) (cs : lcodes) (n : Z) e : out (Z * engine) :=
  match fuel with
  | O => NoFuel
  | S f =>
      match ip e with
      | None => Ok (n, e)
      | Some i =>
          let! c := fetch cs i in
          match c with LEnd => Ok (n, e) | _ => let! (k, e) := exec_length c e in run_lengths f cs (u64 (n + k)) e end
      end
  end.

(** [ngx_conf_full_name(cycle, name, conf_prefix)] on a name that begins with [c]:
    [None] when it stays as it is; the memory of the new name, [None] inside when
    there is none. *)
Definition ngx_conf_test_full_name (c : Z) : Z := if c =? 47 then NGX_OK else NGX_DECLINED.
Definition prefix_of (conf : bool) : bytes := if conf then cycle_conf_prefix else cycle_prefix.
Definition ngx_conf_full_name (c : Z) (name : bytes) (conf : bool) pl o : out (option (option bytes) * pool * os) :=
  if ngx_conf_test_full_name c =? NGX_OK then Ok (None, pl, o)
  else
    let! (m, pl, o) := ngx_pnalloc pl (blen (prefix_of conf) + blen name + 1) o in
    match m with
    | None => Ok (Some None, pl, o)
    | Some _ => let! t := ngx_cpystrn name 0 (length name + 1) in Ok (Some (Some (prefix_of conf ++ t)), pl, o)
    end.

(** A buffer of [n] bytes: its number and the request with it. *)
Definition new_buf (n : Z) (w : bytes) q : nat * request := (length (bufs q), q <| bufs := bufs q ++ [(n, w)] |>).

Definition ngx_http_script_full_name_code (conf : bool) e pl o : out (engine * pool * os) :=
  let value := (buf e) <| len := pos e - off (buf e) |> in
  let! w := source_text (bufs (r e)) (base value) in
  let! c := rd w (Z.to_nat (off value)) in
  let! t := text_of (bufs (r e)) value in
  let! (m, pl, o) := ngx_conf_full_name c t conf pl o in
  match m with
  | None => Ok (advance 16 (e <| buf := value |>), pl, o)
  | Some None => Ok (e <| ip := None |> <| status := 500 |>, pl, o)
  | Some (Some w) =>
      let '(i, q) := new_buf (blen w) w (r e) in
      Ok (advance 16 (e <| r := q |> <| buf := mk_slice (SBuf i) 0 (blen (prefix_of conf) + len value) |>), pl, o)
  end.

(** The codes of a value. *)
Definition exec_value (c : code) e pl o : out (engine * pool * os) :=
  let ret (m : out engine) := let! e := m in Ok (e, pl, o) in
  match c with
  | CCopy t => ret (let! e := (if skip e then Ok e else put t e) in Ok (advance (csize c) e))
  | CVar i => ret (ngx_http_script_copy_var_code i e)
  | CArgs => ret (Ok (advance 8 (e <| is_args := true |> <| args_at := Some (pos e) |>)))
  | CCapture n => ret (ngx_http_script_copy_capture_code n e)
  | CFullName conf => ngx_http_script_full_name_code conf e pl o
  | _ => Undef NullDeref
  end.
(** [while ( *(uintptr_t * ) e.ip) code(&e)] *)
Fixpoint run_codes (exec : code -> engine -> pool -> os -> out (engine * pool * os)) (fuel : nat) (cs : codes) e pl o : out (engine * pool * os) :=
  match fuel with
  | O => NoFuel
  | S f =>
      match ip e with
      | None => Ok (e, pl, o)
      | Some i =>
          let! c := fetch cs i in
          match c with CEnd => Ok (e, pl, o) | _ => let! (e, pl, o) := exec c e pl o in run_codes exec f cs e pl o end
      end
  end.
Definition run_values : nat -> codes -> engine -> pool -> os -> out (engine * pool * os) := run_codes exec_value.

(** ** Complex values *)

Definition flush_variable q (index : Z) : out request :=
  let! v := variable_at (variables q) (Z.to_nat index) in
  Ok (if no_cacheable v then put_var index (v <| valid := false |> <| not_found := false |>) q else q).
Fixpoint flush_loop (l : list Z) q : out request :=
  match l with
  | [] => Undef OutOfBounds
  | i :: l' => if i =? -1 then Ok q else let! q := flush_variable q i in flush_loop l' q
  end.
Definition ngx_http_script_flush_complex_value q (val : complex code) : out request :=
  match cv_flushes val with None => Ok q | Some l => flush_loop l q end.

Definition ngx_http_complex_value q (val : complex code) pl o : out (Z * slice * request * pool * os) :=
  match cv_lengths val with
  | None => Ok (NGX_OK, lit (cv_value val), q, pl, o)
  | Some lcs =>
      let! q := ngx_http_script_flush_complex_value q val in
      let! (n, e) := run_lengths (S (length lcs)) lcs 0 ((zero_engine q) <| flushed := true |>) in
      let! (m, pl, o) := ngx_pnalloc pl n o in
      match m with
      | None => Ok (NGX_ERROR, lit [], r e, pl, o)
      | Some _ =>
          let '(i, q) := new_buf n [] (r e) in
          match cv_values val with
          | None => Undef NullDeref
          | Some cs =>
              let! (e, pl, o) := run_values (S (length cs)) cs (e <| r := q |> <| ip := Some 0%nat |> <| cur := i |> <| buf := mk_slice (SBuf i) 0 n |>) pl o in
              Ok (NGX_OK, buf e, r e, pl, o)
          end
      end
  end.

(** [ngx_http_script_run]: the value, [None] when there is no memory. *)
Fixpoint flush_all (vs : list vv) : list vv :=
  match vs with [] => [] | v :: vs' => (if no_cacheable v then v <| valid := false |> <| not_found := false |> else v) :: flush_all vs' end.
Definition ngx_http_script_run q (lcs : lcodes) (reserved : Z) (cs : codes) pl o : out (option (slice * Z) * request * pool * os) :=
  let q := q <| variables := flush_all (variables q) |> in
  let! (n, e) := run_lengths (S (length lcs)) lcs reserved ((zero_engine q) <| flushed := true |>) in
  let! (m, pl, o) := ngx_pnalloc pl n o in
  match m with
  | None => Ok (None, r e, pl, o)
  | Some _ =>
      let '(i, q) := new_buf n [] (r e) in
      let! (e, pl, o) := run_values (S (length cs)) cs (e <| r := q |> <| ip := Some 0%nat |> <| cur := i |>) pl o in
      Ok (Some (mk_slice (SBuf i) 0 n, pos e), r e, pl, o)
  end.

Definition ngx_http_script_flush_no_cacheable_variables q (indices : option (list Z)) : out request :=
  match indices with None => Ok q | Some l => foldl (fun m i => let! q := m in flush_variable q i) (Ok q) l end.

(** [ngx_http_test_predicates]: a value that is neither empty nor "0". *)
Definition truthy (t : bytes) : bool := negb (blen t =? 0) && (negb (blen t =? 1) || negb (Printf.peek t =? 48)).
Fixpoint ngx_http_test_predicates q (predicates : list (complex code)) pl o : out (Z * request * pool * os) :=
  match predicates with
  | [] => Ok (NGX_OK, q, pl, o)
  | cv :: l =>
      let! (rc, val, q, pl, o) := ngx_http_complex_value q cv pl o in
      if negb (rc =? NGX_OK) then Ok (NGX_ERROR, q, pl, o)
      else
        let! t := text_of (bufs q) val in
        if truthy t then Ok (NGX_DECLINED, q, pl, o) else ngx_http_test_predicates q l pl o
  end.

(** ** Compilation *)

(** [ngx_http_script_compile_t]: [flushes = None] is the pointer [NULL] to the array,
    and so are the inner [None]s; and what compilation changes beside it: the names of
    the variables of the configuration ([None] before the first), and memory. *)
Record sc := mk_sc { flushes : option (option (ngx_array Z)); lengths : option (ngx_array (option lcode)); values : option (ngx_array (option code));
  nvariables : Z; sc_ncaptures : Z; captures_mask : Z; size : Z; compile_args : bool; complete_lengths : bool; complete_values : bool;
  zero : bool; conf_prefix : bool; root_prefix : bool; dup_capture : bool; sc_args : bool }.
#[export] Instance sc_settable : Settable sc := fun s => mk_sc (flushes s) (lengths s) (values s) (nvariables s) (sc_ncaptures s) (captures_mask s) (size s)
  (compile_args s) (complete_lengths s) (complete_values s) (zero s) (conf_prefix s) (root_prefix s) (dup_capture s) (sc_args s).
Record st := mk_st { s : sc; names : option (ngx_array bytes); pl : pool; o : os }.
#[export] Instance st_settable : Settable st := fun x => mk_st (s x) (names x) (pl x) (o x).

(** A step that returns [NGX_OK] ([true]) or [NGX_ERROR]. *)
Definition comp : Type := st -> out (bool * st).
Definition ok : comp := fun x => Ok (true, x).
Definition error : comp := fun x => Ok (false, x).
Definition andthen (m k : comp) : comp := fun x => let! (b, x) := m x in if b : bool then k x else Ok (false, x).
#[local] Infix ";>" := andthen (at level 60, right associativity).
Definition upd (f : sc -> sc) : comp := fun x => Ok (true, x <| s := f (s x) |>).
(** What an array operation answers. *)
Definition store {A} (f : A -> st -> st) (m : out (option A * pool * os)) (x : st) : out (bool * st) :=
  let! (a, p, k) := m in
  let x := x <| pl := p |> <| o := k |> in
  Ok (match a with None => (false, x) | Some a => (true, f a x) end).
Definition set_lengths a (x : st) : st := x <| s := (s x) <| lengths := Some a |> |>.
Definition set_values a (x : st) : st := x <| s := (s x) <| values := Some a |> |>.
Definition set_flushes a (x : st) : st := x <| s := (s x) <| flushes := Some (Some a) |> |>.

(** [ngx_http_script_add_code] with the code that is written to the new bytes. *)
Definition add_length (c : lcode) : comp := fun x =>
  match lengths (s x) with None => Undef NullDeref | Some a => store set_lengths (ngx_array_push_n a (lslots c) (pl x) (o x)) x end.
Definition add_value (c : code) : comp := fun x =>
  match values (s x) with None => Undef NullDeref | Some a => store set_values (ngx_array_push_n a (cslots c) (pl x) (o x)) x end.

Definition create_if {A} (present : bool) (n size : Z) (f : ngx_array A -> st -> st) : comp := fun x =>
  if present then Ok (true, x) else store f (ngx_array_create (pl x) n size (o x)) x.
Definition is_Some_b {A} (x : option A) : bool := match x with Some _ => true | None => false end.
Definition ngx_http_script_init_arrays (source_len : Z) : comp := fun x =>
  (create_if (match flushes (s x) with Some None => false | _ => true end) (if nvariables (s x) =? 0 then 1 else nvariables (s x)) 8 set_flushes ;>
   create_if (is_Some_b (lengths (s x))) (nvariables (s x) * 48 + 8) 1 set_lengths ;>
   create_if (is_Some_b (values (s x))) (align8 (nvariables (s x) * 48 + 8 + source_len)) 1 set_values ;>
   upd (fun s => s <| nvariables := 0 |>)) x.

Definition ngx_http_script_add_copy_code (value : bytes) (last : bool) : comp := fun x =>
  let z := zero (s x) && last in
  let text := value ++ (if z then [0] else []) in
  (add_length (LCopy (blen text)) ;> add_value (CCopy text) ;> (if z then upd (fun s => s <| zero := false |>) else ok)) x.

(** The index of a variable: one with that name, letters compared without case, or a
    new one. *)
Fixpoint find_name (l : list bytes) (name : bytes) (i : Z) : out (option Z) :=
  match l with
  | [] => Ok None
  | v :: l' =>
      if negb (blen name =? blen v) then find_name l' name (i + 1)
      else let! c := ngx_strncasecmp name 0 v 0 (length name) in if c =? 0 then Ok (Some i) else find_name l' name (i + 1)
  end.
Definition ngx_http_get_variable_index (name : bytes) (x : st) : out (option Z * st) :=
  if blen name =? 0 then Ok (None, x)
  else
    let! (a, x) := match names x with
                   | Some a => Ok (Some a, x)
                   | None => let! (a, p, k) := ngx_array_init 0 (pl x) 4 56 (o x) in Ok (a, x <| pl := p |> <| o := k |> <| names := a |>)
                   end in
    match a with
    | None => Ok (None, x)
    | Some a =>
        let! i := find_name (items a) name 0 in
        match i with
        | Some i => Ok (Some i, x)
        | None =>
            let! low := ngx_strlow name 0 (length name) in
            let! (b, p, k) := ngx_array_push a low (pl x) (o x) in
            match b with
            | None => Ok (None, x <| pl := p |> <| o := k |>)
            | Some b =>
                let! (m, p, k) := ngx_pnalloc p (blen name) k in
                let x := x <| pl := p |> <| o := k |> <| names := Some b |> in
                Ok (match m with None => None | Some _ => Some (Z.of_nat (length (items b)) - 1) end, x)
            end
        end
    end.

Definition push_flush (index : Z) : comp := fun x =>
  match flushes (s x) with
  | None => Ok (true, x)
  | Some None => Undef NullDeref
  | Some (Some a) => store set_flushes (ngx_array_push a index (pl x) (o x)) x
  end.
Definition ngx_http_script_add_var_code (name : bytes) : comp := fun x =>
  let! (i, x) := ngx_http_get_variable_index name x in
  match i with
  | None => Ok (false, x)
  | Some i => (push_flush i ;> add_length (LVar i) ;> add_value (CVar i)) x
  end.
Definition ngx_http_script_add_args_code : comp := add_length LArgs ;> add_value CArgs.
Definition ngx_http_script_add_capture_code (n : Z) : comp :=
  add_length (LCapture (2 * n)) ;> add_value (CCapture (2 * n)) ;> upd (fun s => if sc_ncaptures s <? n then s <| sc_ncaptures := n |> else s).
Definition ngx_http_script_add_full_name_code : comp := fun x =>
  (add_length (LFullName (conf_prefix (s x))) ;> add_value (CFullName (conf_prefix (s x)))) x.

Definition ngx_http_script_done : comp := fun x =>
  ((if zero (s x) then ngx_http_script_add_copy_code [0] false else ok) ;>
   (if conf_prefix (s x) || root_prefix (s x) then ngx_http_script_add_full_name_code else ok) ;>
   (if complete_lengths (s x) then add_length LEnd else ok) ;>
   (if complete_values (s x) then add_value CEnd else ok)) x.

Definition var_char (ch : Z) : bool :=
  (65 <=? ch) && (ch <=? 90) || (97 <=? ch) && (ch <=? 122) || (48 <=? ch) && (ch <=? 57) || (ch =? 95).
(** The longest prefix of characters that satisfy [p], and the rest. *)
Fixpoint span (p : Z -> bool) (t : bytes) : bytes * bytes :=
  match t with
  | [] => ([], [])
  | c :: t' => if p c then let '(a, b) := span p t' in (c :: a, b) else ([], t)
  end.
(** A text without variables, the rest, and whether there is a question mark. *)
Fixpoint text_run (cargs : bool) (t : bytes) : bytes * bytes * bool :=
  match t with
  | [] => ([], [], false)
  | c :: t' =>
      if c =? 36 then ([], t, false)
      else if (c =? 63) && cargs then ([], t, true)
      else let '(a, b, q) := text_run cargs t' in (c :: a, b, q || (c =? 63))
  end.

(** The loop over the source. *)
Fixpoint compile_loop (fuel : nat) (t : bytes) : comp := fun x =>
  match fuel with
  | O => NoFuel
  | S f =>
      match t with
      | [] => ngx_http_script_done x
      | c :: t' =>
          if c =? 36 (* $ *) then
            match t' with
            | [] => Ok (false, x)
            | d :: t'' =>
                if (49 <=? d) && (d <=? 57) then
                  let n := d - 48 in
                  (upd (fun s => s <| dup_capture := dup_capture s || negb (Z.land (captures_mask s) (Z.shiftl 1 n) =? 0) |>
                                   <| captures_mask := Z.lor (captures_mask s) (Z.shiftl 1 n) |>) ;>
                   ngx_http_script_add_capture_code n ;> compile_loop f t'') x
                else
                  let '(bracket, t1) := if d =? 123 then (true, t'') else (false, t') in
                  if (length t1 =? 0)%nat then Ok (false, x)
                  else
                    let '(name, t2) := span var_char t1 in
                    let '(bracket, t2) := match t2 with e :: t3 => if (e =? 125) && bracket then (false, t3) else (bracket, t2) | [] => (bracket, t2) end in
                    if bracket || (length name =? 0)%nat then Ok (false, x)
                    else (upd (fun s => s <| nvariables := nvariables s + 1 |>) ;> ngx_http_script_add_var_code name ;> compile_loop f t2) x
            end
          else if (c =? 63) && compile_args (s x) then
            (upd (fun s => s <| sc_args := true |> <| compile_args := false |>) ;> ngx_http_script_add_args_code ;> compile_loop f t') x
          else
            let '(name, t2, q) := text_run (compile_args (s x)) t in
            (upd (fun s => s <| sc_args := sc_args s || q |> <| size := size s + blen name |>) ;>
             ngx_http_script_add_copy_code name (length t2 =? 0)%nat ;> compile_loop f t2) x
      end
  end.
Definition ngx_http_script_compile (source : bytes) : comp :=
  ngx_http_script_init_arrays (blen source) ;> compile_loop (S (length source)) source.

Fixpoint ngx_http_script_variables_count (value : bytes) : Z :=
  match value with [] => 0 | c :: v => (if c =? 36 then 1 else 0) + ngx_http_script_variables_count v end.

(** The variables and the captures of a text. *)
Fixpoint count_dollars (v : bytes) : Z * Z :=
  match v with
  | [] => (0, 0)
  | c :: v' =>
      let '(nv, nc) := count_dollars v' in
      if c =? 36 then let d := Printf.peek v' in if (49 <=? d) && (d <=? 57) then (nv, nc + 1) else (nv + 1, nc) else (nv, nc)
  end.
(** [ngx_http_compile_complex_value_t] *)
Record ccv := mk_ccv { ccv_value : bytes; ccv_zero : bool; ccv_conf_prefix : bool; ccv_root_prefix : bool }.
Definition new_sc (fl : ngx_array Z) (l : ngx_array (option lcode)) (v : ngx_array (option code)) (c : ccv) : sc :=
  mk_sc (Some (Some fl)) (Some l) (Some v) 0 0 0 0 false true true (ccv_zero c) (ccv_conf_prefix c) (ccv_root_prefix c) false false.

(** The text behind its prefix, when it does not begin with a variable. *)
Definition prefixed_value (c : ccv) nm pl o : out (option ccv * st) :=
  let x p k := mk_st (mk_sc None None None 0 0 0 0 false true true false false false false false) nm p k in
  let v := ccv_value c in
  if ((blen v =? 0) || negb (Printf.peek v =? 36)) && (ccv_conf_prefix c || ccv_root_prefix c) then
    let! (m, p, k) := ngx_conf_full_name (Printf.peek v) v (ccv_conf_prefix c) pl o in
    match m with
    | Some None => Ok (None, x p k)
    | Some (Some w) => Ok (Some (mk_ccv (take (length w - 1) w) (ccv_zero c) false false), x p k)
    | None => Ok (Some (mk_ccv v (ccv_zero c) false false), x p k)
    end
  else Ok (Some c, x pl o).

Definition ngx_http_compile_complex_value (c : ccv) (nm : option (ngx_array bytes)) pl o : out (option (complex code) * st) :=
  let '(nv, nc) := count_dollars (ccv_value c) in
  let! (c, x) := prefixed_value c nm pl o in
  match c with
  | None => Ok (None, x)
  | Some c =>
      let v := ccv_value c in
      if (nv =? 0) && (nc =? 0) then Ok (Some (mk_complex v None None None), x)
      else
        let none p k := Ok (None, x <| Script.pl := p |> <| Script.o := k |>) in
        let! (fl, p, k) := ngx_array_init 0 (Script.pl x) (nv + 1) 8 (Script.o x) in
        match fl with
        | None => none p k
        | Some fl =>
            let! (l, p, k) := ngx_array_init 0 p (nv * 48 + 8) 1 k in
            match l with
            | None => none p k
            | Some l =>
                let! (vs, p, k) := ngx_array_init 0 p (align8 (nv * 48 + 8 + blen v)) 1 k in
                match vs with
                | None => none p k
                | Some vs =>
                    let! (b, x) := ngx_http_script_compile v (mk_st (new_sc fl l vs c) (names x) p k) in
                    if negb b then Ok (None, x)
                    else
                      match flushes (s x), lengths (s x), values (s x) with
                      | Some (Some fl), Some l, Some vs =>
                          let n := Z.of_nat (length (items fl)) in
                          if n =? 0 then Ok (Some (mk_complex v None (Some (items l)) (Some (items vs))), x)
                          else if nalloc fl <=? n then Undef OutOfBounds
                          else Ok (Some (mk_complex v (Some (items fl ++ [-1])) (Some (items l)) (Some (items vs))), x)
                      | _, _, _ => Undef NullDeref
                      end
                end
            end
        end
  end.
End Script.
End Script.
