(* ===== verification/NgxScriptProps.v ===== *)
(** * Properties of scripts *)
From stdpp Require Import list.
From S2P Require Import Prelude NgxString NgxStrUtil NgxCodec NgxCodecProps NgxPalloc NgxArray NgxScript.
#[local] Open Scope Z_scope.
Import Script.

(** ** Texts in memory *)

Lemma text_of_len m x t : text_of m x = Ok t -> len x = blen t.
Proof.
  unfold text_of. destruct (Z.eqb_spec (len x) 0) as [->|]; [intros [= <-]; done|]. destruct (source_text m (base x)) as [w| |]; cbn [obind]; [|done|done].
  destruct (_ && _) eqn:E; [|done]. intros [= <-]. unfold blen. rewrite length_take, length_drop. unfold blen in E. lia.
Qed.
Lemma text_lit m t : text_of m (lit t) = Ok t.
Proof.
  unfold text_of, lit. cbn [len base off source_text obind]. destruct (Z.eqb_spec (blen t) 0) as [E|E].
  - destruct t; [done|]. unfold blen in E. cbn [length] in E. lia.
  - assert (B : (0 <=? 0) && (0 <=? blen t) && (0 + blen t <=? blen t) = true) by (unfold blen; rewrite !andb_true_iff, !Z.leb_le; lia). rewrite B. f_equal.
    change (Z.to_nat 0) with 0%nat. rewrite drop_0. unfold blen. rewrite Nat2Z.id. by rewrite firstn_all.
Qed.
(** What can be read stays as it is when a buffer is added or written to. *)
Lemma text_app m x t n w : text_of m x = Ok t -> text_of (m ++ [(n, w)]) x = Ok t.
Proof.
  unfold text_of. destruct (len x =? 0); [done|]. destruct (base x) as [u|i]; [done|]. cbn [source_text].
  destruct (m !! i) as [y|] eqn:E; [|done]. by rewrite (lookup_app_l_Some _ _ _ _ E).
Qed.

(** ** Memory *)

Section Memory.
Context {Osm : OSMem}.
(** A system that never runs out of memory, and pools that can ask it. *)
Definition generous : Prop := forall (o : os) al n, exists p o', os_alloc o al n = (Some p, o').
Definition pool_fine (pl : pool) : Prop := blocks pl <> [] /\ sizeof_pool_large_t <= p_max pl.

Lemma try_blocks_nonempty al n bl m bl' : try_blocks al n bl = Some (m, bl') -> bl' <> [].
Proof. destruct bl as [|b bl]; [done|]. cbn. destruct (_ <=? _); [by intros [= _ <-]|]. destruct (try_blocks al n bl) as [[? ?]|]; [by intros [= _ <-]|done]. Qed.
Lemma palloc_small_fine al pl n o : pool_fine pl ->
  exists m pl' o', palloc_small al pl n o = (m, pl', o') /\ pool_fine pl' /\ (m = None -> ~ generous).
Proof.
  intros (Hne & Hm). unfold palloc_small. destruct (try_blocks al n (drop (p_current pl) (blocks pl))) as [[m bl]|] eqn:E.
  - do 3 eexists. split; [reflexivity|]. split; [|done]. split; [|exact Hm]. apply try_blocks_nonempty in E. intros H. by apply app_eq_nil in H as [_ H].
  - unfold ngx_palloc_block. destruct (blocks pl) as [|b0 bl0] eqn:Eb; [done|]. rewrite <- Eb.
    destruct (os_alloc o NGX_POOL_ALIGNMENT _) as [[new|] o1] eqn:Eo.
    + destruct (count_failed _ _ _) as [tl cur]. do 3 eexists. split; [reflexivity|]. split; [|done]. split; [|exact Hm].
      cbn [blocks]. intros H. apply app_eq_nil in H as [_ H]. by apply app_eq_nil in H as [_ H].
    + do 3 eexists. split; [reflexivity|]. split; [split; [by rewrite Eb|done]|]. intros _ G. destruct (G o NGX_POOL_ALIGNMENT (u64 (b_end b0 - b_base b0))) as (? & ? & ?). congruence.
Qed.
Lemma palloc_fine al pl n o : pool_fine pl ->
  exists m pl' o', palloc_fuel 2 al pl n o = Ok (m, pl', o') /\ pool_fine pl' /\ (m = None -> ~ generous).
Proof.
  intros Hf. pose proof Hf as (Hne & Hm). cbn [palloc_fuel]. destruct (n <=? p_max pl).
  { destruct (palloc_small_fine al pl n o Hf) as (m & pl' & o' & -> & H). eauto 6. }
  unfold ngx_palloc_large. destruct (os_alloc o 1 n) as [[p|] o1] eqn:Eo.
  2: { do 3 eexists. split; [reflexivity|]. split; [done|]. intros _ G. destruct (G o 1 n) as (? & ? & ?). congruence. }
  destruct (reuse_large 0 (p_large pl) p); [do 3 eexists; split; [reflexivity|]; split; [by split|done]|].
  destruct (Z.leb_spec sizeof_pool_large_t (p_max pl)); [|lia]. rewrite obind_Ok.
  destruct (palloc_small_fine true pl sizeof_pool_large_t o1 Hf) as (m & pl' & o' & -> & Hf' & Hg).
  destruct m; [|eauto 8]. do 3 eexists. split; [reflexivity|]. split; [|done]. destruct Hf'. by split.
Qed.
Lemma set_last_fine pl n : pool_fine pl -> pool_fine (set_last pl n).
Proof. intros (Hne & Hm). unfold set_last. destruct (blocks pl) eqn:E; [done|]. split; [done|exact Hm]. Qed.
End Memory.

(** ** Code arrays *)

Section Arrays.
Context {Osm : OSMem} {A : Type}.
Lemma push_into_room (a : ngx_array A) xs (e n : Z) pl o : 0 < a_size a -> 0 < n -> Z.of_nat (length (items a ++ xs)) <= n ->
  exists b, push_into (mk_array (a_addr a) e (items a) (a_size a) n) xs pl o = Ok (Some b, pl, o) /\ array_ok b /\ items b = items a ++ xs /\ nalloc b = n.
Proof.
  intros Hs Hn Hl. unfold push_into, fill_slots. cbn [items nalloc a_addr a_size elts]. rewrite (proj2 (Z.ltb_ge _ _)) by lia.
  eexists. split; [reflexivity|]. unfold array_ok. cbn [items nalloc a_size]. split; [lia|done].
Qed.
Lemma array_push_n_spec (a : ngx_array A) xs pl o : array_ok a -> pool_fine pl ->
  exists b pl' o', ngx_array_push_n a xs pl o = Ok (b, pl', o') /\ pool_fine pl' /\
    match b with Some a' => array_ok a' /\ items a' = items a ++ xs | None => ~ generous end.
Proof.
  intros (Hs & Hn & Hl) Hf. unfold ngx_array_push_n. destruct (Z.ltb_spec (nalloc a) (Z.of_nat (length (items a)) + Z.of_nat (length xs))).
  - destruct (_ && _).
    + destruct (push_into_room a xs (elts a) (nalloc a + Z.of_nat (length xs)) (set_last pl (d_last pl + Z.of_nat (length xs) * a_size a)) o) as (b & -> & Hb & Ei & _);
        [done|lia|rewrite length_app; lia|]. do 3 eexists. split; [reflexivity|]. split; [by apply set_last_fine|done].
    + set (n := 2 * _). assert (Hn2 : 0 < n /\ Z.of_nat (length (items a)) + Z.of_nat (length xs) <= n) by (unfold n; destruct (Z.leb_spec (nalloc a) (Z.of_nat (length xs))); lia).
      unfold ngx_palloc. destruct (palloc_fine true pl (n * a_size a) o Hf) as (m & pl1 & o1 & -> & Hf1 & Hg). rewrite obind_Ok.
      destruct m as [e|]; [|do 3 eexists; split; [reflexivity|]; split; [done|by apply Hg]].
      destruct (push_into_room a xs e n pl1 o1) as (b & -> & Hb & Ei & _); [done|lia|rewrite length_app; lia|]. do 3 eexists. split; [reflexivity|]. done.
  - destruct a as [ad e it s n']. cbn in *. destruct (push_into_room (mk_array ad e it s n') xs e n' pl o) as (b & Hpu & Hb & Ei & _); [done|done|cbn; rewrite length_app; lia|].
    do 3 eexists. split; [exact Hpu|]. done.
Qed.
Lemma array_push_room (a : ngx_array A) x pl o : array_ok a -> Z.of_nat (length (items a)) < nalloc a ->
  exists b, ngx_array_push a x pl o = Ok (Some b, pl, o) /\ array_ok b /\ items b = items a ++ [x] /\ nalloc b = nalloc a.
Proof.
  intros (Hs & Hn & _) Hl. unfold ngx_array_push. rewrite (proj2 (Z.eqb_neq _ _)) by lia. destruct a as [ad e it s n']. cbn in *.
  apply (push_into_room (mk_array ad e it s n') [x] e n' pl o Hs Hn). cbn. rewrite length_app. cbn. lia.
Qed.
Lemma array_push_fine (a : ngx_array A) x pl o : array_ok a -> pool_fine pl ->
  exists b pl' o', ngx_array_push a x pl o = Ok (b, pl', o') /\ pool_fine pl' /\
    match b with Some a' => array_ok a' /\ items a' = items a ++ [x] | None => ~ generous end.
Proof.
  intros Ha Hf. pose proof Ha as (Hs & Hn & Hl). destruct (Z.eq_dec (Z.of_nat (length (items a))) (nalloc a)) as [E|E].
  2: { destruct (array_push_room a x pl o Ha ltac:(lia)) as (b & -> & Hb & Ei & _). do 3 eexists. split; [reflexivity|]. done. }
  unfold ngx_array_push. rewrite (proj2 (Z.eqb_eq _ _)) by done. destruct (_ && _).
  - destruct (push_into_room a [x] (elts a) (nalloc a + 1) (set_last pl (d_last pl + a_size a)) o) as (b & -> & Hb & Ei & _);
      [done|lia|rewrite length_app; cbn; lia|]. do 3 eexists. split; [reflexivity|]. split; [by apply set_last_fine|done].
  - unfold ngx_palloc. destruct (palloc_fine true pl (2 * (a_size a * nalloc a)) o Hf) as (m & pl1 & o1 & -> & Hf1 & Hg). rewrite obind_Ok.
    destruct m as [e|]; [|do 3 eexists; split; [reflexivity|]; split; [done|by apply Hg]].
    destruct (push_into_room a [x] e (nalloc a * 2) pl1 o1) as (b & -> & Hb & Ei & _); [done|lia|rewrite length_app; cbn; lia|]. do 3 eexists. split; [reflexivity|]. done.
Qed.
Lemma array_init_spec addr pl n sz o : 0 < n -> 0 < sz -> pool_fine pl ->
  exists b pl' o', @ngx_array_init Osm A addr pl n sz o = Ok (b, pl', o') /\ pool_fine pl' /\
    match b with Some a => array_ok a /\ items a = [] /\ nalloc a = n | None => ~ generous end.
Proof.
  intros Hn Hs Hm. unfold ngx_array_init, ngx_palloc. destruct (palloc_fine true pl (n * sz) o Hm) as (b & pl' & o' & -> & Hp & Hg). rewrite obind_Ok.
  destruct b; (do 3 eexists; split; [reflexivity|]); split; [done| |done|by apply Hg]. cbn. split; [|done]. unfold array_ok. cbn. lia.
Qed.
End Arrays.

(** ** Templates *)

(** A text with variables: what the language of templates means. *)
Inductive part := PText (t : bytes) | PVar (name : bytes) | PCapture (n : Z).
Fixpoint template_fuel (fuel : nat) (t : bytes) : option (list part) :=
  match fuel with
  | O => None
  | S f =>
      match t with
      | [] => Some []
      | c :: t' =>
          if c =? 36 then
            match t' with
            | [] => None
            | d :: t'' =>
                if (49 <=? d) && (d <=? 57) then cons (PCapture (d - 48)) <$> template_fuel f t''
                else if d =? 123 then
                  match span var_char t'' with
                  | ((_ :: _) as name, 125 :: rest) => cons (PVar name) <$> template_fuel f rest
                  | _ => None
                  end
                else
                  match span var_char t' with
                  | ((_ :: _) as name, rest) => cons (PVar name) <$> template_fuel f rest
                  | _ => None
                  end
            end
          else let '(text, rest) := span (fun c => negb (c =? 36)) t in cons (PText text) <$> template_fuel f rest
      end
  end.
Definition template (t : bytes) : option (list part) := template_fuel (S (length t)) t.
Example template_ex : template (bs "a${x}b$1$y.") = Some [PText (bs "a"); PVar (bs "x"); PText (bs "b"); PCapture 1; PVar (bs "y"); PText (bs ".")] /\
  template (bs "a$") = None /\ template (bs "${a") = None /\ template (bs "$-") = None.
Proof. vm_compute. done. Qed.

(** Parts whose variables are known by their indices, their codes and their texts. *)
Inductive rpart := RText (t : bytes) | RVar (i : Z) | RCapture (n : Z).
(** There are [n] variables. *)
Definition part_in (n : nat) (p : rpart) : Prop := match p with RText _ => True | RVar i => 0 <= i < Z.of_nat n | RCapture n => 0 <= n end.
Definition lcode_of (p : rpart) : lcode := match p with RText t => LCopy (blen t) | RVar i => LVar i | RCapture n => LCapture (2 * n) end.
Definition code_of (p : rpart) : code := match p with RText t => CCopy t | RVar i => CVar i | RCapture n => CCapture (2 * n) end.
Definition lengths_of (ps : list rpart) : lcodes := concat (map (fun p => lslots (lcode_of p)) ps).
Definition values_of (ps : list rpart) : codes := concat (map (fun p => cslots (code_of p)) ps).

Section Run.
Context {Osm : OSMem} (get_handler : Z -> req -> option vv) (var_nocacheable : Z -> bool) (cycle_prefix cycle_conf_prefix : bytes).
Implicit Types (q : request) (e : engine) (pl : pool) (o : os) (ps : list rpart).
Abbreviation get_indexed := (ngx_http_get_indexed_variable get_handler var_nocacheable).
Abbreviation lengths_run := (run_lengths get_handler var_nocacheable cycle_prefix cycle_conf_prefix).
Abbreviation values_run := (run_values get_handler var_nocacheable cycle_prefix cycle_conf_prefix).

(** The text that a variable shows, if it has one: what is cached, or what its handler
    answers. *)
Definition shown (v : option vv) : option slice := match v with Some v => if not_found v then None else Some (v_text v) | None => None end.
Definition seen q (i : Z) : option slice :=
  match variables q !! Z.to_nat i with
  | None => None
  | Some v => if not_found v || valid v then shown (Some v) else shown (get_handler i (rq q))
  end.
(** The request when all variables that may not be cached are forgotten. *)
Definition flush_value (v : vv) : vv := if no_cacheable v then v <| valid := false |> <| not_found := false |> else v.
Definition forgotten q : request := q <| variables := flush_all (variables q) |>.
(** What an engine with the flag [flushed] sees. *)
Definition view (fl : bool) q : request := if fl then q else forgotten q.
(** Requests that differ in what is cached only. *)
Definition same (fl : bool) q q' : Prop := rq q' = rq q /\ bufs q' = bufs q /\ length (variables q') = length (variables q) /\ forall i, 0 <= i -> seen (view fl q') i = seen (view fl q) i.
Lemma same_refl fl q : same fl q q.
Proof. done. Qed.
Lemma same_trans fl q1 q2 q3 : same fl q1 q2 -> same fl q2 q3 -> same fl q1 q3.
Proof. intros (A & B & C & D) (A' & B' & C' & D'). split; [congruence|]. split; [congruence|]. split; [congruence|]. intros i Hi. rewrite D', D by lia. done. Qed.
Lemma flush_all_lookup vs i : flush_all vs !! i = flush_value <$> vs !! i.
Proof. revert i. induction vs as [|v vs IH]; intros [|i]; [done|done|done|]. cbn [flush_all]. apply IH. Qed.
Lemma flush_value_idem v : flush_value (flush_value v) = flush_value v.
Proof. destruct v as [t a [|] c]; done. Qed.
Lemma seen_lookup q q' i : rq q' = rq q -> variables q' !! Z.to_nat i = variables q !! Z.to_nat i -> seen q' i = seen q i.
Proof. intros A B. unfold seen. by rewrite A, B. Qed.
Lemma seen_forgotten q i : seen (forgotten q) i = match variables q !! Z.to_nat i with
  | None => None
  | Some v => if negb (no_cacheable v) && (not_found v || valid v) then shown (Some v) else shown (get_handler i (rq q)) end.
Proof.
  unfold seen. change (variables (forgotten q)) with (flush_all (variables q)). rewrite flush_all_lookup. destruct (variables q !! Z.to_nat i) as [v|]; [|done]. cbn [fmap option_fmap option_map].
  unfold flush_value. destruct v as [t a [|] c]; done.
Qed.

(** Caching what the handler answers, or that it failed, shows nothing else. *)
Lemma lookup_put q i w j : 0 <= i < Z.of_nat (length (variables q)) -> 0 <= j -> variables (put_var i w q) !! Z.to_nat j = if decide (j = i) then Some w else variables q !! Z.to_nat j.
Proof.
  intros Hi Hj. unfold put_var. change (variables (q <| variables := <[Z.to_nat i:=w]> (variables q) |>)) with (<[Z.to_nat i:=w]> (variables q)).
  destruct (decide (j = i)) as [->|Hne]; [by rewrite list_lookup_insert_eq by lia|by rewrite list_lookup_insert_ne by lia].
Qed.
Lemma put_same q i w : rq (put_var i w q) = rq q /\ bufs (put_var i w q) = bufs q /\ length (variables (put_var i w q)) = length (variables q).
Proof. unfold put_var. split; [done|]. split; [done|]. change (variables (q <| variables := <[Z.to_nat i:=w]> (variables q) |>)) with (<[Z.to_nat i:=w]> (variables q)). apply length_insert. Qed.
Lemma same_put q i v w : 0 <= i -> variables q !! Z.to_nat i = Some v -> not_found v || valid v = false ->
  shown (Some w) = shown (get_handler i (rq q)) -> same true q (put_var i w q) /\ same false q (put_var i w q).
Proof.
  intros Hi Hv Hc Hw. pose proof (lookup_lt_Some _ _ _ Hv) as Hl. destruct (put_same q i w) as (A & B & C).
  split; (split; [exact A|]; split; [exact B|]; split; [exact C|]); intros j Hj; cbn [view]; [unfold seen|rewrite !seen_forgotten]; rewrite A, lookup_put by lia;
    (destruct (decide (j = i)) as [->|Hne]; [|done]); rewrite Hv, ?Hc, ?andb_false_r, Hw; [by destruct (not_found w || valid w)|by destruct (negb (no_cacheable w) && (not_found w || valid w))].
Qed.
Lemma get_indexed_seen fl q i : 0 <= i -> exists v q', get_indexed q i = Ok (v, q') /\ same fl q q' /\ shown v = seen q i.
Proof.
  intros Hi. unfold ngx_http_get_indexed_variable, variable_at. destruct (Z.leb_spec (Z.of_nat (length (variables q))) i) as [Hl|Hl].
  - exists None, q. split; [done|]. split; [done|]. unfold seen. by rewrite lookup_ge_None_2 by lia.
  - destruct (lookup_lt_is_Some_2 (variables q) (Z.to_nat i) ltac:(lia)) as [v Hv]. rewrite Hv, obind_Ok. destruct (not_found v || valid v) eqn:Hc.
    + exists (Some v), q. split; [done|]. split; [done|]. unfold seen. by rewrite Hv, Hc.
    + assert (Hput : forall w, shown (Some w) = shown (get_handler i (rq q)) -> same fl q (put_var i w q)).
      { intros w Hw. destruct (same_put q i v w Hi Hv Hc Hw). by destruct fl. }
      destruct (get_handler i (rq q)) as [w|] eqn:Hh; (do 2 eexists; split; [reflexivity|]; split; [apply Hput|unfold seen; rewrite Hv, Hc, Hh]).
      * by destruct (var_nocacheable i).
      * by destruct (var_nocacheable i).
      * done.
      * done.
Qed.
(** A variable that may not be cached is forgotten first. *)
Lemma get_flushed_seen q i : 0 <= i < Z.of_nat (length (variables q)) ->
  exists v q', ngx_http_get_flushed_variable get_handler var_nocacheable q i = Ok (v, q') /\ same false q q' /\ shown v = seen (forgotten q) i.
Proof.
  intros Hi. unfold ngx_http_get_flushed_variable, variable_at. destruct (lookup_lt_is_Some_2 (variables q) (Z.to_nat i) ltac:(lia)) as [v Hv]. rewrite Hv, obind_Ok.
  rewrite seen_forgotten, Hv. destruct (valid v || not_found v) eqn:Hc.
  - rewrite orb_comm in Hc. destruct (no_cacheable v) eqn:Hnc; cbn [negb].
    + set (w := v <| valid := false |> <| not_found := false |>). set (q1 := put_var i w q). destruct (put_same q i w) as (A & B & C).
      assert (Hs1 : same false q q1).
      { split; [exact A|]. split; [exact B|]. split; [exact C|]. intros j Hj. cbn [view]. rewrite !seen_forgotten. unfold q1. rewrite A, lookup_put by lia.
        destruct (decide (j = i)) as [->|Hne]; [|done]. rewrite Hv. change (no_cacheable w) with (no_cacheable v). by rewrite Hnc. }
      destruct (get_indexed_seen false q1 i ltac:(lia)) as (u & q' & -> & Hs & Hu). exists u, q'. split; [done|]. split; [by eapply same_trans|]. rewrite Hu.
      unfold seen. unfold q1. rewrite lookup_put by lia. by rewrite decide_True, A.
    + exists (Some v), q. split; [done|]. split; [done|]. by rewrite Hc.
  - rewrite orb_comm in Hc. destruct (get_indexed_seen false q i ltac:(lia)) as (u & q' & -> & Hs & Hu). exists u, q'. split; [done|]. split; [done|]. rewrite Hu. unfold seen. by rewrite Hv, Hc, andb_false_r.
Qed.
Lemma engine_variable_seen e i : 0 <= i -> flushed e = true \/ i < Z.of_nat (length (variables (r e))) ->
  exists v q', engine_variable get_handler var_nocacheable e i = Ok (v, e <| r := q' |>) /\ same (flushed e) (r e) q' /\ option_map v_text v = seen (view (flushed e) (r e)) i.
Proof.
  intros Hi Hl. unfold engine_variable.
  assert (H : exists v q', (if flushed e then get_indexed else ngx_http_get_flushed_variable get_handler var_nocacheable) (r e) i = Ok (v, q') /\ same (flushed e) (r e) q' /\ shown v = seen (view (flushed e) (r e)) i).
  { destruct (flushed e); [by apply get_indexed_seen|]. destruct Hl as [Hl|Hl]; [done|]. by apply get_flushed_seen. }
  destruct H as (v & q' & -> & Hs & Hv). rewrite obind_Ok. do 2 eexists. split; [reflexivity|]. split; [exact Hs|]. rewrite <- Hv. destruct v as [v|]; [|done]. cbn [shown]. by destruct (not_found v).
Qed.

(** The text of a part, read from the memory [m]; a capture is escaped with [esc]. *)
Definition escape_if (esc : bool) (t : bytes) : bytes := if esc then Uri.ngx_escape_uri Uri.args t else t.
Definition part_text (esc : bool) (m : memory) q (p : rpart) : out bytes :=
  match p with
  | RText t => Ok t
  | RVar i => match seen q i with Some x => text_of m x | None => Ok [] end
  | RCapture n => if 2 * n <? ncaptures (rq q) then let! x := capture_slice (rq q) (2 * n) in let! t := text_of m x in Ok (escape_if esc t) else Ok []
  end.
Fixpoint parts_text (esc : bool) (m : memory) q ps : out bytes :=
  match ps with [] => Ok [] | p :: ps' => let! t := part_text esc m q p in let! u := parts_text esc m q ps' in Ok (t ++ u) end.
(** The variables of the parts are in the list [l]. *)
Definition variable_in (l : list Z) (p : rpart) : Prop := match p with RVar i => i ∈ l | _ => True end.
Lemma parts_text_seen esc m q q' l ps : Forall (variable_in l) ps -> rq q' = rq q -> (forall i, i ∈ l -> seen q' i = seen q i) -> parts_text esc m q' ps = parts_text esc m q ps.
Proof.
  intros Hp A Hs. induction Hp as [|p ps Hp _ IH]; [done|]. cbn [parts_text]. rewrite IH. f_equal. destruct p; cbn in *; [done|by rewrite Hs|by rewrite A].
Qed.
Definition part_ok q : rpart -> Prop := part_in (length (variables q)).
Lemma parts_ok_same fl q q' ps : same fl q q' -> Forall (part_ok q) ps -> Forall (part_ok q') ps.
Proof. intros (_ & _ & C & _) H. eapply Forall_impl; [exact H|]. intros p Hp. destruct p; cbn in *; [done|by rewrite C|done]. Qed.
Lemma parts_text_same esc fl m q q' ps : Forall (part_ok q) ps -> same fl q q' -> parts_text esc m (view fl q') ps = parts_text esc m (view fl q) ps.
Proof.
  intros Hp (A & _ & _ & D). assert (A' : rq (view fl q') = rq (view fl q)) by by destruct fl. induction Hp as [|p ps Hp _ IH]; [done|]. cbn [parts_text]. rewrite IH. f_equal.
  destruct p; cbn in *; [done|by rewrite D by lia|by rewrite A'].
Qed.
Lemma seen_bufs fl m q i : seen (view fl (q <| bufs := m |>)) i = seen (view fl q) i.
Proof. by destruct fl. Qed.
Lemma parts_text_bufs esc fl m m' q ps : parts_text esc m (view fl (q <| bufs := m' |>)) ps = parts_text esc m (view fl q) ps.
Proof. induction ps as [|p ps IH]; [done|]. cbn [parts_text]. rewrite IH. by destruct fl. Qed.

(** *** The codes of the parts *)
Lemma exec_length_part p e t : part_ok (r e) p -> part_text (escapes e) (bufs (r e)) (view (flushed e) (r e)) p = Ok t ->
  exists q', exec_length get_handler var_nocacheable cycle_prefix cycle_conf_prefix (lcode_of p) e = Ok (blen t, (advance 16 e) <| r := q' |>) /\ same (flushed e) (r e) q'.
Proof.
  intros Hp Ht. destruct p as [u|i|n]; cbn [lcode_of exec_length].
  - injection Ht as <-. exists (r e). split; [by destruct e|done].
  - unfold ngx_http_script_copy_var_len_code. cbn in Hp. destruct (engine_variable_seen (advance 16 e) i ltac:(lia)) as (v & q' & -> & Hs & Hv); [right; exact (proj2 Hp)|]. rewrite obind_Ok.
    exists q'. split; [|exact Hs]. f_equal. f_equal. cbn in Ht.
    change (seen (view (flushed (advance 16 e)) (r (advance 16 e))) i) with (seen (view (flushed e) (r e)) i) in Hv. rewrite <- Hv in Ht.
    destruct v as [v|]; cbn in Ht; [by apply (text_of_len (bufs (r e)))|by injection Ht as <-].
  - unfold ngx_http_script_copy_capture_len_code. cbn in Ht. change (escapes (advance 16 e)) with (escapes e).
    assert (A : rq (view (flushed e) (r e)) = rq (r e)) by by destruct (flushed e). rewrite A in Ht.
    exists (r e). split; [|done]. destruct (2 * n <? ncaptures (rq (r e))).
    + destruct (capture_slice (rq (r e)) (2 * n)) as [x| |]; cbn [obind] in *; [|done|done]. change (r (advance 16 e)) with (r e).
      destruct (text_of (bufs (r e)) x) as [u| |] eqn:Eu; cbn [obind] in *; [|done|done]. injection Ht as <-. rewrite (text_of_len _ _ _ Eu).
      destruct (escapes e); cbn [escape_if]; [|by destruct e]. rewrite UriFacts.escape_length. by destruct e.
    + injection Ht as <-. by destruct e.
Qed.
Lemma slots_length {C} n (c : C) : (0 < n)%nat -> length (slots n c) = n.
Proof. intros Hn. unfold slots. cbn [length]. rewrite length_replicate. lia. Qed.
Lemma fetch_slots {C} (pre suf : list (option C)) n c : fetch (pre ++ slots n c ++ suf) (length pre) = Ok c.
Proof. unfold fetch, slots. cbn [app]. by rewrite list_lookup_middle. Qed.
Lemma fetch_lslots pre suf c : fetch (pre ++ lslots c ++ suf) (length pre) = Ok c.
Proof. apply fetch_slots. Qed.
Lemma fetch_cslots pre suf c : fetch (pre ++ cslots c ++ suf) (length pre) = Ok c.
Proof. apply fetch_slots. Qed.
Lemma lsize_pos c : (0 < lsize c)%nat.
Proof. destruct c; cbn; lia. Qed.
Lemma lsize_part p : lsize (lcode_of p) = 16%nat.
Proof. by destruct p. Qed.

(** The codes of the parts between others take the engine behind them. *)
Lemma run_lengths_parts ps : forall fuel pre suf e n t, ip e = Some (length pre) -> Forall (part_ok (r e)) ps ->
  parts_text (escapes e) (bufs (r e)) (view (flushed e) (r e)) ps = Ok t -> 0 <= n -> n + blen t < 2 ^ 64 ->
  exists q', lengths_run (length ps + fuel) (pre ++ lengths_of ps ++ suf) n e =
    lengths_run fuel (pre ++ lengths_of ps ++ suf) (n + blen t) (e <| ip := Some (length (pre ++ lengths_of ps)) |> <| r := q' |>) /\ same (flushed e) (r e) q'.
Proof.
  induction ps as [|p ps IH]; intros fuel pre suf e n t Hip Hok Ht Hn Hmax.
  - injection Ht as <-. exists (r e). split; [|done]. cbn [lengths_of map concat app length Nat.add]. rewrite app_nil_r. change (blen []) with 0. rewrite Z.add_0_r.
    f_equal. destruct e. cbn in Hip. by subst.
  - pose proof Hok as [Hp Hok']%Forall_cons_1. cbn [parts_text] in Ht.
    destruct (part_text _ _ _ p) as [t1| |] eqn:E1; cbn [obind] in Ht; [|done|done].
    destruct (parts_text _ _ _ ps) as [t2| |] eqn:E2; cbn [obind] in Ht; [|done|done]. injection Ht as <-.
    cbn [length Nat.add run_lengths]. rewrite Hip. unfold lengths_of. cbn [map concat]. fold (lengths_of ps). rewrite <- !app_assoc.
    rewrite fetch_lslots, obind_Ok.
    destruct (exec_length_part p e t1 Hp E1) as (q1 & Ee & Hs1). rewrite Ee, obind_Ok.
    assert (Hl : blen (t1 ++ t2) = blen t1 + blen t2) by (unfold blen; rewrite length_app; lia). rewrite Hl in Hmax |- *.
    assert (H1 : 0 <= blen t1 /\ 0 <= blen t2) by (unfold blen; lia).
    assert (Eu : u64 (n + blen t1) = n + blen t1) by (apply uwrap_small; lia). rewrite Eu.
    set (e1 := (advance 16 e) <| r := q1 |>). pose proof Hs1 as (A & B & _).
    destruct (IH fuel (pre ++ lslots (lcode_of p)) suf e1 (n + blen t1) t2) as (q' & E & Hs).
    + unfold e1, advance. cbn. rewrite Hip. cbn. rewrite length_app. unfold lslots. rewrite slots_length by apply lsize_pos. by rewrite lsize_part.
    + eapply parts_ok_same; [exact Hs1|exact Hok'].
    + assert (Ex : escapes e1 = escapes e) by (unfold escapes; unfold e1, advance; cbn; by rewrite A). rewrite Ex. change (flushed e1) with (flushed e). change (r e1) with q1. rewrite B.
      rewrite <- E2. by apply parts_text_same.
    + lia.
    + lia.
    + exists q'. split; [|by eapply same_trans].
      destruct (lcode_of p) eqn:El; try (destruct p; discriminate El);
        rewrite <- !app_assoc in E; (etransitivity; [exact E|]); rewrite Z.add_assoc; by destruct e.
Qed.

(** *** Writing *)
Definition with_bufs (m : memory) (e : engine) : engine := e <| r := (r e) <| bufs := m |> |>.
Lemma put_ok m size w t e : bufs (r e) = m ++ [(size, w)] -> cur e = length m -> blen w + blen t <= size ->
  put t e = Ok (with_bufs (m ++ [(size, w ++ t)]) e).
Proof.
  intros Hb Hc Hle. unfold put. rewrite Hb, Hc, list_lookup_middle by done.
  rewrite (proj2 (Z.ltb_ge size (blen (w ++ t)))) by (unfold blen in *; rewrite length_app; lia). f_equal. unfold with_bufs.
  rewrite insert_app_r_alt, Nat.sub_diag by lia. done.
Qed.
Lemma with_bufs_id m e : bufs (r e) = m -> with_bufs m e = e.
Proof. intros <-. destruct e as [???????????[? ? ? ?]]. done. Qed.

Lemma exec_value_part p e pl o m size w t : part_ok (r e) p -> skip e = false ->
  bufs (r e) = m ++ [(size, w)] -> cur e = length m -> part_text (escapes e) m (view (flushed e) (r e)) p = Ok t -> blen w + blen t <= size ->
  exists q', exec_value get_handler var_nocacheable cycle_prefix cycle_conf_prefix (code_of p) e pl o =
    Ok (with_bufs (m ++ [(size, w ++ t)]) ((advance (csize (code_of p)) e) <| r := q' |>), pl, o) /\ same (flushed e) (r e) q'.
Proof.
  intros Hp Hsk Hb Hc Ht Hle. destruct p as [u|i|n]; cbn [code_of exec_value csize].
  - injection Ht as <-. rewrite Hsk, (put_ok m size w u e Hb Hc Hle). cbn [obind]. exists (r e). split; [|done]. by destruct e.
  - unfold ngx_http_script_copy_var_code. change (skip (advance 16 e)) with (skip e). rewrite Hsk. cbn in Hp.
    destruct (engine_variable_seen (advance 16 e) i ltac:(lia)) as (v & q' & -> & Hs & Hv); [right; exact (proj2 Hp)|]. rewrite obind_Ok. exists q'. split; [|exact Hs].
    cbn in Ht. change (seen (view (flushed (advance 16 e)) (r (advance 16 e))) i) with (seen (view (flushed e) (r e)) i) in Hv. rewrite <- Hv in Ht.
    assert (Hb' : bufs (r ((advance 16 e) <| r := q' |>)) = m ++ [(size, w)]) by (destruct Hs as (_ & Hs & _); cbn; by rewrite Hs).
    destruct v as [v|]; cbn in Ht.
    + rewrite Hb', (text_app m _ t _ _ Ht), obind_Ok. by rewrite (put_ok m size w t _ Hb' Hc Hle).
    + injection Ht as <-. rewrite app_nil_r, obind_Ok. by rewrite (with_bufs_id _ _ Hb').
  - unfold ngx_http_script_copy_capture_code. cbn in Ht. change (escapes (advance 16 e)) with (escapes e).
    assert (A : rq (view (flushed e) (r e)) = rq (r e)) by by destruct (flushed e). rewrite A in Ht.
    exists (r e). split; [|done]. destruct (2 * n <? ncaptures (rq (r e))).
    + destruct (capture_slice (rq (r e)) (2 * n)) as [x| |]; cbn [obind] in *; [|done|done]. change (r (advance 16 e)) with (r e).
      destruct (text_of m x) as [u| |] eqn:Eu; cbn [obind] in *; [|done|done]. injection Ht as <-.
      rewrite Hb, (text_app m _ u _ _ Eu), obind_Ok. fold (escape_if (escapes e) u). rewrite (put_ok m size w _ (advance 16 e) Hb Hc Hle). by destruct e.
    + injection Ht as <-. rewrite app_nil_r, obind_Ok. do 3 f_equal. etransitivity; [|symmetry; apply with_bufs_id; exact Hb]. by destruct e.
Qed.
Lemma csize_pos p : (0 < csize (code_of p))%nat.
Proof. destruct p; cbn [code_of csize]; [|lia|lia]. assert (0 <= align8 (blen t)) by (unfold align8; apply Z.land_nonneg; left; unfold blen; lia). lia. Qed.

(** Also for an engine that knows more codes. *)
Lemma run_values_parts ex ps : (forall p e pl o, ex (code_of p) e pl o = exec_value get_handler var_nocacheable cycle_prefix cycle_conf_prefix (code_of p) e pl o) ->
  forall fuel pre suf e pl o m size w t, ip e = Some (length pre) -> Forall (part_ok (r e)) ps -> skip e = false ->
  bufs (r e) = m ++ [(size, w)] -> cur e = length m -> parts_text (escapes e) m (view (flushed e) (r e)) ps = Ok t -> blen w + blen t <= size ->
  exists q', run_codes ex (length ps + fuel) (pre ++ values_of ps ++ suf) e pl o =
    run_codes ex fuel (pre ++ values_of ps ++ suf) (with_bufs (m ++ [(size, w ++ t)]) (e <| ip := Some (length (pre ++ values_of ps)) |> <| r := q' |>)) pl o /\ same (flushed e) (r e) q'.
Proof.
  intros Hex. induction ps as [|p ps IH]; intros fuel pre suf e pl o m size w t Hip Hok Hsk Hb Hc Ht Hle.
  - injection Ht as <-. exists (r e). split; [|done]. cbn [values_of map concat app length Nat.add]. rewrite !app_nil_r.
    f_equal. rewrite with_bufs_id by exact Hb. destruct e. cbn in Hip. by subst.
  - pose proof Hok as [Hp Hok']%Forall_cons_1. cbn [parts_text] in Ht.
    destruct (part_text _ m _ p) as [t1| |] eqn:E1; cbn [obind] in Ht; [|done|done].
    destruct (parts_text _ m _ ps) as [t2| |] eqn:E2; cbn [obind] in Ht; [|done|done]. injection Ht as <-.
    cbn [length Nat.add run_codes]. rewrite Hip. unfold values_of. cbn [map concat]. fold (values_of ps). rewrite <- !app_assoc.
    rewrite fetch_cslots, obind_Ok.
    assert (Hl : blen (t1 ++ t2) = blen t1 + blen t2) by (unfold blen; rewrite length_app; lia). rewrite Hl in Hle.
    assert (H1 : 0 <= blen t1 /\ 0 <= blen t2) by (unfold blen; lia).
    destruct (exec_value_part p e pl o m size w t1 Hp Hsk Hb Hc E1 ltac:(lia)) as (q1 & Ee & Hs1). rewrite Hex, Ee, obind_Ok.
    set (e1 := with_bufs (m ++ [(size, w ++ t1)]) ((advance (csize (code_of p)) e) <| r := q1 |>)). pose proof Hs1 as (A & B & C & D).
    assert (Hs1' : same (flushed e) (r e) ((r e1) <| bufs := bufs (r e) |>)).
    { split; [exact A|]. split; [done|]. split; [exact C|]. intros j Hj. rewrite <- (D j Hj). by destruct (flushed e). }
    destruct (IH fuel (pre ++ cslots (code_of p)) suf e1 pl o m size (w ++ t1) t2) as (q' & E & Hs).
    + unfold e1, advance. cbn -[csize]. rewrite Hip. cbn -[csize]. rewrite length_app. unfold cslots. by rewrite slots_length by apply csize_pos.
    + exact (parts_ok_same _ _ _ _ Hs1' Hok').
    + exact Hsk.
    + done.
    + exact Hc.
    + assert (Ex : escapes e1 = escapes e) by (unfold escapes; unfold e1, advance; cbn; by rewrite A). rewrite Ex. change (flushed e1) with (flushed e).
      rewrite <- E2, <- (parts_text_same (escapes e) _ m (r e) q1 ps Hok' Hs1). apply (parts_text_bufs (escapes e) (flushed e) m (m ++ [(size, w ++ t1)]) q1).
    + unfold blen in *. rewrite length_app. lia.
    + exists (q' <| bufs := bufs (r e) |>). split.
      * destruct (code_of p) eqn:El; try (destruct p; discriminate El);
          rewrite <- !app_assoc in E; (etransitivity; [exact E|]); by destruct e.
      * destruct Hs as (A' & _ & C' & D'). split; [exact (eq_trans A' A)|]. split; [done|]. split; [exact (eq_trans C' C)|].
        intros j Hj. rewrite seen_bufs. destruct Hs1' as (_ & _ & _ & H). specialize (H j Hj). rewrite seen_bufs in H. exact (eq_trans (D' j Hj) H).
Qed.

(** ** Complex values *)

Lemma flush_variable_ok q i : 0 <= i < Z.of_nat (length (variables q)) ->
  exists v, variables q !! Z.to_nat i = Some v /\ flush_variable q i = Ok (put_var i (flush_value v) q) \/ variables q !! Z.to_nat i = Some v /\ flush_variable q i = Ok q /\ flush_value v = v.
Proof.
  intros Hi. destruct (lookup_lt_is_Some_2 (variables q) (Z.to_nat i) ltac:(lia)) as [v Hv]. exists v. unfold flush_variable, variable_at. rewrite Hv. cbn [obind].
  unfold flush_value. destruct (no_cacheable v); [left|right]; done.
Qed.
(** One variable forgotten: the request is the same but for that. *)
Lemma flush_variable_spec q i : 0 <= i < Z.of_nat (length (variables q)) ->
  exists q', flush_variable q i = Ok q' /\ rq q' = rq q /\ bufs q' = bufs q /\ length (variables q') = length (variables q) /\
    (forall j, variables q' !! j = if decide (j = Z.to_nat i) then flush_value <$> variables q !! j else variables q !! j).
Proof.
  intros Hi. destruct (flush_variable_ok q i Hi) as (v & [(Hv & E)|(Hv & E & Hf)]).
  - eexists. split; [exact E|]. split; [done|]. split; [done|]. unfold put_var.
    change (variables (q <| variables := <[Z.to_nat i:=flush_value v]> (variables q) |>)) with (<[Z.to_nat i:=flush_value v]> (variables q)).
    split; [apply length_insert|]. intros j. destruct (decide (j = Z.to_nat i)) as [->|Hne]; [|by rewrite list_lookup_insert_ne by done].
    rewrite list_lookup_insert_eq by lia. by rewrite Hv.
  - exists q. split; [done|]. split; [done|]. split; [done|]. split; [done|]. intros j. destruct (decide (j = Z.to_nat i)) as [->|]; [|done]. rewrite Hv. cbn. by rewrite Hf.
Qed.
Lemma flush_loop_spec l : forall q, Forall (fun i => 0 <= i < Z.of_nat (length (variables q))) l ->
  exists q', flush_loop (l ++ [-1]) q = Ok q' /\ rq q' = rq q /\ bufs q' = bufs q /\ length (variables q') = length (variables q) /\
    (forall j, variables q' !! j = if decide (Z.of_nat j ∈ l) then flush_value <$> variables q !! j else variables q !! j).
Proof.
  induction l as [|i l IH]; intros q Hl.
  - exists q. split; [done|]. split; [done|]. split; [done|]. split; [done|]. intros j. rewrite decide_False; [done|]. set_solver.
  - apply Forall_cons_1 in Hl as [Hi Hl]. cbn [app flush_loop]. rewrite (proj2 (Z.eqb_neq i (-1))) by lia.
    destruct (flush_variable_spec q i Hi) as (q1 & -> & A & B & C & D). rewrite obind_Ok.
    destruct (IH q1) as (q' & E & A' & B' & C' & D'); [by rewrite C|]. exists q'. split; [exact E|]. split; [congruence|]. split; [congruence|]. split; [congruence|].
    intros j. rewrite D', D. destruct (decide (j = Z.to_nat i)) as [->|Hne].
    + rewrite (decide_True (P := Z.of_nat (Z.to_nat i) ∈ i :: l)) by (rewrite Z2Nat.id by lia; left).
      destruct (decide _); [|done]. destruct (variables q !! Z.to_nat i); [|done]. cbn. by rewrite flush_value_idem.
    + assert (Hiff : Z.of_nat j ∈ i :: l <-> Z.of_nat j ∈ l) by (rewrite elem_of_cons; split; [intros [?|?]; [lia|done]|by right]).
      destruct (decide (Z.of_nat j ∈ l)), (decide (Z.of_nat j ∈ i :: l)); tauto || done.
Qed.


(** The compiled form of parts, with the indices [l] of the variables. *)
Definition complex_of (v : bytes) (l : list Z) ps : complex code :=
  mk_complex v (match l with [] => None | _ => Some (l ++ [-1]) end) (Some (lengths_of ps ++ lslots LEnd)) (Some (values_of ps ++ cslots CEnd)).
Lemma parts_fuel {C} (f : rpart -> list (option C)) ps suf : (forall p, 0 < length (f p))%nat ->
  exists k, S (length (concat (map f ps) ++ suf)) = (length ps + S k)%nat.
Proof.
  intros Hf. assert (H : (length ps <= length (concat (map f ps)))%nat).
  { induction ps as [|p ps IH]; cbn [map concat length]; [lia|]. rewrite length_app. specialize (Hf p). lia. }
  exists (length (concat (map f ps) ++ suf) - length ps)%nat. rewrite length_app. lia.
Qed.
Lemma lslots_pos p : (0 < length (lslots (lcode_of p)))%nat.
Proof. unfold lslots. rewrite slots_length; apply lsize_pos. Qed.
Lemma cslots_pos p : (0 < length (cslots (code_of p)))%nat.
Proof. unfold cslots. rewrite slots_length; apply csize_pos. Qed.

Lemma complex_value_ok v l ps q pl o t : Forall (part_ok q) ps -> Forall (variable_in l) ps -> Forall (fun i => 0 <= i < Z.of_nat (length (variables q))) l ->
  parts_text false (bufs q) (forgotten q) ps = Ok t -> blen t < 2 ^ 64 -> pool_fine pl ->
  exists rc x q' pl' o', ngx_http_complex_value get_handler var_nocacheable cycle_prefix cycle_conf_prefix q (complex_of v l ps) pl o = Ok (rc, x, q', pl', o') /\
    (rc = NGX_ERROR /\ ~ generous \/ rc = NGX_OK /\ text_of (bufs q') x = Ok t /\ len x = blen t).
Proof.
  intros Hok Hin Hl Ht Hmax Hm. unfold ngx_http_complex_value. cbn [complex_of cv_lengths cv_values]. unfold ngx_http_script_flush_complex_value.
  assert (Hfl : exists q1, match cv_flushes (complex_of v l ps) with Some l0 => flush_loop l0 q | None => Ok q end = Ok q1 /\ rq q1 = rq q /\ bufs q1 = bufs q /\
    length (variables q1) = length (variables q) /\ parts_text false (bufs q) q1 ps = Ok t).
  { destruct (flush_loop_spec l q Hl) as (q1 & E & A & B & C & D). rewrite <- Ht.
    assert (Hs : forall i, i ∈ l -> seen q1 i = seen (forgotten q) i).
    { intros i Hi. apply seen_lookup; [done|]. change (variables (forgotten q)) with (flush_all (variables q)). rewrite flush_all_lookup, D, decide_True; [done|].
      rewrite Z2Nat.id; [done|]. rewrite Forall_forall in Hl. specialize (Hl i Hi). cbn in Hl. lia. }
    exists q1. destruct l as [|i l]; cbn [complex_of cv_flushes].
    - cbn in E. assert (q1 = q) as -> by congruence. split; [done|]. split; [done|]. split; [done|]. split; [done|]. by apply (parts_text_seen _ _ _ _ []).
    - split; [exact E|]. split; [done|]. split; [done|]. split; [done|]. by apply (parts_text_seen _ _ _ _ (i :: l)). }
  destruct Hfl as (q1 & -> & A & B & C & Et). rewrite obind_Ok.
  assert (Hok1 : Forall (part_ok q1) ps) by (eapply Forall_impl; [exact Hok|]; intros p Hp; destruct p; cbn in *; [done|by rewrite C|done]).
  destruct (parts_fuel (fun p => lslots (lcode_of p)) ps (lslots LEnd) lslots_pos) as (k & Ek). fold (lengths_of ps) in Ek. rewrite Ek.
  destruct (run_lengths_parts ps (S k) [] (lslots LEnd) ((zero_engine q1) <| flushed := true |>) 0 t) as (q2 & E2 & Hs2).
  { done. } { done. } { change (parts_text false (bufs q1) q1 ps = Ok t). by rewrite B. } { done. } { lia. }
  cbn [app] in E2. rewrite E2. cbn [run_lengths ip]. change (ip ((zero_engine q1) <| flushed := true |> <| ip := Some (length (lengths_of ps)) |> <| r := q2 |>)) with (Some (length (lengths_of ps))).
  rewrite <- (app_nil_r (lslots LEnd)), fetch_lslots, obind_Ok. cbn match. rewrite obind_Ok, Z.add_0_l.
  unfold ngx_pnalloc. destruct (palloc_fine false pl (blen t) o Hm) as (b & pl1 & o1 & -> & Hm1 & Hg). rewrite obind_Ok.
  destruct b as [b|]; [|do 5 eexists; split; [reflexivity|]; left; split; [done|by apply Hg]].
  set (e2 := (zero_engine q1) <| flushed := true |> <| ip := Some (length (lengths_of ps)) |> <| r := q2 |>). change (r e2) with q2. cbn [new_buf].
  set (e3 := e2 <| r := q2 <| bufs := bufs q2 ++ [(blen t, [])] |> |> <| ip := Some 0%nat |> <| cur := length (bufs q2) |> <| buf := mk_slice (SBuf (length (bufs q2))) 0 (blen t) |>).
  change (same true q1 q2) in Hs2. pose proof Hs2 as (A2 & B2 & C2 & _).
  destruct (parts_fuel (fun p => cslots (code_of p)) ps (cslots CEnd) cslots_pos) as (k' & Ek'). fold (values_of ps) in Ek'. rewrite Ek'.
  destruct (run_values_parts (exec_value get_handler var_nocacheable cycle_prefix cycle_conf_prefix) ps (fun _ _ _ _ => eq_refl) (S k') [] (cslots CEnd) e3 pl1 o1 (bufs q2) (blen t) [] t) as (q4 & E4 & Hs4).
  { done. } { exact (parts_ok_same true q1 q2 ps Hs2 Hok1). } { done. } { done. } { done. }
  { change (parts_text false (bufs q2) (view true (q2 <| bufs := bufs q2 ++ [(blen t, [])] |>)) ps = Ok t). rewrite B2, B, parts_text_bufs, (parts_text_same _ true _ q1 q2 ps Hok1 Hs2). exact Et. }
  { change (blen []) with 0. lia. }
  cbn [app] in E4. unfold run_values. rewrite E4. cbn [run_codes]. match goal with |- context [ip (with_bufs ?m ?e)] => change (ip (with_bufs m e)) with (Some (length (values_of ps))) end.
  cbn match. rewrite <- (app_nil_r (cslots CEnd)), fetch_cslots, obind_Ok. cbn match. rewrite obind_Ok.
  do 5 eexists. split; [reflexivity|]. right. split; [done|]. split; [|done].
  change (text_of (bufs q2 ++ [(blen t, t)]) (mk_slice (SBuf (length (bufs q2))) 0 (blen t)) = Ok t).
  unfold text_of. cbn [len base off source_text]. rewrite list_lookup_middle by done. cbn [obind]. exact (text_lit [] t).
Qed.
End Run.
