(* ===== verification/NgxScriptCompile.v ===== *)
(** * The compiler of scripts is correct *)
From stdpp Require Import list.
From S2P Require Import Prelude NgxString NgxStrUtil NgxStrUtilProps NgxCodec NgxPrintf NgxPalloc NgxArray NgxScript NgxScriptProps NginxProps.
#[local] Open Scope Z_scope.
Import Script.

(** ** The names of variables *)

(** Letters are compared without case. *)
Definition lowercase (b : bytes) : bytes := Search.lower <$> b.
Fixpoint index_of (ns : list bytes) (name : bytes) (i : Z) : option Z :=
  match ns with [] => None | v :: ns' => if decide (lowercase v = lowercase name) then Some i else index_of ns' name (i + 1) end.
Definition name_ok (n : bytes) : Prop := Forall is_byte n /\ Forall (fun c => c <> 0) n.

Lemma index_of_app ns ns' name : forall i j, index_of ns name i = Some j -> index_of (ns ++ ns') name i = Some j.
Proof. induction ns as [|v ns IH]; intros i j E; [done|]. cbn [app index_of] in *. destruct (decide _); [done|]. by apply IH. Qed.
Lemma index_of_new ns name v : forall i, index_of ns name i = None -> lowercase v = lowercase name -> index_of (ns ++ [v]) name i = Some (i + Z.of_nat (length ns)).
Proof.
  induction ns as [|w ns IH]; intros i E Hv; cbn [app index_of length] in *; [rewrite decide_True by done; f_equal; lia|].
  destruct (decide _); [done|]. rewrite IH by done. f_equal. lia.
Qed.
Lemma index_of_range ns name : forall i j, index_of ns name i = Some j -> i <= j < i + Z.of_nat (length ns).
Proof. induction ns as [|v ns IH]; intros i j E; [done|]. cbn [index_of length] in *. destruct (decide _); [injection E as <-; lia|]. apply IH in E. lia. Qed.
Lemma lower_idem c : Search.lower (Search.lower c) = Search.lower c.
Proof.
  unfold Search.lower. destruct ((65 <=? c) && (c <=? 90)) eqn:E; [|by rewrite E].
  assert (H : 65 <= c <= 90) by lia. assert (Hl : Z.lor c 32 = c + 32).
  { assert (Hc : In c (map Z.of_nat (seq 65 26))) by (apply in_map_iff; exists (Z.to_nat c); split; [lia|apply in_seq; lia]).
    cbn [map seq In] in Hc. repeat (destruct Hc as [<-|Hc]; [reflexivity|]). done. }
  rewrite Hl. rewrite (proj2 (andb_false_iff _ _)); [done|]. right. lia.
Qed.
Lemma lowercase_idem b : lowercase (lowercase b) = lowercase b.
Proof. unfold lowercase. rewrite <- list_fmap_compose. apply list_fmap_ext. intros i c _. apply lower_idem. Qed.

Lemma find_name_spec ns name : name_ok name -> Forall name_ok ns -> forall i, find_name ns name i = Ok (index_of ns name i).
Proof.
  intros (Hn1 & Hn2) Hns. induction Hns as [|v ns (Hv1 & Hv2) _ IH]; intros i; [done|]. cbn [find_name index_of].
  destruct (Z.eqb_spec (blen name) (blen v)) as [E|E]; cbn [negb].
  - unfold blen in E. destruct (Search.ngx_strncasecmp_spec name 0 v 0 (length name) Hn1 Hv1 Hv2 ltac:(lia) ltac:(lia)) as (z & -> & Hz). rewrite obind_Ok.
    rewrite !drop_0, firstn_all, (take_ge v) in Hz by lia. unfold Search.lowers in Hz.
    destruct (Z.eqb_spec z 0) as [->|Hne].
    + rewrite decide_True by (symmetry; by apply Hz). done.
    + rewrite decide_False by (intros H; apply Hne, Hz; by symmetry). apply IH.
  - rewrite decide_False; [apply IH|]. intros H. apply (f_equal length) in H. unfold lowercase in H. rewrite !length_fmap in H. unfold blen in E. lia.
Qed.

Lemma strlow_loop_spec b : forall i n, (i + n <= length b)%nat -> ngx_strlow b i n = Ok (lowercase (take n (drop i b))).
Proof.
  intros i n. revert i. induction n as [|n IH]; intros i Hl; [done|]. cbn [ngx_strlow].
  destruct (rd_in_range b i ltac:(lia)) as (c & Hc & ->). rewrite obind_Ok. rewrite IH, obind_Ok by lia. by rewrite (drop_S b c i Hc).
Qed.
Lemma strlow_all b : ngx_strlow b 0 (length b) = Ok (lowercase b).
Proof. rewrite strlow_loop_spec by lia. by rewrite drop_0, firstn_all. Qed.
Lemma lower_char c : is_byte c -> c <> 0 -> is_byte (Search.lower c) /\ Search.lower c <> 0.
Proof.
  intros Hb Hc. unfold Search.lower. destruct ((65 <=? c) && (c <=? 90)) eqn:E; [|done].
  assert (H : In c (map Z.of_nat (seq 65 26))) by (apply in_map_iff; exists (Z.to_nat c); split; [lia|apply in_seq; lia]).
  cbn [map seq In] in H. unfold is_byte. repeat (destruct H as [<-|H]; [split; [vm_compute; split; discriminate|discriminate]|]). done.
Qed.
Lemma lowercase_ok b : name_ok b -> name_ok (lowercase b).
Proof.
  intros (H1 & H2). split; unfold lowercase; apply Forall_fmap; rewrite Forall_forall in *; intros c Hc; apply lower_char; auto.
Qed.
Lemma span_spec p t : forall a b, span p t = (a, b) -> t = a ++ b /\ Forall (fun c => p c = true) a /\ match b with [] => True | c :: _ => p c = false end.
Proof.
  induction t as [|c t IH]; intros a b E; [injection E as <- <-; done|]. cbn [span] in E. destruct (p c) eqn:Ec.
  - destruct (span p t) as [a' b'] eqn:Es. injection E as <- <-. destruct (IH _ _ eq_refl) as (-> & Ha & Hb). split; [done|]. split; [by constructor|done].
  - injection E as <- <-. done.
Qed.
Lemma var_char_ok c : var_char c = true -> is_byte c /\ c <> 0 /\ c <> 36.
Proof. unfold var_char, is_byte. intros H. rewrite !orb_true_iff, !andb_true_iff in H. lia. Qed.
Lemma name_chars_ok n : Forall (fun c => var_char c = true) n -> name_ok n.
Proof. intros H. split; (eapply Forall_impl; [exact H|]); intros c Hc; by apply var_char_ok in Hc as (? & ? & ?). Qed.

(** ** The state of the compiler *)

(** The parts that are compiled, in terms of the names. *)
Definition resolve (ns : list bytes) (p : part) : option rpart :=
  match p with PText t => Some (RText t) | PVar n => RVar <$> index_of ns n 0 | PCapture n => Some (RCapture n) end.
Fixpoint indices (rs : list rpart) : list Z := match rs with [] => [] | RVar i :: rs' => i :: indices rs' | _ :: rs' => indices rs' end.
Fixpoint nvars (ps : list part) : nat := match ps with [] => 0 | PVar _ :: ps' => S (nvars ps') | _ :: ps' => nvars ps' end.

Section Compile.
Context {Osm : OSMem}.
Implicit Types (x : st) (L : lcodes) (V : codes) (l : list Z) (ns : list bytes).

(** What a step does: it ends, and when it fails memory ran out or the text is wrong. *)
Definition runs (m : comp) x (bad : Prop) (P : st -> Prop) : Prop := exists b x', m x = Ok (b, x') /\ if b : bool then P x' else ~ generous \/ bad.
Lemma runs_then m k x bad P Q : runs m x False P -> (forall x', P x' -> runs k x' bad Q) -> runs (andthen m k) x bad Q.
Proof.
  intros (b & x' & E & H) Hk. unfold andthen, runs. rewrite E, obind_Ok. destruct b; [by apply Hk|]. exists false, x'. split; [done|]. destruct H as [H|[]]. by left.
Qed.
Lemma runs_bad m x bad P : runs m x False P -> runs m x bad P.
Proof. intros (b & x' & E & H). exists b, x'. split; [done|]. destruct b; [done|]. destruct H as [H|[]]. by left. Qed.

Definition names_are (nm : option (ngx_array bytes)) ns : Prop := Forall name_ok ns /\ match nm with Some a => array_ok a /\ items a = ns | None => ns = [] end.
(** The arrays of a complex value and the names; at most [K] variables have room. *)
Definition inv (K : nat) l L V ns x : Prop := exists fl la va,
  (flushes (s x) = Some (Some fl) /\ lengths (s x) = Some la /\ values (s x) = Some va) /\
  (array_ok fl /\ items fl = l /\ Z.of_nat K < nalloc fl /\ (length l <= K)%nat) /\ (array_ok la /\ items la = L) /\ (array_ok va /\ items va = V) /\
  (compile_args (s x) = false /\ zero (s x) = false /\ conf_prefix (s x) = false /\ root_prefix (s x) = false /\ complete_lengths (s x) = true /\ complete_values (s x) = true) /\
  names_are (names x) ns /\ pool_fine (pl x).

Lemma upd_ok K l L V ns f x : (forall s, flushes (f s) = flushes s /\ lengths (f s) = lengths s /\ values (f s) = values s /\ compile_args (f s) = compile_args s /\ zero (f s) = zero s /\
    conf_prefix (f s) = conf_prefix s /\ root_prefix (f s) = root_prefix s /\ complete_lengths (f s) = complete_lengths s /\ complete_values (f s) = complete_values s) ->
  inv K l L V ns x -> runs (upd f) x False (inv K l L V ns).
Proof.
  intros Hf (fl & la & va & (E1 & E2 & E3) & Hfl & Hla & Hva & (C1 & C2 & C3 & C4 & C5 & C6) & Hn & Hp). exists true. eexists. split; [reflexivity|].
  destruct (Hf (s x)) as (F1 & F2 & F3 & F4 & F5 & F6 & F7 & F8 & F9). exists fl, la, va. change (s (x <| s := f (s x) |>)) with (f (s x)).
  rewrite F1, F2, F3, F4, F5, F6, F7, F8, F9. done.
Qed.
Lemma add_length_ok K l L V ns c x : inv K l L V ns x -> runs (add_length c) x False (inv K l (L ++ lslots c) V ns).
Proof.
  intros (fl & la & va & (E1 & E2 & E3) & Hfl & (Hla & <-) & Hva & C & Hn & Hp). unfold runs, add_length. rewrite E2. unfold store.
  destruct (array_push_n_spec la (lslots c) (pl x) (o x) Hla Hp) as (b & p & k & -> & Hp' & Hb). rewrite obind_Ok.
  destruct b as [b|]; (do 2 eexists; split; [reflexivity|]); [|by left]. destruct Hb as (Hb & Ei). exists fl, b, va. done.
Qed.
Lemma add_value_ok K l L V ns c x : inv K l L V ns x -> runs (add_value c) x False (inv K l L (V ++ cslots c) ns).
Proof.
  intros (fl & la & va & (E1 & E2 & E3) & Hfl & Hla & (Hva & <-) & C & Hn & Hp). unfold runs, add_value. rewrite E3. unfold store.
  destruct (array_push_n_spec va (cslots c) (pl x) (o x) Hva Hp) as (b & p & k & -> & Hp' & Hb). rewrite obind_Ok.
  destruct b as [b|]; (do 2 eexists; split; [reflexivity|]); [|by left]. destruct Hb as (Hb & Ei). exists fl, la, b. done.
Qed.
Lemma push_flush_ok K l L V ns i x : (length l < K)%nat -> inv K l L V ns x -> runs (push_flush i) x False (inv K (l ++ [i]) L V ns).
Proof.
  intros Hl (fl & la & va & (E1 & E2 & E3) & (Hfl & <- & HK & HlK) & Hla & Hva & C & Hn & Hp). unfold runs, push_flush. rewrite E1. unfold store.
  destruct (array_push_room fl i (pl x) (o x) Hfl ltac:(lia)) as (b & -> & Hb & Ei & En). rewrite obind_Ok.
  do 2 eexists. split; [reflexivity|]. exists b, la, va. rewrite En. split; [done|]. split; [|done]. rewrite length_app. cbn [length]. split; [done|split; [done|split; [lia|lia]]].
Qed.

Lemma variable_index_ok K l L V ns name x : name_ok name -> name <> [] -> inv K l L V ns x ->
  exists i x', ngx_http_get_variable_index name x = Ok (i, x') /\
    match i with Some i => exists ns', inv K l L V (ns ++ ns') x' /\ index_of (ns ++ ns') name 0 = Some i | None => ~ generous end.
Proof.
  intros Hn Hne (fl & la & va & E & Hfl & Hla & Hva & C & (Hns & Hnm) & Hp). unfold ngx_http_get_variable_index.
  rewrite (proj2 (Z.eqb_neq (blen name) 0)) by (destruct name; [done|unfold blen; cbn; lia]).
  assert (Ha : exists a x1, match names x with Some a => Ok (Some a, x) | None => let! (a, p, k) := ngx_array_init 0 (pl x) 4 56 (o x) in Ok (a, x <| pl := p |> <| o := k |> <| names := a |>) end = Ok (a, x1) /\
    s x1 = s x /\ pool_fine (pl x1) /\ match a with Some a => array_ok a /\ items a = ns /\ names x1 = Some a | None => ~ generous end).
  { destruct (names x) as [a|] eqn:En; [exists (Some a), x; destruct Hnm; done|]. subst ns.
    destruct (array_init_spec 0 (A := bytes) (pl x) 4 56 (o x) ltac:(lia) ltac:(lia) Hp) as (a & p & k & -> & Hp' & Ha). rewrite obind_Ok.
    do 2 eexists. split; [reflexivity|]. split; [done|]. split; [exact Hp'|]. destruct a; [|exact Ha]. destruct Ha as (? & ? & _). done. }
  destruct Ha as (a & x1 & -> & Es & Hp1 & Ha). rewrite obind_Ok. destruct a as [a|]; [|do 2 eexists; split; [reflexivity|exact Ha]].
  destruct Ha as (Ha & Ei & En). rewrite Ei, (find_name_spec ns name Hn Hns), obind_Ok. destruct (index_of ns name 0) as [i|] eqn:Ex.
  - exists (Some i), x1. split; [done|]. exists []. rewrite app_nil_r. split; [|done]. exists fl, la, va. rewrite Es. split; [done|]. split; [done|]. split; [done|]. split; [done|].
    split; [done|]. split; [|done]. split; [done|]. by rewrite En.
  - rewrite strlow_all, obind_Ok. destruct (array_push_fine a (lowercase name) (pl x1) (o x1) Ha Hp1) as (b & p & k & -> & Hp2 & Hb). rewrite obind_Ok.
    destruct b as [b|]; [|do 2 eexists; split; [reflexivity|exact Hb]]. destruct Hb as (Hb & Eb). unfold ngx_pnalloc.
    destruct (palloc_fine false p (blen name) k Hp2) as (m & p' & k' & -> & Hp3 & Hg). rewrite obind_Ok. do 2 eexists. split; [reflexivity|].
    destruct m; [|by apply Hg]. exists [lowercase name]. rewrite Eb, Ei. split.
    + exists fl, la, va. change (s (x1 <| pl := p' |> <| o := k' |> <| names := Some b |>)) with (s x1). rewrite Es.
      split; [done|]. split; [done|]. split; [done|]. split; [done|]. split; [done|]. split; [|done]. split; [apply Forall_app; split; [done|constructor; [by apply lowercase_ok|constructor]]|].
      split; [done|]. by rewrite Eb, Ei.
    + rewrite (index_of_new ns name _ 0 Ex) by apply lowercase_idem. f_equal. rewrite length_app. cbn [length]. lia.
Qed.

Lemma add_copy_ok K l L V ns t last x : inv K l L V ns x -> runs (ngx_http_script_add_copy_code t last) x False (inv K l (L ++ lslots (LCopy (blen t))) (V ++ cslots (CCopy t)) ns).
Proof.
  intros Hi. pose proof Hi as (? & ? & ? & _ & _ & _ & _ & (_ & Hz & _) & _). unfold ngx_http_script_add_copy_code. unfold runs. rewrite Hz. cbn [andb]. rewrite app_nil_r.
  apply (runs_then _ _ _ _ (inv K l (L ++ lslots (LCopy (blen t))) V ns)); [by apply add_length_ok|]. intros y1 H1.
  apply (runs_then _ _ _ _ (inv K l (L ++ lslots (LCopy (blen t))) (V ++ cslots (CCopy t)) ns)); [by apply add_value_ok|]. intros y2 H2. by exists true, y2.
Qed.
Lemma add_var_ok K l L V ns name x : name_ok name -> name <> [] -> (length l < K)%nat -> inv K l L V ns x ->
  runs (ngx_http_script_add_var_code name) x False (fun x' => exists ns' i, index_of (ns ++ ns') name 0 = Some i /\ inv K (l ++ [i]) (L ++ lslots (LVar i)) (V ++ cslots (CVar i)) (ns ++ ns') x').
Proof.
  intros Hn Hne Hl Hi. unfold ngx_http_script_add_var_code, runs. destruct (variable_index_ok K l L V ns name x Hn Hne Hi) as (i & x1 & -> & H). rewrite obind_Ok.
  destruct i as [i|]; [|exists false, x1; split; [done|by left]]. destruct H as (ns' & H1 & Hx).
  apply (runs_then _ _ _ _ (inv K (l ++ [i]) L V (ns ++ ns'))); [by apply push_flush_ok|]. intros y2 H2.
  apply (runs_then _ _ _ _ (inv K (l ++ [i]) (L ++ lslots (LVar i)) V (ns ++ ns'))); [by apply add_length_ok|]. intros y3 H3.
  destruct (add_value_ok _ _ _ _ _ (CVar i) _ H3) as (b & y4 & E4 & H4). exists b, y4. split; [exact E4|]. destruct b; [|exact H4]. by exists ns', i.
Qed.
Lemma add_capture_ok K l L V ns n x : inv K l L V ns x -> runs (ngx_http_script_add_capture_code n) x False (inv K l (L ++ lslots (LCapture (2 * n))) (V ++ cslots (CCapture (2 * n))) ns).
Proof.
  intros Hi. unfold ngx_http_script_add_capture_code.
  apply (runs_then _ _ _ _ (inv K l (L ++ lslots (LCapture (2 * n))) V ns)); [by apply add_length_ok|]. intros y1 H1.
  apply (runs_then _ _ _ _ (inv K l (L ++ lslots (LCapture (2 * n))) (V ++ cslots (CCapture (2 * n))) ns)); [by apply add_value_ok|]. intros y2 H2.
  apply upd_ok; [|done]. intros sx. by destruct (sc_ncaptures sx <? n).
Qed.
Lemma done_ok K l L V ns x : inv K l L V ns x -> runs ngx_http_script_done x False (inv K l (L ++ lslots LEnd) (V ++ cslots CEnd) ns).
Proof.
  intros Hi. pose proof Hi as (? & ? & ? & _ & _ & _ & _ & (_ & C2 & C3 & C4 & C5 & C6) & _). unfold ngx_http_script_done, runs. rewrite C2, C3, C4, C5, C6. cbn [orb].
  apply (runs_then _ _ _ _ (inv K l L V ns)); [by exists true, x|]. intros y0 H0. apply (runs_then _ _ _ _ (inv K l L V ns)); [by exists true, y0|]. intros y1 H1.
  apply (runs_then _ _ _ _ (inv K l (L ++ lslots LEnd) V ns)); [by apply add_length_ok|]. intros y2 H2. by apply add_value_ok.
Qed.

(** ** The loop over the source *)

Lemma count_plain a b : Forall (fun c => c <> 36) a -> count_dollars (a ++ b) = count_dollars b.
Proof. induction 1 as [|c a Hc _ IH]; [done|]. cbn [app count_dollars]. rewrite IH. destruct (count_dollars b). by rewrite (proj2 (Z.eqb_neq c 36)). Qed.
Lemma count_one c b : c <> 36 -> count_dollars (c :: b) = count_dollars b.
Proof. intros Hc. apply (count_plain [c] b). by constructor. Qed.
Lemma count_bound t : 0 <= (count_dollars t).1 /\ 0 <= (count_dollars t).2.
Proof.
  induction t as [|c t IH]; [done|]. cbn [count_dollars]. destruct (count_dollars t) as [nv nc]. cbn [fst snd] in *.
  destruct (c =? 36); [|done]. destruct ((49 <=? Printf.peek t) && (Printf.peek t <=? 57)); cbn [fst snd]; lia.
Qed.
Lemma text_run_span t : exists q, text_run false t = (span (fun c => negb (c =? 36)) t, q).
Proof.
  induction t as [|c t (q & IH)]; [by exists false|]. cbn [text_run span]. destruct (c =? 36); [by exists false|]. rewrite andb_false_r, IH. cbn [negb].
  destruct (span _ t) as [a b]. by eexists.
Qed.
Definition resolved ns ps rs : Prop := mapM (resolve ns) ps = Some rs.
Lemma resolve_app ns ns' p r : resolve ns p = Some r -> resolve (ns ++ ns') p = Some r.
Proof. destruct p; cbn; [done| |done]. intros (i & Hi & ->)%fmap_Some. apply fmap_Some. exists i. split; [by apply index_of_app|done]. Qed.
Lemma resolved_cons ns p ps r rs : resolve ns p = Some r -> resolved ns ps rs -> resolved ns (p :: ps) (r :: rs).
Proof. unfold resolved. intros H1 H2. cbn. by rewrite H1, H2. Qed.

(** What the loop leaves when the rest of the source is [t]. *)
Definition finished K l L V ns (tp : option (list part)) x : Prop := exists ps ns' rs, tp = Some ps /\ resolved (ns ++ ns') ps rs /\
  inv K (l ++ indices rs) (L ++ lengths_of rs ++ lslots LEnd) (V ++ values_of rs ++ cslots CEnd) (ns ++ ns') x.
Lemma finished_cons K l L V ns ns1 p r tp x : resolve (ns ++ ns1) p = Some r ->
  finished K (l ++ indices [r]) (L ++ lslots (lcode_of r)) (V ++ cslots (code_of r)) (ns ++ ns1) tp x -> finished K l L V ns (cons p <$> tp) x.
Proof.
  intros Hr (ps & ns2 & rs & -> & Hrs & Hi). rewrite <- app_assoc in Hrs, Hi. exists (p :: ps), (ns1 ++ ns2), (r :: rs). split; [done|]. split.
  - apply resolved_cons; [rewrite app_assoc; by apply resolve_app|exact Hrs].
  - unfold lengths_of, values_of in *. cbn [map concat]. rewrite <- !app_assoc in Hi. rewrite <- !app_assoc.
    replace (indices (r :: rs)) with (indices [r] ++ indices rs) by (by destruct r). exact Hi.
Qed.
(** A step that compiles [p] and the loop behind it. *)
Lemma runs_cons K l L V ns p t f m x : (f > length t)%nat ->
  (forall l L V ns x, inv K l L V ns x -> Z.of_nat (length l) + (count_dollars t).1 <= Z.of_nat K -> runs (compile_loop f t) x (template_fuel f t = None) (finished K l L V ns (template_fuel f t))) ->
  (forall ns r, resolve ns p = Some r -> Z.of_nat (length (l ++ indices [r])) + (count_dollars t).1 <= Z.of_nat K) ->
  runs m x False (fun x' => exists ns1 r, resolve (ns ++ ns1) p = Some r /\ inv K (l ++ indices [r]) (L ++ lslots (lcode_of r)) (V ++ cslots (code_of r)) (ns ++ ns1) x') ->
  runs (andthen m (compile_loop f t)) x (cons p <$> template_fuel f t = None) (finished K l L V ns (cons p <$> template_fuel f t)).
Proof.
  intros Hf IH HK Hm. eapply runs_then; [exact Hm|]. intros y (ns1 & r & Hr & Hi). destruct (IH _ _ _ _ _ Hi (HK _ r Hr)) as (b & y' & E & H).
  exists b, y'. split; [exact E|]. destruct b; [by eapply finished_cons|]. destruct H as [H| ->]; [by left|by right].
Qed.

Lemma runs_upd_then K l L V ns g m x bad P : (forall s, flushes (g s) = flushes s /\ lengths (g s) = lengths s /\ values (g s) = values s /\ compile_args (g s) = compile_args s /\ zero (g s) = zero s /\
    conf_prefix (g s) = conf_prefix s /\ root_prefix (g s) = root_prefix s /\ complete_lengths (g s) = complete_lengths s /\ complete_values (g s) = complete_values s) ->
  inv K l L V ns x -> (forall y, inv K l L V ns y -> runs m y bad P) -> runs (andthen (upd g) m) x bad P.
Proof. intros Hg Hi Hm. eapply runs_then; [by apply (upd_ok K l L V ns)|exact Hm]. Qed.

Lemma count_var d t : (49 <=? d) && (d <=? 57) = false -> (count_dollars (36 :: d :: t)).1 = 1 + (count_dollars (d :: t)).1.
Proof. intros Hd. change (count_dollars (36 :: d :: t)) with (let '(nv, nc) := count_dollars (d :: t) in if (49 <=? d) && (d <=? 57) then (nv, nc + 1) else (nv + 1, nc)). rewrite Hd. destruct (count_dollars (d :: t)). cbn [fst]. lia. Qed.
Lemma var_runs K f name rest l L V ns x : Forall (fun c => var_char c = true) name -> name <> [] -> (f > length rest)%nat ->
  (forall l L V ns x, inv K l L V ns x -> Z.of_nat (length l) + (count_dollars rest).1 <= Z.of_nat K -> runs (compile_loop f rest) x (template_fuel f rest = None) (finished K l L V ns (template_fuel f rest))) ->
  inv K l L V ns x -> Z.of_nat (length l) + 1 + (count_dollars rest).1 <= Z.of_nat K ->
  runs (andthen (upd (fun s => s <| nvariables := nvariables s + 1 |>)) (andthen (ngx_http_script_add_var_code name) (compile_loop f rest))) x
    (cons (PVar name) <$> template_fuel f rest = None) (finished K l L V ns (cons (PVar name) <$> template_fuel f rest)).
Proof.
  intros Hn Hne Hf IH Hi HK. apply (runs_upd_then K l L V ns); [done|done|]. intros y Hy. pose proof (count_bound rest) as [Hc _].
  apply (runs_cons K l L V ns (PVar name) rest f); [done|exact IH| |].
  { intros ns0 r Hr. cbn [resolve] in Hr. apply fmap_Some in Hr as (i & _ & ->). cbn [indices]. rewrite length_app. cbn [length]. lia. }
  destruct (add_var_ok K l L V ns name y (name_chars_ok _ Hn) Hne ltac:(lia) Hy) as (b & y' & E & H). exists b, y'. split; [exact E|]. destruct b; [|exact H].
  destruct H as (ns1 & i & Hx & H). exists ns1, (RVar i). cbn [resolve]. rewrite Hx. done.
Qed.
Lemma var_chars_plain n : Forall (fun c => var_char c = true) n -> Forall (fun c => c <> 36) n.
Proof. intros H. eapply Forall_impl; [exact H|]. intros c Hc. by apply var_char_ok in Hc as (? & ? & ?). Qed.

Lemma compile_loop_ok K f : forall t l L V ns x, (length t < f)%nat -> inv K l L V ns x -> Z.of_nat (length l) + (count_dollars t).1 <= Z.of_nat K ->
  runs (compile_loop f t) x (template_fuel f t = None) (finished K l L V ns (template_fuel f t)).
Proof.
  induction f as [|f IH]; intros t l L V ns x Hlen Hi HK; [lia|]. destruct t as [|c t].
  { cbn [compile_loop template_fuel]. destruct (done_ok K l L V ns x Hi) as (b & y & E & H). exists b, y. split; [exact E|]. destruct b; [|destruct H as [H|[]]; by left].
    exists [], [], []. rewrite !app_nil_r. done. }
  cbn [compile_loop template_fuel]. cbn [length] in Hlen. unfold runs. destruct (Z.eqb_spec c 36) as [->|Hc].
  - destruct t as [|d t']; [exists false, x; split; [done|by right]|]. cbn [length] in Hlen. destruct ((49 <=? d) && (d <=? 57)) eqn:Ed.
    + assert (Hd : d <> 36) by lia. assert (Ec : (count_dollars (36 :: d :: t')).1 = (count_dollars t').1).
      { cbn [count_dollars]. rewrite (proj2 (Z.eqb_neq d 36)) by done. cbn [Printf.peek]. rewrite Ed. by destruct (count_dollars t'). }
      rewrite Ec in HK. apply (runs_upd_then K l L V ns); [done|done|]. intros y Hy.
      apply (runs_cons K l L V ns (PCapture (d - 48)) t' f); [lia|by intros; apply IH; [lia|..]|by intros ns0 r [= <-]; cbn [indices]; rewrite app_nil_r|].
      destruct (add_capture_ok K l L V ns (d - 48) y Hy) as (b & y' & E & H). exists b, y'. split; [exact E|]. destruct b; [|exact H].
      exists [], (RCapture (d - 48)). cbn [indices resolve]. rewrite !app_nil_r. done.
    + rewrite (count_var d t' Ed) in HK. pose proof (count_bound (d :: t')) as [Hb _]. destruct (Z.eqb_spec d 123) as [->|Hd].
      * destruct t' as [|e t']; [exists false, x; split; [done|by right]|]. change (length (e :: t') =? 0)%nat with false. cbn match.
        destruct (span var_char (e :: t')) as [name t2] eqn:Es. destruct (span_spec _ _ _ _ Es) as (Et & Hn & Ht2).
        destruct t2 as [|z t3]; [cbn match; exists false, x; split; [done|]; right; by destruct name|].
        destruct (Z.eqb_spec z 125) as [->|Hz]; cbn [andb orb].
        2: { exists false, x. split; [done|]. right. destruct name; [done|]. destruct z as [|z|z]; try done. do 7 (destruct z as [z|z|]; try done). }
        destruct name as [|n1 name]; [exists false, x; split; [done|by right]|]. change (length (n1 :: name) =? 0)%nat with false. cbn match.
        assert (Ec : (count_dollars (123 :: e :: t')).1 = (count_dollars t3).1).
        { rewrite Et, count_one by lia. rewrite count_plain by by apply var_chars_plain. by rewrite count_one by lia. }
        assert (Hl : (length t3 < f)%nat). { apply (f_equal length) in Et. rewrite length_app in Et. cbn [length] in *. lia. }
        apply var_runs; [done|done|lia|intros; by apply IH|done|lia].
      * destruct (span var_char (d :: t')) as [name t2] eqn:Es. destruct (span_spec _ _ _ _ Es) as (Et & Hn & Ht2). change (length (d :: t') =? 0)%nat with false. cbn match.
        assert (Em : match t2 with [] => (false, t2) | e :: t3 => if (e =? 125) && false then (false, t3) else (false, t2) end = (false, t2)) by (destruct t2; [done|by rewrite andb_false_r]).
        rewrite Em. cbn [orb]. destruct name as [|n1 name]; [exists false, x; split; [done|by right]|]. change (length (n1 :: name) =? 0)%nat with false. cbn match.
        assert (Ec : (count_dollars (d :: t')).1 = (count_dollars t2).1) by (rewrite Et; by rewrite count_plain by by apply var_chars_plain).
        assert (Hl : (length t2 < f)%nat). { apply (f_equal length) in Et. rewrite length_app in Et. cbn [length] in *. lia. }
        apply var_runs; [done|done|lia|intros; by apply IH|done|lia].
  - pose proof Hi as (? & ? & ? & _ & _ & _ & _ & (C1 & _) & _). rewrite C1, andb_false_r. destruct (text_run_span (c :: t)) as (q & Eq). rewrite Eq.
    destruct (span (fun c => negb (c =? 36)) (c :: t)) as [a b] eqn:Es. destruct (span_spec _ _ _ _ Es) as (Et & Ha & Hb).
    assert (Hpl : Forall (fun c => c <> 36) a) by (eapply Forall_impl; [exact Ha|]; cbn; intros; lia).
    assert (Ec : count_dollars (c :: t) = count_dollars b) by (rewrite Et; by apply count_plain). rewrite Ec in HK.
    assert (Hl : (length b < f)%nat). { destruct a as [|a1 a]; [cbn in Es; rewrite (proj2 (Z.eqb_neq c 36)) in Es by done; cbn in Es; destruct (span _ t); discriminate|].
      apply (f_equal length) in Et. rewrite length_app in Et. cbn [length] in *. lia. }
    apply (runs_upd_then K l L V ns); [done|done|]. intros y Hy.
    apply (runs_cons K l L V ns (PText a) b f); [lia|by intros; apply IH|by intros ns0 r [= <-]; cbn [indices]; rewrite app_nil_r|].
    destruct (add_copy_ok K l L V ns a (length b =? 0)%nat y Hy) as (bo & y' & E & H). exists bo, y'. split; [exact E|]. destruct bo; [|exact H].
    exists [], (RText a). cbn [indices resolve]. rewrite !app_nil_r. done.
Qed.

(** ** Complex values *)

Lemma init_arrays_ok K l L V ns n x : inv K l L V ns x -> runs (ngx_http_script_init_arrays n) x False (inv K l L V ns).
Proof.
  intros Hi. pose proof Hi as (fl & la & va & (E1 & E2 & E3) & _). unfold ngx_http_script_init_arrays, runs. rewrite E1, E2, E3. cbn [is_Some_b].
  apply (runs_then _ _ _ _ (inv K l L V ns)); [by exists true, x|]. intros y1 H1. apply (runs_then _ _ _ _ (inv K l L V ns)); [by exists true, y1|]. intros y2 H2.
  apply (runs_then _ _ _ _ (inv K l L V ns)); [by exists true, y2|]. intros y3 H3. by apply upd_ok.
Qed.
Lemma no_dollars v : count_dollars v = (0, 0) -> Forall (fun c => c <> 36) v.
Proof.
  induction v as [|c v IH]; [constructor|]. cbn [count_dollars]. pose proof (count_bound v) as [Hb1 Hb2]. destruct (count_dollars v) as [nv nc]. cbn [fst snd] in *.
  destruct (Z.eqb_spec c 36) as [->|Hc]; [destruct (_ && _); intros [= H1 H2]; lia|]. intros E. constructor; [done|by apply IH].
Qed.
Lemma template_plain v : Forall (fun c => c <> 36) v -> template v = Some (match v with [] => [] | _ => [PText v] end).
Proof.
  intros Hv. unfold template. destruct v as [|c v]; [done|]. cbn [template_fuel]. pose proof Hv as [Hc _]%Forall_cons_1. rewrite (proj2 (Z.eqb_neq c 36)) by done.
  assert (Es : span (fun c => negb (c =? 36)) (c :: v) = (c :: v, [])).
  { clear Hc. induction Hv as [|z w Hz _ IH]; [done|]. cbn [span]. rewrite (proj2 (Z.eqb_neq z 36)) by done. cbn [negb]. by rewrite IH. }
  rewrite Es. by destruct v.
Qed.
Lemma template_captures f : forall t ps, template_fuel f t = Some ps -> Forall (fun p => match p with PCapture n => 0 <= n | _ => True end) ps.
Proof.
  induction f as [|f IH]; intros t ps E; [done|]. destruct t as [|c t]; [injection E as <-; constructor|]. cbn [template_fuel] in E.
  assert (Hk : forall p u, cons p <$> template_fuel f u = Some ps -> match p with PCapture n => 0 <= n | _ => True end -> Forall (fun p => match p with PCapture n => 0 <= n | _ => True end) ps).
  { intros p u (qs & Eq & ->)%fmap_Some Hp. constructor; [exact Hp|by eapply IH]. }
  destruct (c =? 36).
  - destruct t as [|d t]; [done|]. destruct ((49 <=? d) && (d <=? 57)) eqn:Ed; [eapply Hk; [exact E|cbn; lia]|]. destruct (d =? 123).
    + destruct (span var_char t) as [[|n1 n] r]; [done|]. destruct r as [|z r]; [done|].
      destruct (Z.eqb_spec z 125) as [->|Hz]; [by eapply Hk|]. exfalso. revert E. destruct z as [|z|z]; try done. do 7 (destruct z as [z|z|]; try done).
    + destruct (span var_char (d :: t)) as [[|n1 n] r]; [done|]. by eapply Hk.
  - destruct (span _ (c :: t)). by eapply Hk.
Qed.
Lemma resolved_ok ns ps rs : Forall (fun p => match p with PCapture n => 0 <= n | _ => True end) ps -> resolved ns ps rs ->
  Forall (part_in (length ns)) rs /\ Forall (variable_in (indices rs)) rs /\ Forall (fun i => 0 <= i < Z.of_nat (length ns)) (indices rs).
Proof.
  intros Hp. revert rs. induction Hp as [|p ps Hp _ IH]; intros rs E; [injection E as <-; split; [constructor|split; constructor]|].
  unfold resolved in E. cbn in E. destruct (resolve ns p) as [r|] eqn:Er; [|done]. cbn in E. destruct (mapM (resolve ns) ps) as [rs'|] eqn:Em; [|done]. injection E as <-.
  destruct (IH rs' Em) as (A & B & C).
  assert (Hw : forall i, Forall (variable_in (indices rs')) rs' -> Forall (variable_in (i :: indices rs')) rs').
  { intros i H. eapply Forall_impl; [exact H|]. intros [ | |] Hj; cbn in *; [done|by right|done]. }
  destruct p as [t|n|n]; cbn [resolve] in Er.
  - injection Er as <-. split; [by constructor|]. split; [by constructor|done].
  - apply fmap_Some in Er as (i & Hi & ->). apply index_of_range in Hi. cbn [indices]. split; [constructor; [cbn; lia|done]|].
    split; [constructor; [cbn; left|by apply Hw]|]. constructor; [lia|done].
  - injection Er as <-. split; [by constructor|]. split; [by constructor|done].
Qed.

(** The compiled form of a text with variables. *)
Lemma compile_complex_ok prefix conf v nm ns pl o : names_are nm ns -> pool_fine pl -> count_dollars v <> (0, 0) ->
  exists cv x, ngx_http_compile_complex_value prefix conf (mk_ccv v false false false) nm pl o = Ok (cv, x) /\
    match cv with
    | None => ~ generous \/ template v = None
    | Some cv => exists ps ns' rs, template v = Some ps /\ names_are (names x) (ns ++ ns') /\ resolved (ns ++ ns') ps rs /\ cv = complex_of v (indices rs) rs
    end.
Proof.
  intros Hn Hp Hc. unfold ngx_http_compile_complex_value. cbn [ccv_value]. pose proof (count_bound v) as [Hb1 Hb2]. destruct (count_dollars v) as [nv nc] eqn:Ec.
  cbn [fst snd] in *. unfold prefixed_value. cbn [ccv_conf_prefix ccv_root_prefix orb ccv_value]. rewrite andb_false_r, obind_Ok.
  assert (Hnz : (nv =? 0) && (nc =? 0) = false). { destruct (Z.eqb_spec nv 0), (Z.eqb_spec nc 0); try done. subst. by destruct Hc. }
  cbn [ccv_value]. rewrite Hnz. cbn [Script.pl Script.o].
  destruct (array_init_spec 0 (A := Z) pl (nv + 1) 8 o ltac:(lia) ltac:(lia) Hp) as (fl & p1 & k1 & -> & Hp1 & Hfl). rewrite obind_Ok.
  destruct fl as [fl|]; [|do 2 eexists; split; [reflexivity|by left]]. destruct Hfl as (Hfl & Efl & Enf).
  destruct (array_init_spec 0 (A := option lcode) p1 (nv * 48 + 8) 1 k1 ltac:(lia) ltac:(lia) Hp1) as (la & p2 & k2 & -> & Hp2 & Hla). rewrite obind_Ok.
  destruct la as [la|]; [|do 2 eexists; split; [reflexivity|by left]]. destruct Hla as (Hla & Ela & _).
  assert (H8 : 0 < align8 (nv * 48 + 8 + blen v)).
  { change align8 with (fun n => ngx_align_ptr n 8). cbv beta. pose proof (align8_spec (nv * 48 + 8 + blen v)) as H. unfold NGX_ALIGNMENT in H. assert (0 <= blen v) by (unfold blen; lia). lia. }
  destruct (array_init_spec 0 (A := option code) p2 (align8 (nv * 48 + 8 + blen v)) 1 k2 H8 ltac:(lia) Hp2) as (va & p3 & k3 & -> & Hp3 & Hva). rewrite obind_Ok.
  destruct va as [va|]; [|do 2 eexists; split; [reflexivity|by left]]. destruct Hva as (Hva & Eva & _).
  set (x0 := mk_st (new_sc fl la va (mk_ccv v false false false)) nm p3 k3).
  assert (Hi : inv (Z.to_nat nv) [] [] [] ns x0).
  { exists fl, la, va. split; [done|]. split; [split; [done|split; [done|split; [lia|cbn; lia]]]|]. split; [done|]. split; [done|]. split; [done|]. by split. }
  assert (Hr : runs (ngx_http_script_compile v) x0 (template v = None) (finished (Z.to_nat nv) [] [] [] ns (template v))).
  { unfold ngx_http_script_compile. apply (runs_then _ _ _ _ (inv (Z.to_nat nv) [] [] [] ns)); [by apply init_arrays_ok|]. intros y Hy.
    apply compile_loop_ok; [lia|done|]. rewrite Ec. cbn [length fst]. lia. }
  destruct Hr as (b & y & E & H). match goal with |- context [ngx_http_script_compile v ?z] => change z with x0 end.
  rewrite E, obind_Ok. destruct b; cbn [negb]; [|by exists None, y].
  destruct H as (ps & ns' & rs & Hps & Hrs & (fl' & la' & va' & (E1 & E2 & E3) & (_ & Ei & HK & HlK) & (_ & El) & (_ & Ev) & _ & Hnm & _)).
  rewrite E1, E2, E3. cbn [app] in Ei, El, Ev. rewrite Ei, El, Ev.
  assert (Hnl : (nalloc fl' <=? Z.of_nat (length (indices rs))) = false) by (apply Z.leb_gt; cbn [app] in HlK; lia).
  destruct (Z.eqb_spec (Z.of_nat (length (indices rs))) 0) as [E0|E0].
  - do 2 eexists. split; [reflexivity|]. exists ps, ns', rs. split; [done|]. split; [done|]. split; [done|]. unfold complex_of. by destruct (indices rs).
  - rewrite Hnl. do 2 eexists. split; [reflexivity|]. exists ps, ns', rs. split; [done|]. split; [done|]. split; [done|]. unfold complex_of. by destruct (indices rs).
Qed.
End Compile.

(** C34: texts with variables mean what they say.  A text is compiled exactly when it
    is a template, that is, when every dollar sign begins a variable or a capture; or
    memory runs out.  For every request, the compiled value then evaluates to the
    concatenation of the texts of the parts, where a variable is what is cached in the
    request, unless it may not be cached, and otherwise what its handler answers, and
    a variable or capture that does not exist is empty.  The value is written to a
    buffer whose size is computed in advance and never behind its end, and the list
    of variables has room for its terminator. *)
Theorem complex_value_interpolates `{Osm : OSMem} get_handler nocacheable prefix conf v nm ns pl o :
  names_are nm ns -> pool_fine pl ->
  exists cv x, ngx_http_compile_complex_value prefix conf (mk_ccv v false false false) nm pl o = Ok (cv, x) /\
    match template v, cv with
    | None, cv => cv = None
    | Some ps, None => ~ generous
    | Some ps, Some cv => exists ns' rs, names_are (names x) (ns ++ ns') /\ resolved (ns ++ ns') ps rs /\
        forall q t pl' o', (length (ns ++ ns') <= length (variables q))%nat -> parts_text get_handler false (bufs q) (forgotten q) rs = Ok t -> blen t < 2 ^ 64 -> pool_fine pl' ->
          exists rc val q' pl'' o'', ngx_http_complex_value get_handler nocacheable prefix conf q cv pl' o' = Ok (rc, val, q', pl'', o'') /\
            (rc = NGX_ERROR /\ ~ generous \/ rc = NGX_OK /\ text_of (bufs q') val = Ok t)
    end.
Proof.
  intros Hn Hp. destruct (decide (count_dollars v = (0, 0))) as [E|E].
  - pose proof (template_plain v (no_dollars v E)) as Et. rewrite Et. unfold ngx_http_compile_complex_value. cbn [ccv_value]. rewrite E.
    unfold prefixed_value. cbn [ccv_conf_prefix ccv_root_prefix orb ccv_value]. rewrite andb_false_r, obind_Ok. cbn [ccv_value Z.eqb andb].
    do 2 eexists. split; [reflexivity|]. exists [], (match v with [] => [] | _ => [RText v] end). rewrite app_nil_r. split; [exact Hn|]. split; [by destruct v|].
    intros q t pl' o' _ Ht _ _. unfold ngx_http_complex_value. cbn [cv_lengths cv_value]. do 5 eexists. split; [reflexivity|]. right. split; [done|]. rewrite text_lit.
    rewrite <- Ht. destruct v; [done|]. cbn. by rewrite app_nil_r.
  - destruct (compile_complex_ok prefix conf v nm ns pl o Hn Hp E) as (cv & x & Ex & H). exists cv, x. split; [exact Ex|]. destruct cv as [cv|].
    + destruct H as (ps & ns' & rs & Et & Hnm & Hrs & ->). rewrite Et. exists ns', rs. split; [done|]. split; [done|]. intros q t pl' o' Hl Ht Hmax Hp'.
      destruct (resolved_ok _ _ _ (template_captures _ _ _ Et) Hrs) as (A & B & C).
      destruct (complex_value_ok get_handler nocacheable prefix conf v (indices rs) rs q pl' o' t) as (rc & val & q' & pl'' & o'' & Ev & H); [| | |done|done|done|].
      { eapply Forall_impl; [exact A|]. intros z Hz. destruct z; cbn in *; [done|lia|done]. }
      { done. }
      { eapply Forall_impl; [exact C|]. cbn. intros i Hi. lia. }
      exists rc, val, q', pl'', o''. split; [exact Ev|]. destruct H as [H|(? & ? & _)]; [by left|by right].
    + destruct (template v) as [ps|]; [|done]. destruct H as [H|H]; [exact H|done].
Qed.

Lemma endless_generous : @generous endless_mem.
Proof. intros o al n. by do 2 eexists. Qed.
Definition demo_req : req := mk_req (lit (bs "/abc d")) (lit []) true false [0; 6; 2; 6] 4 (lit (bs "/abc d")) false true true false (lit []) None 0 0 0.
Definition demo_handler (i : Z) (q : req) : option vv := if i =? 0 then Some (mk_vv (lit (bs "XX")) true false false) else None.
Definition demo_script_request : request := mk_request demo_req [mk_vv (lit []) false false false; mk_vv (lit []) false true false] [] (mk_list [] [] 24 20).

Definition demo_compiled := ngx_http_compile_complex_value (Osm := endless_mem) [] [] (mk_ccv (bs "a${x}b$1$y.") false false false) None demo_pool4k 100000.
Definition demo_names : list bytes := match demo_compiled with Ok (_, x) => match names x with Some a => items a | None => [] end | _ => [] end.

Lemma complex_value_interpolates_witness : exists cv x, demo_compiled = Ok (Some cv, x) /\
  exists val q' pl' o', ngx_http_complex_value (Osm := endless_mem) demo_handler (fun _ => false) [] [] demo_script_request cv demo_pool4k 100000 = Ok (NGX_OK, val, q', pl', o') /\
    text_of (bufs q') val = Ok (bs "aXXbbc d.").
Proof.
  assert (Hp : pool_fine demo_pool4k) by (split; [discriminate|vm_compute; discriminate]).
  assert (Hns : names_are None []) by (split; [constructor|reflexivity]).
  assert (En : demo_names = [bs "x"; bs "y"]) by (vm_compute; reflexivity).
  destruct (@complex_value_interpolates endless_mem demo_handler (fun _ => false) [] [] (bs "a${x}b$1$y.") None [] demo_pool4k 100000 Hns Hp) as (cv & x & E & H).
  replace (template (bs "a${x}b$1$y.")) with (Some [PText (bs "a"); PVar (bs "x"); PText (bs "b"); PCapture 1; PVar (bs "y"); PText (bs ".")]) in H by (vm_compute; reflexivity).
  destruct cv as [cv|]; [|destruct (H endless_generous)]. exists cv, x. split; [exact E|]. destruct H as (ns' & rs & (_ & Hnm) & Hrs & H).
  unfold demo_names, demo_compiled in En. rewrite E in En. cbn [app] in *. destruct (names x) as [a|]; [|discriminate En]. destruct Hnm as (_ & Hnm). rewrite En in Hnm. subst ns'.
  vm_compute in Hrs. injection Hrs as <-.
  destruct (H demo_script_request (bs "aXXbbc d.") demo_pool4k 100000) as (rc & val & q' & pl' & o' & Ev & [(_ & G)|(-> & Ht)]); [|vm_compute; reflexivity|vm_compute; reflexivity|exact Hp| |].
  - vm_compute. lia.
  - destruct (G endless_generous).
  - exists val, q', pl', o'. split; [exact Ev|exact Ht].
Defined.
