(* ===== verification/NgxRewrite.v ===== *)
(** * Rewriting: nginx/src/http/ngx_http_script.c and modules/ngx_http_rewrite_module.c

    The codes of the directives rewrite, set, if, break and return, the loop that runs
    them, and the compilation of the directives rewrite, return, break and set and of
    the conditions of if.  PCRE, the file system, the handlers that set a variable and
    the output of a response are parameters.  The stack of the engine has [stack_size]
    places.  Logging is left out. *)
From S2P Require Import Prelude NgxString NgxStrUtil NgxCodec NgxPrintf.
From S2P Require Export NgxScript.
#[local] Open Scope Z_scope.

Module Rewrite.
Import Script Printf.

Definition NGX_ESCAPE_ARGS : bytes := Uri.args.
Definition NGX_HTTP_MOVED_PERMANENTLY : Z := 301.
Definition NGX_HTTP_MOVED_TEMPORARILY : Z := 302.
Definition NGX_HTTP_SEE_OTHER : Z := 303.
Definition NGX_HTTP_TEMPORARY_REDIRECT : Z := 307.
Definition NGX_HTTP_INTERNAL_SERVER_ERROR : Z := 500.

Section Engine.
Context {Osm : OSMem}.
Context (get_handler : Z -> req -> option vv) (var_nocacheable : Z -> bool) (cycle_prefix cycle_conf_prefix : bytes).
(** [pcre_exec] on a text with a vector of [size] numbers: the result and the vector. *)
Context (pcre_exec : Z -> bytes -> Z -> Z * list Z) (max_captures : Z).
(** [ngx_open_cached_file] with [test_only]: whether the path is a file, a directory, a
    link, executable; [None] when it cannot be opened. *)
Context (file_info : bytes -> option (bool * bool * bool * bool)).
Context (set_handler : Z -> Z -> req -> bytes -> req).
(** The rest of [ngx_http_send_response]: the header and the body are sent. *)
Context (send : Z -> bytes -> Z).
Context (stack_size : nat).
Implicit Types (q : request) (e : engine) (pl : pool) (o : os).

Definition exit_with (st : Z) e : engine := e <| ip := None |> <| status := st |>.
(** [*e->sp++ = v] and [e->sp--] *)
Definition push (v : vv) e : out engine := if (stack_size <=? length (sp e))%nat then Undef OutOfBounds else Ok (e <| sp := v :: sp e |>).
Definition pop e : out (vv * engine) := match sp e with v :: l => Ok (v, e <| sp := l |>) | [] => Undef OutOfBounds end.
Definition set_rq (f : req -> req) e : engine := e <| r := (r e) <| rq := f (rq (r e)) |> |>.

(** ** Regular expressions *)

Fixpoint named_captures (l : list (Z * Z)) (cap : list Z) (s : slice) (vs : list vv) : out (list vv) :=
  match l with
  | [] => Ok vs
  | (n, index) :: l' =>
      let! a := rd cap (Z.to_nat n) in
      let! b := rd cap (Z.to_nat n + 1) in
      if (length vs <=? Z.to_nat index)%nat then Undef OutOfBounds
      else named_captures l' cap s (<[Z.to_nat index := mk_vv (mk_slice (base s) (off s + a) (b - a)) true false false]> vs)
  end.
(** [r->captures] is empty when it is [NULL]. *)
Definition ngx_http_regex_exec q (re : regex) (s : slice) pl o : out (Z * request * pool * os) :=
  let len := if re_ncaptures re =? 0 then 0 else max_captures in
  let! (ok, pl, o) := (if negb (re_ncaptures re =? 0) && (length (captures (rq q)) =? 0)%nat then
                         let! (m, pl, o) := ngx_palloc pl (len * 4) o in Ok (is_Some_b m, pl, o)
                       else Ok (true, pl, o)) in
  if negb ok then Ok (NGX_ERROR, q, pl, o)
  else
    let! t := text_of (bufs q) s in
    let '(rc, v) := pcre_exec (re_id re) t len in
    let cap := if len =? 0 then captures (rq q) else v in
    let q := q <| rq := (rq q) <| captures := cap |> |> in
    if rc =? -1 then Ok (NGX_DECLINED, q, pl, o)
    else if rc <? 0 then Ok (NGX_ERROR, q, pl, o)
    else
      let! vs := named_captures (re_variables re) cap s (variables q) in
      Ok (NGX_OK, q <| variables := vs |> <| rq := (rq q) <| ncaptures := rc * 2 |> <| captures_data := s |> |>, pl, o).

(** The sum of the lengths of the captures from [captures[n]] on. *)
Fixpoint captures_length (fuel : nat) (q : req) (n : Z) (total : Z) : out Z :=
  match fuel with
  | O => NoFuel
  | S f =>
      if n <? ncaptures q then
        let! s := capture_slice q n in captures_length f q (n + 2) (u64 (total + len s))
      else Ok total
  end.

(** The length of the replacement, without the arguments that are added. *)
Definition replacement_length (c : regex_code) e : out (Z * engine) :=
  let q := rq (r e) in
  match rc_lengths c with
  | None =>
      let! extra := (if rc_uri c && negb (ncaptures q =? 0) && (quoted_uri q || plus_in_uri q) then
                       let! t := text_of (bufs (r e)) (uri q) in Ok (2 * Uri.count_escapes NGX_ESCAPE_ARGS 0 t)
                     else Ok 0) in
      let! n := captures_length (S (Z.to_nat (ncaptures q))) q 2 (u64 (rc_size c + extra)) in
      Ok (n, e)
  | Some lcs =>
      let! (n, le) := run_lengths get_handler var_nocacheable cycle_prefix cycle_conf_prefix (S (length lcs)) lcs 0
                        ((zero_engine (r e)) <| line := line e |> <| quote := rc_redirect c |>) in
      Ok (n, e <| r := r le |>)
  end.

(** Memory for [n] bytes to write: [e->buf] and [e->pos]; [None] when there is none. *)
Definition start_buf (n : Z) e pl o : out (option engine * pool * os) :=
  let! (m, pl, o) := ngx_pnalloc pl n o in
  match m with
  | None => Ok (None, pl, o)
  | Some _ =>
      let '(i, q) := new_buf n [] (r e) in
      Ok (Some (e <| r := q |> <| buf := mk_slice (SBuf i) 0 n |> <| cur := i |>), pl, o)
  end.

Definition test_result (v : bool) e : out engine := push (if v then true_value else null_value) (advance 72 e).

Definition ngx_http_script_regex_start_code (c : regex_code) e pl o : out (engine * pool * os) :=
  let! e := (if rc_uri c then Ok (e <| line := uri (rq (r e)) |>) else let! (v, e) := pop e in Ok (e <| line := v_text v |>)) in
  let! (rc, q, pl, o) := ngx_http_regex_exec (r e) (rc_regex c) (line e) pl o in
  let e := e <| r := q |> in
  if rc =? NGX_DECLINED then
    let e := set_rq (fun q : req => q <| ncaptures := 0 |>) e in
    if rc_test c then let! e := test_result (rc_negative_test c) e in Ok (e, pl, o)
    else Ok (advance (Z.to_nat (rc_next c)) e, pl, o)
  else if rc =? NGX_ERROR then Ok (exit_with NGX_HTTP_INTERNAL_SERVER_ERROR e, pl, o)
  else if rc_test c then let! e := test_result (negb (rc_negative_test c)) e in Ok (e, pl, o)
  else if negb (rc_status c =? 0) && negb (rc_redirect c) then Ok (exit_with (rc_status c) e, pl, o)
  else
    let e := if rc_status c =? 0 then e else e <| status := rc_status c |> in
    let e := if rc_uri c then
               set_rq (fun q : req => let q := q <| internal := true |> <| valid_unparsed_uri := false |> in
                                if rc_break_cycle c then q <| valid_location := false |> <| uri_changed := false |> else q <| uri_changed := true |>) e
             else e in
    let! (n, e) := replacement_length c e in
    let alen := len (args (rq (r e))) in
    let! (m, pl, o) := start_buf (if rc_add_args c && negb (alen =? 0) then u64 (n + alen + 1) else n) e pl o in
    match m with
    | None => Ok (exit_with NGX_HTTP_INTERNAL_SERVER_ERROR e, pl, o)
    | Some e => Ok (advance 72 (e <| quote := rc_redirect c |>), pl, o)
    end.

(** [ngx_http_set_exten]: the start of the extension in the text of the URI. *)
Fixpoint exten_loop (i : nat) (t : bytes) : out (option nat) :=
  match i with
  | S (S _ as i1) =>
      let! c := rd t i in
      let! d := rd t i1 in
      if (c =? 46) && negb (d =? 47) then Ok (Some (S i)) else if c =? 47 then Ok None else exten_loop i1 t
  | _ => Ok None
  end.
Definition ngx_http_set_exten q : out request :=
  let u := uri (rq q) in
  let! t := text_of (bufs q) u in
  let! i := exten_loop (length t - 1) t in
  Ok (q <| rq := (rq q) <| exten := match i with Some i => mk_slice (base u) (off u + Z.of_nat i) (len u - Z.of_nat i) | None => lit [] end |> |>).

(** The arguments of the request behind [sep]. *)
Definition add_request_args (sep : Z) e : out engine :=
  let! t := text_of (bufs (r e)) (args (rq (r e))) in put (sep :: t) e.

Definition ngx_http_script_regex_end_code (c : regex_end_code) e pl o : out (engine * pool * os) :=
  let e := e <| quote := false |> in
  let alen := len (args (rq (r e))) in
  if re_redirect c then
    match bufs (r e) !! cur e with
    | None => Undef NullDeref
    | Some (size, w) =>
        let '(d, rest) := Uri.ngx_unescape_uri w Uri.NGX_UNESCAPE_REDIRECT in
        let e := e <| r := (r e) <| bufs := <[cur e := (size, d ++ rest)]> (bufs (r e)) |> |> in
        let! e := (if re_add_args c && negb (alen =? 0) then add_request_args (if re_args c then 38 else 63) e else Ok e) in
        let e := e <| buf := (buf e) <| len := pos e - off (buf e) |> |> in
        let! (l, pl, o) := ngx_list_push (headers (r e)) (buf e) pl o in
        match l with
        | None => Ok (exit_with NGX_HTTP_INTERNAL_SERVER_ERROR (set_rq (fun q : req => q <| location := None |>) e), pl, o)
        | Some l => Ok (advance 16 (e <| r := (r e) <| headers := l |> <| rq := (rq (r e)) <| location := Some (buf e) |> |> |>), pl, o)
        end
    end
  else
    let! e :=
      match args_at e with
      | Some a =>
          let e := e <| buf := (buf e) <| len := a - off (buf e) |> |> in
          let! e := (if re_add_args c && negb (alen =? 0) then add_request_args 38 e else Ok e) in
          Ok (set_rq (fun q : req => q <| args := mk_slice (SBuf (cur e)) a (pos e - a) |>) (e <| args_at := None |>))
      | None =>
          let e := e <| buf := (buf e) <| len := pos e - off (buf e) |> |> in
          Ok (if re_add_args c then e else set_rq (fun q : req => q <| args := (args q) <| len := 0 |> |>) e)
      end in
    if re_uri c then
      let e := set_rq (fun q : req => q <| uri := buf e |>) e in
      if len (buf e) =? 0 then Ok (exit_with NGX_HTTP_INTERNAL_SERVER_ERROR e, pl, o)
      else let! q := ngx_http_set_exten (r e) in Ok (advance 16 (e <| r := q |>), pl, o)
    else Ok (advance 16 e, pl, o).

(** ** The other codes *)

(** [ngx_http_send_response] without a content type. *)
Definition ngx_http_send_response (st : Z) (cv : complex code) e pl o : out (Z * engine * pool * os) :=
  let e := set_rq (fun q : req => q <| header_status := st |>) e in
  let! (rc, val, q, pl, o) := ngx_http_complex_value get_handler var_nocacheable cycle_prefix cycle_conf_prefix (r e) cv pl o in
  let e := e <| r := q |> in
  if negb (rc =? NGX_OK) then Ok (NGX_HTTP_INTERNAL_SERVER_ERROR, e, pl, o)
  else if (st =? NGX_HTTP_MOVED_PERMANENTLY) || (st =? NGX_HTTP_MOVED_TEMPORARILY) || (st =? NGX_HTTP_SEE_OTHER) || (st =? NGX_HTTP_TEMPORARY_REDIRECT) then
    let! (l, pl, o) := ngx_list_push (headers (r e)) val pl o in
    match l with
    | None => Ok (NGX_HTTP_INTERNAL_SERVER_ERROR, set_rq (fun q : req => q <| location := None |>) e, pl, o)
    | Some l => Ok (st, e <| r := (r e) <| headers := l |> <| rq := (rq (r e)) <| location := Some val |> |> |>, pl, o)
    end
  else let! t := text_of (bufs (r e)) val in Ok (send st t, e, pl, o).

(** The two values of a comparison: [val] and [*res]. *)
Definition compare_code (eq : bool) e : out engine :=
  let! (v, e) := pop e in
  let! (w, e) := pop e in
  let! a := text_of (bufs (r e)) (v_text v) in
  let! b := text_of (bufs (r e)) (v_text w) in
  let same := (blen a =? blen b) && bool_decide (cstr a = cstr b) in
  push (if Bool.eqb same eq then true_value else null_value) (advance 8 e).

Definition op_false_on_error (op : file_op) : bool := match op with file_plain | file_dir | file_exists | file_exec => true | _ => false end.
Definition op_value (op : file_op) (i : option (bool * bool * bool * bool)) : bool :=
  match i with
  | None => negb (op_false_on_error op)
  | Some (is_file, is_dir, is_link, is_exec) =>
      match op with
      | file_plain => is_file | file_not_plain => negb is_file
      | file_dir => is_dir | file_not_dir => negb is_dir
      | file_exists => is_file || is_dir || is_link | file_not_exists => negb (is_file || is_dir || is_link)
      | file_exec => is_exec | file_not_exec => negb is_exec
      end
  end.

Definition ngx_http_script_return_code (st : Z) (text : complex code) e pl o : out (engine * pool * os) :=
  if (st <? 400) || negb (length (cv_value text) =? 0)%nat || is_Some_b (cv_lengths text) then
    let! (rc, e, pl, o) := ngx_http_send_response st text e pl o in Ok (exit_with rc e, pl, o)
  else Ok (exit_with st e, pl, o).
Definition ngx_http_script_break_code e : engine := set_rq (fun q : req => q <| uri_changed := false |>) (e <| ip := None |>).
Definition ngx_http_script_if_code (next : Z) (loc : option Z) e : out engine :=
  let! (v, e) := pop e in
  let! t := text_of (bufs (r e)) (v_text v) in
  Ok (if truthy t then advance 24 (match loc with Some l => set_rq (fun q : req => q <| loc_conf := l |>) e | None => e end)
      else advance (Z.to_nat next) e).
Definition ngx_http_script_equal_code e : out engine := compare_code true e.
Definition ngx_http_script_not_equal_code e : out engine := compare_code false e.
Definition ngx_http_script_file_code (op : file_op) e : out engine :=
  let! (v, e) := pop e in
  let! path := text_of (bufs (r e)) ((v_text v) <| len := len (v_text v) - 1 |>) in
  push (if op_value op (file_info path) then true_value else null_value) (advance 16 e).
Definition ngx_http_script_complex_value_code (lcs : lcodes) e pl o : out (engine * pool * os) :=
  let e := advance 16 e in
  let! (n, le) := run_lengths get_handler var_nocacheable cycle_prefix cycle_conf_prefix (S (length lcs)) lcs 0
                    ((zero_engine (r e)) <| line := line e |> <| quote := quote e |>) in
  let! (m, pl, o) := start_buf n (e <| r := r le |>) pl o in
  match m with
  | None => Ok (exit_with NGX_HTTP_INTERNAL_SERVER_ERROR (e <| r := r le |>), pl, o)
  | Some e => let! e := push (mk_vv (buf e) true false false) e in Ok (e, pl, o)
  end.
Definition ngx_http_script_value_code (text : bytes) e : out engine := push (mk_vv (lit text) true false false) (advance 32 e).
Definition ngx_http_script_set_var_code (index : Z) e : out engine :=
  let! (v, e) := pop (advance 16 e) in
  if (length (variables (r e)) <=? Z.to_nat index)%nat then Undef OutOfBounds
  else Ok (e <| r := put_var index (mk_vv (v_text v) true false false) (r e) |>).
Definition ngx_http_script_var_set_handler_code (handler data : Z) e : out engine :=
  let! (v, e) := pop (advance 24 e) in
  let! t := text_of (bufs (r e)) (v_text v) in
  Ok (set_rq (fun q : req => set_handler handler data q t) e).
Definition ngx_http_script_var_code (index : Z) e : out engine :=
  let! (v, q) := ngx_http_get_flushed_variable get_handler var_nocacheable (r e) index in
  push (match v with Some v => if not_found v then null_value else v | None => null_value end) (advance 16 (e <| r := q |>)).
Definition ngx_http_script_nop_code e : engine := advance 8 e.

(** [code(e)] *)
Definition call_code (c : code) e pl o : out (engine * pool * os) :=
  let ret (m : out engine) := let! e := m in Ok (e, pl, o) in
  match c with
  | CCopy _ | CVar _ | CArgs | CCapture _ | CFullName _ => exec_value get_handler var_nocacheable cycle_prefix cycle_conf_prefix c e pl o
  | CRegex c => ngx_http_script_regex_start_code c e pl o
  | CRegexEnd c => ngx_http_script_regex_end_code c e pl o
  | CReturn st text => ngx_http_script_return_code st text e pl o
  | CBreak => Ok (ngx_http_script_break_code e, pl, o)
  | CIf next loc => ret (ngx_http_script_if_code next loc e)
  | CEqual => ret (ngx_http_script_equal_code e)
  | CNotEqual => ret (ngx_http_script_not_equal_code e)
  | CFile op => ret (ngx_http_script_file_code op e)
  | CComplex lcs => ngx_http_script_complex_value_code lcs e pl o
  | CValue t => ret (ngx_http_script_value_code t e)
  | CSetVar i => ret (ngx_http_script_set_var_code i e)
  | CSetHandler h data => ret (ngx_http_script_var_set_handler_code h data e)
  | CGetVar i => ret (ngx_http_script_var_code i e)
  | CNop => Ok (ngx_http_script_nop_code e, pl, o)
  | CEnd => Undef NullDeref
  end.

Definition run : nat -> codes -> engine -> pool -> os -> out (engine * pool * os) := run_codes call_code.

(** [ngx_http_rewrite_handler] with the codes of the location; [skipped]: the server's
    null location in the phase of locations. *)
Definition ngx_http_rewrite_handler (skipped : bool) (cs : option codes) q pl o : out (Z * request * pool * os) :=
  if skipped then Ok (NGX_DECLINED, q, pl, o)
  else
    match cs with
    | None => Ok (NGX_DECLINED, q, pl, o)
    | Some cs =>
        let! (m, pl, o) := ngx_pcalloc pl 144 o in
        match m with
        | None => Ok (NGX_HTTP_INTERNAL_SERVER_ERROR, q, pl, o)
        | Some _ =>
            let! (m, pl, o) := ngx_pcalloc pl (Z.of_nat stack_size * 16) o in
            match m with
            | None => Ok (NGX_HTTP_INTERNAL_SERVER_ERROR, q, pl, o)
            | Some _ =>
                let! (e, pl, o) := run (S (length cs)) cs ((zero_engine q) <| quote := true |> <| status := NGX_DECLINED |>) pl o in
                let st := if status e <? 400 then status e else if err_status (rq (r e)) =? 0 then status e else err_status (rq (r e)) in
                Ok (st, r e, pl, o)
            end
        end
    end.
End Engine.

(** ** Compilation *)

Section Directives.
Context {Osm : OSMem}.
Context (cycle_prefix cycle_conf_prefix : bytes).
(** [ngx_http_regex_compile] of a pattern, without regard to case or not. *)
Context (regex_compile : bytes -> bool -> option regex).
Implicit Types (x : st).

(** [lcf->codes] is [values] of the state of the compiler; this is a fresh
    [ngx_http_script_compile_t] for it. *)
Definition with_sc (nv : Z) (cargs complete : bool) x : st :=
  x <| s := mk_sc None None (values (s x)) nv 0 0 0 cargs true complete false false false false false |>.

(** [ngx_http_script_start_code]: the offset of the new code. *)
Definition start_code (c : code) x : out (option nat * st) :=
  let! (b, x) := create_if (is_Some_b (values (s x))) 256 1 set_values x in
  if negb b then Ok (None, x)
  else
    match values (s x) with
    | None => Undef NullDeref
    | Some a => let! (b, x) := add_value c x in Ok (if b : bool then Some (length (items a)) else None, x)
    end.
Definition emit (c : code) : comp := fun x => let! (m, x) := start_code c x in Ok (is_Some_b m, x).
(** The code at the offset [i] is written again. *)
Definition set_code (i : nat) (c : code) x : st :=
  match values (s x) with
  | None => x
  | Some a => set_values (mk_array (a_addr a) (elts a) (<[i := Some c]> (items a)) (a_size a) (nalloc a)) x
  end.
Definition nelts x : Z := match values (s x) with Some a => Z.of_nat (length (items a)) | None => 0 end.

Definition starts_with (p t : bytes) : bool := bool_decide (take (length p) t = p).
Definition external (t : bytes) : bool := starts_with (bs "http://") t || starts_with (bs "https://") t || starts_with (bs "$scheme") t.

(** The last parameter of rewrite: [break_cycle], the status, [redirect], [last]. *)
Definition rewrite_flag (f : bytes) : option (bool * Z * bool) :=
  if bool_decide (f = bs "last") then Some (false, 0, false)
  else if bool_decide (f = bs "break") then Some (true, 0, false)
  else if bool_decide (f = bs "redirect") then Some (false, NGX_HTTP_MOVED_TEMPORARILY, true)
  else if bool_decide (f = bs "permanent") then Some (false, NGX_HTTP_MOVED_PERMANENTLY, true)
  else None.
Definition no_regex : regex := mk_regex 0 0 [].
Definition zero_regex_code : regex_code := mk_regex_code no_regex None 0 0 0 false false false false false false false.

(** The codes behind the regular expression: the replacement, the end and the exit. *)
Definition rewrite_codes (main : nat) (c : regex_code) (last : bool) (source : bytes) x : out (bool * st) :=
  let! (b, x) := ngx_http_script_compile source (with_sc (ngx_http_script_variables_count source) (negb (rc_redirect c)) false x) in
  if negb b then Ok (false, x)
  else
    let sx := s x in
    let lens := if (nvariables sx =? 0) && negb (dup_capture sx) then None else option_map items (lengths sx) in
    let c := c <| rc_size := size sx |> <| rc_args := sc_args sx |> <| rc_lengths := lens |> in
    let! (b, x) := andthen (add_value (CRegexEnd (mk_regex_end (rc_uri c) (rc_args c) (rc_add_args c) (rc_redirect c)))) (if last then add_value CEnd else ok) x in
    if negb b then Ok (false, x) else Ok (true, set_code main (CRegex (c <| rc_next := nelts x - Z.of_nat main |>)) x).

Definition ngx_http_rewrite (pattern replacement : bytes) (flag : option bytes) x : out (bool * st) :=
  let! (m, x) := start_code (CRegex zero_regex_code) x in
  match m with
  | None => Ok (false, x)
  | Some main =>
      match regex_compile pattern false with
      | None => Ok (false, x)
      | Some re =>
          let! ch := (if (length replacement =? 0)%nat then Undef OutOfBounds else rd replacement (length replacement - 1)) in
          let source := if ch =? 63 then take (length replacement - 1) replacement else replacement in
          let ext := external replacement in
          let c := zero_regex_code <| rc_regex := re |> <| rc_uri := true |> <| rc_add_args := negb (ch =? 63) |>
                     <| rc_status := if ext then NGX_HTTP_MOVED_TEMPORARILY else 0 |> <| rc_redirect := ext |> in
          match flag with
          | None => rewrite_codes main c ext source x
          | Some f =>
              match rewrite_flag f with
              | None => Ok (false, x)
              | Some (brk, st, redir) =>
                  let c := if brk then c <| rc_break_cycle := true |> else c in
                  rewrite_codes main (if redir then c <| rc_status := st |> <| rc_redirect := true |> else c) true source x
              end
          end
      end
  end.

Definition ngx_http_rewrite_break : comp := emit CBreak.

(** [return code], [return code text] or [return text]. *)
Definition ngx_http_rewrite_return (arg : bytes) (text : option bytes) x : out (bool * st) :=
  let! (m, x) := start_code (CReturn 0 (mk_complex [] None None None)) x in
  match m with
  | None => Ok (false, x)
  | Some main =>
      let n := Number.ngx_atoi arg in
      let finish (st : Z) (v : bytes) :=
        let! (cv, y) := ngx_http_compile_complex_value cycle_prefix cycle_conf_prefix (mk_ccv v false false false) (names x) (pl x) (o x) in
        let x := x <| names := names y |> <| pl := pl y |> <| o := o y |> in
        match cv with None => Ok (false, x) | Some cv => Ok (true, set_code main (CReturn st cv) x) end in
      if n =? NGX_ERROR then
        match text with
        | None => if external arg then finish NGX_HTTP_MOVED_TEMPORARILY arg else Ok (false, x)
        | Some _ => Ok (false, x)
        end
      else if 999 <? n then Ok (false, x)
      else match text with None => Ok (true, set_code main (CReturn n (mk_complex [] None None None)) x) | Some v => finish n v end
  end.

Definition ngx_http_rewrite_variable (value : bytes) : comp := fun x =>
  let! (i, x) := ngx_http_get_variable_index (drop 1 value) x in
  match i with None => Ok (false, x) | Some i => emit (CGetVar i) x end.
Definition ngx_http_rewrite_value (value : bytes) : comp := fun x =>
  let n := ngx_http_script_variables_count value in
  if n =? 0 then emit (CValue value) x
  else
    let! (m, x) := start_code (CComplex []) x in
    match m with
    | None => Ok (false, x)
    | Some main =>
        let! (b, x) := ngx_http_script_compile value (with_sc n false false x) in
        if negb b then Ok (false, x)
        else match lengths (s x) with None => Undef NullDeref | Some a => Ok (true, set_code main (CComplex (items a)) x) end
    end.
(** set, for the variable that [ngx_http_add_variable] answers: its index, which
    [ngx_http_get_variable_index] answers too, and the handler that sets it. *)
Definition ngx_http_rewrite_set (set_handler : option (Z * Z)) (name value : bytes) : comp := fun x =>
  if negb (peek name =? 36) then Ok (false, x)
  else
    let! (i, x) := ngx_http_get_variable_index (drop 1 name) x in
    match i with
    | None => Ok (false, x)
    | Some i => andthen (ngx_http_rewrite_value value) (emit (match set_handler with Some (h, data) => CSetHandler h data | None => CSetVar i end)) x
    end.

(** The condition of if: the words in the parentheses. *)
Definition file_test (p : bytes) : option file_op :=
  match p with
  | [45; 102] => Some file_plain | [45; 100] => Some file_dir | [45; 101] => Some file_exists | [45; 120] => Some file_exec
  | [33; 45; 102] => Some file_not_plain | [33; 45; 100] => Some file_not_dir | [33; 45; 101] => Some file_not_exists | [33; 45; 120] => Some file_not_exec
  | _ => None
  end.
Definition is_file_test (p : bytes) : bool := match p with [45; _] => true | [33; 45; _] => true | _ => false end.
Definition condition (words : list bytes) : comp := fun x =>
  match words with
  | (36 :: _ :: _) as v :: rest =>
      match rest with
      | [] => ngx_http_rewrite_variable v x
      | [op; value] =>
          andthen (ngx_http_rewrite_variable v)
            (if bool_decide (op = bs "=") then andthen (ngx_http_rewrite_value value) (emit CEqual)
             else if bool_decide (op = bs "!=") then andthen (ngx_http_rewrite_value value) (emit CNotEqual)
             else if bool_decide (op = bs "~") || bool_decide (op = bs "~*") || bool_decide (op = bs "!~") || bool_decide (op = bs "!~*") then
               fun x =>
                 let caseless := bool_decide (List.last op 0 = 42) in
                 match regex_compile value caseless with
                 | None => Ok (false, x)
                 | Some re => emit (CRegex (zero_regex_code <| rc_regex := re |> <| rc_next := 72 |> <| rc_test := true |> <| rc_negative_test := bool_decide (peek op = 33) |>)) x
                 end
             else error) x
      | _ => Ok (false, x)
      end
  | p :: rest =>
      if is_file_test p then
        match rest with
        | [value] => match file_test p with
                     | Some op => andthen (ngx_http_rewrite_value (value ++ [0])) (emit (CFile op)) x
                     | None => andthen (ngx_http_rewrite_value (value ++ [0])) error x
                     end
        | _ => Ok (false, x)
        end
      else Ok (false, x)
  | [] => Ok (false, x)
  end.
(** The words without the parentheses; [None] is an invalid condition. *)
Definition strip (words : list bytes) : option (list bytes) :=
  match words with
  | (40 :: w) :: rest =>
      let words := match w with [] => rest | _ => w :: rest end in
      match rev words with
      | l :: ws =>
          if (length l =? 0)%nat || negb (List.last l 0 =? 41) then None
          else Some (rev (match removelast l with [] => ws | l => l :: ws end))
      | [] => None
      end
  | _ => None
  end.
Definition ngx_http_rewrite_if_condition (words : list bytes) : comp := fun x =>
  match strip words with None => Ok (false, x) | Some w => condition w x end.
End Directives.
End Rewrite.
