(* ===== verification/NgxRewriteProps.v ===== *)
(** * Properties of rewriting *)
From stdpp Require Import list.
From S2P Require Import Prelude NgxString NgxStrUtil NgxCodec NgxCodecProps NgxPalloc NgxArray NgxScript NgxScriptProps NgxScriptCompile NgxRewrite NginxProps.
#[local] Open Scope Z_scope.
Import Script Rewrite.

Section Rewrite.
Context {Osm : OSMem}.
Context (get_handler : Z -> req -> option vv) (var_nocacheable : Z -> bool) (cycle_prefix cycle_conf_prefix : bytes)
  (pcre_exec : Z -> bytes -> Z -> Z * list Z) (max_captures : Z) (file_info : bytes -> option (bool * bool * bool * bool))
  (set_handler : Z -> Z -> req -> bytes -> req) (send : Z -> bytes -> Z) (stack_size : nat).
Implicit Types (q : request) (e : engine) (pl : pool) (o : os) (ps : list rpart).
Abbreviation exec_code := (call_code get_handler var_nocacheable cycle_prefix cycle_conf_prefix pcre_exec max_captures file_info set_handler send stack_size).
Abbreviation runs_codes := (run get_handler var_nocacheable cycle_prefix cycle_conf_prefix pcre_exec max_captures file_info set_handler send stack_size).
Abbreviation lengths_run := (run_lengths get_handler var_nocacheable cycle_prefix cycle_conf_prefix).

Lemma exec_code_of p e pl o : exec_code (code_of p) e pl o = exec_value get_handler var_nocacheable cycle_prefix cycle_conf_prefix (code_of p) e pl o.
Proof. by destruct p. Qed.

(** One step. *)
Lemma run_step fuel pre c suf e pl o : ip e = Some (length pre) -> c <> CEnd ->
  runs_codes (S fuel) (pre ++ cslots c ++ suf) e pl o = let! (e, pl, o) := exec_code c e pl o in runs_codes fuel (pre ++ cslots c ++ suf) e pl o.
Proof. intros Hip Hc. unfold run. cbn [run_codes]. rewrite Hip, fetch_cslots, obind_Ok. by destruct c. Qed.

(** The whole length of parts. *)
Lemma lengths_total ps e t : ip e = Some 0%nat -> Forall (part_ok (r e)) ps -> parts_text get_handler (escapes e) (bufs (r e)) (view (flushed e) (r e)) ps = Ok t -> blen t < 2 ^ 64 ->
  exists le, lengths_run (S (length (lengths_of ps ++ lslots LEnd))) (lengths_of ps ++ lslots LEnd) 0 e = Ok (blen t, le) /\ same get_handler (flushed e) (r e) (r le).
Proof.
  intros Hip Hok Ht Hmax. destruct (parts_fuel (fun p => lslots (lcode_of p)) ps (lslots LEnd) lslots_pos) as (k & Ek). fold (lengths_of ps) in Ek. rewrite Ek.
  destruct (run_lengths_parts get_handler var_nocacheable cycle_prefix cycle_conf_prefix ps (S k) [] (lslots LEnd) e 0 t) as (q & E & Hs); [done|done|done|done|lia|].
  cbn [app] in E. rewrite E. cbn [run_lengths]. match goal with |- context [ip (e <| ip := ?i |> <| r := q |>)] => change (ip (e <| ip := i |> <| r := q |>)) with i end.
  cbn match. rewrite <- (app_nil_r (lslots LEnd)), fetch_lslots, obind_Ok. cbn match. rewrite Z.add_0_l. eexists. split; [reflexivity|]. exact Hs.
Qed.
Lemma start_buf_ok n e pl o : pool_fine pl -> exists m pl' o', start_buf n e pl o = Ok (m, pl', o') /\ pool_fine pl' /\
  match m with None => ~ generous | Some e' => e' = e <| r := (r e) <| bufs := bufs (r e) ++ [(n, [])] |> |> <| buf := mk_slice (SBuf (length (bufs (r e)))) 0 n |> <| cur := length (bufs (r e)) |> end.
Proof.
  intros Hf. unfold start_buf, ngx_pnalloc. destruct (palloc_fine false pl n o Hf) as (m & pl' & o' & -> & Hf' & Hg). rewrite obind_Ok.
  destruct m; (do 3 eexists; split; [reflexivity|]); split; [done|done|done|by apply Hg].
Qed.
Definition stopped (st : Z) e : Prop := ip e = None /\ status e = st.

Lemma text_new m t : text_of (m ++ [(blen t, t)]) (mk_slice (SBuf (length m)) 0 (blen t)) = Ok t.
Proof. unfold text_of. cbn [len base off source_text]. rewrite list_lookup_middle by done. cbn [obind]. exact (text_lit [] t). Qed.

(** *** set *)
Definition set_codes ps (i : Z) : codes := cslots (CComplex (lengths_of ps ++ lslots LEnd)) ++ values_of ps ++ cslots (CSetVar i).

Lemma set_assigns ps i fuel pre suf e pl o t : ip e = Some (length pre) -> Forall (part_ok (r e)) ps -> 0 <= i < Z.of_nat (length (variables (r e))) ->
  skip e = false -> flushed e = false -> is_args e = false -> (length (sp e) < stack_size)%nat -> pool_fine pl ->
  parts_text get_handler (escapes e) (bufs (r e)) (forgotten (r e)) ps = Ok t -> blen t < 2 ^ 64 ->
  exists e' pl' o' k, runs_codes (length ps + S (S fuel)) (pre ++ set_codes ps i ++ suf) e pl o = runs_codes (fuel + k) (pre ++ set_codes ps i ++ suf) e' pl' o' /\ pool_fine pl' /\
    (stopped NGX_HTTP_INTERNAL_SERVER_ERROR e' /\ ~ generous \/
     ip e' = Some (length (pre ++ set_codes ps i)) /\ sp e' = sp e /\ rq (r e') = rq (r e) /\
     exists x, variables (r e') !! Z.to_nat i = Some (mk_vv x true false false) /\ text_of (bufs (r e')) x = Ok t).
Proof.
  intros Hip Hok Hi Hsk Hfl Hia Hst Hf Ht Hmax. unfold set_codes. rewrite <- !app_assoc. rewrite Nat.add_succ_r. rewrite run_step by done.
  cbn [call_code]. unfold ngx_http_script_complex_value_code. set (c := CComplex (lengths_of ps ++ lslots LEnd)).
  set (le := (zero_engine (r (advance 16 e))) <| line := line (advance 16 e) |> <| quote := quote (advance 16 e) |>).
  assert (Ex : escapes le = escapes e) by (unfold escapes; unfold le; cbn; by rewrite Hia).
  destruct (lengths_total ps le t) as (le' & El & Hs); [done|done|rewrite Ex; exact Ht|done|]. rewrite El, obind_Ok. change (same get_handler false (r e) (r le')) in Hs.
  destruct (start_buf_ok (blen t) ((advance 16 e) <| r := r le' |>) pl o Hf) as (m & pl1 & o1 & -> & Hf1 & Hm). rewrite obind_Ok.
  destruct m as [e1|].
  2: { cbn [obind]. do 2 eexists. exists o1, (length ps + 1)%nat. split; [replace (fuel + (length ps + 1))%nat with (length ps + S fuel)%nat by lia; reflexivity|]. split; [done|]. left. done. }
  unfold push. change (sp e1) with (sp e1). assert (Esp : sp e1 = sp e) by (rewrite Hm; done). rewrite Esp. rewrite (proj2 (Nat.leb_gt _ _)) by lia. rewrite !obind_Ok.
  subst e1. set (e2 := _ <| sp := _ |>).
  assert (Hs2 : same get_handler false (r e) ((r e2) <| bufs := bufs (r e) |>)).
  { destruct Hs as (A & B & C & D). split; [exact A|]. split; [done|]. split; [exact C|]. intros j Hj. rewrite <- (D j Hj). by rewrite seen_bufs. }
  destruct Hs as (A & B & C & D).
  assert (Hb2 : bufs (r e2) = bufs (r e) ++ [(blen t, [])]) by (cbn; by rewrite B).
  destruct (run_values_parts get_handler var_nocacheable cycle_prefix cycle_conf_prefix exec_code ps exec_code_of (S fuel) (pre ++ cslots c) (cslots (CSetVar i) ++ suf) e2 pl1 o1
    (bufs (r e)) (blen t) [] t) as (q' & E & Hs').
  - unfold e2, advance. cbn -[csize cslots]. rewrite Hip. cbn -[csize cslots]. rewrite length_app. unfold cslots. by rewrite slots_length by (cbn; lia).
  - exact (parts_ok_same _ _ _ _ _ Hs2 Hok).
  - exact Hsk.
  - exact Hb2.
  - cbn. by rewrite B.
  - assert (Ee : escapes e2 = escapes e) by (unfold escapes; unfold e2; cbn; by rewrite A). rewrite Ee. rewrite <- Ht, <- (parts_text_same _ (escapes e) false _ _ _ _ Hok Hs2).
    change (flushed e2) with (flushed e). rewrite Hfl. symmetry. apply (parts_text_bufs get_handler (escapes e) false (bufs (r e)) (bufs (r e)) (r e2)).
  - change (blen []) with 0. lia.
  - rewrite <- !app_assoc in E. unfold run. rewrite E. clear E. cbn [app]. set (e3 := with_bufs _ _).
    fold (run get_handler var_nocacheable cycle_prefix cycle_conf_prefix pcre_exec max_captures file_info set_handler send stack_size).
    assert (Eip : ip e3 = Some (length (pre ++ cslots c ++ values_of ps))) by done.
    pose proof (run_step fuel (pre ++ cslots c ++ values_of ps) (CSetVar i) suf e3 pl1 o1 Eip ltac:(done)) as Es. rewrite <- !app_assoc in Es. rewrite Es. clear Es.
    cbn [call_code]. unfold ngx_http_script_set_var_code, pop. change (sp (advance 16 e3)) with (mk_vv (buf e2) true false false :: sp e). cbn match. rewrite obind_Ok.
    change (variables (r ((advance 16 e3) <| sp := sp e |>))) with (variables q').
    assert (Hlv : length (variables q') = length (variables (r e))) by (destruct Hs' as (_ & _ & C' & _); rewrite C'; exact C).
    rewrite (proj2 (Nat.leb_gt _ _)) by lia. rewrite obind_Ok. do 3 eexists. exists 0%nat. rewrite Nat.add_0_r. split; [reflexivity|]. split; [done|]. right.
    split; [|split; [done|split; [destruct Hs' as (A' & _); exact (eq_trans A' A)|]]].
    + cbn -[cslots]. f_equal. rewrite !length_app. unfold cslots. rewrite !slots_length by (cbn; lia). cbn [csize]. lia.
    + exists (buf e2). split.
      * unfold put_var. cbn. rewrite list_lookup_insert_eq by lia. done.
      * change (text_of (bufs (r e) ++ [(blen t, t)]) (mk_slice (SBuf (length (bufs (r le')))) 0 (blen t)) = Ok t). rewrite B. apply text_new.
Qed.

(** *** The arguments of an earlier rewrite *)

(** C36: a capture overruns its buffer after a rewrite with arguments.  [e->is_args] is
    set by the question mark of a replacement and never reset.  When a set of the value
    ["$n"] follows and the URI had escapes, the length is computed without escapes by an
    engine of its own and the text is written with them, so as soon as the capture has a
    byte that is escaped in arguments, what is written ends behind the buffer. *)
Theorem stale_args_overrun n i fuel pre suf e pl o x t :
  ip e = Some (length pre) -> skip e = false -> flushed e = false -> is_args e = true -> quote e = false ->
  quoted_uri (rq (r e)) || plus_in_uri (rq (r e)) = true -> 0 <= n -> 2 * n < ncaptures (rq (r e)) ->
  capture_slice (rq (r e)) (2 * n) = Ok x -> text_of (bufs (r e)) x = Ok t -> 0 < Uri.count_escapes Uri.args 0 t -> blen t < 2 ^ 64 ->
  (length (sp e) < stack_size)%nat -> pool_fine pl -> generous ->
  runs_codes (S (S fuel)) (pre ++ set_codes [RCapture n] i ++ suf) e pl o = Undef OutOfBounds.
Proof.
  intros Hip Hsk Hfl Hia Hq Hqu Hn Hc Hx Ht Hesc Hmax Hst Hf G. unfold set_codes. rewrite <- !app_assoc. rewrite run_step by done.
  cbn [call_code]. unfold ngx_http_script_complex_value_code. set (c := CComplex (lengths_of [RCapture n] ++ lslots LEnd)).
  set (le := (zero_engine (r (advance 16 e))) <| line := line (advance 16 e) |> <| quote := quote (advance 16 e) |>).
  assert (Ex : escapes le = false) by (unfold escapes; unfold le; cbn; by rewrite Hq).
  assert (Ept : part_text get_handler false (bufs (r e)) (forgotten (r e)) (RCapture n) = Ok t).
  { cbn [part_text]. change (rq (forgotten (r e))) with (rq (r e)). rewrite (proj2 (Z.ltb_lt _ _)) by lia. by rewrite Hx, obind_Ok, Ht, obind_Ok. }
  destruct (lengths_total [RCapture n] le t) as (le' & El & (A & B & C & _)); [done|by repeat constructor| |done|].
  { rewrite Ex. change (view (flushed le) (r le)) with (forgotten (r e)). change (bufs (r le)) with (bufs (r e)). cbn [parts_text]. rewrite Ept. cbn [obind]. by rewrite app_nil_r. }
  rewrite El, obind_Ok. destruct (start_buf_ok (blen t) ((advance 16 e) <| r := r le' |>) pl o Hf) as (m & pl1 & o1 & -> & Hf1 & Hm). rewrite obind_Ok.
  destruct m as [e1|]; [|by destruct (Hm G)]. unfold push. assert (Esp : sp e1 = sp e) by (rewrite Hm; done). rewrite Esp. rewrite (proj2 (Nat.leb_gt _ _)) by lia. rewrite !obind_Ok.
  subst e1. set (e2 := _ <| sp := _ |>). unfold values_of. cbn [map concat code_of]. rewrite app_nil_r.
  assert (Eip : ip e2 = Some (length (pre ++ cslots c))).
  { unfold e2, advance. cbn -[csize cslots]. rewrite Hip. cbn -[csize cslots]. rewrite length_app. unfold cslots. by rewrite slots_length by (cbn; lia). }
  pose proof (run_step fuel (pre ++ cslots c) (CCapture (2 * n)) (cslots (CSetVar i) ++ suf) e2 pl1 o1 Eip ltac:(done)) as Es. rewrite <- !app_assoc in Es. rewrite Es. clear Es.
  cbn [call_code exec_value]. unfold ngx_http_script_copy_capture_code. change (rq (r e2)) with (rq (r le')). change (rq (r le)) with (rq (r e)) in A. rewrite A.
  rewrite (proj2 (Z.ltb_lt _ _)) by lia. rewrite Hx, obind_Ok. change (bufs (r (advance 16 e2))) with (bufs (r le') ++ [(blen t, [])]). change (bufs (r le)) with (bufs (r e)) in B. rewrite B.
  rewrite (text_app _ _ _ _ _ Ht), obind_Ok.
  assert (Ee : escapes (advance 16 e2) = true) by (unfold escapes; unfold e2, advance; cbn; rewrite A, Hia; exact Hqu). rewrite Ee.
  unfold put. change (bufs (r (advance 16 e2))) with (bufs (r le') ++ [(blen t, [])]). change (cur (advance 16 e2)) with (length (bufs (r le'))). rewrite list_lookup_middle by done.
  cbn [app]. rewrite UriFacts.escape_length. by rewrite (proj2 (Z.ltb_lt _ _)) by lia.
Qed.

(** *** rewrite *)

Lemma exten_total t : forall i, (i < length t \/ i = 0)%nat -> exists x, exten_loop i t = Ok x.
Proof.
  intros i. induction i as [|i IH]; intros Hi; [by eexists|]. destruct i as [|i]; [by eexists|].
  destruct (rd_in_range t (S (S i)) ltac:(lia)) as (c & Hc & E1). destruct (rd_in_range t (S i) ltac:(lia)) as (d & Hd & E2).
  change (exists x, (let! c := rd t (S (S i)) in let! d := rd t (S i) in
    if (c =? 46) && negb (d =? 47) then Ok (Some (S (S (S i)))) else if c =? 47 then Ok None else exten_loop (S i) t) = Ok x).
  rewrite E1, obind_Ok, E2, obind_Ok. destruct ((c =? 46) && negb (d =? 47)); [by eexists|]. destruct (c =? 47); [by eexists|]. apply IH. lia.
Qed.
Lemma set_exten_ok q t : text_of (bufs q) (uri (rq q)) = Ok t -> exists x, ngx_http_set_exten q = Ok (q <| rq := (rq q) <| exten := x |> |>).
Proof.
  intros Ht. unfold ngx_http_set_exten. rewrite Ht, obind_Ok. destruct (exten_total t (length t - 1)) as (x & ->); [lia|]. rewrite obind_Ok. by eexists.
Qed.

(** The part of a replacement behind its question mark. *)
Definition args_lengths (tl : option (list rpart)) : lcodes := match tl with None => [] | Some qs => lslots LArgs ++ lengths_of qs end.
Definition args_values (tl : option (list rpart)) : codes := match tl with None => [] | Some qs => cslots CArgs ++ values_of qs end.
Definition args_parts (tl : option (list rpart)) : list rpart := match tl with None => [] | Some qs => qs end.
Definition args_size (tl : option (list rpart)) (a : bytes) : Z := match tl with None => 0 | Some _ => 1 + blen a end.
Definition args_steps (tl : option (list rpart)) : nat := match tl with None => 0 | Some qs => S (length qs) end.
Definition in_args (q : req) : bool := quoted_uri q || plus_in_uri q.

Lemma lengths_replacement ps tl q u a : Forall (part_ok q) ps -> Forall (part_ok q) (args_parts tl) ->
  parts_text get_handler false (bufs q) (forgotten q) ps = Ok u -> parts_text get_handler (in_args (rq q)) (bufs q) (forgotten q) (args_parts tl) = Ok a -> blen u + 1 + blen a < 2 ^ 64 ->
  forall e, e = (zero_engine q) <| line := line e |> -> let L := lengths_of ps ++ args_lengths tl ++ lslots LEnd in
  exists le, lengths_run (S (length L)) L 0 e = Ok (blen u + args_size tl a, le) /\ same get_handler false q (r le).
Proof.
  intros Hps Htl Hu Ha Hmax e He L. assert (Hn : 0 <= blen u /\ 0 <= blen a) by (unfold blen; lia).
  assert (Hr : r e = q /\ ip e = Some 0%nat /\ flushed e = false /\ is_args e = false /\ quote e = false) by (rewrite He; done). clear He. destruct Hr as (Hr & Hip & Hfl & Hia & Hq).
  assert (Hesc : escapes e = false) by (unfold escapes; by rewrite Hia, Hq).
  assert (Hfu : exists k, S (length L) = (length ps + (args_steps tl + S k))%nat).
  { destruct (parts_fuel (fun p => lslots (lcode_of p)) ps (args_lengths tl ++ lslots LEnd) lslots_pos) as (k & Ek). fold (lengths_of ps) in Ek.
    destruct tl as [qs|]; cbn [args_lengths args_steps] in *; [|by exists k]. destruct (parts_fuel (fun p => lslots (lcode_of p)) qs (lslots LEnd) lslots_pos) as (k' & Ek'). fold (lengths_of qs) in Ek'.
    exists (S (length L) - (length ps + S (S (length qs))))%nat. unfold L. rewrite !length_app in *. cbn [length] in *. change (length (lslots LEnd)) with 8%nat in *. change (length (lslots LArgs)) with 8%nat in *.
    assert (Hl : forall l, (length l <= length (lengths_of l))%nat). { intros l. induction l as [|p l IH]; [done|]. unfold lengths_of. cbn [map concat length]. rewrite length_app. pose proof (lslots_pos p). fold (lengths_of l). lia. }
    pose proof (Hl ps). pose proof (Hl qs). lia. }
  destruct Hfu as (k & ->).
  destruct (run_lengths_parts get_handler var_nocacheable cycle_prefix cycle_conf_prefix ps (args_steps tl + S k) [] (args_lengths tl ++ lslots LEnd) e 0 u) as (q1 & E & Hs1).
  { done. } { by rewrite Hr. } { rewrite Hesc, Hfl, Hr. exact Hu. } { done. } { lia. }
  cbn [app] in E. fold L in E. rewrite E. clear E. rewrite Hfl, Hr in Hs1. set (e1 := e <| ip := _ |> <| r := q1 |>). rewrite Z.add_0_l.
  destruct tl as [qs|]; cbn [args_steps args_size args_lengths args_parts] in *.
  - cbn [Nat.add run_lengths]. change (ip e1) with (Some (length (lengths_of ps))). cbn match. unfold L. rewrite <- app_assoc, fetch_lslots, obind_Ok. cbn match. cbn [exec_length]. rewrite obind_Ok.
    assert (Eu : u64 (blen u + 1) = blen u + 1) by (apply uwrap_small; lia). rewrite Eu. set (e2 := advance 8 (e1 <| is_args := true |>)).
    assert (Hesc2 : escapes e2 = in_args (rq q)) by (unfold escapes, in_args; destruct Hs1 as (A & _); by rewrite <- A).
    destruct (run_lengths_parts get_handler var_nocacheable cycle_prefix cycle_conf_prefix qs (S k) (lengths_of ps ++ lslots LArgs) (lslots LEnd) e2 (blen u + 1) a) as (q2 & E & Hs2).
    { unfold e2, advance. cbn. f_equal. rewrite length_app. cbn. lia. } { exact (parts_ok_same _ _ _ _ _ Hs1 Htl). }
    { rewrite Hesc2, <- Ha. change (flushed e2) with (flushed e). rewrite Hfl. change (r e2) with q1. destruct Hs1 as (A & B & C & D) eqn:E1. rewrite B.
      apply (parts_text_same get_handler (in_args (rq q)) false (bufs q) q q1 qs Htl). by split. }
    { lia. } { lia. }
    rewrite <- !app_assoc in E. rewrite E. clear E. cbn [run_lengths]. match goal with |- context [ip (e2 <| ip := ?i |> <| r := q2 |>)] => change (ip (e2 <| ip := i |> <| r := q2 |>)) with i end. cbn match.
    change (lengths_of ps ++ lslots LArgs ++ lengths_of qs) with (lengths_of ps ++ (lslots LArgs ++ lengths_of qs)).
    assert (Ef : fetch (lengths_of ps ++ lslots LArgs ++ lengths_of qs ++ lslots LEnd) (length (lengths_of ps ++ lslots LArgs ++ lengths_of qs)) = Ok LEnd).
    { pose proof (fetch_lslots (lengths_of ps ++ lslots LArgs ++ lengths_of qs) [] LEnd) as H. rewrite app_nil_r, <- !app_assoc in H. exact H. }
    rewrite Ef, obind_Ok. cbn match. rewrite <- Z.add_assoc. eexists. split; [reflexivity|]. eapply same_trans; [exact Hs1|]. change (flushed e2) with (flushed e) in Hs2. rewrite Hfl in Hs2. exact Hs2.
  - cbn [Nat.add run_lengths]. change (ip e1) with (Some (length (lengths_of ps))). cbn match. unfold L. cbn [app]. rewrite <- (app_nil_r (lslots LEnd)), fetch_lslots, obind_Ok. cbn match.
    rewrite Z.add_0_r. eexists. split; [reflexivity|]. exact Hs1.
Qed.

Lemma blen_none (t : bytes) : blen t = 0 -> t = [].
Proof. destruct t; [done|]. unfold blen. cbn [length]. lia. Qed.
(** The end of a rewrite: the URI and the arguments are parts of the buffer. *)
Lemma text_mid m n (a b c : bytes) : text_of (m ++ [(n, a ++ b ++ c)]) (mk_slice (SBuf (length m)) (blen a) (blen b)) = Ok b.
Proof.
  unfold text_of. cbn [len base off source_text]. rewrite list_lookup_middle by done. cbn [obind].
  destruct (Z.eqb_spec (blen b) 0) as [E|E]; [by apply blen_none in E as ->|].
  assert (B : (0 <=? blen a) && (0 <=? blen b) && (blen a + blen b <=? blen (a ++ b ++ c)) = true) by (unfold blen; rewrite !length_app, !andb_true_iff, !Z.leb_le; lia).
  rewrite B. f_equal. unfold blen. rewrite !Nat2Z.id, drop_app_length, take_app_length. done.
Qed.
Definition added (add : bool) (sep : bytes) (A : bytes) : bytes := if add && negb (blen A =? 0) then sep ++ A else [].
Definition new_args (tl : option (list rpart)) (add : bool) (a A : bytes) : bytes :=
  match tl with Some _ => a ++ added add [38] A | None => if add then A else [] end.
(** The request has the URI [u] and the arguments [a]. *)
Definition requests q (u a : bytes) : Prop := text_of (bufs q) (uri (rq q)) = Ok u /\ text_of (bufs q) (args (rq q)) = Ok a.

Lemma finish_rewrite (e : engine) pl o u : text_of (bufs (r e)) (buf e) = Ok u ->
  let e' := set_rq (fun q : req => q <| uri := buf e |>) e in
  exists ef, (if len (buf e') =? 0 then Ok (exit_with NGX_HTTP_INTERNAL_SERVER_ERROR e', pl, o)
              else let! q := ngx_http_set_exten (r e') in Ok (advance 16 (e' <| r := q |>), pl, o)) = Ok (ef, pl, o) /\
    (u = [] /\ stopped NGX_HTTP_INTERNAL_SERVER_ERROR ef \/
     u <> [] /\ ip ef = option_map (fun i => i + 16)%nat (ip e) /\ sp ef = sp e /\ bufs (r ef) = bufs (r e) /\ uri (rq (r ef)) = buf e /\ args (rq (r ef)) = args (rq (r e))).
Proof.
  intros Hu e'. change (buf e') with (buf e). rewrite (text_of_len _ _ _ Hu). destruct (Z.eqb_spec (blen u) 0) as [E|E].
  - eexists. split; [reflexivity|]. left. by apply blen_none in E.
  - destruct (set_exten_ok (r e') u Hu) as (x & ->). rewrite obind_Ok. eexists. split; [reflexivity|]. right. split; [by intros ->|]. done.
Qed.

Lemma regex_end_ok tl add e pl o m N u a A : bufs (r e) = m ++ [(N, u ++ a)] -> cur e = length m -> buf e = mk_slice (SBuf (length m)) 0 N ->
  args_at e = (match tl with Some _ => Some (blen u) | None => None end) -> (tl = None -> a = []) -> text_of m (args (rq (r e))) = Ok A ->
  blen u + blen a + blen (added add [38] A) <= N ->
  exists e', ngx_http_script_regex_end_code (mk_regex_end true (is_Some_b tl) add false) e pl o = Ok (e', pl, o) /\
    (u = [] /\ stopped NGX_HTTP_INTERNAL_SERVER_ERROR e' \/
     u <> [] /\ ip e' = option_map (fun i => i + 16)%nat (ip e) /\ sp e' = sp e /\ requests (r e') u (new_args tl add a A)).
Proof.
  intros Hb Hc Hbuf Hat Ha HA HN. unfold ngx_http_script_regex_end_code. cbn [re_redirect re_uri re_add_args]. set (e0 := e <| quote := false |>).
  change (args_at e0) with (args_at e). rewrite Hat. change (rq (r e0)) with (rq (r e)). rewrite (text_of_len _ _ _ HA).
  destruct tl as [qs|].
  - set (e1 := e0 <| buf := _ |>).
    assert (Hw : exists e2, (if add && negb (blen A =? 0) then add_request_args 38 e1 else Ok e1) = Ok e2 /\ e2 = with_bufs (m ++ [(N, u ++ a ++ added add [38] A)]) e1).
    { unfold added in *. destruct (add && negb (blen A =? 0)).
      - unfold add_request_args. change (args (rq (r e1))) with (args (rq (r e))). change (bufs (r e1)) with (bufs (r e)). rewrite Hb, (text_app _ _ _ _ _ HA), obind_Ok.
        rewrite (put_ok m N (u ++ a)) by first [exact Hb | exact Hc | unfold blen in *; rewrite !length_app in *; cbn [length] in *; lia]. eexists. split; [reflexivity|]. by rewrite <- app_assoc.
      - eexists. split; [reflexivity|]. rewrite app_nil_r, with_bufs_id by exact Hb. done. }
    destruct Hw as (e2 & -> & ->). rewrite !obind_Ok. set (t := added add [38] A) in *. match goal with |- context [set_rq (fun q : req => q <| uri := _ |>) ?x] => set (e3 := x) end.
    assert (Hu : text_of (bufs (r e3)) (buf e3) = Ok u).
    { change (text_of (m ++ [(N, u ++ a ++ t)]) (buf e1) = Ok u). assert (Eb : buf e1 = mk_slice (SBuf (length m)) (blen []) (blen u)).
      { unfold e1. change (buf (e0 <| buf := ?x |>)) with x. change (buf e0) with (buf e). rewrite Hbuf. cbn. by rewrite Z.sub_0_r. }
      rewrite Eb. exact (text_mid m N [] u (a ++ t)). }
    destruct (finish_rewrite e3 pl o u Hu) as (ef & -> & Hef). exists ef. split; [done|]. destruct Hef as [Hef|(Hn & Hi & Hsp & Hbf & Hur & Har)]; [by left|]. right.
    split; [done|]. split; [exact Hi|]. split; [exact Hsp|]. split; [by rewrite Hbf, Hur|]. rewrite Hbf, Har. cbn [new_args].
    assert (Ep : pos (with_bufs (m ++ [(N, u ++ a ++ t)]) e1) = blen (u ++ a ++ t)).
    { unfold pos. change (bufs (r (with_bufs ?mm e1))) with mm. change (cur (with_bufs ?mm e1)) with (cur e). rewrite Hc, list_lookup_middle by done. done. }
    set (p := pos _) in e3. change (text_of (m ++ [(N, u ++ a ++ t)]) (mk_slice (SBuf (cur e)) (blen u) (p - blen u)) = Ok (a ++ t)). unfold p. rewrite Ep, Hc. assert (El : blen (u ++ a ++ t) - blen u = blen (a ++ t)) by (unfold blen; rewrite !length_app; lia). rewrite El.
    rewrite <- (app_nil_r (a ++ t)) at 1. exact (text_mid m N u (a ++ t) []).
  - rewrite (Ha eq_refl), app_nil_r in *. rewrite obind_Ok. set (e1 := e0 <| buf := _ |>). match goal with |- context [set_rq (fun q : req => q <| uri := _ |>) ?x] => set (e3 := x) end.
    assert (Eb : buf e3 = mk_slice (SBuf (length m)) (blen []) (blen u)).
    { assert (E1 : buf e3 = buf e1) by (unfold e3; by destruct add). rewrite E1. unfold e1. change (buf (e0 <| buf := ?x |>)) with x. change (buf e0) with (buf e). rewrite Hbuf. cbn -[pos].
      unfold pos. change (bufs (r e0)) with (bufs (r e)). change (cur e0) with (cur e). rewrite Hb, Hc, list_lookup_middle by done. by rewrite Z.sub_0_r. }
    assert (Hbb : bufs (r e3) = m ++ [(N, u)]) by (unfold e3; destruct add; exact Hb).
    assert (Hu : text_of (bufs (r e3)) (buf e3) = Ok u). { rewrite Hbb, Eb. pose proof (text_mid m N [] u []) as H. rewrite app_nil_r in H. exact H. }
    destruct (finish_rewrite e3 pl o u Hu) as (ef & -> & Hef). exists ef. split; [done|]. assert (Hie : ip e3 = ip e /\ sp e3 = sp e) by (unfold e3; by destruct add). destruct Hie as (Hie & Hse).
    rewrite Hie, Hse in Hef. destruct Hef as [Hef|(Hn & Hi & Hsp & Hbf & Hur & Har)]; [by left|]. right. split; [done|]. split; [exact Hi|]. split; [exact Hsp|]. split; [by rewrite Hbf, Hur|].
    rewrite Hbf, Har, Hbb. cbn [new_args]. unfold e3. destruct add; [exact (text_app _ _ _ _ _ HA)|]. done.
Qed.

(** The request after a match of the expression of a rewrite. *)
Definition matched (c : regex_code) q : request :=
  q <| rq := (let q := (rq q) <| internal := true |> <| valid_unparsed_uri := false |> in
              if rc_break_cycle c then q <| valid_location := false |> <| uri_changed := false |> else q <| uri_changed := true |>) |>.
(** The codes of [rewrite regex replacement]. *)
Definition rewrite_code (c : regex_code) ps tl : Prop :=
  rc_uri c = true /\ rc_test c = false /\ rc_status c = 0 /\ rc_redirect c = false /\ rc_lengths c = Some (lengths_of ps ++ args_lengths tl ++ lslots LEnd).
Definition rewrite_tail (c : regex_code) ps tl : codes := values_of ps ++ args_values tl ++ cslots (CRegexEnd (mk_regex_end true (is_Some_b tl) (rc_add_args c) false)).

Lemma regex_start_ok c ps tl e pl o q1 pl1 o1 u a A : rewrite_code c ps tl ->
  ngx_http_regex_exec pcre_exec max_captures (r e) (rc_regex c) (uri (rq (r e))) pl o = Ok (NGX_OK, q1, pl1, o1) -> pool_fine pl1 ->
  let q := matched c q1 in
  Forall (part_ok q) ps -> Forall (part_ok q) (args_parts tl) ->
  parts_text get_handler false (bufs q) (forgotten q) ps = Ok u -> parts_text get_handler (in_args (rq q)) (bufs q) (forgotten q) (args_parts tl) = Ok a ->
  text_of (bufs q) (args (rq q)) = Ok A -> blen u + 1 + blen a + (blen A + 1) < 2 ^ 64 ->
  exists e' pl' o', exec_code (CRegex c) e pl o = Ok (e', pl', o') /\ pool_fine pl' /\
    (stopped NGX_HTTP_INTERNAL_SERVER_ERROR e' /\ ~ generous \/
     exists N x, e' = advance 72 (e <| line := uri (rq (r e)) |> <| r := x <| bufs := bufs q ++ [(N, [])] |> |> <| buf := mk_slice (SBuf (length (bufs q))) 0 N |> <| cur := length (bufs q) |> <| quote := false |>) /\
       same get_handler false q x /\ blen u + blen a + blen (added (rc_add_args c) [38] A) <= N).
Proof.
  intros (Huri & Htest & Hst & Hred & Hlen) Hre Hf q Hps Htl Hu Ha HA Hmax. cbn [call_code]. unfold ngx_http_script_regex_start_code. rewrite Huri, obind_Ok.
  set (e0 := e <| line := uri (rq (r e)) |>). change (ngx_http_regex_exec pcre_exec max_captures (r e0) (rc_regex c) (line e0) pl o = Ok (NGX_OK, q1, pl1, o1)) in Hre. rewrite Hre, obind_Ok. clear Hre.
  change (NGX_OK =? NGX_DECLINED) with false. change (NGX_OK =? NGX_ERROR) with false. cbn match. rewrite Htest, Hst, Hred. change (negb (0 =? 0) && negb false) with false. cbn match. change (0 =? 0) with true. cbn match.
  match goal with |- context [replacement_length _ _ _ _ c ?x] => set (e1 := x) end. assert (Hr1 : r e1 = q) by done.
  unfold replacement_length. rewrite Hlen, Hred. set (le := (zero_engine (r e1)) <| line := line e1 |> <| quote := false |>).
  destruct (lengths_replacement ps tl q u a Hps Htl Hu Ha) with (e := le) as (le' & -> & Hs); [unfold blen in *; lia|done|]. rewrite !obind_Ok.
  assert (Hargs : args (rq (r (e1 <| r := r le' |>))) = args (rq q)) by (destruct Hs as (X & _); by rewrite <- X). rewrite Hargs, (text_of_len _ _ _ HA).
  match goal with |- context [start_buf ?n _ _ _] => set (N := n) end.
  assert (HN : blen u + blen a + blen (added (rc_add_args c) [38] A) <= N).
  { unfold N, added. destruct (rc_add_args c && negb (blen A =? 0)).
    - unfold u64. rewrite uwrap_small by (unfold args_size, blen in *; destruct tl; lia). destruct tl; [unfold args_size, blen in *; cbn [length app] in *; lia|]. injection Ha as <-. unfold args_size, blen in *; cbn [length app] in *; lia.
    - unfold args_size, blen in *. cbn [length]. destruct tl; [lia|]. injection Ha as <-. cbn [length] in *. lia. }
  destruct (start_buf_ok N (e1 <| r := r le' |>) pl1 o1 Hf) as (m & pl' & o' & -> & Hf' & Hm). rewrite obind_Ok. destruct m as [e2|].
  - do 3 eexists. split; [reflexivity|]. split; [done|]. right. exists N, (r le'). split; [|done]. rewrite Hm. destruct Hs as (_ & B & _). change (bufs (r (e1 <| r := r le' |>))) with (bufs (r le')). by rewrite B.
  - do 3 eexists. split; [reflexivity|]. split; [done|]. left. done.
Qed.

(** The values of a replacement: the URI and, behind a question mark, the arguments. *)
Lemma values_replacement ps tl fuel pre suf e pl o m N u a : ip e = Some (length pre) -> skip e = false -> flushed e = false -> is_args e = false -> quote e = false -> args_at e = None ->
  bufs (r e) = m ++ [(N, [])] -> cur e = length m -> Forall (part_ok (r e)) ps -> Forall (part_ok (r e)) (args_parts tl) ->
  parts_text get_handler false m (forgotten (r e)) ps = Ok u -> parts_text get_handler (in_args (rq (r e))) m (forgotten (r e)) (args_parts tl) = Ok a -> blen u + blen a <= N ->
  exists q', let V := values_of ps ++ args_values tl in
    runs_codes (length ps + (args_steps tl + fuel)) (pre ++ V ++ suf) e pl o =
    runs_codes fuel (pre ++ V ++ suf) (with_bufs (m ++ [(N, u ++ a)]) (e <| ip := Some (length (pre ++ V)) |> <| r := q' |> <| is_args := is_Some_b tl |> <| args_at := match tl with Some _ => Some (blen u) | None => None end |>)) pl o /\
    same get_handler false (r e) q'.
Proof.
  intros Hip Hsk Hfl Hia Hq Hat Hb Hc Hps Htl Hu Ha HN. assert (Hn : 0 <= blen u /\ 0 <= blen a) by (unfold blen; lia).
  assert (Hesc : escapes e = false) by (unfold escapes; by rewrite Hia, Hq).
  destruct (run_values_parts get_handler var_nocacheable cycle_prefix cycle_conf_prefix exec_code ps exec_code_of (args_steps tl + fuel) pre (args_values tl ++ suf) e pl o m N [] u) as (q1 & E & Hs1);
    [done|done|done|done|done|by rewrite Hesc, Hfl|change (blen []) with 0; lia|].
  rewrite Hfl in Hs1. cbn [app] in E. destruct tl as [qs|].
  - cbn [args_steps args_values args_parts is_Some_b] in *. set (e1 := with_bufs _ _) in E.
    set (e2 := advance 8 (e1 <| is_args := true |> <| args_at := Some (blen u) |>)).
    assert (Hs : runs_codes (S (length qs + fuel)) ((pre ++ values_of ps) ++ cslots CArgs ++ values_of qs ++ suf) e1 pl o = runs_codes (length qs + fuel) ((pre ++ values_of ps) ++ cslots CArgs ++ values_of qs ++ suf) e2 pl o).
    { rewrite run_step by done. cbn [call_code exec_value]. rewrite !obind_Ok. do 3 f_equal. unfold pos. change (bufs (r e1)) with (m ++ [(N, u)]). change (cur e1) with (cur e). by rewrite Hc, list_lookup_middle by done. }
    assert (Hb2 : bufs (r e2) = m ++ [(N, u)]) by done.
    assert (Hesc2 : escapes e2 = in_args (rq (r e))) by (unfold escapes, in_args; destruct Hs1 as (A & _); change (rq (r e2)) with (rq q1); by rewrite A).
    assert (Hsb : same get_handler false q1 ((r e2) <| bufs := bufs q1 |>)) by (destruct q1; done).
    destruct (run_values_parts get_handler var_nocacheable cycle_prefix cycle_conf_prefix exec_code qs exec_code_of fuel (pre ++ values_of ps ++ cslots CArgs) suf e2 pl o m N u a) as (q2 & E2 & Hs2).
    + unfold e2, advance. cbn -[cslots]. f_equal. rewrite !length_app. change (length (cslots CArgs)) with 8%nat. lia.
    + change (Forall (part_ok q1) qs). exact (parts_ok_same _ _ _ _ _ Hs1 Htl).
    + exact Hsk.
    + exact Hb2.
    + exact Hc.
    + rewrite Hesc2, <- Ha. change (flushed e2) with (flushed e). rewrite Hfl. change (r e2) with (q1 <| bufs := m ++ [(N, u)] |>). rewrite (parts_text_bufs get_handler (in_args (rq (r e))) false).
      exact (parts_text_same get_handler (in_args (rq (r e))) false m (r e) q1 qs Htl Hs1).
    + exact HN.
    + exists (q2 <| bufs := bufs (r e) |>). cbv zeta. do 4 rewrite <- ?app_assoc in E; do 4 rewrite <- ?app_assoc in Hs; do 4 rewrite <- ?app_assoc in E2; do 4 rewrite <- ?app_assoc. split.
      * etransitivity; [exact E|]. etransitivity; [exact Hs|]. exact E2.
      * eapply same_trans; [exact Hs1|]. change (flushed e2) with (flushed e) in Hs2. rewrite Hfl in Hs2. destruct Hs1 as (_ & B1 & _), Hs2 as (A & B & C & D).
        split; [exact A|]. split; [exact (eq_sym B1)|]. split; [exact C|]. intros i Hi. etransitivity; [apply (seen_bufs get_handler false)|]. exact (D i Hi).
  - cbn [args_steps args_values args_parts is_Some_b app Nat.add] in *. injection Ha as <-. exists q1. cbv zeta. rewrite !app_nil_r in *. split; [|exact Hs1].
    unfold run. etransitivity; [exact E|]. f_equal. destruct e. cbn in Hia, Hat. subst. done.
Qed.

(** C35: a rewrite replaces the URI.  When the expression of [rewrite regex replacement]
    matches, its codes write the text of the replacement, its variables and captures
    replaced, into one buffer: the URI is what is before the question mark; the
    arguments are what is behind it, with its captures escaped where the URI of the
    request was, and, unless the replacement ends in a question mark, an ampersand and the old
    arguments.  The length computed before is enough, so nothing is written behind the
    buffer.  Without memory or with an empty URI the request is answered with 500. *)
Theorem rewrite_replaces c ps tl fuel pre suf e pl o q1 pl1 o1 u a A : rewrite_code c ps tl ->
  ip e = Some (length pre) -> skip e = false -> flushed e = false -> is_args e = false -> args_at e = None ->
  ngx_http_regex_exec pcre_exec max_captures (r e) (rc_regex c) (uri (rq (r e))) pl o = Ok (NGX_OK, q1, pl1, o1) -> pool_fine pl1 ->
  let q := matched c q1 in
  let C := cslots (CRegex c) ++ rewrite_tail c ps tl in
  Forall (part_ok q) ps -> Forall (part_ok q) (args_parts tl) ->
  parts_text get_handler false (bufs q) (forgotten q) ps = Ok u -> parts_text get_handler (in_args (rq q)) (bufs q) (forgotten q) (args_parts tl) = Ok a ->
  text_of (bufs q) (args (rq q)) = Ok A -> blen u + 1 + blen a + (blen A + 1) < 2 ^ 64 ->
  exists e' pl' o' k, runs_codes (S (length ps + (args_steps tl + S fuel))) (pre ++ C ++ suf) e pl o = runs_codes (fuel + k) (pre ++ C ++ suf) e' pl' o' /\ pool_fine pl' /\
    (stopped NGX_HTTP_INTERNAL_SERVER_ERROR e' /\ (~ generous \/ u = []) \/
     ip e' = Some (length (pre ++ C)) /\ sp e' = sp e /\ u <> [] /\ requests (r e') u (new_args tl (rc_add_args c) a A)).
Proof.
  intros Hc Hip Hsk Hfl Hia Hat Hre Hf q C Hps Htl Hu Ha HA Hmax. unfold C, rewrite_tail. rewrite <- !app_assoc. rewrite run_step by done.
  destruct (regex_start_ok c ps tl e pl o q1 pl1 o1 u a A Hc Hre Hf Hps Htl Hu Ha HA Hmax) as (e2 & pl2 & o2 & -> & Hf2 & H). rewrite obind_Ok.
  destruct H as [H|(N & x & -> & Hs & HN)].
  { do 3 eexists. exists (length ps + args_steps tl + 1)%nat. split; [f_equal; lia|]. split; [done|]. left. split; [apply H|left; apply H]. }
  set (e2 := advance _ _). fold q in e2. pose proof Hs as (Hq & Hb & Hl & Hsee). set (E := CRegexEnd _).
  assert (Hsb : same get_handler false q ((r e2) <| bufs := bufs q |>)).
  { split; [exact Hq|]. split; [done|]. split; [exact Hl|]. intros i Hi. etransitivity; [apply (seen_bufs get_handler false (bufs q) x)|exact (Hsee i Hi)]. }
  destruct (values_replacement ps tl (S fuel) (pre ++ cslots (CRegex c)) (cslots E ++ suf) e2 pl2 o2 (bufs q) N u a) as (q' & Ev & Hs'); try done.
  { unfold e2, advance. cbn -[csize cslots]. rewrite Hip. cbn -[csize cslots]. rewrite length_app. unfold cslots. by rewrite slots_length by (cbn; lia). }
  { exact (parts_ok_same _ _ _ _ _ Hsb Hps). }
  { exact (parts_ok_same _ _ _ _ _ Hsb Htl). }
  { rewrite <- Hu, <- (parts_text_same get_handler false false _ _ _ _ Hps Hsb). symmetry. apply (parts_text_bufs get_handler false false (bufs q) (bufs q) (r e2)). }
  { change (rq (r e2)) with (rq x). rewrite Hq. rewrite <- Ha, <- (parts_text_same get_handler _ false _ _ _ _ Htl Hsb). symmetry. apply (parts_text_bufs get_handler _ false (bufs q) (bufs q) (r e2)). }
  { unfold blen in *. lia. }
  cbv zeta in Ev. do 4 rewrite <- ?app_assoc in Ev. rewrite Ev. clear Ev. set (e3 := with_bufs _ _).
  assert (Hip3 : ip e3 = Some (length (pre ++ cslots (CRegex c) ++ values_of ps ++ args_values tl))) by (unfold e3; by do 4 rewrite <- ?app_assoc).
  pose proof (run_step fuel (pre ++ cslots (CRegex c) ++ values_of ps ++ args_values tl) E suf e3 pl2 o2 Hip3 ltac:(done)) as Es. do 4 rewrite <- ?app_assoc in Es. rewrite Es. clear Es.
  destruct (regex_end_ok tl (rc_add_args c) e3 pl2 o2 (bufs q) N u a A) as (e4 & He4 & H4); try done.
  { intros ->. by injection Ha as <-. }
  { destruct Hs' as (Hq' & _). change (rq (r e3)) with (rq q'). rewrite Hq'. change (rq (r e2)) with (rq x). by rewrite Hq. }
  unfold E. cbn [call_code]. rewrite He4, obind_Ok. exists e4, pl2, o2, 0%nat. split; [by rewrite Nat.add_0_r|]. split; [done|].
  destruct H4 as [(H1 & H2)|(H1 & H2 & H3 & H4)]; [left; by auto|]. right. split; [|done]. rewrite H2, Hip3. cbn -[cslots]. f_equal. rewrite !length_app. change (length (cslots (CRegexEnd _))) with 16%nat. lia.
Qed.
End Rewrite.

(** ** Programs of directives *)

(** The request is [/a b?z=1]; its URI had escapes. *)
Definition demo_uri : req := mk_req (lit (bs "/a b")) (lit (bs "z=1")) true false [0; 0; 0; 0; 0; 0] 0 (lit []) false true true false (lit []) None 0 0 0.
Definition demo_rewritten : request := mk_request demo_uri [mk_vv (lit []) false false false] [] (mk_list [] [] 24 20).
(** Expressions that match the whole text and capture what is behind the slash, once
    or in two nested groups. *)
Definition capture_rest (i : Z) (t : bytes) (n : Z) : Z * list Z := (2, [0; blen t; 1; blen t; 0; 0]).
Definition capture_nested (i : Z) (t : bytes) (n : Z) : Z * list Z := (3, [0; blen t; 1; blen t; 1; blen t]).
Definition demo_regex : regex := mk_regex 1 1 [].
Definition demo_sc : @st endless_mem := @mk_st endless_mem (mk_sc None None None 0 0 0 0 false true true false false false false false) None demo_pool4k (100000 : @os endless_mem).
Definition demo_rewrite (replacement : bytes) : @comp endless_mem := ngx_http_rewrite (fun _ _ => Some demo_regex) (bs "^/(.*)$") replacement None.
Definition program (c : @comp endless_mem) : codes :=
  match andthen c (add_value CEnd) demo_sc with Ok (true, x) => match values (s x) with Some a => items a | None => [] end | _ => [] end.
Definition demo_run (pcre : Z -> bytes -> Z -> Z * list Z) (cs : codes) : out (Z * out bytes * out bytes) :=
  let! (st, q, _, _) := ngx_http_rewrite_handler (Osm := endless_mem) (fun _ _ => None) (fun _ => false) [] [] pcre 9 (fun _ => None) (fun _ _ q _ => q) (fun s _ => s) 10 false (Some cs) demo_rewritten demo_pool4k 100000 in
  Ok (st, text_of (bufs q) (uri (rq q)), text_of (bufs q) (args (rq q))).

Definition demo_code (n : Z) (ps : list rpart) (tl : option (list rpart)) : regex_code :=
  zero_regex_code <| rc_regex := demo_regex |> <| rc_lengths := Some (lengths_of ps ++ args_lengths tl ++ lslots LEnd) |> <| rc_size := n |> <| rc_args := is_Some_b tl |>
    <| rc_uri := true |> <| rc_add_args := true |> <| rc_next := Z.of_nat (72 + length (values_of ps ++ args_values tl) + 16) |>.
Definition demo_parts : list rpart := [RText (bs "/x/"); RCapture 1].
Definition demo_args : option (list rpart) := Some [RText (bs "a="); RCapture 1].

(** The directive compiles to the codes of [rewrite_replaces]. *)
Example demo_program : program (demo_rewrite (bs "/x/$1?a=$1")) = cslots (CRegex (demo_code 5 demo_parts demo_args)) ++ rewrite_tail (demo_code 5 demo_parts demo_args) demo_parts demo_args ++ cslots CEnd.
Proof. vm_compute. reflexivity. Qed.
Example demo_replaced : demo_run capture_rest (program (demo_rewrite (bs "/x/$1?a=$1"))) = Ok (NGX_DECLINED, Ok (bs "/x/a b"), Ok (bs "a=a%20b&z=1")).
Proof. vm_compute. reflexivity. Qed.
(** A set of [$1] behind a rewrite to [/x?a=$1] writes behind its buffer. *)
Example demo_stale_args : demo_run capture_rest (program (andthen (demo_rewrite (bs "/x?a=$1")) (ngx_http_rewrite_set None (bs "$v") (bs "$1")))) = Undef OutOfBounds.
Proof. vm_compute. reflexivity. Qed.
(** Nested captures without a repeated one: the escapes of the URI are counted once,
    the captures are written with theirs each. *)
Example demo_nested : demo_run capture_nested (program (demo_rewrite (bs "/x?a=$1&b=$2"))) = Undef OutOfBounds.
Proof. vm_compute. reflexivity. Qed.

Definition demo_exec : nat -> codes -> engine -> @pool -> @os endless_mem -> out (engine * pool * os) :=
  run (Osm := endless_mem) (fun _ _ => None) (fun _ => false) [] [] capture_rest 9 (fun _ => None) (fun _ _ q _ => q) (fun s _ => s) 10.
Lemma demo_pool_fine : pool_fine demo_pool4k.
Proof. split; [discriminate|vm_compute; discriminate]. Qed.
Definition demo_engine : engine := zero_engine demo_rewritten.
Definition demo_matched : request := demo_rewritten <| rq := demo_uri <| captures := [0; 4; 1; 4; 0; 0] |> <| ncaptures := 4 |> <| captures_data := lit (bs "/a b") |> |>.

Lemma rewrite_replaces_witness : let C := cslots (CRegex (demo_code 5 demo_parts demo_args)) ++ rewrite_tail (demo_code 5 demo_parts demo_args) demo_parts demo_args in
  exists e' pl' o' k, demo_exec 11 (C ++ cslots CEnd) demo_engine demo_pool4k 100000 = demo_exec (4 + k) (C ++ cslots CEnd) e' pl' o' /\
    ip e' = Some (length C) /\ requests (r e') (bs "/x/a b") (bs "a=a%20b&z=1").
Proof.
  destruct (@rewrite_replaces endless_mem (fun _ _ => None) (fun _ => false) [] [] capture_rest 9 (fun _ => None) (fun _ _ q _ => q) (fun s _ => s) 10 (demo_code 5 demo_parts demo_args) demo_parts demo_args 4 [] (cslots CEnd) demo_engine
    demo_pool4k (100000 : @os endless_mem) demo_matched demo_pool4k (100000 : @os endless_mem) (bs "/x/a b") (bs "a=a%20b") (bs "z=1")) as (e' & pl' & o' & k & E & _ & H).
  - done.
  - done.
  - done.
  - done.
  - done.
  - done.
  - reflexivity.
  - exact demo_pool_fine.
  - constructor; [done|]. constructor; [cbn; lia|constructor].
  - constructor; [done|]. constructor; [cbn; lia|constructor].
  - vm_compute. reflexivity.
  - vm_compute. reflexivity.
  - vm_compute. reflexivity.
  - vm_compute. reflexivity.
  - intros C. cbn [length demo_parts demo_args args_steps Nat.add] in E. rewrite !app_nil_l in E. fold C in E, H. exists e', pl', o', k. split; [exact E|]. destruct H as [(_ & [H|H])|(H1 & _ & _ & H2)]; [destruct (H endless_generous)|discriminate H|]. split; [exact H1|exact H2].
Defined.

Lemma stale_args_overrun_witness : let e := demo_engine <| r := demo_matched |> <| is_args := true |> in
  demo_exec 5 (set_codes [RCapture 1] 0 ++ cslots CEnd) e demo_pool4k 100000 = Undef OutOfBounds.
Proof.
  apply (@stale_args_overrun endless_mem (fun _ _ => None) (fun _ => false) [] [] capture_rest 9 (fun _ => None) (fun _ _ q _ => q) (fun s _ => s) 10 1 0 3 [] (cslots CEnd) (demo_engine <| r := demo_matched |> <| is_args := true |>)
    demo_pool4k (100000 : @os endless_mem) (mk_slice (SText (bs "/a b")) 1 3) (bs "a b")); try reflexivity.
  - lia.
  - cbn. lia.
  - exact demo_pool_fine.
  - exact endless_generous.
Defined.
