(* ===== verification/NgxDigest.v ===== *)
(** * Checksums and digests: nginx/src/core/ngx_crc32.c and .h, ngx_murmurhash.c, ngx_md5.c and .h

    CRC-32 with a table of 16 and one of 256 words, MurmurHash2, and MD5 with a
    context that takes its data piece by piece. *)
From S2P Require Import Prelude NgxCodec.
#[local] Open Scope Z_scope.

Module Crc32.

Definition ngx_crc32_table16 : list Z :=
  [
   0x00000000; 0x1db71064; 0x3b6e20c8; 0x26d930ac; 0x76dc4190; 0x6b6b51f4; 0x4db26158; 0x5005713c;
   0xedb88320; 0xf00f9344; 0xd6d6a3e8; 0xcb61b38c; 0x9b64c2b0; 0x86d3d2d4; 0xa00ae278; 0xbdbdf21c
  ].
Definition ngx_crc32_table256 : list Z :=
  [
   0x00000000; 0x77073096; 0xee0e612c; 0x990951ba; 0x076dc419; 0x706af48f; 0xe963a535; 0x9e6495a3;
   0x0edb8832; 0x79dcb8a4; 0xe0d5e91e; 0x97d2d988; 0x09b64c2b; 0x7eb17cbd; 0xe7b82d07; 0x90bf1d91;
   0x1db71064; 0x6ab020f2; 0xf3b97148; 0x84be41de; 0x1adad47d; 0x6ddde4eb; 0xf4d4b551; 0x83d385c7;
   0x136c9856; 0x646ba8c0; 0xfd62f97a; 0x8a65c9ec; 0x14015c4f; 0x63066cd9; 0xfa0f3d63; 0x8d080df5;
   0x3b6e20c8; 0x4c69105e; 0xd56041e4; 0xa2677172; 0x3c03e4d1; 0x4b04d447; 0xd20d85fd; 0xa50ab56b;
   0x35b5a8fa; 0x42b2986c; 0xdbbbc9d6; 0xacbcf940; 0x32d86ce3; 0x45df5c75; 0xdcd60dcf; 0xabd13d59;
   0x26d930ac; 0x51de003a; 0xc8d75180; 0xbfd06116; 0x21b4f4b5; 0x56b3c423; 0xcfba9599; 0xb8bda50f;
   0x2802b89e; 0x5f058808; 0xc60cd9b2; 0xb10be924; 0x2f6f7c87; 0x58684c11; 0xc1611dab; 0xb6662d3d;
   0x76dc4190; 0x01db7106; 0x98d220bc; 0xefd5102a; 0x71b18589; 0x06b6b51f; 0x9fbfe4a5; 0xe8b8d433;
   0x7807c9a2; 0x0f00f934; 0x9609a88e; 0xe10e9818; 0x7f6a0dbb; 0x086d3d2d; 0x91646c97; 0xe6635c01;
   0x6b6b51f4; 0x1c6c6162; 0x856530d8; 0xf262004e; 0x6c0695ed; 0x1b01a57b; 0x8208f4c1; 0xf50fc457;
   0x65b0d9c6; 0x12b7e950; 0x8bbeb8ea; 0xfcb9887c; 0x62dd1ddf; 0x15da2d49; 0x8cd37cf3; 0xfbd44c65;
   0x4db26158; 0x3ab551ce; 0xa3bc0074; 0xd4bb30e2; 0x4adfa541; 0x3dd895d7; 0xa4d1c46d; 0xd3d6f4fb;
   0x4369e96a; 0x346ed9fc; 0xad678846; 0xda60b8d0; 0x44042d73; 0x33031de5; 0xaa0a4c5f; 0xdd0d7cc9;
   0x5005713c; 0x270241aa; 0xbe0b1010; 0xc90c2086; 0x5768b525; 0x206f85b3; 0xb966d409; 0xce61e49f;
   0x5edef90e; 0x29d9c998; 0xb0d09822; 0xc7d7a8b4; 0x59b33d17; 0x2eb40d81; 0xb7bd5c3b; 0xc0ba6cad;
   0xedb88320; 0x9abfb3b6; 0x03b6e20c; 0x74b1d29a; 0xead54739; 0x9dd277af; 0x04db2615; 0x73dc1683;
   0xe3630b12; 0x94643b84; 0x0d6d6a3e; 0x7a6a5aa8; 0xe40ecf0b; 0x9309ff9d; 0x0a00ae27; 0x7d079eb1;
   0xf00f9344; 0x8708a3d2; 0x1e01f268; 0x6906c2fe; 0xf762575d; 0x806567cb; 0x196c3671; 0x6e6b06e7;
   0xfed41b76; 0x89d32be0; 0x10da7a5a; 0x67dd4acc; 0xf9b9df6f; 0x8ebeeff9; 0x17b7be43; 0x60b08ed5;
   0xd6d6a3e8; 0xa1d1937e; 0x38d8c2c4; 0x4fdff252; 0xd1bb67f1; 0xa6bc5767; 0x3fb506dd; 0x48b2364b;
   0xd80d2bda; 0xaf0a1b4c; 0x36034af6; 0x41047a60; 0xdf60efc3; 0xa867df55; 0x316e8eef; 0x4669be79;
   0xcb61b38c; 0xbc66831a; 0x256fd2a0; 0x5268e236; 0xcc0c7795; 0xbb0b4703; 0x220216b9; 0x5505262f;
   0xc5ba3bbe; 0xb2bd0b28; 0x2bb45a92; 0x5cb36a04; 0xc2d7ffa7; 0xb5d0cf31; 0x2cd99e8b; 0x5bdeae1d;
   0x9b64c2b0; 0xec63f226; 0x756aa39c; 0x026d930a; 0x9c0906a9; 0xeb0e363f; 0x72076785; 0x05005713;
   0x95bf4a82; 0xe2b87a14; 0x7bb12bae; 0x0cb61b38; 0x92d28e9b; 0xe5d5be0d; 0x7cdcefb7; 0x0bdbdf21;
   0x86d3d2d4; 0xf1d4e242; 0x68ddb3f8; 0x1fda836e; 0x81be16cd; 0xf6b9265b; 0x6fb077e1; 0x18b74777;
   0x88085ae6; 0xff0f6a70; 0x66063bca; 0x11010b5c; 0x8f659eff; 0xf862ae69; 0x616bffd3; 0x166ccf45;
   0xa00ae278; 0xd70dd2ee; 0x4e048354; 0x3903b3c2; 0xa7672661; 0xd06016f7; 0x4969474d; 0x3e6e77db;
   0xaed16a4a; 0xd9d65adc; 0x40df0b66; 0x37d83bf0; 0xa9bcae53; 0xdebb9ec5; 0x47b2cf7f; 0x30b5ffe9;
   0xbdbdf21c; 0xcabac28a; 0x53b39330; 0x24b4a3a6; 0xbad03605; 0xcdd70693; 0x54de5729; 0x23d967bf;
   0xb3667a2e; 0xc4614ab8; 0x5d681b02; 0x2a6f2b94; 0xb40bbe37; 0xc30c8ea1; 0x5a05df1b; 0x2d02ef8d
  ].

Fixpoint short_loop (crc : Z) (p : bytes) : Z :=
  match p with
  | [] => crc
  | c :: p' =>
      let crc := Z.lxor (tbl ngx_crc32_table16 (Z.land (Z.lxor crc (Z.land c 15)) 15)) (Z.shiftr crc 4) in
      let crc := Z.lxor (tbl ngx_crc32_table16 (Z.land (Z.lxor crc (Z.shiftr c 4)) 15)) (Z.shiftr crc 4) in
      short_loop crc p'
  end.
Definition ngx_crc32_short (p : bytes) : Z := Z.lxor (short_loop 0xffffffff p) 0xffffffff.

(** [ngx_crc32_update] and the loop of [ngx_crc32_long]. *)
Fixpoint ngx_crc32_update (crc : Z) (p : bytes) : Z :=
  match p with
  | [] => crc
  | c :: p' => ngx_crc32_update (Z.lxor (tbl ngx_crc32_table256 (Z.land (Z.lxor crc c) 255)) (Z.shiftr crc 8)) p'
  end.
Definition ngx_crc32_long (p : bytes) : Z := Z.lxor (ngx_crc32_update 0xffffffff p) 0xffffffff.
Definition ngx_crc32_init : Z := 0xffffffff.
Definition ngx_crc32_final (crc : Z) : Z := Z.lxor crc 0xffffffff.

End Crc32.

Module Murmur.

Definition m : Z := 0x5bd1e995.
(** [k *= m] *)
Definition mul (k : Z) : Z := u32 (k * m).
Definition word (a b c d : Z) : Z := u32 (Z.lor (Z.lor (Z.lor a (Z.shiftl b 8)) (Z.shiftl c 16)) (Z.shiftl d 24)).
(** A word of the data is mixed into the hash. *)
Definition mix (h k : Z) : Z :=
  let k := mul k in
  let k := Z.lxor k (Z.shiftr k 24) in
  let k := mul k in
  Z.lxor (mul h) k.

(** The loop, the bytes left, and the end. *)
Fixpoint murmur_loop (h : Z) (data : bytes) : Z :=
  match data with
  | a :: b :: c :: d :: data' => murmur_loop (mix h (word a b c d)) data'
  | [a; b; c] => mul (Z.lxor (Z.lxor (Z.lxor h (Z.shiftl c 16)) (Z.shiftl b 8)) a)
  | [a; b] => mul (Z.lxor (Z.lxor h (Z.shiftl b 8)) a)
  | [a] => mul (Z.lxor h a)
  | [] => h
  end.
Definition finish (h : Z) : Z :=
  let h := Z.lxor h (Z.shiftr h 13) in
  let h := mul h in
  Z.lxor h (Z.shiftr h 15).
Definition ngx_murmur_hash2 (data : bytes) : Z := finish (murmur_loop (u32 (blen data)) data).

End Murmur.

Module Md5.

(** [ngx_md5_t]; the words are 32 bits wide, the buffer has 64 bytes. *)
Record ngx_md5_t := mk_md5 { nbytes : Z; a : Z; b : Z; c : Z; d : Z; buffer : bytes }.
#[export] Instance md5_settable : Settable ngx_md5_t := fun x => mk_md5 (nbytes x) (a x) (b x) (c x) (d x) (buffer x).
Abbreviation size_t := Z (only parsing).

(** The buffer keeps what it held. *)
Definition ngx_md5_init (ctx : ngx_md5_t) : ngx_md5_t :=
  mk_md5 0 0x67452301 0xefcdab89 0x98badcfe 0x10325476 (buffer ctx).

Definition fF (x y z : Z) : Z := Z.lxor z (Z.land x (Z.lxor y z)).
Definition fG (x y z : Z) : Z := Z.lxor y (Z.land z (Z.lxor x y)).
Definition fH (x y z : Z) : Z := Z.lxor (Z.lxor x y) z.
(** [~z] of a word is its difference from all ones. *)
Definition fI (x y z : Z) : Z := Z.lxor y (Z.lor x (Z.lxor z 0xffffffff)).

(** [STEP(f, a, b, c, d, x, t, s)]: the new [a]. *)
Definition step (f : Z -> Z -> Z -> Z) (a b c d x t s : Z) : Z :=
  let a := u32 (a + (f b c d + x + t)) in
  let a := u32 (Z.lor (Z.shiftl a s) (Z.shiftr (Z.land a 0xffffffff) (32 - s))) in
  u32 (a + b).

(** The registers and the one that a step changes. *)
Record regs := mk_regs { ra : Z; rb : Z; rc : Z; rd : Z }.
Inductive target := rA | rB | rC | rD.
Definition apply_step (block : list Z) (x : regs) (st : (Z -> Z -> Z -> Z) * target * nat * Z * Z) : regs :=
  let '(f, t, n, k, s) := st in
  let w := default 0 (block !! n) in
  let '(mk_regs a b c d) := x in
  match t with
  | rA => mk_regs (step f a b c d w k s) b c d
  | rD => mk_regs a b c (step f d a b c w k s)
  | rC => mk_regs a b (step f c d a b w k s) d
  | rB => mk_regs a (step f b c d a w k s) c d
  end.
Definition rounds : list ((Z -> Z -> Z -> Z) * target * nat * Z * Z) :=
  [
   (fF, rA, 0%nat, 0xd76aa478, 7); (fF, rD, 1%nat, 0xe8c7b756, 12);
   (fF, rC, 2%nat, 0x242070db, 17); (fF, rB, 3%nat, 0xc1bdceee, 22);
   (fF, rA, 4%nat, 0xf57c0faf, 7); (fF, rD, 5%nat, 0x4787c62a, 12);
   (fF, rC, 6%nat, 0xa8304613, 17); (fF, rB, 7%nat, 0xfd469501, 22);
   (fF, rA, 8%nat, 0x698098d8, 7); (fF, rD, 9%nat, 0x8b44f7af, 12);
   (fF, rC, 10%nat, 0xffff5bb1, 17); (fF, rB, 11%nat, 0x895cd7be, 22);
   (fF, rA, 12%nat, 0x6b901122, 7); (fF, rD, 13%nat, 0xfd987193, 12);
   (fF, rC, 14%nat, 0xa679438e, 17); (fF, rB, 15%nat, 0x49b40821, 22);
   (fG, rA, 1%nat, 0xf61e2562, 5); (fG, rD, 6%nat, 0xc040b340, 9);
   (fG, rC, 11%nat, 0x265e5a51, 14); (fG, rB, 0%nat, 0xe9b6c7aa, 20);
   (fG, rA, 5%nat, 0xd62f105d, 5); (fG, rD, 10%nat, 0x02441453, 9);
   (fG, rC, 15%nat, 0xd8a1e681, 14); (fG, rB, 4%nat, 0xe7d3fbc8, 20);
   (fG, rA, 9%nat, 0x21e1cde6, 5); (fG, rD, 14%nat, 0xc33707d6, 9);
   (fG, rC, 3%nat, 0xf4d50d87, 14); (fG, rB, 8%nat, 0x455a14ed, 20);
   (fG, rA, 13%nat, 0xa9e3e905, 5); (fG, rD, 2%nat, 0xfcefa3f8, 9);
   (fG, rC, 7%nat, 0x676f02d9, 14); (fG, rB, 12%nat, 0x8d2a4c8a, 20);
   (fH, rA, 5%nat, 0xfffa3942, 4); (fH, rD, 8%nat, 0x8771f681, 11);
   (fH, rC, 11%nat, 0x6d9d6122, 16); (fH, rB, 14%nat, 0xfde5380c, 23);
   (fH, rA, 1%nat, 0xa4beea44, 4); (fH, rD, 4%nat, 0x4bdecfa9, 11);
   (fH, rC, 7%nat, 0xf6bb4b60, 16); (fH, rB, 10%nat, 0xbebfbc70, 23);
   (fH, rA, 13%nat, 0x289b7ec6, 4); (fH, rD, 0%nat, 0xeaa127fa, 11);
   (fH, rC, 3%nat, 0xd4ef3085, 16); (fH, rB, 6%nat, 0x04881d05, 23);
   (fH, rA, 9%nat, 0xd9d4d039, 4); (fH, rD, 12%nat, 0xe6db99e5, 11);
   (fH, rC, 15%nat, 0x1fa27cf8, 16); (fH, rB, 2%nat, 0xc4ac5665, 23);
   (fI, rA, 0%nat, 0xf4292244, 6); (fI, rD, 7%nat, 0x432aff97, 10);
   (fI, rC, 14%nat, 0xab9423a7, 15); (fI, rB, 5%nat, 0xfc93a039, 21);
   (fI, rA, 12%nat, 0x655b59c3, 6); (fI, rD, 3%nat, 0x8f0ccc92, 10);
   (fI, rC, 10%nat, 0xffeff47d, 15); (fI, rB, 1%nat, 0x85845dd1, 21);
   (fI, rA, 8%nat, 0x6fa87e4f, 6); (fI, rD, 15%nat, 0xfe2ce6e0, 10);
   (fI, rC, 6%nat, 0xa3014314, 15); (fI, rB, 13%nat, 0x4e0811a1, 21);
   (fI, rA, 4%nat, 0xf7537e82, 6); (fI, rD, 11%nat, 0xbd3af235, 10);
   (fI, rC, 2%nat, 0x2ad7d2bb, 15); (fI, rB, 9%nat, 0xeb86d391, 21)
  ].

(** [SET]: the words of a block. *)
Fixpoint words (p : bytes) : list Z :=
  match p with
  | a :: b :: c :: d :: p' => Z.lor (Z.lor (Z.lor a (Z.shiftl b 8)) (Z.shiftl c 16)) (Z.shiftl d 24) :: words p'
  | _ => []
  end.
Definition block_loop (p : bytes) (x : regs) : regs :=
  let '(mk_regs a b c d) := fold_left (apply_step (words p)) rounds x in
  mk_regs (u32 (a + ra x)) (u32 (b + rb x)) (u32 (c + rc x)) (u32 (d + rd x)).
(** The loop over the blocks of [size] bytes, and the data behind them. *)
Fixpoint body_loop (fuel : nat) (data : bytes) (size : Z) (x : regs) : out (regs * bytes) :=
  match fuel with
  | O => NoFuel
  | S f =>
      if (length data <? 64)%nat then Undef OutOfBounds
      else
        let x := block_loop (take 64 data) x in
        let size := u64 (size - 64) in
        if size =? 0 then Ok (x, drop 64 data) else body_loop f (drop 64 data) size x
  end.
Definition ngx_md5_body (ctx : ngx_md5_t) (data : bytes) (size : Z) : out (ngx_md5_t * bytes) :=
  let! (x, rest) := body_loop (S (length data)) data size (mk_regs (a ctx) (b ctx) (c ctx) (d ctx)) in
  Ok (ctx <| a := ra x |> <| b := rb x |> <| c := rc x |> <| d := rd x |>, rest).

(** [ngx_memcpy(&ctx->buffer[used], data, n)] *)
Definition fill (used : Z) (t : bytes) (ctx : ngx_md5_t) : out ngx_md5_t :=
  if blen (buffer ctx) <? used + blen t then Undef OutOfBounds
  else Ok (ctx <| buffer := take (Z.to_nat used) (buffer ctx) ++ t ++ drop (Z.to_nat used + length t) (buffer ctx) |>).

Definition ngx_md5_update (ctx : ngx_md5_t) (data : bytes) : out ngx_md5_t :=
  let size := blen data in
  let used := Z.land (nbytes ctx) 0x3f in
  let ctx := ctx <| nbytes := u64 (nbytes ctx + size) |> in
  let free := 64 - used in
  if negb (used =? 0) && (size <? free) then fill used data ctx
  else
    let! (ctx, data) :=
      if negb (used =? 0) then
        let! ctx := fill used (take (Z.to_nat free) data) ctx in
        let! (ctx, _) := ngx_md5_body ctx (buffer ctx) 64 in
        Ok (ctx, drop (Z.to_nat free) data)
      else Ok (ctx, data) in
    let size := blen data in
    let! (ctx, data) := (if 64 <=? size then ngx_md5_body ctx data (Z.land size (Z.lnot 0x3f)) else Ok (ctx, data)) in
    fill 0 data ctx.

Definition byte_of (w : Z) (i : Z) : Z := u8 (Z.shiftr w (8 * i)).
Definition le_bytes (n : nat) (w : Z) : bytes := (fun i => byte_of w (Z.of_nat i)) <$> seq 0 n.

(** The digest; the context is cleared. *)
Definition ngx_md5_final (ctx : ngx_md5_t) : out bytes :=
  let used := Z.land (nbytes ctx) 0x3f in
  let! ctx := fill used [0x80] ctx in
  let used := used + 1 in
  let free := 64 - used in
  let! (ctx, used, free) :=
    if free <? 8 then
      let! ctx := fill used (replicate (Z.to_nat free) 0) ctx in
      let! (ctx, _) := ngx_md5_body ctx (buffer ctx) 64 in
      Ok (ctx, 0, 64)
    else Ok (ctx, used, free) in
  let! ctx := fill used (replicate (Z.to_nat (free - 8)) 0) ctx in
  let ctx := ctx <| nbytes := u64 (Z.shiftl (nbytes ctx) 3) |> in
  let! ctx := fill 56 (le_bytes 8 (nbytes ctx)) ctx in
  let! (ctx, _) := ngx_md5_body ctx (buffer ctx) 64 in
  Ok (le_bytes 4 (a ctx) ++ le_bytes 4 (b ctx) ++ le_bytes 4 (c ctx) ++ le_bytes 4 (d ctx)).

(** Any number of updates. *)
Fixpoint updates (ctx : ngx_md5_t) (l : list bytes) : out ngx_md5_t :=
  match l with [] => Ok ctx | t :: l' => let! ctx := ngx_md5_update ctx t in updates ctx l' end.

End Md5.
