(* ===== verification/NgxDigestProps.v ===== *)
(** * Properties of checksums and digests

    The three ways to compute a CRC-32 agree with the division bit by bit, MD5 on
    data in pieces is the function of RFC 1321, and MurmurHash2 tells apart texts
    that differ in one of its words. *)
From stdpp Require Import list.
From Stdlib Require Import Btauto.
From S2P Require Import Prelude NgxCodec NgxDigest.
#[local] Open Scope Z_scope.

(** ** Bits *)

Ltac bitwise := apply Z.bits_inj'; intros ? ?; rewrite ?Z.lxor_spec, ?Z.land_spec, ?Z.lor_spec, ?Z.lxor_spec, ?Z.land_spec, ?Z.lor_spec.
Lemma high_bit x n i : 0 <= x < 2 ^ n -> 0 <= n <= i -> Z.testbit x i = false.
Proof. intros Hx Hi. rewrite <- (Z.mod_small x (2 ^ n)) by done. apply Z.mod_pow2_bits_high. lia. Qed.
Lemma ones_bit n i : 0 <= n -> 0 <= i -> Z.testbit (2 ^ n - 1) i = (i <? n).
Proof.
  intros Hn Hi. replace (2 ^ n - 1) with (Z.ones n) by (rewrite Z.ones_equiv; lia). destruct (Z.ltb_spec i n); [by apply Z.ones_spec_low|by apply Z.ones_spec_high].
Qed.
Lemma low_bits x n : 0 <= n -> Z.land x (2 ^ n - 1) = x mod 2 ^ n.
Proof. intros Hn. rewrite <- Z.land_ones by done. f_equal. rewrite Z.ones_equiv. lia. Qed.
Lemma split_bits x n : 0 <= n -> Z.lxor (Z.land x (2 ^ n - 1)) (Z.shiftl (Z.shiftr x n) n) = x.
Proof.
  intros Hn. bitwise. rewrite ones_bit by done. rewrite Z.shiftl_spec by done. destruct (Z.ltb_spec n0 n).
  - rewrite (Z.testbit_neg_r _ (n0 - n)) by lia. btauto.
  - rewrite Z.shiftr_spec by lia. replace (n0 - n + n) with n0 by lia. btauto.
Qed.
Lemma lxor_bound x y n : 0 <= n -> 0 <= x < 2 ^ n -> 0 <= y < 2 ^ n -> 0 <= Z.lxor x y < 2 ^ n.
Proof.
  intros Hn Hx Hy. assert (E : Z.lxor x y = Z.lxor x y mod 2 ^ n).
  { rewrite <- low_bits by done. bitwise. rewrite ones_bit by done. destruct (Z.ltb_spec n0 n); [btauto|]. rewrite (high_bit x n), (high_bit y n) by (done || lia). done. }
  rewrite E. apply Z.mod_pos_bound. lia.
Qed.

Lemma all_bytes t : forallb (fun c => (0 <=? c) && (c <=? 255)) t = true -> Forall is_byte t.
Proof. rewrite forallb_forall, Forall_forall. intros H x Hx%list_elem_of_In. apply H in Hx. apply andb_prop in Hx as [H1%Z.leb_le H2%Z.leb_le]. done. Qed.

(** ** CRC-32 *)
Module CrcFacts.
Import Crc32.

(** The division by the reversed polynomial, bit by bit. *)
Definition crc_bit (c : Z) : Z := if Z.odd c then Z.lxor (Z.shiftr c 1) 0xEDB88320 else Z.shiftr c 1.
Fixpoint crc_bits (n : nat) (c : Z) : Z := match n with O => c | S n' => crc_bits n' (crc_bit c) end.
Definition crc_byte (crc c : Z) : Z := crc_bits 8 (Z.lxor crc c).
Definition crc32 (p : bytes) : Z := Z.lxor (fold_left crc_byte p 0xffffffff) 0xffffffff.

Lemma crc_bit_lxor x y : crc_bit (Z.lxor x y) = Z.lxor (crc_bit x) (crc_bit y).
Proof.
  unfold crc_bit. rewrite <- !Z.bit0_odd, Z.lxor_spec, Z.shiftr_lxor.
  destruct (Z.testbit x 0), (Z.testbit y 0); cbn [xorb]; bitwise; btauto.
Qed.
Lemma crc_bits_lxor n : forall x y, crc_bits n (Z.lxor x y) = Z.lxor (crc_bits n x) (crc_bits n y).
Proof. induction n as [|n IH]; intros x y; [done|]. cbn [crc_bits]. by rewrite crc_bit_lxor, IH. Qed.
Lemma crc_bits_shift n : forall x, crc_bits n (Z.shiftl x (Z.of_nat n)) = x.
Proof.
  induction n as [|n IH]; intros x; [apply Z.shiftl_0_r|]. cbn [crc_bits]. unfold crc_bit.
  rewrite <- Z.bit0_odd, Z.shiftl_spec, (Z.testbit_neg_r _ (0 - _)) by lia. rewrite Z.shiftr_shiftl_l by lia. rewrite <- (IH x) at 2. do 2 f_equal. lia.
Qed.
Lemma crc_bits_split n c : crc_bits n c = Z.lxor (crc_bits n (Z.land c (2 ^ Z.of_nat n - 1))) (Z.shiftr c (Z.of_nat n)).
Proof. rewrite <- (split_bits c (Z.of_nat n)) at 1 by lia. by rewrite crc_bits_lxor, crc_bits_shift. Qed.

Lemma table_ok n (t : list Z) i : forallb (fun i => crc_bits n (Z.of_nat i) =? tbl t (Z.of_nat i)) (seq 0 (2 ^ n)) = true ->
  0 <= i < 2 ^ Z.of_nat n -> tbl t i = crc_bits n i.
Proof.
  rewrite forallb_forall. intros H Hi. specialize (H (Z.to_nat i)). rewrite Z2Nat.id in H by lia. symmetry. apply Z.eqb_eq, H, in_seq.
  assert (2 ^ Z.of_nat n = Z.of_nat (2 ^ n)) by by rewrite Nat2Z.inj_pow. lia.
Qed.
Lemma table256_ok i : 0 <= i < 256 -> tbl ngx_crc32_table256 i = crc_bits 8 i.
Proof. apply (table_ok 8). vm_compute. reflexivity. Qed.
Lemma table16_ok i : 0 <= i < 16 -> tbl ngx_crc32_table16 i = crc_bits 4 i.
Proof. apply (table_ok 4). vm_compute. reflexivity. Qed.
Lemma land_range x n : 0 <= n -> 0 <= Z.land x (2 ^ n - 1) < 2 ^ n.
Proof. intros Hn. rewrite low_bits by done. apply Z.mod_pos_bound. lia. Qed.

Lemma long_step crc c : is_byte c -> Z.lxor (tbl ngx_crc32_table256 (Z.land (Z.lxor crc c) 255)) (Z.shiftr crc 8) = crc_byte crc c.
Proof.
  intros Hc. unfold crc_byte. rewrite (crc_bits_split 8). change (Z.land (Z.lxor crc c) 255) with (Z.land (Z.lxor crc c) (2 ^ Z.of_nat 8 - 1)).
  rewrite table256_ok by exact (land_range _ 8 ltac:(lia)). f_equal. rewrite Z.shiftr_lxor. change (Z.of_nat 8) with 8.
  assert (E : Z.shiftr c 8 = 0) by (rewrite Z.shiftr_div_pow2 by lia; apply Z.div_small; unfold is_byte in Hc; lia). by rewrite E, Z.lxor_0_r.
Qed.
Lemma nibble crc c : Z.lxor (tbl ngx_crc32_table16 (Z.land (Z.lxor crc c) 15)) (Z.shiftr crc 4) = Z.lxor (crc_bits 4 (Z.lxor crc c)) (Z.shiftr c 4).
Proof.
  rewrite (crc_bits_split 4). change (Z.land (Z.lxor crc c) 15) with (Z.land (Z.lxor crc c) (2 ^ Z.of_nat 4 - 1)). rewrite table16_ok by exact (land_range _ 4 ltac:(lia)).
  rewrite Z.shiftr_lxor. change (Z.of_nat 4) with 4. bitwise. btauto.
Qed.
Lemma short_step crc c : is_byte c ->
  let crc1 := Z.lxor (tbl ngx_crc32_table16 (Z.land (Z.lxor crc (Z.land c 15)) 15)) (Z.shiftr crc 4) in
  Z.lxor (tbl ngx_crc32_table16 (Z.land (Z.lxor crc1 (Z.shiftr c 4)) 15)) (Z.shiftr crc1 4) = crc_byte crc c.
Proof.
  intros Hc crc1. assert (E1 : crc1 = crc_bits 4 (Z.lxor crc (Z.land c 15))).
  { unfold crc1. rewrite nibble. assert (E : Z.shiftr (Z.land c 15) 4 = 0) by (rewrite Z.shiftr_div_pow2 by lia; apply Z.div_small; exact (land_range c 4 ltac:(lia))). by rewrite E, Z.lxor_0_r. }
  rewrite nibble, E1. assert (E2 : Z.shiftr (Z.shiftr c 4) 4 = 0) by (rewrite Z.shiftr_shiftr, Z.shiftr_div_pow2 by lia; apply Z.div_small; unfold is_byte in Hc; lia).
  rewrite E2, Z.lxor_0_r. unfold crc_byte. change (crc_bits 8 ?x) with (crc_bits 4 (crc_bits 4 x)). f_equal.
  rewrite !crc_bits_lxor, (crc_bits_split 4 c). change (Z.land c (2 ^ Z.of_nat 4 - 1)) with (Z.land c 15). by rewrite Z.lxor_assoc.
Qed.

Lemma long_loop p : Forall is_byte p -> forall crc, ngx_crc32_update crc p = fold_left crc_byte p crc.
Proof. induction 1 as [|c p Hc _ IH]; intros crc; [done|]. cbn [ngx_crc32_update fold_left]. by rewrite long_step, IH. Qed.
Lemma short_loop_ok p : Forall is_byte p -> forall crc, short_loop crc p = fold_left crc_byte p crc.
Proof. induction 1 as [|c p Hc _ IH]; intros crc; [done|]. cbn [short_loop fold_left]. rewrite <- IH. f_equal. by apply short_step. Qed.

(** C37: the CRC with the table of 16 words, the CRC with the table of 256 words and
    the CRC of a text in pieces are the remainder that the division bit by bit
    leaves. *)
Theorem crc32_agree p pieces : Forall is_byte p -> p = concat pieces ->
  ngx_crc32_short p = crc32 p /\ ngx_crc32_long p = crc32 p /\ ngx_crc32_final (fold_left ngx_crc32_update pieces ngx_crc32_init) = crc32 p.
Proof.
  intros Hp Hc. unfold ngx_crc32_short, ngx_crc32_long, ngx_crc32_final, crc32. rewrite short_loop_ok, long_loop by done. split; [done|]. split; [done|]. f_equal.
  change ngx_crc32_init with 0xffffffff. generalize 0xffffffff. revert Hp. rewrite Hc. clear. induction pieces as [|t pieces IH]; intros Hp crc; [done|].
  cbn [concat fold_left] in *. apply Forall_app in Hp as [Ht Hp]. by rewrite fold_left_app, long_loop, IH by done.
Qed.
Lemma crc32_agree_witness : ngx_crc32_short (bs "123456789") = 0xcbf43926 /\ crc32 (bs "123456789") = 0xcbf43926.
Proof.
  assert (E : crc32 (bs "123456789") = 0xcbf43926) by (vm_compute; reflexivity). split; [|exact E]. rewrite <- E.
  apply (crc32_agree (bs "123456789") [bs "1234"; bs "56789"]); [by apply all_bytes|reflexivity].
Defined.
End CrcFacts.

(** ** Words *)

Lemma lor_shifted x y n : 0 <= n -> 0 <= x < 2 ^ n -> Z.lor x (Z.shiftl y n) = x + y * 2 ^ n.
Proof.
  intros Hn Hx. assert (E : Z.land x (Z.shiftl y n) = 0).
  { apply Z.bits_inj'; intros i Hi. rewrite Z.land_spec, Z.shiftl_spec, Z.bits_0 by done. destruct (Z.ltb_spec i n); [by rewrite (Z.testbit_neg_r y) by lia; btauto|by rewrite (high_bit x n)]. }
  rewrite <- Z.lxor_lor, <- Z.add_nocarry_lxor, Z.shiftl_mul_pow2 by done. done.
Qed.
(** Four bytes, the lowest one first. *)
Definition le32 (a b c d : Z) : Z := a + b * 256 + c * 65536 + d * 16777216.
Lemma word_le32 a b c d : is_byte a -> is_byte b -> is_byte c -> is_byte d ->
  Z.lor (Z.lor (Z.lor a (Z.shiftl b 8)) (Z.shiftl c 16)) (Z.shiftl d 24) = le32 a b c d /\ 0 <= le32 a b c d < 2 ^ 32.
Proof.
  unfold is_byte, le32. intros Ha Hb Hc Hd. change (2 ^ 32) with 4294967296.
  rewrite (lor_shifted a b 8), (lor_shifted _ c 16), (lor_shifted _ d 24) by (change (2 ^ 8) with 256; change (2 ^ 16) with 65536; change (2 ^ 24) with 16777216; lia).
  change (2 ^ 8) with 256; change (2 ^ 16) with 65536; change (2 ^ 24) with 16777216. lia.
Qed.
Lemma le32_inj a b c d a' b' c' d' : is_byte a -> is_byte b -> is_byte c -> is_byte d -> is_byte a' -> is_byte b' -> is_byte c' -> is_byte d' ->
  le32 a b c d = le32 a' b' c' d' -> [a; b; c; d] = [a'; b'; c'; d'].
Proof. unfold is_byte, le32. intros. assert (a = a' /\ b = b' /\ c = c' /\ d = d') as (-> & -> & -> & ->) by lia. done. Qed.
Definition is_word (x : Z) : Prop := 0 <= x < 2 ^ 32.
Lemma u32_word x : is_word (u32 x).
Proof. apply Z.mod_pos_bound. done. Qed.

(** ** MurmurHash2 *)
Module MurmurFacts.
Import Murmur.

(** The inverse of the multiplier. *)
Definition m_inverse : Z := 0xe59b19bd.
Lemma mul_inj x y : is_word x -> is_word y -> mul x = mul y -> x = y.
Proof.
  intros Hx Hy H. assert (K : forall z, is_word z -> u32 (mul z * m_inverse) = z).
  { intros z Hz. unfold mul, u32, uwrap. rewrite Z.mul_mod_idemp_l, <- Z.mul_assoc by done. rewrite <- Z.mul_mod_idemp_r by done. change ((m * m_inverse) mod 2 ^ 32) with 1. rewrite Z.mul_1_r. by apply Z.mod_small. }
  by rewrite <- (K x Hx), <- (K y Hy), H.
Qed.
Lemma xorshift_inj s x y : 0 < s -> is_word x -> is_word y -> Z.lxor x (Z.shiftr x s) = Z.lxor y (Z.shiftr y s) -> x = y.
Proof.
  intros Hs Hx Hy H. apply Z.lxor_eq. set (d := Z.lxor x y). assert (Hd : 0 <= d < 2 ^ 32) by (by apply lxor_bound).
  assert (E : d = Z.shiftr d s).
  { apply Z.lxor_eq. unfold d. rewrite Z.shiftr_lxor. transitivity (Z.lxor (Z.lxor x (Z.shiftr x s)) (Z.lxor y (Z.shiftr y s))); [bitwise; btauto|]. by rewrite H, Z.lxor_nilpotent. }
  rewrite Z.shiftr_div_pow2 in E by lia. assert (2 <= 2 ^ s) by (change 2 with (2 ^ 1) at 1; apply Z.pow_le_mono_r; lia).
  destruct (Z.eq_dec d 0) as [E0|E0]; [done|]. assert (d / 2 ^ s <= d / 2) by (apply Z.div_le_compat_l; lia). pose proof (Z.div_lt d 2 ltac:(lia) ltac:(lia)). lia.
Qed.
Lemma xorshift_word s x : 0 <= s -> is_word x -> is_word (Z.lxor x (Z.shiftr x s)).
Proof.
  intros Hs Hx. apply lxor_bound; [done..|]. rewrite Z.shiftr_div_pow2 by done. assert (1 <= 2 ^ s) by (pose proof (Z.pow_pos_nonneg 2 s); lia). unfold is_word in Hx.
  split; [apply Z.div_pos; lia|]. apply Z.le_lt_trans with x; [|lia]. apply Z.div_le_upper_bound; nia.
Qed.
Definition scramble (k : Z) : Z := mul (Z.lxor (mul k) (Z.shiftr (mul k) 24)).
Lemma mix_eq h k : mix h k = Z.lxor (mul h) (scramble k).
Proof. done. Qed.
Lemma scramble_inj x y : is_word x -> is_word y -> scramble x = scramble y -> x = y.
Proof.
  intros Hx Hy H. apply mul_inj in H; [|apply xorshift_word; [done|apply u32_word]..]. apply xorshift_inj in H; [by apply mul_inj|done|apply u32_word..].
Qed.
Lemma mix_word h k : is_word (mix h k).
Proof. rewrite mix_eq. apply lxor_bound; [done|apply u32_word..]. Qed.
Lemma lxor_cancel x y z : Z.lxor x y = Z.lxor x z -> y = z.
Proof. intros H. apply (f_equal (Z.lxor x)) in H. by rewrite <- !Z.lxor_assoc, !Z.lxor_nilpotent, !Z.lxor_0_l in H. Qed.
Lemma mix_inj_h h h' k : is_word h -> is_word h' -> mix h k = mix h' k -> h = h'.
Proof. intros Hh Hh'. rewrite !mix_eq, !(Z.lxor_comm _ (scramble k)). intros H%lxor_cancel. by apply mul_inj. Qed.
Lemma mix_inj_k h k k' : is_word k -> is_word k' -> mix h k = mix h k' -> k = k'.
Proof. intros Hk Hk'. rewrite !mix_eq. intros H%lxor_cancel. by apply scramble_inj. Qed.
Lemma finish_inj h h' : is_word h -> is_word h' -> finish h = finish h' -> h = h'.
Proof.
  intros Hh Hh' H. unfold finish in H. apply xorshift_inj in H; [|done|apply u32_word..]. apply mul_inj in H; [|by apply xorshift_word..]. by apply xorshift_inj in H.
Qed.
(** The bytes behind the last whole word. *)
Definition tail_word (t : bytes) : Z := le32 (nth 0 t 0) (nth 1 t 0) (nth 2 t 0) 0.
Lemma loop_tail h t : Forall is_byte t -> (0 < length t < 4)%nat -> murmur_loop h t = mul (Z.lxor h (tail_word t)) /\ is_word (tail_word t).
Proof.
  intros Ht Hl. assert (H0 : is_byte 0) by (unfold is_byte; lia).
  assert (K : forall a b c, is_byte a -> is_byte b -> is_byte c -> Z.lxor (Z.lxor (Z.lxor h (Z.shiftl c 16)) (Z.shiftl b 8)) a = Z.lxor h (le32 a b c 0) /\ is_word (le32 a b c 0)).
  { intros a b c Ha Hb Hc. destruct (word_le32 a b c 0 Ha Hb Hc H0) as (E & R). split; [|exact R]. rewrite <- E, Z.shiftl_0_l, Z.lor_0_r.
    assert (D1 : Z.land a (Z.shiftl b 8) = 0). { bitwise. rewrite Z.shiftl_spec, Z.bits_0 by done. destruct (Z.ltb_spec n 8); [rewrite (Z.testbit_neg_r b) by lia; btauto|by rewrite (high_bit a 8) by (unfold is_byte in *; lia)]. }
    rewrite <- (Z.lxor_lor a) by done.
    assert (D2 : Z.land (Z.lxor a (Z.shiftl b 8)) (Z.shiftl c 16) = 0).
    { rewrite Z.lxor_lor, (lor_shifted a b 8) by (done || unfold is_byte in *; lia). bitwise. rewrite Z.shiftl_spec, Z.bits_0 by done.
      destruct (Z.ltb_spec n 16); [rewrite (Z.testbit_neg_r c) by lia; btauto|by rewrite (high_bit _ 16) by (unfold is_byte in *; lia)]. }
    rewrite <- Z.lxor_lor by done. bitwise. btauto. }
  destruct t as [|a [|b [|c [|? ?]]]]; cbn [length] in Hl; try lia; repeat match goal with H : Forall _ (_ :: _) |- _ => apply Forall_cons_1 in H as [? ?] end; cbn [murmur_loop]; unfold tail_word; cbn [nth].
  - destruct (K a 0 0) as (E & R); [done..|]. rewrite !Z.shiftl_0_l, !Z.lxor_0_r in E. by rewrite E.
  - destruct (K a b 0) as (E & R); [done..|]. rewrite !Z.shiftl_0_l, !Z.lxor_0_r in E. by rewrite E.
  - destruct (K a b c) as (E & R); [done..|]. by rewrite E.
Qed.
Lemma word_bytes a b c d : Forall is_byte [a; b; c; d] -> word a b c d = le32 a b c d /\ is_word (le32 a b c d).
Proof.
  intros H. repeat match goal with H : Forall _ (_ :: _) |- _ => apply Forall_cons_1 in H as [? ?] end.
  destruct (word_le32 a b c d) as (E & R); [done..|]. split; [|exact R]. unfold word. rewrite E. by apply u32_small.
Qed.
(** Four bytes at a time. *)
Lemma words_ind (P : bytes -> Prop) : (forall t, (length t < 4)%nat -> P t) -> (forall a b c d t, P t -> P (a :: b :: c :: d :: t)) -> forall t, P t.
Proof.
  intros H0 H4 t. assert (G : forall n t, (length t < n)%nat -> P t); [|apply (G (S (length t))); lia].
  induction n as [|n IH]; intros u Hu; [lia|]. destruct u as [|a [|b [|c [|d u]]]]; try (apply H0; cbn; lia). apply H4, IH. cbn in Hu. lia.
Qed.
Lemma loop_word t : Forall is_byte t -> forall h, is_word h -> is_word (murmur_loop h t).
Proof.
  induction t as [t Hl|a b c d t IH] using words_ind; intros Ht h Hh.
  - destruct (decide (t = [])) as [->|Hn]; [done|]. destruct (loop_tail h t Ht) as (-> & _); [destruct t; [done|cbn in *; lia]|]. apply u32_word.
  - cbn [murmur_loop]. apply IH; [|apply mix_word]. by do 4 apply Forall_cons_1 in Ht as [_ Ht].
Qed.
Lemma loop_inj t : Forall is_byte t -> forall h h', is_word h -> is_word h' -> murmur_loop h t = murmur_loop h' t -> h = h'.
Proof.
  induction t as [t Hl|a b c d t IH] using words_ind; intros Ht h h' Hh Hh' E.
  - destruct (decide (t = [])) as [->|Hn]; [done|]. assert (0 < length t < 4)%nat by (destruct t; [done|cbn in *; lia]).
    rewrite !(proj1 (loop_tail _ t Ht ltac:(lia))) in E. destruct (loop_tail h t Ht) as (_ & R); [lia|]. apply mul_inj in E; [|by apply lxor_bound..].
    rewrite !(Z.lxor_comm _ (tail_word t)) in E. by apply lxor_cancel in E.
  - cbn [murmur_loop] in E. apply IH in E; [|by do 4 apply Forall_cons_1 in Ht as [_ Ht]|apply mix_word..]. by apply mix_inj_h in E.
Qed.
Lemma loop_prefix p : (exists n, length p = 4 * n)%nat -> Forall is_byte p -> forall h, is_word h -> exists h', is_word h' /\ forall t, murmur_loop h (p ++ t) = murmur_loop h' t.
Proof.
  induction p as [p Hl|a b c d p IH] using words_ind; intros [n Hn] Hp h Hh.
  - assert (p = []) as -> by (destruct p; [done|cbn in *; lia]). by exists h.
  - do 4 apply Forall_cons_1 in Hp as [_ Hp]. destruct (IH ltac:(exists (n - 1)%nat; cbn in Hn; lia) Hp (mix h (word a b c d))) as (h' & Hw & E); [apply mix_word|]. by exists h'.
Qed.

(** two texts of the same length that differ in one of the words that the hash reads,
    or in the bytes behind the last one, have different hashes. *)
Theorem murmur_tells_words p w w' q : Forall is_byte p -> Forall is_byte w -> Forall is_byte w' -> Forall is_byte q ->
  (exists n, length p = 4 * n)%nat -> length w = length w' -> length w = 4%nat \/ (length w < 4)%nat /\ q = [] ->
  w <> w' -> ngx_murmur_hash2 (p ++ w ++ q) <> ngx_murmur_hash2 (p ++ w' ++ q).
Proof.
  intros Hp Hw Hw' Hq Hn Hl Hc Hne E. apply Hne. unfold ngx_murmur_hash2 in E.
  assert (El : blen (p ++ w' ++ q) = blen (p ++ w ++ q)) by (unfold blen; rewrite !length_app, Hl; done). rewrite El in E.
  destruct (loop_prefix p Hn Hp (u32 (blen (p ++ w ++ q))) (u32_word _)) as (h & Hh & Ep). rewrite !Ep in E.
  assert (Hwq : Forall is_byte (w ++ q) /\ Forall is_byte (w' ++ q)) by (split; by apply Forall_app). destruct Hwq.
  apply finish_inj in E; [|by apply loop_word..]. destruct Hc as [Hc|(Hc & ->)].
  - destruct w as [|a [|b [|c [|d [|? ?]]]]]; try discriminate Hc. destruct w' as [|a' [|b' [|c' [|d' [|? ?]]]]]; try discriminate Hl.
    cbn [app murmur_loop] in E. apply loop_inj in E; [|done|apply mix_word..]. destruct (word_bytes a b c d Hw) as (Ew & R), (word_bytes a' b' c' d' Hw') as (Ew' & R'). rewrite Ew, Ew' in E.
    apply mix_inj_k in E; [|done..]. repeat match goal with H : Forall _ (_ :: _) |- _ => apply Forall_cons_1 in H as [? ?] end. by apply le32_inj in E.
  - rewrite !app_nil_r in E. destruct (decide (w = [])) as [->|Hwn]; [by destruct w'|].
    assert (0 < length w)%nat by (destruct w; [done|cbn; lia]). destruct (loop_tail h w Hw) as (E1 & R); [lia|]. destruct (loop_tail h w' Hw') as (E2 & R'); [lia|].
    rewrite E1, E2 in E. apply mul_inj in E; [|by apply lxor_bound..]. apply lxor_cancel in E. unfold tail_word in E.
    assert (Hz : is_byte 0) by (unfold is_byte; lia).
    assert (Hnth : forall t i, Forall is_byte t -> is_byte (nth i t 0)).
    { intros t i Ht. destruct (nth_in_or_default i t 0) as [Hi| ->]; [|done]. rewrite Forall_forall in Ht. apply Ht. by apply list_elem_of_In. }
    apply le32_inj in E; [|by auto..]. destruct w as [|a [|b [|c [|? ?]]]], w' as [|a' [|b' [|c' [|? ?]]]]; cbn [length nth] in *; try lia; congruence.
Qed.
Lemma murmur_tells_words_witness : ngx_murmur_hash2 (bs "user" ++ bs "1234" ++ bs "x") <> ngx_murmur_hash2 (bs "user" ++ bs "1235" ++ bs "x").
Proof.
  apply murmur_tells_words; [by apply all_bytes..|by exists 1%nat|done|by left|done].
Defined.
End MurmurFacts.

(** ** MD5: RFC 1321 *)
Module Rfc1321.
Import Md5.

Definition not32 (x : Z) : Z := Z.lxor x 0xffffffff.
Definition F (x y z : Z) : Z := Z.lor (Z.land x y) (Z.land (not32 x) z).
Definition G (x y z : Z) : Z := Z.lor (Z.land x z) (Z.land y (not32 z)).
Definition H (x y z : Z) : Z := Z.lxor (Z.lxor x y) z.
Definition I (x y z : Z) : Z := Z.lxor y (Z.lor x (not32 z)).
(** The integer part of 4294967296 times abs(sin(i + 1)). *)
Definition T : list Z :=
  [
   0xd76aa478; 0xe8c7b756; 0x242070db; 0xc1bdceee; 0xf57c0faf; 0x4787c62a; 0xa8304613; 0xfd469501;
   0x698098d8; 0x8b44f7af; 0xffff5bb1; 0x895cd7be; 0x6b901122; 0xfd987193; 0xa679438e; 0x49b40821;
   0xf61e2562; 0xc040b340; 0x265e5a51; 0xe9b6c7aa; 0xd62f105d; 0x02441453; 0xd8a1e681; 0xe7d3fbc8;
   0x21e1cde6; 0xc33707d6; 0xf4d50d87; 0x455a14ed; 0xa9e3e905; 0xfcefa3f8; 0x676f02d9; 0x8d2a4c8a;
   0xfffa3942; 0x8771f681; 0x6d9d6122; 0xfde5380c; 0xa4beea44; 0x4bdecfa9; 0xf6bb4b60; 0xbebfbc70;
   0x289b7ec6; 0xeaa127fa; 0xd4ef3085; 0x04881d05; 0xd9d4d039; 0xe6db99e5; 0x1fa27cf8; 0xc4ac5665;
   0xf4292244; 0x432aff97; 0xab9423a7; 0xfc93a039; 0x655b59c3; 0x8f0ccc92; 0xffeff47d; 0x85845dd1;
   0x6fa87e4f; 0xfe2ce6e0; 0xa3014314; 0x4e0811a1; 0xf7537e82; 0xbd3af235; 0x2ad7d2bb; 0xeb86d391
  ].
Definition function (i : nat) : Z -> Z -> Z -> Z := if (i <? 16)%nat then F else if (i <? 32)%nat then G else if (i <? 48)%nat then H else I.
Definition index (i : nat) : nat :=
  (if i <? 16 then i else if i <? 32 then (5 * i + 1) mod 16 else if i <? 48 then (3 * i + 5) mod 16 else (7 * i) mod 16)%nat.
Definition shift (i : nat) : Z :=
  let row := if (i <? 16)%nat then [7; 12; 17; 22] else if (i <? 32)%nat then [5; 9; 14; 20] else if (i <? 48)%nat then [4; 11; 16; 23] else [6; 10; 15; 21] in
  nth (i mod 4) row 0.
Definition rotate (x s : Z) : Z := u32 (Z.lor (Z.shiftl x s) (Z.shiftr x (32 - s))).
Definition operation (X : list Z) (x : regs) (i : nat) : regs :=
  let '(mk_regs a b c d) := x in
  mk_regs d (u32 (b + rotate (u32 (a + function i b c d + default 0 (X !! index i) + nth i T 0)) (shift i))) b c.
(** The words of a block, the lowest byte first. *)
Fixpoint block_words (p : bytes) : list Z := match p with a :: b :: c :: d :: p' => le32 a b c d :: block_words p' | _ => [] end.
Definition compress (x : regs) (p : bytes) : regs :=
  let y := fold_left (operation (block_words p)) (seq 0 64) x in
  mk_regs (u32 (ra x + ra y)) (u32 (rb x + rb y)) (u32 (rc x + rc y)) (u32 (rd x + rd y)).
Definition start : regs := mk_regs 0x67452301 0xefcdab89 0x98badcfe 0x10325476.
Fixpoint hash_blocks (n : nat) (x : regs) (p : bytes) : regs := match n with O => x | S n' => hash_blocks n' (compress x (take 64 p)) (drop 64 p) end.
(** One bit, zeros up to eight bytes less than a multiple of 64, the length in bits. *)
Definition zeros (n : nat) : nat := Z.to_nat ((55 - Z.of_nat n) mod 64).
Definition padded (msg : bytes) : bytes := msg ++ 0x80 :: replicate (zeros (length msg)) 0 ++ le_bytes 8 (8 * blen msg mod 2 ^ 64).
Definition md5 (msg : bytes) : bytes :=
  let x := hash_blocks (length (padded msg) / 64) start (padded msg) in
  le_bytes 4 (ra x) ++ le_bytes 4 (rb x) ++ le_bytes 4 (rc x) ++ le_bytes 4 (rd x).

Example md5_abc : ngx_hex_dump (md5 (bs "abc")) = bs "900150983cd24fb0d6963f7d28e17f72" /\ ngx_hex_dump (md5 []) = bs "d41d8cd98f00b204e9800998ecf8427e".
Proof. vm_compute. done. Qed.
End Rfc1321.

Module Md5Facts.
Import Md5 Rfc1321.

(** *** One block *)

Ltac word_bits := apply Z.bits_inj'; intros n Hn; rewrite ?Z.lxor_spec, ?Z.land_spec, ?Z.lor_spec, ?Z.lxor_spec, ?Z.land_spec, ?Z.lxor_spec.
Lemma ones32 n : 0 <= n -> Z.testbit 0xffffffff n = (n <? 32).
Proof. exact (ones_bit 32 n ltac:(lia)). Qed.
Lemma word_high x n : is_word x -> 32 <= n -> Z.testbit x n = false.
Proof. intros Hx Hn. apply (high_bit x 32); [exact Hx|lia]. Qed.
Lemma F_ok x y z : is_word x -> is_word y -> is_word z -> fF x y z = F x y z.
Proof. intros Hx Hy Hz. unfold fF, F, not32. word_bits. rewrite ones32 by done. destruct (Z.ltb_spec n 32); [btauto|]. rewrite !word_high by done. btauto. Qed.
Lemma G_ok x y z : is_word x -> is_word y -> is_word z -> fG x y z = G x y z.
Proof. intros Hx Hy Hz. unfold fG, G, not32. word_bits. rewrite ones32 by done. destruct (Z.ltb_spec n 32); [btauto|]. rewrite !word_high by done. btauto. Qed.
Definition same_function (f g : Z -> Z -> Z -> Z) : Prop := forall x y z, is_word x -> is_word y -> is_word z -> f x y z = g x y z.
Definition words_in (x : regs) : Prop := is_word (ra x) /\ is_word (rb x) /\ is_word (rc x) /\ is_word (rd x).

(** The registers in the order in which step [i] takes them. *)
Definition target_of (i : nat) : target := match (i mod 4)%nat with 0%nat => rA | 1%nat => rD | 2%nat => rC | _ => rB end.
Definition view (i : nat) (x : regs) : regs :=
  let '(mk_regs a b c d) := x in
  match target_of i with rA => x | rD => mk_regs d a b c | rC => mk_regs c d a b | rB => mk_regs b c d a end.
Lemma md5_step_ok f g a b c d w k s : same_function f g -> is_word a -> is_word b -> is_word c -> is_word d ->
  step f a b c d w k s = u32 (b + rotate (u32 (a + g b c d + w + k)) s).
Proof.
  intros Hf Ha Hb Hc Hd. unfold step, rotate. rewrite Hf by done. replace (a + (g b c d + w + k)) with (a + g b c d + w + k) by lia.
  change 0xffffffff with (2 ^ 32 - 1). rewrite (low_bits (u32 _) 32) by lia. rewrite (Z.mod_small (u32 _)) by apply u32_word. f_equal. lia.
Qed.
Lemma apply_step_view X i f k n s x : same_function f (function i) -> n = index i -> k = nth i T 0 -> s = shift i -> words_in x ->
  view (S i) (apply_step X x (f, target_of i, n, k, s)) = operation X (view i x) i /\ words_in (apply_step X x (f, target_of i, n, k, s)).
Proof.
  intros Hf -> -> -> (Ha & Hb & Hc & Hd). destruct x as [a b c d]. cbn [ra rb rc rd] in *. unfold view.
  assert (Ht : target_of (S i) = match target_of i with rA => rD | rD => rC | rC => rB | rB => rA end).
  { unfold target_of. pose proof (Nat.mod_upper_bound i 4 ltac:(lia)). assert (E : (S i mod 4 = (i mod 4 + 1) mod 4)%nat) by (rewrite <- Nat.add_1_r, Nat.Div0.add_mod; done).
    rewrite E. destruct (i mod 4)%nat as [|[|[|[|]]]]; try lia; done. }
  rewrite Ht. unfold apply_step. destruct (target_of i); cbn [operation]; rewrite (md5_step_ok f (function i)) by done; (split; [done|]); refine (conj _ (conj _ (conj _ _))); cbn [ra rb rc rd]; first [done|apply u32_word].
Qed.
Definition code_function (i : nat) : Z -> Z -> Z -> Z := if (i <? 16)%nat then fF else if (i <? 32)%nat then fG else if (i <? 48)%nat then fH else fI.
Lemma rounds_listed : rounds = (fun i => (code_function i, target_of i, index i, nth i T 0, shift i)) <$> seq 0 64.
Proof. reflexivity. Qed.
Lemma code_function_ok i : same_function (code_function i) (function i).
Proof. intros x y z Hx Hy Hz. unfold code_function, function. repeat case_match; [by apply F_ok|by apply G_ok|done|done]. Qed.
Lemma rounds_view X l : forall i x, l = seq i (length l) -> words_in x ->
  let y := fold_left (apply_step X) ((fun i => (code_function i, target_of i, index i, nth i T 0, shift i)) <$> l) x in
  view (i + length l) y = fold_left (operation X) l (view i x) /\ words_in y.
Proof.
  induction l as [|j l IH]; intros i x Hl Hx; [cbn; by rewrite Nat.add_0_r|]. cbn [length seq] in Hl. injection Hl as -> Hl.
  cbn [fmap list_fmap fold_left length]. destruct (apply_step_view X i (code_function i) (nth i T 0) (index i) (shift i) x) as (E & Hw); [apply code_function_ok|done..|].
  rewrite <- E. replace (i + S (length l))%nat with (S i + length l)%nat by lia. by apply IH.
Qed.
Lemma words_listed p : Forall is_byte p -> words p = block_words p.
Proof.
  induction p as [p Hl|a b c d p IH] using MurmurFacts.words_ind; intros Hp; [by destruct p as [|? [|? [|? [|? ?]]]]; cbn in Hl; try lia|].
  cbn [words block_words]. do 4 (apply Forall_cons_1 in Hp as [? Hp]). by rewrite (proj1 (word_le32 a b c d ltac:(done) ltac:(done) ltac:(done) ltac:(done))), IH.
Qed.
Lemma block_ok p x : Forall is_byte p -> words_in x -> block_loop p x = compress x p /\ words_in (compress x p).
Proof.
  intros Hp Hx. unfold block_loop, compress. rewrite words_listed by done. rewrite rounds_listed.
  destruct (rounds_view (block_words p) (seq 0 64) 0 x eq_refl Hx) as (E & Hw). cbv zeta in E. rewrite length_seq in E.
  set (y := fold_left (apply_step _) _ x) in *. change (view (0 + 64) y) with (view 0 y) in E. change (view 0 x) with (let '(mk_regs a b c d) := x in x) in E.
  assert (Ey : view 0 y = y) by by destruct y. assert (Exx : (let '(mk_regs a b c d) := x in x) = x) by by destruct x. rewrite Ey, Exx in E. rewrite <- E. clearbody y. destruct y as [a b c d]. cbn [ra rb rc rd].
  split; [|refine (conj _ (conj _ (conj _ _))); apply u32_word]. f_equal; f_equal; lia.
Qed.

(** *** Many blocks *)

Lemma hash_blocks_add n : forall k x p, hash_blocks (n + k) x p = hash_blocks k (hash_blocks n x p) (drop (64 * n) p).
Proof. induction n as [|n IH]; intros k x p; [done|]. cbn [Nat.add hash_blocks]. rewrite IH, drop_drop. do 2 f_equal. lia. Qed.
Lemma hash_blocks_app n : forall x p q, (64 * n <= length p)%nat -> hash_blocks n x (p ++ q) = hash_blocks n x p.
Proof.
  induction n as [|n IH]; intros x p q Hl; [done|]. cbn [hash_blocks]. rewrite take_app_le, drop_app_le by lia. apply IH. rewrite length_drop. lia.
Qed.
Lemma hash_blocks_words n : forall x p, Forall is_byte p -> words_in x -> words_in (hash_blocks n x p).
Proof. induction n as [|n IH]; intros x p Hp Hx; [done|]. cbn [hash_blocks]. apply IH; [by apply Forall_drop|]. apply block_ok; [by apply Forall_take|done]. Qed.

Lemma body_loop_ok n : forall fuel p x, (0 < n <= fuel)%nat -> (64 * n <= length p)%nat -> 64 * Z.of_nat n < 2 ^ 64 -> Forall is_byte p -> words_in x ->
  body_loop fuel p (64 * Z.of_nat n) x = Ok (hash_blocks n x p, drop (64 * n) p).
Proof.
  induction n as [|n IH]; intros fuel p x Hf Hl Hs Hp Hx; [lia|]. destruct fuel as [|fuel]; [lia|]. cbn [body_loop]. rewrite (proj2 (Nat.ltb_ge _ _)) by lia.
  destruct (block_ok (take 64 p) x) as (E & Hw); [by apply Forall_take|done|]. rewrite E.
  assert (Es : u64 (64 * Z.of_nat (S n) - 64) = 64 * Z.of_nat n) by (unfold u64; rewrite uwrap_small by lia; lia). rewrite Es.
  destruct (Z.eqb_spec (64 * Z.of_nat n) 0) as [E0|E0]; [assert (n = 0)%nat as -> by lia; done|]. rewrite IH; [|lia|rewrite length_drop; lia|lia|by apply Forall_drop|done].
  cbn [hash_blocks]. rewrite drop_drop. do 3 f_equal. lia.
Qed.

(** *** The context *)

Definition regs_of (ctx : ngx_md5_t) : regs := mk_regs (a ctx) (b ctx) (c ctx) (d ctx).
(** The context has taken [D]. *)
Definition holds (ctx : ngx_md5_t) (D : bytes) : Prop :=
  length (buffer ctx) = 64%nat /\ nbytes ctx = u64 (blen D) /\ regs_of ctx = hash_blocks (length D / 64) start D /\
  take (length D mod 64) (buffer ctx) = drop (64 * (length D / 64)) D.

Lemma fill_ok n t ctx : length (buffer ctx) = 64%nat -> (n + length t <= 64)%nat ->
  fill (Z.of_nat n) t ctx = Ok (ctx <| buffer := take n (buffer ctx) ++ t ++ drop (n + length t) (buffer ctx) |>).
Proof. intros Hb Hn. unfold fill, blen. rewrite Hb, (proj2 (Z.ltb_ge _ _)) by lia. by rewrite Nat2Z.id. Qed.
Lemma body_ok n ctx p : (0 < n)%nat -> (64 * n <= length p)%nat -> 64 * Z.of_nat n < 2 ^ 64 -> Forall is_byte p -> words_in (regs_of ctx) ->
  exists ctx', ngx_md5_body ctx p (64 * Z.of_nat n) = Ok (ctx', drop (64 * n) p) /\ regs_of ctx' = hash_blocks n (regs_of ctx) p /\ buffer ctx' = buffer ctx /\ nbytes ctx' = nbytes ctx.
Proof.
  intros Hn Hl Hs Hp Hx. unfold ngx_md5_body. rewrite (body_loop_ok n) by (done || lia). rewrite obind_Ok. eexists. split; [reflexivity|].
  fold (regs_of ctx). split; [|done]. by destruct (hash_blocks n (regs_of ctx) p).
Qed.
Lemma used_ok n : Z.land (u64 (Z.of_nat n)) 0x3f = Z.of_nat (n mod 64).
Proof.
  change 0x3f with (2 ^ 6 - 1). rewrite low_bits by lia. unfold u64, uwrap. rewrite Nat2Z.inj_mod. change (2 ^ 64) with (2 ^ 6 * 2 ^ 58).
  rewrite Z.rem_mul_r, Z.mul_comm, Z.mod_add, Z.mod_mod by lia. done.
Qed.
Lemma whole_ok n : Z.land (Z.of_nat n) (Z.lnot 0x3f) = 64 * Z.of_nat (n / 64).
Proof. rewrite <- Z.ldiff_land. change 0x3f with (Z.ones 6). rewrite Z.ldiff_ones_r, Z.shiftl_mul_pow2, Z.shiftr_div_pow2 by lia. change (2 ^ 6) with (Z.of_nat 64). rewrite <- Nat2Z.inj_div. lia. Qed.
Lemma start_words : words_in start.
Proof. refine (conj _ (conj _ (conj _ _))); vm_compute; split; (discriminate || reflexivity). Qed.
Lemma add_blocks n D t : length D = (64 * n)%nat -> hash_blocks (length (D ++ t) / 64) start (D ++ t) = hash_blocks (length t / 64) (hash_blocks n start D) t /\
  (length (D ++ t) mod 64)%nat = (length t mod 64)%nat /\ drop (64 * (length (D ++ t) / 64)) (D ++ t) = drop (64 * (length t / 64)) t.
Proof.
  intros Hl. rewrite length_app, Hl. assert (E : ((64 * n + length t) / 64 = n + length t / 64)%nat) by (rewrite Nat.mul_comm, Nat.div_add_l; lia). rewrite E.
  split; [|split].
  - rewrite hash_blocks_add, hash_blocks_app by lia. by rewrite drop_app_le, drop_ge by lia.
  - rewrite Nat.mul_comm, Nat.add_comm. apply Nat.Div0.mod_add.
  - rewrite Nat.mul_add_distr_l, <- drop_drop, drop_app_le by lia. by rewrite (drop_ge D) by lia.
Qed.

Lemma update_rest ctx D t n : length D = (64 * n)%nat -> length (buffer ctx) = 64%nat -> Forall is_byte D -> Forall is_byte t -> blen t < 2 ^ 64 ->
  regs_of ctx = hash_blocks n start D ->
  exists ctx', (let! (ctx, data) := (if 64 <=? blen t then ngx_md5_body ctx t (Z.land (blen t) (Z.lnot 0x3f)) else Ok (ctx, t)) in fill 0 data ctx) = Ok ctx' /\
    nbytes ctx' = nbytes ctx /\ length (buffer ctx') = 64%nat /\ regs_of ctx' = hash_blocks (length (D ++ t) / 64) start (D ++ t) /\
    take (length (D ++ t) mod 64) (buffer ctx') = drop (64 * (length (D ++ t) / 64)) (D ++ t).
Proof.
  intros Hl Hb HD Ht Hs Hr. destruct (add_blocks n D t Hl) as (-> & -> & ->). rewrite <- Hr.
  assert (H : exists c1, (if 64 <=? blen t then ngx_md5_body ctx t (Z.land (blen t) (Z.lnot 0x3f)) else Ok (ctx, t)) = Ok (c1, drop (64 * (length t / 64)) t) /\
    regs_of c1 = hash_blocks (length t / 64) (regs_of ctx) t /\ buffer c1 = buffer ctx /\ nbytes c1 = nbytes ctx).
  { destruct (Z.leb_spec 64 (blen t)) as [H|H]; unfold blen in *.
    - rewrite whole_ok. pose proof (Nat.div_mod_eq (length t) 64). pose proof (Nat.mod_upper_bound (length t) 64 ltac:(lia)). apply body_ok; [lia|lia|lia|done|]. rewrite Hr. apply hash_blocks_words; [done|apply start_words].
    - exists ctx. assert (E : (length t / 64 = 0)%nat) by (apply Nat.div_small; lia). rewrite E. done. }
  destruct H as (c1 & -> & E1 & E2 & E3). rewrite obind_Ok. assert (El : length (drop (64 * (length t / 64)) t) = (length t mod 64)%nat) by (rewrite length_drop; pose proof (Nat.div_mod_eq (length t) 64); lia).
  pose proof (Nat.mod_upper_bound (length t) 64 ltac:(lia)). rewrite (fill_ok 0) by (rewrite ?El, ?E2; lia). eexists. split; [reflexivity|]. split; [done|].
  set (v := take 0 (buffer c1) ++ _). split; [|split; [exact E1|]].
  - change (length v = 64%nat). unfold v. rewrite take_0. cbn [app]. rewrite length_app, El, length_drop, E2, Hb, ?El. lia.
  - change (take (length t mod 64) v = drop (64 * (length t / 64)) t). unfold v. rewrite take_0. cbn [app]. rewrite <- El at 1. apply take_app_length.
Qed.

Lemma block_words_of ctx D : Forall is_byte D -> holds ctx D -> words_in (regs_of ctx).
Proof. intros HD (_ & _ & E & _). rewrite E. apply hash_blocks_words; [done|apply start_words]. Qed.
(** The rest of a block in the buffer is completed. *)
Lemma complete_block ctx D t : holds ctx D -> Forall is_byte D -> Forall is_byte t -> (length D mod 64 + length t = 64)%nat ->
  exists c1 c2, fill (Z.of_nat (length D mod 64)) t ctx = Ok c1 /\ ngx_md5_body c1 (buffer c1) 64 = Ok (c2, []) /\
    nbytes c1 = nbytes ctx /\ nbytes c2 = nbytes ctx /\ length (buffer c2) = 64%nat /\ length (D ++ t) = (64 * (length D / 64 + 1))%nat /\
    regs_of c2 = hash_blocks (length D / 64 + 1) start (D ++ t).
Proof.
  intros Hh HD Ht Hl. pose proof (block_words_of _ _ HD Hh) as Hw. destruct Hh as (Hb & Hn & Hr & Hp). pose proof (Nat.div_mod_eq (length D) 64).
  rewrite fill_ok by lia. eexists. set (c1 := ctx <| buffer := _ |>).
  assert (Eb : buffer c1 = drop (64 * (length D / 64)) D ++ t).
  { change (buffer c1) with (take (length D mod 64) (buffer ctx) ++ t ++ drop (length D mod 64 + length t) (buffer ctx)). rewrite Hp, (drop_ge (buffer ctx)), app_nil_r by lia. done. }
  assert (Lb : length (buffer c1) = 64%nat) by (rewrite Eb, length_app, length_drop; lia).
  destruct (body_ok 1 c1 (buffer c1)) as (c2 & E & E1 & E2 & E3); [lia|lia|done|rewrite Eb; by apply Forall_app_2; [apply Forall_drop|]|exact Hw|].
  exists c2. split; [done|]. rewrite drop_ge in E by lia. split; [exact E|]. split; [done|]. split; [done|]. split; [by rewrite E2|]. split; [rewrite length_app; lia|].
  rewrite E1. change (regs_of c1) with (regs_of ctx). rewrite Hr, hash_blocks_add, hash_blocks_app by lia. by rewrite drop_app_le, Eb by lia.
Qed.

Lemma update_holds ctx D t : holds ctx D -> Forall is_byte D -> Forall is_byte t -> blen t < 2 ^ 64 -> exists ctx', ngx_md5_update ctx t = Ok ctx' /\ holds ctx' (D ++ t).
Proof.
  intros Hh HD Ht Hs. pose proof Hh as (Hb & Hn & Hr & Hp). unfold ngx_md5_update. rewrite Hn.
  assert (Eu : Z.land (u64 (blen D)) 0x3f = Z.of_nat (length D mod 64)) by apply used_ok. rewrite Eu. clear Eu. set (u := (length D mod 64)%nat). set (ctx0 := ctx <| nbytes := u64 (u64 (blen D) + blen t) |>). pose proof (Nat.mod_upper_bound (length D) 64 ltac:(lia)) as Hu. fold u in Hu.
  assert (En : nbytes ctx0 = u64 (blen (D ++ t))).
  { change (nbytes ctx0) with (u64 (u64 (blen D) + blen t)). unfold u64, uwrap. rewrite Z.add_mod_idemp_l by done. f_equal. unfold blen. rewrite length_app. lia. }
  pose proof (Nat.div_mod_eq (length D) 64) as Hd. fold u in Hd.
  destruct (Z.eqb_spec (Z.of_nat u) 0) as [E0|E0]; cbn [negb andb].
  - rewrite obind_Ok. destruct (update_rest ctx0 D t (length D / 64)) as (ctx' & E & E1 & E2 & E3 & E4); [lia|done..|]. exists ctx'. split; [exact E|]. split; [done|]. split; [by rewrite E1|]. by split.
  - destruct (Z.ltb_spec (blen t) (64 - Z.of_nat u)) as [Hlt|Hge]; cbn [negb].
    + unfold blen in Hlt. rewrite (fill_ok u t ctx0) by (done || lia). eexists. split; [reflexivity|]. set (v := take u (buffer ctx0) ++ _).
      assert (Ek : ((length D + length t) / 64 = length D / 64)%nat) by (symmetry; apply Nat.div_unique with (u + length t)%nat; lia).
      assert (Em : ((length D + length t) mod 64 = u + length t)%nat) by (symmetry; apply Nat.mod_unique with (length D / 64)%nat; lia).
      split; [change (length v = 64%nat); unfold v; rewrite !length_app, length_take, length_drop; change (buffer ctx0) with (buffer ctx); lia|]. split; [exact En|]. rewrite length_app, Ek, Em. split.
      * change (regs_of ctx = hash_blocks (length D / 64) start (D ++ t)). by rewrite hash_blocks_app by lia.
      * change (take (u + length t) v = drop (64 * (length D / 64)) (D ++ t)). unfold v. change (buffer ctx0) with (buffer ctx). rewrite drop_app_le, <- Hp by lia. fold u. rewrite app_assoc.
        assert (El : (u + length t = length (take u (buffer ctx) ++ t))%nat) by (rewrite length_app, length_take; lia). rewrite El. apply take_app_length.
    + set (t1 := take _ t). assert (Hge' : (64 - u <= length t)%nat) by (unfold blen in Hge; lia).
      assert (Ef : Z.to_nat (64 - Z.of_nat u) = (64 - u)%nat) by lia. unfold t1. rewrite Ef. clear t1. set (t1 := take (64 - u) t). set (t2 := drop (64 - u) t).
      assert (Ht12 : t = t1 ++ t2) by (symmetry; apply take_drop). assert (Forall is_byte t1 /\ Forall is_byte t2) as (Hb1 & Hb2) by (apply Forall_app; by rewrite <- Ht12).
      assert (Hl1 : length t1 = (64 - u)%nat) by (unfold t1; rewrite length_take; lia).
      destruct (complete_block ctx D t1 Hh HD Hb1) as (c1 & c2 & E1 & E2 & N1 & N2 & L2 & LD & R2); [fold u; lia|].
      assert (Hf0 : fill (Z.of_nat u) t1 ctx0 = Ok (c1 <| nbytes := nbytes ctx0 |>)).
      { revert E1. unfold fill. change (buffer ctx0) with (buffer ctx). fold u. destruct (_ <? _); [done|]. by intros [= <-]. }
      rewrite Hf0, !obind_Ok. change (buffer (c1 <| nbytes := ?x |>)) with (buffer c1).
      assert (Hb0 : ngx_md5_body (c1 <| nbytes := nbytes ctx0 |>) (buffer c1) 64 = Ok (c2 <| nbytes := nbytes ctx0 |>, [])).
      { revert E2. unfold ngx_md5_body. change (a (c1 <| nbytes := ?x |>)) with (a c1). change (b (c1 <| nbytes := ?x |>)) with (b c1). change (c (c1 <| nbytes := ?x |>)) with (c c1). change (d (c1 <| nbytes := ?x |>)) with (d c1).
        destruct (body_loop _ _ _ _) as [[x rest]| |]; cbn [obind]; [|done..]. by intros [= <- ->]. }
      rewrite Hb0, !obind_Ok. destruct (update_rest (c2 <| nbytes := nbytes ctx0 |>) (D ++ t1) t2 (length D / 64 + 1)) as (ctx' & E & F1 & F2 & F3 & F4);
        [done|exact L2|by apply Forall_app_2|done|unfold blen, t2 in *; rewrite length_drop; lia|exact R2|]. exists ctx'. split; [exact E|]. rewrite <- app_assoc, <- Ht12 in F3, F4.
      split; [done|]. split; [rewrite F1; exact En|]. by split.
Qed.

(** *** The end *)

Lemma zeros_bytes n : Forall is_byte (replicate n 0).
Proof. apply Forall_replicate. unfold is_byte. lia. Qed.
Lemma le_bytes_bytes n w : Forall is_byte (le_bytes n w).
Proof. unfold le_bytes. apply Forall_fmap, Forall_true. intros i. unfold compose, is_byte, byte_of, u8. pose proof (Z.mod_pos_bound (Z.shiftr w (8 * Z.of_nat i)) 256 ltac:(lia)). lia. Qed.
Lemma bits_ok n : u64 (Z.shiftl (u64 n) 3) = (8 * n) mod 2 ^ 64.
Proof. rewrite Z.shiftl_mul_pow2 by lia. unfold u64, uwrap. rewrite Z.mul_mod_idemp_l by done. f_equal. change (2 ^ 3) with 8. lia. Qed.
Lemma fill_at n t ctx v : length (buffer ctx) = 64%nat -> (n + length t <= 64)%nat -> take n (buffer ctx) = v ->
  exists ctx', fill (Z.of_nat n) t ctx = Ok ctx' /\ length (buffer ctx') = 64%nat /\ take (n + length t) (buffer ctx') = v ++ t /\ regs_of ctx' = regs_of ctx /\ nbytes ctx' = nbytes ctx.
Proof.
  intros Hb Hn Hv. rewrite fill_ok by done. eexists. split; [reflexivity|]. set (w := take n (buffer ctx) ++ _). split; [|split; [|done]].
  - change (length w = 64%nat). unfold w. rewrite !length_app, length_take, length_drop. lia.
  - change (take (n + length t) w = v ++ t). unfold w. rewrite Hv, app_assoc. assert (E : (n + length t = length (v ++ t))%nat) by (rewrite length_app, <- Hv, length_take; lia). rewrite E. apply take_app_length.
Qed.
(** The last block: its zeros and the length. *)
Lemma last_block ctx u v x : length (buffer ctx) = 64%nat -> (u <= 56)%nat -> take u (buffer ctx) = v -> Forall is_byte v -> regs_of ctx = x -> words_in x ->
  exists c1 c2 c3, fill (Z.of_nat u) (replicate (56 - u) 0) ctx = Ok c1 /\ nbytes c1 = nbytes ctx /\
    let c1 := c1 <| nbytes := u64 (Z.shiftl (nbytes c1) 3) |> in
    fill 56 (le_bytes 8 (nbytes c1)) c1 = Ok c2 /\ ngx_md5_body c2 (buffer c2) 64 = Ok (c3, []) /\
    regs_of c3 = hash_blocks 1 x (v ++ replicate (56 - u) 0 ++ le_bytes 8 (u64 (Z.shiftl (nbytes ctx) 3))).
Proof.
  intros Hb Hu Hv Hvb Hr Hx. destruct (fill_at u (replicate (56 - u) 0) ctx v) as (c1 & E1 & B1 & T1 & R1 & N1); [done|rewrite length_replicate; lia|done|].
  rewrite length_replicate in T1. replace (u + (56 - u))%nat with 56%nat in T1 by lia. exists c1. set (c1' := c1 <| nbytes := u64 (Z.shiftl (nbytes c1) 3) |>).
  destruct (fill_at 56 (le_bytes 8 (nbytes c1')) c1' (v ++ replicate (56 - u) 0)) as (c2 & E2 & B2 & T2 & R2 & N2); [done|cbn; lia|done|].
  change (56 + length (le_bytes 8 (nbytes c1')))%nat with 64%nat in T2. rewrite take_ge in T2 by lia. change (nbytes c1') with (u64 (Z.shiftl (nbytes c1) 3)) in T2. rewrite N1, <- app_assoc in T2.
  destruct (body_ok 1 c2 (buffer c2)) as (c3 & E3 & R3 & _); [lia|lia|done|rewrite T2; apply Forall_app_2; [done|apply Forall_app_2; [apply zeros_bytes|apply le_bytes_bytes]]|rewrite R2; change (regs_of c1') with (regs_of c1); by rewrite R1, Hr|].
  exists c2, c3. rewrite drop_ge in E3 by lia. split; [done|]. split; [done|]. split; [exact E2|]. split; [exact E3|]. rewrite R3, T2, R2. change (regs_of c1') with (regs_of c1). by rewrite R1, Hr.
Qed.

(** The padded text behind the whole blocks of [D]: one block, or two. *)
Definition rest_of (D : bytes) : bytes := drop (64 * (length D / 64)) D.
Definition bit_length (D : bytes) : bytes := le_bytes 8 (8 * blen D mod 2 ^ 64).
Lemma unread_length D : length (rest_of D) = (length D mod 64)%nat.
Proof. unfold rest_of. rewrite length_drop. pose proof (Nat.div_mod_eq (length D) 64). lia. Qed.
Lemma padded_blocks D (z n : nat) : zeros (length D) = z -> (length D mod 64 + 1 + z + 8 = 64 * n)%nat ->
  hash_blocks (length (padded D) / 64) start (padded D) = hash_blocks n (hash_blocks (length D / 64) start D) (rest_of D ++ 128 :: replicate z 0 ++ bit_length D).
Proof.
  intros Hz Hn. pose proof (Nat.div_mod_eq (length D) 64). unfold padded. rewrite Hz. fold (bit_length D). set (q := 128 :: replicate z 0 ++ bit_length D).
  assert (E : (length (D ++ q) / 64 = length D / 64 + n)%nat).
  { symmetry. apply Nat.div_unique with 0%nat; [lia|]. unfold q. rewrite length_app. cbn [length]. rewrite length_app, length_replicate. change (length (bit_length D)) with 8%nat. lia. }
  rewrite E, hash_blocks_add, hash_blocks_app, drop_app_le by lia. done.
Qed.
Lemma zeros_short n : (n mod 64 <= 55)%nat -> zeros n = (55 - n mod 64)%nat.
Proof.
  intros Hn. pose proof (Nat.div_mod_eq n 64). unfold zeros. symmetry. apply Nat2Z.inj. rewrite Z2Nat.id by (apply Z.mod_pos_bound; lia). apply Z.mod_unique with (- Z.of_nat (n / 64)); lia.
Qed.
Lemma zeros_long n : (55 < n mod 64 < 64)%nat -> zeros n = (119 - n mod 64)%nat.
Proof.
  intros Hn. pose proof (Nat.div_mod_eq n 64). unfold zeros. symmetry. apply Nat2Z.inj. rewrite Z2Nat.id by (apply Z.mod_pos_bound; lia). apply Z.mod_unique with (- Z.of_nat (n / 64) - 1); lia.
Qed.

Lemma final_ok ctx D : holds ctx D -> Forall is_byte D -> ngx_md5_final ctx = Ok (md5 D).
Proof.
  intros Hh HD. pose proof (block_words_of _ _ HD Hh) as Hw. pose proof Hh as (Hb & Hn & Hr & Hp). unfold ngx_md5_final. rewrite Hn.
  assert (Eu : Z.land (u64 (blen D)) 0x3f = Z.of_nat (length D mod 64)) by apply used_ok. rewrite Eu. clear Eu. fold (rest_of D) in Hp.
  pose proof (unread_length D) as HPl. pose proof (Nat.mod_upper_bound (length D) 64 ltac:(lia)) as Hu. pose proof (zeros_short (length D)) as Hz1. pose proof (zeros_long (length D)) as Hz2. pose proof (padded_blocks D) as Hpad.
  set (u := (length D mod 64)%nat) in *. assert (HPb : Forall is_byte (rest_of D)) by by apply Forall_drop. set (P := rest_of D) in *.
  assert (H80 : Forall is_byte [128]) by (repeat constructor; unfold is_byte; lia).
  destruct (fill_at u [128] ctx P) as (c0 & -> & B0 & T0 & R0 & N0); [done|cbn; lia|done|]. rewrite obind_Ok. cbn [length] in T0.
  assert (HP1 : Forall is_byte (P ++ [128])) by by apply Forall_app_2.
  unfold md5. replace (Z.of_nat u + 1) with (Z.of_nat (u + 1)) by lia. destruct (Z.ltb_spec (64 - Z.of_nat (u + 1)) 8) as [Hf|Hf].
  - rewrite (Hpad (119 - u)%nat 2%nat) by (apply Hz2 || idtac; lia). rewrite <- Hr. assert (Ez : Z.to_nat (64 - Z.of_nat (u + 1)) = (63 - u)%nat) by lia. rewrite Ez.
    destruct (fill_at (u + 1) (replicate (63 - u) 0) c0 (P ++ [128])) as (c1 & -> & B1 & T1 & R1 & N1); [done|rewrite length_replicate; lia|done|]. rewrite obind_Ok.
    rewrite length_replicate in T1. replace (u + 1 + (63 - u))%nat with 64%nat in T1 by lia. rewrite take_ge in T1 by lia. assert (H1 : Forall is_byte (buffer c1)) by (rewrite T1; apply Forall_app_2; [done|apply zeros_bytes]).
    destruct (body_ok 1 c1 (buffer c1)) as (c2 & E2 & R2 & B2 & N2); [lia|lia|done|done|by rewrite R1, R0|].
    rewrite drop_ge in E2 by lia. change (64 * Z.of_nat 1) with 64 in E2. rewrite E2, !obind_Ok. change (Z.to_nat (64 - 8)) with 56%nat.
    destruct (last_block c2 0 [] (regs_of c2)) as (c3 & c4 & c5 & E3 & N3 & E4 & E5 & R5); [by rewrite B2|lia|done|done|done|rewrite R2, R1, R0; by apply hash_blocks_words|].
    change (fill 0 (replicate 56 0) c2) with (fill (Z.of_nat 0) (replicate (56 - 0) 0) c2). rewrite E3, obind_Ok. cbv zeta in E4. rewrite E4, obind_Ok, E5, obind_Ok.
    cut (regs_of c5 = hash_blocks 2 (regs_of ctx) (P ++ 128 :: replicate (119 - u) 0 ++ bit_length D)); [intros <-; done|].
    rewrite R5, R2, R1, R0, T1, N2, N1, N0, Hn, bits_ok. fold (bit_length D). replace (119 - u)%nat with ((63 - u) + 56)%nat by lia. rewrite replicate_add.
    rewrite (hash_blocks_add 1 1 (regs_of ctx)).
    replace (P ++ 128 :: (replicate (63 - u) 0 ++ replicate 56 0) ++ bit_length D) with (((P ++ [128]) ++ replicate (63 - u) 0) ++ replicate 56 0 ++ bit_length D) by (by rewrite <- !app_assoc).
    rewrite <- T1. rewrite (hash_blocks_app 1 (regs_of ctx) (buffer c1)), (drop_app_le (buffer c1)), (drop_ge (buffer c1)) by lia. done.
  - rewrite (Hpad (55 - u)%nat 1%nat) by (apply Hz1 || idtac; lia). rewrite <- Hr, obind_Ok. assert (Ez : Z.to_nat (64 - Z.of_nat (u + 1) - 8) = (56 - (u + 1))%nat) by lia. rewrite Ez.
    destruct (last_block c0 (u + 1) (P ++ [128]) (regs_of ctx)) as (c3 & c4 & c5 & E3 & N3 & E4 & E5 & R5); [done|lia|done|done|done|done|].
    rewrite E3, obind_Ok. cbv zeta in E4. rewrite E4, obind_Ok, E5, obind_Ok.
    cut (regs_of c5 = hash_blocks 1 (regs_of ctx) (P ++ 128 :: replicate (55 - u) 0 ++ bit_length D)); [intros <-; done|].
    rewrite R5, N0, Hn, bits_ok. fold (bit_length D). replace (56 - (u + 1))%nat with (55 - u)%nat by lia. by rewrite <- app_assoc.
Qed.

Lemma updates_ok l : forall ctx D, holds ctx D -> Forall is_byte D -> Forall (Forall is_byte) l -> Forall (fun t => blen t < 2 ^ 64) l ->
  exists ctx', updates ctx l = Ok ctx' /\ holds ctx' (D ++ concat l) /\ Forall is_byte (D ++ concat l).
Proof.
  induction l as [|t l IH]; intros ctx D Hh HD Hl Hs; [exists ctx; cbn; by rewrite app_nil_r|]. apply Forall_cons_1 in Hl as [Ht Hl], Hs as [Hst Hs].
  destruct (update_holds ctx D t Hh HD Ht Hst) as (c1 & E & H1). cbn [updates]. rewrite E, obind_Ok. cbn [concat]. rewrite app_assoc. apply IH; [done|by apply Forall_app_2|done|done].
Qed.

(** C38: MD5 in pieces.  Whatever a context held before, initialising it, giving it a
    text in any pieces and taking the digest answers the digest that RFC 1321 defines
    for the whole text, and nothing is written behind the buffer. *)
Theorem md5_in_pieces ctx l : length (buffer ctx) = 64%nat -> Forall (Forall is_byte) l -> Forall (fun t => blen t < 2 ^ 64) l ->
  (let! ctx := updates (ngx_md5_init ctx) l in ngx_md5_final ctx) = Ok (md5 (concat l)).
Proof.
  intros Hb Hl Hs. destruct (updates_ok l (ngx_md5_init ctx) []) as (c1 & -> & H1 & H2); [|done..|].
  - split; [exact Hb|]. by split.
  - rewrite obind_Ok. by apply final_ok.
Qed.
Lemma md5_in_pieces_witness : (let! ctx := updates (ngx_md5_init (mk_md5 0 0 0 0 0 (replicate 64 0))) [bs "a"; bs "bc"] in ngx_md5_final ctx) = Ok (md5 (bs "abc")).
Proof.
  apply (md5_in_pieces (mk_md5 0 0 0 0 0 (replicate 64 0)) [bs "a"; bs "bc"]); [done| |repeat constructor].
  constructor; [by apply all_bytes|]. constructor; [by apply all_bytes|constructor].
Defined.
End Md5Facts.
