(* ===== verification/NgxAuth.v ===== *)
(** * Passwords: nginx/src/core/ngx_crypt.c, os/unix/ngx_user.c and ngx_http_auth_basic_module.c

    The encryption of a password with a salt, the name and the password of a request
    ([ngx_http_auth_basic_user] of ngx_http_core_module.c), and the search of the file
    of users.  [crypt_r] of the C library and SHA-1 are parameters, as is reading
    the file.  [crypt] takes C strings: texts without NUL.  Without threads
    [ngx_crypt] is never busy, so a request has no saved password. *)
From S2P Require Import Prelude NgxString NgxCodec NgxStrUtil NgxPalloc NgxArray NgxDigest.
#[local] Open Scope Z_scope.

Module Crypt.
Import Md5.

Section Crypt.
Context {Osm : OSMem} (crypt_r : bytes -> bytes -> option bytes) (sha1 : bytes -> bytes).
(** What the memory of the contexts on the stack holds. *)
Context (stack : ngx_md5_t).
Implicit Types (pl : pool) (o : os).

Definition starts (p t : bytes) : bool := bool_decide (take (length p) t = p).
(** Memory of [size] bytes, and a text and its NUL written there. *)
Definition store_text (size : Z) (text : bytes) pl o : out (Z * bytes * pool * os) :=
  let! (m, pl, o) := ngx_pnalloc pl size o in
  match m with
  | None => Ok (NGX_ERROR, [], pl, o)
  | Some _ => if size <? blen text + 1 then Undef OutOfBounds else Ok (NGX_OK, text, pl, o)
  end.

Definition ngx_libc_crypt (key salt : bytes) pl o : out (Z * bytes * pool * os) :=
  match crypt_r key salt with
  | Some value => store_text (blen value + 1) value pl o
  | None => Ok (NGX_ERROR, [], pl, o)
  end.

(** ** MD5 crypt *)

Definition itoa64 : bytes := bs "./0123456789ABCDEFGHIJKLMNOPQRSTUVWXYZabcdefghijklmnopqrstuvwxyz".
Fixpoint ngx_crypt_to64 (v : Z) (n : nat) : bytes :=
  match n with O => [] | S n' => tbl itoa64 (Z.land v 0x3f) :: ngx_crypt_to64 (Z.shiftr v 6) n' end.
Definition magic : bytes := bs "$apr1$".
(** At most [n] bytes, up to the first dollar. *)
Fixpoint true_salt (n : nat) (p : bytes) : bytes :=
  match n, p with
  | S n', c :: p' => if c =? 36 then [] else c :: true_salt n' p'
  | _, _ => []
  end.
(** A context that [ngx_md5_final] has cleared. *)
Definition cleared : ngx_md5_t := mk_md5 0 0 0 0 0 (replicate 64 0).

(** [for (n = keylen; n > 0; n -= 16)] *)
Fixpoint digest_loop (fuel : nat) (n : Z) (final : bytes) (md5 : ngx_md5_t) : out ngx_md5_t :=
  match fuel with
  | O => NoFuel
  | S f => if n <=? 0 then Ok md5 else let! md5 := ngx_md5_update md5 (if 16 <? n then take 16 final else take (Z.to_nat n) final) in digest_loop f (n - 16) final md5
  end.
(** [for (i = keylen; i; i >>= 1)]; the digest is zero now. *)
Fixpoint bits_loop (fuel : nat) (i : Z) (key : bytes) (md5 : ngx_md5_t) : out ngx_md5_t :=
  match fuel with
  | O => NoFuel
  | S f =>
      if i =? 0 then Ok md5
      else
        let! md5 := (if negb (Z.land i 1 =? 0) then ngx_md5_update md5 [0]
                     else let! c := Prelude.rd key 0 in ngx_md5_update md5 [c]) in
        bits_loop f (Z.shiftr i 1) key md5
  end.
Definition round (i : Z) (key salt final : bytes) (ctx : ngx_md5_t) : out bytes :=
  let ctx1 := ngx_md5_init ctx in
  let! ctx1 := ngx_md5_update ctx1 (if negb (Z.land i 1 =? 0) then key else final) in
  let! ctx1 := (if negb (i mod 3 =? 0) then ngx_md5_update ctx1 salt else Ok ctx1) in
  let! ctx1 := (if negb (i mod 7 =? 0) then ngx_md5_update ctx1 key else Ok ctx1) in
  let! ctx1 := ngx_md5_update ctx1 (if negb (Z.land i 1 =? 0) then final else key) in
  ngx_md5_final ctx1.
(** [n] rounds from number [i] on. *)
Fixpoint rounds_loop (n : nat) (i : Z) (key salt final : bytes) : out bytes :=
  match n with O => Ok final | S n' => let! final := round i key salt final cleared in rounds_loop n' (i + 1) key salt final end.
Definition final_text (final : bytes) : bytes :=
  let f i := nth i final 0 in
  let group a b c := ngx_crypt_to64 (Z.lor (Z.lor (Z.shiftl (f a) 16) (Z.shiftl (f b) 8)) (f c)) 4 in
  group 0%nat 6%nat 12%nat ++ group 1%nat 7%nat 13%nat ++ group 2%nat 8%nat 14%nat ++ group 3%nat 9%nat 15%nat ++ group 4%nat 10%nat 5%nat ++ ngx_crypt_to64 (f 11%nat) 2.

(** The text that is written. *)
Definition apr1_text (key salt : bytes) : out bytes :=
  let! md5 := ngx_md5_update (ngx_md5_init stack) key in
  let! md5 := ngx_md5_update md5 magic in
  let! md5 := ngx_md5_update md5 salt in
  let! ctx1 := ngx_md5_update (ngx_md5_init stack) key in
  let! ctx1 := ngx_md5_update ctx1 salt in
  let! ctx1 := ngx_md5_update ctx1 key in
  let! final := ngx_md5_final ctx1 in
  let! md5 := digest_loop (S (length key)) (blen key) final md5 in
  let! md5 := bits_loop (S (length key)) (blen key) key md5 in
  let! final := ngx_md5_final md5 in
  let! final := rounds_loop 1000 0 key salt final in
  Ok (magic ++ salt ++ [36] ++ final_text final).
(** The memory that is asked for: the magic, the salt and 16 bytes, and one for the NUL. *)
Definition apr1_size (salt : bytes) : Z := 6 + blen salt + 16 + 1.
Definition ngx_crypt_apr1 (key salt : bytes) pl o : out (Z * bytes * pool * os) :=
  let salt := true_salt 8 (drop 6 salt) in
  let! t := apr1_text key salt in
  store_text (apr1_size salt) t pl o.

(** ** The other schemes *)

Definition ngx_crypt_plain (key : bytes) pl o : out (Z * bytes * pool * os) := store_text (7 + blen key + 1) (bs "{PLAIN}" ++ key) pl o.
Definition encoded_length (n : Z) : Z := (n + 2) / 3 * 4.
Definition decoded_length (n : Z) : Z := (n + 3) / 4 * 3.
Definition ngx_crypt_ssha (key salt : bytes) pl o : out (Z * bytes * pool * os) :=
  let encoded := drop 6 salt in
  let! (m, pl, o) := ngx_pnalloc pl (Z.max (decoded_length (blen encoded)) 20) o in
  match m with
  | None => Ok (NGX_ERROR, [], pl, o)
  | Some _ =>
      let tail := match Base64.ngx_decode_base64 encoded with Some d => if blen d <? 20 then [] else drop 20 d | None => [] end in
      let decoded := sha1 (key ++ tail) ++ tail in
      store_text (6 + encoded_length (20 + blen tail) + 1) (bs "{SSHA}" ++ Base64.ngx_encode_base64 decoded) pl o
  end.
Definition ngx_crypt_sha (key : bytes) pl o : out (Z * bytes * pool * os) :=
  store_text (5 + encoded_length 20 + 1) (bs "{SHA}" ++ Base64.ngx_encode_base64 (sha1 key)) pl o.

Definition ngx_crypt (key salt : bytes) pl o : out (Z * bytes * pool * os) :=
  if starts magic salt then ngx_crypt_apr1 key salt pl o
  else if starts (bs "{PLAIN}") salt then ngx_crypt_plain key pl o
  else if starts (bs "{SSHA}") salt then ngx_crypt_ssha key salt pl o
  else if starts (bs "{SHA}") salt then ngx_crypt_sha key pl o
  else ngx_libc_crypt key salt pl o.
End Crypt.
End Crypt.

Module AuthBasic.
Import Crypt.

Definition NGX_HTTP_UNAUTHORIZED : Z := 401.
Definition NGX_HTTP_FORBIDDEN : Z := 403.
Definition NGX_HTTP_INTERNAL_SERVER_ERROR : Z := 500.
Definition NGX_ENOENT : Z := 2.
Definition NGX_HTTP_AUTH_BUF_SIZE : nat := 2048.

(** The fields of a request: the value of the Authorization header, the name (its memory and
    its length), the memory of the password, the header that asks for them. *)
Record request := mk_request { authorization : option bytes; user_data : option bytes; user_len : Z; passwd : bytes;
  www_authenticate : option bytes; headers : ngx_list bytes }.
#[export] Instance request_settable : Settable request :=
  fun r => mk_request (authorization r) (user_data r) (user_len r) (passwd r) (www_authenticate r) (headers r).

Section Auth.
Context {Osm : OSMem} (crypt_r : bytes -> bytes -> option bytes) (sha1 : bytes -> bytes) (stack : Md5.ngx_md5_t).
(** [ngx_read_file] of a number of bytes at an offset; [None] when it fails. *)
Context (read_file : Z -> Z -> option bytes).
Implicit Types (r : request) (pl : pool) (o : os).

Fixpoint skip_spaces (t : bytes) : bytes := match t with 32 :: t' => skip_spaces t' | _ => t end.
Fixpoint find_colon (t : bytes) (len : Z) : Z := match t with [] => len | c :: t' => if c =? 58 then len else find_colon t' (len + 1) end.
Definition no_user r : request := r <| user_data := Some [0] |>.

Definition ngx_http_auth_basic_user r pl o : out (Z * request * pool * os) :=
  if (user_len r =? 0) && (match user_data r with Some _ => true | None => false end) then Ok (NGX_DECLINED, r, pl, o)
  else
    match authorization r with
    | None => Ok (NGX_DECLINED, no_user r, pl, o)
    | Some value =>
        let! basic := (if blen value <? 6 then Ok false else let! c := Search.ngx_strncasecmp value 0 (bs "Basic ") 0 6 in Ok (c =? 0)) in
        if negb basic then Ok (NGX_DECLINED, no_user r, pl, o)
        else
          let encoded := skip_spaces (drop 6 value) in
          if blen encoded =? 0 then Ok (NGX_DECLINED, no_user r, pl, o)
          else
            let! (m, pl, o) := ngx_pnalloc pl (decoded_length (blen encoded) + 1) o in
            match m with
            | None => Ok (NGX_ERROR, r, pl, o)
            | Some _ =>
                match Base64.ngx_decode_base64 encoded with
                | None => Ok (NGX_DECLINED, no_user r, pl, o)
                | Some auth =>
                    let len := find_colon auth 0 in
                    if (len =? 0) || (len =? blen auth) then Ok (NGX_DECLINED, no_user r, pl, o)
                    else Ok (NGX_OK, r <| user_len := len |> <| user_data := Some (auth ++ [0]) |> <| passwd := drop (Z.to_nat len + 1) (auth ++ [0]) |>, pl, o)
                end
            end
    end.

(** When the second allocation fails, the new header is left in the list without a value. *)
Definition ngx_http_auth_basic_set_realm r (realm : bytes) pl o : out (Z * request * pool * os) :=
  let basic := bs "Basic realm=" ++ [34] ++ realm ++ [34] in
  let! (l, pl, o) := ngx_list_push (headers r) basic pl o in
  match l with
  | None => Ok (NGX_HTTP_INTERNAL_SERVER_ERROR, r <| www_authenticate := None |>, pl, o)
  | Some l =>
      let len := 14 + blen realm in
      let! (m, pl, o) := ngx_pnalloc pl len o in
      match m with
      | None => Ok (NGX_HTTP_INTERNAL_SERVER_ERROR, r <| headers := l |>, pl, o)
      | Some _ =>
          if len <? blen basic then Undef OutOfBounds
          else Ok (NGX_HTTP_UNAUTHORIZED, r <| headers := l |> <| www_authenticate := Some basic |>, pl, o)
      end
  end.

(** [password] is the text in the file. *)
Definition ngx_http_auth_basic_crypt_handler r (password realm : bytes) pl o : out (Z * request * pool * os) :=
  let! (rc, encrypted, pl, o) := ngx_crypt crypt_r sha1 stack (cstr (passwd r)) (cstr password) pl o in
  if rc =? NGX_OK then
    if bool_decide (encrypted = cstr password) then Ok (NGX_OK, r, pl, o) else ngx_http_auth_basic_set_realm r realm pl o
  else if rc =? NGX_ERROR then Ok (NGX_HTTP_INTERNAL_SERVER_ERROR, r, pl, o)
  else Ok (rc, r, pl, o).

(** ** The file of users *)

Inductive sw := sw_login | sw_passwd | sw_skip.
(** The state, how much of the name matches, and where the password begins in the buffer. *)
Record scanner := mk_scanner { state : sw; login : Z; passwd_at : nat }.

(** The byte [c] at [i]; [None] is the end of the password. *)
Definition scan_byte (data : bytes) (len : Z) (i : nat) (c : Z) (x : scanner) : out (option scanner) :=
  match state x with
  | sw_login =>
      if (login x =? 0) && ((c =? 35) || (c =? 13)) then Ok (Some (mk_scanner sw_skip (login x) (passwd_at x)))
      else if (login x =? 0) && (c =? 10) then Ok (Some x)
      else
        let! u := rd data (Z.to_nat (login x)) in
        if negb (c =? u) then Ok (Some (mk_scanner sw_skip (login x) (passwd_at x)))
        else if login x =? len then Ok (Some (mk_scanner sw_passwd (login x + 1) (i + 1)))
        else Ok (Some (mk_scanner sw_login (login x + 1) (passwd_at x)))
  | sw_passwd => if (c =? 10) || (c =? 13) || (c =? 58) then Ok None else Ok (Some x)
  | sw_skip => if c =? 10 then Ok (Some (mk_scanner sw_login 0 (passwd_at x))) else Ok (Some x)
  end.
(** The bytes [t] of the buffer from [i] on: where the password ends, or that it does not. *)
Fixpoint scan (data : bytes) (len : Z) (i : nat) (t : bytes) (x : scanner) : out (option nat * scanner) :=
  match t with
  | [] => Ok (None, x)
  | c :: t' =>
      let! m := scan_byte data len i c x in
      match m with
      | None => Ok (Some i, x)
      | Some x => scan data len (S i) t' x
      end
  end.
(** What the search of the file answers. *)
Inductive found := Password (t : bytes) | LastPassword (t : bytes) | NotFound | ReadError.
(** [buf] is what is left of the last buffer. *)
Fixpoint file_loop (reads : nat) (data : bytes) (len : Z) (buf : bytes) (offset : Z) (x : scanner) : out found :=
  match reads with
  | O => NoFuel
  | S f =>
      let left := length buf in
      match read_file (Z.of_nat (NGX_HTTP_AUTH_BUF_SIZE - left)) offset with
      | None => Ok ReadError
      | Some [] => Ok (match state x with sw_passwd => LastPassword (take (left - passwd_at x) (drop (passwd_at x) buf)) | _ => NotFound end)
      | Some t =>
          if (NGX_HTTP_AUTH_BUF_SIZE - left <? length t)%nat then Undef OutOfBounds
          else
            let buf := buf ++ t in
            let! (m, x) := scan data len left t x in
            match m with
            | Some i => Ok (Password (take (i - passwd_at x) (drop (passwd_at x) buf)))
            | None =>
                match state x with
                | sw_passwd => file_loop f data len (drop (passwd_at x) buf) (offset + blen t) (mk_scanner sw_passwd (login x) 0)
                | _ => file_loop f data len [] (offset + blen t) x
                end
            end
      end
  end.

(** [ngx_http_auth_basic_handler].  [realm] and [user_file] are [None] when they are not
    configured, and hold [None] when their complex value cannot be made; [open_err] is the
    error when the file cannot be opened. *)
Definition ngx_http_auth_basic_handler (realm user_file : option (option bytes)) (open_err : option Z) (reads : nat) r pl o : out (Z * request * pool * os) :=
  match realm, user_file with
  | Some realm, Some user_file =>
      match realm with
      | None => Ok (NGX_ERROR, r, pl, o)
      | Some realm =>
          if bool_decide (realm = bs "off") then Ok (NGX_DECLINED, r, pl, o)
          else
            let! (rc, r, pl, o) := ngx_http_auth_basic_user r pl o in
            if rc =? NGX_DECLINED then ngx_http_auth_basic_set_realm r realm pl o
            else if rc =? NGX_ERROR then Ok (NGX_HTTP_INTERNAL_SERVER_ERROR, r, pl, o)
            else
              match user_file with
              | None => Ok (NGX_ERROR, r, pl, o)
              | Some _ =>
                  match open_err with
                  | Some err => Ok (if err =? NGX_ENOENT then NGX_HTTP_FORBIDDEN else NGX_HTTP_INTERNAL_SERVER_ERROR, r, pl, o)
                  | None =>
                      let! data := deref (user_data r) in
                      let! f := file_loop reads data (user_len r) [] 0 (mk_scanner sw_login 0 0) in
                      match f with
                      | ReadError => Ok (NGX_HTTP_INTERNAL_SERVER_ERROR, r, pl, o)
                      | Password pwd => ngx_http_auth_basic_crypt_handler r pwd realm pl o
                      | LastPassword pwd =>
                          let! (m, pl, o) := ngx_pnalloc pl (blen pwd + 1) o in
                          match m with
                          | None => Ok (NGX_HTTP_INTERNAL_SERVER_ERROR, r, pl, o)
                          | Some _ => let! _ := ngx_cpystrn (pwd ++ [0]) 0 (length pwd + 1) in ngx_http_auth_basic_crypt_handler r pwd realm pl o
                          end
                      | NotFound => ngx_http_auth_basic_set_realm r realm pl o
                      end
                  end
              end
      end
  | _, _ => Ok (NGX_DECLINED, r, pl, o)
  end.
End Auth.
End AuthBasic.
