(* ===== verification/NgxAuthProps.v ===== *)
(** * Properties of passwords

    What each scheme writes, that a password verifies against its own encryption, the
    search of the file of users, and the answer to a request. *)
From stdpp Require Import list.
From S2P Require Import Prelude NgxString NgxCodec NgxCodecProps NgxStrUtil NgxPalloc NgxArray NginxProps NgxScriptProps NgxScriptCompile NgxDigest NgxDigestProps NgxAuth.
#[local] Open Scope Z_scope.

(** ** MD5 crypt *)
Module Apr1Facts.
Import Md5 Rfc1321 Md5Facts Crypt.

(** The text [t] over and over, [n] bytes of it. *)
Definition cycle (n : nat) (t : bytes) : bytes := take n (concat (replicate n t)).
(** For each bit of the length, the lowest one first, a zero or the first byte of the key. *)
Fixpoint length_bits (fuel : nat) (n : Z) (key : bytes) : bytes :=
  match fuel with
  | O => []
  | S f => if n =? 0 then [] else (if Z.odd n then 0 else hd 0 key) :: length_bits f (n / 2) key
  end.
Definition round_text (i : Z) (key salt final : bytes) : bytes :=
  (if Z.odd i then key else final) ++ (if i mod 3 =? 0 then [] else salt) ++ (if i mod 7 =? 0 then [] else key) ++ (if Z.odd i then final else key).
Fixpoint digests (n : nat) (i : Z) (key salt final : bytes) : bytes :=
  match n with O => final | S n' => digests n' (i + 1) key salt (md5 (round_text i key salt final)) end.
Definition first_digest (key salt : bytes) : bytes :=
  md5 (key ++ magic ++ salt ++ cycle (length key) (md5 (key ++ salt ++ key)) ++ length_bits (S (length key)) (blen key) key).
(** [$apr1$salt$digest] *)
Definition apr1 (key salt : bytes) : bytes := magic ++ salt ++ [36] ++ final_text (digests 1000 0 key salt (first_digest key salt)).

Lemma md5_length t : length (md5 t) = 16%nat.
Proof. unfold md5. by rewrite !length_app. Qed.
Lemma md5_bytes t : Forall is_byte (md5 t).
Proof. unfold md5. repeat apply Forall_app_2; apply le_bytes_bytes. Qed.
Definition short_bytes (t : bytes) : Prop := Forall is_byte t /\ blen t < 2 ^ 64.
(** A context that has taken the bytes [D]. *)
Definition took (ctx : ngx_md5_t) (D : bytes) : Prop := holds ctx D /\ Forall is_byte D.
Lemma took_init ctx : length (buffer ctx) = 64%nat -> took (ngx_md5_init ctx) [].
Proof. intros H. split; [|done]. split; [exact H|]. by split. Qed.
Lemma took_update ctx D t : took ctx D -> short_bytes t -> exists ctx', ngx_md5_update ctx t = Ok ctx' /\ took ctx' (D ++ t).
Proof. intros (H & HD) (Ht & Hl). destruct (update_holds ctx D t H HD Ht Hl) as (c & E & Hc). exists c. split; [done|]. split; [done|by apply Forall_app_2]. Qed.
Lemma took_final ctx D : took ctx D -> ngx_md5_final ctx = Ok (md5 D).
Proof. intros (H & HD). by apply final_ok. Qed.
Lemma short_digest t n : short_bytes (take n (md5 t)).
Proof. split; [apply Forall_take, md5_bytes|]. unfold blen. rewrite length_take, md5_length. lia. Qed.
Lemma short_md5 t : short_bytes (md5 t).
Proof. split; [apply md5_bytes|]. unfold blen. by rewrite md5_length. Qed.
Lemma short_one c : is_byte c -> short_bytes [c].
Proof. intros Hc. split; [by constructor|done]. Qed.

Lemma cycle_step n t : length t = 16%nat -> (16 < n)%nat -> cycle n t = t ++ cycle (n - 16) t.
Proof.
  intros Ht Hn. unfold cycle. destruct n as [|n]; [lia|]. cbn [replicate concat]. rewrite take_app_ge by lia. f_equal. rewrite Ht.
  assert (G : forall k a b, (k <= 16 * a)%nat -> (k <= 16 * b)%nat -> take k (concat (replicate a t)) = take k (concat (replicate b t))).
  { clear -Ht. intros k. induction k as [k IH] using (well_founded_induction lt_wf). intros a b Ha Hb. destruct a as [|a], b as [|b]; try (assert (k = 0)%nat as -> by lia; done).
    cbn [replicate concat]. destruct (decide (k <= 16)%nat); [by rewrite !take_app_le by lia|]. rewrite !take_app_ge by lia. f_equal. apply IH; lia. }
  apply G; lia.
Qed.
Lemma cycle_last n t : (n <= length t)%nat -> cycle n t = take n t.
Proof. intros Hn. unfold cycle. destruct n as [|n]; [done|]. cbn [replicate concat]. by rewrite take_app_le. Qed.
Lemma digest_loop_ok t n : forall fuel ctx D, (n < fuel)%nat -> took ctx D -> exists ctx', digest_loop fuel (Z.of_nat n) (md5 t) ctx = Ok ctx' /\ took ctx' (D ++ cycle n (md5 t)).
Proof.
  induction n as [n IH] using (well_founded_induction lt_wf). intros fuel ctx D Hf H. destruct fuel as [|fuel]; [lia|]. cbn [digest_loop].
  destruct (Z.leb_spec (Z.of_nat n) 0) as [E0|E0]. { assert (n = 0)%nat as -> by lia. exists ctx. unfold cycle. cbn. by rewrite app_nil_r. }
  destruct (Z.ltb_spec 16 (Z.of_nat n)) as [Hn|Hn].
  - destruct (took_update _ _ (take 16 (md5 t)) H (short_digest _ _)) as (c1 & -> & H1). rewrite obind_Ok. replace (Z.of_nat n - 16) with (Z.of_nat (n - 16)) by lia. destruct (IH (n - 16)%nat ltac:(lia) fuel c1 (D ++ take 16 (md5 t)) ltac:(lia)) as (c' & E' & Hc'); [done|].
    exists c'. split; [done|]. rewrite cycle_step by (rewrite ?md5_length; lia). rewrite take_ge in Hc' by (rewrite md5_length; lia). by rewrite app_assoc.
  - rewrite Nat2Z.id. destruct (took_update _ _ (take n (md5 t)) H (short_digest _ _)) as (c1 & -> & H1). rewrite obind_Ok. rewrite cycle_last by (rewrite md5_length; lia). destruct fuel as [|fuel]; [lia|]. cbn [digest_loop]. rewrite (proj2 (Z.leb_le _ _)) by lia. by exists c1.
Qed.
Lemma odd_land i : negb (Z.land i 1 =? 0) = Z.odd i.
Proof. change 1 with (2 ^ 1 - 1). rewrite low_bits by lia. change (2 ^ 1) with 2. rewrite Zmod_odd. by destruct (Z.odd i). Qed.
Lemma bits_loop_ok key : short_bytes key -> forall fuel n ctx D, (0 < n -> key <> []) -> 0 <= n < Z.of_nat fuel -> took ctx D ->
  exists ctx', bits_loop fuel n key ctx = Ok ctx' /\ took ctx' (D ++ length_bits fuel n key).
Proof.
  intros Hk. induction fuel as [|fuel IH]; intros n ctx D Hn Hf H; [lia|]. cbn [bits_loop length_bits]. destruct (Z.eqb_spec n 0) as [E0|E0]; [exists ctx; by rewrite app_nil_r|].
  rewrite odd_land. assert (Hd : 0 <= n / 2 < Z.of_nat fuel) by (split; [apply Z.div_pos; lia|apply Z.div_lt_upper_bound; lia]).
  assert (Hs : exists b, (if Z.odd n then ngx_md5_update ctx [0] else let! c := Prelude.rd key 0 in ngx_md5_update ctx [c]) = ngx_md5_update ctx [b] /\ b = (if Z.odd n then 0 else hd 0 key) /\ is_byte b).
  { destruct (Z.odd n); [exists 0; unfold is_byte; split; [done|split; [done|lia]]|]. destruct key as [|c key]; [by destruct (Hn ltac:(lia))|]. exists c. split; [done|]. split; [done|]. destruct Hk as (Hk & _). by apply Forall_cons_1 in Hk as [? _]. }
  destruct Hs as (b & -> & <- & Hb). destruct (took_update _ _ [b] H (short_one _ Hb)) as (c1 & -> & H1). rewrite obind_Ok, Z.shiftr_div_pow2 by lia. change (2 ^ 1) with 2.
  destruct (IH (n / 2) c1 (D ++ [b])) as (c' & E' & Hc'); [intros; apply Hn; lia|done|done|]. exists c'. split; [done|]. by rewrite <- app_assoc in Hc'.
Qed.
Lemma round_ok i key salt t ctx : short_bytes key -> short_bytes salt -> length (buffer ctx) = 64%nat -> round i key salt (md5 t) ctx = Ok (md5 (round_text i key salt (md5 t))).
Proof.
  intros Hk Hs Hb. unfold round, round_text. rewrite !odd_land. pose proof (took_init ctx Hb) as H.
  assert (Hx : forall b : bool, short_bytes (if b then key else md5 t) /\ short_bytes (if b then md5 t else key)) by (intros b; destruct b; split; (done || apply short_md5)).
  destruct (took_update _ _ _ H (proj1 (Hx (Z.odd i)))) as (c0 & -> & H0). rewrite obind_Ok.
  assert (G : forall c D b u, took c D -> short_bytes u -> exists c', (if negb b then ngx_md5_update c u else Ok c) = Ok c' /\ took c' (D ++ (if b : bool then [] else u))).
  { intros c9 D b u Hc Hu. destruct b; cbn [negb]; [exists c9; by rewrite app_nil_r|]. by apply took_update. }
  destruct (G _ _ (i mod 3 =? 0) salt H0 Hs) as (c1 & -> & H1). rewrite obind_Ok. destruct (G _ _ (i mod 7 =? 0) key H1 Hk) as (c2 & -> & H2). rewrite obind_Ok.
  destruct (took_update _ _ _ H2 (proj2 (Hx (Z.odd i)))) as (c3 & -> & H3). rewrite obind_Ok, (took_final _ _ H3). by rewrite !app_nil_l, <- !app_assoc.
Qed.
Lemma rounds_ok n key salt : short_bytes key -> short_bytes salt -> forall i t, rounds_loop n i key salt (md5 t) = Ok (digests n i key salt (md5 t)).
Proof. intros Hk Hs. induction n as [|n IH]; intros i t; [done|]. cbn [rounds_loop digests]. by rewrite round_ok, obind_Ok, IH. Qed.

(** What is written is the digest of the scheme. *)
Lemma apr1_text_ok stack key salt : length (buffer stack) = 64%nat -> short_bytes key -> short_bytes salt -> apr1_text stack key salt = Ok (apr1 key salt).
Proof.
  intros Hb Hk Hs. unfold apr1_text. assert (Hm : short_bytes magic) by (split; [by apply all_bytes|done]). pose proof (took_init stack Hb) as H.
  destruct (took_update _ _ key H Hk) as (m1 & -> & H1). rewrite obind_Ok. destruct (took_update _ _ magic H1 Hm) as (m2 & -> & H2). rewrite obind_Ok. destruct (took_update _ _ salt H2 Hs) as (m3 & -> & H3). rewrite obind_Ok.
  rewrite obind_Ok. destruct (took_update _ _ salt H1 Hs) as (c2 & -> & K2). rewrite obind_Ok. destruct (took_update _ _ key K2 Hk) as (c3 & -> & K3). rewrite obind_Ok.
  rewrite (took_final _ _ K3), obind_Ok. rewrite !app_nil_l, <- !app_assoc in *.
  destruct (digest_loop_ok (key ++ salt ++ key) (length key) (S (length key)) m3 _ ltac:(lia) H3) as (m4 & E4 & H4). unfold blen. rewrite E4, obind_Ok.
  destruct (bits_loop_ok key Hk (S (length key)) (Z.of_nat (length key)) m4 _ ltac:(intros Hl ->; cbn in Hl; lia) ltac:(lia) H4) as (m5 & E5 & H5). rewrite E5, obind_Ok.
  rewrite (took_final _ _ H5), obind_Ok, rounds_ok, obind_Ok by done. unfold apr1, first_digest. by rewrite <- !app_assoc.
Qed.
End Apr1Facts.

(** ** All schemes *)
Module CryptFacts.
Import Md5 Crypt Apr1Facts.

Section Crypt.
Context {Osm : OSMem} (crypt_r : bytes -> bytes -> option bytes) (sha1 : bytes -> bytes) (stack : ngx_md5_t).
Context (sha1_digest : forall t, Forall is_byte (sha1 t) /\ length (sha1 t) = 20%nat).
Implicit Types (pl : pool) (o : os).
Abbreviation crypt := (ngx_crypt crypt_r sha1 stack).

(** The salt behind the digest in [{SSHA}]. *)
Definition ssha_salt (t : bytes) : bytes := match Base64.ngx_decode_base64 t with Some d => if blen d <? 20 then [] else drop 20 d | None => [] end.
Definition ssha (key salt : bytes) : bytes := bs "{SSHA}" ++ Base64.ngx_encode_base64 (sha1 (key ++ salt) ++ salt).
(** The password [key] encrypted as [salt] says. *)
Definition encrypt (key salt : bytes) : option bytes :=
  if starts magic salt then Some (apr1 key (true_salt 8 (drop 6 salt)))
  else if starts (bs "{PLAIN}") salt then Some (bs "{PLAIN}" ++ key)
  else if starts (bs "{SSHA}") salt then Some (ssha key (ssha_salt (drop 6 salt)))
  else if starts (bs "{SHA}") salt then Some (bs "{SHA}" ++ Base64.ngx_encode_base64 (sha1 key))
  else crypt_r key salt.

Lemma starts_app p t : starts p (p ++ t) = true.
Proof. unfold starts. by rewrite take_app_length, bool_decide_eq_true_2. Qed.
Lemma starts_inv p t : starts p t = true -> t = p ++ drop (length p) t.
Proof. unfold starts. intros H%bool_decide_eq_true_1. by rewrite <- H at 1; rewrite take_drop. Qed.
Lemma not_magic t : starts (bs "{PLAIN}") t || starts (bs "{SSHA}") t || starts (bs "{SHA}") t = true -> starts magic t = false.
Proof. intros [[H|H]%orb_prop|H]%orb_prop; rewrite (starts_inv _ _ H); reflexivity. Qed.
Lemma true_salt_length n t : (length (true_salt n t) <= n)%nat.
Proof. revert t. induction n as [|n IH]; intros [|c t]; cbn; [lia..|]. destruct (c =? 36); cbn; [lia|]. specialize (IH t). lia. Qed.
Lemma true_salt_idem n : forall t rest, true_salt n (true_salt n t ++ 36 :: rest) = true_salt n t.
Proof. induction n as [|n IH]; intros [|c t] rest; try done. cbn [true_salt]. destruct (Z.eqb_spec c 36) as [->|Hc]; [done|]. cbn [app true_salt]. rewrite (proj2 (Z.eqb_neq _ _)) by done. by rewrite IH. Qed.
Lemma true_salt_bytes n : forall t, Forall is_byte t -> Forall is_byte (true_salt n t).
Proof. induction n as [|n IH]; intros [|c t] Ht; try done. apply Forall_cons_1 in Ht as [Hc Ht]. cbn [true_salt]. destruct (c =? 36); [done|]. constructor; [done|by apply IH]. Qed.

Lemma base64_again t : Forall is_byte t -> Base64.ngx_decode_base64 (Base64.ngx_encode_base64 t) = Some t.
Proof.
  intros Ht. destruct (Base64Facts.encode_decode t Ht) as (u & E & Hm & Ed). unfold Base64.ngx_decode_base64, Base64.ngx_decode_base64_internal. rewrite E.
  destruct (Nat.eqb_spec (length u mod 4) 1); [done|]. by rewrite Ed.
Qed.
Lemma ssha_salt_encoded key salt : Forall is_byte salt -> ssha_salt (drop 6 (ssha key salt)) = salt.
Proof.
  intros Hs. unfold ssha_salt, ssha. change (drop 6 (bs "{SSHA}" ++ ?t)) with t. destruct (sha1_digest (key ++ salt)) as (Hb & Hl).
  rewrite base64_again by by apply Forall_app_2. unfold blen. rewrite length_app, (proj2 (Z.ltb_ge _ _)) by lia. rewrite drop_app_ge, Hl by lia. done.
Qed.
Lemma encoded_blen t : blen (Base64.ngx_encode_base64 t) = encoded_length (blen t).
Proof. unfold blen, encoded_length. rewrite Base64Facts.encode_length, Nat2Z.inj_mul, Nat2Z.inj_div, Nat2Z.inj_add. done. Qed.
Lemma u8_byte z : is_byte (u8 z).
Proof. unfold is_byte, u8. pose proof (Z.mod_pos_bound z 256). lia. Qed.
Lemma decoded_bytes basis t : Forall is_byte (Base64.decode_loop basis t).
Proof.
  revert t. assert (G : forall n t, (length t <= n)%nat -> Forall is_byte (Base64.decode_loop basis t)); [|intros t; by apply (G (length t))].
  induction n as [|n IH]; intros [|c1 [|c2 [|c3 [|c4 t]]]] Hl; cbn [length] in Hl; try lia; cbn [Base64.decode_loop]; repeat (apply Forall_cons_2; [apply u8_byte|]); try done. apply IH. lia.
Qed.
Lemma ssha_salt_bytes t : Forall is_byte (ssha_salt t).
Proof.
  unfold ssha_salt, Base64.ngx_decode_base64, Base64.ngx_decode_base64_internal. destruct (Base64.scan _ t) as [u|]; [|done]. destruct (_ =? _)%nat; [done|]. destruct (_ <? _); [done|]. apply Forall_drop, decoded_bytes.
Qed.
Lemma store_ok size t pl o : pool_fine pl -> blen t + 1 <= size ->
  exists rc w pl' o', store_text size t pl o = Ok (rc, w, pl', o') /\ pool_fine pl' /\ (rc = NGX_OK /\ w = t \/ rc = NGX_ERROR /\ ~ generous).
Proof.
  intros Hp Hl. unfold store_text, ngx_pnalloc. destruct (palloc_fine false pl size o Hp) as (m & pl' & o' & -> & Hp' & Hg). rewrite obind_Ok. destruct m.
  - rewrite (proj2 (Z.ltb_ge _ _)) by lia. do 4 eexists. split; [reflexivity|]. eauto.
  - do 4 eexists. split; [reflexivity|]. eauto.
Qed.
Lemma prefixed_blen p t : blen (p ++ Base64.ngx_encode_base64 t) = blen p + encoded_length (blen t).
Proof. rewrite <- encoded_blen. unfold blen. rewrite length_app. lia. Qed.
(** Every scheme but MD5 crypt writes what it should, inside of the memory it asks for. *)
Lemma crypt_ok key salt pl o : pool_fine pl -> starts magic salt = false ->
  exists rc w pl' o', crypt key salt pl o = Ok (rc, w, pl', o') /\ pool_fine pl' /\
    (rc = NGX_OK /\ encrypt key salt = Some w \/ rc = NGX_ERROR /\ (encrypt key salt = None \/ ~ generous)).
Proof.
  intros Hp Hm. unfold ngx_crypt, encrypt. rewrite Hm.
  assert (G : forall size t pl o, pool_fine pl -> blen t + 1 <= size -> exists rc w pl' o', store_text size t pl o = Ok (rc, w, pl', o') /\ pool_fine pl' /\
    (rc = NGX_OK /\ Some t = Some w \/ rc = NGX_ERROR /\ (Some t = None \/ ~ generous))).
  { intros size t pl1 o1 Hp1 Hl. destruct (store_ok size t pl1 o1 Hp1 Hl) as (rc & w & pl' & o' & E & Hp' & H). do 4 eexists. split; [exact E|]. split; [done|]. destruct H as [(? & ->)|(? & ?)]; eauto. }
  destruct (starts (bs "{PLAIN}") salt). { apply G; [done|]. unfold blen. rewrite length_app. change (length (bs "{PLAIN}")) with 7%nat. lia. }
  destruct (starts (bs "{SSHA}") salt).
  { unfold ngx_crypt_ssha, ngx_pnalloc. destruct (palloc_fine false pl (Z.max (decoded_length (blen (drop 6 salt))) 20) o Hp) as (m & pl1 & o1 & -> & Hp1 & Hg). rewrite obind_Ok. destruct m.
    - unfold ssha. change (match Base64.ngx_decode_base64 (drop 6 salt) with Some d => if blen d <? 20 then [] else drop 20 d | None => [] end) with (ssha_salt (drop 6 salt)). set (u := ssha_salt _). apply G; [done|].
      rewrite prefixed_blen. unfold blen at 2. rewrite length_app, (proj2 (sha1_digest _)), Nat2Z.inj_add. change (blen (bs "{SSHA}")) with 6. change (Z.of_nat 20) with 20. unfold blen. lia.
    - do 4 eexists. split; [reflexivity|]. split; [done|]. right. split; [done|]. right. by apply Hg. }
  destruct (starts (bs "{SHA}") salt).
  { apply G; [done|]. rewrite prefixed_blen. unfold blen at 2. rewrite (proj2 (sha1_digest key)). change (blen (bs "{SHA}")) with 5. change (Z.of_nat 20) with 20. lia. }
  unfold ngx_libc_crypt. destruct (crypt_r key salt) as [v|]; [apply G; [done|lia]|]. do 4 eexists. split; [reflexivity|]. eauto.
Qed.
(** MD5 crypt writes more than it asked memory for. *)
Lemma apr1_blen key salt : blen (apr1 key salt) + 1 = apr1_size salt + 7.
Proof.
  unfold apr1, apr1_size, blen. rewrite !length_app. change (length magic) with 6%nat. change (length [36]) with 1%nat.
  change (length (final_text _)) with 22%nat. lia.
Qed.
Lemma store_overrun size t pl o : pool_fine pl -> size < blen t + 1 ->
  store_text size t pl o = Undef OutOfBounds \/ ~ generous /\ exists pl' o', store_text size t pl o = Ok (NGX_ERROR, [], pl', o').
Proof.
  intros Hp Hs. unfold store_text, ngx_pnalloc. destruct (palloc_fine false pl size o Hp) as (m & pl' & o' & -> & Hp' & Hg). rewrite obind_Ok.
  destruct m; [left|right; eauto]. by rewrite (proj2 (Z.ltb_lt _ _)).
Qed.
Lemma true_salt_short salt : Forall is_byte salt -> short_bytes (true_salt 8 salt).
Proof. intros H. split; [by apply true_salt_bytes|]. unfold blen. pose proof (true_salt_length 8 salt). lia. Qed.
(** The scheme of an encrypted password is that of its salt, and its salt is the same. *)
Lemma encrypt_again key salt : Forall is_byte salt ->
  starts magic salt || starts (bs "{PLAIN}") salt || starts (bs "{SSHA}") salt || starts (bs "{SHA}") salt = true ->
  exists e, encrypt key salt = Some e /\ encrypt key e = Some e /\ starts magic e = starts magic salt.
Proof.
  intros Hs H. unfold encrypt. destruct (starts magic salt) eqn:Em.
  { eexists. split; [reflexivity|]. unfold apr1 at 1 4. rewrite starts_app. split; [|done]. do 2 f_equal. unfold apr1. rewrite drop_app_length'; [|done]. apply true_salt_idem. }
  destruct (starts (bs "{PLAIN}") salt) eqn:Ep. { eexists. split; [reflexivity|]. split; reflexivity. }
  destruct (starts (bs "{SSHA}") salt) eqn:Es.
  { eexists. split; [reflexivity|]. rewrite ssha_salt_encoded by apply ssha_salt_bytes. split; reflexivity. }
  rewrite orb_false_l in H. cbn [orb] in H. rewrite H. eexists. split; [reflexivity|]. split; reflexivity.
Qed.
End Crypt.
End CryptFacts.

(** ** The file of users *)
Module FileFacts.
Import Crypt AuthBasic.

(** The bytes up to the first colon or CR. *)
Fixpoint upto (t : bytes) : bytes := match t with [] => [] | c :: t' => if (c =? 13) || (c =? 58) then [] else c :: upto t' end.
(** What a line says of a user, and the first line that says something. *)
Definition line_password (user l : bytes) : option bytes :=
  match l with
  | c :: _ => if (c =? 35) || (c =? 13) then None else if starts (user ++ [58]) l then Some (upto (drop (length user + 1) l)) else None
  | [] => None
  end.
Fixpoint find_user (user : bytes) (ls : list bytes) : option bytes :=
  match ls with
  | [] => None
  | l :: ls => match line_password user l with Some p => Some p | None => find_user user ls end
  end.
(** Each line with an LF behind it but for the last one. *)
Definition file_text (ls : list bytes) (last : bytes) : bytes := concat (map (fun l => l ++ [10]) ls) ++ last.
(** An empty line, a comment, or a name with a colon behind it. *)
Definition line_ok (l : bytes) : Prop := 10 ∉ l /\ (l = [] \/ hd 0 l = 35 \/ hd 0 l = 13 \/ 58 ∈ l).

(** *** The search without a buffer *)
Inductive mode := MLogin (n : nat) | MPasswd (acc : bytes) | MSkip.
Section Search.
Context (user : bytes) (user_colon : 58 ∉ user).
Let tg : bytes := user ++ [58].
Definition next (c : Z) (m : mode) : bytes + mode :=
  match m with
  | MLogin n =>
      if (n =? 0)%nat && ((c =? 35) || (c =? 13)) then inr MSkip
      else if (n =? 0)%nat && (c =? 10) then inr m
      else if c =? nth n (user ++ [58]) 0 then inr (if (n =? length user)%nat then MPasswd [] else MLogin (S n)) else inr MSkip
  | MPasswd acc => if (c =? 10) || (c =? 13) || (c =? 58) then inl acc else inr (MPasswd (acc ++ [c]))
  | MSkip => inr (if c =? 10 then MLogin 0 else MSkip)
  end.
Fixpoint search (t : bytes) (m : mode) : bytes + mode :=
  match t with [] => inr m | c :: t' => match next c m with inl p => inl p | inr m => search t' m end end.
Definition answer (r : bytes + mode) : option bytes := match r with inl p => Some p | inr (MPasswd acc) => Some acc | inr _ => None end.

Lemma search_app a b m : search (a ++ b) m = match search a m with inl p => inl p | inr m' => search b m' end.
Proof. revert m. induction a as [|c a IH]; intros m; [done|]. cbn [app search]. destruct (next c m); [done|apply IH]. Qed.
Lemma search_skip l : 10 ∉ l -> search l MSkip = inr MSkip.
Proof. induction l as [|c l IH]; intros Hl; [done|]. apply not_elem_of_cons in Hl as [Hc Hl]. cbn [search next]. rewrite (proj2 (Z.eqb_neq _ _)) by done. by apply IH. Qed.
Lemma search_passwd l acc : 10 ∉ l -> search l (MPasswd acc) = inl (acc ++ upto l) \/ search l (MPasswd acc) = inr (MPasswd (acc ++ upto l)).
Proof.
  revert acc. induction l as [|c l IH]; intros acc Hl; [right; by rewrite app_nil_r|]. apply not_elem_of_cons in Hl as [Hc Hl]. cbn [search next upto]. rewrite (proj2 (Z.eqb_neq c 10)) by done. cbn [orb].
  destruct (_ || _); [left; by rewrite app_nil_r|]. destruct (IH (acc ++ [c]) Hl) as [->| ->]; [left|right]; by rewrite <- app_assoc.
Qed.
Lemma starts_cons c p d t : starts (c :: p) (d :: t) = (d =? c) && starts p t.
Proof.
  unfold starts. cbn [length]. rewrite firstn_cons. destruct (Z.eqb_spec d c) as [->|Hd]; cbn [andb].
  - apply bool_decide_ext. split; [by intros [= ?]|by intros ->].
  - apply bool_decide_eq_false_2. by intros [= ?].
Qed.
Lemma search_login l : forall n, (n <= length user)%nat -> 58 ∈ l -> 10 ∉ l -> (n = 0%nat -> hd 0 l <> 35 /\ hd 0 l <> 13) ->
  search l (MLogin n) = if starts (drop n tg) l then search (drop (length tg - n) l) (MPasswd []) else inr MSkip.
Proof.
  induction l as [|c l IH]; intros n Hn Hin Hl Hh; [by apply elem_of_nil in Hin|]. apply not_elem_of_cons in Hl as [Hc Hl]. cbn [search next].
  assert (Hlt : length tg = S (length user)) by (unfold tg; rewrite length_app; cbn; lia).
  destruct (lookup_lt_is_Some_2 tg n ltac:(lia)) as [d Hd]. rewrite (drop_S _ _ _ Hd), starts_cons. fold tg. rewrite (nth_lookup_Some _ _ _ _ Hd).
  assert (E1 : (n =? 0)%nat && ((c =? 35) || (c =? 13)) = false).
  { destruct (Nat.eqb_spec n 0) as [->|]; [|done]. destruct (Hh eq_refl) as [H1 H2]. cbn in H1, H2. apply Z.eqb_neq in H1 as ->. by apply Z.eqb_neq in H2 as ->. }
  assert (E2 : (n =? 0)%nat && (c =? 10) = false) by (rewrite (proj2 (Z.eqb_neq c 10)) by done; apply andb_false_r). rewrite E1, E2.
  destruct (Z.eqb_spec c d) as [->|Hcd]; cbn [andb]; [|by apply search_skip]. destruct (Nat.eqb_spec n (length user)) as [->|Hne].
  - rewrite Hlt. replace (drop (S (length user)) tg) with (@nil Z) by (symmetry; apply drop_ge; lia). replace (S (length user) - length user)%nat with 1%nat by lia. cbn [drop]. by unfold starts.
  - unfold tg in Hd. rewrite lookup_app_l in Hd by lia. assert (Hd58 : d <> 58) by (intros ->; apply user_colon; by eapply list_elem_of_lookup_2).
    rewrite IH; [|lia| |done|done]. 2: { apply elem_of_cons in Hin as [Hin|Hin]; [by destruct Hd58|done]. }
    replace (length tg - n)%nat with (S (length tg - S n)) by lia. done.
Qed.
(** One line, from its beginning. *)
Lemma search_line l : line_ok l -> 
  match line_password user l with
  | Some p => search l (MLogin 0) = inl p \/ search l (MLogin 0) = inr (MPasswd p)
  | None => search l (MLogin 0) = inr MSkip \/ l = []
  end.
Proof.
  intros (Hl & H). destruct l as [|c l]; [by right|]. unfold line_password. destruct ((c =? 35) || (c =? 13)) eqn:E.
  { left. cbn [search next Nat.eqb andb]. rewrite E. apply not_elem_of_cons in Hl as [_ Hl]. by apply search_skip. }
  apply orb_false_iff in E as [E1%Z.eqb_neq E2%Z.eqb_neq]. rewrite search_login; [|lia| |done|done].
  - rewrite drop_0, Nat.sub_0_r. fold tg. replace (length tg) with (length user + 1)%nat by (unfold tg; rewrite length_app; done). destruct (starts tg (c :: l)); [|by left].
    apply search_passwd. intros Hin. apply Hl. rewrite <- (take_drop (length user + 1) (c :: l)). apply elem_of_app. by right.
  - destruct H as [H|[H|[H|H]]]; [done..|done].
Qed.
Lemma search_file ls : forall last, Forall line_ok (ls ++ [last]) -> answer (search (file_text ls last) (MLogin 0)) = find_user user (ls ++ [last]).
Proof.
  unfold file_text. induction ls as [|l ls IH]; intros last H.
  - apply Forall_cons_1 in H as [H _]. cbn [map concat app find_user]. apply search_line in H. destruct (line_password user last) as [p|].
    + by destruct H as [->| ->].
    + destruct H as [->| ->]; done.
  - cbn [app] in H. apply Forall_cons_1 in H as [H Hr]. cbn [map concat app find_user]. rewrite <- !app_assoc, search_app. pose proof (search_line l H) as Hs. destruct (line_password user l) as [p|].
    + by destruct Hs as [->| ->].
    + rewrite <- IH by done. destruct Hs as [->| ->]; done.
Qed.

(** *** The search with a buffer *)
(** What the variables of the loop say when the buffer holds [b]. *)
Definition stands (b : bytes) (x : scanner) (m : mode) : Prop :=
  match m with
  | MLogin n => state x = sw_login /\ login x = Z.of_nat n /\ (n <= length user)%nat
  | MPasswd acc => state x = sw_passwd /\ drop (passwd_at x) b = acc /\ (passwd_at x <= length b)%nat
  | MSkip => state x = sw_skip
  end.
Lemma stands_next rest b x m c : stands b x m ->
  match next c m with
  | inl p => scan_byte (tg ++ rest) (blen user) (length b) c x = Ok None /\ take (length b - passwd_at x) (drop (passwd_at x) b) = p
  | inr m' => exists x', scan_byte (tg ++ rest) (blen user) (length b) c x = Ok (Some x') /\ stands (b ++ [c]) x' m'
  end.
Proof.
  destruct m as [n|acc|]; cbn [stands next].
  - intros (Es & El & Hn). unfold scan_byte. rewrite Es, El. assert (E0 : (Z.of_nat n =? 0) = (n =? 0)%nat) by (destruct (Nat.eqb_spec n 0); lia). rewrite E0.
    destruct (_ && _); [by eexists|]. destruct ((n =? 0)%nat && (c =? 10)); [by eexists|]. fold tg.
    assert (Hlt : (n < length tg)%nat) by (unfold tg; rewrite length_app; cbn; lia). destruct (lookup_lt_is_Some_2 tg n Hlt) as [d Hd].
    rewrite Nat2Z.id, (rd_lookup (tg ++ rest) n d) by by rewrite lookup_app_l. rewrite (nth_lookup_Some _ _ _ _ Hd), obind_Ok. destruct (c =? d); cbn [negb]; [|by eexists].
    unfold blen. assert (E1 : (Z.of_nat n =? Z.of_nat (length user)) = (n =? length user)%nat) by (destruct (Nat.eqb_spec n (length user)); lia). rewrite E1.
    destruct (Nat.eqb_spec n (length user)); eexists; (split; [reflexivity|]); cbn.
    + split; [done|]. rewrite length_app. cbn. split; [apply drop_ge; rewrite length_app; cbn; lia|lia].
    + split; [done|]. lia.
  - intros (Es & <- & Hp). unfold scan_byte. rewrite Es. destruct (_ || _); [|eexists; split; [reflexivity|]; cbn].
    + split; [done|]. rewrite take_ge; [done|]. rewrite length_drop. lia.
    + split; [done|]. rewrite drop_app_le, length_app by done. split; [done|lia].
  - intros Es. unfold scan_byte. rewrite Es. destruct (c =? 10); eexists; (split; [reflexivity|]); cbn; [|done]. split; [done|]. lia.
Qed.
Lemma scan_ok rest t : forall b x m, stands b x m ->
  match search t m with
  | inl p => exists i x', scan (tg ++ rest) (blen user) (length b) t x = Ok (Some i, x') /\ take (i - passwd_at x') (drop (passwd_at x') (b ++ t)) = p
  | inr m' => exists x', scan (tg ++ rest) (blen user) (length b) t x = Ok (None, x') /\ stands (b ++ t) x' m'
  end.
Proof.
  induction t as [|c t IH]; intros b x m H; cbn [search scan]; [exists x; by rewrite app_nil_r|]. pose proof (stands_next rest b x m c H) as Hn. destruct (next c m) as [p|m'] eqn:En.
  - destruct Hn as (-> & Hp). rewrite obind_Ok. do 2 eexists. split; [reflexivity|]. destruct m as [n|acc|]; cbn in En; try (by repeat destruct (_ && _) in En; try destruct (_ =? _) in En).
    destruct H as (_ & _ & Hle). by rewrite drop_app_le, take_app_le by (rewrite ?length_drop; lia).
  - destruct Hn as (x' & -> & Hs). rewrite obind_Ok. specialize (IH (b ++ [c]) x' m' Hs). rewrite length_app, Nat.add_1_r, <- app_assoc in IH. exact IH.
Qed.

(** *** Reading the file *)
Definition tail_in (p : bytes) (m : mode) : Prop := match m with MPasswd acc => (exists p', p = p' ++ acc) /\ 10 ∉ acc | _ => True end.
Lemma tail_next p c m m' : tail_in p m -> next c m = inr m' -> tail_in (p ++ [c]) m'.
Proof.
  destruct m as [n|acc|]; cbn [next].
  - intros _. destruct (_ && _); [by intros [= <-]|]. destruct (_ && _); [by intros [= <-]|]. destruct (c =? _); [|by intros [= <-]]. intros [= <-]. destruct (_ =? _)%nat; [|done]. split; [by exists (p ++ [c]); rewrite app_nil_r|]. by intros ?%elem_of_nil.
  - intros ((p' & ->) & Hacc). destruct (Z.eqb_spec c 10) as [|Hc]; [done|]. destruct (_ || _) eqn:E; [done|]. intros [= <-]. split; [exists p'; by rewrite app_assoc|]. intros [H|H]%elem_of_app; [done|]. by apply list_elem_of_singleton in H.
  - intros _ [= <-]. by destruct (c =? 10).
Qed.
Lemma tail_search t : forall p m m', tail_in p m -> search t m = inr m' -> tail_in (p ++ t) m'.
Proof.
  induction t as [|c t IH]; intros p m m' H E; cbn [search] in E; [injection E as <-; by rewrite app_nil_r|]. destruct (next c m) as [|m1] eqn:En; [done|].
  specialize (IH (p ++ [c]) m1 m' (tail_next _ _ _ _ H En) E). by rewrite <- app_assoc in IH.
Qed.

Context (read_file : Z -> Z -> option bytes) (T : bytes).
(** A read of the file [T] yields some of the bytes that are left, and none only at the end. *)
Definition reads_text : Prop := forall n off, 0 < n -> 0 <= off ->
  if off <? blen T then exists k, (0 < k <= Z.to_nat n)%nat /\ read_file n off = Some (take k (drop (Z.to_nat off) T)) else read_file n off = Some [].
(** No line of the file fills the buffer. *)
Definition short_lines : Prop := forall p t q, T = p ++ t ++ q -> 10 ∉ t -> (length t < NGX_HTTP_AUTH_BUF_SIZE)%nat.
Definition found_text (f : found) : option bytes := match f with Password t | LastPassword t => Some t | _ => None end.
Definition kept (m : mode) : bytes := match m with MPasswd acc => acc | _ => [] end.
Lemma file_loop_ok rest : reads_text -> short_lines -> forall reads p t x m, T = p ++ t -> tail_in p m -> stands (kept m) x m -> (length t < reads)%nat ->
  exists f, file_loop read_file reads (tg ++ rest) (blen user) (kept m) (blen p) x = Ok f /\ f <> ReadError /\ found_text f = answer (search t m).
Proof.
  intros Hr Hs. induction reads as [|reads IH]; intros p t x m HT Hm Hx Hf; [lia|]. cbn [file_loop]. 
  assert (Hk : (length (kept m) < NGX_HTTP_AUTH_BUF_SIZE)%nat).
  { destruct m as [n|acc|]; cbn; try (unfold NGX_HTTP_AUTH_BUF_SIZE; lia). destruct Hm as ((p' & ->) & Hacc). by apply (Hs p' acc t); rewrite <- ?app_assoc in HT. }
  set (room := (NGX_HTTP_AUTH_BUF_SIZE - length (kept m))%nat). assert (0 < room)%nat by lia. specialize (Hr (Z.of_nat room) (blen p) ltac:(lia) ltac:(unfold blen; lia)).
  assert (EL : blen T = blen p + blen t) by (rewrite HT; unfold blen; rewrite length_app; lia). rewrite EL in Hr. destruct t as [|c0 t0].
  - rewrite Z.add_0_r, Z.ltb_irrefl in Hr. rewrite Hr. eexists. split; [reflexivity|]. cbn [search]. destruct m as [n|acc|]; cbn in Hx |- *.
    + destruct Hx as (-> & _). done.
    + destruct Hx as (-> & Hd & Hl). rewrite Hd. split; [done|]. cbn. f_equal. apply take_ge. apply (f_equal length) in Hd. rewrite length_drop in Hd. lia.
    + rewrite Hx. done.
  - rewrite (proj2 (Z.ltb_lt _ _)) in Hr by (unfold blen; cbn; lia). set (t := c0 :: t0) in *.
    assert (Ed : drop (Z.to_nat (blen p)) T = t) by (unfold blen; rewrite Nat2Z.id, HT; apply drop_app_length). rewrite Ed, Nat2Z.id in Hr. destruct Hr as (k & Hk0 & Hr). fold room. rewrite Hr.
    destruct (take k t) as [|c1 t1] eqn:Et. { destruct k; [lia|done]. } rewrite <- Et. 
    rewrite (proj2 (Nat.ltb_ge _ _)) by (rewrite length_take; fold room; lia). pose proof (scan_ok rest (take k t) (kept m) x m Hx) as Hsc. 
    assert (ES : search t m = match search (take k t) m with inl w => inl w | inr m' => search (drop k t) m' end) by (rewrite <- search_app, take_drop; done). rewrite ES.
    destruct (search (take k t) m) as [w|m'] eqn:Es.
    + destruct Hsc as (i & x' & -> & Hw). rewrite obind_Ok. eexists. split; [reflexivity|]. split; [done|]. cbn. by rewrite Hw.
    + destruct Hsc as (x' & -> & Hx'). rewrite obind_Ok.
      assert (E2 : blen p + blen (take k t) = blen (p ++ take k t)) by (unfold blen; rewrite length_app; lia).
      assert (G : forall x2, stands (kept m') x2 m' -> exists f, file_loop read_file reads (tg ++ rest) (blen user) (kept m') (blen p + blen (take k t)) x2 = Ok f /\ f <> ReadError /\ found_text f = answer (search (drop k t) m')).
      { intros x2 Hx2. rewrite E2. apply IH; [by rewrite <- app_assoc, take_drop|by eapply tail_search|done|]. rewrite length_drop. unfold t in *. cbn [length] in *. lia. }
      destruct m' as [n|acc|]; cbn [stands kept] in *.
      * destruct Hx' as (Es1 & ?). rewrite Es1. by apply G.
      * destruct Hx' as (Es1 & Ed1 & ?). rewrite Es1, Ed1. apply G. cbn. split; [done|]. split; [done|lia].
      * rewrite Hx'. by apply G.
Qed.
End Search.
End FileFacts.

(** ** The answer *)
Module HandlerFacts.
Import Crypt AuthBasic CryptFacts FileFacts.

Section Handler.
Context {Osm : OSMem} (crypt_r : bytes -> bytes -> option bytes) (sha1 : bytes -> bytes) (stack : Md5.ngx_md5_t).
Implicit Types (pl : pool) (o : os) (r : request).

Lemma list_push_fine {A} (l : ngx_list A) x pl o : list_ok l -> pool_fine pl ->
  exists l' pl' o', ngx_list_push l x pl o = Ok (l', pl', o') /\ pool_fine pl' /\ (l' = None -> ~ generous).
Proof.
  intros (Hn & Hl) Hf. unfold ngx_list_push, list_slot, ngx_palloc. destruct (Z.eqb_spec (Z.of_nat (length (last_part l))) (l_nalloc l)).
  - destruct (palloc_fine true pl sizeof_list_part o Hf) as (m & pl1 & o1 & -> & Hf1 & Hg). rewrite obind_Ok. destruct m; [|do 3 eexists; split; [reflexivity|]; split; [done|]; intros _; by apply Hg].
    destruct (palloc_fine true pl1 (l_nalloc l * l_size l) o1 Hf1) as (m & pl2 & o2 & -> & Hf2 & Hg2). rewrite obind_Ok. destruct m; [|do 3 eexists; split; [reflexivity|]; split; [done|]; intros _; by apply Hg2].
    cbn [last_part l_nalloc length]. rewrite (proj2 (Z.leb_gt _ _)) by lia. do 3 eexists. split; [reflexivity|]. done.
  - rewrite (proj2 (Z.leb_gt _ _)) by lia. do 3 eexists. split; [reflexivity|]. done.
Qed.
Definition challenge (realm : bytes) : bytes := bs "Basic realm=" ++ [34] ++ realm ++ [34].
Lemma set_realm_ok r realm pl o : list_ok (headers r) -> pool_fine pl ->
  exists rc r' pl' o', ngx_http_auth_basic_set_realm r realm pl o = Ok (rc, r', pl', o') /\
    (rc = NGX_HTTP_UNAUTHORIZED /\ www_authenticate r' = Some (challenge realm) \/ rc = NGX_HTTP_INTERNAL_SERVER_ERROR /\ ~ generous).
Proof.
  intros Hl Hp. unfold ngx_http_auth_basic_set_realm. fold (challenge realm). destruct (list_push_fine (headers r) (challenge realm) pl o Hl Hp) as (l & pl1 & o1 & -> & Hp1 & Hg). rewrite obind_Ok.
  destruct l as [l|]; [|do 4 eexists; split; [reflexivity|]; right; split; [done|]; by apply Hg]. unfold ngx_pnalloc.
  destruct (palloc_fine false pl1 (14 + blen realm) o1 Hp1) as (m & pl2 & o2 & -> & Hp2 & Hg2). rewrite obind_Ok. destruct m; [|do 4 eexists; split; [reflexivity|]; right; split; [done|]; by apply Hg2].
  rewrite (proj2 (Z.ltb_ge _ _)); [do 4 eexists; split; [reflexivity|]; by left|]. unfold challenge, blen. rewrite !length_app. change (length (bs "Basic realm=")) with 12%nat. cbn [length]. lia.
Qed.

(** What the handler should answer to a user with a password for the text [found] in the file. *)
Definition answered (password realm : bytes) (stored : option bytes) (rc : Z) r : Prop :=
  rc = NGX_OK /\ (exists t, stored = Some t /\ encrypt crypt_r sha1 password (cstr t) = Some (cstr t)) \/
  rc = NGX_HTTP_UNAUTHORIZED /\ www_authenticate r = Some (challenge realm) /\ (forall t, stored = Some t -> encrypt crypt_r sha1 password (cstr t) <> Some (cstr t)) \/
  rc = NGX_HTTP_INTERNAL_SERVER_ERROR /\ (~ generous \/ exists t, stored = Some t /\ encrypt crypt_r sha1 password (cstr t) = None).
Lemma refused password realm r pl o : list_ok (headers r) -> pool_fine pl ->
  exists rc r' pl' o', ngx_http_auth_basic_set_realm r realm pl o = Ok (rc, r', pl', o') /\ forall stored, (forall t, stored = Some t -> encrypt crypt_r sha1 password (cstr t) <> Some (cstr t)) -> answered password realm stored rc r'.
Proof.
  intros Hl Hp. destruct (set_realm_ok r realm pl o Hl Hp) as (rc & r' & pl' & o' & E & H). do 4 eexists. split; [exact E|]. intros stored Hs.
  destruct H as [(? & ?)|(? & ?)]; [by right; left|right; right; eauto].
Qed.
Lemma crypt_handler_ok r t realm pl o : (forall t, Forall is_byte (sha1 t) /\ length (sha1 t) = 20%nat) ->
  list_ok (headers r) -> pool_fine pl -> starts magic (cstr t) = false ->
  exists rc r' pl' o', ngx_http_auth_basic_crypt_handler crypt_r sha1 stack r t realm pl o = Ok (rc, r', pl', o') /\ answered (cstr (passwd r)) realm (Some t) rc r'.
Proof.
  intros Hd Hl Hp Hm. unfold ngx_http_auth_basic_crypt_handler. destruct (crypt_ok crypt_r sha1 stack Hd (cstr (passwd r)) (cstr t) pl o Hp Hm) as (rc & w & pl1 & o1 & -> & Hp1 & H). rewrite obind_Ok.
  destruct H as [(-> & H)|(-> & H)].
  - rewrite Z.eqb_refl. case_bool_decide as Ew. { subst w. do 4 eexists. split; [reflexivity|]. left. eauto. }
    destruct (refused (cstr (passwd r)) realm r pl1 o1 Hl Hp1) as (rc & r' & pl' & o' & E & G). do 4 eexists. split; [exact E|]. apply G. intros ? [= <-]. congruence.
  - change (NGX_ERROR =? NGX_OK) with false. rewrite Z.eqb_refl. do 4 eexists. split; [reflexivity|]. right. right. split; [done|]. destruct H; [right; eauto|by left].
Qed.

(** *** The name and the password *)
Lemma find_colon_at user rest : 58 ∉ user -> forall n, find_colon (user ++ 58 :: rest) n = n + blen user.
Proof.
  induction user as [|c user IH]; intros Hu n; [unfold blen; cbn; lia|]. apply not_elem_of_cons in Hu as [Hc Hu]. cbn [app find_colon]. rewrite (proj2 (Z.eqb_neq _ _)) by done. rewrite IH by done. unfold blen. cbn [length]. lia.
Qed.
Lemma skip_spaces_encoded t : Forall is_byte t -> t <> [] -> skip_spaces (Base64.ngx_encode_base64 t) = Base64.ngx_encode_base64 t /\ blen (Base64.ngx_encode_base64 t) <> 0.
Proof.
  intros Ht Hne. destruct (Base64Facts.encode_decode t Ht) as (u & E & _). pose proof (Base64Facts.encode_length t) as El. destruct (Base64.ngx_encode_base64 t) as [|c e].
  - destruct t as [|? t]; [done|]. cbn [length] in El. pose proof (Nat.div_le_mono 3 (S (length t) + 2) 3 ltac:(lia) ltac:(lia)). change (3 / 3)%nat with 1%nat in *. lia.
  - split; [|unfold blen; cbn; lia]. assert (c <> 32) by (intros ->; vm_compute in E; discriminate). cbn [skip_spaces]. by repeat case_match.
Qed.
Lemma cstr_end t : 0 ∉ t -> cstr (t ++ [0]) = t.
Proof. induction t as [|c t IH]; intros Ht; [done|]. apply not_elem_of_cons in Ht as [Hc Ht]. cbn [app cstr]. rewrite (proj2 (Z.eqb_neq c 0)) by done. by rewrite IH. Qed.
Lemma cpystrn_ok a n : forall i, (i + n <= length a)%nat -> exists t, cpystrn a i n = Ok t.
Proof.
  induction n as [|n IH]; intros i H; [by eexists|]. cbn [cpystrn]. destruct (rd_in_range a i ltac:(lia)) as (c & _ & ->). rewrite obind_Ok. destruct (c =? 0); [by eexists|].
  destruct (IH (S i) ltac:(lia)) as (t & ->). by eexists.
Qed.
Definition credentials (user password : bytes) : bytes := bs "Basic " ++ Base64.ngx_encode_base64 (user ++ 58 :: password).
Lemma user_ok user password r pl o : Forall is_byte user -> Forall is_byte password -> user <> [] -> 58 ∉ user -> 0 ∉ password -> pool_fine pl ->
  authorization r = Some (credentials user password) -> user_data r = None ->
  exists rc r' pl' o', ngx_http_auth_basic_user r pl o = Ok (rc, r', pl', o') /\ pool_fine pl' /\ headers r' = headers r /\
    (rc = NGX_ERROR /\ ~ generous \/
     rc = NGX_OK /\ user_len r' = blen user /\ user_data r' = Some ((user ++ [58]) ++ password ++ [0]) /\ cstr (passwd r') = password).
Proof.
  intros Hu Hw Hne Hc Hn Hp Ha Hd. unfold ngx_http_auth_basic_user. rewrite Hd, andb_false_r, Ha. set (auth := user ++ 58 :: password).
  assert (Hb : Forall is_byte auth) by (apply Forall_app_2; [done|]; constructor; [unfold is_byte; lia|done]). assert (Hne' : auth <> []) by (unfold auth; by destruct user).
  unfold credentials. fold auth. destruct (skip_spaces_encoded auth Hb Hne') as (Es & Ez). set (enc := Base64.ngx_encode_base64 auth) in *.
  change (Search.ngx_strncasecmp (bs "Basic " ++ enc) 0 (bs "Basic ") 0 6) with (@Ok Z 0). rewrite (proj2 (Z.ltb_ge _ _)) by (unfold blen; rewrite length_app; change (length (bs "Basic ")) with 6%nat; lia).
  rewrite obind_Ok, Z.eqb_refl, obind_Ok. cbn [negb]. change (drop 6 (bs "Basic " ++ enc)) with enc. rewrite Es, (proj2 (Z.eqb_neq _ _)) by done. unfold ngx_pnalloc.
  destruct (palloc_fine false pl (decoded_length (blen enc) + 1) o Hp) as (m & pl1 & o1 & -> & Hp1 & Hg). rewrite obind_Ok. destruct m as [a|]; [|do 4 eexists; split; [reflexivity|]; split; [done|]; split; [done|]; left; split; [done|]; by apply Hg].
  unfold enc. rewrite base64_again by done. assert (Ef : find_colon auth 0 = blen user) by by apply find_colon_at. rewrite Ef.
  assert (E1 : (blen user =? 0) = false) by (apply Z.eqb_neq; unfold blen; destruct user; [done|cbn; lia]). assert (E2 : (blen user =? blen auth) = false) by (apply Z.eqb_neq; unfold blen, auth; rewrite length_app; cbn; lia).
  rewrite E1, E2. cbn [orb]. do 4 eexists. split; [reflexivity|]. split; [done|]. split; [done|]. right. split; [done|]. cbn. split; [done|].
  split; [unfold auth; by rewrite <- !app_assoc|]. unfold auth. replace (Z.to_nat (blen user) + 1)%nat with (length (user ++ [58])) by (unfold blen; rewrite length_app; cbn; lia).
  replace ((user ++ 58 :: password) ++ [0]) with ((user ++ [58]) ++ password ++ [0]) by (by rewrite <- !app_assoc). rewrite drop_app_length. by apply cstr_end.
Qed.
End Handler.
End HandlerFacts.

Section Theorems.
Import Crypt Apr1Facts CryptFacts.
Context {Osm : OSMem} (crypt_r : bytes -> bytes -> option bytes) (sha1 : bytes -> bytes) (stack : Md5.ngx_md5_t).

(** A password that the schemes {PLAIN}, {SSHA} or {SHA} encrypt verifies: encrypting it
    again with what was written as the salt writes the same text, whatever the first salt was,
    base64 or not; the only failure is that the memory runs out. *)
Theorem crypt_verifies key salt pl o :
  (forall t, Forall is_byte (sha1 t) /\ length (sha1 t) = 20%nat) -> pool_fine pl -> Forall is_byte salt ->
  starts (bs "{PLAIN}") salt || starts (bs "{SSHA}") salt || starts (bs "{SHA}") salt = true ->
  exists rc e pl1 o1, ngx_crypt crypt_r sha1 stack key salt pl o = Ok (rc, e, pl1, o1) /\
    (rc = NGX_ERROR /\ ~ generous \/ rc = NGX_OK /\ encrypt crypt_r sha1 key salt = Some e /\
      exists rc' e' pl2 o2, ngx_crypt crypt_r sha1 stack key e pl1 o1 = Ok (rc', e', pl2, o2) /\ (rc' = NGX_ERROR /\ ~ generous \/ rc' = NGX_OK /\ e' = e)).
Proof.
  intros Hd Hp Hs H. assert (Hm : starts magic salt = false) by by apply not_magic.
  destruct (encrypt_again crypt_r sha1 Hd key salt Hs) as (e & Ee & Ea & Em); [by rewrite Hm|]. rewrite Hm in Em.
  destruct (crypt_ok crypt_r sha1 stack Hd key salt pl o Hp Hm) as (rc & w & pl1 & o1 & E & Hp1 & Hw). do 4 eexists. split; [exact E|].
  destruct Hw as [(-> & Hw)|(-> & [Hw|Hw])]; [right|congruence|by left]. assert (w = e) as -> by congruence. split; [done|]. split; [done|].
  destruct (crypt_ok crypt_r sha1 stack Hd key e pl1 o1 Hp1 Em) as (rc' & w' & pl2 & o2 & E' & _ & Hw'). do 4 eexists. split; [exact E'|].
  destruct Hw' as [(-> & Hw')|(-> & [Hw'|Hw'])]; [right|congruence|by left]. split; [done|congruence].
Qed.

(** C40: MD5 crypt never encrypts a password.  With the salt [s], at most 8 bytes up to a
    dollar, it asks for [apr1_size s] bytes and writes into them the magic, the salt, a dollar,
    a digest of 22 letters and a NUL: 7 bytes more than it asked for, for every key and salt.
    So the call is undefined, unless the memory runs out. *)
Theorem apr1_overruns key salt pl o :
  length (Md5.buffer stack) = 64%nat -> pool_fine pl -> Forall is_byte key -> blen key < 2 ^ 64 -> Forall is_byte salt -> starts magic salt = true ->
  let s := true_salt 8 (drop 6 salt) in
  exists digest, length digest = 22%nat /\ apr1_text stack key s = Ok (magic ++ s ++ [36] ++ digest) /\
    ngx_crypt crypt_r sha1 stack key salt pl o = store_text (apr1_size s) (magic ++ s ++ [36] ++ digest) pl o /\
    blen (magic ++ s ++ [36] ++ digest) + 1 = apr1_size s + 7 /\
    (ngx_crypt crypt_r sha1 stack key salt pl o = Undef OutOfBounds \/
     ~ generous /\ exists pl' o', ngx_crypt crypt_r sha1 stack key salt pl o = Ok (NGX_ERROR, [], pl', o')).
Proof.
  intros Hb Hp Hk Hl Hs Hm s. pose proof (true_salt_short (drop 6 salt) (Forall_drop _ 6 _ Hs)) as Hu. fold s in Hu.
  exists (final_text (digests 1000 0 key s (first_digest key s))). split; [done|].
  change (magic ++ s ++ [36] ++ _) with (apr1 key s). pose proof (apr1_text_ok stack key s Hb (conj Hk Hl) Hu) as E.
  assert (Ec : ngx_crypt crypt_r sha1 stack key salt pl o = store_text (apr1_size s) (apr1 key s) pl o).
  { unfold ngx_crypt. rewrite Hm. unfold ngx_crypt_apr1. fold s. by rewrite E, obind_Ok. }
  rewrite Ec. pose proof (apr1_blen key s). split_and!; [done..|]. apply store_overrun; [done|lia].
Qed.

(** C39: For a request with a user name and a password in its Authorization header, when
    neither user name is empty or holds a colon nor the password a NUL, and a file of users whose
    lines are empty, comments or have a colon and are shorter than the buffer of 2048 bytes, read
    in pieces of any size: the first line for the name decides.  When the password,
    encrypted with the text of that line as the salt, gives that text the request is let in;
    when it does not, or there is no such line, the answer is 401 with a challenge for the
    realm.  It fails only when memory runs out or the C library does not know the salt.  The
    line must not be of MD5 crypt, which [apr1_overruns] is about. *)
Theorem auth_basic_checks user password realm file ls last read_file reads r pl o :
  (forall t, Forall is_byte (sha1 t) /\ length (sha1 t) = 20%nat) -> pool_fine pl -> list_ok (AuthBasic.headers r) ->
  Forall is_byte user -> Forall is_byte password -> user <> [] -> 58 ∉ user -> 0 ∉ password ->
  AuthBasic.authorization r = Some (HandlerFacts.credentials user password) -> AuthBasic.user_data r = None -> realm <> bs "off" ->
  Forall FileFacts.line_ok (ls ++ [last]) -> FileFacts.reads_text read_file (FileFacts.file_text ls last) -> FileFacts.short_lines (FileFacts.file_text ls last) ->
  (length (FileFacts.file_text ls last) < reads)%nat -> (forall t, FileFacts.find_user user (ls ++ [last]) = Some t -> starts magic (cstr t) = false) ->
  exists rc r' pl' o',
    AuthBasic.ngx_http_auth_basic_handler crypt_r sha1 stack read_file (Some (Some realm)) (Some (Some file)) None reads r pl o = Ok (rc, r', pl', o') /\
    HandlerFacts.answered crypt_r sha1 password realm (FileFacts.find_user user (ls ++ [last])) rc r'.
Proof.
  intros Hd Hp Hl Hu Hw Hne Hc Hn Ha Hud Hre Hls Hr Hsh Hf Hm. unfold AuthBasic.ngx_http_auth_basic_handler. rewrite bool_decide_eq_false_2 by done.
  destruct (HandlerFacts.user_ok user password r pl o Hu Hw Hne Hc Hn Hp Ha Hud) as (rc & r1 & pl1 & o1 & -> & Hp1 & Eh & H). rewrite obind_Ok.
  destruct H as [(-> & Hg)|(-> & El & Ed & Ew)].
  { change (NGX_ERROR =? NGX_DECLINED) with false. rewrite Z.eqb_refl. do 4 eexists. split; [reflexivity|]. right. right. split; [done|by left]. }
  change (NGX_OK =? NGX_DECLINED) with false. change (NGX_OK =? NGX_ERROR) with false. rewrite Ed. cbn [deref]. rewrite obind_Ok, El. rewrite <- Eh in Hl.
  destruct (FileFacts.file_loop_ok user read_file (FileFacts.file_text ls last) (password ++ [0]) Hr Hsh reads [] (FileFacts.file_text ls last) (AuthBasic.mk_scanner AuthBasic.sw_login 0 0) (FileFacts.MLogin 0))
    as (f & Ef & Hne' & Hft); [done|done|cbn; split; [done|split; [done|lia]]|done|]. change (blen []) with 0 in Ef. cbn [FileFacts.kept] in Ef. rewrite Ef, obind_Ok.
  rewrite FileFacts.search_file in Hft by done. rewrite <- Hft in *. destruct f as [t|t| |]; cbn [FileFacts.found_text] in *; [| | |done].
  - rewrite <- Ew. apply HandlerFacts.crypt_handler_ok; try done. by apply Hm.
  - unfold ngx_pnalloc. destruct (palloc_fine false pl1 (blen t + 1) o1 Hp1) as (m & pl2 & o2 & -> & Hp2 & Hg). rewrite obind_Ok. destruct m.
    + destruct (HandlerFacts.cpystrn_ok (t ++ [0]) (length t) 0) as (w & E); [rewrite length_app; cbn; lia|]. rewrite Nat.add_1_r. cbn [ngx_cpystrn]. rewrite E, obind_Ok. rewrite <- Ew. apply HandlerFacts.crypt_handler_ok; try done. by apply Hm.
    + do 4 eexists. split; [reflexivity|]. right. right. split; [done|]. left. by apply Hg.
  - destruct (HandlerFacts.refused crypt_r sha1 password realm r1 pl1 o1 Hl Hp1) as (rc & r' & pl' & o' & E & G). do 4 eexists. split; [exact E|]. by apply G.
Qed.
End Theorems.

(** *** Examples *)
Section Demo.
Import Crypt AuthBasic FileFacts HandlerFacts.
Definition demo_sha1 (t : bytes) : bytes := take 20 (map u8 t ++ replicate 20 7).
Lemma demo_sha1_digest t : Forall is_byte (demo_sha1 t) /\ length (demo_sha1 t) = 20%nat.
Proof.
  split; [|unfold demo_sha1; rewrite length_take, length_app, length_replicate; lia]. apply Forall_take, Forall_app_2; [|by apply all_bytes].
  induction t as [|c t IH]; [done|]. constructor; [apply CryptFacts.u8_byte|done].
Qed.
Definition demo_crypt_r (key salt : bytes) : option bytes := None.
Definition demo_stack : Md5.ngx_md5_t := Md5.mk_md5 0 0 0 0 0 (replicate 64 0).
Lemma demo_auth_pool : pool_fine demo_pool4k.
Proof. split; [discriminate|vm_compute; discriminate]. Qed.

Lemma crypt_verifies_witness : exists e pl o pl' o', ngx_crypt (Osm := endless_mem) demo_crypt_r demo_sha1 demo_stack (bs "pw") (bs "{SSHA}") demo_pool4k 100000 = Ok (NGX_OK, e, pl, o) /\
  ngx_crypt (Osm := endless_mem) demo_crypt_r demo_sha1 demo_stack (bs "pw") e pl o = Ok (NGX_OK, e, pl', o').
Proof.
  destruct (crypt_verifies (Osm := endless_mem) demo_crypt_r demo_sha1 demo_stack (bs "pw") (bs "{SSHA}") demo_pool4k 100000 demo_sha1_digest demo_auth_pool) as (rc & e & pl & o & E & H); [by apply all_bytes|reflexivity|].
  destruct H as [(_ & H)|(-> & _ & rc' & e' & pl' & o' & E' & H)]; [destruct (H endless_generous)|]. destruct H as [(_ & H)|(-> & ->)]; [destruct (H endless_generous)|]. by exists e, pl, o, pl', o'.
Defined.

Lemma apr1_overruns_witness : exists digest, length digest = 22%nat /\
  ngx_crypt (Osm := endless_mem) demo_crypt_r demo_sha1 demo_stack (bs "pw") (bs "$apr1$salt$") demo_pool4k 100000 =
    store_text (Osm := endless_mem) 27 (bs "$apr1$salt$" ++ digest) demo_pool4k 100000 /\
  ngx_crypt (Osm := endless_mem) demo_crypt_r demo_sha1 demo_stack (bs "pw") (bs "$apr1$salt$") demo_pool4k 100000 = Undef OutOfBounds.
Proof.
  destruct (apr1_overruns (Osm := endless_mem) demo_crypt_r demo_sha1 demo_stack (bs "pw") (bs "$apr1$salt$") demo_pool4k 100000) as (d & Hd & _ & E & _ & H);
    [reflexivity|exact demo_auth_pool|by apply all_bytes|reflexivity|by apply all_bytes|reflexivity|].
  exists d. split; [exact Hd|]. split; [exact E|]. destruct H as [H|(H & _)]; [exact H|destruct (H endless_generous)].
Defined.

(** A file that is read five bytes at a time. *)
Definition demo_lines : list bytes := [bs "#users"; bs "al:{PLAIN}x"].
Definition demo_last : bytes := bs "bob:{PLAIN}pw:Bob".
Definition demo_read (n off : Z) : option bytes := Some (take (Z.to_nat n `min` 5) (drop (Z.to_nat off) (file_text demo_lines demo_last))).
Lemma demo_reads : reads_text demo_read (file_text demo_lines demo_last).
Proof.
  intros n off Hn Ho. unfold demo_read. destruct (Z.ltb_spec off (blen (file_text demo_lines demo_last))) as [H|H]; [|rewrite drop_ge by (unfold blen in H; lia); by rewrite take_nil].
  exists (Z.to_nat n `min` 5)%nat. split; [lia|done].
Qed.
Lemma demo_short : short_lines (file_text demo_lines demo_last).
Proof. intros p t q E _. apply (f_equal length) in E. rewrite !length_app in E. change (length (file_text demo_lines demo_last)) with 36%nat in E. unfold NGX_HTTP_AUTH_BUF_SIZE. lia. Qed.
Lemma demo_lines_ok : Forall line_ok (demo_lines ++ [demo_last]).
Proof. repeat apply Forall_cons_2; try done; (split; [by apply (bool_decide_unpack _)|]); [right; by left|right; right; right; by apply (bool_decide_unpack _)..]. Qed.
Definition demo_auth (user password : bytes) : request := mk_request (Some (credentials user password)) None 0 [] None (mk_list [] [] 24 20).

Lemma auth_basic_checks_witness : exists r pl o,
  ngx_http_auth_basic_handler (Osm := endless_mem) demo_crypt_r demo_sha1 demo_stack demo_read (Some (Some (bs "zone"))) (Some (Some (bs "users"))) None 50 (demo_auth (bs "bob") (bs "pw")) demo_pool4k 100000 = Ok (NGX_OK, r, pl, o).
Proof.
  destruct (auth_basic_checks (Osm := endless_mem) demo_crypt_r demo_sha1 demo_stack (bs "bob") (bs "pw") (bs "zone") (bs "users") demo_lines demo_last demo_read 50 (demo_auth (bs "bob") (bs "pw")) demo_pool4k 100000)
    as (rc & r & pl & o & E & H); [exact demo_sha1_digest|exact demo_auth_pool|by split|by apply all_bytes|by apply all_bytes|done|by apply (bool_decide_unpack _)|by apply (bool_decide_unpack _)|reflexivity|reflexivity|done|exact demo_lines_ok|exact demo_reads|exact demo_short|apply Nat.ltb_lt; reflexivity|intros t [= <-]; reflexivity|].
  exists r, pl, o. rewrite E. destruct H as [(-> & _)|[(_ & _ & H)|(_ & [H|(t & Et & H)])]]; [done| | |].
  - destruct (H _ eq_refl). reflexivity.
  - destruct (H endless_generous).
  - injection Et as <-. discriminate H.
Defined.
End Demo.
